(* ===== verification/_CoqProject ===== *)
-Q . S2P
Prelude.v
Bitmap.v
Fs.v
FfsSubr.v
FfsAlloc.v
FfsMap.v
FfsInv.v
FfsBlocks.v
FfsState.v
FfsFree.v
FfsHash.v
FfsInode.v
FfsTop.v
FfsRealloc.v
FfsExample.v
FfsProps.v
FfsPolicyProps.v
RunQ.v
RunQProps.v
UfsBmap.v
UfsBmapProps.v
Priv.v
Cred.v
CredInv.v
CredAccess.v
CredProps.v
Acl.v
AclSpec.v
AclProps.v
UfsAcl.v
UfsAclSpec.v
AclTop.v
Blist.v
BlistTree.v
BlistLeaf.v
BlistAlloc.v
BlistFree.v
BlistRep.v
BlistProps.v
Caps.v
CapsInv.v
Fd.v
FdBits.v
FdTable.v
FdCalls.v
FdProc.v
FdFiles.v
FdLocal.v
FdClose.v
FdCopy.v
FdWorld.v
FdInv.v
FdExample.v
FdProps.v
Radix.v
RadixInv.v
RadixRemove.v
RadixNear.v
RadixMap.v
RadixProps.v
Phys.v
PhysInv.v
PhysFree.v
PhysAlloc.v
PhysContig.v
PhysSeg.v
PhysBoot.v
PhysHeld.v
PhysProps.v
LfGraph.v
LfGraphInv.v
LfGraphEdge.v
LfGraphOps.v
Lockf.v
LockfMem.v
LockfWait.v
LockfSplit.v
LockfSet.v
LockfCalls.v
LfProps.v
