(* ===== verification/Prelude.v ===== *)
(** * A verified model of parts of the McKusick course kernel

    The repository is the FreeBSD 11 kernel source that Marshall Kirk
    McKusick's course reads, under src/sys. This library models the parts of
    it whose logic is sequential and self-contained, and proves what makes
    them correct. Configuration: amd64, INVARIANTS, no QUOTA, no MAC, no
    VIMAGE, no RACCT, a mount without soft updates, POSIX_APPENDIX_B_4_2_2
    defined as in kern_prot.c and _POSIX_SAVED_IDS not.

    ** The parts

    - The FFS allocator (src/sys/ufs/ffs). [Fs]: the superblock, the cylinder
      group and the macros of fs.h, the tables of ffs_tables.c. [FfsSubr]: the
      block tests, fragment and cluster accounting of ffs_subr.c. [FfsAlloc]:
      ffs_alloc.c, from [ffs_alloc], [ffs_realloccg], [ffs_valloc] and the
      preferences ([ffs_dirpref], [ffs_blkpref_ufs1], [ffs_blkpref_ufs2]) over
      [ffs_hashalloc] down to [ffs_alloccg], [ffs_fragextend],
      [ffs_clusteralloc], [ffs_nodealloccg], [ffs_mapsearch], and the frees
      [ffs_blkfree], [ffs_blkfree_cg], [ffs_freefile]. The state is the
      in-core superblock with the summaries [fs_cs] and the cylinder groups
      as the buffer cache holds them; which group's block cannot be read is
      the parameter [bread_error]; libkern's [scanc] and [memcchr] are
      the class [Libkern], with their documented behaviour as [LibkernSpec].
    - The run queues (src/sys/kern/kern_switch.c, sys/runq.h). [RunQ]: the
      queues hold addresses of threads in a store; [critical_enter] and
      [critical_exit] with the deferred preemption.
    - The file block map (src/sys/ufs/ufs/ufs_bmap.c). [UfsBmap]: the buffer
      cache is the parameter that gives the contents of indirect blocks.
    - Credentials (src/sys/kern/kern_prot.c, kern_priv.c, kern_jail.c).
      [Priv]: the prison tree, [prison_priv_check], [priv_check_cred]. [Cred]:
      the group list and the set-id system calls. [CredAccess]: who may see,
      signal, debug whom. The calls use [Priv] for privilege.
    - Access control lists (src/sys/kern/subr_acl_posix1e.c, vfs_acl.c,
      vaccess of vfs_subr.c, ufs/ufs/ufs_acl.c, ufs_vnops.c). [Acl]: modes,
      POSIX.1e lists, their check and evaluation, the system calls' copies.
      [UfsAcl]: the lists of a UFS file in its extended attributes, access to
      files, inheritance from a directory. Extended attributes are the class
      [ExtAttr] with its laws; NFSv4 lists are a parameter.
    - Swap block lists (src/sys/kern/subr_blist.c). [Blist]: the radix tree of
      bit maps, in its array, with the radix and skip of each level; recursion
      has fuel 8 for the depth, and a list of at most 2^29 blocks has fewer
      levels than that.
    - Capability rights (src/sys/kern/subr_capability.c, sys_capability.c,
      filecaps of kern_descrip.c). [Caps].
    - File descriptors (src/sys/kern/kern_descrip.c, uipc_syscalls.c, and the
      calls of fork, exec and exit on tables). [Fd]: one table, its bit map and
      growth. [FdCalls]: open files with their counts, the calls that use one
      table (dup, close, closefrom, sockets). [FdProc]: fcntl, capability
      limits, use of a file, copying, sharing and releasing tables. [FdWorld]:
      all processes and their tables, and the operations on them in any
      order. Files and tables are named by address; the addresses that the
      allocator gives are arguments.
    - The trie of resident pages (src/sys/vm/vm_radix.c). [Radix]: the trie by
      which an object finds its pages, whose nodes have 16 children and whose
      paths are compressed. The zone of nodes is a count of nodes in use; what
      it does on a request (give a node, fail, or first remove pages of this
      trie) is an argument, and the undefined shift for the top level is the
      parameter [shift_out].
    - The page allocator (src/sys/vm/vm_phys.c, and its start in vm_page.c).
      [Phys]: the buddy allocator. Pages are named by frame number; the
      segments and the list of the domains to try are arguments; queues are
      given by domain, free list, pool and order. [PhysSeg]: the segments, the
      free lists and the part of vm_page_startup that fills them. The trie and
      the allocator meet only through the page structure, of which each has
      the fields it uses.

    - Advisory record locks (src/sys/kern/kern_lockf.c). [LfGraph]: the graph
      of lock owners in which deadlocks are looked for, its vertices kept in a
      topological order. [Lockf]: locks, owners and the states of files, named
      by address; the edges from pending locks to those they wait for; setting,
      clearing, asking and cancelling, from [lf_advlockasync] down. A call that
      sleeps stops at sx_sleep, and a [kernel] is the locks and the sleeping
      threads; an [event] is a call, the end of a sleep, by a wakeup or a
      signal, or the end of a file. [lf_activate_lock] has a round for each
      pending lock and one more, as each round takes one off that list.

    Kernel panics are the [Panic] outcome of [result]; an errno is a value.
    A C loop is a [search], [foreach] or a Fixpoint with fuel; the theorems
    show that the result is there, so the fuel is enough: the quadratic probe
    of [ffs_hashalloc] has 33 steps and the number of groups is at most 2^31;
    [nodealloc_restart] has as many rounds as the group has inode blocks, plus
    two; [ffs_mapsearch] visits the bits of one byte; the walk up the prison
    tree has as many steps as there are prisons; the binary search of
    [groupmember] as many as there are groups; the walks of the trie have 17
    rounds, as a path has 16 levels, and the searches 48, each round going to
    another node of two paths; the loops of [vm_phys_free_contig] and
    [take_blocks] have as many as there are pages; the searches of the owner
    graph have one more than it has vertices. Widths are written out where
    the code depends on them (the unsigned casts, the words of the run queue's
    status bits); elsewhere counters are unbounded and the invariant bounds
    them.

    ** What is proved

    - [FfsMap], [FfsInv], [FfsBlocks], [FfsState], [FfsFree],
      [FfsHash], [FfsInode], [FfsTop], [FfsRealloc]:
      the invariant [state_ok] (every count, fragment sum and cluster summary
      is what the maps say) and each operation against the abstract state, the
      set of free fragments and the set of used inodes. [FfsHash] states what
      a per-group allocator promises ([GroupAllocator]) and proves the search
      over groups for any such; blocks and inodes are instances.
      [FfsProps] and [FfsPolicyProps] hold the theorems: allocation and
      release are exact and keep the invariant, freeing is the inverse of
      allocating, a double free panics, [ENOSPC] only for want of space,
      growth in place or by moving, directory placement. A release is fixed by
      the tests of [ffs_blkfree]: left to a snapshot, made at once, or made by
      the task after the [BIO_DELETE], until when the space stays taken. The
      choice of an inode includes the errno that [ffs_nodealloccg] returns as
      an inode number when it cannot read a group again.
    - [RunQProps]: the status bits are the non-empty queues, the choice is the
      first of the best queue; a queued thread waits for the threads that were
      before it and for no others, whatever happens at its priority and below
      ([rq_step]); preemption deferred to the end of the outermost critical
      section.
    - [UfsBmapProps]: [ufs_bmaparray] is the map of the file, its runs are
      runs of the file; the paths of [ufs_getlbns] are the digits of the block
      number.
    - [CredInv], [CredProps]: the group search is membership;
      every id call is a sequence of single changes, from which follow the
      invariants over any sequence of calls (no id gained without privilege,
      process counts follow the real id, changed credentials are marked); the
      access checks as logical conditions and how they imply one another.
    - [AclSpec], [AclProps], [UfsAclSpec], [AclTop]: what the
      checks accept, the decision by an ACL as the first entry that applies,
      agreement with the mode, what is set is read back, inheritance.
    - [BlistTree], [BlistLeaf], [BlistAlloc], [BlistFree], [BlistRep],
      [BlistProps]: the tree refines a set of free
      blocks; ranges given out are apart over any sequence of calls; a fill
      succeeds or panics as [fill_fits] says, for ranges of any length.
    - [CapsInv]: rights as sets, the invariant of a capability, the order of
      capabilities and that limits go down in it. [FdBits], [FdTable]: the bit
      searches and the invariant of a table. [FdFiles]: counts of references.
      [FdLocal], [FdClose], [FdCopy]:
      each call, on its table and on the counts. [FdInv]:
      the invariant of all tables, kept by every operation. [FdExample]: a run.
      [FdProps]: the theorems.
    - [RadixInv], [RadixRemove] (insertion too), [RadixNear]: the
      invariant of the trie and each operation against the map from indexes to
      pages that it holds. [RadixMap]: sequences of calls and those of the
      finite map. [RadixProps]: the trie refines the map; insertion without
      memory; the nearest pages.
    - [PhysInv]: the invariant of the free lists. [PhysFree], [PhysAlloc],
      [PhysContig]: each operation as a change of the
      set of free pages, and that the free pages determine the blocks.
      [PhysBoot]: the segments and the first state. [PhysHeld]: sequences of
      calls and the partition of the pages into free ones and runs held, and
      a small machine. [PhysProps]: the theorems.

    - [LfGraphInv]: the invariant of the owner graph and its searches, which
      find a path or the vertices between, and the new order. [LfGraphEdge]:
      insertion. [LfGraphOps]: each operation on vertices and edges.
      [LockfMem]: the invariant of locks, owners, their counts and vertices
      ([base]), kept by allocation, release and edges. [LockfWait]: active
      locks do not conflict, an edge is a conflict, every pending lock has one
      ([waits], [waiting]); releases grant what they unblock. [LockfSplit]: the
      map from owners and bytes to types ([lock_at]) and what activation makes
      of it. [LockfSet]: setting on every branch ([setlock_spec]).
      [LockfCalls]: the calls and the threads, [kernel_ok] and that every event
      keeps it. [LfProps]: the theorems: exclusion, no deadlock, no lost
      wakeup, the result of each call.

    ** What is not modelled, and why

    Interleaving inside an operation: operations run alone, one after the
    other, but for the record locks, whose threads sleep within a call. There
    the state lock of the file and the global locks make the steps between
    sleeps atomic; a race for the allocation of the state is left out.
    Of kern_lockf.c: lf_purgelocks, which waits for other threads to leave; the
    iterators over locks and with them F_UNLCKSYS, as they call functions of
    their callers; lf_countlocks; the debugging output.
    NFSv4 access control lists; directories, advisory locks and knotes of
    descriptor tables.
    Of vm_phys.c: fictitious pages, vm_phys_scan_contig, which looks at the
    objects of pages, the zeroing of idle pages and the sysctls.
    Soft updates, snapshots, the buffer cache and the name cache, the rest of
    virtual memory, drivers and the machine-dependent code: concurrency, I/O
    and hardware. Generated system call tables.

    Candidates to continue with: the passing of descriptors over sockets,
    lf_purgelocks, [ffs_reallocblks], the block allocation of
    ffs_balloc.c, directory entries of ufs_lookup.c, process groups and
    sessions of kern_prot.c and the timer arithmetic of kern_time.c. *)

(** * This file: generic definitions and lemmas shared by the components

    - [result]: the outcome of kernel code that either returns or calls
      [panic]; a monad with the do-notation of stdpp.
    - [zget]/[zset]: a C array as a list of integers, indexed by [Z].
    - [search]/[search_down]/[foreach]: the loop shapes of the sources.
    - [zsum]: finite sums, with the lemma that updates one summand.
    - [run_lengths]: the lengths of the maximal runs of [true] in a list. *)

From stdpp Require Export base tactics numbers list option strings.
From Stdlib Require Export ZArith Lia Bool.

#[global] Open Scope Z_scope.

Create HintDb kernel.
Create Rewrite HintDb kernel.
Create Rewrite HintDb bits.

(** ** Outcomes *)

Inductive result (A : Type) : Type :=
  | Ok (a : A)
  | Panic (msg : string).
Arguments Ok {A} a.
Arguments Panic {A} msg.

#[export] Instance result_ret : MRet result := fun A a => Ok a.
#[export] Instance result_bind : MBind result :=
  fun A B k m => match m with Ok a => k a | Panic msg => Panic msg end.

(** [KASSERT]/[panic] guards. *)
Definition require (b : bool) (msg : string) : result unit :=
  if b then Ok tt else Panic msg.

Lemma bind_Ok {A B} (a : A) (k : A -> result B) : (Ok a ≫= k) = k a.
Proof. reflexivity. Qed.

Lemma bind_inv {A B} (m : result A) (k : A -> result B) b :
  (m ≫= k) = Ok b -> exists a, m = Ok a /\ k a = Ok b.
Proof. destruct m; [by eauto | discriminate]. Qed.

Lemma require_true b msg : b = true -> require b msg = Ok tt.
Proof. by intros ->. Qed.

(** Split the conjunctions and boolean tests of the context. *)
Ltac bool_to_prop :=
  repeat match goal with
  | H : _ && _ = true |- _ => apply andb_prop in H; destruct H
  | H : _ || _ = false |- _ => apply orb_false_elim in H; destruct H
  | H : negb _ = true |- _ => apply negb_true_iff in H
  | H : negb _ = false |- _ => apply negb_false_iff in H
  | H : (_ =? _) = true |- _ => apply Z.eqb_eq in H
  | H : (_ =? _) = false |- _ => apply Z.eqb_neq in H
  | H : (_ <? _) = true |- _ => apply Z.ltb_lt in H
  | H : (_ <? _) = false |- _ => apply Z.ltb_ge in H
  | H : (_ <=? _) = true |- _ => apply Z.leb_le in H
  | H : (_ <=? _) = false |- _ => apply Z.leb_gt in H
  end.

(** Case analysis on an integer test of the goal, as a proposition. *)
Ltac zcase :=
  match goal with
  | |- context [?a =? ?b] => destruct (Z.eqb_spec a b)
  | |- context [?a <? ?b] => destruct (Z.ltb_spec a b)
  | |- context [?a <=? ?b] => destruct (Z.leb_spec a b)
  end.

(** Linear arithmetic with division and remainder. *)
Ltac dlia := intros; Z.to_euclidean_division_equations; lia.

(** Decide the integer tests of the goal that [lia] can settle. *)
Ltac ztest_step :=
  match goal with
  | |- context [?a =? ?b] =>
      first [ rewrite (proj2 (Z.eqb_eq a b)) by lia
            | rewrite (proj2 (Z.eqb_neq a b)) by lia ]
  | |- context [?a <? ?b] =>
      first [ rewrite (proj2 (Z.ltb_lt a b)) by lia
            | rewrite (proj2 (Z.ltb_ge a b)) by lia ]
  | |- context [?a <=? ?b] =>
      first [ rewrite (proj2 (Z.leb_le a b)) by lia
            | rewrite (proj2 (Z.leb_gt a b)) by lia ]
  end.
Ltac ztest := repeat ztest_step.

(** ** Bits *)

Lemma testbit_pow2 k j : 0 <= k -> Z.testbit (Z.shiftl 1 k) j = (k =? j).
Proof. intros Hk. rewrite Z.shiftl_1_l. by apply Z.pow2_bits_eqb. Qed.

Lemma testbit_ones n j : 0 <= n -> Z.testbit (Z.ones n) j = (0 <=? j) && (j <? n).
Proof. intros Hn. apply Z.testbit_ones. done. Qed.

#[export] Hint Rewrite Z.land_spec Z.lor_spec Z.ldiff_spec Z.lxor_spec Z.bits_0 : bits.
#[export] Hint Rewrite Z.shiftl_spec Z.shiftr_spec Z.lnot_spec testbit_pow2 testbit_ones
  using lia : bits.

(** [x & (1 << k) == 0] tests bit [k]. *)
Lemma land_pow2_testbit b k :
  0 <= k -> (Z.land b (Z.shiftl 1 k) =? 0) = negb (Z.testbit b k).
Proof.
  intros Hk. destruct (Z.testbit b k) eqn:E; simpl.
  - apply Z.eqb_neq. intros H. apply (f_equal (fun x => Z.testbit x k)) in H.
    revert H. autorewrite with bits. by rewrite E, Z.eqb_refl.
  - apply Z.eqb_eq, Z.bits_inj'. intros j Hj. autorewrite with bits.
    zcase; [subst; by rewrite E | by rewrite andb_false_r].
Qed.

(** The index of the lowest set bit of a positive number. *)
Fixpoint ctz_pos (p : positive) : Z :=
  match p with xO q => 1 + ctz_pos q | _ => 0 end.

Lemma ctz_pos_spec p :
  0 <= ctz_pos p /\ Z.testbit (Zpos p) (ctz_pos p) = true /\
  forall j, 0 <= j < ctz_pos p -> Z.testbit (Zpos p) j = false.
Proof.
  induction p as [p IH|p IH|]; cbn [ctz_pos].
  - split_and!; [lia | done | lia].
  - destruct IH as (H1 & H2 & H3). split; [lia|]. rewrite (Pos2Z.inj_xO p). split.
    + replace (1 + ctz_pos p) with (Z.succ (ctz_pos p)) by lia.
      by rewrite Z.double_bits_succ.
    + intros j Hj. destruct (decide (j = 0)) as [->|]; [by rewrite Z.testbit_even_0|].
      replace j with (Z.succ (j - 1)) by lia. rewrite Z.double_bits_succ. apply H3. lia.
  - split_and!; [lia | done | lia].
Qed.

(** The same for an integer; 0 for 0. *)
Definition ctz (x : Z) : Z := match x with Zpos p => ctz_pos p | _ => 0 end.

Lemma ctz_spec x :
  0 < x -> 0 <= ctz x /\ Z.testbit x (ctz x) = true /\
  forall j, 0 <= j < ctz x -> Z.testbit x j = false.
Proof. destruct x as [|p|p]; [lia | intros _; apply ctz_pos_spec | lia]. Qed.

(** ** Machine integers *)

Definition u8 (x : Z) : Z := x mod 2 ^ 8.
Definition u32 (x : Z) : Z := x mod 2 ^ 32.
Definition u64 (x : Z) : Z := x mod 2 ^ 64.

(** The value of a 32-bit pattern as an [int]. *)
Definition s32 (x : Z) : Z := if u32 x <? 2 ^ 31 then u32 x else u32 x - 2 ^ 32.

Definition howmany (x y : Z) : Z := (x + (y - 1)) / y.

(** ** Arrays *)

(** The value at index [i] of a C array; [d] where the array has no such
    element (C leaves that access undefined). *)
Definition aget {A} (d : A) (l : list A) (i : Z) : A :=
  if i <? 0 then d else nth (Z.to_nat i) l d.

(** The array with index [i] overwritten; unchanged where the array has no
    such element (C leaves that access undefined). *)
Definition aset {A} (l : list A) (i : Z) (v : A) : list A :=
  if i <? 0 then l else <[Z.to_nat i := v]> l.

Abbreviation zget := (aget 0).
Abbreviation zset := (@aset Z).

Definition zlength {A} (l : list A) : Z := Z.of_nat (length l).

Section arrays.
Context {A : Type} (d : A).
Implicit Types (l : list A) (i j : Z).

Lemma length_aset l i v : length (aset l i v) = length l.
Proof. unfold aset. zcase; [done|]. apply length_insert. Qed.

Lemma zlength_aset l i v : zlength (aset l i v) = zlength l.
Proof. unfold zlength. by rewrite length_aset. Qed.

Lemma aget_lookup l i x : 0 <= i -> l !! Z.to_nat i = Some x -> aget d l i = x.
Proof.
  intros Hi Hx. unfold aget. ztest.
  rewrite nth_lookup. by rewrite Hx.
Qed.

Lemma lookup_aget l i :
  0 <= i < zlength l -> l !! Z.to_nat i = Some (aget d l i).
Proof.
  unfold zlength. intros Hi.
  destruct (lookup_lt_is_Some_2 l (Z.to_nat i)) as [x Hx]; [lia|].
  rewrite Hx. f_equal. symmetry. apply aget_lookup; [lia | done].
Qed.

Lemma aget_aset_eq l i v : 0 <= i < zlength l -> aget d (aset l i v) i = v.
Proof.
  unfold zlength. intros Hi. apply aget_lookup; [lia|].
  unfold aset. ztest. apply list_lookup_insert_eq. lia.
Qed.

Lemma aget_aset_ne l i j v : i <> j -> 0 <= j -> aget d (aset l i v) j = aget d l j.
Proof.
  intros Hij Hj. unfold aset. zcase; [done|].
  unfold aget. ztest. rewrite !nth_lookup.
  rewrite list_lookup_insert_ne by lia. done.
Qed.

Lemma aget_aset l i j v :
  0 <= i < zlength l -> 0 <= j ->
  aget d (aset l i v) j = if i =? j then v else aget d l j.
Proof.
  intros Hi Hj. zcase; [subst; by apply aget_aset_eq | by apply aget_aset_ne].
Qed.

Lemma aget_ge l i : zlength l <= i -> aget d l i = d.
Proof.
  unfold zlength, aget. intros Hi. zcase; [done|].
  apply nth_overflow. lia.
Qed.

Lemma aget_Forall (P : A -> Prop) l i : P d -> Forall P l -> P (aget d l i).
Proof.
  intros Hd Hl. unfold aget. zcase; [done|].
  rewrite nth_lookup. destruct (l !! _) eqn:E; [|done].
  by eapply Forall_lookup_1.
Qed.

Lemma aset_Forall (P : A -> Prop) l i v : P v -> Forall P l -> Forall P (aset l i v).
Proof. intros Hv Hl. unfold aset. zcase; [done|]. by apply Forall_insert. Qed.

Lemma aset_aget l i : aset l i (aget d l i) = l.
Proof.
  unfold aset, aget. zcase; [done|]. apply list_insert_id'. intros Hl.
  rewrite nth_lookup. destruct (l !! Z.to_nat i) eqn:E; [done|].
  apply lookup_ge_None in E. lia.
Qed.

Lemma aset_aset l i v w : aset (aset l i v) i w = aset l i w.
Proof. unfold aset. zcase; [done|]. apply list_insert_insert_eq. Qed.

Lemma array_ext l1 l2 :
  zlength l1 = zlength l2 ->
  (forall i, 0 <= i < zlength l1 -> aget d l1 i = aget d l2 i) -> l1 = l2.
Proof.
  unfold zlength. intros Hlen H. apply (nth_ext _ _ d d); [lia|].
  intros n Hn. specialize (H (Z.of_nat n) ltac:(lia)).
  unfold aget in H. revert H. ztest. by rewrite Nat2Z.id.
Qed.
End arrays.

Lemma aget_drop {A} (d : A) l i n : 0 <= i -> 0 <= n -> aget d (drop (Z.to_nat n) l) i = aget d l (n + i).
Proof.
  intros Hi Hn. unfold aget. ztest. rewrite !nth_lookup, lookup_drop. do 2 f_equal. lia.
Qed.

Lemma zlength_drop {A} (l : list A) n :
  0 <= n <= zlength l -> zlength (drop (Z.to_nat n) l) = zlength l - n.
Proof. unfold zlength. rewrite length_drop. lia. Qed.

#[export] Hint Rewrite @length_aset @zlength_aset : kernel.

(** ** Loops *)

(** [for (i = lo; i < hi; i++) if (p(i)) break;] with [n = hi - lo]: the
    value of [i] after the loop. *)
Fixpoint search (n : nat) (i : Z) (p : Z -> bool) : Z :=
  match n with
  | O => i
  | S n' => if p i then i else search n' (i + 1) p
  end.

(** [for (i = hi; i > lo; i--) if (p(i)) break;] with [n = hi - lo]. *)
Fixpoint search_down (n : nat) (i : Z) (p : Z -> bool) : Z :=
  match n with
  | O => i
  | S n' => if p i then i else search_down n' (i - 1) p
  end.

(** [for (i = lo; i < hi; i++) s = f(i, s);] with [n = hi - lo]. *)
Fixpoint foreach {S : Type} (n : nat) (i : Z) (f : Z -> S -> S) (s : S) : S :=
  match n with
  | O => s
  | Datatypes.S n' => foreach n' (i + 1) f (f i s)
  end.

Lemma search_spec n i p :
  let r := search n i p in
  i <= r <= i + Z.of_nat n /\ (forall j, i <= j < r -> p j = false) /\
  (r < i + Z.of_nat n -> p r = true).
Proof.
  revert i. induction n as [|n IH]; intros i; simpl.
  { split; [lia|]. split; intros; lia. }
  destruct (p i) eqn:Hp.
  { split; [lia|]. split; [intros; lia | done]. }
  destruct (IH (i + 1)) as (H1 & H2 & H3). split; [lia|]. split.
  - intros j Hj. destruct (decide (j = i)) as [->|]; [done|]. apply H2. lia.
  - intros Hr. apply H3. lia.
Qed.

Lemma search_down_spec n i p :
  let r := search_down n i p in
  i - Z.of_nat n <= r <= i /\ (forall j, r < j <= i -> p j = false) /\
  (i - Z.of_nat n < r -> p r = true).
Proof.
  revert i. induction n as [|n IH]; intros i; simpl.
  { split; [lia|]. split; intros; lia. }
  destruct (p i) eqn:Hp.
  { split; [lia|]. split; [intros; lia | done]. }
  destruct (IH (i - 1)) as (H1 & H2 & H3). split; [lia|]. split.
  - intros j Hj. destruct (decide (j = i)) as [->|]; [done|]. apply H2. lia.
  - intros Hr. apply H3. lia.
Qed.

(** The loop stops exactly at the first index that satisfies the test. *)
Lemma search_eq n i p r :
  i <= r <= i + Z.of_nat n -> (forall j, i <= j < r -> p j = false) ->
  (r < i + Z.of_nat n -> p r = true) -> search n i p = r.
Proof.
  intros H1 H2 H3. destruct (search_spec n i p) as (G1 & G2 & G3).
  destruct (Z.lt_trichotomy (search n i p) r) as [Hlt|[Heq|Hgt]]; [|done|].
  - rewrite H2 in G3 by lia. discriminate G3. lia.
  - rewrite G2 in H3 by lia. discriminate H3. lia.
Qed.

Lemma foreach_ind {S} (P : Z -> S -> Prop) n i f (s : S) :
  P i s ->
  (forall j t, i <= j < i + Z.of_nat n -> P j t -> P (j + 1) (f j t)) ->
  P (i + Z.of_nat n) (foreach n i f s).
Proof.
  revert i s. induction n as [|n IH]; intros i s H0 Hstep; simpl.
  { by rewrite Z.add_0_r. }
  replace (i + Z.of_nat (Datatypes.S n)) with ((i + 1) + Z.of_nat n) by lia.
  apply IH.
  - apply Hstep; [lia | done].
  - intros j t Hj. apply Hstep. lia.
Qed.

(** ** Sums *)

Fixpoint zsum (n : nat) (g : Z -> Z) : Z :=
  match n with
  | O => 0
  | S n' => zsum n' g + g (Z.of_nat n')
  end.

Lemma zsum_ext n g g' :
  (forall i, 0 <= i < Z.of_nat n -> g i = g' i) -> zsum n g = zsum n g'.
Proof.
  induction n as [|n IH]; simpl; intros H; [done|].
  rewrite IH, H; [done | lia | intros; apply H; lia].
Qed.

(** A sum changes by the change of its one summand that changes. *)
Lemma zsum_update n g g' k :
  0 <= k < Z.of_nat n ->
  (forall i, 0 <= i < Z.of_nat n -> i <> k -> g' i = g i) ->
  zsum n g' = zsum n g - g k + g' k.
Proof.
  induction n as [|n IH]; simpl; intros Hk H; [lia|].
  destruct (decide (k = Z.of_nat n)) as [->|Hne].
  - rewrite (zsum_ext n g' g); [lia | intros; apply H; lia].
  - rewrite IH, (H (Z.of_nat n)); [lia | lia | lia | lia | intros; apply H; lia].
Qed.

Lemma zsum_bounds n g lo hi :
  (forall i, 0 <= i < Z.of_nat n -> lo <= g i <= hi) ->
  Z.of_nat n * lo <= zsum n g <= Z.of_nat n * hi.
Proof.
  induction n as [|n IH]; simpl; intros H; [lia|].
  pose proof (IH ltac:(intros; apply H; lia)). pose proof (H (Z.of_nat n)). lia.
Qed.

Lemma zsum_nonneg n g :
  (forall i, 0 <= i < Z.of_nat n -> 0 <= g i) -> 0 <= zsum n g.
Proof.
  induction n as [|n IH]; simpl; intros H; [lia|].
  pose proof (IH ltac:(intros; apply H; lia)). pose proof (H (Z.of_nat n)). lia.
Qed.

(** A non-zero sum of non-negative terms has a non-zero term. *)
Lemma zsum_pos_inv n g :
  (forall i, 0 <= i < Z.of_nat n -> 0 <= g i) -> zsum n g <> 0 ->
  exists i, 0 <= i < Z.of_nat n /\ 0 < g i.
Proof.
  induction n as [|n IH]; simpl; intros H Hs; [lia|].
  destruct (decide (g (Z.of_nat n) = 0)) as [E|E].
  - destruct IH as (i & ? & ?); [intros; apply H; lia | lia |].
    exists i. split; [lia | done].
  - exists (Z.of_nat n). pose proof (H (Z.of_nat n)). lia.
Qed.

Lemma zsum_ge_term n g k :
  (forall i, 0 <= i < Z.of_nat n -> 0 <= g i) -> 0 <= k < Z.of_nat n ->
  g k <= zsum n g.
Proof.
  intros H Hk. pose proof (zsum_update n g (fun i => if i =? k then 0 else g i) k Hk) as E.
  cbv beta in E. rewrite Z.eqb_refl in E.
  assert (0 <= zsum n (fun i => if i =? k then 0 else g i)).
  { apply zsum_nonneg. intros i Hi. zcase; [lia | by apply H]. }
  rewrite E in * by (intros; zcase; [lia | done]). lia.
Qed.

(** ** Bytes *)

Definition is_byte (b : Z) : Prop := 0 <= b < 256.

(** A test of all the byte values, by computation. *)
Definition bytes_all (P : Z -> bool) : bool := forallb P (seqZ 0 256).

Lemma bytes_all_elim P b : bytes_all P = true -> is_byte b -> P b = true.
Proof.
  unfold bytes_all, is_byte. intros H Hb. rewrite forallb_forall in H.
  apply H. apply list_elem_of_In, elem_of_seqZ. lia.
Qed.

Lemma testbit_byte b i : is_byte b -> 8 <= i -> Z.testbit b i = false.
Proof.
  intros Hb Hi. rewrite <- (Z.mod_small b (2 ^ 8)) by exact Hb.
  by apply Z.mod_pow2_bits_high.
Qed.

Lemma byte_of_testbit b :
  0 <= b -> (forall i, 8 <= i -> Z.testbit b i = false) -> is_byte b.
Proof.
  intros H0 H. split; [done|]. change 256 with (2 ^ 8).
  destruct (decide (b = 0)) as [->|]; [done|].
  apply Z.log2_lt_pow2; [lia|].
  destruct (Z.lt_ge_cases (Z.log2 b) 8) as [|Hge]; [done|].
  specialize (H _ Hge). rewrite Z.bit_log2 in H by lia. discriminate.
Qed.

(** ** Runs of set bits *)

Definition nonzero (n : nat) : list nat := match n with O => [] | _ => [n] end.

(** The lengths of the maximal runs of [true], [cur] of them just seen. *)
Fixpoint runs_from (cur : nat) (l : list bool) : list nat :=
  match l with
  | [] => nonzero cur
  | true :: l' => runs_from (S cur) l'
  | false :: l' => nonzero cur ++ runs_from 0 l'
  end.

Definition run_lengths (l : list bool) : list nat := runs_from 0 l.

Lemma runs_from_replicate c n l :
  runs_from c (replicate n true ++ l) = runs_from (c + n) l.
Proof.
  revert c. induction n as [|n IH]; intros c; simpl; [f_equal; lia|].
  rewrite IH. f_equal. lia.
Qed.

Lemma runs_from_app_false c l1 l2 :
  runs_from c (l1 ++ false :: l2) = runs_from c l1 ++ run_lengths l2.
Proof.
  revert c. induction l1 as [|[] l1 IH]; intros c; simpl; [done | apply IH |].
  by rewrite IH, app_assoc.
Qed.

Lemma run_lengths_app_false l1 l2 :
  run_lengths (l1 ++ false :: l2) = run_lengths l1 ++ run_lengths l2.
Proof. apply runs_from_app_false. Qed.

(** The number of leading [true]s. *)
Fixpoint lead (l : list bool) : nat :=
  match l with true :: l' => S (lead l') | _ => O end.

Definition ends_run (l : list bool) : Prop := l = [] \/ exists l', l = false :: l'.
Definition starts_run (l : list bool) : Prop := l = [] \/ exists l', l = l' ++ [false].

Lemma lead_split l : exists l', l = replicate (lead l) true ++ l' /\ ends_run l'.
Proof.
  induction l as [|[] l (l' & IH & H)]; simpl.
  - exists []. split; [done | by left].
  - exists l'. by rewrite <- IH.
  - exists (false :: l). split; [done | right; eauto].
Qed.

Lemma lead_length l : (lead l <= length l)%nat.
Proof. induction l as [|[] l IH]; simpl; lia. Qed.

Lemma lead_lookup_lt l j : (j < lead l)%nat -> l !! j = Some true.
Proof.
  revert j. induction l as [|[] l IH]; intros [|j] H; simpl in *; try lia; [done|].
  apply IH. lia.
Qed.

Lemma lead_lookup_eq l : (lead l < length l)%nat -> l !! lead l = Some false.
Proof. induction l as [|[] l IH]; simpl; intros H; [lia | apply IH; lia | done]. Qed.

Lemma runs_from_ends_run c l : ends_run l -> runs_from c l = nonzero c ++ run_lengths l.
Proof. intros [-> | [l' ->]]; [simpl; by rewrite app_nil_r | done]. Qed.

Lemma run_lengths_starts_run l l' :
  starts_run l -> run_lengths (l ++ l') = run_lengths l ++ run_lengths l'.
Proof.
  intros [-> | [l1 ->]]; [done|]. rewrite <- app_assoc. simpl.
  rewrite run_lengths_app_false. f_equal.
  unfold run_lengths at 2. rewrite runs_from_app_false. simpl. by rewrite app_nil_r.
Qed.

(** A list around its element [p]: the runs of [true] on both sides. *)
Lemma run_split (l : list bool) p x :
  l !! p = Some x ->
  let B := lead (reverse (take p l)) in
  let F := lead (drop (S p) l) in
  exists L R, starts_run L /\ ends_run R /\
    forall y, <[p:=y]> l = L ++ replicate B true ++ y :: replicate F true ++ R.
Proof.
  intros Hx B F.
  destruct (lead_split (drop (S p) l)) as (R & HR & HeR).
  destruct (lead_split (reverse (take p l))) as (L & HL & HeL).
  exists (reverse L), R. repeat split; [| done |].
  - destruct HeL as [-> | [l' ->]]; [by left|]. right. exists (reverse l').
    by rewrite reverse_cons.
  - intros y. pose proof (lookup_lt_Some _ _ _ Hx) as Hp.
    rewrite insert_take_drop by done. rewrite HR.
    apply (f_equal reverse) in HL. rewrite reverse_involutive, reverse_app, reverse_replicate in HL.
    rewrite HL at 1. by rewrite <- !app_assoc.
Qed.

Lemma run_lengths_split L B y F R :
  starts_run L -> ends_run R ->
  run_lengths (L ++ replicate B true ++ y :: replicate F true ++ R) =
  run_lengths L ++ (if y : bool then [(B + F + 1)%nat] else nonzero B ++ nonzero F) ++ run_lengths R.
Proof.
  intros HL HR. rewrite run_lengths_starts_run by done. f_equal.
  unfold run_lengths at 1. rewrite runs_from_replicate. destruct y; simpl.
  - rewrite runs_from_replicate, runs_from_ends_run by done.
    replace (B + F + 1)%nat with (S (B + F)) by lia. done.
  - by rewrite runs_from_replicate, runs_from_ends_run, <- app_assoc.
Qed.

(** The number of maximal runs whose length, capped at [cap], is [k]. *)
Definition run_count (cap : nat) (l : list bool) (k : nat) : Z :=
  Z.of_nat (count_occ Nat.eq_dec (Nat.min cap <$> run_lengths l) k).

Definition indicator (P : bool) : Z := if P then 1 else 0.

(** Setting element [p] merges the runs on its two sides into one. *)
Lemma run_count_merge cap (l : list bool) p x k :
  l !! p = Some x ->
  let B := lead (reverse (take p l)) in
  let F := lead (drop (S p) l) in
  run_count cap (<[p:=true]> l) k = run_count cap (<[p:=false]> l) k
    + indicator (Nat.min cap (B + F + 1) =? k)%nat
    - indicator ((0 <? B)%nat && (Nat.min cap B =? k)%nat)
    - indicator ((0 <? F)%nat && (Nat.min cap F =? k)%nat).
Proof.
  intros Hx B F. destruct (run_split l p x Hx) as (L & R & HL & HR & Hl).
  fold B F in Hl. unfold run_count. rewrite !Hl, !run_lengths_split by done.
  cbv iota. rewrite !fmap_app, !count_occ_app.
  assert (forall n, Z.of_nat (count_occ Nat.eq_dec (Nat.min cap <$> nonzero n) k) =
    indicator ((0 <? n)%nat && (Nat.min cap n =? k)%nat)) as Hnz.
  { intros [|n]; [done|]. unfold nonzero. simpl fmap. simpl count_occ.
    destruct (Nat.eq_dec _ k) as [->|Hne]; simpl.
    - by rewrite Nat.eqb_refl.
    - apply Nat.eqb_neq in Hne. by rewrite Hne. }
  pose proof (Hnz B). pose proof (Hnz F). pose proof (Hnz (B + F + 1)%nat) as H1.
  replace (nonzero (B + F + 1)) with [(B + F + 1)%nat] in H1
    by (by replace (B + F + 1)%nat with (S (B + F)) by lia).
  replace (0 <? B + F + 1)%nat with true in H1 by (symmetry; apply Nat.ltb_lt; lia).
  simpl andb in H1. lia.
Qed.
