(* ===== verification/Bitmap.v ===== *)
(** Bit maps: the [setbit]/[clrbit]/[isset]/[isclr] macros of
    sys/sys/param.h, on a byte array.

    [bit m i] is bit [i] of the map; the lemmas say how the macros act on it
    and that a byte array is determined by its bits. *)

From S2P Require Import Prelude.

Definition NBBY : Z := 8.

Definition setbit (a : list Z) (i : Z) : list Z :=
  zset a (i / NBBY) (Z.lor (zget a (i / NBBY)) (Z.shiftl 1 (i mod NBBY))).

Definition clrbit (a : list Z) (i : Z) : list Z :=
  zset a (i / NBBY) (Z.ldiff (zget a (i / NBBY)) (Z.shiftl 1 (i mod NBBY))).

Definition isset (a : list Z) (i : Z) : bool :=
  negb (Z.land (zget a (i / NBBY)) (Z.shiftl 1 (i mod NBBY)) =? 0).

Definition isclr (a : list Z) (i : Z) : bool :=
  Z.land (zget a (i / NBBY)) (Z.shiftl 1 (i mod NBBY)) =? 0.

(** Bit [i] of the map [a]. *)
Definition bit (a : list Z) (i : Z) : bool :=
  Z.testbit (zget a (i / 8)) (i mod 8).

(** A map of [n] bytes. *)
Definition bitmap (n : Z) (a : list Z) : Prop :=
  zlength a = n /\ Forall is_byte a.

Lemma isclr_bit a i : isclr a i = negb (bit a i).
Proof. apply land_pow2_testbit. unfold NBBY. dlia. Qed.

Lemma isset_bit a i : isset a i = bit a i.
Proof.
  unfold isset. change (negb (isclr a i) = bit a i).
  by rewrite isclr_bit, negb_involutive.
Qed.

(** Two bit numbers agree iff they agree on the byte and on the bit in it. *)
Lemma bitno_eq i j :
  (i =? j) = (i / 8 =? j / 8) && (i mod 8 =? j mod 8).
Proof. repeat zcase; simpl; dlia. Qed.

Section bits.
Context (a : list Z) (n : Z).
Implicit Types i j : Z.

Lemma bit_setbit i j :
  0 <= i < 8 * zlength a -> 0 <= j ->
  bit (setbit a i) j = (i =? j) || bit a j.
Proof.
  intros Hi Hj. unfold bit, setbit, NBBY. rewrite (bitno_eq i j).
  rewrite aget_aset by dlia. zcase; simpl; [|done].
  rewrite Z.lor_spec, testbit_pow2 by dlia. rewrite e. apply orb_comm.
Qed.

Lemma bit_clrbit i j :
  0 <= i < 8 * zlength a -> 0 <= j ->
  bit (clrbit a i) j = negb (i =? j) && bit a j.
Proof.
  intros Hi Hj. unfold bit, clrbit, NBBY. rewrite (bitno_eq i j).
  rewrite aget_aset by dlia. zcase; simpl; [|done].
  rewrite Z.ldiff_spec, testbit_pow2 by dlia. rewrite e. apply andb_comm.
Qed.

Lemma setbit_bitmap i : bitmap n a -> bitmap n (setbit a i).
Proof.
  intros [Hn Hb]. split; [unfold setbit; by rewrite zlength_aset|].
  apply aset_Forall; [|done].
  assert (is_byte (zget a (i / NBBY))) as H by (apply aget_Forall; [unfold is_byte; lia | done]).
  apply byte_of_testbit.
  - apply Z.lor_nonneg. split; [apply H | apply Z.shiftl_nonneg; lia].
  - intros k Hk. rewrite Z.lor_spec, testbit_byte, testbit_pow2 by (done || (unfold NBBY; dlia)).
    apply Z.eqb_neq. unfold NBBY. dlia.
Qed.

Lemma clrbit_bitmap i : bitmap n a -> bitmap n (clrbit a i).
Proof.
  intros [Hn Hb]. split; [unfold clrbit; by rewrite zlength_aset|].
  apply aset_Forall; [|done].
  assert (is_byte (zget a (i / NBBY))) as H by (apply aget_Forall; [unfold is_byte; lia | done]).
  apply byte_of_testbit.
  - apply Z.ldiff_nonneg. left. apply H.
  - intros k Hk. rewrite Z.ldiff_spec, testbit_byte by done. done.
Qed.
End bits.

#[export] Hint Resolve setbit_bitmap clrbit_bitmap : kernel.

Lemma bitmap_byte n a i : bitmap n a -> is_byte (zget a i).
Proof. intros [_ Hb]. apply aget_Forall; [unfold is_byte; lia | done]. Qed.

(** A byte is determined by its eight bits, a map by all its bits. *)
Lemma byte_ext b c :
  is_byte b -> is_byte c -> (forall k, 0 <= k < 8 -> Z.testbit b k = Z.testbit c k) ->
  b = c.
Proof.
  intros Hb Hc H. apply Z.bits_inj'. intros k Hk.
  destruct (Z.lt_ge_cases k 8); [by apply H | by rewrite !testbit_byte].
Qed.

Lemma bitmap_ext n a1 a2 :
  bitmap n a1 -> bitmap n a2 -> (forall i, 0 <= i < 8 * n -> bit a1 i = bit a2 i) ->
  a1 = a2.
Proof.
  intros H1 H2 H. apply (array_ext 0).
  { destruct H1, H2. lia. }
  intros i Hi. apply byte_ext; [by eapply bitmap_byte | by eapply bitmap_byte |].
  intros k Hk. specialize (H (8 * i + k)). unfold bit in H.
  replace ((8 * i + k) / 8) with i in H by dlia.
  replace ((8 * i + k) mod 8) with k in H by dlia.
  apply H. destruct H1. lia.
Qed.

(** [for (i = lo; i < hi; i++) clrbit(a, base + i)], with [n = hi - lo]. *)
Lemma foreach_clrbit nb n lo base a :
  bitmap nb a -> 0 <= base + lo -> base + lo + Z.of_nat n <= 8 * nb ->
  let a' := foreach n lo (fun i a => clrbit a (base + i)) a in
  bitmap nb a' /\
  (forall j, 0 <= j -> bit a' j =
     bit a j && negb ((base + lo <=? j) && (j <? base + lo + Z.of_nat n))).
Proof.
  intros Ha Hlo Hhi. cbv zeta.
  pose (P := fun i a' => bitmap nb a' /\ forall j, 0 <= j ->
    bit a' j = bit a j && negb ((base + lo <=? j) && (j <? base + i))).
  enough (P (lo + Z.of_nat n) (foreach n lo (fun i a => clrbit a (base + i)) a)) as H
    by (unfold P in H; by rewrite Z.add_assoc in H).
  apply foreach_ind; unfold P; clear P.
  - split; [done|]. intros j Hj. repeat zcase; simpl; rewrite ?andb_true_r; done || lia.
  - intros i t Hi [Ht Hb]. split; [by apply clrbit_bitmap|]. intros j Hj.
    rewrite bit_clrbit, Hb by (destruct Ht; lia).
    repeat zcase; simpl; rewrite ?andb_true_r, ?andb_false_r; done || lia.
Qed.

Lemma foreach_setbit nb n lo base a :
  bitmap nb a -> 0 <= base + lo -> base + lo + Z.of_nat n <= 8 * nb ->
  let a' := foreach n lo (fun i a => setbit a (base + i)) a in
  bitmap nb a' /\
  (forall j, 0 <= j -> bit a' j =
     bit a j || ((base + lo <=? j) && (j <? base + lo + Z.of_nat n))).
Proof.
  intros Ha Hlo Hhi. cbv zeta.
  pose (P := fun i a' => bitmap nb a' /\ forall j, 0 <= j ->
    bit a' j = bit a j || ((base + lo <=? j) && (j <? base + i))).
  enough (P (lo + Z.of_nat n) (foreach n lo (fun i a => setbit a (base + i)) a)) as H
    by (unfold P in H; by rewrite Z.add_assoc in H).
  apply foreach_ind; unfold P; clear P.
  - split; [done|]. intros j Hj. repeat zcase; simpl; rewrite ?orb_false_r; done || lia.
  - intros i t Hi [Ht Hb]. split; [by apply setbit_bitmap|]. intros j Hj.
    rewrite bit_setbit, Hb by (destruct Ht; lia).
    repeat zcase; simpl; rewrite ?orb_true_r, ?orb_false_r; done || lia.
Qed.
