(* ===== verification/Fs.v ===== *)
(** The on-disk structures of FFS: src/sys/ufs/ffs/fs.h and ffs_tables.c.

    - [superblock]: the fields of [struct fs] that the allocator only reads;
      [fs]: the ones it changes, with a coercion to the former.
    - [cg]: a cylinder group; its four bit maps and count arrays, that the C
      structure reaches through offsets into [cg_space], are fields.
    - the macros of fs.h, and the fragment tables.

    Counters and block numbers are unbounded integers here; the invariant of
    the allocator bounds them. *)

From S2P Require Import Prelude Bitmap.

Definition FS_UFS1_MAGIC : Z := 0x011954.
Definition FS_UFS2_MAGIC : Z := 0x19540119.
Definition CG_MAGIC : Z := 0x090255.
Definition NDADDR : Z := 12.

Record csum := MkCsum {
  cs_ndir : Z;
  cs_nbfree : Z;
  cs_nifree : Z;
  cs_nffree : Z
}.

Record superblock := {
  fs_dblkno : Z;
  fs_old_cgoffset : Z;
  fs_old_cgmask : Z;
  fs_ncg : Z;
  fs_bsize : Z;
  fs_fsize : Z;
  fs_frag : Z;
  fs_minfree : Z;
  fs_bmask : Z;
  fs_fmask : Z;
  fs_bshift : Z;
  fs_fshift : Z;
  fs_maxbpg : Z;
  fs_fragshift : Z;
  fs_nindir : Z;
  fs_inopb : Z;
  fs_ipg : Z;
  fs_fpg : Z;
  fs_ronly : Z;
  fs_metaspace : Z;
  fs_size : Z;
  fs_dsize : Z;
  fs_avgfilesize : Z;
  fs_avgfpdir : Z;
  fs_contigsumsize : Z;
  fs_qbmask : Z;
  fs_qfmask : Z;
  fs_fsbtodb : Z;
  fs_magic : Z
}.

Record fs := MkFs {
  fs_sb :> superblock;
  fs_fmod : Z;
  fs_cgrotor : Z;
  fs_contigdirs : list Z;
  fs_csp : list csum;
  fs_maxcluster : list Z;
  fs_active : option (list Z);
  fs_cstotal : csum;
  fs_optim : Z
}.

Record cg := MkCg {
  cg_magic : Z;
  cg_cgx : Z;
  cg_ndblk : Z;
  cg_time : Z;
  cg_old_time : Z;
  cg_cs : csum;
  cg_rotor : Z;
  cg_frotor : Z;
  cg_irotor : Z;
  cg_frsum : list Z;
  cg_nclusterblks : Z;
  cg_niblk : Z;
  cg_initediblk : Z;
  cg_inosused : list Z;
  cg_blksfree : list Z;
  cg_clustersfree : list Z;
  cg_clustersum : list Z
}.

(** ** Field updates *)

Definition set_cs_ndir (v : _) (c : csum) : csum :=
  MkCsum v (cs_nbfree c) (cs_nifree c) (cs_nffree c).
Definition set_cs_nbfree (v : _) (c : csum) : csum :=
  MkCsum (cs_ndir c) v (cs_nifree c) (cs_nffree c).
Definition set_cs_nifree (v : _) (c : csum) : csum :=
  MkCsum (cs_ndir c) (cs_nbfree c) v (cs_nffree c).
Definition set_cs_nffree (v : _) (c : csum) : csum :=
  MkCsum (cs_ndir c) (cs_nbfree c) (cs_nifree c) v.

Definition set_fs_fmod (v : _) (s : fs) : fs :=
  MkFs (fs_sb s) v (fs_cgrotor s) (fs_contigdirs s) (fs_csp s) (fs_maxcluster s)
    (fs_active s) (fs_cstotal s) (fs_optim s).
Definition set_fs_cgrotor (v : _) (s : fs) : fs :=
  MkFs (fs_sb s) (fs_fmod s) v (fs_contigdirs s) (fs_csp s) (fs_maxcluster s)
    (fs_active s) (fs_cstotal s) (fs_optim s).
Definition set_fs_csp (v : _) (s : fs) : fs :=
  MkFs (fs_sb s) (fs_fmod s) (fs_cgrotor s) (fs_contigdirs s) v (fs_maxcluster s)
    (fs_active s) (fs_cstotal s) (fs_optim s).
Definition set_fs_maxcluster (v : _) (s : fs) : fs :=
  MkFs (fs_sb s) (fs_fmod s) (fs_cgrotor s) (fs_contigdirs s) (fs_csp s) v
    (fs_active s) (fs_cstotal s) (fs_optim s).
Definition set_fs_active (v : _) (s : fs) : fs :=
  MkFs (fs_sb s) (fs_fmod s) (fs_cgrotor s) (fs_contigdirs s) (fs_csp s)
    (fs_maxcluster s) v (fs_cstotal s) (fs_optim s).
Definition set_fs_cstotal (v : _) (s : fs) : fs :=
  MkFs (fs_sb s) (fs_fmod s) (fs_cgrotor s) (fs_contigdirs s) (fs_csp s)
    (fs_maxcluster s) (fs_active s) v (fs_optim s).
Definition set_fs_contigdirs (v : _) (s : fs) : fs :=
  MkFs (fs_sb s) (fs_fmod s) (fs_cgrotor s) v (fs_csp s) (fs_maxcluster s)
    (fs_active s) (fs_cstotal s) (fs_optim s).
Definition set_fs_optim (v : _) (s : fs) : fs :=
  MkFs (fs_sb s) (fs_fmod s) (fs_cgrotor s) (fs_contigdirs s) (fs_csp s)
    (fs_maxcluster s) (fs_active s) (fs_cstotal s) v.

Definition set_cg_time (v : _) (c : cg) : cg :=
  MkCg (cg_magic c) (cg_cgx c) (cg_ndblk c) v (cg_old_time c) (cg_cs c) (cg_rotor c)
    (cg_frotor c) (cg_irotor c) (cg_frsum c) (cg_nclusterblks c) (cg_niblk c)
    (cg_initediblk c) (cg_inosused c) (cg_blksfree c) (cg_clustersfree c)
    (cg_clustersum c).
Definition set_cg_old_time (v : _) (c : cg) : cg :=
  MkCg (cg_magic c) (cg_cgx c) (cg_ndblk c) (cg_time c) v (cg_cs c) (cg_rotor c)
    (cg_frotor c) (cg_irotor c) (cg_frsum c) (cg_nclusterblks c) (cg_niblk c)
    (cg_initediblk c) (cg_inosused c) (cg_blksfree c) (cg_clustersfree c)
    (cg_clustersum c).
Definition set_cg_cs (v : _) (c : cg) : cg :=
  MkCg (cg_magic c) (cg_cgx c) (cg_ndblk c) (cg_time c) (cg_old_time c) v (cg_rotor c)
    (cg_frotor c) (cg_irotor c) (cg_frsum c) (cg_nclusterblks c) (cg_niblk c)
    (cg_initediblk c) (cg_inosused c) (cg_blksfree c) (cg_clustersfree c)
    (cg_clustersum c).
Definition set_cg_rotor (v : _) (c : cg) : cg :=
  MkCg (cg_magic c) (cg_cgx c) (cg_ndblk c) (cg_time c) (cg_old_time c) (cg_cs c) v
    (cg_frotor c) (cg_irotor c) (cg_frsum c) (cg_nclusterblks c) (cg_niblk c)
    (cg_initediblk c) (cg_inosused c) (cg_blksfree c) (cg_clustersfree c)
    (cg_clustersum c).
Definition set_cg_frotor (v : _) (c : cg) : cg :=
  MkCg (cg_magic c) (cg_cgx c) (cg_ndblk c) (cg_time c) (cg_old_time c) (cg_cs c)
    (cg_rotor c) v (cg_irotor c) (cg_frsum c) (cg_nclusterblks c) (cg_niblk c)
    (cg_initediblk c) (cg_inosused c) (cg_blksfree c) (cg_clustersfree c)
    (cg_clustersum c).
Definition set_cg_irotor (v : _) (c : cg) : cg :=
  MkCg (cg_magic c) (cg_cgx c) (cg_ndblk c) (cg_time c) (cg_old_time c) (cg_cs c)
    (cg_rotor c) (cg_frotor c) v (cg_frsum c) (cg_nclusterblks c) (cg_niblk c)
    (cg_initediblk c) (cg_inosused c) (cg_blksfree c) (cg_clustersfree c)
    (cg_clustersum c).
Definition set_cg_frsum (v : _) (c : cg) : cg :=
  MkCg (cg_magic c) (cg_cgx c) (cg_ndblk c) (cg_time c) (cg_old_time c) (cg_cs c)
    (cg_rotor c) (cg_frotor c) (cg_irotor c) v (cg_nclusterblks c) (cg_niblk c)
    (cg_initediblk c) (cg_inosused c) (cg_blksfree c) (cg_clustersfree c)
    (cg_clustersum c).
Definition set_cg_initediblk (v : _) (c : cg) : cg :=
  MkCg (cg_magic c) (cg_cgx c) (cg_ndblk c) (cg_time c) (cg_old_time c) (cg_cs c)
    (cg_rotor c) (cg_frotor c) (cg_irotor c) (cg_frsum c) (cg_nclusterblks c)
    (cg_niblk c) v (cg_inosused c) (cg_blksfree c) (cg_clustersfree c)
    (cg_clustersum c).
Definition set_cg_inosused (v : _) (c : cg) : cg :=
  MkCg (cg_magic c) (cg_cgx c) (cg_ndblk c) (cg_time c) (cg_old_time c) (cg_cs c)
    (cg_rotor c) (cg_frotor c) (cg_irotor c) (cg_frsum c) (cg_nclusterblks c)
    (cg_niblk c) (cg_initediblk c) v (cg_blksfree c) (cg_clustersfree c)
    (cg_clustersum c).
Definition set_cg_blksfree (v : _) (c : cg) : cg :=
  MkCg (cg_magic c) (cg_cgx c) (cg_ndblk c) (cg_time c) (cg_old_time c) (cg_cs c)
    (cg_rotor c) (cg_frotor c) (cg_irotor c) (cg_frsum c) (cg_nclusterblks c)
    (cg_niblk c) (cg_initediblk c) (cg_inosused c) v (cg_clustersfree c)
    (cg_clustersum c).
Definition set_cg_clustersfree (v : _) (c : cg) : cg :=
  MkCg (cg_magic c) (cg_cgx c) (cg_ndblk c) (cg_time c) (cg_old_time c) (cg_cs c)
    (cg_rotor c) (cg_frotor c) (cg_irotor c) (cg_frsum c) (cg_nclusterblks c)
    (cg_niblk c) (cg_initediblk c) (cg_inosused c) (cg_blksfree c) v (cg_clustersum c).
Definition set_cg_clustersum (v : _) (c : cg) : cg :=
  MkCg (cg_magic c) (cg_cgx c) (cg_ndblk c) (cg_time c) (cg_old_time c) (cg_cs c)
    (cg_rotor c) (cg_frotor c) (cg_irotor c) (cg_frsum c) (cg_nclusterblks c)
    (cg_niblk c) (cg_initediblk c) (cg_inosused c) (cg_blksfree c)
    (cg_clustersfree c) v.

Definition csum0 : csum := MkCsum 0 0 0 0.

(** [fs_cs(fs, cg)]. *)
Definition fs_cs (s : fs) (indx : Z) : csum := aget csum0 (fs_csp s) indx.

Definition set_fs_cs (indx : Z) (f : csum -> csum) (s : fs) : fs :=
  set_fs_csp (aset (fs_csp s) indx (f (fs_cs s indx))) s.

Definition add_nbfree (d : Z) (c : csum) : csum := set_cs_nbfree (cs_nbfree c + d) c.
Definition add_nffree (d : Z) (c : csum) : csum := set_cs_nffree (cs_nffree c + d) c.
Definition add_nifree (d : Z) (c : csum) : csum := set_cs_nifree (cs_nifree c + d) c.
Definition add_ndir (d : Z) (c : csum) : csum := set_cs_ndir (cs_ndir c + d) c.

(** [fs->fs_cstotal.x += d; fs->fs_cs(fs, cg).x += d]. *)
Definition fs_count (f : csum -> csum) (cgx : Z) (s : fs) : fs :=
  set_fs_cs cgx f (set_fs_cstotal (f (fs_cstotal s)) s).

(** ** The macros of fs.h *)

Definition cg_chkmagic (c : cg) : bool := cg_magic c =? CG_MAGIC.

Definition cgbase (s : superblock) (c : Z) : Z := fs_fpg s * c.

Definition cgstart (s : superblock) (c : Z) : Z :=
  if fs_magic s =? FS_UFS2_MAGIC then cgbase s c
  else cgbase s c + fs_old_cgoffset s * Z.ldiff c (fs_old_cgmask s).

Definition cgdmin (s : superblock) (c : Z) : Z := cgstart s c + fs_dblkno s.
Definition cgmeta (s : superblock) (c : Z) : Z := cgdmin s c.
Definition cgdata (s : superblock) (c : Z) : Z := cgdmin s c + fs_metaspace s.

Definition ino_to_cg (s : superblock) (x : Z) : Z := x / fs_ipg s.
Definition dtog (s : superblock) (d : Z) : Z := d / fs_fpg s.
Definition dtogd (s : superblock) (d : Z) : Z := d mod fs_fpg s.

(** [blkmap(fs, map, loc)] for the fragment count [frag]. *)
Definition frag_blkmap (frag : Z) (map : list Z) (loc : Z) : Z :=
  Z.land (Z.shiftr (zget map (loc / NBBY)) (loc mod NBBY)) (Z.shiftr 0xff (NBBY - frag)).

Definition blkmap (s : superblock) (map : list Z) (loc : Z) : Z :=
  frag_blkmap (fs_frag s) map loc.

Definition blkoff (s : superblock) (loc : Z) : Z := Z.land loc (fs_qbmask s).
Definition fragoff (s : superblock) (loc : Z) : Z := Z.land loc (fs_qfmask s).
Definition lblkno (s : superblock) (loc : Z) : Z := Z.shiftr loc (fs_bshift s).
Definition numfrags (s : superblock) (loc : Z) : Z := Z.shiftr loc (fs_fshift s).
Definition fragroundup (s : superblock) (size : Z) : Z :=
  Z.land (size + fs_qfmask s) (fs_fmask s).
Definition fragstoblks (s : superblock) (frags : Z) : Z :=
  Z.shiftr frags (fs_fragshift s).
Definition blkstofrags (s : superblock) (blks : Z) : Z :=
  Z.shiftl blks (fs_fragshift s).
Definition fragnum (s : superblock) (fsb : Z) : Z := Z.land fsb (fs_frag s - 1).
Definition blknum (s : superblock) (fsb : Z) : Z := Z.ldiff fsb (fs_frag s - 1).

Definition fsbtodb (s : superblock) (b : Z) : Z := Z.shiftl b (fs_fsbtodb s).

Definition FS_OPTTIME : Z := 0.
Definition FS_OPTSPACE : Z := 1.

(** [btodb] of sys/param.h. *)
Definition DEV_BSHIFT : Z := 9.
Definition btodb (bytes : Z) : Z := Z.shiftr (u64 bytes) DEV_BSHIFT.

Definition freespace (s : fs) (percentreserved : Z) : Z :=
  blkstofrags s (cs_nbfree (fs_cstotal s)) + cs_nffree (fs_cstotal s)
  - Z.quot (fs_dsize s * percentreserved) 100.

Definition NINDIR (s : superblock) : Z := fs_nindir s.
Definition INOPB (s : superblock) : Z := fs_inopb s.

(** [ACTIVECLEAR]: the snapshot code's bit of a cylinder group, in an array
    of 32-bit words that may be absent. *)
Definition ACTIVECLEAR (s : fs) (c : Z) : fs :=
  match fs_active s with
  | None => s
  | Some a =>
      set_fs_active
        (Some (zset a (c / 32) (Z.ldiff (zget a (c / 32)) (Z.shiftl 1 (c mod 32))))) s
  end.

(** ** The fragment tables *)

Definition around : list Z := [0x3; 0x7; 0xf; 0x1f; 0x3f; 0x7f; 0xff; 0x1ff; 0x3ff].
Definition inside : list Z := [0x0; 0x2; 0x6; 0xe; 0x1e; 0x3e; 0x7e; 0xfe; 0x1fe].

Definition fragtbl124 : list Z := [
    0x00; 0x16; 0x16; 0x2a; 0x16; 0x16; 0x26; 0x4e; 0x16; 0x16; 0x16; 0x3e; 0x2a; 0x3e; 0x4e; 0x8a;
    0x16; 0x16; 0x16; 0x3e; 0x16; 0x16; 0x36; 0x5e; 0x16; 0x16; 0x16; 0x3e; 0x3e; 0x3e; 0x5e; 0x9e;
    0x16; 0x16; 0x16; 0x3e; 0x16; 0x16; 0x36; 0x5e; 0x16; 0x16; 0x16; 0x3e; 0x3e; 0x3e; 0x5e; 0x9e;
    0x2a; 0x3e; 0x3e; 0x2a; 0x3e; 0x3e; 0x2e; 0x6e; 0x3e; 0x3e; 0x3e; 0x3e; 0x2a; 0x3e; 0x6e; 0xaa;
    0x16; 0x16; 0x16; 0x3e; 0x16; 0x16; 0x36; 0x5e; 0x16; 0x16; 0x16; 0x3e; 0x3e; 0x3e; 0x5e; 0x9e;
    0x16; 0x16; 0x16; 0x3e; 0x16; 0x16; 0x36; 0x5e; 0x16; 0x16; 0x16; 0x3e; 0x3e; 0x3e; 0x5e; 0x9e;
    0x26; 0x36; 0x36; 0x2e; 0x36; 0x36; 0x26; 0x6e; 0x36; 0x36; 0x36; 0x3e; 0x2e; 0x3e; 0x6e; 0xae;
    0x4e; 0x5e; 0x5e; 0x6e; 0x5e; 0x5e; 0x6e; 0x4e; 0x5e; 0x5e; 0x5e; 0x7e; 0x6e; 0x7e; 0x4e; 0xce;
    0x16; 0x16; 0x16; 0x3e; 0x16; 0x16; 0x36; 0x5e; 0x16; 0x16; 0x16; 0x3e; 0x3e; 0x3e; 0x5e; 0x9e;
    0x16; 0x16; 0x16; 0x3e; 0x16; 0x16; 0x36; 0x5e; 0x16; 0x16; 0x16; 0x3e; 0x3e; 0x3e; 0x5e; 0x9e;
    0x16; 0x16; 0x16; 0x3e; 0x16; 0x16; 0x36; 0x5e; 0x16; 0x16; 0x16; 0x3e; 0x3e; 0x3e; 0x5e; 0x9e;
    0x3e; 0x3e; 0x3e; 0x3e; 0x3e; 0x3e; 0x3e; 0x7e; 0x3e; 0x3e; 0x3e; 0x3e; 0x3e; 0x3e; 0x7e; 0xbe;
    0x2a; 0x3e; 0x3e; 0x2a; 0x3e; 0x3e; 0x2e; 0x6e; 0x3e; 0x3e; 0x3e; 0x3e; 0x2a; 0x3e; 0x6e; 0xaa;
    0x3e; 0x3e; 0x3e; 0x3e; 0x3e; 0x3e; 0x3e; 0x7e; 0x3e; 0x3e; 0x3e; 0x3e; 0x3e; 0x3e; 0x7e; 0xbe;
    0x4e; 0x5e; 0x5e; 0x6e; 0x5e; 0x5e; 0x6e; 0x4e; 0x5e; 0x5e; 0x5e; 0x7e; 0x6e; 0x7e; 0x4e; 0xce;
    0x8a; 0x9e; 0x9e; 0xaa; 0x9e; 0x9e; 0xae; 0xce; 0x9e; 0x9e; 0x9e; 0xbe; 0xaa; 0xbe; 0xce; 0x8a ].

Definition fragtbl8 : list Z := [
    0x00; 0x01; 0x01; 0x02; 0x01; 0x01; 0x02; 0x04; 0x01; 0x01; 0x01; 0x03; 0x02; 0x03; 0x04; 0x08;
    0x01; 0x01; 0x01; 0x03; 0x01; 0x01; 0x03; 0x05; 0x02; 0x03; 0x03; 0x02; 0x04; 0x05; 0x08; 0x10;
    0x01; 0x01; 0x01; 0x03; 0x01; 0x01; 0x03; 0x05; 0x01; 0x01; 0x01; 0x03; 0x03; 0x03; 0x05; 0x09;
    0x02; 0x03; 0x03; 0x02; 0x03; 0x03; 0x02; 0x06; 0x04; 0x05; 0x05; 0x06; 0x08; 0x09; 0x10; 0x20;
    0x01; 0x01; 0x01; 0x03; 0x01; 0x01; 0x03; 0x05; 0x01; 0x01; 0x01; 0x03; 0x03; 0x03; 0x05; 0x09;
    0x01; 0x01; 0x01; 0x03; 0x01; 0x01; 0x03; 0x05; 0x03; 0x03; 0x03; 0x03; 0x05; 0x05; 0x09; 0x11;
    0x02; 0x03; 0x03; 0x02; 0x03; 0x03; 0x02; 0x06; 0x03; 0x03; 0x03; 0x03; 0x02; 0x03; 0x06; 0x0a;
    0x04; 0x05; 0x05; 0x06; 0x05; 0x05; 0x06; 0x04; 0x08; 0x09; 0x09; 0x0a; 0x10; 0x11; 0x20; 0x40;
    0x01; 0x01; 0x01; 0x03; 0x01; 0x01; 0x03; 0x05; 0x01; 0x01; 0x01; 0x03; 0x03; 0x03; 0x05; 0x09;
    0x01; 0x01; 0x01; 0x03; 0x01; 0x01; 0x03; 0x05; 0x03; 0x03; 0x03; 0x03; 0x05; 0x05; 0x09; 0x11;
    0x01; 0x01; 0x01; 0x03; 0x01; 0x01; 0x03; 0x05; 0x01; 0x01; 0x01; 0x03; 0x03; 0x03; 0x05; 0x09;
    0x03; 0x03; 0x03; 0x03; 0x03; 0x03; 0x03; 0x07; 0x05; 0x05; 0x05; 0x07; 0x09; 0x09; 0x11; 0x21;
    0x02; 0x03; 0x03; 0x02; 0x03; 0x03; 0x02; 0x06; 0x03; 0x03; 0x03; 0x03; 0x02; 0x03; 0x06; 0x0a;
    0x03; 0x03; 0x03; 0x03; 0x03; 0x03; 0x03; 0x07; 0x02; 0x03; 0x03; 0x02; 0x06; 0x07; 0x0a; 0x12;
    0x04; 0x05; 0x05; 0x06; 0x05; 0x05; 0x06; 0x04; 0x05; 0x05; 0x05; 0x07; 0x06; 0x07; 0x04; 0x0c;
    0x08; 0x09; 0x09; 0x0a; 0x09; 0x09; 0x0a; 0x0c; 0x10; 0x11; 0x11; 0x12; 0x20; 0x21; 0x40; 0x80 ].

(** The table of the fragment count; the array has null pointers elsewhere. *)
Definition fragtbl (frag : Z) : list Z :=
  match frag with
  | 1 | 2 | 4 => fragtbl124
  | 8 => fragtbl8
  | _ => []
  end.
