(* ===== verification/FfsSubr.v ===== *)
(** Block and cluster accounting: src/sys/ufs/ffs/ffs_subr.c.

    The block operations ([ffs_isblock], [ffs_isfreeblock], [ffs_clrblock],
    [ffs_setblock]) switch on [fs_frag]; the lemmas reduce the four cases to
    the bits of the map. [ffs_fragacct] is shown to count the maximal runs of
    free fragments of a block, and [ffs_clusteracct] to keep the cluster
    summary the histogram of the maximal runs of free blocks. *)

From S2P Require Import Prelude Bitmap Fs.

(** ** Definitions *)

(** The inner loop of [ffs_fragacct]: the number of matches of the pattern
    of size [siz] in the map, from position [pos]. [fuel] bounds the
    positions left; [frag] positions suffice. *)
Fixpoint fragacct_pos (fuel : nat) (frag siz pos fragmap field subfield : Z) : Z :=
  match fuel with
  | O => 0
  | S fuel' =>
      if pos <=? frag then
        if Z.land fragmap field =? subfield then
          1 + fragacct_pos fuel' frag siz (pos + siz + 1) fragmap
                (Z.shiftl (Z.shiftl field siz) 1) (Z.shiftl (Z.shiftl subfield siz) 1)
        else
          fragacct_pos fuel' frag siz (pos + 1) fragmap
            (Z.shiftl field 1) (Z.shiftl subfield 1)
      else 0
  end.

(** One round of the outer loop: what is added to [fraglist[siz]], for a
    count of 1. *)
Definition fragacct_size (frag fragmap siz : Z) : Z :=
  let inblk := Z.shiftl (zget (fragtbl frag) fragmap) 1 in
  if Z.land inblk (Z.shiftl 1 (siz + frag mod NBBY)) =? 0 then 0
  else fragacct_pos (Z.to_nat frag) frag siz siz (Z.shiftl fragmap 1)
         (zget around siz) (zget inside siz).

Section ops.
Context (s : superblock).

Definition ffs_isblock (cp : list Z) (h : Z) : result bool :=
  match fs_frag s with
  | 8 => Ok (zget cp h =? 0xff)
  | 4 => let mask := Z.shiftl 0x0f (Z.shiftl (Z.land h 0x1) 2) in
         Ok (Z.land (zget cp (Z.shiftr h 1)) mask =? mask)
  | 2 => let mask := Z.shiftl 0x03 (Z.shiftl (Z.land h 0x3) 1) in
         Ok (Z.land (zget cp (Z.shiftr h 2)) mask =? mask)
  | 1 => let mask := Z.shiftl 0x01 (Z.land h 0x7) in
         Ok (Z.land (zget cp (Z.shiftr h 3)) mask =? mask)
  | _ => Panic "ffs_isblock"
  end.

Definition ffs_isfreeblock (cp : list Z) (h : Z) : result bool :=
  match fs_frag s with
  | 8 => Ok (zget cp h =? 0)
  | 4 => Ok (Z.land (zget cp (Z.shiftr h 1))
               (Z.shiftl 0x0f (Z.shiftl (Z.land h 0x1) 2)) =? 0)
  | 2 => Ok (Z.land (zget cp (Z.shiftr h 2))
               (Z.shiftl 0x03 (Z.shiftl (Z.land h 0x3) 1)) =? 0)
  | 1 => Ok (Z.land (zget cp (Z.shiftr h 3)) (Z.shiftl 0x01 (Z.land h 0x7)) =? 0)
  | _ => Panic "ffs_isfreeblock"
  end.

Definition ffs_clrblock (cp : list Z) (h : Z) : result (list Z) :=
  match fs_frag s with
  | 8 => Ok (zset cp h 0)
  | 4 => let k := Z.shiftr h 1 in
         Ok (zset cp k (Z.ldiff (zget cp k)
               (Z.shiftl 0x0f (Z.shiftl (Z.land h 0x1) 2))))
  | 2 => let k := Z.shiftr h 2 in
         Ok (zset cp k (Z.ldiff (zget cp k)
               (Z.shiftl 0x03 (Z.shiftl (Z.land h 0x3) 1))))
  | 1 => let k := Z.shiftr h 3 in
         Ok (zset cp k (Z.ldiff (zget cp k) (Z.shiftl 0x01 (Z.land h 0x7))))
  | _ => Panic "ffs_clrblock"
  end.

Definition ffs_setblock (cp : list Z) (h : Z) : result (list Z) :=
  match fs_frag s with
  | 8 => Ok (zset cp h 0xff)
  | 4 => let k := Z.shiftr h 1 in
         Ok (zset cp k (Z.lor (zget cp k)
               (Z.shiftl 0x0f (Z.shiftl (Z.land h 0x1) 2))))
  | 2 => let k := Z.shiftr h 2 in
         Ok (zset cp k (Z.lor (zget cp k)
               (Z.shiftl 0x03 (Z.shiftl (Z.land h 0x3) 1))))
  | 1 => let k := Z.shiftr h 3 in
         Ok (zset cp k (Z.lor (zget cp k) (Z.shiftl 0x01 (Z.land h 0x7))))
  | _ => Panic "ffs_setblock"
  end.

Definition ffs_fragacct (fragmap : Z) (fraglist : list Z) (cnt : Z) : list Z :=
  foreach (Z.to_nat (fs_frag s - 1)) 1
    (fun siz l => zset l siz (zget l siz + cnt * fragacct_size (fs_frag s) fragmap siz))
    fraglist.
End ops.

(** The forward scan of [ffs_clusteracct]: [map] is the byte under the
    cursor, [bit] the mask in it and [mapp] the index of the next byte. *)
Fixpoint cluster_forw (n : nat) (freemapp : list Z) (i map bit mapp : Z) : Z :=
  match n with
  | O => i
  | S n' =>
      if Z.land map bit =? 0 then i
      else if negb (Z.land i (NBBY - 1) =? NBBY - 1)
      then cluster_forw n' freemapp (i + 1) map (Z.shiftl bit 1) mapp
      else cluster_forw n' freemapp (i + 1) (zget freemapp mapp) 1 (mapp + 1)
  end.

(** The backward scan; [mapp] is the index of the byte before. *)
Fixpoint cluster_back (n : nat) (freemapp : list Z) (i map bit mapp : Z) : Z :=
  match n with
  | O => i
  | S n' =>
      if Z.land map bit =? 0 then i
      else if negb (Z.land i (NBBY - 1) =? 0)
      then cluster_back n' freemapp (i - 1) map (Z.shiftr bit 1) mapp
      else cluster_back n' freemapp (i - 1) (zget freemapp mapp)
             (Z.shiftl 1 (NBBY - 1)) (mapp - 1)
  end.

(** [sump[i] += d]. *)
Definition add_at (l : list Z) (i d : Z) : list Z := zset l i (zget l i + d).

(** The largest cluster size with a free cluster, or 0. *)
Definition max_cluster (sump : list Z) (from : Z) : Z :=
  search_down (Z.to_nat from) from (fun i => 0 <? zget sump i).

(** The summary after a block joins ([cnt = 1]) or leaves ([cnt = -1]) the
    clusters of [back] blocks before it and [forw] after it. *)
Definition cluster_sums (sump : list Z) (contigsumsize back forw cnt : Z) : list Z :=
  let i := back + forw + 1 in
  let i := if contigsumsize <? i then contigsumsize else i in
  let sump := add_at sump i cnt in
  let sump := if 0 <? back then add_at sump back (- cnt) else sump in
  if 0 <? forw then add_at sump forw (- cnt) else sump.

Definition ffs_clusteracct (f : fs) (cgp : cg) (blkno cnt : Z) : fs * cg :=
  if fs_contigsumsize f <=? 0 then (f, cgp) else
  let freemapp := if 0 <? cnt then setbit (cg_clustersfree cgp) blkno
                  else clrbit (cg_clustersfree cgp) blkno in
  let sump := cg_clustersum cgp in
  let start := blkno + 1 in
  let e := start + fs_contigsumsize f in
  let e := if cg_nclusterblks cgp <=? e then cg_nclusterblks cgp else e in
  let k := Z.quot start NBBY in
  let i := cluster_forw (Z.to_nat (e - start)) freemapp start (zget freemapp k)
             (Z.shiftl 1 (Z.rem start NBBY)) (k + 1) in
  let forw := i - start in
  let start := blkno - 1 in
  let e := start - fs_contigsumsize f in
  let e := if e <? 0 then -1 else e in
  let k := Z.quot start NBBY in
  let i := cluster_back (Z.to_nat (start - e)) freemapp start (zget freemapp k)
             (Z.shiftl 1 (Z.rem start NBBY)) (k - 1) in
  let back := start - i in
  let sump := cluster_sums sump (fs_contigsumsize f) back forw cnt in
  (set_fs_maxcluster (zset (fs_maxcluster f) (cg_cgx cgp)
                        (max_cluster sump (fs_contigsumsize f))) f,
   set_cg_clustersum sump (set_cg_clustersfree freemapp cgp)).

(** ** Block operations on bits *)

(** The fragment counts FFS supports. *)
Definition frag_ok (s : superblock) : Prop :=
  fs_frag s = 1 \/ fs_frag s = 2 \/ fs_frag s = 4 \/ fs_frag s = 8.

Lemma frag_ok_div s :
  frag_ok s -> 0 < fs_frag s <= 8 /\ 8 mod fs_frag s = 0.
Proof. intros [-> | [-> | [-> | ->]]]; by split. Qed.

(** The fragments of a block lie in one byte. *)
Lemma block_in_byte s h j :
  frag_ok s -> 0 <= h -> 0 <= j < fs_frag s ->
  (h * fs_frag s + j) / 8 = (h * fs_frag s) / 8 /\
  (h * fs_frag s + j) mod 8 = (h * fs_frag s) mod 8 + j.
Proof. intros [E | [E | [E | E]]] Hh Hj; rewrite E in *; dlia. Qed.

(** The byte and the mask that the four cases of the block operations
    compute from a block number. *)
Definition block_byte (s : superblock) (h : Z) : Z := (h * fs_frag s) / 8.
Definition block_mask (s : superblock) (h : Z) : Z :=
  Z.shiftl (Z.ones (fs_frag s)) ((h * fs_frag s) mod 8).

Section ops_normal.
Context (s : superblock) (Hs : frag_ok s) (h : Z) (Hh : 0 <= h).

Lemma block_cases :
  (fs_frag s = 8 /\ block_byte s h = h /\ block_mask s h = 0xff) \/
  (fs_frag s = 4 /\ block_byte s h = Z.shiftr h 1 /\
     block_mask s h = Z.shiftl 0x0f (Z.shiftl (Z.land h 0x1) 2)) \/
  (fs_frag s = 2 /\ block_byte s h = Z.shiftr h 2 /\
     block_mask s h = Z.shiftl 0x03 (Z.shiftl (Z.land h 0x3) 1)) \/
  (fs_frag s = 1 /\ block_byte s h = Z.shiftr h 3 /\
     block_mask s h = Z.shiftl 0x01 (Z.land h 0x7)).
Proof.
  unfold block_byte, block_mask.
  change (Z.land h 1) with (Z.land h (Z.ones 1)).
  change (Z.land h 3) with (Z.land h (Z.ones 2)).
  change (Z.land h 7) with (Z.land h (Z.ones 3)).
  rewrite !Z.land_ones, !Z.shiftr_div_pow2, (Z.shiftl_mul_pow2 (h mod 2 ^ 1)),
    (Z.shiftl_mul_pow2 (h mod 2 ^ 2)) by lia.
  change (2 ^ 1) with 2. change (2 ^ 2) with 4. change (2 ^ 3) with 8.
  destruct Hs as [E | [E | [E | E]]]; rewrite !E.
  - do 3 right. split; [done|]. split; [dlia|]. f_equal. dlia.
  - do 2 right. left. split; [done|]. split; [dlia|]. f_equal. dlia.
  - right. left. split; [done|]. split; [dlia|]. f_equal. dlia.
  - left. split; [done|]. split; [dlia|].
    replace ((h * 8) mod 8) with 0 by dlia. done.
Qed.

Lemma ffs_isblock_normal cp n :
  bitmap n cp ->
  ffs_isblock s cp h =
    Ok (Z.land (zget cp (block_byte s h)) (block_mask s h) =? block_mask s h).
Proof.
  intros Hcp. unfold ffs_isblock.
  destruct block_cases as [(-> & -> & ->) | [(-> & -> & ->) | [(-> & -> & ->) | (-> & -> & ->)]]];
    try done.
  f_equal. change 255 with (Z.ones 8). rewrite Z.land_ones by lia.
  rewrite Z.mod_small; [done | by eapply bitmap_byte].
Qed.

Lemma ffs_isfreeblock_normal cp n :
  bitmap n cp ->
  ffs_isfreeblock s cp h =
    Ok (Z.land (zget cp (block_byte s h)) (block_mask s h) =? 0).
Proof.
  intros Hcp. unfold ffs_isfreeblock.
  destruct block_cases as [(-> & -> & ->) | [(-> & -> & ->) | [(-> & -> & ->) | (-> & -> & ->)]]];
    try done.
  f_equal. change 255 with (Z.ones 8). rewrite Z.land_ones by lia.
  rewrite Z.mod_small; [done | by eapply bitmap_byte].
Qed.

Lemma ffs_clrblock_normal cp n :
  bitmap n cp ->
  ffs_clrblock s cp h =
    Ok (zset cp (block_byte s h) (Z.ldiff (zget cp (block_byte s h)) (block_mask s h))).
Proof.
  intros Hcp. unfold ffs_clrblock.
  destruct block_cases as [(-> & -> & ->) | [(-> & -> & ->) | [(-> & -> & ->) | (-> & -> & ->)]]];
    try done.
  do 2 f_equal. apply byte_ext; [unfold is_byte; lia | |].
  - apply byte_of_testbit.
    + apply Z.ldiff_nonneg. left. apply (bitmap_byte n _ _ Hcp).
    + intros i Hi. rewrite Z.ldiff_spec, testbit_byte; [done | by eapply bitmap_byte | done].
  - intros k Hk. change 255 with (Z.ones 8). autorewrite with bits. ztest.
    by rewrite andb_false_r.
Qed.

Lemma ffs_setblock_normal cp n :
  bitmap n cp ->
  ffs_setblock s cp h =
    Ok (zset cp (block_byte s h) (Z.lor (zget cp (block_byte s h)) (block_mask s h))).
Proof.
  intros Hcp. unfold ffs_setblock.
  destruct block_cases as [(-> & -> & ->) | [(-> & -> & ->) | [(-> & -> & ->) | (-> & -> & ->)]]];
    try done.
  do 2 f_equal. pose proof (bitmap_byte n _ h Hcp) as Hb.
  symmetry. apply byte_ext; [| unfold is_byte; lia |].
  - apply byte_of_testbit.
    + apply Z.lor_nonneg. split; [apply Hb | lia].
    + intros i Hi. rewrite Z.lor_spec, testbit_byte by done.
      rewrite testbit_byte; [done | unfold is_byte; lia | done].
  - intros k Hk. change 255 with (Z.ones 8). autorewrite with bits. ztest.
    by rewrite orb_true_r.
Qed.

(** Bit [j] of the mask in byte [block_byte]. *)
Lemma block_mask_bit j :
  0 <= j ->
  (block_byte s h =? j / 8) && Z.testbit (block_mask s h) (j mod 8) =
    (h * fs_frag s <=? j) && (j <? h * fs_frag s + fs_frag s).
Proof.
  intros Hj. unfold block_byte, block_mask.
  rewrite Z.shiftl_spec by dlia. rewrite testbit_ones by (destruct (frag_ok_div s Hs); lia).
  destruct Hs as [E | [E | [E | E]]]; rewrite !E; repeat zcase; simpl; try done; dlia.
Qed.
End ops_normal.

Lemma block_mask_byte s h : frag_ok s -> is_byte (block_mask s h).
Proof.
  intros Hs. unfold block_mask.
  apply byte_of_testbit.
  - apply Z.shiftl_nonneg. destruct (frag_ok_div s Hs). rewrite Z.ones_equiv. lia.
  - intros i Hi. rewrite Z.shiftl_spec by lia. destruct (frag_ok_div s Hs).
    rewrite testbit_ones by lia.
    destruct Hs as [E | [E | [E | E]]]; rewrite E; repeat zcase; simpl; try done; dlia.
Qed.

(** [ffs_clrblock] clears exactly the bits of the block. *)
Lemma ffs_clrblock_bits s n cp h :
  frag_ok s -> 0 <= h -> h * fs_frag s < 8 * n -> bitmap n cp ->
  exists cp', ffs_clrblock s cp h = Ok cp' /\ bitmap n cp' /\
    forall j, 0 <= j -> bit cp' j = bit cp j &&
      negb ((h * fs_frag s <=? j) && (j <? h * fs_frag s + fs_frag s)).
Proof.
  intros Hs Hh Hn Hcp. eexists. split; [by eapply ffs_clrblock_normal|]. split.
  - destruct Hcp as [Hl Hb]. split; [by rewrite zlength_aset|]. apply aset_Forall; [|done].
    apply byte_of_testbit.
    + apply Z.ldiff_nonneg. left. by apply (bitmap_byte n).
    + intros i Hi. rewrite Z.ldiff_spec, testbit_byte; [done | by eapply bitmap_byte | done].
  - intros j Hj. rewrite <- block_mask_bit by done. unfold bit.
    destruct (frag_ok_div s Hs). destruct Hcp as [Hl _].
    rewrite aget_aset by (unfold block_byte; dlia).
    zcase; simpl; [|by rewrite andb_true_r]. rewrite Z.ldiff_spec. by rewrite e.
Qed.

Lemma ffs_setblock_bits s n cp h :
  frag_ok s -> 0 <= h -> h * fs_frag s < 8 * n -> bitmap n cp ->
  exists cp', ffs_setblock s cp h = Ok cp' /\ bitmap n cp' /\
    forall j, 0 <= j -> bit cp' j = bit cp j ||
      ((h * fs_frag s <=? j) && (j <? h * fs_frag s + fs_frag s)).
Proof.
  intros Hs Hh Hn Hcp. eexists. split; [by eapply ffs_setblock_normal|]. split.
  - pose proof (bitmap_byte n cp (block_byte s h) Hcp) as Hg.
    pose proof (block_mask_byte s h Hs) as Hm.
    destruct Hcp as [Hl Hb]. split; [by rewrite zlength_aset|]. apply aset_Forall; [|done].
    apply byte_of_testbit.
    + apply Z.lor_nonneg. split; [apply Hg | apply Hm].
    + intros i Hi. by rewrite Z.lor_spec, !testbit_byte.
  - intros j Hj. rewrite <- block_mask_bit by done. unfold bit.
    destruct (frag_ok_div s Hs). destruct Hcp as [Hl _].
    rewrite aget_aset by (unfold block_byte; dlia).
    zcase; simpl; [|by rewrite orb_false_r]. rewrite Z.lor_spec. by rewrite e.
Qed.

(** ** Block values *)

(** The fragment bits of block [h] of the map. *)
Definition blk (s : superblock) (m : list Z) (h : Z) : Z := blkmap s m (h * fs_frag s).

(** The value of a wholly free block. *)
Definition full (s : superblock) : Z := Z.ones (fs_frag s).

Section blocks.
Context (s : superblock) (Hs : frag_ok s).
Implicit Types (m : list Z) (h j : Z).

Lemma blk_testbit m h j :
  0 <= h -> 0 <= j ->
  Z.testbit (blk s m h) j = bit m (h * fs_frag s + j) && (j <? fs_frag s).
Proof.
  intros Hh Hj. unfold blk, blkmap, frag_blkmap, NBBY. destruct (frag_ok_div s Hs).
  rewrite Z.land_spec, Z.shiftr_spec, (Z.shiftr_spec _ _ j) by done.
  change 255 with (Z.ones 8). rewrite testbit_ones by lia.
  destruct (Z.ltb_spec j (fs_frag s)) as [Hlt|Hge].
  - destruct (block_in_byte s h j Hs Hh) as [E1 E2]; [lia|].
    unfold bit. rewrite E1, E2. ztest. simpl. f_equal. f_equal. lia.
  - ztest. by rewrite !andb_false_r.
Qed.

Lemma testbit_full j : 0 <= j -> Z.testbit (full s) j = (j <? fs_frag s).
Proof.
  intros Hj. unfold full. rewrite testbit_ones by (destruct (frag_ok_div s Hs); lia).
  by ztest.
Qed.

Lemma full_values : full s = 1 \/ full s = 3 \/ full s = 15 \/ full s = 255.
Proof. unfold full. destruct Hs as [-> | [-> | [-> | ->]]]; vm_compute; tauto. Qed.

Lemma blk_range m h : 0 <= h -> 0 <= blk s m h <= full s.
Proof.
  intros Hh. unfold blk, blkmap, frag_blkmap, NBBY.
  replace (Z.shiftr 255 (8 - fs_frag s)) with (full s)
    by (unfold full; by destruct Hs as [-> | [-> | [-> | ->]]]).
  unfold full. destruct (frag_ok_div s Hs). rewrite Z.land_ones by lia.
  rewrite Z.ones_equiv. pose proof (Z.pow_pos_nonneg 2 (fs_frag s)).
  pose proof (Z.mod_pos_bound
    (Z.shiftr (zget m (h * fs_frag s / 8)) ((h * fs_frag s) mod 8)) (2 ^ fs_frag s)). lia.
Qed.

(** A block value is determined by its fragments. *)
Lemma blk_eq m h v :
  0 <= h -> 0 <= v <= full s ->
  (forall j, 0 <= j < fs_frag s -> bit m (h * fs_frag s + j) = Z.testbit v j) ->
  blk s m h = v.
Proof.
  intros Hh Hv H. apply Z.bits_inj'. intros j Hj. rewrite blk_testbit by done.
  destruct (Z.ltb_spec j (fs_frag s)).
  - rewrite H by lia. by rewrite andb_true_r.
  - rewrite andb_false_r. symmetry. rewrite <- (Z.mod_small v (2 ^ fs_frag s)).
    + apply Z.mod_pow2_bits_high. destruct (frag_ok_div s Hs). lia.
    + unfold full in Hv. rewrite Z.ones_equiv in Hv. lia.
Qed.

Lemma blk_full_iff m h :
  0 <= h ->
  blk s m h = full s <-> (forall j, 0 <= j < fs_frag s -> bit m (h * fs_frag s + j) = true).
Proof.
  intros Hh. split.
  - intros H j Hj. apply (f_equal (fun x => Z.testbit x j)) in H.
    rewrite blk_testbit, testbit_full in H by lia. revert H. ztest.
    by rewrite andb_true_r.
  - intros H. apply blk_eq; [done | destruct full_values; lia |].
    intros j Hj. rewrite H, testbit_full by lia. by ztest.
Qed.

(** Equal fragments give equal block values. *)
Lemma blk_ext m m' h :
  0 <= h ->
  (forall j, 0 <= j < fs_frag s -> bit m' (h * fs_frag s + j) = bit m (h * fs_frag s + j)) ->
  blk s m' h = blk s m h.
Proof.
  intros Hh H. apply blk_eq; [done | by apply blk_range |].
  intros j Hj. rewrite H, blk_testbit by lia. ztest. by rewrite andb_true_r.
Qed.

(** The block tests of the code, as tests of the block value. *)
Lemma ffs_isblock_blk m n h :
  bitmap n m -> 0 <= h -> ffs_isblock s m h = Ok (blk s m h =? full s).
Proof.
  intros Hm Hh. erewrite ffs_isblock_normal by eassumption. f_equal.
  unfold blk, blkmap, frag_blkmap, block_byte, block_mask, full, NBBY.
  pose proof (bitmap_byte n m (h * fs_frag s / 8) Hm) as Hb.
  assert (0 <= (h * fs_frag s) mod 8 <= 8 - fs_frag s /\
          (h * fs_frag s) mod 8 mod fs_frag s = 0) as [Ho Hoo]
    by (destruct Hs as [E | [E | [E | E]]]; rewrite E; dlia).
  generalize dependent ((h * fs_frag s) mod 8).
  generalize dependent (zget m (h * fs_frag s / 8)). intros b Hb o Ho Hoo.
  assert (bytes_all (fun b => forallb (fun o => if o mod fs_frag s =? 0 then
      eqb (Z.land b (Z.shiftl (Z.ones (fs_frag s)) o) =? Z.shiftl (Z.ones (fs_frag s)) o)
          (Z.land (Z.shiftr b o) (Z.shiftr 255 (8 - fs_frag s)) =? Z.ones (fs_frag s))
      else true) (seqZ 0 (9 - fs_frag s))) = true) as H
    by (destruct Hs as [-> | [-> | [-> | ->]]]; by vm_compute).
  apply (bytes_all_elim _ b) in H; [|done]. rewrite forallb_forall in H.
  specialize (H o). rewrite Hoo in H. apply eqb_prop, H.
  apply list_elem_of_In, elem_of_seqZ. lia.
Qed.

Lemma ffs_isfreeblock_blk m n h :
  bitmap n m -> 0 <= h -> ffs_isfreeblock s m h = Ok (blk s m h =? 0).
Proof.
  intros Hm Hh. erewrite ffs_isfreeblock_normal by eassumption. f_equal.
  unfold blk, blkmap, frag_blkmap, block_byte, block_mask, NBBY.
  pose proof (bitmap_byte n m (h * fs_frag s / 8) Hm) as Hb.
  assert (0 <= (h * fs_frag s) mod 8 <= 8 - fs_frag s /\
          (h * fs_frag s) mod 8 mod fs_frag s = 0) as [Ho Hoo]
    by (destruct Hs as [E | [E | [E | E]]]; rewrite E; dlia).
  generalize dependent ((h * fs_frag s) mod 8).
  generalize dependent (zget m (h * fs_frag s / 8)). intros b Hb o Ho Hoo.
  assert (bytes_all (fun b => forallb (fun o => if o mod fs_frag s =? 0 then
      eqb (Z.land b (Z.shiftl (Z.ones (fs_frag s)) o) =? 0)
          (Z.land (Z.shiftr b o) (Z.shiftr 255 (8 - fs_frag s)) =? 0)
      else true) (seqZ 0 (9 - fs_frag s))) = true) as H
    by (destruct Hs as [-> | [-> | [-> | ->]]]; by vm_compute).
  apply (bytes_all_elim _ b) in H; [|done]. rewrite forallb_forall in H.
  specialize (H o). rewrite Hoo in H. apply eqb_prop, H.
  apply list_elem_of_In, elem_of_seqZ. lia.
Qed.
End blocks.

(** ** Fragment runs *)

(** The free fragments of a block value, lowest first. *)
Definition fragbits (frag v : Z) : list bool := (fun j => Z.testbit v j) <$> seqZ 0 frag.

(** The number of maximal runs of exactly [k] free fragments. *)
Definition frag_runs (frag v k : Z) : Z :=
  Z.of_nat (count_occ Nat.eq_dec (run_lengths (fragbits frag v)) (Z.to_nat k)).

(** The number of free fragments. *)
Definition frag_free (frag v : Z) : Z :=
  Z.of_nat (length (List.filter (fun b => b) (fragbits frag v))).

Definition frag_counts : list Z := [1; 2; 4; 8].

Lemma frag_ok_In s : frag_ok s <-> In (fs_frag s) frag_counts.
Proof. unfold frag_ok, frag_counts. simpl. intuition auto. Qed.

(** A test of all fragment counts and block values, by computation. *)
Definition blocks_all (P : Z -> Z -> bool) : bool :=
  forallb (fun f => forallb (P f) (seqZ 0 (2 ^ f))) frag_counts.

Lemma blocks_all_elim P s v :
  blocks_all P = true -> frag_ok s -> 0 <= v <= full s -> P (fs_frag s) v = true.
Proof.
  unfold blocks_all. rewrite forallb_forall. intros H Hs Hv.
  apply frag_ok_In in Hs as Hin. specialize (H _ Hin). rewrite forallb_forall in H.
  apply H. apply list_elem_of_In, elem_of_seqZ.
  unfold full in Hv. rewrite Z.ones_equiv in Hv. lia.
Qed.

(** Each round of [ffs_fragacct] counts the runs of its size. *)
Lemma fragacct_size_runs s v k :
  frag_ok s -> 0 <= v <= full s -> 1 <= k < fs_frag s ->
  fragacct_size (fs_frag s) v k = frag_runs (fs_frag s) v k.
Proof.
  intros Hs Hv Hk.
  assert (blocks_all (fun f v => forallb (fun k => fragacct_size f v k =? frag_runs f v k)
            (seqZ 1 (f - 1))) = true) as H by by vm_compute.
  apply (blocks_all_elim _ s v) in H; [|done..]. rewrite forallb_forall in H.
  apply Z.eqb_eq, H, list_elem_of_In, elem_of_seqZ. lia.
Qed.

Lemma ffs_fragacct_spec s v l cnt :
  frag_ok s -> 0 <= v <= full s -> fs_frag s <= zlength l ->
  let l' := ffs_fragacct s v l cnt in
  zlength l' = zlength l /\
  forall k, 0 <= k -> zget l' k = zget l k +
    (if (1 <=? k) && (k <? fs_frag s) then cnt * frag_runs (fs_frag s) v k else 0).
Proof.
  intros Hs Hv Hl. destruct (frag_ok_div s Hs) as [Hf _]. unfold ffs_fragacct.
  pose (P := fun i l' => zlength l' = zlength l /\ forall k, 0 <= k ->
    zget l' k = zget l k +
      (if (1 <=? k) && (k <? i) then cnt * frag_runs (fs_frag s) v k else 0)).
  cbv zeta. match goal with |- zlength ?t = _ /\ _ =>
    enough (P (1 + Z.of_nat (Z.to_nat (fs_frag s - 1))) t) as H
      by (unfold P in H; by replace (1 + _) with (fs_frag s) in H by lia) end.
  apply foreach_ind; unfold P; clear P.
  - split; [done|]. intros k Hk. repeat zcase; simpl; lia.
  - intros i t Hi [Ht Hb]. split; [by rewrite zlength_aset|]. intros k Hk.
    rewrite aget_aset by lia. rewrite !Hb by lia. rewrite fragacct_size_runs by (done || lia).
    repeat zcase; simpl; subst; lia.
Qed.

(** ** Clusters *)

(** The cursor of the forward scan follows the bits of the map. *)
Lemma cluster_forw_search n m i :
  0 <= i ->
  cluster_forw n m i (zget m (i / 8)) (Z.shiftl 1 (i mod 8)) (i / 8 + 1) =
    search n i (fun j => negb (bit m j)).
Proof.
  revert i. induction n as [|n IH]; intros i Hi; [done|]. simpl.
  rewrite land_pow2_testbit by dlia. unfold bit at 1. destruct (Z.testbit _ _); simpl; [|done].
  change (Z.land i (NBBY - 1)) with (Z.land i (Z.ones 3)). rewrite Z.land_ones by lia.
  change (NBBY - 1) with 7. change (2 ^ 3) with 8.
  rewrite <- IH by lia. rewrite Z.shiftl_shiftl by dlia. zcase; simpl.
  - replace ((i + 1) / 8) with (i / 8 + 1) by dlia. replace ((i + 1) mod 8) with 0 by dlia. done.
  - replace ((i + 1) / 8) with (i / 8) by dlia.
    replace ((i + 1) mod 8) with (i mod 8 + 1) by dlia. done.
Qed.

(** The same backward, down to the first byte of the map. *)
Lemma cluster_back_search n m i :
  0 <= i -> Z.of_nat n <= i + 1 ->
  cluster_back n m i (zget m (i / 8)) (Z.shiftl 1 (i mod 8)) (i / 8 - 1) =
    search_down n i (fun j => negb (bit m j)).
Proof.
  revert i. induction n as [|n IH]; intros i Hi Hn; [done|]. simpl.
  rewrite land_pow2_testbit by dlia. unfold bit at 1. destruct (Z.testbit _ _); simpl; [|done].
  change (Z.land i (NBBY - 1)) with (Z.land i (Z.ones 3)). rewrite Z.land_ones by lia.
  change (2 ^ 3) with 8. change (NBBY - 1) with 7.
  destruct n as [|n]; [by case (negb _)|].
  rewrite <- IH by lia. zcase; cbn [negb].
  - replace ((i - 1) / 8) with (i / 8 - 1) by dlia. replace ((i - 1) mod 8) with 7 by dlia. done.
  - assert (Z.shiftr (Z.shiftl 1 (i mod 8)) 1 = Z.shiftl 1 ((i - 1) mod 8)) as ->.
    { replace ((i - 1) mod 8) with (i mod 8 - 1) by dlia.
      rewrite Z.shiftr_div_pow2, !Z.shiftl_1_l, Z.pow_sub_r by dlia. done. }
    by replace ((i - 1) / 8) with (i / 8) by dlia.
Qed.

(** The free blocks of a group, as the cluster map records them. *)
Definition cluster_bits (c : cg) : list bool :=
  (fun i => bit (cg_clustersfree c) i) <$> seqZ 0 (cg_nclusterblks c).

(** The summary counts the maximal runs of free blocks by (capped) length. *)
Definition clustersum_ok (s : superblock) (c : cg) : Prop :=
  zlength (cg_clustersum c) = fs_contigsumsize s + 1 /\
  forall k, 1 <= k <= fs_contigsumsize s ->
    zget (cg_clustersum c) k =
      run_count (Z.to_nat (fs_contigsumsize s)) (cluster_bits c) (Z.to_nat k).

Lemma cluster_bits_lookup c i :
  0 <= i < cg_nclusterblks c ->
  cluster_bits c !! Z.to_nat i = Some (bit (cg_clustersfree c) i).
Proof.
  intros Hi. unfold cluster_bits. rewrite list_lookup_fmap, lookup_seqZ_lt by lia.
  simpl. do 2 f_equal. lia.
Qed.

Lemma cluster_bits_length c : length (cluster_bits c) = Z.to_nat (cg_nclusterblks c).
Proof. unfold cluster_bits. by rewrite length_fmap, length_seqZ. Qed.

(** The forward scan finds the run after the block, up to the cap. *)
Lemma scan_forw c p cap :
  0 <= p < cg_nclusterblks c -> 0 < cap ->
  let e := if cg_nclusterblks c <=? p + 1 + cap then cg_nclusterblks c else p + 1 + cap in
  search (Z.to_nat (e - (p + 1))) (p + 1) (fun j => negb (bit (cg_clustersfree c) j)) - (p + 1)
  = Z.min cap (Z.of_nat (lead (drop (S (Z.to_nat p)) (cluster_bits c)))).
Proof.
  intros Hp Hcap e. set (F := lead _).
  pose proof (lead_length (drop (S (Z.to_nat p)) (cluster_bits c))) as HF.
  fold F in HF. rewrite length_drop, cluster_bits_length in HF.
  assert (forall j, 0 <= p + 1 + j < cg_nclusterblks c -> 0 <= j ->
    drop (S (Z.to_nat p)) (cluster_bits c) !! Z.to_nat j =
    Some (bit (cg_clustersfree c) (p + 1 + j))) as Hl.
  { intros j Hj Hj0. rewrite lookup_drop, <- cluster_bits_lookup by lia. f_equal. lia. }
  rewrite (search_eq _ _ _ (p + 1 + Z.min cap (Z.of_nat F))); [lia | | |].
  - unfold e. zcase; lia.
  - intros j Hj. assert (j < cg_nclusterblks c) by (clear Hl; lia).
    specialize (Hl (j - (p + 1)) ltac:(lia) ltac:(lia)).
    rewrite (lead_lookup_lt _ (Z.to_nat (j - (p + 1)))) in Hl by lia.
    replace (p + 1 + (j - (p + 1))) with j in Hl by lia. by injection Hl as <-.
  - intros Hlt. assert (Z.of_nat F < cap /\ p + 1 + Z.of_nat F < cg_nclusterblks c) as [H1 H2]
      by (revert Hlt; unfold e; zcase; lia).
    rewrite Z.min_r by lia. specialize (Hl (Z.of_nat F) ltac:(lia) ltac:(lia)).
    rewrite Nat2Z.id in Hl. unfold F in Hl at 1. rewrite lead_lookup_eq in Hl.
    + by injection Hl as <-.
    + rewrite length_drop, cluster_bits_length. fold F. lia.
Qed.

Lemma scan_back c p cap :
  0 <= p < cg_nclusterblks c -> 0 < cap ->
  let e := if p - 1 - cap <? 0 then -1 else p - 1 - cap in
  (p - 1) - search_down (Z.to_nat (p - 1 - e)) (p - 1) (fun j => negb (bit (cg_clustersfree c) j))
  = Z.min cap (Z.of_nat (lead (reverse (take (Z.to_nat p) (cluster_bits c))))).
Proof.
  intros Hp Hcap e. set (B := lead _).
  pose proof (lead_length (reverse (take (Z.to_nat p) (cluster_bits c)))) as HB.
  fold B in HB. rewrite length_reverse, length_take, cluster_bits_length in HB.
  assert (forall j, 0 <= j < p ->
    reverse (take (Z.to_nat p) (cluster_bits c)) !! Z.to_nat j =
    Some (bit (cg_clustersfree c) (p - 1 - j))) as Hl.
  { intros j Hj. rewrite reverse_lookup by (rewrite length_take, cluster_bits_length; lia).
    rewrite length_take, cluster_bits_length, lookup_take_lt by lia.
    rewrite <- cluster_bits_lookup by lia. f_equal. lia. }
  destruct (search_down_spec (Z.to_nat (p - 1 - e)) (p - 1)
    (fun j => negb (bit (cg_clustersfree c) j))) as (G1 & G2 & G3).
  set (r := search_down _ _ _) in *. assert (-1 <= e /\ (e = -1 /\ p <= cap \/ e = p - 1 - cap) /\ e <= p - 1)
    as (E1 & E2 & E3) by (unfold e; zcase; lia).
  assert (forall j, 0 <= j < p - 1 - r -> j < Z.of_nat B) as Hle.
  { intros j Hj. destruct (Z.lt_ge_cases j (Z.of_nat B)) as [|Hge]; [done|exfalso].
    specialize (Hl (Z.of_nat B) ltac:(lia)). rewrite Nat2Z.id in Hl. unfold B in Hl at 1.
    rewrite lead_lookup_eq in Hl by (rewrite length_reverse, length_take, cluster_bits_length; fold B; lia).
    injection Hl as Hl. specialize (G2 (p - 1 - Z.of_nat B) ltac:(lia)). by rewrite <- Hl in G2. }
  destruct (Z.lt_ge_cases e r) as [Hr|Hr].
  - specialize (G3 ltac:(lia)). apply negb_true_iff in G3.
    assert (Z.of_nat B <= p - 1 - r).
    { destruct (Z.lt_ge_cases (p - 1 - r) (Z.of_nat B)) as [Hlt|]; [|lia]. exfalso.
      specialize (Hl (p - 1 - r) ltac:(lia)).
      rewrite lead_lookup_lt in Hl by (fold B; lia). injection Hl as Hl.
      replace (p - 1 - (p - 1 - r)) with r in Hl by lia. congruence. }
    pose proof (Hle (p - 1 - r - 1)). lia.
  - pose proof (Hle (p - 1 - r - 1)). lia.
Qed.

Lemma fmap_insert_seqZ {A} (g g' : Z -> A) n p :
  0 <= p < n -> (forall i, 0 <= i < n -> i <> p -> g' i = g i) ->
  g' <$> seqZ 0 n = <[Z.to_nat p := g' p]> (g <$> seqZ 0 n).
Proof.
  intros Hp H. apply list_eq. intros i.
  destruct (decide (i = Z.to_nat p)) as [->|Hne].
  - rewrite list_lookup_insert_eq by (rewrite length_fmap, length_seqZ; lia).
    rewrite list_lookup_fmap, lookup_seqZ_lt by lia. simpl. do 2 f_equal. lia.
  - rewrite list_lookup_insert_ne by done. rewrite !list_lookup_fmap.
    destruct (seqZ 0 n !! i) eqn:E; [|done]. simpl. f_equal.
    apply lookup_seqZ in E. apply H; lia.
Qed.

(** What [ffs_clusteracct] does: it flips the block's bit and, from a summary
    that counts the runs before, makes one that counts them after; the
    largest size with a free cluster is recorded for the group. *)
Definition cluster_ok (f : fs) (c : cg) (h : Z) (b : bool) (f' : fs) (c' : cg) : Prop :=
  exists cf sum, c' = set_cg_clustersum sum (set_cg_clustersfree cf c) /\
    zlength cf = zlength (cg_clustersfree c) /\
    (bitmap (zlength cf) (cg_clustersfree c) -> bitmap (zlength cf) cf) /\
    (forall j, 0 <= j -> bit cf j = if h =? j then b else bit (cg_clustersfree c) j) /\
    clustersum_ok f c' /\
    f' = set_fs_maxcluster (zset (fs_maxcluster f) (cg_cgx c)
           (max_cluster sum (fs_contigsumsize f))) f.

Lemma zget_add_at l i d k :
  0 <= i < zlength l -> 0 <= k ->
  zget (add_at l i d) k = zget l k + d * indicator (i =? k).
Proof. intros Hi Hk. unfold add_at. rewrite aget_aset by done. zcase; subst; simpl; lia. Qed.

Lemma zlength_add_at l i d : zlength (add_at l i d) = zlength l.
Proof. apply zlength_aset. Qed.

(** The three counters [ffs_clusteracct] changes, for the (capped) lengths of
    the runs on the two sides of the block. *)
Lemma cluster_sums_spec sump cap back forw cnt k :
  zlength sump = cap + 1 -> 0 < cap -> 0 <= back <= cap -> 0 <= forw <= cap -> 0 <= k ->
  zlength (cluster_sums sump cap back forw cnt) = cap + 1 /\
  zget (cluster_sums sump cap back forw cnt) k = zget sump k + cnt *
    (indicator (Z.min cap (back + forw + 1) =? k)
     - indicator ((0 <? back) && (back =? k)) - indicator ((0 <? forw) && (forw =? k))).
Proof.
  intros Hl Hcap Hb Hf Hk. unfold cluster_sums.
  replace (if cap <? back + forw + 1 then cap else back + forw + 1)
    with (Z.min cap (back + forw + 1)) by (zcase; lia).
  set (i := Z.min _ _). set (sump1 := add_at sump i cnt).
  set (sump2 := if 0 <? back then _ else _).
  assert (zlength sump1 = cap + 1) as H1 by (unfold sump1; by rewrite zlength_add_at).
  assert (zlength sump2 = cap + 1) as H2
    by (unfold sump2; zcase; [by rewrite zlength_add_at | done]).
  assert (zget sump1 k = zget sump k + cnt * indicator (i =? k)) as E1
    by (apply zget_add_at; unfold i; lia).
  assert (zget sump2 k = zget sump1 k - cnt * indicator ((0 <? back) && (back =? k))) as E2.
  { unfold sump2. destruct (Z.ltb_spec 0 back); simpl; [|lia]. rewrite zget_add_at; lia. }
  split; [zcase; [by rewrite zlength_add_at | done]|].
  destruct (Z.ltb_spec 0 forw); simpl; [rewrite zget_add_at|]; lia.
Qed.

Lemma indicator_min cap n k :
  0 <= cap -> 0 <= k ->
  indicator (Nat.min (Z.to_nat cap) n =? Z.to_nat k)%nat = indicator (Z.min cap (Z.of_nat n) =? k).
Proof. intros Hc Hk. zcase; destruct (Nat.eqb_spec (Nat.min (Z.to_nat cap) n) (Z.to_nat k)); done || lia. Qed.

Lemma indicator_min_pos cap n k :
  0 < cap -> 0 <= k ->
  indicator ((0 <? n)%nat && (Nat.min (Z.to_nat cap) n =? Z.to_nat k)%nat)
  = indicator ((0 <? Z.min cap (Z.of_nat n)) && (Z.min cap (Z.of_nat n) =? k)).
Proof.
  intros Hc Hk. destruct (Nat.ltb_spec 0 n), (Z.ltb_spec 0 (Z.min cap (Z.of_nat n)));
    cbn [andb]; first [exfalso; lia | apply indicator_min; lia | done].
Qed.

Lemma ffs_clusteracct_correct (f : fs) c h cnt :
  0 < fs_contigsumsize f -> (cnt = 1 \/ cnt = -1) ->
  0 <= h < cg_nclusterblks c -> cg_nclusterblks c <= 8 * zlength (cg_clustersfree c) ->
  bit (cg_clustersfree c) h = (cnt <? 0) -> clustersum_ok f c ->
  let '(f', c') := ffs_clusteracct f c h cnt in cluster_ok f c h (0 <? cnt) f' c'.
Proof.
  intros Hcap Hcnt Hh Hlen Hbit [Hsl Hsum]. unfold ffs_clusteracct. ztest.
  set (cf := if 0 <? cnt then _ else _).
  assert (zlength cf = zlength (cg_clustersfree c)) as Hcfl
    by (unfold cf; case (0 <? cnt); apply zlength_aset).
  assert (forall j, 0 <= j -> bit cf j = if h =? j then 0 <? cnt else bit (cg_clustersfree c) j)
    as Hcf.
  { intros j Hj. unfold cf. destruct (Z.ltb_spec 0 cnt);
      rewrite ?bit_setbit, ?bit_clrbit by lia; by case (h =? j). }
  set (c1 := set_cg_clustersfree cf c).
  assert (forall n, cluster_forw n cf (h + 1) (zget cf (Z.quot (h + 1) NBBY))
      (Z.shiftl 1 (Z.rem (h + 1) NBBY)) (Z.quot (h + 1) NBBY + 1)
    = search n (h + 1) (fun j => negb (bit cf j))) as Hforw.
  { intros n. unfold NBBY. rewrite Z.quot_div_nonneg, Z.rem_mod_nonneg by lia.
    apply cluster_forw_search. lia. }
  rewrite !Hforw.
  pose proof (scan_forw c1 h (fs_contigsumsize f) Hh Hcap) as Sf.
  pose proof (scan_back c1 h (fs_contigsumsize f) Hh Hcap) as Sb.
  cbv zeta in Sf, Sb. cbn [c1 set_cg_clustersfree cg_clustersfree cg_nclusterblks] in Sf, Sb.
  fold c1 in Sf, Sb. rewrite Sf. clear Sf.
  assert (forall e, -1 <= e <= h - 1 ->
    cluster_back (Z.to_nat (h - 1 - e)) cf (h - 1) (zget cf (Z.quot (h - 1) NBBY))
      (Z.shiftl 1 (Z.rem (h - 1) NBBY)) (Z.quot (h - 1) NBBY - 1)
    = search_down (Z.to_nat (h - 1 - e)) (h - 1) (fun j => negb (bit cf j))) as Hback.
  { intros e He. destruct (decide (h = 0)) as [->|].
    { replace (Z.to_nat (0 - 1 - e)) with 0%nat by lia. done. }
    unfold NBBY. rewrite Z.quot_div_nonneg, Z.rem_mod_nonneg by lia.
    apply cluster_back_search; lia. }
  rewrite Hback by (zcase; lia).
  rewrite Sb. clear Sb.
  set (B := lead (reverse _)). set (F := lead (drop _ _)).
  exists cf. eexists. split; [reflexivity|]. split; [done|].
  split; [unfold cf; case (0 <? cnt); intros; auto with kernel|]. split; [done|].
  split; [|done].
  set (bits1 := cluster_bits c1) in *.
  assert (cluster_bits c = <[Z.to_nat h := negb (0 <? cnt)]> bits1) as Hbits.
  { unfold bits1, cluster_bits, c1. simpl.
    rewrite <- (list_insert_id (_ <$> _) (Z.to_nat h) (negb (0 <? cnt))).
    - apply list_eq. intros i. destruct (decide (i = Z.to_nat h)) as [->|Hne].
      + rewrite !list_lookup_insert_eq; [done | |]; rewrite length_fmap, length_seqZ; lia.
      + rewrite !list_lookup_insert_ne, !list_lookup_fmap by done.
        destruct (seqZ 0 _ !! i) eqn:E; [|done]. apply lookup_seqZ in E. simpl. f_equal.
        rewrite Hcf by lia. by ztest.
    - rewrite list_lookup_fmap, lookup_seqZ_lt by lia. simpl. f_equal.
      replace (0 + Z.of_nat (Z.to_nat h)) with h by lia.
      rewrite Hbit. destruct Hcnt as [-> | ->]; done. }
  assert (bits1 !! Z.to_nat h = Some (0 <? cnt)) as Hb1.
  { unfold bits1. rewrite cluster_bits_lookup by done. unfold c1. simpl.
    rewrite Hcf by lia. by rewrite Z.eqb_refl. }
  assert (forall k, 0 <= k -> run_count (Z.to_nat (fs_contigsumsize f)) bits1 (Z.to_nat k) =
    run_count (Z.to_nat (fs_contigsumsize f)) (cluster_bits c) (Z.to_nat k) +
    cnt * (indicator (Z.min (fs_contigsumsize f) (Z.of_nat (B + F + 1)) =? k)
    - indicator ((0 <? Z.min (fs_contigsumsize f) (Z.of_nat B)) && (Z.min (fs_contigsumsize f) (Z.of_nat B) =? k))
    - indicator ((0 <? Z.min (fs_contigsumsize f) (Z.of_nat F)) && (Z.min (fs_contigsumsize f) (Z.of_nat F) =? k))))
    as Hrc.
  { intros k Hk.
    pose proof (run_count_merge (Z.to_nat (fs_contigsumsize f)) bits1 _ _ (Z.to_nat k) Hb1) as M.
    cbv zeta in M. fold B F in M.
    rewrite indicator_min, !indicator_min_pos in M by lia.
    rewrite Hbits. revert Hb1. destruct Hcnt as [-> | ->]; cbn [Z.ltb Z.compare negb];
      intros Hb1; rewrite (list_insert_id _ _ _ Hb1) in M; lia. }
  split.
  - apply (cluster_sums_spec _ _ _ _ _ 0); lia.
  - intros k Hk. cbn [cg_clustersum set_cg_clustersum].
    change (cluster_bits _) with bits1.
    edestruct (cluster_sums_spec (cg_clustersum c) (fs_contigsumsize f)
      (Z.min (fs_contigsumsize f) (Z.of_nat B)) (Z.min (fs_contigsumsize f) (Z.of_nat F)))
      as [_ ->]; [lia.. |].
    rewrite Hrc, Hsum by lia.
    by replace (Z.min _ (Z.min _ _ + Z.min _ _ + 1)) with
      (Z.min (fs_contigsumsize f) (Z.of_nat (B + F + 1))) by lia.
Qed.
