(* ===== verification/FfsAlloc.v ===== *)
(** The FFS allocator: src/sys/ufs/ffs/ffs_alloc.c.

    The state is the in-core superblock and the cylinder groups as the buffer
    cache holds them; [bread] of a group's block fails as the parameter
    [bread_error] says. The soft-updates hooks only record dependencies and
    are left out: the model is a mount without soft updates. Locks are left
    out too: each operation runs alone. *)

From S2P Require Import Prelude Bitmap Fs FfsSubr.

(** ** The kernel library *)

(** [scanc] and [memcchr] of libkern, on the bytes from the given pointer on.
    [memcchr] returns the offset of the byte it found. *)
Class Libkern := {
  scanc : Z -> list Z -> list Z -> Z -> Z;
  memcchr : list Z -> Z -> Z -> option Z
}.

(** What scanc(9) and memcchr(9) document: the number of bytes left at the
    first byte whose table entry has a bit of the mask, and the first byte
    that differs from the given one. *)
Class LibkernSpec (K : Libkern) : Prop := {
  scanc_spec : forall size cp table mask, 0 <= size <= zlength cp ->
    let r := scanc size cp table mask in
    0 <= r <= size /\
    (forall j, 0 <= j < size - r -> Z.land (zget table (zget cp j)) mask = 0) /\
    (0 < r -> Z.land (zget table (zget cp (size - r))) mask <> 0);
  memcchr_spec : forall b c n, 0 <= n <= zlength b ->
    match memcchr b c n with
    | Some k => 0 <= k < n /\ zget b k <> c /\ (forall j, 0 <= j < k -> zget b j = c)
    | None => forall j, 0 <= j < n -> zget b j = c
    end
}.

(** [__builtin_ffs]: one plus the index of the lowest set bit. *)
Definition ffs (x : Z) : Z :=
  match x with Z0 => 0 | Zpos p => 1 + ctz_pos p | Zneg p => 1 + ctz_pos p end.

(** ** State *)

Record ffs_state := MkState {
  st_fs : fs;
  st_cgs : list cg
}.

Definition cg0 : cg :=
  MkCg 0 0 0 0 0 csum0 0 0 0 [] 0 0 0 [] [] [] [].

Definition get_cg (st : ffs_state) (c : Z) : cg := aget cg0 (st_cgs st) c.
Definition put (f : fs) (c : Z) (cgp : cg) (st : ffs_state) : ffs_state :=
  MkState f (aset (st_cgs st) c cgp).

(** *** ffs_mapsearch: the search in one byte *)

(** The inner loop: the position of the pattern in the block. *)
Fixpoint mapsearch_pos (n : nat) (pos blk field subfield : Z) : option Z :=
  match n with
  | O => None
  | S n' =>
      if Z.land blk field =? subfield then Some pos
      else mapsearch_pos n' (pos + 1) blk (Z.shiftl field 1) (Z.shiftl subfield 1)
  end.

(** The outer loop, over the blocks of the byte that [scanc] found. *)
Fixpoint mapsearch_blk (fuel : nat) (frag : Z) (blksfree : list Z)
    (bno i allocsiz : Z) : option Z :=
  match fuel with
  | O => None
  | S fuel' =>
      if bno <? i then
        match mapsearch_pos (Z.to_nat (frag - allocsiz + 1)) 0
                (Z.shiftl (frag_blkmap frag blksfree bno) 1)
                (zget around allocsiz) (zget inside allocsiz) with
        | Some pos => Some (bno + pos)
        | None => mapsearch_blk fuel' frag blksfree (bno + frag) i allocsiz
        end
      else None
  end.

Section alloc.
Context {K : Libkern}.
(** [bread] of the cylinder-group block [c] fails. *)
Context (bread_error : Z -> bool).
Context (time_second : Z).

Definition touch (cgp : cg) : cg :=
  set_cg_old_time time_second (set_cg_time time_second cgp).

(** *** ffs_mapsearch *)

Definition ffs_mapsearch (s : superblock) (cgp : cg) (bpref allocsiz : Z)
    : result (Z * cg) :=
  let start := if bpref =? 0 then cg_frotor cgp / NBBY else dtogd s bpref / NBBY in
  let blksfree := cg_blksfree cgp in
  let table := fragtbl (fs_frag s) in
  let mask := u8 (Z.shiftl 1 (allocsiz - 1 + fs_frag s mod NBBY)) in
  let len := howmany (fs_fpg s) NBBY - start in
  let loc := scanc len (drop (Z.to_nat start) blksfree) table mask in
  '(start, len, loc) ←
    (if loc =? 0 then
       let len := start + 1 in
       let start := 0 in
       let loc := scanc len blksfree table mask in
       if loc =? 0 then Panic "ffs_alloccg: map corrupted" else Ok (start, len, loc)
     else Ok (start, len, loc));
  let bno := (start + len - loc) * NBBY in
  let cgp := set_cg_frotor bno cgp in
  match mapsearch_blk 8 (fs_frag s) blksfree bno (bno + NBBY) allocsiz with
  | Some r => Ok (r, cgp)
  | None => Panic "ffs_alloccg: block not in map"
  end.

(** *** ffs_alloccgblk *)

(** The preference mapped to this cylinder group. *)
Definition alloccgblk_pref (f : fs) (cgp : cg) (bpref : Z) : Z :=
  if bpref =? 0 then cgbase f (cg_cgx cgp) + cg_rotor cgp + fs_frag f
  else
    let cgbpref := dtog f bpref in
    if negb (cgbpref =? cg_cgx cgp) then
      if bpref <? cgdata f cgbpref then cgmeta f (cg_cgx cgp)
      else cgdata f (cg_cgx cgp)
    else bpref.

(** The label [gotit]: take block [bno] of the group, and give back the
    fragments past [size]. *)
Definition alloccgblk_gotit (f : fs) (cgp : cg) (bno size : Z) : result (Z * fs * cg) :=
  let blkno := fragstoblks f bno in
  blksfree ← ffs_clrblock f (cg_blksfree cgp) blkno;
  let cgp := set_cg_blksfree blksfree cgp in
  let '(f, cgp) := ffs_clusteracct f cgp blkno (-1) in
  let cgp := set_cg_cs (add_nbfree (-1) (cg_cs cgp)) cgp in
  let f := fs_count (add_nbfree (-1)) (cg_cgx cgp) f in
  let f := set_fs_fmod 1 f in
  let blkno := cgbase f (cg_cgx cgp) + bno in
  let size := numfrags f size in
  if negb (size =? fs_frag f) then
    let bno := dtogd f blkno in
    let blksfree := foreach (Z.to_nat (fs_frag f - size)) size
      (fun i m => setbit m (bno + i)) (cg_blksfree cgp) in
    let i := fs_frag f - size in
    let cgp := set_cg_blksfree blksfree cgp in
    let cgp := set_cg_cs (add_nffree i (cg_cs cgp)) cgp in
    let f := fs_count (add_nffree i) (cg_cgx cgp) f in
    let f := set_fs_fmod 1 f in
    let cgp := set_cg_frsum (add_at (cg_frsum cgp) i 1) cgp in
    Ok (blkno, f, cgp)
  else Ok (blkno, f, cgp).

Definition ffs_alloccgblk (f : fs) (cgp : cg) (bpref size : Z) : result (Z * fs * cg) :=
  let bpref := alloccgblk_pref f cgp bpref in
  let bno := dtogd f (blknum f bpref) in
  avail ← ffs_isblock f (cg_blksfree cgp) (fragstoblks f bno);
  if (avail : bool) then alloccgblk_gotit f cgp bno size
  else
    '(bno, cgp) ← ffs_mapsearch f cgp bpref (fs_frag f);
    if bno <? 0 then Ok (0, f, cgp)
    else
      let cgp := if dtogd f (cgdata f (cg_cgx cgp)) <=? bno
                 then set_cg_rotor bno cgp else cgp in
      alloccgblk_gotit f cgp bno size.

(** *** ffs_alloccg *)

Definition ffs_alloccg (st : ffs_state) (cgn bpref size rsize : Z)
    : result (Z * ffs_state) :=
  let f := st_fs st in
  if (cs_nbfree (fs_cs f cgn) =? 0) && (size =? fs_bsize f) then Ok (0, st)
  else if bread_error cgn then Ok (0, st)
  else
  let cgp := get_cg st cgn in
  if negb (cg_chkmagic cgp) ||
     ((cs_nbfree (cg_cs cgp) =? 0) && (size =? fs_bsize f))
  then Ok (0, st)
  else
  let cgp := touch cgp in
  if size =? fs_bsize f then
    '(blkno, f, cgp) ← ffs_alloccgblk f cgp bpref rsize;
    Ok (blkno, put (ACTIVECLEAR f cgn) cgn cgp st)
  else
  let frags := numfrags f size in
  let allocsiz := search (Z.to_nat (fs_frag f - frags)) frags
    (fun a => negb (zget (cg_frsum cgp) a =? 0)) in
  if allocsiz =? fs_frag f then
    if cs_nbfree (cg_cs cgp) =? 0 then Ok (0, put f cgn cgp st)
    else
      '(blkno, f, cgp) ← ffs_alloccgblk f cgp bpref rsize;
      Ok (blkno, put (ACTIVECLEAR f cgn) cgn cgp st)
  else
  _ ← require (size =? rsize) "ffs_alloccg: size != rsize";
  '(bno, cgp) ← ffs_mapsearch f cgp bpref allocsiz;
  if bno <? 0 then Ok (0, put f cgn cgp st)
  else
  let blksfree := foreach (Z.to_nat frags) 0
    (fun i m => clrbit m (bno + i)) (cg_blksfree cgp) in
  let cgp := set_cg_blksfree blksfree cgp in
  let cgp := set_cg_cs (add_nffree (- frags) (cg_cs cgp)) cgp in
  let cgp := set_cg_frsum (add_at (cg_frsum cgp) allocsiz (-1)) cgp in
  let cgp := if negb (frags =? allocsiz)
             then set_cg_frsum (add_at (cg_frsum cgp) (allocsiz - frags) 1) cgp
             else cgp in
  let f := fs_count (add_nffree (- frags)) cgn f in
  let f := set_fs_fmod 1 f in
  let blkno := cgbase f cgn + bno in
  Ok (blkno, put (ACTIVECLEAR f cgn) cgn cgp st).

(** *** ffs_fragextend *)

Definition ffs_fragextend (st : ffs_state) (cgn bprev osize nsize : Z)
    : result (Z * ffs_state) :=
  let f := st_fs st in
  if cs_nffree (fs_cs f cgn) <? numfrags f (nsize - osize) then Ok (0, st) else
  let frags := numfrags f nsize in
  let bbase := fragnum f bprev in
  if fragnum f (bprev + frags - 1) <? bbase then Ok (0, st) else
  if bread_error cgn then Ok (0, st) else
  let cgp := get_cg st cgn in
  if negb (cg_chkmagic cgp) then Ok (0, st) else
  let cgp := touch cgp in
  let bno := dtogd f bprev in
  let blksfree := cg_blksfree cgp in
  let ofrags := numfrags f osize in
  let i := search (Z.to_nat (frags - ofrags)) ofrags (fun i => isclr blksfree (bno + i)) in
  if i <? frags then Ok (0, put f cgn cgp st) else
  let i := search (Z.to_nat (fs_frag f - bbase - frags)) frags
             (fun i => isclr blksfree (bno + i)) in
  let cgp := set_cg_frsum (add_at (cg_frsum cgp) (i - ofrags) (-1)) cgp in
  let cgp := if negb (i =? frags)
             then set_cg_frsum (add_at (cg_frsum cgp) (i - frags) 1) cgp else cgp in
  let blksfree := foreach (Z.to_nat (frags - ofrags)) ofrags
    (fun i m => clrbit m (bno + i)) blksfree in
  let nffree := Z.max 0 (frags - ofrags) in
  let cgp := set_cg_blksfree blksfree cgp in
  let cgp := set_cg_cs (add_nffree (- nffree) (cg_cs cgp)) cgp in
  let f := fs_count (add_nffree (- nffree)) cgn f in
  let f := set_fs_fmod 1 f in
  Ok (bprev, put (ACTIVECLEAR f cgn) cgn cgp st).

(** *** ffs_clusteralloc *)

(** The scan of the cluster map from block [got]: the end of the first run
    of [len] free blocks and the length [run] counted there. *)
Fixpoint cluster_scan (n : nat) (m : list Z) (got run map bt mapp len : Z) : Z * Z :=
  match n with
  | O => (got, run)
  | S n' =>
      let run := if Z.land map bt =? 0 then 0 else run + 1 in
      if negb (Z.land map bt =? 0) && (run =? len) then (got, run)
      else if negb (Z.land got (NBBY - 1) =? NBBY - 1)
      then cluster_scan n' m (got + 1) run map (Z.shiftl bt 1) mapp len
      else cluster_scan n' m (got + 1) run (zget m mapp) 1 (mapp + 1) len
  end.

(** [for (i = 1; i <= len; i++) if (!ffs_isblock(got - run + i)) panic]. *)
Fixpoint cluster_check (n : nat) (s : superblock) (blksfree : list Z) (b : Z)
    : result unit :=
  match n with
  | O => Ok tt
  | S n' =>
      free ← ffs_isblock s blksfree b;
      _ ← require free "ffs_clusteralloc: map mismatch";
      cluster_check n' s blksfree (b + 1)
  end.

(** The loop that takes the blocks of the cluster one by one. *)
Fixpoint cluster_take (n : nat) (f : fs) (cgp : cg) (bno : Z) : result (fs * cg) :=
  match n with
  | O => Ok (f, cgp)
  | S n' =>
      '(r, f, cgp) ← ffs_alloccgblk f cgp bno (fs_bsize f);
      _ ← require (r =? bno) "ffs_clusteralloc: lost block";
      cluster_take n' f cgp (bno + fs_frag f)
  end.

Definition ffs_clusteralloc (st : ffs_state) (cgn bpref len : Z)
    : result (Z * ffs_state) :=
  let f := st_fs st in
  if zget (fs_maxcluster f) cgn <? len then Ok (0, st) else
  if bread_error cgn then Ok (0, st) else
  let cgp := get_cg st cgn in
  if negb (cg_chkmagic cgp) then Ok (0, st) else
  let lp := cg_clustersum cgp in
  let i := search (Z.to_nat (fs_contigsumsize f + 1 - len)) len
             (fun i => 0 <? zget lp i) in
  if fs_contigsumsize f <? i then
    Ok (0, MkState (set_fs_maxcluster
                      (zset (fs_maxcluster f) cgn (max_cluster lp (len - 1))) f)
                   (st_cgs st))
  else
  let bpref := if negb (dtog f bpref =? cgn) then cgdata f cgn else blknum f bpref in
  let bpref := fragstoblks f (dtogd f bpref) in
  let m := cg_clustersfree cgp in
  let '(got, run) := cluster_scan (Z.to_nat (cg_nclusterblks cgp - bpref)) m bpref 0
    (zget m (bpref / NBBY)) (Z.shiftl 1 (bpref mod NBBY)) (bpref / NBBY + 1) len in
  if cg_nclusterblks cgp <=? got then Ok (0, st) else
  _ ← cluster_check (Z.to_nat len) f (cg_blksfree cgp) (got - run + 1);
  let bno := cgbase f cgn + blkstofrags f (got - run + 1) in
  _ ← require (dtog f bno =? cgn) "ffs_clusteralloc: allocated out of group";
  '(f, cgp) ← cluster_take (Z.to_nat len) f cgp bno;
  Ok (bno, put (ACTIVECLEAR f cgn) cgn cgp st).

(** *** ffs_blkfree_cg *)

(** [for (i = 0; i < frags; i++)]: free the fragments, none free already. *)
Fixpoint free_frags (n : nat) (cgbno i : Z) (blksfree : list Z) : result (list Z) :=
  match n with
  | O => Ok blksfree
  | S n' =>
      if isset blksfree (cgbno + i) then Panic "ffs_blkfree_cg: freeing free frag"
      else free_frags n' cgbno (i + 1) (setbit blksfree (cgbno + i))
  end.

(** The branch for a whole block; [snapshot] is [devvp->v_type == VREG]. *)
Definition blkfree_block (st : ffs_state) (cgn : Z) (cgp : cg) (snapshot : bool)
    (cgbno : Z) : result ffs_state :=
  let f := st_fs st in
  let fragno := fragstoblks f cgbno in
  isfree ← ffs_isfreeblock f (cg_blksfree cgp) fragno;
  if negb isfree then
    if snapshot then Ok (put f cgn cgp st)
    else Panic "ffs_blkfree_cg: freeing free block"
  else
  blksfree ← ffs_setblock f (cg_blksfree cgp) fragno;
  let cgp := set_cg_blksfree blksfree cgp in
  let '(f, cgp) := ffs_clusteracct f cgp fragno 1 in
  let cgp := set_cg_cs (add_nbfree 1 (cg_cs cgp)) cgp in
  let f := fs_count (add_nbfree 1) cgn f in
  Ok (put (ACTIVECLEAR (set_fs_fmod 1 f) cgn) cgn cgp st).

(** The branch for fragments: they are freed, and if that completes the
    block it becomes a free block. *)
Definition blkfree_frags (st : ffs_state) (cgn : Z) (cgp : cg) (cgbno frags : Z)
    : result ffs_state :=
  let f := st_fs st in
  let bbase := cgbno - fragnum f cgbno in
  let cgp := set_cg_frsum (ffs_fragacct f (blkmap f (cg_blksfree cgp) bbase)
                             (cg_frsum cgp) (-1)) cgp in
  blksfree ← free_frags (Z.to_nat frags) cgbno 0 (cg_blksfree cgp);
  let cgp := set_cg_blksfree blksfree cgp in
  let cgp := set_cg_cs (add_nffree frags (cg_cs cgp)) cgp in
  let f := fs_count (add_nffree frags) cgn f in
  let cgp := set_cg_frsum (ffs_fragacct f (blkmap f (cg_blksfree cgp) bbase)
                             (cg_frsum cgp) 1) cgp in
  let fragno := fragstoblks f bbase in
  whole ← ffs_isblock f (cg_blksfree cgp) fragno;
  if (whole : bool) then
    let cgp := set_cg_cs (add_nffree (- fs_frag f) (cg_cs cgp)) cgp in
    let f := fs_count (add_nffree (- fs_frag f)) cgn f in
    let '(f, cgp) := ffs_clusteracct f cgp fragno 1 in
    let cgp := set_cg_cs (add_nbfree 1 (cg_cs cgp)) cgp in
    let f := fs_count (add_nbfree 1) cgn f in
    Ok (put (ACTIVECLEAR (set_fs_fmod 1 f) cgn) cgn cgp st)
  else Ok (put (ACTIVECLEAR (set_fs_fmod 1 f) cgn) cgn cgp st).

Definition ffs_blkfree_cg (st : ffs_state) (snapshot : bool) (bno size : Z)
    : result ffs_state :=
  let f := st_fs st in
  let cgn := dtog f bno in
  _ ← require (negb ((fs_bsize f <? u32 size) || negb (fragoff f size =? 0) ||
                     (fs_frag f <? fragnum f bno + numfrags f size)))
        "ffs_blkfree_cg: bad size";
  if fs_size f <=? u32 bno then Ok st else
  if bread_error cgn then Ok st else
  let cgp := get_cg st cgn in
  if negb (cg_chkmagic cgp) then Ok st else
  let cgp := touch cgp in
  let cgbno := dtogd f bno in
  if size =? fs_bsize f then blkfree_block st cgn cgp snapshot cgbno
  else blkfree_frags st cgn cgp cgbno (numfrags f size).

(** *** ffs_checkblk *)

(** The number of free fragments among [frags]. *)
Fixpoint count_free (n : nat) (cgbno i : Z) (blksfree : list Z) : Z :=
  match n with
  | O => 0
  | S n' => indicator (isset blksfree (cgbno + i)) + count_free n' cgbno (i + 1) blksfree
  end.

Definition ffs_checkblk (st : ffs_state) (bno size : Z) : result bool :=
  let f := st_fs st in
  _ ← require (negb ((fs_bsize f <? u32 size) || negb (fragoff f size =? 0)))
        "ffs_checkblk: bad size";
  _ ← require (u32 bno <? fs_size f) "ffs_checkblk: bad block";
  _ ← require (negb (bread_error (dtog f bno))) "ffs_checkblk: cg bread failed";
  let cgp := get_cg st (dtog f bno) in
  _ ← require (cg_chkmagic cgp) "ffs_checkblk: cg magic mismatch";
  let blksfree := cg_blksfree cgp in
  let cgbno := dtogd f bno in
  if size =? fs_bsize f then
    free ← ffs_isblock f blksfree (fragstoblks f cgbno);
    Ok (negb free)
  else
    let frags := numfrags f size in
    let free := count_free (Z.to_nat frags) cgbno 0 blksfree in
    _ ← require (negb (negb (free =? 0) && negb (free =? frags)))
          "ffs_checkblk: partially free fragment";
    Ok (free =? 0).

(** *** ffs_nodealloccg *)

Definition IFMT : Z := 0xf000.
Definition IFDIR : Z := 0x4000.
Definition is_dir (mode : Z) : bool := Z.land mode IFMT =? IFDIR.

(** The next free inode of the map from the rotor on, then from the start. *)
Definition nodealloc_search (s : superblock) (cgp : cg) : result Z :=
  let inosused := cg_inosused cgp in
  let start := cg_irotor cgp / NBBY in
  let len := howmany (fs_ipg s - cg_irotor cgp) NBBY in
  loc ←
    match memcchr (drop (Z.to_nat start) inosused) 0xff len with
    | Some k => Ok (start + k)
    | None =>
        match memcchr inosused 0xff (start + 1) with
        | Some k => Ok k
        | None => Panic "ffs_nodealloccg: map corrupted"
        end
    end;
  Ok (loc * NBBY + ffs (Z.lnot (zget inosused loc)) - 1).

(** [reread_error cg initediblk]: what [bread] returns, 0 or an errno, when
    the group is read again after the inode block at [initediblk] was
    initialised. The buffer of that block is never held by
    another thread here, so the [GB_LOCK_NOWAIT] retry does not arise. *)
Context (reread_error : Z -> Z -> Z).

(** From the label [restart] on; [fuel] bounds the inode blocks that are
    initialised before the inode can be taken. *)
Fixpoint nodealloc_restart (fuel : nat) (st : ffs_state) (cgn ipref mode : Z)
    : result (Z * ffs_state) :=
  match fuel with
  | O => Panic "nodealloc_restart: out of fuel"
  | S fuel' =>
      let f := st_fs st in
      let cgp := get_cg st cgn in
      if negb (cg_chkmagic cgp) || (cs_nifree (cg_cs cgp) =? 0) then Ok (0, st) else
      let wanted := negb (ipref =? 0) && isclr (cg_inosused cgp) (ipref mod fs_ipg f) in
      ipref ← (if wanted then Ok (ipref mod fs_ipg f) else nodealloc_search f cgp);
      if (fs_magic f =? FS_UFS2_MAGIC) &&
         (cg_initediblk cgp <? ipref + INOPB f) &&
         (cg_initediblk cgp <? cg_niblk cgp)
      then
        let f := ACTIVECLEAR f cgn in
        let error := reread_error cgn (cg_initediblk cgp) in
        if negb (error =? 0) then Ok (error, MkState f (st_cgs st)) else
        let cgp := set_cg_initediblk (cg_initediblk cgp + INOPB f) cgp in
        nodealloc_restart fuel' (put f cgn cgp st) cgn ipref mode
      else
        let cgp := set_cg_irotor ipref (touch cgp) in
        let f := ACTIVECLEAR f cgn in
        let cgp := set_cg_inosused (setbit (cg_inosused cgp) ipref) cgp in
        let cgp := set_cg_cs (add_nifree (-1) (cg_cs cgp)) cgp in
        let f := fs_count (add_nifree (-1)) cgn f in
        let f := set_fs_fmod 1 f in
        let cgp := if is_dir mode then set_cg_cs (add_ndir 1 (cg_cs cgp)) cgp else cgp in
        let f := if is_dir mode then fs_count (add_ndir 1) cgn f else f in
        Ok (cgn * fs_ipg f + ipref, put f cgn cgp st)
  end.

Definition ffs_nodealloccg (st : ffs_state) (cgn ipref mode unused : Z)
    : result (Z * ffs_state) :=
  let f := st_fs st in
  if cs_nifree (fs_cs f cgn) =? 0 then Ok (0, st)
  else if bread_error cgn then Ok (0, st)
  else nodealloc_restart (Z.to_nat (cg_niblk (get_cg st cgn)) + 2) st cgn ipref mode.

(** *** ffs_freefile, ffs_checkfreefile *)

(** [EIO] stands for the error of a failed read. *)
Definition EIO : Z := 5.

Definition ffs_freefile (st : ffs_state) (ino mode : Z) : result (Z * ffs_state) :=
  let f := st_fs st in
  let cgn := ino_to_cg f ino in
  _ ← require (ino <? u32 (fs_ipg f * fs_ncg f)) "ffs_freefile: range";
  if bread_error cgn then Ok (EIO, st) else
  let cgp := get_cg st cgn in
  if negb (cg_chkmagic cgp) then Ok (0, st) else
  let cgp := touch cgp in
  let ino := ino mod fs_ipg f in
  _ ← require (negb (isclr (cg_inosused cgp) ino && (fs_ronly f =? 0)))
        "ffs_freefile: freeing free inode";
  let cgp := set_cg_inosused (clrbit (cg_inosused cgp) ino) cgp in
  let cgp := if ino <? cg_irotor cgp then set_cg_irotor ino cgp else cgp in
  let cgp := set_cg_cs (add_nifree 1 (cg_cs cgp)) cgp in
  let f := fs_count (add_nifree 1) cgn f in
  let cgp := if is_dir mode then set_cg_cs (add_ndir (-1) (cg_cs cgp)) cgp else cgp in
  let f := if is_dir mode then fs_count (add_ndir (-1)) cgn f else f in
  let f := set_fs_fmod 1 f in
  Ok (0, put (ACTIVECLEAR f cgn) cgn cgp st).

Definition ffs_checkfreefile (st : ffs_state) (ino : Z) : bool :=
  let f := st_fs st in
  let cgn := ino_to_cg f ino in
  if u32 (fs_ipg f * fs_ncg f) <=? ino then true
  else if bread_error cgn then true
  else
    let cgp := get_cg st cgn in
    if negb (cg_chkmagic cgp) then true
    else isclr (cg_inosused cgp) (ino mod fs_ipg f).
End alloc.

(** *** ffs_hashalloc *)

Section hashalloc.
Context {S : Type}.
(** An allocator tries one cylinder group; 0 is failure. *)
Context (allocator : S -> Z -> Z -> Z -> Z -> result (Z * S)).
Context (fs_ncg : Z) (size rsize : Z).

(** The quadratic rehash: [for (i = 1; i < ncg; i *= 2)]. *)
Fixpoint hash_quadratic (fuel : nat) (st : S) (cgn i : Z) : result (Z * S) :=
  match fuel with
  | O => Panic "hash_quadratic: out of fuel"
  | Datatypes.S fuel' =>
      if i <? fs_ncg then
        let cgn := cgn + i in
        let cgn := if fs_ncg <=? cgn then cgn - fs_ncg else cgn in
        '(result, st) ← allocator st cgn 0 size rsize;
        if negb (result =? 0) then Ok (result, st)
        else hash_quadratic fuel' st cgn (u32 (i * 2))
      else Ok (0, st)
  end.

(** The brute-force search: [for (i = 2; i < ncg; i++)], [n] rounds. *)
Fixpoint hash_brute (n : nat) (st : S) (cgn : Z) : result (Z * S) :=
  match n with
  | O => Ok (0, st)
  | Datatypes.S n' =>
      '(result, st) ← allocator st cgn 0 size rsize;
      if negb (result =? 0) then Ok (result, st)
      else
        let cgn := cgn + 1 in
        let cgn := if cgn =? fs_ncg then 0 else cgn in
        hash_brute n' st cgn
  end.

(** 33 rounds suffice for the doubling 32-bit counter. *)
Definition ffs_hashalloc (st : S) (cgn pref : Z) : result (Z * S) :=
  let icg := cgn in
  '(result, st) ← allocator st cgn pref size rsize;
  if negb (result =? 0) then Ok (result, st) else
  '(result, st) ← hash_quadratic 33 st cgn 1;
  if negb (result =? 0) then Ok (result, st) else
  hash_brute (Z.to_nat (fs_ncg - 2)) st ((icg + 2) mod fs_ncg).
End hashalloc.

(** *** Preferences: ffs_dirpref, ffs_blkpref_ufs1/2 *)

(** The fields of the in-core inode that the allocator uses: its number,
    mode, size, the twelve direct and three indirect addresses, the sectors
    held and the flags. *)
Record inode := MkInode {
  i_number : Z;
  i_mode : Z;
  i_size : Z;
  di_db : list Z;
  di_ib : list Z;
  i_blocks : Z;
  i_flag : Z
}.

Definition set_i_blocks (v : Z) (ip : inode) : inode :=
  MkInode (i_number ip) (i_mode ip) (i_size ip) (di_db ip) (di_ib ip) v (i_flag ip).
Definition set_i_flag (v : Z) (ip : inode) : inode :=
  MkInode (i_number ip) (i_mode ip) (i_size ip) (di_db ip) (di_ib ip) (i_blocks ip) v.

Section pref.
Context (f : fs).

Definition dirpref_fits (maxndir minifree minbfree maxcontigdirs cgn : Z) : bool :=
  (u32 (cs_ndir (fs_cs f cgn)) <? maxndir) &&
  (minifree <=? u32 (cs_nifree (fs_cs f cgn))) &&
  (minbfree <=? u32 (cs_nbfree (fs_cs f cgn))) &&
  (zget (fs_contigdirs f) cgn <? maxcontigdirs).

(** One pass of the first-level search: the group with the fewest
    directories among those with average space. *)
Definition dirpref_root_pass (n : nat) (from avgifree avgbfree : Z) (acc : Z * Z)
    : Z * Z :=
  foreach n from (fun cgn '(mincg, minndir) =>
    if (u32 (cs_ndir (fs_cs f cgn)) <? minndir) &&
       (avgifree <=? u32 (cs_nifree (fs_cs f cgn))) &&
       (avgbfree <=? u32 (cs_nbfree (fs_cs f cgn)))
    then (cgn, u32 (cs_ndir (fs_cs f cgn))) else (mincg, minndir)) acc.

(** [avgifree], [avgbfree] and [avgndir]. *)
Definition dirpref_avg (total : Z) : Z := u32 (Z.quot total (fs_ncg f)).

(** [maxndir], [minifree], [minbfree] and [maxcontigdirs]. *)
Definition dirpref_limits : Z * Z * Z * Z :=
  let avgifree := dirpref_avg (cs_nifree (fs_cstotal f)) in
  let avgbfree := dirpref_avg (cs_nbfree (fs_cstotal f)) in
  let avgndir := dirpref_avg (cs_ndir (fs_cstotal f)) in
  let maxndir := Z.min (u32 (avgndir + fs_ipg f / 16)) (fs_ipg f) in
  let minifree := avgifree - avgifree / 4 in
  let minifree := if minifree <? 1 then 1 else minifree in
  let minbfree := avgbfree - avgbfree / 4 in
  let minbfree := if minbfree <? 1 then 1 else minbfree in
  let cgsize := s32 (fs_fsize f * fs_fpg f) in
  let dirsize := s32 (fs_avgfilesize f * fs_avgfpdir f) in
  let curdirsize := if avgndir =? 0 then 0
                    else u32 (u32 cgsize - u32 (avgbfree * fs_bsize f)) / avgndir in
  let dirsize := if u32 dirsize <? curdirsize then s32 curdirsize else dirsize in
  let maxcontigdirs := if dirsize <=? 0 then 0
                       else Z.min (u32 (avgbfree * fs_bsize f) / dirsize) 255 in
  let maxcontigdirs := if 0 <? fs_avgfpdir f
                       then Z.min maxcontigdirs (fs_ipg f / fs_avgfpdir f)
                       else maxcontigdirs in
  let maxcontigdirs := if maxcontigdirs =? 0 then 1 else maxcontigdirs in
  (maxndir, minifree, minbfree, maxcontigdirs).

(** The backstop: the first group from [prefcg] on, cyclically, that has
    average free inodes. *)
Definition dirpref_average (cgn : Z) : bool :=
  dirpref_avg (cs_nifree (fs_cstotal f)) <=? u32 (cs_nifree (fs_cs f cgn)).

(** [random] is [arc4random()]; [is_root] is [v_vflag & VV_ROOT]. *)
Definition ffs_dirpref (pip : inode) (is_root : bool) (random : Z) : Z :=
  let avgifree := dirpref_avg (cs_nifree (fs_cstotal f)) in
  let avgbfree := dirpref_avg (cs_nbfree (fs_cstotal f)) in
  if is_root then
    let prefcg := random mod fs_ncg f in
    let acc := dirpref_root_pass (Z.to_nat (fs_ncg f - prefcg)) prefcg
                 avgifree avgbfree (prefcg, fs_ipg f) in
    let '(mincg, _) := dirpref_root_pass (Z.to_nat prefcg) 0 avgifree avgbfree acc in
    u32 (fs_ipg f * mincg)
  else
  let '(maxndir, minifree, minbfree, maxcontigdirs) := dirpref_limits in
  let fits := dirpref_fits maxndir minifree minbfree maxcontigdirs in
  let prefcg := ino_to_cg f (i_number pip) in
  let rest := Z.to_nat (fs_ncg f - prefcg) in
  let cgn := search rest prefcg fits in
  if cgn <? fs_ncg f then u32 (fs_ipg f * cgn) else
  let cgn := search (Z.to_nat prefcg) 0 fits in
  if cgn <? prefcg then u32 (fs_ipg f * cgn) else
  let cgn := search rest prefcg dirpref_average in
  if cgn <? fs_ncg f then u32 (fs_ipg f * cgn) else
  u32 (fs_ipg f * search (Z.to_nat prefcg) 0 dirpref_average).

(** The block preference, for an inode [ip] and the block list [bap] that
    holds the address at [indx]; also the superblock, whose rotor may move.
    The UFS1 and UFS2 functions run the same code on their own dinode. *)
Definition ffs_blkpref (ip : inode) (lbn indx : Z) (bap : list Z) : Z * fs :=
  let inocg := ino_to_cg f (i_number ip) in
  if indx <? 0 then
    if (indx =? -1) && (lbn <? NDADDR + NINDIR f) &&
       negb (zget (di_db ip) (NDADDR - 1) =? 0)
    then (zget (di_db ip) (NDADDR - 1) + fs_frag f, f)
    else (cgmeta f inocg, f)
  else
  let pref := zget (di_ib ip) 0 in
  if (lbn =? NDADDR) && negb (pref =? 0) && (cgdata f inocg <=? pref) &&
     (pref <? cgbase f (inocg + 1))
  then (pref + fs_frag f, f)
  else
  if (indx mod fs_maxbpg f =? 0) || (zget bap (indx - 1) =? 0) then
    if is_dir (i_mode ip) then (cgmeta f inocg, f)
    else if lbn <? NDADDR + NINDIR f then (cgdata f inocg, f)
    else
    let startcg := if (indx =? 0) || (zget bap (indx - 1) =? 0)
                   then inocg + lbn / fs_maxbpg f
                   else dtog f (zget bap (indx - 1)) + 1 in
    let startcg := u32 startcg mod fs_ncg f in
    let avgbfree := u32 (Z.quot (cs_nbfree (fs_cstotal f)) (fs_ncg f)) in
    let enough cgn := avgbfree <=? u32 (cs_nbfree (fs_cs f cgn)) in
    let cgn := search (Z.to_nat (fs_ncg f - startcg)) startcg enough in
    if cgn <? fs_ncg f then (cgdata f cgn, set_fs_cgrotor cgn f) else
    let cgn := search (Z.to_nat (startcg + 1)) 0 enough in
    if cgn <=? startcg then (cgdata f cgn, set_fs_cgrotor cgn f) else (0, f)
  else (zget bap (indx - 1) + fs_frag f, f).

Definition ffs_blkpref_ufs1 := ffs_blkpref.
Definition ffs_blkpref_ufs2 := ffs_blkpref.
End pref.

(** *** ffs_alloc, ffs_realloccg, ffs_valloc *)

Definition ENOSPC : Z := 28.
Definition IO_EXT : Z := 0x0400.
Definition IO_BUFLOCKED : Z := 0x2000.
Definition IN_CHANGE : Z := 0x0002.
Definition IN_UPDATE : Z := 0x0004.

(** The file system buffer: block numbers and contents. *)
Record buf := MkBuf {
  b_blkno : Z;
  b_lblkno : Z;
  b_data : list Z
}.

(** The device vnode, as [ffs_blkfree] looks at it: a snapshot file, with
    snapshots, one of which claims the block; and whether the device takes
    [BIO_DELETE]. *)
Record devvp := MkDevvp {
  v_vreg : bool;
  v_copyonwrite : bool;
  snap_claims : Z -> bool;
  um_candelete : bool
}.

(** A release that waits for its [BIO_DELETE]. *)
Record trim_params := MkTrim {
  tp_bno : Z;
  tp_size : Z
}.

(** What [ffs_realloccg] leaves: errno, buffer, inode, state, and a delayed
    release. *)
Record realloc_result := MkRealloc {
  rr_error : Z;
  rr_bp : option buf;
  rr_ip : inode;
  rr_st : ffs_state;
  rr_trim : option trim_params
}.

Section top.
Context {K : Libkern}.
Context (bread_error : Z -> bool) (time_second : Z).

(** The charge of [delta] sectors to the inode, and the times to update. *)
Definition charge (flags size : Z) (ip : inode) : inode :=
  let delta := btodb size in
  let ip := set_i_blocks (i_blocks ip + delta) ip in
  if negb (Z.land flags IO_EXT =? 0)
  then set_i_flag (Z.lor (i_flag ip) IN_CHANGE) ip
  else set_i_flag (Z.lor (i_flag ip) (Z.lor IN_CHANGE IN_UPDATE)) ip.

(** One attempt of [ffs_alloc], from the label [retry] to [nospace]: the
    block, if one was found. [denied] is the error of
    [priv_check_cred(cred, PRIV_VFS_BLOCKRESERVE, 0)], as a boolean. *)
Definition ffs_alloc_try (st : ffs_state) (ip : inode) (bpref size : Z) (denied : bool)
    : result (option Z * ffs_state) :=
  let f := st_fs st in
  if (size =? fs_bsize f) && (cs_nbfree (fs_cstotal f) =? 0) then Ok (None, st) else
  if denied && (freespace f (fs_minfree f) - numfrags f size <? 0) then Ok (None, st) else
  let bpref := if fs_size f <=? bpref then 0 else bpref in
  let cgn := if bpref =? 0 then ino_to_cg f (i_number ip) else dtog f bpref in
  '(bno, st) ← ffs_hashalloc (ffs_alloccg bread_error time_second) (fs_ncg f) size size
                 st cgn bpref;
  Ok (if 0 <? bno then Some bno else None, st).

(** [ffs_alloc]: the errno, the block, the inode and the state. Without
    soft updates [softdep_request_cleanup] frees nothing, so the second
    attempt starts from the state the first one left. *)
Definition ffs_alloc (st : ffs_state) (ip : inode) (lbn bpref size flags : Z)
    (denied : bool) : result (Z * Z * inode * ffs_state) :=
  let f := st_fs st in
  _ ← require (negb ((fs_bsize f <? u32 size) || negb (fragoff f size =? 0)))
        "ffs_alloc: bad size";
  '(found, st) ← ffs_alloc_try st ip bpref size denied;
  match found with
  | Some bno => Ok (0, bno, charge flags size ip, st)
  | None =>
      if negb (Z.land flags IO_BUFLOCKED =? 0) then Ok (ENOSPC, 0, ip, st) else
      '(found, st) ← ffs_alloc_try st ip bpref size denied;
      match found with
      | Some bno => Ok (0, bno, charge flags size ip, st)
      | None => Ok (ENOSPC, 0, ip, st)
      end
  end.

(** *** ffs_blkfree *)

Definition ffs_blkfree (st : ffs_state) (dev : devvp) (bno size : Z)
    : result (ffs_state * option trim_params) :=
  if negb (v_vreg dev) && v_copyonwrite dev && snap_claims dev bno then Ok (st, None) else
  if negb (um_candelete dev) || v_vreg dev then
    st ← ffs_blkfree_cg bread_error time_second st (v_vreg dev) bno size;
    Ok (st, None)
  else Ok (st, Some (MkTrim bno size)).

(** The completion of the [BIO_DELETE]. *)
Definition ffs_blkfree_trim_task (st : ffs_state) (dev : devvp) (tp : trim_params)
    : result ffs_state :=
  ffs_blkfree_cg bread_error time_second st (v_vreg dev) (tp_bno tp) (tp_size tp).

(** *** ffs_realloccg *)

(** The size to ask for, and the policy after it: exact fragments when
    optimizing for space, a whole block to be trimmed when for time. *)
Definition realloccg_request (f : fs) (nsize : Z) : result (Z * fs) :=
  if fs_optim f =? FS_OPTSPACE then
    if (fs_minfree f <=? 5) ||
       (Z.quot (fs_dsize f * fs_minfree f) (2 * 100) <? cs_nffree (fs_cstotal f))
    then Ok (nsize, f) else Ok (nsize, set_fs_optim FS_OPTTIME f)
  else if fs_optim f =? FS_OPTTIME then
    if cs_nffree (fs_cstotal f) <? Z.quot (fs_dsize f * (fs_minfree f - 2)) 100
    then Ok (fs_bsize f, f) else Ok (fs_bsize f, set_fs_optim FS_OPTSPACE f)
  else Panic "ffs_realloccg: bad optim".

(** [allocbuf] and [vfs_bio_bzero_buf]: the buffer grown with zeroes. *)
Definition grow_buf (bp : buf) (osize nsize : Z) : buf :=
  MkBuf (b_blkno bp) (b_lblkno bp)
    (take (Z.to_nat osize) (b_data bp) ++ replicate (Z.to_nat (nsize - osize)) 0).

(** [bread_gb]: the buffer of a logical block, or an error. *)
Context (bread_gb : Z -> Z -> Z + buf) (dev : devvp).

(** One attempt, from the label [retry]; [inr] is the jump to [nospace]. *)
Definition ffs_realloccg_try (st : ffs_state) (ip : inode)
    (lbprev bprev bpref osize nsize flags : Z) (denied : bool)
    : result (realloc_result + ffs_state) :=
  let f := st_fs st in
  if denied && (freespace f (fs_minfree f) - numfrags f (nsize - osize) <? 0)
  then Ok (inr st) else
  _ ← require (negb (bprev =? 0)) "ffs_realloccg: bad bprev";
  match bread_gb lbprev osize with
  | inl error => Ok (inl (MkRealloc error None ip st None))
  | inr bp =>
      let unmapped := b_blkno bp =? b_lblkno bp in
      _ ← require (negb (unmapped && (NDADDR <=? lbprev)))
            "ffs_realloccg: lbprev out of range";
      let bp := if unmapped then MkBuf (fsbtodb f bprev) (b_lblkno bp) (b_data bp) else bp in
      let cgn := dtog f bprev in
      '(bno, st) ← ffs_fragextend bread_error time_second st cgn bprev osize nsize;
      if negb (bno =? 0) then
        _ ← require (b_blkno bp =? fsbtodb f bno) "ffs_realloccg: bad blockno";
        Ok (inl (MkRealloc 0 (Some (grow_buf bp osize nsize))
                   (charge flags (nsize - osize) ip) st None))
      else
        let bpref := if fs_size f <=? bpref then 0 else bpref in
        req ← realloccg_request (st_fs st) nsize;
        let '(request, f) := (req : Z * fs) in
        '(bno, st) ← ffs_hashalloc (ffs_alloccg bread_error time_second) (fs_ncg f)
                       request nsize (MkState f (st_cgs st)) cgn bpref;
        if 0 <? bno then
          let bp := MkBuf (fsbtodb f bno) (b_lblkno bp) (b_data bp) in
          '(st, tp) ← ffs_blkfree st dev bprev osize;
          Ok (inl (MkRealloc 0 (Some (grow_buf bp osize nsize))
                     (charge flags (nsize - osize) ip) st tp))
        else Ok (inr st)
  end.

Definition ffs_realloccg (st : ffs_state) (ip : inode)
    (lbprev bprev bpref osize nsize flags : Z) (denied : bool) : result realloc_result :=
  let f := st_fs st in
  _ ← require (negb ((fs_bsize f <? u32 osize) || negb (fragoff f osize =? 0) ||
                     (fs_bsize f <? u32 nsize) || negb (fragoff f nsize =? 0)))
        "ffs_realloccg: bad size";
  r ← ffs_realloccg_try st ip lbprev bprev bpref osize nsize flags denied;
  match r with
  | inl res => Ok res
  | inr st =>
      if negb (Z.land flags IO_BUFLOCKED =? 0) then Ok (MkRealloc ENOSPC None ip st None) else
      r ← ffs_realloccg_try st ip lbprev bprev bpref osize nsize flags denied;
      match r with
      | inl res => Ok res
      | inr st => Ok (MkRealloc ENOSPC None ip st None)
      end
  end.

(** *** ffs_valloc, ffs_vfree *)

Context (reread_error : Z -> Z -> Z).

Definition ffs_vfree (st : ffs_state) (ino mode : Z) : result (Z * ffs_state) :=
  ffs_freefile bread_error time_second st ino mode.

(** The group to start from; the run of directories made in it is counted. *)
Definition valloc_pref (st : ffs_state) (pip : inode) (is_root : bool) (random mode : Z)
    : Z * Z * ffs_state :=
  let f := st_fs st in
  let ipref := if is_dir mode then ffs_dirpref f pip is_root random else i_number pip in
  let ipref := if u32 (fs_ncg f * fs_ipg f) <=? ipref then 0 else ipref in
  let cgn := ino_to_cg f ipref in
  let dirs := zget (fs_contigdirs f) cgn in
  let dirs := if is_dir mode then (if dirs <? 255 then dirs + 1 else dirs)
              else (if 0 <? dirs then dirs - 1 else dirs) in
  (cgn, ipref, MkState (set_fs_contigdirs (zset (fs_contigdirs f) cgn dirs) f) (st_cgs st)).

(** From the label [retry] to [noinodes]: the inode number, or 0. *)
Definition ffs_valloc_try (st : ffs_state) (pip : inode) (is_root : bool)
    (random mode : Z) : result (Z * ffs_state) :=
  if cs_nifree (fs_cstotal (st_fs st)) =? 0 then Ok (0, st) else
  let '(cgn, ipref, st) := valloc_pref st pip is_root random mode in
  ffs_hashalloc (ffs_nodealloccg bread_error time_second reread_error)
    (fs_ncg (st_fs st)) mode 0 st cgn ipref.

(** The vnode and inode that [ffs_vget] finds. *)
Record vinode := MkVinode {
  vi_mode : Z;
  vi_blocks : Z;
  vi_flags : Z;
  vi_gen : Z;
  vi_birthtime : option Z;
  vi_flag : Z;
  v_vflag : Z;
  v_type : Z;
  v_op : Z
}.

Definition VNON : Z := 0.

(** [if (ip->i_gen == 0 || ++ip->i_gen == 0) ip->i_gen = arc4random() / 2 + 1]. *)
Definition next_gen (gen random : Z) : Z :=
  if (gen =? 0) || (u64 (gen + 1) =? 0) then random / 2 + 1 else gen + 1.

(** The inode set up for its new owner; [unclean] is
    [fs->fs_flags & FS_UNCLEAN], and [v_op] the 1 or 2 of
    [ffs_vnodeops1] and [ffs_vnodeops2]. *)
Definition valloc_init (f : fs) (unclean : bool) (now random : Z) (ip : vinode) : vinode :=
  let ufs2 := fs_magic f =? FS_UFS2_MAGIC in
  {| vi_mode := vi_mode ip;
     vi_blocks := if negb (vi_blocks ip =? 0) && negb unclean then 0 else vi_blocks ip;
     vi_flags := 0;
     vi_gen := next_gen (vi_gen ip) random;
     vi_birthtime := if ufs2 then Some now else vi_birthtime ip;
     vi_flag := 0;
     v_vflag := 0;
     v_type := VNON;
     v_op := if ufs2 then 2 else 1 |}.

(** [ffs_valloc]: errno, inode number, the inode and the state.
    [vget] and [vgetf] are [ffs_vget] and the forced [ffs_vgetf]; the
    randoms are the values of the calls of [arc4random]. *)
Definition ffs_valloc (st : ffs_state) (pip : inode) (is_root : bool)
    (random random2 random_gen mode : Z) (unclean : bool) (now : Z)
    (vget vgetf : Z -> Z + vinode) : result (Z * Z * option vinode * ffs_state) :=
  '(ino, st) ← ffs_valloc_try st pip is_root random mode;
  '(ino, st) ← (if ino =? 0 then ffs_valloc_try st pip is_root random2 mode
                else Ok (ino, st));
  if ino =? 0 then Ok (ENOSPC, 0, None, st) else
  match vget ino with
  | inl error =>
      let error1 := vgetf ino in
      '(_, st) ← ffs_vfree st ino mode;
      _ ← match error1 with
          | inl _ => Ok tt
          | inr ip => require (vi_mode ip =? 0) "ffs_valloc: dup alloc"
          end;
      Ok (error, 0, None, st)
  | inr ip =>
      _ ← require (vi_mode ip =? 0) "ffs_valloc: dup alloc";
      Ok (0, ino, Some (valloc_init (st_fs st) unclean now random_gen ip), st)
  end.
End top.
