(* ===== verification/FfsMap.v ===== *)
(** The free-fragment map of a cylinder group and its counts.

    [map_ok] says that the three counts of a group (free blocks, free
    fragments, free runs of each size) are those of its map. The update lemma
    reduces an operation that changes one block to facts about block values,
    which are decided by computation for every fragment count. *)

From S2P Require Import Prelude Bitmap Fs FfsSubr FfsAlloc.

(** ** Geometry *)

Record geom (s : superblock) : Prop := {
  geom_frag : frag_ok s;
  geom_fragshift : 0 <= fs_fragshift s /\ fs_frag s = 2 ^ fs_fragshift s;
  geom_fpg : 0 < fs_fpg s /\ fs_fpg s mod fs_frag s = 0;
  geom_ncg : 0 < fs_ncg s;
  geom_fsize : 0 <= fs_fshift s /\ fs_fsize s = 2 ^ fs_fshift s;
  geom_bsize : fs_bsize s = fs_frag s * fs_fsize s;
  geom_qfmask : fs_qfmask s = fs_fsize s - 1
}.

(** Blocks in a group; bytes of its map. *)
Definition nblk (s : superblock) : Z := fs_fpg s / fs_frag s.
Definition mapbytes (s : superblock) : Z := howmany (fs_fpg s) 8.

Section geometry.
Context (s : superblock) (G : geom s).

Lemma frag_pos : 0 < fs_frag s <= 8.
Proof. apply frag_ok_div, G. Qed.

Lemma nblk_fpg : nblk s * fs_frag s = fs_fpg s /\ 0 < nblk s.
Proof.
  destruct (geom_fpg s G) as [H0 H]. pose proof frag_pos. unfold nblk.
  assert (fs_fpg s = fs_fpg s / fs_frag s * fs_frag s) as E by dlia.
  split; [lia | nia].
Qed.

Lemma mapbytes_fpg : fs_fpg s <= 8 * mapbytes s.
Proof. unfold mapbytes, howmany. dlia. Qed.

Lemma fragnum_mod d : fragnum s d = d mod fs_frag s.
Proof.
  unfold fragnum. destruct (geom_fragshift s G) as [H0 ->].
  rewrite <- Z.land_ones by done. by rewrite Z.ones_equiv, Z.sub_1_r.
Qed.

Lemma blknum_sub d : blknum s d = d - d mod fs_frag s.
Proof.
  unfold blknum. destruct (geom_fragshift s G) as [H0 ->].
  replace (2 ^ fs_fragshift s - 1) with (Z.ones (fs_fragshift s))
    by (rewrite Z.ones_equiv; lia).
  rewrite Z.ldiff_ones_r, Z.shiftl_mul_pow2, Z.shiftr_div_pow2 by done.
  pose proof (Z.pow_pos_nonneg 2 (fs_fragshift s)). dlia.
Qed.

Lemma fragstoblks_div d : fragstoblks s d = d / fs_frag s.
Proof. unfold fragstoblks. destruct (geom_fragshift s G) as [H0 ->]. by rewrite Z.shiftr_div_pow2. Qed.

Lemma blkstofrags_mul d : blkstofrags s d = d * fs_frag s.
Proof. unfold blkstofrags. destruct (geom_fragshift s G) as [H0 ->]. by rewrite Z.shiftl_mul_pow2. Qed.

Lemma numfrags_div d : numfrags s d = d / fs_fsize s.
Proof. unfold numfrags. destruct (geom_fsize s G) as [H0 ->]. by rewrite Z.shiftr_div_pow2. Qed.

Lemma fsize_pos : 0 < fs_fsize s.
Proof. destruct (geom_fsize s G) as [H0 ->]. apply Z.pow_pos_nonneg; lia. Qed.

Lemma fragoff_mod d : fragoff s d = d mod fs_fsize s.
Proof.
  unfold fragoff. rewrite (geom_qfmask s G). destruct (geom_fsize s G) as [H0 ->].
  rewrite <- Z.land_ones by done. by rewrite Z.ones_equiv, Z.sub_1_r.
Qed.

(** A fragment number as block and position. *)
Lemma frag_split h j :
  0 <= j < fs_frag s -> (h * fs_frag s + j) / fs_frag s = h /\
  (h * fs_frag s + j) mod fs_frag s = j.
Proof.
  intros Hj. pose proof frag_pos. split.
  - rewrite Z.div_add_l, Z.div_small by lia. lia.
  - by rewrite Z.add_comm, Z_mod_plus_full, Z.mod_small.
Qed.

Lemma block_pos_range h pos n :
  0 <= h < nblk s -> 0 <= pos <= fs_frag s - n -> 1 <= n -> 0 <= h * fs_frag s + pos < fs_fpg s.
Proof. intros Hh Hp Hn. destruct nblk_fpg as [HN _]. pose proof frag_pos. nia. Qed.

Lemma frag_join d : d / fs_frag s * fs_frag s + d mod fs_frag s = d.
Proof. pose proof frag_pos. pose proof (Z.div_mod d (fs_frag s)). lia. Qed.
End geometry.

(** ** The counts of the map *)

Definition isfull (s : superblock) (v : Z) : Z := indicator (v =? full s).
Definition free_frags_of (s : superblock) (v : Z) : Z :=
  if v =? full s then 0 else frag_free (fs_frag s) v.

Record map_ok (s : superblock) (m : list Z) (nbfree nffree : Z) (frsum : list Z) : Prop := {
  map_bitmap : bitmap (mapbytes s) m;
  (** past the end of the group nothing is free *)
  map_tail : forall i, fs_fpg s <= i -> bit m i = false;
  map_nbfree : nbfree = zsum (Z.to_nat (nblk s)) (fun h => isfull s (blk s m h));
  map_nffree : nffree = zsum (Z.to_nat (nblk s)) (fun h => free_frags_of s (blk s m h));
  map_frsum_length : zlength frsum = 8;
  map_frsum : forall k, 1 <= k < fs_frag s ->
    zget frsum k = zsum (Z.to_nat (nblk s)) (fun h => frag_runs (fs_frag s) (blk s m h) k)
}.

Section counts.
Context (s : superblock) (G : geom s).

(** Changing one block changes the counts by the change of its value. *)
Lemma map_ok_update m nb nf fr m' h nb' nf' fr' :
  map_ok s m nb nf fr -> bitmap (mapbytes s) m' -> 0 <= h < nblk s ->
  (forall j, 0 <= j -> j / fs_frag s <> h -> bit m' j = bit m j) ->
  nb' = nb - isfull s (blk s m h) + isfull s (blk s m' h) ->
  nf' = nf - free_frags_of s (blk s m h) + free_frags_of s (blk s m' h) ->
  zlength fr' = 8 ->
  (forall k, 1 <= k < fs_frag s -> zget fr' k = zget fr k
     - frag_runs (fs_frag s) (blk s m h) k + frag_runs (fs_frag s) (blk s m' h) k) ->
  map_ok s m' nb' nf' fr'.
Proof.
  intros [M1 M2 M3 M4 M5 M6] Hm' Hh Hne Hnb Hnf Hl Hfr.
  pose proof (nblk_fpg s G) as [HN HN0]. pose proof (frag_pos s G).
  assert (forall i, 0 <= i < Z.of_nat (Z.to_nat (nblk s)) -> i <> h ->
    blk s m' i = blk s m i) as Hblk.
  { intros i Hi Hih. apply blk_ext; [apply G | lia |]. intros j Hj.
    apply Hne; [nia|]. by rewrite (proj1 (frag_split s G i j Hj)). }
  assert (forall F : Z -> Z,
    zsum (Z.to_nat (nblk s)) (fun i => F (blk s m' i)) =
    zsum (Z.to_nat (nblk s)) (fun i => F (blk s m i)) - F (blk s m h) + F (blk s m' h)) as Hsum.
  { intros F. apply (zsum_update _ (fun i => F (blk s m i)) (fun i => F (blk s m' i)));
      [lia|]. intros i Hi Hih. by rewrite Hblk. }
  split; try done.
  - intros i Hi. rewrite Hne; [by apply M2 | lia |].
    intros E. assert (nblk s <= i / fs_frag s); [|lia].
    apply Z.div_le_lower_bound; lia.
  - rewrite Hnb, M3. symmetry. by apply Hsum.
  - rewrite Hnf, M4. symmetry. by apply Hsum.
  - intros k Hk. rewrite Hfr, M6 by done. symmetry.
    by apply (Hsum (fun v => frag_runs (fs_frag s) v k)).
Qed.

Context (m : list Z) (nb nf : Z) (fr : list Z) (M : map_ok s m nb nf fr).

Lemma isfull_nonneg v : 0 <= isfull s v.
Proof. unfold isfull, indicator. case (v =? full s); lia. Qed.

Lemma free_frags_nonneg v : 0 <= free_frags_of s v.
Proof. unfold free_frags_of, frag_free. zcase; lia. Qed.

(** The counters are within the size of the group: no overflow. *)
Lemma map_ok_bounds :
  0 <= nb <= nblk s /\ 0 <= nf <= fs_fpg s.
Proof.
  destruct (nblk_fpg s G) as [HN HN0]. pose proof (frag_pos s G).
  pose proof (zsum_bounds (Z.to_nat (nblk s)) (fun h => isfull s (blk s m h)) 0 1) as B1.
  pose proof (zsum_bounds (Z.to_nat (nblk s)) (fun h => free_frags_of s (blk s m h))
    0 (fs_frag s)) as B2.
  rewrite (map_nbfree _ _ _ _ _ M), (map_nffree _ _ _ _ _ M). split.
  - enough (Z.of_nat (Z.to_nat (nblk s)) * 0 <= zsum (Z.to_nat (nblk s))
      (fun h => isfull s (blk s m h)) <= Z.of_nat (Z.to_nat (nblk s)) * 1) by lia.
    apply B1. intros. unfold isfull, indicator. case (_ =? _); lia.
  - enough (Z.of_nat (Z.to_nat (nblk s)) * 0 <= zsum (Z.to_nat (nblk s))
      (fun h => free_frags_of s (blk s m h)) <= Z.of_nat (Z.to_nat (nblk s)) * fs_frag s) by nia.
    apply B2. intros. split; [apply free_frags_nonneg|].
    unfold free_frags_of, frag_free. zcase; [lia|].
    pose proof (List.filter_length_le (fun b : bool => b) (fragbits (fs_frag s) (blk s m i))) as L.
    unfold fragbits in L at 2. rewrite length_fmap, length_seqZ in L. lia.
Qed.

Lemma map_ok_full_exists : nb <> 0 -> exists h, 0 <= h < nblk s /\ blk s m h = full s.
Proof.
  rewrite (map_nbfree _ _ _ _ _ M). intros Hnb.
  destruct (zsum_pos_inv _ _ (fun i _ => isfull_nonneg _) Hnb) as (h & Hh & Hp).
  exists h. split; [lia|]. revert Hp. unfold isfull, indicator. zcase; [done | lia].
Qed.

Lemma map_ok_run_exists k :
  1 <= k < fs_frag s -> zget fr k <> 0 ->
  exists h, 0 <= h < nblk s /\ frag_runs (fs_frag s) (blk s m h) k <> 0.
Proof.
  intros Hk. rewrite (map_frsum _ _ _ _ _ M) by done. intros Hs.
  destruct (zsum_pos_inv (Z.to_nat (nblk s)) (fun h => frag_runs (fs_frag s) (blk s m h) k))
    as (h & Hh & Hp); [unfold frag_runs; lia | done |].
  exists h. lia.
Qed.
End counts.

(** ** Runs in a block *)

(** At [pos] of the block value [v] starts a maximal run of exactly [a] free
    fragments: the test of the code, with the field shifted to [pos]. *)
Definition run_at (v pos a : Z) : bool :=
  Z.land (Z.shiftl v 1) (Z.shiftl (zget around a) pos) =? Z.shiftl (zget inside a) pos.

(** The value with [n] fragments from [pos] on taken. *)
Definition take_frags (v pos n : Z) : Z := Z.ldiff v (Z.shiftl (Z.ones n) pos).

Definition ranges (P : Z -> bool) (lo hi : Z) : bool := forallb P (seqZ lo (hi - lo + 1)).

Lemma ranges_elim P lo hi i : ranges P lo hi = true -> lo <= i <= hi -> P i = true.
Proof.
  unfold ranges. rewrite forallb_forall. intros H Hi.
  apply H, list_elem_of_In, elem_of_seqZ. lia.
Qed.

(** Instances of a computed test: for the block value, for an index. *)
Ltac block_at H s v := apply (blocks_all_elim _ s v) in H; [cbv beta zeta in H | done..].
Ltac range_at H i := apply (ranges_elim _ _ _ i) in H; [cbv beta zeta in H | lia].
Ltac range_hyp i :=
  match goal with H : ranges _ _ _ = true |- _ => range_at H i; bool_to_prop end.

Section values.
Context (s : superblock) (Hs : frag_ok s).

(** A counted run is somewhere in the block. *)
Lemma frag_runs_at v k :
  0 <= v <= full s -> 1 <= k < fs_frag s -> frag_runs (fs_frag s) v k <> 0 ->
  exists pos, 0 <= pos <= fs_frag s - k /\ run_at v pos k = true.
Proof.
  intros Hv Hk Hr.
  assert (blocks_all (fun f v => ranges (fun k => (frag_runs f v k =? 0) ||
    existsb (fun pos => run_at v pos k) (seqZ 0 (f - k + 1))) 1 (f - 1)) = true) as H
    by by vm_compute.
  block_at H s v.
  range_at H k. apply orb_true_iff in H as [H|H].
  { apply Z.eqb_eq in H. lia. }
  apply existsb_exists in H as (pos & Hp & H). exists pos. split; [|done].
  apply list_elem_of_In, elem_of_seqZ in Hp. lia.
Qed.

Lemma run_at_full : run_at (full s) 0 (fs_frag s) = true.
Proof. unfold full. by destruct Hs as [-> | [-> | [-> | ->]]]. Qed.

(** The fragments of a run are free. *)
Lemma run_at_bits v pos a j :
  0 <= v <= full s -> 1 <= a <= fs_frag s -> 0 <= pos <= fs_frag s - a ->
  run_at v pos a = true -> pos <= j < pos + a -> Z.testbit v j = true.
Proof.
  intros Hv Ha Hp Hr Hj.
  assert (blocks_all (fun f v => ranges (fun a => ranges (fun pos =>
    negb (run_at v pos a) || ranges (Z.testbit v) pos (pos + a - 1)) 0 (f - a)) 1 f) = true) as H
    by by vm_compute.
  block_at H s v.
  range_at H a. range_at H pos.
  rewrite Hr in H. simpl in H. range_at H j. done.
Qed.

(** A run of a whole block is the free block. *)
Lemma run_at_whole v pos :
  0 <= v <= full s -> 0 <= pos <= 0 -> run_at v pos (fs_frag s) = true -> v = full s.
Proof.
  intros Hv Hp Hr.
  assert (blocks_all (fun f v => negb (run_at v 0 f) || (v =? Z.ones f)) = true) as H
    by by vm_compute.
  block_at H s v.
  replace pos with 0 in Hr by lia. rewrite Hr in H. by apply Z.eqb_eq in H.
Qed.

(** Taking [n] fragments of a run of [a < fs_frag] leaves a run of
    [a - n] in its place. *)
Lemma take_frags_run v pos a n :
  0 <= v <= full s -> 1 <= a < fs_frag s -> 0 <= pos <= fs_frag s - a ->
  run_at v pos a = true -> 1 <= n <= a ->
  let v' := take_frags v pos n in
  isfull s v = 0 /\ isfull s v' = 0 /\
  free_frags_of s v' = free_frags_of s v - n /\
  (forall k, 1 <= k < fs_frag s -> frag_runs (fs_frag s) v' k = frag_runs (fs_frag s) v k
     - indicator (a =? k) + indicator (negb (n =? a) && (a - n =? k))).
Proof.
  intros Hv Ha Hp Hr Hn.
  assert (blocks_all (fun f v => ranges (fun a => ranges (fun pos => ranges (fun n =>
    let v' := take_frags v pos n in
    negb (run_at v pos a) || (n >? a) ||
    (negb (v =? Z.ones f) && negb (v' =? Z.ones f) && (frag_free f v' =? frag_free f v - n) &&
     ranges (fun k => frag_runs f v' k =? frag_runs f v k
       - indicator (a =? k) + indicator (negb (n =? a) && (a - n =? k))) 1 (f - 1)))
    1 (f - 1)) 0 (f - a)) 1 (f - 1)) = true) as H by by vm_compute.
  block_at H s v.
  range_at H a. range_at H pos.
  range_at H n. rewrite Hr in H.
  rewrite Z.gtb_ltb, (proj2 (Z.ltb_ge a n)) in H by lia. cbn [negb orb] in H.
  bool_to_prop. fold (full s) in *. unfold isfull, free_frags_of.
  rewrite (proj2 (Z.eqb_neq v (full s))), (proj2 (Z.eqb_neq _ (full s))) by done.
  repeat split; [lia|]. intros k Hk.
  range_hyp k. done.
Qed.

(** Taking the first [n] fragments of a free block leaves one run of the
    rest. *)
Lemma take_frags_full n :
  1 <= n <= fs_frag s ->
  let v' := take_frags (full s) 0 n in
  isfull s (full s) = 1 /\ isfull s v' = 0 /\
  free_frags_of s (full s) = 0 /\ free_frags_of s v' = fs_frag s - n /\
  (forall k, 1 <= k < fs_frag s -> frag_runs (fs_frag s) (full s) k = 0 /\
     frag_runs (fs_frag s) v' k = indicator (fs_frag s - n =? k)).
Proof.
  intros Hn.
  assert (forallb (fun f => ranges (fun n => let v' := take_frags (Z.ones f) 0 n in
    negb (v' =? Z.ones f) && (frag_free f v' =? f - n) &&
    ranges (fun k => (frag_runs f (Z.ones f) k =? 0) &&
      (frag_runs f v' k =? indicator (f - n =? k))) 1 (f - 1)) 1 f) frag_counts = true) as H
    by by vm_compute.
  rewrite forallb_forall in H. specialize (H _ (proj1 (frag_ok_In s) Hs)).
  range_at H n. bool_to_prop. fold (full s) in *.
  unfold isfull, free_frags_of. rewrite Z.eqb_refl, (proj2 (Z.eqb_neq _ (full s))) by done.
  repeat split; try done; range_hyp k; done.
Qed.

(** Freeing a block that was wholly taken. *)
Lemma counts_zero :
  isfull s 0 = 0 /\ free_frags_of s 0 = 0 /\
  (forall k, 1 <= k < fs_frag s -> frag_runs (fs_frag s) 0 k = 0).
Proof.
  assert (forallb (fun f => negb (0 =? Z.ones f) && (frag_free f 0 =? 0) &&
    ranges (fun k => frag_runs f 0 k =? 0) 1 (f - 1)) frag_counts = true) as H by by vm_compute.
  rewrite forallb_forall in H. specialize (H _ (proj1 (frag_ok_In s) Hs)).
  bool_to_prop. fold (full s) in *. unfold isfull, free_frags_of.
  rewrite (proj2 (Z.eqb_neq _ (full s))) by done. repeat split; [done|]. intros k Hk. range_hyp k. done.
Qed.
End values.

(** Correctness of [ffs_mapsearch]: when the map has a free run of the
    requested size, the search succeeds and returns the start of one. *)

(** The search in byte [k] of the map only depends on that byte. *)
Lemma frag_blkmap_byte frag m k o :
  0 <= k -> 0 <= o < 8 -> frag_blkmap frag m (8 * k + o) = frag_blkmap frag [zget m k] o.
Proof.
  intros Hk Ho. unfold frag_blkmap, NBBY.
  replace ((8 * k + o) / 8) with k by dlia. replace ((8 * k + o) mod 8) with o by dlia.
  replace (o / 8) with 0 by dlia. by rewrite (Z.mod_small o).
Qed.

Lemma mapsearch_blk_byte fuel frag m k o a :
  0 <= k -> 0 <= o -> 0 < frag ->
  mapsearch_blk fuel frag m (8 * k + o) (8 * k + 8) a =
    (fun r => 8 * k + r) <$> mapsearch_blk fuel frag [zget m k] o 8 a.
Proof.
  intros Hk. revert o. induction fuel as [|fuel IH]; intros o Ho Hf; [done|].
  cbn [mapsearch_blk].
  destruct (Z.ltb_spec (8 * k + o) (8 * k + 8)), (Z.ltb_spec o 8); try lia; [|done].
  rewrite frag_blkmap_byte by lia. case_match; simpl; [f_equal; lia|].
  rewrite <- Z.add_assoc. apply IH; lia.
Qed.

(** The mask [ffs_mapsearch] passes to [scanc]. *)
Definition search_mask (frag a : Z) : Z := u8 (Z.shiftl 1 (a - 1 + frag mod NBBY)).

(** Some block of the byte has a run of [a] fragments. *)
Definition byte_has_run (frag a b : Z) : bool :=
  existsb (fun r => (r mod frag + a <=? frag) &&
             run_at (frag_blkmap frag [b] (r - r mod frag)) (r mod frag) a) (seqZ 0 8).

(** The byte-level specification, decided for all bytes: the table entry
    tells whether the byte has a run, and the two loops find one. *)
Definition byte_search_ok (frag a b : Z) : bool :=
  let hit := negb (Z.land (zget (fragtbl frag) b) (search_mask frag a) =? 0) in
  eqb hit (byte_has_run frag a b) &&
  match mapsearch_blk 8 frag [b] 0 8 a with
  | Some r => hit && (0 <=? r) && (r <? 8) && (r mod frag + a <=? frag) &&
              run_at (frag_blkmap frag [b] (r - r mod frag)) (r mod frag) a
  | None => negb hit
  end.

Lemma byte_search_correct s a b :
  frag_ok s -> 1 <= a <= fs_frag s -> is_byte b -> byte_search_ok (fs_frag s) a b = true.
Proof.
  intros Hs Ha Hb.
  assert (forallb (fun f => ranges (fun a => bytes_all (byte_search_ok f a)) 1 f) frag_counts
    = true) as H by by vm_compute.
  rewrite forallb_forall in H. specialize (H _ (proj1 (frag_ok_In s) Hs)).
  range_at H a. by apply (bytes_all_elim _ b) in H.
Qed.

(** Bit [8k + r] is fragment [r mod frag] of its block. *)
Lemma blk_of_byte s m k r :
  frag_ok s -> 0 <= k -> 0 <= r < 8 ->
  blk s m ((8 * k + r) / fs_frag s) =
    frag_blkmap (fs_frag s) [zget m k] (r - r mod fs_frag s) /\
  (8 * k + r) mod fs_frag s = r mod fs_frag s.
Proof.
  intros Hs Hk Hr. unfold blk, blkmap.
  assert ((8 * k + r) / fs_frag s * fs_frag s = 8 * k + (r - r mod fs_frag s) /\
          (8 * k + r) mod fs_frag s = r mod fs_frag s /\ 0 <= r - r mod fs_frag s < 8)
    as (-> & -> & Hb).
  { destruct Hs as [E | [E | [E | E]]]; rewrite E; split_and!; dlia. }
  split; [|done]. apply frag_blkmap_byte; lia.
Qed.

Section mapsearch.
Context {K : Libkern} {KS : LibkernSpec K}.
Context (s : superblock) (G : geom s) (c : cg).
Context (Hm : bitmap (mapbytes s) (cg_blksfree c)).
Context (Htail : forall i, fs_fpg s <= i -> bit (cg_blksfree c) i = false).
Context (Hrot : 0 <= cg_frotor c / 8 < mapbytes s).
Context (a : Z) (Ha : 1 <= a <= fs_frag s).

Abbreviation m := (cg_blksfree c).
Definition hit (k : Z) : bool :=
  negb (Z.land (zget (fragtbl (fs_frag s)) (zget m k)) (search_mask (fs_frag s) a) =? 0).

(** A hit in byte [k] of the map leads to a run. *)
Lemma hit_run k :
  0 <= k -> hit k = true ->
  exists h pos, mapsearch_blk 8 (fs_frag s) m (8 * k) (8 * k + 8) a = Some (h * fs_frag s + pos) /\
    0 <= h < nblk s /\ 0 <= pos <= fs_frag s - a /\ run_at (blk s m h) pos a = true.
Proof.
  intros Hk Hhit. pose proof (frag_pos s G). pose proof (geom_frag s G) as Hs.
  pose proof (byte_search_correct s a (zget m k) Hs Ha (bitmap_byte _ _ k Hm)) as H0.
  unfold byte_search_ok in H0. fold (hit k) in H0. rewrite Hhit in H0.
  pose proof (mapsearch_blk_byte 8 (fs_frag s) m k 0 a Hk) as Hb. rewrite Z.add_0_r in Hb.
  rewrite Hb by lia. clear Hb. destruct (mapsearch_blk _ _ [_] _ _ _) as [r|];
    [|by rewrite andb_false_r in H0].
  bool_to_prop. destruct (blk_of_byte s m k r Hs Hk) as [E1 E2]; [lia|].
  exists ((8 * k + r) / fs_frag s), (r mod fs_frag s).
  pose proof (Z.mod_pos_bound r (fs_frag s)).
  split; [simpl; f_equal; rewrite <- E2; symmetry; by apply frag_join|].
  rewrite E1. assert (0 <= (8 * k + r) / fs_frag s) by (apply Z.div_pos; lia).
  split_and!; try done; try lia.
  destruct (Z.lt_ge_cases ((8 * k + r) / fs_frag s) (nblk s)) as [|Hge]; [done|exfalso].
  assert (bit m (8 * k + r) = true) as Hbit.
  { assert (Z.testbit (blk s m ((8 * k + r) / fs_frag s)) (r mod fs_frag s) = true) as T.
    { eapply (run_at_bits s Hs _ (r mod fs_frag s) a); [apply blk_range; [done|lia] | done | lia | | lia].
      by rewrite E1. }
    rewrite blk_testbit in T by (done || lia). apply andb_prop in T as [T _].
    by rewrite <- E2, frag_join in T. }
  rewrite Htail in Hbit; [done|]. destruct (nblk_fpg s G).
  pose proof (frag_join s G (8 * k + r)). pose proof (Z.mod_pos_bound (8 * k + r) (fs_frag s)). nia.
Qed.

(** A run in some block is a hit in its byte. *)
Lemma run_hit h pos :
  0 <= h < nblk s -> 0 <= pos <= fs_frag s - a -> run_at (blk s m h) pos a = true ->
  exists k, 0 <= k < mapbytes s /\ hit k = true.
Proof.
  intros Hh Hp Hr. pose proof (frag_pos s G). pose proof (geom_frag s G) as Hs.
  destruct (nblk_fpg s G) as [HN _]. pose proof (mapbytes_fpg s).
  assert (0 <= pos < fs_frag s) as Hp' by lia.
  destruct (frag_split s G h pos Hp') as [E1 E2].
  set (d := h * fs_frag s + pos) in *. assert (0 <= d < fs_fpg s) as Hd by (unfold d; nia).
  exists (d / 8). split; [dlia|].
  pose proof (byte_search_correct s a (zget m (d / 8)) Hs Ha (bitmap_byte _ _ (d / 8) Hm)) as Hok.
  unfold byte_search_ok in Hok. fold (hit (d / 8)) in Hok. apply andb_prop in Hok as [Hok _].
  apply eqb_prop in Hok. rewrite Hok. unfold byte_has_run. apply existsb_exists.
  destruct (blk_of_byte s m (d / 8) (d mod 8) Hs) as [F1 F2]; [dlia | dlia |].
  replace (8 * (d / 8) + d mod 8) with d in F1, F2 by dlia. rewrite E1 in F1. rewrite E2 in F2.
  exists (d mod 8). split; [apply list_elem_of_In, elem_of_seqZ; dlia|].
  cbv beta. rewrite <- F1, <- F2, Hr. ztest. done.
Qed.

(** Two passes of [scanc] find a hit, if there is one. *)
Lemma ffs_mapsearch_correct bpref h0 pos0 :
  0 <= h0 < nblk s -> 0 <= pos0 <= fs_frag s - a -> run_at (blk s m h0) pos0 a = true ->
  exists h pos r, ffs_mapsearch s c bpref a = Ok (h * fs_frag s + pos, set_cg_frotor r c) /\
    0 <= h < nblk s /\ 0 <= pos <= fs_frag s - a /\ run_at (blk s m h) pos a = true /\
    0 <= r / 8 < mapbytes s.
Proof.
  intros Hh0 Hp0 Hr0. destruct (run_hit h0 pos0 Hh0 Hp0 Hr0) as (k0 & Hk0 & Hhit0).
  pose proof (mapbytes_fpg s) as Hbytes. destruct (geom_fpg s G) as [Hfpg _].
  unfold ffs_mapsearch. fold (search_mask (fs_frag s) a).
  set (start := if bpref =? 0 then _ else _).
  assert (0 <= start < mapbytes s) as Hst.
  { unfold start, NBBY, dtogd. zcase; [done|].
    pose proof (Z.mod_pos_bound bpref (fs_fpg s) Hfpg). unfold mapbytes, howmany in *. dlia. }
  change (howmany (fs_fpg s) NBBY) with (mapbytes s).
  destruct Hm as [Hlen _].
  pose proof (scanc_spec (mapbytes s - start) (drop (Z.to_nat start) m) (fragtbl (fs_frag s))
    (search_mask (fs_frag s) a)) as S1. rewrite zlength_drop in S1 by lia.
  cbv zeta in S1. specialize (S1 ltac:(lia)).
  destruct (Z.eqb_spec (scanc (mapbytes s - start) (drop (Z.to_nat start) m)
    (fragtbl (fs_frag s)) (search_mask (fs_frag s) a)) 0) as [E|E].
  - pose proof (scanc_spec (start + 1) m (fragtbl (fs_frag s)) (search_mask (fs_frag s) a)
      ltac:(lia)) as S2. cbv zeta in S2.
    set (loc := scanc (start + 1) _ _ _) in *.
    destruct (Z.eqb_spec loc 0) as [E2|E2].
    + exfalso. rewrite E in S1. rewrite E2 in S2. unfold hit in Hhit0.
      destruct (Z.le_gt_cases k0 start).
      * destruct S2 as (_ & S2 & _). rewrite S2 in Hhit0 by lia. done.
      * destruct S1 as (_ & S1 & _). specialize (S1 (k0 - start) ltac:(lia)).
        rewrite aget_drop in S1 by lia.
        replace (start + (k0 - start)) with k0 in S1 by lia. by rewrite S1 in Hhit0.
    + destruct S2 as (S2 & _ & S3).
      destruct (hit_run (start + 1 - loc)) as (h & pos & Hs & Hh & Hp & Hr).
      { lia. } { unfold hit. apply negb_true_iff, Z.eqb_neq, S3. lia. }
      exists h, pos, ((start + 1 - loc) * 8). cbn [mbind result_bind]. unfold NBBY.
      replace (0 + (start + 1) - loc) with (start + 1 - loc) by lia.
      rewrite (Z.mul_comm (start + 1 - loc) 8), Hs. split_and!; try done; dlia.
  - destruct S1 as (S1 & _ & S3). set (loc := scanc _ _ _ _) in *.
    rewrite aget_drop in S3 by lia.
    replace (start + (mapbytes s - start - loc)) with (mapbytes s - loc) in S3 by lia.
    destruct (hit_run (mapbytes s - loc)) as (h & pos & Hs & Hh & Hp & Hr).
    { lia. } { unfold hit. apply negb_true_iff, Z.eqb_neq, S3. lia. }
    exists h, pos, ((mapbytes s - loc) * 8). cbn [mbind result_bind]. unfold NBBY.
    replace (start + (mapbytes s - start) - loc) with (mapbytes s - loc) by lia.
    rewrite (Z.mul_comm (mapbytes s - loc) 8), Hs. split_and!; try done; dlia.
Qed.
End mapsearch.
