(* ===== verification/FfsInv.v ===== *)
(** The invariant of the FFS allocator and how one block's change keeps it.

    [cg_ok] is the consistency of one cylinder group, [state_ok] that of the
    file system; [isfree] is the abstract view: which fragments are free. *)

From S2P Require Import Prelude Bitmap Fs FfsSubr FfsAlloc FfsMap.

(** ** One cylinder group *)

Record clusters_ok (s : superblock) (g : cg) : Prop := {
  cl_length : cg_nclusterblks g <= 8 * zlength (cg_clustersfree g);
  cl_blocks : cg_nclusterblks g = cg_ndblk g / fs_frag s;
  cl_bits : forall h, 0 <= h < cg_nclusterblks g ->
    bit (cg_clustersfree g) h = (blk s (cg_blksfree g) h =? full s);
  cl_sum : clustersum_ok s g
}.

Record cg_ok (s : superblock) (c : Z) (g : cg) : Prop := {
  cg_ok_magic : cg_chkmagic g = true;
  cg_ok_cgx : cg_cgx g = c;
  cg_ok_ndblk : 0 <= cg_ndblk g <= fs_fpg s;
  cg_ok_tail : forall i, cg_ndblk g <= i -> bit (cg_blksfree g) i = false;
  cg_ok_map : map_ok s (cg_blksfree g) (cs_nbfree (cg_cs g)) (cs_nffree (cg_cs g)) (cg_frsum g);
  cg_ok_frotor : 0 <= cg_frotor g / 8 < mapbytes s;
  cg_ok_clusters : 0 < fs_contigsumsize s -> clusters_ok s g
}.

(** The counters with [db] more free blocks and [df] more free fragments. *)
Definition adj (db df : Z) (c : csum) : csum :=
  MkCsum (cs_ndir c) (cs_nbfree c + db) (cs_nifree c) (cs_nffree c + df).

Lemma adj_adj db df db' df' c : adj db df (adj db' df' c) = adj (db + db') (df + df') c.
Proof. unfold adj. simpl. f_equal; lia. Qed.

Lemma add_nbfree_adj d c : add_nbfree d c = adj d 0 c.
Proof. destruct c. unfold adj, add_nbfree, set_cs_nbfree. simpl. f_equal; lia. Qed.

Lemma add_nffree_adj d c : add_nffree d c = adj 0 d c.
Proof. destruct c. unfold adj, add_nffree, set_cs_nffree. simpl. f_equal; lia. Qed.

Lemma adj_0 c : adj 0 0 c = c.
Proof. destruct c. unfold adj. simpl. f_equal; lia. Qed.

(** What block operations leave alone in a group. *)
Definition same_rest (g g' : cg) : Prop :=
  cg_magic g' = cg_magic g /\ cg_cgx g' = cg_cgx g /\ cg_ndblk g' = cg_ndblk g /\
  cg_inosused g' = cg_inosused g /\ cg_irotor g' = cg_irotor g /\
  cg_niblk g' = cg_niblk g /\ cg_initediblk g' = cg_initediblk g.

Lemma same_rest_refl g : same_rest g g.
Proof. by repeat split. Qed.

Lemma same_rest_trans g1 g2 g3 : same_rest g1 g2 -> same_rest g2 g3 -> same_rest g1 g3.
Proof. unfold same_rest. intuition congruence. Qed.

(** One step of a group: the counters move by [db] and [df] and each map bit
    as [upd] says. *)
Record cg_step (s : superblock) (c : Z) (g : cg) (db df : Z) (upd : Z -> bool -> bool)
    (g' : cg) : Prop := {
  step_ok : cg_ok s c g';
  step_cs : cg_cs g' = adj db df (cg_cs g);
  step_bits : forall j, 0 <= j -> bit (cg_blksfree g') j = upd j (bit (cg_blksfree g) j);
  step_rest : same_rest g g'
}.

(** The fragments [d .. d + n - 1] are taken, resp. freed. *)
Definition take (d n : Z) : Z -> bool -> bool :=
  fun j b => b && negb ((d <=? j) && (j <? d + n)).
Definition give (d n : Z) : Z -> bool -> bool :=
  fun j b => b || ((d <=? j) && (j <? d + n)).
Definition keep : Z -> bool -> bool := fun _ b => b.

Lemma cg_step_trans s c g db df u g1 db' df' u' g2 :
  cg_step s c g db df u g1 -> cg_step s c g1 db' df' u' g2 ->
  cg_step s c g (db' + db) (df' + df) (fun j b => u' j (u j b)) g2.
Proof.
  intros [A1 A2 A3 A4] [B1 B2 B3 B4]. split; [done | | | by eapply same_rest_trans].
  - by rewrite B2, A2, adj_adj.
  - intros j Hj. by rewrite B3, A3.
Qed.

Lemma cg_step_conv s c g db df u db' df' u' g' :
  cg_step s c g db df u g' -> db = db' -> df = df' ->
  (forall j, 0 <= j ->
    u j (bit (cg_blksfree g) j) = u' j (bit (cg_blksfree g) j)) ->
  cg_step s c g db' df' u' g'.
Proof. intros [A1 A2 A3 A4] -> -> H. split; try done. intros j Hj. by rewrite A3, H. Qed.

(** Fields outside the maps and the counters do not matter. *)
Lemma cg_step_fields s c g g' :
  cg_ok s c g -> same_rest g g' -> 0 <= cg_frotor g' / 8 < mapbytes s ->
  cg_cs g' = cg_cs g -> cg_blksfree g' = cg_blksfree g -> cg_frsum g' = cg_frsum g ->
  cg_nclusterblks g' = cg_nclusterblks g -> cg_clustersfree g' = cg_clustersfree g ->
  cg_clustersum g' = cg_clustersum g -> cg_step s c g 0 0 keep g'.
Proof.
  intros [I1 I2 I3 I4 I5 I6 I7] R Hrot E1 E2 E3 E4 E5 E6. pose proof R as (R1 & R2 & R3 & _).
  split; [|by rewrite E1, adj_0 | by rewrite E2 | done].
  split; rewrite ?R2, ?R3, ?E1, ?E2, ?E3; try done.
  - unfold cg_chkmagic in *. by rewrite R1.
  - intros Hc. destruct (I7 Hc) as [C1 C2 C3 [C4 C5]].
    split; rewrite ?E2, ?E4, ?E5, ?R3; try done.
    split; [by rewrite E6|]. intros k Hk. rewrite E6, C5 by done. f_equal.
    unfold cluster_bits. by rewrite E4, E5.
Qed.

Lemma cg_step_frotor s c g r :
  cg_ok s c g -> 0 <= r / 8 < mapbytes s -> cg_step s c g 0 0 keep (set_cg_frotor r g).
Proof. intros I Hr. by apply cg_step_fields. Qed.

Lemma cg_step_rotor s c g r : cg_ok s c g -> cg_step s c g 0 0 keep (set_cg_rotor r g).
Proof. intros I. apply cg_step_fields; try done. apply (cg_ok_frotor _ _ _ I). Qed.

Lemma cg_step_touch t s c g : cg_ok s c g -> cg_step s c g 0 0 keep (touch t g).
Proof. intros I. apply cg_step_fields; try done. apply (cg_ok_frotor _ _ _ I). Qed.

Lemma cg_step_id s c g : cg_ok s c g -> cg_step s c g 0 0 keep g.
Proof. intros I. apply cg_step_fields; try done. apply (cg_ok_frotor _ _ _ I). Qed.

(** ** The superblock counters *)

Definition csum_at (f : fs) (c : Z) : csum := fs_cs f c.

(** [f'] is [f] with the counters of group [c] and the totals moved. *)
Record fs_adj (f : fs) (c db df : Z) (f' : fs) : Prop := {
  adj_sb : fs_sb f' = fs_sb f;
  adj_contigdirs : fs_contigdirs f' = fs_contigdirs f;
  adj_length : zlength (fs_csp f') = zlength (fs_csp f);
  adj_cs : forall i, 0 <= i < zlength (fs_csp f) ->
    fs_cs f' i = if i =? c then adj db df (fs_cs f c) else fs_cs f i;
  adj_total : fs_cstotal f' = adj db df (fs_cstotal f);
  adj_optim : fs_optim f' = fs_optim f
}.

Lemma fs_adj_id f c f' :
  fs_sb f' = fs_sb f -> fs_contigdirs f' = fs_contigdirs f -> fs_csp f' = fs_csp f ->
  fs_cstotal f' = fs_cstotal f -> fs_optim f' = fs_optim f -> fs_adj f c 0 0 f'.
Proof.
  intros H1 H2 H3 H4 H5. split; try done; rewrite ?adj_0; try done.
  - by rewrite H3.
  - intros i Hi. unfold fs_cs. rewrite H3, ?adj_0. zcase; [by subst | done].
Qed.

Lemma fs_adj_trans f c db df f1 db' df' f2 :
  fs_adj f c db df f1 -> fs_adj f1 c db' df' f2 -> fs_adj f c (db' + db) (df' + df) f2.
Proof.
  intros [A1 A2 A3 A4 A5 A6] [B1 B2 B3 B4 B5 B6]. split; try congruence.
  - intros i Hi. rewrite B4 by lia. zcase.
    + rewrite <- adj_adj. f_equal. subst. rewrite A4 by done. by rewrite Z.eqb_refl.
    + rewrite A4 by done. by ztest.
  - by rewrite B5, A5, adj_adj.
Qed.

Lemma fs_adj_conv f c db df db' df' f' :
  fs_adj f c db df f' -> db = db' -> df = df' -> fs_adj f c db' df' f'.
Proof. by intros H -> ->. Qed.

Lemma fs_count_nbfree f c d :
  0 <= c < zlength (fs_csp f) -> fs_adj f c d 0 (fs_count (add_nbfree d) c f).
Proof.
  intros Hc. split; try done; simpl.
  - by rewrite zlength_aset.
  - intros i Hi. unfold fs_cs. simpl. rewrite aget_aset by lia.
    rewrite Z.eqb_sym. zcase; [subst; apply add_nbfree_adj | done].
  - apply add_nbfree_adj.
Qed.

Lemma fs_count_nffree f c d :
  0 <= c < zlength (fs_csp f) -> fs_adj f c 0 d (fs_count (add_nffree d) c f).
Proof.
  intros Hc. split; try done; simpl.
  - by rewrite zlength_aset.
  - intros i Hi. unfold fs_cs. simpl. rewrite aget_aset by lia.
    rewrite Z.eqb_sym. zcase; [subst; apply add_nffree_adj | done].
  - apply add_nffree_adj.
Qed.

Lemma fs_adj_fmod f c v : fs_adj f c 0 0 (set_fs_fmod v f).
Proof. by apply fs_adj_id. Qed.

Lemma fs_adj_maxcluster f c v : fs_adj f c 0 0 (set_fs_maxcluster v f).
Proof. by apply fs_adj_id. Qed.

Lemma fs_adj_active f c d : fs_adj f c 0 0 (ACTIVECLEAR f d).
Proof. unfold ACTIVECLEAR. destruct (fs_active f); by apply fs_adj_id. Qed.

#[export] Hint Resolve same_rest_refl fs_adj_fmod fs_adj_maxcluster fs_adj_active : kernel.

(** ** Updating one block *)

(** The cluster part is kept by a change that neither makes nor breaks a free
    block. *)
Lemma clusters_ok_keep s g g' :
  geom s -> 0 <= cg_ndblk g <= fs_fpg s -> clusters_ok s g ->
  cg_nclusterblks g' = cg_nclusterblks g -> cg_ndblk g' = cg_ndblk g ->
  cg_clustersfree g' = cg_clustersfree g -> cg_clustersum g' = cg_clustersum g ->
  (forall h, 0 <= h < nblk s ->
    (blk s (cg_blksfree g') h =? full s) = (blk s (cg_blksfree g) h =? full s)) ->
  clusters_ok s g'.
Proof.
  intros G Hnd [C1 C2 C3 [C4 C5]] E1 E2 E3 E4 Hb. pose proof (frag_pos s G).
  split; rewrite ?E1, ?E2, ?E3; try done.
  - intros h Hh. rewrite C3, Hb; [done | | done]. split; [lia|].
    rewrite C2 in Hh. unfold nblk.
    pose proof (Z.div_le_mono (cg_ndblk g) (fs_fpg s) (fs_frag s)). lia.
  - split; [by rewrite E4|]. intros k Hk. rewrite E4, C5 by done. f_equal.
    unfold cluster_bits. by rewrite E1, E3.
Qed.

Section block_update.
Context (s : superblock) (G : geom s) (c : Z) (g : cg) (I : cg_ok s c g).

Lemma full_block_in_group h :
  0 <= h -> blk s (cg_blksfree g) h = full s -> h < cg_ndblk g / fs_frag s /\ h < nblk s.
Proof.
  intros Hh Hf. pose proof (frag_pos s G). destruct (nblk_fpg s G) as [HN _].
  pose proof (proj1 (blk_full_iff s (geom_frag s G) _ h Hh) Hf (fs_frag s - 1) ltac:(lia)) as Hb.
  destruct (Z.lt_ge_cases (h * fs_frag s + (fs_frag s - 1)) (cg_ndblk g)) as [Hlt|Hge].
  - pose proof (cg_ok_ndblk s c g I). split; [|nia].
    apply Z.lt_le_trans with (h + 1); [lia|]. apply Z.div_le_lower_bound; lia.
  - rewrite (cg_ok_tail s c g I) in Hb by done. discriminate.
Qed.

(** [ffs_clusteracct] restores the cluster part after block [h] was taken
    ([cnt = -1]) or freed ([cnt = 1]). *)
Lemma clusters_ok_acct (f : fs) g' h cnt :
  fs_sb f = s -> (cnt = 1 \/ cnt = -1) ->
  cg_nclusterblks g' = cg_nclusterblks g -> cg_ndblk g' = cg_ndblk g ->
  cg_clustersfree g' = cg_clustersfree g -> cg_clustersum g' = cg_clustersum g ->
  0 <= h < cg_ndblk g / fs_frag s ->
  (blk s (cg_blksfree g) h =? full s) = (cnt <? 0) ->
  (blk s (cg_blksfree g') h =? full s) = (0 <? cnt) ->
  (forall i, 0 <= i < nblk s -> i <> h ->
    blk s (cg_blksfree g') i = blk s (cg_blksfree g) i) ->
  let '(f', g2) := ffs_clusteracct f g' h cnt in
  (exists v, f' = f \/ f' = set_fs_maxcluster v f) /\
  (exists a b, g2 = set_cg_clustersum a (set_cg_clustersfree b g')) /\
  (0 < fs_contigsumsize s -> clusters_ok s g2).
Proof.
  intros <- Hcnt E1 E2 E3 E4 Hh Hold Hnew Hother.
  destruct (Z.le_gt_cases (fs_contigsumsize f) 0) as [Hc|Hc].
  { unfold ffs_clusteracct. ztest. split; [exists []; by left|].
    split; [|lia]. exists (cg_clustersum g'), (cg_clustersfree g'). by destruct g'. }
  destruct (cg_ok_clusters _ c g I Hc) as [C1 C2 C3 [C4 C5]].
  assert (cg_ndblk g / fs_frag f <= nblk f) as Hle.
  { pose proof (cg_ok_ndblk _ c g I). pose proof (frag_pos _ G). apply Z.div_le_mono; lia. }
  pose proof (ffs_clusteracct_correct f g' h cnt Hc Hcnt) as A.
  destruct (ffs_clusteracct f g' h cnt) as [f' g2].
  destruct A as (cf & sum & Hg2 & B1 & B2 & B3 & B4 & B5).
  { rewrite E1, C2. lia. }
  { by rewrite E1, E3. }
  { rewrite E3, C3 by lia. done. }
  { split; [by rewrite E4|]. intros k Hk. rewrite E4, C5 by done. f_equal.
    unfold cluster_bits. by rewrite E1, E3. }
  split; [eauto|]. split; [eauto|]. intros _. subst g2.
  split; cbn [cg_nclusterblks cg_ndblk cg_clustersfree cg_blksfree set_cg_clustersum
    set_cg_clustersfree]; rewrite ?E1, ?E2, ?B1, ?E3; try done.
  intros i Hi. rewrite B3 by lia. zcase.
  - subst. by rewrite Hnew.
  - rewrite E3, C3, Hother; [done | lia | lia | done].
Qed.
End block_update.

(** A change of the fragments of block [h] is a step when the counters follow
    the block's value. *)
Lemma cg_step_intro s c g h db df upd g' :
  geom s -> cg_ok s c g -> same_rest g g' -> 0 <= cg_frotor g' / 8 < mapbytes s ->
  cg_cs g' = adj db df (cg_cs g) -> bitmap (mapbytes s) (cg_blksfree g') ->
  (forall j, 0 <= j -> bit (cg_blksfree g') j = upd j (bit (cg_blksfree g) j)) ->
  0 <= h < nblk s -> (forall j b, 0 <= j -> j / fs_frag s <> h -> upd j b = b) ->
  (forall j, cg_ndblk g <= j -> upd j false = false) ->
  (let v := blk s (cg_blksfree g) h in
   let v' := blk s (cg_blksfree g') h in
   db = isfull s v' - isfull s v /\ df = free_frags_of s v' - free_frags_of s v /\
   zlength (cg_frsum g') = 8 /\
   forall k, 1 <= k < fs_frag s -> zget (cg_frsum g') k =
     zget (cg_frsum g) k - frag_runs (fs_frag s) v k + frag_runs (fs_frag s) v' k) ->
  (0 < fs_contigsumsize s -> clusters_ok s g') ->
  cg_step s c g db df upd g'.
Proof.
  intros G I R Hrot Hcs Hbm Hbits Hh Hin Htail (Hdb & Hdf & Hl & Hfr) Hcl.
  pose proof R as (R1 & R2 & R3 & _). split; try done.
  destruct I as [I1 I2 I3 I4 I5 I6 I7]. split; try done.
  - unfold cg_chkmagic in *. by rewrite R1.
  - by rewrite R2.
  - by rewrite R3.
  - intros i Hi. rewrite R3 in Hi. rewrite Hbits by lia. rewrite I4 by done. by apply Htail.
  - rewrite Hcs. eapply (map_ok_update s G _ _ _ _ _ h); try done.
    + intros j Hj Hne. rewrite Hbits by done. by apply Hin.
    + simpl. lia.
    + simpl. lia.
Qed.

(** ** The file system *)

Record state_ok (st : ffs_state) : Prop := {
  st_geom : geom (st_fs st);
  st_ncgs : zlength (st_cgs st) = fs_ncg (st_fs st);
  st_ncsp : zlength (fs_csp (st_fs st)) = fs_ncg (st_fs st);
  st_cg : forall c, 0 <= c < fs_ncg (st_fs st) -> cg_ok (st_fs st) c (get_cg st c);
  st_cs : forall c, 0 <= c < fs_ncg (st_fs st) -> fs_cs (st_fs st) c = cg_cs (get_cg st c);
  st_nbfree : cs_nbfree (fs_cstotal (st_fs st)) =
    zsum (Z.to_nat (fs_ncg (st_fs st))) (fun c => cs_nbfree (fs_cs (st_fs st) c));
  st_nffree : cs_nffree (fs_cstotal (st_fs st)) =
    zsum (Z.to_nat (fs_ncg (st_fs st))) (fun c => cs_nffree (fs_cs (st_fs st) c));
  (** the boot block is never free: address 0 means failure *)
  st_boot : bit (cg_blksfree (get_cg st 0)) 0 = false
}.

(** The abstract state: is the fragment with address [d] free? *)
Definition isfree (st : ffs_state) (d : Z) : bool :=
  bit (cg_blksfree (get_cg st (dtog (st_fs st) d))) (dtogd (st_fs st) d).

Lemma get_cg_put f c g st i :
  0 <= c < zlength (st_cgs st) -> 0 <= i ->
  get_cg (put f c g st) i = if c =? i then g else get_cg st i.
Proof. intros Hc Hi. unfold get_cg. simpl. by apply aget_aset. Qed.

Lemma same_rest_put st c g' f' db df upd :
  0 <= c < zlength (st_cgs st) -> cg_step (st_fs st) c (get_cg st c) db df upd g' ->
  forall i, 0 <= i -> same_rest (get_cg st i) (get_cg (put f' c g' st) i).
Proof.
  intros Hc H i Hi. rewrite get_cg_put by done. zcase; [|apply same_rest_refl].
  subst. apply H.
Qed.

(** A step of one group, with the superblock counters moved alike, is a step
    of the file system. *)
Lemma state_ok_put st c g' db df upd f' :
  state_ok st -> 0 <= c < fs_ncg (st_fs st) ->
  cg_step (st_fs st) c (get_cg st c) db df upd g' -> fs_adj (st_fs st) c db df f' ->
  (c = 0 -> upd 0 false = false) ->
  state_ok (put f' c g' st) /\ fs_sb f' = fs_sb (st_fs st) /\
  forall d, 0 <= d < fs_ncg (st_fs st) * fs_fpg (st_fs st) ->
    isfree (put f' c g' st) d =
      if dtog (st_fs st) d =? c then upd (dtogd (st_fs st) d) (isfree st d) else isfree st d.
Proof.
  intros [S1 S2 S3 S4 S5 S6 S7 S8] Hc [T1 T2 T3 T4] [A1 A2 A3 A4 A5] H0.
  assert (forall i, 0 <= i -> get_cg (put f' c g' st) i = if c =? i then g' else get_cg st i)
    as Hget by (intros; apply get_cg_put; lia).
  assert (forall i, 0 <= i < fs_ncg (st_fs st) ->
    fs_cs f' i = if i =? c then adj db df (fs_cs (st_fs st) c) else fs_cs (st_fs st) i) as Hcs
    by (intros; apply A4; lia).
  split_and!; [split | done |]; cbn [st_fs st_cgs put]; rewrite ?A1, ?zlength_aset, ?A3, ?A5;
    try done.
  - intros i Hi. rewrite Hget by lia. zcase; [by subst | by apply S4].
  - intros i Hi. rewrite Hget, Hcs by lia. rewrite (Z.eqb_sym i c). zcase; [|by apply S5].
    by rewrite T2, S5.
  - simpl. rewrite S6. symmetry. rewrite (zsum_update _
      (fun i => cs_nbfree (fs_cs (st_fs st) i)) (fun i => cs_nbfree (fs_cs f' i)) c).
    + rewrite Hcs by done. rewrite Z.eqb_refl. simpl. lia.
    + lia.
    + intros i Hi Hne. rewrite Hcs by lia. by ztest.
  - simpl. rewrite S7. symmetry. rewrite (zsum_update _
      (fun i => cs_nffree (fs_cs (st_fs st) i)) (fun i => cs_nffree (fs_cs f' i)) c).
    + rewrite Hcs by done. rewrite Z.eqb_refl. simpl. lia.
    + lia.
    + intros i Hi Hne. rewrite Hcs by lia. by ztest.
  - rewrite Hget by lia. zcase; [|done]. subst. rewrite T3, S8 by lia. by apply H0.
  - intros d Hd. unfold isfree. cbn [st_fs put]. unfold dtog, dtogd. rewrite A1.
    destruct (geom_fpg _ S1) as [Hf _].
    rewrite Hget by (apply Z.div_pos; lia). rewrite Z.eqb_sym. zcase; [|done].
    subst. by rewrite T3 by (apply Z.mod_pos_bound; lia).
Qed.

(** [fs_cs(cg)] and the group agree, also on what blocks are free. *)
Lemma cgbase_dtog s c j :
  geom s -> 0 <= j < fs_fpg s -> dtog s (cgbase s c + j) = c /\ dtogd s (cgbase s c + j) = j.
Proof.
  intros G Hj. unfold dtog, dtogd, cgbase. rewrite (Z.mul_comm _ c). split.
  - rewrite Z.div_add_l, Z.div_small by lia. lia.
  - by rewrite Z.add_comm, Z_mod_plus_full, Z.mod_small.
Qed.

(** The free set determines the counters. *)
Lemma state_ok_counters st st' c :
  state_ok st -> state_ok st' -> fs_sb (st_fs st') = fs_sb (st_fs st) ->
  0 <= c < fs_ncg (st_fs st) ->
  (forall d, 0 <= d < fs_ncg (st_fs st) * fs_fpg (st_fs st) -> isfree st' d = isfree st d) ->
  cs_nbfree (fs_cs (st_fs st') c) = cs_nbfree (fs_cs (st_fs st) c) /\
  cs_nffree (fs_cs (st_fs st') c) = cs_nffree (fs_cs (st_fs st) c).
Proof.
  intros S S' E Hc Hfree. pose proof (st_geom _ S) as G. destruct (geom_fpg _ G) as [Hf _].
  pose proof (cg_ok_map _ _ _ (st_cg _ S c Hc)) as M.
  pose proof (st_cg _ S' c ltac:(by rewrite E)) as I'. pose proof (cg_ok_map _ _ _ I') as M'.
  rewrite (st_cs _ S), (st_cs _ S') by (rewrite ?E; done). rewrite E in M'.
  assert (forall j, 0 <= j < fs_fpg (st_fs st) ->
    bit (cg_blksfree (get_cg st' c)) j = bit (cg_blksfree (get_cg st c)) j) as Hb.
  { intros j Hj. destruct (cgbase_dtog (st_fs st) c j G Hj) as [D1 D2].
    specialize (Hfree (cgbase (st_fs st) c + j) ltac:(unfold cgbase; nia)).
    unfold isfree in Hfree. by rewrite E, D1, D2 in Hfree. }
  assert (forall h, 0 <= h < nblk (st_fs st) ->
    blk (st_fs st) (cg_blksfree (get_cg st' c)) h = blk (st_fs st) (cg_blksfree (get_cg st c)) h) as Hblk.
  { intros h Hh. apply blk_ext; [apply G | lia |]. intros j Hj. apply Hb.
    destruct (nblk_fpg _ G). pose proof (frag_pos _ G). nia. }
  rewrite (map_nbfree _ _ _ _ _ M), (map_nbfree _ _ _ _ _ M'),
    (map_nffree _ _ _ _ _ M), (map_nffree _ _ _ _ _ M').
  split; apply zsum_ext; intros h Hh; by rewrite Hblk by lia.
Qed.
