(* ===== verification/FfsBlocks.v ===== *)
(** The block operations of the allocator keep the invariant and do to the
    set of free fragments exactly what they promise. *)

From S2P Require Import Prelude Bitmap Fs FfsSubr FfsAlloc FfsMap FfsInv.

(** A change confined to fragments of block [h]. *)
Lemma outside_block s h lo n j :
  geom s -> h * fs_frag s <= lo -> lo + n <= h * fs_frag s + fs_frag s -> 0 <= j ->
  j / fs_frag s <> h -> (lo <=? j) && (j <? lo + n) = false.
Proof.
  intros G Hlo Hn Hj Hne. pose proof (frag_pos s G).
  destruct (Z.leb_spec lo j), (Z.ltb_spec j (lo + n)); try done. exfalso. apply Hne.
  symmetry. apply (Z.div_unique _ _ _ (j - h * fs_frag s)); lia.
Qed.

(** The block value after fragments [pos .. pos + n - 1] of it were taken. *)
Lemma blk_take s m m' h pos n :
  geom s -> 0 <= h -> 0 <= pos -> 0 <= n -> pos + n <= fs_frag s ->
  (forall j, 0 <= j -> bit m' j = take (h * fs_frag s + pos) n j (bit m j)) ->
  blk s m' h = take_frags (blk s m h) pos n.
Proof.
  intros G Hh Hp Hn0 Hn Hb. pose proof (geom_frag s G) as Hs. pose proof (frag_pos s G).
  apply Z.bits_inj'. intros j Hj. unfold take_frags.
  rewrite Z.ldiff_spec, !blk_testbit, Z.shiftl_spec, testbit_ones by (done || lia).
  destruct (Z.ltb_spec j (fs_frag s)); [|by rewrite !andb_false_r].
  rewrite Hb by nia. unfold take.
  repeat zcase; simpl; rewrite ?andb_true_r, ?andb_false_r; done || lia.
Qed.

Section blocks.
Context (f : fs) (G : geom f) (c : Z) (Hc : 0 <= c < zlength (fs_csp f)).
Context (g : cg) (I : cg_ok f c g).

Lemma take_full_frag_free h n :
  0 <= h -> blk f (cg_blksfree g) h = full f -> 0 <= n <= fs_frag f ->
  h * fs_frag f + n <= fs_fpg f.
Proof.
  intros Hh Hf Hn. destruct (full_block_in_group f G c g I h Hh Hf) as [_ H].
  destruct (nblk_fpg f G). nia.
Qed.

(** From the label [gotit] on. *)
Lemma alloccgblk_gotit_correct h n size :
  0 <= h -> blk f (cg_blksfree g) h = full f -> 1 <= n <= fs_frag f ->
  numfrags f size = n ->
  exists f' g', alloccgblk_gotit f g (h * fs_frag f) size =
      Ok (cgbase f c + h * fs_frag f, f', g') /\
    cg_step f c g (-1) (fs_frag f - n) (take (h * fs_frag f) n) g' /\
    fs_adj f c (-1) (fs_frag f - n) f'.
Proof.
  intros Hh Hfull Hn Hsize. pose proof (geom_frag f G) as Hs. pose proof (frag_pos f G) as Hfp.
  destruct (full_block_in_group f G c g I h Hh Hfull) as [Hh1 Hh2].
  destruct (nblk_fpg f G) as [HN HN0]. pose proof (mapbytes_fpg f) as HB.
  pose proof (cg_ok_map _ _ _ I) as M. pose proof (map_bitmap _ _ _ _ _ M) as Hbm.
  unfold alloccgblk_gotit. rewrite fragstoblks_div by done. rewrite Z.div_mul by lia.
  destruct (ffs_clrblock_bits f (mapbytes f) (cg_blksfree g) h Hs Hh) as (m1 & -> & Hm1 & Hb1);
    [nia | done |]. rewrite bind_Ok.
  set (g1 := set_cg_blksfree m1 g).
  assert (blk f m1 h = 0) as Hz.
  { apply blk_eq; [done | done | unfold full; rewrite Z.ones_equiv;
      pose proof (Z.pow_pos_nonneg 2 (fs_frag f)); lia |].
    intros j Hj. rewrite Hb1, Z.bits_0 by nia. repeat zcase; simpl; rewrite ?andb_false_r; done || nia. }
  assert (full f <> 0) as Hf0 by (destruct (full_values f Hs) as [-> | [-> | [-> | ->]]]; done).
  pose proof (clusters_ok_acct f G c g I f g1 h (-1) eq_refl) as A.
  destruct (ffs_clusteracct f g1 h (-1)) as [f1 g2] eqn:E.
  destruct A as ((v & Hf1) & (a & b & Hg2) & Hcl); try done; [by right | | | |].
  { by rewrite Hfull, Z.eqb_refl. }
  { cbn [g1 cg_blksfree set_cg_blksfree]. rewrite Hz. by ztest. }
  { intros i Hi Hne. apply blk_ext; [done | lia |]. intros j Hj. cbn [g1 cg_blksfree set_cg_blksfree].
    rewrite Hb1 by nia. rewrite (outside_block f h) by
      (done || lia || (rewrite (proj1 (frag_split f G i j Hj)); lia)). by rewrite andb_true_r. }
  assert (fs_adj f c 0 0 f1) as Hadj1 by (destruct Hf1 as [-> | ->]; auto using fs_adj_id with kernel).
  assert (fs_sb f1 = fs_sb f /\ zlength (fs_csp f1) = zlength (fs_csp f)) as [Esb Elen]
    by (split; apply Hadj1).
  assert (cg_cgx g2 = c) as Hcgx by (subst g2; apply (cg_ok_cgx _ _ _ I)).
  assert (fs_adj f c (-1) 0 (set_fs_fmod 1 (fs_count (add_nbfree (-1)) c f1))) as Hadj2.
  { eapply fs_adj_conv; [eapply fs_adj_trans; [eapply fs_adj_trans; [exact Hadj1|]|];
      [apply fs_count_nbfree; lia | apply fs_adj_fmod] | lia | lia]. }
  set (f2 := set_fs_fmod 1 _) in *.
  set (g3 := set_cg_cs (add_nbfree (-1) (cg_cs g2)) g2).
  change (cg_cgx g3) with (cg_cgx g2). rewrite Hcgx. fold f2.
  assert (fs_sb f2 = fs_sb f) as Esb2 by apply Hadj2. rewrite !Esb2, Hsize.
  assert (cg_cs g3 = adj (-1) 0 (cg_cs g)) as Ecs
    by (unfold g3; subst g2; cbn [set_cg_cs cg_cs]; by rewrite add_nbfree_adj).
  assert (cg_blksfree g3 = m1 /\ cg_frsum g3 = cg_frsum g /\ cg_frotor g3 = cg_frotor g /\
    same_rest g g3) as (Em & Efr & Erot & Hrest3) by (unfold g3; subst g2; by repeat split).
  assert (0 < fs_contigsumsize f -> clusters_ok f g3) as Hcl3.
  { intros Hct. eapply clusters_ok_keep; [done | | by apply Hcl | ..]; try done.
    subst g2. apply (cg_ok_ndblk _ _ _ I). }
  assert (forall m2, bitmap (mapbytes f) m2 ->
    (forall j, 0 <= j -> bit m2 j = take (h * fs_frag f) n j (bit (cg_blksfree g) j)) ->
    let v := blk f (cg_blksfree g) h in let v' := blk f m2 h in
    v' = take_frags (full f) 0 n) as Hv.
  { intros m2 _ Hb2. cbv zeta. rewrite <- Hfull. apply blk_take; try done; try lia.
    intros j Hj. rewrite Z.add_0_r. by apply Hb2. }
  destruct (take_frags_full f Hs n Hn) as (V1 & V2 & V3 & V4 & V5).
  pose proof (map_frsum_length _ _ _ _ _ M) as Hfl.
  assert (forall j b, 0 <= j -> j / fs_frag f <> h -> take (h * fs_frag f) n j b = b) as Hin.
  { intros j b0 Hj Hne. unfold take. rewrite (outside_block f h) by (done || lia).
    by rewrite andb_true_r. }
  assert (dtogd f (cgbase f c + h * fs_frag f) = h * fs_frag f) as Edt
    by (apply cgbase_dtog; [done | nia]).
  destruct (Z.eqb_spec n (fs_frag f)) as [->|Hnf]; cbn [negb].
  - exists f2, g3. split; [done|].
    rewrite Z.sub_diag. split; [|done].
    eapply (cg_step_intro f c g h); try done.
    + rewrite Erot. apply (cg_ok_frotor _ _ _ I).
    + by rewrite Em.
    + intros j Hj. rewrite Em. by apply Hb1.
    + rewrite Em, Efr, Hfull. rewrite Hv by done. cbv zeta. split_and!; try done; try lia.
      intros k Hk. destruct (V5 k Hk) as [-> ->]. rewrite Z.sub_diag. ztest. cbn [indicator]. lia.
  - rewrite Edt.
    destruct (foreach_setbit (mapbytes f) (Z.to_nat (fs_frag f - n)) n (h * fs_frag f) m1)
      as [Hm2 Hb2]; [done | nia | nia |].
    rewrite Em. set (m2 := foreach _ _ _ m1) in *.
    assert (forall j, 0 <= j ->
      bit m2 j = take (h * fs_frag f) n j (bit (cg_blksfree g) j)) as Hb.
    { intros j Hj. rewrite Hb2, Hb1 by done. unfold take.
      destruct (bit (cg_blksfree g) j) eqn:Eb; repeat zcase; simpl; try done; try nia.
      exfalso. pose proof (proj1 (blk_full_iff f Hs _ h Hh) Hfull (j - h * fs_frag f)) as B.
      replace (h * fs_frag f + (j - h * fs_frag f)) with j in B by lia.
      rewrite Eb in B. discriminate B. lia. }
    assert (blk f m2 h = take_frags (full f) 0 n) as Hblk by by apply Hv.
    eexists _, _. split; [reflexivity|]. split.
    + eapply (cg_step_intro f c g h); cbn [cg_blksfree cg_frotor cg_cs set_cg_frsum set_cg_cs
        set_cg_blksfree cg_frsum]; try done.
      * rewrite Erot. apply (cg_ok_frotor _ _ _ I).
      * rewrite Ecs, add_nffree_adj, adj_adj. f_equal; lia.
      * rewrite Hfull, Hblk, V1, V2, V3, V4, Efr, zlength_add_at.
        split_and!; try done; try lia.
        intros k Hk. destruct (V5 k Hk) as [-> ->]. rewrite zget_add_at by lia. lia.
      * intros Hct. eapply clusters_ok_keep; [done | | by apply Hcl3 | ..]; try done.
        { destruct Hrest3 as (_ & _ & -> & _). apply (cg_ok_ndblk _ _ _ I). }
        cbn [cg_blksfree set_cg_frsum set_cg_cs set_cg_blksfree]. rewrite Em.
        intros i Hi. destruct (decide (i = h)) as [->|Hne].
        { rewrite Hblk, Hz. ztest. revert V2. unfold isfull, indicator. by case (_ =? _). }
        f_equal. apply blk_ext; [done | lia |]. intros j Hj.
        rewrite Hb, Hb1 by nia. pose proof (frag_split f G i j Hj) as [E1 _].
        rewrite Hin, (outside_block f h) by (done || lia). by rewrite andb_true_r.
    + cbn [cg_cgx set_cg_blksfree set_cg_cs]. rewrite (proj1 (proj2 Hrest3)), (cg_ok_cgx _ _ _ I).
      pose proof (adj_length _ _ _ _ _ Hadj2) as Hlen.
      eapply fs_adj_conv; [eapply fs_adj_trans; [exact Hadj2|]; eapply fs_adj_trans;
        [apply fs_count_nffree; lia | apply fs_adj_fmod] | lia | lia].
Qed.
End blocks.

Section alloccgblk.
Context (f : fs) (G : geom f) (c : Z) (Hc : 0 <= c < zlength (fs_csp f)).
Context (g : cg) (I : cg_ok f c g).

(** The preferred block is a block of the group. *)
Lemma dtogd_blknum d :
  dtogd f (blknum f d) = dtogd f (blknum f d) / fs_frag f * fs_frag f /\
  0 <= dtogd f (blknum f d) < fs_fpg f.
Proof.
  destruct (geom_fpg f G) as [H0 H]. pose proof (frag_pos f G). unfold dtogd.
  rewrite blknum_sub by done. split; [|by apply Z.mod_pos_bound].
  set (q := fs_fpg f / fs_frag f). assert (fs_fpg f = fs_frag f * q) as E by (unfold q; dlia).
  pose proof (Z.div_mod d (fs_frag f)).
  replace (d - d mod fs_frag f) with (fs_frag f * (d / fs_frag f)) by lia.
  rewrite E at 1 2. rewrite Z.mul_mod_distr_l by nia.
  rewrite (Z.mul_comm (fs_frag f) (_ mod _)), Z.div_mul by lia. done.
Qed.

(** A group with a free block yields one, the preferred one when it is
    free. *)
Lemma ffs_alloccgblk_correct {K : Libkern} {KS : LibkernSpec K} bpref n size :
  cs_nbfree (cg_cs g) <> 0 -> 1 <= n <= fs_frag f -> numfrags f size = n ->
  exists h f' g', ffs_alloccgblk f g bpref size = Ok (cgbase f c + h * fs_frag f, f', g') /\
    0 <= h < nblk f /\ blk f (cg_blksfree g) h = full f /\
    cg_step f c g (-1) (fs_frag f - n) (take (h * fs_frag f) n) g' /\
    fs_adj f c (-1) (fs_frag f - n) f' /\
    (let hp := dtogd f (blknum f (alloccgblk_pref f g bpref)) / fs_frag f in
     blk f (cg_blksfree g) hp = full f -> h = hp).
Proof.
  intros Hnb Hn Hsize. pose proof (geom_frag f G) as Hs. pose proof (frag_pos f G) as Hfp.
  pose proof (cg_ok_map _ _ _ I) as M. pose proof (map_bitmap _ _ _ _ _ M) as Hbm.
  unfold ffs_alloccgblk. set (pref := alloccgblk_pref f g bpref).
  destruct (dtogd_blknum pref) as [Eb Hb]. set (bno := dtogd f (blknum f pref)) in *.
  rewrite fragstoblks_div by done. set (hp := bno / fs_frag f) in *.
  assert (0 <= hp) as Hhp by (apply Z.div_pos; lia).
  rewrite (ffs_isblock_blk f Hs _ _ hp Hbm Hhp), bind_Ok. zcase.
  - rewrite Eb. destruct (alloccgblk_gotit_correct f G c Hc g I hp n size) as (f' & g' & -> & Hst & Hadj);
      [done.. |].
    exists hp, f', g'. split_and!; try done. by apply (full_block_in_group f G c g I).
  - destruct (map_ok_full_exists f _ _ _ _ M Hnb) as (h0 & Hh0 & Hf0).
    destruct (ffs_mapsearch_correct f G g Hbm (map_tail _ _ _ _ _ M) (cg_ok_frotor _ _ _ I)
      (fs_frag f) ltac:(lia) pref h0 0 Hh0 ltac:(lia))
      as (h & pos & r & -> & Hh & Hp & Hr & Hrot); [rewrite Hf0; by apply run_at_full|].
    rewrite bind_Ok. assert (pos = 0) as -> by lia. rewrite Z.add_0_r.
    apply run_at_whole in Hr; [|done | apply blk_range; [done | lia] | lia].
    rewrite (proj2 (Z.ltb_ge _ _)) by nia.
    cbn [cg_cgx set_cg_frotor]. rewrite (cg_ok_cgx _ _ _ I).
    set (g1 := if dtogd f _ <=? _ then _ else _).
    assert (cg_step f c g 0 0 keep g1) as H1.
    { pose proof (cg_step_frotor f c g r I Hrot) as H1. unfold g1. zcase; [|done].
      eapply cg_step_conv; [eapply cg_step_trans; [exact H1|]; apply cg_step_rotor, H1 | ..];
        done. }
    assert (cg_blksfree g1 = cg_blksfree g) as E1 by (unfold g1; by zcase).
    destruct (alloccgblk_gotit_correct f G c Hc g1 (step_ok _ _ _ _ _ _ _ H1) h n size) as (f' & g' & -> & Hst & Hadj);
      [lia | by rewrite E1 | done | done |].
    exists h, f', g'. split_and!; try done; try lia.
    eapply cg_step_conv; [eapply cg_step_trans; [exact H1 | exact Hst] | lia | lia | done].
Qed.
End alloccgblk.

(** ** Fragments *)

(** [frsum] after [n] fragments of a run of [a] were taken. *)
Definition frsum_take (fr : list Z) (a n : Z) : list Z :=
  let fr := add_at fr a (-1) in
  if negb (n =? a) then add_at fr (a - n) 1 else fr.

Lemma frsum_take_length fr a n : zlength (frsum_take fr a n) = zlength fr.
Proof. unfold frsum_take. case (n =? a); cbn [negb]; by rewrite ?zlength_add_at. Qed.

Lemma zget_frsum_take fr a n k :
  1 <= n <= a -> a < zlength fr -> 0 <= k ->
  zget (frsum_take fr a n) k =
    zget fr k - indicator (a =? k) + indicator (negb (n =? a) && (a - n =? k)).
Proof.
  intros Hn Ha Hk. unfold frsum_take. zcase; cbn [negb andb].
  - rewrite zget_add_at by lia. simpl. lia.
  - rewrite !zget_add_at by (rewrite ?zlength_add_at; lia). lia.
Qed.

(** A run of [a] free fragments at [pos], between allocated ones. *)
Lemma run_at_intro s v pos a :
  frag_ok s -> 0 <= v <= full s -> 1 <= a <= fs_frag s -> 0 <= pos <= fs_frag s - a ->
  (forall j, pos <= j < pos + a -> Z.testbit v j = true) ->
  (0 < pos -> Z.testbit v (pos - 1) = false) ->
  (pos + a < fs_frag s -> Z.testbit v (pos + a) = false) -> run_at v pos a = true.
Proof.
  intros Hs Hv Ha Hp H1 H2 H3.
  assert (blocks_all (fun f v => ranges (fun a => ranges (fun pos =>
    run_at v pos a || negb (ranges (Z.testbit v) pos (pos + a - 1)) ||
    ((0 <? pos) && Z.testbit v (pos - 1)) ||
    ((pos + a <? f) && Z.testbit v (pos + a))) 0 (f - a)) 1 f) = true) as H by by vm_compute.
  block_at H s v. range_at H a. range_at H pos.
  assert (ranges (Z.testbit v) pos (pos + a - 1) = true) as R.
  { unfold ranges. apply forallb_forall. intros j Hj.
    apply list_elem_of_In, elem_of_seqZ in Hj. apply H1. lia. }
  rewrite R in H. cbn [negb] in H. rewrite orb_false_r in H.
  destruct (run_at v pos a); [done|]. simpl in H. apply orb_prop in H as [H|H];
    apply andb_prop in H as [L T]; apply Z.ltb_lt in L;
    [rewrite H2 in T by done | rewrite H3 in T by done]; discriminate.
Qed.

Section frags.
Context (f : superblock) (G : geom f) (c : Z) (g : cg) (I : cg_ok f c g).

(** Taking the first [n] fragments of a run of [a]. *)
Lemma take_frags_step h pos a n m' g' :
  0 <= h < nblk f -> 1 <= n <= a -> a < fs_frag f -> 0 <= pos <= fs_frag f - a ->
  run_at (blk f (cg_blksfree g) h) pos a = true -> bitmap (mapbytes f) m' ->
  (forall j, 0 <= j ->
    bit m' j = take (h * fs_frag f + pos) n j (bit (cg_blksfree g) j)) ->
  g' = set_cg_frsum (frsum_take (cg_frsum g) a n)
         (set_cg_cs (add_nffree (- n) (cg_cs g)) (set_cg_blksfree m' g)) ->
  cg_step f c g 0 (- n) (take (h * fs_frag f + pos) n) g'.
Proof.
  intros Hh Hn Ha Hp Hr Hm' Hb ->. pose proof (geom_frag f G) as Hs.
  pose proof (frag_pos f G) as Hfp. pose proof (cg_ok_map _ _ _ I) as M.
  pose proof (map_frsum_length _ _ _ _ _ M) as Hfl.
  assert (blk f m' h = take_frags (blk f (cg_blksfree g) h) pos n) as Hblk
    by (apply blk_take; done || lia).
  destruct (take_frags_run f Hs (blk f (cg_blksfree g) h) pos a n) as (V1 & V2 & V3 & V4);
    [apply blk_range; done || lia | lia | lia | done | lia |].
  assert (forall j, 0 <= j -> j / fs_frag f <> h ->
    (h * fs_frag f + pos <=? j) && (j <? h * fs_frag f + pos + n) = false) as Hout.
  { intros j Hj Hne. apply (outside_block f h); done || lia. }
  eapply (cg_step_intro f c g h);
    cbn [cg_blksfree cg_frotor cg_cs set_cg_frsum set_cg_cs set_cg_blksfree cg_frsum];
    try done.
  - apply (cg_ok_frotor _ _ _ I).
  - apply add_nffree_adj.
  - intros j b Hj Hne. unfold take. rewrite Hout by done. by rewrite andb_true_r.
  - rewrite Hblk, V1, V2, V3, frsum_take_length. split_and!; try lia.
    intros k Hk. rewrite V4, zget_frsum_take by lia. lia.
  - intros Hct. eapply clusters_ok_keep; [done | | by apply (cg_ok_clusters _ _ _ I) | ..]; try done.
    + apply (cg_ok_ndblk _ _ _ I).
    + cbn [cg_blksfree set_cg_frsum set_cg_cs set_cg_blksfree].
      intros i Hi. destruct (decide (i = h)) as [->|Hne].
      { rewrite Hblk. revert V1 V2. unfold isfull, indicator.
        case (_ =? _); case (_ =? _); done. }
      f_equal. apply blk_ext; [done | lia |]. intros j Hj. rewrite Hb by nia. unfold take.
      rewrite Hout; [by rewrite andb_true_r | nia |]. by rewrite (proj1 (frag_split f G i j Hj)).
Qed.
End frags.
