(* ===== verification/FfsState.v ===== *)
(** Allocation and release on the whole file system: [ffs_alloccg],
    [ffs_fragextend] and [ffs_blkfree_cg] against the abstract state, the set
    of free fragments. *)

From S2P Require Import Prelude Bitmap Fs FfsSubr FfsAlloc FfsMap FfsInv FfsBlocks.

(** ** Specifications *)

Definition in_fs (f : superblock) (d : Z) : Prop := 0 <= d < fs_ncg f * fs_fpg f.

Definition in_range (d r n : Z) : bool := (r <=? d) && (d <? r + n).

(** A valid request: [n] fragments, as a size in bytes. *)
Definition frag_size (f : superblock) (n size : Z) : Prop :=
  1 <= n <= fs_frag f /\ size = n * fs_fsize f.

(** The policy is one of the two. *)
Definition optim_ok (f : fs) : Prop := fs_optim f = FS_OPTSPACE \/ fs_optim f = FS_OPTTIME.

(** Nothing was allocated. *)
Definition alloc_none (st st' : ffs_state) : Prop :=
  state_ok st' /\ fs_sb (st_fs st') = fs_sb (st_fs st) /\
  (forall d, in_fs (st_fs st) d -> isfree st' d = isfree st d) /\
  (forall i, 0 <= i < fs_ncg (st_fs st) -> fs_cs (st_fs st') i = fs_cs (st_fs st) i) /\
  (forall i, 0 <= i < fs_ncg (st_fs st) -> same_rest (get_cg st i) (get_cg st' i)) /\
  (optim_ok (st_fs st) -> optim_ok (st_fs st')).

Lemma alloc_none_trans st1 st2 st3 :
  alloc_none st1 st2 -> alloc_none st2 st3 -> alloc_none st1 st3.
Proof.
  intros (A1 & A2 & A3 & A4 & A5 & A6) (B1 & B2 & B3 & B4 & B5 & B6). unfold alloc_none, in_fs in *.
  rewrite A2 in B3, B4, B5. split_and!; [done | congruence | | | | auto].
  - intros d Hd. by rewrite B3, A3.
  - intros i Hi. by rewrite B4, A4.
  - intros i Hi. by eapply same_rest_trans; [apply A5 | apply B5].
Qed.

(** The [n] fragments from [r] on were free and are taken; nothing else
    changed. *)
Record alloc_some (st : ffs_state) (r n : Z) (st' : ffs_state) : Prop := {
  alloc_ok : state_ok st';
  alloc_sb : fs_sb (st_fs st') = fs_sb (st_fs st);
  alloc_pos : 0 < r;
  alloc_in : r + n <= fs_ncg (st_fs st) * fs_fpg (st_fs st);
  alloc_block : r mod fs_frag (st_fs st) + n <= fs_frag (st_fs st);
  alloc_was_free : forall d, in_range d r n = true -> isfree st d = true;
  alloc_free : forall d, in_fs (st_fs st) d ->
    isfree st' d = isfree st d && negb (in_range d r n);
  alloc_rest : forall i, 0 <= i < fs_ncg (st_fs st) ->
    same_rest (get_cg st i) (get_cg st' i)
}.

Lemma numfrags_frag_size f n size : geom f -> frag_size f n size -> numfrags f size = n.
Proof.
  intros G [Hn ->]. rewrite numfrags_div by done. pose proof (fsize_pos f G).
  by rewrite Z.div_mul by lia.
Qed.

Lemma frag_size_bsize f n size :
  geom f -> frag_size f n size -> (size =? fs_bsize f) = (n =? fs_frag f).
Proof.
  intros G [Hn ->]. rewrite (geom_bsize f G). pose proof (fsize_pos f G).
  repeat zcase; try done; nia.
Qed.

(** ** From groups to the file system *)

Section state.
Context (st : ffs_state) (S : state_ok st) (c : Z) (Hc : 0 <= c < fs_ncg (st_fs st)).
Abbreviation f := (st_fs st).
Abbreviation g := (get_cg st c).

Lemma state_c_csp : 0 <= c < zlength (fs_csp f).
Proof. rewrite (st_ncsp _ S). done. Qed.

Lemma alloc_none_refl : alloc_none st st.
Proof. by split_and!. Qed.

Lemma alloc_none_put g' f' :
  cg_step f c g 0 0 keep g' -> fs_adj f c 0 0 f' -> alloc_none st (put f' c g' st).
Proof.
  intros H1 H2. destruct (state_ok_put st c g' 0 0 keep f' S Hc H1 H2) as (A & B & C); [done|].
  split_and!; [done | done | | | |].
  - intros d Hd. rewrite C by done. by case (_ =? _).
  - intros i Hi. cbn [st_fs put]. rewrite (adj_cs _ _ _ _ _ H2), adj_0 by (rewrite (st_ncsp _ S); done).
    zcase; [by subst | done].
  - intros i Hi. eapply same_rest_put; try done. rewrite (st_ncgs _ S); lia. lia.
  - unfold optim_ok. cbn [st_fs put]. by rewrite (adj_optim _ _ _ _ _ H2).
Qed.

(** Addresses of a group, as seen from the abstract state. *)
Lemma in_range_group j n d :
  0 <= j -> j + n <= fs_fpg f -> in_range d (cgbase f c + j) n = true ->
  dtog f d = c /\ in_range (dtogd f d) j n = true.
Proof.
  unfold in_range. intros Hj Hn H. bool_to_prop.
  destruct (cgbase_dtog f c (d - cgbase f c) (st_geom _ S)) as [E1 E2]; [lia|].
  replace (cgbase f c + (d - cgbase f c)) with d in * by lia.
  rewrite E2. split; [done|]. by ztest.
Qed.

Lemma range_in_group j n d :
  (dtog f d =? c) && in_range (dtogd f d) j n =
    (dtog f d =? c) && in_range d (cgbase f c + j) n.
Proof.
  destruct (Z.eqb_spec (dtog f d) c) as [E|]; [simpl|done].
  unfold dtog, dtogd, cgbase, in_range in *. destruct (geom_fpg _ (st_geom _ S)).
  pose proof (Z.div_mod d (fs_fpg f)). rewrite E in *. f_equal; repeat zcase; done || lia.
Qed.

Lemma isfree_in_group j :
  0 <= j < fs_fpg f -> isfree st (cgbase f c + j) = bit (cg_blksfree g) j.
Proof.
  intros Hj. unfold isfree.
  by destruct (cgbase_dtog f c j (st_geom _ S) Hj) as [-> ->].
Qed.

Lemma cgbase_range j n : 0 <= j -> j + n <= fs_fpg f ->
  0 <= cgbase f c /\ cgbase f c + j + n <= fs_ncg f * fs_fpg f.
Proof. intros Hj Hn. destruct (geom_fpg _ (st_geom _ S)). unfold cgbase. nia. Qed.

Lemma alloc_some_put h pos n db df g' f' :
  0 <= h < nblk f -> 0 <= pos -> 1 <= n -> pos + n <= fs_frag f ->
  cg_step f c g db df (take (h * fs_frag f + pos) n) g' -> fs_adj f c db df f' ->
  (forall j, pos <= j < pos + n -> bit (cg_blksfree g) (h * fs_frag f + j) = true) ->
  alloc_some st (cgbase f c + (h * fs_frag f + pos)) n (put (ACTIVECLEAR f' c) c g' st).
Proof.
  intros Hh Hp Hn1 Hn H1 H2 Hfree. pose proof (st_geom _ S) as G. pose proof (frag_pos _ G).
  destruct (nblk_fpg _ G) as [HN _].
  assert (fs_adj f c db df (ACTIVECLEAR f' c)) as H3.
  { eapply fs_adj_conv; [eapply fs_adj_trans; [exact H2 | apply fs_adj_active] | lia | lia]. }
  destruct (state_ok_put st c g' db df _ _ S Hc H1 H3) as (A & B & C); [done|].
  set (j0 := h * fs_frag f + pos) in *. assert (0 <= j0 /\ j0 + n <= fs_fpg f) as [Hj0 Hjn]
    by (unfold j0; nia).
  destruct (cgbase_range j0 n Hj0 Hjn) as [Hb1 Hb2].
  assert (forall d, in_range d (cgbase f c + j0) n = true -> isfree st d = true) as Hwas.
  { intros d Hd. destruct (in_range_group j0 n d Hj0 Hjn Hd) as [E1 E2].
    unfold isfree. rewrite E1. unfold in_range in E2. bool_to_prop.
    replace (dtogd f d) with (h * fs_frag f + (dtogd f d - h * fs_frag f)) by lia.
    apply Hfree. unfold j0 in *. lia. }
  split; try done.
  - (* the boot block is not free *)
    destruct (Z.lt_ge_cases 0 (cgbase f c + j0)) as [|Hle]; [done|exfalso].
    assert (cgbase f c = 0 /\ j0 = 0) as [E1 E2] by lia.
    assert (isfree st (cgbase f c + j0) = true) as Hf
      by (apply Hwas; unfold in_range; by ztest).
    rewrite isfree_in_group in Hf by lia. unfold cgbase in E1.
    destruct (geom_fpg _ G). assert (c = 0) as E3 by nia.
    rewrite E2, E3, (st_boot _ S) in Hf. discriminate.
  - unfold cgbase. destruct (frag_split f G (nblk f * c + h) pos) as [_ E]; [lia|].
    replace (fs_fpg f * c + j0) with ((nblk f * c + h) * fs_frag f + pos)
      by (unfold j0; rewrite <- HN; ring). by rewrite E.
  - intros d Hd. rewrite C by done. pose proof (range_in_group j0 n d) as R.
    unfold take, in_range in *. destruct (Z.eqb_spec (dtog f d) c) as [E|E]; simpl in *.
    + by rewrite R.
    + destruct (in_range d (cgbase f c + j0) n) eqn:E2.
      * by destruct (in_range_group j0 n d Hj0 Hjn E2).
      * unfold in_range in E2. by rewrite E2, andb_true_r.
  - intros i Hi. eapply same_rest_put; try done; rewrite ?(st_ncgs _ S); lia.
Qed.
End state.

(** ** ffs_alloccg *)

Section alloc_ops.
Context {K : Libkern} {KS : LibkernSpec K}.
Context (bread_error : Z -> bool) (time_second : Z).
Context (st : ffs_state) (S : state_ok st) (c : Z) (Hc : 0 <= c < fs_ncg (st_fs st)).
Abbreviation f := (st_fs st).
Abbreviation g := (get_cg st c).

Lemma touched_ok : cg_step f c g 0 0 keep (touch time_second g).
Proof. apply cg_step_touch, (st_cg _ S c Hc). Qed.

(** The whole-block paths: a free block is split for [n] fragments. *)
Lemma alloccgblk_post bpref n rsize :
  frag_size f n rsize -> cs_nbfree (cg_cs g) <> 0 ->
  exists r f' g',
    ffs_alloccgblk f (touch time_second g) bpref rsize = Ok (r, f', g') /\
    alloc_some st r n (put (ACTIVECLEAR f' c) c g' st) /\ dtog f r = c.
Proof.
  intros Hsz Hnb. pose proof (st_geom _ S) as G. pose proof touched_ok as T.
  pose proof (frag_pos f G). destruct (nblk_fpg f G) as [HN _].
  destruct (ffs_alloccgblk_correct f G c (state_c_csp st S c Hc) _ (step_ok _ _ _ _ _ _ _ T)
    bpref n rsize) as (h & f' & g' & E & Hh & Hfull & Hst & Hadj & _);
    [done | apply Hsz | by apply numfrags_frag_size |].
  exists (cgbase f c + h * fs_frag f), f', g'. split; [done|]. destruct Hsz as [Hn _].
  pose proof (proj1 (blk_full_iff f (geom_frag f G) _ h (proj1 Hh)) Hfull) as Hbits.
  split; [|apply cgbase_dtog; [done | nia]].
  rewrite <- (Z.add_0_r (h * fs_frag f)).
  apply alloc_some_put with (db := -1) (df := fs_frag f - n); try done; try lia.
  - eapply cg_step_conv; [eapply cg_step_trans; [exact T | exact Hst] | lia | lia |].
    intros j _. by rewrite Z.add_0_r.
  - intros j Hj. apply Hbits. lia.
Qed.

(** The fragment path: [n] fragments of a run of [a]. *)
Lemma alloccg_frags_post h pos r a n :
  0 <= h < nblk f -> 1 <= n <= a -> a < fs_frag f -> 0 <= pos <= fs_frag f - a ->
  run_at (blk f (cg_blksfree g) h) pos a = true -> 0 <= r / 8 < mapbytes f ->
  let m' := foreach (Z.to_nat n) 0 (fun i m => clrbit m (h * fs_frag f + pos + i))
              (cg_blksfree g) in
  let g1 := set_cg_frotor r (touch time_second g) in
  let g' := set_cg_frsum (frsum_take (cg_frsum g1) a n)
              (set_cg_cs (add_nffree (- n) (cg_cs g1)) (set_cg_blksfree m' g1)) in
  alloc_some st (cgbase f c + (h * fs_frag f + pos)) n
    (put (ACTIVECLEAR (set_fs_fmod 1 (fs_count (add_nffree (- n)) c f)) c) c g' st).
Proof.
  intros Hh Hn Ha Hp Hr Hrot m' g1 g'. pose proof (st_geom _ S) as G.
  pose proof (frag_pos f G). destruct (nblk_fpg f G) as [HN _]. pose proof (mapbytes_fpg f).
  pose proof touched_ok as T. pose proof (cg_ok_map _ _ _ (st_cg _ S c Hc)) as M.
  pose proof (cg_step_frotor f c _ r (step_ok _ _ _ _ _ _ _ T) Hrot) as T1.
  destruct (foreach_clrbit (mapbytes f) (Z.to_nat n) 0 (h * fs_frag f + pos) (cg_blksfree g))
    as [Hm' Hb]; [apply M | nia | nia |]. fold m' in Hm', Hb.
  apply alloc_some_put with (db := 0) (df := - n); try done; try lia.
  - eapply cg_step_conv; [eapply cg_step_trans; [eapply cg_step_trans; [exact T | exact T1]|] | ..].
    + apply (take_frags_step f G c g1 (step_ok _ _ _ _ _ _ _ T1) h pos a n m'); try done.
      intros j Hj. rewrite Hb by done. unfold take. cbn [cg_blksfree g1 set_cg_frotor touch
        set_cg_old_time set_cg_time]. repeat zcase; done || lia.
    + lia.
    + lia.
    + done.
  - eapply fs_adj_conv; [eapply fs_adj_trans;
      [apply fs_count_nffree, (state_c_csp st S c Hc) | apply fs_adj_fmod] | lia | lia].
  - intros j Hj. pose proof (run_at_bits f (geom_frag f G) _ pos a j
      (blk_range f (geom_frag f G) (cg_blksfree g) h (proj1 Hh)) ltac:(lia) Hp Hr ltac:(lia)) as B.
    rewrite blk_testbit in B by (lia || apply G). by apply andb_prop in B as [B _].
Qed.

(** [ffs_alloccg] either fails and changes nothing, or allocates; with a
    readable group that has a free block it does not fail. *)
Lemma alloccg_post bpref n size rsize :
  frag_size f n rsize -> (size = rsize \/ size = fs_bsize f) ->
  exists r st', ffs_alloccg bread_error time_second st c bpref size rsize = Ok (r, st') /\
    (r = 0 /\ alloc_none st st' /\ (cs_nbfree (fs_cs f c) = 0 \/ bread_error c = true)
     \/ alloc_some st r n st' /\ dtog f r = c).
Proof.
  intros Hsz Hsize. pose proof (st_geom _ S) as G. pose proof (st_cg _ S c Hc) as I.
  pose proof touched_ok as T. unfold ffs_alloccg. rewrite (st_cs _ S c Hc).
  set (zero := cs_nbfree (cg_cs g) =? 0).
  destruct (zero && (size =? fs_bsize f)) eqn:E1.
  { apply andb_prop in E1 as [Hz _]. apply Z.eqb_eq in Hz. exists 0, st.
    split; [done|]. left. auto using alloc_none_refl. }
  destruct (bread_error c); [exists 0, st; split; [done|]; left; auto using alloc_none_refl|].
  rewrite (cg_ok_magic _ _ _ I). cbn [negb orb].
  destruct (Z.eqb_spec size (fs_bsize f)) as [Hb|Hb].
  { rewrite andb_true_r in E1. apply Z.eqb_neq in E1.
    destruct (alloccgblk_post bpref n rsize Hsz E1) as (r & f' & g' & -> & A & D).
    eexists _, _. split; [reflexivity|]. by right. }
  assert (size = rsize) as -> by (by destruct Hsize).
  rewrite (numfrags_frag_size f n rsize G Hsz), Z.eqb_refl. destruct Hsz as [Hn Hrs].
  change (cs_nbfree (cg_cs (touch time_second g)) =? 0) with zero.
  change (cg_frsum (touch time_second g)) with (cg_frsum g).
  set (p := fun a => negb (zget (cg_frsum g) a =? 0)).
  pose proof (search_spec (Z.to_nat (fs_frag f - n)) n p) as (Ha1 & _ & Ha2).
  set (a := search _ n p) in *. destruct (Z.eqb_spec a (fs_frag f)) as [Ea|Ea].
  - destruct zero eqn:Ez.
    + eexists 0, _. split; [reflexivity|]. left. split; [done|]. apply Z.eqb_eq in Ez.
      split; [|by left]. apply alloc_none_put; [done | done | apply T | by apply fs_adj_id].
    + apply Z.eqb_neq in Ez.
      destruct (alloccgblk_post bpref n rsize) as (r & f' & g' & -> & A & D); [done | done |].
      eexists _, _. split; [reflexivity|]. by right.
  - cbn [require]. rewrite bind_Ok. pose proof (cg_ok_map _ _ _ I) as M.
    specialize (Ha2 ltac:(lia)). unfold p in Ha2. bool_to_prop.
    destruct (map_ok_run_exists f _ _ _ _ M a ltac:(lia) Ha2) as (h0 & Hh0 & Hr0).
    destruct (frag_runs_at f (geom_frag f G) _ a (blk_range f (geom_frag f G) _ h0 (proj1 Hh0))
      ltac:(lia) Hr0) as (pos0 & Hp0 & Hr).
    destruct (ffs_mapsearch_correct f G (touch time_second g) (map_bitmap _ _ _ _ _ M)
      (map_tail _ _ _ _ _ M) (cg_ok_frotor _ _ _ I) a ltac:(lia) bpref h0 pos0 Hh0 Hp0 Hr)
      as (h & pos & r & -> & Hh & Hp & Hr' & Hrot).
    rewrite bind_Ok. rewrite (proj2 (Z.ltb_ge _ _)) by nia.
    eexists _, _. split; [reflexivity|]. right.
    pose proof (alloccg_frags_post h pos r a n Hh ltac:(lia) ltac:(lia) Hp Hr' Hrot) as A.
    cbv zeta in A. split; [|apply cgbase_dtog; [done|]; apply (block_pos_range f G h pos a); [done | done | lia]].
    unfold frsum_take in A. change (cgbase (set_fs_fmod _ _)) with (cgbase f).
    cbv zeta in A. case (n =? a) eqn:En in A |- *; cbn [negb] in A |- *; exact A.
Qed.

(** *** ffs_fragextend *)

Lemma group_addr d : dtog f d = c -> cgbase f c + dtogd f d = d.
Proof.
  pose proof (geom_fpg _ (st_geom _ S)). unfold dtog, dtogd, cgbase. intros <-.
  pose proof (Z.div_mod d (fs_fpg f)). lia.
Qed.

Lemma fragnum_dtogd d : fragnum f d = dtogd f d mod fs_frag f.
Proof.
  pose proof (st_geom _ S) as G. destruct (geom_fpg _ G) as [H0 H]. pose proof (frag_pos _ G).
  rewrite fragnum_mod by done. unfold dtogd. symmetry. apply Z.mod_mod_divide.
  apply Z.mod_divide; [lia | done].
Qed.

(** Block and position in its group of a fragment address, and whether [n]
    fragments from there stay in the block. *)
Lemma owned_position d n :
  0 <= d -> d mod fs_frag f <= (d + n - 1) mod fs_frag f ->
  exists h pos, dtogd f d = h * fs_frag f + pos /\ pos = d mod fs_frag f /\
    0 <= pos < fs_frag f /\ (1 <= n <= fs_frag f -> pos + n <= fs_frag f).
Proof.
  pose proof (st_geom _ S) as G. pose proof (frag_pos f G). intros Hd Hle.
  exists (dtogd f d / fs_frag f), (d mod fs_frag f).
  split_and!; try (apply Z.mod_pos_bound; lia); try done.
  - rewrite <- (fragnum_mod f G d), fragnum_dtogd. symmetry. by apply frag_join.
  - intros Hn. pose proof (Z.mod_pos_bound d (fs_frag f)).
    destruct (Z.le_gt_cases (d mod fs_frag f + n) (fs_frag f)) as [|Hgt]; [done|exfalso].
    enough ((d + n - 1) mod fs_frag f = d mod fs_frag f + n - 1 - fs_frag f) by lia.
    symmetry. apply (Z.mod_unique _ _ (d / fs_frag f + 1)); [lia|].
    pose proof (Z.div_mod d (fs_frag f)). lia.
Qed.

(** The extension in place: the fragments [o .. n - 1] after the [o] owned
    ones are the start of a run that ends at [i]. *)
Lemma fragextend_frags h pos o n i m' g' :
  0 <= h < nblk f -> 0 <= pos -> 1 <= o < n -> n <= i -> pos + i <= fs_frag f ->
  bit (cg_blksfree g) (h * fs_frag f + pos + (o - 1)) = false ->
  (forall j, o <= j < i -> bit (cg_blksfree g) (h * fs_frag f + pos + j) = true) ->
  (pos + i < fs_frag f -> bit (cg_blksfree g) (h * fs_frag f + pos + i) = false) ->
  m' = foreach (Z.to_nat (n - o)) o (fun i m => clrbit m (h * fs_frag f + pos + i))
         (cg_blksfree g) ->
  g' = set_cg_frsum (frsum_take (cg_frsum g) (i - o) (n - o))
         (set_cg_cs (add_nffree (- (n - o)) (cg_cs g))
           (set_cg_blksfree m' (touch time_second g))) ->
  alloc_some st (cgbase f c + (h * fs_frag f + (pos + o))) (n - o)
    (put (ACTIVECLEAR (set_fs_fmod 1 (fs_count (add_nffree (- (n - o))) c f)) c) c g' st).
Proof.
  intros Hh Hp Ho Hi Hend Hb1 Hb2 Hb3 -> ->. pose proof (st_geom _ S) as G.
  pose proof (geom_frag f G) as Hs. pose proof (frag_pos f G). pose proof (mapbytes_fpg f).
  destruct (nblk_fpg f G) as [HN _]. pose proof touched_ok as T.
  pose proof (cg_ok_map _ _ _ (st_cg _ S c Hc)) as M.
  destruct (foreach_clrbit (mapbytes f) (Z.to_nat (n - o)) o (h * fs_frag f + pos)
    (cg_blksfree g)) as [Hm' Hb]; [apply M | nia | nia |].
  assert (run_at (blk f (cg_blksfree g) h) (pos + o) (i - o) = true) as Hr.
  { assert (forall j, pos <= j < fs_frag f -> Z.testbit (blk f (cg_blksfree g) h) j =
      bit (cg_blksfree g) (h * fs_frag f + pos + (j - pos))) as Hbit.
    { intros j Hj. rewrite blk_testbit by (done || lia). ztest. rewrite andb_true_r.
      f_equal. lia. }
    apply (run_at_intro f); try done; try lia.
    - apply blk_range; done || lia.
    - intros j Hj. rewrite Hbit by lia. apply Hb2. lia.
    - intros _. rewrite Hbit by lia. rewrite <- Hb1. f_equal. lia.
    - intros Hlt. rewrite Hbit by lia. rewrite <- Hb3 by lia. f_equal. lia. }
  apply alloc_some_put with (db := 0) (df := - (n - o)); try done; try lia.
  - eapply cg_step_conv; [eapply cg_step_trans; [exact T|]; eapply (take_frags_step f G c
      (touch time_second g) (step_ok _ _ _ _ _ _ _ T) h (pos + o) (i - o)); cycle 6;
      [| reflexivity | done | lia | lia | lia | exact Hr | exact Hm'] | lia | lia | done].
    intros j Hj. rewrite Hb by done. unfold take. cbn [cg_blksfree touch
      set_cg_old_time set_cg_time]. repeat zcase; done || lia.
  - eapply fs_adj_conv; [eapply fs_adj_trans;
      [apply fs_count_nffree, (state_c_csp st S c Hc) | apply fs_adj_fmod] | lia | lia].
  - intros j Hj. rewrite <- (Hb2 (j - pos)) by lia. f_equal. lia.
Qed.

Lemma fragextend_post bprev o n osize nsize :
  frag_size f o osize -> frag_size f n nsize -> o < n ->
  0 <= bprev -> dtog f bprev = c -> bprev mod fs_frag f + o <= fs_frag f ->
  (forall i, 0 <= i < o -> isfree st (bprev + i) = false) ->
  exists r st', ffs_fragextend bread_error time_second st c bprev osize nsize = Ok (r, st') /\
    (r = 0 /\ alloc_none st st' \/
     r = bprev /\ alloc_some st (bprev + o) (n - o) st').
Proof.
  intros Ho Hn Hon Hb0 Hdt Hblk Howned. pose proof (st_geom _ S) as G.
  pose proof (st_cg _ S c Hc) as I. pose proof touched_ok as T.
  pose proof (frag_pos f G) as Hfp. unfold ffs_fragextend.
  assert (exists r st', Ok (0, st) = Ok (r, st') /\ (r = 0 /\ alloc_none st st' \/
     r = bprev /\ alloc_some st (bprev + o) (n - o) st')) as Hnone
    by (eexists 0, st; split; [done|]; left; auto using alloc_none_refl).
  destruct (cs_nffree (fs_cs f c) <? numfrags f (nsize - osize)); [done|].
  rewrite (numfrags_frag_size f n), (numfrags_frag_size f o) by done.
  destruct (fragnum f (bprev + n - 1) <? fragnum f bprev) eqn:Ecross; [done|].
  destruct (bread_error c); [done|]. clear Hnone.
  rewrite (cg_ok_magic _ _ _ I). cbn [negb].
  change (cg_blksfree (touch time_second g)) with (cg_blksfree g).
  change (cg_frsum (touch time_second g)) with (cg_frsum g).
  destruct (owned_position bprev n Hb0) as (h & pos & Edt & Epos & Hp & Hcross).
  { apply Z.ltb_ge in Ecross. by rewrite !fragnum_mod in Ecross by done. }
  rewrite <- Epos in Hblk. rewrite (fragnum_mod f G bprev), <- Epos, Edt.
  assert (0 <= h < nblk f) as Hh.
  { destruct (nblk_fpg f G) as [HN _]. destruct (geom_fpg f G) as [H0 _].
    pose proof (Z.mod_pos_bound bprev (fs_fpg f) H0). unfold dtogd in Edt. nia. }
  assert (forall j, 0 <= j -> pos + j < fs_frag f ->
    isfree st (bprev + j) = bit (cg_blksfree g) (h * fs_frag f + pos + j)) as Hfree.
  { intros j Hj0 Hj. rewrite <- (group_addr bprev Hdt), Edt, <- Z.add_assoc.
    apply isfree_in_group; [done|]. destruct (nblk_fpg f G) as [HN _]. nia. }
  set (p := fun i => isclr (cg_blksfree g) (h * fs_frag f + pos + i)).
  assert (forall i, 0 <= i -> p i = negb (bit (cg_blksfree g) (h * fs_frag f + pos + i))) as Ep
    by (intros; unfold p; apply isclr_bit; nia).
  pose proof (search_spec (Z.to_nat (n - o)) o p) as (A1 & A2 & A3).
  set (i1 := search (Z.to_nat (n - o)) o p) in *. destruct Ho as [Ho _], Hn as [Hn _].
  destruct (Z.ltb_spec i1 n) as [Hi1|Hi1].
  { eexists 0, _. split; [reflexivity|]. left. split; [done|].
    apply alloc_none_put; [done | done | apply T | by apply fs_adj_id]. }
  pose proof (search_spec (Z.to_nat (fs_frag f - pos - n)) n p) as (B1 & B2 & B3).
  set (i2 := search (Z.to_nat (fs_frag f - pos - n)) n p) in *.
  eexists bprev, _. split; [reflexivity|]. right. split; [done|].
  rewrite <- (group_addr bprev Hdt) at 1. rewrite Edt.
  replace (cgbase f c + (h * fs_frag f + pos) + o)
    with (cgbase f c + (h * fs_frag f + (pos + o))) by lia.
  rewrite Z.max_r by lia.
  eapply fragextend_frags with (i := i2); try done; try lia.
  - rewrite <- Hfree by lia. apply Howned. lia.
  - intros j Hj. assert (p j = false) as Hpj
      by (destruct (Z.lt_ge_cases j n); [apply A2 | apply B2]; lia).
    rewrite Ep in Hpj by lia. by apply negb_false_iff in Hpj.
  - intros Hlt. specialize (B3 ltac:(lia)). rewrite Ep in B3 by lia.
    by apply negb_true_iff in B3.
  - unfold frsum_take. replace (i2 - o - (n - o)) with (i2 - n) by lia.
    replace (n - o =? i2 - o) with (i2 =? n) by (repeat zcase; done || lia).
    by case (i2 =? n).
Qed.
End alloc_ops.
