(* ===== verification/FfsFree.v ===== *)
(** [ffs_blkfree_cg]: releasing a block or some fragments of one. *)

From S2P Require Import Prelude Bitmap Fs FfsSubr FfsAlloc FfsMap FfsInv FfsBlocks FfsState.

(** ** Bits *)

(** The loop of [free_frags] sets the bits, when they are all clear. *)
Lemma free_frags_ok nb n base i m :
  bitmap nb m -> 0 <= base + i -> base + i + Z.of_nat n <= 8 * nb ->
  (forall j, i <= j < i + Z.of_nat n -> bit m (base + j) = false) ->
  free_frags n base i m = Ok (foreach n i (fun i m => setbit m (base + i)) m).
Proof.
  revert i m. induction n as [|n IH]; intros i m Hm Hi Hn Hb; cbn [free_frags foreach]; [done|].
  rewrite isset_bit by (done || lia). rewrite Hb by lia.
  assert (zlength m = nb) as Hl by apply Hm.
  apply IH; [by apply setbit_bitmap | lia | lia |].
  intros j Hj. rewrite bit_setbit by lia. rewrite Hb by lia. by ztest.
Qed.

(** It panics at a free one. *)
Lemma free_frags_panic nb n base i m j :
  bitmap nb m -> 0 <= base + i -> base + i + Z.of_nat n <= 8 * nb ->
  i <= j < i + Z.of_nat n -> bit m (base + j) = true ->
  exists msg, free_frags n base i m = Panic msg.
Proof.
  revert i m. induction n as [|n IH]; intros i m Hm Hi Hn Hj Hb; cbn [free_frags]; [lia|].
  rewrite isset_bit by (done || lia). destruct (bit m (base + i)) eqn:E; [by eexists|].
  assert (zlength m = nb) as Hl by apply Hm.
  assert (j <> i) by (intros ->; congruence).
  apply IH; [by apply setbit_bitmap | lia | lia | lia |].
  rewrite bit_setbit by lia. rewrite Hb. apply orb_true_r.
Qed.

(** The block value with [n] fragments from [pos] on freed. *)
Definition give_frags (v pos n : Z) : Z := Z.lor v (Z.shiftl (Z.ones n) pos).

Lemma blk_give s m m' h pos n :
  geom s -> 0 <= h -> 0 <= pos -> 0 <= n -> pos + n <= fs_frag s ->
  (forall j, 0 <= j -> bit m' j = give (h * fs_frag s + pos) n j (bit m j)) ->
  blk s m' h = give_frags (blk s m h) pos n.
Proof.
  intros G Hh Hp Hn0 Hn Hb. pose proof (geom_frag s G) as Hs. pose proof (frag_pos s G).
  apply Z.bits_inj'. intros j Hj. unfold give_frags.
  rewrite Z.lor_spec, !blk_testbit, Z.shiftl_spec, testbit_ones by (done || lia).
  destruct (Z.ltb_spec j (fs_frag s)).
  - rewrite Hb by nia. unfold give.
    repeat zcase; simpl; rewrite ?orb_true_r, ?orb_false_r, ?andb_true_r; done || lia.
  - rewrite !andb_false_r. ztest. by rewrite andb_false_r.
Qed.

(** Freeing [n] taken fragments of a block. *)
Lemma give_frags_counts s v pos n :
  frag_ok s -> 0 <= v <= full s -> 1 <= n <= fs_frag s -> 0 <= pos <= fs_frag s - n ->
  (forall j, pos <= j < pos + n -> Z.testbit v j = false) ->
  let v' := give_frags v pos n in
  isfull s v = 0 /\ 0 <= v' <= full s /\
  free_frags_of s v' = free_frags_of s v + n - fs_frag s * isfull s v'.
Proof.
  intros Hs Hv Hn Hp Hb.
  assert (blocks_all (fun f v => ranges (fun n => ranges (fun pos =>
    let v' := give_frags v pos n in
    negb (ranges (fun j => negb (Z.testbit v j)) pos (pos + n - 1)) ||
    (negb (v =? Z.ones f) && (v' <=? Z.ones f) &&
     ((if v' =? Z.ones f then 0 else frag_free f v') =?
        frag_free f v + n - f * indicator (v' =? Z.ones f)))) 0 (f - n)) 1 f) = true) as H
    by by vm_compute.
  block_at H s v. range_at H n. range_at H pos.
  assert (ranges (fun j => negb (Z.testbit v j)) pos (pos + n - 1) = true) as R.
  { unfold ranges. apply forallb_forall. intros j Hj.
    apply list_elem_of_In, elem_of_seqZ in Hj. rewrite Hb by lia. done. }
  rewrite R in H. cbn [negb orb] in H. bool_to_prop. fold (full s) in *.
  unfold isfull, free_frags_of. rewrite (proj2 (Z.eqb_neq v (full s))) by done.
  split; [done|]. split; [|done]. split; [|done].
  unfold give_frags. apply Z.lor_nonneg. split; [lia|]. apply Z.shiftl_nonneg.
  rewrite Z.ones_equiv. pose proof (Z.pow_pos_nonneg 2 n). lia.
Qed.

(** ** Groups *)

Section free_group.
Context (f : fs) (G : geom f) (c : Z) (Hc : 0 <= c < zlength (fs_csp f)).
Context (g : cg) (I : cg_ok f c g).

(** [g'] is [g] with [n] fragments of block [h] freed in the map, the
    run counts following, and [df] more free fragments. *)
Record freed (h pos n df : Z) (g' : cg) : Prop := {
  freed_h : 0 <= h < cg_ndblk g / fs_frag f;
  freed_pos : 0 <= pos /\ 1 <= n /\ pos + n <= fs_frag f;
  freed_taken : forall j, pos <= j < pos + n ->
    bit (cg_blksfree g) (h * fs_frag f + j) = false;
  freed_rest : same_rest g g';
  freed_frotor : cg_frotor g' = cg_frotor g;
  freed_clusters : cg_nclusterblks g' = cg_nclusterblks g /\
    cg_clustersfree g' = cg_clustersfree g /\ cg_clustersum g' = cg_clustersum g;
  freed_cs : cg_cs g' = adj 0 df (cg_cs g);
  freed_bitmap : bitmap (mapbytes f) (cg_blksfree g');
  freed_bits : forall j, 0 <= j -> bit (cg_blksfree g') j =
    give (h * fs_frag f + pos) n j (bit (cg_blksfree g) j);
  freed_frsum : zlength (cg_frsum g') = 8 /\
    forall k, 1 <= k < fs_frag f -> zget (cg_frsum g') k =
      zget (cg_frsum g) k - frag_runs (fs_frag f) (blk f (cg_blksfree g) h) k
        + frag_runs (fs_frag f) (blk f (cg_blksfree g') h) k
}.

Context (h pos n df : Z) (g' : cg) (F : freed h pos n df g').

Lemma freed_nblk : 0 <= h < nblk f /\ (h + 1) * fs_frag f <= cg_ndblk g.
Proof.
  pose proof (freed_h _ _ _ _ _ F) as Hh. pose proof (frag_pos f G).
  pose proof (cg_ok_ndblk _ _ _ I). destruct (nblk_fpg f G) as [HN _].
  assert (h + 1 <= cg_ndblk g / fs_frag f) as H1 by lia.
  pose proof (Z.mul_div_le (cg_ndblk g) (fs_frag f)). split; nia.
Qed.

Lemma freed_counts :
  let v := blk f (cg_blksfree g) h in
  let v' := blk f (cg_blksfree g') h in
  isfull f v = 0 /\ free_frags_of f v' = free_frags_of f v + n - fs_frag f * isfull f v'.
Proof.
  intros v v'. destruct freed_nblk as [Hh _]. destruct (freed_pos _ _ _ _ _ F) as (H1 & H2 & H3).
  pose proof (geom_frag f G) as Hs.
  assert (v' = give_frags v pos n) as ->
    by (unfold v', v; apply blk_give; try done; try lia; apply F).
  destruct (give_frags_counts f v pos n) as (A1 & A2 & A3); try done; try lia.
  - apply blk_range; [done | lia].
  - intros j Hj. unfold v. rewrite blk_testbit by (done || lia).
    rewrite (freed_taken _ _ _ _ _ F) by done. done.
Qed.

Lemma freed_outside j b : 0 <= j -> j / fs_frag f <> h ->
  give (h * fs_frag f + pos) n j b = b.
Proof.
  intros Hj Hne. destruct (freed_pos _ _ _ _ _ F) as (H1 & H2 & H3). unfold give.
  rewrite (outside_block f h) by (done || lia). apply orb_false_r.
Qed.

Lemma freed_tail j : cg_ndblk g <= j -> give (h * fs_frag f + pos) n j false = false.
Proof.
  intros Hj. destruct freed_nblk as [_ Hn]. destruct (freed_pos _ _ _ _ _ F) as (H1 & H2 & H3).
  unfold give. simpl. repeat zcase; done || lia.
Qed.

Lemma freed_other i :
  0 <= i -> i <> h -> blk f (cg_blksfree g') i = blk f (cg_blksfree g) i.
Proof.
  intros Hi Hne. pose proof (geom_frag f G). pose proof (frag_pos f G).
  apply blk_ext; [done | lia |]. intros j Hj. rewrite (freed_bits _ _ _ _ _ F) by nia.
  apply freed_outside; [nia|]. by rewrite (proj1 (frag_split f G i j Hj)).
Qed.

Lemma freed_not_full : (blk f (cg_blksfree g) h =? full f) = false.
Proof. destruct freed_counts as [A _]. revert A. unfold isfull, indicator. by case (_ =? _). Qed.

(** The block is not whole yet: only fragments were freed. *)
Lemma freed_frags_step :
  (blk f (cg_blksfree g') h =? full f) = false -> df = n ->
  cg_step f c g 0 df (give (h * fs_frag f + pos) n) g'.
Proof.
  intros Hnf Hdf. destruct freed_counts as [A1 A2]. destruct freed_nblk as [Hh _].
  assert (isfull f (blk f (cg_blksfree g') h) = 0) as A3 by (unfold isfull; by rewrite Hnf).
  destruct (freed_clusters _ _ _ _ _ F) as (C1 & C2 & C3).
  eapply (cg_step_intro f c g h); try done; try apply F.
  - rewrite (freed_frotor _ _ _ _ _ F). apply (cg_ok_frotor _ _ _ I).
  - apply freed_outside.
  - apply freed_tail.
  - split_and!; try apply F; lia.
  - intros Hct. eapply clusters_ok_keep; [done | | by apply (cg_ok_clusters _ _ _ I) | ..];
      try done; try apply F.
    + apply (cg_ok_ndblk _ _ _ I).
    + intros i Hi. destruct (decide (i = h)) as [->|]; [by rewrite Hnf, freed_not_full|].
      by rewrite freed_other by lia.
Qed.

(** The block became whole: it joins the clusters and the free blocks. *)
Lemma freed_block_step f1 :
  (blk f (cg_blksfree g') h =? full f) = true -> df = n - fs_frag f -> fs_adj f c 0 df f1 ->
  let '(f2, g2) := ffs_clusteracct f1 g' h 1 in
  cg_step f c g 1 df (give (h * fs_frag f + pos) n)
    (set_cg_cs (add_nbfree 1 (cg_cs g2)) g2) /\
  fs_adj f c 1 df (fs_count (add_nbfree 1) c f2).
Proof.
  intros Hf Hdf Hadj. destruct freed_counts as [A1 A2]. destruct freed_nblk as [Hh _].
  assert (isfull f (blk f (cg_blksfree g') h) = 1) as A3 by (unfold isfull; by rewrite Hf).
  destruct (freed_clusters _ _ _ _ _ F) as (C1 & C2 & C3).
  pose proof (clusters_ok_acct f G c g I f1 g' h 1 (adj_sb _ _ _ _ _ Hadj)) as A.
  destruct (ffs_clusteracct f1 g' h 1) as [f2 g2].
  destruct A as ((v & Hf2) & (a & b & ->) & Hcl); try done; try (apply F); [by left | ..].
  { by rewrite freed_not_full. }
  { intros i Hi Hne. apply freed_other; [lia | done]. }
  split.
  - destruct (freed_rest _ _ _ _ _ F) as (R1 & R2 & R3 & R).
    eapply (cg_step_intro f c g h); cbn [cg_blksfree cg_frotor cg_cs set_cg_frsum set_cg_cs
      set_cg_blksfree cg_frsum set_cg_clustersum set_cg_clustersfree]; try done; try apply F.
    + rewrite (freed_frotor _ _ _ _ _ F). apply (cg_ok_frotor _ _ _ I).
    + rewrite add_nbfree_adj, (freed_cs _ _ _ _ _ F), adj_adj. f_equal; lia.
    + apply freed_outside.
    + apply freed_tail.
    + split_and!; try apply F; lia.
    + intros Hct. eapply clusters_ok_keep; [done | | by apply Hcl | ..]; try done.
      cbn. rewrite R3. apply (cg_ok_ndblk _ _ _ I).
  - assert (fs_adj f1 c 0 0 f2) as H2
      by (destruct Hf2 as [-> | ->]; auto using fs_adj_id with kernel).
    pose proof (adj_length _ _ _ _ _ Hadj). pose proof (adj_length _ _ _ _ _ H2).
    eapply fs_adj_conv; [eapply fs_adj_trans; [exact Hadj | eapply fs_adj_trans;
      [exact H2 | apply fs_count_nbfree; lia]] | lia | lia].
Qed.
End free_group.

(** ** The file system *)

(** The [n] fragments from [r] on are allocated, inside one block of the
    data area of their group. *)
Record owned (st : ffs_state) (r n : Z) : Prop := {
  owned_pos : 0 < r < fs_size (st_fs st);
  owned_count : 1 <= n;
  owned_block : r mod fs_frag (st_fs st) + n <= fs_frag (st_fs st);
  owned_group : 0 <= dtog (st_fs st) r < fs_ncg (st_fs st);
  owned_inside : dtogd (st_fs st) r / fs_frag (st_fs st) <
    cg_ndblk (get_cg st (dtog (st_fs st) r)) / fs_frag (st_fs st);
  owned_taken : forall d, in_range d r n = true -> isfree st d = false
}.

(** The [n] fragments from [r] on were freed; nothing else changed. *)
Record free_some (st : ffs_state) (r n : Z) (st' : ffs_state) : Prop := {
  free_ok : state_ok st';
  free_sb : fs_sb (st_fs st') = fs_sb (st_fs st);
  free_free : forall d, in_fs (st_fs st) d ->
    isfree st' d = isfree st d || in_range d r n;
  free_rest : forall i, 0 <= i < fs_ncg (st_fs st) ->
    same_rest (get_cg st i) (get_cg st' i)
}.

Section blkfree.
Context (bread_error : Z -> bool) (time_second : Z).
Context (st : ffs_state) (S : state_ok st) (r n : Z) (O : owned st r n).
Abbreviation f := (st_fs st).
Abbreviation c := (dtog f r).
Abbreviation g := (get_cg st c).

Lemma owned_at :
  exists h pos, dtogd f r = h * fs_frag f + pos /\ fragnum f (dtogd f r) = pos /\
    fragnum f r = pos /\ 0 <= h < cg_ndblk g / fs_frag f /\ 0 <= pos /\ pos + n <= fs_frag f /\
    forall j, pos <= j < pos + n -> bit (cg_blksfree g) (h * fs_frag f + j) = false.
Proof.
  pose proof (st_geom _ S) as G. pose proof (frag_pos f G) as Hfp. destruct O as [O1 O2 O3 O4 O5 O6].
  destruct (geom_fpg f G) as [Hf0 _]. pose proof (Z.mod_pos_bound r (fs_fpg f) Hf0) as Hd.
  fold (dtogd f r) in Hd. pose proof (fragnum_dtogd st S r) as E. rewrite fragnum_mod in E by done.
  exists (dtogd f r / fs_frag f), (dtogd f r mod fs_frag f).
  rewrite (fragnum_mod f G (dtogd f r)), (fragnum_mod f G r), E. rewrite E in O3.
  pose proof (Z.mod_pos_bound (dtogd f r) (fs_frag f)) as Hp.
  assert (0 <= dtogd f r / fs_frag f) by (apply Z.div_pos; lia).
  pose proof (frag_join f G (dtogd f r)) as J.
  split_and!; try done; try lia.
  intros j Hj. specialize (O6 (cgbase f c + (dtogd f r / fs_frag f * fs_frag f + j))).
  destruct (nblk_fpg f G) as [HN _].
  assert (dtogd f r / fs_frag f * fs_frag f + j < fs_fpg f) as Hlt.
  { assert (dtogd f r / fs_frag f < nblk f); [|nia]. unfold nblk.
    pose proof (Z.div_le_mono (cg_ndblk g) (fs_fpg f) (fs_frag f)).
    pose proof (cg_ok_ndblk _ _ _ (st_cg _ S _ O4)). lia. }
  rewrite isfree_in_group in O6 by (done || nia). apply O6.
  pose proof (group_addr st S c O4 r eq_refl). unfold in_range. ztest. done.
Qed.

Lemma free_some_put db df g' f' :
  cg_step f c g db df (give (dtogd f r) n) g' -> fs_adj f c db df f' ->
  free_some st r n (put (ACTIVECLEAR (set_fs_fmod 1 f') c) c g' st).
Proof.
  intros H1 H2. pose proof (st_geom _ S) as G. pose proof (owned_group _ _ _ O) as Hc.
  assert (fs_adj f c db df (ACTIVECLEAR (set_fs_fmod 1 f') c)) as H3.
  { eapply fs_adj_conv; [eapply fs_adj_trans; [eapply fs_adj_trans;
      [exact H2 | apply fs_adj_fmod] | apply fs_adj_active] | lia | lia]. }
  pose proof (owned_pos _ _ _ O) as Hr. pose proof (group_addr st S c Hc r eq_refl) as Er.
  destruct (geom_fpg f G) as [Hf0 _]. pose proof (Z.mod_pos_bound r (fs_fpg f) Hf0) as Hd.
  fold (dtogd f r) in Hd.
  destruct (state_ok_put st c g' db df _ _ S Hc H1 H3) as (A & B & C).
  { intros E. unfold give, cgbase in *. simpl. repeat zcase; try done; nia. }
  split; [done | done | |
    intros i Hi; eapply same_rest_put; try done; rewrite ?(st_ncgs _ S); lia].
  intros d Hd'. rewrite C by done.
  pose proof (range_in_group st S c (dtogd f r) n d) as R. rewrite Er in R.
  unfold give, in_range in *. destruct (Z.eqb_spec (dtog f d) c) as [E|E]; simpl in *.
  - by rewrite R.
  - destruct (in_range d r n) eqn:E2; [|unfold in_range in E2; by rewrite E2, orb_false_r].
    destruct owned_at as (h & pos & Edt & _ & _ & Hh & Hp & Hn & _).
    rewrite <- Er in E2. destruct (in_range_group st S c (dtogd f r) n d); try done; [lia|].
    destruct (nblk_fpg f G) as [HN _]. pose proof (frag_pos f G).
    pose proof (Z.div_le_mono (cg_ndblk g) (fs_fpg f) (fs_frag f)).
    pose proof (cg_ok_ndblk _ _ _ (st_cg _ S _ Hc)). unfold nblk in HN. nia.
Qed.

(** The run counts of a group, after [ffs_fragacct] took out block value
    [v] and put in [v']. *)
Lemma fragacct_twice fr v v' :
  zlength fr = 8 -> 0 <= v <= full f -> 0 <= v' <= full f ->
  let fr' := ffs_fragacct f v' (ffs_fragacct f v fr (-1)) 1 in
  zlength fr' = 8 /\ forall k, 1 <= k < fs_frag f ->
    zget fr' k = zget fr k - frag_runs (fs_frag f) v k + frag_runs (fs_frag f) v' k.
Proof.
  intros Hl Hv Hv'. pose proof (st_geom _ S) as G. pose proof (frag_pos f G).
  destruct (ffs_fragacct_spec f v fr (-1) (geom_frag f G) Hv) as [L1 E1]; [lia|].
  destruct (ffs_fragacct_spec f v' (ffs_fragacct f v fr (-1)) 1 (geom_frag f G) Hv')
    as [L2 E2]; [lia|].
  split; [lia|]. intros k Hk. rewrite E2, E1 by lia. ztest. cbn [andb]. lia.
Qed.

(** The group part of the state that both branches start from. *)
Context (g0 : cg) (T : cg_step f c g 0 0 keep g0) (Eb : cg_blksfree g0 = cg_blksfree g)
  (Er : cg_ndblk g0 = cg_ndblk g).

Lemma c_csp : 0 <= c < zlength (fs_csp f).
Proof. rewrite (st_ncsp _ S). apply (owned_group _ _ _ O). Qed.

Lemma free_some_step db df g' f' :
  cg_step f c g0 db df (give (dtogd f r) n) g' -> fs_adj f c db df f' ->
  free_some st r n (put (ACTIVECLEAR (set_fs_fmod 1 f') c) c g' st).
Proof.
  intros H1 H2. eapply (free_some_put db df); [|done].
  eapply cg_step_conv; [eapply cg_step_trans; [exact T | exact H1] | lia | lia | done].
Qed.

Lemma blkfree_block_ok snapshot :
  n = fs_frag f ->
  exists st', blkfree_block st c g0 snapshot (dtogd f r) = Ok st' /\ free_some st r n st'.
Proof.
  intros Hn. pose proof (st_geom _ S) as G. pose proof (geom_frag f G) as Hs.
  pose proof (frag_pos f G) as Hfp. pose proof (mapbytes_fpg f). pose proof c_csp as Hc.
  destruct owned_at as (h & pos & Edt & _ & _ & Hh & Hp & Hpn & Htaken).
  assert (pos = 0) as -> by lia. pose proof (step_ok _ _ _ _ _ _ _ T) as I.
  pose proof (cg_ok_map _ _ _ I) as M. pose proof (map_bitmap _ _ _ _ _ M) as Hbm.
  assert (h < nblk f /\ h * fs_frag f < 8 * mapbytes f) as [Hh' Hmap].
  { pose proof (cg_ok_ndblk _ _ _ I) as Hnd. rewrite Er in Hnd. destruct (nblk_fpg f G).
    pose proof (Z.div_le_mono (cg_ndblk g) (fs_fpg f) (fs_frag f)). unfold nblk in *. nia. }
  unfold blkfree_block. rewrite Edt, Z.add_0_r, fragstoblks_div, Z.div_mul by (done || lia).
  assert (blk f (cg_blksfree g0) h = 0) as Hz.
  { apply blk_eq; [done | lia | destruct (full_values f Hs); lia|].
    intros j Hj. rewrite Z.bits_0, Eb. apply Htaken. lia. }
  rewrite (ffs_isfreeblock_blk f Hs _ _ h Hbm ltac:(lia)), bind_Ok, Hz. cbn [Z.eqb negb].
  destruct (ffs_setblock_bits f (mapbytes f) (cg_blksfree g0) h Hs) as (m' & -> & Hm' & Hb);
    [lia | done | done |].
  rewrite bind_Ok. set (g' := set_cg_blksfree m' g0).
  assert (blk f m' h = full f) as Hfull.
  { apply blk_full_iff; [done | lia|]. intros j Hj. rewrite Hb by nia. ztest.
    by rewrite orb_true_r. }
  destruct (counts_zero f Hs) as (Z1 & Z2 & Z3).
  assert (freed f g0 h 0 n 0 g') as F.
  { split; try done; try lia; try (by rewrite Er || by repeat split); cbn [g' cg_blksfree set_cg_blksfree].
    - rewrite Eb. exact Htaken.
    - by rewrite adj_0.
    - intros j Hj. rewrite Hb by done. unfold give. by rewrite Z.add_0_r, Hn.
    - split; [apply M|]. intros k Hk. rewrite Hz, Hfull, Z3 by done.
      destruct (take_frags_full f Hs (fs_frag f)) as (_ & _ & _ & _ & V); [lia|].
      destruct (V k Hk) as [-> _]. cbn [g' cg_frsum set_cg_blksfree]. lia. }
  pose proof (freed_block_step f G c Hc g0 I h 0 n 0 g' F f) as A.
  destruct (ffs_clusteracct f g' h 1) as [f2 g2]. destruct A as [A1 A2].
  { cbn [g' cg_blksfree set_cg_blksfree]. rewrite Hfull. apply Z.eqb_refl. }
  { lia. }
  { by apply fs_adj_id. }
  eexists. split; [reflexivity|]. eapply free_some_step; [|exact A2].
  by rewrite Edt.
Qed.

Lemma blkfree_frags_ok :
  n < fs_frag f ->
  exists st', blkfree_frags st c g0 (dtogd f r) n = Ok st' /\ free_some st r n st'.
Proof.
  intros Hn. pose proof (st_geom _ S) as G. pose proof (geom_frag f G) as Hs.
  pose proof (frag_pos f G) as Hfp. pose proof (mapbytes_fpg f). pose proof c_csp as Hc.
  destruct owned_at as (h & pos & Edt & Efn & _ & Hh & Hp & Hpn & Htaken).
  pose proof (owned_count _ _ _ O) as Hn1. pose proof (step_ok _ _ _ _ _ _ _ T) as I.
  pose proof (cg_ok_map _ _ _ I) as M. pose proof (map_bitmap _ _ _ _ _ M) as Hbm.
  assert (h < nblk f /\ h * fs_frag f + fs_frag f <= 8 * mapbytes f) as [Hh' Hmap].
  { pose proof (cg_ok_ndblk _ _ _ I) as Hnd. rewrite Er in Hnd. destruct (nblk_fpg f G).
    pose proof (Z.div_le_mono (cg_ndblk g) (fs_fpg f) (fs_frag f)). unfold nblk in *. nia. }
  unfold blkfree_frags. rewrite Efn, Edt.
  replace (h * fs_frag f + pos - pos) with (h * fs_frag f) by lia.
  cbn [cg_blksfree cg_frsum cg_cs set_cg_frsum set_cg_blksfree set_cg_cs].
  rewrite (free_frags_ok (mapbytes f)); [| done | nia | nia |].
  2:{ intros j Hj. rewrite Eb, <- Z.add_assoc. apply Htaken. lia. }
  rewrite bind_Ok.
  destruct (foreach_setbit (mapbytes f) (Z.to_nat n) 0 (h * fs_frag f + pos) (cg_blksfree g0))
    as [Hm' Hb]; [done | nia | nia |].
  set (m' := foreach _ 0 _ (cg_blksfree g0)) in *.
  change (fs_sb (fs_count (add_nffree n) c f)) with (fs_sb f).
  change (blkmap f m' (h * fs_frag f)) with (blk f m' h).
  change (blkmap f (cg_blksfree g0) (h * fs_frag f)) with (blk f (cg_blksfree g0) h).
  set (fr' := ffs_fragacct f (blk f m' h) _ 1).
  rewrite fragstoblks_div, Z.div_mul by (done || lia).
  rewrite (ffs_isblock_blk f Hs _ _ h Hm' ltac:(lia)), bind_Ok.
  set (g1 := set_cg_frsum fr' _).
  assert (forall df cs, cs = adj 0 df (cg_cs g0) ->
    freed f g0 h pos n df (set_cg_cs cs g1)) as F.
  { intros df cs ->. split; try done; try lia; try (by rewrite Er || by repeat split).
    - rewrite Eb. exact Htaken.
    - intros j Hj. cbn [cg_blksfree set_cg_cs g1 set_cg_frsum set_cg_blksfree].
      rewrite Hb by done. unfold give. f_equal. repeat zcase; done || lia.
    - cbn. apply fragacct_twice; [apply M | | ]; apply blk_range; done || lia. }
  assert (fs_adj f c 0 n (fs_count (add_nffree n) c f)) as A1 by by apply fs_count_nffree.
  destruct (blk f m' h =? full f) eqn:Ewhole.
  - specialize (F (n - fs_frag f) (add_nffree (- fs_frag f) (add_nffree n (cg_cs g0)))).
    set (g2 := set_cg_cs _ g1) in *.
    set (f1 := fs_count (add_nffree (- fs_frag f)) c _).
    assert (fs_adj f c 0 (n - fs_frag f) f1) as A2.
    { pose proof (adj_length _ _ _ _ _ A1). eapply fs_adj_conv; [eapply fs_adj_trans;
        [exact A1 | apply fs_count_nffree; lia] | lia | lia]. }
    pose proof (freed_block_step f G c Hc g0 I h pos n (n - fs_frag f) g2) as A.
    specialize (A ltac:(apply F; rewrite !add_nffree_adj, adj_adj; f_equal; lia) f1).
    destruct (ffs_clusteracct f1 g2 h 1) as [f2 g3].
    destruct A as [B1 B2]; [done | done | done |].
    eexists. split; [reflexivity|]. eapply free_some_step; [|exact B2]. by rewrite Edt.
  - eexists. split; [reflexivity|]. eapply free_some_step; [|exact A1]. rewrite Edt.
    eapply freed_frags_step with (df := n); [done | done | | done | done].
    specialize (F n (cg_cs g1)). apply F. apply add_nffree_adj.
Qed.
End blkfree.

Section blkfree_cg.
Context (bread_error : Z -> bool) (time_second : Z).
Context (st : ffs_state) (S : state_ok st) (snapshot : bool) (r n : Z).
Abbreviation f := (st_fs st).
Abbreviation c := (dtog f r).

(** Past the checks of the size. *)
Lemma blkfree_past_size :
  0 < r < fs_size f -> 1 <= n -> r mod fs_frag f + n <= fs_frag f ->
  ffs_blkfree_cg bread_error time_second st snapshot r (n * fs_fsize f) =
    if bread_error c then Ok st else
    if negb (cg_chkmagic (get_cg st c)) then Ok st else
    if n =? fs_frag f
    then blkfree_block st c (touch time_second (get_cg st c)) snapshot (dtogd f r)
    else blkfree_frags st c (touch time_second (get_cg st c)) (dtogd f r) n.
Proof.
  intros Hr Hn Hblk. pose proof (st_geom _ S) as G. pose proof (frag_pos f G).
  pose proof (fsize_pos f G) as Hfs. pose proof (Z.mod_pos_bound r (fs_frag f)).
  assert (frag_size f n (n * fs_fsize f)) as Hsz by (split; [lia|done]).
  unfold ffs_blkfree_cg.
  rewrite (frag_size_bsize f n _ G Hsz), (numfrags_frag_size f n _ G Hsz).
  rewrite fragoff_mod, Z.mod_mul, (geom_bsize f G), fragnum_mod by (done || lia).
  assert (0 <= u32 (n * fs_fsize f) <= n * fs_fsize f) as Hu.
  { unfold u32. split; [by apply Z.mod_pos_bound | apply Z.mod_le; nia]. }
  assert (u32 r <= r) by (apply Z.mod_le; lia).
  rewrite (proj2 (Z.ltb_ge _ (u32 (n * fs_fsize f)))) by nia. ztest.
  cbn [negb orb require]. rewrite bind_Ok. done.
Qed.

(** Past the checks at the head. *)
Lemma blkfree_head :
  0 < r < fs_size f -> 1 <= n -> r mod fs_frag f + n <= fs_frag f -> 0 <= c < fs_ncg f ->
  bread_error c = false ->
  ffs_blkfree_cg bread_error time_second st snapshot r (n * fs_fsize f) =
    if n =? fs_frag f
    then blkfree_block st c (touch time_second (get_cg st c)) snapshot (dtogd f r)
    else blkfree_frags st c (touch time_second (get_cg st c)) (dtogd f r) n.
Proof.
  intros Hr Hn Hblk Hc Hbr. rewrite blkfree_past_size by done.
  by rewrite Hbr, (cg_ok_magic _ _ _ (st_cg _ S c Hc)).
Qed.

(** With an unreadable group nothing is freed. *)
Lemma blkfree_unreadable :
  owned st r n -> bread_error c = true ->
  ffs_blkfree_cg bread_error time_second st snapshot r (n * fs_fsize f) = Ok st.
Proof. intros O Hbr. rewrite blkfree_past_size by apply O. by rewrite Hbr. Qed.

(** An owned piece is freed, and freed exactly. *)
Lemma blkfree_post :
  owned st r n -> bread_error c = false ->
  exists st', ffs_blkfree_cg bread_error time_second st snapshot r (n * fs_fsize f) = Ok st' /\
    free_some st r n st'.
Proof.
  intros O Hbr. pose proof (st_geom _ S) as G. pose proof (owned_count _ _ _ O).
  pose proof (owned_block _ _ _ O). pose proof (owned_group _ _ _ O) as Hc.
  pose proof (frag_pos f G). pose proof (Z.mod_pos_bound r (fs_frag f)).
  rewrite blkfree_head by (done || apply O).
  pose proof (cg_step_touch time_second _ _ _ (st_cg _ S c Hc)) as T.
  zcase; [apply blkfree_block_ok | apply blkfree_frags_ok]; try done. lia.
Qed.

(** Freeing a piece of which a fragment is free panics. *)
Lemma blkfree_double :
  0 < r < fs_size f -> 1 <= n -> r mod fs_frag f + n <= fs_frag f -> 0 <= c < fs_ncg f ->
  bread_error c = false -> snapshot = false ->
  (exists d, in_range d r n = true /\ isfree st d = true) ->
  exists msg, ffs_blkfree_cg bread_error time_second st snapshot r (n * fs_fsize f) = Panic msg.
Proof.
  intros Hr Hn Hblk Hc Hbr Hsn (d & Hd & Hfree). pose proof (st_geom _ S) as G.
  pose proof (geom_frag f G) as Hs. pose proof (frag_pos f G) as Hfp.
  pose proof (mapbytes_fpg f). rewrite blkfree_head by done.
  pose proof (cg_ok_map _ _ _ (st_cg _ S c Hc)) as M. pose proof (map_bitmap _ _ _ _ _ M) as Hbm.
  destruct (geom_fpg f G) as [Hf0 _]. pose proof (Z.mod_pos_bound r (fs_fpg f) Hf0) as Hdt.
  fold (dtogd f r) in Hdt. pose proof (group_addr st S c Hc r eq_refl) as Er.
  pose proof (fragnum_dtogd st S r) as E. rewrite fragnum_mod in E by done. rewrite E in Hblk.
  pose proof (frag_join f G (dtogd f r)) as J. pose proof (Z.mod_pos_bound (dtogd f r) (fs_frag f)).
  set (h := dtogd f r / fs_frag f) in *. set (pos := dtogd f r mod fs_frag f) in *.
  assert (0 <= h) by (apply Z.div_pos; lia). destruct (nblk_fpg f G) as [HN _].
  assert (h < nblk f) as Hh by nia.
  assert (dtogd f r + n <= fs_fpg f) as Hend by nia.
  unfold in_range in Hd. bool_to_prop.
  assert (bit (cg_blksfree (get_cg st c)) (dtogd f r + (d - r)) = true) as Hb.
  { rewrite <- (isfree_in_group st S c) by lia. rewrite <- Hfree. f_equal. lia. }
  zcase.
  - unfold blkfree_block. cbn [cg_blksfree touch set_cg_old_time set_cg_time].
    assert (pos = 0) by lia. replace (dtogd f r) with (h * fs_frag f) by lia.
    rewrite fragstoblks_div, Z.div_mul by (done || lia).
    rewrite (ffs_isfreeblock_blk f Hs _ _ h Hbm) by done. rewrite bind_Ok.
    rewrite (proj2 (Z.eqb_neq _ 0)); [rewrite Hsn; by eexists|].
    intros E0. apply (f_equal (fun x => Z.testbit x (d - r))) in E0.
    rewrite blk_testbit, Z.bits_0 in E0 by (done || lia). revert E0. ztest.
    replace (h * fs_frag f + (d - r)) with (dtogd f r + (d - r)) by lia. by rewrite Hb.
  - unfold blkfree_frags. cbn [cg_blksfree touch set_cg_old_time set_cg_time set_cg_frsum].
    destruct (free_frags_panic (mapbytes f) (Z.to_nat n) (dtogd f r) 0
      (cg_blksfree (get_cg st c)) (d - r)) as [msg ->]; [done | lia | lia | lia | done |].
    by eexists.
Qed.
End blkfree_cg.
