(* ===== verification/FfsHash.v ===== *)
(** [ffs_hashalloc]: every cylinder group is tried.

    The policy is proved for any allocator that in one group either succeeds
    or leaves the state alone in the sense of a preorder; [ffs_alloccg] is
    the instance for blocks and fragments. *)

From S2P Require Import Prelude Bitmap Fs FfsSubr FfsAlloc FfsMap FfsInv FfsBlocks FfsState.

(** What a per-group allocator promises to [ffs_hashalloc]: on a good state
    it returns; a failure moves the state along [same] and shows the group
    [exhausted], which [same] preserves. *)
Class GroupAllocator {S : Type} (allocator : S -> Z -> Z -> Z -> Z -> result (Z * S))
    (ncg size rsize : Z) := {
  good : S -> Prop;
  same : S -> S -> Prop;
  exhausted : S -> Z -> Prop;
  success : S -> Z -> Z -> S -> Prop;
  same_refl : forall st, good st -> same st st;
  same_trans : forall st1 st2 st3, same st1 st2 -> same st2 st3 -> same st1 st3;
  same_good : forall st st', good st -> same st st' -> good st';
  same_exhausted : forall st st' cgn,
    0 <= cgn < ncg -> same st st' -> exhausted st' cgn -> exhausted st cgn;
  allocator_spec : forall st cgn pref, good st -> 0 <= cgn < ncg ->
    exists r st', allocator st cgn pref size rsize = Ok (r, st') /\
      (r = 0 /\ same st st' /\ exhausted st cgn \/ r <> 0 /\ success st cgn r st')
}.

Section hashalloc_spec.
Context {S : Type} (allocator : S -> Z -> Z -> Z -> Z -> result (Z * S)).
Context (ncg size rsize : Z) {A : GroupAllocator allocator ncg size rsize}.
Context (Hncg : 0 < ncg <= 2 ^ 31).

(** The outcome of trying some groups, those of [tried] among them. *)
Definition outcome (st : S) (tried : Z -> Prop) (res : result (Z * S)) : Prop :=
  exists r st', res = Ok (r, st') /\
    (r = 0 /\ same st st' /\ (forall cgn, tried cgn -> exhausted st cgn) \/
     r <> 0 /\ exists st1 cgn, same st st1 /\ 0 <= cgn < ncg /\ success st1 cgn r st').

Lemma outcome_then st tried tried' m k :
  good st -> (forall cgn, tried' cgn -> 0 <= cgn < ncg) ->
  outcome st tried m ->
  (forall st', good st' -> same st st' -> outcome st' tried' (k st')) ->
  outcome st (fun cgn => tried cgn \/ tried' cgn)
    ('(r, st) ← m; if negb (r =? 0) then Ok (r, st) else k st).
Proof.
  intros Hg Ht (r & st' & -> & [(-> & Hs & He) | (Hr & H)]) Hk.
  - rewrite bind_Ok. cbn [Z.eqb negb].
    destruct (Hk st') as (r & st2 & -> & H); [by eapply same_good | done |].
    exists r, st2. split; [done|]. destruct H as [(-> & Hs2 & He2) | (Hr & st1 & cgn & H1 & H2 & H3)].
    + left. split; [done|]. split; [by eapply same_trans|]. intros cgn [H|H]; [by apply He|].
      eapply same_exhausted; [by apply Ht | exact Hs | by apply He2].
    + right. split; [done|]. exists st1, cgn. split; [by eapply same_trans | done].
  - rewrite bind_Ok. rewrite (proj2 (Z.eqb_neq r 0) Hr). cbn [negb].
    exists r, st'. split; [done|]. by right.
Qed.

Lemma outcome_weaken st (tried tried' : Z -> Prop) m :
  outcome st tried m -> (forall cgn, tried' cgn -> tried cgn) -> outcome st tried' m.
Proof.
  intros (r & st' & -> & [(? & ? & He) | H]) Ht; exists r, st'; split; auto. left. auto.
Qed.

Lemma outcome_one st cgn pref :
  good st -> 0 <= cgn < ncg ->
  outcome st (fun c => c = cgn) (allocator st cgn pref size rsize).
Proof.
  intros Hg Hc. destruct (allocator_spec st cgn pref Hg Hc) as (r & st' & -> & [(-> & H1 & H2) | [Hr H]]).
  - exists 0, st'. split; [done|]. left. split_and!; try done. by intros ? ->.
  - exists r, st'. split; [done|]. right. split; [done|]. exists st, cgn. auto using same_refl.
Qed.

Lemma outcome_done st : good st -> outcome st (fun _ => False) (Ok (0, st)).
Proof. intros Hg. exists 0, st. split; [done|]. left. split_and!; [done | by apply same_refl | done]. Qed.

(** The quadratic rehash: the rounds that the doubling counter leaves, 32
    at the start; the first round tries the next group. *)
Lemma hash_quadratic_outcome k st cgn :
  (k <= 31)%nat -> good st -> 0 <= cgn < ncg ->
  outcome st (fun c => 2 ^ Z.of_nat (31 - k) < ncg /\ c = (cgn + 2 ^ Z.of_nat (31 - k)) mod ncg)
    (hash_quadratic allocator ncg size rsize (Datatypes.S (Datatypes.S k)) st cgn
       (2 ^ Z.of_nat (31 - k))).
Proof.
  revert st cgn. induction k as [|k IH]; intros st cgn Hk Hg Hc.
  - cbn [hash_quadratic]. rewrite (proj2 (Z.ltb_ge _ _)) by (cbn; lia).
    eapply outcome_weaken; [by apply outcome_done|]. cbn. lia.
  - set (i := 2 ^ Z.of_nat (31 - Datatypes.S k)).
    remember (Datatypes.S (Datatypes.S k)) as fuel. cbn [hash_quadratic]. subst fuel.
    assert (0 < i) by (apply Z.pow_pos_nonneg; lia).
    assert (2 ^ Z.of_nat (31 - k) = i * 2) as E2.
    { unfold i. replace (Z.of_nat (31 - k)) with (Z.succ (Z.of_nat (31 - Datatypes.S k))) by lia.
      rewrite Z.pow_succ_r by lia. lia. }
    destruct (Z.ltb_spec i ncg) as [Hi|Hi];
      [|eapply outcome_weaken; [by apply outcome_done | cbv beta; lia]].
    assert (u32 (i * 2) = 2 ^ Z.of_nat (31 - k)) as -> by (unfold u32; rewrite E2, Z.mod_small; lia).
    assert ((if ncg <=? cgn + i then cgn + i - ncg else cgn + i) = (cgn + i) mod ncg) as ->.
    { zcase; [|by rewrite Z.mod_small by lia]. apply (Z.mod_unique _ _ 1); lia. }
    pose proof (Z.mod_pos_bound (cgn + i) ncg).
    eapply outcome_weaken; [eapply outcome_then with (tried' := fun _ => False)|]; try done.
    + apply outcome_one; [done | lia].
    + intros st' Hg' _. eapply outcome_weaken; [apply IH; [lia | done | lia] | done].
    + cbv beta. intros c' [_ ->]. by left.
Qed.

(** The brute-force search tries [n] consecutive groups. *)
Lemma hash_brute_outcome n st cgn :
  good st -> 0 <= cgn < ncg -> Z.of_nat n <= ncg ->
  outcome st (fun c => exists i, 0 <= i < Z.of_nat n /\ c = (cgn + i) mod ncg)
    (hash_brute allocator ncg size rsize n st cgn).
Proof.
  revert st cgn. induction n as [|n IH]; intros st cgn Hg Hc Hn; cbn [hash_brute].
  { eapply outcome_weaken; [by apply outcome_done|]. intros c (i & Hi & _). lia. }
  assert ((if cgn + 1 =? ncg then 0 else cgn + 1) = (cgn + 1) mod ncg) as ->.
  { zcase; [apply (Z.mod_unique _ _ 1); lia | by rewrite Z.mod_small by lia]. }
  pose proof (Z.mod_pos_bound (cgn + 1) ncg).
  eapply outcome_weaken; [eapply outcome_then with
    (tried' := fun c => exists i, 0 <= i < Z.of_nat n /\ c = ((cgn + 1) mod ncg + i) mod ncg)|].
  - done.
  - intros c (i & _ & ->). apply Z.mod_pos_bound. lia.
  - apply (outcome_one st cgn 0); done.
  - intros st' Hg' _. apply IH; [done | lia | lia].
  - cbv beta. intros c (i & Hi & ->). destruct (decide (i = 0)) as [->|Hne].
    + left. by rewrite Z.add_0_r, Z.mod_small.
    + right. exists (i - 1). split; [lia|]. rewrite Zplus_mod_idemp_l. f_equal. lia.
Qed.

Lemma hashalloc_outcome st cgn pref :
  good st -> 0 <= cgn < ncg ->
  outcome st (fun c => 0 <= c < ncg) (ffs_hashalloc allocator ncg size rsize st cgn pref).
Proof.
  intros Hg Hc. unfold ffs_hashalloc. pose proof (Z.mod_pos_bound (cgn + 2) ncg).
  eapply outcome_weaken; [eapply outcome_then with (tried' := fun c => 0 <= c < ncg /\ c <> cgn)|].
  - done.
  - lia.
  - apply (outcome_one st cgn pref); done.
  - intros st1 Hg1 _.
    eapply outcome_weaken; [eapply outcome_then with (tried' := fun c =>
      exists i, 0 <= i < Z.of_nat (Z.to_nat (ncg - 2)) /\ c = ((cgn + 2) mod ncg + i) mod ncg)|].
    + done.
    + intros c (i & _ & ->). apply Z.mod_pos_bound. lia.
    + apply (hash_quadratic_outcome 31 st1 cgn); [lia | done | done].
    + intros st2 Hg2 _. apply hash_brute_outcome; [done | lia | lia].
    + cbv beta. cbn. intros c [H1 Hne].
      set (d := if cgn <? c then c - cgn else c - cgn + ncg).
      assert (1 <= d < ncg /\ c = (cgn + d) mod ncg) as [Hd Ec].
      { unfold d. zcase; (split; [lia|]); [rewrite Z.mod_small; lia|].
        apply (Z.mod_unique _ _ 1); lia. }
      destruct (decide (d = 1)) as [E|].
      { left. rewrite E in Ec. split; [lia|done]. }
      right. exists (d - 2). split; [lia|]. rewrite Zplus_mod_idemp_l, Ec. f_equal. lia.
  - cbv beta. intros c Hc'. destruct (decide (c = cgn)); auto.
Qed.
End hashalloc_spec.
