(* ===== verification/FfsInode.v ===== *)
(** Inode allocation: [ffs_nodealloccg] and [ffs_freefile] against the set of
    inodes in use. *)

From S2P Require Import Prelude Bitmap Fs FfsSubr FfsAlloc FfsMap FfsInv FfsHash.

(** ** Counting clear bits *)

Definition clear_bits (n : Z) (m : list Z) : Z :=
  zsum (Z.to_nat n) (fun i => indicator (negb (bit m i))).

Lemma clear_bits_update n m m' i :
  0 <= i < n -> (forall j, 0 <= j -> j <> i -> bit m' j = bit m j) ->
  clear_bits n m' =
    clear_bits n m - indicator (negb (bit m i)) + indicator (negb (bit m' i)).
Proof.
  intros Hi H. unfold clear_bits.
  apply (zsum_update _ (fun i => indicator (negb (bit m i))) (fun i => indicator (negb (bit m' i))));
    [lia|]. intros j Hj Hne. by rewrite H by lia.
Qed.

Lemma clear_bits_pos n m : clear_bits n m <> 0 -> exists i, 0 <= i < n /\ bit m i = false.
Proof.
  intros H. destruct (zsum_pos_inv _ _ (fun i _ => ltac:(unfold indicator; case (negb (bit m i)); lia) :
    0 <= indicator (negb (bit m i))) H) as (i & Hi & Hp).
  exists i. split; [lia|]. revert Hp. unfold indicator. by case (bit m i); simpl; lia.
Qed.

(** The code's expression for the first clear bit of a byte. *)
Lemma ffs_lnot b :
  is_byte b -> b <> 0xff ->
  let k := ffs (Z.lnot b) - 1 in 0 <= k < 8 /\ Z.testbit b k = false.
Proof.
  intros Hb Hne.
  assert (bytes_all (fun b => (b =? 0xff) || (let k := ffs (Z.lnot b) - 1 in
    (0 <=? k) && (k <? 8) && negb (Z.testbit b k))) = true) as H by by vm_compute.
  apply (bytes_all_elim _ b) in H; [|done]. cbv beta zeta in H.
  rewrite (proj2 (Z.eqb_neq _ _) Hne) in H. cbn [orb] in H. bool_to_prop. split; [lia|done].
Qed.

(** ** The invariant *)

Record ino_geom (s : superblock) : Prop := {
  ig_ipg : 0 < fs_ipg s /\ fs_ipg s mod 8 = 0;
  ig_inopb : 0 < fs_inopb s;
  ig_ncg : 0 < fs_ncg s
}.

Record ino_ok (s : superblock) (g : cg) : Prop := {
  ino_magic : cg_chkmagic g = true;
  ino_bitmap : bitmap (fs_ipg s / 8) (cg_inosused g);
  ino_nifree : cs_nifree (cg_cs g) = clear_bits (fs_ipg s) (cg_inosused g);
  ino_irotor : 0 <= cg_irotor g < fs_ipg s;
  ino_inited : 0 <= cg_initediblk g;
  (** UFS2: what is in use is initialised on disk *)
  ino_init_used : fs_magic s = FS_UFS2_MAGIC ->
    cg_niblk g = fs_ipg s /\
    forall i, 0 <= i < fs_ipg s -> bit (cg_inosused g) i = true -> i < cg_initediblk g
}.

Record inodes_ok (st : ffs_state) : Prop := {
  is_geom : ino_geom (st_fs st);
  is_ncgs : zlength (st_cgs st) = fs_ncg (st_fs st);
  is_ncsp : zlength (fs_csp (st_fs st)) = fs_ncg (st_fs st);
  is_cg : forall c, 0 <= c < fs_ncg (st_fs st) -> ino_ok (st_fs st) (get_cg st c);
  is_cs : forall c, 0 <= c < fs_ncg (st_fs st) ->
    cs_nifree (fs_cs (st_fs st) c) = cs_nifree (cg_cs (get_cg st c)) /\
    cs_ndir (fs_cs (st_fs st) c) = cs_ndir (cg_cs (get_cg st c));
  is_nifree : cs_nifree (fs_cstotal (st_fs st)) =
    zsum (Z.to_nat (fs_ncg (st_fs st))) (fun c => cs_nifree (fs_cs (st_fs st) c));
  is_ndir : cs_ndir (fs_cstotal (st_fs st)) =
    zsum (Z.to_nat (fs_ncg (st_fs st))) (fun c => cs_ndir (fs_cs (st_fs st) c));
  (** inode 0 is never handed out: 0 means failure *)
  is_zero : bit (cg_inosused (get_cg st 0)) 0 = true
}.

(** The abstract state: is inode [ino] in use? *)
Definition ino_used (st : ffs_state) (ino : Z) : bool :=
  bit (cg_inosused (get_cg st (ino_to_cg (st_fs st) ino))) (ino mod fs_ipg (st_fs st)).

(** ** The search *)

Section search.
Context {K : Libkern} {KS : LibkernSpec K}.
Context (s : superblock) (G : ino_geom s) (g : cg) (I : ino_ok s g).

Lemma byte_has_clear k :
  0 <= k < fs_ipg s / 8 -> zget (cg_inosused g) k <> 0xff ->
  let i := k * NBBY + ffs (Z.lnot (zget (cg_inosused g) k)) - 1 in
  0 <= i < fs_ipg s /\ bit (cg_inosused g) i = false.
Proof.
  intros Hk Hne. destruct (ig_ipg s G) as [H0 H8].
  destruct (ffs_lnot (zget (cg_inosused g) k)) as [H1 H2]; [|done|].
  { eapply bitmap_byte, (ino_bitmap s g I). }
  set (b := ffs _) in *. cbv zeta in H1, H2 |- *. unfold NBBY.
  replace (k * 8 + b - 1) with (k * 8 + (b - 1)) by lia. split; [dlia|].
  unfold bit. rewrite Z.div_add_l, Z.div_small, Z.add_0_r by lia.
  by rewrite Z.add_comm, Z_mod_plus_full, Z.mod_small.
Qed.

(** While the group counts a free inode, the two scans find one. *)
Lemma nodealloc_search_correct :
  cs_nifree (cg_cs g) <> 0 ->
  exists i, nodealloc_search s g = Ok i /\ 0 <= i < fs_ipg s /\
    bit (cg_inosused g) i = false.
Proof.
  intros Hn. rewrite (ino_nifree s g I) in Hn. destruct (clear_bits_pos _ _ Hn) as (i0 & Hi0 & Hb0).
  destruct (ig_ipg s G) as [H0 H8]. pose proof (ino_irotor s g I) as Hr.
  destruct (ino_bitmap s g I) as [Hl Hbytes]. unfold nodealloc_search.
  set (start := cg_irotor g / NBBY). assert (0 <= start < fs_ipg s / 8) as Hs
    by (unfold start, NBBY; dlia).
  assert (howmany (fs_ipg s - cg_irotor g) NBBY = fs_ipg s / 8 - start) as ->
    by (unfold howmany, start, NBBY; dlia).
  assert (zlength (drop (Z.to_nat start) (cg_inosused g)) = fs_ipg s / 8 - start) as Hld
    by (rewrite zlength_drop; lia).
  pose proof (memcchr_spec (drop (Z.to_nat start) (cg_inosused g)) 0xff (fs_ipg s / 8 - start)) as M1.
  specialize (M1 ltac:(lia)). destruct (memcchr (drop _ _) _ _) as [k|].
  - destruct M1 as (Hk & Hne & _). rewrite bind_Ok. eexists. split; [reflexivity|].
    rewrite aget_drop in Hne by lia. apply byte_has_clear; [lia | done].
  - pose proof (memcchr_spec (cg_inosused g) 0xff (start + 1)) as M2.
    specialize (M2 ltac:(lia)). destruct (memcchr (cg_inosused g) _ _) as [k|].
    + destruct M2 as (Hk & Hne & _). rewrite bind_Ok. eexists. split; [reflexivity|].
      apply byte_has_clear; [lia | done].
    + exfalso. assert (zget (cg_inosused g) (i0 / 8) = 255) as E.
      { destruct (Z.lt_ge_cases (i0 / 8) (start + 1)) as [|Hge]; [apply M2; dlia|].
        specialize (M1 (i0 / 8 - start)). rewrite aget_drop in M1 by dlia.
        replace (start + (i0 / 8 - start)) with (i0 / 8) in M1 by lia. apply M1. dlia. }
      unfold bit in Hb0. rewrite E in Hb0. change 255 with (Z.ones 8) in Hb0.
      rewrite testbit_ones in Hb0 by lia. pose proof (Z.mod_pos_bound i0 8).
      revert Hb0. ztest. done.
Qed.
End search.

(** ** One group, in the file system *)

(** The counters of group [c] and the totals moved by [u]. *)
Record fs_upd (f : fs) (c : Z) (u : csum -> csum) (f' : fs) : Prop := {
  upd_sb : fs_sb f' = fs_sb f;
  upd_length : zlength (fs_csp f') = zlength (fs_csp f);
  upd_cs : forall i, 0 <= i < zlength (fs_csp f) ->
    fs_cs f' i = if i =? c then u (fs_cs f c) else fs_cs f i;
  upd_total : fs_cstotal f' = u (fs_cstotal f)
}.

Lemma fs_upd_id f c f' :
  fs_sb f' = fs_sb f -> fs_csp f' = fs_csp f -> fs_cstotal f' = fs_cstotal f ->
  fs_upd f c id f'.
Proof.
  intros H1 H2 H3. split; try done; [by rewrite H2|].
  intros i Hi. unfold fs_cs. rewrite H2. zcase; [by subst | done].
Qed.

Lemma fs_upd_count f c u : 0 <= c < zlength (fs_csp f) -> fs_upd f c u (fs_count u c f).
Proof.
  intros Hc. split; try done; cbn; [by rewrite zlength_aset|].
  intros i Hi. unfold fs_cs. cbn. rewrite aget_aset by lia. by rewrite Z.eqb_sym.
Qed.

Lemma fs_upd_trans f c u f1 u' f2 :
  fs_upd f c u f1 -> fs_upd f1 c u' f2 -> fs_upd f c (fun x => u' (u x)) f2.
Proof.
  intros [A1 A2 A3 A4] [B1 B2 B3 B4]. split; try congruence.
  intros i Hi. rewrite B3 by lia. zcase; rewrite A3 by lia; by ztest.
Qed.

Lemma fs_upd_active f c d : fs_upd f c id (ACTIVECLEAR f d).
Proof. unfold ACTIVECLEAR. destruct (fs_active f); by apply fs_upd_id. Qed.

Lemma fs_upd_fmod f c v : fs_upd f c id (set_fs_fmod v f).
Proof. by apply fs_upd_id. Qed.

#[export] Hint Resolve fs_upd_active fs_upd_fmod : kernel.

(** The counters with [di] more free inodes and [dd] more directories. *)
Definition iadj (di dd : Z) (c : csum) : csum :=
  MkCsum (cs_ndir c + dd) (cs_nbfree c) (cs_nifree c + di) (cs_nffree c).

Lemma add_nifree_iadj d c : add_nifree d c = iadj d 0 c.
Proof. destruct c. unfold iadj, add_nifree, set_cs_nifree. cbn. f_equal; lia. Qed.

Lemma add_ndir_iadj d c : add_ndir d c = iadj 0 d c.
Proof. destruct c. unfold iadj, add_ndir, set_cs_ndir. cbn. f_equal; lia. Qed.

Lemma iadj_iadj a b a' b' c : iadj a b (iadj a' b' c) = iadj (a' + a) (b' + b) c.
Proof. unfold iadj. cbn. f_equal; lia. Qed.

Lemma iadj_0 c : iadj 0 0 c = c.
Proof. destruct c. unfold iadj. cbn. f_equal; lia. Qed.

Definition fs_iadj (f : fs) (c di dd : Z) (f' : fs) : Prop := fs_upd f c (iadj di dd) f'.

Lemma fs_upd_ext f c u u' f' : fs_upd f c u f' -> (forall x, u x = u' x) -> fs_upd f c u' f'.
Proof. intros [A1 A2 A3 A4] H. split; try done; [|by rewrite <- H]. intros. by rewrite A3, H. Qed.

Section put.
Context (st : ffs_state) (S : inodes_ok st) (c : Z) (Hc : 0 <= c < fs_ncg (st_fs st)).
Abbreviation f := (st_fs st).
Abbreviation g := (get_cg st c).

(** Group [c] replaced, its inode [i] (in the group) now as [v] says. *)
Lemma inodes_ok_put g' f' di dd :
  ino_ok f g' -> cg_cs g' = iadj di dd (cg_cs g) -> fs_upd f c (iadj di dd) f' ->
  (c = 0 -> bit (cg_inosused g') 0 = true) ->
  inodes_ok (put f' c g' st).
Proof.
  intros I Ecs [A1 A2 A3 A4] H0. destruct S as [S1 S2 S3 S4 S5 S6 S7 S8].
  assert (forall i, 0 <= i -> get_cg (put f' c g' st) i = if c =? i then g' else get_cg st i)
    as Hget by (intros i Hi; unfold get_cg; cbn; apply aget_aset; lia).
  assert (forall i, 0 <= i < fs_ncg f -> fs_cs f' i = if i =? c then iadj di dd (fs_cs f c) else fs_cs f i)
    as Hcs by (intros; apply A3; lia).
  assert (forall F : csum -> Z, zsum (Z.to_nat (fs_ncg f)) (fun i => F (fs_cs f' i)) =
    zsum (Z.to_nat (fs_ncg f)) (fun i => F (fs_cs f i)) - F (fs_cs f c) + F (iadj di dd (fs_cs f c)))
    as Hsum.
  { intros F. rewrite (zsum_update _ (fun i => F (fs_cs f i)) (fun i => F (fs_cs f' i)) c);
      [|lia|intros i Hi Hne; rewrite Hcs by lia; by ztest].
    rewrite Hcs by lia. by rewrite Z.eqb_refl. }
  split; cbn [st_fs st_cgs put]; rewrite ?A1, ?zlength_aset, ?A2; try done.
  - intros i Hi. rewrite Hget by lia. zcase; [done | by apply S4].
  - intros i Hi. rewrite Hget, Hcs by lia. rewrite (Z.eqb_sym i). zcase; [|by apply S5].
    subst. rewrite Ecs. destruct (S5 i Hi) as [E1 E2]. cbn. lia.
  - rewrite A4, (Hsum cs_nifree). cbn. lia.
  - rewrite A4, (Hsum cs_ndir). cbn. lia.
  - rewrite Hget by lia. zcase; [by apply H0 | done].
Qed.

Lemma ino_used_put g' f' ino :
  fs_sb f' = fs_sb f -> 0 <= ino < fs_ncg f * fs_ipg f ->
  ino_used (put f' c g' st) ino =
    if ino_to_cg f ino =? c then bit (cg_inosused g') (ino mod fs_ipg f)
    else ino_used st ino.
Proof.
  intros Hsb Hi. unfold ino_used. cbn [st_fs put]. unfold ino_to_cg. rewrite Hsb.
  destruct (ig_ipg _ (is_geom _ S)). unfold get_cg. cbn [st_cgs put].
  rewrite aget_aset by (rewrite ?(is_ncgs _ S); try apply Z.div_pos; lia).
  rewrite Z.eqb_sym. by zcase.
Qed.

Lemma ino_split i :
  0 <= i < fs_ipg f -> ino_to_cg f (c * fs_ipg f + i) = c /\ (c * fs_ipg f + i) mod fs_ipg f = i.
Proof.
  intros Hi. unfold ino_to_cg. split.
  - rewrite Z.div_add_l, Z.div_small by lia. lia.
  - by rewrite Z.add_comm, Z_mod_plus_full, Z.mod_small.
Qed.

Lemma ino_eq i ino :
  0 <= i < fs_ipg f -> (ino =? c * fs_ipg f + i) =
    (ino_to_cg f ino =? c) && (ino mod fs_ipg f =? i).
Proof.
  intros Hi. destruct (ino_split i Hi) as [E1 E2]. destruct (ig_ipg _ (is_geom _ S)).
  destruct (Z.eqb_spec ino (c * fs_ipg f + i)) as [->|Hne].
  { by rewrite E1, E2, !Z.eqb_refl. }
  unfold ino_to_cg in *. pose proof (Z.div_mod ino (fs_ipg f) ltac:(lia)) as D.
  destruct (Z.eqb_spec (ino / fs_ipg f) c) as [<-|]; [|done]. cbn [andb]. zcase; [lia|done].
Qed.
End put.

(** ** Inode operations leave the blocks alone *)

Definition same_blocks (g g' : cg) : Prop :=
  cg_magic g' = cg_magic g /\ cg_cgx g' = cg_cgx g /\ cg_ndblk g' = cg_ndblk g /\
  cg_blksfree g' = cg_blksfree g /\ cg_frsum g' = cg_frsum g /\ cg_frotor g' = cg_frotor g /\
  cg_nclusterblks g' = cg_nclusterblks g /\ cg_clustersfree g' = cg_clustersfree g /\
  cg_clustersum g' = cg_clustersum g /\
  cs_nbfree (cg_cs g') = cs_nbfree (cg_cs g) /\ cs_nffree (cg_cs g') = cs_nffree (cg_cs g).

Record blocks_same (st st' : ffs_state) : Prop := {
  bs_sb : fs_sb (st_fs st') = fs_sb (st_fs st);
  bs_ncgs : zlength (st_cgs st') = zlength (st_cgs st);
  bs_ncsp : zlength (fs_csp (st_fs st')) = zlength (fs_csp (st_fs st));
  bs_cg : forall c, 0 <= c < fs_ncg (st_fs st) -> same_blocks (get_cg st c) (get_cg st' c);
  bs_cs : forall c, 0 <= c < fs_ncg (st_fs st) ->
    exists di dd, fs_cs (st_fs st') c = iadj di dd (fs_cs (st_fs st) c) /\
      cg_cs (get_cg st' c) = iadj di dd (cg_cs (get_cg st c));
  bs_nbfree : cs_nbfree (fs_cstotal (st_fs st')) = cs_nbfree (fs_cstotal (st_fs st));
  bs_nffree : cs_nffree (fs_cstotal (st_fs st')) = cs_nffree (fs_cstotal (st_fs st))
}.

Lemma same_blocks_refl g : same_blocks g g.
Proof. by repeat split. Qed.

Lemma same_blocks_trans g1 g2 g3 : same_blocks g1 g2 -> same_blocks g2 g3 -> same_blocks g1 g3.
Proof. unfold same_blocks. intuition congruence. Qed.

Lemma blocks_same_refl st : blocks_same st st.
Proof.
  split; try done.
  intros c Hc. exists 0, 0. by rewrite !iadj_0.
Qed.

Lemma blocks_same_trans st1 st2 st3 :
  blocks_same st1 st2 -> blocks_same st2 st3 -> blocks_same st1 st3.
Proof.
  intros [A1 A2 A3 A4 A5 A6 A7] [B1 B2 B3 B4 B5 B6 B7]. rewrite A1 in B4, B5.
  split; try congruence; intros c Hc; [eapply same_blocks_trans; auto|].
  destruct (A5 c Hc) as (a & b & E1 & E2), (B5 c Hc) as (a' & b' & F1 & F2).
  exists (a + a'), (b + b'). rewrite F1, F2, E1, E2. by rewrite !iadj_iadj.
Qed.

Lemma blocks_same_put st c g' f' di dd :
  zlength (st_cgs st) = fs_ncg (st_fs st) -> zlength (fs_csp (st_fs st)) = fs_ncg (st_fs st) ->
  0 <= c < fs_ncg (st_fs st) -> same_blocks (get_cg st c) g' ->
  cg_cs g' = iadj di dd (cg_cs (get_cg st c)) -> fs_upd (st_fs st) c (iadj di dd) f' ->
  blocks_same st (put f' c g' st).
Proof.
  intros H1 H2 Hc Hs Ecs [A1 A2 A3 A4].
  assert (forall i, 0 <= i -> get_cg (put f' c g' st) i = if c =? i then g' else get_cg st i)
    as Hget by (intros i Hi; unfold get_cg; cbn; apply aget_aset; lia).
  split; cbn [st_fs st_cgs put]; rewrite ?zlength_aset, ?A4; try done.
  - intros i Hi. rewrite Hget by lia. zcase; [by subst | apply same_blocks_refl].
  - intros i Hi. rewrite Hget, A3 by lia. rewrite (Z.eqb_sym i). zcase; [subst; eauto|].
    exists 0, 0. by rewrite !iadj_0.
Qed.

(** The block invariant is a property of what these operations keep. *)
Lemma state_ok_same st st' : state_ok st -> blocks_same st st' -> state_ok st'.
Proof.
  intros [S1 S2 S3 S4 S5 S6 S7 S8] [A1 A2 A3 A4 A5 A6 A7].
  assert (forall c, 0 <= c < fs_ncg (st_fs st) ->
    cs_nbfree (fs_cs (st_fs st') c) = cs_nbfree (fs_cs (st_fs st) c) /\
    cs_nffree (fs_cs (st_fs st') c) = cs_nffree (fs_cs (st_fs st) c)) as Hcs.
  { intros c Hc. by destruct (A5 c Hc) as (di & dd & -> & _). }
  split; rewrite ?A1, ?A2, ?A3; try done.
  - intros c Hc. destruct (S4 c Hc) as [I1 I2 I3 I4 I5 I6 I7].
    destruct (A4 c Hc) as (B1 & B2 & B3 & B4 & B5 & B6 & B7 & B8 & B9 & B10 & B11).
    split; rewrite ?B2, ?B3, ?B4, ?B5, ?B6, ?B10, ?B11; try done.
    + unfold cg_chkmagic in *. by rewrite B1.
    + intros Hct. destruct (I7 Hct) as [C1 C2 C3 [C4 C5]].
      split; rewrite ?B4, ?B7, ?B8, ?B3; try done.
      split; [by rewrite B9|]. intros k Hk. rewrite B9, C5 by done. f_equal.
      unfold cluster_bits. by rewrite B7, B8.
  - intros c Hc. destruct (A5 c Hc) as (di & dd & -> & ->). by rewrite S5.
  - rewrite A6, S6. apply zsum_ext. intros i Hi. symmetry. apply Hcs. lia.
  - rewrite A7, S7. apply zsum_ext. intros i Hi. symmetry. apply Hcs. lia.
  - destruct (A4 0) as (_ & _ & _ & -> & _); [|done]. pose proof (geom_ncg _ S1). lia.
Qed.

(** ** ffs_nodealloccg *)

(** Inode [r] was free and is in use; nothing else changed. *)
Record ino_taken (st : ffs_state) (r : Z) (st' : ffs_state) : Prop := {
  taken_ok : inodes_ok st';
  taken_blocks : blocks_same st st';
  taken_pos : 0 < r < fs_ncg (st_fs st) * fs_ipg (st_fs st);
  taken_was_free : ino_used st r = false;
  taken_used : forall ino, 0 <= ino < fs_ncg (st_fs st) * fs_ipg (st_fs st) ->
    ino_used st' ino = ino_used st ino || (ino =? r);
  (** UFS2: its dinode is initialised on disk *)
  taken_inited : fs_magic (st_fs st) = FS_UFS2_MAGIC ->
    r mod fs_ipg (st_fs st) < cg_initediblk (get_cg st' (ino_to_cg (st_fs st) r))
}.

(** [initediblk] moved on: more dinodes are initialised. *)
Lemma ino_ok_inited s g k : ino_ok s g -> cg_initediblk g <= k -> ino_ok s (set_cg_initediblk k g).
Proof.
  intros [I1 I2 I3 I4 I5 I6] Hk. split; try done; cbn; [lia|].
  intros Hm. destruct (I6 Hm) as [N U]. split; [done|]. intros i Hi Hb. specialize (U i Hi Hb). lia.
Qed.

(** The group after inode [i] was taken. *)
Definition ino_taken_cg (time : Z) (i mode : Z) (g : cg) : cg :=
  let g := set_cg_irotor i (touch time g) in
  let g := set_cg_inosused (setbit (cg_inosused g) i) g in
  let g := set_cg_cs (add_nifree (-1) (cg_cs g)) g in
  if is_dir mode then set_cg_cs (add_ndir 1 (cg_cs g)) g else g.

Lemma ino_taken_cg_ok s time i mode g :
  ino_geom s -> ino_ok s g -> 0 <= i < fs_ipg s -> bit (cg_inosused g) i = false ->
  (fs_magic s = FS_UFS2_MAGIC -> i < cg_initediblk g) ->
  let g' := ino_taken_cg time i mode g in
  ino_ok s g' /\ same_blocks g g' /\
  cg_cs g' = iadj (-1) (indicator (is_dir mode)) (cg_cs g) /\
  cg_initediblk g' = cg_initediblk g /\
  forall j, 0 <= j -> bit (cg_inosused g') j = bit (cg_inosused g) j || (j =? i).
Proof.
  intros G I Hi Hb Hinit g'. destruct (ig_ipg s G) as [H0 H8].
  destruct I as [I1 [I2 I2b] I3 I4 I5 I6].
  assert (cg_inosused g' = setbit (cg_inosused g) i) as Em
    by (unfold g', ino_taken_cg; by case (is_dir mode)).
  assert (cg_cs g' = iadj (-1) (indicator (is_dir mode)) (cg_cs g)) as Ecs.
  { unfold g', ino_taken_cg. case (is_dir mode); cbn;
      rewrite ?add_ndir_iadj, add_nifree_iadj, ?iadj_iadj; f_equal; lia. }
  assert (cg_initediblk g' = cg_initediblk g) as Eini
    by (unfold g', ino_taken_cg; by case (is_dir mode)).
  assert (forall j, 0 <= j -> bit (cg_inosused g') j = bit (cg_inosused g) j || (j =? i)) as Hbits.
  { intros j Hj. rewrite Em, bit_setbit by dlia. rewrite orb_comm. f_equal. apply Z.eqb_sym. }
  split_and!; try done; [split|].
  - unfold g', ino_taken_cg. by case (is_dir mode).
  - rewrite Em. by apply setbit_bitmap.
  - rewrite Ecs, (clear_bits_update (fs_ipg s) (cg_inosused g) _ i); [|done|].
    + rewrite Hbits, Hb, Z.eqb_refl by lia. cbn. lia.
    + intros j Hj Hne. rewrite Hbits by done. ztest. by rewrite orb_false_r.
  - unfold g', ino_taken_cg. by case (is_dir mode).
  - by rewrite Eini.
  - intros Hm. destruct (I6 Hm) as [N U]. split.
    + unfold g', ino_taken_cg. by case (is_dir mode).
    + intros j Hj. rewrite Hbits, Eini by lia. intros Hu. apply orb_prop in Hu as [Hu|Hu].
      * by apply U.
      * apply Z.eqb_eq in Hu. subst. by apply Hinit.
  - unfold g', ino_taken_cg. by case (is_dir mode).
Qed.

(** The superblock follows. *)
Definition ino_taken_fs (c mode : Z) (f : fs) : fs :=
  let f := ACTIVECLEAR f c in
  let f := fs_count (add_nifree (-1)) c f in
  let f := set_fs_fmod 1 f in
  if is_dir mode then fs_count (add_ndir 1) c f else f.

Lemma ino_taken_fs_upd (f : fs) c mode :
  0 <= c < zlength (fs_csp f) ->
  fs_upd f c (iadj (-1) (indicator (is_dir mode))) (ino_taken_fs c mode f).
Proof.
  intros Hc. unfold ino_taken_fs.
  pose proof (fs_upd_active f c c) as A1. pose proof (upd_length _ _ _ _ A1) as L1.
  pose proof (fs_upd_count (ACTIVECLEAR f c) c (add_nifree (-1)) ltac:(lia)) as A2.
  pose proof (upd_length _ _ _ _ A2) as L2.
  pose proof (fs_upd_trans _ _ _ _ _ _ (fs_upd_trans _ _ _ _ _ _ A1 A2) (fs_upd_fmod _ c 1)) as A3.
  case (is_dir mode).
  - eapply fs_upd_ext; [eapply fs_upd_trans; [exact A3 | apply fs_upd_count; cbn in *; lia]|].
    intros x. cbn [id]. by rewrite add_nifree_iadj, add_ndir_iadj, iadj_iadj.
  - eapply fs_upd_ext; [exact A3|]. intros x. cbn [id]. by rewrite add_nifree_iadj.
Qed.

(** The errno of a group that could not be read again was returned; no
    inode was taken. *)
Definition reread_failed (reread_error : Z -> Z -> Z) (st : ffs_state) (c r : Z)
    (st' : ffs_state) : Prop :=
  fs_magic (st_fs st) = FS_UFS2_MAGIC /\ r <> 0 /\ (exists i, reread_error c i = r) /\
  inodes_ok st' /\ blocks_same st st' /\
  forall ino, 0 <= ino < fs_ncg (st_fs st) * fs_ipg (st_fs st) ->
    ino_used st' ino = ino_used st ino.

Section nodealloc.
Context {K : Libkern} {KS : LibkernSpec K}.
Context (bread_error : Z -> bool) (time_second : Z) (reread_error : Z -> Z -> Z).
Context (c mode : Z).

Lemma take_inode st i :
  inodes_ok st -> 0 <= c < fs_ncg (st_fs st) -> 0 <= i < fs_ipg (st_fs st) ->
  bit (cg_inosused (get_cg st c)) i = false ->
  (fs_magic (st_fs st) = FS_UFS2_MAGIC -> i < cg_initediblk (get_cg st c)) ->
  ino_taken st (c * fs_ipg (st_fs st) + i)
    (put (ino_taken_fs c mode (st_fs st)) c (ino_taken_cg time_second i mode (get_cg st c)) st).
Proof.
  intros S Hc Hi Hb Hinit. pose proof (is_geom _ S) as G. destruct (ig_ipg _ G) as [H0 H8].
  destruct (ino_taken_cg_ok _ time_second i mode _ G (is_cg _ S c Hc) Hi Hb Hinit)
    as (A1 & A2 & A3 & A4 & A5).
  pose proof (ino_taken_fs_upd (st_fs st) c mode ltac:(rewrite (is_ncsp _ S); done)) as U.
  destruct (ino_split st c i Hi) as [E1 E2].
  split.
  - eapply inodes_ok_put; try done. intros ->. rewrite A5, (is_zero _ S) by done. done.
  - eapply blocks_same_put; try done; apply S.
  - enough (c * fs_ipg (st_fs st) + i <> 0) by nia.
    intros E. assert (c = 0 /\ i = 0) as [-> ->] by nia. by rewrite (is_zero _ S) in Hb.
  - unfold ino_used. by rewrite E1, E2.
  - intros ino Hino. rewrite (ino_used_put st S c Hc) by (apply U || done).
    rewrite (ino_eq st S c Hc i ino Hi). destruct (Z.eqb_spec (ino_to_cg (st_fs st) ino) c) as [E|].
    + rewrite A5 by (apply Z.mod_pos_bound; lia). unfold ino_used. by rewrite E.
    + by rewrite orb_false_r.
  - intros Hm. rewrite E1, E2. unfold get_cg. cbn [st_cgs put].
    rewrite aget_aset by (rewrite ?(is_ncgs _ S); lia). rewrite Z.eqb_refl.
    fold (get_cg st c). rewrite A4. by apply Hinit.
Qed.

(** Initialising one more inode block changes nothing that shows. *)
Lemma init_block st :
  inodes_ok st -> 0 <= c < fs_ncg (st_fs st) ->
  let st1 := put (ACTIVECLEAR (st_fs st) c) c
    (set_cg_initediblk (cg_initediblk (get_cg st c) + INOPB (st_fs st)) (get_cg st c)) st in
  inodes_ok st1 /\ blocks_same st st1 /\
  (forall ino, 0 <= ino < fs_ncg (st_fs st) * fs_ipg (st_fs st) ->
    ino_used st1 ino = ino_used st ino) /\
  get_cg st1 c = set_cg_initediblk (cg_initediblk (get_cg st c) + INOPB (st_fs st)) (get_cg st c).
Proof.
  intros S Hc st1. pose proof (is_cg _ S c Hc) as I. pose proof (ig_inopb _ (is_geom _ S)) as Hb.
  pose proof (fs_upd_active (st_fs st) c c) as U.
  assert (fs_upd (st_fs st) c (iadj 0 0) (ACTIVECLEAR (st_fs st) c)) as U0
    by (eapply fs_upd_ext; [exact U|]; intros; by rewrite iadj_0).
  assert (ino_ok (st_fs st) (set_cg_initediblk (cg_initediblk (get_cg st c) + INOPB (st_fs st))
    (get_cg st c))) as I1 by (apply ino_ok_inited; [done | unfold INOPB; lia]).
  split_and!.
  - eapply inodes_ok_put; try done; cbn; [by rewrite iadj_0|]. intros ->. apply S.
  - eapply blocks_same_put; try done; try apply S. cbn. by rewrite iadj_0.
  - intros ino Hino. unfold st1. rewrite (ino_used_put st S c Hc) by (apply U || done).
    zcase; [|done]. unfold ino_used. by subst.
  - unfold st1, get_cg. cbn [st_cgs put]. rewrite aget_aset by (rewrite ?(is_ncgs _ S); lia).
    by rewrite Z.eqb_refl.
Qed.

(** The group was given up: only its mark of being active is gone. *)
Lemma active_failed st :
  inodes_ok st -> fs_magic (st_fs st) = FS_UFS2_MAGIC ->
  reread_error c (cg_initediblk (get_cg st c)) <> 0 ->
  reread_failed reread_error st c (reread_error c (cg_initediblk (get_cg st c)))
    (MkState (ACTIVECLEAR (st_fs st) c) (st_cgs st)).
Proof.
  intros [S1 S2 S3 S4 S5 S6 S7 S8] Hm Hre. split; [done|]. split; [done|]. split; [by eexists|].
  unfold ACTIVECLEAR. case (fs_active (st_fs st)).
  all: split; [by split|]; split; [|done]; split; try done.
  all: intros i Hi; exists 0, 0; by rewrite !iadj_0.
Qed.

(** The inode that a preference names. *)
Definition preferred (st : ffs_state) (ipref r : Z) : Prop :=
  let i := ipref mod fs_ipg (st_fs st) in
  i <> 0 -> bit (cg_inosused (get_cg st c)) i = false -> r = c * fs_ipg (st_fs st) + i.

Lemma nodealloc_restart_ok fuel st ipref :
  inodes_ok st -> 0 <= c < fs_ncg (st_fs st) -> cs_nifree (cg_cs (get_cg st c)) <> 0 ->
  cg_niblk (get_cg st c) - cg_initediblk (get_cg st c) < Z.of_nat fuel -> (0 < fuel)%nat ->
  exists r st', nodealloc_restart time_second reread_error fuel st c ipref mode = Ok (r, st') /\
    (ino_taken st r st' /\ ino_to_cg (st_fs st) r = c /\ preferred st ipref r \/
     reread_failed reread_error st c r st').
Proof.
  revert st ipref. induction fuel as [|fuel IH]; intros st ipref S Hc Hn Hfuel Hpos; [lia|].
  pose proof (is_geom _ S) as G. pose proof (is_cg _ S c Hc) as I. destruct (ig_ipg _ G) as [H0 H8].
  cbn [nodealloc_restart]. rewrite (ino_magic _ _ I). rewrite (proj2 (Z.eqb_neq _ _) Hn). cbn [negb orb].
  assert (exists i, (if negb (ipref =? 0) && isclr (cg_inosused (get_cg st c)) (ipref mod fs_ipg (st_fs st))
      then Ok (ipref mod fs_ipg (st_fs st)) else nodealloc_search (st_fs st) (get_cg st c)) = Ok i /\
    0 <= i < fs_ipg (st_fs st) /\ bit (cg_inosused (get_cg st c)) i = false /\
    (ipref mod fs_ipg (st_fs st) <> 0 ->
     bit (cg_inosused (get_cg st c)) (ipref mod fs_ipg (st_fs st)) = false ->
     i = ipref mod fs_ipg (st_fs st))) as (i & -> & Hi & Hb & Hpref).
  { rewrite isclr_bit. pose proof (Z.mod_pos_bound ipref (fs_ipg (st_fs st)) H0).
    destruct (negb (ipref =? 0) && negb (bit (cg_inosused (get_cg st c))
      (ipref mod fs_ipg (st_fs st)))) eqn:E.
    - bool_to_prop. eexists. split; [reflexivity|]. split_and!; done || lia.
    - destruct (nodealloc_search_correct (st_fs st) G _ I Hn) as (i & -> & Hi & Hb).
      exists i. split_and!; try done; try lia. intros H1 H2. rewrite H2 in E.
      rewrite andb_true_r in E. bool_to_prop. subst. by rewrite Z.mod_0_l in H1 by lia. }
  rewrite bind_Ok. destruct (ino_split st c i Hi) as [E1 E2].
  destruct ((fs_magic (st_fs st) =? FS_UFS2_MAGIC) &&
    (cg_initediblk (get_cg st c) <? i + INOPB (st_fs st)) &&
    (cg_initediblk (get_cg st c) <? cg_niblk (get_cg st c))) eqn:Einit.
  - destruct (Z.eqb_spec (reread_error c (cg_initediblk (get_cg st c))) 0) as [_|Hre]; cbn [negb];
      [|bool_to_prop; by eexists _, _; split; [reflexivity|]; right; apply active_failed].
    bool_to_prop. destruct (init_block st S Hc) as (S1 & B1 & U1 & Eg).
    cbv zeta. rewrite (upd_sb _ _ _ _ (fs_upd_active (st_fs st) c c)).
    set (st1 := put _ c _ st) in *. pose proof (ig_inopb _ G) as Hinopb.
    assert (fs_sb (st_fs st1) = fs_sb (st_fs st)) as Esb by apply B1.
    assert (cg_inosused (get_cg st1 c) = cg_inosused (get_cg st c)) as Em by by rewrite Eg.
    destruct (IH st1 i) as (r & st' & -> & IH1); try done;
      [by rewrite Esb | by rewrite Eg | rewrite Eg; unfold INOPB in *; cbn; lia |
       unfold INOPB in *; lia |].
    exists r, st'. split; [done|]. destruct IH1 as [(T & Hr & Hp) | F]; [left | right].
    2: { destruct F as (F0 & F1 & F2 & F3 & F4 & F5). rewrite Esb in F0, F5.
      split_and!; try done; [by eapply blocks_same_trans|]. intros ino Hino. by rewrite F5, U1. }
    rewrite Esb in Hr. split; [|split; [done|]].
    + destruct T as [T1 T2 T3 T4 T5 T6]. rewrite Esb in T3, T5, T6.
      split; try done; [by eapply blocks_same_trans | by rewrite <- U1 by lia |].
      intros ino Hino. by rewrite T5, U1.
    + unfold preferred in *. intros Hz Hf. specialize (Hpref Hz Hf). rewrite Esb, Em in Hp.
      subst i. rewrite Z.mod_mod in Hp by lia. by apply Hp.
  - exists (c * fs_ipg (st_fs st) + i), (put (ino_taken_fs c mode (st_fs st)) c
      (ino_taken_cg time_second i mode (get_cg st c)) st).
    split.
    { pose proof (ino_taken_fs_upd (st_fs st) c mode ltac:(rewrite (is_ncsp _ S); done)) as U.
      transitivity (Ok (c * fs_ipg (ino_taken_fs c mode (st_fs st)) + i,
        put (ino_taken_fs c mode (st_fs st)) c
          (ino_taken_cg time_second i mode (get_cg st c)) st)); [reflexivity|].
      by rewrite (upd_sb _ _ _ _ U). }
    left. split; [|split; [done|]].
    + apply take_inode; try done. intros Hm. destruct (ino_init_used _ _ I Hm) as [N _].
      pose proof (ig_inopb _ G). rewrite Hm, Z.eqb_refl in Einit. cbn [andb] in Einit.
      unfold INOPB in Einit. apply andb_false_iff in Einit as [Einit|Einit]; bool_to_prop; lia.
    + unfold preferred. intros H1 H2. by rewrite (Hpref H1 H2).
Qed.

Lemma nodealloccg_post st ipref unused :
  inodes_ok st -> 0 <= c < fs_ncg (st_fs st) ->
  exists r st', ffs_nodealloccg bread_error time_second reread_error st c ipref mode unused
      = Ok (r, st') /\
    (r = 0 /\ st' = st /\ (cs_nifree (fs_cs (st_fs st) c) = 0 \/ bread_error c = true) \/
     ino_taken st r st' /\ ino_to_cg (st_fs st) r = c /\ preferred st ipref r \/
     reread_failed reread_error st c r st').
Proof.
  intros S Hc. unfold ffs_nodealloccg. destruct (is_cs _ S c Hc) as [E _].
  zcase; [exists 0, st; split; [done|]; left; auto|].
  destruct (bread_error c); [exists 0, st; split; [done|]; left; auto|].
  pose proof (ino_inited _ _ (is_cg _ S c Hc)).
  destruct (nodealloc_restart_ok (Z.to_nat (cg_niblk (get_cg st c)) + 2) st ipref)
    as (r & st' & -> & Hpost); try done; [congruence | lia | lia |].
  exists r, st'. split; [done|]. by right.
Qed.
End nodealloc.

Lemma ino_taken_inrange st r st' : ino_taken st r st' -> r <> 0.
Proof. intros T. pose proof (taken_pos _ _ _ T). lia. Qed.

(** ** ffs_freefile *)

(** Inode [ino] was in use and is free; nothing else changed. *)
Record ino_freed (st : ffs_state) (r : Z) (st' : ffs_state) : Prop := {
  ifreed_ok : inodes_ok st';
  ifreed_blocks : blocks_same st st';
  ifreed_used : forall ino, 0 <= ino < fs_ncg (st_fs st) * fs_ipg (st_fs st) ->
    ino_used st' ino = ino_used st ino && negb (ino =? r)
}.

(** The group and the superblock after inode [i] was given back. *)
Definition ino_freed_cg (time : Z) (i mode : Z) (g : cg) : cg :=
  let g := touch time g in
  let g := set_cg_inosused (clrbit (cg_inosused g) i) g in
  let g := if i <? cg_irotor g then set_cg_irotor i g else g in
  let g := set_cg_cs (add_nifree 1 (cg_cs g)) g in
  if is_dir mode then set_cg_cs (add_ndir (-1) (cg_cs g)) g else g.

Definition ino_freed_fs (c mode : Z) (f : fs) : fs :=
  let f := fs_count (add_nifree 1) c f in
  let f := if is_dir mode then fs_count (add_ndir (-1)) c f else f in
  ACTIVECLEAR (set_fs_fmod 1 f) c.

Lemma ino_freed_cg_ok s time i mode g :
  ino_geom s -> ino_ok s g -> 0 <= i < fs_ipg s -> bit (cg_inosused g) i = true ->
  let g' := ino_freed_cg time i mode g in
  ino_ok s g' /\ same_blocks g g' /\
  cg_cs g' = iadj 1 (- indicator (is_dir mode)) (cg_cs g) /\
  forall j, 0 <= j -> bit (cg_inosused g') j = bit (cg_inosused g) j && negb (j =? i).
Proof.
  intros G I Hi Hb g'. destruct (ig_ipg s G) as [H0 H8].
  destruct I as [I1 [I2 I2b] I3 I4 I5 I6].
  assert (exists rot cs, 0 <= rot < fs_ipg s /\ cs = iadj 1 (- indicator (is_dir mode)) (cg_cs g) /\
    g' = set_cg_cs cs (set_cg_irotor rot (set_cg_inosused (clrbit (cg_inosused g) i) (touch time g))))
    as (rot & cs & Hrot & Ecs & Eg).
  { exists (if i <? cg_irotor g then i else cg_irotor g), (iadj 1 (- indicator (is_dir mode)) (cg_cs g)).
    split; [by zcase|]. split; [done|]. unfold g', ino_freed_cg. cbn [cg_irotor set_cg_inosused touch
      set_cg_old_time set_cg_time]. case (i <? cg_irotor g); case (is_dir mode); cbn;
      rewrite ?add_ndir_iadj, add_nifree_iadj, ?iadj_iadj; done. }
  assert (forall j, 0 <= j -> bit (cg_inosused g') j = bit (cg_inosused g) j && negb (j =? i)) as Hbits.
  { intros j Hj. rewrite Eg. cbn [cg_inosused set_cg_cs set_cg_irotor set_cg_inosused].
    rewrite bit_clrbit by dlia. rewrite andb_comm. do 2 f_equal. apply Z.eqb_sym. }
  split_and!; try done; [split | | ].
  - by rewrite Eg.
  - rewrite Eg. by apply clrbit_bitmap.
  - rewrite (clear_bits_update (fs_ipg s) (cg_inosused g) _ i); [|done|].
    + rewrite Hbits, Hb, Z.eqb_refl by lia. rewrite Eg, Ecs. cbn. lia.
    + intros j Hj Hne. rewrite Hbits by done. ztest. by rewrite andb_true_r.
  - by rewrite Eg.
  - by rewrite Eg.
  - intros Hm. destruct (I6 Hm) as [N U]. split; [by rewrite Eg|].
    intros j Hj. rewrite Hbits by lia. intros Hu. apply andb_prop in Hu as [Hu _].
    rewrite Eg. by apply U.
  - rewrite Eg, Ecs. by repeat split.
  - by rewrite Eg, Ecs.
Qed.

Lemma ino_freed_fs_upd (f : fs) c mode :
  0 <= c < zlength (fs_csp f) ->
  fs_upd f c (iadj 1 (- indicator (is_dir mode))) (ino_freed_fs c mode f).
Proof.
  intros Hc. unfold ino_freed_fs. pose proof (fs_upd_count f c (add_nifree 1) Hc) as A1.
  pose proof (upd_length _ _ _ _ A1) as L1.
  set (f2 := if is_dir mode then _ else _).
  assert (fs_upd f c (iadj 1 (- indicator (is_dir mode))) f2) as A2.
  { unfold f2. case (is_dir mode).
    - eapply fs_upd_ext; [eapply fs_upd_trans; [exact A1 | apply fs_upd_count; lia]|].
      intros x. cbn. by rewrite add_nifree_iadj, add_ndir_iadj, iadj_iadj.
    - eapply fs_upd_ext; [exact A1|]. intros x. by rewrite add_nifree_iadj. }
  eapply fs_upd_ext; [eapply fs_upd_trans; [eapply fs_upd_trans; [exact A2 | apply fs_upd_fmod]|
    apply fs_upd_active] | done].
Qed.

Section freefile.
Context (bread_error : Z -> bool) (time_second : Z).
Context (st : ffs_state) (S : inodes_ok st).
Abbreviation f := (st_fs st).

Lemma freefile_ok ino mode :
  0 < ino < u32 (fs_ipg f * fs_ncg f) -> fs_ncg f * fs_ipg f < 2 ^ 32 ->
  ino_used st ino = true -> bread_error (ino_to_cg f ino) = false ->
  exists st', ffs_freefile bread_error time_second st ino mode = Ok (0, st') /\
    ino_freed st ino st'.
Proof.
  intros Hino Hsmall Hused Hbr. pose proof (is_geom _ S) as G. destruct (ig_ipg _ G) as [H0 H8].
  pose proof (ig_ncg _ G) as Hncg.
  assert (u32 (fs_ipg f * fs_ncg f) = fs_ncg f * fs_ipg f) as Eu
    by (unfold u32; rewrite Z.mod_small; lia). rewrite Eu in Hino.
  set (c := ino_to_cg f ino) in *. set (i := ino mod fs_ipg f).
  assert (0 <= i < fs_ipg f) as Hi by (apply Z.mod_pos_bound; lia).
  assert (0 <= c < fs_ncg f) as Hc.
  { unfold c, ino_to_cg. split; [apply Z.div_pos; lia | apply Z.div_lt_upper_bound; lia]. }
  assert (c * fs_ipg f + i = ino) as Ei.
  { unfold c, i, ino_to_cg. pose proof (Z.div_mod ino (fs_ipg f)). lia. }
  pose proof (is_cg _ S c Hc) as I. destruct I as [I1 [I2 I2b] I3 I4 I5 I6].
  unfold ffs_freefile. fold c. rewrite Eu, Hbr, I1. ztest. cbn [require negb]. rewrite bind_Ok.
  assert (bit (cg_inosused (get_cg st c)) i = true) as Hb by exact Hused.
  fold i. change (cg_inosused (touch time_second (get_cg st c))) with (cg_inosused (get_cg st c)).
  rewrite isclr_bit, Hb. cbn [negb andb require]. rewrite bind_Ok. cbv zeta.
  exists (put (ino_freed_fs c mode f) c (ino_freed_cg time_second i mode (get_cg st c)) st).
  split; [reflexivity|].
  destruct (ino_freed_cg_ok f time_second i mode _ G (is_cg _ S c Hc) Hi Hb)
    as (A1 & A2 & A3 & A4).
  pose proof (ino_freed_fs_upd f c mode ltac:(rewrite (is_ncsp _ S); done)) as U.
  split.
  - eapply inodes_ok_put; try done. intros Ec. rewrite A4 by done.
    rewrite Ec in Ei |- *. rewrite (is_zero _ S). ztest. done.
  - eapply blocks_same_put; try done; apply S.
  - intros j Hj. rewrite (ino_used_put st S c Hc) by (apply U || done).
    rewrite <- Ei, (ino_eq st S c Hc i j Hi).
    destruct (Z.eqb_spec (ino_to_cg f j) c) as [Ec|]; [|by rewrite andb_true_r].
    rewrite A4 by (apply Z.mod_pos_bound; lia). unfold ino_used. by rewrite Ec.
Qed.

(** Freeing an inode that is free panics, on a file system mounted for
    writing. *)
Lemma freefile_free ino mode :
  0 <= ino < u32 (fs_ipg f * fs_ncg f) -> fs_ncg f * fs_ipg f < 2 ^ 32 ->
  ino_used st ino = false -> bread_error (ino_to_cg f ino) = false -> fs_ronly f = 0 ->
  exists msg, ffs_freefile bread_error time_second st ino mode = Panic msg.
Proof.
  intros Hino Hsmall Hused Hbr Hro. pose proof (is_geom _ S) as G. destruct (ig_ipg _ G) as [H0 H8].
  pose proof (ig_ncg _ G) as Hncg.
  assert (u32 (fs_ipg f * fs_ncg f) = fs_ncg f * fs_ipg f) as Eu
    by (unfold u32; rewrite Z.mod_small; lia).
  assert (0 <= ino_to_cg f ino < fs_ncg f) as Hc.
  { unfold ino_to_cg. split; [apply Z.div_pos; lia | apply Z.div_lt_upper_bound; lia]. }
  unfold ffs_freefile. rewrite Hbr, (ino_magic _ _ (is_cg _ S _ Hc)). ztest.
  cbn [require negb]. rewrite bind_Ok, isclr_bit.
  unfold ino_used in Hused. cbn [touch cg_inosused set_cg_old_time set_cg_time]. rewrite Hused. by eexists.
Qed.
End freefile.
