(* ===== verification/FfsTop.v ===== *)
(** The entry points: [ffs_alloc] over [ffs_hashalloc] over [ffs_alloccg], and
    [ffs_valloc] over [ffs_nodealloccg]. Each per-group allocator is an
    instance of the interface of [ffs_hashalloc]. *)

From S2P Require Import Prelude Bitmap Fs FfsSubr FfsAlloc FfsMap FfsInv FfsBlocks FfsState.
From S2P Require Import FfsHash FfsInode.

(** ** Charging the inode *)

(** The file has [size] more bytes of disk, in sectors of 512 bytes; its
    change time is due, and unless the blocks are for extended attributes its
    modification time too. *)
Definition charged (flags size : Z) (ip ip' : inode) : Prop :=
  ip' = MkInode (i_number ip) (i_mode ip) (i_size ip) (di_db ip) (di_ib ip)
          (i_blocks ip + u64 size / 512) (i_flag ip') /\
  forall k, 0 <= k -> Z.testbit (i_flag ip') k =
    Z.testbit (i_flag ip) k || (k =? 1) || ((k =? 2) && negb (Z.testbit flags 10)).

Lemma charge_charged flags size ip : charged flags size ip (charge flags size ip).
Proof.
  unfold charge, btodb, DEV_BSHIFT. rewrite Z.shiftr_div_pow2 by lia. change (2 ^ 9) with 512.
  change IO_EXT with (Z.shiftl 1 10). rewrite land_pow2_testbit, negb_involutive by lia.
  split; [by destruct (Z.testbit flags 10)|]. intros k Hk.
  assert (Z.testbit IN_CHANGE k = (k =? 1)) as H1.
  { change IN_CHANGE with (2 ^ 1). rewrite Z.pow2_bits_eqb by lia. apply Z.eqb_sym. }
  assert (Z.testbit IN_UPDATE k = (k =? 2)) as H2.
  { change IN_UPDATE with (2 ^ 2). rewrite Z.pow2_bits_eqb by lia. apply Z.eqb_sym. }
  destruct (Z.testbit flags 10); cbn [i_flag set_i_flag set_i_blocks negb];
    rewrite !Z.lor_spec, H1, ?H2, ?andb_true_r, ?andb_false_r, ?orb_false_r, ?orb_assoc; done.
Qed.

(** ** Blocks *)

Section blocks.
Context {K : Libkern} {KS : LibkernSpec K}.
Context (bread_error : Z -> bool) (time_second : Z) (s : superblock).

Definition blocks_good (st : ffs_state) : Prop := state_ok st /\ fs_sb (st_fs st) = s.

(** Group [c] cannot be read, or has no whole free block. *)
Definition blocks_exhausted (st : ffs_state) (c : Z) : Prop :=
  cs_nbfree (fs_cs (st_fs st) c) = 0 \/ bread_error c = true.

Lemma alloc_none_good st st' : blocks_good st -> alloc_none st st' -> blocks_good st'.
Proof. intros [S E] (A & B & _). split; [done | congruence]. Qed.

Lemma alloc_none_exhausted st st' c :
  blocks_good st -> 0 <= c < fs_ncg s -> alloc_none st st' -> blocks_exhausted st' c ->
  blocks_exhausted st c.
Proof.
  intros [S E] Hc (_ & _ & _ & A & _). unfold blocks_exhausted. by rewrite A by (rewrite E; done).
Qed.

Lemma alloc_none_some st st1 r n st' :
  alloc_none st st1 -> alloc_some st1 r n st' -> alloc_some st r n st'.
Proof.
  intros (S & E & Hf & _ & Hr & _) [A1 A2 A3 A4 A5 A6 A7 A8]. unfold in_fs in *.
  rewrite E in A4, A5, A7, A8. split; try done; [congruence | | |].
  - intros d Hd. specialize (A6 d Hd). rewrite <- Hf; [done|].
    unfold in_range in Hd. bool_to_prop. lia.
  - intros d Hd. by rewrite A7, Hf.
  - intros i Hi. by eapply same_rest_trans; [apply Hr | apply A8].
Qed.

Section request.
Context (n size rsize : Z) (Hsz : frag_size s n rsize) (Hsize : size = rsize \/ size = fs_bsize s).

Lemma alloccg_spec st c pref :
  blocks_good st -> 0 <= c < fs_ncg s ->
  exists r st', ffs_alloccg bread_error time_second st c pref size rsize = Ok (r, st') /\
    (r = 0 /\ (blocks_good st /\ alloc_none st st') /\ (blocks_good st -> blocks_exhausted st c)
     \/ r <> 0 /\ alloc_some st r n st').
Proof.
  intros [S E] Hc. destruct (alloccg_post bread_error time_second st S c ltac:(by rewrite E)
    pref n size rsize) as (r & st' & -> & [(-> & H1 & H2) | [H1 H2]]); rewrite ?E; try done.
  - exists 0, st'. split; [done|]. left. split_and!; done.
  - exists r, st'. split; [done|]. right. pose proof (alloc_pos _ _ _ _ H1). split; [lia|done].
Qed.

Instance alloccg_allocator :
  GroupAllocator (ffs_alloccg bread_error time_second) (fs_ncg s) size rsize.
Proof.
  refine {| good := blocks_good;
            same st st' := blocks_good st /\ alloc_none st st';
            exhausted st c := blocks_good st -> blocks_exhausted st c;
            success st c r st' := alloc_some st r n st' |}.
  - intros st H. split; [done|]. apply alloc_none_refl, H.
  - intros st1 st2 st3 [H1 H2] [H3 H4]. split; [done | by eapply alloc_none_trans].
  - intros st st' H [_ H2]. by eapply alloc_none_good.
  - intros st st' c Hc [H1 H2] H3 _. eapply alloc_none_exhausted; try done.
    apply H3. by eapply alloc_none_good.
  - intros st c pref Hg Hc. by apply alloccg_spec.
Defined.

(** [ffs_hashalloc] fails only when every group is exhausted. *)
Lemma hashalloc_blocks st c pref :
  blocks_good st -> 0 <= c < fs_ncg s -> fs_ncg s <= 2 ^ 31 ->
  exists r st', ffs_hashalloc (ffs_alloccg bread_error time_second) (fs_ncg s) size rsize
      st c pref = Ok (r, st') /\
    (r = 0 /\ alloc_none st st' /\ (forall c, 0 <= c < fs_ncg s -> blocks_exhausted st c) \/
     alloc_some st r n st').
Proof.
  intros Hg Hc Hncg.
  destruct (hashalloc_outcome _ _ _ _ (A := alloccg_allocator)
    ltac:(lia) st c pref Hg Hc) as (r & st' & -> & H).
  exists r, st'. split; [done|]. destruct H as [(-> & [_ H1] & H2) | (Hr & st1 & cgn & [_ H1] & _ & H2)].
  - left. split_and!; [done | done |]. intros i Hi. by apply H2.
  - right. by eapply alloc_none_some.
Qed.
End request.

(** *** ffs_alloc *)

Context (Hncg : fs_ncg s <= 2 ^ 31) (Hsizefs : fs_size s <= fs_ncg s * fs_fpg s).

(** The user may not dip into the reserve and the reserve is reached. *)
Definition reserve_reached (st : ffs_state) (size : Z) : Prop :=
  freespace (st_fs st) (fs_minfree s) - numfrags s size < 0.

Definition no_space (st : ffs_state) (size : Z) (denied : bool) : Prop :=
  (denied = true /\ reserve_reached st size) \/
  forall c, 0 <= c < fs_ncg s -> blocks_exhausted st c.

Lemma total_zero_exhausted st :
  blocks_good st -> cs_nbfree (fs_cstotal (st_fs st)) = 0 ->
  forall c, 0 <= c < fs_ncg s -> blocks_exhausted st c.
Proof.
  intros [S E] H0 c Hc. left. rewrite (st_nbfree _ S), E in H0.
  assert (forall i, 0 <= i < Z.of_nat (Z.to_nat (fs_ncg s)) ->
    0 <= cs_nbfree (fs_cs (st_fs st) i)) as Hpos.
  { intros i Hi. rewrite (st_cs _ S) by (rewrite E; lia).
    pose proof (st_cg _ S i ltac:(rewrite E; lia)) as I.
    destruct (map_ok_bounds _ (st_geom _ S) _ _ _ _ (cg_ok_map _ _ _ I)) as [? _]. lia. }
  pose proof (zsum_ge_term (Z.to_nat (fs_ncg s)) (fun i => cs_nbfree (fs_cs (st_fs st) i)) c Hpos) as B.
  cbv beta in B. specialize (Hpos c). lia.
Qed.

Lemma alloc_try_post st ip bpref n size denied :
  blocks_good st -> frag_size s n size -> 0 <= bpref -> 0 <= ino_to_cg s (i_number ip) < fs_ncg s ->
  exists r st', ffs_alloc_try bread_error time_second st ip bpref size denied = Ok (r, st') /\
    match r with
    | Some bno => alloc_some st bno n st'
    | None => alloc_none st st' /\ no_space st size denied
    end.
Proof.
  intros Hg Hsz Hb Hino. pose proof Hg as [S E]. pose proof (st_geom _ S) as G. rewrite E in G.
  unfold ffs_alloc_try. rewrite E.
  destruct ((size =? fs_bsize s) && (cs_nbfree (fs_cstotal (st_fs st)) =? 0)) eqn:E1.
  { bool_to_prop. exists None, st. split; [done|]. split; [by apply alloc_none_refl|].
    right. by apply total_zero_exhausted. }
  destruct (denied && (freespace (st_fs st) (fs_minfree s) - numfrags s size <? 0)) eqn:E2.
  { bool_to_prop. exists None, st. split; [done|]. split; [by apply alloc_none_refl|]. by left. }
  set (pref := if fs_size s <=? bpref then 0 else bpref).
  set (c := if pref =? 0 then _ else _).
  assert (0 <= c < fs_ncg s) as Hc.
  { unfold c. destruct (geom_fpg _ G). unfold pref. zcase; [done|]. destruct (Z.leb_spec (fs_size s) bpref);
      [done|]. unfold dtog. split; [apply Z.div_pos; lia | apply Z.div_lt_upper_bound; lia]. }
  destruct (hashalloc_blocks n size size Hsz (or_introl eq_refl) st c pref Hg Hc Hncg)
    as (r & st' & -> & H).
  rewrite bind_Ok. eexists _, st'. split; [reflexivity|].
  destruct H as [(-> & H1 & H2) | H1].
  - split; [done|]. by right.
  - pose proof (alloc_pos _ _ _ _ H1). by ztest.
Qed.

Lemma ffs_alloc_post st ip lbn bpref n size flags denied :
  blocks_good st -> frag_size s n size -> 0 <= bpref -> 0 <= ino_to_cg s (i_number ip) < fs_ncg s ->
  exists err bno ip' st',
    ffs_alloc bread_error time_second st ip lbn bpref size flags denied = Ok (err, bno, ip', st') /\
    (err = 0 /\ charged flags size ip ip' /\ alloc_some st bno n st' \/
     err = ENOSPC /\ ip' = ip /\ alloc_none st st' /\ no_space st size denied).
Proof.
  intros Hg Hsz Hb Hino. pose proof Hg as [S E]. pose proof (st_geom _ S) as G.
  assert (frag_size (st_fs st) n size) as Hsz' by (by rewrite E).
  unfold ffs_alloc. rewrite (fragoff_mod _ G). destruct Hsz' as [Hn ->].
  pose proof (fsize_pos _ G). rewrite Z.mod_mul by lia.
  assert (u32 (n * fs_fsize (st_fs st)) <= fs_bsize (st_fs st)) as Hu.
  { rewrite (geom_bsize _ G). transitivity (n * fs_fsize (st_fs st)); [apply Z.mod_le; nia | nia]. }
  rewrite (proj2 (Z.ltb_ge _ _) Hu). cbn [Z.eqb negb orb require]. rewrite bind_Ok.
  rewrite E in Hsz |- *.
  destruct (alloc_try_post st ip bpref n (n * fs_fsize s) denied Hg Hsz Hb Hino) as ([bno|] & st1 & -> & H1);
    rewrite bind_Ok; [eexists 0, _, _, _; split; [reflexivity|];
      left; split; [done|]; split; [apply charge_charged | done]|].
  destruct H1 as [H1 H2]. case (negb (Z.land flags IO_BUFLOCKED =? 0)).
  { eexists ENOSPC, _, _, _. split; [reflexivity|]. by right. }
  pose proof (alloc_none_good _ _ Hg H1) as Hg1.
  destruct (alloc_try_post st1 ip bpref n (n * fs_fsize s) denied Hg1 Hsz Hb Hino) as ([bno|] & st2 & -> & H3);
    rewrite bind_Ok; eexists _, _, _, _; (split; [reflexivity|]).
  - left. split; [done|]. split; [apply charge_charged|]. by eapply alloc_none_some.
  - right. destruct H3 as [H3 _]. split_and!; try done. by eapply alloc_none_trans.
Qed.
End blocks.

(** ** Inodes *)

Section inodes.
Context {K : Libkern} {KS : LibkernSpec K}.
Context (bread_error : Z -> bool) (time_second : Z) (reread_error : Z -> Z -> Z).
Context (s : superblock).

Definition inodes_good (st : ffs_state) : Prop := inodes_ok st /\ fs_sb (st_fs st) = s.

(** Group [c] cannot be read, or has no free inode. *)
Definition inodes_exhausted (st : ffs_state) (c : Z) : Prop :=
  cs_nifree (fs_cs (st_fs st) c) = 0 \/ bread_error c = true.

Instance nodealloccg_allocator mode :
  GroupAllocator (ffs_nodealloccg bread_error time_second reread_error) (fs_ncg s) mode 0.
Proof.
  refine {| good := inodes_good;
            same st st' := st' = st;
            exhausted := inodes_exhausted;
            success st c r st' := ino_taken st r st' \/ reread_failed reread_error st c r st' |}.
  - done.
  - by intros st1 st2 st3 -> ->.
  - by intros st st' H ->.
  - by intros st st' c _ ->.
  - intros st c pref [S E] Hc.
    destruct (nodealloccg_post bread_error time_second reread_error c mode st pref 0 S
      ltac:(by rewrite E)) as (r & st' & -> & [(-> & -> & H) | [(H1 & H2 & H3) | H]]).
    + exists 0, st. split; [done|]. by left.
    + exists r, st'. split; [done|]. right. split; [by eapply ino_taken_inrange | by left].
    + exists r, st'. split; [done|]. right. split; [apply H | by right].
Defined.

Lemma hashalloc_inodes mode st c pref :
  inodes_good st -> 0 <= c < fs_ncg s -> fs_ncg s <= 2 ^ 31 ->
  exists r st', ffs_hashalloc (ffs_nodealloccg bread_error time_second reread_error) (fs_ncg s)
      mode 0 st c pref = Ok (r, st') /\
    (r = 0 /\ st' = st /\ (forall c, 0 <= c < fs_ncg s -> inodes_exhausted st c) \/
     ino_taken st r st' \/
     exists c, 0 <= c < fs_ncg s /\ reread_failed reread_error st c r st').
Proof.
  intros Hg Hc Hncg. destruct Hg as [S E]. pose proof (ig_ncg _ (is_geom _ S)) as H0. rewrite E in H0.
  destruct (hashalloc_outcome _ _ _ _ (A := nodealloccg_allocator mode) ltac:(lia) st c pref
    (conj S E) Hc) as (r & st' & -> & H).
  exists r, st'. split; [done|]. destruct H as [(-> & -> & H) | (_ & st1 & cgn & -> & Hcg & [H|H])];
    [by left | by right; left | right; right; by exists cgn].
Qed.

(** Counting directories made in a row changes no inode. *)
Lemma inodes_good_contigdirs st v :
  inodes_good st -> inodes_good (MkState (set_fs_contigdirs v (st_fs st)) (st_cgs st)).
Proof. intros [[S1 S2 S3 S4 S5 S6 S7 S8] E]. by split; [split|]. Qed.

Lemma valloc_try_post st pip is_root random mode :
  inodes_good st -> fs_ncg s <= 2 ^ 31 -> fs_ncg s * fs_ipg s < 2 ^ 32 -> 0 <= i_number pip ->
  exists r st', ffs_valloc_try bread_error time_second reread_error st pip is_root random mode
      = Ok (r, st') /\
    (r = 0 /\ inodes_good st' /\ (forall ino, ino_used st' ino = ino_used st ino) /\
       blocks_same st st' /\
       (forall c, 0 <= c < fs_ncg s -> inodes_exhausted st c) \/
     exists st1, inodes_good st1 /\ (forall ino, ino_used st1 ino = ino_used st ino) /\
       blocks_same st st1 /\
       (ino_taken st1 r st' \/
        exists c, 0 <= c < fs_ncg s /\ reread_failed reread_error st1 c r st')).
Proof.
  intros Hg Hncg Hsmall Hpip. pose proof Hg as [S E]. pose proof (is_geom _ S) as G. rewrite E in G.
  destruct (ig_ipg _ G) as [H0 H8]. pose proof (ig_ncg _ G). unfold ffs_valloc_try.
  destruct (Z.eqb_spec (cs_nifree (fs_cstotal (st_fs st))) 0) as [Hz|Hz].
  { exists 0, st. split; [done|]. left. split_and!; try done; [apply blocks_same_refl|].
    intros c Hc. left.
    rewrite (is_nifree _ S), E in Hz.
    assert (forall i, 0 <= i < Z.of_nat (Z.to_nat (fs_ncg s)) ->
      0 <= cs_nifree (fs_cs (st_fs st) i)) as Hpos.
    { intros i Hi. rewrite (proj1 (is_cs _ S i ltac:(rewrite E; lia))).
      rewrite (ino_nifree _ _ (is_cg _ S i ltac:(rewrite E; lia))). apply zsum_nonneg.
      intros j _. unfold indicator. case (negb _); lia. }
    pose proof (zsum_ge_term _ (fun i => cs_nifree (fs_cs (st_fs st) i)) c Hpos) as B.
    cbv beta in B. specialize (Hpos c). lia. }
  unfold valloc_pref. rewrite E.
  set (pref0 := if is_dir mode then _ else _).
  assert (0 <= pref0) as Hp0.
  { unfold pref0. case (is_dir mode); [|done]. unfold ffs_dirpref.
    repeat match goal with
    | |- context [if ?b then _ else _] => destruct b
    | |- context [let '(_, _) := ?x in _] => destruct x
    end; apply Z.mod_pos_bound; lia. }
  set (ipref := if u32 _ <=? pref0 then 0 else pref0).
  assert (0 <= ino_to_cg s ipref < fs_ncg s) as Hc.
  { assert (u32 (fs_ncg s * fs_ipg s) = fs_ncg s * fs_ipg s) as Eu by (apply Z.mod_small; lia).
    unfold ipref, ino_to_cg. rewrite Eu. zcase; [rewrite Z.div_0_l by lia; lia|].
    split; [apply Z.div_pos; lia | apply Z.div_lt_upper_bound; lia]. }
  cbv zeta. set (dirs := if is_dir mode then _ else _).
  set (st1 := MkState _ _).
  assert (inodes_good st1) as Hg1 by by apply inodes_good_contigdirs.
  change (fs_ncg (st_fs st1)) with (fs_ncg (fs_sb (st_fs st))). rewrite E.
  assert (blocks_same st st1) as Hb.
  { split; try done. intros c Hc'. exists 0, 0. by rewrite !iadj_0. }
  destruct (hashalloc_inodes mode st1 _ ipref Hg1 Hc Hncg) as (r & st' & -> & [(-> & -> & H1) | H1]).
  - exists 0, st1. split; [done|]. by left.
  - exists r, st'. split; [done|]. right. by exists st1.
Qed.
End inodes.
