(* ===== verification/FfsRealloc.v ===== *)
(** [ffs_blkfree] with its delayed release, and [ffs_realloccg]: a file grows
    its last fragment, in place or by moving it. *)

From S2P Require Import Prelude Bitmap Fs FfsSubr FfsAlloc FfsMap FfsInv FfsBlocks FfsState FfsFree.
From S2P Require Import FfsHash FfsInode FfsTop.

(** A valid size passes the checks at the head of the entry points. *)
Lemma size_checks s n size :
  geom s -> frag_size s n size -> (fs_bsize s <? u32 size) || negb (fragoff s size =? 0) = false.
Proof.
  intros G [Hn ->]. pose proof (fsize_pos _ G). rewrite (fragoff_mod _ G), Z.mod_mul by lia.
  apply orb_false_intro; [|done]. apply Z.ltb_ge. rewrite (geom_bsize _ G).
  transitivity (n * fs_fsize s); [apply Z.mod_le; nia | nia].
Qed.

(** What the caller owns lies in the file system. *)
Lemma owned_in_fs st r n d :
  state_ok st -> owned st r n -> in_range d r n = true -> in_fs (st_fs st) d.
Proof.
  intros S [O1 O2 O3 O4 O5 O6] Hd. pose proof (st_geom _ S) as G. destruct (geom_fpg _ G) as [Hf _].
  pose proof (group_addr st S _ O4 r eq_refl) as Er. pose proof (frag_pos _ G).
  pose proof (Z.mod_pos_bound r (fs_fpg (st_fs st)) Hf) as Hm. fold (dtogd (st_fs st) r) in Hm.
  destruct (nblk_fpg _ G) as [HN Hfp].
  pose proof (fragnum_dtogd st S r) as Ef. rewrite (fragnum_mod _ G) in Ef. rewrite Ef in O3.
  pose proof (Z.div_mod (dtogd (st_fs st) r) (fs_frag (st_fs st)) ltac:(lia)) as Hdm.
  assert (dtogd (st_fs st) r / fs_frag (st_fs st) < nblk (st_fs st)) by (apply Z.div_lt_upper_bound; lia).
  assert (dtogd (st_fs st) r + n <= fs_fpg (st_fs st)) as Hin by nia.
  unfold in_range, in_fs in *. bool_to_prop. unfold cgbase in Er. nia.
Qed.

(** Fragments of the caller stay his own when others are taken. *)
Lemma owned_kept st st' r n :
  state_ok st -> owned st r n -> fs_sb (st_fs st') = fs_sb (st_fs st) ->
  (forall i, 0 <= i < fs_ncg (st_fs st) -> same_rest (get_cg st i) (get_cg st' i)) ->
  (forall d, in_range d r n = true -> in_fs (st_fs st) d -> isfree st d = false ->
     isfree st' d = false) ->
  owned st' r n.
Proof.
  intros S O E R F. pose proof O as [O1 O2 O3 O4 O5 O6].
  destruct (R _ O4) as (_ & _ & Hnd & _).
  split; rewrite ?E, ?Hnd; try done.
  intros d Hd. apply F; [done | | by apply O6]. by eapply owned_in_fs.
Qed.

Lemma owned_after_alloc st st' r n r' n' :
  state_ok st -> alloc_some st r' n' st' -> owned st r n -> owned st' r n.
Proof.
  intros S A O. eapply owned_kept; [exact S | exact O | apply A | apply A |].
  intros d _ Hd Hf. by rewrite (alloc_free _ _ _ _ A), Hf.
Qed.

Lemma owned_after_none st st' r n :
  state_ok st -> alloc_none st st' -> owned st r n -> owned st' r n.
Proof.
  intros S (_ & A2 & A3 & _ & A5 & _) O. eapply owned_kept; [exact S | exact O | done | done |].
  intros d _ Hd. by rewrite A3.
Qed.

Lemma owned_after_free st st' r n r' n' :
  state_ok st -> free_some st r' n' st' ->
  (forall d, in_range d r n = true -> in_range d r' n' = false) ->
  owned st r n -> owned st' r n.
Proof.
  intros S A D O. eapply owned_kept; [exact S | exact O | apply A | apply A |].
  intros d Hr Hd Hf. by rewrite (free_free _ _ _ _ A), Hf, (D d Hr).
Qed.

(** Changing the policy allocates nothing. *)
Lemma alloc_none_optim st v :
  v = FS_OPTSPACE \/ v = FS_OPTTIME ->
  state_ok st -> alloc_none st (MkState (set_fs_optim v (st_fs st)) (st_cgs st)).
Proof.
  intros Hv [S1 S2 S3 S4 S5 S6 S7 S8]. split; [by split|]. done.
Qed.

(** ** ffs_blkfree *)

Section release.
Context (bread_error : Z -> bool) (time_second : Z) (dev : devvp).

(** The piece is kept for a snapshot, freed, or waits for the device. *)
Definition released (st : ffs_state) (r n : Z) (st' : ffs_state) (tp : option trim_params) : Prop :=
  if negb (v_vreg dev) && v_copyonwrite dev && snap_claims dev r then st' = st /\ tp = None
  else if negb (um_candelete dev) || v_vreg dev then free_some st r n st' /\ tp = None
  else st' = st /\ tp = Some (MkTrim r (n * fs_fsize (st_fs st))).

Lemma blkfree_released st r n :
  state_ok st -> owned st r n -> bread_error (dtog (st_fs st) r) = false ->
  exists st' tp,
    ffs_blkfree bread_error time_second st dev r (n * fs_fsize (st_fs st)) = Ok (st', tp) /\
    released st r n st' tp.
Proof.
  intros S O Hbr. unfold ffs_blkfree, released.
  case (negb (v_vreg dev) && v_copyonwrite dev && snap_claims dev r); [by exists st, None|].
  case (negb (um_candelete dev) || v_vreg dev); [|by eexists st, _].
  destruct (blkfree_post bread_error time_second st S (v_vreg dev) r n O Hbr) as (st' & -> & F).
  rewrite bind_Ok. by exists st', None.
Qed.
End release.

(** ** ffs_realloccg *)

Section realloc.
Context {K : Libkern} {KS : LibkernSpec K}.
Context (bread_error : Z -> bool) (time_second : Z) (dev : devvp) (s : superblock).
Context (Hncg : fs_ncg s <= 2 ^ 31).
Context (ip : inode) (lbprev bprev o n flags : Z) (denied : bool).
Context (Ho : frag_size s o (o * fs_fsize s)) (Hn : frag_size s n (n * fs_fsize s)) (Hon : o < n).
Context (Hbr : bread_error (dtog s bprev) = false).
Context (bread_gb : Z -> Z -> Z + buf) (bp : buf).
Context (Hread : bread_gb lbprev (o * fs_fsize s) = inr bp).
Context (Hbp : b_blkno bp <> b_lblkno bp /\ b_blkno bp = fsbtodb s bprev \/
               b_blkno bp = b_lblkno bp /\ lbprev < NDADDR).

(** The buffer and the inode after the file has grown to the piece at [r]. *)
Definition grown (r : Z) (res : realloc_result) : Prop :=
  rr_error res = 0 /\
  rr_bp res = Some (MkBuf (fsbtodb s r) (b_lblkno bp)
    (firstn (Z.to_nat (o * fs_fsize s)) (b_data bp) ++
     replicate (Z.to_nat ((n - o) * fs_fsize s)) 0)) /\
  charged flags ((n - o) * fs_fsize s) ip (rr_ip res).

(** The piece grew in place, or moved to [r] and the old one was released. *)
Definition realloc_done (st : ffs_state) (res : realloc_result) : Prop :=
  grown bprev res /\ alloc_some st (bprev + o) (n - o) (rr_st res) /\ rr_trim res = None \/
  exists r st1, grown r res /\ alloc_some st r n st1 /\
    released dev st1 bprev o (rr_st res) (rr_trim res).

Definition grow_no_space (st : ffs_state) : Prop :=
  (denied = true /\ freespace (st_fs st) (fs_minfree s) - (n - o) < 0) \/
  forall c, 0 <= c < fs_ncg s -> blocks_exhausted bread_error st c.

Lemma request_ok f :
  geom s -> fs_sb f = s -> optim_ok f ->
  exists size v, realloccg_request f (n * fs_fsize s) = Ok (size, set_fs_optim v f) /\
    (size = n * fs_fsize s \/ size = fs_bsize s) /\ (v = FS_OPTSPACE \/ v = FS_OPTTIME).
Proof.
  intros G E [Hs|Ht]; unfold realloccg_request; rewrite ?Hs, ?Ht.
  - rewrite Z.eqb_refl. destruct (_ || _).
    + exists (n * fs_fsize s), FS_OPTSPACE. rewrite <- Hs. split; [|auto]. by destruct f.
    + exists (n * fs_fsize s), FS_OPTTIME. auto.
  - change (FS_OPTTIME =? FS_OPTSPACE) with false. rewrite Z.eqb_refl. rewrite E. destruct (_ <? _).
    + exists (fs_bsize s), FS_OPTTIME. rewrite <- Ht. split; [|auto]. by destruct f.
    + exists (fs_bsize s), FS_OPTSPACE. auto.
Qed.
Lemma realloccg_try_ok st bpref :
  blocks_good s st -> owned st bprev o -> optim_ok (st_fs st) ->
  exists r,
    ffs_realloccg_try bread_error time_second bread_gb dev st ip lbprev bprev bpref
      (o * fs_fsize s) (n * fs_fsize s) flags denied = Ok r /\
    match r with
    | inl res => realloc_done st res
    | inr st' => alloc_none st st' /\ grow_no_space st
    end.
Proof.
  intros Hg O Hopt. pose proof Hg as [S E]. pose proof (st_geom _ S) as G.
  pose proof (owned_pos _ _ _ O) as Hb. pose proof (owned_group _ _ _ O) as Hc. rewrite E in Hc, G.
  unfold ffs_realloccg_try. rewrite E.
  assert (n * fs_fsize s - o * fs_fsize s = (n - o) * fs_fsize s) as Ed by lia. rewrite !Ed.
  assert (numfrags s ((n - o) * fs_fsize s) = n - o) as Enf.
  { apply numfrags_frag_size; [done|]. destruct Ho, Hn. split; [lia | done]. }
  rewrite Enf. destruct (denied && _) eqn:Eden.
  { bool_to_prop. exists (inr st). split; [done|]. split; [by apply alloc_none_refl | by left]. }
  clear Eden. rewrite (proj2 (Z.eqb_neq bprev 0)) by lia. cbn [negb require]. rewrite bind_Ok, Hread.
  assert (((b_blkno bp =? b_lblkno bp) && (NDADDR <=? lbprev)) = false) as ->
    by (destruct Hbp as [[? ?]|[-> ?]]; by ztest).
  cbn [negb require]. rewrite bind_Ok.
  set (bp1 := if b_blkno bp =? b_lblkno bp then _ else bp).
  assert (bp1 = MkBuf (fsbtodb s bprev) (b_lblkno bp) (b_data bp)) as ->.
  { unfold bp1. destruct Hbp as [[? <-]|[-> ?]]; ztest; [by destruct bp | done]. }
  cbn [b_blkno b_lblkno b_data].
  destruct (fragextend_post bread_error time_second st S (dtog s bprev) ltac:(by rewrite E)
    bprev o n (o * fs_fsize s) (n * fs_fsize s)) as (r & st1 & -> & H1);
    rewrite ?E; try done; try lia.
  { rewrite <- E. apply (owned_block _ _ _ O). }
  { intros i Hi. apply (owned_taken _ _ _ O). unfold in_range. by ztest. }
  rewrite bind_Ok. destruct H1 as [[-> A1] | [-> A1]]; cycle 1.
  { rewrite (proj2 (Z.eqb_neq bprev 0)) by lia. rewrite Z.eqb_refl. cbn [negb require].
    rewrite bind_Ok. eexists (inl _). split; [reflexivity|]. left. cbn. split; [|done].
    unfold grown, grow_buf. cbn [rr_error rr_bp rr_ip]. rewrite Ed.
    split_and!; [done | done | apply charge_charged]. }
  cbn [Z.eqb negb].
  pose proof A1 as (S1 & E1 & _ & _ & _ & Hopt1). rewrite E in E1.
  destruct (request_ok (st_fs st1) G E1 (Hopt1 Hopt)) as (size & v & -> & Hsize & Hv).
  rewrite bind_Ok. set (st2 := MkState _ _).
  assert (alloc_none st st2) as A2 by (eapply alloc_none_trans; [exact A1 | by apply alloc_none_optim]).
  assert (blocks_good s st2) as Hg2 by by eapply alloc_none_good.
  change (fs_ncg (set_fs_optim v (st_fs st1))) with (fs_ncg (st_fs st1)). rewrite E1.
  destruct (hashalloc_blocks bread_error time_second s n size (n * fs_fsize s) Hn Hsize st2
    (dtog s bprev) (if fs_size s <=? bpref then 0 else bpref) Hg2 Hc Hncg)
    as (r & st3 & -> & H3).
  rewrite bind_Ok. destruct H3 as [(-> & A3 & Hex) | A3].
  - exists (inr st3). split; [done|]. split; [by eapply alloc_none_trans|]. right.
    intros c Hcc. by eapply alloc_none_exhausted; [exact Hg | done | exact A2 | apply Hex].
  - pose proof (alloc_none_some _ _ _ _ _ A2 A3) as A. pose proof (alloc_pos _ _ _ _ A) as Hr.
    pose proof (alloc_sb _ _ _ _ A) as E3. rewrite E in E3. rewrite (proj2 (Z.ltb_lt 0 r)) by done.
    destruct (blkfree_released bread_error time_second dev st3 bprev o (alloc_ok _ _ _ _ A)
      (owned_after_alloc _ _ _ _ _ _ S A O)) as (st4 & tp & Hf & R); [by rewrite E3|].
    rewrite E3 in Hf. rewrite Hf, bind_Ok. eexists (inl _). split; [reflexivity|].
    right. exists r, st3. split; [|done]. unfold grown, grow_buf. cbn. rewrite Ed, E1.
    split_and!; [done | done | apply charge_charged].
Qed.

Lemma realloc_done_none st st1 res :
  alloc_none st st1 -> realloc_done st1 res -> realloc_done st res.
Proof.
  intros A [(H1 & H2 & H3) | (r & st2 & H1 & H2 & H3)].
  - left. split_and!; try done. by eapply alloc_none_some.
  - right. exists r, st2. split_and!; try done. by eapply alloc_none_some.
Qed.

(** The two attempts. *)
Lemma realloccg_ok st bpref :
  blocks_good s st -> owned st bprev o -> optim_ok (st_fs st) ->
  exists res,
    ffs_realloccg bread_error time_second bread_gb dev st ip lbprev bprev bpref
      (o * fs_fsize s) (n * fs_fsize s) flags denied = Ok res /\
    (realloc_done st res \/
     rr_error res = ENOSPC /\ rr_bp res = None /\ rr_ip res = ip /\ rr_trim res = None /\
       alloc_none st (rr_st res) /\ grow_no_space st).
Proof.
  intros Hg O Hopt. pose proof Hg as [S E]. pose proof (st_geom _ S) as G. rewrite E in G.
  unfold ffs_realloccg. rewrite E.
  pose proof (size_checks _ _ _ G Ho) as C1. pose proof (size_checks _ _ _ G Hn) as C2.
  apply orb_false_elim in C1 as [-> ->]. apply orb_false_elim in C2 as [-> ->].
  cbn [orb negb require]. rewrite bind_Ok.
  destruct (realloccg_try_ok st bpref Hg O Hopt) as ([res|st1] & -> & H); rewrite bind_Ok;
    [exists res; auto|].
  destruct H as [A Hno]. case (negb (Z.land flags IO_BUFLOCKED =? 0)).
  { eexists. split; [reflexivity|]. right. done. }
  destruct (realloccg_try_ok st1 bpref) as ([res|st2] & -> & H); rewrite ?bind_Ok.
  - by eapply alloc_none_good.
  - by eapply owned_after_none.
  - by apply A.
  - exists res. split; [done|]. left. by eapply realloc_done_none.
  - eexists. split; [reflexivity|]. right. cbn. split_and!; try done.
    eapply alloc_none_trans; [exact A | apply H].
Qed.
End realloc.

(** Where a directory goes: [ffs_dirpref] chooses a group by the documented
    policy, and always one that exists. *)

(** [c] is the first index from [p] on, cyclically below [n], that [t] holds
    of. *)
Definition first_from (n p : Z) (t : Z -> bool) (c : Z) : Prop :=
  0 <= c < n /\ t c = true /\
  forall j, 0 <= j < n -> (j - p) mod n < (c - p) mod n -> t j = false.

Lemma cyclic n p j :
  0 <= p < n -> 0 <= j < n -> (j - p) mod n = if p <=? j then j - p else j - p + n.
Proof.
  intros Hp Hj. zcase; [apply Z.mod_small; lia|].
  rewrite <- (Z.mod_add _ 1) by lia. rewrite Z.mul_1_l. apply Z.mod_small. lia.
Qed.

(** The search of the code: from [p] to the end, then from the start. *)
Lemma search_up_first n p t c :
  0 <= p < n -> c = search (Z.to_nat (n - p)) p t -> c < n -> first_from n p t c.
Proof.
  intros Hp -> Hc. destruct (search_spec (Z.to_nat (n - p)) p t) as (H1 & H2 & H3).
  split; [lia|]. split; [apply H3; lia|]. intros j Hj. rewrite !cyclic by lia. ztest.
  zcase; intros; [apply H2 | ]; lia.
Qed.

Lemma search_wrap_first n p t c :
  0 <= p < n -> ~ search (Z.to_nat (n - p)) p t < n -> c = search (Z.to_nat p) 0 t -> c < p ->
  first_from n p t c.
Proof.
  intros Hp Hup -> Hc. destruct (search_spec (Z.to_nat (n - p)) p t) as (H1 & H2 & H3).
  destruct (search_spec (Z.to_nat p) 0 t) as (G1 & G2 & G3).
  split; [lia|]. split; [apply G3; lia|]. intros j Hj. rewrite !cyclic by lia. ztest.
  zcase; intros; [apply H2 | apply G2]; lia.
Qed.

Lemma search_none n p t :
  0 <= p < n -> ~ search (Z.to_nat (n - p)) p t < n -> ~ search (Z.to_nat p) 0 t < p ->
  forall j, 0 <= j < n -> t j = false.
Proof.
  intros Hp H H' j Hj. destruct (search_spec (Z.to_nat (n - p)) p t) as (H1 & H2 & _).
  destruct (search_spec (Z.to_nat p) 0 t) as (G1 & G2 & _).
  destruct (Z.lt_ge_cases j p); [apply G2 | apply H2]; lia.
Qed.

(** The pass for a first-level directory, as it is at index [i]: [best] is
    the group with the fewest directories among the roomy ones seen. *)
Section root.
Context (f : fs) (avgifree avgbfree pref : Z).

(** Average free inodes and blocks. *)
Definition roomy (j : Z) : bool :=
  (avgifree <=? u32 (cs_nifree (fs_cs f j))) && (avgbfree <=? u32 (cs_nbfree (fs_cs f j))).
Abbreviation ndir j := (u32 (cs_ndir (fs_cs f j))).

Record root_best (seen : Z -> Prop) (acc : Z * Z) : Prop := {
  best_one : seen acc.1 /\ roomy acc.1 = true /\ acc.2 = ndir acc.1 /\ ndir acc.1 < fs_ipg f \/
             acc = (pref, fs_ipg f);
  best_le : forall j, seen j -> roomy j = true -> acc.2 <= ndir j
}.

Lemma root_best_step (seen : Z -> Prop) j acc :
  root_best seen acc -> snd acc <= fs_ipg f ->
  let acc' := if (ndir j <? acc.2) && (avgifree <=? u32 (cs_nifree (fs_cs f j))) &&
                 (avgbfree <=? u32 (cs_nbfree (fs_cs f j)))
              then (j, ndir j) else (acc.1, acc.2) in
  root_best (fun k => seen k \/ k = j) acc' /\ acc'.2 <= fs_ipg f.
Proof.
  intros [B1 B2] Hle. rewrite <- andb_assoc. fold (roomy j).
  destruct (Z.ltb_spec (ndir j) acc.2), (roomy j) eqn:Er; cbn [andb]; cbv zeta.
  - split; [|cbn; lia]. split; cbn [fst snd].
    + left. split_and!; try done; [by right | lia].
    + intros k [Hk| ->] Hk2; [specialize (B2 k Hk Hk2); lia | done].
  - split; [|by cbn]. rewrite <- surjective_pairing. split.
    + destruct B1 as [(? & ? & ?)|]; [left; auto | by right].
    + intros k [Hk| ->] Hk2; [auto | congruence].
  - split; [|by cbn]. rewrite <- surjective_pairing. split.
    + destruct B1 as [(? & ? & ?)|]; [left; auto | by right].
    + intros k [Hk| ->] Hk2; [auto | done].
  - split; [|by cbn]. rewrite <- surjective_pairing. split.
    + destruct B1 as [(? & ? & ?)|]; [left; auto | by right].
    + intros k [Hk| ->] Hk2; [auto | congruence].
Qed.

Lemma root_pass_best n from acc (seen : Z -> Prop) :
  root_best seen acc -> acc.2 <= fs_ipg f ->
  let acc' := dirpref_root_pass f n from avgifree avgbfree acc in
  root_best (fun k => seen k \/ from <= k < from + Z.of_nat n) acc' /\ acc'.2 <= fs_ipg f.
Proof.
  intros B Hle. unfold dirpref_root_pass.
  apply (foreach_ind (fun i acc => root_best (fun k => seen k \/ from <= k < i) acc /\
    acc.2 <= fs_ipg f)).
  - split; [|done]. destruct B as [B1 B2]. split.
    + destruct B1 as [(? & ? & ?)|]; [left; auto | by right].
    + intros k [Hk|Hk] Hk2; [auto | lia].
  - intros j [m d] Hj [Bj Hd]. destruct (root_best_step _ j _ Bj Hd) as [[B1 B2] H].
    cbn [fst snd] in *. split; [|done]. split.
    + destruct B1 as [([[?|?]| ?] & ?)|]; [| | |by right]; left; (split; [|done]);
        [by left | right; lia | right; lia].
    + intros k Hk. apply B2. destruct Hk as [?|?]; [tauto|].
      destruct (Z.eq_dec k j); [tauto | left; right; lia].
Qed.
End root.

(** Some term is at least the average. *)
Lemma zsum_average n g q :
  (0 < n)%nat -> Z.of_nat n * q <= zsum n g -> exists j, 0 <= j < Z.of_nat n /\ q <= g j.
Proof.
  induction n as [|n IH]; intros Hn Hq; [lia|]. cbn [zsum] in Hq.
  destruct (Z.le_gt_cases q (g (Z.of_nat n))) as [Hle|Hgt]; [exists (Z.of_nat n); lia|].
  destruct n as [|n]; [cbn [zsum Z.of_nat] in *; lia|]. destruct IH as (j & ? & ?); [lia | lia |]. exists j. lia.
Qed.

Section dirpref.
Context (st : ffs_state) (I : inodes_ok st).
Context (Hsmall : fs_ncg (st_fs st) * fs_ipg (st_fs st) < 2 ^ 32).
Abbreviation f := (st_fs st).

Lemma nifree_range j :
  0 <= j < fs_ncg f -> 0 <= cs_nifree (fs_cs f j) <= fs_ipg f.
Proof.
  intros Hj. destruct (is_cs _ I j Hj) as [-> _]. rewrite (ino_nifree _ _ (is_cg _ I j Hj)).
  unfold clear_bits. destruct (ig_ipg _ (is_geom _ I)).
  pose proof (zsum_bounds (Z.to_nat (fs_ipg f)) (fun i => indicator (negb (bit (cg_inosused
    (get_cg st j)) i))) 0 1 ltac:(intros; unfold indicator; case (negb _); lia)). lia.
Qed.

Lemma average_exists : exists j, 0 <= j < fs_ncg f /\ dirpref_average f j = true.
Proof.
  pose proof (ig_ncg _ (is_geom _ I)) as H0. destruct (ig_ipg _ (is_geom _ I)) as [Hipg _].
  assert (forall j, 0 <= j < Z.of_nat (Z.to_nat (fs_ncg f)) ->
    0 <= cs_nifree (fs_cs f j) <= fs_ipg f) as Hr by (intros; apply nifree_range; lia).
  pose proof (zsum_bounds _ _ _ _ Hr) as Hs. rewrite <- (is_nifree _ I), Z2Nat.id in Hs by lia.
  set (total := cs_nifree (fs_cstotal f)) in *.
  assert (0 <= total / fs_ncg f <= total) as Hq.
  { split; [apply Z.div_pos; lia | apply Z.div_le_upper_bound; nia]. }
  destruct (zsum_average (Z.to_nat (fs_ncg f)) (fun j => cs_nifree (fs_cs f j)) (total / fs_ncg f))
    as (j & Hj & Hle).
  { lia. }
  { rewrite <- (is_nifree _ I), Z2Nat.id by lia. fold total. apply Z.mul_div_le. lia. }
  exists j. split; [lia|]. unfold dirpref_average, dirpref_avg. fold total.
  pose proof (nifree_range j ltac:(lia)). rewrite Z.quot_div_nonneg by lia.
  unfold u32. rewrite !Z.mod_small by nia. by apply Z.leb_le.
Qed.

Lemma dirpref_index c : 0 <= c < fs_ncg f -> u32 (fs_ipg f * c) = fs_ipg f * c.
Proof. intros Hc. destruct (ig_ipg _ (is_geom _ I)). apply Z.mod_small. nia. Qed.

Context (pip : inode) (Hpip : 0 <= ino_to_cg f (i_number pip) < fs_ncg f).

Lemma dirpref_root random :
  exists c d, 0 <= c < fs_ncg f /\ ffs_dirpref f pip true random = fs_ipg f * c /\
    root_best f (dirpref_avg f (cs_nifree (fs_cstotal f))) (dirpref_avg f (cs_nbfree (fs_cstotal f)))
      (random mod fs_ncg f) (fun j => 0 <= j < fs_ncg f) (c, d).
Proof.
  pose proof (ig_ncg _ (is_geom _ I)) as H0. unfold ffs_dirpref. cbv zeta.
  set (ai := dirpref_avg f (cs_nifree _)). set (ab := dirpref_avg f (cs_nbfree _)).
  set (p := random mod fs_ncg f). pose proof (Z.mod_pos_bound random (fs_ncg f) H0) as Hp. fold p in Hp.
  destruct (root_pass_best f ai ab p (Z.to_nat (fs_ncg f - p)) p (p, fs_ipg f) (fun _ => False))
    as [B1 L1]; [split; [by right | done] | done |].
  destruct (root_pass_best f ai ab p (Z.to_nat p) 0 _ _ B1 L1) as [[B2 B3] _].
  destruct (dirpref_root_pass f (Z.to_nat p) 0 ai ab _) as [c d] eqn:E. cbn [fst snd] in *.
  assert (0 <= c < fs_ncg f) as Hc.
  { destruct B2 as [([[[]|?]|?] & _)|[= -> ->]]; lia. }
  exists c, d. split; [done|]. split; [by apply dirpref_index|]. split; cbn [fst snd].
  - destruct B2 as [(? & ?)|?]; [left; split; [done|] | right]; done.
  - intros j Hj. apply B3. destruct (Z.lt_ge_cases j p); [right | left; right]; lia.
Qed.

Lemma dirpref_nested random :
  let '(maxndir, minifree, minbfree, maxcontigdirs) := dirpref_limits f in
  let fits := dirpref_fits f maxndir minifree minbfree maxcontigdirs in
  let pref := ino_to_cg f (i_number pip) in
  exists c, ffs_dirpref f pip false random = fs_ipg f * c /\
    (first_from (fs_ncg f) pref fits c \/
     (forall j, 0 <= j < fs_ncg f -> fits j = false) /\
     first_from (fs_ncg f) pref (dirpref_average f) c).
Proof.
  unfold ffs_dirpref. destruct (dirpref_limits f) as [[[a b] c'] d]. cbv zeta.
  set (fits := dirpref_fits f a b c' d). set (p := ino_to_cg f (i_number pip)) in *.
  assert (forall c t, first_from (fs_ncg f) p t c -> u32 (fs_ipg f * c) = fs_ipg f * c) as Hidx
    by (intros c t (Hc & _); by apply dirpref_index).
  destruct (Z.ltb_spec (search (Z.to_nat (fs_ncg f - p)) p fits) (fs_ncg f)) as [H1|H1].
  { pose proof (search_up_first _ _ _ _ Hpip eq_refl H1) as F. rewrite (Hidx _ _ F). eauto. }
  destruct (Z.ltb_spec (search (Z.to_nat p) 0 fits) p) as [H2|H2].
  { pose proof (search_wrap_first _ p fits _ Hpip ltac:(lia) eq_refl H2) as F. rewrite (Hidx _ _ F). eauto. }
  pose proof (search_none _ p fits Hpip ltac:(lia) ltac:(lia)) as Hnone.
  destruct (Z.ltb_spec (search (Z.to_nat (fs_ncg f - p)) p (dirpref_average f)) (fs_ncg f)) as [H3|H3].
  { pose proof (search_up_first _ _ _ _ Hpip eq_refl H3) as F. rewrite (Hidx _ _ F). eauto. }
  assert (search (Z.to_nat p) 0 (dirpref_average f) < p) as H4.
  { destruct (Z.lt_ge_cases (search (Z.to_nat p) 0 (dirpref_average f)) p) as [|H4]; [done|].
    destruct average_exists as (j & Hj & Hav).
    rewrite (search_none _ p (dirpref_average f) Hpip ltac:(lia) ltac:(lia) j Hj) in Hav. discriminate. }
  pose proof (search_wrap_first _ p (dirpref_average f) _ Hpip ltac:(lia) eq_refl H4) as F. rewrite (Hidx _ _ F). eauto.
Qed.
End dirpref.

(** [ffs_clusteralloc]: a run of whole free blocks from the cluster map. *)

(** ** The scan of the map *)

(** The cursor of the scan follows the bits of the map. The scan stops at the
    end of the first run of [len], or at the end of the map, when there is
    none; [run] bits before [got] are set. *)
Lemma cluster_scan_spec n m got run len :
  0 <= got -> 0 <= run < len -> (forall j, got - run <= j < got -> bit m j = true) ->
  let '(e, r) := cluster_scan n m got run (zget m (got / 8)) (Z.shiftl 1 (got mod 8))
                   (got / 8 + 1) len in
  got <= e <= got + Z.of_nat n /\
  (e < got + Z.of_nat n -> r = len /\ got - run <= e - len + 1 /\ forall j, e - len < j <= e -> bit m j = true) /\
  (e = got + Z.of_nat n -> forall b, got - run <= b -> b + len <= got + Z.of_nat n ->
     exists j, b <= j < b + len /\ bit m j = false).
Proof.
  revert got run. induction n as [|n IH]; intros got run Hg Hrun Hset; cbn [cluster_scan].
  { split; [lia|]. split; [lia|]. intros _ b Hb Hbl. lia. }
  rewrite land_pow2_testbit by dlia. unfold NBBY. fold (bit m got).
  assert (forall run', (if negb (Z.land got (8 - 1) =? 8 - 1)
      then cluster_scan n m (got + 1) run' (zget m (got / 8)) (Z.shiftl (Z.shiftl 1 (got mod 8)) 1)
             (got / 8 + 1) len
      else cluster_scan n m (got + 1) run' (zget m (got / 8 + 1)) 1 (got / 8 + 1 + 1) len) =
    cluster_scan n m (got + 1) run' (zget m ((got + 1) / 8)) (Z.shiftl 1 ((got + 1) mod 8))
      ((got + 1) / 8 + 1) len) as Hnext.
  { intros run'. change (8 - 1) with (Z.ones 3). rewrite Z.land_ones by lia.
    change (2 ^ 3) with 8. change (Z.ones 3) with 7. rewrite Z.shiftl_shiftl by dlia. zcase; cbn [negb].
    - replace ((got + 1) / 8) with (got / 8 + 1) by dlia.
      by replace ((got + 1) mod 8) with 0 by dlia.
    - replace ((got + 1) / 8) with (got / 8) by dlia.
      by replace ((got + 1) mod 8) with (got mod 8 + 1) by dlia. }
  destruct (bit m got) eqn:Eb; cbn [negb andb].
  - destruct (Z.eqb_spec (run + 1) len) as [El|El].
    { split; [lia|]. split; [|lia]. intros _. split; [done|]. split; [lia|]. intros j Hj.
      destruct (Z.eq_dec j got) as [->|]; [done|]. apply Hset. lia. }
    rewrite Hnext. specialize (IH (got + 1) (run + 1) ltac:(lia) ltac:(lia)).
    destruct (cluster_scan _ _ _ _ _ _ _ _) as [e r]. destruct IH as (H1 & H2 & H3).
    { intros j Hj. destruct (Z.eq_dec j got) as [->|]; [done|]. apply Hset. lia. }
    split; [lia|]. split; [intros He; destruct (H2 ltac:(lia)) as (? & ? & ?); split_and!; [done | lia | done]|]. intros He b Hb Hbl. apply H3; lia.
  - rewrite Hnext. specialize (IH (got + 1) 0 ltac:(lia) ltac:(lia) ltac:(lia)).
    destruct (cluster_scan _ _ _ _ _ _ _ _) as [e r]. destruct IH as (H1 & H2 & H3).
    split; [lia|]. split; [intros He; destruct (H2 ltac:(lia)) as (? & ? & ?); split_and!; [done | lia | done]|]. intros He b Hb Hbl.
    destruct (Z.le_gt_cases b got); [exists got; split; [lia | done] | apply H3; lia].
Qed.

(** ** The blocks *)

Section blocks.
Context {K : Libkern} {KS : LibkernSpec K}.
Context (f : fs) (G : geom f) (c : Z).

Lemma cluster_check_ok n m N h :
  bitmap N m -> 0 <= h -> (forall i, 0 <= i < Z.of_nat n -> blk f m (h + i) = full f) ->
  cluster_check n f m h = Ok tt.
Proof.
  intros Hm. revert h. induction n as [|n IH]; intros h Hh Hfull; cbn [cluster_check]; [done|].
  rewrite (ffs_isblock_blk f (geom_frag f G) _ _ h Hm Hh), bind_Ok.
  pose proof (Hfull 0 ltac:(lia)) as H0. rewrite Z.add_0_r in H0. rewrite H0, Z.eqb_refl.
  cbn [require]. rewrite bind_Ok. apply IH; [lia|]. intros i Hi.
  rewrite <- Z.add_assoc. apply Hfull. lia.
Qed.
End blocks.

(** The address of a free block of the group, as [ffs_alloccgblk] sees it. *)
Lemma block_address (f : fs) g c h :
  geom f -> cg_ok f c g -> 0 <= h -> 0 < cgbase f c + h * fs_frag f ->
  blk f (cg_blksfree g) h = full f ->
  let bno := cgbase f c + h * fs_frag f in
  alloccgblk_pref f g bno = bno /\ dtogd f (blknum f bno) / fs_frag f = h /\ h < nblk f /\
  cs_nbfree (cg_cs g) <> 0.
Proof.
  intros G I Hh Hpos Hfull bno. pose proof (frag_pos f G) as Hfp. destruct (nblk_fpg f G) as [HN _].
  destruct (full_block_in_group f G c g I h Hh Hfull) as [_ Hhn].
  destruct (cgbase_dtog f c (h * fs_frag f) G ltac:(nia)) as [Ed Ed']. fold bno in Ed, Ed'.
  split_and!; [| | done |].
  - unfold alloccgblk_pref. rewrite (proj2 (Z.eqb_neq bno 0)) by lia.
    by rewrite Ed, (cg_ok_cgx _ _ _ I), Z.eqb_refl.
  - assert (bno mod fs_frag f = 0) as Em.
    { unfold bno, cgbase. rewrite <- HN.
      replace (nblk f * fs_frag f * c + h * fs_frag f) with ((nblk f * c + h) * fs_frag f) by ring.
      apply Z.mod_mul. lia. }
    rewrite blknum_sub, Em, Z.sub_0_r, Ed' by done. apply Z.div_mul. lia.
  - pose proof (cg_ok_map _ _ _ I) as M. rewrite (map_nbfree _ _ _ _ _ M).
    assert (forall i, 0 <= i < Z.of_nat (Z.to_nat (nblk f)) ->
      0 <= isfull f (blk f (cg_blksfree g) i)) as Hnn by (intros; apply isfull_nonneg).
    pose proof (zsum_ge_term _ (fun i => isfull f (blk f (cg_blksfree g) i)) h Hnn ltac:(lia)) as B.
    cbv beta in B. unfold isfull at 1 in B. rewrite Hfull, Z.eqb_refl in B. cbn in B. lia.
Qed.

(** Each block of the run is taken as it is asked for. *)
Lemma cluster_take_ok {K : Libkern} {KS : LibkernSpec K} n (f : fs) g c h :
  geom f -> 0 <= c < zlength (fs_csp f) -> cg_ok f c g -> 0 <= h ->
  0 < cgbase f c + h * fs_frag f ->
  (forall i, 0 <= i < Z.of_nat n -> blk f (cg_blksfree g) (h + i) = full f) ->
  exists f' g', cluster_take n f g (cgbase f c + h * fs_frag f) = Ok (f', g') /\
    cg_step f c g (- Z.of_nat n) 0 (take (h * fs_frag f) (Z.of_nat n * fs_frag f)) g' /\
    fs_adj f c (- Z.of_nat n) 0 f'.
Proof.
  revert f g h. induction n as [|n IH]; intros f g h G Hc I Hh Hpos Hfull; cbn [cluster_take].
  { exists f, g. split; [done|]. split.
    - eapply cg_step_conv; [by apply cg_step_id | lia | lia |]. intros j b. unfold keep, take.
      repeat zcase; try (by rewrite andb_true_r); lia.
    - by apply fs_adj_id. }
  pose proof (frag_pos f G) as Hfp. pose proof (Hfull 0 ltac:(lia)) as H0. rewrite Z.add_0_r in H0.
  set (bno := cgbase f c + h * fs_frag f) in *.
  destruct (block_address f g c h G I Hh Hpos H0) as (Hpref & Hhp & Hhn & Hnb). fold bno in Hpref, Hhp.
  destruct (ffs_alloccgblk_correct f G c Hc g I bno (fs_frag f) (fs_bsize f) Hnb ltac:(lia))
    as (h1 & f1 & g1 & -> & Hh1 & _ & Hst & Hadj & Hwant).
  { apply numfrags_frag_size; [done|]. split; [lia | apply (geom_bsize f G)]. }
  cbv zeta in Hwant. rewrite Hpref, Hhp in Hwant. rewrite (Hwant H0) in Hst |- *. clear Hwant.
  rewrite bind_Ok. fold bno. rewrite Z.eqb_refl. cbn [require]. rewrite bind_Ok.
  pose proof (adj_sb _ _ _ _ _ Hadj) as E.
  replace (bno + fs_frag f1) with (cgbase f1 c + (h + 1) * fs_frag f1)
    by (unfold bno, cgbase; rewrite E; lia).
  destruct (IH f1 g1 (h + 1)) as (f2 & g2 & -> & Hst2 & Hadj2); rewrite ?E; try done.
  - rewrite (adj_length _ _ _ _ _ Hadj). done.
  - apply Hst.
  - lia.
  - lia.
  - intros i Hi. rewrite <- (Hfull (i + 1)) by lia. replace (h + 1 + i) with (h + (i + 1)) by lia.
    apply blk_ext; [apply G | lia |]. intros j Hj. rewrite (step_bits _ _ _ _ _ _ _ Hst) by nia.
    unfold take. repeat zcase; try nia; by rewrite andb_true_r.
  - exists f2, g2. split; [done|]. rewrite E in Hst2. split.
    + eapply cg_step_conv; [eapply cg_step_trans; [exact Hst | exact Hst2] | lia | lia |].
      intros j Hj. unfold take. rewrite <- andb_assoc. f_equal. repeat zcase; nia || done.
    + eapply fs_adj_conv; [eapply fs_adj_trans; [exact Hadj | exact Hadj2] | lia | lia].
Qed.

(** ** The file system *)

(** The [len] whole blocks from [r] on were free and are taken; nothing else
    changed. *)
Record cluster_some (st : ffs_state) (r len : Z) (st' : ffs_state) : Prop := {
  cs_ok : state_ok st';
  cs_sb : fs_sb (st_fs st') = fs_sb (st_fs st);
  cs_pos : 0 < r;
  cs_in : r + len * fs_frag (st_fs st) <= fs_ncg (st_fs st) * fs_fpg (st_fs st);
  cs_aligned : r mod fs_frag (st_fs st) = 0;
  cs_was_free : forall d, in_range d r (len * fs_frag (st_fs st)) = true -> isfree st d = true;
  cs_free : forall d, in_fs (st_fs st) d ->
    isfree st' d = isfree st d && negb (in_range d r (len * fs_frag (st_fs st)));
  cs_rest : forall i, 0 <= i < fs_ncg (st_fs st) -> same_rest (get_cg st i) (get_cg st' i)
}.

Section clusteralloc.
Context {K : Libkern} {KS : LibkernSpec K}.
Context (bread_error : Z -> bool).
Context (st : ffs_state) (S : state_ok st) (c : Z) (Hc : 0 <= c < fs_ncg (st_fs st)).
Context (Hcap : 0 < fs_contigsumsize (st_fs st)).
Abbreviation f := (st_fs st).
Abbreviation g := (get_cg st c).

(** The boot block is not free, so no free block has address 0. *)
Lemma first_block_pos h :
  0 <= h -> blk f (cg_blksfree g) h = full f -> 0 < cgbase f c + h * fs_frag f.
Proof.
  intros Hh Hfull. pose proof (st_geom _ S) as G. pose proof (frag_pos _ G).
  destruct (geom_fpg _ G). unfold cgbase.
  destruct (Z.lt_ge_cases 0 (fs_fpg f * c + h * fs_frag f)) as [|Hle]; [done|exfalso].
  assert (h = 0) as E2 by nia. assert (c = 0) as E3 by nia.
  pose proof (proj1 (blk_full_iff f (geom_frag f G) _ h Hh) Hfull 0 ltac:(lia)) as Hb.
  rewrite E2, E3 in Hb. change (0 * fs_frag f + 0) with 0 in Hb. rewrite (st_boot _ S) in Hb. discriminate.
Qed.

(** Taking the run of blocks from [h] on. *)
Lemma cluster_some_put h len f' g' :
  0 <= h -> 1 <= len -> (forall i, 0 <= i < len -> blk f (cg_blksfree g) (h + i) = full f) ->
  cg_step f c g (- len) 0 (take (h * fs_frag f) (len * fs_frag f)) g' ->
  fs_adj f c (- len) 0 f' ->
  cluster_some st (cgbase f c + h * fs_frag f) len (put (ACTIVECLEAR f' c) c g' st) /\
  dtog f (cgbase f c + h * fs_frag f) = c.
Proof.
  intros Hh Hlen Hfull H1 H2. pose proof (st_geom _ S) as G. pose proof (frag_pos _ G).
  destruct (nblk_fpg _ G) as [HN _]. pose proof (st_cg _ S c Hc) as I.
  assert (h + len <= nblk f) as Hhn.
  { destruct (full_block_in_group f G c g I (h + (len - 1)) ltac:(lia) (Hfull (len - 1) ltac:(lia))). lia. }
  assert (0 <= h * fs_frag f /\ h * fs_frag f + len * fs_frag f <= fs_fpg f) as [Hj0 Hjn] by nia.
  assert (fs_adj f c (- len) 0 (ACTIVECLEAR f' c)) as H3.
  { eapply fs_adj_conv; [eapply fs_adj_trans; [exact H2 | apply fs_adj_active] | lia | lia]. }
  destruct (state_ok_put st c g' (- len) 0 _ _ S Hc H1 H3) as (A & B & C); [done|].
  set (j0 := h * fs_frag f) in *. set (m := len * fs_frag f) in *.
  destruct (cgbase_range st S c Hc j0 m Hj0 Hjn) as [Hb1 Hb2].
  assert (forall d, in_range d (cgbase f c + j0) m = true -> isfree st d = true) as Hwas.
  { intros d Hd. destruct (in_range_group st S c j0 m d Hj0 Hjn Hd) as [E1 E2].
    unfold isfree. rewrite E1. unfold in_range in E2. bool_to_prop.
    pose proof (frag_join f G (dtogd f d)) as Ej. pose proof (Z.mod_pos_bound (dtogd f d) (fs_frag f)).
    set (b := dtogd f d / fs_frag f) in *.
    assert (h <= b < h + len) as Hb by (unfold j0, m in *; nia).
    rewrite <- Ej. apply (blk_full_iff f (geom_frag f G) _ b ltac:(lia)); [|lia].
    replace b with (h + (b - h)) by lia. apply Hfull. lia. }
  assert (0 < cgbase f c + j0) as Hpos.
  { apply first_block_pos; [done|]. rewrite <- (Z.add_0_r h). apply Hfull. lia. }
  split; [|by apply cgbase_dtog; [done | unfold j0, m in *; nia]].
  split; try done.
  - unfold j0, cgbase. rewrite <- HN.
    replace (nblk f * fs_frag f * c + h * fs_frag f) with ((nblk f * c + h) * fs_frag f) by ring.
    apply Z.mod_mul. lia.
  - intros d Hd. rewrite C by done. fold m. pose proof (range_in_group st S c j0 m d) as R.
    unfold take, in_range in *. destruct (Z.eqb_spec (dtog f d) c) as [E|E]; simpl in *.
    + by rewrite R.
    + destruct (in_range d (cgbase f c + j0) m) eqn:E2.
      * by destruct (in_range_group st S c j0 m d Hj0 Hjn E2).
      * unfold in_range in E2. by rewrite E2, andb_true_r.
  - intros i Hi. eapply same_rest_put; try done; rewrite ?(st_ncgs _ S); lia.
Qed.

(** The block the search starts from. *)
Definition cluster_start (bpref : Z) : Z :=
  fragstoblks f (dtogd f (if negb (dtog f bpref =? c) then cgdata f c else blknum f bpref)).

(** Why no cluster is found. *)
Definition no_cluster (bpref len : Z) : Prop :=
  zget (fs_maxcluster f) c < len \/ bread_error c = true \/
  (forall k, len <= k <= fs_contigsumsize f -> zget (cg_clustersum g) k <= 0) \/
  (forall b, cluster_start bpref <= b -> b + len <= cg_nclusterblks g ->
     exists j, b <= j < b + len /\ blk f (cg_blksfree g) j <> full f).

Lemma cluster_start_nonneg bpref : 0 <= cluster_start bpref.
Proof.
  pose proof (st_geom _ S) as G. unfold cluster_start. rewrite fragstoblks_div by done.
  apply Z.div_pos; [|apply (frag_pos _ G)]. apply Z.mod_pos_bound, (geom_fpg _ G).
Qed.

Lemma clusteralloc_post bpref len :
  1 <= len <= fs_contigsumsize f ->
  exists r st', ffs_clusteralloc bread_error st c bpref len = Ok (r, st') /\
    (r = 0 /\ alloc_none st st' /\ no_cluster bpref len \/
     cluster_some st r len st' /\ dtog f r = c).
Proof.
  intros Hlen. pose proof (st_geom _ S) as G. pose proof (st_cg _ S c Hc) as I.
  pose proof (frag_pos _ G) as Hfp. pose proof (alloc_none_refl st S) as Hrefl.
  destruct (cg_ok_clusters _ _ _ I Hcap) as [C1 C2 C3 C4].
  assert (no_cluster bpref len -> exists r st', Ok (0, st) = Ok (r, st') /\
    (r = 0 /\ alloc_none st st' /\ no_cluster bpref len \/
     cluster_some st r len st' /\ dtog f r = c)) as Hnone
    by (intros H; exists 0, st; split; [done | by left]).
  unfold ffs_clusteralloc.
  destruct (Z.ltb_spec (zget (fs_maxcluster f) c) len) as [Hmax|Hmax];
    [apply Hnone; by left|].
  destruct (bread_error c) eqn:Ebr; [apply Hnone; right; by left|].
  rewrite (cg_ok_magic _ _ _ I). cbn [negb].
  set (i := search _ len _).
  destruct (search_spec (Z.to_nat (fs_contigsumsize f + 1 - len)) len
    (fun k => 0 <? zget (cg_clustersum g) k)) as (Hi1 & Hi2 & _). fold i in Hi1, Hi2.
  destruct (Z.ltb_spec (fs_contigsumsize f) i) as [Hi|Hi].
  { eexists 0, _. split; [reflexivity|]. left. split; [done|]. split.
    - destruct S as [S1 S2 S3 S4 S5 S6 S7 S8]. by split_and!.
    - right. right. left. intros k Hk. specialize (Hi2 k ltac:(lia)). cbv beta in Hi2.
      by apply Z.ltb_ge in Hi2. }
  fold (cluster_start bpref). set (s0 := cluster_start bpref).
  assert (0 <= s0) as Hs0 by apply cluster_start_nonneg.
  set (n := Z.to_nat (cg_nclusterblks g - s0)).
  pose proof (cluster_scan_spec n (cg_clustersfree g) s0 0 len Hs0 ltac:(lia) ltac:(lia)) as Hscan.
  unfold NBBY. destruct (cluster_scan _ _ _ _ _ _ _ _) as [got run].
  destruct Hscan as (H1 & H2 & H3).
  destruct (Z.leb_spec (cg_nclusterblks g) got) as [Hgot|Hgot].
  { apply Hnone. right. right. right.
    intros b Hb Hbl. fold s0 in Hb. destruct (H3 ltac:(lia) b ltac:(lia) ltac:(lia)) as (j & Hj & Hbit).
    exists j. split; [done|]. rewrite C3 in Hbit by lia. by apply Z.eqb_neq in Hbit. }
  destruct H2 as (-> & Hh0 & H2); [lia|]. set (h := got - len + 1) in *.
  assert (forall k, 0 <= k < len -> blk f (cg_blksfree g) (h + k) = full f) as Hfull.
  { intros k Hk. specialize (H2 (h + k) ltac:(lia)). rewrite C3 in H2 by lia. by apply Z.eqb_eq in H2. }
  rewrite (cluster_check_ok f G _ _ (mapbytes f)); [|apply (cg_ok_map _ _ _ I) | lia | intros; apply Hfull; lia].
  rewrite bind_Ok, blkstofrags_mul by done.
  pose proof (Hfull 0 ltac:(lia)) as Hfull0. rewrite Z.add_0_r in Hfull0.
  destruct (full_block_in_group f G c g I h ltac:(lia) Hfull0) as [_ Hhn].
  destruct (nblk_fpg _ G) as [HN _].
  destruct (cgbase_dtog f c (h * fs_frag f) G ltac:(nia)) as [Edt _].
  rewrite Edt, Z.eqb_refl. cbn [require]. rewrite bind_Ok.
  assert (0 < cgbase f c + h * fs_frag f) as Hpos.
  { apply (first_block_pos h); [lia | done]. }
  destruct (cluster_take_ok (Z.to_nat len) f g c h G (state_c_csp st S c Hc) I ltac:(lia) Hpos)
    as (f' & g' & -> & Hst & Hadj); [intros; apply Hfull; lia|].
  rewrite bind_Ok. rewrite Z2Nat.id in Hst, Hadj by lia.
  eexists _, _. split; [reflexivity|]. right.
  by apply cluster_some_put; [lia | lia | ..].
Qed.
End clusteralloc.
