(* ===== verification/FfsExample.v ===== *)
(** A small file system on which the theorems of the allocator are
    instantiated: two groups of eight blocks of four fragments, sixteen
    inodes each, with clusters up to two blocks; and reference
    implementations of the kernel library. *)

From S2P Require Import Prelude Bitmap Fs FfsSubr FfsAlloc FfsMap FfsInv FfsState FfsFree.
From S2P Require Import FfsHash FfsInode.

(** ** The kernel library *)

#[export] Instance libkern_ref : Libkern := {|
  scanc size cp table mask :=
    size - search (Z.to_nat size) 0 (fun j => negb (Z.land (zget table (zget cp j)) mask =? 0));
  memcchr b c n :=
    let k := search (Z.to_nat n) 0 (fun j => negb (zget b j =? c)) in
    if k <? n then Some k else None
|}.

#[export] Instance libkern_ref_spec : LibkernSpec libkern_ref.
Proof.
  split.
  - intros size cp table mask Hs. cbn.
    match goal with |- context [search ?n ?i ?p] => destruct (search_spec n i p) as (H1 & H2 & H3);
      set (k := search n i p) in * end.
    cbv beta in H2, H3. split; [lia|]. split.
    + intros j Hj. specialize (H2 j ltac:(lia)). by bool_to_prop.
    + intros Hr. specialize (H3 ltac:(lia)). bool_to_prop. by replace (size - (size - k)) with k by lia.
  - intros b c n Hn. cbn.
    match goal with |- context [search ?n ?i ?p] => destruct (search_spec n i p) as (H1 & H2 & H3);
      set (k := search n i p) in * end.
    cbv beta in H2, H3. zcase.
    + specialize (H3 ltac:(lia)). bool_to_prop. split_and!; try done; try lia.
      intros j Hj. specialize (H2 j ltac:(lia)). by bool_to_prop.
    + intros j Hj. specialize (H2 j ltac:(lia)). by bool_to_prop.
Qed.

(** ** The file system *)

Definition sb_ex : superblock := {|
  fs_dblkno := 8; fs_old_cgoffset := 0; fs_old_cgmask := 0; fs_ncg := 2;
  fs_bsize := 4096; fs_fsize := 1024; fs_frag := 4; fs_minfree := 8;
  fs_bmask := -4096; fs_fmask := -1024; fs_bshift := 12; fs_fshift := 10;
  fs_maxbpg := 4; fs_fragshift := 2; fs_nindir := 512; fs_inopb := 8;
  fs_ipg := 16; fs_fpg := 32; fs_ronly := 0; fs_metaspace := 8;
  fs_size := 64; fs_dsize := 48; fs_avgfilesize := 1024; fs_avgfpdir := 4;
  fs_contigsumsize := 2; fs_qbmask := 4095; fs_qfmask := 1023;
  fs_fsbtodb := 1; fs_magic := FS_UFS2_MAGIC
|}.

(** Group 0: blocks 0 and 1 hold metadata, block 2 has a free run of two
    fragments, blocks 3 to 6 are free, block 7 is taken. *)
Definition cg_ex0 : cg :=
  MkCg CG_MAGIC 0 32 0 0 (MkCsum 1 4 13 2) 0 0 3 [0; 0; 1; 0; 0; 0; 0; 0]
    8 16 8 [0x07; 0x00] [0x00; 0xf6; 0xff; 0x0f] [0x78] [0; 0; 1].

(** Group 1: blocks 0 and 1 hold metadata, the rest is free. *)
Definition cg_ex1 : cg :=
  MkCg CG_MAGIC 1 32 0 0 (MkCsum 0 6 16 0) 0 0 0 [0; 0; 0; 0; 0; 0; 0; 0]
    8 16 0 [0x00; 0x00] [0x00; 0xff; 0xff; 0xff] [0xfc] [0; 0; 1].

Definition fs_ex : fs :=
  MkFs sb_ex 0 0 [0; 0] [MkCsum 1 4 13 2; MkCsum 0 6 16 0] [2; 2] None (MkCsum 1 10 29 2) 0.

Definition st_ex : ffs_state := MkState fs_ex [cg_ex0; cg_ex1].

Lemma geom_ex : geom sb_ex.
Proof. split; try done. unfold frag_ok. cbn. lia. Qed.

(** Bits past the end of a map are clear. *)
Lemma bit_past m n i : zlength m <= n -> 8 * n <= i -> bit m i = false.
Proof. intros Hl Hi. unfold bit. rewrite aget_ge by dlia. apply Z.bits_0. Qed.

Ltac bytes := cbn; repeat (apply Forall_cons; split; [unfold is_byte; lia|]); by apply Forall_nil.

(** A statement about all the indices below a bound, by computation. *)
Lemma forall_below (P : Z -> bool) n :
  ranges P 0 (n - 1) = true -> forall i, 0 <= i < n -> P i = true.
Proof. intros H i Hi. eapply ranges_elim; [exact H | lia]. Qed.

Lemma cg_ex_ok c g :
  (c = 0 /\ g = cg_ex0) \/ (c = 1 /\ g = cg_ex1) -> cg_ok sb_ex c g.
Proof.
  intros H.
  assert (cg_chkmagic g = true /\ cg_cgx g = c /\ cg_ndblk g = 32 /\ zlength (cg_blksfree g) = 4 /\
    cg_nclusterblks g = 8 /\ zlength (cg_clustersfree g) = 1) as (H1 & H2 & H3 & H4 & H5 & H6)
    by (by destruct H as [[-> ->]|[-> ->]]).
  split; try done.
  - rewrite H3. cbn. lia.
  - intros i Hi. apply (bit_past _ 4); lia.
  - split.
    + destruct H as [[-> ->]|[-> ->]]; (split; [done | bytes]).
    + intros i Hi. cbn in Hi. apply (bit_past _ 4); lia.
    + by destruct H as [[-> ->]|[-> ->]].
    + by destruct H as [[-> ->]|[-> ->]].
    + by destruct H as [[-> ->]|[-> ->]].
    + intros k Hk. cbn in Hk. assert (k = 1 \/ k = 2 \/ k = 3) as Hk' by lia.
      destruct H as [[-> ->]|[-> ->]]; by destruct Hk' as [-> | [-> | ->]].
  - by destruct H as [[-> ->]|[-> ->]].
  - intros _. split.
    + lia.
    + by rewrite H5, H3.
    + rewrite H5. intros h Hh. apply eqb_prop. revert h Hh.
      apply (forall_below (fun h => eqb _ _)). by destruct H as [[-> ->]|[-> ->]].
    + split; [by destruct H as [[-> ->]|[-> ->]]|].
      intros k Hk. cbn in Hk. assert (k = 1 \/ k = 2) as Hk' by lia.
      destruct H as [[-> ->]|[-> ->]]; by destruct Hk' as [-> | ->].
Qed.

Lemma below2 c : 0 <= c < 2 -> c = 0 \/ c = 1.
Proof. lia. Qed.

Lemma state_ok_ex : state_ok st_ex.
Proof.
  split; try done; try apply geom_ex.
  - intros c Hc. apply cg_ex_ok. destruct (below2 c Hc) as [-> | ->]; auto.
  - intros c Hc. by destruct (below2 c Hc) as [-> | ->].
Qed.

Lemma inodes_ok_ex : inodes_ok st_ex.
Proof.
  split; try done.
  - intros c Hc. destruct (below2 c Hc) as [-> | ->]; (split; try done; [split; [done|bytes] |]);
      intros _; (split; [done|]); intros i Hi Hb; cbn in Hi.
    + enough ((i <? 8) || negb (bit [0x07; 0x00] i) = true) as E.
      { change (bit [0x07; 0x00] i = true) in Hb. rewrite Hb in E. cbn. bool_to_prop. destruct (Z.ltb_spec i 8); [done|discriminate]. }
      revert i Hi Hb. intros i Hi _. revert i Hi. by apply forall_below.
    + enough (negb (bit [0x00; 0x00] i) = true) as E
        by (change (bit [0x00; 0x00] i = true) in Hb; by rewrite Hb in E).
      revert i Hi Hb. intros i Hi _. revert i Hi. by apply forall_below.
  - intros c Hc. by destruct (below2 c Hc) as [-> | ->].
Qed.
