(* ===== verification/FfsProps.v ===== *)
(** The theorems of the FFS allocator, each with an instance on the example
    file system. *)

From S2P Require Import Prelude Bitmap Fs FfsSubr FfsAlloc FfsMap FfsInv FfsBlocks.
From S2P Require Import FfsState FfsFree FfsHash FfsInode FfsTop FfsExample.

(** ** Allocation *)

(** C1: [ffs_alloc], on a consistent file system, either takes [n] fragments
    of one block that were free, leaves everything else as it was and charges
    the inode, or returns ENOSPC and changes no fragment. It returns ENOSPC
    only when the caller may not use the reserve and the reserve is reached,
    or when every cylinder group is unreadable or has no free block; it never
    panics and keeps the file system consistent. *)
Theorem ffs_alloc_correct {K : Libkern} {KS : LibkernSpec K} bread_error time_second
    st ip lbn bpref n size flags denied :
  state_ok st -> fs_ncg (st_fs st) <= 2 ^ 31 ->
  fs_size (st_fs st) <= fs_ncg (st_fs st) * fs_fpg (st_fs st) ->
  frag_size (st_fs st) n size -> 0 <= bpref ->
  0 <= ino_to_cg (st_fs st) (i_number ip) < fs_ncg (st_fs st) ->
  exists err bno ip' st',
    ffs_alloc bread_error time_second st ip lbn bpref size flags denied = Ok (err, bno, ip', st') /\
    (err = 0 /\ charged flags size ip ip' /\ alloc_some st bno n st' \/
     err = ENOSPC /\ ip' = ip /\ alloc_none st st' /\
     ((denied = true /\ freespace (st_fs st) (fs_minfree (st_fs st)) - numfrags (st_fs st) size < 0) \/
      forall c, 0 <= c < fs_ncg (st_fs st) ->
        cs_nbfree (fs_cs (st_fs st) c) = 0 \/ bread_error c = true)).
Proof.
  intros S Hncg Hsz Hreq Hb Hino.
  exact (ffs_alloc_post bread_error time_second (st_fs st) Hncg Hsz st ip lbn bpref n size flags
    denied (conj S eq_refl) Hreq Hb Hino).
Qed.

Definition ip_ex : inode := MkInode 4 0x8000 0 [] [] 0 0.

Lemma ffs_alloc_correct_witness :
  exists err bno ip' st',
    ffs_alloc (fun _ => false) 7 st_ex ip_ex 0 0 3072 0 true = Ok (err, bno, ip', st') /\
    (err = 0 /\ charged 0 3072 ip_ex ip' /\ alloc_some st_ex bno 3 st' \/
     err = ENOSPC /\ ip' = ip_ex /\ alloc_none st_ex st' /\
     ((true = true /\ freespace fs_ex 8 - numfrags fs_ex 3072 < 0) \/
      forall c, 0 <= c < 2 -> cs_nbfree (fs_cs fs_ex c) = 0 \/ false = true)).
Proof.
  apply (ffs_alloc_correct (fun _ => false) 7 st_ex ip_ex 0 0 3 3072 0 true).
  - exact state_ok_ex.
  - vm_compute. discriminate.
  - vm_compute. discriminate.
  - split; [cbn; lia | reflexivity].
  - lia.
  - vm_compute. split; [discriminate | reflexivity].
Defined.

(** [ffs_alloccg] in one group: it fails and changes no fragment only if
    the group has no free block or cannot be read; otherwise the result is
    the address of [n] fragments of one block of this group that were free,
    and exactly these are taken. The counters, the run counts and the cluster
    summary follow, as the invariant says. *)
Theorem ffs_alloccg_correct {K : Libkern} {KS : LibkernSpec K} bread_error time_second
    st c bpref n size rsize :
  state_ok st -> 0 <= c < fs_ncg (st_fs st) -> frag_size (st_fs st) n rsize ->
  (size = rsize \/ size = fs_bsize (st_fs st)) ->
  exists r st', ffs_alloccg bread_error time_second st c bpref size rsize = Ok (r, st') /\
    (r = 0 /\ alloc_none st st' /\ (cs_nbfree (fs_cs (st_fs st) c) = 0 \/ bread_error c = true) \/
     alloc_some st r n st' /\ dtog (st_fs st) r = c).
Proof. intros S Hc. by apply alloccg_post. Qed.

Lemma ffs_alloccg_correct_witness :
  exists r st', ffs_alloccg (fun _ => false) 7 st_ex 0 0 2048 2048 = Ok (r, st') /\
    (r = 0 /\ alloc_none st_ex st' /\ (cs_nbfree (fs_cs fs_ex 0) = 0 \/ false = true) \/
     alloc_some st_ex r 2 st' /\ dtog fs_ex r = 0).
Proof.
  apply (ffs_alloccg_correct (fun _ => false) 7 st_ex 0 0 2 2048 2048).
  - exact state_ok_ex.
  - cbn. lia.
  - split; [cbn; lia | reflexivity].
  - by left.
Defined.

(** [ffs_fragextend] grows the [o] fragments at [bprev] to [n] in place:
    it returns 0 and changes nothing, or returns [bprev], and the fragments
    from [bprev + o] to [bprev + n] were free and are taken. *)
Theorem ffs_fragextend_correct bread_error time_second st c bprev o n osize nsize :
  state_ok st -> 0 <= c < fs_ncg (st_fs st) ->
  frag_size (st_fs st) o osize -> frag_size (st_fs st) n nsize -> o < n ->
  0 <= bprev -> dtog (st_fs st) bprev = c ->
  bprev mod fs_frag (st_fs st) + o <= fs_frag (st_fs st) ->
  (forall i, 0 <= i < o -> isfree st (bprev + i) = false) ->
  exists r st', ffs_fragextend bread_error time_second st c bprev osize nsize = Ok (r, st') /\
    (r = 0 /\ alloc_none st st' \/ r = bprev /\ alloc_some st (bprev + o) (n - o) st').
Proof. intros S Hc. by apply fragextend_post. Qed.

(** The one fragment at 8, before the run of two. *)
Lemma ffs_fragextend_correct_witness :
  exists r st', ffs_fragextend (fun _ => false) 7 st_ex 0 8 1024 3072 = Ok (r, st') /\
    (r = 0 /\ alloc_none st_ex st' \/ r = 8 /\ alloc_some st_ex (8 + 1) (3 - 1) st').
Proof.
  apply (ffs_fragextend_correct (fun _ => false) 7 st_ex 0 8 1 3 1024 3072).
  - exact state_ok_ex.
  - cbn. lia.
  - split; [cbn; lia | reflexivity].
  - split; [cbn; lia | reflexivity].
  - lia.
  - lia.
  - reflexivity.
  - vm_compute. discriminate.
  - intros i Hi. assert (i = 0) as -> by lia. reflexivity.
Defined.

(** ** Release *)

(** [ffs_blkfree_cg] on a piece that is allocated frees exactly its
    fragments; when they complete a block, fragments become a free block and
    join the clusters. The file system stays consistent. *)
Theorem ffs_blkfree_cg_correct bread_error time_second st snapshot r n :
  state_ok st -> owned st r n -> bread_error (dtog (st_fs st) r) = false ->
  exists st', ffs_blkfree_cg bread_error time_second st snapshot r (n * fs_fsize (st_fs st)) = Ok st' /\
    free_some st r n st'.
Proof. intros S. by apply blkfree_post. Qed.

Lemma owned_ex : owned st_ex 28 4.
Proof.
  split; try (cbn; lia); try done.
  intros d Hd. unfold in_range in Hd. bool_to_prop.
  assert (d = 28 \/ d = 29 \/ d = 30 \/ d = 31) as [-> | [-> | [-> | ->]]] by lia; done.
Qed.

Lemma ffs_blkfree_cg_correct_witness :
  exists st', ffs_blkfree_cg (fun _ => false) 7 st_ex false 28 4096 = Ok st' /\
    free_some st_ex 28 4 st'.
Proof.
  apply (ffs_blkfree_cg_correct (fun _ => false) 7 st_ex false 28 4);
    [exact state_ok_ex | exact owned_ex | reflexivity].
Defined.

(** What [ffs_alloccg] hands out is owned by the caller. *)
Lemma alloc_some_owned st r n st' :
  state_ok st -> alloc_some st r n st' -> 1 <= n ->
  (forall c, 0 <= c < fs_ncg (st_fs st) ->
     cg_ndblk (get_cg st c) mod fs_frag (st_fs st) = 0 /\
     cgbase (st_fs st) c + cg_ndblk (get_cg st c) <= fs_size (st_fs st)) ->
  owned st' r n.
Proof.
  intros S A Hn Hgrp. pose proof (st_geom _ S) as G. destruct (geom_fpg _ G) as [Hf _].
  pose proof (frag_pos _ G). pose proof (alloc_sb _ _ _ _ A) as E.
  pose proof (alloc_pos _ _ _ _ A) as Hr. pose proof (alloc_in _ _ _ _ A) as Hin.
  assert (0 <= dtog (st_fs st) r < fs_ncg (st_fs st)) as Hc.
  { unfold dtog. split; [apply Z.div_pos; lia | apply Z.div_lt_upper_bound; lia]. }
  destruct (Hgrp _ Hc) as [Hmod Hsz]. pose proof (group_addr st S _ Hc r eq_refl) as Er.
  pose proof (Z.mod_pos_bound r (fs_fpg (st_fs st)) Hf) as Hd. fold (dtogd (st_fs st) r) in Hd.
  assert (dtogd (st_fs st) r < cg_ndblk (get_cg st (dtog (st_fs st) r))) as Hlt.
  { destruct (Z.lt_ge_cases (dtogd (st_fs st) r) (cg_ndblk (get_cg st (dtog (st_fs st) r))))
      as [|Hge]; [done|exfalso].
    pose proof (alloc_was_free _ _ _ _ A r) as F. unfold in_range, isfree in F. revert F. ztest.
    rewrite (cg_ok_tail _ _ _ (st_cg _ S _ Hc)) by done. intros F. discriminate F. done. }
  destruct (alloc_rest _ _ _ _ A _ Hc) as (_ & _ & Hnd & _).
  split; rewrite ?E; try done.
  - lia.
  - apply (alloc_block _ _ _ _ A).
  - rewrite Hnd. apply Z.div_lt_upper_bound; [lia|].
    pose proof (Z.div_mod (cg_ndblk (get_cg st (dtog (st_fs st) r))) (fs_frag (st_fs st))). lia.
  - intros d Hd'. rewrite (alloc_free _ _ _ _ A), Hd', andb_false_r; [done|].
    unfold in_range, in_fs in *. bool_to_prop. lia.
Qed.

(** C34: allocating and freeing again restores the set of free fragments and
    the counters of every group. *)
Theorem alloc_free_roundtrip {K : Libkern} {KS : LibkernSpec K} bread_error time_second
    st c bpref n size snapshot :
  state_ok st -> 0 <= c < fs_ncg (st_fs st) -> frag_size (st_fs st) n size ->
  (forall c, 0 <= c < fs_ncg (st_fs st) ->
     cg_ndblk (get_cg st c) mod fs_frag (st_fs st) = 0 /\
     cgbase (st_fs st) c + cg_ndblk (get_cg st c) <= fs_size (st_fs st)) ->
  bread_error c = false -> cs_nbfree (fs_cs (st_fs st) c) <> 0 ->
  exists r st1 st2,
    ffs_alloccg bread_error time_second st c bpref size size = Ok (r, st1) /\
    ffs_blkfree_cg bread_error time_second st1 snapshot r size = Ok st2 /\
    state_ok st2 /\
    (forall d, in_fs (st_fs st) d -> isfree st2 d = isfree st d) /\
    (forall i, 0 <= i < fs_ncg (st_fs st) ->
      cs_nbfree (fs_cs (st_fs st2) i) = cs_nbfree (fs_cs (st_fs st) i) /\
      cs_nffree (fs_cs (st_fs st2) i) = cs_nffree (fs_cs (st_fs st) i)).
Proof.
  intros S Hc Hsz Hgrp Hbr Hnb.
  destruct (alloccg_post bread_error time_second st S c Hc bpref n size size Hsz (or_introl eq_refl))
    as (r & st1 & E1 & [(_ & _ & [H|H]) | [A Hdt]]); [congruence | congruence |].
  destruct Hsz as [Hn ->]. pose proof (alloc_some_owned st r n st1 S A ltac:(lia) Hgrp) as O.
  pose proof (alloc_sb _ _ _ _ A) as Esb. pose proof (alloc_ok _ _ _ _ A) as S1.
  destruct (blkfree_post bread_error time_second st1 S1 snapshot r n O) as (st2 & E2 & F);
    [by rewrite Esb, Hdt|].
  rewrite Esb in E2. exists r, st1, st2. pose proof (free_sb _ _ _ _ F) as Esb2. rewrite Esb in Esb2.
  assert (forall d, in_fs (st_fs st) d -> isfree st2 d = isfree st d) as Hfree.
  { intros d Hd. rewrite (free_free _ _ _ _ F) by (unfold in_fs; by rewrite Esb).
    rewrite (alloc_free _ _ _ _ A) by done. pose proof (alloc_was_free _ _ _ _ A d) as Hw.
    destruct (in_range d r n); [by rewrite Hw | by rewrite andb_true_r, orb_false_r]. }
  split_and!; try done; [apply F|]. intros i Hi.
  apply state_ok_counters; try done. apply F.
Qed.

Lemma alloc_free_roundtrip_witness :
  exists r st1 st2,
    ffs_alloccg (fun _ => false) 7 st_ex 1 0 1024 1024 = Ok (r, st1) /\
    ffs_blkfree_cg (fun _ => false) 7 st1 false r 1024 = Ok st2 /\
    state_ok st2 /\
    (forall d, in_fs fs_ex d -> isfree st2 d = isfree st_ex d) /\
    (forall i, 0 <= i < 2 ->
      cs_nbfree (fs_cs (st_fs st2) i) = cs_nbfree (fs_cs fs_ex i) /\
      cs_nffree (fs_cs (st_fs st2) i) = cs_nffree (fs_cs fs_ex i)).
Proof.
  apply (alloc_free_roundtrip (fun _ => false) 7 st_ex 1 0 1 1024 false).
  - exact state_ok_ex.
  - cbn. lia.
  - split; [cbn; lia | reflexivity].
  - intros c Hc. destruct (below2 c Hc) as [-> | ->]; (split; [reflexivity | vm_compute; discriminate]).
  - reflexivity.
  - vm_compute. discriminate.
Defined.

(** Freeing a piece of which a fragment is already free panics (on a
    mounted device; on a snapshot file a block is left alone). *)
Theorem ffs_blkfree_cg_double_free bread_error time_second st r n :
  state_ok st -> 0 < r < fs_size (st_fs st) -> 1 <= n ->
  r mod fs_frag (st_fs st) + n <= fs_frag (st_fs st) ->
  0 <= dtog (st_fs st) r < fs_ncg (st_fs st) -> bread_error (dtog (st_fs st) r) = false ->
  (exists d, in_range d r n = true /\ isfree st d = true) ->
  exists msg, ffs_blkfree_cg bread_error time_second st false r (n * fs_fsize (st_fs st)) = Panic msg.
Proof. intros S. intros. by apply blkfree_double. Qed.

Lemma ffs_blkfree_cg_double_free_witness :
  exists msg, ffs_blkfree_cg (fun _ => false) 7 st_ex false 8 2048 = Panic msg.
Proof.
  apply (ffs_blkfree_cg_double_free (fun _ => false) 7 st_ex 8 2).
  - exact state_ok_ex.
  - cbn. lia.
  - lia.
  - vm_compute. discriminate.
  - vm_compute. split; [discriminate | reflexivity].
  - reflexivity.
  - exists 9. split; reflexivity.
Defined.

(** ** Inodes *)

(** C23: the choice of [ffs_valloc], on a file system of at most 2^31 groups
    and fewer than 2^32 inodes, has three outcomes. It returns 0 and takes no
    inode: then every group is full or unreadable. Or it hands out an inode
    that was free, takes only that inode, leaves the blocks alone, and has its
    dinode initialised on disk (UFS2). Or (UFS2) a group could not be read
    again after dinodes in it were initialised: the errno of that read is
    returned as the inode number and no inode is taken. The first and the
    last leave the set of inodes in use, and all three the invariant. *)
Theorem ffs_valloc_try_correct {K : Libkern} {KS : LibkernSpec K} bread_error time_second
    reread_error st pip is_root random mode :
  inodes_ok st ->
  fs_ncg (st_fs st) <= 2 ^ 31 -> fs_ncg (st_fs st) * fs_ipg (st_fs st) < 2 ^ 32 ->
  0 <= i_number pip ->
  exists r st1 st', ffs_valloc_try bread_error time_second reread_error st pip is_root random mode
      = Ok (r, st') /\
    inodes_ok st1 /\ (forall ino, ino_used st1 ino = ino_used st ino) /\ blocks_same st st1 /\
    (r = 0 /\ st' = st1 /\
       (forall c, 0 <= c < fs_ncg (st_fs st) ->
          cs_nifree (fs_cs (st_fs st) c) = 0 \/ bread_error c = true) \/
     ino_taken st1 r st' \/
     exists c, 0 <= c < fs_ncg (st_fs st) /\ reread_failed reread_error st1 c r st').
Proof.
  intros S Hncg Hsmall Hpip.
  destruct (valloc_try_post bread_error time_second reread_error (st_fs st) st pip is_root
    random mode (conj S eq_refl) Hncg Hsmall Hpip) as (r & st' & E & H).
  destruct H as [(-> & [H1 _] & H2 & H3 & H4) | (st1 & [H1 _] & H2 & H3 & H4)].
  - exists 0, st', st'. split_and!; try done. by left.
  - exists r, st1, st'. split_and!; try done. by right.
Qed.

(** Group 1 cannot be read again. *)
Lemma ffs_valloc_try_correct_witness :
  exists r st1 st', ffs_valloc_try (fun _ => false) 7 (fun c _ => c * EIO) st_ex ip_ex false 5 0x41ed
      = Ok (r, st') /\
    inodes_ok st1 /\ (forall ino, ino_used st1 ino = ino_used st_ex ino) /\ blocks_same st_ex st1 /\
    (r = 0 /\ st' = st1 /\
       (forall c, 0 <= c < 2 -> cs_nifree (fs_cs fs_ex c) = 0 \/ false = true) \/
     ino_taken st1 r st' \/
     exists c, 0 <= c < 2 /\ reread_failed (fun c _ => c * EIO) st1 c r st').
Proof.
  apply (ffs_valloc_try_correct (fun _ => false) 7 (fun c _ => c * EIO) st_ex ip_ex false 5 0x41ed).
  - exact inodes_ok_ex.
  - vm_compute. discriminate.
  - reflexivity.
  - vm_compute. discriminate.
Defined.

(** [ffs_nodealloccg] in one group: 0 and no change only if the group has
    no free inode or cannot be read; otherwise an inode of the group that was
    free, the preferred one when that is free (and is not the first of its
    group). *)
Theorem ffs_nodealloccg_correct {K : Libkern} {KS : LibkernSpec K} bread_error time_second
    reread_error c mode st ipref unused :
  (forall i, reread_error c i = 0) -> inodes_ok st -> 0 <= c < fs_ncg (st_fs st) ->
  exists r st', ffs_nodealloccg bread_error time_second reread_error st c ipref mode unused
      = Ok (r, st') /\
    (r = 0 /\ st' = st /\ (cs_nifree (fs_cs (st_fs st) c) = 0 \/ bread_error c = true) \/
     ino_taken st r st' /\ ino_to_cg (st_fs st) r = c /\
     (let i := ipref mod fs_ipg (st_fs st) in
      i <> 0 -> bit (cg_inosused (get_cg st c)) i = false -> r = c * fs_ipg (st_fs st) + i)).
Proof.
  intros Hr S Hc. destruct (nodealloccg_post bread_error time_second reread_error c mode st ipref unused S Hc)
    as (r & st' & E & H). exists r, st'. split; [done|].
  destruct H as [H | [H | (_ & Hne & [i <-] & _)]]; [by left | by right | by rewrite Hr in Hne].
Qed.

(** Inode 12 lies past the initialised ones: a block of dinodes is
    initialised first. *)
Lemma ffs_nodealloccg_correct_witness :
  exists r st', ffs_nodealloccg (fun _ => false) 7 (fun _ _ => 0) st_ex 0 12 0x81a4 0 = Ok (r, st') /\
    (r = 0 /\ st' = st_ex /\ (cs_nifree (fs_cs fs_ex 0) = 0 \/ false = true) \/
     ino_taken st_ex r st' /\ ino_to_cg fs_ex r = 0 /\
     (let i := 12 mod 16 in
      i <> 0 -> bit (cg_inosused cg_ex0) i = false -> r = 0 * 16 + i)).
Proof.
  apply (ffs_nodealloccg_correct (fun _ => false) 7 (fun _ _ => 0) 0 0x81a4 st_ex 12 0).
  - reflexivity.
  - exact inodes_ok_ex.
  - cbn. lia.
Defined.

(** [ffs_freefile] gives back exactly the inode named, and panics when it
    is free already on a file system mounted for writing. *)
Theorem ffs_freefile_correct bread_error time_second st ino mode :
  inodes_ok st -> fs_ncg (st_fs st) * fs_ipg (st_fs st) < 2 ^ 32 ->
  0 < ino < u32 (fs_ipg (st_fs st) * fs_ncg (st_fs st)) ->
  bread_error (ino_to_cg (st_fs st) ino) = false -> fs_ronly (st_fs st) = 0 ->
  if ino_used st ino
  then exists st', ffs_freefile bread_error time_second st ino mode = Ok (0, st') /\ ino_freed st ino st'
  else exists msg, ffs_freefile bread_error time_second st ino mode = Panic msg.
Proof.
  intros S Hsmall Hino Hbr Hro. destruct (ino_used st ino) eqn:E.
  - by apply freefile_ok.
  - apply freefile_free; done || lia.
Qed.

Lemma ffs_freefile_correct_witness :
  if ino_used st_ex 2
  then exists st', ffs_freefile (fun _ => false) 7 st_ex 2 0x41ed = Ok (0, st') /\ ino_freed st_ex 2 st'
  else exists msg, ffs_freefile (fun _ => false) 7 st_ex 2 0x41ed = Panic msg.
Proof.
  apply (ffs_freefile_correct (fun _ => false) 7 st_ex 2 0x41ed).
  - exact inodes_ok_ex.
  - reflexivity.
  - vm_compute. split; reflexivity.
  - reflexivity.
  - reflexivity.
Defined.

(** ** The search and the accounting *)

(** The fragments around a run are taken. *)
Lemma run_at_maximal s v pos a :
  frag_ok s -> 0 <= v <= full s -> 1 <= a <= fs_frag s -> 0 <= pos <= fs_frag s - a ->
  run_at v pos a = true ->
  (0 < pos -> Z.testbit v (pos - 1) = false) /\
  (pos + a < fs_frag s -> Z.testbit v (pos + a) = false).
Proof.
  intros Hs Hv Ha Hp Hr.
  assert (blocks_all (fun f v => ranges (fun a => ranges (fun pos =>
    negb (run_at v pos a) || (((pos =? 0) || negb (Z.testbit v (pos - 1))) &&
      ((f <=? pos + a) || negb (Z.testbit v (pos + a))))) 0 (f - a)) 1 f) = true) as H
    by by vm_compute.
  block_at H s v. range_at H a. range_at H pos. rewrite Hr in H. cbn [negb orb] in H.
  apply andb_prop in H as [H1 H2]. split; intros Hlt.
  - apply orb_prop in H1 as [H1|H1]; bool_to_prop; [lia | done].
  - apply orb_prop in H2 as [H2|H2]; bool_to_prop; [lia | done].
Qed.

(** [ffs_mapsearch], asked for a run of [a] fragments that the counters
    of the group promise, finds one: it never panics, whatever the preference
    and the rotor, and at the address it returns stand exactly [a] free
    fragments of one block. *)
Theorem ffs_mapsearch_finds {K : Libkern} {KS : LibkernSpec K} s c g bpref a :
  geom s -> cg_ok s c g -> 1 <= a <= fs_frag s ->
  (if a =? fs_frag s then cs_nbfree (cg_cs g) <> 0 else zget (cg_frsum g) a <> 0) ->
  exists h pos rotor, ffs_mapsearch s g bpref a = Ok (h * fs_frag s + pos, set_cg_frotor rotor g) /\
    0 <= h < nblk s /\ 0 <= pos <= fs_frag s - a /\
    (forall j, pos <= j < pos + a -> bit (cg_blksfree g) (h * fs_frag s + j) = true) /\
    (0 < pos -> bit (cg_blksfree g) (h * fs_frag s + (pos - 1)) = false) /\
    (pos + a < fs_frag s -> bit (cg_blksfree g) (h * fs_frag s + (pos + a)) = false).
Proof.
  intros G I Ha Hn. pose proof (geom_frag s G) as Hs. pose proof (cg_ok_map _ _ _ I) as M.
  assert (exists h0 pos0, 0 <= h0 < nblk s /\ 0 <= pos0 <= fs_frag s - a /\
    run_at (blk s (cg_blksfree g) h0) pos0 a = true) as (h0 & pos0 & Hh0 & Hp0 & Hr0).
  { destruct (Z.eqb_spec a (fs_frag s)) as [->|Hne].
    - destruct (map_ok_full_exists s _ _ _ _ M Hn) as (h0 & Hh0 & E).
      exists h0, 0. split; [done|]. split; [lia|]. rewrite E. by apply run_at_full.
    - destruct (map_ok_run_exists s _ _ _ _ M a ltac:(lia) Hn) as (h0 & Hh0 & E).
      destruct (frag_runs_at s Hs _ a (blk_range s Hs _ h0 (proj1 Hh0)) ltac:(lia) E) as (p & Hp & Hr).
      by exists h0, p. }
  destruct (ffs_mapsearch_correct s G g (map_bitmap _ _ _ _ _ M) (map_tail _ _ _ _ _ M)
    (cg_ok_frotor _ _ _ I) a Ha bpref h0 pos0 Hh0 Hp0 Hr0) as (h & pos & r & E & Hh & Hp & Hr & _).
  pose proof (blk_range s Hs (cg_blksfree g) h (proj1 Hh)) as Hv.
  assert (forall j, 0 <= j < fs_frag s ->
    bit (cg_blksfree g) (h * fs_frag s + j) = Z.testbit (blk s (cg_blksfree g) h) j) as Hbit.
  { intros j Hj. rewrite blk_testbit by (done || lia). ztest. by rewrite andb_true_r. }
  destruct (run_at_maximal s _ pos a Hs Hv Ha Hp Hr) as [R1 R2].
  exists h, pos, r. split_and!; try done; try lia.
  - intros j Hj. rewrite Hbit by lia. by apply (run_at_bits s Hs _ pos a).
  - intros H. rewrite Hbit by lia. by apply R1.
  - intros H. rewrite Hbit by lia. by apply R2.
Qed.

Lemma ffs_mapsearch_finds_witness :
  exists h pos rotor, ffs_mapsearch sb_ex cg_ex0 0 2 = Ok (h * 4 + pos, set_cg_frotor rotor cg_ex0) /\
    0 <= h < nblk sb_ex /\ 0 <= pos <= 4 - 2 /\
    (forall j, pos <= j < pos + 2 -> bit (cg_blksfree cg_ex0) (h * 4 + j) = true) /\
    (0 < pos -> bit (cg_blksfree cg_ex0) (h * 4 + (pos - 1)) = false) /\
    (pos + 2 < 4 -> bit (cg_blksfree cg_ex0) (h * 4 + (pos + 2)) = false).
Proof.
  apply (ffs_mapsearch_finds sb_ex 0 cg_ex0 0 2).
  - exact geom_ex.
  - apply cg_ex_ok. by left.
  - cbn. lia.
  - vm_compute. discriminate.
Defined.

(** [ffs_fragacct] adds [cnt] to the count of each length [k] for every
    maximal run of exactly [k] free fragments in the block, for all the block
    values and fragment counts, and touches no other count. *)
Theorem ffs_fragacct_counts_runs s v fraglist cnt k :
  frag_ok s -> 0 <= v < 2 ^ fs_frag s -> fs_frag s <= zlength fraglist -> 0 <= k ->
  zget (ffs_fragacct s v fraglist cnt) k = zget fraglist k +
    (if (1 <=? k) && (k <? fs_frag s)
     then cnt * Z.of_nat (count_occ Nat.eq_dec (run_lengths (fragbits (fs_frag s) v)) (Z.to_nat k))
     else 0).
Proof.
  intros Hs Hv Hl Hk. apply (ffs_fragacct_spec s v fraglist cnt Hs); try done.
  unfold full. rewrite Z.ones_equiv. lia.
Qed.

Lemma ffs_fragacct_counts_runs_witness :
  zget (ffs_fragacct sb_ex 6 [0; 0; 0; 0; 0; 0; 0; 0] 1) 2 = 0 + 1 * 1.
Proof.
  apply (ffs_fragacct_counts_runs sb_ex 6 [0; 0; 0; 0; 0; 0; 0; 0] 1 2).
  - apply geom_ex.
  - cbn. lia.
  - vm_compute. discriminate.
  - lia.
Defined.

(** [ffs_clusteracct], when a block becomes free or is taken, sets its
    bit, keeps the summary the histogram of the maximal runs of free blocks
    (longer runs counted at the cap), and records for the group the largest
    size of which it has a cluster, 0 when it has none. *)
Theorem ffs_clusteracct_histogram (f : fs) g h cnt :
  0 < fs_contigsumsize f -> (cnt = 1 \/ cnt = -1) ->
  0 <= h < cg_nclusterblks g -> cg_nclusterblks g <= 8 * zlength (cg_clustersfree g) ->
  bit (cg_clustersfree g) h = (cnt <? 0) -> clustersum_ok f g ->
  0 <= cg_cgx g < zlength (fs_maxcluster f) ->
  let '(f', g') := ffs_clusteracct f g h cnt in
  clustersum_ok f g' /\ cg_nclusterblks g' = cg_nclusterblks g /\
  (forall j, 0 <= j ->
    bit (cg_clustersfree g') j = if j =? h then 0 <? cnt else bit (cg_clustersfree g) j) /\
  (let m := zget (fs_maxcluster f') (cg_cgx g) in
   0 <= m <= fs_contigsumsize f /\ (0 < m -> 0 < zget (cg_clustersum g') m) /\
   forall k, m < k <= fs_contigsumsize f -> zget (cg_clustersum g') k <= 0).
Proof.
  intros Hc Hcnt Hh Hl Hb Hs Hx.
  pose proof (ffs_clusteracct_correct f g h cnt Hc Hcnt Hh Hl Hb Hs) as A.
  destruct (ffs_clusteracct f g h cnt) as [f' g'].
  destruct A as (cf & sum & -> & B1 & B2 & B3 & B4 & ->).
  cbn [cg_nclusterblks cg_clustersfree cg_clustersum set_cg_clustersum set_cg_clustersfree
    fs_maxcluster set_fs_maxcluster].
  split; [done|]. split; [done|]. split; [intros j Hj; rewrite Z.eqb_sym; by apply B3|].
  rewrite aget_aset_eq by done. unfold max_cluster.
  destruct (search_down_spec (Z.to_nat (fs_contigsumsize f)) (fs_contigsumsize f)
    (fun i => 0 <? zget sum i)) as (D1 & D2 & D3).
  set (m := search_down _ _ _) in *. split; [lia|]. split.
  - intros Hm. specialize (D3 ltac:(lia)). by bool_to_prop.
  - intros k Hk. specialize (D2 k ltac:(lia)). by bool_to_prop.
Qed.

(** Block 5 is taken from the cluster of the blocks 3 to 6. *)
Lemma ffs_clusteracct_histogram_witness :
  let '(f', g') := ffs_clusteracct fs_ex cg_ex0 5 (-1) in
  clustersum_ok fs_ex g' /\ cg_nclusterblks g' = 8 /\
  (forall j, 0 <= j ->
    bit (cg_clustersfree g') j = if j =? 5 then 0 <? -1 else bit [0x78] j) /\
  (let m := zget (fs_maxcluster f') 0 in
   0 <= m <= 2 /\ (0 < m -> 0 < zget (cg_clustersum g') m) /\
   forall k, m < k <= 2 -> zget (cg_clustersum g') k <= 0).
Proof.
  apply (ffs_clusteracct_histogram fs_ex cg_ex0 5 (-1)).
  - reflexivity.
  - by right.
  - cbn. lia.
  - vm_compute. discriminate.
  - reflexivity.
  - pose proof (cg_ok_clusters _ _ _ (cg_ex_ok 0 cg_ex0 ltac:(by left))) as H. apply H. reflexivity.
  - vm_compute. split; [discriminate | reflexivity].
Defined.

(** The block operations, for each fragment count 1, 2, 4 and 8: after
    [ffs_setblock] block [h] is free and [ffs_clrblock] takes it again; both
    change no other bit of the map. *)
Theorem block_ops_correct s n m h :
  frag_ok s -> 0 <= h -> h * fs_frag s < 8 * n -> bitmap n m ->
  exists m1 m2,
    ffs_setblock s m h = Ok m1 /\ ffs_isblock s m1 h = Ok true /\
    ffs_clrblock s m1 h = Ok m2 /\ ffs_isblock s m2 h = Ok false /\
    ffs_isfreeblock s m2 h = Ok true /\
    bitmap n m1 /\ bitmap n m2 /\
    forall j, 0 <= j -> ~ (h * fs_frag s <= j < h * fs_frag s + fs_frag s) ->
      bit m1 j = bit m j /\ bit m2 j = bit m j.
Proof.
  intros Hs Hh Hn Hm. destruct (frag_ok_div s Hs) as [Hf _].
  destruct (ffs_setblock_bits s n m h Hs Hh Hn Hm) as (m1 & E1 & B1 & H1).
  destruct (ffs_clrblock_bits s n m1 h Hs Hh Hn B1) as (m2 & E2 & B2 & H2).
  exists m1, m2. rewrite E1, E2, (ffs_isblock_blk s Hs m1 n h B1 Hh),
    (ffs_isblock_blk s Hs m2 n h B2 Hh), (ffs_isfreeblock_blk s Hs m2 n h B2 Hh).
  assert (blk s m1 h = full s) as ->.
  { apply blk_full_iff; [done.. |]. intros j Hj. rewrite H1 by nia. ztest. apply orb_true_r. }
  assert (blk s m2 h = 0) as ->.
  { apply blk_eq; [done | done | destruct (full_values s Hs); lia |]. intros j Hj.
    rewrite H2, Z.bits_0 by nia. ztest. apply andb_false_r. }
  assert (full s <> 0) by (destruct (full_values s Hs); lia).
  rewrite Z.eqb_refl. split_and!; try done; [f_equal; by ztest|].
  intros j Hj Hout. rewrite H2, H1 by done.
  destruct (Z.leb_spec (h * fs_frag s) j), (Z.ltb_spec j (h * fs_frag s + fs_frag s)); try lia;
    cbn; by rewrite ?orb_false_r, ?andb_true_r.
Qed.

Lemma block_ops_correct_witness :
  exists m1 m2,
    ffs_setblock sb_ex [0x00; 0xf6; 0xff; 0x0f] 2 = Ok m1 /\ ffs_isblock sb_ex m1 2 = Ok true /\
    ffs_clrblock sb_ex m1 2 = Ok m2 /\ ffs_isblock sb_ex m2 2 = Ok false /\
    ffs_isfreeblock sb_ex m2 2 = Ok true /\
    bitmap 4 m1 /\ bitmap 4 m2 /\
    forall j, 0 <= j -> ~ (2 * 4 <= j < 2 * 4 + 4) ->
      bit m1 j = bit [0x00; 0xf6; 0xff; 0x0f] j /\ bit m2 j = bit [0x00; 0xf6; 0xff; 0x0f] j.
Proof.
  apply (block_ops_correct sb_ex 4 [0x00; 0xf6; 0xff; 0x0f] 2).
  - apply geom_ex.
  - lia.
  - reflexivity.
  - split; [reflexivity | bytes].
Defined.

(** When the group cannot be read again after a block of dinodes was
    initialised, [ffs_nodealloccg] returns the error number, which its caller
    takes for an inode number: [ffs_valloc] goes on with inode 5, that was not
    allocated. *)
Theorem nodealloccg_returns_errno {K : Libkern} {KS : LibkernSpec K} bread_error time_second
    reread_error st c ipref mode unused error :
  inodes_ok st -> 0 <= c < fs_ncg (st_fs st) -> bread_error c = false ->
  cs_nifree (fs_cs (st_fs st) c) <> 0 -> fs_magic (st_fs st) = FS_UFS2_MAGIC ->
  cg_initediblk (get_cg st c) < fs_inopb (st_fs st) ->
  cg_initediblk (get_cg st c) < cg_niblk (get_cg st c) ->
  (forall i, reread_error c i = error) -> error <> 0 ->
  exists st', ffs_nodealloccg bread_error time_second reread_error st c ipref mode unused
      = Ok (error, st') /\
    forall ino, 0 <= ino < fs_ncg (st_fs st) * fs_ipg (st_fs st) ->
      ino_used st' ino = ino_used st ino.
Proof.
  intros S Hc Hbr Hn Hm Hi1 Hi2 Hre Hne. pose proof (is_geom _ S) as G.
  pose proof (is_cg _ S c Hc) as I. destruct (is_cs _ S c Hc) as [Ecs _]. rewrite Ecs in Hn.
  destruct (ig_ipg _ G) as [H0 _]. unfold ffs_nodealloccg. rewrite Ecs, Hbr.
  rewrite (proj2 (Z.eqb_neq _ _) Hn). rewrite Nat.add_comm. cbn [Nat.add nodealloc_restart].
  rewrite (ino_magic _ _ I), (proj2 (Z.eqb_neq _ _) Hn). cbn [negb orb].
  destruct (nodealloc_search_correct _ G _ I Hn) as (i & Es & Hi & _).
  set (p := if negb (ipref =? 0) && _ then _ else _).
  assert (exists j, p = Ok j /\ 0 <= j) as (j & -> & Hj).
  { unfold p. case (_ && _); [|eauto; exists i; split; [done|lia]].
    eexists. split; [reflexivity|]. by apply Z.mod_pos_bound. }
  rewrite bind_Ok, Hm, Z.eqb_refl, Hre, (proj2 (Z.eqb_neq _ _) Hne). unfold INOPB. ztest. cbn [andb].
  eexists. split; [reflexivity|]. intros ino Hino. unfold ino_used. cbn [st_fs].
  by rewrite (upd_sb _ _ _ _ (fs_upd_active (st_fs st) c c)).
Qed.

Lemma nodealloccg_returns_errno_witness :
  exists st', ffs_nodealloccg (fun _ => false) 7 (fun _ _ => EIO) st_ex 1 0 0x81a4 0 = Ok (EIO, st') /\
    forall ino, 0 <= ino < 2 * 16 -> ino_used st' ino = ino_used st_ex ino.
Proof.
  apply (nodealloccg_returns_errno (fun _ => false) 7 (fun _ _ => EIO) st_ex 1 0 0x81a4 0 EIO).
  - exact inodes_ok_ex.
  - cbn. lia.
  - reflexivity.
  - vm_compute. discriminate.
  - reflexivity.
  - reflexivity.
  - reflexivity.
  - reflexivity.
  - discriminate.
Defined.
