(* ===== verification/FfsPolicyProps.v ===== *)
(** The theorems of the allocation policies: growing a fragment, delayed
    release, clusters and directories. *)

From stdpp Require Import relations.
From S2P Require Import Prelude Bitmap Fs FfsSubr FfsAlloc FfsMap FfsInv FfsBlocks FfsState.
From S2P Require Import FfsFree FfsInode FfsTop FfsRealloc FfsExample.

(** ** Growing a fragment *)



Lemma owned_ex8 : owned st_ex 8 1.
Proof.
  split; try (cbn; lia); try done.
  intros d Hd. unfold in_range in Hd. bool_to_prop. assert (d = 8) as -> by lia. reflexivity.
Qed.


(** ** Release *)

(** Others allocate space, and free space of theirs. *)
Definition others_step (r n : Z) (st st' : ffs_state) : Prop :=
  (exists r' n', alloc_some st r' n' st') \/
  exists r' n', free_some st r' n' st' /\
    forall d, in_range d r n = true -> in_range d r' n' = false.

(** [ffs_blkfree_cg] frees the piece, unless the group cannot be read. *)
Definition freed (bread_error : Z -> bool) (st : ffs_state) (r n : Z) (st' : ffs_state) : Prop :=
  if bread_error (dtog (st_fs st) r) then st' = st else free_some st r n st'.

Lemma blkfree_freed bread_error time_second st snapshot r n :
  state_ok st -> owned st r n ->
  exists st', ffs_blkfree_cg bread_error time_second st snapshot r (n * fs_fsize (st_fs st)) = Ok st' /\
    freed bread_error st r n st'.
Proof.
  intros S O. unfold freed. destruct (bread_error (dtog (st_fs st) r)) eqn:E.
  - exists st. by rewrite blkfree_unreadable.
  - by apply blkfree_post.
Qed.

Lemma owned_meanwhile r n st st' :
  state_ok st -> owned st r n -> rtc (others_step r n) st st' ->
  state_ok st' /\ owned st' r n /\ fs_sb (st_fs st') = fs_sb (st_fs st).
Proof.
  intros S O H. revert S O. induction H as [|st st1 st2 [(r' & n' & A) | (r' & n' & A & D)] _ IH];
    intros S O; [done| |].
  - destruct IH as (I1 & I2 & ->); [apply A | by eapply owned_after_alloc | by rewrite (alloc_sb _ _ _ _ A)].
  - destruct IH as (I1 & I2 & ->); [apply A | by eapply owned_after_free | by rewrite (free_sb _ _ _ _ A)].
Qed.

(** C8: what [ffs_blkfree] does with a piece that is allocated is fixed by
    its tests, in their order. On a disk device with snapshots one of which
    claims the piece, it stays allocated, and nothing is left to do. Else, on
    a snapshot or without [BIO_DELETE], exactly its fragments are freed at
    once. Else nothing is freed yet and a task is left: while others allocate
    and free, the piece stays allocated, so that it cannot be used again
    before the device has discarded it; the task, run at any later time,
    frees exactly its fragments. A group that cannot be read when
    [ffs_blkfree_cg] runs is left as it is. There is no panic. *)
Theorem ffs_blkfree_correct bread_error time_second dev st r n :
  state_ok st -> owned st r n ->
  exists st1 tp,
    ffs_blkfree bread_error time_second st dev r (n * fs_fsize (st_fs st)) = Ok (st1, tp) /\
    if negb (v_vreg dev) && v_copyonwrite dev && snap_claims dev r then st1 = st /\ tp = None
    else if v_vreg dev || negb (um_candelete dev) then freed bread_error st r n st1 /\ tp = None
    else st1 = st /\ exists t, tp = Some t /\
      forall bread_error2 time_second2 st2, rtc (others_step r n) st st2 ->
        (forall d, in_range d r n = true -> isfree st2 d = false) /\
        exists st3, ffs_blkfree_trim_task bread_error2 time_second2 st2 dev t = Ok st3 /\
          freed bread_error2 st2 r n st3.
Proof.
  intros S O. unfold ffs_blkfree. rewrite orb_comm.
  case (negb (v_vreg dev) && v_copyonwrite dev && snap_claims dev r); [by exists st, None|].
  case (v_vreg dev || negb (um_candelete dev)).
  { destruct (blkfree_freed bread_error time_second st (v_vreg dev) r n S O) as (st1 & -> & F).
    rewrite bind_Ok. by exists st1, None. }
  eexists st, _. split; [reflexivity|]. split; [done|]. eexists. split; [reflexivity|].
  intros bread_error2 time_second2 st2 H. destruct (owned_meanwhile r n st st2 S O H) as (S2 & O2 & E).
  split; [apply O2|]. unfold ffs_blkfree_trim_task. cbn [tp_bno tp_size]. rewrite <- E.
  by apply blkfree_freed.
Qed.

(** The fragment at 8 on a device that takes [BIO_DELETE]. *)
Lemma ffs_blkfree_correct_witness :
  let dev := MkDevvp false false (fun _ => false) true in
  exists st1 tp,
    ffs_blkfree (fun _ => false) 7 st_ex dev 8 (1 * 1024) = Ok (st1, tp) /\
    st1 = st_ex /\ exists t, tp = Some t /\
      forall bread_error2 time_second2 st2, rtc (others_step 8 1) st_ex st2 ->
        (forall d, in_range d 8 1 = true -> isfree st2 d = false) /\
        exists st3, ffs_blkfree_trim_task bread_error2 time_second2 st2 dev t = Ok st3 /\
          freed bread_error2 st2 8 1 st3.
Proof.
  apply (ffs_blkfree_correct (fun _ => false) 7 (MkDevvp false false (fun _ => false) true) st_ex 8 1).
  - exact state_ok_ex.
  - exact owned_ex8.
Defined.

(** ** Clusters *)

(** [ffs_clusteralloc] takes [len] contiguous free blocks of the group
    and nothing else, or returns 0 and changes no fragment. It fails only
    when the recorded maximum is too small, the group cannot be read, its
    summary has no cluster of the length, or no run of [len] free blocks
    starts at or after the preferred block. *)
Theorem ffs_clusteralloc_correct {K : Libkern} {KS : LibkernSpec K} bread_error st c bpref len :
  state_ok st -> 0 <= c < fs_ncg (st_fs st) -> 1 <= len <= fs_contigsumsize (st_fs st) ->
  exists r st', ffs_clusteralloc bread_error st c bpref len = Ok (r, st') /\
    (r = 0 /\ alloc_none st st' /\ no_cluster bread_error st c bpref len \/
     cluster_some st r len st' /\ dtog (st_fs st) r = c).
Proof. intros S Hc Hlen. apply clusteralloc_post; done || lia. Qed.

Lemma ffs_clusteralloc_correct_witness :
  exists r st', ffs_clusteralloc (fun _ => false) st_ex 1 44 2 = Ok (r, st') /\
    (r = 0 /\ alloc_none st_ex st' /\ no_cluster (fun _ => false) st_ex 1 44 2 \/
     cluster_some st_ex r 2 st' /\ dtog fs_ex r = 1).
Proof.
  apply (ffs_clusteralloc_correct (fun _ => false) st_ex 1 44 2).
  - exact state_ok_ex.
  - cbn. lia.
  - cbn. lia.
Defined.

(** The cluster of blocks 3 and 4 of group 1. *)
Example clusteralloc_44 :
  fst <$> match ffs_clusteralloc (fun _ => false) st_ex 1 44 2 with Ok r => Some r | _ => None end
  = Some 44.
Proof. vm_compute. reflexivity. Qed.

(** ** Directories *)

(** [ffs_dirpref] always names the first inode of a group that exists.
    A directory in the root goes to a group with at least the average of free
    inodes and blocks, and with the fewest directories among these, if there
    is one with fewer than a group's inodes. Another directory goes to the
    first group from its parent's on, cyclically, that is within the limits
    on directories, free inodes, free blocks and directories in a row, and if
    no group is, to the first with at least the average of free inodes. *)
Theorem ffs_dirpref_correct st pip is_root random :
  inodes_ok st -> fs_ncg (st_fs st) * fs_ipg (st_fs st) < 2 ^ 32 ->
  0 <= ino_to_cg (st_fs st) (i_number pip) < fs_ncg (st_fs st) ->
  let f := st_fs st in
  let avgifree := dirpref_avg f (cs_nifree (fs_cstotal f)) in
  let avgbfree := dirpref_avg f (cs_nbfree (fs_cstotal f)) in
  let ndir j := u32 (cs_ndir (fs_cs f j)) in
  let '(maxndir, minifree, minbfree, maxcontigdirs) := dirpref_limits f in
  let fits := dirpref_fits f maxndir minifree minbfree maxcontigdirs in
  let pref := ino_to_cg f (i_number pip) in
  exists c, 0 <= c < fs_ncg f /\ ffs_dirpref f pip is_root random = fs_ipg f * c /\
    if is_root then
      forall j, 0 <= j < fs_ncg f -> roomy f avgifree avgbfree j = true -> ndir j < fs_ipg f ->
        roomy f avgifree avgbfree c = true /\ ndir c <= ndir j
    else
      first_from (fs_ncg f) pref fits c \/
      (forall j, 0 <= j < fs_ncg f -> fits j = false) /\
      first_from (fs_ncg f) pref (dirpref_average f) c.
Proof.
  intros I Hsmall Hpip f avgifree avgbfree ndir. destruct is_root.
  - destruct (dirpref_root st I Hsmall pip random) as (c & d & Hc & E & [B1 B2]).
    fold f avgifree avgbfree in B1, B2, E. cbn [fst snd] in *.
    destruct (dirpref_limits f) as [[[? ?] ?] ?]. cbv zeta. exists c. split; [done|]. split; [done|].
    intros j Hj Hr Hlt. specialize (B2 j Hj Hr). destruct B1 as [(_ & ? & -> & _)|[= _ ->]]; [done|].
    unfold ndir in Hlt. fold f in Hj. lia.
  - pose proof (dirpref_nested st I Hsmall pip Hpip random) as H. fold f in H.
    destruct (dirpref_limits f) as [[[a b] c'] d]. cbv zeta in *. destruct H as (c & E & H).
    exists c. split; [|done]. destruct H as [[Hc _]|[_ [Hc _]]]; done.
Qed.

Lemma ffs_dirpref_correct_witness :
  let '(maxndir, minifree, minbfree, maxcontigdirs) := dirpref_limits fs_ex in
  exists c, 0 <= c < 2 /\ ffs_dirpref fs_ex (MkInode 3 0x4000 0 [] [] 0 0) false 5 = 16 * c /\
    (first_from 2 0 (dirpref_fits fs_ex maxndir minifree minbfree maxcontigdirs) c \/
     (forall j, 0 <= j < 2 -> dirpref_fits fs_ex maxndir minifree minbfree maxcontigdirs j = false) /\
     first_from 2 0 (dirpref_average fs_ex) c).
Proof.
  apply (ffs_dirpref_correct st_ex (MkInode 3 0x4000 0 [] [] 0 0) false 5).
  - exact inodes_ok_ex.
  - reflexivity.
  - vm_compute. split; [discriminate | reflexivity].
Defined.
