(* ===== verification/RunQ.v ===== *)
(** The run queues of the scheduler: src/sys/kern/kern_switch.c, sys/runq.h
    and amd64/include/runq.h.

    Threads are shared objects, named by their address: a store maps the
    address to the fields that the run queue reads and writes, and the queues
    hold addresses. A [TAILQ] is the list of its elements. *)

From stdpp Require Import gmap.
From S2P Require Import Prelude.

Definition RQ_NQS : Z := 64.
Definition RQ_PPQ : Z := 4.
Definition RQB_LEN : Z := 1.
Definition RQB_L2BPW : Z := 6.
Definition RQB_BPW : Z := Z.shiftl 1 RQB_L2BPW.
Definition SRQ_PREEMPTED : Z := 0x0008.

(** ** State *)

Record thread := MkThread {
  td_priority : Z;
  td_rqindex : Z;
  td_lastcpu : Z;
  td_inmem : bool
}.

Definition set_td_rqindex (v : Z) (td : thread) : thread :=
  MkThread (td_priority td) v (td_lastcpu td) (td_inmem td).

Abbreviation threads := (gmap Z thread).

Record runq := MkRunq {
  rq_status : list Z;
  rq_queues : list (list Z)
}.

Definition RQB_BIT (pri : Z) : Z := Z.shiftl 1 (Z.land pri (RQB_BPW - 1)).
Definition RQB_WORD (pri : Z) : Z := Z.shiftr pri RQB_L2BPW.

(** [bsfq]: the index of the lowest set bit of a non-zero word. *)
Definition RQB_FFS (word : Z) : Z := ctz word.

Abbreviation queue := (aget []).

Definition set_queue (rq : runq) (pri : Z) (q : list Z) : runq :=
  MkRunq (rq_status rq) (aset (rq_queues rq) pri q).

(** ** Operations *)

Definition runq_init : runq :=
  MkRunq (replicate (Z.to_nat RQB_LEN) 0) (replicate (Z.to_nat RQ_NQS) []).

Definition runq_clrbit (rq : runq) (pri : Z) : runq :=
  let w := RQB_WORD pri in
  MkRunq (zset (rq_status rq) w (Z.ldiff (zget (rq_status rq) w) (RQB_BIT pri)))
    (rq_queues rq).

Definition runq_setbit (rq : runq) (pri : Z) : runq :=
  let w := RQB_WORD pri in
  MkRunq (zset (rq_status rq) w (Z.lor (zget (rq_status rq) w) (RQB_BIT pri)))
    (rq_queues rq).

Definition runq_findbit (rq : runq) : Z :=
  let i := search (Z.to_nat RQB_LEN) 0 (fun i => negb (zget (rq_status rq) i =? 0)) in
  if i <? RQB_LEN then RQB_FFS (zget (rq_status rq) i) + Z.shiftl i RQB_L2BPW else -1.

(** The loop over the status words from [i] on; [inr] is the mask the loop
    leaves behind when it finds nothing. *)
Fixpoint findbit_words (n : nat) (status : list Z) (i mask : Z) : Z + Z :=
  match n with
  | O => inr mask
  | S n' =>
      let m := Z.land (zget status i) mask in
      if m =? 0 then findbit_words n' status (i + 1) (2 ^ 64 - 1)
      else inl (RQB_FFS m + Z.shiftl i RQB_L2BPW)
  end.

Definition runq_findbit_from (rq : runq) (pri : Z) : Z :=
  let mask := u64 (Z.shiftl (2 ^ 64 - 1) (Z.land pri (RQB_BPW - 1))) in
  match findbit_words (Z.to_nat (RQB_LEN - RQB_WORD pri)) (rq_status rq) (RQB_WORD pri) mask with
  | inl r => r
  | inr mask =>
      if pri =? 0 then -1
      else
        match findbit_words (Z.to_nat RQB_LEN) (rq_status rq) 0 mask with
        | inl r => r
        | inr _ => -1
        end
  end.

(** [TAILQ_INSERT_HEAD] for a preempted thread, [TAILQ_INSERT_TAIL] else. *)
Definition tailq_insert (flags : Z) (td : Z) (q : list Z) : list Z :=
  if negb (Z.land flags SRQ_PREEMPTED =? 0) then td :: q else q ++ [td].

(** [TAILQ_REMOVE]. *)
Fixpoint tailq_remove (td : Z) (q : list Z) : list Z :=
  match q with
  | [] => []
  | x :: q' => if x =? td then q' else x :: tailq_remove td q'
  end.

Section ops.
Context (ths : threads).

Definition get_td (td : Z) : thread := default (MkThread 0 0 0 false) (ths !! td).

Definition runq_insert (rq : runq) (td pri flags : Z) : runq * threads :=
  let ths := <[td := set_td_rqindex pri (get_td td)]> ths in
  let rq := runq_setbit rq pri in
  (set_queue rq pri (tailq_insert flags td (queue (rq_queues rq) pri)), ths).

Definition runq_add (rq : runq) (td flags : Z) : runq * threads :=
  runq_insert rq td (td_priority (get_td td) / RQ_PPQ) flags.

Definition runq_add_pri (rq : runq) (td pri flags : Z) : result (runq * threads) :=
  _ ← require (pri <? RQ_NQS) "runq_add_pri: out of range";
  Ok (runq_insert rq td pri flags).

Definition runq_check (rq : runq) : bool :=
  search (Z.to_nat RQB_LEN) 0 (fun i => negb (zget (rq_status rq) i =? 0)) <? RQB_LEN.

(** [while (count-- && td2)]: the first of the next [count] threads that
    ran last on [cpu]. *)
Fixpoint fuzz_scan (count : nat) (cpu : Z) (q : list Z) : option Z :=
  match count, q with
  | S count', td2 :: q' =>
      if td_lastcpu (get_td td2) =? cpu then Some td2 else fuzz_scan count' cpu q'
  | _, _ => None
  end.

Definition runq_choose_fuzz (rq : runq) (cpuid fuzz : Z) : result (option Z) :=
  let pri := runq_findbit rq in
  if pri =? -1 then Ok None else
  let rqh := queue (rq_queues rq) pri in
  let td :=
    if 1 <? fuzz then
      match fuzz_scan (Z.to_nat fuzz) cpuid rqh with
      | Some td2 => Some td2
      | None => head rqh
      end
    else head rqh in
  match td with
  | Some td => Ok (Some td)
  | None => Panic "runq_choose_fuzz: no proc on busy queue"
  end.

Definition runq_choose (rq : runq) : result (option Z) :=
  let pri := runq_findbit rq in
  if pri =? -1 then Ok None else
  match head (queue (rq_queues rq) pri) with
  | Some td => Ok (Some td)
  | None => Panic "runq_choose: no thread on busy queue"
  end.

Definition runq_choose_from (rq : runq) (idx : Z) : result (option Z) :=
  let pri := runq_findbit_from rq idx in
  if pri =? -1 then Ok None else
  match head (queue (rq_queues rq) pri) with
  | Some td => Ok (Some td)
  | None => Panic "runq_choose: no thread on busy queue"
  end.

(** [idx] is the caller's round-robin index, if it passed one. *)
Definition runq_remove_idx (rq : runq) (td : Z) (idx : option Z)
    : result (runq * option Z) :=
  _ ← require (td_inmem (get_td td)) "runq_remove_idx: thread swapped out";
  let pri := td_rqindex (get_td td) in
  _ ← require (pri <? RQ_NQS) "runq_remove_idx: Invalid index";
  let q := tailq_remove td (queue (rq_queues rq) pri) in
  let rq := set_queue rq pri q in
  match q with
  | [] =>
      Ok (runq_clrbit rq pri,
          match idx with
          | Some i => Some (if i =? pri then (pri + 1) mod RQ_NQS else i)
          | None => None
          end)
  | _ => Ok (rq, idx)
  end.

Definition runq_remove (rq : runq) (td : Z) : result runq :=
  '(rq, _) ← runq_remove_idx rq td None;
  Ok rq.
End ops.

(** ** Critical sections *)

(** The fields of the current thread, and [kdb_active]. *)
Record critical := MkCritical {
  td_critnest : Z;
  td_owepreempt : bool;
  td_idle : bool
}.

Definition SW_INVOL : Z := 0x0200.
Definition SW_PREEMPT : Z := 0x0400.
Definition SWT_OWEPREEMPT : Z := 2.
Definition SWT_IDLE : Z := 8.

(** [td->td_critnest], and [td->td_owepreempt = 0] of [sched_switch], which
    [mi_switch] calls. *)
Definition set_td_critnest (v : Z) (td : critical) : critical :=
  MkCritical v (td_owepreempt td) (td_idle td).
Definition clear_owepreempt (td : critical) : critical :=
  MkCritical (td_critnest td) false (td_idle td).

Definition critical_enter (td : critical) : critical :=
  set_td_critnest (td_critnest td + 1) td.

(** The thread, and the flags of the call of [mi_switch], if there was one:
    the thread runs again after it with the preemption paid. *)
Definition critical_exit (kdb_active : bool) (td : critical) : result (critical * option Z) :=
  _ ← require (negb (td_critnest td =? 0)) "critical_exit: td_critnest == 0";
  if td_critnest td =? 1 then
    let td := set_td_critnest 0 td in
    if td_owepreempt td && negb kdb_active then
      let td := set_td_critnest 1 td in
      let td := set_td_critnest (td_critnest td - 1) td in
      let flags := Z.lor SW_INVOL SW_PREEMPT in
      let flags := Z.lor flags (if td_idle td then SWT_IDLE else SWT_OWEPREEMPT) in
      Ok (clear_owepreempt td, Some flags)
    else Ok (td, None)
  else Ok (set_td_critnest (td_critnest td - 1) td, None).

(** ** The invariant *)

Definition nonempty (q : list Z) : bool := match q with [] => false | _ => true end.

Record runq_ok (ths : threads) (rq : runq) : Prop := {
  rq_words : zlength (rq_status rq) = RQB_LEN;
  rq_word : 0 <= zget (rq_status rq) 0 < 2 ^ 64;
  rq_length : zlength (rq_queues rq) = RQ_NQS;
  (** a status bit says whether its queue holds a thread *)
  rq_bit : forall p, 0 <= p < RQ_NQS ->
    Z.testbit (zget (rq_status rq) 0) p = nonempty (queue (rq_queues rq) p);
  (** a thread is on the queue of its index, and once *)
  rq_index : forall p td, 0 <= p < RQ_NQS -> td ∈ queue (rq_queues rq) p ->
    exists t, ths !! td = Some t /\ td_rqindex t = p /\ td_inmem t = true;
  rq_nodup : forall p, 0 <= p < RQ_NQS -> NoDup (queue (rq_queues rq) p)
}.

Lemma rqb_word p : 0 <= p < 64 -> RQB_WORD p = 0.
Proof. intros Hp. unfold RQB_WORD, RQB_L2BPW. rewrite Z.shiftr_div_pow2 by lia. apply Z.div_small. lia. Qed.

Lemma rqb_bit p : 0 <= p < 64 -> RQB_BIT p = Z.shiftl 1 p.
Proof.
  intros Hp. unfold RQB_BIT. change (RQB_BPW - 1) with (Z.ones 6).
  rewrite Z.land_ones by lia. by rewrite Z.mod_small by lia.
Qed.

(** A word of 64 bits is below 2^64 when its other bits are clear. *)
Lemma word_range w :
  0 <= w -> (forall j, 64 <= j -> Z.testbit w j = false) -> w < 2 ^ 64.
Proof.
  intros H0 H. destruct (decide (w = 0)) as [->|Hne]; [lia|].
  apply Z.log2_lt_pow2; [lia|]. destruct (Z.lt_ge_cases (Z.log2 w) 64) as [|Hge]; [done|].
  specialize (H _ Hge). rewrite Z.bit_log2 in H by lia. discriminate.
Qed.

Lemma testbit_word w j : 0 <= w < 2 ^ 64 -> 64 <= j -> Z.testbit w j = false.
Proof. intros Hw Hj. rewrite <- (Z.mod_small w (2 ^ 64)) by done. by apply Z.mod_pow2_bits_high. Qed.

Section props.
Context (ths : threads) (rq : runq) (I : runq_ok ths rq).
Abbreviation word := (zget (rq_status rq) 0).
Abbreviation q := (queue (rq_queues rq)).

(** The lowest bit of a part of the status word. *)
Lemma ffs_word m :
  0 < m -> (forall j, 0 <= j -> Z.testbit m j = true -> Z.testbit word j = true) ->
  let p := RQB_FFS m in 0 <= p < 64 /\ nonempty (q p) = true /\
    forall j, 0 <= j < p -> Z.testbit m j = false.
Proof.
  intros Hm Hsub p. destruct (ctz_spec m Hm) as (H1 & H2 & H3). fold (RQB_FFS m) in H1, H2, H3.
  fold p in H1, H2, H3. specialize (Hsub p H1 H2).
  assert (p < 64).
  { destruct (Z.lt_ge_cases p 64) as [|Hge]; [done|].
    by rewrite (testbit_word _ _ (rq_word _ _ I) Hge) in Hsub. }
  split; [lia|]. split; [|done]. by rewrite <- (rq_bit _ _ I).
Qed.

Lemma word_zero : word = 0 <-> forall p, 0 <= p < RQ_NQS -> q p = [].
Proof.
  split.
  - intros Hw p Hp. pose proof (rq_bit _ _ I p Hp) as H. rewrite Hw, Z.bits_0 in H.
    by destruct (q p).
  - intros H. apply Z.bits_inj'. intros j Hj. rewrite Z.bits_0.
    destruct (Z.lt_ge_cases j 64); [|by apply testbit_word; [apply I|]].
    rewrite (rq_bit _ _ I) by (unfold RQ_NQS; lia). by rewrite H by (unfold RQ_NQS; lia).
Qed.

Lemma findbit_spec :
  let p := runq_findbit rq in
  (p = -1 /\ forall i, 0 <= i < RQ_NQS -> q i = []) \/
  (0 <= p < RQ_NQS /\ nonempty (q p) = true /\ forall i, 0 <= i < p -> q i = []).
Proof.
  unfold runq_findbit. change (Z.to_nat RQB_LEN) with 1%nat. cbn [search].
  destruct (Z.eqb_spec word 0) as [Hw|Hw]; cbn [negb].
  - left. split; [done|]. by apply word_zero.
  - right. change (0 <? RQB_LEN) with true. cbv iota. rewrite Z.add_0_r.
    destruct (ffs_word word) as (H1 & H2 & H3); [pose proof (rq_word _ _ I); lia | done |].
    split; [done|]. split; [done|]. intros i Hi. specialize (H3 i Hi).
    rewrite (rq_bit _ _ I) in H3 by (unfold RQ_NQS; lia). by destruct (q i).
Qed.

(** One pass over the status words, from index [p] on. *)
Lemma findbit_words_one mask :
  0 <= mask ->
  findbit_words 1 (rq_status rq) 0 mask =
    if Z.land word mask =? 0 then inr (2 ^ 64 - 1) else inl (RQB_FFS (Z.land word mask)).
Proof. intros Hm. cbn [findbit_words]. zcase; [done|]. by rewrite Z.add_0_r. Qed.

Lemma findbit_from_spec idx :
  0 <= idx < RQ_NQS ->
  let p := runq_findbit_from rq idx in
  (p = -1 /\ forall i, 0 <= i < RQ_NQS -> q i = []) \/
  (0 <= p < RQ_NQS /\ nonempty (q p) = true /\
   forall i, 0 <= i < RQ_NQS -> nonempty (q i) = true ->
     (p - idx) mod RQ_NQS <= (i - idx) mod RQ_NQS).
Proof.
  unfold RQ_NQS. intros Hidx. set (p := runq_findbit_from rq idx). cbv zeta.
  pose proof (rq_word _ _ I) as Hw.
  assert (forall i, 0 <= i < 64 -> Z.testbit word i = nonempty (q i)) as Hbit by apply I.
  set (mask := u64 (Z.shiftl (2 ^ 64 - 1) idx)).
  assert (forall j, 0 <= j < 64 -> Z.testbit mask j = (idx <=? j)) as Hmask.
  { intros j Hj. unfold mask, u64. rewrite Z.mod_pow2_bits_low by lia.
    rewrite Z.shiftl_spec by lia. change (2 ^ 64 - 1) with (Z.ones 64).
    rewrite testbit_ones by lia. repeat zcase; done || lia. }
  assert (forall i, 0 <= i < 64 -> (i - idx) mod 64 = if idx <=? i then i - idx else i - idx + 64)
    as Hmod.
  { intros i Hi. zcase; [by rewrite Z.mod_small by lia|]. symmetry. apply (Z.mod_unique _ _ (-1)); lia. }
  assert (p = match findbit_words 1 (rq_status rq) 0 mask with
              | inl r => r
              | inr mask => if idx =? 0 then -1 else
                  match findbit_words 1 (rq_status rq) 0 mask with inl r => r | inr _ => -1 end
              end) as ->.
  { unfold p, runq_findbit_from. rewrite rqb_word by lia. change (RQB_BPW - 1) with (Z.ones 6).
    rewrite Z.land_ones, Z.mod_small by lia. done. }
  rewrite findbit_words_one by (apply Z.mod_pos_bound; lia).
  destruct (Z.eqb_spec (Z.land word mask) 0) as [Hz|Hz].
  - assert (forall i, idx <= i < 64 -> q i = []) as Hhigh.
    { intros i Hi. apply (f_equal (fun x => Z.testbit x i)) in Hz. revert Hz.
      rewrite Z.land_spec, Z.bits_0, Hbit, Hmask by lia. ztest. rewrite andb_true_r. by destruct (q i). }
    destruct (Z.eqb_spec idx 0) as [->|Hne]; [left; split; [done|]; intros; apply Hhigh; lia|].
    rewrite findbit_words_one by lia.
    assert (Z.land word (2 ^ 64 - 1) = word) as ->.
    { change (2 ^ 64 - 1) with (Z.ones 64). rewrite Z.land_ones by lia. by apply Z.mod_small. }
    destruct (Z.eqb_spec word 0) as [Hw0|Hw0]; [left; split; [done|]; by apply word_zero|].
    right. destruct (ffs_word word) as (H1 & H2 & H3); [lia | done |].
    split; [done|]. split; [done|]. intros i Hi Hne'. rewrite !Hmod by done.
    assert (RQB_FFS word < idx) by (destruct (Z.lt_ge_cases (RQB_FFS word) idx); [done|];
      rewrite Hhigh in H2 by lia; discriminate).
    assert (i < idx) by (destruct (Z.lt_ge_cases i idx); [done|];
      rewrite Hhigh in Hne' by lia; discriminate).
    ztest. destruct (Z.lt_ge_cases i (RQB_FFS word)); [|lia].
    specialize (H3 i ltac:(lia)). rewrite Hbit in H3 by done. congruence.
  - right. assert (0 <= Z.land word mask) as Hpos by (apply Z.land_nonneg; lia).
    destruct (ffs_word (Z.land word mask)) as (H1 & H2 & H3); [lia | |].
    { intros j Hj. rewrite Z.land_spec. intros H. by apply andb_prop in H as [H _]. }
    set (r := RQB_FFS _) in *.
    assert (idx <= r) as Hr.
    { destruct (ctz_spec (Z.land word mask) ltac:(lia)) as (_ & Hb & _). fold (RQB_FFS (Z.land word mask)) in Hb.
      fold r in Hb. rewrite Z.land_spec, Hmask in Hb by lia. apply andb_prop in Hb as [_ Hb]. bool_to_prop. done. }
    split; [done|]. split; [done|]. intros i Hi Hne'. rewrite !Hmod by lia.
    destruct (Z.leb_spec idx i); ztest; [|lia].
    destruct (Z.lt_ge_cases i r); [|lia].
    specialize (H3 i ltac:(lia)). rewrite Z.land_spec, Hbit, Hmask, Hne' in H3 by lia.
    revert H3. ztest. done.
Qed.
End props.

(** ** Updates *)

Lemma tailq_remove_elem td q x : x ∈ tailq_remove td q -> x ∈ q.
Proof.
  induction q as [|y q IH]; cbn; [done|]. zcase; rewrite ?elem_of_cons; [by right|].
  intros [->|H]; auto.
Qed.

Lemma tailq_remove_ne td q x : NoDup q -> x ∈ tailq_remove td q <-> x ∈ q /\ x <> td.
Proof.
  induction q as [|y q IH]; cbn; intros Hnd.
  { split; [by intros ?%elem_of_nil | by intros [?%elem_of_nil _]]. }
  apply NoDup_cons in Hnd as [Hy Hnd]. rewrite elem_of_cons. zcase.
  - subst. split; [intros H; split; [by right | by intros ->] | by intros [[->|H] ?]].
  - rewrite elem_of_cons, IH by done. split; [|intros [[H|H] ?]; auto].
    intros [->|[H1 H2]]; auto.
Qed.

Lemma tailq_remove_nodup td q : NoDup q -> NoDup (tailq_remove td q).
Proof.
  induction q as [|y q IH]; cbn; intros Hnd; [done|]. apply NoDup_cons in Hnd as [Hy Hnd].
  zcase; [done|]. apply NoDup_cons. split; [|by apply IH].
  intros H. by apply tailq_remove_elem in H.
Qed.

Lemma tailq_insert_perm flags td q : tailq_insert flags td q ≡ₚ td :: q.
Proof. unfold tailq_insert. case (negb _); [done|]. symmetry. apply Permutation_cons_append. Qed.

Lemma tailq_insert_nonempty flags td q : nonempty (tailq_insert flags td q) = true.
Proof. unfold tailq_insert. case (negb _); [done|]. by destruct q. Qed.

Section updates.
Context (ths : threads) (rq : runq) (I : runq_ok ths rq).
Abbreviation word := (zget (rq_status rq) 0).
Abbreviation q := (queue (rq_queues rq)).

Lemma queue_set pri v p :
  0 <= pri < RQ_NQS -> 0 <= p ->
  queue (aset (rq_queues rq) pri v) p = if pri =? p then v else q p.
Proof. intros Hp H0. apply aget_aset; [|done]. by rewrite (rq_length _ _ I). Qed.

Lemma word_set pri : 0 <= pri < 64 ->
  zget (rq_status (runq_setbit rq pri)) 0 = Z.lor word (Z.shiftl 1 pri) /\
  zget (rq_status (runq_clrbit rq pri)) 0 = Z.ldiff word (Z.shiftl 1 pri).
Proof.
  intros Hp. unfold runq_setbit, runq_clrbit. rewrite rqb_word, rqb_bit by done. cbn [rq_status].
  by rewrite !aget_aset_eq by (rewrite (rq_words _ _ I); by split).
Qed.

Lemma runq_ok_update ths' rq' pri v b :
  0 <= pri < RQ_NQS ->
  rq_queues rq' = aset (rq_queues rq) pri v -> nonempty v = b -> NoDup v ->
  rq_status rq' = rq_status (if b then runq_setbit rq pri else runq_clrbit rq pri) ->
  (forall td, td ∈ v -> exists t, ths' !! td = Some t /\ td_rqindex t = pri /\ td_inmem t = true) ->
  (forall p td, 0 <= p < RQ_NQS -> p <> pri -> td ∈ q p -> ths' !! td = ths !! td) ->
  runq_ok ths' rq'.
Proof.
  intros Hp Eq Hne Hnd Es Hin Hout. unfold RQ_NQS in Hp. destruct (word_set pri Hp) as [Ws Wc].
  pose proof (rq_word _ _ I) as Hw.
  assert (forall p, 0 <= p -> queue (rq_queues rq') p = if pri =? p then v else q p) as Hq
    by (intros p H0; rewrite Eq; by apply queue_set).
  assert (forall j, 0 <= j -> Z.testbit (zget (rq_status rq') 0) j =
    if pri =? j then b else Z.testbit word j) as Hbit.
  { intros j Hj. rewrite Es. destruct b; rewrite ?Ws, ?Wc;
      rewrite ?Z.lor_spec, ?Z.ldiff_spec, testbit_pow2 by lia; zcase; cbn;
      rewrite ?orb_true_r, ?orb_false_r, ?andb_true_r, ?andb_false_r; done. }
  split.
  - rewrite Es. destruct b; cbn; rewrite zlength_aset; apply I.
  - assert (0 <= zget (rq_status rq') 0) as H0.
    { rewrite Es. destruct b; rewrite ?Ws, ?Wc.
      - apply Z.lor_nonneg. split; [lia|]. apply Z.shiftl_nonneg. lia.
      - apply Z.ldiff_nonneg. left. lia. }
    split; [done|]. apply word_range; [done|]. intros j Hj. rewrite Hbit by lia. ztest.
    by apply testbit_word.
  - rewrite Eq, zlength_aset. apply I.
  - intros p Hp'. rewrite Hbit, Hq by lia. zcase; [done|]. by apply I.
  - intros p td Hp'. rewrite Hq by lia. zcase; intros Htd; [subst; by apply Hin|].
    destruct (rq_index _ _ I p td Hp' Htd) as (t & H1 & H2). exists t.
    split; [|done]. by rewrite (Hout p).
  - intros p Hp'. rewrite Hq by lia. zcase; [done | by apply I].
Qed.

(** [runq_add] and [runq_add_pri] put a thread that is on no queue on the
    queue [pri], at its head or its tail. *)
Lemma runq_insert_ok td t pri flags :
  0 <= pri < RQ_NQS -> ths !! td = Some t -> td_inmem t = true ->
  (forall p, 0 <= p < RQ_NQS -> td ∉ q p) ->
  let '(rq', ths') := runq_insert ths rq td pri flags in
  runq_ok ths' rq' /\ ths' = <[td := set_td_rqindex pri t]> ths /\
  forall p, 0 <= p < RQ_NQS -> queue (rq_queues rq') p =
    if p =? pri then tailq_insert flags td (q pri) else q p.
Proof.
  intros Hp Ht Hmem Hnot. unfold runq_insert, get_td. rewrite Ht. cbn [default from_option id].
  split; [|split; [done|]].
  - eapply (runq_ok_update _ _ pri (tailq_insert flags td (q pri)) true); try done.
    + by apply tailq_insert_nonempty.
    + rewrite tailq_insert_perm. apply NoDup_cons. split; [by apply Hnot | by apply I].
    + intros td'. rewrite tailq_insert_perm, elem_of_cons. intros [->|Htd].
      * exists (set_td_rqindex pri t). by rewrite lookup_insert_eq.
      * destruct (rq_index _ _ I pri td' Hp Htd) as (t' & H1 & H2).
        exists t'. rewrite lookup_insert_ne; [done|]. intros ->. by eapply Hnot.
    + intros p td' Hp' Hne Htd. rewrite lookup_insert_ne; [done|]. intros ->. by eapply Hnot.
  - intros p Hp'. cbn [set_queue rq_queues runq_setbit]. rewrite queue_set by lia.
    by rewrite Z.eqb_sym.
Qed.

(** [runq_remove_idx] takes a queued thread off, and moves the index on
    from its queue when that is empty. *)
Lemma runq_remove_idx_ok td pri idx :
  0 <= pri < RQ_NQS -> td ∈ q pri ->
  exists rq' idx', runq_remove_idx ths rq td idx = Ok (rq', idx') /\ runq_ok ths rq' /\
    (forall p, 0 <= p < RQ_NQS -> queue (rq_queues rq') p =
       if p =? pri then tailq_remove td (q pri) else q p) /\
    idx' = match idx with
           | Some i => Some (if (i =? pri) && negb (nonempty (tailq_remove td (q pri)))
                             then (pri + 1) mod RQ_NQS else i)
           | None => None
           end.
Proof.
  intros Hp Htd. destruct (rq_index _ _ I pri td Hp Htd) as (t & Ht & Hidx & Hmem).
  pose proof (rq_nodup _ _ I pri Hp) as Hnd.
  unfold runq_remove_idx, get_td. rewrite Ht. cbn [default from_option id].
  rewrite Hmem, Hidx. rewrite (proj2 (Z.ltb_lt _ _)) by lia. cbn [require]. rewrite !bind_Ok.
  assert (forall rq', rq_queues rq' = aset (rq_queues rq) pri (tailq_remove td (q pri)) ->
    forall p, 0 <= p < RQ_NQS -> queue (rq_queues rq') p =
      if p =? pri then tailq_remove td (q pri) else q p) as Hq.
  { intros rq' -> p Hp'. rewrite queue_set by lia. by rewrite Z.eqb_sym. }
  assert (forall rq' b, rq_queues rq' = aset (rq_queues rq) pri (tailq_remove td (q pri)) ->
    nonempty (tailq_remove td (q pri)) = b ->
    rq_status rq' = rq_status (if b then runq_setbit rq pri else runq_clrbit rq pri) ->
    runq_ok ths rq') as Hok.
  { intros rq' b E1 E2 E3. eapply (runq_ok_update _ _ pri _ b); try done.
    - by apply tailq_remove_nodup.
    - intros td' H. apply tailq_remove_elem in H. by apply I. }
  destruct (tailq_remove td (q pri)) as [|x l] eqn:E.
  - eexists _, _. split; [reflexivity|]. split; [by apply (Hok _ false)|].
    split; [by apply Hq|]. destruct idx as [i|]; [|done]. by rewrite andb_true_r.
  - eexists _, _. split; [reflexivity|]. split; [|split; [by apply Hq|]].
    + apply (Hok _ true); try done. cbn [set_queue rq_status runq_setbit].
      (* the bit was set already *)
      rewrite rqb_word, rqb_bit by done. apply (array_ext 0); [by rewrite zlength_aset|].
      intros i Hi. rewrite (rq_words _ _ I) in Hi. unfold RQB_LEN in Hi.
      assert (i = 0) as -> by lia. rewrite aget_aset_eq by (rewrite (rq_words _ _ I); done).
      apply Z.bits_inj'. intros j Hj. rewrite Z.lor_spec, testbit_pow2 by lia.
      destruct (Z.eqb_spec pri j) as [<-|]; [|by rewrite orb_false_r].
      rewrite (rq_bit _ _ I) by done. by destruct (q pri).
    + destruct idx as [i|]; [|done]. by rewrite andb_false_r.
Qed.

(** [runq_choose]: the head of the first queue that is not empty. *)
Lemma runq_choose_ok :
  (exists pri td l, runq_choose rq = Ok (Some td) /\ 0 <= pri < RQ_NQS /\ q pri = td :: l /\
     forall p, 0 <= p < pri -> q p = []) \/
  (runq_choose rq = Ok None /\ forall p, 0 <= p < RQ_NQS -> q p = []).
Proof.
  unfold runq_choose. destruct (findbit_spec ths rq I) as [[-> H] | (H1 & H2 & H3)].
  - by right.
  - left. rewrite (proj2 (Z.eqb_neq _ (-1))) by lia.
    destruct (q (runq_findbit rq)) as [|td l] eqn:E; [done|].
    by exists (runq_findbit rq), td, l.
Qed.
End updates.

Lemma runq_init_ok ths : runq_ok ths runq_init.
Proof.
  assert (forall p, 0 <= p < RQ_NQS -> queue (rq_queues runq_init) p = []) as Hq.
  { intros p Hp. unfold aget. destruct (p <? 0); [done|]. unfold runq_init. cbn [rq_queues].
    rewrite nth_lookup. destruct (replicate _ _ !! _) eqn:E; [|done].
    by apply lookup_replicate in E as [-> _]. }
  split; try done; intros p Hp; [ | intros Hin | ]; rewrite Hq in * by done.
  - by rewrite Z.bits_0.
  - set_solver.
  - constructor.
Qed.
