(* ===== verification/RunQProps.v ===== *)
(** The theorems of the run queues, with an instance for each. *)

From stdpp Require Import gmap.
From S2P Require Import Prelude RunQ.

(** ** An example: three threads, two of them on queue 5 *)

Definition ths_ex : threads :=
  <[100 := MkThread 20 5 0 true]> (<[101 := MkThread 21 5 1 true]>
    (<[102 := MkThread 80 9 0 true]> ∅)).

Definition rq_ex : runq :=
  MkRunq [32] (replicate 5 [] ++ [[100; 101]] ++ replicate 58 []).

Lemma queue_ex p :
  0 <= p < RQ_NQS -> queue (rq_queues rq_ex) p = if p =? 5 then [100; 101] else [].
Proof.
  intros Hp. assert (forallb (fun p => bool_decide (queue (rq_queues rq_ex) p =
    if p =? 5 then [100; 101] else [])) (seqZ 0 64) = true) as H by by vm_compute.
  rewrite forallb_forall in H. eapply bool_decide_eq_true, H.
  apply list_elem_of_In, elem_of_seqZ. unfold RQ_NQS in Hp. lia.
Qed.

Lemma rq_ex_ok : runq_ok ths_ex rq_ex.
Proof.
  split; try done.
  - intros p Hp. assert (forallb (fun p => eqb (Z.testbit (zget (rq_status rq_ex) 0) p)
      (nonempty (queue (rq_queues rq_ex) p))) (seqZ 0 64) = true) as H by by vm_compute.
    rewrite forallb_forall in H. apply eqb_prop, H.
    apply list_elem_of_In, elem_of_seqZ. unfold RQ_NQS in Hp. lia.
  - intros p td Hp. rewrite queue_ex by done. zcase; [subst|by intros ?%elem_of_nil].
    rewrite !elem_of_cons. intros [-> | [-> | ?%elem_of_nil]]; [| |done]; by eexists.
  - intros p Hp. rewrite queue_ex by done. zcase; [|constructor].
    apply NoDup_cons. split; [|apply NoDup_singleton]. rewrite list_elem_of_singleton. lia.
Qed.

(** ** Queues *)

(** [runq_add] puts a thread that is on no queue on the queue of its
    priority, at the head if it was preempted and at the tail if not, records
    the queue in the thread, sets the status bit, and touches no other
    queue. *)
Theorem runq_add_correct ths rq td t flags :
  runq_ok ths rq -> ths !! td = Some t -> 0 <= td_priority t < 256 -> td_inmem t = true ->
  (forall p, 0 <= p < RQ_NQS -> td ∉ queue (rq_queues rq) p) ->
  let '(rq', ths') := runq_add ths rq td flags in
  let pri := td_priority t / RQ_PPQ in
  runq_ok ths' rq' /\ ths' = <[td := set_td_rqindex pri t]> ths /\
  runq_check rq' = true /\
  forall p, 0 <= p < RQ_NQS -> queue (rq_queues rq') p =
    if p =? pri
    then (if negb (Z.land flags SRQ_PREEMPTED =? 0) then [td] ++ queue (rq_queues rq) p
          else queue (rq_queues rq) p ++ [td])
    else queue (rq_queues rq) p.
Proof.
  intros I Ht Hprio Hmem Hnot. unfold runq_add, RQ_PPQ.
  assert (get_td ths td = t) as -> by (unfold get_td; by rewrite Ht).
  assert (0 <= td_priority t / 4 < RQ_NQS) as Hp by (unfold RQ_NQS; dlia).
  pose proof (runq_insert_ok ths rq I td t (td_priority t / 4) flags Hp Ht Hmem Hnot) as A.
  destruct (runq_insert _ _ _ _ _) as [rq' ths']. destruct A as (A1 & A2 & A3).
  split; [done|]. split; [done|]. split.
  - unfold runq_check. change (Z.to_nat RQB_LEN) with 1%nat. cbn [search].
    destruct (Z.eqb_spec (zget (rq_status rq') 0) 0) as [E|]; [|done].
    pose proof (proj1 (word_zero ths' rq' A1) E _ Hp) as Q. rewrite A3, Z.eqb_refl in Q by done.
    pose proof (tailq_insert_nonempty flags td (queue (rq_queues rq) (td_priority t / 4))) as N.
    by rewrite Q in N.
  - intros p Hp'. rewrite A3 by done. zcase; [|done]. subst. unfold tailq_insert. by case (negb _).
Qed.

Lemma runq_add_correct_witness :
  let '(rq', ths') := runq_add ths_ex rq_ex 102 0 in
  runq_ok ths' rq' /\ ths' = <[102 := set_td_rqindex 20 (MkThread 80 9 0 true)]> ths_ex /\
  runq_check rq' = true /\
  forall p, 0 <= p < RQ_NQS -> queue (rq_queues rq') p =
    if p =? 20
    then (if negb (Z.land 0 SRQ_PREEMPTED =? 0) then [102] ++ queue (rq_queues rq_ex) p
          else queue (rq_queues rq_ex) p ++ [102])
    else queue (rq_queues rq_ex) p.
Proof.
  apply (runq_add_correct ths_ex rq_ex 102 (MkThread 80 9 0 true) 0).
  - exact rq_ex_ok.
  - reflexivity.
  - cbn. lia.
  - reflexivity.
  - intros p Hp. rewrite queue_ex by done. zcase; [|by intros ?%elem_of_nil].
    rewrite !elem_of_cons. intros [E | [E | ?%elem_of_nil]]; done.
Defined.

(** [runq_choose] never panics; it returns the thread at the head of the
    first queue that is not empty, and no thread exactly when all queues are
    empty. *)
Theorem runq_choose_correct ths rq :
  runq_ok ths rq ->
  (exists pri td l, runq_choose rq = Ok (Some td) /\ 0 <= pri < RQ_NQS /\
     queue (rq_queues rq) pri = td :: l /\
     forall p, 0 <= p < pri -> queue (rq_queues rq) p = []) \/
  (runq_choose rq = Ok None /\ runq_check rq = false /\
   forall p, 0 <= p < RQ_NQS -> queue (rq_queues rq) p = []).
Proof.
  intros I. destruct (runq_choose_ok ths rq I) as [H | [H1 H2]]; [by left | right].
  split; [done|]. split; [|done]. unfold runq_check. change (Z.to_nat RQB_LEN) with 1%nat.
  cbn [search]. by rewrite (proj2 (word_zero ths rq I) H2).
Qed.

Lemma runq_choose_correct_witness :
  (exists pri td l, runq_choose rq_ex = Ok (Some td) /\ 0 <= pri < RQ_NQS /\
     queue (rq_queues rq_ex) pri = td :: l /\
     forall p, 0 <= p < pri -> queue (rq_queues rq_ex) p = []) \/
  (runq_choose rq_ex = Ok None /\ runq_check rq_ex = false /\
   forall p, 0 <= p < RQ_NQS -> queue (rq_queues rq_ex) p = []).
Proof. apply (runq_choose_correct ths_ex rq_ex). exact rq_ex_ok. Defined.

(** [runq_choose_from], from an index below the number of queues, never
    panics; it returns the head of the first non-empty queue in the circular
    order that starts at the index, and no thread only when all queues are
    empty. *)
Theorem runq_choose_from_correct ths rq idx :
  runq_ok ths rq -> 0 <= idx < RQ_NQS ->
  (exists pri td l, runq_choose_from rq idx = Ok (Some td) /\ 0 <= pri < RQ_NQS /\
     queue (rq_queues rq) pri = td :: l /\
     forall p, 0 <= p < RQ_NQS -> (p - idx) mod RQ_NQS < (pri - idx) mod RQ_NQS ->
       queue (rq_queues rq) p = []) \/
  (runq_choose_from rq idx = Ok None /\
   forall p, 0 <= p < RQ_NQS -> queue (rq_queues rq) p = []).
Proof.
  intros I Hidx. unfold runq_choose_from.
  destruct (findbit_from_spec ths rq I idx Hidx) as [[-> H] | (H1 & H2 & H3)]; [by right|].
  left. set (pri := runq_findbit_from rq idx) in *. rewrite (proj2 (Z.eqb_neq _ (-1))) by lia.
  destruct (queue (rq_queues rq) pri) as [|td l] eqn:E; [done|].
  exists pri, td, l. split_and!; try done; try lia. intros p Hp Hlt.
  destruct (queue (rq_queues rq) p) eqn:Ep; [done|].
  specialize (H3 p Hp). rewrite Ep in H3. specialize (H3 eq_refl). lia.
Qed.

(** From index 9 the search wraps around to queue 5. *)
Lemma runq_choose_from_correct_witness :
  (exists pri td l, runq_choose_from rq_ex 9 = Ok (Some td) /\ 0 <= pri < RQ_NQS /\
     queue (rq_queues rq_ex) pri = td :: l /\
     forall p, 0 <= p < RQ_NQS -> (p - 9) mod RQ_NQS < (pri - 9) mod RQ_NQS ->
       queue (rq_queues rq_ex) p = []) \/
  (runq_choose_from rq_ex 9 = Ok None /\
   forall p, 0 <= p < RQ_NQS -> queue (rq_queues rq_ex) p = []).
Proof.
  apply (runq_choose_from_correct ths_ex rq_ex 9); [exact rq_ex_ok | by split].
Defined.

(** [runq_remove_idx] takes a queued thread off its queue and only that
    thread, clears the status bit when the queue becomes empty, and moves the
    caller's index on to the next queue exactly when it stood at the queue
    that became empty. *)
Theorem runq_remove_idx_correct ths rq td pri idx :
  runq_ok ths rq -> 0 <= pri < RQ_NQS -> td ∈ queue (rq_queues rq) pri ->
  exists rq' idx', runq_remove_idx ths rq td (Some idx) = Ok (rq', Some idx') /\
    runq_ok ths rq' /\
    (forall p x, 0 <= p < RQ_NQS ->
       x ∈ queue (rq_queues rq') p <-> x ∈ queue (rq_queues rq) p /\ x <> td) /\
    idx' = (if (idx =? pri) && negb (nonempty (queue (rq_queues rq') pri))
            then (pri + 1) mod RQ_NQS else idx).
Proof.
  intros I Hp Htd.
  destruct (runq_remove_idx_ok ths rq I td pri (Some idx) Hp Htd) as (rq' & idx' & E & I' & Hq & ->).
  eexists rq', _. split; [exact E|]. split; [done|]. split.
  - intros p x Hp'. rewrite Hq by done. zcase.
    + subst. apply tailq_remove_ne. by apply I.
    + split; [|by intros [? _]]. intros Hx. split; [done|]. intros ->.
      destruct (rq_index _ _ I p td Hp' Hx) as (t & H1 & H2 & _).
      destruct (rq_index _ _ I pri td Hp Htd) as (t' & H1' & H2' & _). congruence.
  - by rewrite Hq, Z.eqb_refl by done.
Qed.

Lemma runq_remove_idx_correct_witness :
  exists rq' idx', runq_remove_idx ths_ex rq_ex 101 (Some 5) = Ok (rq', Some idx') /\
    runq_ok ths_ex rq' /\
    (forall p x, 0 <= p < RQ_NQS ->
       x ∈ queue (rq_queues rq') p <-> x ∈ queue (rq_queues rq_ex) p /\ x <> 101) /\
    idx' = (if (5 =? 5) && negb (nonempty (queue (rq_queues rq') 5))
            then (5 + 1) mod RQ_NQS else 5).
Proof.
  apply (runq_remove_idx_correct ths_ex rq_ex 101 5 5).
  - exact rq_ex_ok.
  - by split.
  - vm_compute. right. left.
Defined.

(** [runq_choose_fuzz] returns a thread of the first queue that is not
    empty: with [fuzz > 1] the first one, among the first [fuzz] threads of
    that queue, that ran last on this CPU; the head of the queue when there is
    none or [fuzz <= 1]. *)
Theorem runq_choose_fuzz_correct ths rq cpuid fuzz :
  runq_ok ths rq ->
  (exists pri td, runq_choose_fuzz ths rq cpuid fuzz = Ok (Some td) /\ 0 <= pri < RQ_NQS /\
     td ∈ queue (rq_queues rq) pri /\ (forall p, 0 <= p < pri -> queue (rq_queues rq) p = []) /\
     let window := take (Z.to_nat fuzz) (queue (rq_queues rq) pri) in
     let here x := td_lastcpu (get_td ths x) = cpuid in
     ((exists l1 l2, window = l1 ++ td :: l2 /\ here td /\ forall x, x ∈ l1 -> ~ here x) /\ 1 < fuzz \/
      ((fuzz <= 1 \/ forall x, x ∈ window -> ~ here x) /\
       head (queue (rq_queues rq) pri) = Some td))) \/
  (runq_choose_fuzz ths rq cpuid fuzz = Ok None /\
   forall p, 0 <= p < RQ_NQS -> queue (rq_queues rq) p = []).
Proof.
  intros I. unfold runq_choose_fuzz.
  destruct (findbit_spec ths rq I) as [[-> H] | (H1 & H2 & H3)]; [by right|].
  left. set (pri := runq_findbit rq) in *. rewrite (proj2 (Z.eqb_neq _ (-1))) by lia.
  set (q := queue (rq_queues rq) pri) in *.
  assert (forall n l, match fuzz_scan ths n cpuid l with
    | Some td => exists l1 l2, take n l = l1 ++ td :: l2 /\ td_lastcpu (get_td ths td) = cpuid /\
        forall x, x ∈ l1 -> td_lastcpu (get_td ths x) <> cpuid
    | None => forall x, x ∈ take n l -> td_lastcpu (get_td ths x) <> cpuid
    end) as Hscan.
  { induction n as [|n IH]; intros [|y l]; cbn [fuzz_scan take]; try (by intros x ?%elem_of_nil).
    destruct (Z.eqb_spec (td_lastcpu (get_td ths y)) cpuid) as [Hy|Hy].
    - exists [], (take n l). split; [done|]. split; [done|]. by intros x ?%elem_of_nil.
    - specialize (IH l). destruct (fuzz_scan ths n cpuid l) as [td|].
      + destruct IH as (l1 & l2 & -> & Htd & Hl1). exists (y :: l1), l2. split; [done|].
        split; [done|]. intros x [->|Hx]%elem_of_cons; [done | by apply Hl1].
      + intros x [->|Hx]%elem_of_cons; [done | by apply IH]. }
  specialize (Hscan (Z.to_nat fuzz) q).
  assert (exists td, head q = Some td /\ td ∈ q) as (td0 & Ehd & Hin0).
  { destruct q as [|td l]; [done|]. exists td. split; [done | by left]. }
  destruct (Z.ltb_spec 1 fuzz) as [Hf|Hf].
  - destruct (fuzz_scan ths (Z.to_nat fuzz) cpuid q) as [td|].
    + exists pri, td. split; [done|]. split; [done|]. destruct Hscan as (l1 & l2 & E & Htd & Hl1).
      split; [|split; [done|]; left; eauto 8].
      apply (subseteq_take (Z.to_nat fuzz) q). rewrite E. apply elem_of_app. right. by left.
    + rewrite Ehd. exists pri, td0. split_and!; try done; try lia. right. split; [by right | done].
  - rewrite Ehd. exists pri, td0. split_and!; try done; try lia. right. split; [by left | done].
Qed.

(** ** No starvation *)

Definition on_no_queue (rq : runq) (td : Z) : Prop :=
  forall p, 0 <= p < RQ_NQS -> td ∉ queue (rq_queues rq) p.

(** The threads of the queues [0] to [pri], in the order of the queues. *)
Definition queued_upto (rq : runq) (pri : Z) : list Z :=
  concat (map (queue (rq_queues rq)) (seqZ 0 (pri + 1))).

(** What the scheduler does with a run queue while no thread is put ahead of
    the queue [pri]'s tail: it adds threads of that queue or a later one, not
    as preempted ones on [pri] itself; it takes the thread that [runq_choose]
    names, or takes some queued thread off; and the fields of threads other
    than [td_rqindex] and [td_inmem] change. The lists are the threads chosen
    and the threads taken off. *)
Inductive rq_step (pri : Z) : runq * threads -> list Z -> list Z -> runq * threads -> Prop :=
  | step_add rq ths td t flags :
      ths !! td = Some t -> td_inmem t = true -> 0 <= td_priority t < 256 ->
      on_no_queue rq td -> pri <= td_priority t / RQ_PPQ ->
      (Z.land flags SRQ_PREEMPTED <> 0 -> pri < td_priority t / RQ_PPQ) ->
      rq_step pri (rq, ths) [] [] (runq_add ths rq td flags)
  | step_choose rq ths td rq' :
      runq_choose rq = Ok (Some td) -> runq_remove ths rq td = Ok rq' ->
      rq_step pri (rq, ths) [td] [] (rq', ths)
  | step_remove rq ths td p rq' :
      0 <= p < RQ_NQS -> td ∈ queue (rq_queues rq) p -> runq_remove ths rq td = Ok rq' ->
      rq_step pri (rq, ths) [] [td] (rq', ths)
  | step_thread rq ths td t t' :
      ths !! td = Some t -> td_rqindex t' = td_rqindex t -> td_inmem t' = td_inmem t ->
      rq_step pri (rq, ths) [] [] (rq, <[td := t']> ths).

Inductive rq_steps (pri : Z) (st : runq * threads) : list Z -> list Z -> runq * threads -> Prop :=
  | steps_refl : rq_steps pri st [] [] st
  | steps_step xs rs st1 x r st2 :
      rq_steps pri st xs rs st1 -> rq_step pri st1 x r st2 ->
      rq_steps pri st (xs ++ x) (rs ++ r) st2.

Lemma elem_of_upto rq pri td :
  td ∈ queued_upto rq pri <-> exists p, 0 <= p <= pri /\ td ∈ queue (rq_queues rq) p.
Proof.
  unfold queued_upto. rewrite list_elem_of_In, in_concat. split.
  - intros (l & Hl & Htd). apply in_map_iff in Hl as (p & <- & Hp).
    apply list_elem_of_In, elem_of_seqZ in Hp. exists p. split; [lia|]. by apply list_elem_of_In.
  - intros (p & Hp & Htd). exists (queue (rq_queues rq) p). split; [|by apply list_elem_of_In].
    apply in_map, list_elem_of_In, elem_of_seqZ. lia.
Qed.

Lemma upto_ext rq rq' pri :
  (forall p, 0 <= p <= pri -> queue (rq_queues rq') p = queue (rq_queues rq) p) ->
  queued_upto rq' pri = queued_upto rq pri.
Proof.
  intros H. unfold queued_upto. f_equal. apply map_ext_in. intros p Hp.
  apply list_elem_of_In, elem_of_seqZ in Hp. apply H. lia.
Qed.

Lemma upto_last rq pri :
  0 <= pri -> queued_upto rq pri = queued_upto rq (pri - 1) ++ queue (rq_queues rq) pri.
Proof.
  intros Hp. unfold queued_upto. rewrite Z.sub_add, seqZ_app by lia.
  replace (seqZ (0 + pri) 1) with [pri] by (unfold seqZ; cbn; f_equal; lia).
  rewrite map_app, concat_app. cbn. by rewrite app_nil_r.
Qed.

Lemma filter_absent (td : Z) (q : list Z) : td ∉ q -> filter (.≠ td) q = q.
Proof.
  induction q as [|x q IH]; [done|]. rewrite elem_of_cons. intros H.
  rewrite filter_cons, decide_True by naive_solver. f_equal. naive_solver.
Qed.

Lemma tailq_remove_filter td q : NoDup q -> tailq_remove td q = filter (.≠ td) q.
Proof.
  induction q as [|x q IH]; intros Hnd; [done|]. apply NoDup_cons in Hnd as [Hx Hnd].
  cbn [tailq_remove]. rewrite filter_cons. zcase; [subst|].
  - rewrite decide_False by tauto. by rewrite filter_absent.
  - rewrite decide_True by done. by rewrite IH.
Qed.

Section upto.
Context (ths : threads) (rq : runq) (I : runq_ok ths rq) (pri : Z) (Hpri : 0 <= pri < RQ_NQS).

Lemma queued_once p p' td :
  0 <= p < RQ_NQS -> 0 <= p' < RQ_NQS ->
  td ∈ queue (rq_queues rq) p -> td ∈ queue (rq_queues rq) p' -> p = p'.
Proof.
  intros Hp Hp' H H'. destruct (rq_index _ _ I p td Hp H) as (t & ? & <- & _).
  destruct (rq_index _ _ I p' td Hp' H') as (t' & ? & <- & _). congruence.
Qed.

Lemma upto_nodup : NoDup (queued_upto rq pri).
Proof.
  assert (forall k, 0 <= k -> k - 1 < RQ_NQS -> NoDup (queued_upto rq (k - 1))) as H.
  { apply (natlike_ind (fun k => k - 1 < RQ_NQS -> NoDup (queued_upto rq (k - 1)))).
    - intros _. apply NoDup_nil_2.
    - intros k Hk IH Hlt. replace (Z.succ k - 1) with k in * by lia. rewrite upto_last by done.
      apply NoDup_app. split; [apply IH; lia|]. split; [|apply I; lia].
      intros td (p & Hp & Htd)%elem_of_upto Htd'.
      assert (p = k) by (eapply queued_once; [..|exact Htd|exact Htd']; lia). lia. }
  specialize (H (pri + 1)). rewrite Z.add_simpl_r in H. apply H; lia.
Qed.

(** [runq_choose] takes the first of them. *)
Lemma upto_choose td l : queued_upto rq pri = td :: l -> runq_choose rq = Ok (Some td).
Proof.
  intros E. destruct (runq_choose_ok ths rq I) as [(p & x & l' & -> & Hp & Eq & Hhigh) | [_ H]].
  - do 2 f_equal. destruct (Z.lt_ge_cases pri p) as [Hlt|Hge].
    + assert (td ∈ queued_upto rq pri) as (i & Hi & Htd)%elem_of_upto by (rewrite E; by left).
      rewrite Hhigh in Htd by lia. by apply elem_of_nil in Htd.
    + revert E. unfold queued_upto. replace (pri + 1) with (p + (1 + (pri - p))) by lia.
      rewrite seqZ_app, map_app, concat_app, (seqZ_cons (0 + p)) by lia. cbn [map concat].
      rewrite Z.add_0_l, Eq. cbn [app].
      assert (concat (map (queue (rq_queues rq)) (seqZ 0 p)) = []) as ->; [|by intros [= -> _]].
      destruct (concat _) as [|y m] eqn:Em; [done|].
      assert (y ∈ queued_upto rq (p - 1)) as (i & Hi & Hy)%elem_of_upto.
      { unfold queued_upto. rewrite Z.sub_add, Em. by left. }
      rewrite Hhigh in Hy by lia. by apply elem_of_nil in Hy.
  - assert (td ∈ queued_upto rq pri) as (i & Hi & Htd)%elem_of_upto by (rewrite E; by left).
    rewrite H in Htd by lia. by apply elem_of_nil in Htd.
Qed.

(** Taking a queued thread off keeps the others, in their order. *)
Lemma upto_remove td p rq' :
  0 <= p < RQ_NQS -> td ∈ queue (rq_queues rq) p -> runq_remove ths rq td = Ok rq' ->
  runq_ok ths rq' /\ queued_upto rq' pri = filter (.≠ td) (queued_upto rq pri).
Proof.
  intros Hp Htd. unfold runq_remove.
  destruct (runq_remove_idx_ok ths rq I td p None Hp Htd) as (rq1 & idx & -> & I1 & Hq & _).
  rewrite bind_Ok. intros [= <-]. split; [done|]. unfold queued_upto.
  assert (forall l, (forall i, i ∈ l -> 0 <= i < RQ_NQS) ->
    concat (map (queue (rq_queues rq1)) l) = filter (.≠ td) (concat (map (queue (rq_queues rq)) l))) as H.
  { induction l as [|i l IH]; intros Hl; [done|]. cbn [map concat]. rewrite filter_app.
    rewrite IH by (intros; apply Hl; by right). f_equal.
    assert (0 <= i < RQ_NQS) as Hi by (apply Hl; by left). rewrite Hq by done. zcase.
    - subst. apply tailq_remove_filter. by apply I.
    - symmetry. apply filter_absent. intros Hy. by assert (p = i) by by eapply queued_once. }
  apply H. intros i ?%elem_of_seqZ. lia.
Qed.

(** A thread that is added behind the queue [pri]'s tail is after them. *)
Lemma upto_add td t flags :
  ths !! td = Some t -> td_inmem t = true -> 0 <= td_priority t < 256 ->
  on_no_queue rq td -> pri <= td_priority t / RQ_PPQ ->
  (Z.land flags SRQ_PREEMPTED <> 0 -> pri < td_priority t / RQ_PPQ) ->
  let '(rq', ths') := runq_add ths rq td flags in
  runq_ok ths' rq' /\ exists l, queued_upto rq' pri = queued_upto rq pri ++ l.
Proof.
  intros Ht Hmem Hprio Hnot Hle Hpre. unfold runq_add.
  assert (get_td ths td = t) as -> by (unfold get_td; by rewrite Ht).
  assert (0 <= td_priority t / RQ_PPQ < RQ_NQS) as Hp by (unfold RQ_NQS, RQ_PPQ; dlia).
  pose proof (runq_insert_ok ths rq I td t _ flags Hp Ht Hmem Hnot) as A.
  destruct (runq_insert _ _ _ _ _) as [rq' ths']. destruct A as (A1 & _ & A3).
  split; [done|]. rewrite (upto_last rq' pri), (upto_last rq pri) by lia.
  assert (queued_upto rq' (pri - 1) = queued_upto rq (pri - 1)) as ->.
  { apply upto_ext. intros p Hpp. rewrite A3 by lia. by ztest. }
  rewrite A3 by done. zcase.
  - exists [td]. unfold tailq_insert. zcase; cbn [negb]; [rewrite <- app_assoc; congruence|].
    specialize (Hpre ltac:(done)). lia.
  - exists []. by rewrite app_nil_r.
Qed.
End upto.

(** The invariant of the steps: the threads that were ahead and are still
    queued come first, in their order, and then the thread. *)
Definition waiting (ahead gone : list Z) : list Z := filter (.∉ gone) ahead.

Record behind (pri : Z) (ahead : list Z) (td : Z) (xs rs : list Z) (st : runq * threads) : Prop := {
  behind_ok : runq_ok (snd st) (fst st);
  behind_upto : exists l, queued_upto (fst st) pri = waiting ahead (xs ++ rs) ++ td :: l;
  behind_once : NoDup xs /\ xs ⊆ ahead
}.

Lemma waiting_remove x ahead gone gone' :
  (forall y, y ∈ gone' <-> y = x \/ y ∈ gone) ->
  filter (.≠ x) (waiting ahead gone) = waiting ahead gone'.
Proof.
  intros H. unfold waiting. rewrite list_filter_filter. apply list_filter_iff. intros y.
  rewrite H. tauto.
Qed.

Lemma behind_remove pri ahead td xs rs rq ths y p rq' gone :
  0 <= pri < RQ_NQS -> behind pri ahead td xs rs (rq, ths) ->
  0 <= p < RQ_NQS -> y ∈ queue (rq_queues rq) p -> runq_remove ths rq y = Ok rq' -> y <> td ->
  (forall z, z ∈ gone <-> z = y \/ z ∈ xs ++ rs) ->
  runq_ok ths rq' /\ exists l, queued_upto rq' pri = waiting ahead gone ++ td :: l.
Proof.
  intros Hp [I [l E] _] Hpp Hq Er Hy Hgone. cbn [fst snd] in *.
  destruct (upto_remove ths rq I pri Hp y p rq' Hpp Hq Er) as [I' E']. split; [done|].
  exists (filter (.≠ y) l). rewrite E', E, filter_app, filter_cons, decide_True by done.
  f_equal. by apply waiting_remove.
Qed.

(** What [runq_choose] returns is the first of those still waiting, or the
    thread itself. *)
Lemma behind_choose pri ahead td xs rs rq ths :
  0 <= pri < RQ_NQS -> behind pri ahead td xs rs (rq, ths) ->
  exists x rest p, waiting ahead (xs ++ rs) ++ [td] = x :: rest /\ runq_choose rq = Ok (Some x) /\
    0 <= p < RQ_NQS /\ x ∈ queue (rq_queues rq) p /\
    (x = td \/ (x ∈ ahead /\ (x ∉ xs ++ rs))).
Proof.
  intros Hp [I [l E] _]. cbn [fst snd] in *.
  assert (exists x rest, waiting ahead (xs ++ rs) ++ [td] = x :: rest /\
    (exists m, queued_upto rq pri = x :: m) /\ (x = td \/ (x ∈ ahead /\ (x ∉ xs ++ rs))))
    as (x & rest & E1 & [m Em] & Hx).
  { destruct (waiting ahead (xs ++ rs)) as [|x w] eqn:Ew; [exists td, []; eauto|].
    exists x, (w ++ [td]). split; [done|]. split; [by eexists|]. right.
    assert (x ∈ waiting ahead (xs ++ rs)) as Hw by (rewrite Ew; by left).
    unfold waiting in Hw. rewrite list_elem_of_filter in Hw. tauto. }
  assert (x ∈ queued_upto rq pri) as (p & Hpp & Hq)%elem_of_upto by (rewrite Em; by left).
  exists x, rest, p. split; [done|]. split; [by eapply upto_choose|]. split; [lia|done].
Qed.

Lemma behind_step pri ahead td xs rs st x r st' :
  0 <= pri < RQ_NQS -> behind pri ahead td xs rs st -> rq_step pri st x r st' ->
  td ∉ (xs ++ x) ++ rs ++ r -> behind pri ahead td (xs ++ x) (rs ++ r) st'.
Proof.
  intros Hp B Hstep. rewrite !elem_of_app. intros Htd.
  destruct Hstep as [rq ths y t flags Ht Hmem Hprio Hnot Hle Hpre | rq ths y rq' Ec Er
    | rq ths y p rq' Hpp Hq Er | rq ths y t t' Ht Hidx Hmem]; rewrite ?app_nil_r.
  - destruct B as [I [l E] B].
    pose proof (upto_add ths rq I pri Hp y t flags Ht Hmem Hprio Hnot Hle Hpre) as A.
    destruct (runq_add _ _ _ _) as [rq' ths']. destruct A as [I' [l' E']]. split; [done| |done].
    exists (l ++ l'). cbn [fst] in *. by rewrite E', E, <- app_assoc.
  - destruct (behind_choose _ _ _ _ _ _ _ Hp B) as (y' & rest & p & _ & Ec' & Hpp & Hq & Hy).
    rewrite Ec in Ec'. injection Ec' as <-. rewrite list_elem_of_singleton in Htd.
    destruct Hy as [-> | [Hin Hy]]; [tauto|]. rewrite elem_of_app in Hy.
    destruct (behind_remove _ _ _ _ _ _ _ y p rq' ((xs ++ [y]) ++ rs) Hp B Hpp Hq Er) as [I' E'].
    + intros ->. tauto.
    + intros z. rewrite !elem_of_app, list_elem_of_singleton. tauto.
    + split; [done|done|]. destruct B as [_ _ [Hnd Hsub]]. split.
      * apply NoDup_app. split; [done|]. split; [|apply NoDup_singleton].
        intros z Hz. rewrite list_elem_of_singleton. intros ->. tauto.
      * intros z. rewrite elem_of_app, list_elem_of_singleton. intros [Hz | ->]; [by apply Hsub | done].
  - rewrite list_elem_of_singleton in Htd.
    destruct (behind_remove _ _ _ _ _ _ _ y p rq' (xs ++ rs ++ [y]) Hp B Hpp Hq Er) as [I' E'].
    + intros ->. tauto.
    + intros z. rewrite !elem_of_app, list_elem_of_singleton. tauto.
    + split; [done|done|]. apply B.
  - destruct B as [I E B]. split; try done. cbn [fst snd] in *.
    destruct I as [I1 I2 I3 I4 I5 I6]. split; try done. intros p z Hpp Hz.
    destruct (I5 p z Hpp Hz) as (u & Hu & Hui & Hum). destruct (decide (z = y)) as [->|Hne].
    + rewrite Hu in Ht. injection Ht as ->. exists t'. rewrite lookup_insert_eq. split; [done|]. split; congruence.
    + exists u. by rewrite lookup_insert_ne.
Qed.

Lemma behind_steps pri ahead td st xs rs st' :
  0 <= pri < RQ_NQS -> behind pri ahead td [] [] st -> rq_steps pri st xs rs st' ->
  td ∉ xs ++ rs -> behind pri ahead td xs rs st'.
Proof.
  intros Hp B Hsteps. induction Hsteps as [|xs rs st1 x r st2 Hsteps IH Hstep]; [done|].
  intros Htd. eapply behind_step; [done | | done | done]. apply IH.
  rewrite !elem_of_app in *. tauto.
Qed.

(** A thread that [runq_add] put on its queue starts behind those of the
    queues up to its own, without its own when it was preempted. *)
Lemma behind_add ths rq td t flags :
  runq_ok ths rq -> ths !! td = Some t -> 0 <= td_priority t < 256 -> td_inmem t = true ->
  on_no_queue rq td ->
  let pri := td_priority t / RQ_PPQ in
  let ahead := queued_upto rq (if Z.land flags SRQ_PREEMPTED =? 0 then pri else pri - 1) in
  behind pri ahead td [] [] (runq_add ths rq td flags).
Proof.
  intros I Ht Hprio Hmem Hnot pri ahead. unfold runq_add.
  assert (get_td ths td = t) as -> by (unfold get_td; by rewrite Ht).
  assert (0 <= pri < RQ_NQS) as Hp by (unfold pri, RQ_NQS, RQ_PPQ; dlia). fold pri.
  pose proof (runq_insert_ok ths rq I td t pri flags Hp Ht Hmem Hnot) as A.
  destruct (runq_insert _ _ _ _ _) as [rq' ths']. destruct A as (A1 & _ & A3).
  assert (waiting ahead [] = ahead) as Ew.
  { unfold waiting. clear. induction ahead as [|x l IH]; [done|].
    rewrite filter_cons, decide_True by apply not_elem_of_nil. by rewrite IH. }
  split; [done| |split; [constructor | by intros ? ?%elem_of_nil]].
  cbn [app fst]. rewrite Ew, (upto_last rq' pri), A3, Z.eqb_refl by lia.
  assert (queued_upto rq' (pri - 1) = queued_upto rq (pri - 1)) as ->.
  { apply upto_ext. intros p Hpp. rewrite A3 by lia. by ztest. }
  unfold ahead, tailq_insert. zcase; cbn [negb].
  - exists []. by rewrite (upto_last rq pri), <- app_assoc by lia.
  - by eexists.
Qed.

(** C38: no starvation. A thread that [runq_add] queues waits for exactly the
    threads that stand before it at that moment: those of the queues up to
    that of its priority, its own queue's among them unless it was preempted.
    Whatever the scheduler does then with threads of its priority or a lower
    one, those are chosen in their order as far as they are still queued, each
    at most once, and the thread is chosen next: [runq_choose] always returns
    the first of them, or the thread, and that one can be taken off. *)
Theorem runq_no_starvation ths rq td t flags xs rs rq' ths' :
  runq_ok ths rq -> ths !! td = Some t -> 0 <= td_priority t < 256 -> td_inmem t = true ->
  on_no_queue rq td ->
  let pri := td_priority t / RQ_PPQ in
  let ahead := queued_upto rq (if Z.land flags SRQ_PREEMPTED =? 0 then pri else pri - 1) in
  rq_steps pri (runq_add ths rq td flags) xs rs (rq', ths') -> td ∉ xs ++ rs ->
  runq_ok ths' rq' /\ NoDup xs /\ xs ⊆ ahead /\ (length xs <= length ahead)%nat /\
  exists x rest rq'', filter (.∉ xs ++ rs) ahead ++ [td] = x :: rest /\
    runq_choose rq' = Ok (Some x) /\ runq_remove ths' rq' x = Ok rq''.
Proof.
  intros I Ht Hprio Hmem Hnot pri ahead Hsteps Htd.
  assert (0 <= pri < RQ_NQS) as Hp by (unfold pri, RQ_NQS, RQ_PPQ; dlia).
  pose proof (behind_add ths rq td t flags I Ht Hprio Hmem Hnot) as B0.
  pose proof (behind_steps _ _ _ _ _ _ _ Hp B0 Hsteps Htd) as B.
  destruct (behind_choose _ _ _ _ _ _ _ Hp B) as (x & rest & p & Ex & Ec & Hpp & Hq & _).
  destruct B as [I' _ [Hnd Hsub]]. split; [done|]. split; [done|]. split; [done|].
  split; [by apply submseteq_length, NoDup_submseteq|].
  destruct (runq_remove_idx_ok ths' rq' I' x p None Hpp Hq) as (rq'' & idx & E & _).
  exists x, rest, rq''. split; [done|]. split; [done|]. unfold runq_remove. by rewrite E.
Qed.

(** Thread 102 is queued behind 100 and 101; 100 is taken: 101 is next. *)
Lemma runq_no_starvation_witness :
  exists rq' : runq, forall ths', ths' = snd (runq_add ths_ex rq_ex 102 0) ->
  runq_ok ths' rq' /\ NoDup [100] /\ [100] ⊆ [100; 101] /\ (length [100] <= length [100; 101])%nat /\
  exists x rest rq'', filter (.∉ [100] ++ []) [100; 101] ++ [102] = x :: rest /\
    runq_choose rq' = Ok (Some x) /\ runq_remove ths' rq' x = Ok rq''.
Proof.
  destruct (runq_add ths_ex rq_ex 102 0) as [rq1 ths1] eqn:E.
  destruct (runq_remove ths1 rq1 100) as [rq'|msg] eqn:Er;
    [|vm_compute in E; injection E as <- <-; vm_compute in Er; discriminate].
  exists rq'. intros ths' ->. cbn [snd].
  change [100; 101] with (queued_upto rq_ex (if Z.land 0 SRQ_PREEMPTED =? 0 then
    td_priority (MkThread 80 9 0 true) / RQ_PPQ else td_priority (MkThread 80 9 0 true) / RQ_PPQ - 1)).
  apply (runq_no_starvation ths_ex rq_ex 102 (MkThread 80 9 0 true) 0 [100] [] rq' ths1).
  - exact rq_ex_ok.
  - reflexivity.
  - cbn. lia.
  - reflexivity.
  - intros p Hp. rewrite queue_ex by done. zcase; [|by intros ?%elem_of_nil].
    rewrite !elem_of_cons. intros [? | [? | ?%elem_of_nil]]; done.
  - rewrite E. apply (steps_step _ _ [] [] (rq1, ths1) [100] []); [apply steps_refl|].
    apply step_choose; [|done]. vm_compute in E. injection E as <- _. reflexivity.
  - cbn [app]. rewrite list_elem_of_singleton. done.
Defined.

Lemma runq_choose_fuzz_correct_witness :
  (exists pri td, runq_choose_fuzz ths_ex rq_ex 1 4 = Ok (Some td) /\ 0 <= pri < RQ_NQS /\
     td ∈ queue (rq_queues rq_ex) pri /\ (forall p, 0 <= p < pri -> queue (rq_queues rq_ex) p = []) /\
     let window := take (Z.to_nat 4) (queue (rq_queues rq_ex) pri) in
     let here x := td_lastcpu (get_td ths_ex x) = 1 in
     ((exists l1 l2, window = l1 ++ td :: l2 /\ here td /\ forall x, x ∈ l1 -> ~ here x) /\ 1 < 4 \/
      ((4 <= 1 \/ forall x, x ∈ window -> ~ here x) /\
       head (queue (rq_queues rq_ex) pri) = Some td))) \/
  (runq_choose_fuzz ths_ex rq_ex 1 4 = Ok None /\
   forall p, 0 <= p < RQ_NQS -> queue (rq_queues rq_ex) p = []).
Proof. apply (runq_choose_fuzz_correct ths_ex rq_ex 1 4). exact rq_ex_ok. Defined.

(** ** Critical sections *)

(** The calls of [mi_switch] made by [n] exits, with their flags. *)
Fixpoint critical_exits (n : nat) (kdb_active : bool) (td : critical)
    : result (critical * list (option Z)) :=
  match n with
  | O => Ok (td, [])
  | S n' =>
      '(td, switch) ← critical_exit kdb_active td;
      '(td, l) ← critical_exits n' kdb_active td;
      Ok (td, switch :: l)
  end.

Definition owe (td : critical) : critical := MkCritical (td_critnest td) true (td_idle td).

(** A preemption that falls due inside [n + 1] nested critical sections
    is deferred to the end of the outermost one, where the thread is switched
    out exactly once, as preempted, with its nesting at 0; while the debugger
    runs it stays owed. Leaving one section too many panics. *)
Theorem critical_sections_defer n (kdb_active idle : bool) :
  let td := owe (Nat.iter (S n) critical_enter (MkCritical 0 false idle)) in
  let last := if kdb_active then None
              else Some (SW_INVOL + SW_PREEMPT + if idle then SWT_IDLE else SWT_OWEPREEMPT) in
  critical_exits (S n) kdb_active td =
    Ok (MkCritical 0 kdb_active idle, replicate n None ++ [last]) /\
  critical_exits (S (S n)) kdb_active td = Panic "critical_exit: td_critnest == 0".
Proof.
  assert (forall m td, Nat.iter m critical_enter td =
    MkCritical (td_critnest td + Z.of_nat m) (td_owepreempt td) (td_idle td)) as Hiter.
  { induction m as [|m IH]; intros td; [destruct td; cbn; f_equal; lia|].
    change (Nat.iter (S m) critical_enter td) with (critical_enter (Nat.iter m critical_enter td)).
    rewrite IH. unfold critical_enter, set_td_critnest. cbn. f_equal. lia. }
  rewrite Hiter. cbv zeta. unfold owe. cbn [td_critnest td_idle]. rewrite Z.add_0_l.
  assert (forall k m, critical_exits (m + k) kdb_active (MkCritical (Z.of_nat (S m)) true idle) =
    ('(td, l) ← critical_exits k kdb_active (MkCritical 1 true idle);
     Ok (td, replicate m None ++ l))) as H.
  { intros k m. induction m as [|m IH].
    - cbn [Nat.add replicate app]. by destruct (critical_exits k _ _) as [[? ?]|].
    - cbn [Nat.add critical_exits]. unfold critical_exit at 1, set_td_critnest.
      cbn [td_critnest td_owepreempt td_idle].
      ztest. cbn [negb require]. rewrite !bind_Ok.
      replace (Z.of_nat (S (S m)) - 1) with (Z.of_nat (S m)) by lia. rewrite IH.
      by destruct (critical_exits k _ _) as [[? ?]|]. }
  split.
  - replace (S n) with (n + 1)%nat at 1 by lia. rewrite H. by destruct kdb_active, idle.
  - replace (S (S n)) with (n + 2)%nat by lia. rewrite H. by destruct kdb_active, idle.
Qed.
