(* ===== verification/UfsBmap.v ===== *)
(** The mapping of file blocks to disk blocks: src/sys/ufs/ufs/ufs_bmap.c.

    The buffer cache is a parameter: which indirect blocks are in core, and
    what reading one gives. The UFS1 and UFS2 branches of the source differ in
    the width of the addresses in an indirect block; here a block is the list
    of its addresses. *)

From S2P Require Import Prelude Fs.

Definition NIADDR : Z := 3.
Definition NXADDR : Z := 2.
Definition EFBIG : Z := 27.
Definition SF_SNAPSHOT : Z := 0x00200000.

(** ** State *)

(** The fields of [struct ufsmount] and the mount that the mapping reads. *)
Record ufsmount := MkUmp {
  um_nindir : Z;
  um_bptrtodb : Z;
  um_seqinc : Z;
  mnt_iosize_max : Z;
  f_iosize : Z
}.

(** The address part of the dinode, and the inode flags. *)
Record bmap_inode := MkBmapInode {
  bi_db : list Z;
  bi_ib : list Z;
  bi_extb : list Z;
  bi_flags : Z
}.

Record indir := MkIndir {
  in_lbn : Z;
  in_off : Z
}.

Section bmap.
Context (ump : ufsmount).

Definition MNINDIR : Z := um_nindir ump.
Definition blkptrtodb (b : Z) : Z := Z.shiftl b (um_bptrtodb ump).
Definition is_sequential (a b : Z) : bool := b =? a + um_seqinc ump.

(** ** ufs_getlbns *)

(** The loop that finds the number of levels: the block number within the
    level, the number of blocks of the level, and [i]. *)
Fixpoint getlbns_level (i : nat) (bn blockcnt : Z) : option (Z * Z * nat) :=
  match i with
  | O => None
  | S i' =>
      let blockcnt := blockcnt * MNINDIR in
      if bn <? blockcnt then Some (bn, blockcnt, i)
      else getlbns_level i' (bn - blockcnt) blockcnt
  end.

(** The loop over the levels. *)
Fixpoint getlbns_path (n : nat) (realbn bn metalbn blockcnt : Z) : list indir :=
  match n with
  | O => []
  | S n' =>
      if metalbn =? realbn then []
      else
        let blockcnt := blockcnt / MNINDIR in
        let off := (bn / blockcnt) mod MNINDIR in
        MkIndir metalbn off ::
          getlbns_path n' realbn bn (metalbn - (-1 + off * blockcnt)) blockcnt
  end.

(** The path, or [EFBIG]; the count is the length of the path. *)
Definition ufs_getlbns (bn : Z) : Z + list indir :=
  let realbn := bn in
  let bn := if bn <? 0 then - bn else bn in
  if bn <? NDADDR then inr []
  else
    match getlbns_level (Z.to_nat NIADDR) (bn - NDADDR) 1 with
    | None => inl EFBIG
    | Some (bn, blockcnt, i) =>
        let level := NIADDR - Z.of_nat i in
        let metalbn := if 0 <=? realbn then - (realbn - bn + level)
                       else - (- realbn - bn + level) in
        inr (MkIndir metalbn level ::
               getlbns_path (Z.to_nat (level + 1)) realbn bn metalbn blockcnt)
    end.

(** ** ufs_bmaparray *)

(** The number of addresses after [from] that follow on sequentially. *)
Definition run_after (l : list Z) (limit from maxrun : Z) : Z :=
  search (Z.to_nat (Z.min (limit - from - 1) maxrun)) (from + 1)
    (fun b => negb (is_sequential (zget l (b - 1)) (zget l b))) - (from + 1).

(** The number of addresses before [from]. *)
Definition run_before (l : list Z) (from maxrun : Z) : Z :=
  (from - 1) - search_down (Z.to_nat (Z.min from maxrun)) (from - 1)
    (fun b => negb (is_sequential (zget l b) (zget l (b + 1)))).

(** The buffer cache. [incore lbn]: a buffer of the logical block is in
    core. [getblk lbn]: the contents of the buffer when it has [B_CACHE].
    [bread blkno]: the read of a disk block, an errno or its contents. *)
Context (incore : Z -> bool) (getblk : Z -> option (list Z)) (bread : Z -> Z + list Z).
Context (ip : bmap_inode).
(** Whether the caller passed [runp] and [runb]. *)
Context (want_runp want_runb : bool).

Definition maxrun : Z :=
  if want_runp then mnt_iosize_max ump / f_iosize ump - 1 else 0.

Definition snapshot : bool := negb (Z.land (bi_flags ip) SF_SNAPSHOT =? 0).

(** The runs around index [off] of [l], which has [limit] entries. *)
Definition runs_at (l : list Z) (limit off : Z) : Z * Z :=
  (run_after l limit off maxrun,
   if want_runb && (0 <? off) then run_before l off maxrun else 0).

(** The contents of the indirect block [metalbn], which has the address
    [daddr]. *)
Definition bmap_fetch (metalbn daddr : Z) : result (Z + list Z) :=
  match getblk metalbn with
  | Some l => Ok (inr l)
  | None =>
      _ ← require (negb (daddr =? 0)) "ufs_bmaparray: indirect block not in cache";
      Ok (bread (blkptrtodb daddr))
  end.

(** The loop over the indirect blocks: the address found last, and the
    runs. *)
Fixpoint bmap_walk (path : list indir) (bn daddr : Z) : result (Z + Z * Z * Z) :=
  match path with
  | [] => Ok (inr (daddr, 0, 0))
  | a :: rest =>
      let metalbn := in_lbn a in
      if ((daddr =? 0) && negb (incore metalbn)) || (metalbn =? bn)
      then Ok (inr (daddr, 0, 0))
      else
        data ← bmap_fetch metalbn daddr;
        match data with
        | inl error => Ok (inl error)
        | inr l =>
            let daddr := zget l (in_off a) in
            match rest with
            | [] =>
                if negb (daddr =? 0) && want_runp then
                  let '(runp, runb) := runs_at l MNINDIR (in_off a) in
                  Ok (inr (daddr, runp, runb))
                else Ok (inr (daddr, 0, 0))
            | _ => bmap_walk rest bn daddr
            end
        end
  end.

(** Errno, [*bnp], [*runp] and [*runb]. With an errno [*bnp] is not set,
    and the runs are 0. *)
Definition bmap_result : Type := Z * option Z * Z * Z.

(** The blocks the inode addresses itself. *)
Definition bmap_direct (bn : Z) (want_nbp : bool) : result bmap_result :=
  if (0 <=? bn) && (bn <? NDADDR) then
    let daddr := zget (bi_db ip) bn in
    let bnp := blkptrtodb daddr in
    if snapshot && (0 <? daddr) && (daddr <? um_seqinc ump) then Ok (0, Some (-1), 0, 0)
    else if bnp =? 0 then
      Ok (0, Some (if snapshot then blkptrtodb (bn * um_seqinc ump) else -1), 0, 0)
    else if want_runp then
      let '(runp, runb) := runs_at (bi_db ip) NDADDR bn in Ok (0, Some bnp, runp, runb)
    else Ok (0, Some bnp, 0, 0)
  else if (bn <? 0) && (- NXADDR <=? bn) then
    let bnp := blkptrtodb (zget (bi_extb ip) (-1 - bn)) in
    _ ← require want_nbp "ufs_bmaparray: mapping ext data";
    Ok (0, Some (if bnp =? 0 then -1 else bnp), 0, 0)
  else Panic "ufs_bmaparray: blkno out of range".

Definition ufs_bmaparray (bn : Z) (want_nbp : bool) : result bmap_result :=
  match ufs_getlbns bn with
  | inl error => Ok (error, None, 0, 0)
  | inr [] => bmap_direct bn want_nbp
  | inr (a :: path) =>
      r ← bmap_walk path bn (zget (bi_ib ip) (in_off a));
      match r with
      | inl error => Ok (error, None, 0, 0)
      | inr (daddr, runp, runb) =>
          if snapshot && (0 <? daddr) && (daddr <? um_seqinc ump) then Ok (0, Some (-1), runp, runb)
          else
            let bnp := blkptrtodb daddr in
            if bnp =? 0 then
              Ok (0, Some (if snapshot then blkptrtodb (bn * um_seqinc ump) else -1), runp, runb)
            else Ok (0, Some bnp, runp, runb)
      end
  end.

(** [ufs_bmap]: the errno, what is stored in [*a_bnp] and the runs. The
    local [blkno] holds [stack] until [ufs_bmaparray] sets it, and is copied
    out in every case. *)
Definition ufs_bmap (want_bnp : bool) (stack bn : Z) : result bmap_result :=
  if want_bnp then
    r ← ufs_bmaparray bn false;
    let '(error, bnp, runp, runb) := r in
    Ok (error, Some (default stack bnp), runp, runb)
  else Ok (0, None, 0, 0).
End bmap.

(** ** The paths *)

Section path.
Context (ump : ufsmount) (HN : 1 < MNINDIR ump).
Abbreviation N := (MNINDIR ump).

Lemma pow_N_pos k : 0 <= k -> 0 < N ^ k.
Proof. intros Hk. apply Z.pow_pos_nonneg; lia. Qed.

(** The first block of the level with [l + 1] indirections, from 0 on. *)
Definition level_base (l : nat) : Z := zsum l (fun k => N ^ (k + 1)).

(** The blocks that the inode can address. *)
Definition max_block : Z := NDADDR + level_base 3.

Lemma getlbns_level_spec i b l :
  (i + l = 3)%nat -> level_base l <= b < level_base 3 ->
  exists m, (l <= m < 3)%nat /\
    getlbns_level ump i (b - level_base l) (N ^ Z.of_nat l) =
      Some (b - level_base m, N ^ Z.of_nat (S m), (3 - m)%nat) /\
    0 <= b - level_base m < N ^ Z.of_nat (S m).
Proof.
  revert l. induction i as [|i IH]; intros l Hil Hb; [assert (l = 3%nat) as -> by lia; lia|].
  cbn [getlbns_level].
  assert (N ^ Z.of_nat l * N = N ^ Z.of_nat (S l)) as ->
    by (rewrite Nat2Z.inj_succ, Z.pow_succ_r by lia; lia).
  assert (level_base (S l) = level_base l + N ^ Z.of_nat (S l)) as E
    by (unfold level_base; cbn [zsum]; do 2 f_equal; lia).
  zcase.
  - exists l. split; [lia|]. split; [|lia]. do 2 f_equal. lia.
  - destruct (IH (S l)) as (m & Hm & Hg & Hr); [lia | lia |].
    exists m. split; [lia|]. split; [|done]. rewrite <- Hg. f_equal. lia.
Qed.

Lemma getlbns_level_none i b l :
  (i + l = 3)%nat -> level_base 3 <= b ->
  getlbns_level ump i (b - level_base l) (N ^ Z.of_nat l) = None.
Proof.
  revert l. induction i as [|i IH]; intros l Hil Hb; cbn [getlbns_level]; [done|].
  assert (N ^ Z.of_nat l * N = N ^ Z.of_nat (S l)) as ->
    by (rewrite Nat2Z.inj_succ, Z.pow_succ_r by lia; lia).
  assert (level_base (S l) = level_base l + N ^ Z.of_nat (S l)) as E
    by (unfold level_base; cbn [zsum]; do 2 f_equal; lia).
  assert (level_base (S l) <= level_base 3).
  { assert (forall n m, (n <= m)%nat -> level_base n <= level_base m) as Hmono.
    { intros n m. induction 1; [done|]. unfold level_base in *. cbn [zsum].
      pose proof (pow_N_pos (Z.of_nat m + 1)). lia. }
    apply Hmono. lia. }
  ztest. replace (b - level_base l - N ^ Z.of_nat (S l)) with (b - level_base (S l)) by lia.
  apply IH; lia.
Qed.

(** The indirect block with [k] levels below it, over the blocks from
    [first] on, has the address of the documentation. *)
Definition meta_lbn (first : Z) (k : nat) : Z := - (first + Z.of_nat k).

(** The path below that block to the [rel]-th block under it. *)
Fixpoint path_to (k : nat) (first rel : Z) : list indir :=
  match k with
  | O => []
  | S k' =>
      let off := (rel / N ^ Z.of_nat k') mod N in
      MkIndir (meta_lbn first k') off :: path_to k' (first + off * N ^ Z.of_nat k') rel
  end.

Lemma path_to_S k first rel :
  path_to (S k) first rel =
    MkIndir (meta_lbn first k) ((rel / N ^ Z.of_nat k) mod N) ::
      path_to k (first + (rel / N ^ Z.of_nat k) mod N * N ^ Z.of_nat k) rel.
Proof. done. Qed.

Lemma getlbns_path_data k realbn bn first :
  0 <= realbn -> 0 < first ->
  getlbns_path ump k realbn bn (meta_lbn first (pred k)) (N ^ Z.of_nat k) = path_to k first bn.
Proof.
  intros Hr. revert first. induction k as [|k IH]; intros first Hf; cbn [getlbns_path path_to]; [done|].
  cbn [pred]. assert (meta_lbn first k <> realbn) by (unfold meta_lbn; lia). ztest.
  assert (N ^ Z.of_nat (S k) / N = N ^ Z.of_nat k) as ->.
  { rewrite Nat2Z.inj_succ, Z.pow_succ_r, Z.mul_comm, Z.div_mul by lia. done. }
  f_equal. pose proof (Z.mod_pos_bound (bn / N ^ Z.of_nat k) N ltac:(lia)).
  pose proof (pow_N_pos (Z.of_nat k)).
  rewrite <- IH by nia. destruct k as [|k]; [done|]. f_equal. unfold meta_lbn. cbn [pred]. lia.
Qed.

(** The first block under the indirect block with [k] levels below it that
    leads to the [rel]-th block from [base] on. *)
Definition under (base rel : Z) (k : nat) : Z :=
  base + rel / N ^ Z.of_nat (S k) * N ^ Z.of_nat (S k).

Lemma pow_N_succ k : N ^ Z.of_nat (S k) = N * N ^ Z.of_nat k.
Proof. rewrite Nat2Z.inj_succ, Z.pow_succ_r by lia. done. Qed.

Lemma under_step base rel k :
  under base rel (S k) + (rel / N ^ Z.of_nat (S k)) mod N * N ^ Z.of_nat (S k) = under base rel k.
Proof.
  unfold under. pose proof (pow_N_pos (Z.of_nat (S k))).
  rewrite (pow_N_succ (S k)), (Z.mul_comm N), <- Z.div_div by lia.
  pose proof (Z.div_mod (rel / N ^ Z.of_nat (S k)) N). nia.
Qed.

Lemma under_top base rel k : 0 <= rel < N ^ Z.of_nat (S k) -> under base rel k = base.
Proof. intros H. unfold under. rewrite Z.div_small by done. lia. Qed.

(** The elements of a path, from the top. *)
Lemma path_to_lookup j base rel i :
  (i <= j)%nat ->
  path_to (S j) (under base rel j) rel !! i =
    Some (MkIndir (meta_lbn (under base rel (j - i)) (j - i)) ((rel / N ^ Z.of_nat (j - i)) mod N)).
Proof.
  revert j. induction i as [|i IH]; intros j Hi; cbn [path_to lookup list_lookup].
  - by rewrite Nat.sub_0_r.
  - destruct j as [|j]; [lia|]. rewrite under_step. exact (IH j ltac:(lia)).
Qed.

Lemma path_to_length j first rel : length (path_to j first rel) = j.
Proof. revert first. induction j; intros; cbn [path_to length]; congruence. Qed.

(** The offsets are the digits of [rel]. *)
Lemma path_to_digits j first rel acc :
  0 <= rel ->
  foldl (fun x a => x * N + in_off a) acc (path_to j first rel) =
    acc * N ^ Z.of_nat j + rel mod N ^ Z.of_nat j.
Proof.
  intros Hr. revert first acc. induction j as [|j IH]; intros; cbn [path_to foldl in_off].
  - change (N ^ Z.of_nat 0) with 1. rewrite Z.mod_1_r. lia.
  - rewrite IH, pow_N_succ, (Z.mul_comm N). pose proof (pow_N_pos (Z.of_nat j)).
    rewrite Z.rem_mul_r by lia. lia.
Qed.

(** The path to an indirect block is the start of the path to the blocks
    below it. *)
Lemma getlbns_path_meta d k base rel n :
  2 < N -> (d + k < 3)%nat -> 0 <= rel -> 0 < base -> (d < n)%nat ->
  getlbns_path ump n (meta_lbn (under base rel k) k)
      (rel / N ^ Z.of_nat (S k) * N ^ Z.of_nat (S k) + Z.of_nat k)
      (meta_lbn (under base rel (d + k)) (d + k)) (N ^ Z.of_nat (S (d + k))) =
    take d (path_to (S (d + k)) (under base rel (d + k)) rel).
Proof.
  intros HN2 Hdk Hr Hb. revert n. induction d as [|d IH]; intros n Hn;
    (destruct n as [|n]; [lia|]); cbn [getlbns_path take].
  - by rewrite Z.eqb_refl.
  - rewrite path_to_S. cbn [Nat.add take].
    rewrite (pow_N_succ (S (d + k))), (Z.mul_comm N (N ^ Z.of_nat (S (d + k)))), Z.div_mul by lia.
    pose proof (pow_N_pos (Z.of_nat k)). pose proof (pow_N_pos (Z.of_nat d)).
    pose proof (pow_N_pos (Z.of_nat (S k))). pose proof (pow_N_pos (Z.of_nat (S (d + k)))).
    assert (N ^ Z.of_nat (S (d + k)) = N ^ Z.of_nat d * N ^ Z.of_nat (S k)) as Ep
      by (rewrite <- Z.pow_add_r by lia; f_equal; lia).
    assert (Z.of_nat k < N ^ Z.of_nat (S k)) as Hk by (rewrite pow_N_succ; nia).
    assert ((rel / N ^ Z.of_nat (S k) * N ^ Z.of_nat (S k) + Z.of_nat k) / N ^ Z.of_nat (S (d + k))
      = rel / N ^ Z.of_nat (S (d + k))) as Eq.
    { rewrite Ep, (Z.mul_comm (N ^ Z.of_nat d)), <- !Z.div_div by lia. f_equal.
      rewrite Z.div_add_l, (Z.div_small (Z.of_nat k)) by lia. lia. }
    rewrite Eq, under_step.
    assert (meta_lbn (under base rel (S (d + k))) (S (d + k)) <> meta_lbn (under base rel k) k) as Hne.
    { unfold meta_lbn, under. rewrite (pow_N_succ (S (d + k))), Ep.
      intros Heq. assert ((Z.of_nat (S d)) mod N ^ Z.of_nat (S k) = 0) as Hz.
      { replace (Z.of_nat (S d)) with ((rel / N ^ Z.of_nat (S k) -
          rel / (N * (N ^ Z.of_nat d * N ^ Z.of_nat (S k))) * (N * N ^ Z.of_nat d)) *
          N ^ Z.of_nat (S k)) by lia. apply Z.mod_mul. lia. }
      rewrite Z.mod_small in Hz; [lia|]. rewrite pow_N_succ. nia. }
    ztest. f_equal. etrans; [|exact (IH ltac:(lia) n ltac:(lia))]. f_equal.
    unfold meta_lbn. pose proof (under_step base rel (d + k)). lia.
Qed.

(** The path to a data block past the direct ones. *)
Lemma getlbns_data bn :
  NDADDR <= bn < max_block ->
  exists l rel, (l < 3)%nat /\ rel = bn - NDADDR - level_base l /\ 0 <= rel < N ^ Z.of_nat (S l) /\
    ufs_getlbns ump bn =
      inr (MkIndir (meta_lbn (bn - rel) l) (Z.of_nat l) :: path_to (S l) (bn - rel) rel).
Proof.
  unfold max_block, NDADDR. intros Hbn. unfold ufs_getlbns, NDADDR. ztest.
  destruct (getlbns_level_spec 3 (bn - 12) 0 eq_refl) as (l & Hl & E & Hrel); [cbn; cbn in Hbn; lia|].
  change (Z.to_nat NIADDR) with 3%nat. change (N ^ Z.of_nat 0) with 1 in E.
  change (level_base 0) with 0 in E. rewrite Z.sub_0_r in E. rewrite E.
  exists l, (bn - 12 - level_base l). split; [lia|]. split; [done|]. split; [done|].
  assert (NIADDR - Z.of_nat (3 - l) = Z.of_nat l) as -> by (unfold NIADDR; lia).
  replace (Z.to_nat (Z.of_nat l + 1)) with (S l) by lia.
  set (rel := bn - 12 - level_base l) in *.
  assert (0 <= level_base l) by (apply zsum_nonneg; intros; apply Z.pow_nonneg; lia).
  change (- (bn - rel + Z.of_nat l)) with (meta_lbn (bn - rel) (pred (S l))).
  rewrite getlbns_path_data by lia. done.
Qed.

Lemma getlbns_toobig bn : max_block <= bn -> ufs_getlbns ump bn = inl EFBIG.
Proof.
  unfold max_block. intros Hbn.
  assert (0 <= level_base 3) by (apply zsum_nonneg; intros; apply Z.pow_nonneg; lia).
  unfold ufs_getlbns, NDADDR in *. ztest. change (Z.to_nat NIADDR) with 3%nat.
  pose proof (getlbns_level_none 3 (bn - 12) 0 eq_refl ltac:(lia)) as E.
  change (level_base 0) with 0 in E. rewrite Z.sub_0_r in E. change (N ^ Z.of_nat 0) with 1 in E.
  by rewrite E.
Qed.
Lemma level_base_le n m : (n <= m)%nat -> level_base n <= level_base m.
Proof.
  induction 1 as [|m ? IH]; [done|]. unfold level_base in *. cbn [zsum].
  pose proof (pow_N_pos (Z.of_nat m + 1)). lia.
Qed.

Lemma level_base_S l : level_base (S l) = level_base l + N ^ Z.of_nat (S l).
Proof. unfold level_base. cbn [zsum]. do 2 f_equal. lia. Qed.

(** The level that [getlbns_level] finds. *)
Lemma getlbns_level_at l rel :
  (l < 3)%nat -> 0 <= rel < N ^ Z.of_nat (S l) ->
  getlbns_level ump 3 (level_base l + rel) 1 = Some (rel, N ^ Z.of_nat (S l), (3 - l)%nat).
Proof.
  intros Hl Hr. pose proof (level_base_S l). pose proof (level_base_le (S l) 3 ltac:(lia)).
  pose proof (level_base_le 0 l ltac:(lia)) as HB0. change (level_base 0) with 0 in HB0.
  destruct (getlbns_level_spec 3 (level_base l + rel) 0 eq_refl) as (m & Hm & E & Hrel);
    [change (level_base 0) with 0; lia|].
  change (N ^ Z.of_nat 0) with 1 in E. change (level_base 0) with 0 in E. rewrite Z.sub_0_r in E.
  assert (m = l) as ->; [|rewrite E; do 3 f_equal; lia].
  pose proof (level_base_S m).
  destruct (Nat.lt_trichotomy m l) as [H'|[H'|H']]; [|done|].
  - pose proof (level_base_le (S m) l H'). lia.
  - pose proof (level_base_le (S l) m H'). lia.
Qed.

(** An indirect block on the path to a block is found by the start of that
    path. *)
Lemma getlbns_meta bn p i a :
  2 < N -> NDADDR <= bn < max_block -> ufs_getlbns ump bn = inr p ->
  (1 <= i)%nat -> p !! i = Some a -> ufs_getlbns ump (in_lbn a) = inr (take i p).
Proof.
  intros HN2 Hbn Hp Hi Ha.
  destruct (getlbns_data bn Hbn) as (l & rel & Hl & Erel & Hrel & E).
  match type of E with _ = inr ?q => assert (p = q) as -> by congruence end. clear E Hp.
  pose proof (level_base_le 0 l ltac:(lia)) as HB0. change (level_base 0) with 0 in HB0.
  set (base := bn - rel) in *. assert (base = NDADDR + level_base l) as Eb by lia.
  assert (0 < base) as Hb by (unfold NDADDR in *; lia).
  destruct i as [|i]; [lia|].
  match type of Ha with (_ :: ?q) !! _ = _ => change (q !! i = Some a) in Ha end.
  assert (i <= l)%nat as Hil.
  { apply lookup_lt_Some in Ha. rewrite path_to_length in Ha. lia. }
  pose proof (under_top base rel l Hrel) as Eu. rewrite <- Eu in Ha.
  rewrite path_to_lookup in Ha by done. injection Ha as <-. cbn [in_lbn].
  set (k := (l - i)%nat) in *. assert (l = (i + k)%nat) as El by lia.
  pose proof (pow_N_pos (Z.of_nat k)). pose proof (pow_N_pos (Z.of_nat (S k))).
  pose proof (pow_N_pos (Z.of_nat i)).
  assert (Z.of_nat k < N ^ Z.of_nat (S k)) as Hk by (rewrite pow_N_succ; nia).
  set (rel' := rel / N ^ Z.of_nat (S k) * N ^ Z.of_nat (S k) + Z.of_nat k).
  assert (0 <= rel' < N ^ Z.of_nat (S l)) as Hrel'.
  { assert (N ^ Z.of_nat (S l) = N ^ Z.of_nat (S k) * N ^ Z.of_nat i) as Ep
      by (rewrite <- Z.pow_add_r by lia; f_equal; lia).
    rewrite Ep in *. pose proof (Z.div_pos rel (N ^ Z.of_nat (S k)) ltac:(lia) ltac:(lia)).
    pose proof (Z.div_lt_upper_bound rel (N ^ Z.of_nat (S k)) (N ^ Z.of_nat i) ltac:(lia) ltac:(lia)).
    unfold rel'. nia. }
  assert (- meta_lbn (under base rel k) k = base + rel') as Em
    by (unfold meta_lbn, under, rel'; lia).
  unfold ufs_getlbns. set (realbn := meta_lbn (under base rel k) k) in *.
  assert (realbn < 0) by lia. ztest.
  replace (- realbn <? NDADDR) with false by (symmetry; apply Z.ltb_ge; lia).
  replace (- realbn - NDADDR) with (level_base l + rel') by lia.
  change (Z.to_nat NIADDR) with 3%nat. rewrite (getlbns_level_at l rel' Hl Hrel').
  replace (NIADDR - Z.of_nat (3 - l)) with (Z.of_nat l) by (unfold NIADDR; lia).
  replace (Z.to_nat (Z.of_nat l + 1)) with (S l) by lia.
  replace (- (- realbn - rel' + Z.of_nat l)) with (meta_lbn base l)
    by (unfold meta_lbn; lia).
  cbn [take]. do 2 f_equal. rewrite <- Eu at 1 2. subst realbn rel'. rewrite El at 1 2 3 4 5.
  rewrite (getlbns_path_meta i k base rel) by lia. by rewrite <- El.
Qed.
End path.

(** ** Runs *)

Section runs.
Context (ump : ufsmount).

(** [n] addresses from [i] on, each [um_seqinc] after the one before. *)
Definition sequential (g : Z -> Z) (i n : Z) : Prop :=
  forall j, 0 <= j < n -> g (i + j + 1) = g (i + j) + um_seqinc ump.

Lemma run_after_spec l limit from maxrun :
  0 <= from < limit ->
  let r := run_after ump l limit from maxrun in
  0 <= r /\ from + r < limit /\ (r <= maxrun \/ r = 0) /\
  sequential (fun i => zget l i) from r /\
  (r < maxrun -> from + r + 1 < limit ->
     zget l (from + r + 1) <> zget l (from + r) + um_seqinc ump).
Proof.
  intros Hf. unfold run_after.
  match goal with |- context [search ?n ?i ?p] => destruct (search_spec n i p) as (H1 & H2 & H3);
    set (e := search n i p) in * end.
  cbv zeta. split_and!; try lia.
  - intros j Hj. specialize (H2 (from + j + 1) ltac:(lia)). bool_to_prop. unfold is_sequential in H2.
    bool_to_prop. rewrite H2. do 2 f_equal. lia.
  - intros Hr Hl. specialize (H3 ltac:(lia)). bool_to_prop. unfold is_sequential in H3. bool_to_prop.
    replace (from + (e - (from + 1)) + 1) with e by lia.
    replace (from + (e - (from + 1))) with (e - 1) by lia. done.
Qed.

Lemma run_before_spec l from maxrun :
  0 <= from ->
  let r := run_before ump l from maxrun in
  0 <= r <= from /\ (r <= maxrun \/ r = 0) /\
  sequential (fun i => zget l i) (from - r) r /\
  (r < maxrun -> r < from -> zget l (from - r) <> zget l (from - r - 1) + um_seqinc ump).
Proof.
  intros Hf. unfold run_before.
  match goal with |- context [search_down ?n ?i ?p] =>
    destruct (search_down_spec n i p) as (H1 & H2 & H3); set (e := search_down n i p) in * end.
  cbv zeta. split_and!; try lia.
  - intros j Hj. specialize (H2 (e + 1 + j) ltac:(lia)). bool_to_prop. unfold is_sequential in H2.
    bool_to_prop. replace (from - (from - 1 - e) + j) with (e + 1 + j) by lia. done.
  - intros Hr Hl. specialize (H3 ltac:(lia)). bool_to_prop. unfold is_sequential in H3. bool_to_prop.
    replace (from - (from - 1 - e)) with (e + 1) by lia.
    replace (e + 1 - 1) with e by lia. done.
Qed.
End runs.

(** ** The file as a map *)

Section file.
Context (ump : ufsmount) (HN : 1 < MNINDIR ump).
Context (incore : Z -> bool) (getblk : Z -> option (list Z))
  (bread : Z -> Z + list Z) (ip : bmap_inode).
Abbreviation N := (MNINDIR ump).

(** [F] gives the address of each block of the file, 0 for a hole. The
    address [daddr] with [k] levels of indirection stands for the blocks of
    [F] from [first] on: it is a hole, or its indirect block can be read. *)
Fixpoint represents (F : Z -> Z) (k : nat) (daddr first : Z) : Prop :=
  match k with
  | O => F first = daddr
  | S k' =>
      if (daddr =? 0) && negb (incore (meta_lbn first k'))
      then forall j, 0 <= j < N ^ Z.of_nat k -> F (first + j) = 0
      else exists l, bmap_fetch ump getblk bread (meta_lbn first k') daddr = Ok (inr l) /\
        forall j, 0 <= j < N -> represents F k' (zget l j) (first + j * N ^ Z.of_nat k')
  end.

(** The inode and its indirect blocks hold the map [F]. *)
Record file_map (F : Z -> Z) : Prop := {
  fm_db : forall b, 0 <= b < NDADDR -> F b = zget (bi_db ip) b;
  fm_ib : forall l, (l < 3)%nat ->
    represents F (S l) (zget (bi_ib ip) (Z.of_nat l)) (NDADDR + level_base ump l)
}.

Context (F : Z -> Z) (want_runp want_runb : bool).

(** What the caller learns about the neighbours of block [bn]. *)
Definition runs_ok (bn runp runb : Z) : Prop :=
  0 <= runp /\ 0 <= runb <= bn /\
  (runp <= maxrun ump want_runp \/ runp = 0) /\ (runb <= maxrun ump want_runp \/ runb = 0) /\
  sequential ump F bn runp /\ sequential ump F (bn - runb) runb.

Lemma runs_ok_0 bn : 0 <= bn -> runs_ok bn 0 0.
Proof. intros Hb. split_and!; try lia; auto; intros j Hj; lia. Qed.

Lemma runs_at_ok l limit off first :
  0 <= off < limit -> 0 <= first -> (forall j, 0 <= j < limit -> F (first + j) = zget l j) ->
  let '(runp, runb) := runs_at ump want_runp want_runb l limit off in
  runs_ok (first + off) runp runb.
Proof.
  intros Ho Hf HF. unfold runs_at.
  destruct (run_after_spec ump l limit off (maxrun ump want_runp) Ho) as (A1 & A2 & A3 & A4 & _).
  set (ra := run_after _ _ _ _ _) in *.
  destruct (run_before_spec ump l off (maxrun ump want_runp) ltac:(lia)) as (B1 & B2 & B3 & _).
  set (rb := run_before _ _ _ _) in *.
  assert (sequential ump F (first + off) ra) as S1.
  { intros j Hj. specialize (A4 j Hj). cbv beta in A4. rewrite <- !HF in A4 by lia.
    replace (first + off + j + 1) with (first + (off + j + 1)) by lia.
    by replace (first + off + j) with (first + (off + j)) by lia. }
  assert (sequential ump F (first + off - rb) rb) as S2.
  { intros j Hj. specialize (B3 j Hj). cbv beta in B3. rewrite <- !HF in B3 by lia.
    replace (first + off - rb + j + 1) with (first + (off - rb + j + 1)) by lia.
    by replace (first + off - rb + j) with (first + (off - rb + j)) by lia. }
  destruct (want_runb && (0 <? off)).
  - split_and!; try done; lia.
  - split_and!; try done; try lia; auto. intros j Hj. lia.
Qed.

(** The walk finds the address of the block, as the offsets say. *)
Lemma bmap_walk_correct k bn daddr first rel :
  represents F (S k) daddr first -> 0 < first -> 0 <= rel ->
  bn = first + rel mod N ^ Z.of_nat (S k) ->
  exists d runp runb,
    bmap_walk ump incore getblk bread want_runp want_runb (path_to ump (S k) first rel) bn daddr
      = Ok (inr (d, runp, runb)) /\ d = F bn /\ runs_ok bn runp runb.
Proof.
  revert daddr first. induction k as [|k IH]; intros daddr first Hrep Hf Hrel Hbn.
  - change (N ^ Z.of_nat 1) with (N ^ 1) in Hbn. rewrite Z.pow_1_r in Hbn.
    cbn [represents] in Hrep. cbn [path_to bmap_walk in_lbn in_off].
    change (N ^ Z.of_nat 0) with 1 in *. rewrite Z.div_1_r.
    pose proof (Z.mod_pos_bound rel N ltac:(lia)) as Hoff.
    assert ((meta_lbn first 0 =? bn) = false) as -> by (unfold meta_lbn; ztest; done).
    rewrite orb_false_r.
    destruct ((daddr =? 0) && negb (incore (meta_lbn first 0))) eqn:Eh.
    + bool_to_prop. exists daddr, 0, 0. split; [done|]. split; [|apply runs_ok_0; lia].
      subst daddr. rewrite Hbn, Hrep; [done|]. change (N ^ Z.of_nat 1) with (N ^ 1). rewrite Z.pow_1_r. exact Hoff.
    + destruct Hrep as (l & -> & Hl). rewrite bind_Ok.
      assert (forall j, 0 <= j < N -> F (first + j) = zget l j) as HF.
      { intros j Hj. specialize (Hl j Hj). by rewrite Z.mul_1_r in Hl. }
      destruct (negb (zget l (rel mod N) =? 0) && want_runp).
      * pose proof (runs_at_ok l N (rel mod N) first Hoff ltac:(lia) HF) as R.
        destruct (runs_at _ _ _ l N (rel mod N)) as [runp runb].
        eexists _, _, _. split; [reflexivity|]. rewrite Hbn, HF by done. done.
      * eexists _, _, _. split; [reflexivity|]. rewrite Hbn, HF by done.
        split; [done | apply runs_ok_0; lia].
  - pose proof (pow_N_pos ump HN (Z.of_nat (S k)) ltac:(lia)) as Hpk.
    set (off := (rel / N ^ Z.of_nat (S k)) mod N).
    pose proof (Z.mod_pos_bound (rel / N ^ Z.of_nat (S k)) N ltac:(lia)) as Hoff. fold off in Hoff.
    assert (rel mod N ^ Z.of_nat (S (S k)) = rel mod N ^ Z.of_nat (S k) + N ^ Z.of_nat (S k) * off) as Er.
    { unfold off. rewrite (Nat2Z.inj_succ (S k)), Z.pow_succ_r, Z.mul_comm by lia.
      apply Z.rem_mul_r; lia. }
    pose proof (Z.mod_pos_bound rel (N ^ Z.of_nat (S (S k))) (pow_N_pos ump HN (Z.of_nat (S (S k))) ltac:(lia))) as Hm.
    change (path_to ump (S (S k)) first rel) with
      (MkIndir (meta_lbn first (S k)) off :: path_to ump (S k) (first + off * N ^ Z.of_nat (S k)) rel).
    change (represents F (S (S k)) daddr first) with
      (if (daddr =? 0) && negb (incore (meta_lbn first (S k)))
       then forall j, 0 <= j < N ^ Z.of_nat (S (S k)) -> F (first + j) = 0
       else exists l, bmap_fetch ump getblk bread (meta_lbn first (S k)) daddr = Ok (inr l) /\
         forall j, 0 <= j < N -> represents F (S k) (zget l j) (first + j * N ^ Z.of_nat (S k))) in Hrep.
    remember (path_to ump (S k) (first + off * N ^ Z.of_nat (S k)) rel) as rest eqn:Erest.
    cbn [bmap_walk in_lbn in_off].
    assert ((meta_lbn first (S k) =? bn) = false) as -> by (unfold meta_lbn; ztest; done).
    rewrite orb_false_r.
    destruct ((daddr =? 0) && negb (incore (meta_lbn first (S k)))) eqn:Eh.
    + bool_to_prop. exists daddr, 0, 0. split; [done|]. split; [|apply runs_ok_0; lia].
      subst daddr. by rewrite Hbn, Hrep.
    + destruct Hrep as (l & -> & Hl). rewrite bind_Ok. specialize (Hl off Hoff).
      destruct (IH _ _ Hl ltac:(nia) Hrel ltac:(lia)) as (d & runp & runb & E & H).
      exists d, runp, runb. split; [|done]. rewrite <- Erest in E.
      destruct rest; [discriminate Erest | done].
Qed.

(** [ufs_bmaparray] is [F], and the runs it reports are runs of [F]. *)
Lemma bmaparray_correct bn want_nbp :
  file_map F -> 0 <= bn < max_block ump -> Z.land (bi_flags ip) SF_SNAPSHOT = 0 ->
  0 <= um_bptrtodb ump ->
  exists runp runb,
    ufs_bmaparray ump incore getblk bread ip want_runp want_runb bn want_nbp =
      Ok (0, Some (if F bn =? 0 then -1 else blkptrtodb ump (F bn)), runp, runb) /\
    runs_ok bn runp runb.
Proof.
  intros [Fd Fi] Hbn Hsnap Hsh. unfold ufs_bmaparray.
  assert (snapshot ip = false) as Es by (unfold snapshot; by rewrite Hsnap).
  assert (forall d, (blkptrtodb ump d =? 0) = (d =? 0)) as Hz.
  { intros d. unfold blkptrtodb. rewrite Z.shiftl_mul_pow2 by done.
    pose proof (Z.pow_pos_nonneg 2 (um_bptrtodb ump) ltac:(lia) Hsh).
    destruct (Z.eqb_spec (d * 2 ^ um_bptrtodb ump) 0), (Z.eqb_spec d 0); nia. }
  destruct (Z.lt_ge_cases bn NDADDR) as [Hd|Hd].
  - unfold ufs_getlbns. ztest. unfold bmap_direct. rewrite Es. ztest. cbn [andb].
    rewrite Hz, <- Fd by lia. zcase.
    + exists 0, 0. split; [done | apply runs_ok_0; lia].
    + pose proof (runs_at_ok (bi_db ip) NDADDR bn 0 ltac:(lia) ltac:(lia)
        ltac:(intros; apply Fd; lia)) as R.
      destruct (runs_at _ _ _ _ _ _) as [runp runb].
      by destruct want_runp; [exists runp, runb | exists 0, 0; split; [|apply runs_ok_0; lia]].
  - destruct (getlbns_data ump HN bn ltac:(lia)) as (l & rel & Hl & Erel & Hrel & ->).
    cbn [in_off]. specialize (Fi l Hl).
    assert (NDADDR + level_base ump l = bn - rel) as Ef by lia. rewrite Ef in Fi.
    assert (0 <= level_base ump l) by (apply zsum_nonneg; intros; apply Z.pow_nonneg; lia).
    destruct (bmap_walk_correct l bn _ (bn - rel) rel Fi) as (d & runp & runb & -> & -> & R);
      [unfold NDADDR in *; lia | lia | rewrite Z.mod_small by lia; lia |].
    rewrite bind_Ok, Es. cbn [andb]. rewrite Hz. exists runp, runb. split; [|done]. by zcase.
Qed.
End file.
