(* ===== verification/UfsBmapProps.v ===== *)
(** What is proved of the file block mapping: the paths of [ufs_getlbns], and
    that [ufs_bmaparray] is the map of the file. *)

From S2P Require Import Prelude Fs UfsBmap.

(** ** A small file

    Four addresses to an indirect block, and runs of at most three blocks. The
    single indirect block is at 1000, the double one at 2000, and under it one
    indirect block at 3000 with its data scattered; the rest is a hole. *)

Definition ump_ex : ufsmount := MkUmp 4 3 8 131072 32768.

Definition bread_ex (blkno : Z) : Z + list Z :=
  if blkno =? Z.shiftl 1000 3 then inr [200; 208; 216; 0]
  else if blkno =? Z.shiftl 2000 3 then inr [3000; 0; 0; 0]
  else if blkno =? Z.shiftl 3000 3 then inr [400; 416; 424; 0]
  else inl 5.

Definition ip_ex : bmap_inode :=
  MkBmapInode [8; 16; 24; 40; 48; 0; 56; 64; 72; 80; 96; 104] [1000; 2000; 0] [0; 0] 0.

Definition F_ex (b : Z) : Z :=
  if b <? 12 then zget (bi_db ip_ex) b
  else if b <? 16 then zget [200; 208; 216; 0] (b - 12)
  else if b <? 20 then zget [400; 416; 424; 0] (b - 16)
  else 0.

Abbreviation nocore := (fun _ : Z => false).
Abbreviation nobuf := (fun _ : Z => @None (list Z)).

Ltac hole_block :=
  match goal with
  | H : forall j, 20 <= j -> F_ex j = 0 |- F_ex (?b + ?i) = 0 =>
      let v := eval vm_compute in b in change (F_ex (v + i) = 0); apply H; lia
  end.

Lemma file_map_ex : file_map ump_ex nocore nobuf bread_ex ip_ex F_ex.
Proof.
  assert (forall j, 20 <= j -> F_ex j = 0) as Hole by (intros j Hj; unfold F_ex; ztest; done).
  assert (forall j, 0 <= j < 4 -> j = 0 \/ j = 1 \/ j = 2 \/ j = 3) as J by lia.
  split.
  - intros b Hb. unfold NDADDR, F_ex in *. by ztest.
  - intros [|[|[|l]]] Hl; [| | |lia].
    + cbn. exists [200; 208; 216; 0]. split; [done|].
      intros j Hj. by destruct (J j Hj) as [-> | [-> | [-> | ->]]].
    + cbn. exists [3000; 0; 0; 0]. split; [done|]. intros j Hj.
      destruct (J j Hj) as [-> | [-> | [-> | ->]]]; cbn.
      * exists [400; 416; 424; 0]. split; [done|].
        intros i Hi. by destruct (J i Hi) as [-> | [-> | [-> | ->]]].
      * intros i Hi. by hole_block.
      * intros i Hi. by hole_block.
      * intros i Hi. by hole_block.
    + cbn. intros i Hi. by hole_block.
Qed.

(** ** The mapping *)

(** C16: [ufs_bmaparray] is the map of the file. Where the inode and its
    indirect blocks hold the map [F] of a file that is no snapshot, it returns
    no error for any block that the inode can address; the address it returns
    is that of the block in disk blocks, -1 for a hole. The lengths it reports
    are those of runs of contiguous blocks of the file around the block, and
    are within what one transfer can hold. *)
Theorem ufs_bmaparray_correct ump incore getblk bread ip F want_runp want_runb bn want_nbp :
  1 < MNINDIR ump -> 0 <= um_bptrtodb ump -> Z.land (bi_flags ip) SF_SNAPSHOT = 0 ->
  file_map ump incore getblk bread ip F -> 0 <= bn < max_block ump ->
  exists runp runb,
    ufs_bmaparray ump incore getblk bread ip want_runp want_runb bn want_nbp =
      Ok (0, Some (if F bn =? 0 then -1 else blkptrtodb ump (F bn)), runp, runb) /\
    0 <= runp /\ 0 <= runb <= bn /\
    (runp <= maxrun ump want_runp \/ runp = 0) /\ (runb <= maxrun ump want_runp \/ runb = 0) /\
    (forall j, - runb <= j < runp -> F (bn + j + 1) = F (bn + j) + um_seqinc ump).
Proof.
  intros HN Hsh Hs HF Hbn.
  destruct (bmaparray_correct ump HN incore getblk bread ip F want_runp want_runb bn want_nbp
    HF Hbn Hs Hsh) as (runp & runb & E & R1 & R2 & R3 & R4 & R5 & R6).
  exists runp, runb. split; [done|]. split_and!; try done; try lia.
  intros j Hj. destruct (Z.lt_ge_cases j 0).
  - specialize (R6 (j + runb) ltac:(lia)).
    replace (bn - runb + (j + runb)) with (bn + j) in R6 by lia. done.
  - exact (R5 j ltac:(lia)).
Qed.

Lemma ufs_bmaparray_correct_witness :
  0 <= 17 < max_block ump_ex /\
  exists runp runb,
    ufs_bmaparray ump_ex nocore nobuf bread_ex ip_ex true true 17 false =
      Ok (0, Some (if F_ex 17 =? 0 then -1 else blkptrtodb ump_ex (F_ex 17)), runp, runb) /\
    0 <= runp /\ 0 <= runb <= 17 /\
    (runp <= maxrun ump_ex true \/ runp = 0) /\ (runb <= maxrun ump_ex true \/ runb = 0) /\
    (forall j, - runb <= j < runp -> F_ex (17 + j + 1) = F_ex (17 + j) + um_seqinc ump_ex).
Proof.
  assert (0 <= 17 < max_block ump_ex) as H by (vm_compute; split; congruence).
  split; [exact H|].
  exact (ufs_bmaparray_correct ump_ex nocore nobuf bread_ex ip_ex F_ex true true 17 false
    eq_refl ltac:(discriminate) eq_refl file_map_ex H).
Defined.

Example bmap_17 :
  ufs_bmaparray ump_ex nocore nobuf bread_ex ip_ex true true 17 false = Ok (0, Some 3328, 1, 0).
Proof. reflexivity. Qed.

(** ** The paths *)

(** The path of [ufs_getlbns] to a data block past the direct ones. Its
    first element is the slot of the inode, its offsets are the digits of the
    block number within its level, most significant first, and the address of
    each indirect block is minus the first data block under it, less one for
    each level of indirect blocks between. *)
Theorem ufs_getlbns_path ump bn :
  1 < MNINDIR ump -> NDADDR <= bn < max_block ump ->
  exists l rel p,
    (l < 3)%nat /\ bn = NDADDR + level_base ump l + rel /\
    0 <= rel < MNINDIR ump ^ Z.of_nat (S l) /\
    ufs_getlbns ump bn =
      inr (MkIndir (- (NDADDR + level_base ump l) - Z.of_nat l) (Z.of_nat l) :: p) /\
    foldl (fun x a => x * MNINDIR ump + in_off a) 0 p = rel /\
    length p = S l /\
    (forall k a, (k <= l)%nat -> p !! (l - k)%nat = Some a ->
       in_lbn a = - (bn - rel mod MNINDIR ump ^ Z.of_nat (S k)) - Z.of_nat k /\
       0 <= in_off a < MNINDIR ump).
Proof.
  intros HN Hbn. destruct (getlbns_data ump HN bn Hbn) as (l & rel & Hl & Erel & Hrel & E).
  exists l, rel, (path_to ump (S l) (bn - rel) rel). split; [done|]. split; [lia|]. split; [done|].
  split; [rewrite E; unfold meta_lbn; repeat f_equal; lia|].
  split; [rewrite path_to_digits, Z.mod_small by lia; lia|].
  split; [apply path_to_length|].
  intros k a Hk Ha. rewrite <- (under_top ump (bn - rel) rel l Hrel) in Ha.
  rewrite path_to_lookup in Ha by lia. injection Ha as <-. cbn [in_lbn in_off].
  replace (l - (l - k))%nat with k by lia. split; [|apply Z.mod_pos_bound; lia].
  unfold meta_lbn, under. pose proof (pow_N_pos ump HN (Z.of_nat (S k))).
  pose proof (Z.div_mod rel (MNINDIR ump ^ Z.of_nat (S k))). lia.
Qed.

Lemma ufs_getlbns_path_witness :
  NDADDR <= 17 < max_block ump_ex /\
  exists l rel p,
    (l < 3)%nat /\ 17 = NDADDR + level_base ump_ex l + rel /\
    0 <= rel < MNINDIR ump_ex ^ Z.of_nat (S l) /\
    ufs_getlbns ump_ex 17 =
      inr (MkIndir (- (NDADDR + level_base ump_ex l) - Z.of_nat l) (Z.of_nat l) :: p) /\
    foldl (fun x a => x * MNINDIR ump_ex + in_off a) 0 p = rel /\
    length p = S l /\
    (forall k a, (k <= l)%nat -> p !! (l - k)%nat = Some a ->
       in_lbn a = - (17 - rel mod MNINDIR ump_ex ^ Z.of_nat (S k)) - Z.of_nat k /\
       0 <= in_off a < MNINDIR ump_ex).
Proof.
  assert (NDADDR <= 17 < max_block ump_ex) as H by (vm_compute; split; congruence).
  split; [exact H|]. exact (ufs_getlbns_path ump_ex 17 eq_refl H).
Defined.

(** The paths are those of one tree: the path to an indirect block, asked
    for by its negative address, is the part of the path to any data block
    below it that comes before it. *)
Theorem ufs_getlbns_indirect ump bn p i a :
  2 < MNINDIR ump -> NDADDR <= bn < max_block ump ->
  ufs_getlbns ump bn = inr p -> (1 <= i)%nat -> p !! i = Some a ->
  ufs_getlbns ump (in_lbn a) = inr (take i p).
Proof. intros HN. apply getlbns_meta; lia. Qed.

Lemma ufs_getlbns_indirect_witness :
  NDADDR <= 40 < max_block ump_ex /\
  ufs_getlbns ump_ex (-34) = inr [MkIndir (-34) 2] /\
  ufs_getlbns ump_ex (-33) = inr [MkIndir (-34) 2; MkIndir (-34) 0].
Proof.
  assert (NDADDR <= 40 < max_block ump_ex) as H by (vm_compute; split; congruence).
  split; [exact H|]. split.
  - exact (ufs_getlbns_indirect ump_ex 40 _ 1 (MkIndir (-34) 0) eq_refl H eq_refl
      ltac:(lia) eq_refl).
  - exact (ufs_getlbns_indirect ump_ex 40 _ 2 (MkIndir (-33) 2) eq_refl H eq_refl
      ltac:(lia) eq_refl).
Defined.

(** A block past the last that three levels of indirection reach gives
    [EFBIG], and then [ufs_bmap] stores in [*a_bnp] whatever the stack held. *)
Theorem ufs_bmap_toobig ump incore getblk bread ip want_runp want_runb stack bn :
  1 < MNINDIR ump -> max_block ump <= bn ->
  ufs_bmap ump incore getblk bread ip want_runp want_runb true stack bn =
    Ok (EFBIG, Some stack, 0, 0).
Proof.
  intros HN Hbn. unfold ufs_bmap, ufs_bmaparray. by rewrite getlbns_toobig.
Qed.

Lemma ufs_bmap_toobig_witness :
  max_block ump_ex <= 96 /\
  ufs_bmap ump_ex nocore nobuf bread_ex ip_ex true true true 51966 96 =
    Ok (EFBIG, Some 51966, 0, 0).
Proof.
  assert (max_block ump_ex <= 96) as H by (vm_compute; congruence).
  split; [exact H|].
  exact (ufs_bmap_toobig ump_ex nocore nobuf bread_ex ip_ex true true 51966 96 eq_refl H).
Defined.
