(* ===== verification/Priv.v ===== *)
(** Privileges and jails: [priv_check_cred] of src/sys/kern/kern_priv.c, and
    the prison tree and [prison_priv_check] of src/sys/kern/kern_jail.c.

    The kernel has neither MAC nor VIMAGE. The sysctl variables of the policy
    are the record [policy]. *)

From stdpp Require Import gmap.
From S2P Require Import Prelude.

(** ** Privileges, as numbered in src/sys/sys/priv.h *)

Definition PRIV_MAXFILES : Z := 3.
Definition PRIV_MAXPROC : Z := 4.
Definition PRIV_KTRACE : Z := 5.
Definition PRIV_CRED_SETUID : Z := 50.
Definition PRIV_CRED_SETEUID : Z := 51.
Definition PRIV_CRED_SETGID : Z := 52.
Definition PRIV_CRED_SETEGID : Z := 53.
Definition PRIV_CRED_SETGROUPS : Z := 54.
Definition PRIV_CRED_SETREUID : Z := 55.
Definition PRIV_CRED_SETREGID : Z := 56.
Definition PRIV_CRED_SETRESUID : Z := 57.
Definition PRIV_CRED_SETRESGID : Z := 58.
Definition PRIV_SEEOTHERGIDS : Z := 59.
Definition PRIV_SEEOTHERUIDS : Z := 60.
Definition PRIV_DEBUG_DIFFCRED : Z := 80.
Definition PRIV_DEBUG_SUGID : Z := 81.
Definition PRIV_DEBUG_UNPRIV : Z := 82.
Definition PRIV_DEBUG_DENIED : Z := 83.
Definition PRIV_JAIL_ATTACH : Z := 110.
Definition PRIV_JAIL_SET : Z := 111.
Definition PRIV_JAIL_REMOVE : Z := 112.
Definition PRIV_PROC_LIMIT : Z := 160.
Definition PRIV_PROC_SETLOGIN : Z := 161.
Definition PRIV_PROC_SETRLIMIT : Z := 162.
Definition PRIV_PROC_SETLOGINCLASS : Z := 163.
Definition PRIV_IPC_READ : Z := 170.
Definition PRIV_IPC_WRITE : Z := 171.
Definition PRIV_IPC_ADMIN : Z := 172.
Definition PRIV_IPC_MSGSIZE : Z := 173.
Definition PRIV_MQ_ADMIN : Z := 180.
Definition PRIV_SCHED_DIFFCRED : Z := 200.
Definition PRIV_SCHED_CPUSET : Z := 206.
Definition PRIV_SIGNAL_DIFFCRED : Z := 230.
Definition PRIV_SIGNAL_SUGID : Z := 231.
Definition PRIV_SYSCTL_WRITEJAIL : Z := 242.
Definition PRIV_VFS_READ : Z := 310.
Definition PRIV_VFS_WRITE : Z := 311.
Definition PRIV_VFS_ADMIN : Z := 312.
Definition PRIV_VFS_EXEC : Z := 313.
Definition PRIV_VFS_LOOKUP : Z := 314.
Definition PRIV_VFS_BLOCKRESERVE : Z := 315.
Definition PRIV_VFS_CHFLAGS_DEV : Z := 316.
Definition PRIV_VFS_CHOWN : Z := 317.
Definition PRIV_VFS_CHROOT : Z := 318.
Definition PRIV_VFS_RETAINSUGID : Z := 319.
Definition PRIV_VFS_FCHROOT : Z := 322.
Definition PRIV_VFS_GETQUOTA : Z := 328.
Definition PRIV_VFS_LINK : Z := 329.
Definition PRIV_VFS_MOUNT : Z := 333.
Definition PRIV_VFS_MOUNT_OWNER : Z := 334.
Definition PRIV_VFS_MOUNT_NONUSER : Z := 338.
Definition PRIV_VFS_SETGID : Z := 339.
Definition PRIV_VFS_SETQUOTA : Z := 340.
Definition PRIV_VFS_STICKYFILE : Z := 341.
Definition PRIV_VFS_SYSFLAGS : Z := 342.
Definition PRIV_VFS_UNMOUNT : Z := 343.
Definition PRIV_VFS_STAT : Z := 344.
Definition PRIV_VM_MLOCK : Z := 361.
Definition PRIV_VM_MUNLOCK : Z := 362.
Definition PRIV_NETINET_RESERVEDPORT : Z := 490.
Definition PRIV_NETINET_RAW : Z := 497.
Definition PRIV_NETINET_GETCRED : Z := 498.
Definition PRIV_NETINET_REUSEPORT : Z := 504.
Definition PRIV_NETINET_SETHDROPTS : Z := 505.
Definition PRIV_KMEM_READ : Z := 680.

Definition EPERM : Z := 1.
Definition ESRCH : Z := 3.

(** ** Prisons *)

(** A prison is known by a number; [prison0], the system itself, is 0. *)
Record prison := MkPrison {
  pr_parent : option Z;
  pr_allow : Z;
  pr_enforce_statfs : Z;
  pr_securelevel : Z
}.

Abbreviation prisons := (gmap Z prison).

Definition prison0 : Z := 0.
Definition PR_ALLOW_RAW_SOCKETS : Z := 0x0004.
Definition PR_ALLOW_CHFLAGS : Z := 0x0008.
Definition PR_ALLOW_MOUNT : Z := 0x0010.

(** ** Credentials *)

(** [cr_groups] holds [cr_ngroups] groups, the effective one first. *)
Record ucred := MkUcred {
  cr_uid : Z;
  cr_ruid : Z;
  cr_svuid : Z;
  cr_rgid : Z;
  cr_svgid : Z;
  cr_groups : list Z;
  cr_prison : Z
}.

Definition cr_ngroups (cr : ucred) : Z := zlength (cr_groups cr).

(** [cr_gid], the first group. *)
Definition cr_gid (cr : ucred) : Z := zget (cr_groups cr) 0.

(** The sysctl variables. *)
Record policy := MkPolicy {
  suser_enabled : bool;
  unprivileged_mlock : bool;
  see_other_uids : bool;
  see_other_gids : bool;
  conservative_signals : bool;
  unprivileged_proc_debug : bool
}.

Section prison.
Context (ps : prisons).

Definition get_prison (pr : Z) : prison :=
  default (MkPrison None 0 0 0) (ps !! pr).

(** The walk up from [pr2]; [fuel] bounds its length. *)
Fixpoint ischild_walk (fuel : nat) (pr1 : Z) (pr2 : option Z) : bool :=
  match fuel, pr2 with
  | S fuel', Some pr2 =>
      if pr1 =? pr2 then true else ischild_walk fuel' pr1 (pr_parent (get_prison pr2))
  | _, _ => false
  end.

(** As many steps as there are prisons. *)
Definition prison_ischild (pr1 pr2 : Z) : bool :=
  ischild_walk (size ps) pr1 (pr_parent (get_prison pr2)).

Definition prison_check (cred1 cred2 : ucred) : Z :=
  if (cr_prison cred1 =? cr_prison cred2) || prison_ischild (cr_prison cred1) (cr_prison cred2)
  then 0 else ESRCH.

Definition jailed (cred : ucred) : bool := negb (cr_prison cred =? prison0).

Definition securelevel_gt (cr : ucred) (level : Z) : Z :=
  if level <? pr_securelevel (get_prison (cr_prison cr)) then EPERM else 0.

Definition securelevel_ge (cr : ucred) (level : Z) : Z :=
  if level <=? pr_securelevel (get_prison (cr_prison cr)) then EPERM else 0.

(** [switch (priv)]: the cases that share a statement. *)
Definition switch_case (priv : Z) (cases : list Z) : bool := existsb (Z.eqb priv) cases.

Definition prison_priv_check (cred : ucred) (priv : Z) : Z :=
  let pr := get_prison (cr_prison cred) in
  if negb (jailed cred) then 0
  else if switch_case priv [
       PRIV_KTRACE; PRIV_CRED_SETUID; PRIV_CRED_SETEUID; PRIV_CRED_SETGID; PRIV_CRED_SETEGID;
       PRIV_CRED_SETGROUPS; PRIV_CRED_SETREUID; PRIV_CRED_SETREGID; PRIV_CRED_SETRESUID;
       PRIV_CRED_SETRESGID; PRIV_SEEOTHERGIDS; PRIV_SEEOTHERUIDS; PRIV_DEBUG_DIFFCRED;
       PRIV_DEBUG_SUGID; PRIV_DEBUG_UNPRIV; PRIV_PROC_LIMIT; PRIV_PROC_SETLOGIN;
       PRIV_PROC_SETRLIMIT; PRIV_IPC_READ; PRIV_IPC_WRITE; PRIV_IPC_ADMIN; PRIV_IPC_MSGSIZE;
       PRIV_MQ_ADMIN; PRIV_JAIL_ATTACH; PRIV_JAIL_SET; PRIV_JAIL_REMOVE; PRIV_SCHED_DIFFCRED;
       PRIV_SCHED_CPUSET; PRIV_SIGNAL_DIFFCRED; PRIV_SIGNAL_SUGID; PRIV_SYSCTL_WRITEJAIL;
       PRIV_VFS_GETQUOTA; PRIV_VFS_SETQUOTA; PRIV_VFS_READ; PRIV_VFS_WRITE; PRIV_VFS_ADMIN;
       PRIV_VFS_EXEC; PRIV_VFS_LOOKUP; PRIV_VFS_BLOCKRESERVE; PRIV_VFS_CHFLAGS_DEV; PRIV_VFS_CHOWN;
       PRIV_VFS_CHROOT; PRIV_VFS_RETAINSUGID; PRIV_VFS_FCHROOT; PRIV_VFS_LINK; PRIV_VFS_SETGID;
       PRIV_VFS_STAT; PRIV_VFS_STICKYFILE; PRIV_KMEM_READ
     ] then 0
  else if switch_case priv [PRIV_VFS_SYSFLAGS] then
    if negb (Z.land (pr_allow pr) PR_ALLOW_CHFLAGS =? 0) then 0 else EPERM
  else if switch_case priv [
       PRIV_VFS_MOUNT; PRIV_VFS_UNMOUNT; PRIV_VFS_MOUNT_NONUSER; PRIV_VFS_MOUNT_OWNER] then
    if negb (Z.land (pr_allow pr) PR_ALLOW_MOUNT =? 0) && (pr_enforce_statfs pr <? 2)
    then 0 else EPERM
  else if switch_case priv [PRIV_NETINET_RESERVEDPORT; PRIV_NETINET_REUSEPORT] then 0
  else if switch_case priv [PRIV_NETINET_SETHDROPTS] then 0
  else if switch_case priv [PRIV_NETINET_RAW] then
    if negb (Z.land (pr_allow pr) PR_ALLOW_RAW_SOCKETS =? 0) then 0 else EPERM
  else if switch_case priv [PRIV_NETINET_GETCRED] then 0
  else if switch_case priv [PRIV_PROC_SETLOGINCLASS] then 0
  else EPERM.

(** ** priv_check_cred *)

Context (pol : policy).

(** The assertion [PRIV_VALID] holds at every call: the callers pass
    constants of priv.h. *)
Definition priv_check_cred (cred : ucred) (priv : Z) : Z :=
  let error := prison_priv_check cred priv in
  if negb (error =? 0) then error
  else if unprivileged_mlock pol && switch_case priv [PRIV_VM_MLOCK; PRIV_VM_MUNLOCK] then 0
  else if suser_enabled pol &&
          (if switch_case priv [PRIV_MAXFILES; PRIV_MAXPROC; PRIV_PROC_LIMIT]
           then cr_ruid cred =? 0 else cr_uid cred =? 0) then 0
  else if priv =? PRIV_KMEM_READ then 0
  else EPERM.
End prison.

Lemma get_prison_lookup ps p pr : ps !! p = Some pr -> get_prison ps p = pr.
Proof. intros H. unfold get_prison. by rewrite H. Qed.

(** ** The prison tree *)

(** A parent exists and is nearer to the root. *)
Definition prisons_ok (ps : prisons) : Prop :=
  exists depth : Z -> nat, forall p pr q,
    ps !! p = Some pr -> pr_parent pr = Some q ->
    is_Some (ps !! q) /\ (depth q < depth p)%nat.

(** [a] contains the prison [p]. *)
Inductive contains (ps : prisons) (a : Z) : Z -> Prop :=
  | contains_parent p pr : ps !! p = Some pr -> pr_parent pr = Some a -> contains ps a p
  | contains_up p pr q :
      ps !! p = Some pr -> pr_parent pr = Some q -> contains ps a q -> contains ps a p.

Section tree.
Context (ps : prisons) (depth : Z -> nat).
Context (Hdepth : forall p pr q, ps !! p = Some pr -> pr_parent pr = Some q ->
  is_Some (ps !! q) /\ (depth q < depth p)%nat).

Definition up_to (d : nat) : gset Z := filter (fun p => (depth p <= d)%nat) (dom ps).

Lemma up_to_parent p pr q :
  ps !! p = Some pr -> pr_parent pr = Some q -> (size (up_to (depth q)) < size (up_to (depth p)))%nat.
Proof.
  intros Hp Hq. destruct (Hdepth p pr q Hp Hq) as [_ Hlt]. apply subset_size. split.
  - intros x. unfold up_to. rewrite !elem_of_filter. intros [? ?]. split; [lia | done].
  - intros H. specialize (H p). unfold up_to in H. rewrite !elem_of_filter in H.
    destruct H as [H _]; [|lia]. split; [done|]. by apply elem_of_dom_2 in Hp.
Qed.

Lemma ischild_walk_spec fuel a p :
  is_Some (ps !! p) -> (size (up_to (depth p)) <= fuel)%nat ->
  ischild_walk ps fuel a (Some p) = true <-> a = p \/ contains ps a p.
Proof.
  revert p. induction fuel as [|fuel IH]; intros p Hp Hfuel.
  { exfalso. assert (p ∈ up_to (depth p)) as Hin.
    { unfold up_to. rewrite elem_of_filter. split; [lia|]. by apply elem_of_dom. }
    assert (up_to (depth p) ≡ ∅) as He by (apply size_empty_inv; lia).
    by apply (He p) in Hin. }
  cbn [ischild_walk]. destruct Hp as [pr Hp]. destruct (Z.eqb_spec a p) as [->|Hne]; [split; auto|].
  rewrite (get_prison_lookup _ _ _ Hp). destruct (pr_parent pr) as [q|] eqn:Hq.
  - destruct (Hdepth p pr q Hp Hq) as [Hin Hlt]. pose proof (up_to_parent p pr q Hp Hq).
    rewrite IH by (done || lia). split.
    + intros [->|Hc]; right; [by eapply contains_parent | by eapply contains_up].
    + intros [?|Hc]; [done|]. inversion Hc; simplify_eq; auto.
  - split; [by destruct fuel|]. intros [?|Hc]; [done|]. inversion Hc; simplify_eq.
Qed.

Lemma ischild_spec a p :
  is_Some (ps !! p) -> prison_ischild ps a p = true <-> contains ps a p.
Proof.
  intros [pr Hp]. unfold prison_ischild. rewrite (get_prison_lookup _ _ _ Hp).
  destruct (pr_parent pr) as [q|] eqn:Hq.
  - destruct (Hdepth p pr q Hp Hq) as [Hin _]. rewrite ischild_walk_spec; [|done|].
    + split; [intros [->|Hc]; [by eapply contains_parent | by eapply contains_up]|].
      intros Hc. inversion Hc; simplify_eq; auto.
    + rewrite <- size_dom. apply subseteq_size. intros x. unfold up_to. rewrite elem_of_filter. by intros [_ ?].
  - split; [by destruct (size ps)|]. intros Hc. inversion Hc; simplify_eq.
Qed.
End tree.

(** [prison_check] permits exactly the same prison and those inside it. *)
Lemma prison_check_spec ps cred1 cred2 :
  prisons_ok ps -> is_Some (ps !! cr_prison cred2) ->
  prison_check ps cred1 cred2 = 0 <->
    cr_prison cred1 = cr_prison cred2 \/ contains ps (cr_prison cred1) (cr_prison cred2).
Proof.
  intros [depth Hd] Hin. unfold prison_check. rewrite <- (ischild_spec ps depth Hd) by done.
  destruct (Z.eqb_spec (cr_prison cred1) (cr_prison cred2)), (prison_ischild _ _ _); cbn; split;
    auto; intros H; [discriminate | destruct H; done].
Qed.
