(* ===== verification/Cred.v ===== *)
(** Credentials of processes: the id system calls of
    src/sys/kern/kern_prot.c.

    Credentials are values here: [crcopysafe] makes the copy that the call
    changes and [proc_set_cred] installs it, so sharing by reference and the
    reference counts do not show. The memory of the group array grows as
    needed ([crextend]); user information is kept as the number of processes
    of each real user, which [chgproccnt] moves. Auditing, MAC and resource
    accounting are not configured. *)

From stdpp Require Import gmap.
From S2P Require Import Prelude Priv.

Definition EINVAL : Z := 22.
Definition P_SUGID : Z := 0x00100.
Definition PF_ISUGID : Z := 0x02.

(** [(uid_t)-1] and [(gid_t)-1]: leave the id alone. *)
Definition NOID : Z := 0xffffffff.

(** The fields of [struct proc]; a session and a leader are known by a
    number. *)
Record proc := MkProc {
  p_pid : Z;
  p_ucred : ucred;
  p_flag : Z;
  p_flag2 : Z;
  p_pfsflags : Z;
  p_stops : Z;
  p_session : Z;
  p_leader : option Z
}.

(** ** Groups *)

(** The inner loop of the sort: elements above [g] move up from [j]; the
    place of [g] and the array. *)
Fixpoint sort_shift (n : nat) (l : list Z) (j g : Z) : Z * list Z :=
  match n with
  | O => (j, l)
  | S n' =>
      if g <? zget l j then sort_shift n' (zset l (j + 1) (zget l j)) (j - 1) g
      else (j, l)
  end.

(** One round: element [i] goes to its place among those from 1 on. *)
Definition sort_insert (i : Z) (l : list Z) : list Z :=
  let g := zget l i in
  let '(j, l) := sort_shift (Z.to_nat (i - 1)) l (i - 1) g in
  zset l (j + 1) g.

(** All groups but the first are sorted, for [groupmember]. *)
Definition crsetgroups_locked (groups : list Z) : list Z :=
  foreach (Z.to_nat (zlength groups - 2)) 2 sort_insert groups.

(** The list is cut to [ngroups_max + 1]. *)
Definition crsetgroups (ngroups_max : Z) (groups : list Z) : list Z :=
  crsetgroups_locked (take (Z.to_nat (ngroups_max + 1)) groups).

(** The binary search among [groups[1 .. ngroups - 1]]. *)
Fixpoint groupmember_search (fuel : nat) (groups : list Z) (gid l h : Z) : Z :=
  match fuel with
  | O => l
  | S fuel' =>
      if l <? h then
        let m := l + (h - l) / 2 in
        if zget groups m <? gid then groupmember_search fuel' groups gid (m + 1) h
        else groupmember_search fuel' groups gid l m
      else l
  end.

Definition groupmember (gid : Z) (cred : ucred) : bool :=
  if zget (cr_groups cred) 0 =? gid then true
  else
    let h := cr_ngroups cred in
    let l := groupmember_search (length (cr_groups cred)) (cr_groups cred) gid 1 h in
    (l <? cr_ngroups cred) && (zget (cr_groups cred) l =? gid).

(** ** The copy that a call works on *)

(** The process, the new credential and the process counts. *)
Record work := MkWork {
  w_p : proc;
  w_new : ucred;
  w_cnt : gmap Z Z
}.

Definition set_cr_groups (v : list Z) (cr : ucred) : ucred :=
  MkUcred (cr_uid cr) (cr_ruid cr) (cr_svuid cr) (cr_rgid cr) (cr_svgid cr) v (cr_prison cr).

Definition set_p_ucred (v : ucred) (p : proc) : proc :=
  MkProc (p_pid p) v (p_flag p) (p_flag2 p) (p_pfsflags p) (p_stops p) (p_session p) (p_leader p).

Definition upd_new (f : ucred -> ucred) (w : work) : work :=
  MkWork (w_p w) (f (w_new w)) (w_cnt w).

Definition setsugid_proc (p : proc) : proc :=
  MkProc (p_pid p) (p_ucred p) (Z.lor (p_flag p) P_SUGID) (p_flag2 p) (p_pfsflags p)
    (if Z.land (p_pfsflags p) PF_ISUGID =? 0 then 0 else p_stops p)
    (p_session p) (p_leader p).

Definition setsugid (w : work) : work := MkWork (setsugid_proc (w_p w)) (w_new w) (w_cnt w).

Definition proccnt (cnt : gmap Z Z) (uid : Z) : Z := default 0 (cnt !! uid).

(** Whether the change stayed within [max], and the new value; with [max] 0
    there is no limit. *)
Definition chglimit (limit diff max : Z) : Z * Z :=
  if (0 <? diff) && negb (max =? 0) then
    if max <? limit + diff then (0, limit) else (1, limit + diff)
  else (1, limit + diff).

Definition chgproccnt (uid diff max : Z) (cnt : gmap Z Z) : Z * gmap Z Z :=
  let '(ok, n) := chglimit (proccnt cnt uid) diff max in (ok, <[uid := n]> cnt).

Definition change_euid (euid : Z) : work -> work :=
  upd_new (fun cr => MkUcred euid (cr_ruid cr) (cr_svuid cr) (cr_rgid cr) (cr_svgid cr)
                       (cr_groups cr) (cr_prison cr)).

Definition change_egid (egid : Z) : work -> work :=
  upd_new (fun cr => set_cr_groups (zset (cr_groups cr) 0 egid) cr).

Definition change_ruid (ruid : Z) (w : work) : work :=
  let cnt := snd (chgproccnt (cr_ruid (w_new w)) (-1) 0 (w_cnt w)) in
  let cr := w_new w in
  let cr := MkUcred (cr_uid cr) ruid (cr_svuid cr) (cr_rgid cr) (cr_svgid cr)
              (cr_groups cr) (cr_prison cr) in
  MkWork (w_p w) cr (snd (chgproccnt ruid 1 0 cnt)).

Definition change_rgid (rgid : Z) : work -> work :=
  upd_new (fun cr => MkUcred (cr_uid cr) (cr_ruid cr) (cr_svuid cr) rgid (cr_svgid cr)
                       (cr_groups cr) (cr_prison cr)).

Definition change_svuid (svuid : Z) : work -> work :=
  upd_new (fun cr => MkUcred (cr_uid cr) (cr_ruid cr) svuid (cr_rgid cr) (cr_svgid cr)
                       (cr_groups cr) (cr_prison cr)).

Definition change_svgid (svgid : Z) : work -> work :=
  upd_new (fun cr => MkUcred (cr_uid cr) (cr_ruid cr) (cr_svuid cr) (cr_rgid cr) svgid
                       (cr_groups cr) (cr_prison cr)).

(** [if (c) { f; setsugid(p); }] *)
Definition change_if (c : bool) (f : work -> work) (w : work) : work :=
  if c then setsugid (f w) else w.

Section calls.
Context (ps : prisons) (pol : policy) (ngroups_max : Z).

(** The new credential starts as a copy of the old one. *)
Definition crcopysafe (p : proc) : ucred :=
  let old := p_ucred p in set_cr_groups (crsetgroups ngroups_max (cr_groups old)) old.

Definition proc_set_cred (w : work) : proc * gmap Z Z := (set_p_ucred (w_new w) (w_p w), w_cnt w).

(** A call ends with an errno and the process and counts as they are, or
    installs what was made of the copy. *)
Definition call_result : Type := Z * (proc * gmap Z Z).

(** [ok] is the test by the ids; when it fails the privilege decides. *)
Definition checked (ok : bool) (priv : Z) (p : proc) (cnt : gmap Z Z)
    (change : work -> work) : call_result :=
  let error := if ok then 0 else priv_check_cred ps pol (p_ucred p) priv in
  if negb (error =? 0) then (error, (p, cnt))
  else (0, proc_set_cred (change (MkWork p (crcopysafe p) cnt))).

Definition sys_setuid (p : proc) (cnt : gmap Z Z) (uid : Z) : call_result :=
  let old := p_ucred p in
  checked ((uid =? cr_ruid old) || (uid =? cr_uid old)) PRIV_CRED_SETUID p cnt (fun w =>
    let w := change_if (negb (uid =? cr_ruid old)) (change_ruid uid) w in
    let w := change_if (negb (uid =? cr_svuid old)) (change_svuid uid) w in
    change_if (negb (uid =? cr_uid old)) (change_euid uid) w).

Definition sys_seteuid (p : proc) (cnt : gmap Z Z) (euid : Z) : call_result :=
  let old := p_ucred p in
  checked ((euid =? cr_ruid old) || (euid =? cr_svuid old)) PRIV_CRED_SETEUID p cnt
    (change_if (negb (cr_uid old =? euid)) (change_euid euid)).

Definition sys_setgid (p : proc) (cnt : gmap Z Z) (gid : Z) : call_result :=
  let old := p_ucred p in
  checked ((gid =? cr_rgid old) || (gid =? cr_gid old)) PRIV_CRED_SETGID p cnt (fun w =>
    let w := change_if (negb (cr_rgid old =? gid)) (change_rgid gid) w in
    let w := change_if (negb (cr_svgid old =? gid)) (change_svgid gid) w in
    change_if (negb (cr_gid old =? gid)) (change_egid gid) w).

Definition sys_setegid (p : proc) (cnt : gmap Z Z) (egid : Z) : call_result :=
  let old := p_ucred p in
  checked ((egid =? cr_rgid old) || (egid =? cr_svgid old)) PRIV_CRED_SETEGID p cnt
    (change_if (negb (cr_gid old =? egid)) (change_egid egid)).

Definition kern_setgroups (p : proc) (cnt : gmap Z Z) (groups : list Z) : call_result :=
  checked false PRIV_CRED_SETGROUPS p cnt (fun w =>
    setsugid (upd_new (fun cr =>
      if zlength groups =? 0 then set_cr_groups (take 1 (cr_groups cr)) cr
      else set_cr_groups (crsetgroups_locked groups) cr) w)).

(** [gidset] is what [copyin] brings in, or its error. *)
Definition sys_setgroups (p : proc) (cnt : gmap Z Z) (gidsetsize : Z)
    (gidset : Z + list Z) : call_result :=
  if ngroups_max + 1 <? gidsetsize then (EINVAL, (p, cnt))
  else match gidset with
       | inl error => (error, (p, cnt))
       | inr groups => kern_setgroups p cnt groups
       end.

Definition wanted (id : Z) : bool := negb (id =? NOID).

Definition sys_setreuid (p : proc) (cnt : gmap Z Z) (ruid euid : Z) : call_result :=
  let old := p_ucred p in
  checked (negb ((wanted ruid && negb (ruid =? cr_ruid old) && negb (ruid =? cr_svuid old)) ||
                 (wanted euid && negb (euid =? cr_uid old) && negb (euid =? cr_ruid old) &&
                  negb (euid =? cr_svuid old)))) PRIV_CRED_SETREUID p cnt (fun w =>
    let w := change_if (wanted euid && negb (cr_uid old =? euid)) (change_euid euid) w in
    let w := change_if (wanted ruid && negb (cr_ruid old =? ruid)) (change_ruid ruid) w in
    let new := w_new w in
    change_if ((wanted ruid || negb (cr_uid new =? cr_ruid new)) &&
               negb (cr_svuid new =? cr_uid new)) (change_svuid (cr_uid new)) w).

Definition sys_setregid (p : proc) (cnt : gmap Z Z) (rgid egid : Z) : call_result :=
  let old := p_ucred p in
  checked (negb ((wanted rgid && negb (rgid =? cr_rgid old) && negb (rgid =? cr_svgid old)) ||
                 (wanted egid && negb (egid =? cr_gid old) && negb (egid =? cr_rgid old) &&
                  negb (egid =? cr_svgid old)))) PRIV_CRED_SETREGID p cnt (fun w =>
    let w := change_if (wanted egid && negb (cr_gid old =? egid)) (change_egid egid) w in
    let w := change_if (wanted rgid && negb (cr_rgid old =? rgid)) (change_rgid rgid) w in
    let new := w_new w in
    change_if ((wanted rgid || negb (cr_gid new =? cr_rgid new)) &&
               negb (cr_svgid new =? cr_gid new)) (change_svgid (cr_gid new)) w).

(** An id may be set to any of the three that the process has. *)
Definition one_of (id a b c : Z) : bool := (id =? a) || (id =? b) || (id =? c).

Definition sys_setresuid (p : proc) (cnt : gmap Z Z) (ruid euid suid : Z) : call_result :=
  let old := p_ucred p in
  let denied id := wanted id && negb (one_of id (cr_ruid old) (cr_svuid old) (cr_uid old)) in
  checked (negb (denied ruid || denied euid || denied suid)) PRIV_CRED_SETRESUID p cnt (fun w =>
    let w := change_if (wanted euid && negb (cr_uid old =? euid)) (change_euid euid) w in
    let w := change_if (wanted ruid && negb (cr_ruid old =? ruid)) (change_ruid ruid) w in
    change_if (wanted suid && negb (cr_svuid old =? suid)) (change_svuid suid) w).

Definition sys_setresgid (p : proc) (cnt : gmap Z Z) (rgid egid sgid : Z) : call_result :=
  let old := p_ucred p in
  let denied id := wanted id && negb (one_of id (cr_rgid old) (cr_svgid old) (cr_gid old)) in
  checked (negb (denied rgid || denied egid || denied sgid)) PRIV_CRED_SETRESGID p cnt (fun w =>
    let w := change_if (wanted egid && negb (cr_gid old =? egid)) (change_egid egid) w in
    let w := change_if (wanted rgid && negb (cr_rgid old =? rgid)) (change_rgid rgid) w in
    change_if (wanted sgid && negb (cr_svgid old =? sgid)) (change_svgid sgid) w).

(** [copyout] of the groups may fail with the error [copyout_error]; the
    errno and what [td_retval] and the user's array hold. *)
Definition sys_getgroups (cred : ucred) (gidsetsize : Z) (copyout_error : option Z)
    : Z * option Z * list Z :=
  let ngrp := cr_ngroups cred in
  if gidsetsize =? 0 then (0, Some ngrp, [])
  else if gidsetsize <? ngrp then (EINVAL, None, [])
  else match copyout_error with
       | Some error => (error, Some ngrp, [])
       | None => (0, Some ngrp, cr_groups cred)
       end.

Definition sys_issetugid (p : proc) : Z :=
  if negb (Z.land (p_flag p) P_SUGID =? 0) then 1 else 0.
End calls.
