(* ===== verification/CredInv.v ===== *)
(** The group list of a credential: the sort of [crsetgroups] and the binary
    search of [groupmember]. *)

From stdpp Require Import gmap.
From stdpp Require Import gmap relations.
From S2P Require Import Prelude Priv Cred.

(** Sorted from index 1 up to, but not including, [n]. *)
Definition sorted_to (n : Z) (l : list Z) : Prop :=
  forall a b, 1 <= a <= b -> b < n -> zget l a <= zget l b.

(** What [groupmember] relies on. *)
Definition groups_ok (l : list Z) : Prop := 1 <= zlength l /\ sorted_to (zlength l) l.

(** ** The sort *)

Lemma swap_perm (l : list Z) n x y :
  l !! n = Some x -> l !! S n = Some y -> <[n := y]> (<[S n := x]> l) ≡ₚ l.
Proof.
  revert n. induction l as [|a l IH]; intros n Hx Hy; [done|]. destruct n as [|n].
  - destruct l as [|b l]; [done|]. injection Hx as ->. injection Hy as ->. apply perm_swap.
  - cbn. constructor. by apply IH.
Qed.

Lemma zswap_perm l j g :
  0 <= j -> j + 1 < zlength l ->
  zset (zset l (j + 1) (zget l j)) j g ≡ₚ zset l (j + 1) g.
Proof.
  intros Hj Hl. set (m := zset l (j + 1) g).
  assert (zset (zset l (j + 1) (zget l j)) j g = zset (zset m (j + 1) (zget l j)) j g) as ->
    by (unfold m; by rewrite aset_aset).
  unfold aset at 1. ztest. unfold aset at 1. ztest.
  replace (Z.to_nat (j + 1)) with (S (Z.to_nat j)) by lia. apply swap_perm.
  - rewrite (lookup_aget 0) by (unfold m; rewrite zlength_aset; lia). unfold m.
    by rewrite aget_aset_ne by lia.
  - replace (S (Z.to_nat j)) with (Z.to_nat (j + 1)) by lia.
    rewrite (lookup_aget 0) by (unfold m; rewrite zlength_aset; lia). unfold m.
    by rewrite aget_aset_eq by lia.
Qed.

(** The elements above [g] moved up by one, down to its place. *)
Lemma sort_shift_spec n l j g :
  Z.of_nat n <= j -> j + 1 < zlength l ->
  let '(j', l') := sort_shift n l j g in
  j - Z.of_nat n <= j' <= j /\ zlength l' = zlength l /\
  (forall k, 0 <= k -> zget l' k = if (j' + 2 <=? k) && (k <=? j + 1) then zget l (k - 1) else zget l k) /\
  (forall k, j' < k <= j -> g < zget l k) /\ (j - Z.of_nat n < j' -> zget l j' <= g) /\
  zset l' (j' + 1) g ≡ₚ zset l (j + 1) g.
Proof.
  revert l j. induction n as [|n IH]; intros l j Hn Hj; cbn [sort_shift].
  { split_and!; try lia; try done. intros k Hk. zcase; [|done]. zcase; [lia | done]. }
  destruct (Z.ltb_spec g (zget l j)) as [Hlt|Hge].
  - specialize (IH (zset l (j + 1) (zget l j)) (j - 1) ltac:(lia) ltac:(rewrite zlength_aset; lia)).
    destruct (sort_shift _ _ _ _) as [j' l']. destruct IH as (H1 & H2 & H3 & H4 & H5 & H6).
    rewrite zlength_aset in H2. split_and!; [lia | lia | lia | | | |].
    + intros k Hk. rewrite H3 by done.
      destruct (Z.eq_dec k (j + 1)) as [->|Hne].
      * ztest. cbn [andb]. rewrite aget_aset_eq by lia. by replace (j + 1 - 1) with j by lia.
      * replace (k <=? j + 1) with (k <=? j - 1 + 1) by (repeat zcase; done || lia).
        destruct (_ && _) eqn:E; bool_to_prop; rewrite aget_aset_ne by lia; done.
    + intros k Hk. destruct (Z.eq_dec k j) as [->|Hne]; [done|].
      pose proof (H4 k ltac:(lia)) as H. by rewrite aget_aset_ne in H by lia.
    + intros Hlt'. destruct (Z.eq_dec j' (j + 1)); [lia|].
      pose proof (H5 ltac:(lia)) as H. by rewrite aget_aset_ne in H by lia.
    + rewrite H6. replace (j - 1 + 1) with j by lia. apply zswap_perm; lia.
  - split_and!; try lia; try done. intros k Hk. zcase; [|done]. zcase; [lia | done].
Qed.

Lemma sort_insert_spec i l :
  1 <= i < zlength l -> sorted_to i l ->
  sorted_to (i + 1) (sort_insert i l) /\ sort_insert i l ≡ₚ l /\
  zlength (sort_insert i l) = zlength l /\ zget (sort_insert i l) 0 = zget l 0.
Proof.
  intros Hi Hs. unfold sort_insert.
  pose proof (sort_shift_spec (Z.to_nat (i - 1)) l (i - 1) (zget l i) ltac:(lia) ltac:(lia)) as H.
  destruct (sort_shift _ _ _ _) as [j' l']. destruct H as (H1 & H2 & H3 & H4 & H5 & H6).
  replace (i - 1 + 1) with i in * by lia. rewrite aset_aget in H6.
  assert (forall k, 0 <= k -> zget (zset l' (j' + 1) (zget l i)) k =
    if k =? j' + 1 then zget l i
    else if (j' + 2 <=? k) && (k <=? i) then zget l (k - 1) else zget l k) as Hget.
  { intros k Hk. rewrite aget_aset by lia. rewrite Z.eqb_sym. zcase; [done|]. by apply H3. }
  split; [|split; [done|]; rewrite zlength_aset; split; [done|]].
  - intros a b Hab Hb. rewrite !Hget by lia.
    assert (forall k, 1 <= k <= j' -> zget l k <= zget l i) as Hlow.
    { intros k Hk. transitivity (zget l j'); [apply Hs; lia | apply H5; lia]. }
    assert (forall k, j' < k < i -> zget l i <= zget l k) as Hhigh
      by (intros k Hk; specialize (H4 k ltac:(lia)); lia).
    repeat (zcase; cbn [andb]); first [lia | apply Hs; lia | apply Hlow; lia | apply Hhigh; lia].
  - rewrite Hget by lia. ztest. destruct (_ && _) eqn:E; [|done]. bool_to_prop. lia.
Qed.

(** The sort keeps the effective group first, and sorts the others. *)
Lemma crsetgroups_locked_spec groups :
  1 <= zlength groups ->
  groups_ok (crsetgroups_locked groups) /\ crsetgroups_locked groups ≡ₚ groups /\
  zget (crsetgroups_locked groups) 0 = zget groups 0.
Proof.
  intros Hlen. unfold crsetgroups_locked.
  assert (forall n, n = Z.to_nat (zlength groups - 2) ->
    let r := foreach n 2 sort_insert groups in
    sorted_to (2 + Z.of_nat n) r /\ r ≡ₚ groups /\ zlength r = zlength groups /\
    zget r 0 = zget groups 0) as H.
  { intros n Hn. apply (foreach_ind (fun i r => sorted_to i r /\ r ≡ₚ groups /\
      zlength r = zlength groups /\ zget r 0 = zget groups 0)).
    - split_and!; try done. intros a b Ha Hb. by replace b with a by lia.
    - intros j t Hj (S1 & S2 & S3 & S4).
      destruct (sort_insert_spec j t ltac:(lia) S1) as (T1 & T2 & T3 & T4).
      split_and!; [done | by rewrite T2 | lia | congruence]. }
  destruct (H _ eq_refl) as (H1 & H2 & H3 & H4). split; [|done]. split; [lia|].
  intros a b Ha Hb. apply H1; lia.
Qed.

(** A sorted list is left alone. *)
Lemma crsetgroups_locked_id groups : groups_ok groups -> crsetgroups_locked groups = groups.
Proof.
  intros [Hlen Hs]. unfold crsetgroups_locked.
  apply (foreach_ind (fun _ r => r = groups)); [done|]. intros j t Hj ->. unfold sort_insert.
  destruct (Z.to_nat (j - 1)) as [|n] eqn:En; [lia|]. cbn [sort_shift].
  pose proof (Hs (j - 1) j ltac:(lia) ltac:(lia)). ztest.
  replace (j - 1 + 1) with j by lia. apply aset_aget.
Qed.

(** ** The search *)

Lemma groupmember_search_spec fuel groups gid l h n :
  sorted_to n groups -> 1 <= l <= h -> h <= n -> h - l <= Z.of_nat fuel ->
  (forall k, 1 <= k < l -> zget groups k < gid) ->
  (forall k, h <= k < n -> gid <= zget groups k) ->
  let r := groupmember_search fuel groups gid l h in
  1 <= r <= n /\ (forall k, 1 <= k < r -> zget groups k < gid) /\
  (forall k, r <= k < n -> gid <= zget groups k).
Proof.
  intros Hs. revert l h. induction fuel as [|fuel IH]; intros l h Hl Hh Hf Hlow Hhigh;
    cbn [groupmember_search].
  { assert (h = l) as -> by lia. split; [lia | done]. }
  zcase; [|assert (h = l) as -> by lia; split; [lia | done]].
  set (m := l + (h - l) / 2). assert (l <= m < h) as Hm by (unfold m; dlia).
  destruct (Z.ltb_spec (zget groups m) gid).
  - apply IH; [lia | lia | lia | | done]. intros k Hk. pose proof (Hs k m). lia.
  - apply IH; [lia | lia | lia | done |]. intros k Hk. pose proof (Hs m k). lia.
Qed.

(** [groupmember] is membership. *)
Lemma groupmember_spec gid cred :
  groups_ok (cr_groups cred) -> groupmember gid cred = true <-> gid ∈ cr_groups cred.
Proof.
  intros [Hlen Hs]. unfold groupmember, cr_ngroups.
  assert (forall k, 0 <= k < zlength (cr_groups cred) -> zget (cr_groups cred) k ∈ cr_groups cred) as Hin.
  { intros k Hk. apply list_elem_of_lookup. exists (Z.to_nat k). by apply lookup_aget. }
  assert (gid ∈ cr_groups cred -> exists k, 0 <= k < zlength (cr_groups cred) /\
    zget (cr_groups cred) k = gid) as Hex.
  { intros H. apply list_elem_of_lookup in H as [k Hk]. exists (Z.of_nat k).
    pose proof (lookup_lt_Some _ _ _ Hk). unfold zlength. split; [lia|].
    apply aget_lookup; [lia | by rewrite Nat2Z.id]. }
  destruct (Z.eqb_spec (zget (cr_groups cred) 0) gid) as [<-|Hne].
  { split; [intros _; apply Hin; lia | done]. }
  pose proof (groupmember_search_spec (length (cr_groups cred)) (cr_groups cred) gid 1
    (zlength (cr_groups cred)) (zlength (cr_groups cred)) Hs ltac:(lia) ltac:(lia)
    ltac:(unfold zlength; lia) ltac:(lia) ltac:(lia)) as H.
  revert H. generalize (groupmember_search (length (cr_groups cred)) (cr_groups cred) gid 1
    (zlength (cr_groups cred))). intros r (H1 & H2 & H3). split.
  - intros H. bool_to_prop. subst gid. apply Hin. lia.
  - intros H. destruct (Hex H) as (k & Hk & <-).
    assert (r <= k) as Hr.
    { destruct (Z.lt_ge_cases k r) as [Hlt|]; [|done]. destruct (Z.eq_dec k 0) as [->|]; [done|].
      specialize (H2 k ltac:(lia)). lia. }
    pose proof (H3 r ltac:(lia)) as H4. pose proof (Hs r k ltac:(lia) ltac:(lia)). ztest. lia.
Qed.

(** The id system calls as sequences of small changes.

    Every call that succeeds makes its new credential by changes of one id
    or of the group list ([wstep]), and the ids it may put there are those
    the process has, unless it is privileged ([call_wsteps]). The
    invariants of the calls are inductions over such changes. *)

(** ** Calls *)

Inductive id_call : Type :=
  | Setuid (uid : Z)
  | Seteuid (euid : Z)
  | Setgid (gid : Z)
  | Setegid (egid : Z)
  | Setgroups (gidsetsize : Z) (gidset : Z + list Z)
  | Setreuid (ruid euid : Z)
  | Setregid (rgid egid : Z)
  | Setresuid (ruid euid suid : Z)
  | Setresgid (rgid egid sgid : Z).

(** [copyin] brings in as many groups as asked for, or an errno. *)
Definition call_ok (c : id_call) : Prop :=
  match c with
  | Setgroups n (inr l) => zlength l = n
  | Setgroups _ (inl error) => error <> 0
  | _ => True
  end.

Definition uids (cr : ucred) : list Z := [cr_ruid cr; cr_uid cr; cr_svuid cr].
Definition gids (cr : ucred) : list Z := [cr_rgid cr; cr_gid cr; cr_svgid cr].

Section inv.
Context (ps : prisons) (pol : policy) (ngroups_max : Z).

Definition run_call (c : id_call) (p : proc) (cnt : gmap Z Z) : call_result :=
  match c with
  | Setuid uid => sys_setuid ps pol ngroups_max p cnt uid
  | Seteuid euid => sys_seteuid ps pol ngroups_max p cnt euid
  | Setgid gid => sys_setgid ps pol ngroups_max p cnt gid
  | Setegid egid => sys_setegid ps pol ngroups_max p cnt egid
  | Setgroups n gidset => sys_setgroups ps pol ngroups_max p cnt n gidset
  | Setreuid ruid euid => sys_setreuid ps pol ngroups_max p cnt ruid euid
  | Setregid rgid egid => sys_setregid ps pol ngroups_max p cnt rgid egid
  | Setresuid ruid euid suid => sys_setresuid ps pol ngroups_max p cnt ruid euid suid
  | Setresgid rgid egid sgid => sys_setresgid ps pol ngroups_max p cnt rgid egid sgid
  end.

(** A process calls, whatever comes of it. *)
Inductive call_step : proc * gmap Z Z -> proc * gmap Z Z -> Prop :=
  | do_call c p cnt : call_ok c -> call_step (p, cnt) (snd (run_call c p cnt)).

Definition cred_ok (cr : ucred) : Prop :=
  groups_ok (cr_groups cr) /\ zlength (cr_groups cr) <= ngroups_max + 1.

Definition superuser (cr : ucred) : Prop := suser_enabled pol = true /\ cr_uid cr = 0.

Lemma crcopysafe_id p : cred_ok (p_ucred p) -> crcopysafe ngroups_max p = p_ucred p.
Proof.
  intros [Hg Hl]. unfold crcopysafe, crsetgroups. rewrite take_ge by (unfold zlength in *; lia).
  rewrite crsetgroups_locked_id by done. by destruct (p_ucred p).
Qed.

(** ** Privilege *)

(** What root may do in a jail as well as outside, and nobody else. *)
Definition suser_privs : list Z :=
  [PRIV_CRED_SETUID; PRIV_CRED_SETEUID; PRIV_CRED_SETGID; PRIV_CRED_SETEGID; PRIV_CRED_SETGROUPS;
   PRIV_CRED_SETREUID; PRIV_CRED_SETREGID; PRIV_CRED_SETRESUID; PRIV_CRED_SETRESGID;
   PRIV_SEEOTHERGIDS; PRIV_SEEOTHERUIDS; PRIV_DEBUG_DIFFCRED; PRIV_DEBUG_SUGID; PRIV_DEBUG_UNPRIV;
   PRIV_SCHED_DIFFCRED; PRIV_SIGNAL_DIFFCRED; PRIV_SIGNAL_SUGID; PRIV_VFS_READ; PRIV_VFS_WRITE;
   PRIV_VFS_ADMIN; PRIV_VFS_EXEC; PRIV_VFS_LOOKUP].

Lemma suser_privs_prison cr priv :
  switch_case priv suser_privs = true -> prison_priv_check ps cr priv = 0.
Proof.
  intros H. apply existsb_exists in H as (x & Hin & Heq). apply Z.eqb_eq in Heq as <-.
  unfold prison_priv_check. destruct (negb (jailed cr)); [done|].
  cbn in Hin. repeat destruct Hin as [<-|Hin]; done.
Qed.

Lemma suser_priv cr priv :
  switch_case priv suser_privs = true ->
  priv_check_cred ps pol cr priv = 0 <-> superuser cr.
Proof.
  intros H. unfold priv_check_cred, superuser. rewrite suser_privs_prison by done.
  apply existsb_exists in H as (x & Hin & Heq). apply Z.eqb_eq in Heq as <-.
  destruct (unprivileged_mlock pol), (suser_enabled pol), (Z.eqb_spec (cr_uid cr) 0);
    cbn in Hin; repeat destruct Hin as [<-|Hin]; try done; cbn; split; try done;
    intros [? ?]; done.
Qed.

Lemma suser_priv_eperm cr priv :
  switch_case priv suser_privs = true -> ~ superuser cr ->
  priv_check_cred ps pol cr priv = EPERM.
Proof.
  intros H Hs. rewrite <- (suser_priv cr priv) in Hs by done. revert Hs.
  unfold priv_check_cred. rewrite suser_privs_prison by done. cbn [Z.eqb negb].
  by repeat case_match.
Qed.

Lemma checked_cases ok priv p cnt change :
  switch_case priv suser_privs = true -> cred_ok (p_ucred p) ->
  (ok = false /\ ~ superuser (p_ucred p) /\
   checked ps pol ngroups_max ok priv p cnt change = (EPERM, (p, cnt))) \/
  ((ok = true \/ superuser (p_ucred p)) /\
   checked ps pol ngroups_max ok priv p cnt change =
     (0, proc_set_cred (change (MkWork p (p_ucred p) cnt)))).
Proof.
  intros Hp Hok. unfold checked. rewrite crcopysafe_id by done.
  destruct ok; [right; by auto|].
  destruct (Z.eq_dec (priv_check_cred ps pol (p_ucred p) priv) 0) as [H|H].
  - right. rewrite H. split; [right; by rewrite <- suser_priv | done].
  - left. assert (~ superuser (p_ucred p)) as Hs by by rewrite <- suser_priv.
    by rewrite (suser_priv_eperm _ _ Hp Hs).
Qed.

Lemma checked_granted (granted : Prop) ok priv p cnt change :
  switch_case priv suser_privs = true -> cred_ok (p_ucred p) ->
  (ok = true <-> granted) ->
  (~ (granted \/ superuser (p_ucred p)) ->
   checked ps pol ngroups_max ok priv p cnt change = (EPERM, (p, cnt))) /\
  (granted \/ superuser (p_ucred p) ->
   checked ps pol ngroups_max ok priv p cnt change =
     (0, proc_set_cred (change (MkWork p (p_ucred p) cnt)))).
Proof.
  intros Hp Hok <-. destruct (checked_cases ok priv p cnt change Hp Hok) as [(-> & Hs & ->)|[H ->]];
    split; try done. by intros [|].
Qed.
End inv.

(** The whole behaviour of a call: refused, or installing [new]. *)
Lemma checked_complete ps pol ngroups_max (granted : Prop) ok priv p cnt change new :
  switch_case priv suser_privs = true -> cred_ok ngroups_max (p_ucred p) ->
  (ok = true <-> granted) ->
  w_new (change (MkWork p (p_ucred p) cnt)) = new ->
  (~ (granted \/ superuser pol (p_ucred p)) ->
   checked ps pol ngroups_max ok priv p cnt change = (EPERM, (p, cnt))) /\
  (granted \/ superuser pol (p_ucred p) -> exists p' cnt',
   checked ps pol ngroups_max ok priv p cnt change = (0, (p', cnt')) /\ p_ucred p' = new).
Proof.
  intros Hp Hok Hg <-.
  destruct (checked_granted ps pol ngroups_max granted ok priv p cnt change Hp Hok Hg) as [H1 H2].
  split; [done|]. intros H. rewrite (H2 H). by eexists _, _.
Qed.

(** The tests that the calls make of an id that may be [NOID]. *)
Lemma one_of_true id a b c :
  negb (wanted id && negb (one_of id a b c)) = true <-> id = NOID \/ id ∈ [a; c; b].
Proof.
  unfold wanted, one_of. set_unfold. destruct (Z.eqb_spec id NOID); cbn [negb andb]; [tauto|].
  rewrite negb_involutive, !orb_true_iff, !Z.eqb_eq. tauto.
Qed.

Lemma wanted_two id a b :
  negb (wanted id && negb (id =? a) && negb (id =? b)) = true <-> id = NOID \/ id ∈ [a; b].
Proof.
  unfold wanted. set_unfold. repeat zcase; cbn; intuition congruence.
Qed.

Lemma wanted_three id a b c :
  negb (wanted id && negb (id =? a) && negb (id =? b) && negb (id =? c)) = true <->
  id = NOID \/ id ∈ [b; a; c].
Proof.
  unfold wanted. set_unfold. repeat zcase; cbn; intuition congruence.
Qed.

(** The credential after a conditional change. *)
Lemma w_new_change_if c f w : w_new (change_if c f w) = if c then w_new (f w) else w_new w.
Proof. by destruct c. Qed.

(** ** Changes *)

(** [U] and [G] are the ids that may be put in, [R] tells whether the group
    list may be replaced. *)
Inductive wstep (ngroups_max : Z) (R : Prop) (U G : Z -> Prop) : work -> work -> Prop :=
  | ws_euid u w : U u -> wstep ngroups_max R U G w (setsugid (change_euid u w))
  | ws_ruid u w : U u -> wstep ngroups_max R U G w (setsugid (change_ruid u w))
  | ws_svuid u w : U u -> wstep ngroups_max R U G w (setsugid (change_svuid u w))
  | ws_egid g w : G g -> wstep ngroups_max R U G w (setsugid (change_egid g w))
  | ws_rgid g w : G g -> wstep ngroups_max R U G w (setsugid (change_rgid g w))
  | ws_svgid g w : G g -> wstep ngroups_max R U G w (setsugid (change_svgid g w))
  | ws_clear w :
      R -> wstep ngroups_max R U G w
             (setsugid (upd_new (fun cr => set_cr_groups (take 1 (cr_groups cr)) cr) w))
  | ws_groups l w :
      R -> 1 <= zlength l <= ngroups_max + 1 ->
      wstep ngroups_max R U G w
        (setsugid (upd_new (fun cr => set_cr_groups (crsetgroups_locked l) cr) w)).
#[export] Hint Constructors wstep : kernel.

(** The work of a process before any change. *)
Definition start (p : proc) (cnt : gmap Z Z) : work := MkWork p (p_ucred p) cnt.

Definition uid_of (R : Prop) (p : proc) (u : Z) : Prop := R \/ u ∈ uids (p_ucred p).
Definition gid_of (R : Prop) (p : proc) (g : Z) : Prop := R \/ g ∈ gids (p_ucred p).

Lemma egid_sorted n g l : sorted_to n l -> sorted_to n (zset l 0 g).
Proof. intros H a b Ha Hb. rewrite !aget_aset_ne by lia. by apply H. Qed.

Lemma cr_gid_egid g w :
  groups_ok (cr_groups (w_new w)) -> cr_gid (w_new (setsugid (change_egid g w))) = g.
Proof. intros [H _]. apply aget_aset_eq. lia. Qed.

Lemma wstep_cred_ok ngroups_max R U G w w' :
  wstep ngroups_max R U G w w' -> cred_ok ngroups_max (w_new w) -> cred_ok ngroups_max (w_new w').
Proof.
  intros Hstep [[Hl Hs] Hm]. destruct Hstep as [| | |g w| | |w HR|l w HR Hlen]; try done; unfold cred_ok, groups_ok;
    cbn [w_new setsugid upd_new change_egid cr_groups set_cr_groups].
  - rewrite zlength_aset. split_and!; [done | by apply egid_sorted | done].
  - assert (zlength (take 1 (cr_groups (w_new w))) = 1) as ->
      by (unfold zlength in *; rewrite length_take; lia).
    split_and!; [lia | | lia]. intros a b Ha Hb. lia.
  - destruct (crsetgroups_locked_spec l) as ([H1 H2] & H3 & _); [lia|].
    assert (zlength (crsetgroups_locked l) = zlength l) as Heq
      by (unfold zlength; by rewrite H3).
    split_and!; [lia | done | lia].
Qed.

Section wsteps.
Context (ngroups_max : Z) (R : Prop) (p : proc) (cnt : gmap Z Z).

Abbreviation wsteps := (rtc (wstep ngroups_max R (uid_of R p) (gid_of R p)) (start p cnt)).

Lemma change_if_wsteps (c : bool) f w :
  wsteps w ->
  (c = true -> wstep ngroups_max R (uid_of R p) (gid_of R p) w (setsugid (f w))) ->
  wsteps (change_if c f w).
Proof.
  intros Hw Hf. unfold change_if. destruct c; [|done]. eapply rtc_r; [done | by apply Hf].
Qed.

(** The new credential is well formed, and its ids are permitted ones. *)
Lemma wsteps_ids w :
  cred_ok ngroups_max (p_ucred p) -> wsteps w ->
  cred_ok ngroups_max (w_new w) /\ Forall (uid_of R p) (uids (w_new w)) /\
  Forall (gid_of R p) (gids (w_new w)).
Proof.
  intros Hok H. pattern w. eapply (rtc_ind_r _ (start p cnt)); [| |exact H]; clear H w.
  - split; [done|]. split; apply Forall_forall; intros x Hx; by right.
  - intros w w' _ Hstep (Hw & Hu & Hg). split; [by eapply wstep_cred_ok|].
    unfold uids, gids in *. rewrite !Forall_cons in *.
    destruct Hu as (Hu1 & Hu2 & Hu3 & _), Hg as (Hg1 & Hg2 & Hg3 & _).
    destruct Hstep; rewrite ?cr_gid_egid by apply Hw; split_and!; first [done | by left].
Qed.
End wsteps.

(** ** Calls are sequences of changes *)

Section calls.
Context (ps : prisons) (pol : policy) (ngroups_max : Z).
Context (p : proc) (cnt : gmap Z Z) (Hok : cred_ok ngroups_max (p_ucred p)).

Abbreviation R := (superuser pol (p_ucred p)).
Abbreviation wsteps := (rtc (wstep ngroups_max R (uid_of R p) (gid_of R p)) (start p cnt)).

(** How a call ends. *)
Definition call_outcome (r : call_result) : Prop :=
  (exists error, error <> 0 /\ r = (error, (p, cnt))) \/
  (exists w, wsteps w /\ r = (0, proc_set_cred w)).

Lemma checked_outcome ok priv change :
  switch_case priv suser_privs = true ->
  (ok = true \/ R -> wsteps (change (start p cnt))) ->
  call_outcome (checked ps pol ngroups_max ok priv p cnt change).
Proof.
  intros Hp Hc. destruct (checked_cases ps pol ngroups_max ok priv p cnt change Hp Hok)
    as [(_ & _ & ->)|[Hr ->]]; [left; by exists EPERM | right; eauto].
Qed.

Lemma wsteps_start : wsteps (start p cnt).
Proof. apply rtc_refl. Qed.

(** The ids of the new credential may be put in again. *)
Lemma wsteps_uid w : wsteps w -> uid_of R p (cr_uid (w_new w)).
Proof.
  intros H. destruct (wsteps_ids _ _ _ _ _ Hok H) as (_ & Hu & _).
  rewrite Forall_forall in Hu. apply Hu. unfold uids. set_unfold. tauto.
Qed.

Lemma wsteps_gid w : wsteps w -> gid_of R p (cr_gid (w_new w)).
Proof.
  intros H. destruct (wsteps_ids _ _ _ _ _ Hok H) as (_ & _ & Hg).
  rewrite Forall_forall in Hg. apply Hg. unfold gids. set_unfold. tauto.
Qed.

(** The test that a call makes of an id puts it among those of the process. *)
Ltac id_among :=
  unfold uid_of, gid_of, uids, gids;
  match goal with Hr : _ \/ R |- _ => destruct Hr as [Hr|Hr]; [right | by left] end;
  bool_to_prop;
  repeat match goal with
  | Hw : wanted ?id = true, H : wanted ?id && _ = false |- _ => rewrite Hw, andb_true_l in H
  | Hw : wanted ?id = true, H : wanted ?id && _ && _ = false |- _ => rewrite Hw, andb_true_l in H
  | Hw : wanted ?id = true, H : wanted ?id && _ && _ && _ = false |- _ =>
      rewrite Hw, andb_true_l in H
  end;
  repeat match goal with H : wanted _ && _ = false |- _ => clear H end;
  repeat match goal with H : wanted _ = true |- _ => clear H end;
  repeat match goal with H : @eq bool _ _ |- _ => revert H end;
  unfold one_of; set_unfold; repeat zcase; cbn [orb]; intros; first [discriminate | lia].

Ltac changes :=
  cbv zeta;
  repeat first [ exact wsteps_start | apply change_if_wsteps ];
  intros ?; constructor; first [id_among | apply wsteps_uid; changes | apply wsteps_gid; changes].

Lemma call_outcomes c : call_ok c -> call_outcome (run_call ps pol ngroups_max c p cnt).
Proof.
  intros Hc. destruct c as [| | | |n [error|l]| | | |]; cbn [run_call];
    try (apply checked_outcome; [done|]; intros Hr; changes).
  - unfold sys_setgroups. destruct (_ <? _); left; [by exists EINVAL | by exists error].
  - unfold sys_setgroups. cbn in Hc. destruct (Z.ltb_spec (ngroups_max + 1) n) as [|Hn];
      [left; by exists EINVAL|].
    apply checked_outcome; [done|]. intros [|HR]; [done|]. eapply rtc_r; [apply wsteps_start|].
    destruct (Z.eqb_spec (zlength l) 0) as [_|Hl]; constructor; [done | done |].
    unfold zlength in *. lia.
Qed.
End calls.

(** ** What changes leave alone *)

(** A real user's share in the process counts. *)
Definition is_user (u ruid : Z) : Z := if u =? ruid then 1 else 0.

Lemma sugid_lor x : Z.land (Z.lor x P_SUGID) P_SUGID <> 0.
Proof.
  unfold P_SUGID. intros H. apply (f_equal (fun z => Z.testbit z 8)) in H.
  rewrite Z.land_spec, Z.lor_spec, Z.bits_0 in H. by rewrite orb_true_r in H.
Qed.

Record changed (p : proc) (cnt : gmap Z Z) (w : work) : Prop := MkChanged {
  ch_pid : p_pid (w_p w) = p_pid p;
  ch_session : p_session (w_p w) = p_session p;
  ch_leader : p_leader (w_p w) = p_leader p;
  ch_flag2 : p_flag2 (w_p w) = p_flag2 p;
  ch_prison : cr_prison (w_new w) = cr_prison (p_ucred p);
  ch_flag :
    w_new w = p_ucred p /\ p_flag (w_p w) = p_flag p \/
    p_flag (w_p w) = Z.lor (p_flag p) P_SUGID;
  ch_cnt : forall u,
    proccnt (w_cnt w) u - is_user u (cr_ruid (w_new w)) =
    proccnt cnt u - is_user u (cr_ruid (p_ucred p))
}.

Lemma proccnt_chg u v d cnt :
  proccnt (snd (chgproccnt v d 0 cnt)) u = proccnt cnt u + d * is_user u v.
Proof.
  unfold proccnt, chgproccnt, chglimit, is_user. rewrite andb_false_r. cbn [snd]. destruct (Z.eqb_spec u v) as [->|Hne].
  - rewrite lookup_insert_eq. cbn. unfold proccnt. lia.
  - rewrite lookup_insert_ne by done. lia.
Qed.

Lemma wsteps_changed ngroups_max R U G p cnt w :
  rtc (wstep ngroups_max R U G) (start p cnt) w -> changed p cnt w.
Proof.
  intros H. pattern w. eapply (rtc_ind_r _ (start p cnt)); [| |exact H]; clear H w.
  { constructor; auto. }
  intros w w' _ Hstep []. assert (p_flag (w_p w') = Z.lor (p_flag p) P_SUGID) as Hf.
  { assert (p_flag (w_p w') = Z.lor (p_flag (w_p w)) P_SUGID) as -> by by destruct Hstep.
    destruct ch_flag0 as [[_ ->]| ->]; [done|]. by rewrite <- Z.lor_assoc, Z.lor_diag. }
  destruct Hstep; constructor; auto. intros v. rewrite <- ch_cnt0.
  cbn [w_cnt w_new setsugid change_ruid cr_ruid].
  rewrite !proccnt_chg. lia.
Qed.

(** Without privilege the ids are those of the process, and the other groups
    stay. *)
Lemma wsteps_groups ngroups_max (R : Prop) U G p cnt w :
  ~ R -> rtc (wstep ngroups_max R U G) (start p cnt) w ->
  drop 1 (cr_groups (w_new w)) = drop 1 (cr_groups (p_ucred p)).
Proof.
  intros HR H. pattern w. eapply (rtc_ind_r _ (start p cnt)); [| |exact H]; clear H w; [done|].
  intros w w' _ Hstep <-. destruct Hstep; try done.
  change (drop 1 (zset (cr_groups (w_new w)) 0 g) = drop 1 (cr_groups (w_new w))).
  unfold aset. by destruct (cr_groups (w_new w)).
Qed.

(** ** Sequences of calls *)

Section sequences.
Context (ps : prisons) (pol : policy) (ngroups_max : Z).

(** One call, as its changes. *)
Lemma call_step_wsteps p cnt p' cnt' :
  cred_ok ngroups_max (p_ucred p) ->
  call_step ps pol ngroups_max (p, cnt) (p', cnt') ->
  exists w,
    rtc (wstep ngroups_max (superuser pol (p_ucred p)) (uid_of (superuser pol (p_ucred p)) p)
           (gid_of (superuser pol (p_ucred p)) p)) (start p cnt) w /\
    p' = set_p_ucred (w_new w) (w_p w) /\ cnt' = w_cnt w.
Proof.
  intros Hok Hstep. inversion Hstep as [c ? ? Hc]; subst.
  destruct (call_outcomes ps pol ngroups_max p cnt Hok c Hc) as [(e & _ & E)|(w & Hw & E)];
    rewrite E in *; cbn in *; simplify_eq.
  - exists (start p' cnt'). split; [apply rtc_refl|]. split; [by destruct p' | done].
  - exists w. split; [exact Hw|]. unfold proc_set_cred in *. by simplify_eq.
Qed.

Lemma call_step_ok p cnt p' cnt' :
  cred_ok ngroups_max (p_ucred p) ->
  call_step ps pol ngroups_max (p, cnt) (p', cnt') -> cred_ok ngroups_max (p_ucred p').
Proof.
  intros Hok Hstep. destruct (call_step_wsteps _ _ _ _ Hok Hstep) as (w & Hw & -> & _).
  by destruct (wsteps_ids _ _ _ _ _ Hok Hw).
Qed.

Lemma call_step_cnt p cnt p' cnt' u :
  cred_ok ngroups_max (p_ucred p) ->
  call_step ps pol ngroups_max (p, cnt) (p', cnt') ->
  proccnt cnt' u =
    proccnt cnt u - is_user u (cr_ruid (p_ucred p)) + is_user u (cr_ruid (p_ucred p')).
Proof.
  intros Hok Hstep. destruct (call_step_wsteps _ _ _ _ Hok Hstep) as (w & Hw & -> & ->).
  pose proof (ch_cnt _ _ _ (wsteps_changed _ _ _ _ _ _ _ Hw) u). cbn. lia.
Qed.

(** Induction over sequences of calls that starts from well-formed
    credentials. *)
Lemma calls_ind (I : proc -> gmap Z Z -> Prop) p cnt p' cnt' :
  cred_ok ngroups_max (p_ucred p) -> I p cnt ->
  (forall q c w, cred_ok ngroups_max (p_ucred q) -> I q c ->
     rtc (wstep ngroups_max (superuser pol (p_ucred q)) (uid_of (superuser pol (p_ucred q)) q)
            (gid_of (superuser pol (p_ucred q)) q)) (start q c) w ->
     I (set_p_ucred (w_new w) (w_p w)) (w_cnt w)) ->
  rtc (call_step ps pol ngroups_max) (p, cnt) (p', cnt') ->
  cred_ok ngroups_max (p_ucred p') /\ I p' cnt'.
Proof.
  intros Hok H0 Hstep Hrtc. change (cred_ok ngroups_max (p_ucred (p', cnt').1) /\
    I (p', cnt').1 (p', cnt').2). pattern (p', cnt').
  eapply (rtc_ind_r _ (p, cnt)); [done | |exact Hrtc].
  intros [q c] [q' c'] _ Hs [Hq HI]. cbn in *. split; [by eapply call_step_ok|].
  destruct (call_step_wsteps _ _ _ _ Hq Hs) as (w & Hw & -> & ->).
  exact (Hstep q c w Hq HI Hw).
Qed.

(** Until the next exec, a changed credential leaves its mark. *)
Lemma calls_mark p cnt p' cnt' :
  cred_ok ngroups_max (p_ucred p) ->
  rtc (call_step ps pol ngroups_max) (p, cnt) (p', cnt') ->
  p_ucred p' <> p_ucred p -> Z.land (p_flag p') P_SUGID <> 0.
Proof.
  intros Hok Hrtc Hne. set (I := fun (q : proc) (_ : gmap Z Z) =>
    p_ucred q = p_ucred p \/ Z.land (p_flag q) P_SUGID <> 0).
  destruct (calls_ind I p cnt p' cnt' Hok) as [_ [H|H]]; [by left | |done|done|done].
  intros q c w _ IH Hw. destruct (ch_flag _ _ _ (wsteps_changed _ _ _ _ _ _ _ Hw)) as [[E F]|F].
  - destruct IH as [IH|IH]; [left; cbn; congruence | right; cbn; by rewrite F].
  - right. cbn. rewrite F. apply sugid_lor.
Qed.

(** A process with no right of root keeps its ids among those it had. *)
Lemma unprivileged_calls p cnt p' cnt' :
  cred_ok ngroups_max (p_ucred p) ->
  0 ∉ uids (p_ucred p) \/ suser_enabled pol = false ->
  rtc (call_step ps pol ngroups_max) (p, cnt) (p', cnt') ->
  uids (p_ucred p') ⊆ uids (p_ucred p) /\ gids (p_ucred p') ⊆ gids (p_ucred p) /\
  drop 1 (cr_groups (p_ucred p')) = drop 1 (cr_groups (p_ucred p)).
Proof.
  intros Hok H0 Hrtc.
  eapply (calls_ind (fun q _ => uids (p_ucred q) ⊆ uids (p_ucred p) /\
    gids (p_ucred q) ⊆ gids (p_ucred p) /\
    drop 1 (cr_groups (p_ucred q)) = drop 1 (cr_groups (p_ucred p)))); [done | done | |done].
  intros q c w Hq (Hu & Hg & Hd) Hw.
  assert (~ superuser pol (p_ucred q)) as HR.
  { intros [Hs Hz]. destruct H0 as [H0|H0]; [|congruence]. apply H0, Hu. rewrite <- Hz.
    unfold uids. set_unfold. tauto. }
  destruct (wsteps_ids _ _ _ _ _ Hq Hw) as (_ & Hu' & Hg').
  rewrite Forall_forall in Hu', Hg'. cbn [p_ucred set_p_ucred]. split_and!.
  - intros x Hx. destruct (Hu' x Hx); [done | by apply Hu].
  - intros x Hx. destruct (Hg' x Hx); [done | by apply Hg].
  - rewrite <- Hd. by eapply wsteps_groups.
Qed.
End sequences.
