(* ===== verification/CredAccess.v ===== *)
(** Who may see, signal, reschedule, debug or wait for whom: the access
    checks of src/sys/kern/kern_prot.c.

    The assertions [td == curthread] and on the process lock state the
    calling convention. MAC is not configured. *)

From stdpp Require Import gmap.
From S2P Require Import Prelude Priv Cred.

Definition ENOENT : Z := 2.
Definition EBUSY : Z := 16.

Definition P_INEXEC : Z := 0x4000000.
Definition P2_NOTRACE : Z := 0x00000002.

Definition SIGHUP : Z := 1.
Definition SIGINT : Z := 2.
Definition SIGKILL : Z := 9.
Definition SIGALRM : Z := 14.
Definition SIGTERM : Z := 15.
Definition SIGSTOP : Z := 17.
Definition SIGTSTP : Z := 18.
Definition SIGCONT : Z := 19.
Definition SIGTTIN : Z := 21.
Definition SIGTTOU : Z := 22.
Definition SIGUSR1 : Z := 30.
Definition SIGUSR2 : Z := 31.
Definition SIGTHR : Z := 32.

(** The process of a thread and the credential the thread runs with, which
    may be older than the one of its process. *)
Record thread := MkThread {
  td_proc : proc;
  td_ucred : ucred
}.

(** The same process, by its number. *)
Definition same_proc (p q : proc) : bool := p_pid p =? p_pid q.

(** [if ((error = e) != 0) return (error);] *)
Definition and_then (e : Z) (k : Z) : Z := if negb (e =? 0) then e else k.

Section access.
Context (ps : prisons) (pol : policy) (initproc : Z).

Abbreviation priv_check_cred := (priv_check_cred ps pol).

Definition priv_check (td : thread) (priv : Z) : Z := priv_check_cred (td_ucred td) priv.

Definition cr_seeotheruids (u1 u2 : ucred) : Z :=
  if negb (see_other_uids pol) && negb (cr_ruid u1 =? cr_ruid u2) then
    if negb (priv_check_cred u1 PRIV_SEEOTHERUIDS =? 0) then ESRCH else 0
  else 0.

Definition cr_seeothergids (u1 u2 : ucred) : Z :=
  if negb (see_other_gids pol) then
    let match_ := existsb (fun gid => groupmember gid u2) (cr_groups u1) in
    if negb match_ then
      if negb (priv_check_cred u1 PRIV_SEEOTHERGIDS =? 0) then ESRCH else 0
    else 0
  else 0.

Definition cr_cansee (u1 u2 : ucred) : Z :=
  and_then (prison_check ps u1 u2)
    (and_then (cr_seeotheruids u1 u2) (and_then (cr_seeothergids u1 u2) 0)).

Definition p_cansee (td : thread) (p : proc) : Z := cr_cansee (td_ucred td) (p_ucred p).

(** The signals that reach a process marked [P_SUGID]. *)
Definition sugid_signal (signum : Z) : bool :=
  switch_case signum [0; SIGKILL; SIGINT; SIGTERM; SIGALRM; SIGSTOP; SIGTTIN; SIGTTOU; SIGTSTP;
                      SIGHUP; SIGUSR1; SIGUSR2].

Definition cr_cansignal (cred : ucred) (p : proc) (signum : Z) : Z :=
  let target := p_ucred p in
  and_then (prison_check ps cred target)
  (and_then (cr_seeotheruids cred target)
  (and_then (cr_seeothergids cred target)
  (and_then (if conservative_signals pol && negb (Z.land (p_flag p) P_SUGID =? 0) then
               if sugid_signal signum then 0 else priv_check_cred cred PRIV_SIGNAL_SUGID
             else 0)
  (and_then (if negb (cr_ruid cred =? cr_ruid target) && negb (cr_ruid cred =? cr_svuid target) &&
                negb (cr_uid cred =? cr_ruid target) && negb (cr_uid cred =? cr_svuid target)
             then priv_check_cred cred PRIV_SIGNAL_DIFFCRED else 0)
   0)))).

(** [p_leader] of both processes, when the first has one. *)
Definition same_leader (p q : proc) : bool :=
  match p_leader p, p_leader q with
  | Some a, Some b => a =? b
  | _, _ => false
  end.

Definition p_cansignal (td : thread) (p : proc) (signum : Z) : Z :=
  if same_proc (td_proc td) p then 0
  else if (signum =? SIGCONT) && (p_session (td_proc td) =? p_session p) then 0
  else if (SIGTHR <=? signum) && (signum <? SIGTHR + 4) && same_leader (td_proc td) p then 0
  else cr_cansignal (td_ucred td) p signum.

Definition p_cansched (td : thread) (p : proc) : Z :=
  let cred := td_ucred td in
  let target := p_ucred p in
  if same_proc (td_proc td) p then 0
  else
    and_then (prison_check ps cred target)
    (and_then (cr_seeotheruids cred target)
    (and_then (cr_seeothergids cred target)
    (and_then (if negb (cr_ruid cred =? cr_ruid target) && negb (cr_uid cred =? cr_ruid target)
               then priv_check td PRIV_SCHED_DIFFCRED else 0)
     0))).

Definition p_candebug (td : thread) (p : proc) : Z :=
  let cred := td_ucred td in
  let target := p_ucred p in
  and_then (if negb (unprivileged_proc_debug pol) then priv_check td PRIV_DEBUG_UNPRIV
            else 0)
  (if same_proc (td_proc td) p then 0
   else
     let grpsubset := forallb (fun gid => groupmember gid cred) (cr_groups target) in
     let grpsubset := grpsubset && groupmember (cr_rgid target) cred &&
                      groupmember (cr_svgid target) cred in
     let uidsubset := (cr_uid cred =? cr_uid target) && (cr_uid cred =? cr_svuid target) &&
                      (cr_uid cred =? cr_ruid target) in
     let credentialchanged := negb (Z.land (p_flag p) P_SUGID =? 0) in
     and_then (prison_check ps cred target)
     (and_then (cr_seeotheruids cred target)
     (and_then (cr_seeothergids cred target)
     (and_then (if negb grpsubset || negb uidsubset
                then priv_check td PRIV_DEBUG_DIFFCRED else 0)
     (and_then (if credentialchanged then priv_check td PRIV_DEBUG_SUGID else 0)
     (and_then (if p_pid p =? initproc then securelevel_gt ps cred 0 else 0)
     (if negb (Z.land (p_flag p) P_INEXEC =? 0) then EBUSY
      else and_then (if negb (Z.land (p_flag2 p) P2_NOTRACE =? 0)
                     then priv_check td PRIV_DEBUG_DENIED else 0) 0))))))).

(** A socket is known by its credential. *)
Definition cr_canseesocket (cred so_cred : ucred) : Z :=
  if negb (prison_check ps cred so_cred =? 0) then ENOENT
  else if negb (cr_seeotheruids cred so_cred =? 0) then ENOENT
  else if negb (cr_seeothergids cred so_cred =? 0) then ENOENT
  else 0.

Definition cr_canseeinpcb (cred inp_cred : ucred) : Z :=
  if negb (prison_check ps cred inp_cred =? 0) then ENOENT
  else if negb (cr_seeotheruids cred inp_cred =? 0) then ENOENT
  else if negb (cr_seeothergids cred inp_cred =? 0) then ENOENT
  else 0.

Definition p_canwait (td : thread) (p : proc) : Z :=
  and_then (prison_check ps (td_ucred td) (p_ucred p)) 0.
End access.
