(* ===== verification/CredProps.v ===== *)
(** Properties of credentials and of the access checks. *)

From stdpp Require Import gmap relations.
From S2P Require Import Prelude Priv Cred CredInv CredAccess.

(** ** An example system: a jail inside a jail, two users and root *)

Definition ex_prisons : prisons :=
  <[2 := MkPrison (Some 1) 0 2 (-1)]> (<[1 := MkPrison (Some 0) 0 2 (-1)]>
    {[0 := MkPrison None 0 0 (-1)]}).
Definition ex_policy : policy := MkPolicy true true false false true true.

(** A user known by the three uids. *)
Definition ex_cred (ruid euid svuid : Z) : ucred :=
  MkUcred euid ruid svuid 100 100 [100; 5; 20] 0.
Definition ex_proc (pid : Z) (cr : ucred) : proc := MkProc pid cr 0 0 0 0 1 None.
Definition ex_counts : gmap Z Z := {[0 := 3; 1001 := 2]}.

Lemma ex_prisons_ok : prisons_ok ex_prisons.
Proof.
  exists Z.to_nat. intros p pr q Hp Hq. unfold ex_prisons in *.
  apply lookup_insert_Some in Hp as [[<- <-]|[_ Hp]].
  { injection Hq as <-. split; [eexists; reflexivity | lia]. }
  apply lookup_insert_Some in Hp as [[<- <-]|[_ Hp]].
  { injection Hq as <-. split; [eexists; reflexivity | lia]. }
  apply lookup_singleton_Some in Hp as [<- <-]. discriminate.
Qed.

Lemma ex_cred_ok ruid euid svuid : cred_ok 1023 (ex_cred ruid euid svuid).
Proof.
  assert (zlength (cr_groups (ex_cred ruid euid svuid)) = 3) as Hl by reflexivity.
  split; [split; [lia|] | lia]. intros a b Ha Hb. rewrite Hl in Hb.
  assert (a = b \/ a = 1 /\ b = 2) as [-> | [-> ->]] by lia; [lia | discriminate].
Qed.

(** ** The id system calls *)

(** The group list that [crsetgroups] installs has the same groups as
    the list given, cut at the limit, with the effective group still first;
    and the binary search of [groupmember] in it answers membership. *)
Theorem crsetgroups_groupmember (ngroups_max : Z) (groups : list Z) (cr : ucred) :
  0 <= ngroups_max -> groups <> [] ->
  let cut := take (Z.to_nat (ngroups_max + 1)) groups in
  let cr' := set_cr_groups (crsetgroups ngroups_max groups) cr in
  cr_groups cr' ≡ₚ cut /\ cr_gid cr' = zget groups 0 /\ cred_ok ngroups_max cr' /\
  forall gid, groupmember gid cr' = true <-> gid ∈ cut.
Proof.
  intros Hn Hg cut cr'.
  assert (1 <= zlength cut <= ngroups_max + 1) as Hlen.
  { unfold cut, zlength. rewrite length_take. destruct groups; [done|]. cbn [length]. lia. }
  destruct (crsetgroups_locked_spec cut) as (H1 & H2 & H3); [lia|].
  assert (zlength (crsetgroups_locked cut) = zlength cut) as Hl by (unfold zlength; by rewrite H2).
  split_and!; [exact H2 | | split; [done | cbn; unfold crsetgroups; fold cut; lia] |].
  - unfold cr_gid. cbn [cr_groups set_cr_groups cr']. unfold crsetgroups. fold cut. rewrite H3.
    unfold cut, aget. destruct groups; [done|].
    replace (Z.to_nat (ngroups_max + 1)) with (S (Z.to_nat ngroups_max)) by lia. done.
  - intros gid. rewrite groupmember_spec by done. change (cr_groups cr') with (crsetgroups_locked cut).
    by rewrite H2.
Qed.

Example crsetgroups_groupmember_witness :
  crsetgroups 3 [7; 9; 2; 5; 1] = [7; 2; 5; 9] /\
  (groupmember 5 (set_cr_groups (crsetgroups 3 [7; 9; 2; 5; 1]) (ex_cred 0 0 0)) = true <->
   5 ∈ take 4 [7; 9; 2; 5; 1]).
Proof.
  split; [reflexivity|].
  refine (proj2 (proj2 (proj2 (crsetgroups_groupmember 3 [7; 9; 2; 5; 1] (ex_cred 0 0 0) _ _))) 5);
    [lia | discriminate].
Defined.

(** C20: every id system call, from a well-formed credential, either fails
    with an errno and changes nothing, or leaves a well-formed credential in
    the same prison; a credential that changed leaves the process marked
    [P_SUGID], and a mark is never taken away. *)
Theorem id_call_correct ps pol ngroups_max (c : id_call) (p : proc) (cnt : gmap Z Z) :
  call_ok c -> cred_ok ngroups_max (p_ucred p) ->
  let '(error, (p', cnt')) := run_call ps pol ngroups_max c p cnt in
  (error <> 0 -> p' = p /\ cnt' = cnt) /\
  cred_ok ngroups_max (p_ucred p') /\ cr_prison (p_ucred p') = cr_prison (p_ucred p) /\
  p_pid p' = p_pid p /\ p_session p' = p_session p /\ p_leader p' = p_leader p /\
  p_flag2 p' = p_flag2 p /\
  (p_ucred p' = p_ucred p /\ p_flag p' = p_flag p \/ p_flag p' = Z.lor (p_flag p) P_SUGID).
Proof.
  intros Hc Hok.
  destruct (call_outcomes ps pol ngroups_max p cnt Hok c Hc) as [(e & He & ->)|(w & Hw & ->)].
  - split_and!; auto.
  - cbn. destruct (wsteps_ids _ _ _ _ _ Hok Hw) as (Hok' & _).
    destruct (wsteps_changed _ _ _ _ _ _ _ Hw). split_and!; auto. done.
Qed.

Example id_call_correct_witness :
  cred_ok 1023 (p_ucred (snd (run_call ex_prisons ex_policy 1023 (Setreuid 1001 0)
    (ex_proc 7 (ex_cred 1001 0 0)) ex_counts)).1).
Proof.
  pose proof (id_call_correct ex_prisons ex_policy 1023 (Setreuid 1001 0)
    (ex_proc 7 (ex_cred 1001 0 0)) ex_counts I (ex_cred_ok 1001 0 0)) as H.
  destruct (run_call _ _ _ _ _ _) as [e [p' cnt']]. apply H.
Defined.

(** C15: a process none of whose user ids is 0, or any process when the
    superuser is disabled, never gets a user id or a group id other than
    those it has, whatever id system calls it makes, in whatever order, and
    its other groups stay as they are. *)
Theorem unprivileged_confined ps pol ngroups_max (p p' : proc) (cnt cnt' : gmap Z Z) :
  cred_ok ngroups_max (p_ucred p) ->
  0 ∉ uids (p_ucred p) \/ suser_enabled pol = false ->
  rtc (call_step ps pol ngroups_max) (p, cnt) (p', cnt') ->
  uids (p_ucred p') ⊆ uids (p_ucred p) /\ gids (p_ucred p') ⊆ gids (p_ucred p) /\
  drop 1 (cr_groups (p_ucred p')) = drop 1 (cr_groups (p_ucred p)).
Proof. apply unprivileged_calls. Qed.

Lemma ex_not_root a b c : a <> 0 -> b <> 0 -> c <> 0 -> 0 ∉ uids (ex_cred a b c).
Proof. intros ? ? ? H. unfold uids in H. cbn in H. set_unfold in H. lia. Qed.

(** A setuid program of user 1002 that user 1001 runs swaps its ids. *)
Example unprivileged_confined_witness :
  let r := run_call ex_prisons ex_policy 1023 (Setreuid 1002 1001)
             (ex_proc 7 (ex_cred 1001 1002 1002)) ex_counts in
  uids (p_ucred (snd r).1) = [1002; 1001; 1001] /\
  uids (p_ucred (snd r).1) ⊆ uids (ex_cred 1001 1002 1002).
Proof.
  intros r. split; [reflexivity|].
  refine (proj1 (unprivileged_confined ex_prisons ex_policy 1023
    (ex_proc 7 (ex_cred 1001 1002 1002)) (snd r).1 ex_counts (snd r).2 (ex_cred_ok _ _ _)
    (or_introl (ex_not_root 1001 1002 1002 _ _ _)) _)); try lia.
  apply rtc_once. exact (do_call ex_prisons ex_policy 1023 (Setreuid 1002 1001)
    (ex_proc 7 (ex_cred 1001 1002 1002)) ex_counts I).
Defined.

(** [setuid] is refused with [EPERM] unless the id is the real or the
    effective one or the caller is the superuser; when granted it sets all
    three ids, counts the process under its new real user, and giving up
    root this way is for good: no later sequence of id calls changes an
    id. *)
Theorem sys_setuid_correct ps pol ngroups_max (p : proc) (cnt : gmap Z Z) (uid : Z) :
  cred_ok ngroups_max (p_ucred p) ->
  let old := p_ucred p in
  let granted := uid = cr_ruid old \/ uid = cr_uid old \/ superuser pol old in
  (~ granted -> sys_setuid ps pol ngroups_max p cnt uid = (EPERM, (p, cnt))) /\
  (granted ->
   exists p' cnt',
     sys_setuid ps pol ngroups_max p cnt uid = (0, (p', cnt')) /\
     p_ucred p' = MkUcred uid uid uid (cr_rgid old) (cr_svgid old) (cr_groups old) (cr_prison old) /\
     (forall u, proccnt cnt' u = proccnt cnt u - is_user u (cr_ruid old) + is_user u uid) /\
     (uid <> 0 -> forall p'' cnt'',
        rtc (call_step ps pol ngroups_max) (p', cnt') (p'', cnt'') ->
        Forall (eq uid) (uids (p_ucred p'')))).
Proof.
  intros Hok old granted. subst granted old.
  destruct (checked_granted ps pol ngroups_max (uid = cr_ruid (p_ucred p) \/ uid = cr_uid (p_ucred p))
    ((uid =? cr_ruid (p_ucred p)) || (uid =? cr_uid (p_ucred p))) PRIV_CRED_SETUID p cnt (fun w =>
    let w := change_if (negb (uid =? cr_ruid (p_ucred p))) (change_ruid uid) w in
    let w := change_if (negb (uid =? cr_svuid (p_ucred p))) (change_svuid uid) w in
    change_if (negb (uid =? cr_uid (p_ucred p))) (change_euid uid) w) eq_refl Hok) as [Hdeny Hgrant].
  { rewrite orb_true_iff, !Z.eqb_eq. done. }
  change (sys_setuid ps pol ngroups_max p cnt uid) with
    (run_call ps pol ngroups_max (Setuid uid) p cnt).
  split; [intros H; apply Hdeny; tauto|]. intros H.
  assert (run_call ps pol ngroups_max (Setuid uid) p cnt = _) as Hrun
    by (apply Hgrant; tauto).
  pose proof (do_call ps pol ngroups_max (Setuid uid) p cnt I) as Hstep. rewrite Hrun in *.
  cbv beta zeta in *. unfold proc_set_cred in *. cbn [snd] in Hstep.
  match type of Hstep with call_step _ _ _ _ (?q, ?c) => set (p' := q) in *; set (c' := c) in * end.
  assert (p_ucred p' = MkUcred uid uid uid (cr_rgid (p_ucred p)) (cr_svgid (p_ucred p))
    (cr_groups (p_ucred p)) (cr_prison (p_ucred p)))
    as Hnew.
  { unfold p'. cbn [p_ucred set_p_ucred]. rewrite !w_new_change_if.
    repeat zcase; subst; cbn; by destruct (p_ucred p); cbn in *; subst. }
  exists p', c'. split_and!; [done | done | |].
  - intros u. rewrite (call_step_cnt _ _ _ _ _ _ _ u Hok Hstep), Hnew. done.
  - intros Hu q c Hc. assert (uids (p_ucred q) ⊆ uids (p_ucred p')) as Hsub.
    { eapply unprivileged_calls; [by eapply call_step_ok | left; rewrite Hnew | done].
      unfold uids. cbn. set_unfold. lia. }
    apply Forall_forall. intros x Hx. specialize (Hsub x Hx). rewrite Hnew in Hsub.
    unfold uids in Hsub. cbn in Hsub. set_unfold in Hsub. lia.
Qed.

Example sys_setuid_correct_witness :
  exists p' cnt',
    sys_setuid ex_prisons ex_policy 1023 (ex_proc 7 (ex_cred 0 0 0)) ex_counts 1001 = (0, (p', cnt')) /\
    uids (p_ucred p') = [1001; 1001; 1001] /\ proccnt cnt' 1001 = 3 /\ proccnt cnt' 0 = 2 /\
    sys_setuid ex_prisons ex_policy 1023 p' cnt' 0 = (EPERM, (p', cnt')).
Proof.
  destruct (proj2 (sys_setuid_correct ex_prisons ex_policy 1023 (ex_proc 7 (ex_cred 0 0 0))
    ex_counts 1001 (ex_cred_ok 0 0 0))) as (p' & cnt' & H1 & H2 & H3 & _).
  { right. right. by split. }
  exists p', cnt'. split; [exact H1|]. rewrite !H3, H2. split_and!; [done..|].
  apply (sys_setuid_correct ex_prisons ex_policy 1023 p' cnt' 0).
  - rewrite H2. apply (ex_cred_ok 1001 1001 1001).
  - rewrite H2. intros [?|[?|[_ ?]]]; discriminate.
Defined.

(** [setresuid] is refused with [EPERM] unless each id that is wanted
    is among the three of the caller or the caller is the superuser; when
    granted it sets exactly the ids wanted. [setreuid] admits for the real
    id only the real and the saved one; when granted the saved id becomes the
    new effective one if a real id is wanted or the new two differ. *)
Theorem setresuid_setreuid_correct ps pol ngroups_max (p : proc) (cnt : gmap Z Z) (r e s : Z) :
  cred_ok ngroups_max (p_ucred p) ->
  let old := p_ucred p in
  let ok ids id := id = NOID \/ id ∈ ids in
  let set id was := if id =? NOID then was else id in
  let ruid := set r (cr_ruid old) in
  let euid := set e (cr_uid old) in
  let granted1 := ok (uids old) r /\ ok (uids old) e /\ ok (uids old) s \/ superuser pol old in
  let granted2 := ok [cr_ruid old; cr_svuid old] r /\ ok (uids old) e \/ superuser pol old in
  let new svuid :=
    MkUcred euid ruid svuid (cr_rgid old) (cr_svgid old) (cr_groups old) (cr_prison old) in
  (~ granted1 -> sys_setresuid ps pol ngroups_max p cnt r e s = (EPERM, (p, cnt))) /\
  (granted1 -> exists p' cnt',
     sys_setresuid ps pol ngroups_max p cnt r e s = (0, (p', cnt')) /\
     p_ucred p' = new (set s (cr_svuid old))) /\
  (~ granted2 -> sys_setreuid ps pol ngroups_max p cnt r e = (EPERM, (p, cnt))) /\
  (granted2 -> exists p' cnt',
     sys_setreuid ps pol ngroups_max p cnt r e = (0, (p', cnt')) /\
     p_ucred p' =
       new (if negb (r =? NOID) || negb (euid =? ruid) then euid else cr_svuid old)).
Proof.
  intros Hok. cbv zeta. apply and_assoc. split.
  - apply checked_complete; [done | done | |].
    + rewrite !negb_orb, !andb_true_iff, !one_of_true. tauto.
    + cbv zeta. rewrite !w_new_change_if. unfold wanted.
      repeat zcase; cbn; subst; by destruct (p_ucred p).
  - apply checked_complete; [done | done | |].
    + by rewrite negb_orb, andb_true_iff, wanted_two, wanted_three.
    + cbv zeta. rewrite !w_new_change_if. unfold wanted.
      generalize (p_ucred p); intros old.
      repeat zcase; cbn in *; subst; destruct old; cbn in *; congruence.
Qed.

Example setresuid_setreuid_correct_witness :
  exists p' cnt',
    sys_setreuid ex_prisons ex_policy 1023 (ex_proc 7 (ex_cred 1001 1002 1002)) ex_counts 1002 1001 =
      (0, (p', cnt')) /\ uids (p_ucred p') = [1002; 1001; 1001].
Proof.
  destruct (proj2 (proj2 (proj2 (setresuid_setreuid_correct ex_prisons ex_policy 1023
    (ex_proc 7 (ex_cred 1001 1002 1002)) ex_counts 1002 1001 0 (ex_cred_ok _ _ _)))))
    as (p' & cnt' & H1 & H2).
  { left. split; right; cbn; set_unfold; lia. }
  exists p', cnt'. split; [exact H1|]. by rewrite H2.
Defined.

(** The process counts follow the real user id: over any sequence of id
    system calls of a process, each user's count changes by what the process
    itself adds to it or takes from it. *)
Theorem process_counts_follow ps pol ngroups_max (p p' : proc) (cnt cnt' : gmap Z Z) :
  cred_ok ngroups_max (p_ucred p) ->
  rtc (call_step ps pol ngroups_max) (p, cnt) (p', cnt') ->
  forall u,
    proccnt cnt' u =
      proccnt cnt u - is_user u (cr_ruid (p_ucred p)) + is_user u (cr_ruid (p_ucred p')).
Proof.
  intros Hok Hrtc. set (I := fun (q : proc) (c : gmap Z Z) => forall u, proccnt c u =
    proccnt cnt u - is_user u (cr_ruid (p_ucred p)) + is_user u (cr_ruid (p_ucred q))).
  destruct (calls_ind ps pol ngroups_max I p cnt p' cnt' Hok) as [_ H]; [| |done|exact H].
  - intros u. lia.
  - intros q c w Hq IH Hw u. specialize (IH u).
    pose proof (ch_cnt _ _ _ (wsteps_changed _ _ _ _ _ _ _ Hw) u). cbn in *. lia.
Qed.

Example process_counts_follow_witness :
  let r1 := run_call ex_prisons ex_policy 1023 (Setuid 1001) (ex_proc 7 (ex_cred 0 0 0)) ex_counts in
  proccnt (snd r1).2 1001 = 3 /\
  (forall u, proccnt (snd r1).2 u = proccnt ex_counts u - is_user u 0 + is_user u 1001).
Proof.
  intros r1. split; [reflexivity|].
  refine (process_counts_follow ex_prisons ex_policy 1023 (ex_proc 7 (ex_cred 0 0 0)) (snd r1).1
    ex_counts (snd r1).2 (ex_cred_ok 0 0 0) _).
  apply rtc_once. exact (do_call ex_prisons ex_policy 1023 (Setuid 1001)
    (ex_proc 7 (ex_cred 0 0 0)) ex_counts I).
Defined.

(** ** Access checks *)

Lemma and_then_0 e k : and_then e k = 0 <-> e = 0 /\ k = 0.
Proof. unfold and_then. destruct (Z.eqb_spec e 0); cbn; intuition. Qed.

Lemma if_priv_0 ps pol (b : bool) cred priv :
  switch_case priv suser_privs = true ->
  (if b then priv_check_cred ps pol cred priv else 0) = 0 <-> (b = false \/ superuser pol cred).
Proof. intros Hp. destruct b; [rewrite suser_priv by done|]; intuition discriminate. Qed.

(** What the [see_other_uids] policy asks. *)
Lemma seeotheruids_0 ps pol u1 u2 :
  cr_seeotheruids ps pol u1 u2 = 0 <->
  see_other_uids pol = true \/ cr_ruid u1 = cr_ruid u2 \/ superuser pol u1.
Proof.
  unfold cr_seeotheruids. rewrite <- (suser_priv ps pol u1 PRIV_SEEOTHERUIDS) by done.
  destruct (see_other_uids pol); cbn [negb andb]; [tauto|].
  destruct (Z.eqb_spec (cr_ruid u1) (cr_ruid u2)); cbn [negb]; [tauto|].
  destruct (Z.eqb_spec (priv_check_cred ps pol u1 PRIV_SEEOTHERUIDS) 0); cbn [negb];
    intuition discriminate.
Qed.

(** What the [see_other_gids] policy asks. *)
Lemma seeothergids_0 ps pol u1 u2 :
  groups_ok (cr_groups u2) ->
  cr_seeothergids ps pol u1 u2 = 0 <->
  see_other_gids pol = true \/ (exists g, g ∈ cr_groups u1 /\ g ∈ cr_groups u2) \/ superuser pol u1.
Proof.
  intros Hg. unfold cr_seeothergids. rewrite <- (suser_priv ps pol u1 PRIV_SEEOTHERGIDS) by done.
  assert (existsb (fun gid => groupmember gid u2) (cr_groups u1) = true <->
    exists g, g ∈ cr_groups u1 /\ g ∈ cr_groups u2) as <-.
  { rewrite existsb_exists. setoid_rewrite groupmember_spec; [|done].
    setoid_rewrite <- list_elem_of_In. done. }
  destruct (see_other_gids pol), (existsb _ _); cbn [negb]; try tauto.
  destruct (Z.eqb_spec (priv_check_cred ps pol u1 PRIV_SEEOTHERGIDS) 0); cbn [negb];
    intuition discriminate.
Qed.

(** Privileges that root does not have in a jail. *)
Lemma debug_denied_priv ps pol cred :
  priv_check_cred ps pol cred PRIV_DEBUG_DENIED = 0 <->
  jailed cred = false /\ superuser pol cred.
Proof.
  unfold priv_check_cred, superuser.
  assert (prison_priv_check ps cred PRIV_DEBUG_DENIED = if jailed cred then EPERM else 0) as ->
    by (unfold prison_priv_check; by destruct (jailed cred)).
  destruct (jailed cred), (unprivileged_mlock pol), (suser_enabled pol),
    (Z.eqb_spec (cr_uid cred) 0); cbn; intuition discriminate.
Qed.

Definition debug_gids_ok (cred target : ucred) : Prop :=
  forall g, g ∈ cr_rgid target :: cr_svgid target :: cr_groups target -> g ∈ cr_groups cred.

Definition debug_ids_ok (cred target : ucred) : Prop :=
  debug_gids_ok cred target /\ Forall (eq (cr_uid cred)) (uids target).

Lemma debug_ids_test cred target :
  groups_ok (cr_groups cred) ->
  negb (forallb (fun gid => groupmember gid cred) (cr_groups target) &&
        groupmember (cr_rgid target) cred && groupmember (cr_svgid target) cred) ||
  negb ((cr_uid cred =? cr_uid target) && (cr_uid cred =? cr_svuid target) &&
        (cr_uid cred =? cr_ruid target)) = false <->
  debug_ids_ok cred target.
Proof.
  intros Hg. rewrite orb_false_iff, !negb_false_iff, !andb_true_iff, forallb_forall, !Z.eqb_eq,
    !groupmember_spec by done.
  setoid_rewrite groupmember_spec; [|done]. setoid_rewrite <- list_elem_of_In.
  unfold debug_ids_ok, debug_gids_ok, uids. rewrite !Forall_cons.
  setoid_rewrite elem_of_cons. setoid_rewrite elem_of_cons.
  split.
  - intros [[[H1 H2] H3] [[H4 H5] H6]]. split_and!; try done. intros g [->|[->|?]]; auto.
  - intros [H1 (H2 & H3 & H4 & _)]. split_and!; auto.
Qed.

(** C37: a thread may debug another process exactly when debugging by the
    unprivileged is enabled, the target is in its prison or inside it,
    visible, has no group that the thread lacks and no user id but the
    thread's effective one, has not changed credentials (the superuser needs
    none of these except the prison), is not init under a raised
    securelevel, is not in the middle of exec, and did not forbid tracing
    unless an unjailed superuser asks. *)
Theorem p_candebug_correct ps pol initproc (td : thread) (p : proc) :
  prisons_ok ps -> is_Some (ps !! cr_prison (p_ucred p)) ->
  groups_ok (cr_groups (td_ucred td)) -> groups_ok (cr_groups (p_ucred p)) ->
  p_pid (td_proc td) <> p_pid p ->
  let cred := td_ucred td in
  let target := p_ucred p in
  let su := superuser pol cred in
  p_candebug ps pol initproc td p = 0 <->
    (unprivileged_proc_debug pol = true \/ su) /\
    (cr_prison cred = cr_prison target \/ contains ps (cr_prison cred) (cr_prison target)) /\
    (see_other_uids pol = true \/ cr_ruid cred = cr_ruid target \/ su) /\
    (see_other_gids pol = true \/
     (exists g, g ∈ cr_groups cred /\ g ∈ cr_groups target) \/ su) /\
    (debug_ids_ok cred target \/ su) /\
    (Z.land (p_flag p) P_SUGID = 0 \/ su) /\
    (p_pid p = initproc -> pr_securelevel (get_prison ps (cr_prison cred)) <= 0) /\
    Z.land (p_flag p) P_INEXEC = 0 /\
    (Z.land (p_flag2 p) P2_NOTRACE = 0 \/ jailed cred = false /\ su).
Proof.
  intros Hps Hin Hg1 Hg2 Hne. cbv zeta. unfold p_candebug, same_proc, priv_check. ztest.
  rewrite !and_then_0, !if_priv_0, prison_check_spec, seeotheruids_0, seeothergids_0,
    debug_ids_test, !negb_false_iff, Z.eqb_eq by done.
  assert ((if p_pid p =? initproc then securelevel_gt ps (td_ucred td) 0 else 0) = 0 <->
    (p_pid p = initproc -> pr_securelevel (get_prison ps (cr_prison (td_ucred td))) <= 0)) as ->.
  { unfold securelevel_gt. repeat zcase; split; try discriminate; try lia. }
  do 7 (apply and_iff_compat_l).
  destruct (Z.eqb_spec (Z.land (p_flag p) P_INEXEC) 0) as [->|Hx]; cbn [negb];
    [|intuition discriminate].
  rewrite and_then_0. destruct (Z.eqb_spec (Z.land (p_flag2 p) P2_NOTRACE) 0); cbn [negb];
    [tauto | rewrite debug_denied_priv; tauto].
Qed.

Definition ex_jailed (uid pr : Z) : ucred := MkUcred uid uid uid 100 100 [100; 5; 20] pr.

(** The jailed root and a process of the jail inside; a user and another's
    process. *)
Example p_candebug_correct_witness :
  p_candebug ex_prisons ex_policy 1
    (MkThread (ex_proc 7 (ex_jailed 0 1)) (ex_jailed 0 1)) (ex_proc 8 (ex_jailed 1001 2)) = 0 /\
  (contains ex_prisons 1 2).
Proof.
  pose proof (proj1 (p_candebug_correct ex_prisons ex_policy 1
    (MkThread (ex_proc 7 (ex_jailed 0 1)) (ex_jailed 0 1)) (ex_proc 8 (ex_jailed 1001 2))
    ex_prisons_ok (ex_intro _ _ eq_refl) (proj1 (ex_cred_ok 0 0 0)) (proj1 (ex_cred_ok 0 0 0))
    ltac:(discriminate))) as H.
  split; [reflexivity|]. by destruct (H eq_refl) as (_ & [?|?] & _).
Defined.

(** Who may debug a process may also send it any signal and reschedule
    it, and, unless it is its own, see it and wait for it. *)
Theorem debug_implies_control ps pol initproc (td : thread) (p : proc) (signum : Z) :
  groups_ok (cr_groups (td_ucred td)) -> groups_ok (cr_groups (p_ucred p)) ->
  p_candebug ps pol initproc td p = 0 ->
  p_cansignal ps pol td p signum = 0 /\ p_cansched ps pol td p = 0 /\
  (p_pid (td_proc td) <> p_pid p -> p_cansee ps pol td p = 0 /\ p_canwait ps td p = 0).
Proof.
  intros Hg1 Hg2. unfold p_candebug, p_cansignal, p_cansched, same_proc, priv_check.
  destruct (Z.eqb_spec (p_pid (td_proc td)) (p_pid p)) as [Heq|Hne]; [by rewrite Heq|].
  rewrite !and_then_0, !if_priv_0, debug_ids_test by done.
  intros (_ & Hprison & Huid & Hgid & Hids & Hsugid & _).
  assert (cr_uid (td_ucred td) = cr_ruid (p_ucred p) \/ superuser pol (td_ucred td)) as Hsame.
  { destruct Hids as [[_ Hf]|]; [left | by right]. by inversion Hf. }
  split; [|split].
  - destruct ((signum =? SIGCONT) && _); [done|]. destruct (_ && same_leader _ _); [done|].
    unfold cr_cansignal. cbv zeta.
    rewrite !and_then_0. split_and!; try done.
    + destruct Hsugid as [->|Hsu]; [by rewrite andb_false_r|].
      repeat case_match; try done. by apply suser_priv.
    + apply if_priv_0; [done|]. destruct Hsame as [->|Hsu]; [left | by right].
      rewrite Z.eqb_refl. by rewrite andb_false_r.
  - split_and!; try done. destruct Hsame as [->|Hsu]; [left | by right].
    rewrite Z.eqb_refl. by rewrite andb_false_r.
  - intros _. unfold p_cansee, cr_cansee, p_canwait. by rewrite !and_then_0.
Qed.

Example debug_implies_control_witness :
  p_cansignal ex_prisons ex_policy
    (MkThread (ex_proc 7 (ex_cred 1001 1001 1001)) (ex_cred 1001 1001 1001))
    (ex_proc 8 (ex_cred 1001 1001 1001)) SIGKILL = 0.
Proof.
  refine (proj1 (debug_implies_control ex_prisons ex_policy 1
    (MkThread (ex_proc 7 (ex_cred 1001 1001 1001)) (ex_cred 1001 1001 1001))
    (ex_proc 8 (ex_cred 1001 1001 1001)) SIGKILL (proj1 (ex_cred_ok _ _ _))
    (proj1 (ex_cred_ok _ _ _)) _)). reflexivity.
Defined.

Lemma contains_asym ps a b : prisons_ok ps -> contains ps a b -> ~ contains ps b a.
Proof.
  intros [depth Hd]. assert (forall x y, contains ps x y -> (depth x < depth y)%nat) as Hlt.
  { intros x y H. induction H as [p pr Hp Hq|p pr q Hp Hq _ IH].
    - by destruct (Hd p pr x Hp Hq).
    - destruct (Hd p pr q Hp Hq). lia. }
  intros H1 H2. apply Hlt in H1, H2. lia.
Qed.

(** Every access check keeps to the prison of the subject: what a
    credential may see, signal, reschedule, debug or wait for, or whose
    sockets it may see, is of the same prison or of one inside it; and from a
    prison inside, nothing of the one around is visible in turn. *)
Theorem access_confined ps pol initproc (td : thread) (p : proc) (signum : Z) :
  prisons_ok ps -> is_Some (ps !! cr_prison (p_ucred p)) ->
  is_Some (ps !! cr_prison (td_ucred td)) ->
  let cred := td_ucred td in
  let target := p_ucred p in
  cr_cansee ps pol cred target = 0 \/ cr_cansignal ps pol cred p signum = 0 \/
  (p_pid (td_proc td) <> p_pid p /\
   (p_cansched ps pol td p = 0 \/ p_candebug ps pol initproc td p = 0)) \/
  p_canwait ps td p = 0 \/ cr_canseesocket ps pol cred target = 0 \/
  cr_canseeinpcb ps pol cred target = 0 ->
  cr_prison cred = cr_prison target \/
  contains ps (cr_prison cred) (cr_prison target) /\
  cr_cansee ps pol target cred = ESRCH /\ cr_canseesocket ps pol target cred = ENOENT.
Proof.
  intros Hps Hin1 Hin2 cred target H.
  assert (prison_check ps cred target = 0) as Hc.
  { revert H. unfold cr_cansee, cr_cansignal, p_cansched, p_candebug, p_canwait, same_proc,
      cr_canseesocket, cr_canseeinpcb. fold cred target.
    destruct (Z.eqb_spec (prison_check ps cred target) 0) as [|Hne]; [done|]. cbn [negb].
    intros H. exfalso. revert H. destruct (Z.eqb_spec (p_pid (td_proc td)) (p_pid p)).
    - rewrite !and_then_0. intuition discriminate.
    - rewrite !and_then_0. intuition discriminate. }
  apply prison_check_spec in Hc as [?|Hc]; [by left | right | done | done].
  assert (prison_check ps target cred = ESRCH) as Hback.
  { unfold prison_check. destruct (Z.eqb_spec (cr_prison target) (cr_prison cred)) as [E|].
    - rewrite E in Hc. by destruct (contains_asym ps _ _ Hps Hc).
    - cbn [orb]. destruct Hps as [depth Hd].
      destruct (prison_ischild ps (cr_prison target) (cr_prison cred)) eqn:E; [|done].
      apply (ischild_spec ps depth Hd) in E; [|done]. by destruct (contains_asym ps _ _ (ex_intro _ _ Hd) Hc). }
  split; [done|]. unfold cr_cansee, cr_canseesocket. by rewrite Hback.
Qed.

Example access_confined_witness :
  cr_cansee ex_prisons ex_policy (ex_jailed 0 1) (ex_jailed 1001 2) = 0 /\
  contains ex_prisons 1 2.
Proof.
  split; [reflexivity|].
  destruct (access_confined ex_prisons ex_policy 1 (MkThread (ex_proc 7 (ex_jailed 0 1)) (ex_jailed 0 1))
    (ex_proc 8 (ex_jailed 1001 2)) SIGHUP ex_prisons_ok (ex_intro _ _ eq_refl) (ex_intro _ _ eq_refl)
    (or_introl eq_refl)) as [?|[? _]]; [discriminate | assumption].
Defined.

(** Once a sequence of id system calls has changed the credential of a
    process, no other process without the right of root can debug it, nor,
    with conservative signals, send it a signal outside the fixed set for
    process and terminal control. *)
Theorem changed_credentials_protected ps pol ngroups_max initproc (td : thread)
    (p p' : proc) (cnt cnt' : gmap Z Z) (signum : Z) :
  cred_ok ngroups_max (p_ucred p) ->
  rtc (call_step ps pol ngroups_max) (p, cnt) (p', cnt') -> p_ucred p' <> p_ucred p ->
  ~ superuser pol (td_ucred td) -> p_pid (td_proc td) <> p_pid p' ->
  p_candebug ps pol initproc td p' <> 0 /\
  (conservative_signals pol = true ->
   signum ∉ [0; SIGKILL; SIGINT; SIGTERM; SIGALRM; SIGSTOP; SIGTTIN; SIGTTOU; SIGTSTP; SIGHUP;
             SIGUSR1; SIGUSR2] ->
   cr_cansignal ps pol (td_ucred td) p' signum <> 0).
Proof.
  intros Hok Hrtc Hne Hsu Hpid. pose proof (calls_mark ps pol _ _ _ _ _ Hok Hrtc Hne) as Hmark.
  split.
  - unfold p_candebug, same_proc, priv_check. ztest. rewrite !and_then_0, !if_priv_0 by done.
    by intros (_ & _ & _ & _ & _ & [H|H] & _).
  - intros Hc Hsig. unfold cr_cansignal. cbv zeta. rewrite Hc, !and_then_0. ztest. cbn [negb andb].
    assert (sugid_signal signum = false) as ->.
    { destruct (sugid_signal signum) eqn:E; [|done]. apply existsb_exists in E as (x & Hx & E).
      apply Z.eqb_eq in E as ->. by apply list_elem_of_In in Hx. }
    rewrite (suser_priv ps pol (td_ucred td) PRIV_SIGNAL_SUGID) by done.
    by intros (_ & _ & _ & ? & _).
Qed.

(** The program of user 1002 dropped to user 1001, who still may not look
    into it. *)
Example changed_credentials_protected_witness :
  let r := run_call ex_prisons ex_policy 1023 (Setresuid 1001 1001 1001)
             (ex_proc 7 (ex_cred 1001 1002 1002)) ex_counts in
  p_candebug ex_prisons ex_policy 1
    (MkThread (ex_proc 8 (ex_cred 1001 1001 1001)) (ex_cred 1001 1001 1001)) (snd r).1 <> 0 /\
  uids (p_ucred (snd r).1) = [1001; 1001; 1001].
Proof.
  intros r. split; [|reflexivity].
  refine (proj1 (changed_credentials_protected ex_prisons ex_policy 1023 1
    (MkThread (ex_proc 8 (ex_cred 1001 1001 1001)) (ex_cred 1001 1001 1001))
    (ex_proc 7 (ex_cred 1001 1002 1002)) (snd r).1 ex_counts (snd r).2 SIGHUP
    (ex_cred_ok _ _ _) _ _ _ _)).
  - apply rtc_once. exact (do_call ex_prisons ex_policy 1023 (Setresuid 1001 1001 1001)
      (ex_proc 7 (ex_cred 1001 1002 1002)) ex_counts I).
  - discriminate.
  - intros [_ H]. discriminate H.
  - discriminate.
Defined.
