(* ===== verification/Acl.v ===== *)
(** Discretionary access control of files: [vaccess] of
    src/sys/kern/vfs_subr.c and the POSIX.1e access control lists of
    src/sys/kern/subr_acl_posix1e.c and src/sys/kern/vfs_acl.c.

    An ACL is the list of its [acl_cnt] entries; a pointer to an entry is its
    index. The caller's [privused] is part of the result. *)

From stdpp Require Import gmap.
From S2P Require Import Prelude Priv Cred.

(** ** Constants of vnode.h, stat.h, acl.h and errno.h *)

Definition VEXEC : Z := 0x40.
Definition VWRITE : Z := 0x80.
Definition VREAD : Z := 0x100.
Definition VADMIN : Z := 0x1000.
Definition VAPPEND : Z := 0x4000.

Definition S_IRUSR : Z := 0x100.
Definition S_IWUSR : Z := 0x80.
Definition S_IXUSR : Z := 0x40.
Definition S_IRGRP : Z := 0x20.
Definition S_IWGRP : Z := 0x10.
Definition S_IXGRP : Z := 0x8.
Definition S_IROTH : Z := 0x4.
Definition S_IWOTH : Z := 0x2.
Definition S_IXOTH : Z := 0x1.

Definition ACL_MAX_ENTRIES : Z := 254.
Definition OLDACL_MAX_ENTRIES : Z := 32.
Definition ACL_USER_OBJ : Z := 0x1.
Definition ACL_USER : Z := 0x2.
Definition ACL_GROUP_OBJ : Z := 0x4.
Definition ACL_GROUP : Z := 0x8.
Definition ACL_MASK : Z := 0x10.
Definition ACL_OTHER : Z := 0x20.
Definition ACL_EXECUTE : Z := 0x1.
Definition ACL_WRITE : Z := 0x2.
Definition ACL_READ : Z := 0x4.
Definition ACL_PERM_BITS : Z := 0x7.
Definition ACL_UNDEFINED_ID : Z := 0xffffffff.
Definition ACL_OVERRIDE_MASK : Z := 0x1ff.
Definition ACL_PRESERVE_MASK : Z := Z.lnot ACL_OVERRIDE_MASK.

Definition EACCES : Z := 13.

Inductive vtype : Type := VNON | VREG | VDIR | VBLK | VCHR | VLNK | VSOCK | VFIFO | VBAD | VMARKER.
#[export] Instance vtype_eq_dec : EqDecision vtype.
Proof. solve_decision. Defined.

Record acl_entry := MkAclEntry {
  ae_tag : Z;
  ae_id : Z;
  ae_perm : Z;
  ae_entry_type : Z;
  ae_flags : Z
}.

Abbreviation acl := (list acl_entry).

Definition set_ae_id (v : Z) (e : acl_entry) : acl_entry :=
  MkAclEntry (ae_tag e) v (ae_perm e) (ae_entry_type e) (ae_flags e).
Definition set_ae_perm (v : Z) (e : acl_entry) : acl_entry :=
  MkAclEntry (ae_tag e) (ae_id e) v (ae_entry_type e) (ae_flags e).

(** [x & flag] as a test. *)
Definition has (x flag : Z) : bool := negb (Z.land x flag =? 0).

(** [if (c) x |= flag;] *)
Definition flag_if (c : bool) (flag : Z) : Z := if c then flag else 0.

(** ** Modes and entries *)

(** [None] after the complaint about the tag. *)
Definition mode_bits (tag : Z) : option (Z * Z * Z) :=
  if tag =? ACL_USER_OBJ then Some (S_IXUSR, S_IRUSR, S_IWUSR)
  else if tag =? ACL_GROUP_OBJ then Some (S_IXGRP, S_IRGRP, S_IWGRP)
  else if tag =? ACL_OTHER then Some (S_IXOTH, S_IROTH, S_IWOTH)
  else None.

Definition acl_posix1e_mode_to_perm (tag mode : Z) : Z :=
  match mode_bits tag with
  | Some (x, r, w) =>
      Z.lor (flag_if (has mode x) ACL_EXECUTE)
        (Z.lor (flag_if (has mode r) ACL_READ) (flag_if (has mode w) ACL_WRITE))
  | None => 0
  end.

Definition acl_posix1e_mode_to_entry (tag uid gid mode : Z) : acl_entry :=
  MkAclEntry tag
    (if tag =? ACL_USER_OBJ then uid else if tag =? ACL_GROUP_OBJ then gid else ACL_UNDEFINED_ID)
    (acl_posix1e_mode_to_perm tag mode) 0 0.

Definition perm_to_bits (perm x r w : Z) : Z :=
  Z.lor (flag_if (has perm ACL_EXECUTE) x)
    (Z.lor (flag_if (has perm ACL_READ) r) (flag_if (has perm ACL_WRITE) w)).

Definition acl_posix1e_perms_to_mode (user_obj group_obj other : acl_entry) : Z :=
  Z.lor (perm_to_bits (ae_perm user_obj) S_IXUSR S_IRUSR S_IWUSR)
    (Z.lor (perm_to_bits (ae_perm group_obj) S_IXGRP S_IRGRP S_IWGRP)
           (perm_to_bits (ae_perm other) S_IXOTH S_IROTH S_IWOTH)).

(** The entries that the mode depends on; a later one replaces an earlier
    one. *)
Record base_entries := MkBase {
  b_user_obj : option acl_entry;
  b_group_obj : option acl_entry;
  b_other : option acl_entry;
  b_mask : option acl_entry
}.

Definition base_step (b : base_entries) (e : acl_entry) : result base_entries :=
  if ae_tag e =? ACL_USER_OBJ then Ok (MkBase (Some e) (b_group_obj b) (b_other b) (b_mask b))
  else if ae_tag e =? ACL_GROUP_OBJ then Ok (MkBase (b_user_obj b) (Some e) (b_other b) (b_mask b))
  else if ae_tag e =? ACL_OTHER then Ok (MkBase (b_user_obj b) (b_group_obj b) (Some e) (b_mask b))
  else if ae_tag e =? ACL_MASK then Ok (MkBase (b_user_obj b) (b_group_obj b) (b_other b) (Some e))
  else if (ae_tag e =? ACL_USER) || (ae_tag e =? ACL_GROUP) then Ok b
  else Panic "acl_posix1e_acl_to_mode: bad ae_tag".

Fixpoint base_scan (l : acl) (b : base_entries) : result base_entries :=
  match l with
  | [] => Ok b
  | e :: l' => b ← base_step b e; base_scan l' b
  end.

Definition acl_posix1e_acl_to_mode (l : acl) : result Z :=
  b ← base_scan l (MkBase None None None None);
  match b_user_obj b, b_group_obj b, b_other b with
  | Some u, Some g, Some o =>
      Ok (acl_posix1e_perms_to_mode u (match b_mask b with Some m => m | None => g end) o)
  | _, _, _ => Panic "acl_posix1e_acl_to_mode: missing base ae_tags"
  end.

Definition acl_posix1e_newfilemode (cmode : Z) (dacl : acl) : result Z :=
  mode ← acl_posix1e_acl_to_mode dacl;
  Ok (Z.lor (Z.land cmode ACL_PRESERVE_MASK) (Z.land (Z.land ACL_OVERRIDE_MASK cmode) mode)).

(** ** The syntactic check *)

Record acl_counts := MkCounts {
  num_user_obj : Z;
  num_user : Z;
  num_group_obj : Z;
  num_group : Z;
  num_mask : Z;
  num_other : Z
}.

(** One entry: the entry as it is left, and the counts unless it is
    invalid. *)
Definition check_tag (e : acl_entry) (n : acl_counts) : acl_entry * option acl_counts :=
  let '(MkCounts uo u go g m o) := n in
  let cleared := set_ae_id ACL_UNDEFINED_ID e in
  if ae_tag e =? ACL_USER_OBJ then (cleared, Some (MkCounts (uo + 1) u go g m o))
  else if ae_tag e =? ACL_GROUP_OBJ then (cleared, Some (MkCounts uo u (go + 1) g m o))
  else if ae_tag e =? ACL_USER then
    (e, if ae_id e =? ACL_UNDEFINED_ID then None else Some (MkCounts uo (u + 1) go g m o))
  else if ae_tag e =? ACL_GROUP then
    (e, if ae_id e =? ACL_UNDEFINED_ID then None else Some (MkCounts uo u go (g + 1) m o))
  else if ae_tag e =? ACL_OTHER then (cleared, Some (MkCounts uo u go g m (o + 1)))
  else if ae_tag e =? ACL_MASK then (cleared, Some (MkCounts uo u go g (m + 1) o))
  else (e, None).

Fixpoint check_entries (l : acl) (n : acl_counts) : acl * option acl_counts :=
  match l with
  | [] => ([], Some n)
  | e :: l' =>
      match check_tag e n with
      | (e, None) => (e :: l', None)
      | (e, Some n) =>
          if negb (Z.lor (ae_perm e) ACL_PERM_BITS =? ACL_PERM_BITS) then (e :: l', None)
          else let '(l', r) := check_entries l' n in (e :: l', r)
      end
  end.

(** The errno and the ACL as the check leaves it. *)
Definition acl_posix1e_check (l : acl) : Z * acl :=
  if ACL_MAX_ENTRIES <? zlength l then (EINVAL, l)
  else
    match check_entries l (MkCounts 0 0 0 0 0 0) with
    | (l, None) => (EINVAL, l)
    | (l, Some n) =>
        if negb (num_user_obj n =? 1) || negb (num_group_obj n =? 1) ||
           negb (num_other n =? 1) || (negb (num_mask n =? 0) && negb (num_mask n =? 1))
        then (EINVAL, l)
        else if (negb (num_group n =? 0) || negb (num_user n =? 0)) && negb (num_mask n =? 1)
        then (EINVAL, l)
        else (0, l)
    end.

(** ** The old format *)

Record oldacl_entry := MkOldEntry {
  oae_tag : Z;
  oae_id : Z;
  oae_perm : Z
}.

(** [oacl_cnt] is what the structure says; its array has always
    [OLDACL_MAX_ENTRIES] entries. *)
Record oldacl := MkOldacl {
  oacl_cnt : Z;
  oacl_entry : list oldacl_entry
}.

(** The tag of the old format is an [int], the permissions are 16 bits. *)
Definition old_of (e : acl_entry) : oldacl_entry :=
  MkOldEntry (s32 (ae_tag e)) (ae_id e) (ae_perm e mod 2 ^ 16).
Definition of_old (e : oldacl_entry) : acl_entry :=
  MkAclEntry (u32 (oae_tag e)) (oae_id e) (oae_perm e) 0 0.

Definition zero_old : oldacl_entry := MkOldEntry 0 0 0.

(** The errno, or the ACL. *)
Definition acl_copy_oldacl_into_acl (source : oldacl) : Z + acl :=
  if (oacl_cnt source <? 0) || (OLDACL_MAX_ENTRIES <? oacl_cnt source) then inl EINVAL
  else inr (of_old <$> take (Z.to_nat (oacl_cnt source)) (oacl_entry source)).

Definition acl_copy_acl_into_oldacl (source : acl) : Z + oldacl :=
  if OLDACL_MAX_ENTRIES <? zlength source then inl EINVAL
  else inr (MkOldacl (zlength source)
             ((old_of <$> source) ++
              replicate (Z.to_nat (OLDACL_MAX_ENTRIES - zlength source)) zero_old)).

(** ** Access *)

(** The access modes that the permissions of an entry give. *)
Definition dac_of (perm : Z) : Z := perm_to_bits perm VEXEC VREAD (Z.lor VWRITE VAPPEND).

Definition satisfied (accmode granted : Z) : bool := Z.land accmode granted =? accmode.

Section access.
Context (ps : prisons) (pol : policy).

Definition privileged (cred : ucred) (priv : Z) : bool := priv_check_cred ps pol cred priv =? 0.

Definition accmode_ok (accmode : Z) : result unit :=
  _ ← require (Z.land accmode (Z.lnot (Z.lor VEXEC (Z.lor VWRITE (Z.lor VREAD (Z.lor VADMIN VAPPEND)))))
               =? 0) "invalid bit in accmode";
  require (negb (has accmode VAPPEND) || has accmode VWRITE) "VAPPEND without VWRITE".

Definition denied (accmode : Z) : Z := if has accmode VADMIN then EPERM else EACCES.

(** The errno and [*privused]. *)
Definition vaccess (type : vtype) (file_mode file_uid file_gid accmode : Z) (cred : ucred)
    : result (Z * bool) :=
  _ ← accmode_ok accmode;
  let class x r w := Z.lor (flag_if (has file_mode x) VEXEC)
    (Z.lor (flag_if (has file_mode r) VREAD) (flag_if (has file_mode w) (Z.lor VWRITE VAPPEND))) in
  let dac_granted :=
    if cr_uid cred =? file_uid then Z.lor VADMIN (class S_IXUSR S_IRUSR S_IWUSR)
    else if groupmember file_gid cred then class S_IXGRP S_IRGRP S_IWGRP
    else class S_IXOTH S_IROTH S_IWOTH in
  if satisfied accmode dac_granted then Ok (0, false)
  else
    let need flag := has accmode flag && negb (has dac_granted flag) in
    let priv_granted :=
      Z.lor
        (if decide (type = VDIR) then
           flag_if (need VEXEC && privileged cred PRIV_VFS_LOOKUP) VEXEC
         else
           flag_if (need VEXEC && has file_mode (Z.lor S_IXUSR (Z.lor S_IXGRP S_IXOTH)) &&
                    privileged cred PRIV_VFS_EXEC) VEXEC)
      (Z.lor (flag_if (need VREAD && privileged cred PRIV_VFS_READ) VREAD)
      (Z.lor (flag_if (need VWRITE && privileged cred PRIV_VFS_WRITE) (Z.lor VWRITE VAPPEND))
             (flag_if (need VADMIN && privileged cred PRIV_VFS_ADMIN) VADMIN))) in
    if satisfied accmode (Z.lor priv_granted dac_granted) then Ok (0, true)
    else Ok (denied accmode, false).

(** *** vaccess_acl_posix1e *)

Context (type : vtype) (file_uid file_gid accmode : Z) (cred : ucred).

(** The privileges that may be used, whether needed or not. *)
Definition acl_priv_granted (l : acl) : result Z :=
  exec ← (if decide (type = VDIR) then
            Ok (has accmode VEXEC && privileged cred PRIV_VFS_LOOKUP)
          else if has accmode VEXEC then
            mode ← acl_posix1e_acl_to_mode l;
            Ok (has mode (Z.lor S_IXUSR (Z.lor S_IXGRP S_IXOTH)) && privileged cred PRIV_VFS_EXEC)
          else Ok false);
  Ok (Z.lor (flag_if exec VEXEC)
     (Z.lor (flag_if (has accmode VREAD && privileged cred PRIV_VFS_READ) VREAD)
     (Z.lor (flag_if ((has accmode VWRITE || has accmode VAPPEND) &&
                      privileged cred PRIV_VFS_WRITE) (Z.lor VWRITE VAPPEND))
            (flag_if (has accmode VADMIN && privileged cred PRIV_VFS_ADMIN) VADMIN)))).

(** The entry that matches decides. *)
Definition decide_by (dac_granted priv_granted : Z) : Z * bool :=
  if satisfied accmode dac_granted then (0, false)
  else if satisfied accmode (Z.lor dac_granted priv_granted) then (0, true)
  else (denied accmode, false).

(** The first loop: the owner is decided, or the mask and the entry for
    others are found. *)
Fixpoint acl_owner (l : acl) (priv_granted : Z) (mask other : option acl_entry)
    : Z * bool + option acl_entry * option acl_entry :=
  match l with
  | [] => inr (mask, other)
  | e :: l' =>
      if ae_tag e =? ACL_USER_OBJ then
        if negb (file_uid =? cr_uid cred) then acl_owner l' priv_granted mask other
        else inl (decide_by (Z.lor VADMIN (dac_of (ae_perm e))) priv_granted)
      else if ae_tag e =? ACL_MASK then acl_owner l' priv_granted (Some e) other
      else if ae_tag e =? ACL_OTHER then acl_owner l' priv_granted mask (Some e)
      else acl_owner l' priv_granted mask other
  end.

(** The loop over the named users. *)
Fixpoint acl_user (l : acl) (priv_granted mask_granted : Z) : option (Z * bool) :=
  match l with
  | [] => None
  | e :: l' =>
      if (ae_tag e =? ACL_USER) && (ae_id e =? cr_uid cred) then
        Some (decide_by (Z.land (dac_of (ae_perm e)) mask_granted) priv_granted)
      else acl_user l' priv_granted mask_granted
  end.

Definition acl_group_matches (e : acl_entry) : bool :=
  if ae_tag e =? ACL_GROUP_OBJ then groupmember file_gid cred
  else if ae_tag e =? ACL_GROUP then groupmember (ae_id e) cred
  else false.

(** The first loop over the groups: granted, or whether one matched. *)
Fixpoint acl_group (l : acl) (mask_granted : Z) (group_matched : bool) : option bool :=
  match l with
  | [] => Some group_matched
  | e :: l' =>
      if acl_group_matches e then
        if satisfied accmode (Z.land (dac_of (ae_perm e)) mask_granted) then None
        else acl_group l' mask_granted true
      else acl_group l' mask_granted group_matched
  end.

(** The second one, with privilege. *)
Fixpoint acl_group_priv (l : acl) (priv_granted mask_granted : Z) : bool :=
  match l with
  | [] => false
  | e :: l' =>
      if acl_group_matches e &&
         satisfied accmode (Z.lor (Z.land (dac_of (ae_perm e)) mask_granted) priv_granted)
      then true
      else acl_group_priv l' priv_granted mask_granted
  end.

Definition vaccess_acl_posix1e (l : acl) : result (Z * bool) :=
  _ ← accmode_ok accmode;
  priv_granted ← acl_priv_granted l;
  match acl_owner l priv_granted None None with
  | inl r => Ok r
  | inr (_, None) => Ok (EPERM, false)
  | inr (mask, Some other) =>
      let mask_granted :=
        match mask with
        | Some m => dac_of (ae_perm m)
        | None => Z.lor VEXEC (Z.lor VREAD (Z.lor VWRITE VAPPEND))
        end in
      match acl_user l priv_granted mask_granted with
      | Some r => Ok r
      | None =>
          match acl_group l mask_granted false with
          | None => Ok (0, false)
          | Some true =>
              Ok (if acl_group_priv l priv_granted mask_granted then (0, true)
                  else (denied accmode, false))
          | Some false => Ok (decide_by (dac_of (ae_perm other)) priv_granted)
          end
      end
  end.
End access.
