(* ===== verification/AclSpec.v ===== *)
(** What the access checks of [Acl] decide, in terms of the entries that apply
    to the caller and of the superuser's privilege. *)

From stdpp Require Import gmap.
From S2P Require Import Prelude Priv Cred CredInv Acl.

(** ** Sets of access modes *)

Lemma satisfied_iff a g :
  satisfied a g = true <-> forall k, 0 <= k -> Z.testbit a k = true -> Z.testbit g k = true.
Proof.
  unfold satisfied. rewrite Z.eqb_eq. split.
  - intros H k Hk Ha. rewrite <- H, Z.land_spec in Ha. by apply andb_prop in Ha as [_ ?].
  - intros H. apply Z.bits_inj'. intros k Hk. rewrite Z.land_spec.
    destruct (Z.testbit a k) eqn:E; [by rewrite (H k Hk E) | done].
Qed.

Lemma satisfied_mono a g g' :
  (forall k, 0 <= k -> Z.testbit g k = true -> Z.testbit g' k = true) ->
  satisfied a g = true -> satisfied a g' = true.
Proof. rewrite !satisfied_iff. auto. Qed.

Lemma has_pow2 x k : 0 <= k -> has x (2 ^ k) = Z.testbit x k.
Proof. intros Hk. unfold has. by rewrite <- Z.shiftl_1_l, land_pow2_testbit, negb_involutive. Qed.

(** The tests of a single flag, as bits. *)
Lemma has_flags x :
  has x VEXEC = Z.testbit x 6 /\ has x VWRITE = Z.testbit x 7 /\ has x VREAD = Z.testbit x 8 /\
  has x VADMIN = Z.testbit x 12 /\ has x VAPPEND = Z.testbit x 14 /\
  has x ACL_EXECUTE = Z.testbit x 0 /\ has x ACL_WRITE = Z.testbit x 1 /\
  has x ACL_READ = Z.testbit x 2.
Proof.
  split_and!; [apply (has_pow2 x 6) | apply (has_pow2 x 7) | apply (has_pow2 x 8)
    | apply (has_pow2 x 12) | apply (has_pow2 x 14) | apply (has_pow2 x 0)
    | apply (has_pow2 x 1) | apply (has_pow2 x 2)]; lia.
Qed.

Lemma accmode_ok_inv a :
  accmode_ok a = Ok tt <->
  (forall k, 0 <= k -> Z.testbit a k = true -> k ∈ [6; 7; 8; 12; 14]) /\
  (Z.testbit a 14 = true -> Z.testbit a 7 = true).
Proof.
  unfold accmode_ok. destruct (has_flags a) as (_ & H7 & _ & _ & H14 & _). rewrite H7, H14.
  set (m := Z.lor _ _). 
  assert (Z.land a (Z.lnot m) = 0 <->
    forall k, 0 <= k -> Z.testbit a k = true -> k ∈ [6; 7; 8; 12; 14]) as <-.
  { assert (forall k, 0 <= k -> Z.testbit m k = bool_decide (k ∈ [6; 7; 8; 12; 14])) as Hm.
    { intros k Hk. destruct (Z.le_gt_cases 15 k).
      - rewrite bool_decide_eq_false_2 by (set_unfold; lia).
        apply Z.bits_above_log2; [done|]. change (Z.log2 m) with 14. lia.
      - assert (k ∈ seqZ 0 15) as Hin by (apply elem_of_seqZ; lia). clear Hk H.
        revert k Hin. apply Forall_forall. vm_compute. repeat constructor. }
    split.
    - intros H k Hk Ha. apply (f_equal (fun z => Z.testbit z k)) in H.
      rewrite Z.land_spec, Z.lnot_spec, Ha, Hm, Z.bits_0 in H by done.
      by apply negb_false_iff, bool_decide_eq_true in H.
    - intros H. apply Z.bits_inj'. intros k Hk. rewrite Z.land_spec, Z.lnot_spec, Hm, Z.bits_0 by done.
      destruct (Z.testbit a k) eqn:E; [|done]. by rewrite bool_decide_eq_true_2 by auto. }
  destruct (Z.eqb_spec (Z.land a (Z.lnot m)) 0) as [E|E]; cbn [require].
  - rewrite bind_Ok. destruct (Z.testbit a 14), (Z.testbit a 7); cbn; intuition discriminate.
  - split; [discriminate | tauto].
Qed.

Lemma testbit_flag_if c f k : Z.testbit (flag_if c f) k = c && Z.testbit f k.
Proof. destruct c; [done | apply Z.bits_0]. Qed.

Lemma testbit_perm_to_bits perm x r w k :
  Z.testbit (perm_to_bits perm x r w) k =
  Z.testbit perm 0 && Z.testbit x k || Z.testbit perm 2 && Z.testbit r k ||
  Z.testbit perm 1 && Z.testbit w k.
Proof.
  destruct (has_flags perm) as (_ & _ & _ & _ & _ & H0 & H1 & H2). unfold perm_to_bits.
  rewrite !Z.lor_spec, !testbit_flag_if, H0, H1, H2. by rewrite orb_assoc.
Qed.

(** ** Valid lists *)

Definition with_tag (t : Z) (l : acl) : acl := filter (fun e => ae_tag e = t) l.

Definition named (l : acl) : acl := filter (fun e => ae_tag e = ACL_USER \/ ae_tag e = ACL_GROUP) l.

(** What POSIX.1e asks of an access ACL. *)
Record acl_valid (l : acl) : Prop := {
  av_length : zlength l <= ACL_MAX_ENTRIES;
  av_tags : Forall (fun e => ae_tag e ∈ [ACL_USER_OBJ; ACL_USER; ACL_GROUP_OBJ; ACL_GROUP;
                                          ACL_MASK; ACL_OTHER]) l;
  av_perms : Forall (fun e => forall k, 3 <= k -> Z.testbit (ae_perm e) k = false) l;
  av_ids : Forall (fun e => ae_id e <> ACL_UNDEFINED_ID) (named l);
  av_user_obj : length (with_tag ACL_USER_OBJ l) = 1%nat;
  av_group_obj : length (with_tag ACL_GROUP_OBJ l) = 1%nat;
  av_other : length (with_tag ACL_OTHER l) = 1%nat;
  av_mask : (length (with_tag ACL_MASK l) <= 1)%nat;
  av_named : named l <> [] -> length (with_tag ACL_MASK l) = 1%nat
}.

Lemma length_one {A} (l : list A) : length l = 1%nat -> exists x, l = [x].
Proof. destruct l as [|x [|]]; try discriminate. by exists x. Qed.

(** ** The mode of a valid list *)

Definition last_from (o : option acl_entry) (l : acl) : option acl_entry :=
  foldl (fun _ e => Some e) o l.

Lemma base_scan_spec l b :
  Forall (fun e => ae_tag e ∈ [ACL_USER_OBJ; ACL_USER; ACL_GROUP_OBJ; ACL_GROUP;
                               ACL_MASK; ACL_OTHER]) l ->
  base_scan l b = Ok (MkBase (last_from (b_user_obj b) (with_tag ACL_USER_OBJ l))
    (last_from (b_group_obj b) (with_tag ACL_GROUP_OBJ l))
    (last_from (b_other b) (with_tag ACL_OTHER l)) (last_from (b_mask b) (with_tag ACL_MASK l))).
Proof.
  intros H. revert b. induction H as [|e l Ht _ IH]; intros b; [by destruct b|].
  cbn [base_scan]. unfold base_step, with_tag in *. rewrite !filter_cons.
  set_unfold in Ht.
  destruct Ht as [Ht|[Ht|[Ht|[Ht|[Ht|[Ht|[]]]]]]]; rewrite Ht; cbn; rewrite IH; done.
Qed.

(** The entries that make up the mode. *)
Record mode_entries (l : acl) (u g o : acl_entry) (m : option acl_entry) : Prop := {
  me_user : with_tag ACL_USER_OBJ l = [u];
  me_group : with_tag ACL_GROUP_OBJ l = [g];
  me_other : with_tag ACL_OTHER l = [o];
  me_mask : with_tag ACL_MASK l = option_list m
}.

Lemma mode_entries_exist l : acl_valid l -> exists u g o m, mode_entries l u g o m.
Proof.
  intros V. destruct (length_one _ (av_user_obj _ V)) as [u Hu].
  destruct (length_one _ (av_group_obj _ V)) as [g Hg]. destruct (length_one _ (av_other _ V)) as [o Ho].
  exists u, g, o. pose proof (av_mask _ V) as Hm.
  destruct (with_tag ACL_MASK l) as [|m [|? ?]] eqn:Em; cbn in Hm; [| |lia].
  - by exists None.
  - by exists (Some m).
Qed.

Lemma acl_to_mode_entries l u g o m :
  acl_valid l -> mode_entries l u g o m ->
  acl_posix1e_acl_to_mode l = Ok (acl_posix1e_perms_to_mode u (default g m) o).
Proof.
  intros V [Hu Hg Ho Hm]. unfold acl_posix1e_acl_to_mode. rewrite base_scan_spec by apply V.
  rewrite Hu, Hg, Ho, Hm. rewrite bind_Ok. by destruct m.
Qed.

(** The execute bits of the mode: those of its three entries. *)
Lemma mode_exec u g o :
  has (acl_posix1e_perms_to_mode u g o) (Z.lor S_IXUSR (Z.lor S_IXGRP S_IXOTH)) =
  Z.testbit (ae_perm u) 0 || Z.testbit (ae_perm g) 0 || Z.testbit (ae_perm o) 0.
Proof.
  set (m := acl_posix1e_perms_to_mode u g o).
  assert (Z.testbit m 6 = Z.testbit (ae_perm u) 0 /\ Z.testbit m 3 = Z.testbit (ae_perm g) 0 /\
    Z.testbit m 0 = Z.testbit (ae_perm o) 0) as (<- & <- & <-).
  { unfold m, acl_posix1e_perms_to_mode. rewrite !Z.lor_spec, !testbit_perm_to_bits. cbn.
    rewrite !andb_false_r, !andb_true_r, !orb_false_r. done. }
  unfold has. change (Z.lor S_IXUSR (Z.lor S_IXGRP S_IXOTH)) with 73.
  destruct (Z.eqb_spec (Z.land m 73) 0) as [H|H]; cbn [negb].
  - symmetry. rewrite !orb_false_iff.
    assert (forall k, Z.testbit 73 k = true -> Z.testbit m k = false) as Hk.
    { intros k Hk. apply (f_equal (fun z => Z.testbit z k)) in H.
      rewrite Z.land_spec, Hk, andb_true_r, Z.bits_0 in H. done. }
    split_and!; by apply Hk.
  - symmetry. apply not_false_iff_true. rewrite !orb_false_iff. intros [[H6 H3] H0]. apply H.
    apply Z.bits_inj'. intros k Hk. rewrite Z.land_spec, Z.bits_0.
    destruct (Z.testbit 73 k) eqn:E; [|apply andb_false_r]. rewrite andb_true_r.
    destruct (Z.le_gt_cases 7 k) as [Hge|Hlt].
    { rewrite Z.bits_above_log2 in E; [discriminate | lia | change (Z.log2 73) with 6; lia]. }
    assert (k = 0 \/ k = 1 \/ k = 2 \/ k = 3 \/ k = 4 \/ k = 5 \/ k = 6) as Hc by lia.
    destruct Hc as [->|[->|[->|[->|[->|[->| ->]]]]]]; done.
Qed.

(** ** The check *)

(** The ids that POSIX.1e leaves without meaning are erased. *)
Definition normal_entry (e : acl_entry) : acl_entry :=
  if (ae_tag e =? ACL_USER) || (ae_tag e =? ACL_GROUP) then e else set_ae_id ACL_UNDEFINED_ID e.

Record entry_valid (e : acl_entry) : Prop := {
  ev_tag : ae_tag e ∈ [ACL_USER_OBJ; ACL_USER; ACL_GROUP_OBJ; ACL_GROUP; ACL_MASK; ACL_OTHER];
  ev_perm : forall k, 3 <= k -> Z.testbit (ae_perm e) k = false;
  ev_id : ae_tag e = ACL_USER \/ ae_tag e = ACL_GROUP -> ae_id e <> ACL_UNDEFINED_ID
}.

Definition count_tag (t : Z) (l : acl) : Z := zlength (with_tag t l).

Definition add_counts (n : acl_counts) (l : acl) : acl_counts :=
  MkCounts (num_user_obj n + count_tag ACL_USER_OBJ l) (num_user n + count_tag ACL_USER l)
    (num_group_obj n + count_tag ACL_GROUP_OBJ l) (num_group n + count_tag ACL_GROUP l)
    (num_mask n + count_tag ACL_MASK l) (num_other n + count_tag ACL_OTHER l).

Lemma count_tag_nil t : count_tag t [] = 0.
Proof. done. Qed.

Lemma count_tag_cons t e l : count_tag t (e :: l) = (if ae_tag e =? t then 1 else 0) + count_tag t l.
Proof.
  unfold count_tag, with_tag, zlength. rewrite filter_cons.
  destruct (Z.eqb_spec (ae_tag e) t); case_decide; try done; cbn [length]; lia.
Qed.

Lemma perm_bits_test p :
  (Z.lor p ACL_PERM_BITS =? ACL_PERM_BITS) = true <-> forall k, 3 <= k -> Z.testbit p k = false.
Proof.
  rewrite Z.eqb_eq. change ACL_PERM_BITS with (Z.ones 3). split.
  - intros H k Hk. apply (f_equal (fun z => Z.testbit z k)) in H.
    rewrite Z.lor_spec, !testbit_ones in H by lia.
    destruct (Z.testbit p k); [|done]. revert H. by ztest.
  - intros H. apply Z.bits_inj'. intros k Hk. rewrite Z.lor_spec, !testbit_ones by lia.
    destruct (Z.lt_ge_cases k 3); ztest; cbn [andb]; [by rewrite orb_true_r|].
    by rewrite (H k), orb_false_l by lia.
Qed.

Lemma check_tag_spec e n :
  match check_tag e n with
  | (e', Some n') => e' = normal_entry e /\ n' = add_counts n [e] /\
      ae_tag e ∈ [ACL_USER_OBJ; ACL_USER; ACL_GROUP_OBJ; ACL_GROUP; ACL_MASK; ACL_OTHER] /\
      (ae_tag e = ACL_USER \/ ae_tag e = ACL_GROUP -> ae_id e <> ACL_UNDEFINED_ID)
  | (e', None) => ~ entry_valid e
  end.
Proof.
  destruct n as [uo u go g m o], e as [tag id perm et fl].
  destruct (decide (tag ∈ [ACL_USER_OBJ; ACL_USER; ACL_GROUP_OBJ; ACL_GROUP; ACL_MASK; ACL_OTHER]))
    as [Hin|Hout].
  - unfold add_counts. rewrite !count_tag_cons, !count_tag_nil.
    cbn [ae_tag]. pose proof Hin as Hin'. set_unfold in Hin'.
    destruct Hin' as [Ht|[Ht|[Ht|[Ht|[Ht|[Ht|[]]]]]]]; subst tag; cbn;
      try (destruct (Z.eqb_spec id ACL_UNDEFINED_ID) as [->|Hid];
           [intros [_ _ Hv]; by apply Hv; auto|]);
      (split_and!; [done | f_equal; lia | done |]);
      first [done | intros [H|H]; discriminate H].
  - set_unfold in Hout. unfold check_tag. cbn [ae_tag].
    repeat (zcase; [exfalso; apply Hout; subst; tauto|]). intros [Ht _ _]. cbn in Ht. set_unfold in Ht. tauto.
Qed.

Lemma check_entries_spec l n :
  match check_entries l n with
  | (l', Some n') => l' = normal_entry <$> l /\ n' = add_counts n l /\ Forall entry_valid l
  | (_, None) => ~ Forall entry_valid l
  end.
Proof.
  revert n. induction l as [|e l IH]; intros n; cbn [check_entries].
  { split_and!; try done. destruct n. unfold add_counts. rewrite !count_tag_nil. cbn. f_equal; lia. }
  pose proof (check_tag_spec e n) as He. destruct (check_tag e n) as [e' [n'|]].
  - destruct He as (-> & -> & Ht & Hid).
    assert (ae_perm (normal_entry e) = ae_perm e) as -> by (unfold normal_entry; by case_match).
    destruct (Z.lor (ae_perm e) ACL_PERM_BITS =? ACL_PERM_BITS) eqn:Ep; cbn [negb].
    + rewrite perm_bits_test in Ep. specialize (IH (add_counts n [e])).
      destruct (check_entries l _) as [l' [n'|]].
      * destruct IH as (-> & -> & Hl). split_and!; [done | | by constructor].
        unfold add_counts. cbn [num_user_obj num_user num_group_obj num_group num_mask num_other].
        rewrite !count_tag_cons, !count_tag_nil. f_equal; lia.
      * intros Hf. apply IH. by inversion Hf.
    + intros Hf. inversion Hf as [|? ? [_ Hp _]]. apply (proj2 (perm_bits_test _)) in Hp. congruence.
  - intros Hf. apply He. by inversion Hf.
Qed.

Lemma length_named l :
  zlength (named l) = count_tag ACL_USER l + count_tag ACL_GROUP l.
Proof.
  induction l as [|e l IH]; [done|]. rewrite !count_tag_cons. unfold named, zlength in *.
  rewrite filter_cons. case_decide as H; cbn [length].
  - destruct H as [H|H]; rewrite H; cbn; lia.
  - repeat zcase; try (exfalso; tauto). lia.
Qed.

Lemma acl_valid_counts l :
  acl_valid l <->
  zlength l <= ACL_MAX_ENTRIES /\ Forall entry_valid l /\ count_tag ACL_USER_OBJ l = 1 /\
  count_tag ACL_GROUP_OBJ l = 1 /\ count_tag ACL_OTHER l = 1 /\ count_tag ACL_MASK l <= 1 /\
  (count_tag ACL_USER l + count_tag ACL_GROUP l <> 0 -> count_tag ACL_MASK l = 1).
Proof.
  rewrite <- length_named. unfold count_tag, zlength. split.
  - intros [H1 H2 H3 H4 H5 H6 H7 H8 H9]. unfold zlength in H1. rewrite !Forall_forall in H2, H3, H4. split_and!; try lia.
    + apply Forall_forall. intros e He. split; [by apply H2 | by apply H3|]. intros Ht. apply H4.
      unfold named. apply list_elem_of_filter. done.
    + intros Hn. rewrite H9; [done|]. intros E. rewrite E in Hn. done.
  - intros (H1 & H2 & H3 & H4 & H5 & H6 & H7). rewrite Forall_forall in H2. constructor; unfold zlength; try lia.
    + apply Forall_forall. intros e He. apply H2, He.
    + apply Forall_forall. intros e He. apply H2, He.
    + apply Forall_forall. intros e He. apply list_elem_of_filter in He as [Ht He]. by apply (ev_id _ (H2 e He)).
    + intros Hn. destruct (named l) eqn:E; [done|]. cbn [length] in H7. lia.
Qed.

(** ** Who an entry applies to *)

Section entries.
Context (file_uid file_gid : Z) (cred : ucred) (l : acl).

Definition is_named_user (e : acl_entry) : bool :=
  (ae_tag e =? ACL_USER) && (ae_id e =? cr_uid cred).

(** The mask bounds all but the owner and the others. *)
Definition masked (e : acl_entry) : Z :=
  match with_tag ACL_MASK l with
  | m :: _ => Z.land (dac_of (ae_perm e)) (dac_of (ae_perm m))
  | [] => dac_of (ae_perm e)
  end.

(** What each of the entries that apply would give: of the owner, the one;
    else of a named user, the first; else of the groups, all; else of the
    others. *)
Definition candidates : list Z :=
  if file_uid =? cr_uid cred then
    (fun e => Z.lor VADMIN (dac_of (ae_perm e))) <$> with_tag ACL_USER_OBJ l
  else match filter (fun e => is_named_user e = true) l with
       | e :: _ => [masked e]
       | [] =>
           match filter (fun e => acl_group_matches file_gid cred e = true) l with
           | [] => (fun e => dac_of (ae_perm e)) <$> with_tag ACL_OTHER l
           | es => masked <$> es
           end
       end.
End entries.

Definition superuserb (pol : policy) (cred : ucred) : bool :=
  suser_enabled pol && (cr_uid cred =? 0).

Lemma superuserb_spec pol cred : superuserb pol cred = true <-> superuser pol cred.
Proof. unfold superuserb, superuser. by rewrite andb_true_iff, Z.eqb_eq. Qed.

Lemma privileged_su ps pol cred priv :
  switch_case priv suser_privs = true -> privileged ps pol cred priv = superuserb pol cred.
Proof.
  intros H. apply eq_true_iff_eq. unfold privileged. rewrite Z.eqb_eq, superuserb_spec.
  by apply suser_priv.
Qed.

(** The superuser may do anything, except execute a file that nobody may. *)
Definition root_may (pol : policy) (type : vtype) (accmode : Z) (cred : ucred) (anyexec : bool) : bool :=
  superuserb pol cred && (negb (has accmode VEXEC) || bool_decide (type = VDIR) || anyexec).

(** The privileges of the superuser for a request. *)
Definition su_granted (pol : policy) (type : vtype) (accmode : Z) (cred : ucred) (anyexec : bool) : Z :=
  let su := superuserb pol cred in
  Z.lor (flag_if (has accmode VEXEC && (bool_decide (type = VDIR) || anyexec) && su) VEXEC)
  (Z.lor (flag_if (has accmode VREAD && su) VREAD)
  (Z.lor (flag_if ((has accmode VWRITE || has accmode VAPPEND) && su) (Z.lor VWRITE VAPPEND))
         (flag_if (has accmode VADMIN && su) VADMIN))).

(** With privilege a request is satisfied if it is without, or if root may;
    where execution is given by somebody's entry. *)
Lemma satisfied_su pol type accmode cred anyexec c :
  accmode_ok accmode = Ok tt -> (Z.testbit c 6 = true -> anyexec = true) ->
  satisfied accmode (Z.lor c (su_granted pol type accmode cred anyexec)) =
  satisfied accmode c || root_may pol type accmode cred anyexec.
Proof.
  intros Hok Hc. apply accmode_ok_inv in Hok as [Hbits _].
  destruct (has_flags accmode) as (H6 & H7 & H8 & H12 & H14 & _).
  unfold su_granted, root_may. rewrite H6, H7, H8, H12, H14.
  destruct (superuserb pol cred); cycle 1.
  { rewrite !andb_false_r. cbn [flag_if]. by rewrite !Z.lor_0_r, andb_false_l, orb_false_r. }
  rewrite !andb_true_r, andb_true_l. apply eq_true_iff_eq.
  rewrite orb_true_iff, !satisfied_iff.
  set (x := bool_decide (type = VDIR) || anyexec).
  rewrite <- orb_assoc. fold x. split.
  - intros H. destruct (Z.testbit accmode 6) eqn:E6, x eqn:Ex; cbn; auto.
    left. exfalso. specialize (H 6 ltac:(lia) E6).
    rewrite !Z.lor_spec, !testbit_flag_if in H. cbn in H.
    rewrite !andb_false_r, !orb_false_r in H. apply Hc in H. subst anyexec.
    unfold x in Ex. by rewrite orb_true_r in Ex.
  - intros [H|H] k Hk Ha; rewrite Z.lor_spec; [by rewrite (H k Hk Ha)|].
    apply orb_true_iff. right. specialize (Hbits k Hk Ha). set_unfold in Hbits.
    rewrite !Z.lor_spec, !testbit_flag_if.
    destruct Hbits as [->|[->|[->|[->|[->|[]]]]]]; rewrite Ha in *; cbn in H |- *;
      rewrite ?H, ?andb_true_r, ?orb_true_r; done.
Qed.

Lemma decide_by_su pol type accmode cred anyexec c :
  accmode_ok accmode = Ok tt -> (Z.testbit c 6 = true -> anyexec = true) ->
  decide_by accmode c (su_granted pol type accmode cred anyexec) =
  if satisfied accmode c then (0, false)
  else if root_may pol type accmode cred anyexec then (0, true) else (denied accmode, false).
Proof.
  intros Hok Hc. unfold decide_by. rewrite satisfied_su by done.
  destruct (satisfied accmode c); [done|]. by destruct (root_may pol type accmode cred anyexec).
Qed.

(** ** The scans *)

Section scans.
Context (file_uid file_gid accmode : Z) (cred : ucred).

Lemma acl_owner_spec l p m o :
  acl_owner file_uid accmode cred l p m o =
  match (if file_uid =? cr_uid cred then with_tag ACL_USER_OBJ l else []) with
  | e :: _ => inl (decide_by accmode (Z.lor VADMIN (dac_of (ae_perm e))) p)
  | [] => inr (last_from m (with_tag ACL_MASK l), last_from o (with_tag ACL_OTHER l))
  end.
Proof.
  revert m o. induction l as [|e l IH]; intros m o; cbn [acl_owner];
    [by destruct (file_uid =? cr_uid cred)|].
  unfold with_tag in *. rewrite !filter_cons. destruct (Z.eqb_spec (ae_tag e) ACL_USER_OBJ) as [E|E].
  - rewrite E. cbn. destruct (Z.eqb_spec file_uid (cr_uid cred)); cbn [negb]; [done | apply IH].
  - destruct (decide (ae_tag e = ACL_USER_OBJ)); [done|].
    destruct (Z.eqb_spec (ae_tag e) ACL_MASK) as [Em|Em]; [rewrite Em; cbn; apply IH|].
    destruct (decide (ae_tag e = ACL_MASK)); [done|].
    destruct (Z.eqb_spec (ae_tag e) ACL_OTHER) as [Eo|Eo]; [rewrite Eo; cbn; apply IH|].
    destruct (decide (ae_tag e = ACL_OTHER)); [done|]. apply IH.
Qed.

Lemma acl_user_spec l p mg :
  acl_user accmode cred l p mg =
  match filter (fun e => is_named_user cred e = true) l with
  | e :: _ => Some (decide_by accmode (Z.land (dac_of (ae_perm e)) mg) p)
  | [] => None
  end.
Proof.
  induction l as [|e l IH]; cbn [acl_user]; [done|]. rewrite filter_cons.
  fold (is_named_user cred e). destruct (is_named_user cred e); case_decide; try done.
Qed.

(** A group entry that applies and satisfies the request. *)
Definition group_grants (mg p : Z) (e : acl_entry) : bool :=
  acl_group_matches file_gid cred e &&
  satisfied accmode (Z.lor (Z.land (dac_of (ae_perm e)) mg) p).

Lemma acl_group_spec l mg matched :
  acl_group file_gid accmode cred l mg matched =
  if existsb (group_grants mg 0) l then None
  else Some (matched || existsb (acl_group_matches file_gid cred) l).
Proof.
  revert matched. induction l as [|e l IH]; intros matched; cbn [acl_group existsb].
  { by rewrite orb_false_r. }
  unfold group_grants at 1. rewrite Z.lor_0_r. destruct (acl_group_matches file_gid cred e); cbn [andb orb].
  - destruct (satisfied _ _); cbn [orb]; [done|]. rewrite IH. by rewrite orb_true_r.
  - apply IH.
Qed.

Lemma acl_group_priv_spec l p mg :
  acl_group_priv file_gid accmode cred l p mg = existsb (group_grants mg p) l.
Proof.
  induction l as [|e l IH]; cbn [acl_group_priv existsb]; [done|]. unfold group_grants at 1.
  destruct (_ && _); [done | apply IH].
Qed.
End scans.

(** ** Decisions *)

(** What the entries that apply decide. *)
Definition verdict (pol : policy) (type : vtype) (accmode : Z) (cred : ucred) (anyexec : bool)
    (cs : list Z) : Z * bool :=
  if existsb (satisfied accmode) cs then (0, false)
  else if root_may pol type accmode cred anyexec then (0, true)
  else (denied accmode, false).

(** Some class of users may execute the file. *)
Definition anyexec (l : acl) : bool :=
  match acl_posix1e_acl_to_mode l with
  | Ok mode => has mode (Z.lor S_IXUSR (Z.lor S_IXGRP S_IXOTH))
  | Panic _ => false
  end.

Lemma dac_exec perm : Z.testbit (dac_of perm) 6 = Z.testbit perm 0.
Proof. unfold dac_of. rewrite testbit_perm_to_bits. cbn. by rewrite !andb_false_r, !andb_true_r, !orb_false_r. Qed.

(** The access modes that entries deal in. *)
Lemma land_all perm : Z.land (dac_of perm) (Z.lor VEXEC (Z.lor VREAD (Z.lor VWRITE VAPPEND))) = dac_of perm.
Proof.
  unfold dac_of, perm_to_bits.
  by destruct (has perm ACL_EXECUTE), (has perm ACL_READ), (has perm ACL_WRITE).
Qed.

Section valid.
Context (l : acl) (u g o : acl_entry) (m : option acl_entry).
Context (V : acl_valid l) (M : mode_entries l u g o m).

Lemma anyexec_entries :
  anyexec l = Z.testbit (ae_perm u) 0 || Z.testbit (ae_perm (default g m)) 0 ||
              Z.testbit (ae_perm o) 0.
Proof. unfold anyexec. rewrite (acl_to_mode_entries l u g o m V M). apply mode_exec. Qed.

Lemma masked_granted e :
  masked l e = Z.land (dac_of (ae_perm e))
    (match m with Some m => dac_of (ae_perm m)
     | None => Z.lor VEXEC (Z.lor VREAD (Z.lor VWRITE VAPPEND)) end).
Proof. unfold masked. rewrite (me_mask _ _ _ _ _ M). destruct m; [done|]. by rewrite land_all. Qed.

Lemma masked_exec e :
  e ∈ l -> ae_tag e ∈ [ACL_USER; ACL_GROUP_OBJ; ACL_GROUP] -> Z.testbit (masked l e) 6 = true ->
  anyexec l = true.
Proof.
  intros He Ht H. rewrite anyexec_entries. rewrite masked_granted, Z.land_spec in H.
  apply andb_prop in H as [H1 H2]. rewrite dac_exec in H1. destruct m as [m'|] eqn:Em.
  - rewrite dac_exec in H2. change (default g (Some m')) with m'. by rewrite H2, orb_true_r.
  - change (default g None) with g. assert (e = g) as ->; [|by rewrite H1, orb_true_r].
    assert (named l = []) as Hn.
    { destruct (named l) eqn:E; [done|]. pose proof (av_named _ V) as Hv. rewrite E in Hv.
      rewrite (me_mask _ _ _ _ _ M) in Hv. specialize (Hv ltac:(done)). discriminate. }
    assert (e ∉ named l) as Hnot by (rewrite Hn; apply not_elem_of_nil).
    assert (e ∈ with_tag ACL_GROUP_OBJ l) as Hg.
    { apply list_elem_of_filter. split; [|done]. set_unfold in Ht.
      destruct Ht as [Ht|[Ht|[Ht|[]]]]; [|done|]; destruct Hnot; apply list_elem_of_filter; auto. }
    rewrite (me_group _ _ _ _ _ M) in Hg. by apply list_elem_of_singleton in Hg.
Qed.

Lemma group_matches_tag file_gid cred e :
  acl_group_matches file_gid cred e = true -> ae_tag e ∈ [ACL_USER; ACL_GROUP_OBJ; ACL_GROUP].
Proof.
  unfold acl_group_matches. set_unfold. destruct (Z.eqb_spec (ae_tag e) ACL_GROUP_OBJ); [auto|].
  destruct (Z.eqb_spec (ae_tag e) ACL_GROUP); auto. discriminate.
Qed.

Lemma acl_priv_granted_su ps pol type accmode cred :
  acl_priv_granted ps pol type accmode cred l = Ok (su_granted pol type accmode cred (anyexec l)).
Proof.
  unfold acl_priv_granted, su_granted. rewrite !privileged_su by done.
  destruct (decide (type = VDIR)) as [->|Ht].
  - rewrite bind_Ok. by rewrite bool_decide_eq_true_2, orb_true_l, andb_true_r.
  - rewrite bool_decide_eq_false_2 by done. rewrite orb_false_l.
    destruct (has accmode VEXEC) eqn:E; [|done].
    unfold anyexec. rewrite (acl_to_mode_entries l u g o m V M). by rewrite !bind_Ok.
Qed.
End valid.

Lemma existsb_ext_in {A} (f g : A -> bool) (l : list A) :
  (forall x, x ∈ l -> f x = g x) -> existsb f l = existsb g l.
Proof.
  induction l as [|x l IH]; intros H; [done|]. cbn. rewrite H by apply list_elem_of_here.
  f_equal. apply IH. intros y Hy. apply H. by apply list_elem_of_further.
Qed.

Lemma existsb_filter {A} (f h : A -> bool) (l : list A) :
  existsb h (filter (fun x => f x = true) l) = existsb (fun x => f x && h x) l.
Proof.
  induction l as [|x l IH]; [done|]. rewrite filter_cons. cbn [existsb].
  destruct (f x); case_decide; try done; cbn [existsb andb orb]; by rewrite IH.
Qed.

Lemma existsb_fmap {A B} (f : A -> B) (h : B -> bool) (l : list A) :
  existsb h (f <$> l) = existsb (fun x => h (f x)) l.
Proof. induction l as [|x l IH]; [done|]. cbn. by rewrite IH. Qed.

Lemma existsb_or_const {A} (f : A -> bool) (b : bool) (l : list A) :
  l <> [] -> existsb (fun x => f x || b) l = existsb f l || b.
Proof.
  intros Hl. destruct b; [|rewrite orb_false_r; apply existsb_ext_in; intros x _; apply orb_false_r].
  destruct l; [done|]. cbn. by rewrite !orb_true_r.
Qed.

(** The whole decision, for a valid list. *)
Lemma vaccess_acl_verdict ps pol type file_uid file_gid accmode cred l :
  acl_valid l -> accmode_ok accmode = Ok tt ->
  vaccess_acl_posix1e ps pol type file_uid file_gid accmode cred l =
  Ok (verdict pol type accmode cred (anyexec l) (candidates file_uid file_gid cred l)).
Proof.
  intros V Hok. destruct (mode_entries_exist l V) as (u & g & o & m & M).
  pose proof (anyexec_entries l u g o m V M) as Hx.
  unfold vaccess_acl_posix1e, verdict, candidates. rewrite Hok, bind_Ok.
  rewrite (acl_priv_granted_su l u g o m V M), bind_Ok, acl_owner_spec.
  rewrite (me_user _ _ _ _ _ M), (me_mask _ _ _ _ _ M), (me_other _ _ _ _ _ M).
  destruct (Z.eqb_spec file_uid (cr_uid cred)) as [_|_].
  { rewrite decide_by_su; [|done|].
    - cbn. by rewrite orb_false_r.
    - rewrite Z.lor_spec, dac_exec, Hx. change (Z.testbit VADMIN 6) with false.
      rewrite orb_false_l. by intros ->. }
  cbn [last_from foldl]. rewrite acl_user_spec.
  set (mg := match last_from None (option_list m) with Some _ => _ | None => _ end).
  assert (forall e, Z.land (dac_of (ae_perm e)) mg = masked l e) as Hmask.
  { intros e. rewrite (masked_granted l u g o m M). unfold mg. by destruct m. }
  destruct (filter (fun e => is_named_user cred e = true) l) as [|e es] eqn:Eu; cycle 1.
  { assert (e ∈ filter (fun e => is_named_user cred e = true) l) as He by (rewrite Eu; apply list_elem_of_here).
    apply list_elem_of_filter in He as [Hn He]. rewrite Hmask, decide_by_su; [|done|].
    - cbn. by rewrite orb_false_r.
    - apply (masked_exec l u g o m V M e He). apply andb_prop in Hn as [Ht _].
      apply Z.eqb_eq in Ht. rewrite Ht. set_unfold. auto. }
  rewrite acl_group_spec, acl_group_priv_spec.
  set (gs := filter (fun e => acl_group_matches file_gid cred e = true) l).
  assert (forall p, existsb (group_grants file_gid accmode cred mg p) l =
    existsb (fun e => satisfied accmode (Z.lor (masked l e) p)) gs) as Hgs.
  { intros p. unfold gs. rewrite existsb_filter. apply existsb_ext_in. intros e _.
    unfold group_grants. by rewrite Hmask. }
  assert (existsb (acl_group_matches file_gid cred) l = negb (bool_decide (gs = []))) as ->.
  { assert (existsb (acl_group_matches file_gid cred) l = existsb (fun _ => true) gs) as ->.
    { unfold gs. rewrite existsb_filter. apply existsb_ext_in. intros e _. by rewrite andb_true_r. }
    by destruct gs. }
  rewrite !Hgs.
  rewrite (existsb_ext_in
    (fun e => satisfied accmode (Z.lor (masked l e) (su_granted pol type accmode cred (anyexec l))))
    (fun e => satisfied accmode (masked l e) ||
    root_may pol type accmode cred (anyexec l)) gs); cycle 1.
  { intros e He. apply list_elem_of_filter in He as [Hm He]. apply satisfied_su; [done|].
    apply (masked_exec l u g o m V M e He). by eapply group_matches_tag. }
  rewrite (existsb_ext_in (fun e => satisfied accmode (Z.lor (masked l e) 0))
    (fun e => satisfied accmode (masked l e)) gs) by (intros e _; by rewrite Z.lor_0_r).
  destruct gs as [|e es].
  - cbn. rewrite decide_by_su; [by rewrite orb_false_r | done |].
    rewrite dac_exec, Hx. intros ->. by rewrite !orb_true_r.
  - rewrite existsb_fmap, existsb_or_const by done.
    destruct (existsb _ (e :: es)) eqn:E1; [done|]. by destruct (root_may _ _ _ _ _).
Qed.

(** ** Modes *)

(** The access modes that the bits of a class give. *)
Definition class_of (mode x r w : Z) : Z :=
  Z.lor (flag_if (has mode x) VEXEC)
    (Z.lor (flag_if (has mode r) VREAD) (flag_if (has mode w) (Z.lor VWRITE VAPPEND))).

Definition mode_class (file_mode file_uid file_gid : Z) (cred : ucred) : Z :=
  if cr_uid cred =? file_uid then Z.lor VADMIN (class_of file_mode S_IXUSR S_IRUSR S_IWUSR)
  else if groupmember file_gid cred then class_of file_mode S_IXGRP S_IRGRP S_IWGRP
  else class_of file_mode S_IXOTH S_IROTH S_IWOTH.

Lemma mode_any_exec mode :
  has mode (Z.lor S_IXUSR (Z.lor S_IXGRP S_IXOTH)) =
  has mode S_IXUSR || has mode S_IXGRP || has mode S_IXOTH.
Proof.
  unfold has. rewrite !Z.land_lor_distr_r. apply eq_true_iff_eq.
  rewrite !orb_true_iff, !negb_true_iff, !Z.eqb_neq, !Z.lor_eq_0_iff. 
  destruct (Z.eq_dec (Z.land mode S_IXUSR) 0), (Z.eq_dec (Z.land mode S_IXGRP) 0); tauto.
Qed.

Lemma mode_class_exec mode uid gid cred :
  Z.testbit (mode_class mode uid gid cred) 6 = true ->
  has mode (Z.lor S_IXUSR (Z.lor S_IXGRP S_IXOTH)) = true.
Proof.
  rewrite mode_any_exec. unfold mode_class, class_of.
  destruct (has mode S_IXUSR), (has mode S_IXGRP), (has mode S_IXOTH); try done.
  destruct (cr_uid cred =? uid), (groupmember gid cred); cbn [flag_if];
    rewrite !Z.lor_spec, !testbit_flag_if; cbn; by rewrite !andb_false_r.
Qed.

(** Only five bits matter. *)
Lemma satisfied_bits a g :
  accmode_ok a = Ok tt ->
  satisfied a g = forallb (fun k => negb (Z.testbit a k) || Z.testbit g k) [6; 7; 8; 12; 14].
Proof.
  intros [Hbits _]%accmode_ok_inv. apply eq_true_iff_eq. rewrite satisfied_iff, forallb_forall. split.
  - intros H k Hk%list_elem_of_In. specialize (H k). destruct (Z.testbit a k); [|done].
    apply H; [|done]. set_unfold in Hk. lia.
  - intros H k Hk Ha. specialize (H k (proj1 (list_elem_of_In _ _) (Hbits k Hk Ha))).
    by rewrite Ha in H.
Qed.

(** Privilege for what is not granted anyway, or for all of the request: the
    same. *)
Lemma lor_need pol type accmode cred x c :
  accmode_ok accmode = Ok tt ->
  (has c VWRITE = true -> has c VAPPEND = true) ->
  let su := superuserb pol cred in
  let need flag := has accmode flag && negb (has c flag) in
  let priv :=
    Z.lor (flag_if (need VEXEC && (bool_decide (type = VDIR) || x) && su) VEXEC)
    (Z.lor (flag_if (need VREAD && su) VREAD)
    (Z.lor (flag_if (need VWRITE && su) (Z.lor VWRITE VAPPEND)) (flag_if (need VADMIN && su) VADMIN))) in
  satisfied accmode (Z.lor priv c) = satisfied accmode (Z.lor c (su_granted pol type accmode cred x)).
Proof.
  intros Hok Hwa. cbv zeta. rewrite !satisfied_bits by done.
  apply accmode_ok_inv in Hok as [_ Hap].
  destruct (has_flags accmode) as (A6 & A7 & A8 & A12 & A14 & _).
  destruct (has_flags c) as (C6 & C7 & C8 & C12 & C14 & _).
  unfold su_granted. rewrite A6, A7, A8, A12, A14, C6, C7, C8, C12. rewrite C7, C14 in Hwa.
  cbn [forallb]. rewrite !Z.lor_spec, !testbit_flag_if.
  revert Hap Hwa. generalize (Z.testbit accmode 6) (Z.testbit accmode 7) (Z.testbit accmode 8)
    (Z.testbit accmode 12) (Z.testbit accmode 14) (Z.testbit c 6) (Z.testbit c 7) (Z.testbit c 8)
    (Z.testbit c 12) (Z.testbit c 14) (superuserb pol cred) (bool_decide (type = VDIR) || x).
  intros a6 a7 a8 a12 a14 c6 c7 c8 c12 c14 su dx Hap Hwa. cbn.
  assert (a14 = true -> a7 = true) by auto. clear Hap.
  destruct a6, c6, su, dx; cbn; try reflexivity;
  destruct a7, c7, a14, c14; cbn; try reflexivity; try (specialize (Hwa eq_refl); done);
  try (specialize (H eq_refl); done);
  destruct a8, c8; cbn; try reflexivity; destruct a12, c12; reflexivity.
Qed.
