(* ===== verification/AclProps.v ===== *)
(** Properties of the access control lists of [Acl]: what the syntactic check
    guarantees, how a decision depends on the entries, the agreement of a
    minimal ACL with the mode it is made of. *)

From stdpp Require Import gmap.
From S2P Require Import Prelude Priv Cred CredInv Acl AclSpec.

(** The bits of the constants. *)
Ltac const_bits :=
  repeat match goal with
  | |- context [Z.testbit ?c ?j] =>
      let b := eval vm_compute in (Z.testbit c j) in
      match b with true => idtac | false => idtac end;
      change (Z.testbit c j) with b
  end;
  rewrite ?andb_false_r, ?andb_true_r, ?orb_false_r, ?orb_false_l.

(** ** Modes as lists *)

(** The ACL that a mode alone amounts to. *)
Definition minimal_acl (mode uid gid : Z) : acl :=
  [acl_posix1e_mode_to_entry ACL_USER_OBJ uid gid mode;
   acl_posix1e_mode_to_entry ACL_GROUP_OBJ uid gid mode;
   acl_posix1e_mode_to_entry ACL_OTHER uid gid mode].

Lemma mode_to_perm_bits tag mode x r w :
  mode_bits tag = Some (x, r, w) ->
  let p := acl_posix1e_mode_to_perm tag mode in
  Z.testbit p 0 = has mode x /\ Z.testbit p 2 = has mode r /\ Z.testbit p 1 = has mode w.
Proof.
  intros H. unfold acl_posix1e_mode_to_perm. rewrite H. cbv zeta.
  by destruct (has mode x), (has mode r), (has mode w).
Qed.

Lemma mode_to_perm_high tag mode k : 3 <= k -> Z.testbit (acl_posix1e_mode_to_perm tag mode) k = false.
Proof.
  intros Hk. unfold acl_posix1e_mode_to_perm. repeat case_match; try apply Z.bits_0.
  unfold flag_if. repeat case_match;
    (apply Z.bits_0 || (apply Z.bits_above_log2; [done | vm_compute Z.log2; lia])).
Qed.

Lemma dac_of_mode tag mode x r w :
  mode_bits tag = Some (x, r, w) ->
  dac_of (acl_posix1e_mode_to_perm tag mode) = class_of mode x r w.
Proof.
  intros H. destruct (mode_to_perm_bits tag mode x r w H) as (H0 & H2 & H1).
  destruct (has_flags (acl_posix1e_mode_to_perm tag mode)) as (_ & _ & _ & _ & _ & F0 & F1 & F2).
  unfold dac_of, perm_to_bits, class_of. by rewrite F0, F1, F2, H0, H1, H2.
Qed.

Lemma minimal_acl_valid mode uid gid : acl_valid (minimal_acl mode uid gid).
Proof.
  constructor; try done.
  - repeat (apply Forall_cons_2; [cbn; set_unfold; tauto|]). apply Forall_nil_2.
  - repeat (apply Forall_cons_2; [intros k; apply mode_to_perm_high|]). apply Forall_nil_2.
  - apply (Nat.le_0_l 1).
Qed.

Lemma minimal_acl_entries mode uid gid :
  mode_entries (minimal_acl mode uid gid)
    (acl_posix1e_mode_to_entry ACL_USER_OBJ uid gid mode)
    (acl_posix1e_mode_to_entry ACL_GROUP_OBJ uid gid mode)
    (acl_posix1e_mode_to_entry ACL_OTHER uid gid mode) None.
Proof. done. Qed.

(** The ids of its entries do not matter. *)
Lemma minimal_candidates mode u g uid gid cred :
  candidates uid gid cred (minimal_acl mode u g) = [mode_class mode uid gid cred].
Proof.
  destruct (minimal_acl_entries mode u g) as [Hu _ Ho Hm].
  unfold candidates, mode_class. rewrite Hu, Ho, Z.eqb_sym.
  destruct (cr_uid cred =? uid).
  { cbn [fmap list_fmap acl_posix1e_mode_to_entry ae_perm]. do 2 f_equal. by apply dac_of_mode. }
  match goal with
  | |- context [match filter ?P ?l with [] => _ | _ => _ end] =>
      change (filter P l) with (@nil acl_entry)
  end. cbn beta iota.
  unfold masked. rewrite Hm. unfold minimal_acl.
  destruct (groupmember gid cred) eqn:E.
  - rewrite filter_cons_False by done. rewrite filter_cons_True by exact E.
    cbn. f_equal. by apply (dac_of_mode ACL_GROUP_OBJ).
  - rewrite !filter_cons_False by (cbn; by rewrite ?E).
    cbn. f_equal. by apply (dac_of_mode ACL_OTHER).
Qed.

Lemma minimal_anyexec mode uid gid :
  anyexec (minimal_acl mode uid gid) = has mode (Z.lor S_IXUSR (Z.lor S_IXGRP S_IXOTH)).
Proof.
  rewrite (anyexec_entries _ _ _ _ _ (minimal_acl_valid _ _ _) (minimal_acl_entries _ _ _)).
  rewrite mode_any_exec. cbn [default acl_posix1e_mode_to_entry ae_perm].
  by rewrite (proj1 (mode_to_perm_bits ACL_USER_OBJ mode _ _ _ eq_refl)),
    (proj1 (mode_to_perm_bits ACL_GROUP_OBJ mode _ _ _ eq_refl)),
    (proj1 (mode_to_perm_bits ACL_OTHER mode _ _ _ eq_refl)).
Qed.

Lemma class_of_append mode x r w :
  has (class_of mode x r w) VWRITE = true -> has (class_of mode x r w) VAPPEND = true.
Proof. unfold class_of. by destruct (has mode x), (has mode r), (has mode w). Qed.

Lemma mode_class_append mode uid gid cred :
  has (mode_class mode uid gid cred) VWRITE = true -> has (mode_class mode uid gid cred) VAPPEND = true.
Proof.
  unfold mode_class. repeat case_match; try apply class_of_append. unfold class_of.
  by destruct (has mode S_IXUSR), (has mode S_IRUSR), (has mode S_IWUSR).
Qed.

(** The decision by the mode alone. *)
Lemma vaccess_mode_verdict ps pol type mode uid gid accmode cred :
  accmode_ok accmode = Ok tt ->
  vaccess ps pol type mode uid gid accmode cred =
  Ok (verdict pol type accmode cred (has mode (Z.lor S_IXUSR (Z.lor S_IXGRP S_IXOTH)))
        [mode_class mode uid gid cred]).
Proof.
  intros Hok. unfold vaccess. rewrite Hok, bind_Ok.
  fold (class_of mode S_IXUSR S_IRUSR S_IWUSR) (class_of mode S_IXGRP S_IRGRP S_IWGRP)
    (class_of mode S_IXOTH S_IROTH S_IWOTH).
  fold (mode_class mode uid gid cred). rewrite !privileged_su by done.
  set (c := mode_class mode uid gid cred). set (x := has mode _).
  unfold verdict. cbn [existsb]. rewrite orb_false_r.
  destruct (satisfied accmode c) eqn:E; [done|].
  pose proof (lor_need pol type accmode cred x c Hok (mode_class_append mode uid gid cred)) as Hn.
  cbv zeta in Hn. rewrite satisfied_su, E, orb_false_l in Hn by (done || apply mode_class_exec).
  rewrite <- Hn. destruct (decide (type = VDIR)) as [Ht|Ht].
  - rewrite (bool_decide_eq_true_2 _ Ht), orb_true_l, andb_true_r. by case_match.
  - rewrite (bool_decide_eq_false_2 _ Ht), orb_false_l. by case_match.
Qed.

(** ** The check *)

Lemma with_tag_normal t l : length (with_tag t (normal_entry <$> l)) = length (with_tag t l).
Proof.
  induction l as [|e l IH]; [done|]. unfold with_tag in *. cbn [fmap list_fmap]. rewrite !filter_cons.
  assert (ae_tag (normal_entry e) = ae_tag e) as -> by (unfold normal_entry; by case_match).
  case_decide; cbn [length]; congruence.
Qed.

Lemma normal_entry_valid e : entry_valid e -> entry_valid (normal_entry e).
Proof.
  intros [Ht Hp Hi]. unfold normal_entry.
  destruct (Z.eqb_spec (ae_tag e) ACL_USER); [done|].
  destruct (Z.eqb_spec (ae_tag e) ACL_GROUP); [done|]. split; [done..|]. cbn. tauto.
Qed.

Lemma normal_valid l : acl_valid l -> acl_valid (normal_entry <$> l).
Proof.
  rewrite !acl_valid_counts. unfold count_tag, zlength in *. rewrite !with_tag_normal, length_fmap.
  intros (H1 & H2 & H3). split_and!; try tauto. apply Forall_fmap.
  apply (Forall_impl _ _ _ H2 normal_entry_valid).
Qed.

(** The check passes the valid lists, and no others. *)
Lemma check_valid l : acl_valid l -> acl_posix1e_check l = (0, normal_entry <$> l).
Proof.
  rewrite acl_valid_counts. intros (Hl & He & Hu & Hg & Ho & Hm & Hn).
  unfold acl_posix1e_check. ztest. pose proof (check_entries_spec l (MkCounts 0 0 0 0 0 0)) as H.
  destruct (check_entries l _) as [l' [n|]]; [|done]. destruct H as (-> & -> & _).
  unfold add_counts. cbn [num_user_obj num_user num_group_obj num_group num_mask num_other].
  rewrite !Z.add_0_l, Hu, Hg, Ho.
  assert (0 <= count_tag ACL_MASK l /\ 0 <= count_tag ACL_USER l /\ 0 <= count_tag ACL_GROUP l) as (? & ? & ?)
    by (unfold count_tag, zlength; lia).
  destruct (Z.eqb_spec (count_tag ACL_MASK l) 0) as [E|E];
    destruct (Z.eqb_spec (count_tag ACL_MASK l) 1) as [E1|E1]; try lia; cbn [negb andb orb].
  - ztest. by ztest.
  - by rewrite andb_false_r.
Qed.

Lemma check_zero l : fst (acl_posix1e_check l) = 0 -> acl_valid l.
Proof.
  rewrite acl_valid_counts. unfold acl_posix1e_check.
  destruct (Z.ltb_spec ACL_MAX_ENTRIES (zlength l)) as [|Hl]; [done|].
  pose proof (check_entries_spec l (MkCounts 0 0 0 0 0 0)) as H.
  destruct (check_entries l _) as [l' [n|]]; [|done]. destruct H as (-> & -> & He).
  unfold add_counts. cbn [num_user_obj num_user num_group_obj num_group num_mask num_other].
  rewrite !Z.add_0_l.
  destruct (Z.eqb_spec (count_tag ACL_USER_OBJ l) 1); [cbn [negb orb]|done].
  destruct (Z.eqb_spec (count_tag ACL_GROUP_OBJ l) 1); [cbn [negb orb]|done].
  destruct (Z.eqb_spec (count_tag ACL_OTHER l) 1); [cbn [negb orb]|done].
  destruct (Z.eqb_spec (count_tag ACL_MASK l) 1) as [E|E].
  { intros _. split_and!; auto; lia. }
  destruct (Z.eqb_spec (count_tag ACL_MASK l) 0) as [E0|E0]; [cbn [negb orb andb]|done].
  destruct (Z.eqb_spec (count_tag ACL_GROUP l) 0), (Z.eqb_spec (count_tag ACL_USER l) 0); try done.
  intros _. split_and!; auto; lia.
Qed.

#[export] Instance acl_valid_dec l : Decision (acl_valid l).
Proof.
  destruct (decide (fst (acl_posix1e_check l) = 0)) as [H|H].
  - left. by apply check_zero.
  - right. intros V. apply H. by rewrite check_valid.
Defined.

Lemma check_errno l : fst (acl_posix1e_check l) = 0 \/ fst (acl_posix1e_check l) = EINVAL.
Proof. unfold acl_posix1e_check. repeat case_match; cbn; auto. Qed.

Lemma check_inv l l' : acl_posix1e_check l = (0, l') -> acl_valid l /\ l' = normal_entry <$> l.
Proof.
  intros H. assert (acl_valid l) as V by (apply check_zero; by rewrite H).
  rewrite (check_valid l V) in H. by injection H.
Qed.

(** ** The mode of a list *)

Lemma perms_to_mode_high u g o k :
  9 <= k -> Z.testbit (acl_posix1e_perms_to_mode u g o) k = false.
Proof.
  intros Hk. unfold acl_posix1e_perms_to_mode. rewrite !Z.lor_spec, !testbit_perm_to_bits.
  assert (forall x, 0 < x < 512 -> Z.testbit x k = false) as H.
  { intros x Hx. apply Z.bits_above_log2; [lia|]. apply Z.log2_lt_pow2; [lia|].
    apply Z.lt_le_trans with (2 ^ 9); [lia|]. apply Z.pow_le_mono_r; lia. }
  rewrite !H by (vm_compute; done). by rewrite !andb_false_r.
Qed.

Lemma perms_to_mode_range u g o : 0 <= acl_posix1e_perms_to_mode u g o < 512.
Proof.
  assert (0 <= acl_posix1e_perms_to_mode u g o) as H0.
  { unfold acl_posix1e_perms_to_mode, perm_to_bits, flag_if.
    repeat (apply Z.lor_nonneg; split); by case_match. }
  split; [done|]. destruct (Z.eq_dec (acl_posix1e_perms_to_mode u g o) 0) as [E|E]; [lia|].
  apply (Z.log2_lt_pow2 _ 9); [lia|]. apply Z.nle_gt. intros H.
  pose proof (perms_to_mode_high u g o _ H) as Hb. rewrite Z.bit_log2 in Hb; [discriminate | lia].
Qed.

Lemma has_mode_flags m :
  has m S_IXUSR = Z.testbit m 6 /\ has m S_IWUSR = Z.testbit m 7 /\ has m S_IRUSR = Z.testbit m 8 /\
  has m S_IXGRP = Z.testbit m 3 /\ has m S_IWGRP = Z.testbit m 4 /\ has m S_IRGRP = Z.testbit m 5 /\
  has m S_IXOTH = Z.testbit m 0 /\ has m S_IWOTH = Z.testbit m 1 /\ has m S_IROTH = Z.testbit m 2.
Proof.
  split_and!; [apply (has_pow2 m 6) | apply (has_pow2 m 7) | apply (has_pow2 m 8)
    | apply (has_pow2 m 3) | apply (has_pow2 m 4) | apply (has_pow2 m 5)
    | apply (has_pow2 m 0) | apply (has_pow2 m 1) | apply (has_pow2 m 2)]; lia.
Qed.

Lemma mode_of_entries mode uid gid k :
  0 <= k < 9 ->
  Z.testbit (acl_posix1e_perms_to_mode (acl_posix1e_mode_to_entry ACL_USER_OBJ uid gid mode)
    (acl_posix1e_mode_to_entry ACL_GROUP_OBJ uid gid mode)
    (acl_posix1e_mode_to_entry ACL_OTHER uid gid mode)) k = Z.testbit mode k.
Proof.
  intros Hk. unfold acl_posix1e_perms_to_mode. rewrite !Z.lor_spec, !testbit_perm_to_bits.
  cbn [acl_posix1e_mode_to_entry ae_perm].
  destruct (mode_to_perm_bits ACL_USER_OBJ mode _ _ _ eq_refl) as (-> & -> & ->).
  destruct (mode_to_perm_bits ACL_GROUP_OBJ mode _ _ _ eq_refl) as (-> & -> & ->).
  destruct (mode_to_perm_bits ACL_OTHER mode _ _ _ eq_refl) as (-> & -> & ->).
  destruct (has_mode_flags mode) as (-> & -> & -> & -> & -> & -> & -> & -> & ->).
  assert (k = 0 \/ k = 1 \/ k = 2 \/ k = 3 \/ k = 4 \/ k = 5 \/ k = 6 \/ k = 7 \/ k = 8) as Hc by lia.
  destruct Hc as [->|[->|[->|[->|[->|[->|[->|[->| ->]]]]]]]]; by const_bits.
Qed.

Lemma minimal_to_mode mode uid gid :
  acl_posix1e_acl_to_mode (minimal_acl mode uid gid) = Ok (Z.land mode 0x1ff).
Proof.
  rewrite (acl_to_mode_entries _ _ _ _ _ (minimal_acl_valid _ _ _) (minimal_acl_entries _ _ _)).
  f_equal. apply Z.bits_inj'. intros k Hk. change 0x1ff with (Z.ones 9).
  rewrite Z.land_spec, testbit_ones by lia. destruct (Z.lt_ge_cases k 9).
  - cbn [default]. rewrite mode_of_entries by lia. ztest. by rewrite andb_true_r.
  - rewrite perms_to_mode_high by lia. ztest. by rewrite !andb_false_r.
Qed.

(** The mode of a file made under a default ACL. *)
Lemma newfilemode_bits cmode l u g o m k :
  acl_valid l -> mode_entries l u g o m -> 0 <= k ->
  exists nm, acl_posix1e_newfilemode cmode l = Ok nm /\
    Z.testbit nm k = Z.testbit cmode k &&
      (if k <? 9 then Z.testbit (acl_posix1e_perms_to_mode u (default g m) o) k else true).
Proof.
  intros V M Hk. unfold acl_posix1e_newfilemode. rewrite (acl_to_mode_entries l u g o m V M), bind_Ok.
  eexists. split; [done|]. unfold ACL_PRESERVE_MASK. change ACL_OVERRIDE_MASK with (Z.ones 9).
  rewrite Z.lor_spec, !Z.land_spec, Z.lnot_spec, testbit_ones by lia. ztest.
  destruct (Z.ltb_spec k 9); cbn [andb negb];
    by rewrite ?andb_false_r, ?andb_true_r, ?andb_false_l, ?andb_true_l, ?orb_false_l, ?orb_false_r.
Qed.
