(* ===== verification/UfsAcl.v ===== *)
(** Access control of UFS files: the POSIX.1e half of
    src/sys/ufs/ufs/ufs_acl.c, [ufs_accessx] and the inheritance of default
    ACLs of src/sys/ufs/ufs/ufs_vnops.c, and the wrappers of the ACL system
    calls of src/sys/kern/vfs_acl.c.

    The extended attributes of a file are an interface, [ExtAttr]; so are the
    NFSv4 ACLs, which these routines only dispatch to. *)

From stdpp Require Import gmap strings.
From S2P Require Import Prelude Priv Cred Acl.

(** ** Constants *)

Definition ACL_TYPE_ACCESS_OLD : Z := 0.
Definition ACL_TYPE_DEFAULT_OLD : Z := 1.
Definition ACL_TYPE_ACCESS : Z := 2.
Definition ACL_TYPE_DEFAULT : Z := 3.
Definition ACL_TYPE_NFS4 : Z := 4.
Definition POSIX1E_ACL_ACCESS_EXTATTR_NAME : string := "posix1e.acl_access".
Definition POSIX1E_ACL_DEFAULT_EXTATTR_NAME : string := "posix1e.acl_default".
Definition SIZEOF_OLDACL : Z := 4 + OLDACL_MAX_ENTRIES * 12.

Definition MNT_RDONLY : Z := 0x1.
Definition MNT_NFS4ACLS : Z := 0x10.
Definition MNT_ACLS : Z := 0x8000000.

Definition IMMUTABLE : Z := Z.lor 0x2 0x20000.
Definition APPEND : Z := Z.lor 0x4 0x40000.
Definition SF_SNAPSHOT : Z := 0x200000.

Definition VEXPLICIT_DENY : Z := 0x8000.
Definition VDELETE_CHILD : Z := 0x40000.
Definition VREAD_ATTRIBUTES : Z := 0x80000.
Definition VWRITE_ATTRIBUTES : Z := 0x100000.
Definition VDELETE : Z := 0x200000.
Definition VREAD_ACL : Z := 0x400000.
Definition VWRITE_ACL : Z := 0x800000.
Definition VWRITE_OWNER : Z := 0x1000000.
Definition VSYNCHRONIZE : Z := 0x2000000.
Definition VADMIN_PERMS : Z := Z.lor VADMIN (Z.lor VWRITE_ATTRIBUTES (Z.lor VWRITE_ACL VWRITE_OWNER)).
Definition VSTAT_PERMS : Z := Z.lor VREAD_ATTRIBUTES VREAD_ACL.
Definition VMODIFY_PERMS : Z :=
  Z.lor VWRITE (Z.lor VAPPEND (Z.lor VADMIN_PERMS (Z.lor VDELETE_CHILD VDELETE))).

Definition ENOTDIR : Z := 20.
Definition EROFS : Z := 30.
Definition EOPNOTSUPP : Z := 45.
Definition ENOATTR : Z := 87.

(** ** Interfaces *)

(** [vn_extattr_get], [vn_extattr_set] and [vn_extattr_rm] on the attributes
    [E] of one file in the system name space, read into a buffer for one
    [struct oldacl]: the errno, or the bytes read and what they spell. *)
Class ExtAttr (E : Type) : Type := {
  ea_get : E -> string -> Z + Z * oldacl;
  ea_set : E -> string -> oldacl -> Z * E;
  ea_rm : E -> string -> Z * E
}.

(** What the clients rely on: a write that succeeds is read back and touches
    no other attribute; one that fails may leave a torn attribute, which reads
    as an error or too short, but nothing else. *)
Class ExtAttrLaws (E : Type) `{ExtAttr E} : Prop := {
  ea_set_get : forall e n v e', ea_set e n v = (0, e') -> ea_get e' n = inr (SIZEOF_OLDACL, v);
  ea_set_other : forall e n v r e' n', ea_set e n v = (r, e') -> n' <> n -> ea_get e' n' = ea_get e n';
  ea_set_torn : forall e n v r e', ea_set e n v = (r, e') -> r <> 0 ->
    ea_get e' n = ea_get e n \/ (exists error, ea_get e' n = inl error) \/
    (exists len old, ea_get e' n = inr (len, old) /\ len <> SIZEOF_OLDACL);
  ea_rm_get : forall e n e', ea_rm e n = (0, e') -> ea_get e' n = inl ENOATTR;
  ea_rm_other : forall e n r e' n', ea_rm e n = (r, e') -> n' <> n -> ea_get e' n' = ea_get e n';
  ea_rm_torn : forall e n r e', ea_rm e n = (r, e') -> r <> 0 -> ea_get e' n = ea_get e n
}.

Record vnode (E : Type) := MkVnode {
  v_type : vtype;
  mnt_flag : Z;
  i_mode : Z;
  di_mode : Z;
  i_uid : Z;
  i_gid : Z;
  i_flags : Z;
  i_change : bool;
  v_ea : E
}.
Arguments MkVnode {E}.
Arguments v_type {E}.
Arguments mnt_flag {E}.
Arguments i_mode {E}.
Arguments di_mode {E}.
Arguments i_uid {E}.
Arguments i_gid {E}.
Arguments i_flags {E}.
Arguments i_change {E}.
Arguments v_ea {E}.

(** The NFSv4 half. *)
Record nfs4_ops (E : Type) := MkNfs4 {
  ufs_getacl_nfs4 : vnode E -> Z + acl;
  ufs_setacl_nfs4 : vnode E -> option acl -> ucred -> result (Z * vnode E);
  ufs_aclcheck_nfs4 : vnode E -> acl -> Z * acl;
  ufs_getacl_nfs4_internal : vnode E -> Z + acl;
  vaccess_acl_nfs4 : vtype -> Z -> Z -> acl -> Z -> ucred -> Z
}.
Arguments ufs_getacl_nfs4 {E}.
Arguments ufs_setacl_nfs4 {E}.
Arguments ufs_aclcheck_nfs4 {E}.
Arguments ufs_getacl_nfs4_internal {E}.
Arguments vaccess_acl_nfs4 {E}.

Definition vn_set_mode {E} (m : Z) (vp : vnode E) : vnode E :=
  MkVnode (v_type vp) (mnt_flag vp) m m (i_uid vp) (i_gid vp) (i_flags vp) (i_change vp) (v_ea vp).
Definition vn_set_change {E} (vp : vnode E) : vnode E :=
  MkVnode (v_type vp) (mnt_flag vp) (i_mode vp) (di_mode vp) (i_uid vp) (i_gid vp) (i_flags vp)
    true (v_ea vp).
Definition vn_set_ea {E} (ea : E) (vp : vnode E) : vnode E :=
  MkVnode (v_type vp) (mnt_flag vp) (i_mode vp) (di_mode vp) (i_uid vp) (i_gid vp) (i_flags vp)
    (i_change vp) ea.

(** ** The inode and the ACL *)

(** The loop: the ACL, and the last mask and group entries by index. *)
Fixpoint sync_acl_scan (mode : Z) (l : acl) (i : nat) (acl_mask acl_group_obj : option nat)
    : result (acl * option nat * option nat) :=
  match l with
  | [] => Ok ([], acl_mask, acl_group_obj)
  | e :: l' =>
      '(e, acl_mask, acl_group_obj) ←
        (if ae_tag e =? ACL_USER_OBJ then
           Ok (set_ae_id ACL_UNDEFINED_ID
                 (set_ae_perm (acl_posix1e_mode_to_perm ACL_USER_OBJ mode) e), acl_mask, acl_group_obj)
         else if ae_tag e =? ACL_GROUP_OBJ then
           Ok (set_ae_id ACL_UNDEFINED_ID e, acl_mask, Some i)
         else if ae_tag e =? ACL_OTHER then
           Ok (set_ae_id ACL_UNDEFINED_ID
                 (set_ae_perm (acl_posix1e_mode_to_perm ACL_OTHER mode) e), acl_mask, acl_group_obj)
         else if ae_tag e =? ACL_MASK then
           Ok (set_ae_id ACL_UNDEFINED_ID e, Some i, acl_group_obj)
         else if (ae_tag e =? ACL_USER) || (ae_tag e =? ACL_GROUP) then
           Ok (e, acl_mask, acl_group_obj)
         else Panic "ufs_sync_acl_from_inode(): bad ae_tag");
      '(l', acl_mask, acl_group_obj) ← sync_acl_scan mode l' (S i) acl_mask acl_group_obj;
      Ok (e :: l', acl_mask, acl_group_obj)
  end.

Definition ufs_sync_acl_from_inode (mode : Z) (l : acl) : result acl :=
  '(l, acl_mask, acl_group_obj) ← sync_acl_scan mode l 0 None None;
  match acl_group_obj with
  | None => Panic "ufs_sync_acl_from_inode(): no ACL_GROUP_OBJ"
  | Some g =>
      Ok (alter (set_ae_perm (acl_posix1e_mode_to_perm ACL_GROUP_OBJ mode)) (default g acl_mask) l)
  end.

Definition ufs_sync_inode_from_acl {E} (l : acl) (vp : vnode E) : result (vnode E) :=
  m ← acl_posix1e_acl_to_mode l;
  Ok (vn_set_mode (Z.lor (Z.land (i_mode vp) ACL_PRESERVE_MASK) m) vp).

(** [None] is the complaint. *)
Definition vfs_unixify_accmode (accmode : Z) : Z + Z :=
  if has accmode VEXPLICIT_DENY then inr 0
  else if has accmode (Z.lor VDELETE_CHILD VDELETE) then inl EPERM
  else
    let accmode :=
      if has accmode VADMIN_PERMS then Z.lor (Z.land accmode (Z.lnot VADMIN_PERMS)) VADMIN
      else accmode in
    inr (Z.land accmode (Z.lnot (Z.lor VSTAT_PERMS VSYNCHRONIZE))).

Section ufs_acl.
Context {E : Type} `{ExtAttr E} (nfs4 : nfs4_ops E).
Context (ps : prisons) (pol : policy).
(** The error of the quota block of [ufs_accessx], and of [UFS_UPDATE]. *)
Context (getinoquota UFS_UPDATE : vnode E -> Z).

(** The errno, or the ACL that was read. *)
Definition ufs_get_oldacl (type : Z) (vp : vnode E) : Z + oldacl :=
  let check (r : Z + Z * oldacl) :=
    match r with
    | inl error => inl error
    | inr (len, old) => if negb (len =? SIZEOF_OLDACL) then inl EPERM else inr old
    end in
  if type =? ACL_TYPE_ACCESS then check (ea_get (v_ea vp) POSIX1E_ACL_ACCESS_EXTATTR_NAME)
  else if type =? ACL_TYPE_DEFAULT then
    if decide (v_type vp = VDIR) then check (ea_get (v_ea vp) POSIX1E_ACL_DEFAULT_EXTATTR_NAME)
    else inl EINVAL
  else inl EINVAL.

(** The ACLs of a file that has none. *)
Definition no_acl (type : Z) : oldacl :=
  if type =? ACL_TYPE_ACCESS then
    MkOldacl 3 ((fun t => MkOldEntry t ACL_UNDEFINED_ID 0) <$> [ACL_USER_OBJ; ACL_GROUP_OBJ; ACL_OTHER])
  else MkOldacl 0 [].

Definition ufs_getacl_posix1e (type : Z) (vp : vnode E) : result (Z + acl) :=
  if negb (has (mnt_flag vp) MNT_ACLS) then Ok (inl EINVAL)
  else
    let copy old :=
      match acl_copy_oldacl_into_acl old with
      | inl error => Ok (inl error)
      | inr l =>
          if type =? ACL_TYPE_ACCESS then l ← ufs_sync_acl_from_inode (i_mode vp) l; Ok (inr l)
          else Ok (inr l)
      end in
    match ufs_get_oldacl type vp with
    | inr old => copy old
    | inl error => if error =? ENOATTR then copy (no_acl type) else Ok (inl error)
    end.

Definition ufs_getacl (type : Z) (vp : vnode E) : result (Z + acl) :=
  if negb (has (mnt_flag vp) (Z.lor MNT_ACLS MNT_NFS4ACLS)) then Ok (inl EOPNOTSUPP)
  else if type =? ACL_TYPE_NFS4 then Ok (ufs_getacl_nfs4 nfs4 vp)
  else ufs_getacl_posix1e type vp.

(** The errno, and the ACL as the check leaves it. *)
Definition ufs_aclcheck_posix1e (type : Z) (vp : vnode E) (l : acl) : Z * acl :=
  if negb (has (mnt_flag vp) MNT_ACLS) then (EINVAL, l)
  else if negb (type =? ACL_TYPE_ACCESS) &&
          negb ((type =? ACL_TYPE_DEFAULT) && bool_decide (v_type vp = VDIR)) then (EINVAL, l)
  else if OLDACL_MAX_ENTRIES <? zlength l then (EINVAL, l)
  else acl_posix1e_check l.

Definition ufs_aclcheck (type : Z) (vp : vnode E) (l : acl) : Z * acl :=
  if negb (has (mnt_flag vp) (Z.lor MNT_ACLS MNT_NFS4ACLS)) then (EOPNOTSUPP, l)
  else if type =? ACL_TYPE_NFS4 then ufs_aclcheck_nfs4 nfs4 vp l
  else ufs_aclcheck_posix1e type vp l.

(** ** Access *)

Definition mode_access (accmode : Z) (vp : vnode E) (cred : ucred) : result Z :=
  match vfs_unixify_accmode accmode with
  | inl error => Ok error
  | inr accmode =>
      '(error, _) ← vaccess ps pol (v_type vp) (i_mode vp) (i_uid vp) (i_gid vp) accmode cred;
      Ok error
  end.

Definition ufs_accessx (accmode : Z) (vp : vnode E) (cred : ucred) : result Z :=
  let modify :=
    if has accmode VMODIFY_PERMS && bool_decide (v_type vp ∈ [VDIR; VLNK; VREG]) then
      if has (mnt_flag vp) MNT_RDONLY then EROFS else getinoquota vp
    else 0 in
  if negb (modify =? 0) then Ok modify
  else if has accmode (Z.land VMODIFY_PERMS (Z.lnot VADMIN_PERMS)) &&
          has (i_flags vp) (Z.lor IMMUTABLE SF_SNAPSHOT) then Ok EPERM
  else if has (mnt_flag vp) (Z.lor MNT_ACLS MNT_NFS4ACLS) then
    if has (mnt_flag vp) MNT_NFS4ACLS then
      match ufs_getacl_nfs4_internal nfs4 vp with
      | inr l => Ok (vaccess_acl_nfs4 nfs4 (v_type vp) (i_uid vp) (i_gid vp) l accmode cred)
      | inl _ => mode_access accmode vp cred
      end
    else
      r ← ufs_getacl ACL_TYPE_ACCESS vp;
      match r with
      | inr l =>
          match vfs_unixify_accmode accmode with
          | inl error => Ok error
          | inr accmode =>
              '(error, _) ← vaccess_acl_posix1e ps pol (v_type vp) (i_uid vp) (i_gid vp) accmode cred l;
              Ok error
          end
      | inl _ => mode_access accmode vp cred
      end
  else mode_access accmode vp cred.

Definition vop_stdaccess (accmode : Z) (vp : vnode E) (cred : ucred) : result Z :=
  _ ← require (Z.land accmode (Z.lnot (Z.lor VEXEC (Z.lor VWRITE (Z.lor VREAD (Z.lor VADMIN VAPPEND)))))
               =? 0) "invalid bit in accmode";
  ufs_accessx accmode vp cred.

(** ** Setting *)

(** What may be set where, before any access check; the ACL as the check
    leaves it. *)
Definition setacl_check (type : Z) (vp : vnode E) (aclp : option acl) : Z * option acl :=
  match aclp with
  | Some l => let '(error, l) := ufs_aclcheck type vp l in (error, Some l)
  | None =>
      (if negb (type =? ACL_TYPE_DEFAULT) then EINVAL
       else if decide (v_type vp = VDIR) then 0 else ENOTDIR, None)
  end.

(** The attribute: the errno and the attributes. *)
Definition setacl_store (type : Z) (vp : vnode E) (aclp : option acl) : result (Z * E) :=
  let store name l :=
    match acl_copy_acl_into_oldacl l with
    | inl error => (error, v_ea vp)
    | inr old => ea_set (v_ea vp) name old
    end in
  if type =? ACL_TYPE_ACCESS then
    match aclp with
    | Some l => Ok (store POSIX1E_ACL_ACCESS_EXTATTR_NAME l)
    | None => Panic "null pointer"
    end
  else if type =? ACL_TYPE_DEFAULT then
    Ok match aclp with
       | None =>
           let '(error, ea) := ea_rm (v_ea vp) POSIX1E_ACL_DEFAULT_EXTATTR_NAME in
           (if error =? ENOATTR then 0 else error, ea)
       | Some l => store POSIX1E_ACL_DEFAULT_EXTATTR_NAME l
       end
  else Ok (EINVAL, v_ea vp).

Definition ufs_setacl_posix1e (type : Z) (vp : vnode E) (aclp : option acl) (cred : ucred)
    : result (Z * vnode E) :=
  if negb (has (mnt_flag vp) MNT_ACLS) then Ok (EINVAL, vp)
  else
    let '(error, aclp) := setacl_check type vp aclp in
    if negb (error =? 0) then Ok (error, vp)
    else if has (mnt_flag vp) MNT_RDONLY then Ok (EROFS, vp)
    else if has (i_flags vp) (Z.lor IMMUTABLE APPEND) then Ok (EPERM, vp)
    else
      error ← vop_stdaccess VADMIN vp cred;
      if negb (error =? 0) then Ok (error, vp)
      else
        '(error, ea) ← setacl_store type vp aclp;
        let vp := vn_set_ea ea vp in
        if error =? ENOATTR then Ok (EOPNOTSUPP, vp)
        else if negb (error =? 0) then Ok (error, vp)
        else
          match aclp with
          | Some l =>
              if type =? ACL_TYPE_ACCESS then
                vp ← ufs_sync_inode_from_acl l vp;
                let vp := vn_set_change vp in
                Ok (UFS_UPDATE vp, vp)
              else Ok (0, vp)
          | None => Ok (0, vp)
          end.

Definition ufs_setacl (type : Z) (vp : vnode E) (aclp : option acl) (cred : ucred)
    : result (Z * vnode E) :=
  if negb (has (mnt_flag vp) (Z.lor MNT_ACLS MNT_NFS4ACLS)) then Ok (EOPNOTSUPP, vp)
  else if type =? ACL_TYPE_NFS4 then ufs_setacl_nfs4 nfs4 vp aclp cred
  else ufs_setacl_posix1e type vp aclp cred.

(** ** Inheritance: the new file as it is left *)

Definition ufs_do_posix1e_acl_inheritance_dir (dvp tvp : vnode E) (dmode : Z) (cred : ucred)
    : result (Z * vnode E) :=
  r ← ufs_getacl ACL_TYPE_DEFAULT dvp;
  let as_is := Ok (0, vn_set_mode dmode tvp) in
  match r with
  | inr [] => as_is
  | inr dacl =>
      dmode ← acl_posix1e_newfilemode dmode dacl;
      let tvp := vn_set_mode dmode tvp in
      l ← ufs_sync_acl_from_inode dmode dacl;
      '(error, tvp) ← ufs_setacl ACL_TYPE_ACCESS tvp (Some l) cred;
      if error =? 0 then ufs_setacl ACL_TYPE_DEFAULT tvp (Some dacl) cred else Ok (error, tvp)
  | inl error => if error =? EOPNOTSUPP then as_is else Ok (error, tvp)
  end.

Definition ufs_do_posix1e_acl_inheritance_file (dvp tvp : vnode E) (mode : Z) (cred : ucred)
    : result (Z * vnode E) :=
  r ← ufs_getacl ACL_TYPE_DEFAULT dvp;
  let as_is := Ok (0, vn_set_mode mode tvp) in
  match r with
  | inr [] => as_is
  | inr dacl =>
      mode ← acl_posix1e_newfilemode mode dacl;
      let tvp := vn_set_mode mode tvp in
      l ← ufs_sync_acl_from_inode mode dacl;
      ufs_setacl ACL_TYPE_ACCESS tvp (Some l) cred
  | inl error => if error =? EOPNOTSUPP then as_is else Ok (error, tvp)
  end.

(** ** The system calls' wrappers *)

(** A kernel [struct acl]: the entries that [acl_cnt] counts. *)
Record kacl := MkKacl {
  acl_maxcnt : Z;
  acl_entries : acl
}.

(** What copying the user's structure in gives: of an old one, the errno or
    the structure; of a new one, the errno and the buffer as it is left. *)
Record useracl := MkUser {
  copyin_old : Z + oldacl;
  copyin_acl : Z * kacl
}.

(** The errno and the kernel's ACL as it is left. *)
Definition acl_copyin (user : useracl) (kernel_acl : kacl) (type : Z) : Z * kacl :=
  if (type =? ACL_TYPE_ACCESS_OLD) || (type =? ACL_TYPE_DEFAULT_OLD) then
    match copyin_old user with
    | inl error => (error, kernel_acl)
    | inr old =>
        (0, match acl_copy_oldacl_into_acl old with
            | inr l => MkKacl ACL_MAX_ENTRIES l
            | inl _ => kernel_acl
            end)
    end
  else
    let '(error, kernel_acl) := copyin_acl user in
    if negb (acl_maxcnt kernel_acl =? ACL_MAX_ENTRIES) then (EINVAL, kernel_acl)
    else (error, kernel_acl).

Definition acl_type_unold (type : Z) : Z :=
  if type =? ACL_TYPE_ACCESS_OLD then ACL_TYPE_ACCESS
  else if type =? ACL_TYPE_DEFAULT_OLD then ACL_TYPE_DEFAULT
  else type.

(** [malloc0] is what the allocator leaves in the structure, [start] the
    error of [vn_start_write]. *)
Definition vacl_set_acl (malloc0 : acl) (start : Z) (type : Z) (vp : vnode E) (user : useracl)
    (cred : ucred) : result (Z * vnode E) :=
  let '(error, inkernelacl) := acl_copyin user (MkKacl ACL_MAX_ENTRIES malloc0) type in
  if negb (error =? 0) then Ok (error, vp)
  else if negb (start =? 0) then Ok (start, vp)
  else ufs_setacl (acl_type_unold type) vp (Some (acl_entries inkernelacl)) cred.

Definition vacl_delete (start : Z) (type : Z) (vp : vnode E) (cred : ucred) : result (Z * vnode E) :=
  if negb (start =? 0) then Ok (start, vp)
  else ufs_setacl (acl_type_unold type) vp None cred.

Definition vacl_aclcheck (malloc0 : acl) (type : Z) (vp : vnode E) (user : useracl) : Z :=
  let '(error, inkernelacl) := acl_copyin user (MkKacl ACL_MAX_ENTRIES malloc0) type in
  if negb (error =? 0) then error
  else fst (ufs_aclcheck (acl_type_unold type) vp (acl_entries inkernelacl)).
End ufs_acl.

(** ** Attributes as a map *)

(** A file whose attributes are stored up to a number of them. *)
Record eamap := MkEamap {
  ea_max : nat;
  ea_map : gmap string oldacl
}.
#[export] Instance eamap_extattr : ExtAttr eamap := {
  ea_get e n := match ea_map e !! n with Some v => inr (SIZEOF_OLDACL, v) | None => inl ENOATTR end;
  ea_set e n v :=
    if decide (ea_map e !! n = None /\ (ea_max e <= size (ea_map e))%nat) then (28, e)
    else (0, MkEamap (ea_max e) (<[n := v]> (ea_map e)));
  ea_rm e n :=
    match ea_map e !! n with
    | Some _ => (0, MkEamap (ea_max e) (delete n (ea_map e)))
    | None => (ENOATTR, e)
    end
}.

#[export] Instance eamap_laws : ExtAttrLaws eamap.
Proof.
  constructor; cbn.
  - intros e n v e'. case_decide; intros [= <-]. cbn. by rewrite lookup_insert_eq.
  - intros e n v r e' n'. case_decide; intros [= <- <-] Hn; [done|]. cbn. by rewrite lookup_insert_ne.
  - intros e n v r e'. case_decide; intros [= <- <-] Hr; [by left | by destruct Hr].
  - intros e n e'. destruct (ea_map e !! n); intros [= <-]. cbn. by rewrite lookup_delete_eq.
  - intros e n r e' n'. destruct (ea_map e !! n); intros [= <- <-] Hn; [|done].
    cbn. by rewrite lookup_delete_ne.
  - intros e n r e'. destruct (ea_map e !! n) eqn:En; intros [= <- <-] Hr;
      [by destruct Hr | by rewrite En].
Qed.
