(* ===== verification/UfsAclSpec.v ===== *)
(** The ACLs of [UfsAcl] as entries: what the inode's mode does to a list, what
    a file keeps of a list that was set, and the well-formedness of what it
    keeps. *)

From stdpp Require Import gmap strings.
From S2P Require Import Prelude Priv Cred CredInv Acl AclSpec AclProps UfsAcl.

(** ** The old format *)

(** What the old format keeps of an entry. *)
Definition strip (e : acl_entry) : acl_entry := MkAclEntry (ae_tag e) (ae_id e) (ae_perm e) 0 0.

Lemma of_old_of e : entry_valid e -> of_old (old_of e) = strip e.
Proof.
  intros [Ht Hp _]. unfold of_old, old_of, strip. cbn [oae_tag oae_id oae_perm]. f_equal.
  - set_unfold in Ht. destruct Ht as [->|[->|[->|[->|[->|[->|[]]]]]]]; done.
  - apply Z.bits_inj'. intros k Hk. destruct (Z.lt_ge_cases k 16).
    + by rewrite Z.mod_pow2_bits_low.
    + rewrite Z.mod_pow2_bits_high, Hp by lia. done.
Qed.

(** A list in the old format, and back. *)
Definition old_acl (l : acl) : oldacl :=
  MkOldacl (zlength l)
    ((old_of <$> l) ++ replicate (Z.to_nat (OLDACL_MAX_ENTRIES - zlength l)) zero_old).

Lemma copy_out_ok l :
  zlength l <= OLDACL_MAX_ENTRIES -> acl_copy_acl_into_oldacl l = inr (old_acl l).
Proof. intros Hl. unfold acl_copy_acl_into_oldacl. by ztest. Qed.

Lemma copy_in_ok l :
  Forall entry_valid l -> zlength l <= OLDACL_MAX_ENTRIES ->
  acl_copy_oldacl_into_acl (old_acl l) = inr (strip <$> l).
Proof.
  intros Hv Hl. unfold acl_copy_oldacl_into_acl, old_acl. cbn [oacl_cnt oacl_entry].
  assert (0 <= zlength l) by (unfold zlength; lia). ztest. cbn [orb]. f_equal.
  unfold zlength at 1. rewrite Nat2Z.id, take_app_length' by by rewrite length_fmap.
  rewrite <- list_fmap_compose. apply list_fmap_ext. intros i e Hi.
  apply of_old_of. apply (Forall_lookup_1 _ _ _ _ Hv Hi).
Qed.

Lemma strip_entry_valid e : entry_valid e -> entry_valid (strip e).
Proof. intros [Ht Hp Hi]. by constructor. Qed.

Lemma strip_normal e : strip (normal_entry e) = normal_entry (strip e).
Proof. unfold normal_entry, strip. cbn. by case_match. Qed.

(** Maps of entries that keep the tag. *)
Lemma with_tag_map (f : acl_entry -> acl_entry) t l :
  (forall e, ae_tag (f e) = ae_tag e) -> with_tag t (f <$> l) = f <$> with_tag t l.
Proof.
  intros Hf. induction l as [|e l IH]; [done|]. unfold with_tag in *. cbn [fmap list_fmap].
  rewrite !filter_cons, Hf. case_decide; cbn [fmap list_fmap]; by rewrite IH.
Qed.

Lemma count_tag_map (f : acl_entry -> acl_entry) t l :
  (forall e, ae_tag (f e) = ae_tag e) -> count_tag t (f <$> l) = count_tag t l.
Proof. intros Hf. unfold count_tag, zlength. by rewrite with_tag_map, length_fmap. Qed.

Lemma map_valid (f : acl_entry -> acl_entry) (l : acl) :
  (forall e, ae_tag (f e) = ae_tag e) -> (forall e, entry_valid e -> entry_valid (f e)) ->
  acl_valid l -> acl_valid (f <$> l).
Proof.
  intros Ht Hf. rewrite !acl_valid_counts, !count_tag_map by done. unfold zlength.
  rewrite length_fmap. intros (H1 & H2 & H3). split_and!; try tauto.
  apply Forall_fmap. apply (Forall_impl _ _ _ H2 Hf).
Qed.

(** ** The mode in the list *)

(** The tag of the entry that the group bits of the mode stand for. *)
Definition group_class (l : acl) : Z :=
  if decide (with_tag ACL_MASK l = []) then ACL_GROUP_OBJ else ACL_MASK.

Definition sync_entry (mode gtag : Z) (e : acl_entry) : acl_entry :=
  normal_entry
    (if ae_tag e =? ACL_USER_OBJ then set_ae_perm (acl_posix1e_mode_to_perm ACL_USER_OBJ mode) e
     else if ae_tag e =? ACL_OTHER then set_ae_perm (acl_posix1e_mode_to_perm ACL_OTHER mode) e
     else if ae_tag e =? gtag then set_ae_perm (acl_posix1e_mode_to_perm ACL_GROUP_OBJ mode) e
     else e).

Lemma sync_entry_tag mode gtag e : ae_tag (sync_entry mode gtag e) = ae_tag e.
Proof. unfold sync_entry, normal_entry. by repeat case_match. Qed.

Lemma set_perm_valid p e :
  (forall k, 3 <= k -> Z.testbit p k = false) -> entry_valid e -> entry_valid (set_ae_perm p e).
Proof. intros Hp [Ht _ Hi]. by constructor. Qed.

Lemma sync_entry_valid mode gtag e : entry_valid e -> entry_valid (sync_entry mode gtag e).
Proof.
  intros He. apply normal_entry_valid.
  repeat case_match; try done; (apply set_perm_valid; [intros k; apply mode_to_perm_high | done]).
Qed.

(** The last index of a tag. *)
Fixpoint last_index (t : Z) (l : acl) (i : nat) (o : option nat) : option nat :=
  match l with
  | [] => o
  | e :: l' => last_index t l' (S i) (if ae_tag e =? t then Some i else o)
  end.

Lemma last_index_none t l i o : with_tag t l = [] -> last_index t l i o = o.
Proof.
  revert i. induction l as [|e l IH]; intros i; [done|]. unfold with_tag. rewrite filter_cons.
  cbn [last_index]. case_decide as H; [done|]. apply Z.eqb_neq in H. rewrite H. apply IH.
Qed.

Lemma last_index_one t l i o e :
  with_tag t l = [e] ->
  exists l1 l2, l = l1 ++ e :: l2 /\ with_tag t l1 = [] /\ with_tag t l2 = [] /\
    ae_tag e = t /\ last_index t l i o = Some (i + length l1)%nat.
Proof.
  revert i o. induction l as [|x l IH]; intros i o; [done|]. unfold with_tag. rewrite filter_cons.
  cbn [last_index]. case_decide as H.
  - intros [= -> Hl]. exists [], l. rewrite H, Z.eqb_refl, last_index_none by done.
    cbn. by rewrite Nat.add_0_r.
  - intros Hl. destruct (IH (S i) (if ae_tag x =? t then Some i else o) Hl) as (l1 & l2 & -> & H1 & H2 & Ht & Hi).
    exists (x :: l1), l2. split_and!; try done.
    + unfold with_tag. by rewrite filter_cons, decide_False.
    + rewrite Hi. f_equal. cbn. lia.
Qed.

(** The loop, before the group entry or the mask is set. *)
Lemma sync_acl_scan_spec mode l i m g :
  Forall entry_valid l ->
  sync_acl_scan mode l i m g =
  Ok (sync_entry mode 0 <$> l, last_index ACL_MASK l i m, last_index ACL_GROUP_OBJ l i g).
Proof.
  intros Hv. revert i m g. induction Hv as [|e l [Ht _ _] _ IH]; intros i m g; [done|].
  destruct e as [t id p et fl]. cbn [ae_tag] in Ht. set_unfold in Ht.
  destruct Ht as [->|[->|[->|[->|[->|[->|[]]]]]]]; cbn -[sync_acl_scan];
    (cbn [sync_acl_scan ae_tag]; cbn; rewrite IH; done).
Qed.

Lemma sync_entry_other mode t l :
  Forall entry_valid l -> with_tag t l = [] -> sync_entry mode 0 <$> l = sync_entry mode t <$> l.
Proof.
  intros Hv. induction Hv as [|e l [He _ _] _ IH]; [done|]. unfold with_tag. rewrite filter_cons.
  case_decide as H; [done|].
  intros Hl. cbn [fmap list_fmap]. rewrite (IH Hl). f_equal. unfold sync_entry.
  apply Z.eqb_neq in H. rewrite H. destruct (Z.eqb_spec (ae_tag e) 0) as [E|E]; [|done].
  rewrite E in He. set_unfold in He. intuition discriminate.
Qed.

Lemma sync_entry_self mode t e :
  t = ACL_GROUP_OBJ \/ t = ACL_MASK -> ae_tag e = t ->
  set_ae_perm (acl_posix1e_mode_to_perm ACL_GROUP_OBJ mode) (sync_entry mode 0 e) = sync_entry mode t e.
Proof. destruct e as [tag id p et fl]. cbn. by intros [-> | ->] ->. Qed.

Lemma sync_alter mode t l i o :
  Forall entry_valid l -> t = ACL_GROUP_OBJ \/ t = ACL_MASK -> length (with_tag t l) = 1%nat ->
  exists j, last_index t l i o = Some (i + j)%nat /\
    alter (set_ae_perm (acl_posix1e_mode_to_perm ACL_GROUP_OBJ mode)) j (sync_entry mode 0 <$> l) =
    sync_entry mode t <$> l.
Proof.
  intros Hv Ht [e He]%length_one.
  destruct (last_index_one t l i o e He) as (l1 & l2 & -> & H1 & H2 & Hte & Hi).
  apply Forall_app in Hv as [V1 [_ V2]%Forall_cons].
  exists (length l1). split; [done|]. rewrite !fmap_app, !fmap_cons.
  rewrite alter_app_r_alt by (by rewrite length_fmap). rewrite length_fmap, Nat.sub_diag.
  rewrite (sync_entry_other _ _ _ V1 H1), (sync_entry_other _ _ _ V2 H2).
  match goal with |- context [alter ?f 0%nat (?x :: ?k)] => change (alter f 0%nat (x :: k)) with (f x :: k) end.
  by rewrite (sync_entry_self mode t).
Qed.

Lemma sync_acl_ok mode l :
  acl_valid l -> ufs_sync_acl_from_inode mode l = Ok (sync_entry mode (group_class l) <$> l).
Proof.
  intros V. unfold ufs_sync_acl_from_inode, group_class.
  assert (Forall entry_valid l) as Hv by (apply acl_valid_counts in V; tauto).
  rewrite sync_acl_scan_spec, bind_Ok by done.
  destruct (sync_alter mode ACL_GROUP_OBJ l 0 None Hv) as (j & Hj & Hg);
    [by left | apply (av_group_obj _ V)|].
  rewrite Hj. destruct (decide (with_tag ACL_MASK l = [])) as [Hm|Hm].
  - rewrite last_index_none by done. cbn [default]. cbn [Nat.add]. by rewrite Hg.
  - destruct (sync_alter mode ACL_MASK l 0 None Hv) as (k & Hk & Hmk).
    + by right.
    + pose proof (av_mask _ V). destruct (with_tag ACL_MASK l) as [|? [|? ?]]; cbn in *; [done|done|lia].
    + rewrite Hk. change (default (0 + j)%nat (Some (0 + k)%nat)) with k. by rewrite Hmk.
Qed.

Lemma sync_valid mode l : acl_valid l -> acl_valid (sync_entry mode (group_class l) <$> l).
Proof. apply map_valid; [apply sync_entry_tag | apply sync_entry_valid]. Qed.

(** A list that the mode was made from is not changed by it. *)
Lemma perms_to_mode_entry u g o :
  (forall k, 3 <= k -> Z.testbit (ae_perm u) k = false) ->
  (forall k, 3 <= k -> Z.testbit (ae_perm g) k = false) ->
  (forall k, 3 <= k -> Z.testbit (ae_perm o) k = false) ->
  forall x, let m := Z.lor (Z.land x ACL_PRESERVE_MASK) (acl_posix1e_perms_to_mode u g o) in
  acl_posix1e_mode_to_perm ACL_USER_OBJ m = ae_perm u /\
  acl_posix1e_mode_to_perm ACL_GROUP_OBJ m = ae_perm g /\
  acl_posix1e_mode_to_perm ACL_OTHER m = ae_perm o.
Proof.
  intros Hu Hg Ho x m.
  assert (forall k, 0 <= k < 9 -> Z.testbit m k = Z.testbit (acl_posix1e_perms_to_mode u g o) k) as Hm.
  { intros k Hk. unfold m, ACL_PRESERVE_MASK. change ACL_OVERRIDE_MASK with (Z.ones 9).
    rewrite Z.lor_spec, Z.land_spec, Z.lnot_spec, testbit_ones by lia. ztest. cbn [andb negb].
    by rewrite andb_false_r. }
  assert (forall tag x r w p, mode_bits tag = Some (x, r, w) ->
    (forall k, 3 <= k -> Z.testbit p k = false) ->
    has m x = Z.testbit p 0 -> has m r = Z.testbit p 2 -> has m w = Z.testbit p 1 ->
    acl_posix1e_mode_to_perm tag m = p) as Hp.
  { intros tag x' r w p Hb Hhi H0 H2 H1. destruct (mode_to_perm_bits tag m _ _ _ Hb) as (E0 & E2 & E1).
    apply Z.bits_inj'. intros k Hk. destruct (Z.le_gt_cases 3 k).
    - by rewrite mode_to_perm_high, Hhi.
    - assert (k = 0 \/ k = 1 \/ k = 2) as [->|[->| ->]] by lia; congruence. }
  destruct (has_mode_flags m) as (F6 & F7 & F8 & F3 & F4 & F5 & F0 & F1 & F2).
  split_and!; (eapply Hp; [done|done|..]);
    [rewrite F6, (Hm 6) by lia | rewrite F8, (Hm 8) by lia | rewrite F7, (Hm 7) by lia
    |rewrite F3, (Hm 3) by lia | rewrite F5, (Hm 5) by lia | rewrite F4, (Hm 4) by lia
    |rewrite F0, (Hm 0) by lia | rewrite F2, (Hm 2) by lia | rewrite F1, (Hm 1) by lia];
    unfold acl_posix1e_perms_to_mode; rewrite !Z.lor_spec, !testbit_perm_to_bits; by const_bits.
Qed.

Lemma entries_valid l : acl_valid l -> Forall entry_valid l.
Proof. rewrite acl_valid_counts. tauto. Qed.

Lemma list_map_id {A} (f : A -> A) (l : list A) : (forall x, x ∈ l -> f x = x) -> f <$> l = l.
Proof.
  induction l as [|x l IH]; intros H; [done|]. cbn. rewrite H by apply list_elem_of_here.
  f_equal. apply IH. intros y Hy. apply H. by apply list_elem_of_further.
Qed.

Lemma in_with_tag t l e x : with_tag t l = [x] -> e ∈ l -> ae_tag e = t -> e = x.
Proof.
  intros H He Ht. assert (e ∈ with_tag t l) as Hin by (by apply list_elem_of_filter).
  rewrite H in Hin. by apply list_elem_of_singleton in Hin.
Qed.

Lemma set_ae_perm_id e p : p = ae_perm e -> set_ae_perm p e = e.
Proof. intros ->. by destruct e. Qed.

(** The mode that is made from a list gives the list back. *)
Lemma sync_own l m x :
  acl_valid l -> normal_entry <$> l = l -> acl_posix1e_acl_to_mode l = Ok m ->
  sync_entry (Z.lor (Z.land x ACL_PRESERVE_MASK) m) (group_class l) <$> l = l.
Proof.
  intros V N Hm. destruct (mode_entries_exist l V) as (u & g & o & mk & M).
  rewrite (acl_to_mode_entries l u g o mk V M) in Hm. injection Hm as <-.
  pose proof (entries_valid l V) as Hv. rewrite Forall_forall in Hv.
  assert (forall t e, with_tag t l = [e] -> forall k, 3 <= k -> Z.testbit (ae_perm e) k = false) as Hp.
  { intros t e He. apply ev_perm, Hv. assert (e ∈ with_tag t l) as Hin by (rewrite He; apply list_elem_of_here).
    apply list_elem_of_filter in Hin. apply Hin. }
  destruct M as [Mu Mg Mo Mm].
  assert (with_tag (group_class l) l = [default g mk]) as Mc.
  { unfold group_class. rewrite Mm. by destruct mk. }
  destruct (perms_to_mode_entry u (default g mk) o (Hp _ _ Mu) (Hp _ _ Mc) (Hp _ _ Mo) x) as (Eu & Eg & Eo).
  assert (forall e, e ∈ l -> normal_entry e = e) as Hn.
  { intros e [i Hi]%list_elem_of_lookup. apply (f_equal (lookup i)) in N.
    rewrite list_lookup_fmap, Hi in N. by injection N. }
  apply list_map_id. intros e He. unfold sync_entry.
  destruct (Z.eqb_spec (ae_tag e) ACL_USER_OBJ) as [Et|_].
  { assert (e = u) as -> by (by eapply in_with_tag). rewrite set_ae_perm_id by apply Eu. by apply Hn. }
  destruct (Z.eqb_spec (ae_tag e) ACL_OTHER) as [Et|_].
  { assert (e = o) as -> by (by eapply in_with_tag). rewrite set_ae_perm_id by apply Eo. by apply Hn. }
  destruct (Z.eqb_spec (ae_tag e) (group_class l)) as [Et|_]; [|by apply Hn].
  assert (e = default g mk) as -> by (by eapply in_with_tag). rewrite set_ae_perm_id by apply Eg. by apply Hn.
Qed.

(** ** What a file keeps *)

Definition stored_ok (r : Z + Z * oldacl) : Prop :=
  match r with
  | inl _ => True
  | inr (len, old) =>
      len = SIZEOF_OLDACL -> exists l, acl_valid l /\ zlength l <= OLDACL_MAX_ENTRIES /\ old = old_acl l
  end.

(** The ACLs in the attributes of a file, where they can be read, are valid. *)
Record acl_wf {E} `{ExtAttr E} (vp : vnode E) : Prop := {
  wf_access : stored_ok (ea_get (v_ea vp) POSIX1E_ACL_ACCESS_EXTATTR_NAME);
  wf_default : stored_ok (ea_get (v_ea vp) POSIX1E_ACL_DEFAULT_EXTATTR_NAME)
}.

Lemma access_default_ne : POSIX1E_ACL_ACCESS_EXTATTR_NAME <> POSIX1E_ACL_DEFAULT_EXTATTR_NAME.
Proof. done. Qed.

Section files.
Context {E : Type} `{ExtAttrLaws E}.

Lemma get_oldacl_ok type (vp : vnode E) old :
  acl_wf vp -> ufs_get_oldacl type vp = inr old ->
  exists l, acl_valid l /\ zlength l <= OLDACL_MAX_ENTRIES /\ old = old_acl l.
Proof.
  intros [Ha Hd]. unfold ufs_get_oldacl. destruct (type =? ACL_TYPE_ACCESS).
  - destruct (ea_get _ _) as [|[len o]]; [done|]. zcase; [|done]. intros [= ->]. by apply Ha.
  - destruct (type =? ACL_TYPE_DEFAULT); [|done]. destruct (decide _); [|done].
    destruct (ea_get _ POSIX1E_ACL_DEFAULT_EXTATTR_NAME) as [|[len o]]; [done|].
    zcase; [|done]. intros [= ->]. by apply Hd.
Qed.

(** A file without an ACL has the one that its mode amounts to. *)
Lemma sync_no_acl mode :
  acl_copy_oldacl_into_acl (no_acl ACL_TYPE_ACCESS) =
    inr ((fun t => MkAclEntry t ACL_UNDEFINED_ID 0 0 0) <$> [ACL_USER_OBJ; ACL_GROUP_OBJ; ACL_OTHER]) /\
  ufs_sync_acl_from_inode mode
    ((fun t => MkAclEntry t ACL_UNDEFINED_ID 0 0 0) <$> [ACL_USER_OBJ; ACL_GROUP_OBJ; ACL_OTHER]) =
    Ok (minimal_acl mode ACL_UNDEFINED_ID ACL_UNDEFINED_ID).
Proof. done. Qed.

(** What may be read: a valid list, or for the default one none. *)
Lemma getacl_cases type (vp : vnode E) :
  acl_wf vp -> has (mnt_flag vp) MNT_ACLS = true ->
  match ufs_get_oldacl type vp with
  | inr old => exists l, acl_valid l /\ zlength l <= OLDACL_MAX_ENTRIES /\ old = old_acl l /\
      ufs_getacl_posix1e type vp =
      Ok (inr (if type =? ACL_TYPE_ACCESS
               then sync_entry (i_mode vp) (group_class (strip <$> l)) <$> (strip <$> l)
               else strip <$> l))
  | inl error =>
      ufs_getacl_posix1e type vp =
      Ok (if error =? ENOATTR then
            inr (if type =? ACL_TYPE_ACCESS
                 then minimal_acl (i_mode vp) ACL_UNDEFINED_ID ACL_UNDEFINED_ID else [])
          else inl error)
  end.
Proof.
  intros W Hm. unfold ufs_getacl_posix1e. rewrite Hm. cbn [negb].
  destruct (ufs_get_oldacl type vp) as [error|old] eqn:Eo.
  - destruct (error =? ENOATTR); [|done]. destruct (Z.eqb_spec type ACL_TYPE_ACCESS) as [->|Ht].
    + done.
    + unfold no_acl. ztest. done.
  - destruct (get_oldacl_ok _ _ _ W Eo) as (l & V & Hl & ->). exists l. split_and!; try done.
    rewrite copy_in_ok by (done || by apply entries_valid).
    destruct (type =? ACL_TYPE_ACCESS); [|done].
    rewrite sync_acl_ok; [done|]. by apply map_valid; [| apply strip_entry_valid |].
Qed.
End files.

(** ** Lists with the same rights *)

(** An entry that differs only in what no decision depends on. *)
Definition same_rights (f : acl_entry -> acl_entry) : Prop :=
  forall e, ae_tag (f e) = ae_tag e /\ ae_perm (f e) = ae_perm e /\
    (ae_tag e = ACL_USER \/ ae_tag e = ACL_GROUP -> ae_id (f e) = ae_id e).

Lemma same_rights_strip : same_rights strip.
Proof. by intros e. Qed.

Lemma same_rights_normal : same_rights normal_entry.
Proof.
  intros e. unfold normal_entry.
  destruct (Z.eqb_spec (ae_tag e) ACL_USER), (Z.eqb_spec (ae_tag e) ACL_GROUP); cbn; intuition.
Qed.

Lemma same_rights_comp f g : same_rights f -> same_rights g -> same_rights (fun e => f (g e)).
Proof.
  intros Hf Hg e. destruct (Hf (g e)) as (F1 & F2 & F3), (Hg e) as (G1 & G2 & G3).
  split_and!; [congruence.. |]. intros Ht. rewrite F3 by (by rewrite G1). by apply G3.
Qed.

Lemma filter_map_bool (p : acl_entry -> bool) (f : acl_entry -> acl_entry) (l : acl) :
  (forall e, p (f e) = p e) ->
  filter (fun e => p e = true) (f <$> l) = f <$> filter (fun e => p e = true) l.
Proof.
  intros Hp. induction l as [|e l IH]; [done|]. cbn [fmap list_fmap]. rewrite !filter_cons, Hp.
  case_decide; cbn [fmap list_fmap]; by rewrite IH.
Qed.

Lemma rights_named f cred e : same_rights f -> is_named_user cred (f e) = is_named_user cred e.
Proof.
  intros Hf. destruct (Hf e) as (Ht & _ & Hi). unfold is_named_user. rewrite Ht.
  destruct (Z.eqb_spec (ae_tag e) ACL_USER); [|done]. rewrite Hi by auto. done.
Qed.

Lemma rights_group f gid cred e :
  same_rights f -> acl_group_matches gid cred (f e) = acl_group_matches gid cred e.
Proof.
  intros Hf. destruct (Hf e) as (Ht & _ & Hi). unfold acl_group_matches. rewrite Ht.
  destruct (ae_tag e =? ACL_GROUP_OBJ); [done|].
  destruct (Z.eqb_spec (ae_tag e) ACL_GROUP); [|done]. rewrite Hi by auto. done.
Qed.

Lemma rights_masked f (l : acl) e : same_rights f -> masked (f <$> l) (f e) = masked l e.
Proof.
  intros Hf. unfold masked. rewrite with_tag_map by (intros x; apply Hf).
  destruct (Hf e) as (_ & -> & _). destruct (with_tag ACL_MASK l) as [|m ms]; [done|]. cbn.
  by destruct (Hf m) as (_ & -> & _).
Qed.

Lemma rights_candidates f uid gid cred (l : acl) :
  same_rights f -> candidates uid gid cred (f <$> l) = candidates uid gid cred l.
Proof.
  intros Hf. unfold candidates. rewrite !with_tag_map by (intros x; apply Hf).
  rewrite (filter_map_bool (is_named_user cred)) by (intros e; by apply rights_named).
  rewrite (filter_map_bool (acl_group_matches gid cred)) by (intros e; by apply rights_group).
  rewrite <- !list_fmap_compose.
  destruct (uid =? cr_uid cred).
  { apply list_fmap_ext. intros i e _. cbn. by destruct (Hf e) as (_ & -> & _). }
  destruct (filter (fun e => is_named_user cred e = true) l) as [|e es]; cbn [fmap list_fmap].
  - destruct (filter (fun e => acl_group_matches gid cred e = true) l) as [|e es]; cbn [fmap list_fmap].
    + apply list_fmap_ext. intros i e _. cbn. by destruct (Hf e) as (_ & -> & _).
    + rewrite rights_masked by done. f_equal. rewrite <- list_fmap_compose.
      apply list_fmap_ext. intros i x _. by apply rights_masked.
  - by rewrite rights_masked.
Qed.

Lemma rights_to_mode f (l : acl) u g o m :
  same_rights f -> acl_valid l -> acl_valid (f <$> l) -> mode_entries l u g o m ->
  acl_posix1e_acl_to_mode (f <$> l) = acl_posix1e_acl_to_mode l.
Proof.
  intros Hf V V' M. rewrite (acl_to_mode_entries l u g o m V M). destruct M as [Mu Mg Mo Mm].
  rewrite (acl_to_mode_entries (f <$> l) (f u) (f g) (f o) (f <$> m) V').
  - unfold acl_posix1e_perms_to_mode. destruct (Hf u) as (_ & -> & _), (Hf o) as (_ & -> & _).
    destruct m as [m|]; cbn; [by destruct (Hf m) as (_ & -> & _) | by destruct (Hf g) as (_ & -> & _)].
  - constructor; rewrite with_tag_map by (intros x; apply Hf); [by rewrite Mu | by rewrite Mg |
      by rewrite Mo | rewrite Mm; by destruct m].
Qed.

(** What a file keeps of a list that was set. *)
Definition kept (l : acl) : acl := strip <$> (normal_entry <$> l).

Lemma kept_valid l : acl_valid l -> acl_valid (kept l).
Proof. intros V. apply map_valid; [done | apply strip_entry_valid | by apply normal_valid]. Qed.

Lemma kept_rights l : exists f, same_rights f /\ kept l = f <$> l.
Proof.
  exists (fun e => strip (normal_entry e)). split.
  - apply (same_rights_comp strip normal_entry same_rights_strip same_rights_normal).
  - unfold kept. by rewrite <- list_fmap_compose.
Qed.

Lemma kept_candidates uid gid cred l : candidates uid gid cred (kept l) = candidates uid gid cred l.
Proof. destruct (kept_rights l) as (f & Hf & ->). by apply rights_candidates. Qed.

Lemma kept_to_mode l : acl_valid l -> acl_posix1e_acl_to_mode (kept l) = acl_posix1e_acl_to_mode l.
Proof.
  intros V. destruct (mode_entries_exist l V) as (u & g & o & m & M).
  pose proof (kept_valid l V) as V'. destruct (kept_rights l) as (f & Hf & E). rewrite E in *.
  by eapply rights_to_mode.
Qed.

Lemma kept_anyexec l : acl_valid l -> anyexec (kept l) = anyexec l.
Proof. intros V. unfold anyexec. by rewrite kept_to_mode. Qed.

Lemma normal_idem e : normal_entry (normal_entry e) = normal_entry e.
Proof. unfold normal_entry. destruct ((ae_tag e =? ACL_USER) || (ae_tag e =? ACL_GROUP)) eqn:E; [by rewrite E | cbn; by rewrite E]. Qed.

Lemma kept_normal l : normal_entry <$> kept l = kept l.
Proof.
  unfold kept. rewrite <- !list_fmap_compose. apply list_fmap_ext. intros i e _. cbn.
  by rewrite <- strip_normal, normal_idem.
Qed.

(** The mode of a list that a mode was put into. *)
Lemma sync_mode mode l :
  acl_valid l ->
  acl_posix1e_acl_to_mode (sync_entry mode (group_class l) <$> l) = Ok (Z.land mode 0x1ff).
Proof.
  intros V. destruct (mode_entries_exist l V) as (u & g & o & m & M).
  set (s := sync_entry mode (group_class l)).
  assert (forall t e, with_tag t l = [e] -> ae_tag e = t) as Ht.
  { intros t e He. assert (e ∈ with_tag t l) as Hin by (rewrite He; apply list_elem_of_here).
    apply list_elem_of_filter in Hin. apply Hin. }
  pose proof (sync_valid mode l V) as V'. destruct M as [Mu Mg Mo Mm].
  rewrite (acl_to_mode_entries (s <$> l) (s u) (s g) (s o) (s <$> m) V'); cycle 1.
  { constructor; (rewrite with_tag_map by apply sync_entry_tag); [by rewrite Mu | by rewrite Mg |
      by rewrite Mo | rewrite Mm; by destruct m]. }
  rewrite <- (minimal_to_mode mode 0 0).
  rewrite (acl_to_mode_entries _ _ _ _ _ (minimal_acl_valid mode 0 0) (minimal_acl_entries mode 0 0)).
  unfold acl_posix1e_perms_to_mode. do 2 f_equal; [|f_equal]; f_equal; cbn [default].
  - unfold s, sync_entry. rewrite (Ht _ _ Mu). unfold normal_entry. cbn. by rewrite ?(Ht _ _ Mu).
  - assert (group_class l = match m with Some _ => ACL_MASK | None => ACL_GROUP_OBJ end) as Hc
      by (unfold group_class; rewrite Mm; by destruct m).
    unfold s, sync_entry. rewrite Hc. destruct m as [m|]; cbn.
    + assert (ae_tag m = ACL_MASK) as E by (apply Ht; by rewrite Mm).
      rewrite E. unfold normal_entry. cbn. by rewrite ?E.
    + rewrite (Ht _ _ Mg). unfold normal_entry. cbn. by rewrite ?(Ht _ _ Mg).
  - unfold s, sync_entry. rewrite (Ht _ _ Mo). unfold normal_entry. cbn. by rewrite ?(Ht _ _ Mo).
Qed.

(** Properties of the ACLs of UFS files: what a list that was set reads back
    as and decides, that files keep valid lists and no call panics, the
    agreement with the mode where there is no list, and inheritance. *)

(** ** Access modes *)

(** A good access mode, bit by bit. *)
Lemma accmode_flags a :
  accmode_ok a = Ok tt ->
  a = Z.lor (flag_if (Z.testbit a 6) VEXEC) (Z.lor (flag_if (Z.testbit a 7) VWRITE)
        (Z.lor (flag_if (Z.testbit a 8) VREAD) (Z.lor (flag_if (Z.testbit a 12) VADMIN)
          (flag_if (Z.testbit a 14) VAPPEND)))).
Proof.
  intros [Hb _]%accmode_ok_inv. apply Z.bits_inj'. intros k Hk.
  rewrite !Z.lor_spec, !testbit_flag_if.
  destruct (decide (k ∈ [6; 7; 8; 12; 14])) as [Hin|Hout].
  - set_unfold in Hin. destruct Hin as [->|[->|[->|[->|[->|[]]]]]]; const_bits; done.
  - assert (Z.testbit a k = false) as ->.
    { destruct (Z.testbit a k) eqn:E; [|done]. by destruct Hout; apply Hb. }
    set_unfold in Hout.
    change VEXEC with (2 ^ 6). change VWRITE with (2 ^ 7). change VREAD with (2 ^ 8).
    change VADMIN with (2 ^ 12). change VAPPEND with (2 ^ 14).
    rewrite !Z.pow2_bits_eqb by lia. ztest. by rewrite !andb_false_r.
Qed.

(** The unixified form of a good access mode is itself. *)
Lemma unixify_ok a : accmode_ok a = Ok tt -> vfs_unixify_accmode a = inr a.
Proof.
  intros H. rewrite (accmode_flags a H).
  by destruct (Z.testbit a 6), (Z.testbit a 7), (Z.testbit a 8), (Z.testbit a 12), (Z.testbit a 14).
Qed.

Lemma accmode_bits_ok a :
  accmode_ok a = Ok tt ->
  Z.land a (Z.lnot (Z.lor VEXEC (Z.lor VWRITE (Z.lor VREAD (Z.lor VADMIN VAPPEND))))) = 0.
Proof.
  intros H. rewrite (accmode_flags a H).
  by destruct (Z.testbit a 6), (Z.testbit a 7), (Z.testbit a 8), (Z.testbit a 12), (Z.testbit a 14).
Qed.

(** A single ACL decides like the mode it is made of. *)
Lemma minimal_agrees ps pol type mode u g uid gid accmode cred :
  vaccess_acl_posix1e ps pol type uid gid accmode cred (minimal_acl mode u g) =
  vaccess ps pol type mode uid gid accmode cred.
Proof.
  destruct (accmode_ok accmode) as [[]|msg] eqn:Hok.
  - rewrite vaccess_acl_verdict by (done || apply minimal_acl_valid).
    by rewrite vaccess_mode_verdict, minimal_anyexec, minimal_candidates.
  - unfold vaccess_acl_posix1e, vaccess. by rewrite Hok.
Qed.

Section props.
Context {E : Type} `{ExtAttrLaws E} (nfs4 : nfs4_ops E).

Abbreviation getacl := (ufs_getacl nfs4).

(** ** Reading *)

(** The mounts that keep POSIX.1e lists. *)
Definition posix_mount (vp : vnode E) : Prop :=
  has (mnt_flag vp) MNT_ACLS = true /\ has (mnt_flag vp) MNT_NFS4ACLS = false.

Lemma mount_any vp : posix_mount vp -> has (mnt_flag vp) (Z.lor MNT_ACLS MNT_NFS4ACLS) = true.
Proof.
  intros [Ha _]. unfold has in *. rewrite Z.land_lor_distr_r. apply negb_true_iff, Z.eqb_neq.
  apply negb_true_iff, Z.eqb_neq in Ha. rewrite Z.lor_eq_0_iff. tauto.
Qed.

Lemma set_mode_mount m vp : posix_mount (vn_set_mode m vp) <-> posix_mount vp.
Proof. done. Qed.

Lemma getacl_posix type vp :
  posix_mount vp -> type <> ACL_TYPE_NFS4 -> getacl type vp = ufs_getacl_posix1e type vp.
Proof. intros Hm Ht. unfold ufs_getacl. rewrite mount_any by done. by ztest. Qed.

Lemma length_normal l : zlength (normal_entry <$> l) = zlength l.
Proof. unfold zlength. by rewrite length_fmap. Qed.

(** What is read back of a list. *)
Lemma stored_kept l :
  acl_valid l -> zlength l <= OLDACL_MAX_ENTRIES ->
  acl_copy_oldacl_into_acl (old_acl (normal_entry <$> l)) = inr (kept l).
Proof.
  intros V Hl. apply copy_in_ok; [by apply entries_valid, normal_valid | by rewrite length_normal].
Qed.

Lemma get_access_read (vp : vnode E) old :
  ea_get (v_ea vp) POSIX1E_ACL_ACCESS_EXTATTR_NAME = inr (SIZEOF_OLDACL, old) ->
  ufs_get_oldacl ACL_TYPE_ACCESS vp = inr old.
Proof. intros Hg. unfold ufs_get_oldacl. cbn. by rewrite Hg. Qed.

Lemma get_default_read (vp : vnode E) old :
  v_type vp = VDIR ->
  ea_get (v_ea vp) POSIX1E_ACL_DEFAULT_EXTATTR_NAME = inr (SIZEOF_OLDACL, old) ->
  ufs_get_oldacl ACL_TYPE_DEFAULT vp = inr old.
Proof. intros Hd Hg. unfold ufs_get_oldacl. cbn. rewrite Hg. by destruct (decide _). Qed.

Lemma getacl_valid type vp :
  acl_wf vp -> posix_mount vp -> type <> ACL_TYPE_NFS4 ->
  exists r, getacl type vp = Ok r /\
    match r with
    | inl _ => True
    | inr l => acl_valid l \/ l = [] /\ type = ACL_TYPE_DEFAULT
    end.
Proof.
  intros W Hm Ht. rewrite getacl_posix by done. pose proof (getacl_cases type vp W (proj1 Hm)) as H1.
  destruct (ufs_get_oldacl type vp) as [error|old] eqn:Eo.
  - eexists. split; [done|]. destruct (Z.eqb_spec error ENOATTR) as [->|]; [|done].
    destruct (Z.eqb_spec type ACL_TYPE_ACCESS) as [->|Ha]; [left; apply minimal_acl_valid|].
    right. split; [done|]. revert Eo. unfold ufs_get_oldacl. ztest.
    by destruct (Z.eqb_spec type ACL_TYPE_DEFAULT).
  - destruct H1 as (l & V & _ & _ & Hr). eexists. split; [done|]. left.
    assert (acl_valid (strip <$> l)) by by apply map_valid; [| apply strip_entry_valid |].
    destruct (type =? ACL_TYPE_ACCESS); [by apply sync_valid | done].
Qed.

(** ** Access *)

Context (ps : prisons) (pol : policy) (getinoquota : vnode E -> Z).

Abbreviation accessx := (ufs_accessx nfs4 ps pol getinoquota).

(** The guards of an access, and the decision behind them. *)
Definition access_guard (accmode : Z) (vp : vnode E) : Z :=
  let modify :=
    if has accmode VMODIFY_PERMS && bool_decide (v_type vp ∈ [VDIR; VLNK; VREG]) then
      if has (mnt_flag vp) MNT_RDONLY then EROFS else getinoquota vp
    else 0 in
  if negb (modify =? 0) then modify
  else if has accmode (Z.land VMODIFY_PERMS (Z.lnot VADMIN_PERMS)) &&
          has (i_flags vp) (Z.lor IMMUTABLE SF_SNAPSHOT) then EPERM
  else 0.

Lemma accessx_list accmode vp cred l :
  posix_mount vp -> getacl ACL_TYPE_ACCESS vp = Ok (inr l) -> acl_valid l ->
  accmode_ok accmode = Ok tt ->
  accessx accmode vp cred =
  Ok (if access_guard accmode vp =? 0
      then fst (verdict pol (v_type vp) accmode cred (anyexec l) (candidates (i_uid vp) (i_gid vp) cred l))
      else access_guard accmode vp).
Proof.
  intros Hm Hg V Hok. unfold ufs_accessx, access_guard. cbv zeta.
  set (modify := if _ && _ then _ else 0).
  destruct (Z.eqb_spec modify 0) as [->|Hne]; cbn [negb]; [|by ztest].
  destruct (has accmode _ && has (i_flags vp) _); [done|].
  rewrite mount_any by done. rewrite (proj2 Hm), Hg, bind_Ok, unixify_ok by done.
  rewrite vaccess_acl_verdict, bind_Ok by done. by destruct (verdict _ _ _ _ _ _).
Qed.

Lemma accessx_mode accmode vp cred error :
  posix_mount vp -> getacl ACL_TYPE_ACCESS vp = Ok (inl error) -> accmode_ok accmode = Ok tt ->
  accessx accmode vp cred =
  Ok (if access_guard accmode vp =? 0
      then fst (verdict pol (v_type vp) accmode cred
                  (has (i_mode vp) (Z.lor S_IXUSR (Z.lor S_IXGRP S_IXOTH)))
                  [mode_class (i_mode vp) (i_uid vp) (i_gid vp) cred])
      else access_guard accmode vp).
Proof.
  intros Hm Hg Hok. unfold ufs_accessx, access_guard, mode_access. cbv zeta.
  set (modify := if _ && _ then _ else 0).
  destruct (Z.eqb_spec modify 0) as [->|Hne]; cbn [negb]; [|by ztest].
  destruct (has accmode _ && has (i_flags vp) _); [done|].
  rewrite mount_any by done. rewrite (proj2 Hm), Hg, bind_Ok, unixify_ok by done.
  rewrite vaccess_mode_verdict, bind_Ok by done. by destruct (verdict _ _ _ _ _ _).
Qed.

Lemma accessx_total accmode vp cred :
  acl_wf vp -> posix_mount vp -> accmode_ok accmode = Ok tt ->
  exists error, accessx accmode vp cred = Ok error.
Proof.
  intros W Hm Hok. destruct (getacl_valid ACL_TYPE_ACCESS vp W Hm) as ([error|l] & Hg & Hl); [done|..].
  - eexists. by eapply accessx_mode.
  - destruct Hl as [V|[_ ?]]; [|done]. eexists. by apply accessx_list.
Qed.

(** ** Setting *)

Context (UFS_UPDATE : vnode E -> Z).

Abbreviation setacl := (ufs_setacl nfs4 ps pol getinoquota UFS_UPDATE).

Lemma setacl_posix type vp l cred :
  posix_mount vp -> type <> ACL_TYPE_NFS4 ->
  setacl type vp l cred = ufs_setacl_posix1e nfs4 ps pol getinoquota UFS_UPDATE type vp l cred.
Proof. intros Hm Ht. unfold ufs_setacl. rewrite mount_any by done. by ztest. Qed.

(** Where a list may be set: the type fits the file, the list is valid and
    fits the old format. *)
Lemma setacl_check_some type vp l l' :
  posix_mount vp -> type <> ACL_TYPE_NFS4 -> setacl_check nfs4 type vp (Some l) = (0, l') ->
  (type = ACL_TYPE_ACCESS \/ type = ACL_TYPE_DEFAULT /\ v_type vp = VDIR) /\
  acl_valid l /\ zlength l <= OLDACL_MAX_ENTRIES /\ l' = Some (normal_entry <$> l).
Proof.
  intros Hm Ht. unfold setacl_check, ufs_aclcheck, ufs_aclcheck_posix1e.
  rewrite mount_any by done. destruct Hm as [-> _]. ztest. cbn [negb].
  set (ok := _ && negb (_ && _)). destruct ok eqn:Eok; [done|].
  destruct (Z.ltb_spec OLDACL_MAX_ENTRIES (zlength l)); [done|].
  destruct (acl_posix1e_check l) as [r k] eqn:Ec. intros [= -> <-].
  apply check_inv in Ec as [V ->]. split_and!; try done.
  unfold ok in Eok. destruct (Z.eqb_spec type ACL_TYPE_ACCESS) as [->|Ha]; [by left|].
  destruct (Z.eqb_spec type ACL_TYPE_DEFAULT) as [->|Hd]; [|done]. right.
  cbn [negb andb] in Eok. apply negb_false_iff, bool_decide_eq_true in Eok. done.
Qed.

(** A successful call: the attribute is written, and for an access ACL the
    mode. *)
Lemma setacl_some type vp l cred vp' :
  posix_mount vp -> type <> ACL_TYPE_NFS4 -> setacl type vp (Some l) cred = Ok (0, vp') ->
  let n := normal_entry <$> l in
  acl_valid l /\ zlength l <= OLDACL_MAX_ENTRIES /\
  has (mnt_flag vp) MNT_RDONLY = false /\ has (i_flags vp) (Z.lor IMMUTABLE APPEND) = false /\
  exists ea,
    (type = ACL_TYPE_ACCESS /\ ea_set (v_ea vp) POSIX1E_ACL_ACCESS_EXTATTR_NAME (old_acl n) = (0, ea) /\
      exists m, acl_posix1e_acl_to_mode n = Ok m /\
        vp' = vn_set_change (vn_set_mode (Z.lor (Z.land (i_mode vp) ACL_PRESERVE_MASK) m)
                (vn_set_ea ea vp))) \/
    (type = ACL_TYPE_DEFAULT /\ v_type vp = VDIR /\
      ea_set (v_ea vp) POSIX1E_ACL_DEFAULT_EXTATTR_NAME (old_acl n) = (0, ea) /\ vp' = vn_set_ea ea vp).
Proof.
  intros Hm Ht. rewrite setacl_posix by done. unfold ufs_setacl_posix1e.
  rewrite (proj1 Hm). cbn [negb].
  destruct (setacl_check nfs4 type vp (Some l)) as [r l'] eqn:Ec.
  destruct (Z.eqb_spec r 0) as [->|Hr]; cbn [negb]; [|intros [= ? _]; done].
  apply setacl_check_some in Ec as (Htype & V & Hl & ->); [|done..].
  destruct (has (mnt_flag vp) MNT_RDONLY); [done|].
  destruct (has (i_flags vp) _); [done|].
  intros (err & Hacc & H1)%bind_inv. destruct (Z.eqb_spec err 0) as [->|He]; cbn [negb] in H1;
    [|injection H1; done].
  apply bind_inv in H1 as ([e ea] & Hs & H1). split_and!; try done. exists ea.
  destruct (Z.eqb_spec e ENOATTR) as [->|_]; [discriminate H1|].
  destruct (Z.eqb_spec e 0) as [->|He]; cbn [negb] in H1; [|injection H1; done].
  unfold setacl_store in Hs. rewrite copy_out_ok in Hs by (by rewrite length_normal).
  destruct Htype as [->|[-> Hd]]; cbn in H1, Hs.
  - left. injection Hs as Hs. split_and!; [done|done|].
    apply bind_inv in H1 as (vp1 & Hsync & H1).
    unfold ufs_sync_inode_from_acl in Hsync. apply bind_inv in Hsync as (m & Hmode & [= <-]).
    exists m. split; [done|]. by injection H1.
  - right. injection Hs as Hs. injection H1 as <-. done.
Qed.

(** A list that was set, read back. *)
Lemma setacl_read type vp l cred vp' :
  posix_mount vp -> type <> ACL_TYPE_NFS4 -> setacl type vp (Some l) cred = Ok (0, vp') ->
  getacl type vp' = Ok (inr (kept l)).
Proof.
  intros Hm Ht Hs. apply setacl_some in Hs as (V & Hl & _ & _ & ea & Hs); [|done..].
  destruct Hs as [(-> & Hea & m & Hmode & ->)|(-> & Hd & Hea & ->)].
  - rewrite getacl_posix by done. unfold ufs_getacl_posix1e.
    cbn [mnt_flag vn_set_change vn_set_mode vn_set_ea i_mode]. rewrite (proj1 Hm). cbn [negb].
    erewrite get_access_read by (apply (ea_set_get _ _ _ _ Hea)).
    rewrite stored_kept by done. rewrite Z.eqb_refl, sync_acl_ok by by apply kept_valid.
    rewrite bind_Ok. do 2 f_equal. apply sync_own.
    + by apply kept_valid.
    + apply kept_normal.
    + rewrite kept_to_mode by done. rewrite <- Hmode. symmetry.
      destruct (mode_entries_exist l V) as (u & g & o & mk & M).
      eapply rights_to_mode; [apply same_rights_normal | done | by apply normal_valid | done].
  - rewrite getacl_posix by done. unfold ufs_getacl_posix1e. cbn [mnt_flag vn_set_ea].
    rewrite (proj1 Hm). cbn [negb].
    erewrite get_default_read by (exact Hd || apply (ea_set_get _ _ _ _ Hea)).
    rewrite stored_kept by done. done.
Qed.

Lemma wf_same_ea (vp vp' : vnode E) : v_ea vp' = v_ea vp -> acl_wf vp -> acl_wf vp'.
Proof. intros He [Ha Hd]. constructor; by rewrite He. Qed.

Lemma stored_set ea name name' l r ea' :
  acl_valid l -> zlength l <= OLDACL_MAX_ENTRIES -> ea_set ea name (old_acl l) = (r, ea') ->
  stored_ok (ea_get ea name') -> stored_ok (ea_get ea' name').
Proof.
  intros V Hl Hs Hw. destruct (decide (name' = name)) as [->|Hn]; cycle 1.
  { by rewrite (ea_set_other _ _ _ _ _ _ Hs Hn). }
  destruct (Z.eq_dec r 0) as [->|Hr].
  - rewrite (ea_set_get _ _ _ _ Hs). intros _. by exists l.
  - destruct (ea_set_torn _ _ _ _ _ Hs Hr) as [->|[[? ->]|(? & ? & -> & Hne)]]; [done | done | intros Hlen; by destruct Hne].
Qed.

Lemma stored_rm ea name name' r ea' :
  ea_rm ea name = (r, ea') -> stored_ok (ea_get ea name') -> stored_ok (ea_get ea' name').
Proof.
  intros Hs Hw. destruct (decide (name' = name)) as [->|Hn]; cycle 1.
  { by rewrite (ea_rm_other _ _ _ _ _ Hs Hn). }
  destruct (Z.eq_dec r 0) as [->|Hr].
  - by rewrite (ea_rm_get _ _ _ Hs).
  - by rewrite (ea_rm_torn _ _ _ _ Hs Hr).
Qed.

(** What the store does to a well-formed file. *)
Lemma store_wf type vp l l' :
  acl_wf vp -> posix_mount vp -> type <> ACL_TYPE_NFS4 -> setacl_check nfs4 type vp l = (0, l') ->
  exists r ea, setacl_store type vp l' = Ok (r, ea) /\ acl_wf (vn_set_ea ea vp) /\
    match l' with Some n => acl_valid n | None => True end.
Proof.
  intros [Wa Wd] Hm Ht Hc. unfold setacl_store. destruct l as [l|].
  - apply setacl_check_some in Hc as (Htype & V & Hl & ->); [|done..].
    rewrite copy_out_ok by (by rewrite length_normal).
    pose proof (normal_valid l V) as V'. rewrite <- (length_normal l) in Hl.
    destruct Htype as [->|[-> _]]; rewrite ?Z.eqb_refl, ?(eq_refl : (ACL_TYPE_DEFAULT =? ACL_TYPE_ACCESS) = false).
    + destruct (ea_set (v_ea vp) POSIX1E_ACL_ACCESS_EXTATTR_NAME _) as [r ea] eqn:Es.
      exists r, ea. split_and!; [done| |done]. by constructor; cbn; eapply stored_set.
    + destruct (ea_set (v_ea vp) POSIX1E_ACL_DEFAULT_EXTATTR_NAME _) as [r ea] eqn:Es.
      exists r, ea. split_and!; [done| |done]. by constructor; cbn; eapply stored_set.
  - unfold setacl_check in Hc. injection Hc as Hc <-.
    destruct (Z.eqb_spec type ACL_TYPE_DEFAULT) as [->|Hn]; [|discriminate Hc].
    rewrite ?Z.eqb_refl, (eq_refl : (ACL_TYPE_DEFAULT =? ACL_TYPE_ACCESS) = false).
    destruct (ea_rm (v_ea vp) POSIX1E_ACL_DEFAULT_EXTATTR_NAME) as [r ea] eqn:Es.
    eexists _, ea. split_and!; [done| |done]. by constructor; cbn; eapply stored_rm.
Qed.

Lemma setacl_wf type vp l cred :
  acl_wf vp -> posix_mount vp -> type <> ACL_TYPE_NFS4 ->
  exists error vp', setacl type vp l cred = Ok (error, vp') /\ acl_wf vp' /\
    mnt_flag vp' = mnt_flag vp.
Proof.
  intros W Hm Ht. rewrite setacl_posix by done. unfold ufs_setacl_posix1e.
  rewrite (proj1 Hm). cbn [negb].
  destruct (setacl_check nfs4 type vp l) as [r l'] eqn:Ec.
  destruct (Z.eqb_spec r 0) as [->|Hr]; cbn [negb]; [|by exists r, vp].
  destruct (has (mnt_flag vp) MNT_RDONLY); [by eexists _, vp|].
  destruct (has (i_flags vp) _); [by eexists _, vp|].
  destruct (accessx_total VADMIN vp cred W Hm eq_refl) as [e He].
  unfold vop_stdaccess. rewrite require_true, bind_Ok, He, bind_Ok by done.
  destruct (Z.eqb_spec e 0) as [->|Hne]; cbn [negb]; [|by exists e, vp].
  destruct (store_wf type vp l l' W Hm Ht Ec) as (r & ea & -> & Wea & V). rewrite bind_Ok.
  destruct (r =? ENOATTR); [by eexists _, _|]. destruct (negb (r =? 0)); [by eexists _, _|].
  destruct l' as [n|]; [|by eexists _, _]. destruct (type =? ACL_TYPE_ACCESS); [|by eexists _, _].
  unfold ufs_sync_inode_from_acl. destruct (mode_entries_exist n V) as (u & g & o & m & M).
  rewrite (acl_to_mode_entries n u g o m V M), bind_Ok, bind_Ok.
  eexists _, _. split_and!; [done| |done]. by apply (wf_same_ea (vn_set_ea ea vp)).
Qed.

(** ** Inheritance *)

Lemma mode_recombine m : Z.lor (Z.land m ACL_PRESERVE_MASK) (Z.land m 0x1ff) = m.
Proof.
  unfold ACL_PRESERVE_MASK. apply Z.bits_inj'. intros k Hk.
  rewrite Z.lor_spec, !Z.land_spec, Z.lnot_spec by done. change ACL_OVERRIDE_MASK with 0x1ff.
  by destruct (Z.testbit m k), (Z.testbit 0x1ff k).
Qed.

Lemma sync_normal mode gtag (l : acl) : normal_entry <$> (sync_entry mode gtag <$> l) = sync_entry mode gtag <$> l.
Proof.
  rewrite <- list_fmap_compose. apply list_fmap_ext. intros i e _. cbn. unfold sync_entry at 1.
  by rewrite normal_idem.
Qed.

Lemma sync_strip mode gtag e : strip e = e -> strip (sync_entry mode gtag e) = sync_entry mode gtag e.
Proof.
  destruct e as [t id p et fl]. intros [= <- <-]. unfold sync_entry, normal_entry.
  by repeat case_match.
Qed.

Lemma kept_sync mode gtag (d : acl) :
  strip <$> d = d -> kept (sync_entry mode gtag <$> d) = sync_entry mode gtag <$> d.
Proof.
  intros Hd. unfold kept. rewrite sync_normal. apply list_map_id.
  intros x [e [-> He]]%list_elem_of_fmap. apply sync_strip.
  apply list_elem_of_lookup in He as [i Hi]. apply (f_equal (lookup i)) in Hd.
  rewrite list_lookup_fmap, Hi in Hd. by injection Hd.
Qed.

(** A default list, as read. *)
Lemma default_read vp d :
  acl_wf vp -> posix_mount vp -> getacl ACL_TYPE_DEFAULT vp = Ok (inr d) -> d <> [] ->
  acl_valid d /\ strip <$> d = d.
Proof.
  intros W Hm Hg Hd. rewrite getacl_posix in Hg by done.
  pose proof (getacl_cases ACL_TYPE_DEFAULT vp W (proj1 Hm)) as H1.
  destruct (ufs_get_oldacl ACL_TYPE_DEFAULT vp) as [error|old].
  - rewrite Hg in H1. destruct (error =? ENOATTR); [|done]. injection H1 as ->. done.
  - destruct H1 as (l & V & _ & _ & Hr). rewrite Hg in Hr. injection Hr as ->. split.
    + by apply map_valid; [| apply strip_entry_valid |].
    + rewrite <- list_fmap_compose. by apply list_fmap_ext.
Qed.

(** The list and the mode of a new file, and what setting them leaves. *)
Lemma inherit_list mode d :
  acl_valid d -> exists dm, acl_posix1e_acl_to_mode d = Ok dm /\
  exists nm, acl_posix1e_newfilemode mode d = Ok nm /\
    forall k, 0 <= k -> Z.testbit nm k = Z.testbit mode k && (if k <? 9 then Z.testbit dm k else true).
Proof.
  intros V. destruct (mode_entries_exist d V) as (u & g & o & m & M).
  eexists. split; [by apply (acl_to_mode_entries d u g o m V M)|].
  destruct (newfilemode_bits mode d u g o m 0 V M) as (nm & Hn & _); [lia|].
  exists nm. split; [done|]. intros k Hk.
  destruct (newfilemode_bits mode d u g o m k V M Hk) as (nm' & Hn' & Hb).
  rewrite Hn in Hn'. by injection Hn' as <-.
Qed.

Lemma inherit_set tvp d nm cred tvp' :
  posix_mount tvp -> acl_valid d -> strip <$> d = d ->
  setacl ACL_TYPE_ACCESS (vn_set_mode nm tvp) (Some (sync_entry nm (group_class d) <$> d)) cred =
    Ok (0, tvp') ->
  i_mode tvp' = nm /\ v_type tvp' = v_type tvp /\ mnt_flag tvp' = mnt_flag tvp /\
  getacl ACL_TYPE_ACCESS tvp' = Ok (inr (sync_entry nm (group_class d) <$> d)).
Proof.
  intros Hm V Hd Hs. pose proof (setacl_read ACL_TYPE_ACCESS (vn_set_mode nm tvp) _ _ _ Hm ltac:(done) Hs) as Hr.
  rewrite kept_sync in Hr by done.
  apply setacl_some in Hs as (_ & _ & _ & _ & ea & Hs); [|done..].
  destruct Hs as [(_ & _ & m & Hmode & ->)|(? & _)]; [|done].
  split_and!; try done. cbn. rewrite sync_normal, sync_mode in Hmode by done. injection Hmode as <-.
  apply mode_recombine.
Qed.

Lemma setacl_default_frame vp l cred vp' :
  posix_mount vp -> setacl ACL_TYPE_DEFAULT vp (Some l) cred = Ok (0, vp') ->
  i_mode vp' = i_mode vp /\ mnt_flag vp' = mnt_flag vp /\
  getacl ACL_TYPE_ACCESS vp' = getacl ACL_TYPE_ACCESS vp.
Proof.
  intros Hm Hs. apply setacl_some in Hs as (_ & _ & _ & _ & ea & Hs); [|done..].
  destruct Hs as [(? & _)|(_ & _ & Hea & ->)]; [done|]. split_and!; try done.
  rewrite !getacl_posix by done. unfold ufs_getacl_posix1e, ufs_get_oldacl. cbn.
  by rewrite (ea_set_other _ _ _ _ _ _ Hea access_default_ne).
Qed.

Lemma setacl_access_frame vp l cred vp' :
  posix_mount vp -> setacl ACL_TYPE_ACCESS vp (Some l) cred = Ok (0, vp') ->
  getacl ACL_TYPE_DEFAULT vp' = getacl ACL_TYPE_DEFAULT vp.
Proof.
  intros Hm Hs. apply setacl_some in Hs as (_ & _ & _ & _ & ea & Hs); [|done..].
  destruct Hs as [(_ & Hea & m & _ & ->)|(? & _)]; [|done].
  rewrite !getacl_posix by done. unfold ufs_getacl_posix1e, ufs_get_oldacl. cbn.
  rewrite (ea_set_other _ _ _ _ _ _ Hea); done.
Qed.
End props.
