(* ===== verification/AclTop.v ===== *)
(** The theorems on access control lists: the syntactic check, the safety of
    the calls of UFS, the agreement of a list with the mode, what a list that
    was set reads back as and decides, and inheritance. *)

From stdpp Require Import gmap strings.
From S2P Require Import Prelude Priv Cred CredInv.
From S2P Require Import Acl.
From S2P Require Import AclSpec.
From S2P Require Import AclProps.
From S2P Require Import UfsAcl.
From S2P Require Import UfsAclSpec.
From S2P Require Import UfsAclSpec.

(** ** An example: a directory of user 1001 and group 100, with attributes *)

Definition ex_nfs4 : nfs4_ops eamap :=
  MkNfs4 eamap (fun _ => inl EINVAL) (fun vp _ _ => Ok (EINVAL, vp)) (fun _ l => (EINVAL, l))
    (fun _ => inl EINVAL) (fun _ _ _ _ _ _ => EACCES).
Definition ex_acl_policy : policy := MkPolicy true true true true true true.
Definition ex_user (uid gid : Z) : ucred := MkUcred uid uid uid gid gid [gid] 0.
Definition ex_dir (mode : Z) : vnode eamap :=
  MkVnode VDIR MNT_ACLS mode mode 1001 100 0 false (MkEamap 4 ∅).
Definition ex_file (mode : Z) : vnode eamap :=
  MkVnode VREG MNT_ACLS mode mode 1001 100 0 false (MkEamap 4 ∅).

(** rwx for the owner, rw for user 1002, rx for the group, at most r for both
    of these, nothing for others. *)
Definition ex_list : acl :=
  [MkAclEntry ACL_USER_OBJ 7 7 0 0; MkAclEntry ACL_USER 1002 6 0 0; MkAclEntry ACL_GROUP_OBJ 7 5 0 0;
   MkAclEntry ACL_MASK 7 4 0 0; MkAclEntry ACL_OTHER 7 0 0 0].

Definition ex_no_error (vp : vnode eamap) : Z := 0.

(** ** The check *)

(** [acl_posix1e_check] accepts exactly the lists that are valid, erasing
    the ids without meaning, and fails with EINVAL on all others. *)
Theorem acl_posix1e_check_correct (l : acl) :
  (forall l', acl_posix1e_check l = (0, l') <-> acl_valid l /\ l' = normal_entry <$> l) /\
  (~ acl_valid l -> fst (acl_posix1e_check l) = EINVAL).
Proof.
  split.
  - intros l'. split; [apply check_inv|]. intros [V ->]. by apply check_valid.
  - intros Hn. destruct (check_errno l) as [H|H]; [|done]. by destruct Hn; apply check_zero.
Qed.

Example acl_posix1e_check_correct_witness :
  fst (acl_posix1e_check (tail ex_list)) = EINVAL.
Proof.
  refine (proj2 (acl_posix1e_check_correct (tail ex_list)) _).
  intros V. discriminate (av_user_obj _ V).
Defined.

(** ** A list against a mode *)

(** C35: an ACL that has only the three entries of a mode decides every request
    as the mode does, and its mode is that mode's permission bits. *)
Theorem acl_agrees_with_mode ps pol type mode u g uid gid accmode cred :
  vaccess_acl_posix1e ps pol type uid gid accmode cred
    [acl_posix1e_mode_to_entry ACL_USER_OBJ u g mode;
     acl_posix1e_mode_to_entry ACL_GROUP_OBJ u g mode;
     acl_posix1e_mode_to_entry ACL_OTHER u g mode] =
  vaccess ps pol type mode uid gid accmode cred /\
  acl_posix1e_acl_to_mode
    [acl_posix1e_mode_to_entry ACL_USER_OBJ u g mode;
     acl_posix1e_mode_to_entry ACL_GROUP_OBJ u g mode;
     acl_posix1e_mode_to_entry ACL_OTHER u g mode] = Ok (Z.land mode 0x1ff).
Proof. split; [apply minimal_agrees | apply minimal_to_mode]. Qed.

(** ** The calls of UFS *)

Section theorems.
Context {E : Type} `{ExtAttrLaws E} (nfs4 : nfs4_ops E).
Context (ps : prisons) (pol : policy) (getinoquota UFS_UPDATE : vnode E -> Z).

Abbreviation getacl := (ufs_getacl nfs4).
Abbreviation setacl := (ufs_setacl nfs4 ps pol getinoquota UFS_UPDATE).
Abbreviation accessx := (ufs_accessx nfs4 ps pol getinoquota).


(** C19: an ACL that [ufs_setacl] accepted is read back by [ufs_getacl] entry
    for entry, but for the ids and fields without meaning; setting the one
    kind of ACL leaves the other as it was, and an access ACL sets the
    permission bits of the mode and no other. *)
Theorem setacl_getacl (type : Z) (vp : vnode E) (l : acl) (cred : ucred) (vp' : vnode E) :
  posix_mount vp -> type <> ACL_TYPE_NFS4 -> setacl type vp (Some l) cred = Ok (0, vp') ->
  getacl type vp' = Ok (inr (kept l)) /\
  (type = ACL_TYPE_ACCESS -> getacl ACL_TYPE_DEFAULT vp' = getacl ACL_TYPE_DEFAULT vp /\
    exists m, acl_posix1e_acl_to_mode l = Ok m /\
      i_mode vp' = Z.lor (Z.land (i_mode vp) ACL_PRESERVE_MASK) m) /\
  (type = ACL_TYPE_DEFAULT -> getacl ACL_TYPE_ACCESS vp' = getacl ACL_TYPE_ACCESS vp /\
    i_mode vp' = i_mode vp).
Proof.
  intros Hm Ht Hs. split_and!.
  - by eapply setacl_read.
  - intros ->. split; [by eapply setacl_access_frame|].
    apply setacl_some in Hs as (V & _ & _ & _ & ea & Hs); [|done..].
    destruct Hs as [(_ & _ & m & Hmode & ->)|(? & _)]; [|done]. exists m. split; [|done].
    rewrite <- Hmode. destruct (mode_entries_exist l V) as (u & g & o & mk & M). symmetry.
    eapply rights_to_mode; [apply same_rights_normal | done | by apply normal_valid | done].
  - intros ->. destruct (setacl_default_frame nfs4 ps pol getinoquota UFS_UPDATE vp l cred vp' Hm Hs)
      as (? & _ & ?). done.
Qed.

(** C11: once an access ACL is set, every access to the file that the mount
    and the file flags let through is decided by its entries: the owner's
    one, else the first for the user, else the groups', else the one for
    others, the middle ones under the mask; and what they refuse only the
    superuser gets, who still may not execute what nobody may. *)
Theorem setacl_decides (vp : vnode E) (l : acl) (cred : ucred) (vp' : vnode E) (accmode : Z) (subject : ucred) :
  posix_mount vp -> setacl ACL_TYPE_ACCESS vp (Some l) cred = Ok (0, vp') ->
  accmode_ok accmode = Ok tt -> access_guard getinoquota accmode vp' = 0 ->
  accessx accmode vp' subject =
  Ok (fst (verdict pol (v_type vp) accmode subject (anyexec l)
             (candidates (i_uid vp) (i_gid vp) subject l))).
Proof.
  intros Hm Hs Hok Hg. pose proof (setacl_read nfs4 ps pol _ _ ACL_TYPE_ACCESS _ _ _ _ Hm ltac:(done) Hs) as Hr.
  apply setacl_some in Hs as (V & _ & _ & _ & ea & Hs); [|done..].
  destruct Hs as [(_ & _ & m & Hmode & ->)|(? & _)]; [|done].
  rewrite (accessx_list nfs4 ps pol getinoquota accmode _ subject (kept l)) by (first [exact Hm | exact Hr | by apply kept_valid | exact Hok]).
  rewrite Hg. cbn [Z.eqb v_type i_uid i_gid vn_set_change vn_set_mode vn_set_ea].
  by rewrite kept_anyexec, kept_candidates.
Qed.

(** The file on a mount without ACLs. *)
Definition without_acls (vp : vnode E) : vnode E :=
  MkVnode (v_type vp) (Z.land (mnt_flag vp) (Z.lnot MNT_ACLS)) (i_mode vp) (di_mode vp) (i_uid vp)
    (i_gid vp) (i_flags vp) (i_change vp) (v_ea vp).

Lemma has_without_acls x k :
  0 <= k -> k <> 27 -> has (Z.land x (Z.lnot MNT_ACLS)) (2 ^ k) = has x (2 ^ k).
Proof.
  intros Hk Hn. rewrite !has_pow2 by done. change MNT_ACLS with (2 ^ 27).
  rewrite Z.land_spec, Z.lnot_spec, Z.pow2_bits_eqb by lia. ztest. apply andb_true_r.
Qed.

Lemma without_acls_none vp :
  has (mnt_flag vp) MNT_NFS4ACLS = false ->
  has (mnt_flag (without_acls vp)) (Z.lor MNT_ACLS MNT_NFS4ACLS) = false.
Proof.
  intros Hn. cbn. unfold has. rewrite Z.land_lor_distr_r, <- Z.land_assoc.
  rewrite (eq_refl : Z.land (Z.lnot MNT_ACLS) MNT_ACLS = 0), Z.land_0_r, Z.lor_0_l.
  change MNT_NFS4ACLS with (2 ^ 4). change (has (Z.land (mnt_flag vp) (Z.lnot MNT_ACLS)) (2 ^ 4) = false).
  by rewrite has_without_acls.
Qed.

(** On a mount with ACLs a file that has none is accessed exactly as on a
    mount without them, for every request and caller. *)
Theorem access_without_acl (vp : vnode E) (accmode : Z) (cred : ucred) :
  posix_mount vp -> ufs_get_oldacl ACL_TYPE_ACCESS vp = inl ENOATTR ->
  getinoquota (without_acls vp) = getinoquota vp ->
  accessx accmode vp cred = accessx accmode (without_acls vp) cred.
Proof.
  intros Hm Ho Hq. unfold ufs_accessx. cbv zeta. rewrite Hq.
  rewrite (without_acls_none vp (proj2 Hm)), mount_any, (proj2 Hm) by done.
  cbn [without_acls mnt_flag v_type i_flags].
  change MNT_RDONLY with (2 ^ 0). rewrite (has_without_acls (mnt_flag vp) 0) by lia.
  destruct (negb _); [done|]. destruct (_ && has (i_flags vp) _); [done|].
  rewrite getacl_posix by done. unfold ufs_getacl_posix1e. rewrite (proj1 Hm), Ho, !Z.eqb_refl. cbn [negb].
  rewrite (proj1 (sync_no_acl (i_mode vp))), (proj2 (sync_no_acl (i_mode vp))), !bind_Ok.
  unfold mode_access. cbn [without_acls v_type i_mode i_uid i_gid].
  destruct (vfs_unixify_accmode accmode) as [|a]; [done|].
  by rewrite minimal_agrees.
Qed.

(** A directory made under a default ACL takes that ACL as its own default
    ACL, and as its access ACL with the classes cut down to the mode; its mode
    has only bits that were asked for and, of the permissions, only those that
    the default ACL gives too. Without one the mode is taken as it is. *)
Theorem acl_inheritance (dvp tvp : vnode E) (dmode : Z) (cred : ucred) (d : acl) :
  acl_wf dvp -> posix_mount dvp -> posix_mount tvp -> getacl ACL_TYPE_DEFAULT dvp = Ok (inr d) ->
  (d = [] -> ufs_do_posix1e_acl_inheritance_dir nfs4 ps pol getinoquota UFS_UPDATE dvp tvp dmode cred =
             Ok (0, vn_set_mode dmode tvp)) /\
  forall tvp', d <> [] ->
  ufs_do_posix1e_acl_inheritance_dir nfs4 ps pol getinoquota UFS_UPDATE dvp tvp dmode cred = Ok (0, tvp') ->
  getacl ACL_TYPE_DEFAULT tvp' = Ok (inr (normal_entry <$> d)) /\
  getacl ACL_TYPE_ACCESS tvp' = Ok (inr (sync_entry (i_mode tvp') (group_class d) <$> d)) /\
  exists dm, acl_posix1e_acl_to_mode d = Ok dm /\
    forall k, 0 <= k -> Z.testbit (i_mode tvp') k =
      Z.testbit dmode k && (if k <? 9 then Z.testbit dm k else true).
Proof.
  intros W Hd Ht Hg. unfold ufs_do_posix1e_acl_inheritance_dir. rewrite Hg, bind_Ok.
  split; [by intros ->|]. intros tvp' Hne.
  destruct (default_read nfs4 dvp d W Hd Hg Hne) as [V Hs].
  destruct (inherit_list dmode d V) as (dm & Hdm & nm & Hnm & Hbits).
  destruct d as [|e d0]; [done|]. set (d := e :: d0) in *.
  rewrite Hnm, bind_Ok, sync_acl_ok, bind_Ok by done.
  intros ([r tvp1] & Hacc & H1)%bind_inv. destruct (Z.eqb_spec r 0) as [->|Hr]; [|injection H1; done].
  destruct (inherit_set nfs4 ps pol getinoquota UFS_UPDATE tvp d nm cred tvp1 Ht V Hs Hacc)
    as (Hmode & Htype & Hmnt & Hread).
  assert (posix_mount tvp1) as Ht1 by (unfold posix_mount; by rewrite Hmnt).
  destruct (setacl_default_frame nfs4 ps pol getinoquota UFS_UPDATE tvp1 d cred tvp' Ht1 H1)
    as (Hm2 & Hmnt2 & Ha2).
  rewrite Hm2, Hmode, Ha2. split_and!; [|exact Hread | by exists dm].
  rewrite (setacl_read nfs4 ps pol getinoquota UFS_UPDATE ACL_TYPE_DEFAULT tvp1 d cred tvp' Ht1)
    by done.
  do 2 f_equal. unfold kept. rewrite <- list_fmap_compose.
  rewrite <- Hs at 2. rewrite <- list_fmap_compose. apply list_fmap_ext. intros i x _. apply strip_normal.
Qed.
End theorems.

(** ** At the example *)

Definition ex_set (type : Z) (vp : vnode eamap) : vnode eamap :=
  match ufs_setacl ex_nfs4 ∅ ex_acl_policy ex_no_error ex_no_error type vp (Some ex_list)
          (ex_user 1001 100) with
  | Ok (_, vp') => vp'
  | Panic _ => vp
  end.


Lemma ex_set_ok type :
  type = ACL_TYPE_ACCESS \/ type = ACL_TYPE_DEFAULT ->
  ufs_setacl ex_nfs4 ∅ ex_acl_policy ex_no_error ex_no_error type (ex_dir 0x1ed) (Some ex_list)
    (ex_user 1001 100) = Ok (0, ex_set type (ex_dir 0x1ed)).
Proof. intros [-> | ->]; vm_compute; reflexivity. Qed.


Example setacl_getacl_witness :
  ufs_getacl ex_nfs4 ACL_TYPE_ACCESS (ex_set ACL_TYPE_ACCESS (ex_dir 0x1ed)) = Ok (inr (kept ex_list)).
Proof.
  refine (proj1 (setacl_getacl ex_nfs4 ∅ ex_acl_policy ex_no_error ex_no_error ACL_TYPE_ACCESS
    (ex_dir 0x1ed) ex_list (ex_user 1001 100) _ _ _ (ex_set_ok _ _))); [done | done | by left].
Defined.

Example setacl_decides_witness :
  ufs_accessx ex_nfs4 ∅ ex_acl_policy ex_no_error VWRITE (ex_set ACL_TYPE_ACCESS (ex_dir 0x1ed))
    (ex_user 1002 100) = Ok EACCES.
Proof.
  etransitivity; [|vm_compute; reflexivity].
  refine (setacl_decides ex_nfs4 ∅ ex_acl_policy ex_no_error ex_no_error (ex_dir 0x1ed) ex_list
    (ex_user 1001 100) (ex_set ACL_TYPE_ACCESS (ex_dir 0x1ed)) VWRITE (ex_user 1002 100) _ (ex_set_ok _ _) _ _);
    [done | by left | done | vm_compute; reflexivity].
Defined.

Example access_without_acl_witness :
  ufs_accessx ex_nfs4 ∅ ex_acl_policy ex_no_error VWRITE (ex_file 0x1ed) (ex_user 1002 100) =
  ufs_accessx ex_nfs4 ∅ ex_acl_policy ex_no_error VWRITE (without_acls (ex_file 0x1ed)) (ex_user 1002 100).
Proof.
  refine (access_without_acl ex_nfs4 ∅ ex_acl_policy ex_no_error (ex_file 0x1ed) VWRITE
    (ex_user 1002 100) _ _ _); done.
Defined.

Example acl_inheritance_witness :
  ufs_getacl ex_nfs4 ACL_TYPE_DEFAULT
    (match ufs_do_posix1e_acl_inheritance_dir ex_nfs4 ∅ ex_acl_policy ex_no_error ex_no_error
       (ex_set ACL_TYPE_DEFAULT (ex_dir 0x1ed)) (ex_dir 0) 0x1c0 (ex_user 1001 100) with
     | Ok (_, vp) => vp
     | Panic _ => ex_dir 0
     end) = Ok (inr (normal_entry <$> kept ex_list)).
Proof.
  refine (proj1 (proj2 (acl_inheritance ex_nfs4 ∅ ex_acl_policy ex_no_error ex_no_error
    (ex_set ACL_TYPE_DEFAULT (ex_dir 0x1ed)) (ex_dir 0) 0x1c0 (ex_user 1001 100) (kept ex_list)
    _ _ _ _) _ _ _)).
  - constructor; [done|].
    replace (ea_get _ _) with (inr (SIZEOF_OLDACL, old_acl (normal_entry <$> ex_list)) : Z + Z * oldacl)
      by (vm_compute; reflexivity).
    intros _. exists (normal_entry <$> ex_list). split_and!; [|done|done].
    apply check_zero. vm_compute. reflexivity.
  - done.
  - done.
  - vm_compute. reflexivity.
  - done.
  - vm_compute. reflexivity.
Defined.

(** ** Old callers *)

(** Setting an ACL by the old interface with a count out of range does not
    fail: [acl_copyin] drops the error, and what the allocator left in the
    kernel's structure is set. *)
Theorem vacl_set_old_count_ignored {E : Type} `{ExtAttr E} nfs4 ps pol getinoquota UFS_UPDATE
    (malloc0 : acl) (vp : vnode E) (old : oldacl) (kacl : Z * kacl) (cred : ucred) :
  oacl_cnt old < 0 \/ OLDACL_MAX_ENTRIES < oacl_cnt old ->
  acl_copy_oldacl_into_acl old = inl EINVAL /\
  vacl_set_acl nfs4 ps pol getinoquota UFS_UPDATE malloc0 0 ACL_TYPE_ACCESS_OLD vp
    (MkUser (inr old) kacl) cred =
  ufs_setacl nfs4 ps pol getinoquota UFS_UPDATE ACL_TYPE_ACCESS vp (Some malloc0) cred.
Proof.
  intros Hc. assert (acl_copy_oldacl_into_acl old = inl EINVAL) as Ho.
  { unfold acl_copy_oldacl_into_acl. destruct Hc; ztest; by rewrite ?orb_true_r. }
  split; [done|]. unfold vacl_set_acl, acl_copyin. cbn. by rewrite Ho.
Qed.
