(* ===== verification/Blist.v ===== *)
(** The radix-tree bitmap allocator of swap space: src/sys/kern/subr_blist.c
    and src/sys/sys/blist.h.

    The tree is one array; a pointer into it is an index, and a use of an index
    outside the array is a [Panic]. A block number is a [daddr_t]. The
    recursive routines go one level down in each call and take the number of
    levels as fuel; their loops over the children run at most
    [BLIST_META_RADIX] times. *)

From S2P Require Import Prelude.

Definition BLIST_META_RADIX : Z := 16.
Definition BLIST_BMAP_RADIX : Z := 32.
Definition SWAPBLK_NONE : Z := 2 ^ 31.

(** [u] is the union: [bmu_avail], or in its low word [bmu_bitmap]. *)
Record blmeta := MkBlmeta {
  bm_u : Z;
  bm_bighint : Z
}.

Record blist := MkBlist {
  bl_blocks : Z;
  bl_radix : Z;
  bl_skip : Z;
  bl_free : Z;
  bl_root : list blmeta;
  bl_rootblks : Z
}.

Definition bmu_avail (s : blmeta) : Z := bm_u s.
Definition bmu_bitmap (s : blmeta) : Z := u32 (bm_u s).
Definition set_avail (v : Z) (s : blmeta) : blmeta := MkBlmeta v (bm_bighint s).
Definition set_bitmap (v : Z) (s : blmeta) : blmeta :=
  MkBlmeta (bm_u s - u32 (bm_u s) + u32 v) (bm_bighint s).
Definition set_bighint (v : Z) (s : blmeta) : blmeta := MkBlmeta (bm_u s) v.

Abbreviation tree := (list blmeta).
Abbreviation node := (aget (MkBlmeta 0 0)).

(** [m[i]], and an assignment to its fields. *)
Definition bl_get (m : tree) (i : Z) : result blmeta :=
  if (0 <=? i) && (i <? zlength m) then Ok (node m i) else Panic "out of bounds".
Definition bl_upd (m : tree) (i : Z) (f : blmeta -> blmeta) : result tree :=
  s ← bl_get m i; Ok (aset m i (f s)).

(** A shift by 32 or more is undefined. *)
Definition all_ones : Z := 2 ^ 32 - 1.
Definition shl_ones (n : Z) : result Z :=
  if (0 <=? n) && (n <? 32) then Ok (u32 (Z.shiftl all_ones n)) else Panic "undefined shift".
Definition shr_ones (n : Z) : result Z :=
  if (0 <=? n) && (n <? 32) then Ok (Z.shiftr all_ones n) else Panic "undefined shift".

(** ** Leaves *)

(** [while (j)]: the lowest bit, by halving. *)
Fixpoint leaf_low (fuel : nat) (orig mask j r : Z) : Z :=
  match fuel with
  | O => r
  | S fuel' =>
      if j =? 0 then r
      else
        let '(orig, r) := if Z.land orig mask =? 0 then (Z.shiftr orig j, r + j) else (orig, r) in
        let j := Z.shiftr j 1 in
        leaf_low fuel' orig (Z.shiftr mask j) j r
  end.

(** [for (j = 0; j <= n; ++j)]: the first place of the mask. *)
Fixpoint leaf_run (fuel : nat) (orig mask j n : Z) : option (Z * Z) :=
  match fuel with
  | O => None
  | S fuel' =>
      if n <? j then None
      else if Z.land orig mask =? mask then Some (j, mask)
      else leaf_run fuel' orig (u32 (Z.shiftl mask 1)) (j + 1) n
  end.

(** The bound is unsigned: a negative [count] is above it. *)
Definition blst_leaf_alloc (m : tree) (scan blk count : Z) : result (Z * tree) :=
  let count := s32 count in
  s ← bl_get m scan;
  let orig := bmu_bitmap s in
  if orig =? 0 then
    m ← bl_upd m scan (set_bighint 0);
    Ok (SWAPBLK_NONE, m)
  else if count =? 1 then
    let r := leaf_low 6 orig (Z.shiftr all_ones (Z.quot BLIST_BMAP_RADIX 2)) (Z.quot BLIST_BMAP_RADIX 2) 0 in
    m ← bl_upd m scan (set_bitmap (Z.land orig (Z.lnot (Z.shiftl 1 r))));
    Ok (blk + r, m)
  else
    place ← (if (0 <=? count) && (count <=? BLIST_BMAP_RADIX) then
               let n := BLIST_BMAP_RADIX - count in
               mask ← shr_ones n;
               Ok (leaf_run 33 orig mask 0 n)
             else Ok None);
    match place with
    | Some (j, mask) =>
        m ← bl_upd m scan (set_bitmap (Z.land orig (Z.lnot mask)));
        Ok (blk + j, m)
    | None =>
        m ← bl_upd m scan (set_bighint (count - 1));
        Ok (SWAPBLK_NONE, m)
    end.

(** The mask of a range within a leaf. *)
Definition leaf_mask (blk count : Z) : result Z :=
  let count := s32 count in
  let n := Z.land blk (BLIST_BMAP_RADIX - 1) in
  hi ← shl_ones n;
  lo ← shr_ones (BLIST_BMAP_RADIX - count - n);
  Ok (Z.land hi lo).

Definition blst_leaf_free (m : tree) (scan blk count : Z) : result tree :=
  mask ← leaf_mask blk count;
  s ← bl_get m scan;
  if negb (Z.land (bmu_bitmap s) mask =? 0) then Panic "blst_radix_free: freeing free block"
  else bl_upd m scan (fun s => set_bighint BLIST_BMAP_RADIX (set_bitmap (Z.lor (bmu_bitmap s) mask) s)).

(** [for (nblks = 0; bitmap != 0; nblks++) bitmap &= bitmap - 1;] *)
Fixpoint leaf_count (fuel : nat) (bitmap nblks : Z) : Z :=
  match fuel with
  | O => nblks
  | S fuel' => if bitmap =? 0 then nblks else leaf_count fuel' (Z.land bitmap (bitmap - 1)) (nblks + 1)
  end.

Definition blst_leaf_fill (m : tree) (scan blk count : Z) : result (Z * tree) :=
  mask ← leaf_mask blk count;
  s ← bl_get m scan;
  let nblks := leaf_count 33 (Z.land (bmu_bitmap s) mask) 0 in
  m ← bl_upd m scan (set_bitmap (Z.land (bmu_bitmap s) (Z.lnot mask)));
  Ok (nblks, m).

(** ** The children of a node *)

(** The loop over the children that gives each the value of a leaf or of a
    node, up to the terminator. *)
Fixpoint init_kids (fuel : nat) (leaf meta : blmeta -> blmeta) (m : tree) (scan i skip next_skip : Z)
    : result tree :=
  match fuel with
  | O => Panic "fuel"
  | S fuel' =>
      if i <=? skip then
        s ← bl_get m (scan + i);
        if bm_bighint s =? -1 then Ok m
        else
          m ← bl_upd m (scan + i) (if next_skip =? 1 then leaf else meta);
          init_kids fuel' leaf meta m scan (i + next_skip) skip next_skip
      else Ok m
  end.

(** All free, with [radix] that of a child. *)
Definition init_free (m : tree) (scan skip next_skip radix : Z) : result tree :=
  init_kids 17 (fun s => set_bighint BLIST_BMAP_RADIX (set_bitmap all_ones s))
    (fun s => set_avail radix (set_bighint radix s)) m scan 1 skip next_skip.

(** All allocated. *)
Definition init_alloc (m : tree) (scan skip next_skip : Z) : result tree :=
  init_kids 17 (fun s => set_bitmap 0 (set_bighint 0 s)) (fun s => set_avail 0 (set_bighint 0 s))
    m scan 1 skip next_skip.

(** The loops take the call on a child as an argument. *)
Fixpoint alloc_kids (call : tree -> Z -> Z -> result (Z * tree)) (fuel : nat) (m : tree)
    (scan i skip next_skip blk radix count : Z) : result (Z * tree) :=
  let fail m :=
    m ← bl_upd m scan (fun s => if count <=? bm_bighint s then set_bighint (count - 1) s else s);
    Ok (SWAPBLK_NONE, m) in
  match fuel with
  | O => Panic "fuel"
  | S fuel' =>
      if i <=? skip then
        s ← bl_get m (scan + i);
        if count <=? bm_bighint s then
          '(r, m) ← call m (scan + i) blk;
          if negb (r =? SWAPBLK_NONE) then
            m ← bl_upd m scan (fun s =>
                  let avail := bmu_avail s - count in
                  MkBlmeta avail (if avail <? bm_bighint s then avail else bm_bighint s));
            Ok (r, m)
          else alloc_kids call fuel' m scan (i + next_skip) skip next_skip (blk + radix) radix count
        else if bm_bighint s =? -1 then fail m
        else if radix <? count then Panic "blist_meta_alloc: allocation too large"
        else alloc_kids call fuel' m scan (i + next_skip) skip next_skip (blk + radix) radix count
      else fail m
  end.

Fixpoint blst_meta_alloc (fuel : nat) (m : tree) (scan blk count radix skip : Z) : result (Z * tree) :=
  match fuel with
  | O => Panic "fuel"
  | S fuel' =>
      let next_skip := Z.quot skip BLIST_META_RADIX in
      s ← bl_get m scan;
      if bmu_avail s =? 0 then
        m ← bl_upd m scan (set_bighint count);
        Ok (SWAPBLK_NONE, m)
      else
        let sub := Z.quot radix BLIST_META_RADIX in
        m ← (if bmu_avail s =? radix then init_free m scan skip next_skip sub else Ok m);
        alloc_kids (fun m i blk =>
            if next_skip =? 1 then blst_leaf_alloc m i blk count
            else blst_meta_alloc fuel' m i blk count sub (next_skip - 1))
          17 m scan 1 skip next_skip blk sub count
  end.

Fixpoint free_kids (call : tree -> Z -> Z -> Z -> Z -> result tree) (fuel : nat) (m : tree)
    (scan i skip next_skip blk radix freeBlk count : Z) : result tree :=
  match fuel with
  | O => Panic "fuel"
  | S fuel' =>
      if (i <=? skip) && (blk <? freeBlk + count) then
        let v := blk + radix - freeBlk in
        let v := if count <? v then count else v in
        s ← bl_get m scan;
        if bm_bighint s =? -1 then Panic "blst_meta_free: freeing unexpected range"
        else
          m ← call m (scan + i) freeBlk v blk;
          kid ← bl_get m (scan + i);
          m ← bl_upd m scan (fun s =>
                if bm_bighint s <? bm_bighint kid then set_bighint (bm_bighint kid) s else s);
          free_kids call fuel' m scan (i + next_skip) skip next_skip (blk + radix) radix
            (freeBlk + v) (count - v)
      else Ok m
  end.

Fixpoint blst_meta_free (fuel : nat) (m : tree) (scan freeBlk count radix skip blk : Z) : result tree :=
  match fuel with
  | O => Panic "fuel"
  | S fuel' =>
      let next_skip := Z.quot skip BLIST_META_RADIX in
      s ← bl_get m scan;
      m ← (if bmu_avail s =? 0 then
             m ← bl_upd m scan (fun _ => MkBlmeta count count);
             if negb (count =? radix) then init_alloc m scan skip next_skip else Ok m
           else bl_upd m scan (fun s => set_avail (bmu_avail s + count) s));
      s ← bl_get m scan;
      if bmu_avail s =? radix then Ok m
      else if radix <? bmu_avail s then Panic "blst_meta_free: freeing already free blocks"
      else
        let sub := Z.quot radix BLIST_META_RADIX in
        let i := Z.quot (freeBlk - blk) sub in
        free_kids (fun m i freeBlk v blk =>
            if next_skip =? 1 then blst_leaf_free m i freeBlk v
            else blst_meta_free fuel' m i freeBlk v sub (next_skip - 1) blk)
          17 m scan (i * next_skip + 1) skip next_skip (blk + i * sub) sub freeBlk count
  end.

Fixpoint fill_kids (call : tree -> Z -> Z -> Z -> Z -> result (Z * tree)) (fuel : nat) (m : tree)
    (scan i skip next_skip blk radix allocBlk count nblks : Z) : result (Z * tree) :=
  match fuel with
  | O => Panic "fuel"
  | S fuel' =>
      if (i <=? skip) && (blk <? allocBlk + count) then
        let v := blk + radix - allocBlk in
        let v := if count <? v then count else v in
        s ← bl_get m scan;
        if bm_bighint s =? -1 then Panic "blst_meta_fill: filling unexpected range"
        else
          '(k, m) ← call m (scan + i) allocBlk v blk;
          fill_kids call fuel' m scan (i + next_skip) skip next_skip (blk + radix) radix
            (allocBlk + v) (count - v) (nblks + k)
      else
        m ← bl_upd m scan (fun s => set_avail (bmu_avail s - nblks) s);
        Ok (nblks, m)
  end.

Fixpoint blst_meta_fill (fuel : nat) (m : tree) (scan allocBlk count radix skip blk : Z)
    : result (Z * tree) :=
  match fuel with
  | O => Panic "fuel"
  | S fuel' =>
      let next_skip := Z.quot skip BLIST_META_RADIX in
      s ← bl_get m scan;
      if (count =? radix) || (bmu_avail s =? 0) then
        m ← bl_upd m scan (fun _ => MkBlmeta 0 count);
        Ok (bmu_avail s, m)
      else
        let sub := Z.quot radix BLIST_META_RADIX in
        m ← (if bmu_avail s =? radix then init_free m scan skip next_skip sub else Ok m);
        if sub <? count then Panic "blist_meta_fill: allocation too large"
        else
          let i := Z.quot (allocBlk - blk) sub in
          fill_kids (fun m i allocBlk v blk =>
              if next_skip =? 1 then blst_leaf_fill m i allocBlk v
              else blst_meta_fill fuel' m i allocBlk v sub (next_skip - 1) blk)
            17 m scan (i * next_skip + 1) skip next_skip (blk + i * sub) sub allocBlk count 0
  end.

(** ** The initial tree *)

(** [None] is the pass without a tree, that only sizes it. *)
Definition upd_opt (m : option tree) (i : Z) (f : blmeta -> blmeta) : result (option tree) :=
  match m with
  | Some m => m ← bl_upd m i f; Ok (Some m)
  | None => Ok None
  end.

Fixpoint init_loop (call : option tree -> Z -> Z -> result (Z * option tree)) (fuel : nat)
    (m : option tree) (scan i skip next_skip radix count memindex : Z) : result (Z * option tree) :=
  let done_ m := Ok (if memindex <? i then i else memindex, m) in
  match fuel with
  | O => Panic "fuel"
  | S fuel' =>
      if i <=? skip then
        if radix <=? count then
          '(r, m) ← call m (scan + i) radix;
          init_loop call fuel' m scan (i + next_skip) skip next_skip radix (count - radix) (i + r)
        else if 0 <? count then
          '(r, m) ← call m (scan + i) count;
          init_loop call fuel' m scan (i + next_skip) skip next_skip radix 0 (i + r)
        else
          m ← upd_opt m (scan + i) (set_bighint (-1));
          done_ m
      else done_ m
  end.

Fixpoint blst_radix_init (fuel : nat) (m : option tree) (scan radix skip count : Z)
    : result (Z * option tree) :=
  match fuel with
  | O => Panic "fuel"
  | S fuel' =>
      if radix =? BLIST_BMAP_RADIX then
        m ← upd_opt m scan (fun s => set_bitmap 0 (set_bighint 0 s));
        Ok (0, m)
      else
        m ← upd_opt m scan (fun s => set_avail 0 (set_bighint 0 s));
        let next_skip := Z.quot skip BLIST_META_RADIX in
        init_loop (fun m i count =>
            blst_radix_init fuel' m i (Z.quot radix BLIST_META_RADIX) (next_skip - 1) count)
          17 m scan 1 skip next_skip (Z.quot radix BLIST_META_RADIX) count 0
  end.

(** ** The interface *)

(** Enough for every radix that an [int] holds. *)
Definition BLIST_DEPTH : nat := 8.

(** [while (radix < blocks)], in the arithmetic of [int]. *)
Fixpoint create_radix (fuel : nat) (radix skip blocks : Z) : result (Z * Z) :=
  match fuel with
  | O => Panic "fuel"
  | S fuel' =>
      if radix <? blocks then
        create_radix fuel' (s32 (radix * BLIST_META_RADIX)) (s32 ((skip + 1) * BLIST_META_RADIX)) blocks
      else Ok (radix, skip)
  end.

(** [garbage] is what the allocator hands out, by size. *)
Definition blist_create (fuel : nat) (garbage : Z -> tree) (blocks : Z) : result blist :=
  '(radix, skip) ← create_radix fuel BLIST_BMAP_RADIX 0 blocks;
  '(r, _) ← blst_radix_init BLIST_DEPTH None 0 radix skip blocks;
  let rootblks := 1 + r in
  '(_, root) ← blst_radix_init BLIST_DEPTH (Some (garbage rootblks)) 0 radix skip blocks;
  Ok (MkBlist blocks radix skip 0 (default [] root) rootblks).

Definition bl_set (f : Z) (root : tree) (bl : blist) : blist :=
  MkBlist (bl_blocks bl) (bl_radix bl) (bl_skip bl) f root (bl_rootblks bl).

Definition blist_alloc (bl : blist) (count : Z) : result (Z * blist) :=
  '(blk, root) ←
    (if bl_radix bl =? BLIST_BMAP_RADIX then blst_leaf_alloc (bl_root bl) 0 0 count
     else blst_meta_alloc BLIST_DEPTH (bl_root bl) 0 0 count (bl_radix bl) (bl_skip bl));
  Ok (blk, bl_set (if negb (blk =? SWAPBLK_NONE) then bl_free bl - count else bl_free bl) root bl).

Definition blist_free (bl : blist) (blkno count : Z) : result blist :=
  root ←
    (if bl_radix bl =? BLIST_BMAP_RADIX then blst_leaf_free (bl_root bl) 0 blkno count
     else blst_meta_free BLIST_DEPTH (bl_root bl) 0 blkno count (bl_radix bl) (bl_skip bl) 0);
  Ok (bl_set (bl_free bl + count) root bl).

Definition blist_fill (bl : blist) (blkno count : Z) : result (Z * blist) :=
  '(filled, root) ←
    (if bl_radix bl =? BLIST_BMAP_RADIX then blst_leaf_fill (bl_root bl) 0 blkno count
     else blst_meta_fill BLIST_DEPTH (bl_root bl) 0 blkno count (bl_radix bl) (bl_skip bl) 0);
  Ok (filled, bl_set (bl_free bl - filled) root bl).

(** ** Resizing *)

(** The bits of a leaf that is partly free. *)
Fixpoint copy_bits (fuel : nat) (v i blk count : Z) (dest : blist) : result blist :=
  match fuel with
  | O => Panic "fuel"
  | S fuel' =>
      if (i <? BLIST_BMAP_RADIX) && (i <? count) then
        dest ← (if negb (Z.land v (u32 (Z.shiftl 1 i)) =? 0) then blist_free dest (blk + i) 1 else Ok dest);
        copy_bits fuel' v (i + 1) blk count dest
      else Ok dest
  end.

Fixpoint copy_kids (call : Z -> Z -> Z -> blist -> result blist) (fuel : nat) (m : tree)
    (scan i skip next_skip blk radix count : Z) (dest : blist) : result blist :=
  match fuel with
  | O => Panic "fuel"
  | S fuel' =>
      if negb (count =? 0) && (i <=? skip) then
        s ← bl_get m (scan + i);
        if bm_bighint s =? -1 then Ok dest
        else
          let n := if radix <=? count then radix else count in
          dest ← call (scan + i) blk n dest;
          copy_kids call fuel' m scan (i + next_skip) skip next_skip (blk + radix) radix (count - n) dest
      else Ok dest
  end.

Fixpoint blst_copy (fuel : nat) (m : tree) (scan blk radix skip : Z) (dest : blist) (count : Z)
    : result blist :=
  match fuel with
  | O => Panic "fuel"
  | S fuel' =>
      s ← bl_get m scan;
      if radix =? BLIST_BMAP_RADIX then
        let v := bmu_bitmap s in
        if v =? all_ones then blist_free dest blk count
        else if negb (v =? 0) then copy_bits 33 v 0 blk count dest
        else Ok dest
      else if bmu_avail s =? 0 then Ok dest
      else if bmu_avail s =? radix then
        if count <? radix then blist_free dest blk count else blist_free dest blk radix
      else
        let sub := Z.quot radix BLIST_META_RADIX in
        let next_skip := Z.quot skip BLIST_META_RADIX in
        copy_kids (fun i blk n dest => blst_copy fuel' m i blk sub (next_skip - 1) dest n)
          17 m scan 1 skip next_skip blk sub count dest
  end.

Definition blist_resize (fuel : nat) (garbage : Z -> tree) (save : blist) (count : Z) (freenew : bool)
    : result blist :=
  newbl ← blist_create fuel garbage count;
  let count := if bl_blocks save <? count then bl_blocks save else count in
  newbl ← blst_copy BLIST_DEPTH (bl_root save) 0 0 (bl_radix save) (bl_skip save) newbl count;
  if freenew && (count <? bl_blocks newbl) then blist_free newbl count (bl_blocks newbl - count)
  else Ok newbl.
