(* ===== verification/BlistTree.v ===== *)
(** The tree of [Blist] as a structure: where the children of a node lie, what
    the array must hold for the walks to make sense, which blocks a subtree says
    are free, and that all this depends on the subtree's part of the array
    only. *)

From stdpp Require Import base list.
From S2P Require Import Prelude Blist.

(** ** Geometry *)

(** The blocks and the slots of a full subtree of a depth. *)
Fixpoint radixd (d : nat) : Z := match d with O => 32 | S d' => 16 * radixd d' end.
Fixpoint skipd (d : nat) : Z := match d with O => 0 | S d' => 16 * (skipd d' + 1) end.

Lemma radixd_pos d : 32 <= radixd d.
Proof. induction d; cbn [radixd]; lia. Qed.

Lemma skipd_nonneg d : 0 <= skipd d.
Proof. induction d; cbn [skipd]; lia. Qed.

(** The slot of child [c], and the blocks it covers of [n]. *)
Definition kid (d : nat) (o c : Z) : Z := o + 1 + c * (skipd d + 1).
Definition kidn (d : nat) (n c : Z) : Z := Z.min (radixd d) (n - c * radixd d).

Lemma kid_range d o c : 0 <= c < 16 -> o < kid d o c /\ kid d o c + skipd d <= o + skipd (S d).
Proof. intros Hc. unfold kid. pose proof (skipd_nonneg d). cbn [skipd]. nia. Qed.

Lemma kid_sep d o c c' : c < c' -> kid d o c + skipd d < kid d o c'.
Proof. intros Hc. unfold kid. pose proof (skipd_nonneg d). nia. Qed.

Lemma kid_last d o c : c = 16 -> kid d o c = o + skipd (S d) + 1.
Proof. intros ->. unfold kid. cbn [skipd]. lia. Qed.

Lemma quot_radix d : Z.quot (radixd (S d)) BLIST_META_RADIX = radixd d.
Proof. cbn [radixd]. rewrite Z.mul_comm. by apply Z.quot_mul. Qed.

Lemma quot_skip d : Z.quot (skipd (S d)) BLIST_META_RADIX = skipd d + 1.
Proof. cbn [skipd]. rewrite Z.mul_comm. by apply Z.quot_mul. Qed.

Lemma next_skip_leaf d : (skipd d + 1 =? 1) = match d with O => true | S _ => false end.
Proof. destruct d; [done|]. cbn [skipd]. pose proof (skipd_nonneg d). by ztest. Qed.

(** Where a block lies. *)
Lemma block_kid d j : 0 <= j < radixd (S d) ->
  0 <= j / radixd d < 16 /\ 0 <= j mod radixd d < radixd d /\
  j = j / radixd d * radixd d + j mod radixd d.
Proof.
  intros Hj. pose proof (radixd_pos d). cbn [radixd] in Hj.
  pose proof (Z.mod_pos_bound j (radixd d)). pose proof (Z.div_mod j (radixd d)).
  split_and!; try lia; nia.
Qed.

Lemma kid_block d c j : 0 <= j < radixd d ->
  (c * radixd d + j) / radixd d = c /\ (c * radixd d + j) mod radixd d = j.
Proof.
  intros Hj. split.
  - rewrite Z.div_add_l by lia. rewrite Z.div_small by lia. lia.
  - rewrite Z.add_comm, Z.mod_add by lia. by apply Z.mod_small.
Qed.

(** ** The fields of a slot *)

Abbreviation hint m i := (bm_bighint (node m i)).
Abbreviation avail m i := (bm_u (node m i)).
Abbreviation bits m i := (bmu_bitmap (node m i)).

Definition in_tree (m : tree) (i : Z) : Prop := 0 <= i < zlength m.

Lemma bl_get_ok m i : in_tree m i -> bl_get m i = Ok (node m i).
Proof. intros Hi. unfold bl_get, in_tree in *. by ztest. Qed.

Lemma bl_upd_ok m i f : in_tree m i -> bl_upd m i f = Ok (aset m i (f (node m i))).
Proof. intros Hi. unfold bl_upd. by rewrite bl_get_ok. Qed.

Lemma node_aset_eq m i v : in_tree m i -> node (aset m i v) i = v.
Proof. apply aget_aset_eq. Qed.

Lemma node_aset_ne m i j v : i <> j -> 0 <= j -> node (aset m i v) j = node m j.
Proof. apply aget_aset_ne. Qed.

Lemma set_bitmap_bits v s : 0 <= v < 2 ^ 32 -> bmu_bitmap (set_bitmap v s) = v.
Proof.
  intros Hv. unfold bmu_bitmap, set_bitmap. cbn [bm_u]. unfold u32.
  rewrite (Z.mod_small v) by done. rewrite <- Z.add_mod_idemp_l by lia.
  rewrite Zminus_mod_idemp_r, Z.sub_diag, Z.mod_0_l, Z.add_0_l by lia. by apply Z.mod_small.
Qed.

Lemma bitmap_range s : 0 <= bmu_bitmap s < 2 ^ 32.
Proof. apply Z.mod_pos_bound. lia. Qed.

(** ** Parts of the array *)

(** [m'] differs from [m] in the slots [lo..hi] at most. *)
Definition changed_in (m m' : tree) (lo hi : Z) : Prop :=
  zlength m' = zlength m /\ forall i, 0 <= i -> i < lo \/ hi < i -> node m' i = node m i.

(** [m] and [m'] are the same in the slots [lo..hi]. *)
Definition agree (m m' : tree) (lo hi : Z) : Prop :=
  zlength m' = zlength m /\ forall i, 0 <= i -> lo <= i <= hi -> node m' i = node m i.

Lemma changed_refl m lo hi : changed_in m m lo hi.
Proof. done. Qed.

Lemma changed_trans m1 m2 m3 lo hi :
  changed_in m1 m2 lo hi -> changed_in m2 m3 lo hi -> changed_in m1 m3 lo hi.
Proof. intros [L1 H1] [L2 H2]. split; [congruence|]. intros i Hi Ho. by rewrite H2, H1. Qed.

Lemma changed_weaken m m' lo hi lo' hi' :
  changed_in m m' lo hi -> lo' <= lo -> hi <= hi' -> changed_in m m' lo' hi'.
Proof. intros [L H] Hlo Hhi. split; [done|]. intros i Hi Ho. apply H; lia. Qed.

Lemma changed_aset m i v lo hi : lo <= i <= hi -> changed_in m (aset m i v) lo hi.
Proof. intros Hi. split; [apply zlength_aset|]. intros j Hj Ho. apply node_aset_ne; lia. Qed.

Lemma changed_agree m m' lo hi lo' hi' :
  changed_in m m' lo hi -> hi' < lo \/ hi < lo' -> agree m m' lo' hi'.
Proof. intros [L H] Hd. split; [done|]. intros i Hi Hr. apply H; lia. Qed.

Lemma agree_weaken m m' lo hi lo' hi' :
  agree m m' lo hi -> lo <= lo' -> hi' <= hi -> agree m m' lo' hi'.
Proof. intros [L H] Hlo Hhi. split; [done|]. intros i Hi Ho. apply H; lia. Qed.

Lemma in_tree_length m m' i : zlength m' = zlength m -> in_tree m i -> in_tree m' i.
Proof. unfold in_tree. intros ->. done. Qed.

(** ** What the array holds *)

(** The skeleton: the slots of the children that cover any of the [n] blocks,
    with hints that are not negative, and the terminator after the last. *)
Fixpoint skel (d : nat) (m : tree) (o n : Z) : Prop :=
  in_tree m o /\ 0 <= hint m o /\
  match d with
  | O => True
  | S d' =>
      (forall c, 0 <= c < 16 -> c * radixd d' < n -> skel d' m (kid d' o c) (kidn d' n c)) /\
      (forall c, 0 <= c < 16 -> (c - 1) * radixd d' < n <= c * radixd d' ->
        in_tree m (kid d' o c) /\ hint m (kid d' o c) = -1)
  end.

(** Whether a subtree says that its block [j] is free. *)
Fixpoint bfree (d : nat) (m : tree) (o j : Z) : bool :=
  match d with
  | O => Z.testbit (bits m o) j
  | S d' =>
      if avail m o =? 0 then false
      else if avail m o =? radixd d then true
      else bfree d' m (kid d' o (j / radixd d')) (j mod radixd d')
  end.

(** What its children say. *)
Definition kfree (d : nat) (m : tree) (o j : Z) : bool :=
  bfree d m (kid d o (j / radixd d)) (j mod radixd d).

(** How many of [n] blocks. *)
Definition n_free (n : Z) (f : Z -> bool) : Z := zsum (Z.to_nat n) (fun j => indicator (f j)).

(** The counts are right, down to where a subtree is all free or all
    allocated. *)
Fixpoint cons (d : nat) (m : tree) (o n : Z) : Prop :=
  match d with
  | O => forall j, n <= j < 32 -> Z.testbit (bits m o) j = false
  | S d' =>
      avail m o = 0 \/ (avail m o = radixd d /\ n = radixd d) \/
      (forall c, 0 <= c < 16 -> c * radixd d' < n -> cons d' m (kid d' o c) (kidn d' n c)) /\
      avail m o = n_free n (fun j => bfree d' m (kid d' o (j / radixd d')) (j mod radixd d'))
  end.

(** The children of a node are in order. *)
Record kids_ok (d : nat) (m : tree) (o n : Z) : Prop := mk_kids_ok {
  ko_skel : forall c, 0 <= c < 16 -> c * radixd d < n -> skel d m (kid d o c) (kidn d n c);
  ko_cons : forall c, 0 <= c < 16 -> c * radixd d < n -> cons d m (kid d o c) (kidn d n c);
  ko_term : forall c, 0 <= c < 16 -> (c - 1) * radixd d < n <= c * radixd d ->
    in_tree m (kid d o c) /\ hint m (kid d o c) = -1
}.

(** ** Locality *)

Lemma skel_agree d m m' o n : agree m m' o (o + skipd d) -> skel d m o n -> skel d m' o n.
Proof.
  revert o n. induction d as [|d IH]; intros o n A.
  - intros (Ht & Hh & _). destruct A as [L A]. cbn [skel skipd] in *.
    split_and!; [by eapply in_tree_length | | done]. rewrite A; [done | apply Ht | lia].
  - pose proof (skipd_nonneg d) as Hs. intros (Ht & Hh & Hk & He). assert (0 <= o) by apply Ht.
    assert (node m' o = node m o) as Eo by (apply A; cbn [skipd]; lia).
    cbn [skel]. split_and!; [by eapply in_tree_length; [apply A|] | by rewrite Eo | |].
    + intros c Hc Hp. destruct (kid_range d o c Hc). apply IH; [|by apply Hk].
      eapply agree_weaken; [exact A | lia | done].
    + intros c Hc Hp. destruct (He c Hc Hp) as [Hi Hn]. destruct (kid_range d o c Hc).
      split; [by eapply in_tree_length; [apply A|]|].
      rewrite (proj2 A); [done | lia | lia].
Qed.

Lemma bfree_agree d m m' o j :
  agree m m' o (o + skipd d) -> 0 <= o -> 0 <= j < radixd d -> bfree d m' o j = bfree d m o j.
Proof.
  revert o j. induction d as [|d IH]; intros o j A Ho Hj.
  - cbn [bfree]. rewrite (proj2 A); [done | done | cbn [skipd]; lia].
  - pose proof (skipd_nonneg d) as Hs. cbn [bfree]. rewrite (proj2 A o Ho) by (cbn [skipd]; lia).
    destruct (block_kid d j Hj) as (Hc & Hm & _). destruct (kid_range d o _ Hc).
    rewrite IH; [done | eapply agree_weaken; [exact A | lia | done] | lia | done].
Qed.

Lemma count_free_ext n f g : (forall j, 0 <= j < n -> f j = g j) -> n_free n f = n_free n g.
Proof. intros H. apply zsum_ext. intros j Hj. rewrite H; [done | lia]. Qed.

Lemma cons_agree d m m' o n :
  agree m m' o (o + skipd d) -> 0 <= o -> 0 <= n <= radixd d -> cons d m o n -> cons d m' o n.
Proof.
  revert o n. induction d as [|d IH]; intros o n A Ho Hn.
  - cbn [cons]. rewrite (proj2 A o Ho) by (cbn [skipd]; lia). done.
  - pose proof (skipd_nonneg d) as Hs. cbn [cons]. rewrite (proj2 A o Ho) by (cbn [skipd]; lia).
    intros [H|[H|[Hk Hc]]]; [by left | by right; left | right; right]. split.
    + intros c Hr Hp. destruct (kid_range d o c Hr). pose proof (radixd_pos d).
      apply IH; [| lia | unfold kidn; lia | by apply Hk].
      eapply agree_weaken; [exact A | lia | done].
    + rewrite Hc. apply count_free_ext. intros j Hj.
      destruct (block_kid d j) as (Hr & Hm & _); [lia|]. destruct (kid_range d o _ Hr).
      symmetry. apply bfree_agree; [eapply agree_weaken; [exact A | lia | done] | lia | done].
Qed.

(** The same for the part below a node. *)
Lemma kids_agree d m m' o n :
  agree m m' (o + 1) (o + skipd (S d)) -> 0 <= o -> 0 <= n <= radixd (S d) ->
  kids_ok d m o n -> kids_ok d m' o n /\ forall j, 0 <= j < radixd (S d) -> kfree d m' o j = kfree d m o j.
Proof.
  intros A Ho Hn [Hs Hc He]. pose proof (radixd_pos d). pose proof (skipd_nonneg d). split; [split|].
  - intros c Hr Hp. destruct (kid_range d o c Hr). eapply skel_agree; [|by apply Hs].
    eapply agree_weaken; [exact A | lia | done].
  - intros c Hr Hp. destruct (kid_range d o c Hr).
    eapply cons_agree; [eapply agree_weaken; [exact A | lia | done] | lia | unfold kidn; lia | by apply Hc].
  - intros c Hr Hp. destruct (kid_range d o c Hr). destruct (He c Hr Hp) as [Hi Hn'].
    split; [by eapply in_tree_length; [apply A|]|]. rewrite (proj2 A); [done | lia | lia].
  - intros j Hj. destruct (block_kid d j Hj) as (Hr & Hm & _). destruct (kid_range d o _ Hr).
    apply bfree_agree; [eapply agree_weaken; [exact A | lia | done] | lia | done].
Qed.

Lemma agree_aset m i v lo hi : i < lo -> agree m (aset m i v) lo hi.
Proof. intros Hi. split; [apply zlength_aset|]. intros j Hj Hr. apply node_aset_ne; lia. Qed.

Lemma skel_kids d m o n :
  skel (S d) m o n <-> in_tree m o /\ 0 <= hint m o /\
    (forall c, 0 <= c < 16 -> c * radixd d < n -> skel d m (kid d o c) (kidn d n c)) /\
    (forall c, 0 <= c < 16 -> (c - 1) * radixd d < n <= c * radixd d ->
      in_tree m (kid d o c) /\ hint m (kid d o c) = -1).
Proof. done. Qed.

Lemma kids_skel d m o n : in_tree m o -> 0 <= hint m o -> kids_ok d m o n -> skel (S d) m o n.
Proof. intros Hi Hh [Hs _ He]. by apply skel_kids. Qed.

Lemma cons_kids d m o n :
  cons (S d) m o n <-> avail m o = 0 \/ (avail m o = radixd (S d) /\ n = radixd (S d)) \/
    (forall c, 0 <= c < 16 -> c * radixd d < n -> cons d m (kid d o c) (kidn d n c)) /\
    avail m o = n_free n (kfree d m o).
Proof. done. Qed.

Lemma bfree_node d m o j :
  bfree (S d) m o j =
  if avail m o =? 0 then false else if avail m o =? radixd (S d) then true else kfree d m o j.
Proof. done. Qed.

Lemma skel_in d m o n : skel d m o n -> in_tree m o /\ 0 <= hint m o.
Proof. destruct d; cbn [skel]; tauto. Qed.

(** A subtree whose own slot changes. *)
Lemma skel_root d m m' o n :
  skel d m o n -> zlength m' = zlength m -> 0 <= hint m' o ->
  (forall i, o < i <= o + skipd d -> node m' i = node m i) -> skel d m' o n.
Proof.
  intros S L Hh Hi. destruct (skel_in d m o n S) as [Ht _]. destruct d as [|d].
  { split_and!; [by eapply in_tree_length | done | done]. }
  destruct S as (_ & _ & Hs & He). assert (0 <= o) by apply Ht. pose proof (skipd_nonneg d).
  apply skel_kids. split_and!; [by eapply in_tree_length | done | |].
  - intros c Hr Hp. destruct (kid_range d o c Hr). eapply skel_agree; [|by apply Hs].
    split; [done|]. intros i Hi0 Hr'. apply Hi. lia.
  - intros c Hr Hp. destruct (kid_range d o c Hr). destruct (He c Hr Hp) as [Hin Hneg].
    split; [by eapply in_tree_length|]. rewrite Hi; [done | lia].
Qed.

(** ** Counting *)

Definition in_range (a k j : Z) : bool := (a <=? j) && (j <? a + k).

Lemma in_range_iff a k j : in_range a k j = true <-> a <= j < a + k.
Proof. unfold in_range. rewrite andb_true_iff, Z.leb_le, Z.ltb_lt. done. Qed.

Lemma count_bounds n f : 0 <= n -> 0 <= n_free n f <= n.
Proof.
  intros Hn. unfold n_free.
  pose proof (zsum_bounds (Z.to_nat n) (fun j => indicator (f j)) 0 1) as H.
  rewrite Z2Nat.id in H by done. destruct H; [intros i _; destruct (f i); cbn; lia|]. lia.
Qed.

Lemma count_add n f g :
  (forall j, 0 <= j < n -> f j = true -> g j = false) ->
  n_free n (fun j => f j || g j) = n_free n f + n_free n g.
Proof.
  intros H. unfold n_free.
  assert (forall k, Z.of_nat k <= Z.max 0 n ->
    zsum k (fun j => indicator (f j || g j)) =
    zsum k (fun j => indicator (f j)) + zsum k (fun j => indicator (g j))) as Hk.
  { induction k as [|k IH]; intros Hk; [done|]. cbn [zsum]. rewrite IH by lia.
    destruct (f (Z.of_nat k)) eqn:E; cbn [orb]; [rewrite (H (Z.of_nat k)) by (lia || done); cbn; lia|].
    cbn. lia. }
  apply Hk. lia.
Qed.

Lemma count_range n a k : 0 <= a -> 0 <= k -> a + k <= n -> n_free n (in_range a k) = k.
Proof.
  intros Ha Hk Hn. unfold n_free.
  assert (forall m, zsum m (fun j => indicator (in_range a k j)) =
    Z.max 0 (Z.min (Z.of_nat m) (a + k) - a)) as H.
  { induction m as [|m IH]; [cbn; lia|]. cbn [zsum]. rewrite IH. unfold in_range.
    destruct (Z.leb_spec a (Z.of_nat m)), (Z.ltb_spec (Z.of_nat m) (a + k)); cbn; lia. }
  rewrite H. lia.
Qed.

Lemma count_all n f : 0 <= n -> (forall j, 0 <= j < n -> f j = true) -> n_free n f = n.
Proof.
  intros Hn H. etransitivity; [|apply (count_range n 0 n); lia]. apply count_free_ext. intros j Hj.
  rewrite H by done. symmetry. apply in_range_iff. lia.
Qed.

Lemma count_none n f : (forall j, 0 <= j < n -> f j = false) -> n_free n f = 0.
Proof.
  intros H. destruct (Z.le_gt_cases n 0) as [Hn|Hn].
  { unfold n_free. by rewrite Z2Nat.nonpos. }
  etransitivity; [|apply (count_range n 0 0); lia]. apply count_free_ext. intros j Hj.
  rewrite H by done. symmetry. apply not_true_iff_false. rewrite in_range_iff. lia.
Qed.

Lemma count_diff n f g :
  (forall j, 0 <= j < n -> g j = true -> f j = true) ->
  n_free n (fun j => f j && negb (g j)) = n_free n f - n_free n g.
Proof.
  intros H. enough (n_free n f = n_free n (fun j => f j && negb (g j)) + n_free n g) by lia.
  rewrite <- count_add.
  - apply count_free_ext. intros j Hj. specialize (H j Hj). destruct (f j), (g j); cbn; auto.
  - intros j Hj. destruct (f j), (g j); done.
Qed.

Lemma count_extend n k f :
  0 <= n <= k -> (forall j, n <= j < k -> f j = false) -> n_free k f = n_free n f.
Proof.
  intros Hn H.
  rewrite (count_free_ext k f (fun j => (f j && negb (in_range n (k - n) j)) || (f j && in_range n (k - n) j))).
  - rewrite count_add by (intros j _; by destruct (f j), (in_range n (k - n) j)).
    rewrite (count_none k (fun j => f j && in_range n (k - n) j)).
    + rewrite Z.add_0_r. unfold n_free.
      assert (forall i : nat, zsum (Z.to_nat n + i) (fun j => indicator (f j && negb (in_range n (Z.of_nat i) j))) =
        zsum (Z.to_nat n) (fun j => indicator (f j))) as Hi.
      { induction i as [|i IH].
        - rewrite Nat.add_0_r. apply zsum_ext. intros j Hj. unfold in_range.
          destruct (Z.leb_spec n j); [lia|]. cbn [andb negb]. by rewrite andb_true_r.
        - rewrite Nat.add_succ_r. cbn [zsum]. rewrite <- IH.
          rewrite (proj2 (in_range_iff n (Z.of_nat (S i)) (Z.of_nat (Z.to_nat n + i)))) by lia.
          cbn [negb]. rewrite andb_false_r. cbn [indicator]. rewrite Z.add_0_r.
          apply zsum_ext. intros j Hj. f_equal. f_equal. f_equal. unfold in_range. f_equal.
          destruct (Z.ltb_spec j (n + Z.of_nat (S i))), (Z.ltb_spec j (n + Z.of_nat i)); lia. }
      specialize (Hi (Z.to_nat (k - n))). rewrite Z2Nat.id in Hi by lia. rewrite <- Hi.
      by replace (Z.to_nat n + Z.to_nat (k - n))%nat with (Z.to_nat k) by lia.
    + intros j Hj. destruct (in_range n (k - n) j) eqn:E; [|apply andb_false_r].
      apply in_range_iff in E. by rewrite H by lia.
  - intros j Hj. by destruct (f j), (in_range n (k - n) j).
Qed.

Lemma count_full_inv n f : n_free n f = n -> forall j, 0 <= j < n -> f j = true.
Proof.
  intros H j Hj. destruct (f j) eqn:E; [done|]. exfalso.
  assert (n_free n (in_range j 1) = 1) as H1 by (apply count_range; lia).
  assert (n_free n (fun i => f i || in_range j 1 i) = n_free n f + 1) as H2.
  { rewrite count_add, H1; [done|]. intros i Hi Hf. apply not_true_iff_false. rewrite in_range_iff.
    intros Hr. replace i with j in Hf by lia. congruence. }
  pose proof (count_bounds n (fun i => f i || in_range j 1 i) ltac:(lia)). lia.
Qed.

(** The count of a node is that of its free blocks. *)
Lemma avail_count d m o n :
  cons (S d) m o n -> 0 < n <= radixd (S d) -> avail m o = n_free n (bfree (S d) m o).
Proof.
  intros Hc Hn.
  rewrite (count_free_ext n _ (fun j => if avail m o =? 0 then false else
    if avail m o =? radixd (S d) then true else kfree d m o j)) by (intros; apply bfree_node).
  destruct (Z.eqb_spec (avail m o) 0) as [E|E]; [by rewrite count_none|].
  destruct (Z.eqb_spec (avail m o) (radixd (S d))) as [E'|E'].
  - rewrite count_all by (lia || done). apply (proj1 (cons_kids _ _ _ _)) in Hc as [?|[[? ?]|[_ Hk]]]; [lia | lia|].
    pose proof (count_bounds n (kfree d m o) ltac:(lia)). lia.
  - apply (proj1 (cons_kids _ _ _ _)) in Hc as [?|[[? ?]|[_ Hk]]]; [done | done | done].
Qed.

(** With the children in order, the node's own test does not matter. *)
Lemma bfree_kids d m o n j :
  avail m o = n_free n (kfree d m o) -> 0 < n <= radixd (S d) -> 0 <= j < n ->
  bfree (S d) m o j = kfree d m o j.
Proof.
  intros Ha Hn Hj. rewrite bfree_node.
  destruct (Z.eqb_spec (avail m o) 0) as [E|E].
  - destruct (kfree d m o j) eqn:Ek; [|done]. exfalso.
    assert (n_free n (fun i => kfree d m o i && negb (in_range j 1 i)) =
      n_free n (kfree d m o) - 1) as H1.
    { rewrite count_diff; [by rewrite (count_range n j 1) by lia|]. intros i Hi Hr.
      apply in_range_iff in Hr. by replace i with j by lia. }
    pose proof (count_bounds n (fun i => kfree d m o i && negb (in_range j 1 i)) ltac:(lia)). lia.
  - destruct (Z.eqb_spec (avail m o) (radixd (S d))) as [E'|E']; [|done].
    symmetry. apply (count_full_inv n); [|done]. pose proof (count_bounds n (kfree d m o) ltac:(lia)). lia.
Qed.

(** ** Operations on a subtree *)

(** [m'] is [m] after an operation within a subtree that leaves it well-formed
    with the free blocks [f]. *)
Record step (d : nat) (m m' : tree) (o n : Z) (f : Z -> bool) : Prop := mk_step {
  st_changed : changed_in m m' o (o + skipd d);
  st_skel : skel d m' o n;
  st_cons : cons d m' o n;
  st_free : forall j, 0 <= j < n -> bfree d m' o j = f j
}.

Lemma step_ext d m m' o n f g :
  step d m m' o n f -> (forall j, 0 <= j < n -> f j = g j) -> step d m m' o n g.
Proof. intros [A B C D] H. constructor; try done. intros j Hj. by rewrite D, H. Qed.

(** A step of a child, seen from its parent. *)
Lemma step_kid d m m' o n c f :
  kids_ok d m o n -> 0 <= o -> 0 < n <= radixd (S d) -> 0 <= c < 16 -> c * radixd d < n ->
  step d m m' (kid d o c) (kidn d n c) f ->
  kids_ok d m' o n /\ node m' o = node m o /\ changed_in m m' (o + 1) (o + skipd (S d)) /\
  forall j, 0 <= j < n ->
    kfree d m' o j = if j / radixd d =? c then f (j mod radixd d) else kfree d m o j.
Proof.
  intros [Hs Hc He] Ho Hn Hr Hp [Ch Sk Co Fr]. pose proof (radixd_pos d). pose proof (skipd_nonneg d).
  destruct (kid_range d o c Hr) as [R1 R2].
  assert (forall c', 0 <= c' < 16 -> c' <> c -> agree m m' (kid d o c') (kid d o c' + skipd d)) as Ag.
  { intros c' Hr' Hne. eapply changed_agree; [exact Ch|].
    destruct (Z.lt_total c c') as [Hl|[?|Hl]]; [right | lia | left];
      [pose proof (kid_sep d o c c' Hl) | pose proof (kid_sep d o c' c Hl)]; lia. }
  split_and!.
  - constructor.
    + intros c' Hr' Hp'. destruct (decide (c' = c)) as [->|Hne]; [done|].
      eapply skel_agree; [by apply Ag | by apply Hs].
    + intros c' Hr' Hp'. destruct (decide (c' = c)) as [->|Hne]; [done|].
      destruct (kid_range d o c' Hr').
      eapply cons_agree; [by apply Ag | lia | unfold kidn; lia | by apply Hc].
    + intros c' Hr' Hp'. assert (c' <> c) as Hne by nia. destruct (He c' Hr' Hp') as [Hi Hneg].
      split; [eapply in_tree_length; [apply Ch | done]|]. destruct (kid_range d o c' Hr').
      rewrite (proj2 (Ag c' Hr' Hne)); [done | lia | lia].
  - apply Ch; lia.
  - eapply changed_weaken; [exact Ch | lia | lia].
  - intros j Hj. destruct (block_kid d j) as (Hq & Hm & Ej); [lia|]. unfold kfree.
    destruct (Z.eqb_spec (j / radixd d) c) as [E|E].
    + rewrite E. apply Fr. unfold kidn. rewrite E in Ej. lia.
    + destruct (kid_range d o _ Hq). apply bfree_agree; [by apply Ag | lia | lia].
Qed.

(** A node whose children are in order and whose count is theirs. *)
Lemma kids_step d m m' o n :
  changed_in m m' o (o + skipd (S d)) -> in_tree m' o -> 0 <= hint m' o -> kids_ok d m' o n ->
  0 < n <= radixd (S d) -> avail m' o = n_free n (kfree d m' o) ->
  step (S d) m m' o n (kfree d m' o).
Proof.
  intros Ch Hi Hh Hk Hn Ha. constructor; [done | by apply kids_skel | |].
  - apply cons_kids. right. right. split; [apply Hk | done].
  - intros j Hj. eapply bfree_kids; [exact Ha | exact Hn | exact Hj].
Qed.

(** An allocation fails and changes no free block, or takes a free range. *)
Definition alloc_res (d : nat) (m m' : tree) (o n blk count r : Z) : Prop :=
  (r = SWAPBLK_NONE /\ step d m m' o n (bfree d m o)) \/
  (exists a, r = blk + a /\ 0 <= a /\ a + count <= n /\
    (forall j, a <= j < a + count -> bfree d m o j = true) /\
    step d m m' o n (fun j => bfree d m o j && negb (in_range a count j))).

(** A range within child [c]. *)
Lemma in_range_kid d c a k j :
  0 <= a -> a + k <= radixd d -> 0 <= j ->
  in_range (c * radixd d + a) k j = (j / radixd d =? c) && in_range a k (j mod radixd d).
Proof.
  intros Ha Hk Hj. pose proof (radixd_pos d).
  pose proof (Z.div_mod j (radixd d) ltac:(lia)) as E. pose proof (Z.mod_pos_bound j (radixd d) ltac:(lia)).
  destruct (Z.eqb_spec (j / radixd d) c) as [<-|Hne]; cbn [andb].
  - unfold in_range. f_equal; [destruct (Z.leb_spec a (j mod radixd d)) | destruct (Z.ltb_spec (j mod radixd d) (a + k))]; zcase; lia.
  - apply not_true_iff_false. rewrite in_range_iff. intros Hr. apply Hne.
    symmetry. apply (Z.div_unique j (radixd d) c (j - c * radixd d)); lia.
Qed.

Lemma count_succ n g : 0 <= n -> n_free (n + 1) g = n_free n g + indicator (g n).
Proof.
  intros Hn. unfold n_free. rewrite Z2Nat.inj_add by lia. change (Z.to_nat 1) with 1%nat.
  rewrite Nat.add_comm. cbn [Nat.add zsum]. by rewrite Z2Nat.id.
Qed.

(** The count of a part, counted within it. *)
Lemma count_part n a w g :
  0 <= a -> 0 <= w -> a + w <= n ->
  n_free n (fun j => in_range a w j && g (j - a)) = n_free w g.
Proof.
  intros Ha Hw. revert w Hw. apply (natlike_ind (fun w => a + w <= n ->
    n_free n (fun j => in_range a w j && g (j - a)) = n_free w g)).
  { intros _. rewrite (count_none 0) by lia. apply count_none. intros j Hj.
    assert (in_range a 0 j = false) as ->; [|done]. apply not_true_iff_false. rewrite in_range_iff. lia. }
  intros w Hw IH Hn. replace (Z.succ w) with (w + 1) by lia. rewrite count_succ by done.
  rewrite <- IH by lia.
  rewrite (count_free_ext n _ (fun j => (in_range a w j && g (j - a)) || (in_range (a + w) 1 j && g w))).
  - rewrite count_add.
    + f_equal. destruct (g w) eqn:Eg.
      * rewrite (count_free_ext n _ (in_range (a + w) 1)) by (intros j _; apply andb_true_r).
        by rewrite count_range by lia.
      * rewrite count_none; [done|]. intros j _. apply andb_false_r.
    + intros j Hj Hr. apply andb_prop in Hr as [Hr _]. apply in_range_iff in Hr.
      assert (in_range (a + w) 1 j = false) as ->; [|done]. apply not_true_iff_false. rewrite in_range_iff. lia.
  - intros j Hj. unfold in_range. destruct (decide (j = a + w)) as [->|Hne].
    + replace (a + w - a) with w by lia. ztest. cbn. by destruct (g w).
    + replace ((a + w <=? j) && (j <? a + w + 1)) with false by (symmetry; apply not_true_iff_false; rewrite andb_true_iff; lia).
      rewrite andb_false_l, orb_false_r. f_equal. f_equal.
      destruct (Z.ltb_spec j (a + (w + 1))), (Z.ltb_spec j (a + w)); lia.
Qed.
