(* ===== verification/BlistLeaf.v ===== *)
(** The leaves of [Blist]: the searches in a 32-bit map, the mask of a range,
    and what the three leaf operations do to the free blocks. *)

From stdpp Require Import base list.
From S2P Require Import Prelude Blist.
From S2P Require Import BlistTree.

Lemma range_dec (p : Z -> bool) lo n :
  (exists i, lo <= i < lo + n /\ p i = true) \/ (forall i, lo <= i < lo + n -> p i = false).
Proof.
  destruct (search_spec (Z.to_nat n) lo p) as (H1 & H2 & H3). cbv zeta in *.
  destruct (decide (search (Z.to_nat n) lo p < lo + Z.of_nat (Z.to_nat n))) as [Hlt|Hge].
  - left. eexists. split; [|by apply H3]. lia.
  - right. intros i Hi. apply H2. lia.
Qed.

(** ** The lowest bit *)

Lemma land_ones_shiftr j i : 0 <= j -> 0 <= i -> Z.shiftr (Z.ones (j + i)) i = Z.ones j.
Proof.
  intros Hj Hi. apply Z.bits_inj'. intros k Hk. rewrite Z.shiftr_spec, !testbit_ones by lia.
  destruct (Z.lt_ge_cases k j); by ztest.
Qed.

(** Some bit below a width. *)
Lemma land_ones_bit x w : 0 <= w -> Z.land x (Z.ones w) <> 0 <-> exists i, 0 <= i < w /\ Z.testbit x i = true.
Proof.
  intros Hw. split.
  - intros H. destruct (range_dec (Z.testbit x) 0 w) as [(i & Hi & Hb)|Hn].
    { exists i. split; [lia | done]. }
    exfalso. apply H. apply Z.bits_inj'. intros k Hk.
    rewrite Z.land_spec, testbit_ones, Z.bits_0 by lia. destruct (Z.ltb_spec k w); [|by rewrite !andb_false_r].
    by rewrite Hn by lia.
  - intros (i & Hi & Hb) H. apply (f_equal (fun z => Z.testbit z i)) in H.
    rewrite Z.land_spec, testbit_ones, Hb, Z.bits_0 in H by lia. revert H. by ztest.
Qed.

Lemma leaf_low_spec (k : nat) fuel orig r :
  (k + 1 < fuel)%nat -> Z.land orig (Z.ones (2 ^ (Z.of_nat k + 1))) <> 0 ->
  exists d, leaf_low fuel orig (Z.ones (2 ^ Z.of_nat k)) (2 ^ Z.of_nat k) r = r + d /\
    0 <= d < 2 ^ (Z.of_nat k + 1) /\ Z.testbit orig d = true.
Proof.
  revert fuel orig r. induction k as [|k IH]; intros [|fuel] orig r Hf H; try lia.
  - destruct fuel as [|fuel]; [lia|]. cbn [leaf_low]. change (2 ^ Z.of_nat 0) with 1. cbn [Z.eqb].
    change (2 ^ (Z.of_nat 0 + 1)) with 2 in *. change (Z.shiftr 1 1) with 0.
    destruct (Z.eqb_spec (Z.land orig (Z.ones 1)) 0) as [E|E]; cbn [Z.eqb];
      apply land_ones_bit in H as (i & Hi & Hb); try lia.
    + exists 1. split_and!; [done | lia | lia |].
      assert (i = 0 \/ i = 1) as [->| ->] by lia; [|done]. exfalso.
      revert E. apply land_ones_bit; [lia|]. by exists 0.
    + exists 0. split_and!; [lia | lia | lia |].
      apply land_ones_bit in E as (i' & Hi' & Hb'); [|lia]. by replace 0 with i' by lia.
  - set (j := 2 ^ Z.of_nat (S k)) in *.
    assert (j = 2 ^ (Z.of_nat k + 1)) as Ej by (unfold j; f_equal; lia).
    assert (j = 2 * 2 ^ Z.of_nat k) as Ej2 by (rewrite Ej, Z.pow_add_r by lia; lia).
    assert (0 < 2 ^ Z.of_nat k) by (apply Z.pow_pos_nonneg; lia).
    assert (2 ^ (Z.of_nat (S k) + 1) = 2 * j) as E2 by (unfold j; rewrite Z.pow_add_r by lia; lia).
    rewrite E2 in *.
    assert (Z.shiftr j 1 = 2 ^ Z.of_nat k) as Es.
    { rewrite Z.shiftr_div_pow2 by lia. rewrite Ej2, Z.mul_comm. by apply Z.div_mul. }
    assert (Z.shiftr (Z.ones j) (2 ^ Z.of_nat k) = Z.ones (2 ^ Z.of_nat k)) as Em.
    { replace j with (2 ^ Z.of_nat k + 2 ^ Z.of_nat k) by lia. apply land_ones_shiftr; lia. }
    cbn [leaf_low]. rewrite (proj2 (Z.eqb_neq j 0)) by lia. cbv zeta. rewrite Es, Em.
    apply land_ones_bit in H as (i & Hi & Hb); [|lia].
    destruct (Z.eqb_spec (Z.land orig (Z.ones j)) 0) as [E|E].
    + destruct (IH fuel (Z.shiftr orig j) (r + j)) as (d & -> & Hd & Hbd); [lia | |].
      { rewrite <- Ej. apply land_ones_bit; [lia|]. exists (i - j).
        assert (j <= i). { apply Z.nlt_ge. intros Hlt. revert E. apply land_ones_bit; [lia|]. exists i. split; [lia | done]. }
        split; [lia|]. rewrite Z.shiftr_spec by lia. by replace (i - j + j) with i by lia. }
      exists (d + j). rewrite Z.shiftr_spec in Hbd by lia. split_and!; [lia | lia | lia | done].
    + destruct (IH fuel orig r) as (d & -> & Hd & Hbd); [lia | by rewrite <- Ej |].
      exists d. split_and!; [done | lia | lia | done].
Qed.

(** ** A place for a mask *)

Lemma shiftl_ones_bit c j i :
  0 <= c -> 0 <= j -> 0 <= i -> Z.testbit (Z.shiftl (Z.ones c) j) i = in_range j c i.
Proof.
  intros Hc Hj Hi. unfold in_range. destruct (Z.lt_ge_cases i j).
  - rewrite Z.shiftl_spec_low by done. by ztest.
  - rewrite Z.shiftl_spec_high, testbit_ones by lia. ztest.
    destruct (Z.lt_ge_cases i (j + c)); by ztest.
Qed.

Lemma u32_bit x i : 0 <= i -> Z.testbit (u32 x) i = (i <? 32) && Z.testbit x i.
Proof.
  intros Hi. unfold u32. destruct (Z.ltb_spec i 32).
  - by rewrite Z.mod_pow2_bits_low.
  - by rewrite Z.mod_pow2_bits_high.
Qed.

Lemma u32_small x : 0 <= x < 2 ^ 32 -> u32 x = x.
Proof. apply Z.mod_small. Qed.

Lemma shiftl_ones_range c j : 0 <= c -> 0 <= j -> c + j <= 32 -> 0 <= Z.shiftl (Z.ones c) j < 2 ^ 32.
Proof.
  intros Hc Hj H. rewrite Z.shiftl_mul_pow2, Z.ones_equiv by lia.
  assert (0 < 2 ^ j) by (apply Z.pow_pos_nonneg; lia).
  assert (0 < 2 ^ c) by (apply Z.pow_pos_nonneg; lia).
  assert (2 ^ (c + j) <= 2 ^ 32) as Hp by (apply Z.pow_le_mono_r; lia).
  rewrite Z.pow_add_r in Hp by lia. nia.
Qed.

(** All the bits of a range are set. *)
Lemma land_mask_range x c j :
  0 <= c -> 0 <= j ->
  Z.land x (Z.shiftl (Z.ones c) j) = Z.shiftl (Z.ones c) j <-> forall i, j <= i < j + c -> Z.testbit x i = true.
Proof.
  intros Hc Hj. split.
  - intros H i Hi. apply (f_equal (fun z => Z.testbit z i)) in H.
    rewrite Z.land_spec, shiftl_ones_bit in H by lia.
    rewrite (proj2 (in_range_iff j c i)), andb_true_r in H by lia. done.
  - intros H. apply Z.bits_inj'. intros i Hi. rewrite Z.land_spec, shiftl_ones_bit by lia.
    destruct (in_range j c i) eqn:E; [|apply andb_false_r].
    apply in_range_iff in E. by rewrite H.
Qed.

Lemma leaf_run_spec fuel orig c j :
  1 <= c <= 32 -> 0 <= j -> 32 - c - j < Z.of_nat fuel ->
  match leaf_run fuel orig (u32 (Z.shiftl (Z.ones c) j)) j (32 - c) with
  | Some (a, mask) => j <= a <= 32 - c /\ mask = Z.shiftl (Z.ones c) a /\
      forall i, a <= i < a + c -> Z.testbit orig i = true
  | None => forall a, j <= a <= 32 - c -> exists i, a <= i < a + c /\ Z.testbit orig i = false
  end.
Proof.
  intros Hc. revert j. induction fuel as [|fuel IH]; intros j Hj Hf; cbn [leaf_run].
  { intros a Ha. lia. }
  destruct (Z.ltb_spec (32 - c) j) as [|Hle]; [intros a Ha; lia|].
  rewrite (u32_small (Z.shiftl (Z.ones c) j)) by (apply shiftl_ones_range; lia).
  destruct (Z.eqb_spec (Z.land orig (Z.shiftl (Z.ones c) j)) (Z.shiftl (Z.ones c) j)) as [E|E].
  { split_and!; [lia | lia | done |]. by apply (proj1 (land_mask_range orig c j ltac:(lia) ltac:(lia))). }
  rewrite Z.shiftl_shiftl by lia. specialize (IH (j + 1) ltac:(lia) ltac:(lia)).
  destruct (leaf_run fuel orig _ (j + 1) (32 - c)) as [[a mask]|].
  - destruct IH as (? & ? & ?). split_and!; [lia | lia | done | done].
  - intros a Ha. destruct (decide (a = j)) as [->|Hne]; [|apply IH; lia].
    destruct (range_dec (fun i => negb (Z.testbit orig i)) j c) as [(i & Hi & Hb)|Hn].
    { exists i. apply negb_true_iff in Hb. done. }
    exfalso. apply E. apply land_mask_range; [lia | lia |]. intros i Hi. by apply negb_false_iff, Hn.
Qed.

(** ** The mask of a range *)

Lemma s32_small x : - 2 ^ 31 <= x < 2 ^ 31 -> s32 x = x.
Proof.
  intros Hx. unfold s32, u32. destruct (Z.le_gt_cases 0 x).
  - rewrite Z.mod_small by lia. by ztest.
  - assert (x mod 2 ^ 32 = x + 2 ^ 32) as ->.
    { symmetry. apply Z.mod_unique with (-1); lia. }
    ztest. lia.
Qed.

Lemma leaf_mask_spec blk count :
  1 <= count -> 0 <= blk -> blk mod 32 + count <= 32 ->
  leaf_mask blk count = Ok (Z.shiftl (Z.ones count) (blk mod 32)).
Proof.
  intros Hc Hb Hn. unfold leaf_mask. change (BLIST_BMAP_RADIX - 1) with (Z.ones 5).
  rewrite Z.land_ones by lia. change (2 ^ 5) with 32. change BLIST_BMAP_RADIX with 32.
  pose proof (Z.mod_pos_bound blk 32). rewrite s32_small by lia. cbv zeta. unfold shl_ones, shr_ones. ztest. cbn [andb].
  rewrite !bind_Ok. f_equal. change all_ones with (Z.ones 32).
  apply Z.bits_inj'. intros i Hi. rewrite Z.land_spec, u32_bit, Z.shiftr_spec by lia.
  rewrite !shiftl_ones_bit, testbit_ones by lia. unfold in_range.
  destruct (Z.leb_spec (blk mod 32) i); ztest; cbn [andb]; [|by rewrite ?andb_false_r].
  destruct (Z.ltb_spec i (blk mod 32 + count)); ztest; [done|]. by rewrite ?andb_false_r.
Qed.

(** ** Counting bits *)

Lemma land_pred b : 0 < b -> Z.land b (b - 1) = Z.ldiff b (2 ^ ctz b).
Proof.
  intros Hb. destruct (ctz_spec b Hb) as (Hk & Ht & Hlow). set (k := ctz b) in *.
  assert (Z.ldiff (2 ^ k) b = 0) as H1.
  { apply Z.bits_inj'. intros i Hi. rewrite Z.ldiff_spec, Z.pow2_bits_eqb, Z.bits_0 by lia.
    destruct (Z.eqb_spec k i) as [->|]; [by rewrite Ht | done]. }
  assert (b - 1 = Z.lxor (Z.ldiff b (2 ^ k)) (Z.ones k)) as E.
  { rewrite <- Z.add_nocarry_lxor.
    - rewrite <- Z.sub_nocarry_ldiff by done. rewrite Z.ones_equiv. lia.
    - apply Z.bits_inj'. intros i Hi.
      rewrite Z.land_spec, Z.ldiff_spec, testbit_ones, Z.bits_0 by lia.
      destruct (Z.lt_ge_cases i k); [rewrite Hlow by lia; done|]. ztest. by rewrite !andb_false_r. }
  apply Z.bits_inj'. intros i Hi. rewrite E, Z.land_spec, Z.lxor_spec, Z.ldiff_spec, testbit_ones by lia.
  rewrite Z.pow2_bits_eqb by lia.
  destruct (Z.testbit b i) eqn:Eb; cbn [andb xorb]; [|done].
  destruct (Z.lt_ge_cases i k); [rewrite Hlow in Eb by lia; discriminate|]. ztest.
  by rewrite andb_false_r, xorb_false_r.
Qed.

Lemma leaf_count_spec fuel b k :
  0 <= b < 2 ^ 32 -> n_free 32 (Z.testbit b) < Z.of_nat fuel ->
  leaf_count fuel b k = k + n_free 32 (Z.testbit b).
Proof.
  revert b k. induction fuel as [|fuel IH]; intros b k Hb Hf.
  { pose proof (count_bounds 32 (Z.testbit b)). lia. }
  cbn [leaf_count]. destruct (Z.eqb_spec b 0) as [->|Hne].
  { rewrite count_none; [lia|]. intros j _. apply Z.bits_0. }
  rewrite land_pred by lia. destruct (ctz_spec b ltac:(lia)) as (Hk & Ht & _).
  assert (ctz b < 32) as Hk32.
  { apply Z.nle_gt. intros H. rewrite Z.bits_above_log2 in Ht; [discriminate | lia |].
    apply Z.lt_le_trans with 32; [|done]. apply Z.log2_lt_pow2; lia. }
  assert (n_free 32 (Z.testbit (Z.ldiff b (2 ^ ctz b))) = n_free 32 (Z.testbit b) - 1) as E.
  { rewrite <- (count_range 32 (ctz b) 1) by lia. rewrite <- count_diff.
    - apply count_free_ext. intros j Hj. rewrite Z.ldiff_spec, Z.pow2_bits_eqb by lia.
      f_equal. f_equal. unfold in_range. destruct (Z.eqb_spec (ctz b) j); [subst; by ztest|].
      destruct (Z.lt_total (ctz b) j) as [?|[?|?]]; by ztest.
    - intros j Hj Hr. apply in_range_iff in Hr. by replace j with (ctz b) by lia. }
  rewrite IH; [lia | | lia].
  rewrite <- Z.sub_nocarry_ldiff; cycle 1.
  { apply Z.bits_inj'. intros i Hi. rewrite Z.ldiff_spec, Z.pow2_bits_eqb, Z.bits_0 by lia.
    destruct (Z.eqb_spec (ctz b) i) as [<-|]; [by rewrite Ht | done]. }
  split; [|assert (0 < 2 ^ ctz b) by (apply Z.pow_pos_nonneg; lia); lia].
  assert (2 ^ ctz b <= b); [|lia]. apply Z.nlt_ge. intros H.
  rewrite Z.bits_above_log2 in Ht; [discriminate | lia | apply Z.log2_lt_pow2; lia].
Qed.

(** ** The operations *)

Lemma leaf_set m o n v s :
  skel 0 m o n -> 0 <= v < 2 ^ 32 -> (forall j, n <= j < 32 -> Z.testbit v j = false) ->
  bmu_bitmap s = v -> 0 <= bm_bighint s -> step 0 m (aset m o s) o n (Z.testbit v).
Proof.
  intros (Hi & Hh & _) Hv Hz Hb Hs. constructor; cbn [skel cons bfree skipd].
  - apply changed_aset. lia.
  - split_and!; [|by rewrite node_aset_eq | done]. eapply in_tree_length; [apply zlength_aset | done].
  - rewrite node_aset_eq, Hb by done. done.
  - intros j Hj. by rewrite node_aset_eq, Hb.
Qed.

Lemma ldiff_range x y : 0 <= x < 2 ^ 32 -> 0 <= Z.ldiff x y < 2 ^ 32.
Proof.
  intros Hx. assert (0 <= Z.ldiff x y) as H0 by (apply Z.ldiff_nonneg; lia). split; [done|].
  destruct (Z.eq_dec (Z.ldiff x y) 0) as [E|E]; [lia|]. apply Z.log2_lt_pow2; [lia|].
  apply Z.nle_gt. intros H. assert (0 <= Z.log2 (Z.ldiff x y)) by apply Z.log2_nonneg.
  pose proof (Z.bit_log2 (Z.ldiff x y) ltac:(lia)) as Hb.
  rewrite Z.ldiff_spec in Hb by done.
  rewrite (Z.bits_above_log2 x) in Hb; [discriminate | lia |].
  destruct (Z.eq_dec x 0) as [->|]; [done|]. apply Z.lt_le_trans with 32; [|done].
  apply Z.log2_lt_pow2; lia.
Qed.

Lemma lor_range x y : 0 <= x < 2 ^ 32 -> 0 <= y < 2 ^ 32 -> 0 <= Z.lor x y < 2 ^ 32.
Proof.
  intros Hx Hy. assert (0 <= Z.lor x y) as H0 by (apply Z.lor_nonneg; lia). split; [done|].
  destruct (Z.eq_dec (Z.lor x y) 0) as [E|E]; [lia|]. apply Z.log2_lt_pow2; [lia|].
  rewrite Z.log2_lor by lia.
  assert (forall z, 0 <= z < 2 ^ 32 -> Z.log2 z < 32) as Hl.
  { intros z Hz. destruct (Z.eq_dec z 0) as [->|]; [done|]. apply Z.log2_lt_pow2; lia. }
  apply Z.max_lub_lt; by apply Hl.
Qed.

Lemma land_lnot x y : Z.land x (Z.lnot y) = Z.ldiff x y.
Proof. symmetry. apply Z.ldiff_land. Qed.


Lemma same_bits s v w : bmu_bitmap (set_bitmap v s) = bmu_bitmap (set_bitmap v (set_bighint w s)).
Proof. done. Qed.

(** Taking a range of a leaf. *)
Lemma leaf_take m o n a c s :
  skel 0 m o n -> cons 0 m o n -> 0 < n <= 32 -> 0 <= a -> 1 <= c -> a + c <= 32 ->
  (forall i, a <= i < a + c -> Z.testbit (bits m o) i = true) ->
  bmu_bitmap s = Z.ldiff (bits m o) (Z.shiftl (Z.ones c) a) -> 0 <= bm_bighint s ->
  a + c <= n /\
  step 0 m (aset m o s) o n (fun j => bfree 0 m o j && negb (in_range a c j)).
Proof.
  intros S C Hn Ha Hc Hac Hf Hs Hh. split.
  { apply Z.nlt_ge. intros H. assert (Z.testbit (bits m o) (a + c - 1) = true) as H1 by (apply Hf; lia).
    cbn [cons] in C. rewrite C in H1 by lia. discriminate. }
  eapply step_ext; [apply (leaf_set m o n (Z.ldiff (bits m o) (Z.shiftl (Z.ones c) a)) s S);
    [| | exact Hs | exact Hh]|].
  - apply ldiff_range, bitmap_range.
  - intros j Hj. rewrite Z.ldiff_spec. cbn [cons] in C. by rewrite C.
  - intros j Hj. cbn beta. rewrite Z.ldiff_spec, shiftl_ones_bit by lia. done.
Qed.

Lemma leaf_hint m o n h :
  skel 0 m o n -> cons 0 m o n -> 0 <= h -> 0 <= n -> step 0 m (aset m o (set_bighint h (node m o))) o n (bfree 0 m o).
Proof.
  intros S C Hh Hn. eapply step_ext; [apply (leaf_set m o n (bits m o) _ S); try done; apply bitmap_range|].
  done.
Qed.

Lemma leaf_alloc_spec m o n blk count :
  skel 0 m o n -> cons 0 m o n -> 0 < n <= 32 -> 1 <= count <= 32 ->
  exists r m', blst_leaf_alloc m o blk count = Ok (r, m') /\ alloc_res 0 m m' o n blk count r.
Proof.
  intros S C Hn Hc. destruct (skel_in 0 m o n S) as [Hi Hh]. pose proof (bitmap_range (node m o)) as Hb.
  unfold blst_leaf_alloc. rewrite s32_small by lia. rewrite bl_get_ok, bind_Ok by done.
  cbv zeta. destruct (Z.eqb_spec (bits m o) 0) as [E0|E0].
  { rewrite bl_upd_ok, bind_Ok by done. eexists _, _. split; [done|]. left. split; [done|].
    apply leaf_hint; try done; lia. }
  destruct (Z.eqb_spec count 1) as [->|Hc1].
  { rewrite bl_upd_ok, bind_Ok by done.
    destruct (leaf_low_spec 4 6 (bits m o) 0) as (d & Hd & Hr & Ht); [lia | |].
    { change (2 ^ (Z.of_nat 4 + 1)) with 32. rewrite Z.land_ones by lia. by rewrite Z.mod_small. }
    change (Z.quot BLIST_BMAP_RADIX 2) with (2 ^ Z.of_nat 4).
    change (Z.shiftr all_ones (2 ^ Z.of_nat 4)) with (Z.ones (2 ^ Z.of_nat 4)).
    change (2 ^ (Z.of_nat 4 + 1)) with 32 in Hr. rewrite Hd, Z.add_0_l.
    eexists _, _. split; [done|]. right. exists d. rewrite land_lnot.
    destruct (leaf_take m o n d 1 (set_bitmap (Z.ldiff (bits m o) (Z.shiftl 1 d)) (node m o)) S C Hn)
      as [Hd1 St]; try lia.
    - intros i Hi'. by replace i with d by lia.
    - rewrite set_bitmap_bits by (by apply ldiff_range). done.
    - done.
    - split_and!; [done | lia | done | | exact St]. intros j Hj. by replace j with d by lia. }
  change BLIST_BMAP_RADIX with 32. ztest. cbn [andb]. unfold shr_ones. ztest. cbn [andb]. rewrite !bind_Ok.
  assert (Z.shiftr all_ones (32 - count) = u32 (Z.shiftl (Z.ones count) 0)) as ->.
  { rewrite Z.shiftl_0_r, u32_small.
    - replace all_ones with (Z.ones (count + (32 - count))) by (by replace (count + (32 - count)) with 32 by lia).
      apply land_ones_shiftr; lia.
    - rewrite <- (Z.shiftl_0_r (Z.ones count)). apply shiftl_ones_range; lia. }
  pose proof (leaf_run_spec 33 (bits m o) count 0 Hc ltac:(lia) ltac:(lia)) as H.
  destruct (leaf_run 33 (bits m o) _ 0 (32 - count)) as [[a mask]|].
  - destruct H as (Ha & -> & Hf). rewrite bl_upd_ok, bind_Ok by done. rewrite land_lnot.
    eexists _, _. split; [done|]. right. exists a.
    destruct (leaf_take m o n a count
      (set_bitmap (Z.ldiff (bits m o) (Z.shiftl (Z.ones count) a)) (node m o)) S C Hn) as [Ha1 St]; try lia.
    + done.
    + rewrite set_bitmap_bits by (by apply ldiff_range). done.
    + done.
    + split_and!; [done | lia | done | exact Hf | exact St].
  - rewrite bl_upd_ok, bind_Ok by done. eexists _, _. split; [done|]. left. split; [done|].
    apply leaf_hint; try done; lia.
Qed.

(** The range of blocks [blk..] is, in the leaf, [blk mod 32..]. *)
Lemma leaf_free_spec m o n blk count :
  skel 0 m o n -> cons 0 m o n -> 0 < n <= 32 -> 1 <= count -> 0 <= blk -> blk mod 32 + count <= n ->
  (forall j, blk mod 32 <= j < blk mod 32 + count -> bfree 0 m o j = false) ->
  exists m', blst_leaf_free m o blk count = Ok m' /\
    step 0 m m' o n (fun j => bfree 0 m o j || in_range (blk mod 32) count j).
Proof.
  intros S C Hn Hc Hb Hr Hf. destruct (skel_in 0 m o n S) as [Hi Hh].
  pose proof (bitmap_range (node m o)) as Hbr. pose proof (Z.mod_pos_bound blk 32 ltac:(lia)).
  unfold blst_leaf_free. rewrite leaf_mask_spec, bind_Ok, bl_get_ok, bind_Ok by (done || lia).
  assert (Z.land (bits m o) (Z.shiftl (Z.ones count) (blk mod 32)) = 0) as ->.
  { apply Z.bits_inj'. intros i Hi'. rewrite Z.land_spec, shiftl_ones_bit, Z.bits_0 by lia.
    destruct (in_range (blk mod 32) count i) eqn:E; [|apply andb_false_r].
    apply in_range_iff in E. cbn [bfree] in Hf. by rewrite Hf. }
  cbn [Z.eqb negb]. rewrite bl_upd_ok by done. eexists. split; [done|].
  assert (0 <= Z.shiftl (Z.ones count) (blk mod 32) < 2 ^ 32) by (apply shiftl_ones_range; lia).
  eapply step_ext; [apply (leaf_set m o n (Z.lor (bits m o) (Z.shiftl (Z.ones count) (blk mod 32))) _ S)|].
  - by apply lor_range.
  - intros j Hj. cbn [cons] in C. rewrite Z.lor_spec, shiftl_ones_bit, C by lia.
    apply not_true_iff_false. cbn [orb]. rewrite in_range_iff. lia.
  - change (bmu_bitmap (set_bighint BLIST_BMAP_RADIX ?s)) with (bmu_bitmap s).
    rewrite <- (set_bitmap_bits (Z.lor (bits m o) (Z.shiftl (Z.ones count) (blk mod 32))) (node m o)) at 2
      by by apply lor_range. done.
  - done.
  - intros j Hj. cbn beta. rewrite Z.lor_spec, shiftl_ones_bit by lia. done.
Qed.

Lemma leaf_fill_spec m o n blk count :
  skel 0 m o n -> cons 0 m o n -> 0 < n <= 32 -> 1 <= count -> 0 <= blk -> blk mod 32 + count <= 32 ->
  exists m', blst_leaf_fill m o blk count =
      Ok (n_free n (fun j => bfree 0 m o j && in_range (blk mod 32) count j), m') /\
    step 0 m m' o n (fun j => bfree 0 m o j && negb (in_range (blk mod 32) count j)).
Proof.
  intros S C Hn Hc Hb Hr. destruct (skel_in 0 m o n S) as [Hi Hh].
  pose proof (bitmap_range (node m o)) as Hbr. pose proof (Z.mod_pos_bound blk 32 ltac:(lia)).
  unfold blst_leaf_fill. rewrite leaf_mask_spec, bind_Ok, bl_get_ok, bind_Ok by (done || lia).
  rewrite bl_upd_ok, bind_Ok by done. set (mask := Z.shiftl (Z.ones count) (blk mod 32)).
  assert (forall i, 0 <= i -> Z.testbit mask i = in_range (blk mod 32) count i) as Hm.
  { intros i Hi'. apply shiftl_ones_bit; lia. }
  eexists. split.
  - f_equal. f_equal.
    assert (0 <= Z.land (bits m o) mask < 2 ^ 32) as Hl.
    { replace (Z.land (bits m o) mask) with (Z.ldiff (bits m o) (Z.lnot mask))
        by (by rewrite Z.ldiff_land, Z.lnot_involutive). by apply ldiff_range. }
    rewrite leaf_count_spec; [|done|].
    + rewrite Z.add_0_l, (count_extend n) by
        (lia || (intros j Hj; cbn [cons] in C; by rewrite Z.land_spec, C)).
      apply count_free_ext. intros j Hj. cbn [bfree]. by rewrite Z.land_spec, Hm by lia.
    + pose proof (count_bounds 32 (Z.testbit (Z.land (bits m o) mask))). lia.
  - rewrite land_lnot. eapply step_ext; [apply (leaf_set m o n (Z.ldiff (bits m o) mask) _ S)|].
    + by apply ldiff_range.
    + intros j Hj. cbn [cons] in C. by rewrite Z.ldiff_spec, C.
    + rewrite set_bitmap_bits; [done | by apply ldiff_range].
    + done.
    + intros j Hj. cbn beta. by rewrite Z.ldiff_spec, Hm by lia.
Qed.
