(* ===== verification/BlistAlloc.v ===== *)
(** The nodes of [Blist]: giving the children of a node their values, and what
    allocation does to the free blocks of a subtree. *)

From stdpp Require Import base list.
From S2P Require Import Prelude Blist.
From S2P Require Import BlistTree.
From S2P Require Import BlistLeaf.

(** ** Initialising the children *)

Lemma kid_index d o c : o + (1 + c * (skipd d + 1)) = kid d o c.
Proof. unfold kid. lia. Qed.

Lemma kid_next d c : 1 + c * (skipd d + 1) + (skipd d + 1) = 1 + (c + 1) * (skipd d + 1).
Proof. lia. Qed.

Lemma kid_more d c : 0 <= c <= 16 -> (1 + c * (skipd d + 1) <=? skipd (S d)) = (c <? 16).
Proof. intros Hc. pose proof (skipd_nonneg d). cbn [skipd]. destruct (Z.ltb_spec c 16); zcase; nia. Qed.

(** The slots that the loop gives a value, from child [c] on. *)
Definition is_kid (d : nat) (o n c i : Z) : Prop :=
  exists c', c <= c' < 16 /\ c' * radixd d < n /\ i = kid d o c'.

Lemma init_kids_spec d leaf meta m o n fuel c m1 :
  skel (S d) m o n -> 0 <= c <= 16 -> 16 - c < Z.of_nat fuel -> (c = 0 \/ (c - 1) * radixd d < n) ->
  0 < n ->
  zlength m1 = zlength m -> (forall i, kid d o c <= i -> node m1 i = node m i) ->
  exists m2, init_kids fuel leaf meta m1 o (1 + c * (skipd d + 1)) (skipd (S d)) (skipd d + 1) = Ok m2 /\
    zlength m2 = zlength m /\
    (forall c', c <= c' < 16 -> c' * radixd d < n ->
      node m2 (kid d o c') = (match d with O => leaf | S _ => meta end) (node m1 (kid d o c'))) /\
    (forall i, 0 <= i -> ~ is_kid d o n c i -> node m2 i = node m1 i).
Proof.
  intros S Hc Hf Hp Hn. revert c m1 Hc Hf Hp. pose proof (radixd_pos d). pose proof (skipd_nonneg d).
  apply skel_kids in S as (Hi & Hh & Hs & He).
  induction fuel as [|fuel IH]; intros c m1 Hc Hf Hp L1 A1; [lia|].
  cbn [init_kids]. rewrite kid_more by done. destruct (Z.ltb_spec c 16) as [Hlt|Hge]; cycle 1.
  { eexists. split_and!; [done | done | |done]. intros c' Hc' _. lia. }
  rewrite kid_index.
  destruct (kid_range d o c) as [Hr _]; [lia|]. assert (0 <= o) by apply Hi.
  assert (in_tree m (kid d o c)) as Hin.
  { destruct (Z.lt_ge_cases (c * radixd d) n); [by apply (skel_in d m _ _ (Hs c ltac:(lia) ltac:(done)))|].
    apply He; [lia|]. destruct Hp as [->|]; [lia|lia]. }
  assert (in_tree m1 (kid d o c)) as Hin1 by (by eapply in_tree_length).
  rewrite bl_get_ok, bind_Ok, A1 by (done || lia).
  destruct (Z.lt_ge_cases (c * radixd d) n) as [Hpr|Hpr].
  - destruct (skel_in d m _ _ (Hs c ltac:(lia) Hpr)) as [_ Hh'].
    rewrite (proj2 (Z.eqb_neq _ _)) by lia. rewrite bl_upd_ok, bind_Ok, next_skip_leaf by done.
    set (g := if match d with O => true | S _ => false end then leaf else meta).
    assert (g = match d with O => leaf | S _ => meta end) as Eg by (unfold g; by destruct d).
    rewrite kid_next.
    destruct (IH (c + 1) (aset m1 (kid d o c) (g (node m1 (kid d o c))))) as (m2 & Hm2 & L2 & K2 & O2);
      [lia | lia | right; by replace (c + 1 - 1) with c by lia | by rewrite zlength_aset | |].
    { intros i Hi'. pose proof (kid_sep d o c (c + 1)). rewrite node_aset_ne by lia. apply A1. lia. }
    exists m2. split_and!; [exact Hm2 | done | |].
    + intros c' Hc' Hp'. destruct (decide (c' = c)) as [->|Hne].
      * rewrite O2; [by rewrite node_aset_eq, Eg by done | lia |].
        intros (c'' & ? & _ & E). pose proof (kid_sep d o c c''). lia.
      * rewrite K2 by (done || lia). rewrite node_aset_ne; [done | |]; pose proof (kid_sep d o c c'); lia.
    + intros i Hi0 Hno. rewrite O2; [|done|].
      * apply node_aset_ne; [|done]. intros <-. apply Hno. exists c. split_and!; [lia | lia | done | done].
      * intros (c' & ? & ? & ->). apply Hno. exists c'. split_and!; [lia | lia | done | done].
  - destruct (He c) as [_ Hneg]; [lia | destruct Hp as [->|]; lia |]. rewrite Hneg, Z.eqb_refl.
    exists m1. split_and!; [done | done | |done]. intros c' Hc' Hp'. nia.
Qed.

(** The children take values under which a whole subtree is all free or all
    allocated. *)
Lemma init_kids_ok d leaf meta m o n (b : bool) :
  skel (S d) m o n -> 0 < n <= radixd (S d) -> (b = true -> n = radixd (S d)) ->
  (forall s, bmu_bitmap (leaf s) = (if b then all_ones else 0) /\ 0 <= bm_bighint (leaf s)) ->
  (d <> O -> forall s, bm_u (meta s) = (if b then radixd d else 0) /\ 0 <= bm_bighint (meta s)) ->
  exists m', init_kids 17 leaf meta m o 1 (skipd (S d)) (skipd d + 1) = Ok m' /\
    kids_ok d m' o n /\ node m' o = node m o /\ changed_in m m' (o + 1) (o + skipd (S d)) /\
    forall j, 0 <= j < n -> kfree d m' o j = b.
Proof.
  intros S Hn Hb Hl Hm. pose proof (radixd_pos d). pose proof (skipd_nonneg d).
  destruct (init_kids_spec d leaf meta m o n 17 0 m S) as (m' & E & L & K & O);
    [lia | lia | by left | lia | done | done |].
  apply skel_kids in S as (Hi & Hh & Hs & He). assert (0 <= o) by apply Hi.
  assert (forall c, 0 <= c < 16 -> c * radixd d < n ->
    0 <= hint m' (kid d o c) /\
    match d with O => bits m' (kid d o c) = (if b then all_ones else 0)
    | S _ => avail m' (kid d o c) = (if b then radixd d else 0) end) as Hk.
  { intros c Hc Hp. rewrite K by (done || lia). destruct d as [|d']; [split; apply Hl|].
    split; by apply Hm. }
  assert (forall c i, 0 <= c < 16 -> kid d o c < i <= kid d o c + skipd d -> node m' i = node m i) as Hsub.
  { intros c i Hc Hr. destruct (kid_range d o c Hc). apply O; [lia|]. intros (c' & ? & _ & ->).
    destruct (Z.lt_total c c') as [Hl'|[->|Hl']]; [|lia|];
      [pose proof (kid_sep d o c c' Hl') | pose proof (kid_sep d o c' c Hl')]; lia. }
  exists m'. change (1 + 0 * (skipd d + 1)) with 1 in E. split_and!; [exact E | | | |].
  - constructor.
    + intros c Hc Hp. destruct (Hk c Hc Hp) as [Hk1 _].
      apply (skel_root d m); [by apply Hs | done | done |]. intros i Hr. by apply (Hsub c).
    + intros c Hc Hp. destruct (Hk c Hc Hp) as [_ Hk2]. destruct d as [|d'].
      * cbn [cons]. rewrite Hk2. destruct b; [|intros j _; apply Z.bits_0].
        rewrite (Hb eq_refl). unfold kidn. cbn [radixd] in *. lia.
      * apply cons_kids. rewrite Hk2. destruct b; [|by left]. right. left. split; [done|].
        rewrite (Hb eq_refl). unfold kidn. change (radixd (S (S d'))) with (16 * radixd (S d')). nia.
    + intros c Hc Hp. destruct (He c Hc Hp) as [Hin Hneg].
      split; [by eapply in_tree_length|]. destruct (kid_range d o c Hc).
      rewrite O; [done | lia |]. intros (c' & ? & ? & E'). assert (c' < c) as Hlt by nia.
      pose proof (kid_sep d o c' c Hlt). lia.
  - apply O; [lia|]. intros (c' & ? & _ & E'). destruct (kid_range d o c'); lia.
  - split; [done|]. intros i Hi0 Hr. apply O; [done|]. intros (c' & ? & _ & ->).
    destruct (kid_range d o c'); lia.
  - intros j Hj. destruct (block_kid d j) as (Hq & Hr & Ej); [lia|]. unfold kfree.
    destruct (Hk (j / radixd d) Hq) as [_ Hk2]; [lia|]. destruct d as [|d'].
    + cbn [bfree]. rewrite Hk2. destruct b; [|apply Z.bits_0]. change all_ones with (Z.ones 32).
      cbn [radixd] in Hr |- *. rewrite testbit_ones by lia. by ztest.
    + rewrite bfree_node, Hk2. pose proof (radixd_pos (S d')). destruct b; [|done].
      ztest. done.
Qed.

Lemma init_free_ok d m o :
  skel (S d) m o (radixd (S d)) ->
  exists m', init_free m o (skipd (S d)) (skipd d + 1) (radixd d) = Ok m' /\
    kids_ok d m' o (radixd (S d)) /\ node m' o = node m o /\
    changed_in m m' (o + 1) (o + skipd (S d)) /\
    forall j, 0 <= j < radixd (S d) -> kfree d m' o j = true.
Proof.
  intros Sk. pose proof (radixd_pos (S d)). pose proof (radixd_pos d). unfold init_free.
  apply init_kids_ok; [done | lia | done | |].
  - intros s. split; [|done]. apply (set_bitmap_bits all_ones). done.
  - intros _ s. cbn [set_avail set_bighint bm_u bm_bighint]. lia.
Qed.

Lemma init_alloc_ok d m o n :
  skel (S d) m o n -> 0 < n <= radixd (S d) ->
  exists m', init_alloc m o (skipd (S d)) (skipd d + 1) = Ok m' /\
    kids_ok d m' o n /\ node m' o = node m o /\
    changed_in m m' (o + 1) (o + skipd (S d)) /\
    forall j, 0 <= j < n -> kfree d m' o j = false.
Proof.
  intros Sk Hn. unfold init_alloc. apply init_kids_ok; [done | done | done | |].
  - intros s. split; [|done]. by apply (set_bitmap_bits 0).
  - intros _ s. done.
Qed.

(** ** Allocation *)

(** What a call on a child must do. *)
Definition alloc_call (d : nat) (count : Z) (call : tree -> Z -> Z -> result (Z * tree)) : Prop :=
  forall m o n blk, skel d m o n -> cons d m o n -> 0 < n <= radixd d -> 0 <= blk ->
  blk + radixd d <= SWAPBLK_NONE ->
  exists r m', call m o blk = Ok (r, m') /\ alloc_res d m m' o n blk count r.

(** The parent's slot is not the children's. *)
Lemma parent_upd d m o n v :
  kids_ok d m o n -> in_tree m o -> 0 < n <= radixd (S d) ->
  kids_ok d (aset m o v) o n /\ in_tree (aset m o v) o /\ node (aset m o v) o = v /\
  changed_in m (aset m o v) o (o + skipd (S d)) /\
  forall j, 0 <= j < radixd (S d) -> kfree d (aset m o v) o j = kfree d m o j.
Proof.
  intros K Hi Hn. pose proof (skipd_nonneg (S d)). assert (0 <= o) by apply Hi.
  destruct (kids_agree d m (aset m o v) o n) as [K' F]; [apply agree_aset; lia | lia | lia | done |].
  split_and!; [done | by eapply in_tree_length; [apply zlength_aset|] | by apply node_aset_eq |
    apply changed_aset; lia | done].
Qed.

Lemma alloc_kids_spec d count call m o n blk fuel c :
  alloc_call d count call -> kids_ok d m o n -> in_tree m o -> 0 <= hint m o ->
  0 < n <= radixd (S d) -> avail m o = n_free n (kfree d m o) -> 1 <= count <= 32 ->
  0 <= blk -> blk + radixd (S d) <= SWAPBLK_NONE ->
  0 <= c <= 16 -> 16 - c < Z.of_nat fuel -> (c = 0 \/ (c - 1) * radixd d < n) ->
  exists r m', alloc_kids call fuel m o (1 + c * (skipd d + 1)) (skipd (S d)) (skipd d + 1)
      (blk + c * radixd d) (radixd d) count = Ok (r, m') /\
    changed_in m m' o (o + skipd (S d)) /\ in_tree m' o /\ 0 <= hint m' o /\ kids_ok d m' o n /\
    ((r = SWAPBLK_NONE /\ avail m' o = avail m o /\ forall j, 0 <= j < n -> kfree d m' o j = kfree d m o j) \/
     (exists a, r = blk + a /\ 0 <= a /\ a + count <= n /\ avail m' o = avail m o - count /\
       (forall j, a <= j < a + count -> kfree d m o j = true) /\
       forall j, 0 <= j < n -> kfree d m' o j = kfree d m o j && negb (in_range a count j))).
Proof.
  intros Hcall. pose proof (radixd_pos d). pose proof (skipd_nonneg d). revert m c.
  induction fuel as [|fuel IH]; intros m c K Hi Hh Hn Ha Hc Hb Hb2 Hr Hf Hp; [lia|].
  assert (0 <= o) by apply Hi.
  (* the loop ends without success *)
  assert (exists r m',
    (m ← bl_upd m o (fun s => if count <=? bm_bighint s then set_bighint (count - 1) s else s);
     Ok (SWAPBLK_NONE, m)) = Ok (r, m') /\
    changed_in m m' o (o + skipd (S d)) /\ in_tree m' o /\ 0 <= hint m' o /\ kids_ok d m' o n /\
    r = SWAPBLK_NONE /\ avail m' o = avail m o /\ forall j, 0 <= j < n -> kfree d m' o j = kfree d m o j) as Hfail.
  { rewrite bl_upd_ok, bind_Ok by done. eexists _, _. split; [done|].
    destruct (parent_upd d m o n (if count <=? hint m o then set_bighint (count - 1) (node m o) else node m o)
      K Hi Hn) as (K' & Hi' & Hv & Ch & F).
    rewrite Hv. split_and!; try done; [zcase; cbn; lia | zcase; done |]. intros j Hj. apply F. lia. }
  cbn [alloc_kids]. rewrite kid_more by done. destruct (Z.ltb_spec c 16) as [Hlt|Hge]; cycle 1.
  { destruct Hfail as (r & m' & E & ?). rewrite E. exists r, m'. intuition. }
  rewrite kid_index. destruct (kid_range d o c) as [Hr1 Hr2]; [lia|].
  destruct (Z.lt_ge_cases (c * radixd d) n) as [Hpr|Hpr]; cycle 1.
  { destruct (ko_term _ _ _ _ K c) as [Hin Hneg]; [lia | destruct Hp as [->|]; lia |].
    rewrite bl_get_ok, bind_Ok by done. rewrite Hneg, Z.eqb_refl. ztest.
    destruct Hfail as (r & m' & E & ?). rewrite E. exists r, m'. intuition. }
  pose proof (ko_skel _ _ _ _ K c ltac:(lia) Hpr) as Sk. pose proof (ko_cons _ _ _ _ K c ltac:(lia) Hpr) as Co.
  destruct (skel_in d m _ _ Sk) as [Hin Hh']. rewrite bl_get_ok, bind_Ok by done.
  rewrite (proj2 (Z.eqb_neq (hint m (kid d o c)) (-1))) by lia.
  rewrite kid_next. replace (blk + c * radixd d + radixd d) with (blk + (c + 1) * radixd d) by lia.
  assert (c + 1 - 1 = c) as Ec by lia.
  destruct (Z.leb_spec count (hint m (kid d o c))) as [Hle|Hgt]; cycle 1.
  { ztest. apply IH; try done; [lia | lia | right; by rewrite Ec]. }
  assert (0 < kidn d n c <= radixd d) as Hkn by (unfold kidn; lia).
  assert (c * radixd d + radixd d <= radixd (S d)) as Hcr by (cbn [radixd]; nia).
  destruct (Hcall m (kid d o c) (kidn d n c) (blk + c * radixd d) Sk Co Hkn) as (r & m1 & -> & Hres); [nia | lia|].
  rewrite bind_Ok. destruct Hres as [[-> St]|(a & -> & Ha0 & Han & Hfr & St)].
  - (* the child has no room *)
    rewrite Z.eqb_refl. cbn [negb].
    destruct (step_kid d m m1 o n c _ K ltac:(lia) Hn ltac:(lia) Hpr St) as (K1 & Ho & Ch1 & F1).
    assert (forall j, 0 <= j < n -> kfree d m1 o j = kfree d m o j) as F1'.
    { intros j Hj. rewrite F1 by done. unfold kfree. by destruct (Z.eqb_spec (j / radixd d) c) as [->|]. }
    destruct (IH m1 (c + 1)) as (r & m' & E & Ch & Hi' & Hh1 & K' & Hres); try done.
    + by eapply in_tree_length; [apply Ch1|].
    + by rewrite Ho.
    + rewrite Ho, Ha. apply count_free_ext. intros j Hj. by rewrite F1'.
    + lia.
    + lia.
    + right. by rewrite Ec.
    + exists r, m'. rewrite Ho in Hres. split_and!; try done.
      * eapply changed_trans; [eapply changed_weaken; [exact Ch1 | lia | lia] | exact Ch].
      * destruct Hres as [(? & ? & F)|(a & ? & ? & ? & ? & Hfr & F)]; [left | right; exists a]; split_and!; try done.
        -- intros j Hj. by rewrite F, F1'.
        -- intros j Hj. rewrite <- F1' by lia. by apply Hfr.
        -- intros j Hj. by rewrite F, F1'.
  - (* taken there *)
    rewrite (proj2 (Z.eqb_neq (blk + c * radixd d + a) SWAPBLK_NONE)) by (unfold kidn in Han; lia).
    cbn [negb].
    destruct (step_kid d m m1 o n c _ K ltac:(lia) Hn ltac:(lia) Hpr St) as (K1 & Ho & Ch1 & F1).
    assert (in_tree m1 o) as Hi1 by (by eapply in_tree_length; [apply Ch1|]).
    rewrite bl_upd_ok, bind_Ok, Ho by done.
    assert (forall j, 0 <= j < n -> kfree d m1 o j = kfree d m o j && negb (in_range (c * radixd d + a) count j)) as F1'.
    { intros j Hj. rewrite F1, in_range_kid by (unfold kidn in Han; lia). unfold kfree.
      destruct (Z.eqb_spec (j / radixd d) c) as [->|]; [done|]. by rewrite andb_true_r. }
    assert (forall j, c * radixd d + a <= j < c * radixd d + a + count -> kfree d m o j = true) as Hfr'.
    { intros j Hj. unfold kfree. destruct (kid_block d c (j - c * radixd d)) as [E1 E2]; [unfold kidn in Han; lia|].
      replace (c * radixd d + (j - c * radixd d)) with j in * by lia. rewrite E1, E2. apply Hfr. lia. }
    assert (n_free n (kfree d m1 o) = avail m o - count) as Ha1.
    { rewrite (count_free_ext n _ _ F1'), count_diff, (count_range n (c * radixd d + a) count), Ha;
        [done | nia | lia | unfold kidn in Han; lia |].
      intros j Hj Hr'. apply in_range_iff in Hr'. by apply Hfr'. }
    match goal with |- context [aset m1 o ?v] => set (w := v) end.
    destruct (parent_upd d m1 o n w K1 Hi1 Hn) as (K' & Hi' & Hv & Ch & F).
    pose proof (count_bounds n (kfree d m1 o) ltac:(lia)).
    eexists _, _. split; [done|]. rewrite Hv. split_and!; try done.
    + eapply changed_trans; [eapply changed_weaken; [exact Ch1 | lia | lia] | exact Ch].
    + unfold w. cbn [bm_bighint bmu_avail]. unfold bmu_avail. zcase; lia.
    + right. exists (c * radixd d + a). split_and!; try done; [lia | nia | unfold kidn in Han; lia |].
      intros j Hj. rewrite F by lia. by apply F1'.
Qed.

(** Opening a node that has free blocks: its children are in order, the node
    is as it was. *)
Lemma open_node d m o n :
  skel (S d) m o n -> cons (S d) m o n -> 0 < n <= radixd (S d) -> avail m o <> 0 ->
  exists m1, (if avail m o =? radixd (S d) then
      init_free m o (skipd (S d)) (skipd d + 1) (radixd d) else Ok m) = Ok m1 /\
    changed_in m m1 o (o + skipd (S d)) /\ in_tree m1 o /\ node m1 o = node m o /\ kids_ok d m1 o n /\
    forall j, 0 <= j < n -> kfree d m1 o j = bfree (S d) m o j.
Proof.
  intros Sk Co Hn E0. destruct (skel_in (S d) m o n Sk) as [Hi Hh].
  pose proof (avail_count d m o n Co Hn) as Hcount. pose proof (radixd_pos (S d)).
  destruct (Z.eqb_spec (avail m o) (radixd (S d))) as [E|E].
  - assert (n = radixd (S d)) as -> by
      (pose proof (count_bounds n (bfree (S d) m o) ltac:(lia)); lia).
    destruct (init_free_ok d m o Sk) as (m1 & -> & K & Ho & Ch & F). exists m1.
    split_and!; try done.
    + eapply changed_weaken; [exact Ch | lia | lia].
    + by eapply in_tree_length; [apply Ch|].
    + intros j Hj. rewrite F by done. rewrite bfree_node, E. by ztest.
  - exists m. apply (proj1 (cons_kids _ _ _ _)) in Co as [?|[[? ?]|[Ck Ha]]]; [done | done |].
    apply skel_kids in Sk as (_ & _ & Sk & Te). split_and!; try done.
    intros j Hj. symmetry. by eapply bfree_kids.
Qed.

(** A call on a subtree, as its parent makes it. *)
Definition alloc_node (d fuel : nat) (count : Z) (m : tree) (o blk : Z) : result (Z * tree) :=
  if skipd d + 1 =? 1 then blst_leaf_alloc m o blk count
  else blst_meta_alloc fuel m o blk count (radixd d) (skipd d + 1 - 1).

Lemma meta_alloc_unfold d fuel count m o blk :
  blst_meta_alloc (S fuel) m o blk count (radixd (S d)) (skipd (S d)) =
  (s ← bl_get m o;
   if bmu_avail s =? 0 then
     m ← bl_upd m o (set_bighint count); Ok (SWAPBLK_NONE, m)
   else
     m ← (if bmu_avail s =? radixd (S d) then init_free m o (skipd (S d)) (skipd d + 1) (radixd d) else Ok m);
     alloc_kids (alloc_node d fuel count) 17 m o (1 + 0 * (skipd d + 1)) (skipd (S d)) (skipd d + 1)
       (blk + 0 * radixd d) (radixd d) count).
Proof.
  cbn [blst_meta_alloc]. rewrite quot_skip, quot_radix. cbv zeta.
  replace (1 + 0 * (skipd d + 1)) with 1 by lia. replace (blk + 0 * radixd d) with blk by lia. done.
Qed.

Lemma alloc_node_spec d fuel count :
  (d <= fuel)%nat -> 1 <= count <= 32 -> alloc_call d count (alloc_node d fuel count).
Proof.
  intros Hf Hc. revert fuel Hf. induction d as [|d IH]; intros fuel Hf m o n blk Sk Co Hn Hb Hb2.
  { change (alloc_node 0 fuel count m o blk) with (blst_leaf_alloc m o blk count).
    by apply leaf_alloc_spec. }
  destruct fuel as [|fuel]; [lia|]. pose proof (skipd_nonneg d). pose proof (radixd_pos d).
  unfold alloc_node. rewrite next_skip_leaf. replace (skipd (S d) + 1 - 1) with (skipd (S d)) by lia.
  rewrite meta_alloc_unfold.
  destruct (skel_in (S d) m o n Sk) as [Hi Hh]. rewrite bl_get_ok, bind_Ok by done. unfold bmu_avail.
  destruct (Z.eqb_spec (avail m o) 0) as [E0|E0].
  { rewrite bl_upd_ok, bind_Ok by done. eexists _, _. split; [done|]. left. split; [done|].
    set (v := set_bighint count (node m o)).
    assert (node (aset m o v) o = v) as Hv by by apply node_aset_eq. constructor.
    - apply changed_aset. pose proof (skipd_nonneg (S d)). lia.
    - apply (skel_root (S d) m); [done | apply zlength_aset | rewrite Hv; cbn; lia |].
      intros i Hi'. apply node_aset_ne; [lia|]. unfold in_tree in Hi. lia.
    - apply cons_kids. rewrite Hv. by left.
    - intros j Hj. rewrite !bfree_node, Hv. cbn [v set_bighint bm_u]. by rewrite E0. }
  destruct (open_node d m o n Sk Co Hn E0) as (m1 & -> & Ch & Hi1 & Ho & K & F).
  assert (avail m1 o = n_free n (kfree d m1 o)) as Ha.
  { rewrite Ho, (avail_count d m o n Co Hn). apply count_free_ext. intros j Hj. by rewrite F. }
  rewrite bind_Ok.
  destruct (alloc_kids_spec d count (alloc_node d fuel count) m1 o n blk 17 0)
    as (r & m' & -> & Ch' & Hi' & Hh' & K' & Hres); try done; try lia.
  { apply IH. lia. }
  { by rewrite Ho. }
  exists r, m'. split; [done|].
  assert (changed_in m m' o (o + skipd (S d))) as Chm by (by eapply changed_trans).
  destruct Hres as [(-> & Ha' & F')|(a & -> & Ha0 & Han & Ha' & Hfr & F')].
  - left. split; [done|]. eapply step_ext; [apply kids_step; try done|].
    + rewrite Ha', Ha. apply count_free_ext. intros j Hj. by rewrite F'.
    + intros j Hj. cbn beta. by rewrite F', F.
  - right. exists a. split_and!; try done.
    + intros j Hj. rewrite <- F by lia. by apply Hfr.
    + eapply step_ext; [apply kids_step; try done|].
      * rewrite Ha', Ha, (count_free_ext n _ _ F'), count_diff, (count_range n a count);
          [done | lia | lia | lia |]. intros j Hj Hr. apply in_range_iff in Hr. by apply Hfr.
      * intros j Hj. cbn beta. rewrite F', F by done. done.
Qed.
