(* ===== verification/BlistFree.v ===== *)
(** What freeing and filling do to the free blocks of a subtree of [Blist]. *)

From stdpp Require Import base list.
From S2P Require Import Prelude Blist.
From S2P Require Import BlistTree.
From S2P Require Import BlistLeaf.
From S2P Require Import BlistAlloc.

Lemma radixd_mod d : radixd d mod 32 = 0.
Proof.
  induction d as [|d IH]; [done|]. cbn [radixd].
  rewrite Z.mul_mod, IH, Z.mul_0_r by lia. done.
Qed.

(** Children start at multiples of 32. *)
Lemma kid_aligned d blk c : blk mod 32 = 0 -> (blk + c * radixd d) mod 32 = 0.
Proof.
  intros Hb. pose proof (radixd_mod d). rewrite Z.add_mod, Z.mul_mod, H, Hb, Z.mul_0_r by lia. done.
Qed.

Lemma aligned_mod blk f : blk mod 32 = 0 -> 0 <= f < 32 -> (blk + f) mod 32 = f.
Proof. intros Hb Hf. rewrite Z.add_mod, Hb, Z.add_0_l, Z.mod_mod by lia. by apply Z.mod_small. Qed.

(** The part of a range in a child, and the rest. *)
Lemma in_range_split f k v j : 0 <= v <= k -> in_range f k j = in_range f v j || in_range (f + v) (k - v) j.
Proof.
  intros Hv. apply eq_true_iff_eq. rewrite orb_true_iff, !in_range_iff. lia.
Qed.

(** A range is walked from child [c] on. *)
Definition walk (d : nat) (c f k : Z) : Prop :=
  0 <= f /\ 0 <= k /\ (0 < k -> c * radixd d <= f < (c + 1) * radixd d) /\ (k = 0 -> f <= c * radixd d).

Lemma walk_next d c f k :
  walk d c f k -> 0 < k -> let v := Z.min k ((c + 1) * radixd d - f) in
  1 <= v <= k /\ f + v <= (c + 1) * radixd d /\ walk d (c + 1) (f + v) (k - v).
Proof.
  pose proof (radixd_pos d). intros (H0 & H1 & H2 & H3) Hk v. specialize (H2 Hk).
  assert (1 <= v <= k) by lia. split; [done|]. split; [lia|]. unfold walk.
  split_and!; try lia.
Qed.

(** The first child of a range. *)
Lemma walk_start d f k : 0 <= f -> 1 <= k -> walk d (f / radixd d) f k.
Proof.
  intros Hf Hk. pose proof (radixd_pos d). pose proof (Z.div_mod f (radixd d) ltac:(lia)).
  pose proof (Z.mod_pos_bound f (radixd d) ltac:(lia)). unfold walk. split_and!; lia.
Qed.

(** ** Freeing *)

Definition free_call (d : nat) (call : tree -> Z -> Z -> Z -> Z -> result tree) : Prop :=
  forall m o n f v blk, skel d m o n -> cons d m o n -> 0 < n <= radixd d -> 0 <= blk -> blk mod 32 = 0 ->
  0 <= f -> 1 <= v -> f + v <= n -> (forall j, f <= j < f + v -> bfree d m o j = false) ->
  exists m', call m o (blk + f) v blk = Ok m' /\ step d m m' o n (fun j => bfree d m o j || in_range f v j).

Lemma free_kids_spec d call m o n blk fuel c f k :
  free_call d call -> kids_ok d m o n -> in_tree m o -> 0 <= hint m o -> 0 < n <= radixd (S d) ->
  0 <= blk -> blk mod 32 = 0 -> 0 <= c <= 16 -> 16 - c < Z.of_nat fuel -> walk d c f k -> f + k <= n ->
  (forall j, f <= j < f + k -> kfree d m o j = false) ->
  exists m', free_kids call fuel m o (1 + c * (skipd d + 1)) (skipd (S d)) (skipd d + 1)
      (blk + c * radixd d) (radixd d) (blk + f) k = Ok m' /\
    changed_in m m' o (o + skipd (S d)) /\ in_tree m' o /\ 0 <= hint m' o /\ kids_ok d m' o n /\
    avail m' o = avail m o /\
    forall j, 0 <= j < n -> kfree d m' o j = kfree d m o j || in_range f k j.
Proof.
  intros Hcall. pose proof (radixd_pos d). pose proof (skipd_nonneg d). revert m c f k.
  induction fuel as [|fuel IH]; intros m c f k K Hi Hh Hn Hb Hal Hc Hf W Hfn Hfree; [lia|].
  cbn [free_kids]. rewrite kid_more by done.
  destruct (decide (k = 0)) as [->|Hk].
  { assert (f <= c * radixd d) by (destruct W as (_ & _ & _ & W); by apply W).
    rewrite (proj2 (Z.ltb_ge (blk + c * radixd d) (blk + f + 0))), andb_false_r by lia.
    exists m. split_and!; try done. intros j Hj.
    assert (in_range f 0 j = false) as -> by (apply not_true_iff_false; rewrite in_range_iff; lia).
    by rewrite orb_false_r. }
  assert (0 < k) as Hk0 by (destruct W; lia).
  assert (c * radixd d <= f < (c + 1) * radixd d) as Hcf by (by apply W).
  assert (c < 16) as Hc16. { cbn [radixd] in Hn. nia. }
  rewrite (proj2 (Z.ltb_lt c 16)), (proj2 (Z.ltb_lt _ _)) by lia. cbn [andb].
  destruct (walk_next d c f k W Hk0) as (Hv & Hfv & W').
  set (v := Z.min k ((c + 1) * radixd d - f)) in *.
  assert ((if k <? blk + c * radixd d + radixd d - (blk + f) then k
           else blk + c * radixd d + radixd d - (blk + f)) = v) as -> by (unfold v; zcase; lia).
  cbv zeta. rewrite bl_get_ok, bind_Ok by done.
  rewrite (proj2 (Z.eqb_neq (hint m o) (-1))) by lia. rewrite kid_index.
  assert (c * radixd d < n) as Hpr by lia.
  destruct (Hcall m (kid d o c) (kidn d n c) (f - c * radixd d) v (blk + c * radixd d)
    (ko_skel _ _ _ _ K c ltac:(lia) Hpr) (ko_cons _ _ _ _ K c ltac:(lia) Hpr)) as (m1 & E1 & St);
    [unfold kidn; lia | nia | by apply kid_aligned | lia | lia | unfold kidn; lia | |].
  { intros j Hj. destruct (kid_block d c j) as [Q1 Q2]; [lia|].
    specialize (Hfree (c * radixd d + j) ltac:(lia)). unfold kfree in Hfree. by rewrite Q1, Q2 in Hfree. }
  replace (blk + c * radixd d + (f - c * radixd d)) with (blk + f) in E1 by lia. rewrite E1, bind_Ok.
  assert (0 <= o) by apply Hi.
  destruct (step_kid d m m1 o n c _ K ltac:(lia) Hn ltac:(lia) Hpr St) as (K1 & Ho & Ch1 & F1).
  assert (in_tree m1 o) as Hi1 by (by eapply in_tree_length; [apply Ch1|]).
  destruct (skel_in d m1 _ _ (st_skel _ _ _ _ _ _ St)) as [Hin1 Hh1].
  rewrite bl_get_ok, bind_Ok by done. rewrite bl_upd_ok, bind_Ok by done.
  match goal with |- context [aset m1 o ?v] => set (w := v) end.
  destruct (parent_upd d m1 o n w K1 Hi1 Hn) as (K2 & Hi2 & Hv2 & Ch2 & F2).
  assert (0 <= bm_bighint w /\ bm_u w = avail m o) as [Hw1 Hw2].
  { unfold w. rewrite Ho. zcase; cbn [set_bighint bm_bighint bm_u]; split; try done; lia. }
  assert (forall j, 0 <= j < n -> kfree d (aset m1 o w) o j = kfree d m o j || in_range f v j) as F12.
  { intros j Hj. rewrite F2, F1 by lia.
    replace (in_range f v j) with (in_range (c * radixd d + (f - c * radixd d)) v j) by (f_equal; lia).
    rewrite in_range_kid by lia. unfold kfree.
    destruct (Z.eqb_spec (j / radixd d) c) as [->|]; [done|]. by rewrite orb_false_r. }
  rewrite kid_next. replace (blk + c * radixd d + radixd d) with (blk + (c + 1) * radixd d) by lia.
  replace (blk + f + v) with (blk + (f + v)) by lia.
  destruct (IH (aset m1 o w) (c + 1) (f + v) (k - v)) as (m' & E & Ch & Hi' & Hh' & K' & Ha' & F);
    try done; try lia.
  - by rewrite Hv2.
  - intros j Hj. rewrite F12 by lia. rewrite Hfree by lia. cbn [orb].
    apply not_true_iff_false. rewrite in_range_iff. lia.
  - exists m'. split_and!; try done.
    + eapply changed_trans; [|exact Ch]. eapply changed_trans; [|exact Ch2].
      eapply changed_weaken; [exact Ch1 | lia | lia].
    + by rewrite Ha', Hv2.
    + intros j Hj. rewrite F, F12 by done. by rewrite (in_range_split f k v), orb_assoc by lia.
Qed.

Definition free_node (d fuel : nat) (m : tree) (o freeBlk v blk : Z) : result tree :=
  if skipd d + 1 =? 1 then blst_leaf_free m o freeBlk v
  else blst_meta_free fuel m o freeBlk v (radixd d) (skipd d + 1 - 1) blk.

Lemma meta_free_unfold d fuel m o blk f count :
  0 <= f ->
  blst_meta_free (S fuel) m o (blk + f) count (radixd (S d)) (skipd (S d)) blk =
  (s ← bl_get m o;
   m ← (if bmu_avail s =? 0 then
          m ← bl_upd m o (fun _ => MkBlmeta count count);
          if negb (count =? radixd (S d)) then init_alloc m o (skipd (S d)) (skipd d + 1) else Ok m
        else bl_upd m o (fun s => set_avail (bmu_avail s + count) s));
   s ← bl_get m o;
   if bmu_avail s =? radixd (S d) then Ok m
   else if radixd (S d) <? bmu_avail s then Panic "blst_meta_free: freeing already free blocks"
   else
     free_kids (free_node d fuel) 17 m o (1 + f / radixd d * (skipd d + 1)) (skipd (S d)) (skipd d + 1)
       (blk + f / radixd d * radixd d) (radixd d) (blk + f) count).
Proof.
  intros Hf. cbn [blst_meta_free]. rewrite quot_skip, quot_radix. cbv zeta.
  replace (blk + f - blk) with f by lia. pose proof (radixd_pos d).
  rewrite Z.quot_div_nonneg by lia.
  replace (f / radixd d * (skipd d + 1) + 1) with (1 + f / radixd d * (skipd d + 1)) by lia. done.
Qed.

(** Freeing what is not free leaves room in the count. *)
Lemma free_count n f k g :
  0 <= f -> 0 <= k -> f + k <= n -> (forall j, f <= j < f + k -> g j = false) ->
  n_free n (fun j => g j || in_range f k j) = n_free n g + k.
Proof.
  intros Hf Hk Hn Hg. rewrite count_add, count_range; [done | lia | lia | lia |].
  intros j Hj Hgj. apply not_true_iff_false. rewrite in_range_iff. intros Hr.
  rewrite Hg in Hgj by lia. discriminate.
Qed.

Lemma free_node_spec d fuel : (d <= fuel)%nat -> free_call d (free_node d fuel).
Proof.
  revert fuel. induction d as [|d IH]; intros fuel Hfu m o n f k blk Sk Co Hn Hb Hal Hf Hk Hfn Hfree.
  { change (free_node 0 fuel m o (blk + f) k blk) with (blst_leaf_free m o (blk + f) k).
    cbn [radixd] in Hn. pose proof (aligned_mod blk f Hal ltac:(lia)) as Em.
    pose proof (leaf_free_spec m o n (blk + f) k Sk Co) as H. rewrite Em in H.
    apply H; try lia; done. }
  destruct fuel as [|fuel]; [lia|]. pose proof (skipd_nonneg d). pose proof (radixd_pos d).
  pose proof (radixd_pos (S d)). pose proof (skipd_nonneg (S d)).
  unfold free_node. rewrite next_skip_leaf. replace (skipd (S d) + 1 - 1) with (skipd (S d)) by lia.
  rewrite meta_free_unfold by done.
  destruct (skel_in (S d) m o n Sk) as [Hi Hh]. rewrite bl_get_ok, bind_Ok by done. unfold bmu_avail.
  pose proof (avail_count d m o n Co Hn) as Hcount.
  pose proof (free_count n f k (bfree (S d) m o) Hf ltac:(lia) Hfn Hfree) as Hfc.
  pose proof (count_bounds n (fun j => bfree (S d) m o j || in_range f k j) ltac:(lia)) as Hbd.
  pose proof (count_bounds n (bfree (S d) m o) ltac:(lia)) as Hbd0.
  (* the count is raised; unless the node is now all free its children are in order *)
  assert (exists m1, (if avail m o =? 0 then
        m ← bl_upd m o (fun _ => MkBlmeta k k);
        if negb (k =? radixd (S d)) then init_alloc m o (skipd (S d)) (skipd d + 1) else Ok m
      else bl_upd m o (fun s => set_avail (bm_u s + k) s)) = Ok m1 /\
    changed_in m m1 o (o + skipd (S d)) /\ skel (S d) m1 o n /\ avail m1 o = avail m o + k /\
    (avail m1 o <> radixd (S d) -> kids_ok d m1 o n /\
      forall j, 0 <= j < n -> kfree d m1 o j = bfree (S d) m o j)) as (m1 & -> & Ch & Sk1 & Ha1 & K1).
  { assert (forall v, 0 <= bm_bighint v -> skel (S d) (aset m o v) o n) as Hroot.
    { intros v Hv. apply (skel_root (S d) m); [done | apply zlength_aset | by rewrite node_aset_eq |].
      intros i Hi'. apply node_aset_ne; [lia|]. unfold in_tree in Hi. lia. }
    assert (forall v, changed_in m (aset m o v) o (o + skipd (S d))) as Hch
      by (intros v; apply changed_aset; lia).
    destruct (Z.eqb_spec (avail m o) 0) as [E0|E0].
    - rewrite bl_upd_ok, bind_Ok by done.
      assert (in_tree (aset m o (MkBlmeta k k)) o) as Hi1 by (by eapply in_tree_length; [apply zlength_aset|]).
      destruct (Z.eqb_spec k (radixd (S d))) as [->|Hkr]; cbn [negb].
      + eexists. split_and!; [done | done | apply Hroot; cbn; lia | rewrite node_aset_eq by done; cbn; lia |].
        rewrite node_aset_eq by done. cbn [bm_u]. done.
      + destruct (init_alloc_ok d (aset m o (MkBlmeta k k)) o n) as (m1 & -> & K & Ho & Ch & F);
          [apply Hroot; cbn; lia | done |].
        exists m1. rewrite Ho, node_aset_eq by done. cbn [bm_u]. split_and!; [done | | | lia |].
        * eapply changed_trans; [apply Hch | eapply changed_weaken; [exact Ch | lia | lia]].
        * apply kids_skel; [by eapply in_tree_length; [apply Ch|] | rewrite Ho, node_aset_eq by done; cbn; lia | done].
        * intros _. split; [done|]. intros j Hj. rewrite F by done. rewrite bfree_node, E0. done.
    - rewrite bl_upd_ok by done. eexists. split_and!; [done | done | apply Hroot; cbn; lia |
        by rewrite node_aset_eq | ].
      rewrite node_aset_eq by done. cbn [set_avail bm_u]. intros Hne.
      apply (proj1 (cons_kids _ _ _ _)) in Co as [?|[[? ?]|[Ck Ha]]]; [done | lia |].
      assert (kids_ok d m o n) as K by (apply skel_kids in Sk as (_ & _ & Sk & Te); by constructor).
      destruct (parent_upd d m o n (set_avail (bm_u (node m o) + k) (node m o)) K Hi Hn) as (K' & _ & _ & _ & F).
      split; [done|]. intros j Hj. rewrite F by lia. symmetry. by eapply bfree_kids. }
  rewrite bind_Ok. destruct (skel_in (S d) m1 o n Sk1) as [Hi1 Hh1]. rewrite bl_get_ok, bind_Ok by done.
  destruct (Z.eqb_spec (avail m1 o) (radixd (S d))) as [Efull|Efull].
  { eexists. split; [done|]. constructor; [done | done | |].
    - apply cons_kids. right. left. lia.
    - intros j Hj. rewrite bfree_node, Efull. ztest. symmetry.
      apply (count_full_inv n (fun j => bfree (S d) m o j || in_range f k j)); [lia | done]. }
  rewrite (proj2 (Z.ltb_ge (radixd (S d)) (avail m1 o))) by lia.
  destruct (K1 Efull) as [K F1].
  assert (0 <= f / radixd d < 16) as Hq by (destruct (block_kid d f); [lia | done]).
  destruct (free_kids_spec d (free_node d fuel) m1 o n blk 17 (f / radixd d) f k)
    as (m' & -> & Ch' & Hi' & Hh' & K' & Ha' & F'); try done; try lia.
  { apply IH. lia. }
  { apply walk_start; lia. }
  { intros j Hj. rewrite F1 by lia. by apply Hfree. }
  exists m'. split; [done|].
  assert (forall j, 0 <= j < n -> kfree d m' o j = bfree (S d) m o j || in_range f k j) as F.
  { intros j Hj. by rewrite F', F1. }
  eapply step_ext; [apply kids_step; try done|].
  - by eapply changed_trans.
  - rewrite Ha', Ha1, (count_free_ext n _ _ F). lia.
  - done.
Qed.

(** ** Filling *)

(** When a fill goes through. At each node a range is filled when it is the
    whole of the node's radix, or no block of the node is free, or it is no
    longer than a child and its parts in the children go through; [g] says
    which of the [n] blocks are free. *)
Definition part_fits (fits : (Z -> bool) -> Z -> Z -> Z -> bool) (d : nat) (g : Z -> bool)
    (n f k c : Z) : bool :=
  let a := Z.max f (c * radixd d) in
  let e := Z.min (f + k) ((c + 1) * radixd d) in
  (e <=? a) || fits (fun j => g (c * radixd d + j)) (kidn d n c) (a - c * radixd d) (e - a).

Fixpoint fill_fits (d : nat) (g : Z -> bool) (n f k : Z) : bool :=
  match d with
  | O => true
  | S d' =>
      (k =? radixd d) || (n_free n g =? 0) ||
      ((k <=? radixd d') && forallb (part_fits (fill_fits d') d' g n f k) (seqZ 0 16))
  end.

Definition fill_panic : result (Z * tree) := Panic "blist_meta_fill: allocation too large".

(** The blocks of a list, up to the end of its last leaf. *)
Definition up32 (n : Z) : Z := (n + 31) / 32 * 32.

Definition fill_call (d : nat) (call : tree -> Z -> Z -> Z -> Z -> result (Z * tree)) : Prop :=
  forall m o n f v blk, skel d m o n -> cons d m o n -> 0 < n <= radixd d -> 0 <= blk -> blk mod 32 = 0 ->
  0 <= f -> 1 <= v -> f + v <= up32 n ->
  if fill_fits d (bfree d m o) n f v
  then exists m', call m o (blk + f) v blk = Ok (n_free n (fun j => bfree d m o j && in_range f v j), m') /\
    step d m m' o n (fun j => bfree d m o j && negb (in_range f v j))
  else call m o (blk + f) v blk = fill_panic.

Lemma up32_bounds n : n <= up32 n < n + 32 /\ up32 n mod 32 = 0.
Proof. unfold up32. split; [dlia | by apply Z_mod_mult]. Qed.

Lemma up32_radix d n : n <= radixd d -> up32 n <= radixd d.
Proof. pose proof (radixd_mod d). pose proof (up32_bounds n). dlia. Qed.

(** A child that the range meets has blocks, and the range is within them. *)
Lemma up32_kid d n c f :
  c * radixd d <= f -> f < up32 n -> c * radixd d < n.
Proof.
  intros H1 H2. pose proof (up32_bounds n).
  assert ((c * radixd d) mod 32 = 0) by (rewrite Z.mul_mod, radixd_mod, Z.mul_0_r by lia; done). dlia.
Qed.

Lemma up32_kidn d n c e :
  e <= up32 n -> e <= (c + 1) * radixd d -> e - c * radixd d <= up32 (kidn d n c).
Proof.
  intros H1 H2. pose proof (up32_bounds n). unfold kidn.
  destruct (Z.min_spec (radixd d) (n - c * radixd d)) as [[_ ->] | [_ ->]].
  - pose proof (up32_bounds (radixd d)). lia.
  - unfold up32 in *. assert ((c * radixd d) mod 32 = 0) as E
      by (rewrite Z.mul_mod, radixd_mod, Z.mul_0_r by lia; done). dlia.
Qed.

Lemma part_fits_ext fits fits' d g g' n f k f' k' c :
  Z.max f (c * radixd d) = Z.max f' (c * radixd d) -> f + k = f' + k' ->
  (forall a v, fits (fun j => g (c * radixd d + j)) (kidn d n c) a v =
               fits' (fun j => g' (c * radixd d + j)) (kidn d n c) a v) ->
  part_fits fits d g n f k c = part_fits fits' d g' n f' k' c.
Proof. intros E1 E2 E3. unfold part_fits. cbv zeta. by rewrite E1, E2, E3. Qed.

Lemma forallb_ext_in {A} (p q : A -> bool) l :
  (forall x, x ∈ l -> p x = q x) -> forallb p l = forallb q l.
Proof.
  induction l as [|x l IH]; intros H; [done|]. cbn. rewrite H by (by left).
  rewrite IH; [done|]. intros y Hy. apply H. by right.
Qed.

Lemma fill_fits_ext d g g' n f k :
  (forall j, 0 <= j < n -> g j = g' j) -> fill_fits d g n f k = fill_fits d g' n f k.
Proof.
  revert g g' n f k. induction d as [|d IH]; intros g g' n f k H; [done|]. cbn [fill_fits].
  rewrite (count_free_ext n g g' H). f_equal. f_equal. apply forallb_ext_in.
  intros c Hc%elem_of_seqZ. apply part_fits_ext; [done | done |]. intros a v. apply IH.
  intros j Hj. apply H. unfold kidn in Hj. pose proof (radixd_pos d). nia.
Qed.

(** A range of at most 32 blocks goes through. *)
Lemma fill_fits_32 d g n f k : k <= 32 -> fill_fits d g n f k = true.
Proof.
  revert g n f k. induction d as [|d IH]; intros g n f k Hk; [done|]. cbn [fill_fits].
  assert (32 <= radixd d) by (clear; induction d; cbn [radixd]; lia).
  rewrite (proj2 (Z.leb_le k (radixd d))) by lia. apply orb_true_iff. right. cbn [andb].
  apply forallb_forall. intros c _. unfold part_fits. rewrite IH by lia. apply orb_true_r.
Qed.

(** The free blocks of a range, split. *)
Lemma count_range_split n f k v g :
  0 <= v <= k ->
  n_free n (fun j => g j && in_range f k j) =
  n_free n (fun j => g j && in_range f v j) +
  n_free n (fun j => (g j && negb (in_range f v j)) && in_range (f + v) (k - v) j).
Proof.
  intros Hv. rewrite <- count_add.
  - apply count_free_ext. intros j Hj. rewrite (in_range_split f k v) by done.
    by destruct (g j), (in_range f v j), (in_range (f + v) (k - v) j).
  - intros j Hj. by destruct (g j), (in_range f v j), (in_range (f + v) (k - v) j).
Qed.

Lemma count_kid d m o n c f v :
  0 <= c -> c * radixd d < n -> 0 <= f -> 0 <= v -> f + v <= radixd d ->
  n_free n (fun j => kfree d m o j && in_range (c * radixd d + f) v j) =
  n_free (kidn d n c) (fun j => bfree d m (kid d o c) j && in_range f v j).
Proof.
  intros Hc Hp Hf Hv Hfv. pose proof (radixd_pos d).
  rewrite <- (count_part n (c * radixd d) (kidn d n c)) by (unfold kidn; nia).
  apply count_free_ext. intros j Hj. rewrite in_range_kid by lia.
  unfold kfree. pose proof (Z.div_mod j (radixd d) ltac:(lia)) as E.
  pose proof (Z.mod_pos_bound j (radixd d) ltac:(lia)).
  destruct (Z.eqb_spec (j / radixd d) c) as [Eq|Hne].
  - rewrite (proj2 (in_range_iff (c * radixd d) (kidn d n c) j)) by (unfold kidn; rewrite <- Eq; lia).
    replace (j - c * radixd d) with (j mod radixd d) by (rewrite <- Eq; lia). by rewrite Eq.
  - rewrite andb_false_r. symmetry.
    assert (in_range (c * radixd d) (kidn d n c) j = false) as ->; [|done].
    apply not_true_iff_false. rewrite in_range_iff. intros Hr. apply Hne.
    symmetry. apply (Z.div_unique j (radixd d) c (j - c * radixd d)); unfold kidn in Hr; lia.
Qed.

(** The parts of a range in the children from [c] on. *)
Definition kids_fit (d : nat) (m : tree) (o n c f k : Z) : bool :=
  forallb (part_fits (fill_fits d) d (kfree d m o) n f k) (seqZ c (16 - c)).

Lemma kfree_kid d m o n c j :
  0 <= c -> 0 <= j < kidn d n c -> kfree d m o (c * radixd d + j) = bfree d m (kid d o c) j.
Proof.
  intros Hc Hj. unfold kidn in Hj. unfold kfree.
  rewrite Z.div_add_l, Z.div_small, Z.add_0_r by lia.
  by rewrite Z.add_comm, Z_mod_plus_full, Z.mod_small by lia.
Qed.

Lemma kids_fit_done d m o n c f : f <= c * radixd d -> kids_fit d m o n c f 0 = true.
Proof.
  intros Hf. apply forallb_forall. intros c' Hc%list_elem_of_In%elem_of_seqZ. unfold part_fits.
  pose proof (radixd_pos d). rewrite (proj2 (Z.leb_le _ _)); [done | nia].
Qed.

(** The part in child [c], then the others. *)
Lemma kids_fit_cons d m o n c f k :
  0 <= c < 16 -> walk d c f k -> 0 < k -> let v := Z.min k ((c + 1) * radixd d - f) in
  kids_fit d m o n c f k =
    fill_fits d (bfree d m (kid d o c)) (kidn d n c) (f - c * radixd d) v &&
    kids_fit d m o n (c + 1) f k.
Proof.
  intros Hc (_ & _ & W & _) Hk v. pose proof (radixd_pos d). specialize (W Hk).
  unfold kids_fit. rewrite (seqZ_cons c (16 - c)) by lia. cbn [forallb].
  replace (Z.pred (16 - c)) with (16 - (c + 1)) by lia. replace (Z.succ c) with (c + 1) by lia.
  f_equal. unfold part_fits. cbv zeta. rewrite Z.max_l by lia.
  replace (Z.min (f + k) ((c + 1) * radixd d)) with (f + v) by lia.
  rewrite (proj2 (Z.leb_gt _ _)) by lia. replace (f + v - f) with v by lia. cbn [orb].
  apply fill_fits_ext. intros j Hj. apply (kfree_kid d m o n); lia.
Qed.

Lemma kids_fit_rest d m m1 o n c f k v :
  0 <= c -> 0 <= v <= k -> f <= (c + 1) * radixd d -> f + v <= (c + 1) * radixd d ->
  (forall j, 0 <= j < n -> kfree d m1 o j = kfree d m o j && negb (in_range f v j)) ->
  kids_fit d m o n (c + 1) f k = kids_fit d m1 o n (c + 1) (f + v) (k - v).
Proof.
  intros Hc Hv Hf Hfv F. pose proof (radixd_pos d).
  apply forallb_ext_in. intros c' Hc'%elem_of_seqZ.
  assert ((c + 1) * radixd d <= c' * radixd d) by nia.
  unfold part_fits. cbv zeta. rewrite (Z.max_r f), (Z.max_r (f + v)) by lia.
  replace (f + v + (k - v)) with (f + k) by lia.
  f_equal. apply fill_fits_ext. intros j Hj. unfold kidn in Hj. rewrite F by nia.
  assert (in_range f v (c' * radixd d + j) = false) as ->; [|by rewrite andb_true_r].
  apply not_true_iff_false. rewrite in_range_iff. lia.
Qed.

(** What the loop has done when it ends: [nb] blocks before, and those of the
    range now. *)
Definition kids_filled (d : nat) (m : tree) (o n f k nb : Z) (res : result (Z * tree)) : Prop :=
  let cnt := n_free n (fun j => kfree d m o j && in_range f k j) in
  exists m', res = Ok (nb + cnt, m') /\
    changed_in m m' o (o + skipd (S d)) /\ in_tree m' o /\ 0 <= hint m' o /\ kids_ok d m' o n /\
    avail m' o = avail m o - (nb + cnt) /\
    forall j, 0 <= j < n -> kfree d m' o j = kfree d m o j && negb (in_range f k j).

Lemma kids_filled_done d m o n f nb :
  kids_ok d m o n -> in_tree m o -> 0 <= hint m o -> 0 < n <= radixd (S d) ->
  kids_filled d m o n f 0 nb (m ← bl_upd m o (fun s => set_avail (bmu_avail s - nb) s); Ok (nb, m)).
Proof.
  intros K Hi Hh Hn. unfold kids_filled.
  assert (forall j, in_range f 0 j = false) as Hr0.
  { intros j. apply not_true_iff_false. rewrite in_range_iff. lia. }
  rewrite count_none by (intros j _; by rewrite Hr0, andb_false_r).
  rewrite bl_upd_ok, bind_Ok by done.
  match goal with |- context [aset m o ?v] => set (w := v) end.
  destruct (parent_upd d m o n w K Hi Hn) as (K2 & Hi2 & Hv2 & Ch2 & F2).
  exists (aset m o w). rewrite Hv2, Z.add_0_r. split_and!; try done.
  intros j Hj. rewrite F2, Hr0 by lia. by rewrite andb_true_r.
Qed.

Lemma kids_filled_then d m m1 o n f k v nb res :
  0 <= v <= k -> 0 <= o ->
  changed_in m m1 (o + 1) (o + skipd (S d)) -> node m1 o = node m o ->
  (forall j, 0 <= j < n -> kfree d m1 o j = kfree d m o j && negb (in_range f v j)) ->
  kids_filled d m1 o n (f + v) (k - v) (nb + n_free n (fun j => kfree d m o j && in_range f v j)) res ->
  kids_filled d m o n f k nb res.
Proof.
  intros Hv H0 Ch1 Ho F1 (m' & -> & Ch & Hi' & Hh' & K' & Ha' & F). exists m'.
  assert (n_free n (fun j => kfree d m1 o j && in_range (f + v) (k - v) j) =
    n_free n (fun j => (kfree d m o j && negb (in_range f v j)) && in_range (f + v) (k - v) j)) as Ec.
  { apply count_free_ext. intros j Hj. by rewrite F1. }
  rewrite Ec in *. rewrite (count_range_split n f k v) by done.
  rewrite !Z.add_assoc. split_and!; try done.
  - eapply changed_trans; [|exact Ch]. eapply changed_weaken; [exact Ch1 | lia | lia].
  - by rewrite Ha', Ho.
  - intros j Hj. rewrite F, F1 by done. rewrite (in_range_split f k v), negb_orb, andb_assoc by lia. done.
Qed.

Lemma fill_kids_spec d call m o n blk fuel c f k nb :
  fill_call d call -> kids_ok d m o n -> in_tree m o -> 0 <= hint m o -> 0 < n <= radixd (S d) ->
  0 <= blk -> blk mod 32 = 0 -> 0 <= c <= 16 -> 16 - c < Z.of_nat fuel -> walk d c f k ->
  f + k <= up32 n ->
  let res := fill_kids call fuel m o (1 + c * (skipd d + 1)) (skipd (S d)) (skipd d + 1)
    (blk + c * radixd d) (radixd d) (blk + f) k nb in
  if kids_fit d m o n c f k then kids_filled d m o n f k nb res else res = fill_panic.
Proof.
  intros Hcall. pose proof (radixd_pos d). pose proof (skipd_nonneg d). revert m c f k nb.
  induction fuel as [|fuel IH]; intros m c f k nb K Hi Hh Hn Hb Hal Hc Hf W Hfn res; [lia|].
  assert (0 <= o) by apply Hi. unfold res.
  cbn [fill_kids]. rewrite kid_more by done.
  destruct (decide (k = 0)) as [->|Hk].
  { assert (f <= c * radixd d) by (destruct W as (_ & _ & _ & W); by apply W).
    rewrite kids_fit_done by done.
    rewrite (proj2 (Z.ltb_ge (blk + c * radixd d) (blk + f + 0))), andb_false_r by lia.
    by apply kids_filled_done. }
  assert (0 < k) as Hk0 by (destruct W; lia).
  assert (c * radixd d <= f < (c + 1) * radixd d) as Hcf by (by apply W).
  pose proof (up32_radix (S d) n ltac:(lia)).
  assert (c < 16) as Hc16 by (cbn [radixd] in *; nia).
  rewrite (proj2 (Z.ltb_lt c 16)), (proj2 (Z.ltb_lt _ _)) by lia. cbn [andb].
  rewrite (kids_fit_cons d m o n c f k) by (lia || done). cbv zeta.
  destruct (walk_next d c f k W Hk0) as (Hv & Hfv & W').
  set (v := Z.min k ((c + 1) * radixd d - f)) in *.
  assert ((if k <? blk + c * radixd d + radixd d - (blk + f) then k
           else blk + c * radixd d + radixd d - (blk + f)) = v) as -> by (unfold v; zcase; lia).
  rewrite bl_get_ok, bind_Ok by done.
  rewrite (proj2 (Z.eqb_neq (hint m o) (-1))) by lia. rewrite kid_index.
  assert (c * radixd d < n) as Hpr by (apply (up32_kid d n c f); lia).
  assert (f - c * radixd d + v <= up32 (kidn d n c)) as Hkn.
  { replace (f - c * radixd d + v) with (f + v - c * radixd d) by lia. apply up32_kidn; lia. }
  pose proof (Hcall m (kid d o c) (kidn d n c) (f - c * radixd d) v (blk + c * radixd d)
    (ko_skel _ _ _ _ K c ltac:(lia) Hpr) (ko_cons _ _ _ _ K c ltac:(lia) Hpr)
    ltac:(unfold kidn; lia) ltac:(nia) (kid_aligned d blk c Hal) ltac:(lia) ltac:(lia) Hkn) as Hc1.
  replace (blk + c * radixd d + (f - c * radixd d)) with (blk + f) in Hc1 by lia.
  destruct (fill_fits d (bfree d m (kid d o c)) (kidn d n c) (f - c * radixd d) v); cbn [andb];
    [|by rewrite Hc1].
  destruct Hc1 as (m1 & -> & St). rewrite bind_Ok.
  destruct (step_kid d m m1 o n c _ K ltac:(lia) Hn ltac:(lia) Hpr St) as (K1 & Ho & Ch1 & F1).
  assert (forall j, 0 <= j < n -> kfree d m1 o j = kfree d m o j && negb (in_range f v j)) as F1'.
  { intros j Hj. rewrite F1 by done.
    replace (in_range f v j) with (in_range (c * radixd d + (f - c * radixd d)) v j) by (f_equal; lia).
    rewrite in_range_kid by lia. unfold kfree.
    destruct (Z.eqb_spec (j / radixd d) c) as [->|]; [done|]. by rewrite andb_true_r. }
  rewrite <- (count_kid d m o n c (f - c * radixd d) v) by lia.
  replace (c * radixd d + (f - c * radixd d)) with f by lia.
  rewrite kid_next. replace (blk + c * radixd d + radixd d) with (blk + (c + 1) * radixd d) by lia.
  replace (blk + f + v) with (blk + (f + v)) by lia.
  rewrite (kids_fit_rest d m m1 o n c f k v) by (lia || done).
  pose proof (IH m1 (c + 1) (f + v) (k - v) (nb + n_free n (fun j => kfree d m o j && in_range f v j))
    K1 ltac:(by eapply in_tree_length; [apply Ch1|]) ltac:(by rewrite Ho) Hn Hb Hal ltac:(lia)
    ltac:(lia) W' ltac:(lia)) as IH1. cbv zeta in IH1.
  destruct (kids_fit d m1 o n (c + 1) (f + v) (k - v)); [|done].
  apply (kids_filled_then d m m1 o n f k v); done || lia.
Qed.

Definition fill_node (d fuel : nat) (m : tree) (o allocBlk v blk : Z) : result (Z * tree) :=
  if skipd d + 1 =? 1 then blst_leaf_fill m o allocBlk v
  else blst_meta_fill fuel m o allocBlk v (radixd d) (skipd d + 1 - 1) blk.

Lemma meta_fill_unfold d fuel m o blk f count :
  0 <= f ->
  blst_meta_fill (S fuel) m o (blk + f) count (radixd (S d)) (skipd (S d)) blk =
  (s ← bl_get m o;
   if (count =? radixd (S d)) || (bmu_avail s =? 0) then
     m ← bl_upd m o (fun _ => MkBlmeta 0 count); Ok (bmu_avail s, m)
   else
     m ← (if bmu_avail s =? radixd (S d) then init_free m o (skipd (S d)) (skipd d + 1) (radixd d) else Ok m);
     if radixd d <? count then Panic "blist_meta_fill: allocation too large"
     else
       fill_kids (fill_node d fuel) 17 m o (1 + f / radixd d * (skipd d + 1)) (skipd (S d)) (skipd d + 1)
         (blk + f / radixd d * radixd d) (radixd d) (blk + f) count 0).
Proof.
  intros Hf. cbn [blst_meta_fill]. rewrite quot_skip, quot_radix. cbv zeta.
  replace (blk + f - blk) with f by lia. pose proof (radixd_pos d).
  rewrite Z.quot_div_nonneg by lia.
  replace (f / radixd d * (skipd d + 1) + 1) with (1 + f / radixd d * (skipd d + 1)) by lia. done.
Qed.

(** A range that is the whole node, or in a node without free blocks. *)
Lemma fill_whole d m o n f k :
  skel (S d) m o n -> cons (S d) m o n -> 0 < n <= radixd (S d) -> 0 <= f -> 1 <= k ->
  f + k <= radixd (S d) -> k = radixd (S d) \/ avail m o = 0 ->
  exists m', (m1 ← bl_upd m o (fun _ => MkBlmeta 0 k); Ok (avail m o, m1)) =
      Ok (n_free n (fun j => bfree (S d) m o j && in_range f k j), m') /\
    step (S d) m m' o n (fun j => bfree (S d) m o j && negb (in_range f k j)).
Proof.
  intros Sk Co Hn Hf Hk Hfk H. destruct (skel_in (S d) m o n Sk) as [Hi Hh].
  assert (forall j, 0 <= j < n -> bfree (S d) m o j && in_range f k j = bfree (S d) m o j) as Hall.
  { intros j Hj. destruct H as [->|H].
    - assert (f = 0) as -> by lia. rewrite (proj2 (in_range_iff 0 _ j)) by lia. apply andb_true_r.
    - by rewrite bfree_node, H. }
  rewrite bl_upd_ok, bind_Ok by done. exists (aset m o (MkBlmeta 0 k)). split.
  - by rewrite (count_free_ext n _ _ Hall), (avail_count d m o n Co Hn).
  - constructor.
    + apply changed_aset. pose proof (skipd_nonneg (S d)). lia.
    + apply (skel_root (S d) m); [done | apply zlength_aset | rewrite node_aset_eq by done; cbn; lia |].
      intros i Hi'. apply node_aset_ne; [lia|]. unfold in_tree in Hi. lia.
    + apply cons_kids. left. by rewrite node_aset_eq.
    + intros j Hj. rewrite <- (Hall j Hj) at 1. rewrite (bfree_node _ (aset _ _ _)), node_aset_eq by done.
      by destruct (bfree (S d) m o j), (in_range f k j).
Qed.

(** The parts before the first child of the range are empty. *)
Lemma fits_from d m o m1 n f k :
  0 <= f -> 1 <= k -> 0 <= f / radixd d < 16 ->
  (forall j, 0 <= j < n -> kfree d m1 o j = bfree (S d) m o j) ->
  forallb (part_fits (fill_fits d) d (bfree (S d) m o) n f k) (seqZ 0 16) =
    kids_fit d m1 o n (f / radixd d) f k.
Proof.
  intros Hf Hk Hq F. pose proof (radixd_pos d). unfold kids_fit.
  replace 16 with (f / radixd d + (16 - f / radixd d)) at 1 by lia.
  rewrite seqZ_app, forallb_app by lia. rewrite Z.add_0_l.
  replace (forallb _ (seqZ 0 (f / radixd d))) with true.
  - apply forallb_ext_in. intros c Hc%elem_of_seqZ. apply part_fits_ext; [done | done |].
    intros a v. apply fill_fits_ext. intros j Hj. unfold kidn in Hj. symmetry. apply F. nia.
  - symmetry. apply forallb_forall. intros c Hc%list_elem_of_In%elem_of_seqZ. unfold part_fits. cbv zeta.
    rewrite (proj2 (Z.leb_le _ _)); [done|].
    pose proof (Z.mul_div_le f (radixd d)). nia.
Qed.

(** The free blocks outside a range. *)
Lemma count_outside n g f k :
  n_free n (fun j => g j && negb (in_range f k j)) = n_free n g - n_free n (fun j => g j && in_range f k j).
Proof.
  enough (n_free n g = n_free n (fun j => g j && negb (in_range f k j)) +
    n_free n (fun j => g j && in_range f k j)) by lia.
  rewrite <- count_add; [apply count_free_ext; intros j Hj | intros j Hj];
    by destruct (g j), (in_range f k j).
Qed.

(** A range that is filled in the children of a node with free blocks. *)
Lemma fill_parts d call m o n blk f k :
  fill_call d call -> skel (S d) m o n -> cons (S d) m o n -> 0 < n <= radixd (S d) ->
  0 <= blk -> blk mod 32 = 0 -> 0 <= f -> 1 <= k -> f + k <= up32 n -> avail m o <> 0 ->
  let res := (m ← (if avail m o =? radixd (S d) then init_free m o (skipd (S d)) (skipd d + 1) (radixd d)
                   else Ok m);
    fill_kids call 17 m o (1 + f / radixd d * (skipd d + 1)) (skipd (S d)) (skipd d + 1)
      (blk + f / radixd d * radixd d) (radixd d) (blk + f) k 0) in
  if forallb (part_fits (fill_fits d) d (bfree (S d) m o) n f k) (seqZ 0 16)
  then exists m', res = Ok (n_free n (fun j => bfree (S d) m o j && in_range f k j), m') /\
    step (S d) m m' o n (fun j => bfree (S d) m o j && negb (in_range f k j))
  else res = fill_panic.
Proof.
  intros Hcall Sk Co Hn Hb Hal Hf Hk Hfk E0 res. unfold res. clear res.
  destruct (skel_in (S d) m o n Sk) as [Hi Hh]. pose proof (radixd_pos d).
  destruct (open_node d m o n Sk Co Hn E0) as (m1 & -> & Ch & Hi1 & Ho & K & F). rewrite bind_Ok.
  pose proof (up32_radix (S d) n ltac:(lia)).
  assert (0 <= f / radixd d < 16) as Hq by (destruct (block_kid d f); [lia | done]).
  pose proof (fill_kids_spec d call m1 o n blk 17 (f / radixd d) f k 0 Hcall K Hi1 ltac:(by rewrite Ho) Hn
    Hb Hal ltac:(lia) ltac:(lia) ltac:(by apply walk_start) Hfk) as H1. cbv zeta in H1.
  rewrite (fits_from d m o m1 n f k) by (done || lia).
  destruct (kids_fit d m1 o n (f / radixd d) f k); [|done].
  destruct H1 as (m' & -> & Ch' & Hi' & Hh' & K' & Ha' & F'). rewrite Z.add_0_l in *.
  assert (n_free n (fun j => kfree d m1 o j && in_range f k j) =
    n_free n (fun j => bfree (S d) m o j && in_range f k j)) as Ec.
  { apply count_free_ext. intros j Hj. by rewrite F. }
  rewrite Ec in *. exists m'. split; [done|].
  assert (forall j, 0 <= j < n -> kfree d m' o j = bfree (S d) m o j && negb (in_range f k j)) as F2.
  { intros j Hj. by rewrite F', F. }
  eapply step_ext; [apply kids_step; try done|done].
  - by eapply changed_trans.
  - rewrite Ha', Ho, (avail_count d m o n Co Hn), (count_free_ext n _ _ F2), (count_outside n _ f k). lia.
Qed.

Lemma fill_node_spec d fuel : (d <= fuel)%nat -> fill_call d (fill_node d fuel).
Proof.
  revert fuel. induction d as [|d IH]; intros fuel Hfu m o n f k blk Sk Co Hn Hb Hal Hf Hk Hfn.
  { change (fill_node 0 fuel m o (blk + f) k blk) with (blst_leaf_fill m o (blk + f) k).
    cbn [radixd] in Hn. pose proof (up32_radix 0 n ltac:(cbn; lia)) as Hu. cbn [radixd] in Hu.
    pose proof (aligned_mod blk f Hal ltac:(lia)) as Em.
    pose proof (leaf_fill_spec m o n (blk + f) k Sk Co) as H. rewrite Em in H.
    apply H; lia. }
  destruct fuel as [|fuel]; [lia|]. pose proof (skipd_nonneg d). pose proof (radixd_pos d).
  unfold fill_node. rewrite next_skip_leaf. replace (skipd (S d) + 1 - 1) with (skipd (S d)) by lia.
  rewrite meta_fill_unfold by done.
  destruct (skel_in (S d) m o n Sk) as [Hi Hh]. rewrite bl_get_ok, bind_Ok by done. unfold bmu_avail.
  pose proof (avail_count d m o n Co Hn) as Hcount.
  pose proof (up32_radix (S d) n ltac:(lia)).
  change (fill_fits (S d) (bfree (S d) m o) n f k) with ((k =? radixd (S d)) ||
    (n_free n (bfree (S d) m o) =? 0) || ((k <=? radixd d) &&
      forallb (part_fits (fill_fits d) d (bfree (S d) m o) n f k) (seqZ 0 16))).
  rewrite <- Hcount.
  destruct ((k =? radixd (S d)) || (avail m o =? 0)) eqn:Ew; cbn [orb].
  { apply fill_whole; try done; [lia|]. apply orb_prop in Ew as [Ew|Ew]; bool_to_prop; auto. }
  apply orb_false_iff in Ew as [_ Ew]. bool_to_prop.
  pose proof (fill_parts d (fill_node d fuel) m o n blk f k (IH fuel ltac:(lia)) Sk Co Hn Hb Hal Hf Hk Hfn
    Ew) as H3. cbv zeta in H3.
  rewrite (Z.leb_antisym (radixd d)). destruct (radixd d <? k); cbn [negb andb]; [|done].
  destruct (open_node d m o n Sk Co Hn Ew) as (m1 & -> & _). by rewrite bind_Ok.
Qed.
