(* ===== verification/BlistRep.v ===== *)
(** Making the tree of a [Blist]: the size that the sizing pass computes is
    enough for the pass that writes, which leaves a well-formed tree without
    free blocks. *)

From stdpp Require Import base list.
From S2P Require Import Prelude Blist BlistTree BlistLeaf BlistAlloc BlistFree.

(** A subtree without free blocks, whatever is below it. *)
Definition all_used (d : nat) (m : tree) (o : Z) : Prop :=
  match d with O => bits m o = 0 | S _ => avail m o = 0 end.

(** What a call must do for one of [n] blocks: without a tree, say how many
    slots it needs after its own; with a tree that has them, write it. *)
Definition init_call (d : nat) (call : option tree -> Z -> Z -> result (Z * option tree)) (n : Z) : Prop :=
  exists r, 0 <= r <= skipd d + 1 /\ (forall o, call None o n = Ok (r, None)) /\
  forall m o, 0 <= o -> o + r < zlength m ->
  exists m', call (Some m) o n = Ok (r, Some m') /\ changed_in m m' o (o + skipd d) /\
    skel d m' o n /\ all_used d m' o.

Lemma init_loop_spec d call n fuel c mi :
  (forall n', 0 < n' <= radixd d -> init_call d call n') -> 0 < n <= radixd (S d) ->
  0 <= c <= 16 -> 16 - c < Z.of_nat fuel -> (c = 0 \/ (c - 1) * radixd d < n) ->
  0 <= mi <= 1 + c * (skipd d + 1) ->
  let args m o := init_loop call fuel m o (1 + c * (skipd d + 1)) (skipd (S d)) (skipd d + 1) (radixd d)
    (Z.max 0 (n - c * radixd d)) mi in
  exists ce, c <= ce <= 16 /\ (ce = 0 \/ (ce - 1) * radixd d < n) /\ (ce < 16 -> n <= ce * radixd d) /\
  (forall o, args None o = Ok (1 + ce * (skipd d + 1), None)) /\
  forall m o, 0 <= o -> o + (1 + ce * (skipd d + 1)) < zlength m ->
  exists m', args (Some m) o = Ok (1 + ce * (skipd d + 1), Some m') /\
    changed_in m m' (kid d o c) (o + skipd (S d)) /\
    (forall c', c <= c' < ce -> skel d m' (kid d o c') (kidn d n c')) /\
    (ce < 16 -> in_tree m' (kid d o ce) /\ hint m' (kid d o ce) = -1).
Proof.
  intros Hcall Hn. pose proof (radixd_pos d). pose proof (skipd_nonneg d). revert c mi.
  induction fuel as [|fuel IH]; intros c mi Hc Hf Hp Hmi args; [lia|].
  unfold args. cbn [init_loop]. rewrite kid_more by done.
  assert ((if mi <? 1 + c * (skipd d + 1) then 1 + c * (skipd d + 1) else mi) = 1 + c * (skipd d + 1))
    as Hend by (zcase; lia).
  destruct (Z.ltb_spec c 16) as [Hlt|Hge]; cycle 1.
  { exists c. rewrite Hend. split_and!; [lia | lia | done | lia | done |].
    intros m o Ho Hm. exists m. split_and!; [done | apply changed_refl | lia | lia]. }
  destruct (Z.lt_ge_cases (c * radixd d) n) as [Hpr|Hpr]; cycle 1.
  { (* the terminator *)
    rewrite Z.max_l by lia. rewrite (proj2 (Z.leb_gt (radixd d) 0)) by lia. cbn [Z.ltb Z.compare].
    exists c. rewrite Hend. split_and!; [lia | lia | done | done | done |].
    intros m o Ho Hm. rewrite kid_index in *. destruct (kid_range d o c) as [R1 R2]; [lia|].
    cbn [upd_opt].
    assert (in_tree m (kid d o c)) as Hin by (unfold in_tree; lia).
    rewrite bl_upd_ok, !bind_Ok by done. eexists. split_and!; [done | apply changed_aset; lia | lia |].
    intros _. split; [eapply in_tree_length; [apply zlength_aset | done]|]. by rewrite node_aset_eq. }
  rewrite Z.max_r by lia.
  assert (0 < kidn d n c <= radixd d) as Hkn by (unfold kidn; lia).
  destruct (Hcall (kidn d n c) Hkn) as (r & Hr & Hnone & Hsome).
  destruct (IH (c + 1) (1 + c * (skipd d + 1) + r)) as (ce & Hce & Hcp & Hct & Hno & Hso);
    [lia | lia | right; by replace (c + 1 - 1) with c by lia | lia |].
  (* both branches call with the child's blocks and go on with what is left *)
  assert (forall mo o,
    (if radixd d <=? n - c * radixd d then
       '(r, m) ← call mo (o + (1 + c * (skipd d + 1))) (radixd d);
       init_loop call fuel m o (1 + c * (skipd d + 1) + (skipd d + 1)) (skipd (S d)) (skipd d + 1)
         (radixd d) (n - c * radixd d - radixd d) (1 + c * (skipd d + 1) + r)
     else if 0 <? n - c * radixd d then
       '(r, m) ← call mo (o + (1 + c * (skipd d + 1))) (n - c * radixd d);
       init_loop call fuel m o (1 + c * (skipd d + 1) + (skipd d + 1)) (skipd (S d)) (skipd d + 1)
         (radixd d) 0 (1 + c * (skipd d + 1) + r)
     else
       m ← upd_opt mo (o + (1 + c * (skipd d + 1))) (set_bighint (-1));
       Ok (if mi <? 1 + c * (skipd d + 1) then 1 + c * (skipd d + 1) else mi, m)) =
    ('(r, m) ← call mo (kid d o c) (kidn d n c);
     init_loop call fuel m o (1 + (c + 1) * (skipd d + 1)) (skipd (S d)) (skipd d + 1)
       (radixd d) (Z.max 0 (n - (c + 1) * radixd d)) (1 + c * (skipd d + 1) + r))) as Hbody.
  { intros mo o. rewrite kid_index, kid_next. unfold kidn.
    destruct (Z.leb_spec (radixd d) (n - c * radixd d)).
    - rewrite Z.min_l by lia. replace (Z.max 0 (n - (c + 1) * radixd d)) with (n - c * radixd d - radixd d) by lia.
      done.
    - rewrite (proj2 (Z.ltb_lt 0 (n - c * radixd d))) by lia. rewrite Z.min_r by lia.
      replace (Z.max 0 (n - (c + 1) * radixd d)) with 0 by lia. done. }
  exists ce. split_and!; [lia | lia | done | done | |].
  { intros o. rewrite Hbody, Hnone, bind_Ok. apply Hno. }
  intros m o Ho Hm. rewrite Hbody. destruct (kid_range d o c) as [R1 R2]; [lia|].
  assert ((c + 1) * (skipd d + 1) <= ce * (skipd d + 1)) by (apply Z.mul_le_mono_nonneg_r; lia).
  assert (kid d o c + r < zlength m) as Hroom by (unfold kid; lia).
  destruct (Hsome m (kid d o c) ltac:(lia) Hroom) as (m1 & -> & Ch1 & Sk1 & _). rewrite bind_Ok.
  destruct (Hso m1 o Ho) as (m' & -> & Ch & Sk & Te); [by rewrite (proj1 Ch1)|].
  exists m'. pose proof (kid_sep d o c (c + 1) ltac:(lia)). split_and!; [done | | |done].
  - eapply changed_trans; [eapply changed_weaken; [exact Ch1 | lia | lia]|].
    eapply changed_weaken; [exact Ch | lia | lia].
  - intros c' Hc'. destruct (decide (c' = c)) as [->|Hne]; [|apply Sk; lia].
    eapply skel_agree; [|exact Sk1]. eapply changed_agree; [exact Ch | left; lia].
Qed.

Lemma radix_init_spec d fuel n :
  (d < fuel)%nat -> 0 < n <= radixd d ->
  init_call d (fun m o n => blst_radix_init fuel m o (radixd d) (skipd d) n) n.
Proof.
  revert fuel n. induction d as [|d IH]; intros [|fuel] n Hf Hn; try lia.
  { exists 0. cbn [blst_radix_init radixd]. change (32 =? BLIST_BMAP_RADIX) with true. cbv iota.
    split_and!; [done | done | intros o; done |]. intros m o Ho Hm. cbn [upd_opt].
    assert (in_tree m o) as Hin by (unfold in_tree; lia).
    rewrite bl_upd_ok, !bind_Ok by done. eexists. split_and!; [done | apply changed_aset; cbn; lia | |].
    - cbn [skel]. rewrite node_aset_eq by done.
      split_and!; [by eapply in_tree_length; [apply zlength_aset|] | cbn; lia | done].
    - cbn [all_used]. rewrite node_aset_eq by done. by apply (set_bitmap_bits 0). }
  pose proof (radixd_pos d). pose proof (skipd_nonneg d).
  assert (forall m o n, blst_radix_init (S fuel) m o (radixd (S d)) (skipd (S d)) n =
    (m ← upd_opt m o (fun s => set_avail 0 (set_bighint 0 s));
     init_loop (fun m i count => blst_radix_init fuel m i (radixd d) (skipd d) count)
       17 m o (1 + 0 * (skipd d + 1)) (skipd (S d)) (skipd d + 1) (radixd d) n 0)) as Hun.
  { intros m o n'. cbn [blst_radix_init]. rewrite quot_skip, quot_radix. cbv zeta.
    replace (skipd d + 1 - 1) with (skipd d) by lia. change BLIST_BMAP_RADIX with 32.
    rewrite (proj2 (Z.eqb_neq (radixd (S d)) 32)) by (cbn [radixd]; lia).
    by replace (1 + 0 * (skipd d + 1)) with 1 by lia. }
  destruct (init_loop_spec d (fun m i count => blst_radix_init fuel m i (radixd d) (skipd d) count)
    n 17 0 0) as (ce & Hce & Hcp & Hct & Hno & Hso); [intros n' Hn'; apply IH; [lia | done] | done | lia | lia | by left | lia |].
  rewrite Z.mul_0_l, Z.sub_0_r, Z.max_r in Hno, Hso by lia.
  exists (1 + ce * (skipd d + 1)). split_and!; [nia | | |].
  - cbn [skipd]. nia.
  - intros o. rewrite Hun. cbn [upd_opt]. rewrite bind_Ok. apply Hno.
  - intros m o Ho Hm. rewrite Hun. cbn [upd_opt].
    assert (in_tree m o) as Hin by (unfold in_tree; nia).
    rewrite bl_upd_ok, !bind_Ok by done. set (m1 := aset m o _).
    destruct (Hso m1 o Ho) as (m' & E & Ch & Sk & Te); [unfold m1; by rewrite zlength_aset|].
    exists m'. split; [exact E|].
    assert (node m' o = MkBlmeta 0 0) as Hroot.
    { rewrite (proj2 Ch) by (lia || (unfold kid; left; nia)). unfold m1. by rewrite node_aset_eq. }
    split_and!.
    + eapply changed_trans; [apply (changed_aset m o); cbn [skipd]; lia|].
      eapply changed_weaken; [exact Ch | unfold kid; nia | lia].
    + apply skel_kids. rewrite Hroot. split_and!; [| done | |].
      * eapply in_tree_length; [etransitivity; [apply Ch | apply zlength_aset] | done].
      * intros c Hc Hp. apply Sk. split; [lia|]. apply Z.nle_gt. intros Hle.
        assert (n <= ce * radixd d) by (apply Hct; lia). nia.
      * intros c Hc Hp. assert (c = ce) as ->; [|apply Te; lia].
        destruct (Z.lt_total c ce) as [Hl|[?|Hl]]; [|done|].
        -- destruct Hcp as [?|Hcp]; [lia|]. nia.
        -- assert (n <= ce * radixd d) by (apply Hct; lia). nia.
    + cbn [all_used]. by rewrite Hroot.
Qed.

(** ** The radix *)

Lemma create_step d :
  (d < 6)%nat -> s32 (radixd d * BLIST_META_RADIX) = radixd (S d) /\
  s32 ((skipd d + 1) * BLIST_META_RADIX) = skipd (S d).
Proof. intros Hd. do 6 (destruct d as [|d]; [done|]). lia. Qed.

Lemma create_radix_ok blocks fuel d :
  (d <= 6)%nat -> (6 - d < fuel)%nat -> blocks <= 2 ^ 29 ->
  exists e, (e <= 6)%nat /\ blocks <= radixd e /\
    create_radix fuel (radixd d) (skipd d) blocks = Ok (radixd e, skipd e).
Proof.
  revert d. induction fuel as [|fuel IH]; intros d Hd Hf Hb; [lia|]. cbn [create_radix].
  destruct (Z.ltb_spec (radixd d) blocks) as [Hlt|Hge]; [|by exists d].
  destruct (decide (d = 6%nat)) as [->|Hne]; [cbn in Hlt; lia|].
  destruct (create_step d) as [-> ->]; [lia|]. apply IH; lia.
Qed.

(** With more blocks than the largest radix the [int] overflows to 0, and the
    loop does not end. *)
Lemma create_radix_zero fuel skip blocks :
  0 < blocks -> create_radix fuel 0 skip blocks = Panic "fuel".
Proof.
  intros Hb. revert skip. induction fuel as [|fuel IH]; intros skip; [done|]. cbn [create_radix].
  rewrite (proj2 (Z.ltb_lt 0 blocks)) by lia. apply IH.
Qed.

Lemma create_radix_diverges fuel d blocks :
  (d <= 6)%nat -> 2 ^ 29 < blocks -> create_radix fuel (radixd d) (skipd d) blocks = Panic "fuel".
Proof.
  revert d. induction fuel as [|fuel IH]; intros d Hd Hb; [done|]. cbn [create_radix].
  assert (radixd d <= 2 ^ 29) as Hr. { clear IH. do 7 (destruct d as [|d]; [cbn; lia|]). lia. }
  rewrite (proj2 (Z.ltb_lt _ _)) by lia.
  destruct (decide (d = 6%nat)) as [->|Hne].
  - change (s32 (radixd 6 * BLIST_META_RADIX)) with 0. apply create_radix_zero. lia.
  - destruct (create_step d) as [-> ->]; [lia|]. apply IH; lia.
Qed.

(** A [Blist] as the set of its free blocks: the relation between the two, and
    what each routine of the interface does under it. *)

(** [f] is the set of the free blocks of [bl]. *)
Definition blist_rep (bl : blist) (f : Z -> bool) : Prop :=
  exists d, (d <= 6)%nat /\ bl_radix bl = radixd d /\ bl_skip bl = skipd d /\
  0 < bl_blocks bl <= radixd d /\ skel d (bl_root bl) 0 (bl_blocks bl) /\
  cons d (bl_root bl) 0 (bl_blocks bl) /\
  (forall j, 0 <= j < bl_blocks bl -> bfree d (bl_root bl) 0 j = f j) /\
  bl_free bl = n_free (bl_blocks bl) f.

Lemma rep_ext bl f g :
  blist_rep bl f -> (forall j, 0 <= j < bl_blocks bl -> f j = g j) -> blist_rep bl g.
Proof.
  intros (d & Hd & R & K & N & S & C & F & E) H. exists d. split_and!; try done; try lia.
  - intros j Hj. by rewrite F, H.
  - rewrite E. by apply count_free_ext.
Qed.

Lemma rep_blocks bl f : blist_rep bl f -> 0 < bl_blocks bl <= 2 ^ 29.
Proof.
  intros (d & Hd & _ & _ & N & _). split; [lia|]. etransitivity; [apply N|].
  do 7 (destruct d as [|d]; [cbn; lia|]). lia.
Qed.

Lemma radixd_bound d : (d <= 6)%nat -> radixd d <= 2 ^ 29.
Proof. intros Hd. do 7 (destruct d as [|d]; [cbn; lia|]). lia. Qed.

Lemma radixd_leaf d : (radixd d =? BLIST_BMAP_RADIX) = (skipd d + 1 =? 1).
Proof.
  rewrite next_skip_leaf. destruct d; [done|]. change BLIST_BMAP_RADIX with 32.
  pose proof (radixd_pos d). apply Z.eqb_neq. cbn [radixd]. lia.
Qed.

(** A step of the whole tree. *)
Lemma rep_step bl f d m' g k :
  (d <= 6)%nat -> bl_radix bl = radixd d -> bl_skip bl = skipd d -> 0 < bl_blocks bl <= radixd d ->
  step d (bl_root bl) m' 0 (bl_blocks bl) g ->
  (forall j, 0 <= j < bl_blocks bl -> g j = f j) -> k = n_free (bl_blocks bl) f ->
  blist_rep (bl_set k m' bl) f.
Proof.
  intros Hd R K N [_ S C F] Hg ->. exists d. unfold bl_set. cbn.
  split_and!; try done; try lia. intros j Hj. by rewrite F, Hg.
Qed.

Lemma rep_alloc bl f count :
  blist_rep bl f -> 1 <= count <= 32 ->
  exists r bl', blist_alloc bl count = Ok (r, bl') /\ bl_blocks bl' = bl_blocks bl /\
  ((r = SWAPBLK_NONE /\ blist_rep bl' f) \/
   (0 <= r /\ r + count <= bl_blocks bl /\ (forall j, r <= j < r + count -> f j = true) /\
    blist_rep bl' (fun j => f j && negb (in_range r count j)))).
Proof.
  intros (d & Hd & R & K & N & S & C & F & E) Hc. unfold blist_alloc. rewrite R, K, radixd_leaf.
  pose proof (radixd_bound d Hd).
  destruct (alloc_node_spec d BLIST_DEPTH count ltac:(unfold BLIST_DEPTH; lia) Hc (bl_root bl) 0 (bl_blocks bl) 0)
    as (r & m' & Ha & Hres); [done | done | done | lia | unfold SWAPBLK_NONE; lia |].
  unfold alloc_node in Ha. replace (skipd d + 1 - 1) with (skipd d) in Ha by lia. rewrite Ha, bind_Ok.
  eexists _, _. split; [done|]. split; [done|]. destruct Hres as [[-> St]|(a & -> & Ha0 & Han & Hfr & St)].
  - left. split; [done|]. rewrite Z.eqb_refl. cbn [negb]. by eapply rep_step.
  - right. rewrite Z.add_0_l. rewrite (proj2 (Z.eqb_neq a SWAPBLK_NONE)) by (unfold SWAPBLK_NONE; lia).
    cbn [negb]. split_and!; [done | done | |].
    + intros j Hj. rewrite <- F by lia. by apply Hfr.
    + eapply rep_step; [done | done | done | done | exact St | |].
      * intros j Hj. cbn beta. by rewrite F.
      * rewrite count_diff, (count_range _ a count), E; [done | lia | lia | lia |].
        intros j Hj Hr. apply in_range_iff in Hr. rewrite <- F by lia. by apply Hfr.
Qed.

Lemma rep_free bl f blkno count :
  blist_rep bl f -> 0 <= blkno -> 1 <= count -> blkno + count <= bl_blocks bl ->
  (forall j, blkno <= j < blkno + count -> f j = false) ->
  exists bl', blist_free bl blkno count = Ok bl' /\ bl_blocks bl' = bl_blocks bl /\
    blist_rep bl' (fun j => f j || in_range blkno count j).
Proof.
  intros (d & Hd & R & K & N & S & C & F & E) Hb Hc Hn Hfr. unfold blist_free. rewrite R, K, radixd_leaf.
  destruct (free_node_spec d BLIST_DEPTH ltac:(unfold BLIST_DEPTH; lia) (bl_root bl) 0 (bl_blocks bl) blkno count 0)
    as (m' & Ha & St); try done; try lia.
  { intros j Hj. rewrite F by lia. by apply Hfr. }
  unfold free_node in Ha. replace (skipd d + 1 - 1) with (skipd d) in Ha by lia.
  rewrite Z.add_0_l in Ha. rewrite Ha, bind_Ok.
  eexists. split; [done|]. split; [done|].
  eapply rep_step; [done | done | done | done | exact St | |].
  - intros j Hj. cbn beta. by rewrite F.
  - rewrite free_count, E; [done | lia | lia | lia | done].
Qed.

Lemma radixd_inj d d' : radixd d = radixd d' -> d = d'.
Proof.
  revert d'. induction d as [|d IH]; intros [|d'] H; [done | | |]; cbn [radixd] in H.
  - pose proof (radixd_pos d'). lia.
  - pose proof (radixd_pos d). lia.
  - f_equal. apply IH. lia.
Qed.

Lemma rep_fill bl f d blkno count :
  blist_rep bl f -> bl_radix bl = radixd d -> 0 <= blkno -> 1 <= count ->
  blkno + count <= up32 (bl_blocks bl) ->
  if fill_fits d f (bl_blocks bl) blkno count
  then exists bl', blist_fill bl blkno count =
      Ok (n_free (bl_blocks bl) (fun j => f j && in_range blkno count j), bl') /\
    bl_blocks bl' = bl_blocks bl /\ blist_rep bl' (fun j => f j && negb (in_range blkno count j))
  else blist_fill bl blkno count = Panic "blist_meta_fill: allocation too large".
Proof.
  intros (d' & Hd & R & K & N & S & C & F & E) Rd Hb Hc Hn.
  assert (d' = d) as -> by (apply radixd_inj; congruence).
  unfold blist_fill. rewrite R, K, radixd_leaf.
  pose proof (fill_node_spec d BLIST_DEPTH ltac:(unfold BLIST_DEPTH; lia) (bl_root bl) 0 (bl_blocks bl)
    blkno count 0 S C N ltac:(lia) eq_refl Hb Hc Hn) as H.
  unfold fill_node in H. replace (skipd d + 1 - 1) with (skipd d) in H by lia.
  rewrite Z.add_0_l, (fill_fits_ext d _ f) in H by done.
  destruct (fill_fits d f (bl_blocks bl) blkno count); [|by rewrite H].
  destruct H as (m' & -> & St). rewrite bind_Ok.
  rewrite (count_free_ext _ _ (fun j => f j && in_range blkno count j)) by (intros j Hj; by rewrite F).
  eexists. split; [done|]. split; [done|].
  eapply rep_step; [done | done | done | done | exact St | |].
  - intros j Hj. cbn beta. by rewrite F.
  - by rewrite E, count_outside.
Qed.

Lemma rep_create fuel garbage blocks :
  (6 < fuel)%nat -> 0 < blocks <= 2 ^ 29 -> (forall n, zlength (garbage n) = Z.max 0 n) ->
  exists bl, blist_create fuel garbage blocks = Ok bl /\ bl_blocks bl = blocks /\
    zlength (bl_root bl) = bl_rootblks bl /\ blist_rep bl (fun _ => false).
Proof.
  intros Hf Hb Hg. unfold blist_create.
  destruct (create_radix_ok blocks fuel 0) as (d & Hd & Hbd & E); [lia | lia | lia |].
  change (create_radix fuel BLIST_BMAP_RADIX 0 blocks) with (create_radix fuel (radixd 0) (skipd 0) blocks).
  rewrite E, bind_Ok.
  destruct (radix_init_spec d BLIST_DEPTH blocks) as (r & Hr & Hnone & Hsome); [unfold BLIST_DEPTH; lia | lia |].
  rewrite Hnone, bind_Ok. cbv zeta.
  destruct (Hsome (garbage (1 + r)) 0) as (m' & -> & Ch & Sk & Au); [lia | rewrite Hg; lia |].
  rewrite bind_Ok. eexists. split; [done|]. cbn [bl_blocks bl_root bl_rootblks default]. split_and!; [done | |].
  - change (zlength m' = 1 + r). rewrite (proj1 Ch), Hg. lia.
  - exists d. cbn. split_and!; try done; try lia.
    + destruct d as [|d]; [|by left]. cbn [all_used] in Au. cbn [cons]. rewrite Au.
      intros j _. apply Z.bits_0.
    + intros j Hj. destruct d as [|d]; [cbn [all_used] in Au; cbn [bfree]; rewrite Au; apply Z.bits_0|].
      rewrite bfree_node. cbn [all_used] in Au. by rewrite Au.
    + by rewrite count_none.
Qed.

(** Copying a tree of [Blist] into another list, and resizing: the blocks that
    are free in the source become free in the destination. *)

(** [k] blocks from [blk], free where [f] says so, added to [g]. *)
Definition plus (g : Z -> bool) (blk k : Z) (f : Z -> bool) (j : Z) : bool :=
  g j || (in_range blk k j && f (j - blk)).

(** A copy of [k] blocks to [blk], that are free by [f] in the source and not
    yet in the destination. *)
Definition copied (run : blist -> result blist) (blk k : Z) (f : Z -> bool) : Prop :=
  forall dest g, blist_rep dest g -> 0 <= blk -> blk + k <= bl_blocks dest ->
  (forall j, blk <= j < blk + k -> g j = false) ->
  exists dest', run dest = Ok dest' /\ bl_blocks dest' = bl_blocks dest /\ blist_rep dest' (plus g blk k f).

Lemma copied_all blk k f :
  1 <= k -> (forall j, 0 <= j < k -> f j = true) -> copied (fun dest => blist_free dest blk k) blk k f.
Proof.
  intros Hk Hf dest g R Hb Hr Hg. destruct (rep_free dest g blk k R Hb Hk Hr Hg) as (dest' & E & B & R').
  exists dest'. split_and!; [done | done |]. eapply rep_ext; [exact R'|]. intros j _. cbn beta.
  unfold plus. destruct (in_range blk k j) eqn:Er; [|done]. apply in_range_iff in Er. by rewrite Hf by lia.
Qed.

Lemma copied_none blk k f : (forall j, 0 <= j < k -> f j = false) -> copied (fun dest => Ok dest) blk k f.
Proof.
  intros Hf dest g R Hb Hr Hg. exists dest. split_and!; [done | done |].
  eapply rep_ext; [exact R|]. intros j _. unfold plus.
  destruct (in_range blk k j) eqn:Er; [|by rewrite orb_false_r]. apply in_range_iff in Er.
  rewrite Hf by lia. by rewrite orb_false_r.
Qed.

(** Two copies side by side. *)
Lemma copied_seq run1 run2 blk k1 k2 f1 f2 f :
  0 <= k1 -> 0 <= k2 -> copied run1 blk k1 f1 -> copied run2 (blk + k1) k2 f2 ->
  (forall j, 0 <= j < k1 -> f j = f1 j) -> (forall j, 0 <= j < k2 -> f (k1 + j) = f2 j) ->
  copied (fun dest => dest ← run1 dest; run2 dest) blk (k1 + k2) f.
Proof.
  intros Hk1 Hk2 C1 C2 F1 F2 dest g R Hb Hr Hg.
  destruct (C1 dest g R Hb ltac:(lia)) as (d1 & E1 & B1 & R1); [intros j Hj; apply Hg; lia|].
  destruct (C2 d1 _ R1 ltac:(lia) ltac:(lia)) as (d2 & E2 & B2 & R2).
  { intros j Hj. unfold plus. rewrite Hg by lia.
    assert (in_range blk k1 j = false) as ->; [|done]. apply not_true_iff_false. rewrite in_range_iff. lia. }
  exists d2. rewrite E1, bind_Ok. split_and!; [done | congruence |].
  eapply rep_ext; [exact R2|]. intros j _. unfold plus at 1 3. unfold plus.
  rewrite (in_range_split blk (k1 + k2) k1 j), <- orb_assoc by lia. f_equal.
  replace (k1 + k2 - k1) with k2 by lia.
  destruct (in_range blk k1 j) eqn:Er.
  - assert (in_range (blk + k1) k2 j = false) as ->.
    { apply not_true_iff_false. apply in_range_iff in Er. rewrite in_range_iff. lia. }
    apply in_range_iff in Er. rewrite F1 by lia. cbn. by rewrite orb_false_r.
  - cbn [orb andb]. destruct (in_range (blk + k1) k2 j) eqn:Er2; [|done]. apply in_range_iff in Er2. cbn [andb].
    rewrite <- F2 by lia. f_equal. lia.
Qed.

Lemma copied_ext run run' blk k f :
  (forall dest, run dest = run' dest) -> copied run blk k f -> copied run' blk k f.
Proof. intros H C dest. rewrite <- H. apply C. Qed.

(** ** Leaves *)

Lemma copy_bits_copied fuel v i blk k :
  0 <= i <= k -> k <= 32 -> k - i < Z.of_nat fuel ->
  copied (copy_bits fuel v i blk k) (blk + i) (k - i) (fun j => Z.testbit v (i + j)).
Proof.
  revert i. induction fuel as [|fuel IH]; intros i Hi Hk Hf; [lia|].
  destruct (decide (i = k)) as [->|Hne].
  { eapply copied_ext; [|apply copied_none; intros j Hj; lia]. intros dest. cbn [copy_bits].
    by rewrite (proj2 (Z.ltb_ge k k)), andb_false_r by lia. }
  eapply copied_ext; cycle 1.
  { replace (k - i) with (1 + (k - (i + 1))) by lia.
    apply (copied_seq (fun dest => if negb (Z.land v (u32 (Z.shiftl 1 i)) =? 0)
        then blist_free dest (blk + i) 1 else Ok dest)
      (copy_bits fuel v (i + 1) blk k) (blk + i) 1 (k - (i + 1))
      (fun j => Z.testbit v (i + j)) (fun j => Z.testbit v (i + 1 + j))); [lia | lia | | | done |].
    - assert (u32 (Z.shiftl 1 i) = Z.shiftl 1 i) as ->.
      { apply u32_small. rewrite Z.shiftl_1_l. split; [by apply Z.pow_nonneg|]. apply Z.pow_lt_mono_r; lia. }
      rewrite land_pow2_testbit, negb_involutive by lia.
      destruct (Z.testbit v i) eqn:Et.
      + apply copied_all; [lia|]. intros j Hj. by replace (i + j) with i by lia.
      + apply copied_none. intros j Hj. by replace (i + j) with i by lia.
    - replace (blk + i + 1) with (blk + (i + 1)) by lia. apply IH; lia.
    - intros j Hj. f_equal. lia. }
  intros dest. cbn [copy_bits]. change BLIST_BMAP_RADIX with 32.
  by rewrite (proj2 (Z.ltb_lt i 32)), (proj2 (Z.ltb_lt i k)) by lia.
Qed.

(** ** Nodes *)

Lemma copied_same run blk k f g : (forall j, 0 <= j < k -> f j = g j) -> copied run blk k f -> copied run blk k g.
Proof.
  intros H C dest h R Hb Hr Hg. destruct (C dest h R Hb Hr Hg) as (d' & E & B & R').
  exists d'. split_and!; [done | done |]. eapply rep_ext; [exact R'|]. intros j _. unfold plus.
  destruct (in_range blk k j) eqn:Er; [|done]. apply in_range_iff in Er. by rewrite H by lia.
Qed.

Lemma copy_kids_copied d call fuel m o n blk k c :
  kids_ok d m o n -> 0 < n <= radixd (S d) -> k <= n -> 0 <= c <= 16 -> 16 - c < Z.of_nat fuel ->
  (forall c' k', 0 <= c' < 16 -> c' * radixd d < n -> 0 < k' <= kidn d n c' ->
    copied (call (kid d o c') (blk + c' * radixd d) k') (blk + c' * radixd d) k' (bfree d m (kid d o c'))) ->
  copied (copy_kids call fuel m o (1 + c * (skipd d + 1)) (skipd (S d)) (skipd d + 1)
      (blk + c * radixd d) (radixd d) (Z.max 0 (k - c * radixd d)))
    (blk + c * radixd d) (Z.max 0 (k - c * radixd d)) (fun j => kfree d m o (c * radixd d + j)).
Proof.
  intros K Hn Hkn. pose proof (radixd_pos d). pose proof (skipd_nonneg d). revert c.
  induction fuel as [|fuel IH]; intros c Hc Hf Hcall; [lia|].
  destruct (Z.le_gt_cases k (c * radixd d)) as [Hle|Hgt].
  { rewrite Z.max_l by lia. eapply copied_ext; [|apply copied_none; intros j Hj; lia]. done. }
  assert (c < 16) as Hc16. { cbn [radixd] in Hn. nia. }
  assert (c * radixd d < n) as Hpr by lia.
  assert (0 < kidn d k c <= kidn d n c) as Hk' by (unfold kidn; lia).
  eapply copied_ext; cycle 1.
  { replace (Z.max 0 (k - c * radixd d)) with (kidn d k c + Z.max 0 (k - (c + 1) * radixd d)) by (unfold kidn; lia).
    apply (copied_seq (call (kid d o c) (blk + c * radixd d) (kidn d k c))
      (copy_kids call fuel m o (1 + (c + 1) * (skipd d + 1)) (skipd (S d)) (skipd d + 1)
        (blk + (c + 1) * radixd d) (radixd d) (Z.max 0 (k - (c + 1) * radixd d)))
      _ _ _ (bfree d m (kid d o c)) (fun j => kfree d m o ((c + 1) * radixd d + j))); [lia | lia | | | |].
    - apply Hcall; lia.
    - destruct (Z.le_gt_cases k ((c + 1) * radixd d)) as [Hle|Hgt2].
      + rewrite Z.max_l by lia. eapply copied_ext; [|apply copied_none; intros j Hj; lia].
        intros dest. destruct fuel; [lia | done].
      + replace (blk + c * radixd d + kidn d k c) with (blk + (c + 1) * radixd d) by (unfold kidn; lia).
        apply IH; [lia | lia |]. intros c' k' ? ? ?. by apply Hcall.
    - intros j Hj. unfold kfree. by destruct (kid_block d c j) as [-> ->]; [unfold kidn in Hj; lia|].
    - intros j Hj. f_equal. unfold kidn in *. lia. }
  intros dest. cbn [copy_kids].
  replace (Z.max 0 (k - c * radixd d)) with (k - c * radixd d) by lia.
  rewrite kid_more by done. rewrite (proj2 (Z.ltb_lt c 16)) by lia.
  rewrite (proj2 (Z.eqb_neq (k - c * radixd d) 0)) by lia. cbn [negb andb].
  destruct (skel_in d m _ _ (ko_skel _ _ _ _ K c ltac:(lia) Hpr)) as [Hin Hh].
  rewrite kid_index, kid_next, bl_get_ok, bind_Ok by done.
  rewrite (proj2 (Z.eqb_neq (hint m (kid d o c)) (-1))) by lia.
  assert ((if radixd d <=? k - c * radixd d then radixd d else k - c * radixd d) = kidn d k c) as ->
    by (unfold kidn; zcase; lia).
  replace (k - c * radixd d - kidn d k c) with (Z.max 0 (k - (c + 1) * radixd d)) by (unfold kidn; lia).
  replace (blk + c * radixd d + radixd d) with (blk + (c + 1) * radixd d) by lia. done.
Qed.

Lemma copy_leaf_unfold fuel m o blk dest k :
  in_tree m o ->
  blst_copy (S fuel) m o blk (radixd 0) (skipd 0) dest k =
  (if bits m o =? all_ones then blist_free dest blk k
   else if negb (bits m o =? 0) then copy_bits 33 (bits m o) 0 blk k dest
   else Ok dest).
Proof. intros Hi. cbn [blst_copy]. by rewrite bl_get_ok. Qed.

Lemma copy_node_unfold d fuel m o blk dest k :
  in_tree m o ->
  blst_copy (S fuel) m o blk (radixd (S d)) (skipd (S d)) dest k =
  (if avail m o =? 0 then Ok dest
   else if avail m o =? radixd (S d) then
     if k <? radixd (S d) then blist_free dest blk k else blist_free dest blk (radixd (S d))
   else
     copy_kids (fun i blk n dest => blst_copy fuel m i blk (radixd d) (skipd d + 1 - 1) dest n)
       17 m o 1 (skipd (S d)) (skipd d + 1) blk (radixd d) k dest).
Proof.
  intros Hi. cbn [blst_copy]. rewrite bl_get_ok, bind_Ok by done.
  rewrite radixd_leaf, next_skip_leaf, quot_skip, quot_radix. done.
Qed.

Lemma blst_copy_copied d fuel m o n blk k :
  (d < fuel)%nat -> skel d m o n -> cons d m o n -> 0 < n <= radixd d -> 0 < k <= n ->
  copied (fun dest => blst_copy fuel m o blk (radixd d) (skipd d) dest k) blk k (bfree d m o).
Proof.
  revert fuel o n blk k. induction d as [|d IH]; intros [|fuel] o n blk k Hf Sk Co Hn Hk; try lia;
    destruct (skel_in _ m o n Sk) as [Hi Hh].
  - eapply copied_ext; [intros dest; symmetry; by apply copy_leaf_unfold|]. cbn beta.
    cbn [radixd] in Hn.
    destruct (Z.eqb_spec (bits m o) all_ones) as [E|E].
    + apply copied_all; [lia|]. intros j Hj. cbn [bfree]. rewrite E. change all_ones with (Z.ones 32).
      rewrite testbit_ones by lia. by ztest.
    + destruct (Z.eqb_spec (bits m o) 0) as [E0|E0]; cbn [negb].
      * apply copied_none. intros j _. cbn [bfree]. rewrite E0. apply Z.bits_0.
      * pose proof (copy_bits_copied 33 (bits m o) 0 blk k ltac:(lia) ltac:(lia) ltac:(lia)) as Hc.
        rewrite Z.add_0_r, Z.sub_0_r in Hc. eapply copied_same; [|exact Hc]. done.
  - pose proof (radixd_pos (S d)) as Hr. pose proof (radixd_pos d).
    eapply copied_ext; [intros dest; symmetry; by apply copy_node_unfold|]. cbn beta.
    destruct (Z.eqb_spec (avail m o) 0) as [E0|E0].
    { apply copied_none. intros j _. by rewrite bfree_node, E0. }
    destruct (Z.eqb_spec (avail m o) (radixd (S d))) as [E1|E1].
    { assert (forall j, 0 <= j < k -> bfree (S d) m o j = true) as Hall.
      { intros j _. rewrite bfree_node, E1. by ztest. }
      destruct (Z.ltb_spec k (radixd (S d))); [by apply copied_all; [lia|]|].
      replace (radixd (S d)) with k by lia. by apply copied_all; [lia|]. }
    apply (proj1 (cons_kids _ _ _ _)) in Co as [?|[[? ?]|[Ck Ha]]]; [done | done |].
    apply skel_kids in Sk as (_ & _ & Sk & Te).
    assert (kids_ok d m o n) as K by by constructor.
    pose proof (copy_kids_copied d (fun i blk n dest => blst_copy fuel m i blk (radixd d) (skipd d + 1 - 1) dest n)
      17 m o n blk k 0 K Hn ltac:(lia) ltac:(lia) ltac:(lia)) as Hc.
    rewrite Z.mul_0_l, !Z.add_0_r, Z.sub_0_r, Z.max_r in Hc by lia.
    eapply copied_same; [|apply Hc].
    + intros j Hj. cbn beta. rewrite Z.add_0_l. symmetry. eapply bfree_kids; [exact Ha | done | lia].
    + intros c k' Hc' Hp Hk'. replace (skipd d + 1 - 1) with (skipd d) by lia.
      apply (IH fuel _ (kidn d n c)); [lia | by apply Sk | by apply Ck | unfold kidn; lia | done].
Qed.

Lemma rep_resize fuel garbage save f count freenew :
  (6 < fuel)%nat -> 0 < count <= 2 ^ 29 -> (forall n, zlength (garbage n) = Z.max 0 n) ->
  blist_rep save f ->
  exists bl', blist_resize fuel garbage save count freenew = Ok bl' /\ bl_blocks bl' = count /\
    blist_rep bl' (fun j => if j <? bl_blocks save then f j else freenew).
Proof.
  intros Hf Hc Hg R. pose proof (rep_blocks save f R) as Hb.
  destruct (rep_create fuel garbage count Hf Hc Hg) as (nb & E & Bn & _ & Rn).
  unfold blist_resize. rewrite E, bind_Ok. cbv zeta.
  set (k := if bl_blocks save <? count then bl_blocks save else count).
  assert (k = Z.min count (bl_blocks save)) as Ek by (unfold k; zcase; lia). rewrite Ek. clear Ek k.
  set (k := Z.min count (bl_blocks save)).
  destruct R as (d & Hd & Rr & Rs & N & S & C & F & Ef). rewrite Rr, Rs.
  destruct (blst_copy_copied d BLIST_DEPTH (bl_root save) 0 (bl_blocks save) 0 k ltac:(unfold BLIST_DEPTH; lia)
    S C N ltac:(lia) nb _ Rn) as (b1 & -> & B1 & R1); [lia | lia | done |].
  rewrite bind_Ok, B1, Bn.
  assert (blist_rep b1 (fun j => (j <? k) && f j)) as R1'.
  { eapply rep_ext; [exact R1|]. intros j Hj. unfold plus. rewrite Z.sub_0_r. cbn [orb].
    unfold in_range. rewrite Z.add_0_l. rewrite (proj2 (Z.leb_le 0 j)) by lia. cbn [andb].
    destruct (Z.ltb_spec j k); [|done]. cbn [andb]. apply F. lia. }
  destruct freenew; cbn [andb]; cycle 1.
  { exists b1. split_and!; [done | lia |]. eapply rep_ext; [exact R1'|]. intros j Hj. cbn beta.
    destruct (Z.ltb_spec j k), (Z.ltb_spec j (bl_blocks save)); try done; lia. }
  destruct (Z.ltb_spec k count) as [Hlt|Hge].
  - destruct (rep_free b1 _ k (count - k) R1') as (b2 & -> & B2 & R2); [lia | lia | lia | |].
    { intros j Hj. by rewrite (proj2 (Z.ltb_ge j k)) by lia. }
    exists b2. split_and!; [done | lia |]. eapply rep_ext; [exact R2|]. intros j Hj. cbn beta.
    destruct (Z.ltb_spec j k), (Z.ltb_spec j (bl_blocks save)); cbn [andb orb]; try lia.
    + destruct (f j); [done|]. cbn [orb]. apply not_true_iff_false. rewrite in_range_iff. lia.
    + apply in_range_iff. lia.
  - exists b1. split_and!; [done | lia |]. eapply rep_ext; [exact R1'|]. intros j Hj. cbn beta.
    destruct (Z.ltb_spec j k), (Z.ltb_spec j (bl_blocks save)); try done; lia.
Qed.
