(* ===== verification/BlistProps.v ===== *)
(** Theorems on the swap block lists of [Blist]: the interface refines a set of
    free blocks, creation ends exactly for the sizes an [int] radix can cover,
    resizing keeps the set, and no block is ever given out twice. *)

From stdpp Require Import base list.
From S2P Require Import Prelude Blist.
From S2P Require Import BlistTree.
From S2P Require Import BlistLeaf.
From S2P Require Import BlistAlloc.
From S2P Require Import BlistFree.
From S2P Require Import BlistRep.
From S2P Require Import BlistRep.
From S2P Require Import BlistRep.

(** Memory as the allocator leaves it. *)
Definition ex_garbage (n : Z) : tree := replicate (Z.to_nat n) (MkBlmeta 77 77).

Lemma ex_garbage_length n : zlength (ex_garbage n) = Z.max 0 n.
Proof. unfold zlength, ex_garbage. rewrite length_replicate. lia. Qed.

Definition ex_list (blocks : Z) (frees : list (Z * Z)) : blist :=
  match blist_create 8 ex_garbage blocks with
  | Ok bl => foldl (fun bl p => match blist_free bl p.1 p.2 with Ok bl => bl | Panic _ => bl end) bl frees
  | Panic _ => MkBlist 0 0 0 0 [] 0
  end.

Lemma ex_list_rep : blist_rep (ex_list 700 [(10, 600)]) (in_range 10 600).
Proof.
  destruct (rep_create 8 ex_garbage 700) as (bl & E & B & _ & R); [lia | lia | apply ex_garbage_length |].
  unfold ex_list. rewrite E. cbn [foldl fst snd].
  destruct (rep_free bl _ 10 600 R) as (bl' & -> & B' & R'); [lia | lia | lia | done |].
  eapply rep_ext; [exact R'|]. done.
Qed.

(** ** Refinement *)

(** C17: [blist_alloc] of 1 to 32 blocks on a list whose free blocks are [f]
    returns a range of blocks that were all free and are now exactly the ones
    taken, or [SWAPBLK_NONE] and the same free blocks; the array is never
    accessed out of bounds and the free count stays exact. *)
Theorem blist_alloc_correct (bl : blist) (f : Z -> bool) (count : Z) :
  blist_rep bl f -> 1 <= count <= 32 ->
  exists r bl', blist_alloc bl count = Ok (r, bl') /\ bl_blocks bl' = bl_blocks bl /\
  ((r = SWAPBLK_NONE /\ blist_rep bl' f) \/
   (0 <= r /\ r + count <= bl_blocks bl /\ (forall j, r <= j < r + count -> f j = true) /\
    blist_rep bl' (fun j => f j && negb (in_range r count j)))).
Proof. apply rep_alloc. Qed.

Example blist_alloc_correct_witness :
  exists r bl', blist_alloc (ex_list 700 [(10, 600)]) 20 = Ok (r, bl').
Proof.
  destruct (blist_alloc_correct (ex_list 700 [(10, 600)]) (in_range 10 600) 20 ex_list_rep ltac:(lia))
    as (r & bl' & H & _).
  exists r, bl'. exact H.
Defined.

(** C18: [blist_free] of any allocated range, across any number of nodes, makes
    exactly it free. [blist_fill] of any range that starts in the list and
    ends by the end of its last leaf has one of two outcomes, and [fill_fits]
    says which: it makes exactly the range allocated, whatever was allocated
    in it before, and returns how many of its blocks were free; or it panics.
    It panics when in some node that has free blocks the part of the range is
    longer than a child of the node and is not the full radix of the node; a
    range of at most 32 blocks never does. *)
Theorem blist_free_fill_correct (bl : blist) (f : Z -> bool) (d : nat) (blkno count : Z) :
  blist_rep bl f -> bl_radix bl = radixd d -> 0 <= blkno -> 1 <= count ->
  (blkno + count <= bl_blocks bl -> (forall j, blkno <= j < blkno + count -> f j = false) ->
   exists bl', blist_free bl blkno count = Ok bl' /\ bl_blocks bl' = bl_blocks bl /\
     blist_rep bl' (fun j => f j || in_range blkno count j)) /\
  (blkno + count <= up32 (bl_blocks bl) ->
   if fill_fits d f (bl_blocks bl) blkno count
   then exists bl', blist_fill bl blkno count =
       Ok (n_free (bl_blocks bl) (fun j => f j && in_range blkno count j), bl') /\
     bl_blocks bl' = bl_blocks bl /\ blist_rep bl' (fun j => f j && negb (in_range blkno count j))
   else blist_fill bl blkno count = Panic "blist_meta_fill: allocation too large") /\
  (count <= 32 -> fill_fits d f (bl_blocks bl) blkno count = true).
Proof.
  intros R Rd Hb Hc. split_and!.
  - intros Hn Hf. by apply rep_free.
  - intros Hn. by apply rep_fill.
  - intros H32. by apply fill_fits_32.
Qed.

(** Blocks are freed; a fill of 64 blocks in a node with free blocks panics; a
    fill of a node's full radix does not. *)
Example blist_free_fill_correct_witness :
  (exists bl', blist_free (ex_list 700 [(10, 600)]) 650 20 = Ok bl') /\
  blist_fill (ex_list 700 [(10, 600)]) 64 64 = Panic "blist_meta_fill: allocation too large" /\
  exists bl', blist_fill (ex_list 700 [(10, 600)]) 0 512 = Ok (502, bl').
Proof.
  destruct (blist_free_fill_correct (ex_list 700 [(10, 600)]) (in_range 10 600) 2 650 20
    ex_list_rep eq_refl ltac:(lia) ltac:(lia)) as (H1 & _ & _).
  destruct (blist_free_fill_correct (ex_list 700 [(10, 600)]) (in_range 10 600) 2 64 64
    ex_list_rep eq_refl ltac:(lia) ltac:(lia)) as (_ & H2 & _).
  destruct (blist_free_fill_correct (ex_list 700 [(10, 600)]) (in_range 10 600) 2 0 512
    ex_list_rep eq_refl ltac:(lia) ltac:(lia)) as (_ & H3 & _).
  split_and!.
  - destruct H1 as (bl' & E & _); [vm_compute; discriminate | | by exists bl'].
    intros j Hj. apply not_true_iff_false. rewrite in_range_iff. lia.
  - assert (fill_fits 2 (in_range 10 600) (bl_blocks (ex_list 700 [(10, 600)])) 64 64 = false) as E
      by by vm_compute.
    rewrite E in H2. apply H2. vm_compute. discriminate.
  - assert (fill_fits 2 (in_range 10 600) (bl_blocks (ex_list 700 [(10, 600)])) 0 512 = true) as E
      by by vm_compute.
    rewrite E in H3. destruct H3 as (bl' & E3 & _); [vm_compute; discriminate|].
    assert (n_free (bl_blocks (ex_list 700 [(10, 600)])) (fun j => in_range 10 600 j && in_range 0 512 j) = 502)
      as En by by vm_compute.
    rewrite En in E3. exists bl'. exact E3.
Defined.

(** ** Creation *)

(** C24: [blist_create] ends within seven rounds of its radix loop for every size
    up to 2^29 blocks, with a list of that many blocks all allocated in an
    array as large as the sizing pass said; for more blocks, though 2^31 are
    documented, the [int] radix overflows to 0 and the loop never ends. *)
Theorem blist_create_terminates (fuel : nat) (garbage : Z -> tree) (blocks : Z) :
  (forall n, zlength (garbage n) = Z.max 0 n) -> 0 < blocks ->
  (blocks <= 2 ^ 29 -> (6 < fuel)%nat ->
   exists bl, blist_create fuel garbage blocks = Ok bl /\ bl_blocks bl = blocks /\
     zlength (bl_root bl) = bl_rootblks bl /\ blist_rep bl (fun _ => false)) /\
  (2 ^ 29 < blocks -> create_radix fuel BLIST_BMAP_RADIX 0 blocks = Panic "fuel").
Proof.
  intros Hg Hb. split.
  - intros H29 Hf. by apply rep_create.
  - intros H29. apply (create_radix_diverges fuel 0); [lia | done].
Qed.

Example blist_create_terminates_witness :
  exists bl, blist_create 7 ex_garbage 700 = Ok bl /\ blist_rep bl (fun _ => false).
Proof.
  destruct (proj1 (blist_create_terminates 7 ex_garbage 700 ex_garbage_length ltac:(lia))) as (bl & H & _ & _ & R);
    [lia | lia |].
  exists bl. split; [exact H | exact R].
Defined.

(** ** Resizing *)

(** [blist_resize] keeps the free and the allocated blocks that both sizes
    have, and makes the new ones free or allocated as asked. *)
Theorem blist_resize_correct (fuel : nat) (garbage : Z -> tree) (save : blist) (f : Z -> bool)
    (count : Z) (freenew : bool) :
  (6 < fuel)%nat -> 0 < count <= 2 ^ 29 -> (forall n, zlength (garbage n) = Z.max 0 n) ->
  blist_rep save f ->
  exists bl', blist_resize fuel garbage save count freenew = Ok bl' /\ bl_blocks bl' = count /\
    blist_rep bl' (fun j => if j <? bl_blocks save then f j else freenew).
Proof. apply rep_resize. Qed.

Example blist_resize_correct_witness :
  exists bl', blist_resize 8 ex_garbage (ex_list 700 [(10, 600)]) 9000 true = Ok bl'.
Proof.
  destruct (blist_resize_correct 8 ex_garbage (ex_list 700 [(10, 600)]) (in_range 10 600) 9000 true)
    as (bl' & H & _); [lia | lia | apply ex_garbage_length | apply ex_list_rep |].
  exists bl'. exact H.
Defined.

(** ** Swap space in use *)

(** The lists that the swap code gets to by allocating and by freeing what it
    was given, with the ranges it holds. *)
Inductive swap_reach (garbage : Z -> tree) (blocks : Z) : blist -> list (Z * Z) -> Prop :=
  | sr_init bl bl' :
      blist_create 8 garbage blocks = Ok bl -> blist_free bl 0 blocks = Ok bl' ->
      swap_reach garbage blocks bl' []
  | sr_alloc bl held count r bl' :
      swap_reach garbage blocks bl held -> 1 <= count <= 32 -> blist_alloc bl count = Ok (r, bl') ->
      swap_reach garbage blocks bl' (if r =? SWAPBLK_NONE then held else (r, count) :: held)
  | sr_free bl held1 r count held2 bl' :
      swap_reach garbage blocks bl (held1 ++ (r, count) :: held2) -> blist_free bl r count = Ok bl' ->
      swap_reach garbage blocks bl' (held1 ++ held2).

Definition holds (held : list (Z * Z)) (j : Z) : bool := existsb (fun p => in_range p.1 p.2 j) held.

Definition apart (p q : Z * Z) : Prop := p.1 + p.2 <= q.1 \/ q.1 + q.2 <= p.1.

(** The ranges are in the list, apart from each other, and the rest is free. *)
Record swap_ok (blocks : Z) (bl : blist) (held : list (Z * Z)) : Prop := {
  so_blocks : bl_blocks bl = blocks;
  so_rep : blist_rep bl (fun j => negb (holds held j));
  so_in : Forall (fun p => 0 <= p.1 /\ 1 <= p.2 /\ p.1 + p.2 <= blocks) held;
  so_apart : ForallOrdPairs apart held
}.

Lemma holds_app l1 l2 j : holds (l1 ++ l2) j = holds l1 j || holds l2 j.
Proof. apply existsb_app. Qed.

Lemma apart_remove l1 p l2 :
  ForallOrdPairs apart (l1 ++ p :: l2) -> ForallOrdPairs apart (l1 ++ l2) /\ Forall (apart p) (l1 ++ l2).
Proof.
  induction l1 as [|q l1 IH]; cbn; intros H; inversion H as [|? ? Hq Hl]; subst; [done|].
  destruct (IH Hl) as [H1 H2]. apply Forall_app in Hq as [Hq1 [Hq2 Hq3]%Forall_cons]. split.
  - constructor; [by apply Forall_app | done].
  - constructor; [destruct Hq2; [by right | by left] | done].
Qed.

Lemma apart_holds p l j :
  Forall (apart p) l -> in_range p.1 p.2 j = true -> holds l j = false.
Proof.
  intros H Hj. apply in_range_iff in Hj. induction H as [|q l Hq _ IH]; [done|]. cbn.
  unfold holds in IH. rewrite IH, orb_false_r. apply not_true_iff_false. rewrite in_range_iff.
  destruct Hq; lia.
Qed.

Lemma free_apart l r k blocks :
  Forall (fun p => 0 <= p.1 /\ 1 <= p.2 /\ p.1 + p.2 <= blocks) l -> 1 <= k ->
  (forall j, r <= j < r + k -> negb (holds l j) = true) -> Forall (apart (r, k)) l.
Proof.
  intros H Hk Hf. induction H as [|p l (H1 & H2 & H3) _ IH]; [done|]. constructor.
  - unfold apart. cbn. destruct (Z.le_gt_cases (r + k) p.1) as [|Ha]; [by left|]. right.
    apply Z.nlt_ge. intros Hb. specialize (Hf (Z.max r p.1) ltac:(lia)). cbn in Hf.
    rewrite (proj2 (in_range_iff p.1 p.2 (Z.max r p.1))) in Hf by lia. discriminate.
  - apply IH. intros j Hj. specialize (Hf j Hj). cbn in Hf.
    apply negb_true_iff, orb_false_iff in Hf as [_ Hf]. apply negb_true_iff. exact Hf.
Qed.

Lemma swap_ok_reach garbage blocks bl held :
  (forall n, zlength (garbage n) = Z.max 0 n) -> 0 < blocks <= 2 ^ 29 ->
  swap_reach garbage blocks bl held -> swap_ok blocks bl held.
Proof.
  intros Hg Hb H. induction H as [bl bl' Hc Hf|bl held count r bl' _ [B R I A] Hc Ha
                                 |bl h1 r count h2 bl' _ [B R I A] Hf].
  - destruct (rep_create 8 garbage blocks ltac:(lia) Hb Hg) as (bl0 & E & B & _ & R).
    rewrite Hc in E. injection E as <-.
    destruct (rep_free bl _ 0 blocks R) as (bl1 & E1 & B1 & R1); [lia | lia | lia | done |].
    rewrite Hf in E1. injection E1 as <-. constructor; [congruence | | constructor | constructor].
    eapply rep_ext; [exact R1|]. intros j Hj. cbn. apply in_range_iff. lia.
  - destruct (rep_alloc bl _ count R Hc) as (r' & bl1 & E & B1 & Hres). rewrite Ha in E. injection E as <- <-.
    destruct Hres as [[-> R1]|(Hr0 & Hr1 & Hfree & R1)].
    + rewrite Z.eqb_refl. constructor; [congruence | done | done | done].
    + pose proof (rep_blocks _ _ R). rewrite (proj2 (Z.eqb_neq r SWAPBLK_NONE)) by (unfold SWAPBLK_NONE; lia).
      constructor; [congruence | | |].
      * eapply rep_ext; [exact R1|]. intros j Hj. cbn. rewrite negb_orb. apply andb_comm.
      * constructor; [cbn; lia | done].
      * constructor; [by eapply free_apart; [|lia|] | done].
  - destruct (apart_remove h1 (r, count) h2 A) as [A1 A2].
    apply Forall_app in I as [I1 [Ip I2]%Forall_cons]. cbn in Ip.
    destruct (rep_free bl _ r count R) as (bl1 & E1 & B1 & R1); [lia | lia | lia | |].
    { intros j Hj. rewrite holds_app. cbn [holds existsb fst snd].
      rewrite (proj2 (in_range_iff r count j)) by done. cbn. by rewrite orb_true_r. }
    rewrite Hf in E1. injection E1 as <-. constructor; [congruence | | by apply Forall_app | done].
    eapply rep_ext; [exact R1|]. intros j Hj. cbn beta. rewrite !holds_app. cbn [holds existsb fst snd].
    destruct (in_range r count j) eqn:Er.
    + rewrite orb_true_r. symmetry. apply negb_true_iff. rewrite <- holds_app.
      by apply (apart_holds (r, count)).
    + by rewrite orb_false_l, orb_false_r.
Qed.

(** C14: over any sequence of allocations and of frees of what was allocated, on a
    list of up to 2^29 blocks that started all free, the ranges held are apart
    from each other and within the list, all the other blocks are free and
    exactly counted, and no further such call panics. *)
Theorem swap_blocks_exclusive (garbage : Z -> tree) (blocks : Z) (bl : blist) (held : list (Z * Z)) :
  (forall n, zlength (garbage n) = Z.max 0 n) -> 0 < blocks <= 2 ^ 29 ->
  swap_reach garbage blocks bl held ->
  Forall (fun p => 0 <= p.1 /\ p.1 + p.2 <= blocks) held /\ ForallOrdPairs apart held /\
  bl_free bl = n_free blocks (fun j => negb (holds held j)) /\
  (forall count, 1 <= count <= 32 -> exists r bl', blist_alloc bl count = Ok (r, bl')) /\
  (forall held1 r count held2, held = held1 ++ (r, count) :: held2 ->
    exists bl', blist_free bl r count = Ok bl').
Proof.
  intros Hg Hb H. destruct (swap_ok_reach garbage blocks bl held Hg Hb H) as [B R I A]. split_and!.
  - eapply Forall_impl; [exact I|]. intros p (? & ? & ?). done.
  - done.
  - destruct R as (d & _ & _ & _ & _ & _ & _ & _ & ->). by rewrite B.
  - intros count Hc. destruct (rep_alloc bl _ count R Hc) as (r & bl' & E & _). by exists r, bl'.
  - intros h1 r count h2 ->. apply Forall_app in I as [_ [Ip _]%Forall_cons]. cbn in Ip.
    destruct (rep_free bl _ r count R) as (bl' & E & _); [lia | lia | lia | |by exists bl'].
    intros j Hj. rewrite holds_app. cbn [holds existsb fst snd].
    rewrite (proj2 (in_range_iff r count j)) by done. cbn. by rewrite orb_true_r.
Qed.

Example swap_blocks_exclusive_witness :
  exists bl held, swap_reach ex_garbage 700 bl held /\ ForallOrdPairs apart held.
Proof.
  assert (exists bl held, swap_reach ex_garbage 700 bl held) as (bl & held & H).
  { destruct (rep_create 8 ex_garbage 700 ltac:(lia) ltac:(lia) ex_garbage_length) as (bl & E & B & _ & R).
    destruct (rep_free bl _ 0 700 R) as (bl' & E' & B' & R'); [lia | lia | lia | done |].
    destruct (rep_alloc bl' _ 20 R' ltac:(lia)) as (r & bl2 & E2 & _).
    eexists _, _. eapply (sr_alloc _ _ _ _ 20); [by eapply sr_init | lia | exact E2]. }
  exists bl, held. split; [exact H|].
  exact (proj1 (proj2 (swap_blocks_exclusive ex_garbage 700 bl held ex_garbage_length
    ltac:(split; [reflexivity | discriminate]) H))).
Defined.

(** ** Where the hints and the counts mislead *)

(** The results of the calls of a trial; 0 for a free. *)
Definition trial (blocks : Z) (calls : list (bool * Z * Z)) : result (list Z * Z) :=
  bl ← blist_create 8 ex_garbage blocks;
  '(rs, bl) ← foldl (fun acc c =>
      '(rs, bl) ← acc;
      let '(alloc, blkno, count) := c in
      if alloc : bool then '(r, bl) ← blist_alloc bl count; Ok (rs ++ [r], bl)
      else bl ← blist_free bl blkno count; Ok (rs ++ [0], bl))
    (Ok ([], bl)) calls;
  Ok (rs, bl_free bl).

(** A free that completes a node returns before it raises the node's hint: 512
    blocks in a row are free, and yet 2 are not to be had. *)
Theorem free_leaves_hint_stale :
  trial 1024 [(false, 0, 1); (true, 0, 32); (true, 0, 2); (false, 1, 511); (true, 0, 2)] =
  Ok ([0; SWAPBLK_NONE; SWAPBLK_NONE; 0; SWAPBLK_NONE], 512).
Proof. vm_compute. reflexivity. Qed.

(** A second free of the same half of a node completes its count: no panic, and
    the other half is given out though it was never freed. *)
Theorem double_free_undetected :
  trial 512 ([(false, 0, 256); (false, 0, 256)] ++ replicate 9 (true, 0, 32)) =
  Ok ([0; 0] ++ (Z.mul 32 <$> seqZ 0 9), 512 - 9 * 32).
Proof. vm_compute. reflexivity. Qed.
