(* ===== verification/Caps.v ===== *)
(** Capability rights: src/sys/kern/subr_capability.c, the checks of
    src/sys/kern/sys_capability.c and [struct filecaps] of
    src/sys/kern/kern_descrip.c.

    A [cap_rights_t] is the list of its 64-bit words. Variable arguments are
    the list of the rights before the terminating 0. *)

From S2P Require Import Prelude.

(** ** capsicum.h and caprights.h *)

Definition CAPRIGHT (idx bit : Z) : Z := Z.lor (Z.shiftl 1 (57 + idx)) bit.
Definition CAP_RIGHTS_VERSION_00 : Z := 0.
Definition CAP_RIGHTS_VERSION : Z := CAP_RIGHTS_VERSION_00.
Definition CAP_FCNTL : Z := CAPRIGHT 0 0x8000.
Definition CAP_ALL0 : Z := CAPRIGHT 0 0x7ffffffffff.
Definition CAP_IOCTL : Z := CAPRIGHT 1 0x80.
Definition CAP_ALL1 : Z := CAPRIGHT 1 0x1fffff.
Definition CAP_FCNTL_ALL : Z := Z.lor (2 ^ 3) (Z.lor (2 ^ 4) (Z.lor (2 ^ 5) (2 ^ 6))).

Abbreviation cap_rights_t := (list Z).

Definition CAP_ALL : cap_rights_t := [Z.lor (Z.shiftl CAP_RIGHTS_VERSION 62) CAP_ALL0; CAP_ALL1].
Definition CAP_NONE : cap_rights_t :=
  [Z.lor (Z.shiftl CAP_RIGHTS_VERSION 62) (CAPRIGHT 0 0); CAPRIGHT 1 0].

Definition CAPRVER (rt : Z) : Z := Z.shiftr rt 62.
Definition CAPVER (rights : cap_rights_t) : Z := CAPRVER (zget rights 0).
Definition CAPARSIZE (rights : cap_rights_t) : Z := CAPVER rights + 2.
Definition CAPIDXBIT (rt : Z) : Z := Z.land (Z.shiftr rt 57) 0x1f.

(** ** subr_capability.c *)

Definition CAPARSIZE_MIN : Z := CAP_RIGHTS_VERSION_00 + 2.
Definition CAPARSIZE_MAX : Z := CAP_RIGHTS_VERSION + 2.

Definition bit2idx : list Z :=
  [-1; 0; 1; -1; 2; -1; -1; -1; 3; -1; -1; -1; -1; -1; -1; -1;
   4; -1; -1; -1; -1; -1; -1; -1; -1; -1; -1; -1; -1; -1; -1; -1].

Definition right_to_index (rt : Z) : result Z :=
  let idx := CAPIDXBIT rt in
  _ ← require ((0 <=? idx) && (idx <? zlength bit2idx)) "right_to_index";
  Ok (zget bit2idx idx).

(** The assertions on entry: the version, and the number of words. *)
Definition caparsize (rights : cap_rights_t) : result Z :=
  _ ← require (CAPVER rights =? CAP_RIGHTS_VERSION_00) "cap_rights: version";
  let n := CAPARSIZE rights in
  _ ← require ((CAPARSIZE_MIN <=? n) && (n <=? CAPARSIZE_MAX)) "cap_rights: size";
  Ok n.

(** The word that an argument is about. *)
Definition right_word (rights : cap_rights_t) (n rt : Z) : result Z :=
  _ ← require (CAPRVER rt =? 0) "cap_rights: right";
  i ← right_to_index rt;
  _ ← require (0 <=? i) "cap_rights: index";
  _ ← require (i <? n) "cap_rights: index";
  _ ← require (CAPIDXBIT (zget rights i) =? CAPIDXBIT rt) "cap_rights: word";
  Ok i.

Fixpoint vset_loop (rights : cap_rights_t) (n : Z) (ap : list Z) : result cap_rights_t :=
  match ap with
  | [] => Ok rights
  | rt :: ap' =>
      if rt =? 0 then Ok rights
      else
        i ← right_word rights n rt;
        let rights := zset rights i (Z.lor (zget rights i) rt) in
        _ ← require (CAPIDXBIT (zget rights i) =? CAPIDXBIT rt) "cap_rights: word";
        vset_loop rights n ap'
  end.

Definition cap_rights_vset (rights : cap_rights_t) (ap : list Z) : result cap_rights_t :=
  n ← caparsize rights; vset_loop rights n ap.

Fixpoint vclear_loop (rights : cap_rights_t) (n : Z) (ap : list Z) : result cap_rights_t :=
  match ap with
  | [] => Ok rights
  | rt :: ap' =>
      if rt =? 0 then Ok rights
      else
        i ← right_word rights n rt;
        let rights := zset rights i (Z.land (zget rights i) (Z.lnot (Z.land rt 0x01ffffffffffffff))) in
        _ ← require (CAPIDXBIT (zget rights i) =? CAPIDXBIT rt) "cap_rights: word";
        vclear_loop rights n ap'
  end.

Definition cap_rights_vclear (rights : cap_rights_t) (ap : list Z) : result cap_rights_t :=
  n ← caparsize rights; vclear_loop rights n ap.

Fixpoint is_vset_loop (rights : cap_rights_t) (n : Z) (ap : list Z) : result bool :=
  match ap with
  | [] => Ok true
  | rt :: ap' =>
      if rt =? 0 then Ok true
      else
        i ← right_word rights n rt;
        if negb (Z.land (zget rights i) rt =? rt) then Ok false
        else is_vset_loop rights n ap'
  end.

Definition cap_rights_is_vset (rights : cap_rights_t) (ap : list Z) : result bool :=
  n ← caparsize rights; is_vset_loop rights n ap.

Definition cap_rights_init (ap : list Z) : result cap_rights_t := cap_rights_vset CAP_NONE ap.
Definition cap_rights_set (rights : cap_rights_t) (ap : list Z) : result cap_rights_t :=
  cap_rights_vset rights ap.
Definition cap_rights_clear (rights : cap_rights_t) (ap : list Z) : result cap_rights_t :=
  cap_rights_vclear rights ap.
Definition cap_rights_is_set (rights : cap_rights_t) (ap : list Z) : result bool :=
  cap_rights_is_vset rights ap.

(** [for (i = 0; i < n; i++)] *)
Definition words (n : Z) : list Z := seqZ 0 n.

Definition cap_rights_contains (big little : cap_rights_t) : result bool :=
  n ← caparsize big;
  _ ← require (CAPVER little =? CAP_RIGHTS_VERSION_00) "cap_rights: version";
  Ok (forallb (fun i => Z.land (zget big i) (zget little i) =? zget little i) (words n)).

Fixpoint valid_loop (rights : cap_rights_t) (ix : list Z) : result bool :=
  match ix with
  | [] => Ok true
  | i :: ix' =>
      j ← right_to_index (zget rights i);
      if negb (i =? j) then Ok false
      else if (0 <? i) && negb (CAPRVER (zget rights i) =? 0) then Ok false
      else valid_loop rights ix'
  end.

Definition cap_rights_is_valid (rights : cap_rights_t) : result bool :=
  if negb (CAPVER rights =? CAP_RIGHTS_VERSION_00) then Ok false
  else if (CAPARSIZE rights <? CAPARSIZE_MIN) || (CAPARSIZE_MAX <? CAPARSIZE rights) then Ok false
  else
    c ← cap_rights_contains CAP_ALL rights;
    if negb c then Ok false else valid_loop rights (words (CAPARSIZE rights)).

(** The assertions of [cap_rights_merge] and [cap_rights_remove]. *)
Definition both_valid (dst src : cap_rights_t) (k : result cap_rights_t) : result cap_rights_t :=
  _ ← require (CAPVER dst =? CAP_RIGHTS_VERSION_00) "cap_rights: version";
  _ ← require (CAPVER src =? CAP_RIGHTS_VERSION_00) "cap_rights: version";
  v ← cap_rights_is_valid src;
  _ ← require v "cap_rights: src";
  v ← cap_rights_is_valid dst;
  _ ← require v "cap_rights: dst";
  dst ← k;
  v ← cap_rights_is_valid dst;
  _ ← require v "cap_rights: dst";
  Ok dst.

Definition cap_rights_merge (dst src : cap_rights_t) : result cap_rights_t :=
  both_valid dst src
    (n ← caparsize dst;
     Ok (foldl (fun d i => zset d i (Z.lor (zget d i) (zget src i))) dst (words n))).

Definition cap_rights_remove (dst src : cap_rights_t) : result cap_rights_t :=
  both_valid dst src
    (n ← caparsize dst;
     Ok (foldl (fun d i => zset d i (Z.land (zget d i) (Z.lnot (Z.land (zget src i) 0x01ffffffffffffff))))
          dst (words n))).

(** ** The capability of a descriptor *)

(** The list of the ioctls is its own copy; [None] is the null pointer. *)
Record filecaps := MkCaps {
  fc_rights : cap_rights_t;
  fc_ioctls : option (list Z);
  fc_nioctls : Z;
  fc_fcntls : Z
}.

Definition zero_caps : filecaps := MkCaps [0; 0] None 0 0.

Definition filecaps_init : filecaps := MkCaps [0; 0] None (-1) 0.
Definition filecaps_fill : filecaps := MkCaps CAP_ALL None (-1) CAP_FCNTL_ALL.
Definition filecaps_free (fcaps : filecaps) : filecaps := zero_caps.

(** The errno-like result and the copy, with the table locked or not. *)
Definition filecaps_copy (src : filecaps) (locked : bool) : result (Z * filecaps) :=
  match fc_ioctls src with
  | None => Ok (0, src)
  | Some l =>
      if negb locked then Ok (1, src)
      else
        _ ← require (0 <? fc_nioctls src) "fc_ioctls != NULL";
        Ok (0, MkCaps (fc_rights src) (Some (take (Z.to_nat (fc_nioctls src)) l)) (fc_nioctls src)
                 (fc_fcntls src))
  end.

Definition filecaps_validate (fcaps : filecaps) : result unit :=
  v ← cap_rights_is_valid (fc_rights fcaps);
  _ ← require v "invalid rights";
  _ ← require (Z.land (fc_fcntls fcaps) (Z.lnot CAP_FCNTL_ALL) =? 0) "invalid fcntls";
  s ← cap_rights_is_set (fc_rights fcaps) [CAP_FCNTL];
  _ ← require ((fc_fcntls fcaps =? 0) || s) "fcntls without CAP_FCNTL";
  _ ← require (match fc_ioctls fcaps with
               | Some _ => 0 <? fc_nioctls fcaps
               | None => (fc_nioctls fcaps =? -1) || (fc_nioctls fcaps =? 0)
               end) "invalid ioctls";
  s ← cap_rights_is_set (fc_rights fcaps) [CAP_IOCTL];
  require ((fc_nioctls fcaps =? 0) || s) "ioctls without CAP_IOCTL".

(** ** Checks and limits *)

Definition ENOTCAPABLE : Z := 93.

Definition cap_check (havep needp : cap_rights_t) : result Z :=
  foldl (fun (r : result Z) (_ : Z) =>
      error ← r;
      if negb (error =? 0) then Ok error
      else c ← cap_rights_contains havep needp; Ok (if c : bool then 0 else ENOTCAPABLE))
    (Ok 0) (words (CAP_RIGHTS_VERSION + 2)).

Definition limit_rights (rights : cap_rights_t) (c : filecaps) : result (Z * filecaps) :=
  error ← cap_check (fc_rights c) rights;
  if negb (error =? 0) then Ok (error, c)
  else
    s ← cap_rights_is_set rights [CAP_IOCTL];
    let c := if s : bool then MkCaps rights (fc_ioctls c) (fc_nioctls c) (fc_fcntls c)
             else MkCaps rights None 0 (fc_fcntls c) in
    s ← cap_rights_is_set rights [CAP_FCNTL];
    Ok (0, if s : bool then c else MkCaps rights (fc_ioctls c) (fc_nioctls c) 0).

Definition cap_ioctl_limit_check (c : filecaps) (cmds : list Z) (ncmds : Z) : result Z :=
  let oncmds := fc_nioctls c in
  if oncmds =? -1 then Ok 0
  else if oncmds <? ncmds then Ok ENOTCAPABLE
  else if ncmds =? 0 then Ok 0
  else
    match fc_ioctls c with
    | None => Panic "null pointer"
    | Some ocmds =>
        Ok (if forallb (fun i => existsb (fun j => zget cmds i =? zget ocmds j) (words oncmds)) (words ncmds)
            then 0 else ENOTCAPABLE)
    end.

Definition limit_ioctls (cmds : option (list Z)) (ncmds : Z) (c : filecaps) : result (Z * filecaps) :=
  error ← cap_ioctl_limit_check c (default [] cmds) ncmds;
  if negb (error =? 0) then Ok (error, c)
  else Ok (0, MkCaps (fc_rights c) cmds ncmds (fc_fcntls c)).

Definition limit_fcntls (fcntlrights : Z) (c : filecaps) : Z * filecaps :=
  if negb (Z.land fcntlrights (Z.lnot (fc_fcntls c)) =? 0) then (ENOTCAPABLE, c)
  else (0, MkCaps (fc_rights c) (fc_ioctls c) (fc_nioctls c) fcntlrights).

Definition cap_ioctl_check (c : filecaps) (cmd : Z) : result Z :=
  let ncmds := fc_nioctls c in
  if ncmds =? -1 then Ok 0
  else if ncmds <=? 0 then Ok ENOTCAPABLE
  else
    match fc_ioctls c with
    | None => Panic "null pointer"
    | Some cmds => Ok (if existsb (fun i => zget cmds i =? cmd) (words ncmds) then 0 else ENOTCAPABLE)
    end.

Definition cap_fcntl_check_fde (c : filecaps) (cmd : Z) : result Z :=
  let fcntlcap := u32 (Z.shiftl 1 cmd) in
  _ ← require (negb (Z.land CAP_FCNTL_ALL fcntlcap =? 0)) "Unsupported fcntl";
  Ok (if negb (Z.land (fc_fcntls c) fcntlcap =? 0) then 0 else ENOTCAPABLE).
