(* ===== verification/CapsInv.v ===== *)
(** Capability rights as sets: the two words of a valid [cap_rights_t] hold
    the index of the word and a subset of the rights of that word; the
    operations are the set operations. *)

From stdpp Require Import list.
From S2P Require Import Prelude Caps.

(** ** Words *)

Definition word_ok (i x : Z) : Prop :=
  0 <= x /\ Z.testbit x (57 + i) = true /\
  forall k, Z.testbit x k = true -> Z.testbit (zget CAP_ALL i) k = true.

Definition rights_ok (r : cap_rights_t) : Prop :=
  zlength r = 2 /\ forall i, 0 <= i < 2 -> word_ok i (zget r i).

Lemma index_cases i : 0 <= i < 2 -> i = 0 \/ i = 1.
Proof. lia. Qed.

Lemma testbit_small x n k : 0 <= x < 2 ^ n -> n <= k -> Z.testbit x k = false.
Proof.
  intros Hx Hk. destruct (decide (x = 0)) as [->|]; [apply Z.bits_0|].
  apply Z.bits_above_log2; [lia|].
  destruct (Z.le_gt_cases 0 n); [|by rewrite Z.pow_neg_r in Hx by lia; lia].
  apply Z.lt_le_trans with n; [|done]. apply Z.log2_lt_pow2; lia.
Qed.

(** The bits of a right above those of its word. *)
Lemma capright_bit i b k :
  0 <= i -> 0 <= b < 2 ^ 57 -> 57 <= k -> Z.testbit (CAPRIGHT i b) k = (57 + i =? k).
Proof.
  intros Hi Hb Hk. unfold CAPRIGHT. autorewrite with bits.
  by rewrite (testbit_small b 57) by lia; rewrite orb_false_r.
Qed.

Lemma cap_all_bit i k : 0 <= i < 2 -> 57 <= k -> Z.testbit (zget CAP_ALL i) k = (57 + i =? k).
Proof.
  intros [-> | ->]%index_cases Hk.
  - change (zget CAP_ALL 0) with (CAPRIGHT 0 0x7ffffffffff). by apply capright_bit.
  - change (zget CAP_ALL 1) with (CAPRIGHT 1 0x1fffff). by apply capright_bit.
Qed.

Section word.
Context (i x : Z) (Hi : 0 <= i < 2) (Hx : word_ok i x).

Lemma word_high k : 57 <= k -> Z.testbit x k = (57 + i =? k).
Proof.
  intros Hk. destruct Hx as (_ & Hb & Hs). zcase; [by subst|].
  apply not_true_is_false. intros H. apply Hs in H. rewrite cap_all_bit in H by lia. bool_to_prop. lia.
Qed.

Lemma word_ver : CAPRVER x = 0.
Proof.
  apply Z.bits_inj'. intros k Hk. unfold CAPRVER. rewrite Z.shiftr_spec, Z.bits_0 by done.
  rewrite word_high by lia. by ztest.
Qed.

Lemma word_idx : CAPIDXBIT x = 2 ^ i.
Proof.
  apply Z.bits_inj'. intros k Hk. unfold CAPIDXBIT. change 0x1f with (Z.ones 5).
  autorewrite with bits. rewrite word_high, Z.pow2_bits_eqb by lia.
  repeat zcase; try lia; done.
Qed.

Lemma word_index : right_to_index x = Ok i.
Proof. unfold right_to_index. rewrite word_idx. destruct (index_cases i Hi) as [-> | ->]; reflexivity. Qed.
End word.

(** ** Validity *)

Lemma rights_ver r : rights_ok r -> CAPVER r = 0.
Proof. intros [_ H]. exact (word_ver 0 _ ltac:(lia) (H 0 ltac:(lia))). Qed.

Lemma caparsize_ok r : rights_ok r -> caparsize r = Ok 2.
Proof. intros H. unfold caparsize, CAPARSIZE. by rewrite (rights_ver r H). Qed.

Lemma cap_all_ok : rights_ok CAP_ALL.
Proof.
  split; [done|]. intros i [-> | ->]%index_cases; (split; [done|]; split; [reflexivity|]; done).
Qed.

Lemma cap_none_ok : rights_ok CAP_NONE.
Proof.
  split; [done|]. intros i Hi. split; [by destruct (index_cases i Hi) as [-> | ->]|]. split.
  - by destruct (index_cases i Hi) as [-> | ->].
  - assert (zget CAP_NONE i = CAPRIGHT i 0) as ->. { by destruct (index_cases i Hi) as [-> | ->]. }
    intros k Hk. unfold CAPRIGHT in Hk. rewrite Z.lor_0_r in Hk.
    destruct (Z.le_gt_cases 0 k); [|by rewrite Z.testbit_neg_r in Hk].
    rewrite testbit_pow2 in Hk by lia. bool_to_prop. rewrite cap_all_bit by lia. by ztest.
Qed.

(** [big] has every right of [little]. *)
Definition rights_sub (little big : cap_rights_t) : Prop :=
  forall i k, 0 <= i < 2 -> Z.testbit (zget little i) k = true -> Z.testbit (zget big i) k = true.

#[export] Instance rights_sub_preorder : PreOrder rights_sub.
Proof. split; [by intros r i k _ | intros r1 r2 r3 H1 H2 i k Hi Hk; by apply H2, H1]. Qed.

Lemma land_sub a b : 0 <= b -> Z.land a b = b <-> forall k, Z.testbit b k = true -> Z.testbit a k = true.
Proof.
  intros Hb. split.
  - intros <- k Hk. rewrite Z.land_spec in Hk. by bool_to_prop.
  - intros H. apply Z.bits_inj'. intros k Hk. rewrite Z.land_spec.
    destruct (Z.testbit b k) eqn:E; [by rewrite H | apply andb_false_r].
Qed.

Lemma contains_spec big little :
  rights_ok big -> CAPVER little = 0 -> (forall i, 0 <= i < 2 -> 0 <= zget little i) ->
  exists c, cap_rights_contains big little = Ok c /\ (c = true <-> rights_sub little big).
Proof.
  intros Hb Hv Hl. unfold cap_rights_contains. rewrite caparsize_ok, bind_Ok, Hv by done. eexists.
  split; [reflexivity|]. change (words 2) with [0; 1]. cbn [forallb].
  rewrite andb_true_r, andb_true_iff, !Z.eqb_eq, !land_sub by (apply Hl; lia). split.
  - intros [H0 H1] i k [-> | ->]%index_cases; auto.
  - intros H. split; intros k; [apply (H 0) | apply (H 1)]; lia.
Qed.

Lemma contains_ok big little :
  rights_ok big -> rights_ok little ->
  exists c, cap_rights_contains big little = Ok c /\ (c = true <-> rights_sub little big).
Proof.
  intros Hb Hl. apply contains_spec; [done | by apply rights_ver|]. intros i Hi. by apply Hl.
Qed.

Lemma valid_word i x :
  0 <= i < 2 -> 0 <= x -> (forall k, Z.testbit x k = true -> Z.testbit (zget CAP_ALL i) k = true) ->
  (word_ok i x /\ right_to_index x = Ok i) \/ (~ word_ok i x /\ right_to_index x = Ok (-1)).
Proof.
  intros Hi H0 Hs. destruct (Z.testbit x (57 + i)) eqn:E.
  - left. assert (word_ok i x) as W by done. split; [done|]. by apply word_index.
  - right. split; [intros (_ & ? & _); congruence|]. unfold right_to_index.
    assert (CAPIDXBIT x = 0) as ->; [|done].
    apply Z.bits_inj'. intros k Hk. unfold CAPIDXBIT. rewrite Z.land_spec, Z.shiftr_spec, Z.bits_0 by done.
    destruct (Z.testbit x (k + 57)) eqn:Ek; [|done]. pose proof (Hs _ Ek) as H.
    rewrite cap_all_bit in H by lia. bool_to_prop. replace (k + 57) with (57 + i) in Ek by lia. congruence.
Qed.

(** The check accepts exactly the valid rights, and never panics. *)
Lemma is_valid_spec r :
  zlength r = 2 -> (forall i, 0 <= i < 2 -> 0 <= zget r i < 2 ^ 64) ->
  exists v, cap_rights_is_valid r = Ok v /\ (v = true <-> rights_ok r).
Proof.
  intros Hl Hr. unfold cap_rights_is_valid. change CAP_RIGHTS_VERSION_00 with 0.
  destruct (Z.eqb_spec (CAPVER r) 0) as [Ev|Ev]; cbn [negb].
  2:{ exists false. split; [done|]. split; [done|]. intros H. by apply rights_ver in H. }
  unfold CAPARSIZE. rewrite Ev. 
  change ((0 + 2 <? CAPARSIZE_MIN) || (CAPARSIZE_MAX <? 0 + 2)) with false. cbv iota.
  destruct (contains_spec CAP_ALL r cap_all_ok Ev) as (c & -> & Hc); [intros i Hi; by apply Hr|].
  rewrite bind_Ok. destruct c; cbn [negb].
  2:{ exists false. split; [done|]. split; [done|]. intros [_ H]. apply Hc. intros i k Hi. by apply H. }
  pose proof (proj1 Hc eq_refl) as Hs. change (words (0 + 2)) with [0; 1]. cbn [valid_loop].
  destruct (valid_word 0 (zget r 0)) as [[W0 ->]|[W0 ->]]; [lia | by apply Hr | intros k; by apply (Hs 0)| |];
    rewrite bind_Ok; cbn [Z.eqb negb].
  2:{ exists false. split; [done|]. split; [done|]. intros [_ H]. by destruct W0; apply H. }
  cbn [Z.ltb Z.compare andb].
  destruct (valid_word 1 (zget r 1)) as [[W1 ->]|[W1 ->]]; [lia | by apply Hr | intros k; by apply (Hs 1)| |];
    rewrite bind_Ok; cbn [Z.eqb Pos.eqb negb Z.ltb Z.compare Pos.compare Pos.compare_cont andb].
  2:{ exists false. split; [done|]. split; [done|]. intros [_ H]. by destruct W1; apply H. }
  rewrite (word_ver 1 (zget r 1)) by (lia || done). exists true. split; [done|]. split; [|done].
  intros _. split; [done|]. by intros i [-> | ->]%index_cases.
Qed.

(** ** The operations *)

(** The arguments of the calls: each for one of the words. *)
Definition right_ok (rt : Z) : Prop := exists i, 0 <= i < 2 /\ word_ok i rt.

Definition named_right (ap : list Z) (i k : Z) : bool :=
  existsb (fun rt => (CAPIDXBIT rt =? 2 ^ i) && Z.testbit rt k) ap.

Lemma pow2_index i j : 0 <= i < 2 -> 0 <= j < 2 -> (2 ^ i =? 2 ^ j) = (i =? j).
Proof. by intros [-> | ->]%index_cases [-> | ->]%index_cases. Qed.

Lemma right_word_ok r i rt :
  rights_ok r -> 0 <= i < 2 -> word_ok i rt -> right_word r 2 rt = Ok i.
Proof.
  intros [_ Hr] Hi W. unfold right_word.
  rewrite (word_ver i rt), (word_index i rt), bind_Ok by done. cbn [Z.eqb require].
  rewrite !bind_Ok. rewrite (word_idx i rt), (word_idx i (zget r i)) by auto.
  rewrite !require_true by (rewrite ?Z.leb_le, ?Z.ltb_lt, ?Z.eqb_refl; lia || done).
  by rewrite !bind_Ok.
Qed.

Lemma word_nonzero i x : word_ok i x -> (x =? 0) = false.
Proof. intros (_ & H & _). apply Z.eqb_neq. intros ->. by rewrite Z.bits_0 in H. Qed.

(** A new word for one of the two. *)
Lemma rights_zset r i x :
  rights_ok r -> 0 <= i < 2 -> word_ok i x -> rights_ok (zset r i x).
Proof.
  intros [Hl Hr] Hi W. split; [by rewrite zlength_aset|]. intros j Hj.
  rewrite aget_aset by lia. zcase; [by subst | by apply Hr].
Qed.

Lemma word_lor i x y : word_ok i x -> word_ok i y -> word_ok i (Z.lor x y).
Proof.
  intros (Hx & Hb & Hs) (Hy & _ & Ht). split; [by apply Z.lor_nonneg|]. split.
  - by rewrite Z.lor_spec, Hb.
  - intros k. rewrite Z.lor_spec. intros [?|?]%orb_true_iff; auto.
Qed.

(** The rights of [y] taken away, its index kept. *)
Lemma clear_bit x y k :
  0 <= k -> Z.testbit (Z.land x (Z.lnot (Z.land y 0x01ffffffffffffff))) k =
            Z.testbit x k && negb (Z.testbit y k && (k <? 57)).
Proof. intros Hk. change 0x01ffffffffffffff with (Z.ones 57). autorewrite with bits. by ztest. Qed.

Lemma word_clear i x y :
  0 <= i < 2 -> word_ok i x -> word_ok i (Z.land x (Z.lnot (Z.land y 0x01ffffffffffffff))).
Proof.
  intros Hi (Hx & Hb & Hs). split; [apply Z.land_nonneg; by left|]. split.
  - rewrite clear_bit, Hb by lia. ztest. by rewrite andb_false_r.
  - intros k Hk. destruct (Z.le_gt_cases 0 k); [|by rewrite Z.testbit_neg_r in Hk].
    rewrite clear_bit in Hk by done. bool_to_prop. by apply Hs.
Qed.

Lemma word_testbit_idx i j x k :
  0 <= i < 2 -> 0 <= j < 2 -> word_ok i x ->
  (CAPIDXBIT x =? 2 ^ j) && Z.testbit x k = (i =? j) && Z.testbit x k.
Proof. intros Hi Hj W. by rewrite (word_idx i x), pow2_index by done. Qed.

Lemma vset_loop_spec ap : forall r,
  rights_ok r -> Forall right_ok ap ->
  exists r', vset_loop r 2 ap = Ok r' /\ rights_ok r' /\
  forall i k, 0 <= i < 2 -> Z.testbit (zget r' i) k = Z.testbit (zget r i) k || named_right ap i k.
Proof.
  induction ap as [|rt ap IH]; intros r Hr Ha.
  { exists r. split_and!; [done|done|]. intros i k _. by rewrite orb_false_r. }
  apply Forall_cons in Ha as [(i & Hi & W) Ha]. cbn [vset_loop].
  rewrite (word_nonzero i rt W), (right_word_ok r i rt), bind_Ok by done. cbv zeta.
  pose proof Hr as [Hl Hw].
  assert (word_ok i (Z.lor (zget r i) rt)) as W' by (apply word_lor; auto).
  rewrite aget_aset_eq, (word_idx i _ Hi W'), (word_idx i rt Hi W), Z.eqb_refl by lia.
  cbn [require]. rewrite bind_Ok.
  destruct (IH (zset r i (Z.lor (zget r i) rt))) as (r' & -> & Hr' & Hb); [by apply rights_zset | done|].
  exists r'. split_and!; [done|done|]. intros j k Hj. rewrite (Hb j k Hj). unfold named_right. cbn [existsb].
  rewrite (word_testbit_idx i j rt k) by done. rewrite aget_aset by lia.
  zcase; [subst j; rewrite Z.lor_spec, orb_assoc; by rewrite andb_true_l | by rewrite andb_false_l].
Qed.

Lemma vclear_loop_spec ap : forall r,
  rights_ok r -> Forall right_ok ap ->
  exists r', vclear_loop r 2 ap = Ok r' /\ rights_ok r' /\
  forall i k, 0 <= i < 2 -> 0 <= k < 57 ->
    Z.testbit (zget r' i) k = Z.testbit (zget r i) k && negb (named_right ap i k).
Proof.
  induction ap as [|rt ap IH]; intros r Hr Ha.
  { exists r. split_and!; [done|done|]. intros i k _ _. by rewrite andb_true_r. }
  apply Forall_cons in Ha as [(i & Hi & W) Ha]. cbn [vclear_loop].
  rewrite (word_nonzero i rt W), (right_word_ok r i rt), bind_Ok by done. cbv zeta.
  pose proof Hr as [Hl Hw].
  pose proof (word_clear i (zget r i) rt Hi (Hw i Hi)) as W'. set (x := Z.land _ _) in *.
  rewrite aget_aset_eq, (word_idx i _ Hi W'), (word_idx i rt Hi W), Z.eqb_refl by lia.
  cbn [require]. rewrite bind_Ok.
  destruct (IH (zset r i x)) as (r' & -> & Hr' & Hb); [by apply rights_zset | done|].
  exists r'. split_and!; [done|done|]. intros j k Hj Hk. rewrite (Hb j k Hj Hk). unfold named_right.
  cbn [existsb]. rewrite (word_testbit_idx i j rt k) by done. rewrite aget_aset by lia.
  zcase; [|by rewrite andb_false_l].
  subst j x. rewrite clear_bit by lia. ztest. rewrite andb_true_r, andb_true_l, negb_orb. by rewrite andb_assoc.
Qed.

Lemma is_vset_loop_spec ap : forall r,
  rights_ok r -> Forall right_ok ap ->
  exists c, is_vset_loop r 2 ap = Ok c /\
  (c = true <-> forall i k, 0 <= i < 2 -> named_right ap i k = true -> Z.testbit (zget r i) k = true).
Proof.
  induction ap as [|rt ap IH]; intros r Hr Ha.
  { exists true. split; [done|]. split; [|done]. intros _ i k _. done. }
  apply Forall_cons in Ha as [(i & Hi & W) Ha]. cbn [is_vset_loop].
  rewrite (word_nonzero i rt W), (right_word_ok r i rt), bind_Ok by done.
  assert (forall j k, 0 <= j < 2 -> named_right (rt :: ap) j k = (i =? j) && Z.testbit rt k || named_right ap j k) as Hn.
  { intros j k Hj. unfold named_right. cbn [existsb]. by rewrite (word_testbit_idx i j rt k). }
  destruct (Z.eqb_spec (Z.land (zget r i) rt) rt) as [E|E]; cbn [negb].
  - destruct (IH r Hr Ha) as (c & -> & Hc). exists c. split; [done|]. rewrite Hc. split.
    + intros H j k Hj. rewrite (Hn j k Hj). intros [Hk|Hk]%orb_true_iff; [|by apply H].
      bool_to_prop. subst j. by apply (proj1 (land_sub _ rt (proj1 W))).
    + intros H j k Hj Hk. apply H; [done|]. by rewrite (Hn j k Hj), Hk, orb_true_r.
  - exists false. split; [done|]. split; [done|]. intros H. destruct E. apply land_sub; [apply W|].
    intros k Hk. apply H; [done|]. by rewrite (Hn i k Hi), Z.eqb_refl, Hk.
Qed.

Lemma is_set_spec r ap :
  rights_ok r -> Forall right_ok ap ->
  exists c, cap_rights_is_set r ap = Ok c /\
  (c = true <-> forall i k, 0 <= i < 2 -> named_right ap i k = true -> Z.testbit (zget r i) k = true).
Proof.
  intros Hr Ha. unfold cap_rights_is_set, cap_rights_is_vset. rewrite caparsize_ok, bind_Ok by done.
  by apply is_vset_loop_spec.
Qed.

(** A fold that gives each word a value. *)
Lemma fold_words (f : Z -> Z -> Z) d s :
  rights_ok d -> (forall i, 0 <= i < 2 -> word_ok i (f (zget d i) (zget s i))) ->
  exists r, foldl (fun d i => zset d i (f (zget d i) (zget s i))) d (words 2) = r /\ rights_ok r /\
  forall i, 0 <= i < 2 -> zget r i = f (zget d i) (zget s i).
Proof.
  intros Hd Hf. eexists. split; [reflexivity|]. change (words 2) with [0; 1]. cbn [foldl].
  pose proof Hd as [Hl _].
  assert (zget (zset d 0 (f (zget d 0) (zget s 0))) 1 = zget d 1) as -> by (by rewrite aget_aset_ne).
  split.
  - apply rights_zset; [apply rights_zset; [done | lia | by apply Hf] | lia | by apply Hf].
  - intros i [-> | ->]%index_cases.
    + rewrite aget_aset_ne, aget_aset_eq by (rewrite ?zlength_aset; lia). done.
    + by rewrite aget_aset_eq by (rewrite ?zlength_aset; lia).
Qed.

Lemma word_bound i x : 0 <= i < 2 -> word_ok i x -> 0 <= x < 2 ^ 64.
Proof.
  intros Hi W. split; [apply W|]. destruct (decide (x = 0)) as [->|]; [done|].
  apply Z.log2_lt_pow2; [destruct W; lia|].
  apply Z.nle_gt. intros Hl. pose proof (Z.bit_log2 x ltac:(destruct W; lia)) as Hb.
  rewrite (word_high i x Hi W) in Hb by lia. bool_to_prop. lia.
Qed.

Lemma is_valid_ok r : rights_ok r -> cap_rights_is_valid r = Ok true.
Proof.
  intros Hr. destruct (is_valid_spec r) as (v & -> & Hv).
  - apply Hr.
  - intros i Hi. eapply word_bound; [done | by apply Hr].
  - by rewrite (proj2 Hv).
Qed.

Lemma both_valid_ok d s k r :
  rights_ok d -> rights_ok s -> k = Ok r -> rights_ok r -> both_valid d s k = Ok r.
Proof.
  intros Hd Hs -> Hr. unfold both_valid. rewrite !rights_ver by done. cbn [Z.eqb require].
  change (0 =? CAP_RIGHTS_VERSION_00) with true. cbn [require]. rewrite !bind_Ok.
  rewrite (is_valid_ok s), (is_valid_ok d), (is_valid_ok r) by done.
  reflexivity.
Qed.

Lemma merge_spec d s :
  rights_ok d -> rights_ok s ->
  exists r, cap_rights_merge d s = Ok r /\ rights_ok r /\
  forall i k, 0 <= i < 2 -> Z.testbit (zget r i) k = Z.testbit (zget d i) k || Z.testbit (zget s i) k.
Proof.
  intros Hd Hs. destruct (fold_words Z.lor d s Hd) as (r & Er & Hr & Hb).
  { intros i Hi. apply word_lor; [by apply Hd | by apply Hs]. }
  exists r. split_and!; [|done|].
  - unfold cap_rights_merge, cap_rights_remove. rewrite caparsize_ok, bind_Ok, Er by done. by apply both_valid_ok.
  - intros i k Hi. by rewrite Hb, Z.lor_spec.
Qed.

Lemma remove_spec d s :
  rights_ok d -> rights_ok s ->
  exists r, cap_rights_remove d s = Ok r /\ rights_ok r /\
  forall i k, 0 <= i < 2 -> 0 <= k < 57 ->
    Z.testbit (zget r i) k = Z.testbit (zget d i) k && negb (Z.testbit (zget s i) k).
Proof.
  intros Hd Hs.
  destruct (fold_words (fun x y => Z.land x (Z.lnot (Z.land y 0x01ffffffffffffff))) d s Hd) as (r & Er & Hr & Hb).
  { intros i Hi. apply word_clear; [done | by apply Hd]. }
  exists r. split_and!; [|done|].
  - unfold cap_rights_merge, cap_rights_remove. rewrite caparsize_ok, bind_Ok, Er by done. by apply both_valid_ok.
  - intros i k Hi Hk. rewrite Hb, clear_bit by lia. ztest. by rewrite andb_true_r.
Qed.

(** ** The capability of a descriptor *)

(** What [filecaps_validate] asserts. *)
Record caps_ok (c : filecaps) : Prop := {
  co_rights : rights_ok (fc_rights c);
  co_fcntls : Z.land (fc_fcntls c) (Z.lnot CAP_FCNTL_ALL) = 0;
  co_fcntl : fc_fcntls c <> 0 -> Z.testbit (zget (fc_rights c) 0) 15 = true;
  co_ioctls : match fc_ioctls c with
              | Some l => 0 < fc_nioctls c <= zlength l
              | None => fc_nioctls c = -1 \/ fc_nioctls c = 0
              end;
  co_ioctl : fc_nioctls c <> 0 -> Z.testbit (zget (fc_rights c) 1) 7 = true
}.

Lemma word_ok_fcntl : word_ok 0 CAP_FCNTL.
Proof.
  split; [done|]. split; [reflexivity|]. apply (proj1 (land_sub (zget CAP_ALL 0) CAP_FCNTL ltac:(done))).
  reflexivity.
Qed.

Lemma word_ok_ioctl : word_ok 1 CAP_IOCTL.
Proof.
  split; [done|]. split; [reflexivity|]. apply (proj1 (land_sub (zget CAP_ALL 1) CAP_IOCTL ltac:(done))).
  reflexivity.
Qed.

(** One right of a word: its bit is what counts. *)
Lemma one_right_set r i b c :
  rights_ok r -> 0 <= i < 2 -> 0 <= b < 57 -> word_ok i (CAPRIGHT i (2 ^ b)) ->
  cap_rights_is_set r [CAPRIGHT i (2 ^ b)] = Ok c -> c = Z.testbit (zget r i) b.
Proof.
  intros Hr Hi Hb W H.
  destruct (is_set_spec r [CAPRIGHT i (2 ^ b)] Hr) as (c' & E & Hc); [by repeat constructor; exists i|].
  rewrite H in E. injection E as <-. apply eq_true_iff_eq. rewrite Hc.
  assert (forall k, 0 <= k -> Z.testbit (CAPRIGHT i (2 ^ b)) k = (57 + i =? k) || (b =? k)) as Hk.
  { intros k Hk. unfold CAPRIGHT. rewrite Z.lor_spec, testbit_pow2, Z.pow2_bits_eqb by lia. done. }
  unfold named_right. cbn [existsb]. split.
  - intros H1. apply H1; [done|]. rewrite (word_testbit_idx i i), Z.eqb_refl, Hk by (done || lia).
    by rewrite Z.eqb_refl, orb_true_r.
  - intros H1 j k Hj. rewrite orb_false_r, (word_testbit_idx i j) by done. intros H2. bool_to_prop. subst j.
    destruct (Z.le_gt_cases 0 k); [|by rewrite Z.testbit_neg_r in *].
    rewrite Hk in * by done. destruct (Z.eqb_spec (57 + i) k) as [<-|]; [apply Hr; lia|].
    cbn [orb] in *. bool_to_prop. by subst k.
Qed.

Lemma is_set_fcntl r : rights_ok r -> cap_rights_is_set r [CAP_FCNTL] = Ok (Z.testbit (zget r 0) 15).
Proof.
  intros Hr. destruct (is_set_spec r [CAP_FCNTL] Hr) as (c & E & _).
  { repeat constructor. exists 0. split; [lia | apply word_ok_fcntl]. }
  rewrite E. f_equal. apply (one_right_set r 0 15); [done | lia | lia | apply word_ok_fcntl | exact E].
Qed.

Lemma is_set_ioctl r : rights_ok r -> cap_rights_is_set r [CAP_IOCTL] = Ok (Z.testbit (zget r 1) 7).
Proof.
  intros Hr. destruct (is_set_spec r [CAP_IOCTL] Hr) as (c & E & _).
  { repeat constructor. exists 1. split; [lia | apply word_ok_ioctl]. }
  rewrite E. f_equal. apply (one_right_set r 1 7); [done | lia | lia | apply word_ok_ioctl | exact E].
Qed.

Lemma validate_ok c : caps_ok c -> filecaps_validate c = Ok tt.
Proof.
  intros [Hr Hf Hfr Hi Hir]. unfold filecaps_validate.
  rewrite is_valid_ok, Hf, is_set_fcntl, is_set_ioctl by done.
  assert ((fc_fcntls c =? 0) || Z.testbit (zget (fc_rights c) 0) 15 = true) as H1.
  { destruct (Z.eqb_spec (fc_fcntls c) 0); [done|]. by rewrite Hfr. }
  assert ((fc_nioctls c =? 0) || Z.testbit (zget (fc_rights c) 1) 7 = true) as H2.
  { destruct (Z.eqb_spec (fc_nioctls c) 0); [done|]. by rewrite Hir. }
  rewrite !bind_Ok, H1, H2, (require_true (match fc_ioctls c with Some _ => _ | None => _ end)); [done|].
  destruct (fc_ioctls c); [apply Z.ltb_lt; lia|]. by destruct Hi as [-> | ->].
Qed.

Lemma fill_ok : caps_ok filecaps_fill.
Proof. constructor; [apply cap_all_ok | reflexivity | done | by left | done]. Qed.

Lemma copy_ok c : caps_ok c -> exists c', filecaps_copy c true = Ok (0, c') /\ caps_ok c' /\
  fc_rights c' = fc_rights c /\ fc_nioctls c' = fc_nioctls c /\ fc_fcntls c' = fc_fcntls c.
Proof.
  intros [Hr Hf Hfr Hi Hir]. unfold filecaps_copy. destruct (fc_ioctls c) as [l|] eqn:El.
  - cbn [negb]. rewrite require_true, bind_Ok by (apply Z.ltb_lt; lia).
    eexists. split; [reflexivity|]. split; [|done]. constructor; try done. cbn.
    revert Hi. unfold zlength. rewrite length_take. lia.
  - exists c. split_and!; try done. constructor; try done. by rewrite El.
Qed.

(** ** Order *)

(** [c] allows nothing that [c'] does not. *)
Record caps_le (c c' : filecaps) : Prop := {
  cl_rights : rights_sub (fc_rights c) (fc_rights c');
  cl_ioctls : forall cmd, cap_ioctl_check c cmd = Ok 0 -> cap_ioctl_check c' cmd = Ok 0;
  cl_fcntls : forall k, Z.testbit (fc_fcntls c) k = true -> Z.testbit (fc_fcntls c') k = true
}.

#[export] Instance caps_le_preorder : PreOrder caps_le.
Proof.
  split.
  - intros c. constructor; [by intros i k _ | done | done].
  - intros c1 c2 c3 [H1 H2 H3] [H4 H5 H6].
    constructor; [intros i k Hi Hk; by apply H4, H1 | auto | auto].
Qed.

Lemma ioctl_check_none c cmd : fc_nioctls c = 0 -> cap_ioctl_check c cmd = Ok ENOTCAPABLE.
Proof. intros H. unfold cap_ioctl_check. by rewrite H. Qed.

Lemma ioctl_check_all c cmd : fc_nioctls c = -1 -> cap_ioctl_check c cmd = Ok 0.
Proof. intros H. unfold cap_ioctl_check. by rewrite H. Qed.

Lemma elem_words n i : i ∈ words n <-> 0 <= i < n.
Proof. unfold words. rewrite elem_of_seqZ. lia. Qed.

Lemma ioctl_check_list c l cmd :
  fc_ioctls c = Some l -> 0 < fc_nioctls c ->
  exists error, cap_ioctl_check c cmd = Ok error /\
  (error = 0 <-> exists i, 0 <= i < fc_nioctls c /\ zget l i = cmd).
Proof.
  intros El Hn. unfold cap_ioctl_check. ztest. rewrite El. eexists. split; [reflexivity|].
  destruct (existsb _ _) eqn:E; split; try done.
  - intros _. apply existsb_exists in E as (i & Hi & E). apply list_elem_of_In, elem_words in Hi.
    bool_to_prop. by exists i.
  - intros (i & Hi & Hc). apply not_true_iff_false in E. destruct E. apply existsb_exists.
    exists i. split; [by apply list_elem_of_In, elem_words | by apply Z.eqb_eq].
Qed.

Lemma ioctl_check_total c cmd : caps_ok c -> exists error, cap_ioctl_check c cmd = Ok error.
Proof.
  intros [_ _ _ Hi _]. destruct (fc_ioctls c) as [l|] eqn:El.
  - destruct (ioctl_check_list c l cmd El ltac:(lia)) as (e & H & _). by exists e.
  - destruct Hi as [H|H]; [exists 0; by apply ioctl_check_all | exists ENOTCAPABLE; by apply ioctl_check_none].
Qed.

Lemma copy_le c c' : caps_ok c -> filecaps_copy c true = Ok (0, c') -> caps_le c' c.
Proof.
  intros [_ _ _ Hi _] H. unfold filecaps_copy in H. destruct (fc_ioctls c) as [l|] eqn:El.
  2:{ by injection H as <-. }
  cbn [negb] in H. rewrite require_true, bind_Ok in H by (apply Z.ltb_lt; lia). injection H as <-.
  constructor; [reflexivity| |done]. intros cmd Hc.
  destruct (ioctl_check_list (MkCaps (fc_rights c) (Some (take (Z.to_nat (fc_nioctls c)) l)) (fc_nioctls c)
    (fc_fcntls c)) _ cmd eq_refl ltac:(cbn; lia)) as (e & E & He).
  destruct (ioctl_check_list c l cmd El ltac:(lia)) as (e' & E' & He').
  rewrite Hc in E. injection E as <-. rewrite E'. f_equal. apply He'.
  destruct (proj1 He eq_refl) as (i & Hr & <-). exists i. split; [exact Hr|].
  cbn in Hr. unfold aget. ztest. rewrite !nth_lookup, lookup_take_lt; [done | lia].
Qed.

Lemma cap_check_spec have need :
  rights_ok have -> rights_ok need ->
  exists error, cap_check have need = Ok error /\ (error = 0 \/ error = ENOTCAPABLE) /\
  (error = 0 <-> rights_sub need have).
Proof.
  intros Hh Hn. destruct (contains_ok have need Hh Hn) as (c & E & Hc).
  exists (if c then 0 else ENOTCAPABLE). split_and!.
  - unfold cap_check. change (words (CAP_RIGHTS_VERSION + 2)) with [0; 1]. cbn [foldl]. rewrite E.
    by destruct c.
  - destruct c; [by left | by right].
  - rewrite <- Hc. by destruct c.
Qed.

Lemma limit_rights_spec c rights :
  caps_ok c -> rights_ok rights ->
  exists error c', limit_rights rights c = Ok (error, c') /\ caps_ok c' /\ caps_le c' c /\
  (error = 0 \/ error = ENOTCAPABLE) /\ (error = 0 <-> rights_sub rights (fc_rights c)) /\
  (error = 0 -> fc_rights c' = rights) /\ (error <> 0 -> c' = c).
Proof.
  intros C Hr. pose proof C as [Hc Hf Hfr Hi Hir].
  destruct (cap_check_spec (fc_rights c) rights Hc Hr) as (error & E & He & Hs). unfold limit_rights.
  rewrite E, bind_Ok. destruct He as [-> | ->].
  2:{ cbn [Z.eqb negb ENOTCAPABLE]. exists ENOTCAPABLE, c. split_and!; try done; by right. }
  cbn [Z.eqb negb]. rewrite is_set_ioctl, is_set_fcntl, !bind_Ok by done. eexists 0, _.
  split; [reflexivity|]. pose proof (proj1 Hs eq_refl) as Hsub.
  split_and!; [| | by left | done | | done].
  - destruct (Z.testbit (zget rights 1) 7) eqn:E7, (Z.testbit (zget rights 0) 15) eqn:E15;
      constructor; cbn; auto; try done; try (intros H; congruence).
  - destruct (Z.testbit (zget rights 1) 7) eqn:E7, (Z.testbit (zget rights 0) 15) eqn:E15;
      constructor; cbn; try done; intros cmd H; rewrite ?Z.bits_0 in H; try done;
      by rewrite ioctl_check_none in H by done.
  - intros _. by destruct (Z.testbit (zget rights 1) 7), (Z.testbit (zget rights 0) 15).
Qed.

(** The list of the call: null with no command, or as long as the count. *)
Definition ioctls_arg (cmds : option (list Z)) (ncmds : Z) : Prop :=
  match cmds with Some l => 0 < ncmds /\ zlength l = ncmds | None => ncmds = 0 end.

Lemma ioctl_limit_check_spec c l ncmds :
  caps_ok c -> 0 <= ncmds ->
  exists error, cap_ioctl_limit_check c l ncmds = Ok error /\
  (error = 0 -> (ncmds <> 0 -> fc_nioctls c <> 0) /\
     forall i, 0 <= i < ncmds -> cap_ioctl_check c (zget l i) = Ok 0).
Proof.
  intros [_ _ _ Hi _] Hn. unfold cap_ioctl_limit_check.
  destruct (Z.eqb_spec (fc_nioctls c) (-1)) as [E|E].
  { exists 0. split; [done|]. intros _. split; [lia|]. intros i _. by apply ioctl_check_all. }
  destruct (Z.ltb_spec (fc_nioctls c) ncmds); [by exists ENOTCAPABLE|].
  destruct (Z.eqb_spec ncmds 0) as [->|Hz].
  { exists 0. split; [done|]. intros _. split; [done|]. lia. }
  destruct (fc_ioctls c) as [ol|] eqn:El; [|lia]. eexists. split; [reflexivity|].
  destruct (forallb _ _) eqn:F; [|done]. intros _. split; [lia|]. intros i Hr.
  rewrite forallb_forall in F. specialize (F i). rewrite <- list_elem_of_In, elem_words in F.
  apply F, existsb_exists in Hr as (j & Hj & Ej). apply list_elem_of_In, elem_words in Hj. bool_to_prop.
  destruct (ioctl_check_list c ol (zget l i) El ltac:(lia)) as (e & -> & He). f_equal. apply He. by exists j.
Qed.

Lemma limit_ioctls_spec c cmds ncmds :
  caps_ok c -> ioctls_arg cmds ncmds ->
  exists error c', limit_ioctls cmds ncmds c = Ok (error, c') /\ caps_ok c' /\ caps_le c' c /\
  (error <> 0 -> c' = c).
Proof.
  intros C Ha. unfold limit_ioctls.
  destruct (ioctl_limit_check_spec c (default [] cmds) ncmds C) as (error & -> & He).
  { destruct cmds; cbn in Ha; lia. }
  rewrite bind_Ok. destruct (Z.eqb_spec error 0) as [->|Hne]; cbn [negb].
  2:{ exists error, c. by split_and!. }
  destruct (He eq_refl) as [Hz Hall]. eexists 0, _. split; [reflexivity|].
  pose proof C as [Hr Hf Hfr Hi Hir]. split_and!; [| |done].
  - constructor; cbn; [done..| |].
    + destruct cmds as [l|]; cbn in Ha; [lia | by right].
    + intros Hn. apply Hir. by apply Hz.
  - constructor; cbn; [done| |done]. intros cmd Hc. destruct cmds as [l|]; cbn in Ha.
    + destruct (ioctl_check_list (MkCaps (fc_rights c) (Some l) ncmds (fc_fcntls c)) l cmd eq_refl
        ltac:(cbn; lia)) as (e & E & Hx).
      rewrite Hc in E. injection E as <-. destruct (proj1 Hx eq_refl) as (i & Hi' & <-). by apply Hall.
    + by rewrite ioctl_check_none in Hc by (by subst).
Qed.

Lemma limit_fcntls_spec c fcntlrights :
  caps_ok c -> 0 <= fcntlrights -> Z.land fcntlrights (Z.lnot CAP_FCNTL_ALL) = 0 ->
  exists error c', limit_fcntls fcntlrights c = (error, c') /\ caps_ok c' /\ caps_le c' c /\
  (error <> 0 -> c' = c).
Proof.
  intros C H0 Ha. pose proof C as [Hr Hf Hfr Hi Hir]. unfold limit_fcntls.
  destruct (Z.eqb_spec (Z.land fcntlrights (Z.lnot (fc_fcntls c))) 0) as [E|E]; cbn [negb].
  2:{ exists ENOTCAPABLE, c. by split_and!. }
  assert (forall k, Z.testbit fcntlrights k = true -> Z.testbit (fc_fcntls c) k = true) as Hs.
  { intros k Hk. destruct (Z.le_gt_cases 0 k); [|by rewrite Z.testbit_neg_r in Hk].
    apply (f_equal (fun x => Z.testbit x k)) in E. revert E.
    rewrite Z.land_spec, Z.lnot_spec, Z.bits_0, Hk by done. cbn. by intros ?%negb_false_iff. }
  eexists 0, _. split; [reflexivity|]. split_and!; [|by constructor|done].
  constructor; cbn; try done. intros Hn. apply Hfr. intros Hz. apply Hn. apply Z.bits_inj'.
  intros k Hk. rewrite Z.bits_0. apply not_true_is_false. intros Hb. apply Hs in Hb. by rewrite Hz, Z.bits_0 in Hb.
Qed.
