(* ===== verification/Fd.v ===== *)
(** The descriptor table of a process: the table, its bit map and the
    allocation of descriptors of src/sys/kern/kern_descrip.c, with the
    structures of src/sys/sys/filedesc.h.

    The current table and map are lists; an access outside of one is a
    [Panic]. Old tables, which are only kept until the structure is released,
    and the directories are left out. *)

From S2P Require Import Prelude Caps.

Definition NDFILE : Z := 20.
Definition NDENTRIES : Z := 64.
Definition NDSLOT (x : Z) : Z := x / NDENTRIES.
Definition NDBIT (x : Z) : Z := Z.shiftl 1 (x mod NDENTRIES).
Definition NDSLOTS (x : Z) : Z := (x + NDENTRIES - 1) / NDENTRIES.

Definition EMFILE : Z := 24.

(** [~] on a word, and the words [~0UL >> n] and [~0UL << n]. *)
Definition not64 (x : Z) : Z := u64 (Z.lnot x).
Definition all64 : Z := 2 ^ 64 - 1.

(** Of cpufunc.h: [bsfq] is the lowest, [bsrq] the highest set bit. *)
Definition ffsl (mask : Z) : Z := if mask =? 0 then mask else ctz mask + 1.
Definition flsl (mask : Z) : Z := if mask =? 0 then mask else Z.log2 mask + 1.

Record filedescent := MkFde {
  fde_file : option Z;
  fde_caps : filecaps;
  fde_flags : Z
}.

(** [fd_nfiles] and [fd_ofiles] are those of the table [fd_files]. *)
Record filedesc := MkFdesc {
  fd_nfiles : Z;
  fd_ofiles : list filedescent;
  fd_map : list Z;
  fd_lastfile : Z;
  fd_freefile : Z;
  fd_cmask : Z;
  fd_refcnt : Z
}.

Definition zero_fde : filedescent := MkFde None zero_caps 0.

Definition set_ofiles (l : list filedescent) (d : filedesc) : filedesc :=
  MkFdesc (fd_nfiles d) l (fd_map d) (fd_lastfile d) (fd_freefile d) (fd_cmask d) (fd_refcnt d).
Definition set_map (m : list Z) (d : filedesc) : filedesc :=
  MkFdesc (fd_nfiles d) (fd_ofiles d) m (fd_lastfile d) (fd_freefile d) (fd_cmask d) (fd_refcnt d).
Definition set_lastfile (v : Z) (d : filedesc) : filedesc :=
  MkFdesc (fd_nfiles d) (fd_ofiles d) (fd_map d) v (fd_freefile d) (fd_cmask d) (fd_refcnt d).
Definition set_freefile (v : Z) (d : filedesc) : filedesc :=
  MkFdesc (fd_nfiles d) (fd_ofiles d) (fd_map d) (fd_lastfile d) v (fd_cmask d) (fd_refcnt d).
Definition set_cmask (v : Z) (d : filedesc) : filedesc :=
  MkFdesc (fd_nfiles d) (fd_ofiles d) (fd_map d) (fd_lastfile d) (fd_freefile d) v (fd_refcnt d).
Definition set_refcnt (v : Z) (d : filedesc) : filedesc :=
  MkFdesc (fd_nfiles d) (fd_ofiles d) (fd_map d) (fd_lastfile d) (fd_freefile d) (fd_cmask d) v.

(** [fd_map[off]] and [fd_ofiles[fd]], and assignments to them. *)
Definition slot (map : list Z) (off : Z) : result Z :=
  if (0 <=? off) && (off <? zlength map) then Ok (zget map off) else Panic "fd_map: out of bounds".
Definition ofile (d : filedesc) (fd : Z) : result filedescent :=
  if (0 <=? fd) && (fd <? zlength (fd_ofiles d)) then Ok (aget zero_fde (fd_ofiles d) fd)
  else Panic "fd_ofiles: out of bounds".
Definition put_ofile (d : filedesc) (fd : Z) (e : filedescent) : result filedesc :=
  _ ← ofile d fd; Ok (set_ofiles (aset (fd_ofiles d) fd e) d).

(** ** The bit map *)

Fixpoint free_slot (fuel : nat) (map : list Z) (off maxoff size : Z) : result Z :=
  match fuel with
  | O => Panic "fuel"
  | S fuel' =>
      if off <? maxoff then
        w ← slot map off;
        if negb (w =? all64) then Ok (off * NDENTRIES + ffsl (not64 w) - 1)
        else free_slot fuel' map (off + 1) maxoff size
      else Ok size
  end.

Definition fd_first_free (fdp : filedesc) (low size : Z) : result Z :=
  let map := fd_map fdp in
  if size <=? low then Ok low
  else
    let off := NDSLOT low in
    mask ← (if negb (low mod NDENTRIES =? 0) then
              w ← slot map off;
              Ok (Z.land (not64 (Z.shiftr all64 (NDENTRIES - low mod NDENTRIES))) (not64 w))
            else Ok 0);
    if negb (mask =? 0) then Ok (off * NDENTRIES + ffsl mask - 1)
    else
      let off := if negb (low mod NDENTRIES =? 0) then off + 1 else off in
      free_slot (S (length map)) map off (NDSLOTS size) size.

Fixpoint used_slot (fuel : nat) (map : list Z) (off : Z) : result Z :=
  match fuel with
  | O => Panic "fuel"
  | S fuel' =>
      if NDSLOT 0 <=? off then
        w ← slot map off;
        if negb (w =? 0) then Ok (off * NDENTRIES + flsl w - 1)
        else used_slot fuel' map (off - 1)
      else Ok (-1)
  end.

Definition fd_last_used (fdp : filedesc) (size : Z) : result Z :=
  let map := fd_map fdp in
  let off := NDSLOT size in
  mask ← (if negb (size mod NDENTRIES =? 0) then
            w ← slot map off;
            Ok (Z.land (not64 (u64 (Z.shiftl all64 (size mod NDENTRIES)))) w)
          else Ok 0);
  if negb (mask =? 0) then Ok (off * NDENTRIES + flsl mask - 1)
  else
    let off := if negb (size mod NDENTRIES =? 0) then off - 1 else off in
    used_slot (S (length map)) map off.

Definition fdisused (fdp : filedesc) (fd : Z) : result bool :=
  _ ← require ((0 <=? fd) && (fd <? fd_nfiles fdp)) "file descriptor out of range";
  w ← slot (fd_map fdp) (NDSLOT fd);
  Ok (negb (Z.land w (NDBIT fd) =? 0)).

Definition fdused_init (fdp : filedesc) (fd : Z) : result filedesc :=
  u ← fdisused fdp fd;
  _ ← require (negb u) "fd is already used";
  w ← slot (fd_map fdp) (NDSLOT fd);
  Ok (set_map (zset (fd_map fdp) (NDSLOT fd) (Z.lor w (NDBIT fd))) fdp).

Definition fdused (fdp : filedesc) (fd : Z) : result filedesc :=
  fdp ← fdused_init fdp fd;
  let fdp := if fd_lastfile fdp <? fd then set_lastfile fd fdp else fdp in
  if fd =? fd_freefile fdp then
    r ← fd_first_free fdp fd (fd_nfiles fdp); Ok (set_freefile r fdp)
  else Ok fdp.

Definition fdunused (fdp : filedesc) (fd : Z) : result filedesc :=
  u ← fdisused fdp fd;
  _ ← require u "fd is already unused";
  e ← ofile fdp fd;
  _ ← require (match fde_file e with None => true | Some _ => false end) "fd is still in use";
  w ← slot (fd_map fdp) (NDSLOT fd);
  let fdp := set_map (zset (fd_map fdp) (NDSLOT fd) (Z.land w (not64 (NDBIT fd)))) fdp in
  let fdp := if fd <? fd_freefile fdp then set_freefile fd fdp else fdp in
  if fd =? fd_lastfile fdp then r ← fd_last_used fdp fd; Ok (set_lastfile r fdp) else Ok fdp.

(** ** The table *)

Definition fdgrowtable (fdp : filedesc) (nfd : Z) : result filedesc :=
  _ ← require (0 <? fd_nfiles fdp) "zero-length file table";
  let onfiles := fd_nfiles fdp in
  let nnfiles := s32 (NDSLOTS nfd * NDENTRIES) in
  if nnfiles <=? onfiles then Ok fdp
  else
    let grow {A} (z : A) (l : list A) (o n : Z) := take (Z.to_nat o) l ++ replicate (Z.to_nat (n - o)) z in
    let map := if NDSLOTS onfiles <? NDSLOTS nnfiles
               then grow 0 (fd_map fdp) (NDSLOTS onfiles) (NDSLOTS nnfiles) else fd_map fdp in
    Ok (MkFdesc nnfiles (grow zero_fde (fd_ofiles fdp) onfiles nnfiles) map
          (fd_lastfile fdp) (fd_freefile fdp) (fd_cmask fdp) (fd_refcnt fdp)).

Definition fdgrowtable_exp (fdp : filedesc) (nfd : Z) : result filedesc :=
  let nfd1 := s32 (fd_nfiles fdp * 2) in
  fdgrowtable fdp (if nfd1 <? nfd then nfd else nfd1).

(** [min] of two [int]s, compared without their sign. *)
Definition imin (a b : Z) : Z := s32 (Z.min (u32 a) (u32 b)).

(** The errno, [*result] and the table. *)
Definition fdalloc (maxfd : Z) (fdp : filedesc) (minfd : Z) : result (Z * Z * filedesc) :=
  let minfd := if minfd <? fd_freefile fdp then fd_freefile fdp else minfd in
  fd ← fd_first_free fdp minfd (fd_nfiles fdp);
  if maxfd <=? fd then Ok (EMFILE, 0, fdp)
  else
    fdp ← (if fd_nfiles fdp <=? fd then fdgrowtable_exp fdp (imin (s32 (fd * 2)) maxfd) else Ok fdp);
    _ ← require ((0 <=? fd) && (fd <? imin maxfd (fd_nfiles fdp))) "invalid descriptor";
    u ← fdisused fdp fd;
    _ ← require (negb u) "fd_first_free() returned non-free descriptor";
    e ← ofile fdp fd;
    _ ← require (match fde_file e with None => true | Some _ => false end) "file descriptor isn't free";
    fdp ← fdused fdp fd;
    Ok (0, fd, fdp).

(** The descriptors taken so far, the last one first. *)
Fixpoint fdalloc_loop (maxfd : Z) (fdp : filedesc) (n : nat) (fds : list Z) : result (bool * list Z * filedesc) :=
  match n with
  | O => Ok (true, fds, fdp)
  | S n' =>
      '(error, fd, fdp) ← fdalloc maxfd fdp 0;
      if negb (error =? 0) then Ok (false, fds, fdp)
      else fdalloc_loop maxfd fdp n' (fd :: fds)
  end.

Fixpoint fdunused_loop (fdp : filedesc) (fds : list Z) : result filedesc :=
  match fds with
  | [] => Ok fdp
  | fd :: fds' => fdp ← fdunused fdp fd; fdunused_loop fdp fds'
  end.

Definition fdallocn (maxfd : Z) (fdp : filedesc) (minfd : Z) (n : nat) : result (Z * list Z * filedesc) :=
  '(all, fds, fdp) ← fdalloc_loop maxfd fdp n [];
  if negb all then fdp ← fdunused_loop fdp fds; Ok (EMFILE, [], fdp)
  else Ok (0, rev fds, fdp).

Definition fdefree_last (e : filedescent) : filedescent :=
  MkFde (fde_file e) (filecaps_free (fde_caps e)) (fde_flags e).

Definition fdfree (fdp : filedesc) (fd : Z) : result filedesc :=
  e ← ofile fdp fd;
  let e := fdefree_last e in
  fdp ← put_ofile fdp fd (MkFde None (fde_caps e) (fde_flags e));
  fdunused fdp fd.

Definition fget_locked (fdp : filedesc) (fd : Z) : result (option Z) :=
  if (fd <? 0) || (fd_lastfile fdp <? fd) then Ok None
  else e ← ofile fdp fd; Ok (fde_file e).
