(* ===== verification/FdBits.v ===== *)
(** The bit map of descriptors: which descriptors it marks used, and what the
    two searches find. *)

From stdpp Require Import list.
From S2P Require Import Prelude Caps Fd.

Definition word64 (w : Z) : Prop := 0 <= w < 2 ^ 64.

Definition used (map : list Z) (j : Z) : bool :=
  (0 <=? j) && Z.testbit (zget map (NDSLOT j)) (j mod NDENTRIES).

(** ** Words *)

Lemma not64_bit x k : 0 <= k -> Z.testbit (not64 x) k = (k <? 64) && negb (Z.testbit x k).
Proof.
  intros Hk. unfold not64, u64. destruct (Z.ltb_spec k 64).
  - by rewrite Z.mod_pow2_bits_low, Z.lnot_spec by lia.
  - by rewrite Z.mod_pow2_bits_high by lia.
Qed.

Lemma not64_range x : word64 (not64 x).
Proof. apply Z.mod_pos_bound. lia. Qed.

Lemma all64_ones : all64 = Z.ones 64.
Proof. reflexivity. Qed.

Lemma high_bits n : 0 <= n < 64 ->
  forall k, 0 <= k -> Z.testbit (not64 (Z.shiftr all64 (64 - n))) k = (n <=? k) && (k <? 64).
Proof.
  intros Hn k Hk. rewrite not64_bit, all64_ones, Z.shiftr_spec, testbit_ones by lia.
  repeat zcase; try lia; done.
Qed.

Lemma low_bits n : 0 <= n < 64 ->
  forall k, 0 <= k -> Z.testbit (not64 (u64 (Z.shiftl all64 n))) k = (k <? n) && (k <? 64).
Proof.
  intros Hn k Hk. rewrite not64_bit by done. destruct (Z.ltb_spec k 64); [|by rewrite andb_false_r].
  unfold u64. rewrite Z.mod_pow2_bits_low, all64_ones, Z.shiftl_spec by lia.
  destruct (Z.ltb_spec k n); [by rewrite Z.testbit_neg_r by lia|].
  rewrite testbit_ones by lia. by ztest.
Qed.

Lemma word_land x y : word64 y -> word64 (Z.land x y).
Proof.
  intros Hy. split; [apply Z.land_nonneg; right; apply Hy|].
  apply Z.le_lt_trans with y; [|apply Hy]. rewrite Z.land_comm.
  destruct (decide (0 <= Z.land y x)); [|destruct Hy; pose proof (proj2 (Z.land_nonneg y x)); lia].
  apply Z.ldiff_le; [apply Hy|]. apply Z.bits_inj'. intros k Hk. autorewrite with bits.
  by destruct (Z.testbit y k), (Z.testbit x k).
Qed.

Lemma word_high_bit x k : word64 x -> 64 <= k -> Z.testbit x k = false.
Proof.
  intros Hx Hk. destruct (decide (x = 0)) as [->|]; [apply Z.bits_0|].
  apply Z.bits_above_log2; [apply Hx|]. apply Z.lt_le_trans with 64; [|done].
  apply Z.log2_lt_pow2; destruct Hx; lia.
Qed.

(** The lowest and the highest bit of a word. *)
Lemma ffsl_spec m : word64 m -> m <> 0 ->
  exists r, ffsl m - 1 = r /\ 0 <= r < 64 /\ Z.testbit m r = true /\ forall k, 0 <= k < r -> Z.testbit m k = false.
Proof.
  intros Hm Hz. unfold ffsl. ztest. exists (ctz m).
  destruct (ctz_spec m ltac:(destruct Hm; lia)) as (H1 & H2 & H3). split_and!; [lia|done| |done|done].
  apply Z.nle_gt. intros H. by rewrite word_high_bit in H2.
Qed.

Lemma flsl_spec m : word64 m -> m <> 0 ->
  exists r, flsl m - 1 = r /\ 0 <= r < 64 /\ Z.testbit m r = true /\ forall k, r < k -> Z.testbit m k = false.
Proof.
  intros Hm Hz. unfold flsl. ztest. exists (Z.log2 m).
  split_and!; [lia|apply Z.log2_nonneg| | |].
  - apply Z.log2_lt_pow2; destruct Hm; lia.
  - apply Z.bit_log2. destruct Hm; lia.
  - intros k Hk. apply Z.bits_above_log2; [apply Hm | done].
Qed.

Lemma zero_bits m k : m = 0 -> Z.testbit m k = false.
Proof. intros ->. apply Z.bits_0. Qed.

(** ** Positions *)

Lemma div_mod64 j : j = NDSLOT j * 64 + j mod 64.
Proof. unfold NDSLOT, NDENTRIES. pose proof (Z.div_mod j 64). lia. Qed.

Lemma mod64 j : 0 <= j mod 64 < 64.
Proof. apply Z.mod_pos_bound. lia. Qed.

Lemma slot_of off k : 0 <= k < 64 -> NDSLOT (off * 64 + k) = off /\ (off * 64 + k) mod 64 = k.
Proof.
  intros Hk. unfold NDSLOT, NDENTRIES.
  split; symmetry; [apply (Z.div_unique_pos _ _ _ k) | apply (Z.mod_unique_pos _ _ off)]; lia.
Qed.

Lemma used_at map off k : 0 <= off -> 0 <= k < 64 -> used map (off * 64 + k) = Z.testbit (zget map off) k.
Proof.
  intros Ho Hk. unfold used, NDENTRIES. destruct (slot_of off k Hk) as [-> ->]. by ztest.
Qed.

Lemma used_neg map j : j < 0 -> used map j = false.
Proof. intros Hj. unfold used. by ztest. Qed.

Lemma used_beyond map j : 64 * zlength map <= j -> used map j = false.
Proof.
  intros Hj. unfold used. rewrite (aget_ge 0 map (NDSLOT j)); [by rewrite Z.bits_0, andb_false_r|].
  pose proof (div_mod64 j). pose proof (mod64 j). lia.
Qed.

Lemma slot_ok map off : 0 <= off < zlength map -> slot map off = Ok (zget map off).
Proof. intros H. unfold slot. by ztest. Qed.

Lemma word_get map off : Forall word64 map -> word64 (zget map off).
Proof. intros H. apply aget_Forall; [unfold word64; lia | done]. Qed.

(** Positions of one slot, as bits. *)
Lemma in_slot off j : off * 64 <= j < (off + 1) * 64 -> NDSLOT j = off /\ j = off * 64 + j mod 64.
Proof. intros Hj. pose proof (div_mod64 j). pose proof (mod64 j). lia. Qed.

(** ** The searches *)

Lemma free_slot_spec map maxoff size : Forall word64 map -> maxoff <= zlength map ->
  forall fuel off, 0 <= off -> (Z.to_nat (maxoff - off) < fuel)%nat ->
  exists r, free_slot fuel map off maxoff size = Ok r /\
  ((r = size /\ forall j, off * 64 <= j < maxoff * 64 -> used map j = true) \/
   (off * 64 <= r < maxoff * 64 /\ used map r = false /\ forall j, off * 64 <= j < r -> used map j = true)).
Proof.
  intros Hw Hm. induction fuel as [|fuel IH]; intros off Ho Hf; [lia|]. cbn [free_slot].
  destruct (Z.ltb_spec off maxoff).
  2:{ exists size. split; [done|]. left. split; [done|]. lia. }
  rewrite slot_ok, bind_Ok by lia. pose proof (word_get map off Hw) as Hx.
  destruct (Z.eqb_spec (zget map off) all64) as [E|E]; cbn [negb].
  - destruct (IH (off + 1) ltac:(lia) ltac:(lia)) as (r & -> & Hr). exists r. split; [done|].
    assert (forall j, off * 64 <= j < (off + 1) * 64 -> used map j = true) as Hu.
    { intros j Hj. destruct (in_slot off j Hj) as [_ ->]. rewrite used_at by (try lia; apply mod64).
      rewrite E, all64_ones, testbit_ones by lia. pose proof (mod64 j). by ztest. }
    destruct Hr as [[-> Hr]|(Hr & Hu1 & Hu2)]; [left | right].
    + split; [done|]. intros j Hj. destruct (Z.lt_ge_cases j ((off + 1) * 64)); [apply Hu | apply Hr]; lia.
    + split_and!; [lia|lia|done|]. intros j Hj.
      destruct (Z.lt_ge_cases j ((off + 1) * 64)); [apply Hu | apply Hu2]; lia.
  - destruct (ffsl_spec (not64 (zget map off))) as (r & Er & Hr & Hb & Hl).
    { apply not64_range. }
    { intros Hz. apply E. apply Z.bits_inj'. intros k Hk. rewrite all64_ones, testbit_ones by lia.
      destruct (Z.ltb_spec k 64).
      - ztest. apply (f_equal (fun x => Z.testbit x k)) in Hz. revert Hz.
        rewrite not64_bit, Z.bits_0 by done. ztest. by intros ?%negb_false_iff.
      - rewrite andb_false_r. by apply word_high_bit. }
    exists (off * 64 + r). split; [f_equal; unfold NDENTRIES; lia|]. right.
    rewrite not64_bit in Hb by lia. bool_to_prop.
    split_and!; [lia|lia| |].
    + by rewrite used_at.
    + intros j Hj. destruct (in_slot off j ltac:(lia)) as [_ Ej]. rewrite Ej in Hj |- *.
      rewrite used_at by (try lia; apply mod64). specialize (Hl (j mod 64)). pose proof (mod64 j).
      rewrite not64_bit in Hl by lia. revert Hl. ztest. intros Hl. by apply negb_false_iff, Hl; lia.
Qed.

Lemma first_free_spec fdp low size :
  Forall word64 (fd_map fdp) -> 0 <= low < size -> NDSLOTS size <= zlength (fd_map fdp) ->
  exists r, fd_first_free fdp low size = Ok r /\
  ((r = size /\ forall j, low <= j < NDSLOTS size * 64 -> used (fd_map fdp) j = true) \/
   (low <= r < NDSLOTS size * 64 /\ used (fd_map fdp) r = false /\
    forall j, low <= j < r -> used (fd_map fdp) j = true)).
Proof.
  intros Hw Hl Hm. unfold fd_first_free. ztest. set (map := fd_map fdp) in *.
  pose proof (div_mod64 low) as Hdm. pose proof (mod64 low) as Hmod.
  change (low mod NDENTRIES) with (low mod 64).
  assert (0 <= NDSLOT low < NDSLOTS size) as Hs by (unfold NDSLOT, NDSLOTS, NDENTRIES; dlia).
  destruct (Z.eqb_spec (low mod 64) 0) as [E|E]; cbn [negb].
  - rewrite bind_Ok. cbn [Z.eqb negb].
    destruct (free_slot_spec map (NDSLOTS size) size Hw Hm (S (length map)) (NDSLOT low)) as (r & -> & Hr);
      [lia | unfold zlength in Hm; lia |].
    exists r. split; [done|]. by replace (NDSLOT low * 64) with low in Hr by lia.
  - rewrite slot_ok, bind_Ok by lia. set (w := zget map (NDSLOT low)).
    set (mask := Z.land _ _). rewrite bind_Ok. pose proof (word_get map (NDSLOT low) Hw) as Hww. fold w in Hww.
    assert (forall k, 0 <= k < 64 -> Z.testbit mask k = (low mod 64 <=? k) && negb (Z.testbit w k)) as Hb.
    { intros k Hk. unfold mask, NDENTRIES. rewrite Z.land_spec, high_bits, not64_bit by lia.
      by ztest; rewrite andb_true_r. }
    assert (word64 mask) as Hmask by (apply word_land, not64_range).
    destruct (Z.eqb_spec mask 0) as [Em|Em]; cbn [negb].
    + assert (forall j, low <= j < (NDSLOT low + 1) * 64 -> used map j = true) as Hu.
      { intros j Hj. destruct (in_slot (NDSLOT low) j ltac:(lia)) as [_ Ej]. rewrite Ej in Hj |- *.
        pose proof (mod64 j). rewrite used_at by lia. fold w.
        specialize (Hb (j mod 64) ltac:(lia)). rewrite zero_bits in Hb by done. symmetry in Hb.
        apply andb_false_iff in Hb as [Hb|Hb]; bool_to_prop; [lia | done]. }
      destruct (free_slot_spec map (NDSLOTS size) size Hw Hm (S (length map)) (NDSLOT low + 1)) as (r & -> & Hr);
        [lia | unfold zlength in Hm; lia |].
      exists r. split; [done|]. destruct Hr as [[-> Hr]|(Hr & Hr1 & Hr2)]; [left | right].
      * split; [done|]. intros j Hj. destruct (Z.lt_ge_cases j ((NDSLOT low + 1) * 64)); [apply Hu | apply Hr]; lia.
      * split_and!; [lia|lia|done|]. intros j Hj.
        destruct (Z.lt_ge_cases j ((NDSLOT low + 1) * 64)); [apply Hu | apply Hr2]; lia.
    + destruct (ffsl_spec mask Hmask Em) as (r & Er & Hr & Hbit & Hlow).
      exists (NDSLOT low * 64 + r). split; [f_equal; unfold NDENTRIES; lia|]. right.
      rewrite Hb in Hbit by lia. bool_to_prop. split_and!; [lia|lia| |].
      * rewrite used_at by lia. done.
      * intros j Hj. destruct (in_slot (NDSLOT low) j ltac:(lia)) as [_ Ej]. rewrite Ej in Hj |- *.
        pose proof (mod64 j). rewrite used_at by lia. fold w.
        specialize (Hlow (j mod 64) ltac:(lia)). rewrite Hb in Hlow by lia. revert Hlow. ztest.
        by intros ?%negb_false_iff.
Qed.

Lemma used_slot_spec map : Forall word64 map ->
  forall fuel off, -1 <= off < zlength map -> (Z.to_nat (off + 1) < fuel)%nat ->
  exists r, used_slot fuel map off = Ok r /\ -1 <= r < (off + 1) * 64 /\
  (0 <= r -> used map r = true) /\ forall j, r < j < (off + 1) * 64 -> used map j = false.
Proof.
  intros Hw. induction fuel as [|fuel IH]; intros off Ho Hf; [lia|]. cbn [used_slot].
  change (NDSLOT 0) with 0. destruct (Z.leb_spec 0 off).
  2:{ exists (-1). split_and!; [done|lia|lia|lia|]. intros j Hj. lia. }
  rewrite slot_ok, bind_Ok by lia. pose proof (word_get map off Hw) as Hx.
  destruct (Z.eqb_spec (zget map off) 0) as [E|E]; cbn [negb].
  - destruct (IH (off - 1) ltac:(lia) ltac:(lia)) as (r & -> & Hr & Hu1 & Hu2). exists r.
    split_and!; [done|lia|lia|done|]. intros j Hj.
    destruct (Z.lt_ge_cases j (off * 64)); [apply Hu2; lia|].
    destruct (in_slot off j ltac:(lia)) as [_ ->]. rewrite used_at by (try lia; apply mod64).
    by apply zero_bits.
  - destruct (flsl_spec (zget map off) Hx E) as (r & Er & Hr & Hb & Hh).
    exists (off * 64 + r). split; [f_equal; unfold NDENTRIES; lia|]. split_and!; [lia|lia| |].
    + intros _. by rewrite used_at.
    + intros j Hj. destruct (in_slot off j ltac:(lia)) as [_ Ej]. rewrite Ej in Hj |- *.
      pose proof (mod64 j). rewrite used_at by lia. apply Hh. lia.
Qed.

(** The search goes on to the end of the slot when [size] begins one. *)
Definition last_used_top (size : Z) : Z := if size mod 64 =? 0 then size + 64 else size.

Lemma last_used_spec fdp size :
  Forall word64 (fd_map fdp) -> 0 <= size -> NDSLOT size < zlength (fd_map fdp) ->
  exists r, fd_last_used fdp size = Ok r /\ -1 <= r < last_used_top size /\
  (0 <= r -> used (fd_map fdp) r = true) /\
  forall j, r < j < last_used_top size -> used (fd_map fdp) j = false.
Proof.
  intros Hw Hs Hm. unfold fd_last_used, last_used_top. set (map := fd_map fdp) in *.
  change (size mod NDENTRIES) with (size mod 64).
  pose proof (div_mod64 size) as Hdm. pose proof (mod64 size) as Hmod.
  assert (0 <= NDSLOT size) as H0 by (unfold NDSLOT, NDENTRIES; dlia).
  destruct (Z.eqb_spec (size mod 64) 0) as [E|E]; cbn [negb].
  - rewrite bind_Ok. cbn [Z.eqb negb].
    destruct (used_slot_spec map Hw (S (length map)) (NDSLOT size)) as (r & -> & Hr & Hu1 & Hu2);
      [lia | unfold zlength in Hm; lia |].
    exists r. replace (size + 64) with ((NDSLOT size + 1) * 64) by lia.
    split_and!; [done|lia|lia|done|done].
  - rewrite slot_ok, bind_Ok by lia. set (w := zget map (NDSLOT size)).
    set (mask := Z.land _ _). rewrite bind_Ok. pose proof (word_get map (NDSLOT size) Hw) as Hww. fold w in Hww.
    assert (forall k, 0 <= k < 64 -> Z.testbit mask k = (k <? size mod 64) && Z.testbit w k) as Hb.
    { intros k Hk. unfold mask. rewrite Z.land_spec, low_bits by lia. by ztest; rewrite andb_true_r. }
    assert (word64 mask) as Hmask by (by apply word_land).
    destruct (Z.eqb_spec mask 0) as [Em|Em]; cbn [negb].
    + assert (forall j, NDSLOT size * 64 <= j < size -> used map j = false) as Hu.
      { intros j Hj. destruct (in_slot (NDSLOT size) j ltac:(lia)) as [_ Ej]. rewrite Ej in Hj |- *.
        pose proof (mod64 j). rewrite used_at by lia. fold w.
        specialize (Hb (j mod 64) ltac:(lia)). rewrite zero_bits in Hb by done. revert Hb. by ztest. }
      destruct (used_slot_spec map Hw (S (length map)) (NDSLOT size - 1)) as (r & -> & Hr & Hu1 & Hu2);
        [lia | unfold zlength in Hm; lia |].
      exists r. split_and!; [done|lia|lia|done|]. intros j Hj.
      destruct (Z.lt_ge_cases j (NDSLOT size * 64)); [apply Hu2 | apply Hu]; lia.
    + destruct (flsl_spec mask Hmask Em) as (r & Er & Hr & Hbit & Hhigh).
      exists (NDSLOT size * 64 + r). split; [f_equal; unfold NDENTRIES; lia|].
      rewrite Hb in Hbit by lia. bool_to_prop. split_and!; [lia|lia| |].
      * intros _. by rewrite used_at.
      * intros j Hj. destruct (in_slot (NDSLOT size) j ltac:(lia)) as [_ Ej]. rewrite Ej in Hj |- *.
        pose proof (mod64 j). rewrite used_at by lia. fold w.
        specialize (Hhigh (j mod 64) ltac:(lia)). rewrite Hb in Hhigh by lia. revert Hhigh. by ztest.
Qed.

(** ** One bit changed *)

Lemma ndbit_bit fd k : 0 <= k -> Z.testbit (NDBIT fd) k = (fd mod 64 =? k).
Proof. intros Hk. unfold NDBIT, NDENTRIES. apply testbit_pow2. apply mod64. Qed.

Lemma used_zset map off w j :
  0 <= off < zlength map -> 0 <= j ->
  used (zset map off w) j = if NDSLOT j =? off then Z.testbit w (j mod 64) else used map j.
Proof.
  intros Ho Hj. unfold used. change (j mod NDENTRIES) with (j mod 64). ztest. cbn [andb].
  assert (0 <= NDSLOT j) by (unfold NDSLOT, NDENTRIES; dlia).
  rewrite aget_aset by lia. rewrite Z.eqb_sym. by destruct (NDSLOT j =? off).
Qed.

Lemma same_bit fd j : (NDSLOT j =? NDSLOT fd) && (fd mod 64 =? j mod 64) = (fd =? j).
Proof.
  pose proof (div_mod64 fd). pose proof (div_mod64 j). pose proof (mod64 fd). pose proof (mod64 j).
  apply eq_true_iff_eq. rewrite andb_true_iff, !Z.eqb_eq. split; [lia|]. intros ->. done.
Qed.

Lemma used_set map fd j :
  0 <= fd -> NDSLOT fd < zlength map ->
  used (zset map (NDSLOT fd) (Z.lor (zget map (NDSLOT fd)) (NDBIT fd))) j = (fd =? j) || used map j.
Proof.
  intros Hf Hm. destruct (Z.lt_ge_cases j 0); [rewrite !used_neg by done; by ztest|].
  assert (0 <= NDSLOT fd) by (unfold NDSLOT, NDENTRIES; dlia).
  rewrite used_zset by lia. rewrite <- (same_bit fd j). destruct (Z.eqb_spec (NDSLOT j) (NDSLOT fd)) as [E|E]; [|done].
  rewrite Z.lor_spec, ndbit_bit, <- E by apply mod64. cbn [andb]. rewrite orb_comm. f_equal.
  unfold used. change (j mod NDENTRIES) with (j mod 64). by ztest.
Qed.

Lemma used_clear map fd j :
  0 <= fd -> NDSLOT fd < zlength map ->
  used (zset map (NDSLOT fd) (Z.land (zget map (NDSLOT fd)) (not64 (NDBIT fd)))) j = negb (fd =? j) && used map j.
Proof.
  intros Hf Hm. destruct (Z.lt_ge_cases j 0); [rewrite !used_neg by done; by rewrite andb_false_r|].
  assert (0 <= NDSLOT fd) by (unfold NDSLOT, NDENTRIES; dlia). pose proof (mod64 j).
  rewrite used_zset by lia. rewrite <- (same_bit fd j). destruct (Z.eqb_spec (NDSLOT j) (NDSLOT fd)) as [E|E]; [|done].
  rewrite Z.land_spec, not64_bit, ndbit_bit, <- E by lia. ztest. cbn [andb]. rewrite andb_comm. f_equal.
  unfold used. change (j mod NDENTRIES) with (j mod 64). by ztest.
Qed.

Lemma words_set map off w : Forall word64 map -> word64 w -> Forall word64 (zset map off w).
Proof. intros H Hw. by apply aset_Forall. Qed.

Lemma lor_word x y : word64 x -> word64 y -> word64 (Z.lor x y).
Proof.
  intros Hx Hy. split; [apply Z.lor_nonneg; split; [apply Hx | apply Hy]|].
  destruct (decide (Z.lor x y = 0)) as [->|]; [done|].
  assert (0 <= Z.lor x y) by (apply Z.lor_nonneg; split; [apply Hx | apply Hy]).
  apply Z.log2_lt_pow2; [lia|]. apply Z.nle_gt. intros Hl.
  pose proof (Z.bit_log2 (Z.lor x y) ltac:(lia)) as Hb. rewrite Z.lor_spec in Hb.
  by rewrite !word_high_bit in Hb by done.
Qed.

Lemma ndbit_word fd : word64 (NDBIT fd).
Proof.
  unfold word64, NDBIT, NDENTRIES. rewrite Z.shiftl_1_l. pose proof (mod64 fd).
  split; [lia|]. apply Z.pow_lt_mono_r; lia.
Qed.
