(* ===== verification/FdTable.v ===== *)
(** The descriptor table: its invariant and what each operation on it does. *)

From stdpp Require Import list.
From S2P Require Import Prelude Caps Fd.
From S2P Require Import FdBits.

Definition in_use (d : filedesc) (j : Z) : bool := used (fd_map d) j.
Definition fde (d : filedesc) (j : Z) : filedescent := aget zero_fde (fd_ofiles d) j.

(** The map marks only descriptors of the table, and every one that has a
    file; [fd_lastfile] is the highest one marked and [fd_freefile] the
    lowest one not. *)
Record fdt_ok (d : filedesc) : Prop := {
  ft_nfiles : 0 < fd_nfiles d <= 2 ^ 30;
  ft_ofiles : zlength (fd_ofiles d) = fd_nfiles d;
  ft_map : zlength (fd_map d) = NDSLOTS (fd_nfiles d);
  ft_words : Forall word64 (fd_map d);
  ft_range : forall j, in_use d j = true -> 0 <= j < fd_nfiles d;
  ft_file : forall j, fde_file (fde d j) <> None -> in_use d j = true;
  ft_last : -1 <= fd_lastfile d /\ (0 <= fd_lastfile d -> in_use d (fd_lastfile d) = true) /\
            forall j, fd_lastfile d < j -> in_use d j = false;
  ft_free : 0 <= fd_freefile d /\ in_use d (fd_freefile d) = false /\
            forall j, 0 <= j < fd_freefile d -> in_use d j = true
}.

(** The entries and what else the searches and the map do not touch. *)
Record same_table (d d' : filedesc) : Prop := {
  st_ofiles : forall j, fde d' j = fde d j;
  st_cmask : fd_cmask d' = fd_cmask d;
  st_refcnt : fd_refcnt d' = fd_refcnt d;
  st_nfiles : fd_nfiles d <= fd_nfiles d'
}.

#[export] Instance same_table_preorder : PreOrder same_table.
Proof.
  split; [by intros d; constructor|]. intros d1 d2 d3 [H1 H2 H3 H4] [H5 H6 H7 H8].
  constructor; [intros j; by rewrite H5 | congruence | congruence | lia].
Qed.

Lemma fde_neg d j : j < 0 -> fde d j = zero_fde.
Proof. intros Hj. unfold fde, aget. by ztest. Qed.

Lemma ofile_ok d fd : fdt_ok d -> 0 <= fd < fd_nfiles d -> ofile d fd = Ok (fde d fd).
Proof. intros T Hf. unfold ofile. rewrite (ft_ofiles d T). by ztest. Qed.

Lemma nslots n : 0 < n -> n <= 64 * NDSLOTS n < n + 64.
Proof. unfold NDSLOTS, NDENTRIES. dlia. Qed.

Lemma slot_in d fd : fdt_ok d -> 0 <= fd < fd_nfiles d -> 0 <= NDSLOT fd < zlength (fd_map d).
Proof.
  intros T Hf. rewrite (ft_map d T). unfold NDSLOT, NDSLOTS, NDENTRIES. dlia.
Qed.

Lemma fdisused_ok d fd : fdt_ok d -> 0 <= fd < fd_nfiles d -> fdisused d fd = Ok (in_use d fd).
Proof.
  intros T Hf. unfold fdisused. ztest. cbn [andb require]. rewrite bind_Ok.
  rewrite slot_ok, bind_Ok by (by apply slot_in). f_equal.
  unfold NDBIT. rewrite land_pow2_testbit by apply mod64. rewrite negb_involutive.
  unfold in_use, used. by ztest.
Qed.

(** ** The searches under the invariant *)

Lemma first_free_ok d low :
  fdt_ok d -> 0 <= low ->
  exists r, fd_first_free d low (fd_nfiles d) = Ok r /\ low <= r /\ in_use d r = false /\
  forall j, low <= j < r -> in_use d j = true.
Proof.
  intros T Hl. pose proof (nslots (fd_nfiles d) (proj1 (ft_nfiles d T))) as Hn.
  destruct (Z.le_gt_cases (fd_nfiles d) low) as [Hge|Hlt].
  - exists low. split_and!; [| lia | | lia].
    + unfold fd_first_free. by ztest.
    + apply not_true_is_false. intros H. apply (ft_range d T) in H. lia.
  - destruct (first_free_spec d low (fd_nfiles d)) as (r & E & Hr);
      [apply T | lia | by rewrite (ft_map d T)|].
    exists r. split; [done|]. destruct Hr as [[-> Hr]|(Hr & Hr1 & Hr2)]; [|split_and!; [lia|done|done]].
    split_and!; [lia | | intros j Hj; apply Hr; lia].
    apply not_true_is_false. intros H. apply (ft_range d T) in H. lia.
Qed.

Lemma freefile_le d : fdt_ok d -> fd_freefile d <= fd_lastfile d + 1.
Proof.
  intros T. destruct (ft_free d T) as (H1 & _ & H2). destruct (ft_last d T) as (H3 & _ & H4).
  apply Z.nlt_ge. intros H. specialize (H2 (fd_lastfile d + 1) ltac:(lia)).
  rewrite H4 in H2 by lia. done.
Qed.

Lemma last_lt d : fdt_ok d -> fd_lastfile d < fd_nfiles d.
Proof.
  intros T. destruct (ft_last d T) as (H3 & H4 & _). pose proof (ft_nfiles d T).
  destruct (Z.le_gt_cases 0 (fd_lastfile d)) as [Hc|]; [|lia]. apply H4, (ft_range d T) in Hc. lia.
Qed.

(** ** Marking *)

Lemma used_init_ok d fd :
  fdt_ok d -> 0 <= fd < fd_nfiles d -> in_use d fd = false ->
  fdused_init d fd = Ok (set_map (zset (fd_map d) (NDSLOT fd) (Z.lor (zget (fd_map d) (NDSLOT fd)) (NDBIT fd))) d).
Proof.
  intros T Hf Hu. unfold fdused_init. rewrite fdisused_ok, bind_Ok, Hu by done. cbn [negb require].
  by rewrite bind_Ok, slot_ok, bind_Ok by (by apply slot_in).
Qed.

Lemma marked_words d fd :
  fdt_ok d -> Forall word64 (zset (fd_map d) (NDSLOT fd) (Z.lor (zget (fd_map d) (NDSLOT fd)) (NDBIT fd))).
Proof.
  intros T. apply words_set; [apply T|]. apply lor_word; [by apply word_get, T | apply ndbit_word].
Qed.

Lemma fdused_spec d fd :
  fdt_ok d -> 0 <= fd < fd_nfiles d -> in_use d fd = false ->
  exists d', fdused d fd = Ok d' /\ fdt_ok d' /\ same_table d d' /\ fd_nfiles d' = fd_nfiles d /\
  forall j, in_use d' j = (fd =? j) || in_use d j.
Proof.
  intros T Hf Hu. unfold fdused. rewrite used_init_ok, bind_Ok by done.
  set (m := zset _ _ _). cbv zeta.
  assert (forall j, used m j = (fd =? j) || in_use d j) as Hm.
  { intros j. apply used_set; [lia | by apply slot_in]. }
  assert (zlength m = NDSLOTS (fd_nfiles d)) as Hlen by (unfold m; rewrite zlength_aset; apply T).
  pose proof (marked_words d fd T) as Hw. fold m in Hw.
  destruct (ft_last d T) as (L1 & L2 & L3). destruct (ft_free d T) as (F1 & F2 & F3).
  pose proof (last_lt d T) as Hlast.
  set (last := if fd_lastfile (set_map m d) <? fd then fd else fd_lastfile d).
  assert (-1 <= last /\ (0 <= last -> used m last = true) /\ forall j, last < j -> used m j = false) as Hl.
  { unfold last. cbn [set_map fd_lastfile]. split_and!.
    - destruct (_ <? _); lia.
    - rewrite Hm. intros H0. destruct (Z.ltb_spec (fd_lastfile d) fd); [by rewrite Z.eqb_refl|].
      rewrite L2 by lia. apply orb_true_r.
    - intros j Hj. rewrite Hm. destruct (Z.ltb_spec (fd_lastfile d) fd); rewrite L3 by lia; ztest; [done|].
      destruct (Z.eqb_spec fd j); [lia | done]. }
  assert ((if fd_lastfile (set_map m d) <? fd then set_lastfile fd (set_map m d) else set_map m d) =
          MkFdesc (fd_nfiles d) (fd_ofiles d) m last (fd_freefile d) (fd_cmask d) (fd_refcnt d)) as ->.
  { unfold last. by destruct (_ <? _). }
  assert (forall free, (0 <= free /\ used m free = false /\ forall j, 0 <= j < free -> used m j = true) ->
    fdt_ok (MkFdesc (fd_nfiles d) (fd_ofiles d) m last free (fd_cmask d) (fd_refcnt d))) as Hok.
  { intros free Hfree. constructor; try apply T; try done.
    - intros j. unfold in_use. cbn [fd_map fd_nfiles]. rewrite Hm.
      intros [?|Hj]%orb_true_iff; [bool_to_prop; lia | by apply (ft_range d T)].
    - intros j Hj. unfold in_use. cbn [fd_map]. rewrite Hm. apply (ft_file d T) in Hj. by rewrite Hj, orb_true_r. }
  cbn [fd_freefile fd_nfiles].
  destruct (Z.eqb_spec fd (fd_freefile d)) as [E|E].
  - set (d1 := MkFdesc _ _ _ _ _ _ _).
    destruct (Z.le_gt_cases (fd_nfiles d) fd); [lia|].
    destruct (first_free_spec d1 fd (fd_nfiles d)) as (r & -> & Hr); [done | lia | cbn; lia|].
    rewrite bind_Ok. eexists. split; [reflexivity|].
    assert (0 <= r /\ used m r = false /\ forall j, 0 <= j < r -> used m j = true) as Hfree.
    { pose proof (nslots (fd_nfiles d) ltac:(lia)) as Hn. cbn [d1 fd_map] in Hr.
      assert (used m r = false /\ fd <= r /\ forall j, fd <= j < r -> used m j = true) as (R1 & R2 & R3).
      { destruct Hr as [[-> Hr]|(? & ? & ?)]; [|by split_and!; [|lia|]]. split_and!; [|lia|intros j Hj; apply Hr; lia].
        rewrite Hm. ztest. apply not_true_is_false. intros H'. apply (ft_range d T) in H'. lia. }
      split_and!; [lia | done |]. intros j Hj. destruct (Z.lt_ge_cases j fd); [|apply R3; lia].
      rewrite Hm, F3 by lia. apply orb_true_r. }
    split_and!; [by apply Hok | by constructor; [..|cbn; lia] | done | exact Hm].
  - eexists. split; [reflexivity|]. split_and!; [apply Hok | by constructor; [..|cbn; lia] | done | exact Hm].
    split_and!; [done| |]; rewrite ?Hm.
    + rewrite F2, orb_false_r. by apply Z.eqb_neq.
    + intros j Hj. rewrite Hm, F3 by lia. apply orb_true_r.
Qed.

Lemma cleared_words d fd :
  fdt_ok d ->
  Forall word64 (zset (fd_map d) (NDSLOT fd) (Z.land (zget (fd_map d) (NDSLOT fd)) (not64 (NDBIT fd)))).
Proof. intros T. apply words_set; [apply T|]. apply word_land, not64_range. Qed.

Lemma fdunused_spec d fd :
  fdt_ok d -> in_use d fd = true -> fde_file (fde d fd) = None ->
  exists d', fdunused d fd = Ok d' /\ fdt_ok d' /\ same_table d d' /\ fd_nfiles d' = fd_nfiles d /\
  forall j, in_use d' j = negb (fd =? j) && in_use d j.
Proof.
  intros T Hu Hfile. pose proof (ft_range d T fd Hu) as Hf. unfold fdunused.
  rewrite fdisused_ok, bind_Ok, Hu, ofile_ok by done. cbn [require]. rewrite !bind_Ok, Hfile. cbn [require].
  rewrite bind_Ok, slot_ok, bind_Ok by (by apply slot_in). set (m := zset _ _ _). cbv zeta.
  assert (forall j, used m j = negb (fd =? j) && in_use d j) as Hm.
  { intros j. apply used_clear; [lia | by apply slot_in]. }
  assert (zlength m = NDSLOTS (fd_nfiles d)) as Hlen by (unfold m; rewrite zlength_aset; apply T).
  pose proof (cleared_words d fd T) as Hw. fold m in Hw.
  destruct (ft_last d T) as (L1 & L2 & L3). destruct (ft_free d T) as (F1 & F2 & F3).
  pose proof (last_lt d T) as Hlast.
  set (free := if fd <? fd_freefile d then fd else fd_freefile d).
  assert ((if fd <? fd_freefile (set_map m d) then set_freefile fd (set_map m d) else set_map m d) =
          MkFdesc (fd_nfiles d) (fd_ofiles d) m (fd_lastfile d) free (fd_cmask d) (fd_refcnt d)) as ->.
  { unfold free. cbn [set_map fd_freefile]. by destruct (_ <? _). }
  assert (0 <= free /\ used m free = false /\ forall j, 0 <= j < free -> used m j = true) as Hfree.
  { unfold free. destruct (Z.ltb_spec fd (fd_freefile d)); split_and!; try lia; rewrite ?Hm.
    - by rewrite Z.eqb_refl.
    - intros j Hj. rewrite Hm, F3 by lia. by ztest.
    - by rewrite F2, andb_false_r.
    - intros j Hj. rewrite Hm, F3 by lia. by ztest. }
  assert (forall last, (-1 <= last /\ (0 <= last -> used m last = true) /\ forall j, last < j -> used m j = false) ->
    fdt_ok (MkFdesc (fd_nfiles d) (fd_ofiles d) m last free (fd_cmask d) (fd_refcnt d))) as Hok.
  { intros last Hl. constructor; try apply T; try done.
    - intros j. unfold in_use. cbn [fd_map fd_nfiles]. rewrite Hm. intros Hj. bool_to_prop. by apply (ft_range d T).
    - intros j Hj. unfold in_use. cbn [fd_map]. rewrite Hm, (ft_file d T) by done.
      rewrite andb_true_r. destruct (Z.eqb_spec fd j); [|done]. subst j. done. }
  cbn [fd_lastfile]. destruct (Z.eqb_spec fd (fd_lastfile d)) as [E|E].
  - set (d1 := MkFdesc _ _ _ _ _ _ _).
    destruct (last_used_spec d1 fd) as (r & -> & Hr & Hr1 & Hr2); [done | lia | |].
    { cbn. rewrite Hlen, <- (ft_map d T). by apply slot_in. }
    rewrite bind_Ok. eexists. split; [reflexivity|]. cbn [d1 fd_map] in Hr1, Hr2.
    split_and!; [apply Hok | by constructor; [..|cbn; lia] | done | exact Hm].
    split_and!; [lia | done |]. intros j Hj. destruct (Z.lt_ge_cases j fd).
    + apply Hr2. unfold last_used_top. destruct (_ =? _); lia.
    + rewrite Hm. destruct (Z.eqb_spec fd j) as [->|]; [done|]. rewrite L3 by lia. done.
  - eexists. split; [reflexivity|]. split_and!; [apply Hok | by constructor; [..|cbn; lia] | done | exact Hm].
    split_and!; [done| |].
    + intros H0. rewrite Hm, L2 by done. by ztest.
    + intros j Hj. rewrite Hm, L3 by done. apply andb_false_r.
Qed.

(** ** Growth *)

Lemma aget_grow {A} (z : A) l o n j :
  zlength l = o -> 0 <= o <= n -> aget z (take (Z.to_nat o) l ++ replicate (Z.to_nat (n - o)) z) j = aget z l j.
Proof.
  intros Hl Ho. rewrite take_ge by (unfold zlength in Hl; lia). unfold aget. zcase; [done|].
  rewrite !nth_lookup. unfold zlength in Hl. destruct (Z.lt_ge_cases j o).
  - by rewrite lookup_app_l by lia.
  - rewrite lookup_app_r, (lookup_ge_None_2 l) by lia.
    destruct (replicate _ z !! _) eqn:E; [|done]. by apply lookup_replicate in E as [-> _].
Qed.

Lemma length_grow {A} (z : A) l o n :
  zlength l = o -> 0 <= o <= n -> zlength (take (Z.to_nat o) l ++ replicate (Z.to_nat (n - o)) z) = n.
Proof.
  intros Hl Ho. unfold zlength in *. rewrite length_app, length_take, length_replicate. lia.
Qed.

Lemma nslots_mono a b : 0 < a <= b -> 0 < NDSLOTS a <= NDSLOTS b.
Proof. unfold NDSLOTS, NDENTRIES. dlia. Qed.

Lemma s32_id x : 0 <= x < 2 ^ 31 -> s32 x = x.
Proof. intros Hx. unfold s32, u32. rewrite Z.mod_small by lia. by ztest. Qed.

(** The table that is not large enough. *)
Definition grown (d : filedesc) (nfd : Z) : filedesc :=
  let n := NDSLOTS nfd * NDENTRIES in
  MkFdesc n (take (Z.to_nat (fd_nfiles d)) (fd_ofiles d) ++ replicate (Z.to_nat (n - fd_nfiles d)) zero_fde)
    (if NDSLOTS (fd_nfiles d) <? NDSLOTS n
     then take (Z.to_nat (NDSLOTS (fd_nfiles d))) (fd_map d) ++
          replicate (Z.to_nat (NDSLOTS n - NDSLOTS (fd_nfiles d))) 0
     else fd_map d)
    (fd_lastfile d) (fd_freefile d) (fd_cmask d) (fd_refcnt d).

Lemma slots_round n : 0 < n -> NDSLOTS (NDSLOTS n * NDENTRIES) = NDSLOTS n.
Proof. unfold NDSLOTS, NDENTRIES. dlia. Qed.

Lemma grown_ok d nfd :
  fdt_ok d -> fd_nfiles d < NDSLOTS nfd * NDENTRIES <= 2 ^ 30 -> 0 < nfd ->
  fdt_ok (grown d nfd) /\ same_table d (grown d nfd) /\ forall j, in_use (grown d nfd) j = in_use d j.
Proof.
  intros T Hn Hf. pose proof (ft_nfiles d T) as H0. unfold grown. set (n := NDSLOTS nfd * NDENTRIES) in *. cbv zeta.
  pose proof (nslots_mono (fd_nfiles d) n ltac:(lia)) as Hs.
  set (m := if _ <? _ then _ else _).
  assert (forall off, zget m off = zget (fd_map d) off) as Hm.
  { intros off. unfold m. destruct (_ <? _); [|done]. apply aget_grow; [apply T | lia]. }
  assert (zlength m = NDSLOTS n) as Hlen.
  { unfold m. destruct (Z.ltb_spec (NDSLOTS (fd_nfiles d)) (NDSLOTS n));
      [apply length_grow; [apply T | lia] | rewrite (ft_map d T); lia]. }
  assert (forall j, used m j = in_use d j) as Hu by (intros j; unfold used, in_use, used; by rewrite Hm).
  split; [|split; [|exact Hu]].
  - constructor; cbn; try exact Hlen.
    + lia.
    + apply length_grow; [apply T | lia].
    + unfold m. destruct (_ <? _); [|apply T]. apply Forall_app. split; [apply Forall_take, T|].
      apply Forall_replicate. unfold word64. lia.
    + intros j. unfold in_use. cbn. rewrite Hu. intros Hj. apply (ft_range d T) in Hj. lia.
    + intros j. unfold fde, in_use. cbn. rewrite Hu, aget_grow by (apply T || lia). apply (ft_file d T).
    + unfold in_use. cbn. setoid_rewrite Hu. apply T.
    + unfold in_use. cbn. setoid_rewrite Hu. apply T.
  - constructor; cbn; [|done|done|lia]. intros j. unfold fde. cbn. apply aget_grow; [apply T | lia].
Qed.

Lemma fdgrowtable_spec d nfd :
  fdt_ok d -> 0 < nfd <= 2 ^ 30 ->
  exists d', fdgrowtable d nfd = Ok d' /\ fdt_ok d' /\ same_table d d' /\ nfd <= fd_nfiles d' /\
  fd_lastfile d' = fd_lastfile d /\ fd_freefile d' = fd_freefile d /\
  forall j, in_use d' j = in_use d j.
Proof.
  intros T Hn. pose proof (ft_nfiles d T) as H0. unfold fdgrowtable. ztest. cbn [require]. rewrite bind_Ok.
  assert (nfd <= NDSLOTS nfd * NDENTRIES <= 2 ^ 30) as Hr by (unfold NDSLOTS, NDENTRIES; dlia).
  cbv zeta. rewrite s32_id by lia. destruct (Z.leb_spec (NDSLOTS nfd * NDENTRIES) (fd_nfiles d)).
  - exists d. split_and!; try done; lia.
  - destruct (grown_ok d nfd T) as (G1 & G2 & G3); [lia | lia |].
    exists (grown d nfd). split_and!; try done. cbn. lia.
Qed.

Lemma fdgrowtable_exp_spec d nfd :
  fdt_ok d -> fd_nfiles d < 2 ^ 29 -> 0 < nfd <= 2 ^ 30 ->
  exists d', fdgrowtable_exp d nfd = Ok d' /\ fdt_ok d' /\ same_table d d' /\ nfd <= fd_nfiles d' /\
  fd_lastfile d' = fd_lastfile d /\ fd_freefile d' = fd_freefile d /\
  forall j, in_use d' j = in_use d j.
Proof.
  intros T H29 Hn. pose proof (ft_nfiles d T) as H0. unfold fdgrowtable_exp. rewrite s32_id by lia.
  destruct (Z.ltb_spec (fd_nfiles d * 2) nfd); [by apply fdgrowtable_spec|].
  destruct (fdgrowtable_spec d (fd_nfiles d * 2) T ltac:(lia)) as (d' & E & T' & S' & Hl & R).
  exists d'. split_and!; try done; [lia|apply R..].
Qed.

(** ** Allocation *)

(** [r] is the lowest descriptor from [low] on that is not in use. *)
Definition lowest_free (d : filedesc) (low r : Z) : Prop :=
  low <= r /\ in_use d r = false /\ forall j, low <= j < r -> in_use d j = true.

Lemma lowest_free_unique d low r r' : lowest_free d low r -> lowest_free d low r' -> r = r'.
Proof.
  intros (H1 & H2 & H3) (H4 & H5 & H6). destruct (Z.lt_trichotomy r r') as [H|[H|H]]; [|done|].
  - by rewrite H6 in H2 by lia.
  - by rewrite H3 in H5 by lia.
Qed.

Lemma imin_min a b : 0 <= a < 2 ^ 31 -> 0 <= b < 2 ^ 31 -> imin a b = Z.min a b.
Proof. intros Ha Hb. unfold imin, u32. rewrite !Z.mod_small by lia. apply s32_id. lia. Qed.

Definition maxfd_ok (maxfd : Z) : Prop := 0 <= maxfd <= 2 ^ 29.

(** What [fdalloc] does with the descriptor it found. *)
Lemma fdalloc_take d fd maxfd :
  fdt_ok d -> maxfd_ok maxfd -> 0 <= fd < maxfd -> in_use d fd = false ->
  exists d', (fdp ← (if fd_nfiles d <=? fd then fdgrowtable_exp d (imin (s32 (fd * 2)) maxfd) else Ok d);
    _ ← require ((0 <=? fd) && (fd <? imin maxfd (fd_nfiles fdp))) "invalid descriptor";
    u ← fdisused fdp fd;
    _ ← require (negb u) "fd_first_free() returned non-free descriptor";
    e ← ofile fdp fd;
    _ ← require (match fde_file e with None => true | Some _ => false end) "file descriptor isn't free";
    fdp ← fdused fdp fd;
    Ok (0, fd, fdp)) = Ok (0, fd, d') /\
  fdt_ok d' /\ same_table d d' /\ fd < fd_nfiles d' /\ forall j, in_use d' j = (fd =? j) || in_use d j.
Proof.
  intros T Hmax Hf Hu. unfold maxfd_ok in Hmax. pose proof (ft_nfiles d T) as H0.
  assert (exists d1, (if fd_nfiles d <=? fd then fdgrowtable_exp d (imin (s32 (fd * 2)) maxfd) else Ok d) = Ok d1 /\
    fdt_ok d1 /\ same_table d d1 /\ fd < fd_nfiles d1 /\ forall j, in_use d1 j = in_use d j) as (d1 & -> & T1 & S1 & Hn & Hu1).
  { destruct (Z.leb_spec (fd_nfiles d) fd); [|by exists d].
    rewrite s32_id, imin_min by lia.
    destruct (fdgrowtable_exp_spec d (Z.min (fd * 2) maxfd) T) as (d1 & E & T1 & S1 & Hn & _ & _ & Hu1); [lia | lia |].
    exists d1. split_and!; try done. lia. }
  rewrite bind_Ok. pose proof (ft_nfiles d1 T1). rewrite imin_min by lia.
  rewrite require_true, bind_Ok by (by ztest).
  rewrite fdisused_ok, bind_Ok, Hu1, Hu, ofile_ok by (done || lia). cbn [negb require]. rewrite !bind_Ok.
  destruct (fde_file (fde d1 fd)) eqn:E.
  { assert (in_use d1 fd = true) as Hc by (by apply (ft_file d1 T1); rewrite E). by rewrite Hu1, Hu in Hc. }
  cbn [require]. rewrite bind_Ok.
  destruct (fdused_spec d1 fd T1) as (d' & -> & T' & S' & Hn' & Hu'); [lia | by rewrite Hu1 |].
  rewrite bind_Ok. exists d'. split_and!; [done | done | by etrans | lia |].
  intros j. by rewrite Hu', Hu1.
Qed.

Lemma fdalloc_spec d maxfd minfd :
  fdt_ok d -> maxfd_ok maxfd -> 0 <= minfd ->
  exists fd, lowest_free d minfd fd /\
  (maxfd <= fd -> fdalloc maxfd d minfd = Ok (EMFILE, 0, d)) /\
  (fd < maxfd -> exists d', fdalloc maxfd d minfd = Ok (0, fd, d') /\
    fdt_ok d' /\ same_table d d' /\ fd < fd_nfiles d' /\ forall j, in_use d' j = (fd =? j) || in_use d j).
Proof.
  intros T Hmax Hmin. destruct (ft_free d T) as (F1 & F2 & F3). unfold fdalloc. cbv zeta.
  set (low := if minfd <? fd_freefile d then fd_freefile d else minfd).
  assert (minfd <= low /\ forall j, minfd <= j < low -> in_use d j = true) as [Hl1 Hl2].
  { unfold low. destruct (Z.ltb_spec minfd (fd_freefile d)); (split; [lia|]); intros j Hj; [apply F3|]; lia. }
  destruct (first_free_ok d low T ltac:(lia)) as (fd & -> & Hfd & Hu & Hall). rewrite bind_Ok.
  exists fd. split_and!.
  - split; [lia|]. split; [done|].
    intros j Hj. destruct (Z.lt_ge_cases j low); [apply Hl2 | apply Hall]; lia.
  - intros Hge. by ztest.
  - intros Hlt. rewrite (proj2 (Z.leb_gt maxfd fd)) by done. apply fdalloc_take; [done | done | lia | done].
Qed.

(** ** Entries *)

(** An entry rewritten; it has a file only where the map has a mark. *)
Lemma put_ofile_spec d fd e :
  fdt_ok d -> 0 <= fd < fd_nfiles d -> (fde_file e <> None -> in_use d fd = true) ->
  exists d', put_ofile d fd e = Ok d' /\ fdt_ok d' /\ fd_nfiles d' = fd_nfiles d /\
  fd_cmask d' = fd_cmask d /\ fd_refcnt d' = fd_refcnt d /\
  (forall j, in_use d' j = in_use d j) /\ fd_lastfile d' = fd_lastfile d /\
  forall j, fde d' j = if fd =? j then e else fde d j.
Proof.
  intros T Hf He. unfold put_ofile. rewrite ofile_ok, bind_Ok by done. eexists. split; [reflexivity|].
  assert (forall j, fde (set_ofiles (aset (fd_ofiles d) fd e) d) j = if fd =? j then e else fde d j) as Hj.
  { intros j. unfold fde. cbn. destruct (Z.lt_ge_cases j 0).
    - destruct (Z.eqb_spec fd j); [lia|]. unfold aget. by ztest.
    - apply aget_aset; [rewrite (ft_ofiles d T); lia | done]. }
  split_and!; try done. constructor; try apply T.
  - cbn. rewrite zlength_aset. apply T.
  - intros j. rewrite Hj. destruct (Z.eqb_spec fd j) as [->|]; [exact He | apply (ft_file d T)].
Qed.

Lemma fget_locked_ok d fd :
  fdt_ok d -> fget_locked d fd = Ok (fde_file (fde d fd)).
Proof.
  intros T. unfold fget_locked. pose proof (last_lt d T) as Hl. destruct (ft_last d T) as (_ & _ & L).
  destruct (Z.ltb_spec fd 0); cbn [orb].
  { by rewrite fde_neg. }
  destruct (Z.ltb_spec (fd_lastfile d) fd).
  - destruct (fde_file (fde d fd)) eqn:E; [|done].
    assert (in_use d fd = true) as Hu by (by apply (ft_file d T); rewrite E). by rewrite L in Hu.
  - by rewrite ofile_ok, bind_Ok by (done || lia).
Qed.

Lemma file_in_use d fd fp : fdt_ok d -> fde_file (fde d fd) = Some fp -> in_use d fd = true.
Proof. intros T H. apply (ft_file d T). by rewrite H. Qed.

Lemma fdfree_spec d fd :
  fdt_ok d -> in_use d fd = true ->
  exists d', fdfree d fd = Ok d' /\ fdt_ok d' /\ fd_nfiles d' = fd_nfiles d /\
  fd_cmask d' = fd_cmask d /\ fd_refcnt d' = fd_refcnt d /\
  (forall j, in_use d' j = negb (fd =? j) && in_use d j) /\
  forall j, fde d' j = if fd =? j then MkFde None zero_caps (fde_flags (fde d fd)) else fde d j.
Proof.
  intros T Hu. pose proof (ft_range d T fd Hu) as Hf. unfold fdfree. rewrite ofile_ok, bind_Ok by done. cbv zeta.
  destruct (put_ofile_spec d fd (MkFde None zero_caps (fde_flags (fde d fd))) T Hf) as
    (d1 & E & T1 & N1 & C1 & R1 & U1 & _ & F1); [done|].
  change (fde_caps (fdefree_last (fde d fd))) with zero_caps.
  change (fde_flags (fdefree_last (fde d fd))) with (fde_flags (fde d fd)). rewrite E, bind_Ok.
  destruct (fdunused_spec d1 fd T1) as (d' & -> & T' & [SF SC SR SN] & N' & U').
  - by rewrite U1.
  - by rewrite F1, Z.eqb_refl.
  - exists d'. split_and!; [done|done|congruence|congruence|congruence| |].
    + intros j. by rewrite U', U1.
    + intros j. by rewrite SF, F1.
Qed.
