(* ===== verification/FdCalls.v ===== *)
(** The calls on descriptors of src/sys/kern/kern_descrip.c and
    sys_capability.c: open files with their reference counts, the descriptor
    tables of processes, which may share them, and the calls that move
    references between the two.

    A file or a table is named by its address; the address of a new one, which
    the allocator picks, is an argument. Knotes, message-queue notices,
    advisory locks, directories and sleeping are left out. *)

From stdpp Require Import gmap.
From S2P Require Import Prelude Priv Cred Caps Fd.

Definition EBADF : Z := 9.
Definition ENFILE : Z := 23.
Definition UINT_MAX : Z := 2 ^ 32 - 1.
Definition DTYPE_SOCKET : Z := 2.
Definition DTYPE_MQUEUE : Z := 7.
Definition DFLAG_PASSABLE : Z := 0x01.
Definition UF_EXCLOSE : Z := 0x01.
Definition FD_CLOEXEC : Z := 1.
Definition O_CLOEXEC : Z := 0x100000.
Definition FDDUP_FLAG_CLOEXEC : Z := 0x1.
Definition CMASK : Z := 0x12.
Definition FREAD : Z := 0x1.
Definition FWRITE : Z := 0x2.
Definition FNONBLOCK : Z := 0x4.
Definition SOCK_DGRAM : Z := 2.
Definition SOCK_CLOEXEC : Z := 0x10000000.
Definition SOCK_NONBLOCK : Z := 0x20000000.
Definition RFFDG : Z := 2 ^ 2.
Definition RFCFDG : Z := 2 ^ 12.

Inductive dup_mode : Type := FDDUP_NORMAL | FDDUP_FCNTL | FDDUP_FIXED | FDDUP_MUSTREPLACE.
#[export] Instance dup_mode_eq_dec : EqDecision dup_mode.
Proof. solve_decision. Defined.

(** [fo_flags] is that of [f_ops]. *)
Record file := MkFile {
  f_count : Z;
  f_type : Z;
  f_flag : Z;
  fo_flags : Z
}.

Definition set_count (v : Z) (f : file) : file := MkFile v (f_type f) (f_flag f) (fo_flags f).

(** The open files and their number. *)
Record ftab := MkFtab {
  ft_files : gmap Z file;
  openfiles : Z
}.

Definition get_file (ft : ftab) (fp : Z) : result file :=
  match ft_files ft !! fp with Some f => Ok f | None => Panic "use after free" end.
Definition set_file (fp : Z) (f : file) (ft : ftab) : ftab :=
  MkFtab (<[fp := f]> (ft_files ft)) (openfiles ft).

Definition flag_set (x flag : Z) : bool := negb (Z.land x flag =? 0).

(** [(int)lim_cur(td, RLIMIT_NOFILE)] and the system's limit. *)
Definition getmaxfd (lim_cur maxfilesperproc : Z) : Z := imin (s32 lim_cur) maxfilesperproc.

Section calls.
(** The errors of the files' [fo_close]. *)
Context (fo_close : Z -> Z).

(** ** References *)

Definition fhold (fp : Z) (ft : ftab) : result ftab :=
  f ← get_file ft fp;
  _ ← require (f_count f <? UINT_MAX) "refcount overflowed";
  Ok (set_file fp (set_count (f_count f + 1) f) ft).

Definition _fdrop (fp : Z) (ft : ftab) : result (Z * ftab) :=
  f ← get_file ft fp;
  _ ← require (f_count f =? 0) "fdrop: count";
  Ok (fo_close fp, MkFtab (delete fp (ft_files ft)) (openfiles ft - 1)).

Definition fdrop (fp : Z) (ft : ftab) : result (Z * ftab) :=
  f ← get_file ft fp;
  _ ← require (0 <? f_count f) "negative refcount";
  let ft := set_file fp (set_count (f_count f - 1) f) ft in
  if f_count f =? 1 then _fdrop fp ft else Ok (0, ft).

Definition closef (fp : Z) (ft : ftab) : result (Z * ftab) := fdrop fp ft.
Definition closefp (fp : Z) (ft : ftab) : result (Z * ftab) := closef fp ft.

(** ** New files *)

(** [privileged] is whether the thread has [PRIV_MAXFILES]. *)
Definition falloc_noinstall (maxfiles : Z) (privileged : bool) (fp : Z) (ft : ftab) : Z * ftab :=
  let maxuserfiles := maxfiles - Z.quot maxfiles 20 in
  if ((maxuserfiles <=? openfiles ft) && negb privileged) || (maxfiles <=? openfiles ft) then (ENFILE, ft)
  else (0, MkFtab (<[fp := MkFile 1 0 0 0]> (ft_files ft)) (openfiles ft + 1)).

Definition finit (fp flag type ops : Z) (ft : ftab) : result ftab :=
  f ← get_file ft fp; Ok (set_file fp (MkFile (f_count f) type flag ops) ft).

Definition _finstall (fdp : filedesc) (fp fd flags : Z) (fcaps : option filecaps) : result filedesc :=
  _ ← (match fcaps with Some c => filecaps_validate c | None => Ok tt end);
  _ ← ofile fdp fd;
  put_ofile fdp fd (MkFde (Some fp) (default filecaps_fill fcaps)
    (if flag_set flags O_CLOEXEC then UF_EXCLOSE else 0)).

(** The errno, or the descriptor. *)
Definition finstall (maxfd fp flags : Z) (fcaps : option filecaps) (s : ftab * filedesc)
    : result ((Z + Z) * (ftab * filedesc)) :=
  let '(ft, fdp) := s in
  '(error, fd, fdp) ← fdalloc maxfd fdp 0;
  if negb (error =? 0) then Ok (inl error, (ft, fdp))
  else
    ft ← fhold fp ft;
    fdp ← _finstall fdp fp fd flags fcaps;
    Ok (inr fd, (ft, fdp)).

(** With [want], the caller gets the file and its reference. *)
Definition falloc_caps (maxfiles : Z) (privileged : bool) (maxfd fp flags : Z) (fcaps : option filecaps)
    (want : bool) (s : ftab * filedesc) : result ((Z + Z) * (ftab * filedesc)) :=
  let '(ft, fdp) := s in
  let '(error, ft) := falloc_noinstall maxfiles privileged fp ft in
  if negb (error =? 0) then Ok (inl error, (ft, fdp))
  else
    '(r, (ft, fdp)) ← finstall maxfd fp flags fcaps (ft, fdp);
    match r with
    | inl error => '(_, ft) ← fdrop fp ft; Ok (inl error, (ft, fdp))
    | inr fd => if want then Ok (inr fd, (ft, fdp)) else '(_, ft) ← fdrop fp ft; Ok (inr fd, (ft, fdp))
    end.

(** ** Duplicating *)

(** The descriptor that is to be the copy: the errno, or its number. *)
Definition dup_target (maxfd : Z) (mode : dup_mode) (fdp : filedesc) (new : Z) : result ((Z + Z) * filedesc) :=
  match mode with
  | FDDUP_NORMAL | FDDUP_FCNTL =>
      '(error, fd, fdp) ← fdalloc maxfd fdp new;
      if negb (error =? 0) then Ok (inl error, fdp) else Ok (inr fd, fdp)
  | FDDUP_MUSTREPLACE =>
      r ← fget_locked fdp new;
      match r with None => Ok (inl EBADF, fdp) | Some _ => Ok (inr new, fdp) end
  | FDDUP_FIXED =>
      fdp ← (if fd_nfiles fdp <=? new then fdgrowtable_exp fdp (new + 1) else Ok fdp);
      u ← fdisused fdp new;
      fdp ← (if negb u then fdused fdp new else Ok fdp);
      Ok (inr new, fdp)
  end.

(** The errno, or the [td_retval]. *)
Definition kern_dup (maxfd : Z) (mode : dup_mode) (flags old new : Z) (s : ftab * filedesc)
    : result ((Z + Z) * (ftab * filedesc)) :=
  let '(ft, fdp) := s in
  _ ← require (Z.land flags (Z.lnot FDDUP_FLAG_CLOEXEC) =? 0) "kern_dup: flags";
  let bounds := if decide (mode = FDDUP_FCNTL) then EINVAL else EBADF in
  if old <? 0 then Ok (inl EBADF, s)
  else if new <? 0 then Ok (inl bounds, s)
  else if maxfd <=? new then Ok (inl bounds, s)
  else
    r ← fget_locked fdp old;
    match r with
    | None => Ok (inl EBADF, s)
    | Some _ =>
        if bool_decide (mode = FDDUP_FIXED \/ mode = FDDUP_MUSTREPLACE) && (old =? new) then
          if flag_set flags FDDUP_FLAG_CLOEXEC then
            e ← ofile fdp new;
            fdp ← put_ofile fdp new (MkFde (fde_file e) (fde_caps e) (Z.lor (fde_flags e) UF_EXCLOSE));
            Ok (inr new, (ft, fdp))
          else Ok (inr new, s)
        else
          '(r, fdp) ← dup_target maxfd mode fdp new;
          match r with
          | inl error => Ok (inl error, (ft, fdp))
          | inr new =>
              _ ← require (negb (old =? new)) "new fd is same as old";
              oldfde ← ofile fdp old;
              match fde_file oldfde with
              | None => Panic "null pointer"
              | Some fp =>
                  ft ← fhold fp ft;
                  newfde ← ofile fdp new;
                  '(_, caps) ← filecaps_copy (fde_caps oldfde) true;
                  fdp ← put_ofile fdp new (MkFde (Some fp) caps
                          (if flag_set flags FDDUP_FLAG_CLOEXEC then Z.lor (fde_flags oldfde) UF_EXCLOSE
                           else Z.land (fde_flags oldfde) (Z.lnot UF_EXCLOSE)));
                  match fde_file newfde with
                  | None => Ok (inr new, (ft, fdp))
                  | Some delfp => '(_, ft) ← closefp delfp ft; Ok (inr new, (ft, fdp))
                  end
              end
          end
    end.

Definition sys_dup (maxfd fd : Z) (s : ftab * filedesc) := kern_dup maxfd FDDUP_NORMAL 0 (s32 fd) 0 s.
Definition sys_dup2 (maxfd from to : Z) (s : ftab * filedesc) :=
  kern_dup maxfd FDDUP_FIXED 0 (s32 from) (s32 to) s.

(** ** Closing *)

Definition kern_close (fd : Z) (s : ftab * filedesc) : result (Z * (ftab * filedesc)) :=
  let '(ft, fdp) := s in
  r ← fget_locked fdp fd;
  match r with
  | None => Ok (EBADF, s)
  | Some fp =>
      fdp ← fdfree fdp fd;
      '(error, ft) ← closefp fp ft;
      Ok (error, (ft, fdp))
  end.

Fixpoint closefrom_loop (fuel : nat) (fd : Z) (s : ftab * filedesc) : result (ftab * filedesc) :=
  match fuel with
  | O => Panic "fuel"
  | S fuel' =>
      if fd <=? fd_lastfile s.2 then
        e ← ofile s.2 fd;
        s ← (match fde_file e with None => Ok s | Some _ => '(_, s) ← kern_close fd s; Ok s end);
        closefrom_loop fuel' (fd + 1) s
      else Ok s
  end.

Definition sys_closefrom (lowfd : Z) (s : ftab * filedesc) : result (ftab * filedesc) :=
  let lowfd := if lowfd <? 0 then 0 else lowfd in
  closefrom_loop (S (Z.to_nat (fd_lastfile s.2 + 1))) lowfd s.

(** [i <= fdp->fd_lastfile]: the descriptors that do not outlive an exec. *)
Fixpoint closeexec_loop (fuel : nat) (i : Z) (s : ftab * filedesc) : result (ftab * filedesc) :=
  match fuel with
  | O => Panic "fuel"
  | S fuel' =>
      let '(ft, fdp) := s in
      if i <=? fd_lastfile fdp then
        e ← ofile fdp i;
        s ← (match fde_file e with
             | None => Ok s
             | Some fp =>
                 f ← get_file ft fp;
                 if (f_type f =? DTYPE_MQUEUE) || flag_set (fde_flags e) UF_EXCLOSE then
                   fdp ← fdfree fdp i;
                   '(_, ft) ← closefp fp ft;
                   Ok (ft, fdp)
                 else Ok s
             end);
        closeexec_loop fuel' (i + 1) s
      else Ok s
  end.

Definition fdcloseexec (s : ftab * filedesc) : result (ftab * filedesc) :=
  _ ← require (fd_refcnt s.2 =? 1) "the fdtable should not be shared";
  closeexec_loop (S (Z.to_nat (fd_lastfile s.2 + 1))) 0 s.

Definition fdclose (fp idx : Z) (s : ftab * filedesc) : result (ftab * filedesc) :=
  let '(ft, fdp) := s in
  e ← ofile fdp idx;
  if decide (fde_file e = Some fp) then
    fdp ← fdfree fdp idx; '(_, ft) ← fdrop fp ft; Ok (ft, fdp)
  else Ok s.

(** ** Sockets *)

Definition socket_oflag (type : Z) : Z := if flag_set type SOCK_CLOEXEC then O_CLOEXEC else 0.
Definition socket_fflag (type : Z) : Z :=
  Z.lor (Z.lor FREAD FWRITE) (if flag_set type SOCK_NONBLOCK then FNONBLOCK else 0).
Definition socket_type (type : Z) : Z :=
  Z.land (Z.land type (Z.lnot SOCK_CLOEXEC)) (Z.lnot SOCK_NONBLOCK).

(** [socreate] is the errno of the call of that name. *)
Definition sys_socket (maxfiles : Z) (privileged : bool) (maxfd fp type socreate : Z) (s : ftab * filedesc)
    : result ((Z + Z) * (ftab * filedesc)) :=
  '(r, s) ← falloc_caps maxfiles privileged maxfd fp (socket_oflag type) None true s;
  match r with
  | inl error => Ok (inl error, s)
  | inr fd =>
      if negb (socreate =? 0) then
        s ← fdclose fp fd s;
        '(_, ft) ← fdrop fp s.1;
        Ok (inl socreate, (ft, s.2))
      else
        ft ← finit fp (socket_fflag type) DTYPE_SOCKET DFLAG_PASSABLE s.1;
        '(_, ft) ← fdrop fp ft;
        Ok (inr fd, (ft, s.2))
  end.

(** The errnos of the two calls of [socreate], and of those of
    [soconnect2]; the result is [rsv]. *)
Definition kern_socketpair (maxfiles : Z) (privileged : bool) (maxfd fp1 fp2 type : Z)
    (socreate1 socreate2 soconnect1 soconnect2 : Z) (s : ftab * filedesc)
    : result ((Z + Z * Z) * (ftab * filedesc)) :=
  let free3 error fd1 (s : ftab * filedesc) :=
    s ← fdclose fp1 fd1 s;
    '(_, ft) ← fdrop fp1 s.1;
    Ok (inl error, (ft, s.2)) in
  let free4 error fd1 fd2 (s : ftab * filedesc) :=
    s ← fdclose fp2 fd2 s;
    '(_, ft) ← fdrop fp2 s.1;
    free3 error fd1 (ft, s.2) in
  let oflag := socket_oflag type in
  if negb (socreate1 =? 0) then Ok (inl socreate1, s)
  else if negb (socreate2 =? 0) then Ok (inl socreate2, s)
  else
    '(r, s) ← falloc_caps maxfiles privileged maxfd fp1 oflag None true s;
    match r with
    | inl error => Ok (inl error, s)
    | inr fd1 =>
        '(r, s) ← falloc_caps maxfiles privileged maxfd fp2 oflag None true s;
        match r with
        | inl error => free3 error fd1 s
        | inr fd2 =>
            if negb (soconnect1 =? 0) then free4 soconnect1 fd1 fd2 s
            else if (socket_type type =? SOCK_DGRAM) && negb (soconnect2 =? 0) then free4 soconnect2 fd1 fd2 s
            else
              ft ← finit fp1 (socket_fflag type) DTYPE_SOCKET DFLAG_PASSABLE s.1;
              ft ← finit fp2 (socket_fflag type) DTYPE_SOCKET DFLAG_PASSABLE ft;
              '(_, ft) ← fdrop fp1 ft;
              '(_, ft) ← fdrop fp2 ft;
              Ok (inr (fd1, fd2), (ft, s.2))
        end
    end.

(** [copyout] is the errno of the copy of the two descriptors. *)
Definition sys_socketpair (maxfiles : Z) (privileged : bool) (maxfd fp1 fp2 type : Z)
    (socreate1 socreate2 soconnect1 soconnect2 copyout : Z) (s : ftab * filedesc)
    : result ((Z + Z * Z) * (ftab * filedesc)) :=
  '(r, s) ← kern_socketpair maxfiles privileged maxfd fp1 fp2 type socreate1 socreate2 soconnect1 soconnect2 s;
  match r with
  | inl error => Ok (inl error, s)
  | inr (fd1, fd2) =>
      if negb (copyout =? 0) then
        '(_, s) ← kern_close fd1 s;
        '(_, s) ← kern_close fd2 s;
        Ok (inl copyout, s)
      else Ok (inr (fd1, fd2), s)
  end.
End calls.
