(* ===== verification/FdProc.v ===== *)
(** The descriptor tables of all processes: copying, sharing and releasing
    tables (src/sys/kern/kern_descrip.c), what fork, exec and exit do with
    them (kern_fork.c, kern_exec.c, kern_exit.c), the descriptor commands of
    fcntl, and the limits of capabilities (sys_capability.c). *)

From stdpp Require Import gmap.
From S2P Require Import Prelude Priv Cred Caps Fd FdCalls.

Definition F_DUPFD : Z := 0.
Definition F_GETFD : Z := 1.
Definition F_SETFD : Z := 2.
Definition F_DUP2FD : Z := 10.
Definition F_DUPFD_CLOEXEC : Z := 17.
Definition F_DUP2FD_CLOEXEC : Z := 18.

(** ** Commands on one descriptor *)

(** [kern_fcntl] for these commands: the errno or [td_retval]; [None] for a
    command that is not one of them. *)
Definition kern_fcntl (maxfd fd cmd arg : Z) (s : ftab * filedesc)
    (fo_close : Z -> Z) : option (result ((Z + Z) * (ftab * filedesc))) :=
  let '(ft, fdp) := s in
  if cmd =? F_DUPFD then Some (kern_dup fo_close maxfd FDDUP_FCNTL 0 fd (s32 arg) s)
  else if cmd =? F_DUPFD_CLOEXEC then
    Some (kern_dup fo_close maxfd FDDUP_FCNTL FDDUP_FLAG_CLOEXEC fd (s32 arg) s)
  else if cmd =? F_DUP2FD then Some (kern_dup fo_close maxfd FDDUP_FIXED 0 fd (s32 arg) s)
  else if cmd =? F_DUP2FD_CLOEXEC then
    Some (kern_dup fo_close maxfd FDDUP_FIXED FDDUP_FLAG_CLOEXEC fd (s32 arg) s)
  else if cmd =? F_GETFD then
    Some (r ← fget_locked fdp fd;
          match r with
          | None => Ok (inl EBADF, s)
          | Some _ =>
              e ← ofile fdp fd;
              Ok (inr (if flag_set (fde_flags e) UF_EXCLOSE then FD_CLOEXEC else 0), s)
          end)
  else if cmd =? F_SETFD then
    Some (r ← fget_locked fdp fd;
          match r with
          | None => Ok (inl EBADF, s)
          | Some _ =>
              e ← ofile fdp fd;
              fdp ← put_ofile fdp fd (MkFde (fde_file e) (fde_caps e)
                      (Z.lor (Z.land (fde_flags e) (Z.lnot UF_EXCLOSE))
                         (if flag_set arg FD_CLOEXEC then UF_EXCLOSE else 0)));
              Ok (inr 0, (ft, fdp))
          end)
  else None.

(** A change of the capability of a descriptor: the errno and the table. *)
Definition limit_fde (f : filecaps -> result (Z * filecaps)) (fd : Z) (fdp : filedesc)
    : result (Z * filedesc) :=
  r ← fget_locked fdp fd;
  match r with
  | None => Ok (EBADF, fdp)
  | Some _ =>
      e ← ofile fdp fd;
      '(error, caps) ← f (fde_caps e);
      fdp ← put_ofile fdp fd (MkFde (fde_file e) caps (fde_flags e));
      Ok (error, fdp)
  end.

Definition kern_cap_rights_limit (fd : Z) (rights : cap_rights_t) (fdp : filedesc) : result (Z * filedesc) :=
  limit_fde (limit_rights rights) fd fdp.
Definition kern_cap_ioctls_limit (fd : Z) (cmds : option (list Z)) (ncmds : Z) (fdp : filedesc)
    : result (Z * filedesc) :=
  limit_fde (limit_ioctls cmds ncmds) fd fdp.

(** The argument is the words copied in. *)
Definition sys_cap_rights_limit (fd : Z) (rights : cap_rights_t) (fdp : filedesc) : result (Z * filedesc) :=
  if negb (CAPVER rights =? CAP_RIGHTS_VERSION_00) then Ok (EINVAL, fdp)
  else
    v ← cap_rights_is_valid rights;
    if negb v then Ok (EINVAL, fdp) else kern_cap_rights_limit fd rights fdp.

(** The list copied in; with no command it is null. *)
Definition sys_cap_ioctls_limit (fd : Z) (cmds : list Z) (fdp : filedesc) : result (Z * filedesc) :=
  let ncmds := zlength cmds in
  if 256 <? ncmds then Ok (EINVAL, fdp)
  else kern_cap_ioctls_limit fd (if ncmds =? 0 then None else Some cmds) ncmds fdp.

Definition sys_cap_fcntls_limit (fd fcntlrights : Z) (fdp : filedesc) : result (Z * filedesc) :=
  let fcntlrights := u32 fcntlrights in
  if negb (Z.land fcntlrights (Z.lnot CAP_FCNTL_ALL) =? 0) then Ok (EINVAL, fdp)
  else limit_fde (fun c => Ok (limit_fcntls fcntlrights c)) fd fdp.

(** A file for use, with a reference, if the descriptor has the rights: the
    errno, or the file. *)
Definition fget_unlocked (fd : Z) (needrights : cap_rights_t) (s : ftab * filedesc)
    : result ((Z + Z) * ftab) :=
  let '(ft, fdp) := s in
  if fd_nfiles fdp <=? u32 fd then Ok (inl EBADF, ft)
  else
    e ← ofile fdp (u32 fd);
    match fde_file e with
    | None => Ok (inl EBADF, ft)
    | Some fp =>
        error ← cap_check (fc_rights (fde_caps e)) needrights;
        if negb (error =? 0) then Ok (inl error, ft)
        else
          f ← get_file ft fp;
          _ ← require (negb (f_count f =? 0)) "fget_unlocked: stale file";
          Ok (inr fp, set_file fp (set_count (f_count f + 1) f) ft)
    end.

(** ** Tables *)

Definition empty_table : filedesc :=
  MkFdesc NDFILE (replicate (Z.to_nat NDFILE) zero_fde) (replicate (Z.to_nat (NDSLOTS NDFILE)) 0)
    (-1) 0 CMASK 1.

Definition fdinit (fdp : option filedesc) (prepfiles : bool) : result filedesc :=
  match fdp with
  | None => Ok empty_table
  | Some fdp =>
      if prepfiles && (fd_nfiles empty_table <=? fd_lastfile fdp)
      then fdgrowtable empty_table (fd_lastfile fdp + 1) else Ok empty_table
  end.

Definition passable (ft : ftab) (fp : Z) : result bool :=
  f ← get_file ft fp; Ok (flag_set (fo_flags f) DFLAG_PASSABLE).

Fixpoint copy_loop (fuel : nat) (i : Z) (fdp : filedesc) (s : ftab * filedesc) : result (ftab * filedesc) :=
  match fuel with
  | O => Ok s
  | S fuel' =>
      let '(ft, newfdp) := s in
      let skip := Ok (ft, if fd_freefile newfdp =? -1 then set_freefile i newfdp else newfdp) in
      ofde ← ofile fdp i;
      s ← (match fde_file ofde with
           | None => skip
           | Some fp =>
               p ← passable ft fp;
               if negb p then skip
               else
                 '(_, caps) ← filecaps_copy (fde_caps ofde) true;
                 newfdp ← put_ofile newfdp i (MkFde (Some fp) caps (fde_flags ofde));
                 ft ← fhold fp ft;
                 newfdp ← fdused_init newfdp i;
                 Ok (ft, set_lastfile i newfdp)
           end);
      copy_loop fuel' (i + 1) fdp s
  end.

Definition fdcopy (ft : ftab) (fdp : filedesc) : result (ftab * filedesc) :=
  newfdp ← fdinit (Some fdp) true;
  let newfdp := set_freefile (-1) newfdp in
  '(ft, newfdp) ← copy_loop (Z.to_nat (fd_lastfile fdp + 1)) 0 fdp (ft, newfdp);
  let newfdp := if fd_freefile newfdp =? -1 then set_freefile (fd_lastfile fdp + 1) newfdp else newfdp in
  Ok (ft, set_cmask (fd_cmask fdp) newfdp).

Definition fdshare (fdp : filedesc) : result filedesc :=
  _ ← require (fd_refcnt fdp <? UINT_MAX) "refcount overflowed";
  Ok (set_refcnt (fd_refcnt fdp + 1) fdp).

Section processes.
Context (fo_close : Z -> Z).

(** The references of a table that is released. *)
Fixpoint release_loop (fuel : nat) (i : Z) (fdp : filedesc) (ft : ftab) : result ftab :=
  match fuel with
  | O => Ok ft
  | S fuel' =>
      e ← ofile fdp i;
      ft ← (match fde_file e with None => Ok ft | Some fp => '(_, ft) ← fdrop fo_close fp ft; Ok ft end);
      release_loop fuel' (i + 1) fdp ft
  end.

Definition fdescfree_fds (fdp : filedesc) (ft : ftab) : result ftab :=
  release_loop (Z.to_nat (fd_lastfile fdp + 1)) 0 fdp ft.

(** The files, the tables, and the table [p_fd] of each process that has one. *)
Record world := MkWorld {
  w_ft : ftab;
  w_fdesc : gmap Z filedesc;
  w_p_fd : gmap Z Z
}.

Definition get_p_fd (w : world) (p : Z) : result (Z * filedesc) :=
  match w_p_fd w !! p with
  | None => Panic "null pointer"
  | Some t => match w_fdesc w !! t with Some d => Ok (t, d) | None => Panic "use after free" end
  end.

(** A call of process [p] on its table. *)
Definition on_table {A} (p : Z) (f : ftab * filedesc -> result (A * (ftab * filedesc))) (w : world)
    : result (A * world) :=
  '(t, d) ← get_p_fd w p;
  '(r, (ft, d)) ← f (w_ft w, d);
  Ok (r, MkWorld ft (<[t := d]> (w_fdesc w)) (w_p_fd w)).

Definition fdescfree (p : Z) (w : world) : result world :=
  '(t, d) ← get_p_fd w p;
  let procs := delete p (w_p_fd w) in
  _ ← require (0 <? fd_refcnt d) "negative refcount";
  if negb (fd_refcnt d =? 1) then
    Ok (MkWorld (w_ft w) (<[t := set_refcnt (fd_refcnt d - 1) d]> (w_fdesc w)) procs)
  else
    ft ← fdescfree_fds d (w_ft w);
    Ok (MkWorld ft (delete t (w_fdesc w)) procs).

(** [new] is the address of the table that is made. *)
Definition fdunshare (p new : Z) (w : world) : result world :=
  '(t, d) ← get_p_fd w p;
  if fd_refcnt d =? 1 then Ok w
  else
    '(ft, tmp) ← fdcopy (w_ft w) d;
    w ← fdescfree p (MkWorld ft (<[new := tmp]> (w_fdesc w)) (w_p_fd w));
    Ok (MkWorld (w_ft w) (w_fdesc w) (<[p := new]> (w_p_fd w))).

(** The table of the child of [fork1]. *)
Definition fork_fd (flags p child new : Z) (w : world) : result world :=
  '(t, d) ← get_p_fd w p;
  if flag_set flags RFCFDG then
    fd ← fdinit (Some d) false;
    Ok (MkWorld (w_ft w) (<[new := fd]> (w_fdesc w)) (<[child := new]> (w_p_fd w)))
  else if flag_set flags RFFDG then
    '(ft, fd) ← fdcopy (w_ft w) d;
    Ok (MkWorld ft (<[new := fd]> (w_fdesc w)) (<[child := new]> (w_p_fd w)))
  else
    d ← fdshare d;
    Ok (MkWorld (w_ft w) (<[t := d]> (w_fdesc w)) (<[child := t]> (w_p_fd w))).

(** rfork without a child. *)
Definition rfork_self (flags p new new' : Z) (w : world) : result world :=
  w ← (if flag_set flags RFCFDG then
         '(_, d) ← get_p_fd w p;
         fdtmp ← fdinit (Some d) false;
         w ← fdescfree p (MkWorld (w_ft w) (<[new := fdtmp]> (w_fdesc w)) (w_p_fd w));
         Ok (MkWorld (w_ft w) (w_fdesc w) (<[p := new]> (w_p_fd w)))
       else Ok w);
  if flag_set flags RFFDG then fdunshare p new' w else Ok w.

Definition exec_fd (p new : Z) (w : world) : result world :=
  w ← fdunshare p new w;
  '(_, w) ← on_table p (fun s => s ← fdcloseexec fo_close s; Ok (tt, s)) w;
  Ok w.

Definition exit_fd (p : Z) (w : world) : result world := fdescfree p w.
End processes.
