(* ===== verification/FdFiles.v ===== *)
(** References to open files: how often a table refers to a file, and the
    count of a file as the number of the references to it. *)

From stdpp Require Import gmap.
From S2P Require Import Prelude Priv Cred Caps CapsInv Fd FdCalls.
From S2P Require Import FdBits.
From S2P Require Import FdTable.

(** ** Sums over a map *)

Definition msum {A} (f : A -> Z) (m : gmap Z A) : Z := map_fold (fun _ x acc => f x + acc) 0 m.

Section msum.
Context {A : Type} (f : A -> Z).

Lemma msum_empty : msum f ∅ = 0.
Proof. apply map_fold_empty. Qed.

Lemma msum_insert m i x : m !! i = None -> msum f (<[i := x]> m) = f x + msum f m.
Proof. intros H. unfold msum. rewrite map_fold_insert_L; [done | intros; lia | done]. Qed.

Lemma msum_delete m i x : m !! i = Some x -> msum f (delete i m) = msum f m - f x.
Proof.
  intros H. pose proof (msum_insert (delete i m) i x (lookup_delete_eq m i)) as E.
  rewrite insert_delete_id in E by done. lia.
Qed.

Lemma msum_update m i x y : m !! i = Some x -> msum f (<[i := y]> m) = msum f m - f x + f y.
Proof.
  intros H. rewrite <- insert_delete_eq, msum_insert, (msum_delete m i x) by (done || apply lookup_delete_eq). lia.
Qed.

Lemma msum_nonneg m : (forall i x, m !! i = Some x -> 0 <= f x) -> 0 <= msum f m.
Proof.
  induction m as [|i x m Hi IH] using map_ind; intros H; [by rewrite msum_empty|].
  rewrite msum_insert by done. pose proof (H i x ltac:(apply lookup_insert_eq)).
  assert (0 <= msum f m); [|lia]. apply IH. intros j y Hj. apply (H j).
  rewrite lookup_insert_ne; [done|]. intros ->. by rewrite Hi in Hj.
Qed.

Lemma msum_ge m i x : (forall i x, m !! i = Some x -> 0 <= f x) -> m !! i = Some x -> f x <= msum f m.
Proof.
  intros H Hi. assert (0 <= msum f (delete i m)) as H0.
  { apply msum_nonneg. intros j y [_ Hj]%lookup_delete_Some. by apply (H j). }
  rewrite (msum_delete m i x) in H0 by done. lia.
Qed.

Lemma msum_zero m : (forall i x, m !! i = Some x -> f x = 0) -> msum f m = 0.
Proof.
  induction m as [|i x m Hi IH] using map_ind; intros H; [by apply msum_empty|].
  rewrite msum_insert by done. rewrite (H i x) by apply lookup_insert_eq. rewrite IH; [done|].
  intros j y Hj. apply (H j). rewrite lookup_insert_ne; [done|]. intros ->. by rewrite Hi in Hj.
Qed.
End msum.

(** ** References of a table *)

Definition hit (fp q : Z) : Z := if decide (fp = q) then 1 else 0.
Definition points (e : filedescent) (q : Z) : Z := if decide (fde_file e = Some q) then 1 else 0.
Definition refs (d : filedesc) (q : Z) : Z := zsum (Z.to_nat (fd_nfiles d)) (fun j => points (fde d j) q).

Lemma hit_range fp q : 0 <= hit fp q <= 1.
Proof. unfold hit. case_decide; lia. Qed.
Lemma points_range e q : 0 <= points e q <= 1.
Proof. unfold points. case_decide; lia. Qed.

Lemma points_some e fp q : fde_file e = Some fp -> points e q = hit fp q.
Proof. intros H. unfold points, hit. rewrite H. do 2 case_decide; congruence. Qed.
Lemma points_none e q : fde_file e = None -> points e q = 0.
Proof. intros H. unfold points. by rewrite H. Qed.

Lemma zsum_more n k g :
  (forall i, Z.of_nat n <= i -> g i = 0) -> zsum (n + k) g = zsum n g.
Proof.
  intros H. induction k as [|k IH]; [by rewrite Nat.add_0_r|].
  rewrite Nat.add_succ_r. cbn [zsum]. rewrite IH, H by lia. lia.
Qed.

Lemma fde_beyond d j : fdt_ok d -> fd_nfiles d <= j -> fde d j = zero_fde.
Proof. intros T Hj. apply aget_ge. by rewrite (ft_ofiles d T). Qed.

(** Tables with the same entries have the same references. *)
Lemma refs_same d d' q :
  fdt_ok d -> fdt_ok d' -> (forall j, fde d' j = fde d j) -> fd_nfiles d <= fd_nfiles d' -> refs d' q = refs d q.
Proof.
  intros T T' Hf Hn. pose proof (ft_nfiles d T). unfold refs.
  replace (Z.to_nat (fd_nfiles d')) with (Z.to_nat (fd_nfiles d) + Z.to_nat (fd_nfiles d' - fd_nfiles d))%nat by lia.
  rewrite zsum_more.
  - apply zsum_ext. intros i _. by rewrite Hf.
  - intros i Hi. rewrite Hf, fde_beyond by (done || lia). by apply points_none.
Qed.

(** One entry changed. *)
Lemma refs_put d d' fd e q :
  fd_nfiles d' = fd_nfiles d -> 0 <= fd < fd_nfiles d ->
  (forall j, fde d' j = if fd =? j then e else fde d j) ->
  refs d' q = refs d q - points (fde d fd) q + points e q.
Proof.
  intros Hn Hf Hj. unfold refs. rewrite Hn. rewrite (zsum_update (Z.to_nat (fd_nfiles d)) (fun j => points (fde d j) q) (fun j => points (fde d' j) q) fd).
  - by rewrite Hj, Z.eqb_refl.
  - lia.
  - intros i Hi Hne. rewrite Hj. by ztest.
Qed.

Lemma refs_nonneg d q : 0 <= refs d q.
Proof. apply zsum_nonneg. intros j _. apply points_range. Qed.

Lemma refs_pos d fd fp :
  fdt_ok d -> fde_file (fde d fd) = Some fp -> 0 < refs d fp.
Proof.
  intros T H. pose proof (file_in_use d fd fp T H) as Hu. apply (ft_range d T) in Hu.
  assert (points (fde d fd) fp <= refs d fp) as Hle.
  { apply (zsum_ge_term (Z.to_nat (fd_nfiles d)) (fun j => points (fde d j) fp)); [|lia].
    intros j _. apply points_range. }
  rewrite (points_some _ fp) in Hle by done. unfold hit in Hle. rewrite decide_True in Hle by done. lia.
Qed.

(** ** Counts *)

(** Every file is open with as many references as [R] says, and there are as
    many as [openfiles]. *)
Record files_ok (ft : ftab) (R : Z -> Z) : Prop := {
  fo_count : forall q, match ft_files ft !! q with Some f => f_count f = R q /\ 0 < R q | None => R q = 0 end;
  fo_open : openfiles ft = Z.of_nat (size (ft_files ft))
}.

Lemma files_ext ft R R' : (forall q, R' q = R q) -> files_ok ft R -> files_ok ft R'.
Proof. intros H [H1 H2]. constructor; [|done]. intros q. specialize (H1 q). by rewrite H. Qed.

Lemma files_get ft R q : files_ok ft R -> 0 < R q -> exists f, get_file ft q = Ok f /\ ft_files ft !! q = Some f /\ f_count f = R q.
Proof.
  intros [H _] Hq. specialize (H q). unfold get_file. destruct (ft_files ft !! q) as [f|]; [|lia].
  exists f. split_and!; [done|done|apply H].
Qed.

(** What a file is, but for its count. *)
Definition same_file (f f' : file) : Prop := set_count 0 f' = set_count 0 f.

Definition files_kept (ft ft' : ftab) : Prop :=
  forall q f', ft_files ft' !! q = Some f' -> exists f, ft_files ft !! q = Some f /\ same_file f f'.

#[export] Instance files_kept_preorder : PreOrder files_kept.
Proof.
  split; [intros ft q f' H; by exists f'|]. intros ft1 ft2 ft3 H1 H2 q f3 H3.
  apply H2 in H3 as (f2 & H & E2). apply H1 in H as (f1 & H & E1). exists f1. split; [done|].
  unfold same_file in *. congruence.
Qed.

Lemma kept_set ft q f f' : ft_files ft !! q = Some f -> same_file f f' -> files_kept ft (set_file q f' ft).
Proof.
  intros H E p g. cbn. destruct (decide (q = p)) as [->|Hne].
  - rewrite lookup_insert_eq. intros [= <-]. by exists f.
  - rewrite lookup_insert_ne by done. intros Hg. by exists g.
Qed.

Lemma size_set ft q f f' : ft_files ft !! q = Some f -> size (ft_files (set_file q f' ft)) = size (ft_files ft).
Proof. intros H. cbn. by rewrite map_size_insert_Some by (by eexists). Qed.

Lemma fhold_ok ft R fp :
  files_ok ft R -> 0 < R fp < UINT_MAX ->
  exists ft', fhold fp ft = Ok ft' /\ files_ok ft' (fun q => R q + hit fp q) /\ files_kept ft ft'.
Proof.
  intros F Hr. destruct (files_get ft R fp F ltac:(lia)) as (f & E & Hf & Hc). unfold fhold.
  rewrite E, bind_Ok, Hc. rewrite require_true, bind_Ok by (by ztest). eexists. split; [reflexivity|]. split.
  - constructor; [|cbn [openfiles set_file]; rewrite (fo_open ft R F); by rewrite (size_set ft fp f)].
    intros q. cbn. pose proof (fo_count ft R F q) as Hq. unfold hit. case_decide as Hd.
    + subst q. rewrite lookup_insert_eq. cbn. lia.
    + rewrite lookup_insert_ne by done. destruct (ft_files ft !! q); lia.
  - by eapply kept_set.
Qed.

Lemma get_set fp f ft : get_file (set_file fp f ft) fp = Ok f.
Proof. unfold get_file. cbn. by rewrite lookup_insert_eq. Qed.

Section drop.
Context (fo_close : Z -> Z).

Lemma fdrop_ok ft R fp :
  files_ok ft R -> 0 < R fp ->
  exists ft', fdrop fo_close fp ft = Ok (if R fp =? 1 then fo_close fp else 0, ft') /\
  files_ok ft' (fun q => R q - hit fp q) /\ files_kept ft ft'.
Proof.
  intros F Hr. destruct (files_get ft R fp F Hr) as (f & E & Hf & Hc). unfold fdrop.
  rewrite E, bind_Ok, Hc, require_true, bind_Ok by (by ztest). cbv zeta.
  assert (files_kept ft (set_file fp (set_count (R fp - 1) f) ft)) as K by (by eapply kept_set).
  destruct (Z.eqb_spec (R fp) 1) as [E1|E1].
  - unfold _fdrop. rewrite get_set, bind_Ok. cbn [set_count f_count]. rewrite require_true, bind_Ok by (by ztest).
    eexists. split; [reflexivity|]. split.
    + constructor.
      * intros q. cbn. pose proof (fo_count ft R F q) as Hq. unfold hit. case_decide as Hd.
        -- subst q. rewrite lookup_delete_eq. lia.
        -- rewrite lookup_delete_ne, lookup_insert_ne by done. destruct (ft_files ft !! q); lia.
      * pose proof (fo_open ft R F) as Ho. cbn [openfiles ft_files set_file]. rewrite delete_insert_eq.
        pose proof (map_size_delete_Some fp (ft_files ft) ltac:(by eexists)) as Hsz. 
        assert (size (ft_files ft) <> 0%nat); [|lia]. intros Hz%map_size_empty_inv. by rewrite Hz in Hf.
    + intros q g. cbn. intros [Hne Hg]%lookup_delete_Some. rewrite lookup_insert_ne in Hg by done. by exists g.
  - eexists. split; [reflexivity|]. split; [|done].
    constructor; [|cbn [openfiles set_file]; rewrite (fo_open ft R F); by rewrite (size_set ft fp f)].
    intros q. cbn. pose proof (fo_count ft R F q) as Hq. unfold hit. case_decide as Hd.
    + subst q. rewrite lookup_insert_eq. cbn. lia.
    + rewrite lookup_insert_ne by done. destruct (ft_files ft !! q); lia.
Qed.
End drop.
