(* ===== verification/FdLocal.v ===== *)
(** One table and the files: the invariant of a table between calls, with the
    counts of the files, and what the calls on one table do to both. *)

From stdpp Require Import gmap.
From S2P Require Import Prelude Priv Cred Caps CapsInv Fd FdCalls FdBits FdTable FdFiles.

(** Between calls, a descriptor is in use just when it has a file, and what
    it may do is a capability. *)
Record tab_ok (d : filedesc) : Prop := {
  to_fdt : fdt_ok d;
  to_tidy : forall j, in_use d j = true -> fde_file (fde d j) <> None;
  to_caps : forall j fp, fde_file (fde d j) = Some fp -> caps_ok (fde_caps (fde d j))
}.

Lemma tab_open d j : tab_ok d -> in_use d j = true <-> fde_file (fde d j) <> None.
Proof. intros T. split; [apply (to_tidy d T) | apply (ft_file d (to_fdt d T))]. Qed.

Lemma tab_free d j : tab_ok d -> in_use d j = false <-> fde_file (fde d j) = None.
Proof.
  intros T. rewrite <- not_true_iff_false, (tab_open d j T). destruct (fde_file (fde d j)); [|tauto].
  split; [|done]. intros H. by destruct H.
Qed.

Lemma open_range d j fp : tab_ok d -> fde_file (fde d j) = Some fp -> 0 <= j < fd_nfiles d.
Proof. intros T H. apply (ft_range d (to_fdt d T)), (tab_open d j T). by rewrite H. Qed.

Lemma open_last d j fp : tab_ok d -> fde_file (fde d j) = Some fp -> 0 <= j <= fd_lastfile d.
Proof.
  intros T H. pose proof (open_range d j fp T H). destruct (ft_last d (to_fdt d T)) as (_ & _ & L).
  apply (file_in_use d j fp (to_fdt d T)) in H. destruct (Z.le_gt_cases j (fd_lastfile d)); [lia|].
  rewrite L in H by done. done.
Qed.

(** ** One entry changed *)

(** [d'] is [d] with the entry [fd] replaced. *)
Record one_changed (d d' : filedesc) (fd : Z) (e : filedescent) : Prop := {
  oc_tab : tab_ok d';
  oc_fde : forall j, fde d' j = if fd =? j then e else fde d j;
  oc_refcnt : fd_refcnt d' = fd_refcnt d;
  oc_cmask : fd_cmask d' = fd_cmask d;
  oc_refs : forall q, refs d' q = refs d q - points (fde d fd) q + points e q
}.

Lemma unchanged_entry d fd : tab_ok d -> one_changed d d fd (fde d fd).
Proof.
  intros T. constructor; try done.
  - intros j. by destruct (Z.eqb_spec fd j) as [->|].
  - intros q. lia.
Qed.

Lemma refs_change d d' fd e q :
  fdt_ok d -> fd_nfiles d <= fd_nfiles d' -> 0 <= fd < fd_nfiles d' ->
  (forall j, fde d' j = if fd =? j then e else fde d j) ->
  refs d' q = refs d q - points (fde d fd) q + points e q.
Proof.
  intros T Hn Hf Hj. pose proof (ft_nfiles d T).
  assert (refs d q = zsum (Z.to_nat (fd_nfiles d')) (fun j => points (fde d j) q)) as ->.
  { unfold refs.
    replace (Z.to_nat (fd_nfiles d')) with (Z.to_nat (fd_nfiles d) + Z.to_nat (fd_nfiles d' - fd_nfiles d))%nat by lia.
    rewrite zsum_more; [done|]. intros i Hi. rewrite fde_beyond by (done || lia). by apply points_none. }
  unfold refs. rewrite (zsum_update _ (fun j => points (fde d j) q) (fun j => points (fde d' j) q) fd).
  - by rewrite Hj, Z.eqb_refl.
  - lia.
  - intros i Hi Hne. rewrite Hj. by ztest.
Qed.

(** An entry is filled in at a descriptor that has just been marked, or was
    in use before. *)
Lemma fill_entry d d1 fd e fp :
  tab_ok d -> fdt_ok d1 -> same_table d d1 -> 0 <= fd < fd_nfiles d1 ->
  (forall j, in_use d1 j = (fd =? j) || in_use d j) ->
  fde_file e = Some fp -> caps_ok (fde_caps e) ->
  exists d', put_ofile d1 fd e = Ok d' /\ one_changed d d' fd e.
Proof.
  intros T T1 [S1 S2 S3 S4] Hf Hu He Hc.
  destruct (put_ofile_spec d1 fd e T1 Hf) as (d' & E & T' & N' & C' & R' & U' & _ & F').
  { intros _. by rewrite Hu, Z.eqb_refl. }
  exists d'. split; [done|].
  assert (forall j, fde d' j = if fd =? j then e else fde d j) as Hj by (intros j; by rewrite F', S1).
  constructor; [|done|congruence|congruence|].
  - constructor; [done| |].
    + intros j. rewrite U', Hu, Hj. destruct (Z.eqb_spec fd j); cbn [orb]; [by rewrite He | apply (to_tidy d T)].
    + intros j p. rewrite Hj. destruct (_ =? _); [done | apply (to_caps d T)].
  - intros q. apply refs_change; [apply T | lia | lia | done].
Qed.

(** An open descriptor changed but for its file. *)
Lemma rewrite_entry d fd e fp :
  tab_ok d -> fde_file (fde d fd) = Some fp -> fde_file e = Some fp -> caps_ok (fde_caps e) ->
  exists d', put_ofile d fd e = Ok d' /\ one_changed d d' fd e /\ forall q, refs d' q = refs d q.
Proof.
  intros T Hfp He Hc. pose proof (open_range d fd fp T Hfp) as Hr.
  destruct (fill_entry d d fd e fp T (to_fdt d T) ltac:(reflexivity) Hr) as (d' & E & O); [|done|done|].
  - intros j. destruct (Z.eqb_spec fd j) as [<-|]; [|done]. apply (tab_open d fd T). by rewrite Hfp.
  - exists d'. split_and!; [done|done|]. intros q. rewrite (oc_refs _ _ _ _ O).
    rewrite (points_some _ fp), (points_some e fp) by done. lia.
Qed.

(** The entry of a closed descriptor. *)
Definition closed_entry (e : filedescent) : filedescent := MkFde None zero_caps (fde_flags e).

Lemma fdfree_ok d fd fp :
  tab_ok d -> fde_file (fde d fd) = Some fp ->
  exists d', fdfree d fd = Ok d' /\ one_changed d d' fd (closed_entry (fde d fd)) /\
  forall q, refs d' q = refs d q - hit fp q.
Proof.
  intros T Hfp. pose proof (open_range d fd fp T Hfp) as Hr.
  destruct (fdfree_spec d fd (to_fdt d T)) as (d' & E & T' & N' & C' & R' & U' & F').
  { apply (tab_open d fd T). by rewrite Hfp. }
  exists d'. split; [done|].
  assert (forall q, refs d' q = refs d q - points (fde d fd) q + points (closed_entry (fde d fd)) q) as Hq.
  { intros q. apply refs_change; [apply T | lia | lia | done]. }
  split; [constructor; try done|].
  - constructor; [done| |].
    + intros j. rewrite U', F'. destruct (_ =? _); [done | apply (to_tidy d T)].
    + intros j p. rewrite F'. destruct (_ =? _); [done | apply (to_caps d T)].
  - intros q. rewrite Hq, (points_some _ fp), (points_none (closed_entry _)) by done. lia.
Qed.

(** ** The table with the files *)

(** The counts are those of the references of the table and [X] others. *)
Record local_ok (X : Z -> Z) (s : ftab * filedesc) : Prop := {
  lo_tab : tab_ok s.2;
  lo_files : files_ok s.1 (fun q => refs s.2 q + X q);
  lo_others : forall q, 0 <= X q
}.

Lemma local_file X s fd fp :
  local_ok X s -> fde_file (fde s.2 fd) = Some fp -> 0 < refs s.2 fp + X fp.
Proof.
  intros [T _ HX] H. pose proof (refs_pos s.2 fd fp (to_fdt _ T) H). specialize (HX fp). lia.
Qed.

Lemma local_next X ft d ft' d' R :
  local_ok X (ft, d) -> tab_ok d' -> files_ok ft' R -> (forall q, refs d' q + X q = R q) -> local_ok X (ft', d').
Proof. intros [_ _ HX] T F H. constructor; [done| |done]. by eapply files_ext. Qed.

(** Calls of one process do not make files, and leave what they are. *)
Definition calls_keep (s s' : ftab * filedesc) : Prop :=
  files_kept s.1 s'.1 /\ fd_refcnt s'.2 = fd_refcnt s.2 /\ fd_cmask s'.2 = fd_cmask s.2.

#[export] Instance calls_keep_preorder : PreOrder calls_keep.
Proof.
  split; [by intros s; split_and!|]. intros s1 s2 s3 (H1 & H2 & H3) (H4 & H5 & H6).
  split_and!; [by etrans | congruence | congruence].
Qed.

(** Duplicating a descriptor: where the copy goes, and what [kern_dup] does. *)

(** Duplicates that name their descriptor. *)
Definition replaces (mode : dup_mode) : bool := bool_decide (mode = FDDUP_FIXED \/ mode = FDDUP_MUSTREPLACE).

(** The descriptor of the copy of an open one, or the errno. *)
Definition dup_place (d : filedesc) (maxfd : Z) (mode : dup_mode) (new : Z) (r : Z + Z) : Prop :=
  match mode with
  | FDDUP_NORMAL | FDDUP_FCNTL =>
      exists fd, lowest_free d new fd /\ r = if maxfd <=? fd then inl EMFILE else inr fd
  | FDDUP_FIXED => r = inr new
  | FDDUP_MUSTREPLACE => r = match fde_file (fde d new) with None => inl EBADF | Some _ => inr new end
  end.

(** What a duplicate of [old] answers. *)
Definition dup_answer (d : filedesc) (maxfd : Z) (mode : dup_mode) (old new : Z) (r : Z + Z) : Prop :=
  let bounds := if decide (mode = FDDUP_FCNTL) then EINVAL else EBADF in
  if old <? 0 then r = inl EBADF
  else if (new <? 0) || (maxfd <=? new) then r = inl bounds
  else match fde_file (fde d old) with None => r = inl EBADF | Some _ => dup_place d maxfd mode new r end.

(** The entry of the copy. *)
Definition copy_of (e : filedescent) (flags : Z) (e' : filedescent) : Prop :=
  fde_file e' = fde_file e /\ filecaps_copy (fde_caps e) true = Ok (0, fde_caps e') /\
  fde_flags e' = if flag_set flags FDDUP_FLAG_CLOEXEC then Z.lor (fde_flags e) UF_EXCLOSE
                 else Z.land (fde_flags e) (Z.lnot UF_EXCLOSE).

(** The table after a duplicate at [fd]. *)
Definition dup_table (d : filedesc) (flags old fd : Z) (d' : filedesc) : Prop :=
  exists e', one_changed d d' fd e' /\
  if old =? fd then
    fde_file e' = fde_file (fde d old) /\ fde_caps e' = fde_caps (fde d old) /\
    fde_flags e' = if flag_set flags FDDUP_FLAG_CLOEXEC then Z.lor (fde_flags (fde d old)) UF_EXCLOSE
                   else fde_flags (fde d old)
  else copy_of (fde d old) flags e'.

Lemma same_use d fd : in_use d fd = true -> forall j, in_use d j = (fd =? j) || in_use d j.
Proof. intros H j. by destruct (Z.eqb_spec fd j) as [<-|]. Qed.

(** [d1] is [d] with the descriptor [fd], not [old], marked. *)
Definition placed (d : filedesc) (old fd : Z) (d1 : filedesc) : Prop :=
  old <> fd /\ fdt_ok d1 /\ same_table d d1 /\ 0 <= fd < fd_nfiles d1 /\
  forall j, in_use d1 j = (fd =? j) || in_use d j.

Lemma alloc_place d maxfd old new :
  tab_ok d -> maxfd_ok maxfd -> 0 <= new -> in_use d old = true ->
  exists fd r d1, dup_target maxfd FDDUP_NORMAL d new = Ok (r, d1) /\
  lowest_free d new fd /\ r = (if maxfd <=? fd then inl EMFILE else inr fd) /\
  match r with inl _ => d1 = d | inr fd => placed d old fd d1 end.
Proof.
  intros T Hmax Hn Hold. destruct (fdalloc_spec d maxfd new (to_fdt d T) Hmax Hn) as (fd & Hl & H1 & H2).
  exists fd. unfold dup_target. destruct (Z.leb_spec maxfd fd) as [Hc|Hc].
  - rewrite H1, bind_Ok by done. by eexists _, _.
  - destruct (H2 Hc) as (d1 & -> & T1 & S1 & N1 & U1). rewrite bind_Ok. eexists _, _. split; [reflexivity|].
    split; [done|]. split; [done|]. destruct Hl as (L1 & L2 & L3).
    unfold placed. split_and!; try done; [|lia]. intros ->. by rewrite Hold in L2.
Qed.

Lemma fixed_place d maxfd old new :
  tab_ok d -> maxfd_ok maxfd -> 0 <= new < maxfd -> old <> new ->
  exists d1, dup_target maxfd FDDUP_FIXED d new = Ok (inr new, d1) /\ placed d old new d1.
Proof.
  intros T Hmax Hn Hne. unfold dup_target. pose proof (to_fdt d T) as F.
  assert (exists d0, (if fd_nfiles d <=? new then fdgrowtable_exp d (new + 1) else Ok d) = Ok d0 /\
  fdt_ok d0 /\ same_table d d0 /\ 0 <= new < fd_nfiles d0 /\ forall j, in_use d0 j = in_use d j)
    as (d0 & -> & T0 & S0 & N0 & U0).
  { unfold maxfd_ok in Hmax. destruct (Z.leb_spec (fd_nfiles d) new); [|exists d; split_and!; try done; lia].
    destruct (fdgrowtable_exp_spec d (new + 1) F) as (d0 & E & T0 & S0 & N0 & _ & _ & U0); [lia | lia |].
    exists d0. split_and!; try done; lia. }
  rewrite bind_Ok, fdisused_ok, bind_Ok by done.
  destruct (in_use d0 new) eqn:Eu; cbn [negb]; rewrite ?bind_Ok.
  - eexists. split; [reflexivity|]. unfold placed. split_and!; try done; try lia.
    rewrite U0 in Eu. intros j. rewrite U0. by apply same_use.
  - destruct (fdused_spec d0 new T0 N0 Eu) as (d1 & -> & T1 & S1 & N1 & U1). rewrite bind_Ok.
    eexists. split; [reflexivity|]. unfold placed. split_and!; try done; try lia; [by etrans|].
    intros j. by rewrite U1, U0.
Qed.

Lemma dup_target_ok d maxfd mode old new :
  tab_ok d -> maxfd_ok maxfd -> 0 <= new < maxfd ->
  fde_file (fde d old) <> None -> replaces mode && (old =? new) = false ->
  exists r d1, dup_target maxfd mode d new = Ok (r, d1) /\ dup_place d maxfd mode new r /\
  match r with inl _ => d1 = d | inr fd => placed d old fd d1 end.
Proof.
  intros T Hmax Hn Hold Hne. apply (tab_open d old T) in Hold.
  destruct (alloc_place d maxfd old new T Hmax ltac:(lia) Hold) as (fd & r & d1 & Ea & Hl & Hr & Hp).
  assert (replaces mode = true -> old <> new) as Hne'.
  { intros Hm ->. by rewrite Hm, Z.eqb_refl in Hne. }
  unfold dup_place. destruct mode.
  - exists r, d1. split_and!; [done | by exists fd | done].
  - exists r, d1. split_and!; [done | by exists fd | done].
  - destruct (fixed_place d maxfd old new T Hmax Hn (Hne' eq_refl)) as (d2 & E & P). by exists (inr new), d2.
  - unfold dup_target. rewrite fget_locked_ok, bind_Ok by apply T. destruct (fde_file (fde d new)) eqn:En; [|by eexists _, _].
    eexists _, _. split; [reflexivity|]. split; [done|]. pose proof (open_range d new z T En).
    split; [by apply Hne'|]. split; [apply T|]. split; [reflexivity|]. split; [done|].
    apply same_use. apply (tab_open d new T). by rewrite En.
Qed.

Section dup.
Context (fo_close : Z -> Z).

(** The copy is put at a marked descriptor and what was there is closed. *)
Lemma copy_ok_at X ft d d1 flags old fd fp :
  local_ok X (ft, d) -> placed d old fd d1 -> fde_file (fde d old) = Some fp ->
  refs d fp + X fp < UINT_MAX ->
  exists s', (oldfde ← ofile d1 old;
    match fde_file oldfde with
    | None => Panic "null pointer"
    | Some fp =>
        ft ← fhold fp ft;
        newfde ← ofile d1 fd;
        '(_, caps) ← filecaps_copy (fde_caps oldfde) true;
        fdp ← put_ofile d1 fd (MkFde (Some fp) caps
                (if flag_set flags FDDUP_FLAG_CLOEXEC then Z.lor (fde_flags oldfde) UF_EXCLOSE
                 else Z.land (fde_flags oldfde) (Z.lnot UF_EXCLOSE)));
        match fde_file newfde with
        | None => Ok (inr fd, (ft, fdp))
        | Some delfp => '(_, ft) ← closefp fo_close delfp ft; Ok (inr fd, (ft, fdp))
        end
    end) = Ok (@inr Z Z fd, s') /\ local_ok X s' /\ files_kept ft s'.1 /\ dup_table d flags old fd s'.2.
Proof.
  intros L (Hne & T1 & S1 & N1 & U1) Hfp Hroom. pose proof (lo_tab _ _ L) as T. cbn in T.
  pose proof (local_file X _ _ _ L Hfp) as Hpos. cbn in Hpos. pose proof (st_nfiles _ _ S1) as Hn.
  pose proof (open_range d old fp T Hfp) as Ho.
  rewrite (ofile_ok d1 old T1), bind_Ok, (st_ofiles _ _ S1), Hfp by lia.
  destruct (fhold_ok ft _ fp (lo_files _ _ L)) as (ft1 & -> & F1 & K1); [cbn; lia|].
  rewrite bind_Ok. rewrite (ofile_ok d1 fd T1 N1), bind_Ok, (st_ofiles _ _ S1).
  destruct (copy_ok _ (to_caps d T old fp Hfp)) as (caps & Ec & Hc & _). rewrite Ec, bind_Ok.
  set (e := MkFde _ _ _).
  destruct (fill_entry d d1 fd e fp T T1 S1 N1 U1 eq_refl Hc) as (d2 & -> & O). rewrite bind_Ok.
  assert (dup_table d flags old fd d2) as Ht.
  { exists e. split; [done|]. rewrite (proj2 (Z.eqb_neq old fd)) by done. by split_and!. }
  assert (forall q, refs d2 q = refs d q - points (fde d fd) q + hit fp q) as Hq.
  { intros q. rewrite (oc_refs _ _ _ _ O), (points_some e fp) by done. lia. }
  destruct (fde_file (fde d fd)) as [delfp|] eqn:Ed.
  - pose proof (local_file X _ _ _ L Ed) as Hdel. cbn in Hdel. pose proof (hit_range fp delfp).
    destruct (fdrop_ok fo_close ft1 _ delfp F1) as (ft2 & E & F2 & K2); [cbn; lia|].
    unfold closefp, closef. rewrite E, bind_Ok. eexists. split; [reflexivity|]. split_and!; [|by etrans|done].
    eapply (local_next X ft d ft2 d2); [done|apply O|exact F2|]. intros q. cbn.
    rewrite Hq, (points_some _ delfp) by done. lia.
  - eexists. split; [reflexivity|]. split_and!; [|done|done].
    eapply (local_next X ft d ft1 d2); [done|apply O|exact F1|]. intros q. cbn.
    rewrite Hq, (points_none (fde d fd)) by done. lia.
Qed.

Lemma kern_dup_ok X ft d maxfd mode flags old new :
  local_ok X (ft, d) -> maxfd_ok maxfd -> Z.land flags (Z.lnot FDDUP_FLAG_CLOEXEC) = 0 ->
  (forall q, refs d q + X q < UINT_MAX) ->
  exists r s', kern_dup fo_close maxfd mode flags old new (ft, d) = Ok (r, s') /\
  dup_answer d maxfd mode old new r /\ local_ok X s' /\ files_kept ft s'.1 /\
  match r with inl _ => s' = (ft, d) | inr fd => dup_table d flags old fd s'.2 end.
Proof.
  intros L Hmax Hflags Hroom. pose proof (lo_tab _ _ L) as T. cbn in T.
  unfold kern_dup, dup_answer. rewrite Hflags. cbn [Z.eqb require]. rewrite bind_Ok. cbv zeta.
  destruct (Z.ltb_spec old 0); [by eexists _, _|].
  destruct (Z.ltb_spec new 0); cbn [orb]; [by eexists _, _|].
  destruct (Z.leb_spec maxfd new); [by eexists _, _|].
  rewrite fget_locked_ok, bind_Ok by apply T.
  destruct (fde_file (fde d old)) as [fp|] eqn:Hfp; [|by eexists _, _].
  change (bool_decide (mode = FDDUP_FIXED \/ mode = FDDUP_MUSTREPLACE)) with (replaces mode).
  destruct (replaces mode && (old =? new)) eqn:Hs.
  - apply andb_true_iff in Hs as [Hm E]. apply Z.eqb_eq in E as <-.
    assert (dup_place d maxfd mode old (inr old)) as Hp.
    { unfold replaces in Hm. apply bool_decide_eq_true in Hm as [-> | ->]; cbn; [done | by rewrite Hfp]. }
    destruct (flag_set flags FDDUP_FLAG_CLOEXEC) eqn:Ef.
    2:{ eexists _, _. split; [reflexivity|]. split_and!; try done. exists (fde d old).
        split; [by apply unchanged_entry|]. by rewrite Z.eqb_refl, Ef. }
    rewrite (ofile_ok d old (to_fdt d T) (open_range d old fp T Hfp)), bind_Ok.
    set (e := MkFde _ _ _).
    destruct (rewrite_entry d old e fp T Hfp Hfp (to_caps d T old fp Hfp)) as (d2 & -> & O & Hq). rewrite bind_Ok.
    eexists _, _. split; [reflexivity|]. split_and!; try done.
    + eapply (local_next X ft d ft d2); [done|apply O|apply (lo_files _ _ L)|]. intros q. cbn. by rewrite Hq.
    + exists e. split; [done|]. by rewrite Z.eqb_refl, Ef.
  - destruct (dup_target_ok d maxfd mode old new T Hmax ltac:(lia)) as (r & d1 & -> & Hp & P);
      [by rewrite Hfp | done |]. rewrite bind_Ok. destruct r as [error|fd].
    + rewrite P. by eexists _, _.
    + rewrite require_true, bind_Ok by (destruct P as [? _]; by ztest).
      destruct (copy_ok_at X ft d d1 flags old fd fp L P Hfp) as (s' & -> & L' & K & Ht); [apply Hroom|].
      by eexists _, _.
Qed.
End dup.

(** New descriptors: a file is made and installed, and undone again when a
    later step of the call fails. *)

(** The files with [f] as a new one, and with one of [n] references. *)
Definition with_file (fp : Z) (f : file) (ft : ftab) : ftab :=
  MkFtab (<[fp := f]> (ft_files ft)) (openfiles ft + 1).
Definition new_file (fp n : Z) (ft : ftab) : ftab := with_file fp (MkFile n 0 0 0) ft.

Definition no_file (ft : ftab) (fp : Z) : Prop := ft_files ft !! fp = None.

Lemma no_refs ft R fp : files_ok ft R -> no_file ft fp -> R fp = 0.
Proof. intros F H. pose proof (fo_count ft R F fp) as Hq. unfold no_file in H. by rewrite H in Hq. Qed.

Lemma with_file_ok ft R fp f :
  files_ok ft R -> no_file ft fp -> 0 < f_count f ->
  files_ok (with_file fp f ft) (fun q => R q + f_count f * hit fp q).
Proof.
  intros F H Hn. pose proof (no_refs ft R fp F H) as H0. constructor; cbn.
  - intros q. unfold hit. case_decide as Hd.
    + subst q. rewrite lookup_insert_eq. lia.
    + rewrite lookup_insert_ne by done. pose proof (fo_count ft R F q). destruct (ft_files ft !! q); lia.
  - rewrite map_size_insert_None by done. rewrite (fo_open ft R F). lia.
Qed.

Lemma with_file_swap fp1 fp2 f1 f2 ft :
  fp1 <> fp2 -> with_file fp1 f1 (with_file fp2 f2 ft) = with_file fp2 f2 (with_file fp1 f1 ft).
Proof. intros H. unfold with_file. cbn. by rewrite insert_insert_ne. Qed.

Lemma get_with fp f ft : get_file (with_file fp f ft) fp = Ok f.
Proof. unfold get_file. cbn. by rewrite lookup_insert_eq. Qed.

Lemma set_with fp f g ft : set_file fp g (with_file fp f ft) = with_file fp g ft.
Proof. unfold set_file, with_file. cbn. by rewrite insert_insert_eq. Qed.

Lemma finit_with fp f flag type ops ft :
  finit fp flag type ops (with_file fp f ft) = Ok (with_file fp (MkFile (f_count f) type flag ops) ft).
Proof. unfold finit. by rewrite get_with, bind_Ok, set_with. Qed.

Lemma fhold_with fp f ft :
  f_count f < UINT_MAX -> fhold fp (with_file fp f ft) = Ok (with_file fp (set_count (f_count f + 1) f) ft).
Proof. intros Hn. unfold fhold. rewrite get_with, bind_Ok, require_true, bind_Ok by (by ztest). by rewrite set_with. Qed.

Lemma fdrop_with fo_close fp f ft :
  1 < f_count f -> fdrop fo_close fp (with_file fp f ft) = Ok (0, with_file fp (set_count (f_count f - 1) f) ft).
Proof.
  intros Hn. unfold fdrop. rewrite get_with, bind_Ok, require_true, bind_Ok by (by ztest). rewrite set_with.
  destruct (Z.eqb_spec (f_count f) 1); [lia | done].
Qed.

Lemma fdrop_last fo_close fp f ft :
  no_file ft fp -> f_count f = 1 -> fdrop fo_close fp (with_file fp f ft) = Ok (fo_close fp, ft).
Proof.
  intros H E. unfold fdrop. rewrite get_with, bind_Ok, E, require_true, bind_Ok by done. rewrite set_with.
  cbn [Z.eqb Pos.eqb]. unfold _fdrop. rewrite get_with, bind_Ok, require_true, bind_Ok by done. do 2 f_equal.
  unfold with_file. cbn. rewrite delete_insert_id by done. destruct ft as [m n]. cbn. by replace (n + 1 - 1) with n by lia.
Qed.

(** What a new descriptor holds. *)
Definition new_entry (fp flags : Z) (fcaps : option filecaps) : filedescent :=
  MkFde (Some fp) (default filecaps_fill fcaps) (if flag_set flags O_CLOEXEC then UF_EXCLOSE else 0).

Definition arg_ok (fcaps : option filecaps) : Prop := match fcaps with Some c => caps_ok c | None => True end.

Lemma default_caps fcaps : arg_ok fcaps -> caps_ok (default filecaps_fill fcaps).
Proof. destruct fcaps; [done|]. intros _. apply fill_ok. Qed.

Lemma _finstall_ok d d1 fp fd flags fcaps :
  tab_ok d -> fdt_ok d1 -> same_table d d1 -> 0 <= fd < fd_nfiles d1 ->
  (forall j, in_use d1 j = (fd =? j) || in_use d j) -> arg_ok fcaps ->
  exists d', _finstall d1 fp fd flags fcaps = Ok d' /\ one_changed d d' fd (new_entry fp flags fcaps).
Proof.
  intros T T1 S1 Hf U1 Hc. unfold _finstall.
  assert ((match fcaps with Some c => filecaps_validate c | None => Ok tt end) = Ok tt) as ->.
  { destruct fcaps; [by apply validate_ok | done]. }
  rewrite bind_Ok, (ofile_ok d1 fd T1 Hf), bind_Ok.
  by apply (fill_entry d d1 fd (new_entry fp flags fcaps) fp T T1 S1 Hf U1 eq_refl (default_caps _ Hc)).
Qed.

(** ** Installing *)

Lemma finstall_ok ft d maxfd fp flags fcaps :
  tab_ok d -> maxfd_ok maxfd -> arg_ok fcaps ->
  exists fd, lowest_free d 0 fd /\
  (maxfd <= fd -> finstall maxfd fp flags fcaps (ft, d) = Ok (inl EMFILE, (ft, d))) /\
  (fd < maxfd -> forall ft', fhold fp ft = Ok ft' -> exists d',
     finstall maxfd fp flags fcaps (ft, d) = Ok (inr fd, (ft', d')) /\
     one_changed d d' fd (new_entry fp flags fcaps)).
Proof.
  intros T Hmax Hc. destruct (fdalloc_spec d maxfd 0 (to_fdt d T) Hmax ltac:(lia)) as (fd & Hl & H1 & H2).
  exists fd. unfold finstall. split_and!; [done| |].
  - intros Hge. by rewrite H1, bind_Ok.
  - intros Hlt ft' E. destruct (H2 Hlt) as (d1 & -> & T1 & S1 & N1 & U1). rewrite bind_Ok. cbn [Z.eqb negb].
    rewrite E, bind_Ok. destruct Hl as [Hl _].
    destruct (_finstall_ok d d1 fp fd flags fcaps T T1 S1 ltac:(lia) U1 Hc) as (d' & -> & O).
    rewrite bind_Ok. by exists d'.
Qed.

Section new.
Context (fo_close : Z -> Z).

(** Whether a file can be made. *)
Definition no_files_left (maxfiles : Z) (privileged : bool) (ft : ftab) : bool :=
  ((maxfiles - Z.quot maxfiles 20 <=? openfiles ft) && negb privileged) || (maxfiles <=? openfiles ft).

Lemma falloc_caps_ok ft d maxfiles privileged maxfd fp flags fcaps want :
  tab_ok d -> maxfd_ok maxfd -> arg_ok fcaps -> no_file ft fp ->
  if no_files_left maxfiles privileged ft
  then falloc_caps fo_close maxfiles privileged maxfd fp flags fcaps want (ft, d) = Ok (inl ENFILE, (ft, d))
  else exists fd, lowest_free d 0 fd /\
    if maxfd <=? fd
    then falloc_caps fo_close maxfiles privileged maxfd fp flags fcaps want (ft, d) = Ok (inl EMFILE, (ft, d))
    else exists d', falloc_caps fo_close maxfiles privileged maxfd fp flags fcaps want (ft, d) =
           Ok (inr fd, (new_file fp (if want then 2 else 1) ft, d')) /\
         one_changed d d' fd (new_entry fp flags fcaps).
Proof.
  intros T Hmax Hc Hf. unfold falloc_caps, falloc_noinstall. cbv zeta.
  change (_ || _) with (no_files_left maxfiles privileged ft).
  destruct (no_files_left maxfiles privileged ft); [done|]. cbn [Z.eqb negb].
  change (MkFtab _ _) with (new_file fp 1 ft).
  destruct (finstall_ok (new_file fp 1 ft) d maxfd fp flags fcaps T Hmax Hc) as (fd & Hl & H1 & H2).
  exists fd. split; [done|]. destruct (Z.leb_spec maxfd fd) as [Hge|Hlt].
  - rewrite H1, bind_Ok by done. unfold new_file. by rewrite fdrop_last, bind_Ok.
  - destruct (H2 Hlt _ (fhold_with fp (MkFile 1 0 0 0) ft ltac:(done))) as (d' & -> & O). rewrite bind_Ok.
    exists d'. split; [|done]. destruct want; [done|]. by rewrite fdrop_with, bind_Ok.
Qed.

(** ** Undoing *)

(** The same descriptors are open, and unchanged. *)
Record same_open (d d' : filedesc) : Prop := {
  so_tab : tab_ok d';
  so_fde : forall j, fde_file (fde d j) <> None -> fde d' j = fde d j;
  so_file : forall j, fde_file (fde d j) = None -> fde_file (fde d' j) = None;
  so_refcnt : fd_refcnt d' = fd_refcnt d;
  so_cmask : fd_cmask d' = fd_cmask d;
  so_refs : forall q, refs d' q = refs d q
}.

Lemma same_open_refl d : tab_ok d -> same_open d d.
Proof. intros T. by constructor. Qed.

(** A new descriptor taken away again. *)
Lemma undo_entry d d1 d2 fd e fp :
  one_changed d d1 fd e -> fde_file (fde d fd) = None -> fde_file e = Some fp ->
  same_open d1 d2 ->
  exists d3, fdfree d2 fd = Ok d3 /\ same_open d d3.
Proof.
  intros [T1 F1 R1 C1 Q1] Hn He [T2 F2 N2 R2 C2 Q2].
  assert (fde d1 fd = e) as E1 by (by rewrite F1, Z.eqb_refl).
  assert (fde d2 fd = e) as E2 by (rewrite F2; [done | by rewrite E1, He]).
  destruct (fdfree_ok d2 fd fp T2 ltac:(by rewrite E2)) as (d3 & E & [T3 F3 R3 C3 _] & Q3).
  exists d3. split; [done|]. constructor; try done; try congruence.
  - intros j Hj. assert (fd <> j) as Hne by (intros ->; congruence). apply Z.eqb_neq in Hne.
    assert (fde d1 j = fde d j) as Ej by (by rewrite F1, Hne). rewrite F3, Hne, F2; congruence.
  - intros j Hj. rewrite F3. destruct (fd =? j) eqn:Hne; [done|]. apply N2. by rewrite F1, Hne.
  - intros q. rewrite Q3, Q2, Q1, (points_none (fde d fd)), (points_some e fp) by done. lia.
Qed.

(** The error path after [falloc]. *)
Lemma undo_falloc ft d d1 d2 fd fp flags fcaps :
  no_file ft fp -> one_changed d d1 fd (new_entry fp flags fcaps) -> fde_file (fde d fd) = None ->
  same_open d1 d2 ->
  exists d3, fdclose fo_close fp fd (new_file fp 2 ft, d2) = Ok (new_file fp 1 ft, d3) /\
  fdrop fo_close fp (new_file fp 1 ft) = Ok (fo_close fp, ft) /\ same_open d d3.
Proof.
  intros Hf O Hn S2. destruct (undo_entry d d1 d2 fd _ fp O Hn eq_refl S2) as (d3 & E & S3).
  exists d3. split_and!; [|by apply fdrop_last|done]. pose proof O as [T1 F1 _ _ _].
  assert (fde d2 fd = new_entry fp flags fcaps) as E2.
  { rewrite (so_fde _ _ S2); by rewrite F1, Z.eqb_refl. }
  unfold fdclose.
  rewrite (ofile_ok d2 fd (to_fdt _ (so_tab _ _ S2))), bind_Ok
    by (apply (open_range d2 fd fp (so_tab _ _ S2)); by rewrite E2).
  rewrite E2. rewrite decide_True by done. unfold new_file. by rewrite E, bind_Ok, fdrop_with, bind_Ok.
Qed.
End new.
