(* ===== verification/FdClose.v ===== *)
(** Closing: one descriptor, the descriptors from a number on, and those that
    do not outlive an exec. *)

From stdpp Require Import gmap.
From S2P Require Import Prelude Priv Cred Caps CapsInv Fd FdCalls FdBits FdTable FdFiles FdLocal.
From S2P Require Import FdProc.

Definition is_open (d : filedesc) (j : Z) : bool := bool_decide (fde_file (fde d j) <> None).

Lemma open_some d j fp : fde_file (fde d j) = Some fp -> is_open d j = true.
Proof. intros H. apply bool_decide_eq_true. by rewrite H. Qed.
Lemma open_none d j : fde_file (fde d j) = None -> is_open d j = false.
Proof. intros H. apply bool_decide_eq_false. rewrite H. tauto. Qed.
Lemma open_iff d j : is_open d j = true <-> exists fp, fde_file (fde d j) = Some fp.
Proof.
  unfold is_open. rewrite bool_decide_eq_true. destruct (fde_file (fde d j)) as [fp|].
  - split; [by exists fp | done].
  - split; [by intros [] | by intros [? ?]].
Qed.

(** [d'] is [d] with the open descriptors that [P] names closed. *)
Record closed_set (d d' : filedesc) (P : Z -> bool) : Prop := {
  cs_fde : forall j, fde d' j = if is_open d j && P j then closed_entry (fde d j) else fde d j;
  cs_refcnt : fd_refcnt d' = fd_refcnt d;
  cs_cmask : fd_cmask d' = fd_cmask d
}.

Lemma closed_nothing d P : (forall j, is_open d j = true -> P j = false) -> closed_set d d P.
Proof. intros H. constructor; [|done|done]. intros j. destruct (is_open d j) eqn:E; [by rewrite H | done]. Qed.

Lemma closed_file d d' P j fp :
  closed_set d d' P -> fde_file (fde d' j) = Some fp -> fde_file (fde d j) = Some fp /\ P j = false.
Proof.
  intros [F _ _]. rewrite F. destruct (is_open d j && P j) eqn:E; [done|]. intros Hj. split; [done|].
  apply open_some in Hj. by rewrite Hj in E.
Qed.

(** First [i], then others. *)
Lemma closed_step d d1 d2 i P :
  one_changed d d1 i (closed_entry (fde d i)) -> is_open d i = true -> P i = true ->
  closed_set d1 d2 P -> closed_set d d2 P.
Proof.
  intros [T1 F1 R1 C1 _] Hi HP [F2 R2 C2]. constructor; try congruence. intros j. rewrite F2, !F1.
  assert (is_open d1 j = negb (i =? j) && is_open d j) as ->.
  { unfold is_open. rewrite F1. by destruct (i =? j). }
  destruct (Z.eqb_spec i j) as [<-|]; cbn [negb andb]; [|done]. by rewrite Hi, HP.
Qed.

(** What names the open descriptors the same is the same. *)
Lemma closed_set_ext d d' P Q :
  (forall j, is_open d j = true -> P j = Q j) -> closed_set d d' P -> closed_set d d' Q.
Proof.
  intros H [F R C]. constructor; try done. intros j. rewrite F. destruct (is_open d j) eqn:E; [|done].
  by rewrite H.
Qed.

Lemma last_closed d d1 i e :
  tab_ok d -> one_changed d d1 i e -> fde_file e = None -> fd_lastfile d1 <= fd_lastfile d.
Proof.
  intros T [T1 F1 _ _ _] He. destruct (ft_last d1 (to_fdt d1 T1)) as (L1 & L2 & _).
  destruct (ft_last d (to_fdt d T)) as (L3 & _ & _).
  destruct (Z.le_gt_cases 0 (fd_lastfile d1)) as [Hc|]; [|lia]. apply L2 in Hc.
  apply (to_tidy d1 T1) in Hc. rewrite F1 in Hc. destruct (_ =? _); [done|].
  destruct (fde_file (fde d (fd_lastfile d1))) as [fp|] eqn:E; [|done]. by apply (open_last d _ fp).
Qed.

Section close.
Context (fo_close : Z -> Z).

(** A descriptor and its reference. *)
Lemma close_ok X ft d fd fp :
  local_ok X (ft, d) -> fde_file (fde d fd) = Some fp ->
  exists d' ft', fdfree d fd = Ok d' /\
  fdrop fo_close fp ft = Ok (if refs d fp + X fp =? 1 then fo_close fp else 0, ft') /\
  one_changed d d' fd (closed_entry (fde d fd)) /\ local_ok X (ft', d') /\ files_kept ft ft'.
Proof.
  intros L Hfp. pose proof (lo_tab _ _ L) as T. cbn in T.
  destruct (fdfree_ok d fd fp T Hfp) as (d' & E & O & Q).
  destruct (fdrop_ok fo_close ft _ fp (lo_files _ _ L)) as (ft' & E' & F' & K).
  { by apply (local_file X _ fd). }
  exists d', ft'. split_and!; try done. eapply (local_next X ft d ft' d'); [done|apply O|exact F'|].
  intros q. cbn. rewrite Q. lia.
Qed.

Lemma kern_close_ok X ft d fd :
  local_ok X (ft, d) ->
  match fde_file (fde d fd) with
  | None => kern_close fo_close fd (ft, d) = Ok (EBADF, (ft, d))
  | Some fp =>
      exists ft' d', kern_close fo_close fd (ft, d) = Ok (if refs d fp + X fp =? 1 then fo_close fp else 0, (ft', d')) /\
      fdrop fo_close fp ft = Ok (if refs d fp + X fp =? 1 then fo_close fp else 0, ft') /\
      one_changed d d' fd (closed_entry (fde d fd)) /\ local_ok X (ft', d') /\ files_kept ft ft'
  end.
Proof.
  intros L. pose proof (lo_tab _ _ L) as T. cbn in T. unfold kern_close.
  rewrite fget_locked_ok, bind_Ok by apply T. destruct (fde_file (fde d fd)) as [fp|] eqn:E; [|done].
  destruct (close_ok X ft d fd fp L E) as (d' & ft' & E1 & E2 & O & L' & K).
  rewrite E1, bind_Ok. unfold closefp, closef. rewrite E2, bind_Ok. by exists ft', d'.
Qed.

Lemma kern_close_loop_step X ft d fd fp :
  local_ok X (ft, d) -> fde_file (fde d fd) = Some fp ->
  exists s1, ('(_, s) ← kern_close fo_close fd (ft, d); Ok s) = Ok s1 /\
  one_changed d s1.2 fd (closed_entry (fde d fd)) /\ local_ok X s1 /\ files_kept ft s1.1.
Proof.
  intros L E. pose proof (kern_close_ok X ft d fd L) as K. rewrite E in K.
  destruct K as (ft' & d' & -> & _ & O & L' & K). rewrite bind_Ok. by exists (ft', d').
Qed.

Lemma closefrom_loop_ok X fuel : forall fd s,
  local_ok X s -> 0 <= fd -> Z.max 0 (fd_lastfile s.2 - fd + 1) < Z.of_nat fuel ->
  exists s', closefrom_loop fo_close fuel fd s = Ok s' /\ local_ok X s' /\ files_kept s.1 s'.1 /\
  closed_set s.2 s'.2 (fun j => fd <=? j).
Proof.
  induction fuel as [|fuel IH]; intros fd [ft d] L H0 Hf; cbn [fst snd] in *.
  { lia. }
  pose proof (lo_tab _ _ L) as T. cbn in T. cbn [closefrom_loop snd].
  destruct (Z.leb_spec fd (fd_lastfile d)) as [Hle|Hgt].
  2:{ exists (ft, d). split_and!; try done. apply closed_nothing. intros j [fp Hj]%open_iff.
      apply (open_last d j fp T) in Hj. apply Z.leb_gt. lia. }
  pose proof (last_lt d (to_fdt d T)) as Hlast. rewrite (ofile_ok d fd (to_fdt d T)), bind_Ok by lia.
  destruct (fde_file (fde d fd)) as [fp|] eqn:E.
  - destruct (kern_close_loop_step X ft d fd fp L E) as (s1 & -> & O & L1 & K1). rewrite bind_Ok.
    pose proof (last_closed d s1.2 fd _ T O eq_refl) as Hl1.
    destruct (IH (fd + 1) s1 L1) as (s' & -> & L' & K' & C'); [lia | lia |].
    exists s'. split_and!; [done|done|by etrans|].
    apply (closed_step d s1.2 s'.2 fd _ O); [by apply (open_some d fd fp) | apply Z.leb_refl |].
    revert C'. apply closed_set_ext. intros j Hj. destruct (Z.eqb_spec fd j) as [<-|Hne].
    + unfold is_open in Hj. rewrite (oc_fde _ _ _ _ O), Z.eqb_refl in Hj. by apply bool_decide_eq_true in Hj.
    + destruct (Z.leb_spec (fd + 1) j), (Z.leb_spec fd j); try done; lia.
  - rewrite bind_Ok. destruct (IH (fd + 1) (ft, d) L) as (s' & -> & L' & K' & C'); [lia | cbn; lia |].
    exists s'. split_and!; try done. revert C'. apply closed_set_ext. intros j Hj.
    destruct (Z.eqb_spec fd j) as [<-|Hne]; [by rewrite (open_none d fd E) in Hj|].
    destruct (Z.leb_spec (fd + 1) j), (Z.leb_spec fd j); try done; lia.
Qed.

Lemma closefrom_ok X s lowfd :
  local_ok X s ->
  exists s', sys_closefrom fo_close lowfd s = Ok s' /\ local_ok X s' /\ files_kept s.1 s'.1 /\
  closed_set s.2 s'.2 (fun j => lowfd <=? j).
Proof.
  intros L. unfold sys_closefrom. cbv zeta. pose proof (to_fdt _ (lo_tab _ _ L)) as T.
  destruct (ft_last _ T) as (Hl & _ & _).
  destruct (closefrom_loop_ok X (S (Z.to_nat (fd_lastfile s.2 + 1))) (if lowfd <? 0 then 0 else lowfd) s L)
    as (s' & E & L' & K' & C').
  { destruct (Z.ltb_spec lowfd 0); lia. }
  { destruct (Z.ltb_spec lowfd 0); lia. }
  exists s'. split_and!; try done. revert C'. apply closed_set_ext. intros j [fp Hj]%open_iff.
  apply (open_range _ j fp (lo_tab _ _ L)) in Hj.
  destruct (Z.ltb_spec lowfd 0); [|done]. destruct (Z.leb_spec 0 j), (Z.leb_spec lowfd j); try done; lia.
Qed.

(** ** Exec *)

(** Closed by an exec: marked so, or a message queue. *)
Definition on_exec (ft : ftab) (d : filedesc) (j : Z) : bool :=
  match fde_file (fde d j) with
  | Some fp =>
      match ft_files ft !! fp with
      | Some f => (f_type f =? DTYPE_MQUEUE) || flag_set (fde_flags (fde d j)) UF_EXCLOSE
      | None => false
      end
  | None => false
  end.

Lemma local_get X ft d fd fp :
  local_ok X (ft, d) -> fde_file (fde d fd) = Some fp -> exists f, get_file ft fp = Ok f /\ ft_files ft !! fp = Some f.
Proof.
  intros L E. destruct (files_get ft _ fp (lo_files _ _ L)) as (f & H1 & H2 & _); [|by exists f].
  by apply (local_file X _ fd).
Qed.

Lemma on_exec_kept X ft d ft1 d1 j :
  local_ok X (ft1, d1) -> files_kept ft ft1 -> fde d1 j = fde d j -> is_open d1 j = true ->
  on_exec ft1 d1 j = on_exec ft d j.
Proof.
  intros L1 K E [fp Hj]%open_iff. unfold on_exec. rewrite <- E, Hj.
  destruct (local_get X ft1 d1 j fp L1 Hj) as (f1 & _ & Hf1). rewrite Hf1.
  apply K in Hf1 as (f & -> & Hs). unfold same_file, set_count in Hs. by injection Hs as -> _ _.
Qed.

Lemma closeexec_loop_ok X fuel : forall i s,
  local_ok X s -> 0 <= i -> Z.max 0 (fd_lastfile s.2 - i + 1) < Z.of_nat fuel ->
  exists s', closeexec_loop fo_close fuel i s = Ok s' /\ local_ok X s' /\ files_kept s.1 s'.1 /\
  closed_set s.2 s'.2 (fun j => (i <=? j) && on_exec s.1 s.2 j).
Proof.
  induction fuel as [|fuel IH]; intros i [ft d] L H0 Hf; cbn [fst snd] in *; [lia|].
  pose proof (lo_tab _ _ L) as T. cbn in T. cbn [closeexec_loop].
  destruct (Z.leb_spec i (fd_lastfile d)) as [Hle|Hgt].
  2:{ exists (ft, d). split_and!; try done. apply closed_nothing. intros j [fp Hj]%open_iff.
      apply (open_last d j fp T) in Hj. apply andb_false_iff. left. apply Z.leb_gt. lia. }
  pose proof (last_lt d (to_fdt d T)) as Hlast. rewrite (ofile_ok d i (to_fdt d T)), bind_Ok by lia.
  assert (forall s1, local_ok X s1 -> files_kept ft s1.1 -> fd_lastfile s1.2 <= fd_lastfile d ->
    exists s', closeexec_loop fo_close fuel (i + 1) s1 = Ok s' /\ local_ok X s' /\ files_kept ft s'.1 /\
    closed_set s1.2 s'.2 (fun j => (i + 1 <=? j) && on_exec s1.1 s1.2 j)) as Hnext.
  { intros s1 L1 K1 Hl. destruct (IH (i + 1) s1 L1) as (s' & E & L' & K' & C'); [lia | lia |].
    exists s'. split_and!; [done|done|by etrans|done]. }
  assert (on_exec ft d i = false -> forall s1, s1 = (ft, d) ->
    exists s', closeexec_loop fo_close fuel (i + 1) s1 = Ok s' /\ local_ok X s' /\ files_kept ft s'.1 /\
    closed_set d s'.2 (fun j => (i <=? j) && on_exec ft d j)) as Hskip.
  { intros Hi s1 ->. destruct (Hnext (ft, d) L ltac:(reflexivity) ltac:(cbn; lia)) as (s' & E & L' & K' & C').
    exists s'. split_and!; try done. revert C'. apply closed_set_ext. intros j Hj. cbn [fst snd].
    destruct (Z.eqb_spec i j) as [<-|Hne]; [by rewrite Hi, !andb_false_r|].
    destruct (Z.leb_spec (i + 1) j), (Z.leb_spec i j); try done; lia. }
  destruct (fde_file (fde d i)) as [fp|] eqn:E.
  2:{ rewrite bind_Ok. apply Hskip; [|done]. unfold on_exec. by rewrite E. }
  destruct (local_get X ft d i fp L E) as (f & Hg & Hf'). rewrite Hg, bind_Ok.
  assert (on_exec ft d i = (f_type f =? DTYPE_MQUEUE) || flag_set (fde_flags (fde d i)) UF_EXCLOSE) as Hi.
  { unfold on_exec. by rewrite E, Hf'. }
  rewrite <- Hi. destruct (on_exec ft d i) eqn:Ei; [|rewrite bind_Ok; by apply Hskip].
  destruct (close_ok X ft d i fp L E) as (d1 & ft1 & -> & E1 & O & L1 & K1). rewrite bind_Ok.
  unfold closefp, closef. rewrite E1, !bind_Ok.
  destruct (Hnext (ft1, d1) L1 K1 (last_closed d d1 i _ T O eq_refl)) as (s' & -> & L' & K' & C').
  exists s'. split_and!; try done.
  apply (closed_step d d1 s'.2 i _ O); [by apply (open_some d i fp) | by rewrite Z.leb_refl, Ei |].
  revert C'. apply closed_set_ext. intros j Hj. cbn [fst snd].
  destruct (Z.eqb_spec i j) as [<-|Hne].
  { unfold is_open in Hj. rewrite (oc_fde _ _ _ _ O), Z.eqb_refl in Hj. by apply bool_decide_eq_true in Hj. }
  rewrite (on_exec_kept X ft d ft1 d1 j L1 K1); [| |done].
  - destruct (Z.leb_spec (i + 1) j), (Z.leb_spec i j); try done; lia.
  - rewrite (oc_fde _ _ _ _ O). by ztest.
Qed.

Lemma closeexec_ok X s :
  local_ok X s -> fd_refcnt s.2 = 1 ->
  exists s', fdcloseexec fo_close s = Ok s' /\ local_ok X s' /\ files_kept s.1 s'.1 /\
  closed_set s.2 s'.2 (on_exec s.1 s.2).
Proof.
  intros L Hr. unfold fdcloseexec. rewrite Hr. cbn [Z.eqb Pos.eqb require]. rewrite bind_Ok.
  destruct (ft_last _ (to_fdt _ (lo_tab _ _ L))) as (Hl & _ & _).
  destruct (closeexec_loop_ok X (S (Z.to_nat (fd_lastfile s.2 + 1))) 0 s L) as (s' & E & L' & K' & C'); [lia | lia |].
  exists s'. split_and!; try done. revert C'. apply closed_set_ext. intros j [fp Hj]%open_iff.
  apply (open_range _ j fp (lo_tab _ _ L)) in Hj. by ztest.
Qed.
End close.

(** The commands on one descriptor: its flags, the limits of its capability,
    and its file taken for use. *)

(** [d'] is [d] but for the capability and the flags of the descriptor [fd]. *)
Record same_files (d d' : filedesc) (fd : Z) (caps : filecaps) (flags : Z) : Prop := {
  sf_changed : one_changed d d' fd (MkFde (fde_file (fde d fd)) caps flags);
  sf_refs : forall q, refs d' q = refs d q
}.

Lemma same_files_id d fd : tab_ok d -> same_files d d fd (fde_caps (fde d fd)) (fde_flags (fde d fd)).
Proof.
  intros T. constructor; [|done].
  assert (MkFde (fde_file (fde d fd)) (fde_caps (fde d fd)) (fde_flags (fde d fd)) = fde d fd) as ->
    by (by destruct (fde d fd)).
  by apply unchanged_entry.
Qed.

Lemma put_same_files d fd fp caps flags :
  tab_ok d -> fde_file (fde d fd) = Some fp -> caps_ok caps ->
  exists d', put_ofile d fd (MkFde (fde_file (fde d fd)) caps flags) = Ok d' /\ same_files d d' fd caps flags.
Proof.
  intros T E Hc. destruct (rewrite_entry d fd (MkFde (fde_file (fde d fd)) caps flags) fp T E E Hc) as (d' & E' & O & Q).
  exists d'. split; [done|]. by constructor.
Qed.

(** ** Limits *)

Lemma limit_fde_ok f fd d :
  tab_ok d ->
  (forall c, caps_ok c -> exists error c', f c = Ok (error, c') /\ caps_ok c' /\ caps_le c' c /\
     (error <> 0 -> c' = c)) ->
  match fde_file (fde d fd) with
  | None => limit_fde f fd d = Ok (EBADF, d)
  | Some _ =>
      exists error c' d', f (fde_caps (fde d fd)) = Ok (error, c') /\ limit_fde f fd d = Ok (error, d') /\
      same_files d d' fd c' (fde_flags (fde d fd)) /\ caps_le c' (fde_caps (fde d fd)) /\
      (error <> 0 -> c' = fde_caps (fde d fd))
  end.
Proof.
  intros T Hf. unfold limit_fde. rewrite fget_locked_ok, bind_Ok by apply T.
  destruct (fde_file (fde d fd)) as [fp|] eqn:E; [|done].
  rewrite (ofile_ok d fd (to_fdt d T) (open_range d fd fp T E)), bind_Ok.
  destruct (Hf _ (to_caps d T fd fp E)) as (error & c' & Ec & Hc & Hle & He). rewrite Ec, bind_Ok.
  destruct (put_same_files d fd fp c' (fde_flags (fde d fd)) T E Hc) as (d' & -> & S). rewrite bind_Ok.
  by exists error, c', d'.
Qed.

(** The words a call copies in. *)
Definition raw_rights (r : cap_rights_t) : Prop := zlength r = 2 /\ forall i, 0 <= i < 2 -> 0 <= zget r i < 2 ^ 64.

Lemma sys_cap_rights_limit_ok fd rights d :
  tab_ok d -> raw_rights rights ->
  exists error d', sys_cap_rights_limit fd rights d = Ok (error, d') /\
  (error <> 0 -> same_files d d' fd (fde_caps (fde d fd)) (fde_flags (fde d fd))) /\
  (error = 0 <-> rights_ok rights /\ fde_file (fde d fd) <> None /\ rights_sub rights (fc_rights (fde_caps (fde d fd)))) /\
  (error = 0 -> exists c', same_files d d' fd c' (fde_flags (fde d fd)) /\ fc_rights c' = rights /\
     caps_le c' (fde_caps (fde d fd))).
Proof.
  intros T [Hl Hw]. unfold sys_cap_rights_limit. change CAP_RIGHTS_VERSION_00 with 0.
  assert (forall error, error <> 0 -> ~ rights_ok rights \/ fde_file (fde d fd) = None ->
    exists error' d', Ok (error, d) = Ok (error', d') /\
    (error' <> 0 -> same_files d d' fd (fde_caps (fde d fd)) (fde_flags (fde d fd))) /\
    (error' = 0 <-> rights_ok rights /\ fde_file (fde d fd) <> None /\ rights_sub rights (fc_rights (fde_caps (fde d fd)))) /\
    (error' = 0 -> exists c', same_files d d' fd c' (fde_flags (fde d fd)) /\ fc_rights c' = rights /\
       caps_le c' (fde_caps (fde d fd)))) as Hbad.
  { intros error He H. exists error, d. split; [done|]. split; [intros _; by apply same_files_id|].
    split; [|done]. split; [done|]. intros (H1 & H2 & _). by destruct H. }
  destruct (Z.eqb_spec (CAPVER rights) 0) as [Ev|Ev]; cbn [negb].
  2:{ apply Hbad; [done|]. left. intros Hr. by apply rights_ver in Hr. }
  destruct (is_valid_spec rights Hl Hw) as (v & -> & Hv). rewrite bind_Ok. destruct v; cbn [negb].
  2:{ apply Hbad; [done|]. left. intros Hr. by apply Hv in Hr. }
  assert (rights_ok rights) as Hr by by apply Hv.
  unfold kern_cap_rights_limit.
  pose proof (limit_fde_ok (limit_rights rights) fd d T) as L.
  destruct (fde_file (fde d fd)) as [fp|] eqn:E.
  2:{ rewrite L; [apply Hbad; [done | by right]|]. intros c Hc.
      destruct (limit_rights_spec c rights Hc Hr) as (error & c' & ? & ? & ? & _ & _ & _ & ?). by exists error, c'. }
  destruct L as (error & c' & d' & Ef & -> & S & Hle & Hne).
  { intros c Hc. destruct (limit_rights_spec c rights Hc Hr) as (error & c' & ? & ? & ? & _ & _ & _ & ?).
    by exists error, c'. }
  destruct (limit_rights_spec (fde_caps (fde d fd)) rights (to_caps d T fd fp E) Hr)
    as (error2 & c2 & Ef2 & _ & _ & _ & Hs & Hrt & _). rewrite Ef in Ef2. injection Ef2 as <- <-.
  exists error, d'. split; [done|]. split_and!.
  - intros He. by rewrite (Hne He) in S.
  - rewrite Hs. split; [intros H; by split; [|split] | tauto].
  - intros He. exists c'. split_and!; [done | by apply Hrt | done].
Qed.

Lemma sys_cap_ioctls_limit_ok fd cmds d :
  tab_ok d ->
  exists error d' c', sys_cap_ioctls_limit fd cmds d = Ok (error, d') /\
  same_files d d' fd c' (fde_flags (fde d fd)) /\ caps_le c' (fde_caps (fde d fd)).
Proof.
  intros T. unfold sys_cap_ioctls_limit. cbv zeta.
  assert (forall error : Z, exists error' d' c', Ok (error, d) = Ok (error', d') /\
    same_files d d' fd c' (fde_flags (fde d fd)) /\ caps_le c' (fde_caps (fde d fd))) as Hid.
  { intros error. exists error, d, (fde_caps (fde d fd)). split_and!; [done | by apply same_files_id | done]. }
  destruct (Z.ltb_spec 256 (zlength cmds)) as [_|_]; [apply Hid|].
  set (arg := if zlength cmds =? 0 then None else Some cmds). assert (ioctls_arg arg (zlength cmds)) as Ha.
  { unfold arg. destruct (Z.eqb_spec (zlength cmds) 0); [done|]. split; [unfold zlength in *; lia | done]. }
  unfold kern_cap_ioctls_limit. pose proof (limit_fde_ok (limit_ioctls arg (zlength cmds)) fd d T) as L.
  destruct (fde_file (fde d fd)) as [fp|] eqn:E.
  2:{ rewrite L; [apply Hid|]. intros c Hc. by apply limit_ioctls_spec. }
  destruct L as (error & c' & d' & Ef & -> & S & Hle & Hne); [|by exists error, d', c'].
  intros c Hc. by apply limit_ioctls_spec.
Qed.

Lemma sys_cap_fcntls_limit_ok fd fcntlrights d :
  tab_ok d ->
  exists error d' c', sys_cap_fcntls_limit fd fcntlrights d = Ok (error, d') /\
  same_files d d' fd c' (fde_flags (fde d fd)) /\ caps_le c' (fde_caps (fde d fd)).
Proof.
  intros T. unfold sys_cap_fcntls_limit. cbv zeta.
  assert (forall error : Z, exists error' d' c', Ok (error, d) = Ok (error', d') /\
    same_files d d' fd c' (fde_flags (fde d fd)) /\ caps_le c' (fde_caps (fde d fd))) as Hid.
  { intros error. exists error, d, (fde_caps (fde d fd)). split_and!; [done | by apply same_files_id | done]. }
  destruct (Z.eqb_spec (Z.land (u32 fcntlrights) (Z.lnot CAP_FCNTL_ALL)) 0) as [Hz|Hz]; cbn [negb]; [|apply Hid].
  assert (0 <= u32 fcntlrights) as H0 by (unfold u32; dlia).
  pose proof (limit_fde_ok (fun c => Ok (limit_fcntls (u32 fcntlrights) c)) fd d T) as L.
  assert (forall c, caps_ok c -> exists error c', Ok (limit_fcntls (u32 fcntlrights) c) = Ok (error, c') /\
    caps_ok c' /\ caps_le c' c /\ (error <> 0 -> c' = c)) as Hf.
  { intros c Hc. destruct (limit_fcntls_spec c (u32 fcntlrights) Hc H0 Hz) as (error & c' & E & R).
    exists error, c'. by rewrite E. }
  destruct (fde_file (fde d fd)) as [fp|] eqn:E; [|rewrite L; [apply Hid | done]].
  destruct (L Hf) as (error & c' & d' & Ef & -> & S & Hle & Hne). by exists error, d', c'.
Qed.

(** ** Flags *)

Lemma getfd_ok maxfd fd arg ft d fo_close :
  tab_ok d ->
  kern_fcntl maxfd fd F_GETFD arg (ft, d) fo_close =
  Some (Ok (match fde_file (fde d fd) with
            | None => inl EBADF
            | Some _ => inr (if flag_set (fde_flags (fde d fd)) UF_EXCLOSE then FD_CLOEXEC else 0)
            end, (ft, d))).
Proof.
  intros T. unfold kern_fcntl. cbn [Z.eqb Pos.eqb F_GETFD F_DUPFD F_DUPFD_CLOEXEC F_DUP2FD F_DUP2FD_CLOEXEC].
  rewrite fget_locked_ok, bind_Ok by apply T. destruct (fde_file (fde d fd)) as [fp|] eqn:E; [|done].
  by rewrite (ofile_ok d fd (to_fdt d T) (open_range d fd fp T E)), bind_Ok.
Qed.

Lemma setfd_ok maxfd fd arg ft d fo_close :
  tab_ok d ->
  exists r d', kern_fcntl maxfd fd F_SETFD arg (ft, d) fo_close = Some (Ok (r, (ft, d'))) /\
  match fde_file (fde d fd) with
  | None => r = inl EBADF /\ d' = d
  | Some _ => r = inr 0 /\ same_files d d' fd (fde_caps (fde d fd))
                (Z.lor (Z.land (fde_flags (fde d fd)) (Z.lnot UF_EXCLOSE))
                   (if flag_set arg FD_CLOEXEC then UF_EXCLOSE else 0))
  end.
Proof.
  intros T. unfold kern_fcntl. cbn [Z.eqb Pos.eqb F_SETFD F_GETFD F_DUPFD F_DUPFD_CLOEXEC F_DUP2FD F_DUP2FD_CLOEXEC].
  rewrite fget_locked_ok, bind_Ok by apply T. destruct (fde_file (fde d fd)) as [fp|] eqn:E; [|by eexists _, _].
  rewrite (ofile_ok d fd (to_fdt d T) (open_range d fd fp T E)), bind_Ok.
  set (flags := Z.lor _ _).
  destruct (put_same_files d fd fp (fde_caps (fde d fd)) flags T E (to_caps d T fd fp E)) as (d' & -> & S).
  rewrite bind_Ok. by eexists _, d'.
Qed.

(** ** Use *)

(** A descriptor is looked up with the rights that a call needs. *)
Lemma fget_unlocked_ok X ft d fd need :
  local_ok X (ft, d) -> rights_ok need -> (forall q, refs d q + X q < UINT_MAX) ->
  exists r ft', fget_unlocked fd need (ft, d) = Ok (r, ft') /\
  match fde_file (fde d (u32 fd)) with
  | None => r = inl EBADF /\ ft' = ft
  | Some fp => if bool_decide (r = inr fp) then
        rights_sub need (fc_rights (fde_caps (fde d (u32 fd)))) /\ fhold fp ft = Ok ft'
      else r = inl ENOTCAPABLE /\ ~ rights_sub need (fc_rights (fde_caps (fde d (u32 fd)))) /\ ft' = ft
  end.
Proof.
  intros L Hn Hroom. pose proof (lo_tab _ _ L) as T. cbn in T. unfold fget_unlocked.
  assert (0 <= u32 fd) as H0 by (unfold u32; dlia).
  destruct (Z.leb_spec (fd_nfiles d) (u32 fd)) as [Hge|Hlt].
  { rewrite fde_beyond by (done || apply T). by eexists _, _. }
  rewrite (ofile_ok d _ (to_fdt d T)), bind_Ok by lia.
  destruct (fde_file (fde d (u32 fd))) as [fp|] eqn:E; [|by eexists _, _].
  destruct (cap_check_spec _ need (co_rights _ (to_caps d T _ fp E)) Hn) as (error & -> & He & Hs).
  rewrite bind_Ok. destruct He as [-> | ->].
  2:{ cbn [Z.eqb negb ENOTCAPABLE]. eexists _, _. split; [reflexivity|]. rewrite bool_decide_false by done.
      split_and!; [done| |done]. intros H. by apply Hs in H. }
  cbn [Z.eqb negb]. destruct (files_get ft _ fp (lo_files _ _ L)) as (f & Hg & Hf & Hc).
  { by apply (local_file X _ (u32 fd)). }
  pose proof (local_file X _ _ _ L E) as Hpos. cbn [fst snd] in Hpos, Hc.
  rewrite Hg, bind_Ok, require_true, bind_Ok by (apply negb_true_iff, Z.eqb_neq; lia).
  eexists _, _. split; [reflexivity|]. rewrite bool_decide_true by done. split; [by apply Hs|].
  unfold fhold. rewrite Hg, bind_Ok, require_true, bind_Ok; [done|]. apply Z.ltb_lt. rewrite Hc. apply Hroom.
Qed.

(** Sockets: the calls that make one or two descriptors, and that leave
    nothing behind when they fail. *)

(** An open socket with one reference. *)
Definition socket_file (type : Z) : file := MkFile 1 DTYPE_SOCKET (socket_fflag type) DFLAG_PASSABLE.

Definition socket_entry (fp type : Z) : filedescent := new_entry fp (socket_oflag type) None.

Lemma free_none d low fd : tab_ok d -> lowest_free d low fd -> fde_file (fde d fd) = None.
Proof. intros T (_ & H & _). by apply (tab_free d fd T). Qed.

Section socket.
Context (fo_close : Z -> Z).

(** What a call that made one socket, or failed, leaves. *)
Definition socket_outcome (maxfd fp type : Z) (s : ftab * filedesc) (r : Z + Z) (s' : ftab * filedesc) : Prop :=
  match r with
  | inl error => error <> 0 /\ s'.1 = s.1 /\ same_open s.2 s'.2
  | inr fd => fd < maxfd /\ lowest_free s.2 0 fd /\ s'.1 = with_file fp (socket_file type) s.1 /\
              one_changed s.2 s'.2 fd (socket_entry fp type)
  end.

Lemma sys_socket_ok maxfiles privileged maxfd fp type socreate ft d :
  tab_ok d -> maxfd_ok maxfd -> no_file ft fp ->
  exists r s', sys_socket fo_close maxfiles privileged maxfd fp type socreate (ft, d) = Ok (r, s') /\
  socket_outcome maxfd fp type (ft, d) r s' /\ (forall fd, r = inr fd -> socreate = 0).
Proof.
  intros T Hmax Hfp. unfold sys_socket.
  pose proof (falloc_caps_ok fo_close ft d maxfiles privileged maxfd fp (socket_oflag type) None true T Hmax I Hfp) as A.
  destruct (no_files_left maxfiles privileged ft).
  { rewrite A, bind_Ok. eexists _, _. split; [reflexivity|]. split; [|done].
    split; [done|]. split; [done|]. by apply same_open_refl. }
  destruct A as (fd & Hl & A). destruct (Z.leb_spec maxfd fd).
  { rewrite A, bind_Ok. eexists _, _. split; [reflexivity|]. split; [|done].
    split; [done|]. split; [done|]. by apply same_open_refl. }
  destruct A as (d1 & -> & O). rewrite bind_Ok. cbn [fst snd].
  destruct (Z.eqb_spec socreate 0) as [->|Hs]; cbn [negb].
  - unfold new_file. rewrite finit_with, bind_Ok, fdrop_with, bind_Ok by done. eexists _, _. split; [reflexivity|]. split; [|done]. by split_and!.
  - destruct (undo_falloc fo_close ft d d1 d1 fd fp _ _ Hfp O (free_none d 0 fd T Hl) (same_open_refl d1 (oc_tab _ _ _ _ O)))
      as (d3 & E1 & E2 & S).
    rewrite E1, bind_Ok. cbn [fst snd]. rewrite E2, bind_Ok. eexists _, _. split; [reflexivity|]. by split.
Qed.

(** ** A pair *)

(** Two descriptors, or what was open before. *)
Definition pair_outcome (maxfd fp1 fp2 type : Z) (s : ftab * filedesc) (r : Z + Z * Z) (s' : ftab * filedesc) : Prop :=
  match r with
  | inl error => error <> 0 /\ s'.1 = s.1 /\ same_open s.2 s'.2
  | inr (fd1, fd2) => exists d1,
      fd1 < maxfd /\ fd2 < maxfd /\ lowest_free s.2 0 fd1 /\ lowest_free d1 0 fd2 /\
      one_changed s.2 d1 fd1 (socket_entry fp1 type) /\ one_changed d1 s'.2 fd2 (socket_entry fp2 type) /\
      s'.1 = with_file fp2 (socket_file type) (with_file fp1 (socket_file type) s.1)
  end.

Lemma kern_socketpair_ok maxfiles privileged maxfd fp1 fp2 type socreate1 socreate2 soconnect1 soconnect2 ft d :
  tab_ok d -> maxfd_ok maxfd -> no_file ft fp1 -> no_file ft fp2 -> fp1 <> fp2 ->
  exists r s', kern_socketpair fo_close maxfiles privileged maxfd fp1 fp2 type
    socreate1 socreate2 soconnect1 soconnect2 (ft, d) = Ok (r, s') /\
  pair_outcome maxfd fp1 fp2 type (ft, d) r s'.
Proof.
  intros T Hmax Hf1 Hf2 Hne. unfold kern_socketpair. cbv zeta.
  assert (forall error, error <> 0 -> exists r s', Ok (@inl Z (Z * Z) error, (ft, d)) = Ok (r, s') /\
    pair_outcome maxfd fp1 fp2 type (ft, d) r s') as Hsame.
  { intros error He. eexists _, _. split; [reflexivity|]. split; [done|]. split; [done|]. by apply same_open_refl. }
  destruct (Z.eqb_spec socreate1 0) as [_|Hs]; cbn [negb]; [|by apply Hsame].
  destruct (Z.eqb_spec socreate2 0) as [_|Hs]; cbn [negb]; [|by apply Hsame].
  pose proof (falloc_caps_ok fo_close ft d maxfiles privileged maxfd fp1 (socket_oflag type) None true T Hmax I Hf1) as A.
  destruct (no_files_left maxfiles privileged ft); [rewrite A, bind_Ok; by apply Hsame|].
  destruct A as (fd1 & Hl1 & A). destruct (Z.leb_spec maxfd fd1) as [_|Hm1]; [rewrite A, bind_Ok; by apply Hsame|].
  destruct A as (d1 & -> & O1). rewrite bind_Ok.
  pose proof (oc_tab _ _ _ _ O1) as T1. pose proof (free_none d 0 fd1 T Hl1) as N1.
  assert (forall error d2, error <> 0 -> same_open d1 d2 ->
    exists r s', (s ← fdclose fo_close fp1 fd1 (new_file fp1 2 ft, d2);
      '(_, ft) ← fdrop fo_close fp1 s.1;
      Ok (@inl Z (Z * Z) error, (ft, s.2))) = Ok (r, s') /\ pair_outcome maxfd fp1 fp2 type (ft, d) r s') as Hfree3.
  { intros error d2 He S.
    destruct (undo_falloc fo_close ft d d1 d2 fd1 fp1 _ _ Hf1 O1 N1 S) as (d3 & E1 & E2 & S3).
    rewrite E1, bind_Ok. cbn [fst snd]. rewrite E2, bind_Ok. eexists _, _. split; [reflexivity|]. by split. }
  assert (no_file (new_file fp1 2 ft) fp2) as Hf2' by (unfold no_file; cbn; by rewrite lookup_insert_ne).
  pose proof (falloc_caps_ok fo_close (new_file fp1 2 ft) d1 maxfiles privileged maxfd fp2 (socket_oflag type) None true
    T1 Hmax I Hf2') as A.
  destruct (no_files_left maxfiles privileged (new_file fp1 2 ft)).
  { rewrite A, bind_Ok. apply Hfree3; [done | by apply same_open_refl]. }
  destruct A as (fd2 & Hl2 & A). destruct (Z.leb_spec maxfd fd2) as [_|Hm2].
  { rewrite A, bind_Ok. apply Hfree3; [done | by apply same_open_refl]. }
  destruct A as (d2 & -> & O2). rewrite bind_Ok. cbn [fst snd].
  pose proof (oc_tab _ _ _ _ O2) as T2. pose proof (free_none d1 0 fd2 T1 Hl2) as N2.
  assert (forall error, error <> 0 ->
    exists r s', (s ← fdclose fo_close fp2 fd2 (new_file fp2 2 (new_file fp1 2 ft), d2);
      '(_, ft) ← fdrop fo_close fp2 s.1;
      s ← fdclose fo_close fp1 fd1 (ft, s.2);
      '(_, ft) ← fdrop fo_close fp1 s.1;
      Ok (@inl Z (Z * Z) error, (ft, s.2))) = Ok (r, s') /\ pair_outcome maxfd fp1 fp2 type (ft, d) r s') as Hfree4.
  { intros error He.
    destruct (undo_falloc fo_close (new_file fp1 2 ft) d1 d2 d2 fd2 fp2 _ _ Hf2' O2 N2 (same_open_refl d2 T2))
      as (d3 & E1 & E2 & S3).
    rewrite E1, bind_Ok. cbn [fst snd]. rewrite E2, bind_Ok. by apply Hfree3. }
  destruct (Z.eqb_spec soconnect1 0) as [_|Hc]; cbn [negb]; [|by apply Hfree4].
  destruct (socket_type type =? SOCK_DGRAM), (Z.eqb_spec soconnect2 0) as [_|Hc]; cbn [negb andb];
    try (by apply Hfree4).
  all: unfold new_file; rewrite (with_file_swap fp2 fp1), finit_with, bind_Ok, (with_file_swap fp1 fp2),
    finit_with, bind_Ok, (with_file_swap fp2 fp1), fdrop_with, bind_Ok, (with_file_swap fp1 fp2), fdrop_with, bind_Ok
    by done; eexists _, _; (split; [reflexivity|]); exists d1; by split_and!.
Qed.

(** ** The counts *)

Lemma pair_local X maxfd fp1 fp2 type ft d r s' :
  local_ok X (ft, d) -> no_file ft fp1 -> no_file ft fp2 -> fp1 <> fp2 ->
  pair_outcome maxfd fp1 fp2 type (ft, d) r s' -> local_ok X s'.
Proof.
  intros L Hf1 Hf2 Hne H. destruct s' as [ft' d']. destruct r as [error|[fd1 fd2]]; cbn in H.
  - destruct H as (_ & -> & S). eapply (local_next X ft d ft d'); [done | apply S | apply (lo_files _ _ L)|].
    intros q. cbn. by rewrite (so_refs _ _ S).
  - destruct H as (d1 & _ & _ & H1 & H2 & O1 & O2 & ->). pose proof (lo_tab _ _ L) as T. cbn in T.
    assert (no_file (with_file fp1 (socket_file type) ft) fp2) as Hf2' by (unfold no_file; cbn; by rewrite lookup_insert_ne).
    eapply (local_next X ft d); [done | apply O2 | |].
    + apply with_file_ok; [|done|done]. apply with_file_ok; [apply (lo_files _ _ L)|done|done].
    + intros q. cbn. rewrite (oc_refs _ _ _ _ O2), (oc_refs _ _ _ _ O1).
      rewrite (points_none (fde d1 fd2)), (points_none (fde d fd1)), !(points_some (socket_entry _ _) _ q eq_refl)
        by ((by eapply free_none; [apply O1|]) || (by eapply free_none)). lia.
Qed.

Lemma sys_socket_local X maxfd fp type ft d r s' :
  local_ok X (ft, d) -> no_file ft fp -> socket_outcome maxfd fp type (ft, d) r s' -> local_ok X s'.
Proof.
  intros L Hf H. destruct s' as [ft' d']. destruct r as [error|fd]; cbn in H.
  - destruct H as (_ & -> & S). eapply (local_next X ft d ft d'); [done | apply S | apply (lo_files _ _ L)|].
    intros q. cbn. by rewrite (so_refs _ _ S).
  - destruct H as (_ & H1 & -> & O). pose proof (lo_tab _ _ L) as T. cbn in T.
    eapply (local_next X ft d); [done | apply O | |].
    + apply with_file_ok; [apply (lo_files _ _ L)|done|done].
    + intros q. cbn. rewrite (oc_refs _ _ _ _ O), (points_none (fde d fd)), (points_some (socket_entry _ _) fp q eq_refl)
        by (by eapply free_none). lia.
Qed.

(** Both descriptors of a pair closed again. *)
Lemma pair_closed d d1 d2 d3 d4 fd1 fd2 e1 e2 :
  one_changed d d1 fd1 e1 -> one_changed d1 d2 fd2 e2 ->
  fde_file (fde d fd1) = None -> fde_file (fde d fd2) = None -> fd1 <> fd2 ->
  one_changed d2 d3 fd1 (closed_entry (fde d2 fd1)) -> one_changed d3 d4 fd2 (closed_entry (fde d3 fd2)) ->
  same_open d d4.
Proof.
  intros [_ F1 R1 C1 Q1] [_ F2 R2 C2 Q2] N1 N2 Hne [_ F3 R3 C3 Q3] [T4 F4 R4 C4 Q4].
  assert (forall j, fd1 <> j -> fd2 <> j -> fde d4 j = fde d j) as Hj.
  { intros j H1%Z.eqb_neq H2%Z.eqb_neq. by rewrite F4, H2, F3, H1, F2, H2, F1, H1. }
  pose proof (proj2 (Z.eqb_neq fd1 fd2) Hne) as H12. pose proof (proj2 (Z.eqb_neq fd2 fd1) ltac:(done)) as H21.
  constructor; [done| | |congruence|congruence|].
  - intros j Hopen. apply Hj; intros ->; done.
  - intros j Hn. destruct (Z.eq_dec fd2 j) as [<-|H2]; [by rewrite F4, Z.eqb_refl|].
    destruct (Z.eq_dec fd1 j) as [<-|H1]; [by rewrite F4, H21, F3, Z.eqb_refl | by rewrite Hj].
  - intros q. rewrite Q4, Q3, Q2, Q1. rewrite (F3 fd2), (F2 fd2), H12, Z.eqb_refl, (F2 fd1), (F1 fd1), (F1 fd2), H12, H21, !Z.eqb_refl.
    rewrite (points_none (fde d fd1)), (points_none (fde d fd2)), !(points_none (closed_entry _)) by done. lia.
Qed.

Lemma sys_socketpair_ok X maxfiles privileged maxfd fp1 fp2 type socreate1 socreate2 soconnect1 soconnect2 copyout ft d :
  local_ok X (ft, d) -> maxfd_ok maxfd -> no_file ft fp1 -> no_file ft fp2 -> fp1 <> fp2 ->
  exists r s', sys_socketpair fo_close maxfiles privileged maxfd fp1 fp2 type
    socreate1 socreate2 soconnect1 soconnect2 copyout (ft, d) = Ok (r, s') /\
  pair_outcome maxfd fp1 fp2 type (ft, d) r s' /\ (forall fds, r = inr fds -> copyout = 0).
Proof.
  intros L Hmax Hf1 Hf2 Hne. pose proof (lo_tab _ _ L) as T. cbn in T. unfold sys_socketpair.
  destruct (kern_socketpair_ok maxfiles privileged maxfd fp1 fp2 type socreate1 socreate2 soconnect1 soconnect2
    ft d T Hmax Hf1 Hf2 Hne) as (r & s2 & -> & P). rewrite bind_Ok.
  destruct r as [error|[fd1 fd2]]; [by eexists _, _|].
  destruct (Z.eqb_spec copyout 0) as [->|Hc]; cbn [negb]; [by eexists _, _|].
  pose proof (pair_local X maxfd fp1 fp2 type ft d _ _ L Hf1 Hf2 Hne P) as L2.
  destruct P as (d1 & Hm1 & Hm2 & H1 & H2 & O1 & O2 & E). destruct s2 as [ft2 d2]. cbn [fst snd] in *.
  pose proof (free_none d 0 fd1 T H1) as N1. pose proof (free_none d1 0 fd2 (oc_tab _ _ _ _ O1) H2) as N2.
  rewrite (oc_fde _ _ _ _ O1) in N2. destruct (Z.eqb_spec fd1 fd2) as [->|H12]; [done|].
  pose proof (kern_close_ok fo_close X ft2 d2 fd1 L2) as K1.
  rewrite (oc_fde _ _ _ _ O2), (oc_fde _ _ _ _ O1), Z.eqb_refl, (proj2 (Z.eqb_neq fd2 fd1)) in K1 by done.
  cbn [fde_file socket_entry new_entry] in K1. destruct K1 as (ft3 & d3 & -> & E3 & O3 & L3 & _). rewrite bind_Ok.
  rewrite E, (with_file_swap fp2 fp1), fdrop_last in E3
    by (done || unfold no_file; cbn; by rewrite lookup_insert_ne).
  injection E3 as _ <-.
  pose proof (kern_close_ok fo_close X _ d3 fd2 L3) as K2.
  rewrite (oc_fde _ _ _ _ O3), (proj2 (Z.eqb_neq fd1 fd2) H12), (oc_fde _ _ _ _ O2), Z.eqb_refl in K2.
  cbn [fde_file socket_entry new_entry] in K2. destruct K2 as (ft4 & d4 & -> & E4 & O4 & L4 & _). rewrite bind_Ok.
  rewrite fdrop_last in E4 by done. injection E4 as _ <-.
  eexists _, _. split; [reflexivity|]. split; [|done]. split; [done|]. split; [done|].
  assert (forall fp, MkFde None zero_caps (fde_flags (socket_entry fp type)) = closed_entry (socket_entry fp type)) as Hce by done.
  eapply (pair_closed d d1 d2 d3 d4 fd1 fd2); try done.
  - rewrite (oc_fde _ _ _ _ O2), (proj2 (Z.eqb_neq fd2 fd1)), (oc_fde _ _ _ _ O1), Z.eqb_refl by done. exact O3.
  - rewrite (oc_fde _ _ _ _ O3), (proj2 (Z.eqb_neq fd1 fd2) H12), (oc_fde _ _ _ _ O2), Z.eqb_refl. exact O4.
Qed.
End socket.
