(* ===== verification/FdCopy.v ===== *)
(** Tables made, copied and released. *)

From stdpp Require Import gmap.
From S2P Require Import Prelude Priv Cred Caps CapsInv Fd FdCalls.
From S2P Require Import FdBits.
From S2P Require Import FdTable.
From S2P Require Import FdFiles.
From S2P Require Import FdLocal.
From S2P Require Import FdProc.

(** ** The empty table *)

Lemma empty_fde j : fde empty_table j = zero_fde.
Proof.
  unfold fde, aget. destruct (j <? 0); [done|]. cbn [fd_ofiles empty_table]. rewrite nth_lookup.
  destruct (replicate _ _ !! _) eqn:E; [|done]. by apply lookup_replicate in E as [-> _].
Qed.

Lemma empty_use j : in_use empty_table j = false.
Proof.
  unfold in_use, used. cbn [fd_map empty_table]. unfold aget. destruct (0 <=? j); [|done]. cbn [andb].
  destruct (NDSLOT j <? 0); [apply Z.bits_0|]. rewrite nth_lookup.
  destruct (replicate _ _ !! _) eqn:E; cbn [default]; [|apply Z.bits_0].
  apply lookup_replicate in E as [-> _]. apply Z.bits_0.
Qed.

Lemma empty_fdt : fdt_ok empty_table.
Proof.
  constructor.
  - cbn. unfold NDFILE. lia.
  - reflexivity.
  - reflexivity.
  - cbn [fd_map empty_table]. apply Forall_replicate. unfold word64. lia.
  - intros j. by rewrite empty_use.
  - intros j. by rewrite empty_fde.
  - cbn [fd_lastfile empty_table]. split_and!; [lia | lia |]. intros j _. apply empty_use.
  - cbn [fd_freefile empty_table]. split_and!; [lia | apply empty_use | lia].
Qed.

Definition fresh_table (d : filedesc) : Prop :=
  (forall j, in_use d j = false) /\ (forall j, fde d j = zero_fde) /\
  fd_lastfile d = -1 /\ fd_freefile d = 0 /\ fd_refcnt d = 1 /\ fd_cmask d = CMASK.

Lemma fresh_refs d q : fresh_table d -> refs d q = 0.
Proof.
  intros (_ & F & _). unfold refs. generalize (Z.to_nat (fd_nfiles d)). intros n.
  induction n as [|n IH]; [done|]. cbn [zsum]. rewrite IH, F. done.
Qed.

Lemma fresh_tab d : fdt_ok d -> fresh_table d -> tab_ok d.
Proof.
  intros T (U & F & _). constructor; [done| |].
  - intros j. by rewrite U.
  - intros j fp. by rewrite F.
Qed.

Lemma fdinit_ok d prepfiles :
  fdt_ok d ->
  exists d', fdinit (Some d) prepfiles = Ok d' /\ fdt_ok d' /\ fresh_table d' /\
  (prepfiles = true -> fd_lastfile d < fd_nfiles d').
Proof.
  intros T. unfold fdinit.
  destruct (prepfiles && (fd_nfiles empty_table <=? fd_lastfile d)) eqn:E.
  - pose proof (last_lt d T). pose proof (ft_nfiles d T). pose proof (ft_last d T) as (L & _ & _).
    apply andb_true_iff in E as [_ E]. cbn in E. apply Z.leb_le in E. unfold NDFILE in E.
    destruct (fdgrowtable_spec empty_table (fd_lastfile d + 1) empty_fdt ltac:(lia))
      as (d' & E' & T' & [S1 S2 S3 S4] & Hn & HL & HF & HU).
    exists d'. split_and!; try done; [|lia]. split_and!; try done.
    + intros j. rewrite HU. apply empty_use.
    + intros j. rewrite S1. apply empty_fde.
  - exists empty_table. split; [done|]. split; [apply empty_fdt|]. split.
    + split_and!; try done; [apply empty_use | apply empty_fde].
    + intros ->. cbn [andb] in E. by apply Z.leb_gt in E.
Qed.

(** ** The copy *)

(** The descriptors that a copy takes over. *)
Definition passes (ft : ftab) (d : filedesc) (j : Z) : bool :=
  match fde_file (fde d j) with
  | Some fp => match ft_files ft !! fp with Some f => flag_set (fo_flags f) DFLAG_PASSABLE | None => false end
  | None => false
  end.

Definition copied (e e' : filedescent) : Prop :=
  fde_file e' = fde_file e /\ fde_flags e' = fde_flags e /\ filecaps_copy (fde_caps e) true = Ok (0, fde_caps e').

(** [d'] has a copy of the descriptors of [d] that [P] names. *)
Definition copy_table (d : filedesc) (P : Z -> bool) (d' : filedesc) : Prop :=
  forall j, if P j then copied (fde d j) (fde d' j) else fde d' j = zero_fde.

Lemma passes_kept ft ft' d j fp f f' :
  fde_file (fde d j) = Some fp -> ft_files ft' !! fp = Some f' -> ft_files ft !! fp = Some f -> same_file f f' ->
  flag_set (fo_flags f') DFLAG_PASSABLE = passes ft d j.
Proof. intros E H' H Hs. unfold passes. rewrite E, H. unfold same_file, set_count in Hs. by injection Hs as _ _ ->. Qed.

(** The table under construction: [m] with the lowest free descriptor only
    noted once there is one below [i]. *)
Record copying (d : filedesc) (P : Z -> bool) (i : Z) (n m : filedesc) : Prop := {
  cp_fdt : fdt_ok m;
  cp_use : forall j, in_use m j = (0 <=? j) && (j <? i) && P j;
  cp_fde : copy_table d (fun j => (0 <=? j) && (j <? i) && P j) m;
  cp_new : n = set_freefile (if fd_freefile m =? i then -1 else fd_freefile m) m;
  cp_room : fd_lastfile d < fd_nfiles m;
  cp_refcnt : fd_refcnt m = 1
}.

Lemma free_le d P i n m : copying d P i n m -> 0 <= i -> fd_freefile m <= i.
Proof.
  intros [T U _ _ _ _] Hi. destruct (ft_free m T) as (_ & _ & H). destruct (Z.le_gt_cases (fd_freefile m) i); [done|].
  specialize (H i ltac:(lia)). rewrite U in H. bool_to_prop. lia.
Qed.

Lemma copying_next_false P i j : 0 <= i -> P i = false ->
  (0 <=? j) && (j <? i + 1) && P j = (0 <=? j) && (j <? i) && P j.
Proof.
  intros Hi HP. destruct (Z.eqb_spec j i) as [->|Hne]; [by rewrite HP, !andb_false_r|].
  f_equal. destruct (Z.ltb_spec j (i + 1)), (Z.ltb_spec j i); try done; lia.
Qed.

Lemma copying_next_true P i j : 0 <= i -> P i = true ->
  (0 <=? j) && (j <? i + 1) && P j = (i =? j) || (0 <=? j) && (j <? i) && P j.
Proof.
  intros Hi HP. destruct (Z.eqb_spec i j) as [<-|Hne]; [rewrite HP; ztest; done|].
  cbn [orb]. f_equal. destruct (Z.ltb_spec j (i + 1)), (Z.ltb_spec j i); try done; lia.
Qed.

Lemma copy_skip d P i n m :
  copying d P i n m -> 0 <= i -> P i = false ->
  copying d P (i + 1) (if fd_freefile n =? -1 then set_freefile i n else n) m.
Proof.
  intros C Hi HP. pose proof (free_le d P i n m C Hi) as Hle. destruct C as [T U F N R Q].
  destruct (ft_free m T) as (F0 & _ & _). constructor; try done.
  - intros j. by rewrite U, copying_next_false.
  - intros j. cbv beta. rewrite copying_next_false by done. apply F.
  - subst n. cbn [fd_freefile set_freefile]. rewrite (proj2 (Z.eqb_neq (fd_freefile m) (i + 1))) by lia.
    destruct (Z.eqb_spec (fd_freefile m) i) as [E|E]; [by rewrite E|].
    by rewrite (proj2 (Z.eqb_neq (fd_freefile m) (-1))) by lia.
Qed.

(** What the loop does with a descriptor it copies. *)
Lemma copy_one d P i n m e :
  copying d P i n m -> 0 <= i <= fd_lastfile d -> P i = true -> copied (fde d i) e -> fde_file (fde d i) <> None ->
  exists n1 n2 m', put_ofile n i e = Ok n1 /\ fdused_init n1 i = Ok n2 /\ copying d P (i + 1) (set_lastfile i n2) m' /\
  forall q, refs m' q = refs m q + points e q.
Proof.
  intros C Hi HP He Hopen. pose proof (free_le d P i n m C ltac:(lia)) as Hle. destruct C as [T U F N R Q].
  destruct (ft_free m T) as (F0 & F1 & F2). destruct (ft_last m T) as (L0 & L1 & L2).
  set (l := aset (fd_ofiles m) i e). set (map := zset (fd_map m) (NDSLOT i) (Z.lor (zget (fd_map m) (NDSLOT i)) (NDBIT i))).
  set (free := if fd_freefile m =? i then i + 1 else fd_freefile m).
  assert (in_use m i = false) as Hu by (rewrite U; by ztest).
  assert (forall j, used map j = (i =? j) || in_use m j) as Hm.
  { intros j. apply used_set; [lia | apply slot_in; [done|lia]]. }
  exists (set_ofiles l n), (set_map map (set_ofiles l n)), (MkFdesc (fd_nfiles m) l map i free (fd_cmask m) (fd_refcnt m)).
  assert (forall j, fde (MkFdesc (fd_nfiles m) l map i free (fd_cmask m) (fd_refcnt m)) j = if i =? j then e else fde m j) as Hj.
  { intros j. unfold fde. cbn [fd_ofiles]. destruct (Z.lt_ge_cases j 0).
    - destruct (Z.eqb_spec i j); [lia|]. unfold aget. by ztest.
    - apply aget_aset; [rewrite (ft_ofiles m T); lia | done]. }
  split_and!.
  - subst n. unfold put_ofile. change (ofile (set_freefile _ m) i) with (ofile m i).
    rewrite (ofile_ok m i T), bind_Ok by lia. done.
  - subst n. unfold fdused_init. change (fdisused (set_ofiles l _) i) with (fdisused m i).
    rewrite (fdisused_ok m i T), bind_Ok, Hu by lia. cbn [negb require]. rewrite bind_Ok.
    cbn [fd_map set_ofiles set_freefile]. rewrite (slot_ok (fd_map m)), bind_Ok by (apply slot_in; [done|lia]). done.
  - constructor; cbn; try done.
    + constructor; cbn [fd_nfiles fd_ofiles fd_map fd_lastfile fd_freefile]; try apply T.
      * unfold l. rewrite zlength_aset. apply T.
      * unfold map. rewrite zlength_aset. apply T.
      * by apply marked_words.
      * intros j. unfold in_use. cbn [fd_map]. rewrite Hm. intros [?|Hj']%orb_true_iff; [bool_to_prop; lia|].
        by apply (ft_range m T).
      * intros j. rewrite Hj. unfold in_use. cbn [fd_map]. rewrite Hm. destruct (Z.eqb_spec i j); [done|].
        intros H. by apply (ft_file m T) in H.
      * unfold in_use. cbn [fd_map]. split_and!; [lia | intros _; rewrite Hm; by ztest |].
        intros j Hlt. rewrite Hm, U. by ztest.
      * unfold in_use. cbn [fd_map]. unfold free. destruct (Z.eqb_spec (fd_freefile m) i) as [E|E].
        -- split_and!; [lia | rewrite Hm, U; by ztest |]. intros j Hr. rewrite Hm.
           destruct (Z.eqb_spec i j); [done|]. apply F2. lia.
        -- split_and!; [lia | rewrite Hm, F1; ztest; done |]. intros j Hr. rewrite Hm, F2 by lia. apply orb_true_r.
    + intros j. unfold in_use. cbn [fd_map]. rewrite Hm, U. symmetry. by apply copying_next_true; [lia|].
    + intros j. cbv beta. rewrite copying_next_true, Hj by (done || lia). specialize (F j). cbv beta in F.
      destruct (Z.eqb_spec i j) as [<-|]; cbn [orb]; [done | exact F].
    + subst n. unfold set_lastfile, set_map, set_ofiles, set_freefile. cbn. f_equal. unfold free.
      destruct (Z.eqb_spec (fd_freefile m) i) as [E|E]; [by rewrite Z.eqb_refl|].
      by rewrite (proj2 (Z.eqb_neq (fd_freefile m) (i + 1))) by lia.
  - intros q. rewrite (refs_put m _ i e q) by (done || lia). rewrite (points_none (fde m i)); [lia|].
    destruct (fde_file (fde m i)) eqn:E; [|done]. apply (file_in_use m i) in E; [|done]. by rewrite Hu in E.
Qed.

Lemma cmask_tab c d : tab_ok d -> tab_ok (set_cmask c d).
Proof. intros [[]]. by constructor. Qed.
Lemma refcnt_tab c d : tab_ok d -> tab_ok (set_refcnt c d).
Proof. intros [[]]. by constructor. Qed.

Lemma refs_le_nfiles d q : fdt_ok d -> refs d q <= fd_nfiles d.
Proof.
  intros T. pose proof (ft_nfiles d T). unfold refs.
  pose proof (zsum_bounds (Z.to_nat (fd_nfiles d)) (fun j => points (fde d j) q) 0 1) as H0.
  assert (forall i, 0 <= i < Z.of_nat (Z.to_nat (fd_nfiles d)) -> 0 <= points (fde d i) q <= 1) as H1
    by (intros i _; apply points_range).
  specialize (H0 H1). lia.
Qed.

Section copy.
Context (d : filedesc) (T : tab_ok d) (ft0 : ftab) (R : Z -> Z).
Context (HR : forall q, 0 <= R q < 2 ^ 31) (Hd : forall j fp, fde_file (fde d j) = Some fp -> 0 < R fp).
Let P := passes ft0 d.

Lemma passable_ok ft m i fp :
  files_ok ft (fun q => R q + refs m q) -> files_kept ft0 ft -> fde_file (fde d i) = Some fp ->
  passable ft fp = Ok (P i).
Proof.
  intros F K E. destruct (files_get ft _ fp F) as (f & Hg & Hf & _).
  { cbv beta. pose proof (refs_nonneg m fp). specialize (Hd i fp E). lia. }
  unfold passable. rewrite Hg, bind_Ok. f_equal. destruct (K fp f Hf) as (f0 & Hf0 & Hs).
  by apply (passes_kept ft0 ft d i fp f0 f).
Qed.

Lemma copy_loop_ok fuel : forall i n m ft,
  copying d P i n m -> files_ok ft (fun q => R q + refs m q) -> files_kept ft0 ft ->
  0 <= i -> i + Z.of_nat fuel = fd_lastfile d + 1 ->
  exists ft' n' m', copy_loop fuel i d (ft, n) = Ok (ft', n') /\ copying d P (fd_lastfile d + 1) n' m' /\
  files_ok ft' (fun q => R q + refs m' q) /\ files_kept ft0 ft'.
Proof.
  induction fuel as [|fuel IH]; intros i n m ft C F K H0 Hi.
  { exists ft, n, m. replace (fd_lastfile d + 1) with i by lia. done. }
  cbn [copy_loop]. cbv zeta. pose proof (last_lt d (to_fdt d T)).
  rewrite (ofile_ok d i (to_fdt d T)), bind_Ok by lia.
  assert (P i = false -> exists ft' n' m',
    copy_loop fuel (i + 1) d (ft, if fd_freefile n =? -1 then set_freefile i n else n) = Ok (ft', n') /\
    copying d P (fd_lastfile d + 1) n' m' /\ files_ok ft' (fun q => R q + refs m' q) /\ files_kept ft0 ft') as Hskip.
  { intros HP. apply (IH _ _ m); [by apply copy_skip | done | done | lia | lia]. }
  destruct (fde_file (fde d i)) as [fp|] eqn:E.
  2:{ rewrite bind_Ok. apply Hskip. unfold P, passes. by rewrite E. }
  rewrite (passable_ok ft m i fp F K E), bind_Ok. destruct (P i) eqn:HP; cbn [negb]; [|rewrite bind_Ok; by apply Hskip].
  destruct (copy_ok _ (to_caps d T i fp E)) as (caps & Ec & Hc & _). rewrite Ec, bind_Ok.
  destruct (copy_one d P i n m (MkFde (Some fp) caps (fde_flags (fde d i))) C ltac:(lia) HP)
    as (n1 & n2 & m' & -> & E2 & C' & Q); [by split_and! | by rewrite E |]. rewrite bind_Ok.
  pose proof (refs_le_nfiles m fp (cp_fdt _ _ _ _ _ C)). pose proof (ft_nfiles m (cp_fdt _ _ _ _ _ C)).
  destruct (fhold_ok ft _ fp F) as (ft1 & -> & F1 & K1).
  { pose proof (refs_nonneg m fp). specialize (Hd i fp E). specialize (HR fp). unfold UINT_MAX. lia. }
  rewrite bind_Ok, E2, !bind_Ok. apply (IH _ _ m'); [done | | by etrans | lia | lia].
  revert F1. apply files_ext. intros q. rewrite Q, (points_some _ fp) by done. lia.
Qed.
End copy.

Lemma fdcopy_ok X ft d :
  local_ok X (ft, d) -> (forall q, refs d q + X q < 2 ^ 31) ->
  exists ft' d', fdcopy ft d = Ok (ft', d') /\ tab_ok d' /\ copy_table d (passes ft d) d' /\
  fd_refcnt d' = 1 /\ fd_cmask d' = fd_cmask d /\
  files_ok ft' (fun q => refs d q + X q + refs d' q) /\ files_kept ft ft'.
Proof.
  intros L Hroom. pose proof (lo_tab _ _ L) as T. cbn in T. pose proof (to_fdt d T) as F. unfold fdcopy.
  destruct (fdinit_ok d true F) as (m & -> & Tm & Hfresh & Hn). rewrite bind_Ok. cbv zeta.
  pose proof Hfresh as (U & Fd & Hl & Hf & Hr & Hc).
  destruct (ft_last d F) as (L0 & _ & _).
  assert (copying d (passes ft d) 0 (set_freefile (-1) m) m) as C.
  { constructor; try done.
    - intros j. rewrite U. destruct (Z.leb_spec 0 j), (Z.ltb_spec j 0); try done; lia.
    - intros j. cbv beta. destruct (Z.leb_spec 0 j), (Z.ltb_spec j 0); cbn [andb]; try apply Fd; lia.
    - by rewrite Hf.
    - by apply Hn. }
  destruct (copy_loop_ok d T ft (fun q => refs d q + X q)) with (fuel := Z.to_nat (fd_lastfile d + 1)) (i := 0)
    (n := set_freefile (-1) m) (m := m) (ft := ft) as (ft' & n' & m' & -> & C' & F' & K'); try done.
  { intros q. pose proof (refs_nonneg d q). pose proof (lo_others _ _ L q). specialize (Hroom q). lia. }
  { intros j fp E. by apply (local_file X _ j fp L E). }
  { eapply files_ext; [|apply (lo_files _ _ L)]. intros q. cbn. rewrite (fresh_refs m q) by done. lia. }
  { lia. }
  rewrite bind_Ok. pose proof C' as [T' U' F2 N' _ R'].
  assert (forall j, (0 <=? j) && (j <? fd_lastfile d + 1) && passes ft d j = passes ft d j) as HP.
  { intros j. destruct (passes ft d j) eqn:E; [|by rewrite andb_false_r]. unfold passes in E.
    destruct (fde_file (fde d j)) as [fp|] eqn:Ef; [|done]. apply (open_last d j fp T) in Ef. by ztest. }
  assert ((if fd_freefile n' =? -1 then set_freefile (fd_lastfile d + 1) n' else n') = m') as ->.
  { subst n'. cbn [fd_freefile set_freefile]. destruct (Z.eqb_spec (fd_freefile m') (fd_lastfile d + 1)) as [E|E].
    - cbn [Z.eqb Pos.eqb]. rewrite <- E. by destruct m'.
    - destruct (ft_free m' T') as (H0 & _). destruct (Z.eqb_spec (fd_freefile m') (-1)); [lia|]. by destruct m'. }
  exists ft', (set_cmask (fd_cmask d) m'). split; [done|].
  assert (copy_table d (passes ft d) m') as Hcopy by (intros j; specialize (F2 j); cbv beta in F2; by rewrite HP in F2).
  split; [|by split_and!]. apply cmask_tab. constructor; [done| |].
  - intros j Hj. rewrite U', HP in Hj. specialize (Hcopy j). rewrite Hj in Hcopy. destruct Hcopy as (E & _).
    rewrite E. unfold passes in Hj. by destruct (fde_file (fde d j)).
  - intros j fp E. specialize (Hcopy j). destruct (passes ft d j); [|by rewrite Hcopy in E].
    destruct Hcopy as (Ef & _ & Ec). rewrite Ef in E. destruct (copy_ok _ (to_caps d T j fp E)) as (c & E' & Hc' & _).
    rewrite Ec in E'. by injection E' as ->.
Qed.

(** ** Release *)

Lemma zsum_prefix g n k : (forall i, 0 <= i -> 0 <= g i) -> zsum n g <= zsum (n + k) g.
Proof.
  intros H. induction k as [|k IH]; [by rewrite Nat.add_0_r|]. rewrite Nat.add_succ_r. cbn [zsum].
  specialize (H (Z.of_nat (n + k)) ltac:(lia)). lia.
Qed.

Section release.
Context (fo_close : Z -> Z) (d : filedesc) (T : tab_ok d) (X : Z -> Z) (HX : forall q, 0 <= X q).

(** The references of the descriptors below [i]. *)
Definition below (i q : Z) : Z := zsum (Z.to_nat i) (fun j => points (fde d j) q).

Lemma below_next i q : 0 <= i -> below (i + 1) q = below i q + points (fde d i) q.
Proof.
  intros Hi. unfold below. replace (Z.to_nat (i + 1)) with (S (Z.to_nat i)) by lia. cbn [zsum].
  rewrite Z2Nat.id by done. lia.
Qed.

Lemma below_le i q : 0 <= i <= fd_nfiles d -> below i q <= refs d q.
Proof.
  intros Hi. unfold below, refs.
  replace (Z.to_nat (fd_nfiles d)) with (Z.to_nat i + Z.to_nat (fd_nfiles d - i))%nat by lia.
  apply zsum_prefix. intros j _. apply points_range.
Qed.

Lemma below_all q : below (fd_lastfile d + 1) q = refs d q.
Proof.
  pose proof (last_lt d (to_fdt d T)). destruct (ft_last d (to_fdt d T)) as (L0 & _ & L).
  unfold below, refs.
  replace (Z.to_nat (fd_nfiles d)) with
    (Z.to_nat (fd_lastfile d + 1) + Z.to_nat (fd_nfiles d - (fd_lastfile d + 1)))%nat by lia.
  rewrite zsum_more; [done|]. intros i Hi. apply points_none. apply (tab_free d i T), L. lia.
Qed.

Lemma release_loop_ok fuel : forall i ft,
  files_ok ft (fun q => X q + (refs d q - below i q)) -> 0 <= i -> i + Z.of_nat fuel = fd_lastfile d + 1 ->
  exists ft', release_loop fo_close fuel i d ft = Ok ft' /\ files_ok ft' X /\ files_kept ft ft'.
Proof.
  pose proof (last_lt d (to_fdt d T)) as Hlast.
  induction fuel as [|fuel IH]; intros i ft F H0 Hi.
  { exists ft. split_and!; [done| |done]. revert F. apply files_ext. intros q.
    replace i with (fd_lastfile d + 1) by lia. rewrite below_all. lia. }
  cbn [release_loop]. rewrite (ofile_ok d i (to_fdt d T)), bind_Ok by lia.
  destruct (fde_file (fde d i)) as [fp|] eqn:E.
  - assert (0 < X fp + (refs d fp - below i fp)) as Hpos.
    { pose proof (below_le (i + 1) fp ltac:(lia)) as Hle. rewrite below_next, (points_some _ fp) in Hle by done.
      unfold hit in Hle. rewrite decide_True in Hle by done. specialize (HX fp). lia. }
    destruct (fdrop_ok fo_close ft _ fp F Hpos) as (ft1 & -> & F1 & K1). rewrite !bind_Ok.
    destruct (IH (i + 1) ft1) as (ft' & -> & F' & K'); [|lia|lia|exists ft'; split_and!; [done|done|by etrans]].
    revert F1. apply files_ext. intros q. rewrite below_next, (points_some _ fp) by done. lia.
  - rewrite bind_Ok. apply IH; [|lia|lia]. revert F. apply files_ext. intros q.
    rewrite below_next, points_none by done. lia.
Qed.
End release.

Lemma fdescfree_fds_ok fo_close X ft d :
  local_ok X (ft, d) ->
  exists ft', fdescfree_fds fo_close d ft = Ok ft' /\ files_ok ft' X /\ files_kept ft ft'.
Proof.
  intros L. pose proof (lo_tab _ _ L) as T. destruct (ft_last d (to_fdt d T)) as (L0 & _).
  unfold fdescfree_fds. apply release_loop_ok; [done | apply L | | lia | lia].
  eapply files_ext; [|apply (lo_files _ _ L)]. intros q. change (below d 0 q) with 0. cbn [snd]. lia.
Qed.
