(* ===== verification/FdWorld.v ===== *)
(** The calls of all processes, one after the other in any order: what a
    state of the system is, what each operation does to it, and the states
    that can be reached. *)

From stdpp Require Import gmap.
From S2P Require Import Prelude Priv Cred Caps CapsInv Fd FdCalls FdProc.
From S2P Require Import FdTable.
From S2P Require Import FdFiles.
From S2P Require Import FdLocal.
From S2P Require Import FdClose.
From S2P Require Import FdLocal.

(** ** Calls on the table of the calling process *)

Inductive call : Type :=
  | Dup (maxfd : Z) (mode : dup_mode) (flags old new : Z)
  | Close (fd : Z)
  | CloseFrom (lowfd : Z)
  | Fcntl (maxfd fd cmd arg : Z)
  | CapRightsLimit (fd : Z) (rights : cap_rights_t)
  | CapIoctlsLimit (fd : Z) (cmds : list Z)
  | CapFcntlsLimit (fd fcntlrights : Z)
  | Socket (maxfiles : Z) (privileged : bool) (maxfd fp type socreate : Z)
  | SocketPair (maxfiles : Z) (privileged : bool) (maxfd fp1 fp2 type : Z)
      (socreate1 socreate2 soconnect1 soconnect2 copyout : Z).

Section world.
Context (fo_close : Z -> Z).

Definition after {A} (m : result (A * (ftab * filedesc))) : result (ftab * filedesc) := '(_, s) ← m; Ok s.

(** The files and the table after a call. The commands of fcntl that are not
    modelled leave both as they are. *)
Definition run_call (c : call) (s : ftab * filedesc) : result (ftab * filedesc) :=
  match c with
  | Dup maxfd mode flags old new => after (kern_dup fo_close maxfd mode flags old new s)
  | Close fd => after (kern_close fo_close fd s)
  | CloseFrom lowfd => sys_closefrom fo_close lowfd s
  | Fcntl maxfd fd cmd arg =>
      match kern_fcntl maxfd fd cmd arg s fo_close with Some m => after m | None => Ok s end
  | CapRightsLimit fd rights => '(_, d) ← sys_cap_rights_limit fd rights s.2; Ok (s.1, d)
  | CapIoctlsLimit fd cmds => '(_, d) ← sys_cap_ioctls_limit fd cmds s.2; Ok (s.1, d)
  | CapFcntlsLimit fd fcntlrights => '(_, d) ← sys_cap_fcntls_limit fd fcntlrights s.2; Ok (s.1, d)
  | Socket maxfiles privileged maxfd fp type socreate =>
      after (sys_socket fo_close maxfiles privileged maxfd fp type socreate s)
  | SocketPair maxfiles privileged maxfd fp1 fp2 type socreate1 socreate2 soconnect1 soconnect2 copyout =>
      after (sys_socketpair fo_close maxfiles privileged maxfd fp1 fp2 type
               socreate1 socreate2 soconnect1 soconnect2 copyout s)
  end.

(** What the callers guarantee: the limit of descriptors, the flags of
    [kern_dup], the words of rights, and new files at unused addresses. *)
Definition call_valid (c : call) (ft : ftab) : Prop :=
  match c with
  | Dup maxfd _ flags _ _ => maxfd_ok maxfd /\ Z.land flags (Z.lnot FDDUP_FLAG_CLOEXEC) = 0
  | Fcntl maxfd _ _ _ => maxfd_ok maxfd
  | CapRightsLimit _ rights => raw_rights rights
  | Socket _ _ maxfd fp _ _ => maxfd_ok maxfd /\ no_file ft fp
  | SocketPair _ _ maxfd fp1 fp2 _ _ _ _ _ _ =>
      maxfd_ok maxfd /\ no_file ft fp1 /\ no_file ft fp2 /\ fp1 <> fp2
  | _ => True
  end.

Definition call_makes (c : call) (fp : Z) : bool :=
  match c with
  | Socket _ _ _ fp' _ _ => fp =? fp'
  | SocketPair _ _ _ fp1 fp2 _ _ _ _ _ _ => (fp =? fp1) || (fp =? fp2)
  | _ => false
  end.

(** ** Operations *)

(** [Use] takes a file for a call in progress, [Done] gives it back. *)
Inductive op : Type :=
  | Call (p : Z) (c : call)
  | Use (p fd : Z) (need : cap_rights_t)
  | Done (fp : Z)
  | Fork (flags p child new : Z)
  | RforkSelf (flags p new new' : Z)
  | Exec (p new : Z)
  | Exit (p : Z).

(** The processes, and the files that calls in progress hold. *)
Definition state : Type := world * list Z.

Fixpoint remove_one (fp : Z) (l : list Z) : list Z :=
  match l with [] => [] | x :: l' => if x =? fp then l' else x :: remove_one fp l' end.

Definition run_op (o : op) (st : state) : result state :=
  let '(w, held) := st in
  match o with
  | Call p c =>
      '(_, w) ← on_table p (fun s => s ← run_call c s; Ok (tt, s)) w; Ok (w, held)
  | Use p fd need =>
      '(_, d) ← get_p_fd w p;
      '(r, ft) ← fget_unlocked fd need (w_ft w, d);
      Ok (MkWorld ft (w_fdesc w) (w_p_fd w), match r with inl _ => held | inr fp => fp :: held end)
  | Done fp =>
      '(_, ft) ← fdrop fo_close fp (w_ft w);
      Ok (MkWorld ft (w_fdesc w) (w_p_fd w), remove_one fp held)
  | Fork flags p child new => w ← fork_fd flags p child new w; Ok (w, held)
  | RforkSelf flags p new new' => w ← rfork_self fo_close flags p new new' w; Ok (w, held)
  | Exec p new => w ← exec_fd fo_close p new w; Ok (w, held)
  | Exit p => w ← exit_fd fo_close p w; Ok (w, held)
  end.

Definition has_table (w : world) (p : Z) : Prop := is_Some (w_p_fd w !! p).

(** Neither the count of a file nor that of a table is about to overflow. *)
Definition room (w : world) : Prop :=
  (forall q f, ft_files (w_ft w) !! q = Some f -> f_count f < 2 ^ 31) /\
  forall t d, w_fdesc w !! t = Some d -> fd_refcnt d < UINT_MAX.

Definition op_valid (o : op) (st : state) : Prop :=
  let '(w, held) := st in
  room w /\
  match o with
  | Call p c => has_table w p /\ call_valid c (w_ft w)
  | Use p fd need => has_table w p /\ rights_ok need
  | Done fp => fp ∈ held
  | Fork _ p child new => has_table w p /\ w_p_fd w !! child = None /\ w_fdesc w !! new = None
  | RforkSelf _ p new new' => has_table w p /\ w_fdesc w !! new = None /\ w_fdesc w !! new' = None /\ new <> new'
  | Exec p new => has_table w p /\ w_fdesc w !! new = None
  | Exit p => has_table w p
  end.

(** The first process, with the table of [fdinit(NULL, false)]. *)
Definition boot (p t : Z) : state := (MkWorld (MkFtab ∅ 0) {[ t := empty_table ]} {[ p := t ]}, []).

Inductive reachable : state -> Prop :=
  | reach_boot p t : reachable (boot p t)
  | reach_op st o st' : reachable st -> op_valid o st -> run_op o st = Ok st' -> reachable st'.

(** A run of operations. *)
Fixpoint runs (ops : list op) (st st' : state) : Prop :=
  match ops with
  | [] => st' = st
  | o :: ops' => op_valid o st /\ exists st1, run_op o st = Ok st1 /\ runs ops' st1 st'
  end.

Definition op_makes (o : op) (fp : Z) : bool := match o with Call _ c => call_makes c fp | _ => false end.

(** [q] is [p], or descends from it by the forks of the run. *)
Fixpoint descends (ops : list op) (p q : Z) : Prop :=
  match ops with
  | [] => q = p
  | o :: ops' =>
      exists p1, (p1 = p \/ exists flags new, o = Fork flags p p1 new) /\ descends ops' p1 q
  end.

(** Process [p] has a descriptor of the file [fp] with the capability [c]. *)
Definition has_fd (w : world) (p fp : Z) (c : filecaps) : Prop :=
  exists t d j, w_p_fd w !! p = Some t /\ w_fdesc w !! t = Some d /\
  fde_file (fde d j) = Some fp /\ fde_caps (fde d j) = c.
End world.
