(* ===== verification/FdInv.v ===== *)
(** The invariant of the system: the tables are well-formed, each has as many
    references as processes, and each file as many as descriptors and calls in
    progress. *)

From stdpp Require Import gmap.
From S2P Require Import Prelude Priv Cred Caps CapsInv Fd FdCalls FdProc FdBits FdTable FdFiles.
From S2P Require Import FdLocal FdCopy FdWorld FdClose.

Definition held_refs (held : list Z) (q : Z) : Z := foldr (fun fp acc => hit fp q + acc) 0 held.

(** How many processes have the table [t]. *)
Definition users (procs : gmap Z Z) (t : Z) : Z := msum (fun t' => hit t' t) procs.

(** The references to the file [q]. *)
Definition total (w : world) (held : list Z) (q : Z) : Z :=
  msum (fun d => refs d q) (w_fdesc w) + held_refs held q.

(** [E] are the references to tables from within a call. *)
Record world_ok (E : Z -> Z) (held : list Z) (w : world) : Prop := {
  wo_table : forall t d, w_fdesc w !! t = Some d -> tab_ok d /\ fd_refcnt d = users (w_p_fd w) t + E t /\ 0 < fd_refcnt d;
  wo_proc : forall p t, w_p_fd w !! p = Some t -> is_Some (w_fdesc w !! t);
  wo_files : files_ok (w_ft w) (total w held);
  wo_extra : forall t, 0 <= E t
}.

Definition nobody : Z -> Z := fun _ => 0.

Lemma held_cons fp l q : held_refs (fp :: l) q = hit fp q + held_refs l q.
Proof. done. Qed.

Lemma held_nonneg held q : 0 <= held_refs held q.
Proof. induction held as [|fp l IH]; [done|]. rewrite held_cons. pose proof (hit_range fp q). lia. Qed.

Lemma hit_same t : hit t t = 1.
Proof. unfold hit. by rewrite decide_True. Qed.
Lemma hit_other t t' : t <> t' -> hit t t' = 0.
Proof. intros H. unfold hit. by rewrite decide_False. Qed.

Lemma held_pos held q : q ∈ held -> 0 < held_refs held q.
Proof.
  induction held as [|fp l IH]; [by intros ?%elem_of_nil|]. rewrite held_cons. pose proof (hit_range fp q).
  pose proof (held_nonneg l q). intros [->|H1]%elem_of_cons; [rewrite hit_same; lia|]. specialize (IH H1). lia.
Qed.

Lemma held_remove held fp q : fp ∈ held -> held_refs (remove_one fp held) q = held_refs held q - hit fp q.
Proof.
  induction held as [|x l IH]; [by intros ?%elem_of_nil|]. intros H. cbn [remove_one]. rewrite held_cons.
  destruct (Z.eqb_spec x fp) as [->|Hne]; [lia|].
  apply elem_of_cons in H as [->|H]; [done|]. rewrite held_cons, IH by done. lia.
Qed.

Lemma users_nonneg procs t : 0 <= users procs t.
Proof. apply msum_nonneg. intros p t' _. apply hit_range. Qed.

Lemma users_pos procs p t : procs !! p = Some t -> 0 < users procs t.
Proof.
  intros H. pose proof (msum_ge (fun t' => hit t' t) procs p t (fun _ t' _ => proj1 (hit_range t' t)) H) as Hge.
  cbv beta in Hge. rewrite hit_same in Hge. unfold users. lia.
Qed.

Lemma users_unused E held w t : world_ok E held w -> w_fdesc w !! t = None -> users (w_p_fd w) t = 0.
Proof.
  intros W H. apply msum_zero. intros p t' Hp. apply hit_other. intros ->.
  destruct (wo_proc _ _ _ W p t Hp) as [d Hd]. congruence.
Qed.

Lemma users_gone procs p t : procs !! p = Some t -> users procs t = 1 -> forall p', delete p procs !! p' <> Some t.
Proof.
  intros H Hu p' Hp'. pose proof (users_pos (delete p procs) p' t Hp') as Hpos. unfold users in *.
  rewrite (msum_delete _ procs p t) in Hpos by done. cbv beta in Hpos. rewrite hit_same in Hpos. lia.
Qed.

(** ** One table of the system *)

(** The references to files from elsewhere. *)
Definition others (w : world) (held : list Z) (d : filedesc) (q : Z) : Z := total w held q - refs d q.

Lemma world_local E held w t d :
  world_ok E held w -> w_fdesc w !! t = Some d -> local_ok (others w held d) (w_ft w, d).
Proof.
  intros W H. constructor; cbn [fst snd].
  - by apply (wo_table _ _ _ W t).
  - eapply files_ext; [|apply (wo_files _ _ _ W)]. intros q. unfold others. lia.
  - intros q. unfold others, total. pose proof (held_nonneg held q).
    pose proof (msum_ge (fun d => refs d q) (w_fdesc w) t d (fun _ d' _ => refs_nonneg d' q) H). cbv beta in *. lia.
Qed.

Lemma local_world E held w t d ft' d' :
  world_ok E held w -> w_fdesc w !! t = Some d -> local_ok (others w held d) (ft', d') ->
  fd_refcnt d' = fd_refcnt d -> world_ok E held (MkWorld ft' (<[t := d']> (w_fdesc w)) (w_p_fd w)).
Proof.
  intros W H L Hr. constructor; cbn [w_ft w_fdesc w_p_fd].
  - intros t' d2. destruct (decide (t = t')) as [<-|Hne].
    + rewrite lookup_insert_eq. intros [= <-]. split; [apply L|]. rewrite Hr. by apply (wo_table _ _ _ W t).
    + rewrite lookup_insert_ne by done. apply (wo_table _ _ _ W).
  - intros p t' Hp. apply (wo_proc _ _ _ W) in Hp. destruct (decide (t = t')) as [<-|Hne].
    + rewrite lookup_insert_eq. by eexists.
    + by rewrite lookup_insert_ne.
  - eapply files_ext; [|apply (lo_files _ _ L)]. intros q. unfold others, total. cbn [w_fdesc fst snd].
    rewrite (msum_update _ _ t d d') by done. lia.
  - apply W.
Qed.

(** A table made within a call. *)
Lemma world_add E held w new d ft' :
  world_ok E held w -> w_fdesc w !! new = None -> E new = 0 -> tab_ok d -> fd_refcnt d = 1 ->
  files_ok ft' (fun q => total w held q + refs d q) ->
  world_ok (fun t => E t + hit new t) held (MkWorld ft' (<[new := d]> (w_fdesc w)) (w_p_fd w)).
Proof.
  intros W H HE T Hr F. constructor; cbn [w_ft w_fdesc w_p_fd].
  - intros t' d'. destruct (decide (new = t')) as [<-|Hne].
    + rewrite lookup_insert_eq, hit_same, (users_unused E held w) by done. intros [= <-]. split; [done|]. lia.
    + rewrite lookup_insert_ne, (hit_other new t'), Z.add_0_r by done. apply (wo_table _ _ _ W).
  - intros p t Hp. destruct (wo_proc _ _ _ W p t Hp) as [d' Hd'].
    rewrite lookup_insert_ne; [by eexists|]. intros ->. congruence.
  - eapply files_ext; [|exact F]. intros q. unfold total. cbn [w_fdesc].
    rewrite msum_insert by done. lia.
  - intros t. pose proof (wo_extra _ _ _ W t). pose proof (hit_range new t). lia.
Qed.

(** A process gets the table. *)
Lemma world_attach E held w p new :
  world_ok (fun t => E t + hit new t) held w -> (forall t, 0 <= E t) -> w_p_fd w !! p = None -> is_Some (w_fdesc w !! new) ->
  world_ok E held (MkWorld (w_ft w) (w_fdesc w) (<[p := new]> (w_p_fd w))).
Proof.
  intros W HE H Hn. constructor; cbn [w_ft w_fdesc w_p_fd].
  - intros t d Hd. destruct (wo_table _ _ _ W t d Hd) as (T & Hr & Hpos). split_and!; [done| |done].
    unfold users in *. rewrite msum_insert by done. lia.
  - intros p' t. destruct (decide (p = p')) as [<-|Hne].
    + rewrite lookup_insert_eq. by intros [= <-].
    + rewrite lookup_insert_ne by done. apply (wo_proc _ _ _ W).
  - apply W.
  - done.
Qed.

Lemma get_p_fd_ok E held w p :
  world_ok E held w -> has_table w p ->
  exists t d, get_p_fd w p = Ok (t, d) /\ w_p_fd w !! p = Some t /\ w_fdesc w !! t = Some d.
Proof.
  intros W [t Hp]. destruct (wo_proc _ _ _ W p t Hp) as [d Hd]. exists t, d. unfold get_p_fd. by rewrite Hp, Hd.
Qed.

(** The tables of [w'] are tables of [w] with the same descriptors. *)
Definition tables_kept (w w' : world) : Prop :=
  forall t d', w_fdesc w' !! t = Some d' -> exists d, w_fdesc w !! t = Some d /\ forall j, fde d' j = fde d j.

Lemma fdescfree_ok fo_close E held w p :
  world_ok E held w -> has_table w p ->
  exists w', fdescfree fo_close p w = Ok w' /\ world_ok E held w' /\ w_p_fd w' = delete p (w_p_fd w) /\
  tables_kept w w' /\
  (forall t, E t = 1 -> is_Some (w_fdesc w !! t) -> w_fdesc w' !! t = w_fdesc w !! t \/ w_p_fd w !! p = Some t).
Proof.
  intros W Hp. destruct (get_p_fd_ok E held w p W Hp) as (t & d & Eg & Hpt & Htd). unfold fdescfree.
  rewrite Eg, bind_Ok. cbv zeta. destruct (wo_table _ _ _ W t d Htd) as (T & Hr & Hpos).
  rewrite require_true, bind_Ok by (by ztest).
  assert (forall t', users (delete p (w_p_fd w)) t' = users (w_p_fd w) t' - hit t t') as Hu.
  { intros t'. unfold users. by rewrite (msum_delete _ _ p t). }
  destruct (Z.eqb_spec (fd_refcnt d) 1) as [E1|E1]; cbn [negb].
  - pose proof (users_pos (w_p_fd w) p t Hpt) as Hup. pose proof (wo_extra _ _ _ W t) as HE.
    destruct (fdescfree_fds_ok fo_close (others w held d) (w_ft w) d (world_local E held w t d W Htd)) as (ft' & -> & F & K).
    rewrite bind_Ok. eexists. split; [reflexivity|]. cbn [w_p_fd]. split_and!; [|done| |].
    + constructor; cbn [w_ft w_fdesc w_p_fd].
      * intros t' d' [Hne Ht']%lookup_delete_Some. rewrite Hu, hit_other, Z.sub_0_r by done. by apply (wo_table _ _ _ W).
      * intros p' t' Hp'. rewrite lookup_delete_ne.
        -- apply lookup_delete_Some in Hp' as [_ Hp']. by apply (wo_proc _ _ _ W p').
        -- intros <-. apply (users_gone (w_p_fd w) p t Hpt ltac:(lia) p' Hp').
      * eapply files_ext; [|exact F]. intros q. unfold others, total. cbn [w_fdesc].
        rewrite (msum_delete _ _ t d) by done. lia.
      * apply W.
    + intros t' d'. cbn [w_fdesc]. intros [_ Ht']%lookup_delete_Some. by exists d'.
    + intros t' _ _. cbn [w_fdesc]. destruct (decide (t = t')) as [<-|Hne]; [by right|]. left. by rewrite lookup_delete_ne.
  - eexists. split; [reflexivity|]. cbn [w_p_fd]. split_and!; [|done| |].
    + constructor; cbn [w_ft w_fdesc w_p_fd].
      * intros t' d'. destruct (decide (t = t')) as [<-|Hne].
        -- rewrite lookup_insert_eq, Hu, hit_same. intros [= <-]. split; [by apply refcnt_tab|]. cbn [fd_refcnt set_refcnt]. lia.
        -- rewrite lookup_insert_ne, Hu, hit_other, Z.sub_0_r by done. apply (wo_table _ _ _ W).
      * intros p' t' [_ Hp']%lookup_delete_Some. apply (wo_proc _ _ _ W) in Hp'.
        destruct (decide (t = t')) as [<-|Hne]; [rewrite lookup_insert_eq; by eexists | by rewrite lookup_insert_ne].
      * eapply files_ext; [|apply (wo_files _ _ _ W)]. intros q. unfold total. cbn [w_fdesc].
        rewrite (msum_update _ _ t d) by done. change (refs (set_refcnt _ d) q) with (refs d q). lia.
      * apply W.
    + intros t' d'. cbn [w_fdesc]. destruct (decide (t = t')) as [<-|Hne].
      * rewrite lookup_insert_eq. intros [= <-]. by exists d.
      * rewrite lookup_insert_ne by done. intros H. by exists d'.
    + intros t' _ _. cbn [w_fdesc]. destruct (decide (t = t')) as [<-|Hne]; [by right|]. left. by rewrite lookup_insert_ne.
Qed.

(** Every operation succeeds, keeps the invariant of the system, and gives no
    process a capability that is not one of its own, or of its parent. *)

(** What [d'] may do with the file [fp], [d] may. *)
Definition derives (fp : Z) (d d' : filedesc) : Prop :=
  forall j, fde_file (fde d' j) = Some fp ->
  exists i, fde_file (fde d i) = Some fp /\ caps_le (fde_caps (fde d' j)) (fde_caps (fde d i)).

#[export] Instance derives_preorder fp : PreOrder (derives fp).
Proof.
  split; [intros d j H; by exists j|]. intros d1 d2 d3 H1 H2 j H.
  destruct (H2 j H) as (i & Hi & Hc). destruct (H1 i Hi) as (k & Hk & Hc'). exists k. split; [done|]. by etrans.
Qed.

Lemma derives_changed fp d d' fd e :
  one_changed d d' fd e ->
  (fde_file e = Some fp -> exists i, fde_file (fde d i) = Some fp /\ caps_le (fde_caps e) (fde_caps (fde d i))) ->
  derives fp d d'.
Proof.
  intros O H j Hj. rewrite (oc_fde _ _ _ _ O) in *. destruct (fd =? j); [by apply H | by exists j].
Qed.

Lemma derives_closed fp d d' P : closed_set d d' P -> derives fp d d'.
Proof.
  intros [F _ _] j Hj. rewrite F in *. destruct (is_open d j && P j); [done | by exists j].
Qed.

Lemma derives_open fp d d' : same_open d d' -> derives fp d d'.
Proof.
  intros S j Hj. destruct (fde_file (fde d j)) as [fp'|] eqn:E.
  - rewrite (so_fde _ _ S) in * by (by rewrite E). by exists j.
  - by rewrite (so_file _ _ S) in Hj.
Qed.

Lemma derives_dup fp d d' flags old fd :
  tab_ok d -> dup_table d flags old fd d' -> derives fp d d'.
Proof.
  intros T (e & O & H). apply (derives_changed fp d d' fd e O). intros He. exists old.
  destruct (old =? fd).
  - destruct H as (Hf & Hc & _). split; [congruence|]. by rewrite Hc.
  - destruct H as (Hf & Hc & _). rewrite He in Hf. split; [done|].
    apply copy_le; [by apply (to_caps d T old fp) | done].
Qed.

Lemma derives_files fp d d' fd c flags :
  same_files d d' fd c flags -> caps_le c (fde_caps (fde d fd)) -> derives fp d d'.
Proof. intros [O _] Hc. apply (derives_changed fp d d' fd _ O). intros He. by exists fd. Qed.

Lemma files_local X ft d d' fd c flags :
  local_ok X (ft, d) -> same_files d d' fd c flags -> local_ok X (ft, d').
Proof.
  intros L [O Q]. eapply (local_next X ft d ft d'); [done | apply O | apply (lo_files _ _ L)|]. intros q. cbn. by rewrite Q.
Qed.

(** ** Calls *)

Section calls.
Context (fo_close : Z -> Z).

(** What a call does to the table. *)
Definition call_effect (X : Z -> Z) (c : call) (d : filedesc) (s' : ftab * filedesc) : Prop :=
  local_ok X s' /\ fd_refcnt s'.2 = fd_refcnt d /\ forall fp, call_makes c fp = false -> derives fp d s'.2.

Lemma effect_none X c ft d : local_ok X (ft, d) -> call_effect X c d (ft, d).
Proof. intros L. split_and!; done. Qed.

Lemma effect_files X c ft d d' fd caps flags :
  local_ok X (ft, d) -> same_files d d' fd caps flags -> caps_le caps (fde_caps (fde d fd)) -> call_effect X c d (ft, d').
Proof.
  intros L S Hc. split; [by eapply files_local|]. split; [apply S|]. intros fp _. by eapply derives_files.
Qed.

Lemma effect_dup X c maxfd mode flags old new ft d :
  local_ok X (ft, d) -> maxfd_ok maxfd -> Z.land flags (Z.lnot FDDUP_FLAG_CLOEXEC) = 0 ->
  (forall q, refs d q + X q < 2 ^ 31) ->
  exists s', after (kern_dup fo_close maxfd mode flags old new (ft, d)) = Ok s' /\ call_effect X c d s'.
Proof.
  intros L Hmax Hfl Hroom. destruct (kern_dup_ok fo_close X ft d maxfd mode flags old new L Hmax Hfl)
    as (r & s' & E & _ & L' & _ & H).
  { intros q. specialize (Hroom q). unfold UINT_MAX. lia. }
  exists s'. unfold after. rewrite E, bind_Ok. split; [done|]. destruct r as [error|fd].
  - subst s'. by apply effect_none.
  - split; [done|]. pose proof H as (e & O & _). split; [apply O|]. intros fp _.
    by apply (derives_dup fp d s'.2 flags old fd (lo_tab _ _ L)).
Qed.

Lemma effect_fcntl X c maxfd fd cmd arg ft d :
  local_ok X (ft, d) -> maxfd_ok maxfd -> (forall q, refs d q + X q < 2 ^ 31) ->
  exists s', match kern_fcntl maxfd fd cmd arg (ft, d) fo_close with Some m => after m | None => Ok (ft, d) end = Ok s' /\
  call_effect X c d s'.
Proof.
  intros L Hmax Hroom. pose proof (lo_tab _ _ L) as T. cbn in T.
  destruct (Z.eq_dec cmd F_GETFD) as [->|H1].
  { rewrite getfd_ok by done. eexists. split; [reflexivity|]. by apply effect_none. }
  destruct (Z.eq_dec cmd F_SETFD) as [->|H2].
  { destruct (setfd_ok maxfd fd arg ft d fo_close T) as (r & d' & -> & H). eexists. split; [reflexivity|].
    destruct (fde_file (fde d fd)); destruct H as [_ H]; [by eapply effect_files | subst d'; by apply effect_none]. }
  unfold kern_fcntl. destruct (cmd =? F_DUPFD); [by apply effect_dup|].
  destruct (cmd =? F_DUPFD_CLOEXEC); [by apply effect_dup|].
  destruct (cmd =? F_DUP2FD); [by apply effect_dup|].
  destruct (cmd =? F_DUP2FD_CLOEXEC); [by apply effect_dup|].
  rewrite (proj2 (Z.eqb_neq cmd F_GETFD)), (proj2 (Z.eqb_neq cmd F_SETFD)) by done.
  eexists. split; [reflexivity|]. by apply effect_none.
Qed.

Lemma effect_close X c fd ft d :
  local_ok X (ft, d) -> exists s', after (kern_close fo_close fd (ft, d)) = Ok s' /\ call_effect X c d s'.
Proof.
  intros L. pose proof (kern_close_ok fo_close X ft d fd L) as K. unfold after.
  destruct (fde_file (fde d fd)) as [fp|].
  - destruct K as (ft' & d' & -> & _ & O & L' & _). rewrite bind_Ok. eexists. split; [reflexivity|].
    split; [done|]. split; [apply O|]. intros fp' _. by apply (derives_changed fp' d d' fd _ O).
  - rewrite K, bind_Ok. eexists. split; [reflexivity|]. by apply effect_none.
Qed.

Lemma effect_closefrom X c lowfd s :
  local_ok X s -> exists s', sys_closefrom fo_close lowfd s = Ok s' /\ call_effect X c s.2 s'.
Proof.
  intros L. destruct (closefrom_ok fo_close X s lowfd L) as (s' & E & L' & _ & C). exists s'. split; [done|].
  split; [done|]. split; [apply C|]. intros fp _. by eapply derives_closed.
Qed.

Lemma effect_socket X maxfiles privileged maxfd fp type socreate ft d :
  local_ok X (ft, d) -> maxfd_ok maxfd -> no_file ft fp ->
  exists s', after (sys_socket fo_close maxfiles privileged maxfd fp type socreate (ft, d)) = Ok s' /\
  call_effect X (Socket maxfiles privileged maxfd fp type socreate) d s'.
Proof.
  intros L Hmax Hf. destruct (sys_socket_ok fo_close maxfiles privileged maxfd fp type socreate ft d (lo_tab _ _ L) Hmax Hf)
    as (r & s' & E & H & _). exists s'. unfold after. rewrite E, bind_Ok. split; [done|].
  split; [by eapply sys_socket_local|]. destruct r as [error|fd]; cbn in H.
  - destruct H as (_ & _ & S). split; [apply S|]. intros fp' _. by apply derives_open.
  - destruct H as (_ & _ & _ & O). split; [apply O|]. intros fp' Hm. cbn in Hm. apply (derives_changed fp' d s'.2 fd _ O).
    cbn. intros [= ->]. by rewrite Z.eqb_refl in Hm.
Qed.

Lemma effect_socketpair X maxfiles privileged maxfd fp1 fp2 type e1 e2 e3 e4 e5 ft d :
  local_ok X (ft, d) -> maxfd_ok maxfd -> no_file ft fp1 -> no_file ft fp2 -> fp1 <> fp2 ->
  exists s', after (sys_socketpair fo_close maxfiles privileged maxfd fp1 fp2 type e1 e2 e3 e4 e5 (ft, d)) = Ok s' /\
  call_effect X (SocketPair maxfiles privileged maxfd fp1 fp2 type e1 e2 e3 e4 e5) d s'.
Proof.
  intros L Hmax Hf1 Hf2 Hne.
  destruct (sys_socketpair_ok fo_close X maxfiles privileged maxfd fp1 fp2 type e1 e2 e3 e4 e5 ft d L Hmax Hf1 Hf2 Hne)
    as (r & s' & E & H & _). exists s'. unfold after. rewrite E, bind_Ok. split; [done|].
  split; [by apply (pair_local X maxfd fp1 fp2 type ft d r s')|]. destruct r as [error|[fd1 fd2]]; cbn in H.
  - destruct H as (_ & _ & S). split; [apply S|]. intros fp' _. by apply derives_open.
  - destruct H as (d1 & _ & _ & _ & _ & O1 & O2 & _). split; [rewrite (oc_refcnt _ _ _ _ O2); apply O1|].
    intros fp' Hm. cbn in Hm. apply orb_false_iff in Hm as [H1%Z.eqb_neq H2%Z.eqb_neq]. transitivity d1.
    + apply (derives_changed fp' d d1 fd1 _ O1). cbn. congruence.
    + apply (derives_changed fp' d1 s'.2 fd2 _ O2). cbn. congruence.
Qed.

Lemma run_call_ok X c ft d :
  local_ok X (ft, d) -> call_valid c ft -> (forall q, refs d q + X q < 2 ^ 31) ->
  exists s', run_call fo_close c (ft, d) = Ok s' /\ call_effect X c d s'.
Proof.
  intros L V Hroom. pose proof (lo_tab _ _ L) as T. cbn in T.
  destruct c; cbn [run_call call_valid fst snd] in *.
  - destruct V. by apply effect_dup.
  - by apply effect_close.
  - by apply (effect_closefrom X (CloseFrom lowfd) lowfd (ft, d)).
  - by apply effect_fcntl.
  - destruct (sys_cap_rights_limit_ok fd rights d T V) as (error & d' & -> & H1 & _ & H2). rewrite bind_Ok.
    eexists. split; [reflexivity|]. destruct (Z.eq_dec error 0) as [->|Hne].
    + destruct (H2 eq_refl) as (c' & S & _ & Hle). by eapply effect_files.
    + eapply effect_files; [done | by apply H1 | done].
  - destruct (sys_cap_ioctls_limit_ok fd cmds d T) as (error & d' & c' & -> & S & Hle). rewrite bind_Ok.
    eexists. split; [reflexivity|]. by eapply effect_files.
  - destruct (sys_cap_fcntls_limit_ok fd fcntlrights d T) as (error & d' & c' & -> & S & Hle). rewrite bind_Ok.
    eexists. split; [reflexivity|]. by eapply effect_files.
  - destruct V. by apply effect_socket.
  - destruct V as (? & ? & ? & ?). by apply effect_socketpair.
Qed.
End calls.

(** The operations of the system: each one succeeds and keeps the invariant. *)

Lemma room_total E held w : world_ok E held w -> room w -> forall q, total w held q < 2 ^ 31.
Proof.
  intros W [H _] q. pose proof (fo_count _ _ (wo_files _ _ _ W) q) as Hq. specialize (H q).
  destruct (ft_files (w_ft w) !! q) as [f|]; [specialize (H f eq_refl)|]; lia.
Qed.

Lemma world_files E held held' w ft' :
  world_ok E held w -> files_ok ft' (total w held') -> world_ok E held' (MkWorld ft' (w_fdesc w) (w_p_fd w)).
Proof. intros [H1 H2 _ H4] F. by constructor. Qed.

(** What process [p] may do in [w'], it or its parent [p0] might in [w]. *)
Definition inherits (o : op) (fp : Z) (w w' : world) : Prop :=
  forall p c, has_fd w' p fp c ->
  exists p0 c0, (p = p0 \/ exists flags new, o = Fork flags p0 p new) /\ has_fd w p0 fp c0 /\ caps_le c c0.

(** The descriptors of all processes are those they had. *)
Definition no_new_fd (fp : Z) (w w' : world) : Prop :=
  forall p c, has_fd w' p fp c -> exists c0, has_fd w p fp c0 /\ caps_le c c0.

#[export] Instance no_new_fd_preorder fp : PreOrder (no_new_fd fp).
Proof.
  split; [intros w p c H; by exists c|]. intros w1 w2 w3 H1 H2 p c H.
  destruct (H2 p c H) as (c2 & H3 & L). destruct (H1 p c2 H3) as (c1 & H4 & L'). exists c1. split; [done|]. by etrans.
Qed.

Lemma no_new_inherits o fp w w' : no_new_fd fp w w' -> inherits o fp w w'.
Proof. intros H p c Hp. destruct (H p c Hp) as (c0 & H0 & L). exists p, c0. split_and!; [by left|done|done]. Qed.

(** One table changed. *)
Lemma no_new_table fp w t d ft' d' :
  w_fdesc w !! t = Some d -> derives fp d d' -> no_new_fd fp w (MkWorld ft' (<[t := d']> (w_fdesc w)) (w_p_fd w)).
Proof.
  intros H D p c (t' & d2 & j & Hp & Hd & Hj & Hc). cbn [w_p_fd w_fdesc] in *. destruct (decide (t = t')) as [<-|Hne].
  - rewrite lookup_insert_eq in Hd. injection Hd as <-. destruct (D j Hj) as (i & Hi & L). subst c.
    exists (fde_caps (fde d i)). split; [by exists t, d, i | done].
  - rewrite lookup_insert_ne in Hd by done. exists c. split; [by exists t', d2, j | done].
Qed.

(** A function of the caller's table. *)
Lemma on_table_ok E held w p f (Q : filedesc -> ftab * filedesc -> Prop) :
  world_ok E held w -> has_table w p ->
  (forall t d, w_p_fd w !! p = Some t -> w_fdesc w !! t = Some d -> exists s', f (w_ft w, d) = Ok s' /\
     local_ok (others w held d) s' /\ fd_refcnt s'.2 = fd_refcnt d /\ Q d s') ->
  exists t d s', w_fdesc w !! t = Some d /\ Q d s' /\
  on_table p (fun s => s ← f s; Ok (tt, s)) w = Ok (tt, MkWorld s'.1 (<[t := s'.2]> (w_fdesc w)) (w_p_fd w)) /\
  world_ok E held (MkWorld s'.1 (<[t := s'.2]> (w_fdesc w)) (w_p_fd w)).
Proof.
  intros W Hp Hf. destruct (get_p_fd_ok E held w p W Hp) as (t & d & Eg & Hpt & Htd).
  destruct (Hf t d Hpt Htd) as ([ft' d'] & Ef & L & Hr & HQ). exists t, d, (ft', d').
  split_and!; [done|done| |by eapply local_world].
  unfold on_table. by rewrite Eg, bind_Ok, Ef, !bind_Ok.
Qed.

Lemma others_room E held w d : world_ok E held w -> room w -> forall q, refs d q + others w held d q < 2 ^ 31.
Proof. intros W R q. pose proof (room_total E held w W R q). unfold others. lia. Qed.

(** ** New tables *)

(** A process leaves its table for a new one. *)
Lemma swap_table fo_close held w p new ft' d' :
  world_ok nobody held w -> has_table w p -> w_fdesc w !! new = None ->
  tab_ok d' -> fd_refcnt d' = 1 -> files_ok ft' (fun q => total w held q + refs d' q) ->
  exists w2, fdescfree fo_close p (MkWorld ft' (<[new := d']> (w_fdesc w)) (w_p_fd w)) = Ok w2 /\
  world_ok nobody held (MkWorld (w_ft w2) (w_fdesc w2) (<[p := new]> (w_p_fd w2))) /\
  w_fdesc w2 !! new = Some d' /\
  forall p' fp c, has_fd (MkWorld (w_ft w2) (w_fdesc w2) (<[p := new]> (w_p_fd w2))) p' fp c ->
    (p' = p /\ exists j, fde_file (fde d' j) = Some fp /\ fde_caps (fde d' j) = c) \/ has_fd w p' fp c.
Proof.
  intros W Hp Hn T' Hr F.
  pose proof (world_add nobody held w new d' ft' W Hn eq_refl T' Hr F) as W1.
  set (w1 := MkWorld ft' (<[new := d']> (w_fdesc w)) (w_p_fd w)) in *.
  destruct (fdescfree_ok fo_close _ held w1 p W1 Hp) as (w2 & E & W2 & Hprocs & Hk & Hnew).
  assert (w_p_fd w !! p <> Some new) as Hpn.
  { intros H. destruct (wo_proc _ _ _ W p new H) as [d0 Hd0]. congruence. }
  assert (w_fdesc w1 !! new = Some d') as Hn1 by (cbn; by rewrite lookup_insert_eq).
  assert (w_fdesc w2 !! new = Some d') as Hn2.
  { destruct (Hnew new) as [H|H]; [by rewrite hit_same | by eexists | by rewrite H | done]. }
  exists w2. split_and!; [done| |done|].
  - apply (world_attach nobody held w2 p new W2); [done | rewrite Hprocs; by rewrite lookup_delete_eq | by eexists].
  - intros p' fp c (t & d & j & Ht & Hd & Hj & Hc). cbn [w_p_fd w_fdesc] in *.
    destruct (decide (p = p')) as [<-|Hne].
    + rewrite lookup_insert_eq in Ht. injection Ht as <-. rewrite Hn2 in Hd. injection Hd as <-. left. split; [done|]. by exists j.
    + right. rewrite lookup_insert_ne, Hprocs, lookup_delete_ne in Ht by done. cbn [w_p_fd w1] in Ht.
      destruct (Hk t d Hd) as (d0 & Hd0 & Hf). cbn [w_fdesc w1] in Hd0.
      destruct (decide (new = t)) as [<-|Hnt].
      { destruct (wo_proc _ _ _ W p' new Ht) as [d1 Hd1]. congruence. }
      rewrite lookup_insert_ne in Hd0 by done. exists t, d0, j. rewrite <- Hf. done.
Qed.

(** The descriptors of a copy. *)
Lemma copy_derives fp d P d' : tab_ok d -> copy_table d P d' -> derives fp d d'.
Proof.
  intros T C j Hj. specialize (C j). destruct (P j); [|by rewrite C in Hj].
  destruct C as (Ef & _ & Ec). rewrite Ef in Hj. exists j. split; [done|]. apply copy_le; [|done]. by apply (to_caps d T j fp).
Qed.

Lemma fdunshare_ok fo_close held w p new :
  world_ok nobody held w -> room w -> has_table w p -> w_fdesc w !! new = None ->
  exists w', fdunshare fo_close p new w = Ok w' /\ world_ok nobody held w' /\
  (exists t d, w_p_fd w' !! p = Some t /\ w_fdesc w' !! t = Some d /\ fd_refcnt d = 1) /\
  forall fp, no_new_fd fp w w'.
Proof.
  intros W Hroom Hp Hn. destruct (get_p_fd_ok nobody held w p W Hp) as (t & d & Eg & Hpt & Htd).
  unfold fdunshare. rewrite Eg, bind_Ok. destruct (Z.eqb_spec (fd_refcnt d) 1) as [E1|E1].
  { exists w. split_and!; [done|done|by exists t, d|done]. }
  destruct (fdcopy_ok _ _ _ (world_local _ held w t d W Htd) (others_room _ held w d W Hroom))
    as (ft' & d' & -> & T' & C & Hr & _ & F & _). rewrite bind_Ok.
  destruct (swap_table fo_close held w p new ft' d' W Hp Hn T' Hr) as (w2 & -> & W2 & Hnew & Hfd).
  { eapply files_ext; [|exact F]. intros q. unfold others. lia. }
  rewrite bind_Ok. eexists. split; [reflexivity|]. split; [done|]. split.
  - exists new, d'. cbn [w_p_fd w_fdesc]. by rewrite lookup_insert_eq.
  - intros fp p' c H. destruct (Hfd p' fp c H) as [[-> (j & Hj & Hc)]|H0]; [|by exists c].
    destruct (copy_derives fp d _ d' (proj1 (wo_table _ _ _ W t d Htd)) C j Hj) as (i & Hi & L). subst c.
    exists (fde_caps (fde d i)). split; [by exists t, d, i | done].
Qed.

Lemma fresh_closed d j fp : fresh_table d -> fde_file (fde d j) <> Some fp.
Proof. intros (_ & F & _). by rewrite F. Qed.

Lemma rfork_self_ok fo_close held flags w p new new' :
  world_ok nobody held w -> room w -> has_table w p -> w_fdesc w !! new = None -> w_fdesc w !! new' = None ->
  exists w', rfork_self fo_close flags p new new' w = Ok w' /\ world_ok nobody held w' /\ forall fp, no_new_fd fp w w'.
Proof.
  intros W Hroom Hp Hn Hn'. unfold rfork_self. destruct (flag_set flags RFCFDG).
  2:{ rewrite bind_Ok. destruct (flag_set flags RFFDG); [|by exists w].
      destruct (fdunshare_ok fo_close held w p new' W Hroom Hp Hn') as (w' & E & W' & _ & H). by exists w'. }
  destruct (get_p_fd_ok nobody held w p W Hp) as (t & d & Eg & Hpt & Htd). rewrite Eg, bind_Ok.
  destruct (fdinit_ok d false (to_fdt d (proj1 (wo_table _ _ _ W t d Htd)))) as (d' & -> & F' & Hfresh & _). rewrite bind_Ok.
  pose proof Hfresh as (_ & _ & _ & _ & Hr & _).
  destruct (swap_table fo_close held w p new (w_ft w) d' W Hp Hn (fresh_tab d' F' Hfresh) Hr) as (w2 & -> & W2 & Hnew & Hfd).
  { eapply files_ext; [|apply (wo_files _ _ _ W)]. intros q. rewrite (fresh_refs d' q Hfresh). lia. }
  rewrite !bind_Ok. set (w3 := MkWorld _ _ _) in *.
  assert (forall fp, no_new_fd fp w w3) as H3.
  { intros fp p' c H. destruct (Hfd p' fp c H) as [[_ (j & Hj & _)]|H0]; [by apply fresh_closed in Hj | by exists c]. }
  destruct (flag_set flags RFFDG); [|by exists w3].
  assert (get_p_fd w3 p = Ok (new, d')) as Eg3.
  { unfold get_p_fd, w3. cbn [w_p_fd w_fdesc]. by rewrite lookup_insert_eq, Hnew. }
  unfold fdunshare. rewrite Eg3, bind_Ok, Hr. by exists w3.
Qed.

Lemma exec_fd_ok fo_close held w p new :
  world_ok nobody held w -> room w -> has_table w p -> w_fdesc w !! new = None ->
  exists w', exec_fd fo_close p new w = Ok w' /\ world_ok nobody held w' /\ forall fp, no_new_fd fp w w'.
Proof.
  intros W Hroom Hp Hn. unfold exec_fd.
  destruct (fdunshare_ok fo_close held w p new W Hroom Hp Hn) as (w1 & -> & W1 & (t & d & Hpt & Htd & Hr) & H1).
  rewrite bind_Ok.
  destruct (on_table_ok nobody held w1 p (fdcloseexec fo_close) (fun d s' => forall fp, derives fp d s'.2) W1
    ltac:(by eexists)) as (t' & d' & s' & Ht' & D & -> & W').
  { intros t' d' Hpt' Htd'. replace t' with t in * by congruence. replace d' with d in * by congruence.
    destruct (closeexec_ok fo_close _ (w_ft w1, d) (world_local _ held w1 t d W1 Htd) Hr) as (s' & E & L' & _ & C).
    exists s'. split_and!; [done|done|apply C|]. intros fp. by eapply derives_closed. }
  rewrite bind_Ok. eexists. split; [reflexivity|]. split; [done|]. intros fp. etrans; [apply H1|].
  by eapply no_new_table.
Qed.

Lemma exit_fd_ok fo_close held w p :
  world_ok nobody held w -> has_table w p ->
  exists w', exit_fd fo_close p w = Ok w' /\ world_ok nobody held w' /\ forall fp, no_new_fd fp w w'.
Proof.
  intros W Hp. destruct (fdescfree_ok fo_close _ held w p W Hp) as (w' & E & W' & Hprocs & Hk & _).
  exists w'. split_and!; [done|done|]. intros fp p' c (t & d & j & Ht & Hd & Hj & Hc).
  rewrite Hprocs in Ht. apply lookup_delete_Some in Ht as [_ Ht]. destruct (Hk t d Hd) as (d0 & Hd0 & Hf).
  exists c. split; [|done]. exists t, d0, j. rewrite <- Hf. done.
Qed.

(** ** Fork *)

Lemma share_ok held w t d :
  world_ok nobody held w -> w_fdesc w !! t = Some d ->
  world_ok (hit t) held (MkWorld (w_ft w) (<[t := set_refcnt (fd_refcnt d + 1) d]> (w_fdesc w)) (w_p_fd w)).
Proof.
  intros W H. constructor; cbn [w_ft w_fdesc w_p_fd].
  - intros t' d'. destruct (decide (t = t')) as [<-|Hne].
    + rewrite lookup_insert_eq, hit_same. intros [= <-]. destruct (wo_table _ _ _ W t d H) as (T & Hr & Hpos).
      split; [by apply refcnt_tab|]. cbn. unfold nobody in Hr. lia.
    + rewrite lookup_insert_ne, hit_other by done. apply (wo_table _ _ _ W).
  - intros p t' Hp. apply (wo_proc _ _ _ W) in Hp.
    destruct (decide (t = t')) as [<-|Hne]; [rewrite lookup_insert_eq; by eexists | by rewrite lookup_insert_ne].
  - eapply files_ext; [|apply (wo_files _ _ _ W)]. intros q. unfold total. cbn [w_fdesc].
    rewrite (msum_update _ _ t d) by done. change (refs (set_refcnt _ d) q) with (refs d q). lia.
  - intros t'. apply hit_range.
Qed.

(** The child gets the table [new], whose descriptors are the parent's. *)
Lemma child_inherits flags fp w p child new t d d' ft' :
  w_p_fd w !! p = Some t -> w_fdesc w !! t = Some d -> w_p_fd w !! child = None ->
  (forall p' t', w_p_fd w !! p' = Some t' -> t' = new -> forall d0, w_fdesc w !! new = Some d0 -> forall j, fde d' j = fde d0 j) ->
  (forall p' t', w_p_fd w !! p' = Some t' -> is_Some (w_fdesc w !! t')) ->
  derives fp d d' ->
  forall addr, inherits (Fork flags p child addr) fp w (MkWorld ft' (<[new := d']> (w_fdesc w)) (<[child := new]> (w_p_fd w))).
Proof.
  intros Hpt Htd Hc Hsame Hall D addr p' c (t' & d2 & j & Hp' & Hd2 & Hj & Hcap). cbn [w_p_fd w_fdesc] in *.
  destruct (decide (child = p')) as [<-|Hne].
  - rewrite lookup_insert_eq in Hp'. injection Hp' as <-. rewrite lookup_insert_eq in Hd2. injection Hd2 as <-.
    destruct (D j Hj) as (i & Hi & L). subst c. exists p, (fde_caps (fde d i)). split_and!; [right|by exists t, d, i|done].
    by exists flags, addr.
  - rewrite lookup_insert_ne in Hp' by done. exists p', c. split_and!; [by left| |done].
    destruct (Hall p' t' Hp') as [d0 Hd0]. destruct (decide (new = t')) as [<-|Hnt].
    + rewrite lookup_insert_eq in Hd2. injection Hd2 as <-. exists new, d0, j.
      rewrite <- (Hsame p' new Hp' eq_refl d0 Hd0). done.
    + rewrite lookup_insert_ne in Hd2 by done. by exists t', d2, j.
Qed.

Lemma fork_fd_ok held flags w p child new :
  world_ok nobody held w -> room w -> has_table w p -> w_p_fd w !! child = None -> w_fdesc w !! new = None ->
  exists w', fork_fd flags p child new w = Ok w' /\ world_ok nobody held w' /\
  forall fp, inherits (Fork flags p child new) fp w w'.
Proof.
  intros W Hroom Hp Hc Hn. destruct (get_p_fd_ok nobody held w p W Hp) as (t & d & Eg & Hpt & Htd).
  pose proof (wo_table _ _ _ W t d Htd) as (T & _ & Hpos). unfold fork_fd. rewrite Eg, bind_Ok.
  assert (forall ft' d', tab_ok d' -> fd_refcnt d' = 1 -> files_ok ft' (fun q => total w held q + refs d' q) ->
    (forall fp, derives fp d d') ->
    world_ok nobody held (MkWorld ft' (<[new := d']> (w_fdesc w)) (<[child := new]> (w_p_fd w))) /\
    forall fp, inherits (Fork flags p child new) fp w (MkWorld ft' (<[new := d']> (w_fdesc w)) (<[child := new]> (w_p_fd w))))
    as Hnew.
  { intros ft' d' T' Hr F D. split.
    - apply (world_attach nobody held _ child new (world_add nobody held w new d' ft' W Hn eq_refl T' Hr F)); [done|done|].
      cbn. rewrite lookup_insert_eq. by eexists.
    - intros fp. apply (child_inherits flags fp w p child new t d d' ft'); try done; [congruence|apply W]. }
  destruct (flag_set flags RFCFDG).
  - destruct (fdinit_ok d false (to_fdt d T)) as (d' & -> & F' & Hfresh & _). rewrite bind_Ok.
    eexists. split; [reflexivity|]. apply Hnew; [by apply fresh_tab | apply Hfresh | |].
    + eapply files_ext; [|apply (wo_files _ _ _ W)]. intros q. rewrite (fresh_refs d' q Hfresh). lia.
    + intros fp j Hj. by apply fresh_closed in Hj.
  - destruct (flag_set flags RFFDG).
    + destruct (fdcopy_ok _ _ _ (world_local _ held w t d W Htd) (others_room _ held w d W Hroom))
        as (ft' & d' & -> & T' & C & Hr & _ & F & _). rewrite bind_Ok.
      eexists. split; [reflexivity|]. apply Hnew; [done|done| |].
      * eapply files_ext; [|exact F]. intros q. unfold others. lia.
      * intros fp. by apply (copy_derives fp d (passes (w_ft w) d)).
    + destruct Hroom as [_ Hroom]. specialize (Hroom t d Htd).
      unfold fdshare. rewrite require_true, !bind_Ok by (by ztest). eexists. split; [reflexivity|]. split.
      * apply (world_attach nobody held _ child t (share_ok held w t d W Htd)); [done|done|].
        cbn. rewrite lookup_insert_eq. by eexists.
      * intros fp. apply (child_inherits flags fp w p child t t d); try done.
        -- intros p' t' _ _ d0 Hd0 j. replace d0 with d by congruence. done.
        -- apply W.
        -- intros j Hj. by exists j.
Qed.

(** ** All operations *)

Section ops.
Context (fo_close : Z -> Z).

Lemma call_run_ok held w p c :
  world_ok nobody held w -> room w -> has_table w p -> call_valid c (w_ft w) ->
  exists w', (s ← on_table p (fun s => s ← run_call fo_close c s; Ok (tt, s)) w; let '(_, w) := s in Ok (w, held)) =
    Ok (w', held) /\
  world_ok nobody held w' /\ forall fp, call_makes c fp = false -> no_new_fd fp w w'.
Proof.
  intros W Hroom Hp V.
  destruct (on_table_ok nobody held w p (run_call fo_close c)
    (fun d s' => forall fp, call_makes c fp = false -> derives fp d s'.2) W Hp) as (t & d & s' & Htd & D & -> & W').
  { intros t d Hpt Htd. destruct (run_call_ok fo_close _ c _ _ (world_local _ held w t d W Htd) V
      (others_room _ held w d W Hroom)) as (s' & E & L & Hr & D). by exists s'. }
  rewrite bind_Ok. eexists. split; [reflexivity|]. split; [done|]. intros fp Hm.
  apply (no_new_table fp w t d); [done | by apply D].
Qed.

Lemma use_step held w p fd need :
  world_ok nobody held w -> room w -> has_table w p -> rights_ok need ->
  exists w' held', run_op fo_close (Use p fd need) (w, held) = Ok (w', held') /\ world_ok nobody held' w' /\
  forall fp, no_new_fd fp w w'.
Proof.
  intros W Hroom Hp Hn. destruct (get_p_fd_ok nobody held w p W Hp) as (t & d & Eg & Hpt & Htd).
  pose proof (world_local _ held w t d W Htd) as L.
  destruct (fget_unlocked_ok _ (w_ft w) d fd need L Hn) as (r & ft' & E & H).
  { intros q. pose proof (others_room _ held w d W Hroom q). unfold UINT_MAX. lia. }
  cbn [run_op]. rewrite Eg, bind_Ok, E, bind_Ok.
  assert (forall fp ft2, no_new_fd fp w (MkWorld ft2 (w_fdesc w) (w_p_fd w))) as Hsame.
  { intros fp ft2 p' c H'. by exists c. }
  assert (forall error, ft' = w_ft w -> exists w' held', Ok (MkWorld ft' (w_fdesc w) (w_p_fd w),
    match @inl Z Z error with inl _ => held | inr fp => fp :: held end) = Ok (w', held') /\ world_ok nobody held' w' /\
    forall fp, no_new_fd fp w w') as Hfail.
  { intros error ->. eexists _, _. split; [reflexivity|]. split; [|intros fp; apply Hsame].
    apply (world_files nobody held held w); [done | apply W]. }
  destruct (fde_file (fde d (u32 fd))) as [fp|] eqn:Ef; [|destruct H as [-> H]; by apply Hfail].
  destruct (bool_decide (r = inr fp)) eqn:Er; [|destruct H as (-> & _ & H); by apply Hfail].
  apply bool_decide_eq_true in Er as ->. destruct H as [_ Hh]. eexists _, _. split; [reflexivity|].
  split; [|intros fp'; apply Hsame].
  destruct (fhold_ok (w_ft w) _ fp (wo_files _ _ _ W)) as (ft2 & E2 & F2 & _).
  { pose proof (local_file _ _ _ _ L Ef) as Hpos. pose proof (others_room _ held w d W Hroom fp).
    unfold others in Hpos. cbn in Hpos. pose proof (room_total _ held w W Hroom fp). unfold UINT_MAX. lia. }
  replace ft2 with ft' in * by congruence. apply (world_files nobody held (fp :: held) w ft' W).
  eapply files_ext; [|exact F2]. intros q. unfold total. rewrite held_cons. lia.
Qed.

Lemma done_step held w fp :
  world_ok nobody held w -> fp ∈ held ->
  exists w' held', run_op fo_close (Done fp) (w, held) = Ok (w', held') /\ world_ok nobody held' w' /\
  forall fp, no_new_fd fp w w'.
Proof.
  intros W Hfp. destruct (fdrop_ok fo_close (w_ft w) _ fp (wo_files _ _ _ W)) as (ft' & E & F & _).
  { unfold total. pose proof (held_pos held fp Hfp).
    pose proof (msum_nonneg (fun d => refs d fp) (w_fdesc w) (fun _ d _ => refs_nonneg d fp)). lia. }
  cbn [run_op]. rewrite E, bind_Ok. eexists _, _. split; [reflexivity|]. split.
  - apply (world_files nobody held _ w ft' W). eapply files_ext; [|exact F].
    intros q. unfold total. rewrite held_remove by done. lia.
  - intros fp' p c H. by exists c.
Qed.

Lemma run_op_ok o held w :
  world_ok nobody held w -> op_valid o (w, held) ->
  exists w' held', run_op fo_close o (w, held) = Ok (w', held') /\ world_ok nobody held' w' /\
  forall fp, op_makes o fp = false -> inherits o fp w w'.
Proof.
  intros W [Hroom V].
  assert (forall m, (exists w', m = Ok w' /\ world_ok nobody held w' /\ forall fp, no_new_fd fp w w') ->
    exists w' held', (w' ← m; Ok (w', held)) = Ok (w', held') /\ world_ok nobody held' w' /\
    forall fp, op_makes o fp = false -> inherits o fp w w') as Hw.
  { intros m (w' & -> & W' & H). exists w', held. split; [done|]. split; [done|]. intros fp _. by apply no_new_inherits. }
  destruct o.
  - destruct V as [Hp V]. destruct (call_run_ok held w p c W Hroom Hp V) as (w' & E & W' & H).
    exists w', held. split; [exact E|]. split; [done|]. intros fp Hm. by apply no_new_inherits, H.
  - destruct V as [Hp V]. destruct (use_step held w p fd need W Hroom Hp V) as (w' & held' & E & W' & H).
    exists w', held'. split; [done|]. split; [done|]. intros fp _. by apply no_new_inherits.
  - destruct (done_step held w fp W V) as (w' & held' & E & W' & H).
    exists w', held'. split; [done|]. split; [done|]. intros fp' _. by apply no_new_inherits.
  - destruct V as (Hp & Hc & Hn). destruct (fork_fd_ok held flags w p child new W Hroom Hp Hc Hn) as (w' & E & W' & H).
    exists w', held. cbn [run_op]. rewrite E, bind_Ok. split; [done|]. split; [done|]. intros fp _. apply H.
  - destruct V as (Hp & Hn & Hn' & _). apply Hw. by apply rfork_self_ok.
  - destruct V as (Hp & Hn). apply Hw. by apply exec_fd_ok.
  - apply Hw. by apply exit_fd_ok.
Qed.

Lemma boot_ok p t : world_ok nobody (boot p t).2 (boot p t).1.
Proof.
  pose proof empty_fdt as F.
  assert (fresh_table empty_table) as Hfresh by (split_and!; try done; [apply empty_use | apply empty_fde]).
  constructor; cbn [boot fst snd w_ft w_fdesc w_p_fd].
  - intros t' d [<- <-]%lookup_singleton_Some. split; [by apply fresh_tab|]. split; [|done].
    unfold users. rewrite <- insert_empty, msum_insert, msum_empty, hit_same by done. done.
  - intros p' t' [<- <-]%lookup_singleton_Some. rewrite lookup_singleton_eq. by eexists.
  - constructor; cbn [ft_files openfiles].
    + intros q. rewrite lookup_empty. unfold total. cbn [w_fdesc].
      rewrite <- insert_empty, msum_insert, msum_empty, fresh_refs by done. done.
    + by rewrite map_size_empty.
  - done.
Qed.

Lemma reachable_ok st : reachable fo_close st -> world_ok nobody st.2 st.1.
Proof.
  induction 1 as [p t|[w held] o st' R IH V E]; [apply boot_ok|].
  destruct (run_op_ok o held w IH V) as (w' & held' & E' & W' & _). rewrite E' in E. by injection E as <-.
Qed.

(** Runs of operations from a state that keeps the invariant. *)
Lemma runs_inherit ops : forall st st' fp p c,
  world_ok nobody st.2 st.1 -> runs fo_close ops st st' -> Forall (fun o => op_makes o fp = false) ops ->
  has_fd st'.1 p fp c ->
  exists p0 c0, descends ops p0 p /\ has_fd st.1 p0 fp c0 /\ caps_le c c0.
Proof.
  induction ops as [|o ops IH]; intros [w held] st' fp p c W Hr Hm H; cbn [runs] in Hr.
  { subst st'. exists p, c. by split_and!. }
  destruct Hr as (V & [w1 held1] & E & Hr). apply Forall_cons in Hm as [Hm Hms].
  destruct (run_op_ok o held w W V) as (w' & held' & E' & W' & I). rewrite E' in E. injection E as <- <-.
  destruct (IH (w', held') st' fp p c W' Hr Hms H) as (p1 & c1 & Hd & H1 & L1).
  destruct (I fp Hm p1 c1 H1) as (p0 & c0 & Hf & H0 & L0). exists p0, c0. split_and!; [|done|by etrans].
  exists p1. split; [|done]. destruct Hf as [->|Hf]; [by left | by right].
Qed.
End ops.
