(* ===== verification/FdExample.v ===== *)
(** Runs on concrete states: a checker of the conditions of operations, and a
    run of a few processes. *)

From stdpp Require Import gmap.
From S2P Require Import Prelude Priv Cred Caps CapsInv Fd FdCalls FdProc.
From S2P Require Import FdTable.
From S2P Require Import FdFiles.
From S2P Require Import FdLocal.
From S2P Require Import FdClose.
From S2P Require Import FdLocal.
From S2P Require Import FdWorld.
From S2P Require Import FdInv.
From S2P Require Import FdInv.
From S2P Require Import FdInv.

(** ** Conditions, evaluated *)

Definition roomb (w : world) : bool :=
  forallb (fun x : Z * file => f_count x.2 <? 2 ^ 31) (map_to_list (ft_files (w_ft w))) &&
  forallb (fun x : Z * filedesc => fd_refcnt x.2 <? UINT_MAX) (map_to_list (w_fdesc w)).

Lemma roomb_room w : roomb w = true -> room w.
Proof.
  intros [H1 H2]%andb_true_iff. rewrite forallb_forall in H1, H2. split.
  - intros q f Hf. specialize (H1 (q, f)). rewrite <- list_elem_of_In, elem_of_map_to_list in H1.
    by apply Z.ltb_lt, H1.
  - intros t d Hd. specialize (H2 (t, d)). rewrite <- list_elem_of_In, elem_of_map_to_list in H2.
    by apply Z.ltb_lt, H2.
Qed.

Definition raw_rightsb (r : cap_rights_t) : bool :=
  (zlength r =? 2) && forallb (fun x => (0 <=? x) && (x <? 2 ^ 64)) r.

Lemma raw_rightsb_ok r : raw_rightsb r = true -> raw_rights r.
Proof.
  intros [H1%Z.eqb_eq H2]%andb_true_iff. split; [done|]. intros i Hi. rewrite forallb_forall in H2.
  destruct (lookup_lt_is_Some_2 r (Z.to_nat i)) as [x Hx]; [unfold zlength in H1; lia|].
  rewrite (aget_lookup 0 r i x) by (done || lia). specialize (H2 x).
  rewrite <- list_elem_of_In in H2. specialize (H2 (list_elem_of_lookup_2 _ _ _ Hx)). bool_to_prop. lia.
Qed.

Definition rights_okb (r : cap_rights_t) : bool :=
  raw_rightsb r && match cap_rights_is_valid r with Ok b => b | Panic _ => false end.

Lemma rights_okb_ok r : rights_okb r = true -> rights_ok r.
Proof.
  intros [H1%raw_rightsb_ok H2]%andb_true_iff. destruct H1 as [Hl Hr].
  destruct (is_valid_spec r Hl Hr) as (v & E & Hv). rewrite E in H2. by apply Hv.
Qed.

Definition absentb {A} (m : gmap Z A) (k : Z) : bool := match m !! k with None => true | Some _ => false end.
Definition maxfdb (maxfd : Z) : bool := (0 <=? maxfd) && (maxfd <=? 2 ^ 29).

Lemma absentb_ok {A} (m : gmap Z A) k : absentb m k = true -> m !! k = None.
Proof. unfold absentb. by destruct (m !! k). Qed.
Lemma absentb_has {A} (m : gmap Z A) k : absentb m k = false -> is_Some (m !! k).
Proof. unfold absentb. destruct (m !! k); [by eexists | done]. Qed.
Lemma maxfdb_ok maxfd : maxfdb maxfd = true -> maxfd_ok maxfd.
Proof. intros H. unfold maxfd_ok. unfold maxfdb in H. bool_to_prop. lia. Qed.

Definition call_validb (c : call) (ft : ftab) : bool :=
  match c with
  | Dup maxfd _ flags _ _ => maxfdb maxfd && (Z.land flags (Z.lnot FDDUP_FLAG_CLOEXEC) =? 0)
  | Fcntl maxfd _ _ _ => maxfdb maxfd
  | CapRightsLimit _ rights => raw_rightsb rights
  | Socket _ _ maxfd fp _ _ => maxfdb maxfd && absentb (ft_files ft) fp
  | SocketPair _ _ maxfd fp1 fp2 _ _ _ _ _ _ =>
      maxfdb maxfd && absentb (ft_files ft) fp1 && absentb (ft_files ft) fp2 && negb (fp1 =? fp2)
  | _ => true
  end.

Lemma call_validb_ok c ft : call_validb c ft = true -> call_valid c ft.
Proof.
  unfold call_valid, no_file. destruct c; cbn [call_validb]; rewrite ?andb_true_iff, ?negb_true_iff, ?Z.eqb_neq, ?Z.eqb_eq;
    intuition eauto using maxfdb_ok, raw_rightsb_ok, absentb_ok.
Qed.

Definition op_validb (o : op) (st : state) : bool :=
  let '(w, held) := st in
  let tableb p := negb (absentb (w_p_fd w) p) in
  roomb w &&
  match o with
  | Call p c => tableb p && call_validb c (w_ft w)
  | Use p fd need => tableb p && rights_okb need
  | Done fp => bool_decide (fp ∈ held)
  | Fork _ p child new => tableb p && absentb (w_p_fd w) child && absentb (w_fdesc w) new
  | RforkSelf _ p new new' => tableb p && absentb (w_fdesc w) new && absentb (w_fdesc w) new' && negb (new =? new')
  | Exec p new => tableb p && absentb (w_fdesc w) new
  | Exit p => tableb p
  end.

Lemma op_validb_ok o st : op_validb o st = true -> op_valid o st.
Proof.
  destruct st as [w held]. intros [H1%roomb_room H]%andb_true_iff. split; [done|]. revert H.
  destruct o; rewrite ?andb_true_iff, ?negb_true_iff, ?Z.eqb_neq, ?bool_decide_eq_true; unfold has_table;
    intuition eauto using absentb_has, absentb_ok, call_validb_ok, rights_okb_ok.
Qed.

Section run.
Context (fo_close : Z -> Z).

(** The state after some operations, when each of them is valid. *)
Fixpoint checked_run (ops : list op) (st : state) : option state :=
  match ops with
  | [] => Some st
  | o :: ops' =>
      if op_validb o st then
        match run_op fo_close o st with Ok st1 => checked_run ops' st1 | Panic _ => None end
      else None
  end.

Lemma checked_runs ops : forall st st', checked_run ops st = Some st' -> runs fo_close ops st st'.
Proof.
  induction ops as [|o ops IH]; intros st st' H; cbn in *; [by injection H|].
  destruct (op_validb o st) eqn:V; [|done]. split; [by apply op_validb_ok|].
  destruct (run_op fo_close o st) as [st1|] eqn:E; [|done]. exists st1. split; [done|]. by apply IH.
Qed.

Lemma runs_reachable ops : forall st st', reachable fo_close st -> runs fo_close ops st st' -> reachable fo_close st'.
Proof.
  induction ops as [|o ops IH]; intros st st' R H; cbn in H; [by subst|].
  destruct H as (V & st1 & E & H). apply (IH st1 st'); [|done]. by eapply reach_op.
Qed.
End run.

(** ** A run *)

(** A process makes a socket pair, and limits its first end to reading; its
    child takes over both and duplicates the first. *)
Definition CAP_READ : Z := CAPRIGHT 0 0x1.
Definition read_only : cap_rights_t := [CAP_READ; CAPRIGHT 1 0].

Definition ex_close (fp : Z) : Z := 0.

Definition ex_setup : list op :=
  [Call 1 (SocketPair 1000 true 1024 500 501 1 0 0 0 0 0); Call 1 (CapRightsLimit 0 read_only)].
Definition ex_later : list op :=
  [Fork RFFDG 1 2 101; Call 2 (Dup 1024 FDDUP_NORMAL FDDUP_FLAG_CLOEXEC 0 5); Use 2 1 CAP_NONE; Exit 1; Exec 2 102;
   Done 501; Call 2 (CloseFrom 1)].

Definition ex_run (ops : list op) (st : state) : state := default st (checked_run ex_close ops st).

Definition ex_state : state := ex_run ex_setup (boot 1 100).
Definition ex_end : state := ex_run ex_later ex_state.

Lemma ex_state_runs : runs ex_close ex_setup (boot 1 100) ex_state.
Proof. apply checked_runs. vm_compute. reflexivity. Qed.
Lemma ex_end_runs : runs ex_close ex_later ex_state ex_end.
Proof. apply checked_runs. vm_compute. reflexivity. Qed.

Lemma ex_state_reachable : reachable ex_close ex_state.
Proof. eapply runs_reachable; [apply (reach_boot _ 1 100) | apply ex_state_runs]. Qed.
Lemma ex_end_reachable : reachable ex_close ex_end.
Proof. eapply runs_reachable; [apply ex_state_reachable | apply ex_end_runs]. Qed.

(** The table of the first process. *)
Definition ex_table : filedesc := default empty_table (w_fdesc ex_state.1 !! 100).
Definition ex_others : Z -> Z := others ex_state.1 ex_state.2 ex_table.

Lemma ex_local : local_ok ex_others (w_ft ex_state.1, ex_table).
Proof.
  apply (world_local nobody _ ex_state.1 100); [apply reachable_ok with ex_close, ex_state_reachable|].
  vm_compute. reflexivity.
Qed.

Lemma ex_room q : refs ex_table q + ex_others q < 2 ^ 31.
Proof.
  unfold ex_others. apply (others_room nobody ex_state.2);
    [apply reachable_ok with ex_close, ex_state_reachable | apply roomb_room; vm_compute; reflexivity].
Qed.
