(* ===== verification/FdProps.v ===== *)
(** The properties of file descriptors and capabilities. *)

From stdpp Require Import gmap.
From S2P Require Import Prelude Priv Cred Caps CapsInv Fd FdCalls FdProc.
From S2P Require Import FdBits.
From S2P Require Import FdTable.
From S2P Require Import FdFiles.
From S2P Require Import FdLocal.
From S2P Require Import FdLocal.
From S2P Require Import FdLocal.
From S2P Require Import FdClose.
From S2P Require Import FdClose.
From S2P Require Import FdClose.
From S2P Require Import FdCopy.
From S2P Require Import FdWorld.
From S2P Require Import FdInv.
From S2P Require Import FdInv.
From S2P Require Import FdInv.
From S2P Require Import FdExample.

Lemma ok_value {A} (m : result A) a (P : A -> Prop) : m = Ok a -> match m with Ok b => P b | Panic _ => False end -> P a.
Proof. by intros ->. Qed.

(** ** The system *)

(** C3: reference counts are exact. In every state that calls of any
    processes lead to, in any order, the count of a file is the number of the
    descriptors of all tables that refer to it and of the calls in progress
    that use it, a file without references is gone, [openfiles] is the number
    of the files, and the count of a table is the number of the processes that
    share it. *)
Theorem fd_references_exact fo_close (st : state) :
  let w := st.1 in
  let held := st.2 in
  reachable fo_close st ->
  (forall q, match ft_files (w_ft w) !! q with
             | Some f => f_count f = msum (fun d => refs d q) (w_fdesc w) + held_refs held q /\ 0 < f_count f
             | None => msum (fun d => refs d q) (w_fdesc w) = 0 /\ q ∉ held
             end) /\
  openfiles (w_ft w) = Z.of_nat (size (ft_files (w_ft w))) /\
  (forall t d, w_fdesc w !! t = Some d -> fd_refcnt d = users (w_p_fd w) t /\ 0 < fd_refcnt d) /\
  (forall p t, w_p_fd w !! p = Some t -> is_Some (w_fdesc w !! t)).
Proof.
  destruct st as [w held]. cbn [fst snd]. cbv zeta. intros [W1 W2 [W3 W4] _]%reachable_ok. cbn [fst snd] in *.
  split_and!; [|done| |done].
  - intros q. specialize (W3 q). unfold total in W3.
    pose proof (msum_nonneg (fun d => refs d q) (w_fdesc w) (fun _ d _ => refs_nonneg d q)).
    destruct (ft_files (w_ft w) !! q); [lia|]. pose proof (held_nonneg held q). split; [lia|].
    intros Hq. pose proof (held_pos held q Hq). lia.
  - intros t d Hd. destruct (W1 t d Hd) as (_ & H & Hpos). unfold nobody in H. split; [lia | done].
Qed.

Example fd_references_exact_witness :
  openfiles (w_ft ex_state.1) = 2 /\ f_count <$> (ft_files (w_ft ex_state.1) !! 500) = Some 1 /\
  openfiles (w_ft ex_state.1) = Z.of_nat (size (ft_files (w_ft ex_state.1))).
Proof.
  split; [vm_compute; reflexivity|]. split; [vm_compute; reflexivity|].
  exact (proj1 (proj2 (fd_references_exact ex_close ex_state ex_state_reachable))).
Defined.

(** C5: capabilities are not amplified. Over any run of calls of any
    processes that does not make the file anew, a process can have a
    descriptor of a file only if it, or a process from which it descends by
    the forks of the run, had one before, whose capability allows whatever the
    new one allows: rights, ioctls and fcntl commands. *)
Theorem capabilities_confined fo_close st st' ops fp p c :
  reachable fo_close st -> runs fo_close ops st st' -> Forall (fun o => op_makes o fp = false) ops ->
  has_fd st'.1 p fp c ->
  exists p0 c0, descends ops p0 p /\ has_fd st.1 p0 fp c0 /\ caps_le c c0.
Proof. intros R H Hm Hp. by eapply runs_inherit; [apply reachable_ok with fo_close| | |]. Qed.

Example capabilities_confined_witness :
  exists c, has_fd ex_end.1 2 500 c /\ exists p0 c0, descends ex_later p0 2 /\ has_fd ex_state.1 p0 500 c0 /\ caps_le c c0.
Proof.
  assert (has_fd ex_end.1 2 500 (MkCaps read_only None 0 0)) as H.
  { exists 101, (default empty_table (w_fdesc ex_end.1 !! 101)), 0. by vm_compute. }
  exists (MkCaps read_only None 0 0). split; [exact H|].
  refine (capabilities_confined ex_close ex_state ex_end ex_later 500 2 _ ex_state_reachable ex_end_runs _ H).
  unfold ex_later. repeat (constructor; [reflexivity|]). constructor.
Defined.

(** C26: every call returns. In every state that can be reached, an operation
    of any process whose arguments are those of a caller ends with a new
    state: no loop runs out, and no assertion, no access out of a table, no
    use of a freed file or table stops it. *)
Theorem fd_calls_return fo_close st o :
  reachable fo_close st -> op_valid o st -> exists st', run_op fo_close o st = Ok st'.
Proof.
  destruct st as [w held]. intros R V. apply reachable_ok in R.
  destruct (run_op_ok fo_close o held w R V) as (w' & held' & E & _). by exists (w', held').
Qed.

Example fd_calls_return_witness :
  op_valid (Exec 1 103) ex_state /\ exists st', run_op ex_close (Exec 1 103) ex_state = Ok st'.
Proof.
  assert (op_valid (Exec 1 103) ex_state) as V by (apply op_validb_ok; vm_compute; reflexivity).
  split; [exact V|]. exact (fd_calls_return ex_close ex_state (Exec 1 103) ex_state_reachable V).
Defined.

(** ** Descriptors *)

(** C27: [fdalloc] takes the lowest descriptor from [minfd] on that is not in
    use, and grows the table for it where it has to; if that descriptor is not
    below the limit, it fails with [EMFILE] and changes nothing. Every other
    descriptor, and every entry, stays as it is, and the bit map,
    [fd_lastfile] and [fd_freefile] agree again. *)
Theorem fdalloc_correct maxfd d minfd :
  fdt_ok d -> maxfd_ok maxfd -> 0 <= minfd ->
  exists fd, lowest_free d minfd fd /\
  if maxfd <=? fd then fdalloc maxfd d minfd = Ok (EMFILE, 0, d)
  else exists d', fdalloc maxfd d minfd = Ok (0, fd, d') /\ fdt_ok d' /\ fd < fd_nfiles d' /\ same_table d d' /\
    forall j, in_use d' j = (fd =? j) || in_use d j.
Proof.
  intros T Hmax Hmin. destruct (fdalloc_spec d maxfd minfd T Hmax Hmin) as (fd & Hl & H1 & H2). exists fd.
  split; [done|]. destruct (Z.leb_spec maxfd fd) as [H|H]; [by apply H1|].
  destruct (H2 H) as (d' & E & T' & S & Hn & U). by exists d'.
Qed.

Example fdalloc_correct_witness :
  fdalloc 1024 ex_table 25 = Ok (0, 25, grown (set_lastfile 25 (set_map [2 ^ 25 + 3] ex_table)) 40) /\
  exists fd, lowest_free ex_table 25 fd /\
  if 1024 <=? fd then fdalloc 1024 ex_table 25 = Ok (EMFILE, 0, ex_table)
  else exists d', fdalloc 1024 ex_table 25 = Ok (0, fd, d') /\ fdt_ok d' /\ fd < fd_nfiles d' /\ same_table ex_table d' /\
    forall j, in_use d' j = (fd =? j) || in_use ex_table j.
Proof.
  split; [vm_compute; reflexivity|].
  refine (fdalloc_correct 1024 ex_table 25 (to_fdt _ (lo_tab _ _ ex_local)) _ _); [split|]; lia.
Defined.

(** C25: [kern_dup] answers as dup, dup2 and the commands of fcntl promise: a
    copy at the lowest free descriptor from [new] on, at [new] itself, or at
    [new] if that is open, and an errno, with nothing changed, for a descriptor
    that is not open, a number out of range, or when there is no descriptor
    left. The copy refers to the same file with the same capability and its
    own close-on-exec flag; what was open there before is closed; no other
    descriptor changes; and the counts of the files follow their references. *)
Theorem kern_dup_correct fo_close X ft d maxfd mode flags old new :
  local_ok X (ft, d) -> maxfd_ok maxfd -> Z.land flags (Z.lnot FDDUP_FLAG_CLOEXEC) = 0 ->
  (forall q, refs d q + X q < UINT_MAX) ->
  exists r s', kern_dup fo_close maxfd mode flags old new (ft, d) = Ok (r, s') /\
  dup_answer d maxfd mode old new r /\
  match r with inl _ => s' = (ft, d) | inr fd => dup_table d flags old fd s'.2 end /\
  files_ok s'.1 (fun q => refs s'.2 q + X q) /\ files_kept ft s'.1.
Proof.
  intros L Hmax Hfl Hroom. destruct (kern_dup_ok fo_close X ft d maxfd mode flags old new L Hmax Hfl Hroom)
    as (r & s' & E & A & [_ F _] & K & H). by exists r, s'.
Qed.

Example kern_dup_correct_witness :
  exists s', kern_dup ex_close 1024 FDDUP_FIXED FDDUP_FLAG_CLOEXEC 0 1 (w_ft ex_state.1, ex_table) = Ok (inr 1, s') /\
  fde_flags (fde s'.2 1) = UF_EXCLOSE /\ ft_files s'.1 !! 501 = None /\ dup_table ex_table FDDUP_FLAG_CLOEXEC 0 1 s'.2.
Proof.
  destruct (kern_dup_correct ex_close ex_others (w_ft ex_state.1) ex_table 1024 FDDUP_FIXED FDDUP_FLAG_CLOEXEC 0 1
    ex_local) as (r & s' & E & _ & H & _).
  - split; lia.
  - reflexivity.
  - intros q. pose proof (ex_room q). unfold UINT_MAX. lia.
  - destruct (ok_value _ _ (fun x => x.1 = inr 1 /\ fde_flags (fde x.2.2 1) = UF_EXCLOSE /\
      ft_files x.2.1 !! 501 = None) E) as (Hr & H1 & H2).
    { vm_compute. split; [|split]; reflexivity. }
    cbn [fst snd] in Hr. rewrite Hr in E, H. exists s'. split; [exact E|]. split; [exact H1|]. split; [exact H2 | exact H].
Defined.

(** [fdcopy], by which fork, exec and rfork give a process a table of its
    own, copies every descriptor whose file may be passed on to the same
    number, with its flags and its capability, and leaves the others free; the
    new table has one user and its own bit map, and every file gets one more
    reference for each descriptor copied. *)
Theorem fdcopy_correct X ft d :
  local_ok X (ft, d) -> (forall q, refs d q + X q < 2 ^ 31) ->
  exists ft' d', fdcopy ft d = Ok (ft', d') /\ tab_ok d' /\
  (forall j, if passes ft d j then copied (fde d j) (fde d' j) else fde d' j = zero_fde) /\
  fd_refcnt d' = 1 /\ fd_cmask d' = fd_cmask d /\ files_kept ft ft' /\
  (forall q f, ft_files ft !! q = Some f -> exists f', ft_files ft' !! q = Some f' /\ f_count f' = f_count f + refs d' q).
Proof.
  intros L Hroom. destruct (fdcopy_ok X ft d L Hroom) as (ft' & d' & E & T & C & Hr & Hc & F & K).
  exists ft', d'. split_and!; try done. intros q f Hf. pose proof (fo_count _ _ (lo_files _ _ L) q) as H.
  cbn [fst snd] in H. rewrite Hf in H. pose proof (fo_count _ _ F q) as H'. pose proof (refs_nonneg d' q).
  destruct (ft_files ft' !! q) as [f'|]; [|lia]. exists f'. split; [done|]. lia.
Qed.

Example fdcopy_correct_witness :
  exists ft' d', fdcopy (w_ft ex_state.1) ex_table = Ok (ft', d') /\ fd_refcnt d' = 1 /\ tab_ok d'.
Proof.
  destruct (fdcopy_correct ex_others (w_ft ex_state.1) ex_table ex_local ex_room) as (ft' & d' & E & T & _ & Hr & _).
  exists ft', d'. split; [exact E|]. split; [exact Hr | exact T].
Defined.

(** An exec closes the descriptors that are marked close-on-exec and the
    message queues, and only those; their references are gone, and files that
    have none left with them. *)
Theorem fdcloseexec_correct fo_close X s :
  local_ok X s -> fd_refcnt s.2 = 1 ->
  exists s', fdcloseexec fo_close s = Ok s' /\ tab_ok s'.2 /\
  (forall j, fde s'.2 j = if is_open s.2 j && on_exec s.1 s.2 j then closed_entry (fde s.2 j) else fde s.2 j) /\
  files_ok s'.1 (fun q => refs s'.2 q + X q) /\ files_kept s.1 s'.1.
Proof.
  intros L Hr. destruct (closeexec_ok fo_close X s L Hr) as (s' & E & [T F _] & K & [C _ _]). by exists s'.
Qed.

Example fdcloseexec_correct_witness :
  exists s', fdcloseexec ex_close (w_ft ex_state.1, ex_table) = Ok s' /\ tab_ok s'.2.
Proof.
  destruct (fdcloseexec_correct ex_close ex_others (w_ft ex_state.1, ex_table) ex_local) as (s' & E & T & _);
    [vm_compute; reflexivity|]. exists s'. split; [exact E | exact T].
Defined.

(** C28: socketpair leaks nothing. Whatever fails, the creation of either
    socket, the first or the second descriptor, the connection of one to the
    other, or the copy of the answer, the files are those from before and the
    same descriptors are open; on success there are two new descriptors, the
    lowest two that were free, with one file each. *)
Theorem socketpair_no_leak fo_close X maxfiles privileged maxfd fp1 fp2 type
    socreate1 socreate2 soconnect1 soconnect2 copyout ft d :
  local_ok X (ft, d) -> maxfd_ok maxfd -> no_file ft fp1 -> no_file ft fp2 -> fp1 <> fp2 ->
  exists r s', sys_socketpair fo_close maxfiles privileged maxfd fp1 fp2 type
    socreate1 socreate2 soconnect1 soconnect2 copyout (ft, d) = Ok (r, s') /\
  match r with
  | inl error => error <> 0 /\ s'.1 = ft /\ same_open d s'.2
  | inr (fd1, fd2) => exists d1, fd1 < maxfd /\ fd2 < maxfd /\
      lowest_free d 0 fd1 /\ one_changed d d1 fd1 (socket_entry fp1 type) /\
      lowest_free d1 0 fd2 /\ one_changed d1 s'.2 fd2 (socket_entry fp2 type) /\
      s'.1 = with_file fp2 (socket_file type) (with_file fp1 (socket_file type) ft)
  end.
Proof.
  intros L Hmax H1 H2 Hne.
  destruct (sys_socketpair_ok fo_close X maxfiles privileged maxfd fp1 fp2 type socreate1 socreate2 soconnect1 soconnect2
    copyout ft d L Hmax H1 H2 Hne) as (r & s' & E & P & _). exists r, s'. split; [done|].
  destruct r as [error|[fd1 fd2]]; [done|]. destruct P as (d1 & ? & ? & ? & ? & ? & ? & ?). by exists d1.
Qed.

Example socketpair_no_leak_witness :
  exists r s', sys_socketpair ex_close 1000 true 1024 600 601 1 0 0 7 0 0 (w_ft ex_state.1, ex_table) = Ok (r, s') /\
  match r with inl error => error <> 0 /\ s'.1 = w_ft ex_state.1 /\ same_open ex_table s'.2 | inr _ => True end.
Proof.
  destruct (socketpair_no_leak ex_close ex_others 1000 true 1024 600 601 1 0 0 7 0 0 (w_ft ex_state.1) ex_table ex_local)
    as (r & s' & E & H).
  - split; lia.
  - vm_compute. reflexivity.
  - vm_compute. reflexivity.
  - lia.
  - exists r, s'. split; [exact E|]. destruct r; [exact H | exact I].
Defined.

(** ** Capabilities *)

(** A call gets the file of a descriptor just when the descriptor is open
    and its capability holds every right that the call needs: then the file
    has one more reference; otherwise the answer is [EBADF] or [ENOTCAPABLE]
    and nothing changes. *)
Theorem fget_unlocked_correct X ft d fd need :
  local_ok X (ft, d) -> rights_ok need -> (forall q, refs d q + X q < UINT_MAX) ->
  exists r ft', fget_unlocked fd need (ft, d) = Ok (r, ft') /\
  match fde_file (fde d (u32 fd)) with
  | None => r = inl EBADF /\ ft' = ft
  | Some fp =>
      (rights_sub need (fc_rights (fde_caps (fde d (u32 fd)))) /\ r = inr fp /\
         files_ok ft' (fun q => refs d q + X q + hit fp q) /\ files_kept ft ft') \/
      (~ rights_sub need (fc_rights (fde_caps (fde d (u32 fd)))) /\ r = inl ENOTCAPABLE /\ ft' = ft)
  end.
Proof.
  intros L Hn Hroom. destruct (fget_unlocked_ok X ft d fd need L Hn Hroom) as (r & ft' & E & H).
  exists r, ft'. split; [done|]. destruct (fde_file (fde d (u32 fd))) as [fp|] eqn:Ef; [|done].
  destruct (bool_decide (r = inr fp)) eqn:Er; [left|right; destruct H as (H1 & H2 & H3); split; [exact H2|]; split; [exact H1 | exact H3]].
  apply bool_decide_eq_true in Er as ->. destruct H as [Hs Hh]. split; [done|]. split; [done|].
  destruct (fhold_ok ft _ fp (lo_files _ _ L)) as (ft2 & E2 & F2 & K2).
  { pose proof (local_file X _ _ _ L Ef). specialize (Hroom fp). cbn in *. lia. }
  replace ft2 with ft' in * by congruence. done.
Qed.

Example fget_unlocked_correct_witness :
  exists r ft', fget_unlocked 0 CAP_ALL (w_ft ex_state.1, ex_table) = Ok (r, ft') /\ fde_file (fde ex_table 0) = Some 500 /\
  match fde_file (fde ex_table (u32 0)) with
  | None => r = inl EBADF /\ ft' = w_ft ex_state.1
  | Some fp =>
      (rights_sub CAP_ALL (fc_rights (fde_caps (fde ex_table (u32 0)))) /\ r = inr fp /\
         files_ok ft' (fun q => refs ex_table q + ex_others q + hit fp q) /\ files_kept (w_ft ex_state.1) ft') \/
      (~ rights_sub CAP_ALL (fc_rights (fde_caps (fde ex_table (u32 0)))) /\ r = inl ENOTCAPABLE /\ ft' = w_ft ex_state.1)
  end.
Proof.
  destruct (fget_unlocked_correct ex_others (w_ft ex_state.1) ex_table 0 CAP_ALL ex_local cap_all_ok) as (r & ft' & E & H).
  - intros q. pose proof (ex_room q). unfold UINT_MAX. lia.
  - exists r, ft'. split; [exact E|]. split; [vm_compute; reflexivity | exact H].
Defined.

(** Capability rights are sets. Read as the set of its bits, the rights
    that [cap_rights_merge] gives are the union, those of [cap_rights_remove]
    the difference, [cap_rights_contains] decides inclusion, and
    [cap_rights_set], [cap_rights_clear] and [cap_rights_is_set] add, remove
    and look for the rights that their arguments name; none of the assertions
    fails, and the results are valid again. *)
Theorem cap_rights_are_sets r s ap :
  rights_ok r -> rights_ok s -> Forall right_ok ap ->
  (exists m, cap_rights_merge r s = Ok m /\ rights_ok m /\
     forall i k, 0 <= i < 2 -> Z.testbit (zget m i) k = Z.testbit (zget r i) k || Z.testbit (zget s i) k) /\
  (exists m, cap_rights_remove r s = Ok m /\ rights_ok m /\
     forall i k, 0 <= i < 2 -> 0 <= k < 57 -> Z.testbit (zget m i) k = Z.testbit (zget r i) k && negb (Z.testbit (zget s i) k)) /\
  (exists c, cap_rights_contains r s = Ok c /\ (c = true <-> rights_sub s r)) /\
  (exists m, cap_rights_set r ap = Ok m /\ rights_ok m /\
     forall i k, 0 <= i < 2 -> Z.testbit (zget m i) k = Z.testbit (zget r i) k || named_right ap i k) /\
  (exists m, cap_rights_clear r ap = Ok m /\ rights_ok m /\
     forall i k, 0 <= i < 2 -> 0 <= k < 57 -> Z.testbit (zget m i) k = Z.testbit (zget r i) k && negb (named_right ap i k)) /\
  (exists c, cap_rights_is_set r ap = Ok c /\
     (c = true <-> forall i k, 0 <= i < 2 -> named_right ap i k = true -> Z.testbit (zget r i) k = true)).
Proof.
  intros Hr Hs Ha. split_and!.
  - by apply merge_spec.
  - by apply remove_spec.
  - by apply contains_ok.
  - unfold cap_rights_set, cap_rights_vset. rewrite caparsize_ok, bind_Ok by done. by apply vset_loop_spec.
  - unfold cap_rights_clear, cap_rights_vclear. rewrite caparsize_ok, bind_Ok by done. by apply vclear_loop_spec.
  - by apply is_set_spec.
Qed.

Example cap_rights_are_sets_witness :
  cap_rights_merge read_only [CAP_FCNTL; CAPRIGHT 1 0] = Ok [Z.lor CAP_READ CAP_FCNTL; CAPRIGHT 1 0] /\
  exists c, cap_rights_contains read_only [CAP_FCNTL; CAPRIGHT 1 0] = Ok c /\
    (c = true <-> rights_sub [CAP_FCNTL; CAPRIGHT 1 0] read_only).
Proof.
  split; [reflexivity|].
  refine (proj1 (proj2 (proj2 (cap_rights_are_sets read_only [CAP_FCNTL; CAPRIGHT 1 0] [] _ _ _)))).
  - apply rights_okb_ok. vm_compute. reflexivity.
  - apply rights_okb_ok. vm_compute. reflexivity.
  - constructor.
Defined.

(** The comment of [fd_last_used] bounds its result by the size it is given:
    with a size that is a multiple of a word, it looks at the next word too. *)
Lemma fd_last_used_past_size :
  exists d size r, size <= r /\ fd_last_used d size = Ok r.
Proof. exists (MkFdesc 128 [] [0; 1] 64 0 0 1), 64, 64. split; [lia|]. reflexivity. Qed.

(** [fdallocn] does not pass its [minfd] on. *)
Lemma fdallocn_below_minfd :
  exists d, fdallocn 1024 empty_table 5 2 = Ok (0, [0; 1], d).
Proof. eexists. vm_compute. reflexivity. Qed.
