(* ===== verification/Radix.v ===== *)
(** * The radix trie of a VM object's pages (src/sys/vm/vm_radix.c)

    A trie maps page indexes, 64-bit keys, to pages. A word of the trie is
    NULL, a page tagged as a leaf, or a node with 16 children: [option rptr].
    A node is reached through one word only, so a store through a pointer to
    a word is a change of the tree. Paths are compressed: a node stands for
    the keys that agree with its owner above its level.

    Nodes come from a zone of the allocator: [zone] is the number of nodes
    that are out. The allocator may fail, and while it looks for memory it may
    remove pages from the trie that the insertion is walking: [node_request]
    is what one request does. What a shift by all the 64 bits of a key gives
    is not defined in C: it is the parameter [shift_out]. *)

From S2P Require Import Prelude.

Definition VM_RADIX_WIDTH : Z := 4.
Definition VM_RADIX_COUNT : Z := Z.shiftl 1 VM_RADIX_WIDTH.
Definition VM_RADIX_MASK : Z := VM_RADIX_COUNT - 1.
Definition VM_RADIX_LIMIT : Z := howmany (8 * 8) VM_RADIX_WIDTH - 1.

Definition VM_RADIX_UNITLEVEL (lev : Z) : Z := u64 (Z.shiftl 1 (lev * VM_RADIX_WIDTH)).

Definition ENOMEM : Z := 12.

(** The fields of struct vm_page that the trie uses; a page is its address. *)
Record vm_page := Page { phys_addr : Z; pindex : Z }.

#[export] Instance vm_page_eq_dec : EqDecision vm_page.
Proof. solve_decision. Defined.

(** struct vm_radix_node. *)
Record vm_radix_node (ptr : Type) := RNode {
  rn_owner : Z;
  rn_count : Z;
  rn_clev : Z;
  rn_child : list (option ptr);
}.
Arguments RNode {_}.
Arguments rn_owner {_}.
Arguments rn_count {_}.
Arguments rn_clev {_}.
Arguments rn_child {_}.

(** A non-NULL word: a page with the leaf tag or a node. *)
#[warnings="-register-all"]
Inductive rptr :=
  | Leaf (m : vm_page)
  | Node (n : vm_radix_node rptr).

Abbreviation rnode := (vm_radix_node rptr).

Definition RT_INSERT_INPROG : Z := 1.
Definition RT_TRIE_MODIFIED : Z := 2.

(** struct vm_radix. *)
Record vm_radix := Radix { rt_root : option rptr; rt_flags : Z }.

Definition vm_radix_is_empty (rt : vm_radix) : bool :=
  match rt_root rt with None => true | Some _ => false end.

Definition vm_radix_setroot (rt : vm_radix) (r : option rptr) : vm_radix :=
  Radix r (rt_flags rt).
Definition set_flag (f : Z) (rt : vm_radix) : vm_radix :=
  Radix (rt_root rt) (Z.lor (rt_flags rt) f).
Definition clear_flag (f : Z) (rt : vm_radix) : vm_radix :=
  Radix (rt_root rt) (Z.land (rt_flags rt) (Z.lnot f)).
Definition rt_flag_set (f : Z) (rt : vm_radix) : bool := negb (Z.land (rt_flags rt) f =? 0).

(** ** Keys *)

Class ShiftOut := shift_out : Z -> Z.

Definition vm_radix_slot (index level : Z) : Z :=
  Z.land (Z.shiftr index (level * VM_RADIX_WIDTH)) VM_RADIX_MASK.

Definition vm_radix_trimkey `{ShiftOut} (index level : Z) : Z :=
  if level >? 0 then
    if level * VM_RADIX_WIDTH <? 64 then
      Z.shiftl (Z.shiftr index (level * VM_RADIX_WIDTH)) (level * VM_RADIX_WIDTH)
    else shift_out index
  else index.

(** The loop runs down from level [VM_RADIX_LIMIT]. *)
Definition vm_radix_keydiff (index1 index2 : Z) : result Z :=
  require (negb (index1 =? index2)) "vm_radix_keydiff: passing the same key value";;
  let x := Z.lxor index1 index2 in
  Ok (search_down 16 VM_RADIX_LIMIT (fun clev => negb (vm_radix_slot x clev =? 0))).

Definition vm_radix_keybarr `{ShiftOut} (n : rnode) (idx : Z) : bool :=
  if rn_clev n <? VM_RADIX_LIMIT then
    negb (vm_radix_trimkey idx (rn_clev n + 1) =? rn_owner n)
  else false.

(** ** Nodes *)

Definition child_at (n : rnode) (slot : Z) : option rptr := aget None (rn_child n) slot.

Definition set_child (n : rnode) (slot : Z) (c : option rptr) : rnode :=
  RNode (rn_owner n) (rn_count n) (rn_clev n) (aset (rn_child n) slot c).

Definition set_rn_count (n : rnode) (count : Z) : rnode :=
  RNode (rn_owner n) count (rn_clev n) (rn_child n).

(** A node as [vm_radix_node_get] returns it: the zone zeroes it. *)
Definition new_node (owner count clevel : Z) : rnode :=
  RNode owner count clevel (replicate 16 None).

(** What a request for a node does: the keys removed meanwhile, in order, and
    whether there was memory. *)
Record node_request := Request { removed_meanwhile : list Z; obtained : bool }.

Definition is_null {A} (c : option A) : bool := match c with None => true | Some _ => false end.

(** The zone's destructor. *)
Definition vm_radix_node_zone_dtor (n : rnode) : result unit :=
  require (rn_count n =? 0) "vm_radix_node_put: rnode has children";;
  require (forallb is_null (rn_child n)) "vm_radix_node_put: rnode has a child".

Definition vm_radix_node_put (n : rnode) (zone : Z) : result Z :=
  vm_radix_node_zone_dtor n;; Ok (zone - 1).

Definition vm_radix_addpage (n : rnode) (index clev : Z) (page : vm_page) : rnode :=
  set_child n (vm_radix_slot index clev) (Some (Leaf page)).

(** Levels decrease from [VM_RADIX_LIMIT] along a path, so 17 words reach the
    end of any path. *)
Definition path_fuel : nat := 17.

(** ** Lookup *)

Definition vm_radix_is_singleton (rt : vm_radix) : bool :=
  match rt_root rt with Some (Leaf _) => true | _ => false end.

Fixpoint lookup_loop `{ShiftOut} (fuel : nat) (r : option rptr) (index : Z) : result (option vm_page) :=
  match fuel with
  | O => Panic "fuel"
  | S fuel =>
      match r with
      | None => Ok None
      | Some (Leaf m) => if pindex m =? index then Ok (Some m) else Ok None
      | Some (Node n) =>
          if vm_radix_keybarr n index then Ok None
          else lookup_loop fuel (child_at n (vm_radix_slot index (rn_clev n))) index
      end
  end.

Definition vm_radix_lookup `{ShiftOut} (rt : vm_radix) (index : Z) : result (option vm_page) :=
  lookup_loop path_fuel (rt_root rt) index.

(** ** Insertion *)

(** Where the walk of [vm_radix_insert] ends: at a free slot, the page stored
    there, or where a node of level [clev] is needed; [store] is the tree when
    that node is given its two children and stored through [parentp]. *)
Inductive walk_end :=
  | Stored (r : rptr)
  | NeedsNode (clev : Z) (store : rnode -> rptr).

(** The end of a walk below slot [slot] of node [n]. *)
Definition walk_below (n : rnode) (slot : Z) (w : walk_end) : walk_end :=
  match w with
  | Stored r => Stored (Node (set_child n slot (Some r)))
  | NeedsNode clev store =>
      NeedsNode clev (fun tmp => Node (set_child n slot (Some (store tmp))))
  end.

Fixpoint insert_walk `{ShiftOut} (fuel : nat) (r : rptr) (page : vm_page) : result walk_end :=
  match fuel with
  | O => Panic "fuel"
  | S fuel =>
      let index := pindex page in
      match r with
      | Leaf m =>
          if pindex m =? index then Panic "vm_radix_insert: key is already present"
          else
            clev ← vm_radix_keydiff (pindex m) index;
            Ok (NeedsNode clev (fun tmp =>
                  Node (vm_radix_addpage (vm_radix_addpage tmp index clev page)
                          (pindex m) clev m)))
      | Node n =>
          if vm_radix_keybarr n index then
            let newind := rn_owner n in
            clev ← vm_radix_keydiff newind index;
            Ok (NeedsNode clev (fun tmp =>
                  Node (set_child (vm_radix_addpage tmp index clev page)
                          (vm_radix_slot newind clev) (Some (Node n)))))
          else
            let slot := vm_radix_slot index (rn_clev n) in
            match child_at n slot with
            | None =>
                Ok (Stored (Node (vm_radix_addpage (set_rn_count n (rn_count n + 1))
                                    index (rn_clev n) page)))
            | Some c => w ← insert_walk fuel c page; Ok (walk_below n slot w)
            end
      end
  end.

(** ** Removal *)

(** The loop of [vm_radix_remove] from the node [n]: what the word that holds
    [n] holds afterwards. *)
Fixpoint remove_loop (fuel : nat) (n : rnode) (index zone : Z) : result (option rptr * Z) :=
  match fuel with
  | O => Panic "fuel"
  | S fuel =>
      let slot := vm_radix_slot index (rn_clev n) in
      match child_at n slot with
      | Some (Leaf m) =>
          require (pindex m =? index) "vm_radix_remove: invalid key found";;
          let n1 := set_rn_count (set_child n slot None) (rn_count n - 1) in
          if rn_count n1 >? 1 then Ok (Some (Node n1), zone)
          else
            let i := search 16 0 (fun i => negb (is_null (child_at n1 i))) in
            require (negb (i =? VM_RADIX_COUNT)) "vm_radix_remove: invalid node configuration";;
            let c := child_at n1 i in
            zone ← vm_radix_node_put (set_child (set_rn_count n1 (rn_count n1 - 1)) i None) zone;
            Ok (c, zone)
      | Some (Node n') =>
          '(c, zone) ← remove_loop fuel n' index zone;
          Ok (Some (Node (set_child n slot c)), zone)
      | None => Panic "vm_radix_remove: impossible to locate the key"
      end
  end.

Definition vm_radix_remove (rt : vm_radix) (index zone : Z) : result (vm_radix * Z) :=
  let rt := if rt_flag_set RT_INSERT_INPROG rt then set_flag RT_TRIE_MODIFIED rt else rt in
  match rt_root rt with
  | Some (Leaf m) =>
      require (pindex m =? index) "vm_radix_remove: invalid key found";;
      Ok (vm_radix_setroot rt None, zone)
  | Some (Node n) =>
      '(r, zone) ← remove_loop path_fuel n index zone;
      Ok (vm_radix_setroot rt r, zone)
  | None => Panic "vm_radix_remove: impossible to locate the key"
  end.

(** ** Requests for nodes, and the insertion *)

Fixpoint remove_all (rt : vm_radix) (ks : list Z) (zone : Z) : result (vm_radix * Z) :=
  match ks with
  | [] => Ok (rt, zone)
  | k :: ks => '(rt, zone) ← vm_radix_remove rt k zone; remove_all rt ks zone
  end.

(** [vm_radix_node_get] while the trie [rt] is being walked. *)
Definition vm_radix_node_get (req : node_request) (rt : vm_radix) (zone owner count clevel : Z)
    : result (option rnode * vm_radix * Z) :=
  '(rt, zone) ← remove_all rt (removed_meanwhile req) zone;
  if obtained req then Ok (Some (new_node owner count clevel), rt, zone + 1)
  else Ok (None, rt, zone).

(** [vm_radix_insert]: the successive requests do what [reqs] says, and find
    memory undisturbed when [reqs] is used up. Each request that makes the
    insertion start again uses one of them, so the recursion is structural. *)
Fixpoint vm_radix_insert `{ShiftOut} (reqs : list node_request) (rt : vm_radix)
    (page : vm_page) (zone : Z) : result (Z * vm_radix * Z) :=
  match rt_root rt with
  | None => Ok (0, vm_radix_setroot rt (Some (Leaf page)), zone)
  | Some r =>
      w ← insert_walk path_fuel r page;
      match w with
      | Stored r' => Ok (0, vm_radix_setroot rt (Some r'), zone)
      | NeedsNode clev store =>
          let owner := vm_radix_trimkey (pindex page) (clev + 1) in
          match reqs with
          | [] =>
              Ok (0, vm_radix_setroot rt (Some (store (new_node owner 2 clev))), zone + 1)
          | req :: reqs =>
              '(tmp, rt, zone) ←
                vm_radix_node_get req (set_flag RT_INSERT_INPROG rt) zone owner 2 clev;
              let rt := clear_flag RT_INSERT_INPROG rt in
              match tmp with
              | None => Ok (ENOMEM, clear_flag RT_TRIE_MODIFIED rt, zone)
              | Some tmp =>
                  if rt_flag_set RT_TRIE_MODIFIED rt then
                    zone ← vm_radix_node_put (set_rn_count tmp 0) zone;
                    vm_radix_insert reqs (clear_flag RT_TRIE_MODIFIED rt) page zone
                  else Ok (0, vm_radix_setroot rt (Some (store tmp)), zone)
              end
          end
      end
  end.

(** ** Replacement and reclamation *)

Fixpoint replace_loop `{ShiftOut} (fuel : nat) (n : rnode) (newpage : vm_page)
    : result (rnode * vm_page) :=
  match fuel with
  | O => Panic "fuel"
  | S fuel =>
      let index := pindex newpage in
      let slot := vm_radix_slot index (rn_clev n) in
      match child_at n slot with
      | Some (Leaf m) =>
          if pindex m =? index then Ok (set_child n slot (Some (Leaf newpage)), m)
          else Panic "vm_radix_replace: original replacing page not found"
      | Some (Node n') =>
          if vm_radix_keybarr n' index then
            Panic "vm_radix_replace: original replacing page not found"
          else
            '(n'', m) ← replace_loop fuel n' newpage;
            Ok (set_child n slot (Some (Node n'')), m)
      | None => Panic "vm_radix_replace: original replacing page not found"
      end
  end.

Definition vm_radix_replace `{ShiftOut} (rt : vm_radix) (newpage : vm_page)
    : result (vm_radix * vm_page) :=
  match rt_root rt with
  | None => Panic "vm_radix_replace: replacing page on an empty trie"
  | Some (Leaf m) =>
      if pindex m =? pindex newpage then
        Ok (vm_radix_setroot rt (Some (Leaf newpage)), m)
      else Panic "vm_radix_replace: original replacing root key not found"
  | Some (Node n) =>
      '(n', m) ← replace_loop path_fuel n newpage;
      Ok (vm_radix_setroot rt (Some (Node n')), m)
  end.

(** The loop over the slots of a node from [slot], [todo] of them left, with
    [rec] for the recursive call; it runs until the node's count is 0. *)
Fixpoint reclaim_slots (rec : rnode -> Z -> result Z) (todo : nat) (slot : Z)
    (n : rnode) (zone : Z) : result (rnode * Z) :=
  if rn_count n =? 0 then Ok (n, zone)
  else
    match todo with
    | O => Panic "fuel"
    | S todo =>
        match child_at n slot with
        | None => reclaim_slots rec todo (slot + 1) n zone
        | Some c =>
            zone ← match c with Leaf _ => Ok zone | Node n' => rec n' zone end;
            reclaim_slots rec todo (slot + 1)
              (set_rn_count (set_child n slot None) (rn_count n - 1)) zone
        end
    end.

Fixpoint vm_radix_reclaim_allnodes_int (fuel : nat) (n : rnode) (zone : Z) : result Z :=
  match fuel with
  | O => Panic "fuel"
  | S fuel =>
      require (rn_count n <=? VM_RADIX_COUNT) "vm_radix_reclaim_allnodes_int: bad count in rnode";;
      '(n, zone) ← reclaim_slots (vm_radix_reclaim_allnodes_int fuel) 16 0 n zone;
      vm_radix_node_put n zone
  end.

Definition vm_radix_reclaim_allnodes (rt : vm_radix) (zone : Z) : result (vm_radix * Z) :=
  require (negb (rt_flag_set RT_INSERT_INPROG rt))
    "vm_radix_reclaim_allnodes: unexpected trie recursion";;
  match rt_root rt with
  | None => Ok (rt, zone)
  | Some (Leaf _) => Ok (vm_radix_setroot rt None, zone)
  | Some (Node n) =>
      zone ← vm_radix_reclaim_allnodes_int path_fuel n zone;
      Ok (vm_radix_setroot rt None, zone)
  end.

(** ** The nearest page at or above an index *)

(** Where the search goes from a node. *)
Inductive scan_end :=
  | Found (m : vm_page)
  | Descend (child : rnode) (index : Z)
  | Exhausted (index : Z).

(** The [do] loop over the slots above [slot], with [todo] of them. *)
Fixpoint ge_slots (todo : nat) (n : rnode) (slot index : Z) : scan_end :=
  match todo with
  | O => Exhausted index
  | S todo =>
      let index := u64 (index + VM_RADIX_UNITLEVEL (rn_clev n)) in
      let slot := slot + 1 in
      match child_at n slot with
      | Some (Leaf m) => if pindex m >=? index then Found m else ge_slots todo n slot index
      | Some (Node c) => Descend c index
      | None => ge_slots todo n slot index
      end
  end.

(** The part of the loop from the computation of the slot on. *)
Definition ge_scan `{ShiftOut} (n : rnode) (index : Z) : scan_end :=
  let slot := vm_radix_slot index (rn_clev n) in
  let upwards :=
    if slot <? VM_RADIX_COUNT - 1 then
      ge_slots (Z.to_nat (VM_RADIX_COUNT - 1 - slot)) n slot
        (vm_radix_trimkey index (rn_clev n))
    else Exhausted index in
  match child_at n slot with
  | Some (Leaf m) => if pindex m >=? index then Found m else upwards
  | Some (Node c) => Descend c index
  | None => upwards
  end.

(** The [do] loop that pops nodes; [None] when the stack is empty. *)
Fixpoint ge_pop (stack : list rnode) (index : Z) : option (rnode * list rnode) :=
  match stack with
  | [] => None
  | n :: stack =>
      if vm_radix_slot index (rn_clev n) =? VM_RADIX_COUNT - 1 then ge_pop stack index
      else Some (n, stack)
  end.

(** Where an iteration is entered: at its head or at the label [ascend]. *)
Inductive entry := Head | Ascend.

(** The values of [loops], [rnode], [stack] and [index]. *)
Definition cursor : Type := Z * rnode * list rnode * Z.

(** From [ascend] to the computation of the slot; [None]: the search is over. *)
Definition ge_ascend `{ShiftOut} (loops : Z) (stack : list rnode) (index : Z)
    : result (option cursor) :=
  require (loops + 1 <? 1000) "vm_radix_lookup_ge: too many loops";;
  match ge_pop stack index with
  | None => Ok None
  | Some (n, stack) =>
      let index := u64 (vm_radix_trimkey index (rn_clev n) + VM_RADIX_UNITLEVEL (rn_clev n)) in
      require (negb (vm_radix_keybarr n index)) "vm_radix_lookup_ge: keybarr failed";;
      Ok (Some (loops + 1, n, stack, index))
  end.

(** From an entry of the iteration to the computation of the slot. *)
Definition ge_enter `{ShiftOut} (e : entry) (loops : Z) (n : rnode) (stack : list rnode)
    (index : Z) : result (option cursor) :=
  match e with
  | Ascend => ge_ascend loops stack index
  | Head =>
      if vm_radix_keybarr n index then
        if index >? rn_owner n then ge_ascend loops stack index
        else
          let index := rn_owner n in
          require (negb (vm_radix_keybarr n index)) "vm_radix_lookup_ge: keybarr failed";;
          Ok (Some (loops, n, stack, index))
      else Ok (Some (loops, n, stack, index))
  end.

(** The [for] loop. The check that the last child seen is not a node holds
    where [ge_scan] is exhausted: it stops at a node. *)
Fixpoint ge_loop `{ShiftOut} (fuel : nat) (e : entry) (loops : Z) (n : rnode)
    (stack : list rnode) (index : Z) : result (option vm_page) :=
  match fuel with
  | O => Panic "fuel"
  | S fuel =>
      p ← ge_enter e loops n stack index;
      match p with
      | None => Ok None
      | Some (loops, n, stack, index) =>
          match ge_scan n index with
          | Found m => Ok (Some m)
          | Descend c index =>
              require (rn_clev n >? 0) "vm_radix_lookup_ge: pushing leaf's parent";;
              require (zlength stack <? VM_RADIX_LIMIT) "vm_radix_lookup_ge: stack overflow";;
              ge_loop fuel Head loops c (n :: stack) index
          | Exhausted index => ge_loop fuel Ascend loops n stack index
          end
      end
  end.

(** Each level of the trie is entered once from above and at most once from
    below, and a last descent has at most 16 levels. *)
Definition search_fuel : nat := 48.

Definition vm_radix_lookup_ge `{ShiftOut} (rt : vm_radix) (index : Z) : result (option vm_page) :=
  match rt_root rt with
  | None => Ok None
  | Some (Leaf m) => Ok (if pindex m >=? index then Some m else None)
  | Some (Node n) => ge_loop search_fuel Head 0 n [] index
  end.

(** ** The nearest page at or below an index *)

Fixpoint le_slots (todo : nat) (n : rnode) (slot index : Z) : scan_end :=
  match todo with
  | O => Exhausted index
  | S todo =>
      let index := u64 (index - VM_RADIX_UNITLEVEL (rn_clev n)) in
      let slot := slot - 1 in
      match child_at n slot with
      | Some (Leaf m) => if pindex m <=? index then Found m else le_slots todo n slot index
      | Some (Node c) => Descend c index
      | None => le_slots todo n slot index
      end
  end.

Definition le_scan (n : rnode) (index : Z) : scan_end :=
  let slot := vm_radix_slot index (rn_clev n) in
  let downwards :=
    if slot >? 0 then
      le_slots (Z.to_nat slot) n slot
        (Z.lor index (u64 (VM_RADIX_UNITLEVEL (rn_clev n) - 1)))
    else Exhausted index in
  match child_at n slot with
  | Some (Leaf m) => if pindex m <=? index then Found m else downwards
  | Some (Node c) => Descend c index
  | None => downwards
  end.

Fixpoint le_pop (stack : list rnode) (index : Z) : option (rnode * list rnode) :=
  match stack with
  | [] => None
  | n :: stack =>
      if vm_radix_slot index (rn_clev n) =? 0 then le_pop stack index
      else Some (n, stack)
  end.

Definition le_ascend `{ShiftOut} (loops : Z) (stack : list rnode) (index : Z)
    : result (option cursor) :=
  require (loops + 1 <? 1000) "vm_radix_lookup_le: too many loops";;
  match le_pop stack index with
  | None => Ok None
  | Some (n, stack) =>
      let index := u64 (vm_radix_trimkey index (rn_clev n) - 1) in
      require (negb (vm_radix_keybarr n index)) "vm_radix_lookup_le: keybarr failed";;
      Ok (Some (loops + 1, n, stack, index))
  end.

Definition le_enter `{ShiftOut} (e : entry) (loops : Z) (n : rnode) (stack : list rnode)
    (index : Z) : result (option cursor) :=
  match e with
  | Ascend => le_ascend loops stack index
  | Head =>
      if vm_radix_keybarr n index then
        if index >? rn_owner n then
          let index := u64 (rn_owner n + VM_RADIX_COUNT * VM_RADIX_UNITLEVEL (rn_clev n)) in
          let index := u64 (index - 1) in
          require (negb (vm_radix_keybarr n index)) "vm_radix_lookup_le: keybarr failed";;
          Ok (Some (loops, n, stack, index))
        else le_ascend loops stack index
      else Ok (Some (loops, n, stack, index))
  end.

Fixpoint le_loop `{ShiftOut} (fuel : nat) (e : entry) (loops : Z) (n : rnode)
    (stack : list rnode) (index : Z) : result (option vm_page) :=
  match fuel with
  | O => Panic "fuel"
  | S fuel =>
      p ← le_enter e loops n stack index;
      match p with
      | None => Ok None
      | Some (loops, n, stack, index) =>
          match le_scan n index with
          | Found m => Ok (Some m)
          | Descend c index =>
              require (rn_clev n >? 0) "vm_radix_lookup_le: pushing leaf's parent";;
              require (zlength stack <? VM_RADIX_LIMIT) "vm_radix_lookup_le: stack overflow";;
              le_loop fuel Head loops c (n :: stack) index
          | Exhausted index => le_loop fuel Ascend loops n stack index
          end
      end
  end.

Definition vm_radix_lookup_le `{ShiftOut} (rt : vm_radix) (index : Z) : result (option vm_page) :=
  match rt_root rt with
  | None => Ok None
  | Some (Leaf m) => Ok (if pindex m <=? index then Some m else None)
  | Some (Node n) => le_loop search_fuel Head 0 n [] index
  end.
