(* ===== verification/RadixInv.v ===== *)
(** * The invariant of a radix trie

    [wf lo lev r]: the word [r] holds pages of the [16 ^ lev] keys from [lo]
    on. A node of level [clev] splits the keys from its base in 16 ranges of
    [16 ^ clev] keys; its base is its owner, except for a node of the top
    level, whose owner is never read. [holds r m]: page [m] is below [r]. *)

From S2P Require Import Prelude Radix.

(** ** Sums over the words of a node *)

Section lsum.
Context {A : Type} (f : A -> Z).

Fixpoint lsum (l : list A) : Z :=
  match l with [] => 0 | x :: l => f x + lsum l end.

Lemma lsum_aset d l i x :
  0 <= i < zlength l -> lsum (aset l i x) = lsum l - f (aget d l i) + f x.
Proof.
  unfold aset, aget, zlength. intros Hi. ztest.
  assert (Z.to_nat i < length l)%nat as Hn by lia. clear Hi. revert Hn.
  generalize (Z.to_nat i). induction l as [|y l IH]; intros [|n] Hn; simpl in *; try lia.
  change (list_insert n x l) with (<[n := x]> l). rewrite IH by lia. lia.
Qed.

Lemma lsum_ge d l i :
  (forall x, 0 <= f x) -> 0 <= i < zlength l -> f (aget d l i) <= lsum l.
Proof.
  unfold aget, zlength. intros Hf Hi. ztest.
  assert (Z.to_nat i < length l)%nat as Hn by lia. clear Hi. revert Hn.
  assert (forall l', 0 <= lsum l') as H0.
  { intros l'. induction l' as [|y l' IH]; simpl; [lia|]. pose proof (Hf y). lia. }
  generalize (Z.to_nat i). induction l as [|y l IH]; intros [|n] Hn; simpl in *; try lia.
  - pose proof (H0 l). lia.
  - pose proof (Hf y). pose proof (IH n ltac:(lia)). lia.
Qed.

Lemma lsum_zero l : (forall x, 0 <= f x) -> lsum l = 0 -> forall x, x ∈ l -> f x = 0.
Proof.
  intros Hf. induction l as [|y l IH]; simpl; intros Hs x Hx; [by apply elem_of_nil in Hx|].
  assert (0 <= lsum l) as H0.
  { clear -Hf. induction l as [|z l IH]; simpl; [lia|]. pose proof (Hf z). lia. }
  pose proof (Hf y). apply elem_of_cons in Hx as [->|Hx]; [lia|]. apply IH; [lia | done].
Qed.

Lemma lsum_pos_inv d l :
  lsum l <> 0 -> exists i, 0 <= i < zlength l /\ f (aget d l i) <> 0.
Proof.
  induction l as [|y l IH]; simpl; [done|]. intros Hs.
  destruct (decide (f y = 0)) as [E|E].
  - destruct IH as (i & Hi & Hx); [lia|]. exists (i + 1). unfold zlength in *. simpl.
    split; [lia|]. revert Hx. unfold aget. ztest.
    by replace (Z.to_nat (i + 1)) with (S (Z.to_nat i)) by lia.
  - exists 0. unfold zlength. simpl. split; [lia | done].
Qed.
End lsum.

Definition live (c : option rptr) : Z := if is_null c then 0 else 1.
Definition live_count (n : rnode) : Z := lsum live (rn_child n).

(** The number of nodes below a word, itself included. *)
Fixpoint nodes (r : rptr) : Z :=
  match r with
  | Leaf _ => 0
  | Node n => 1 + lsum (fun c => match c with None => 0 | Some r => nodes r end) (rn_child n)
  end.
Definition onodes (c : option rptr) : Z := match c with None => 0 | Some r => nodes r end.

(** ** The invariant *)

(** A node of base [b]. *)
Record node_ok (b : Z) (n : rnode) : Prop := NodeOk {
  ok_clev : 0 <= rn_clev n <= 15;
  ok_range : 0 <= b /\ b + 16 ^ (rn_clev n + 1) <= 2 ^ 64;
  ok_base : b mod 16 ^ (rn_clev n + 1) = 0;
  ok_owner : rn_clev n < 15 -> rn_owner n = b;
  ok_length : zlength (rn_child n) = 16;
  ok_count : rn_count n = live_count n;
}.

Inductive wf : Z -> Z -> rptr -> Prop :=
  | wf_leaf lo lev m : lo <= pindex m < lo + 16 ^ lev -> wf lo lev (Leaf m)
  | wf_node lo lev b n :
      node_ok b n -> rn_clev n < lev ->
      lo <= b -> b + 16 ^ (rn_clev n + 1) <= lo + 16 ^ lev ->
      2 <= rn_count n ->
      (forall j c, 0 <= j < 16 -> child_at n j = Some c ->
         wf (b + j * 16 ^ rn_clev n) (rn_clev n) c) ->
      wf lo lev (Node n).

Definition root_ok (r : option rptr) : Prop :=
  match r with None => True | Some r => wf 0 16 r end.

Inductive holds : rptr -> vm_page -> Prop :=
  | holds_leaf m : holds (Leaf m) m
  | holds_node n j c m :
      0 <= j < 16 -> child_at n j = Some c -> holds c m -> holds (Node n) m.

Definition oholds (r : option rptr) (m : vm_page) : Prop :=
  match r with None => False | Some r => holds r m end.

(** A 64-bit key. *)
Definition is_key (i : Z) : Prop := 0 <= i < 2 ^ 64.

(** ** Digits of keys *)

Lemma pow16_pos c : 0 <= c -> 0 < 16 ^ c.
Proof. intros. by apply Z.pow_pos_nonneg. Qed.

Lemma pow16_succ c : 0 <= c -> 16 ^ (c + 1) = 16 * 16 ^ c.
Proof. intros. by rewrite Z.add_1_r, Z.pow_succ_r. Qed.

Lemma pow16_bits c : 0 <= c -> 2 ^ (c * VM_RADIX_WIDTH) = 16 ^ c.
Proof.
  intros. unfold VM_RADIX_WIDTH. rewrite Z.mul_comm, Z.pow_mul_r by lia. done.
Qed.

Lemma pow16_16 : 16 ^ 16 = 2 ^ 64.
Proof. reflexivity. Qed.

Lemma pow16_mono a b : 0 <= a <= b -> 16 ^ a <= 16 ^ b.
Proof. intros. apply Z.pow_le_mono_r; lia. Qed.

Lemma unitlevel_eq c : 0 <= c <= 15 -> VM_RADIX_UNITLEVEL c = 16 ^ c.
Proof.
  intros. unfold VM_RADIX_UNITLEVEL, u64. rewrite Z.shiftl_1_l, pow16_bits by lia.
  apply Z.mod_small. split; [pose proof (pow16_pos c); lia|].
  rewrite <- pow16_16. apply Z.pow_lt_mono_r; lia.
Qed.

Lemma slot_eq i c : 0 <= c -> vm_radix_slot i c = (i / 16 ^ c) mod 16.
Proof.
  intros. unfold vm_radix_slot. change VM_RADIX_MASK with (Z.ones 4).
  rewrite Z.land_ones by lia. rewrite Z.shiftr_div_pow2 by (unfold VM_RADIX_WIDTH; lia).
  by rewrite pow16_bits by lia.
Qed.

Lemma slot_range i c : 0 <= c -> 0 <= vm_radix_slot i c < 16.
Proof. intros. rewrite slot_eq by done. apply Z.mod_pos_bound. lia. Qed.

Section keys.
Context `{ShiftOut}.

Lemma trimkey_eq i c : 0 <= c <= 15 -> vm_radix_trimkey i c = 16 ^ c * (i / 16 ^ c).
Proof.
  intros. unfold vm_radix_trimkey. rewrite Z.gtb_ltb. zcase.
  - replace (c * VM_RADIX_WIDTH <? 64) with true
      by (unfold VM_RADIX_WIDTH; symmetry; apply Z.ltb_lt; lia).
    rewrite Z.shiftl_mul_pow2, Z.shiftr_div_pow2 by (unfold VM_RADIX_WIDTH; lia).
    rewrite pow16_bits by lia. lia.
  - replace c with 0 by lia. rewrite Z.pow_0_r, Z.div_1_r. lia.
Qed.

(** The range of a slot in a node of base [b]. *)
Lemma slot_iff b c i s :
  0 <= c -> b mod 16 ^ (c + 1) = 0 -> b <= i < b + 16 ^ (c + 1) -> 0 <= s < 16 ->
  vm_radix_slot i c = s <-> b + s * 16 ^ c <= i < b + (s + 1) * 16 ^ c.
Proof.
  intros Hc Hb Hi Hs. rewrite slot_eq by done. rewrite pow16_succ in * by done.
  pose proof (pow16_pos c Hc) as HW. set (W := 16 ^ c) in *.
  apply Z.mod_divide in Hb as [q ->]; [|lia].
  replace i with ((i - q * (16 * W)) + (q * 16) * W) by lia.
  rewrite Z.div_add by lia. rewrite Z.mod_add by lia.
  set (x := i - q * (16 * W)) in *. assert (0 <= x < 16 * W) as Hx by lia.
  rewrite Z.mod_small by (split; [apply Z.div_pos; lia | apply Z.div_lt_upper_bound; lia]).
  pose proof (Z.div_mod x W ltac:(lia)). pose proof (Z.mod_pos_bound x W HW).
  split; intros; nia.
Qed.

Lemma slot_bounds b c i :
  0 <= c -> b mod 16 ^ (c + 1) = 0 -> b <= i < b + 16 ^ (c + 1) ->
  b + vm_radix_slot i c * 16 ^ c <= i < b + (vm_radix_slot i c + 1) * 16 ^ c.
Proof.
  intros Hc Hb Hi. apply (slot_iff b c i); [done | done | done | | done].
  by apply slot_range.
Qed.

Lemma trim_bounds b c i :
  0 <= c <= 15 -> b mod 16 ^ (c + 1) = 0 -> b <= i < b + 16 ^ (c + 1) ->
  vm_radix_trimkey i c = b + vm_radix_slot i c * 16 ^ c.
Proof.
  intros Hc Hb Hi. pose proof (slot_bounds b c i ltac:(lia) Hb Hi) as HB.
  rewrite trimkey_eq by done.
  pose proof (pow16_pos c ltac:(lia)) as HW. rewrite pow16_succ in * by lia.
  apply Z.mod_divide in Hb as [q ->]; [|lia]. set (W := 16 ^ c) in *.
  set (s := vm_radix_slot i c) in *.
  rewrite <- (Z.div_unique_pos i W (16 * q + s) (i - W * (16 * q + s))); nia.
Qed.

Lemma ranges_apart b W j s i :
  0 < W -> b + j * W <= i < b + (j + 1) * W -> b + s * W <= i < b + (s + 1) * W -> j = s.
Proof. intros. nia. Qed.

(** A level is aligned in any higher one. *)
Lemma aligned_down b c d : 0 <= c <= d -> b mod 16 ^ d = 0 -> b mod 16 ^ c = 0.
Proof.
  intros Hc Hb. pose proof (pow16_pos d). pose proof (pow16_pos c).
  apply Z.mod_divide in Hb as [q ->]; [|lia].
  replace d with (c + (d - c)) by lia. rewrite Z.pow_add_r by lia.
  rewrite Z.mul_assoc, Z.mul_shuffle0. apply Z.mod_mul. lia.
Qed.

Lemma aligned_slot b c j : 0 <= c -> b mod 16 ^ (c + 1) = 0 -> (b + j * 16 ^ c) mod 16 ^ c = 0.
Proof.
  intros Hc Hb. pose proof (pow16_pos c Hc). rewrite Z.mod_add by lia.
  by apply (aligned_down b c (c + 1)); [lia|].
Qed.

(** The blocks of [16 ^ d] keys are equal or apart. *)
Lemma block_eq b d i : 0 <= d -> b mod 16 ^ d = 0 ->
  16 ^ d * (i / 16 ^ d) = b <-> b <= i < b + 16 ^ d.
Proof.
  intros Hd Hb. pose proof (pow16_pos d Hd) as HW. set (W := 16 ^ d) in *.
  apply Z.mod_divide in Hb as [q ->]; [|lia].
  pose proof (Z.div_mod i W ltac:(lia)). pose proof (Z.mod_pos_bound i W HW).
  split; intros Hi; [lia|].
  rewrite <- (Z.div_unique_pos i W q (i - q * W)); lia.
Qed.

Lemma keybarr_spec b n i :
  node_ok b n -> is_key i ->
  vm_radix_keybarr n i = negb ((b <=? i) && (i <? b + 16 ^ (rn_clev n + 1))).
Proof.
  intros [Hc Hr Hb Ho _ _] Hi. unfold vm_radix_keybarr.
  change VM_RADIX_LIMIT with 15. destruct (Z.ltb_spec (rn_clev n) 15).
  - rewrite trimkey_eq, Ho by lia. f_equal. apply Bool.eq_iff_eq_true.
    rewrite Z.eqb_eq, andb_true_iff, Z.leb_le, Z.ltb_lt. apply block_eq; [lia | done].
  - assert (rn_clev n = 15) as E by lia. rewrite E in *. change (15 + 1) with 16 in *.
    rewrite pow16_16 in *. assert (b = 0) as -> by lia. unfold is_key in Hi. ztest. done.
Qed.

Lemma keybarr_false b n i :
  node_ok b n -> b <= i < b + 16 ^ (rn_clev n + 1) -> vm_radix_keybarr n i = false.
Proof.
  intros Hn Hi. pose proof (ok_range _ _ Hn).
  rewrite (keybarr_spec b) by (try done; unfold is_key; lia). by ztest.
Qed.

Lemma keybarr_cases b n i :
  node_ok b n -> is_key i ->
  (vm_radix_keybarr n i = false /\ b <= i < b + 16 ^ (rn_clev n + 1)) \/
  (vm_radix_keybarr n i = true /\ rn_owner n = b /\ rn_clev n < 15 /\
   (i < b \/ b + 16 ^ (rn_clev n + 1) <= i)).
Proof.
  intros Hn Hi. pose proof (keybarr_spec b n i Hn Hi) as E.
  destruct (vm_radix_keybarr n i) eqn:Hk; [right | left]; split; try done.
  - symmetry in E. apply negb_true_iff, andb_false_iff in E.
    rewrite Z.leb_gt, Z.ltb_ge in E.
    assert (rn_clev n < 15) as Hc.
    { revert Hk. unfold vm_radix_keybarr. change VM_RADIX_LIMIT with 15.
      by destruct (Z.ltb_spec (rn_clev n) 15). }
    split; [by apply (ok_owner _ _ Hn) | lia].
  - symmetry in E. apply negb_false_iff, andb_true_iff in E.
    rewrite Z.leb_le, Z.ltb_lt in E. lia.
Qed.
End keys.

(** ** Words of a node *)

Lemma live_nonneg c : 0 <= live c <= 1.
Proof. destruct c; unfold live; simpl; lia. Qed.

Lemma child_at_set n s x j :
  zlength (rn_child n) = 16 -> 0 <= s < 16 -> 0 <= j ->
  child_at (set_child n s x) j = if s =? j then x else child_at n j.
Proof. intros. unfold child_at, set_child. simpl. apply aget_aset; lia. Qed.

Lemma live_count_set n s x :
  zlength (rn_child n) = 16 -> 0 <= s < 16 ->
  live_count (set_child n s x) = live_count n - live (child_at n s) + live x.
Proof. intros. unfold live_count, child_at. simpl. apply lsum_aset. lia. Qed.

Lemma nodes_set n s x :
  zlength (rn_child n) = 16 -> 0 <= s < 16 ->
  nodes (Node (set_child n s x)) = nodes (Node n) - onodes (child_at n s) + onodes x.
Proof.
  intros. simpl. rewrite (lsum_aset _ None) by lia. unfold child_at, onodes. lia.
Qed.

(** A node with one word replaced and its count corrected. *)
Lemma node_ok_set b n s x cnt :
  node_ok b n -> 0 <= s < 16 -> cnt = rn_count n - live (child_at n s) + live x ->
  node_ok b (set_rn_count (set_child n s x) cnt).
Proof.
  intros [Hc Hr Hb Ho Hl Hn] Hs ->. constructor; simpl; try done.
  - by rewrite zlength_aset.
  - change (live_count (set_rn_count (set_child n s x)
      (rn_count n - live (child_at n s) + live x))) with (live_count (set_child n s x)).
    rewrite live_count_set by done. lia.
Qed.

Lemma holds_node_iff n m :
  holds (Node n) m <-> exists j, 0 <= j < 16 /\ oholds (child_at n j) m.
Proof.
  split.
  - inversion 1 as [|? j c ? Hj Hc Hm]; subst. exists j. by rewrite Hc.
  - intros (j & Hj & Hm). destruct (child_at n j) as [c|] eqn:Hc; [|done].
    by apply (holds_node n j c).
Qed.

Lemma holds_leaf_iff m m' : holds (Leaf m) m' <-> m' = m.
Proof. split; [by inversion 1 | intros ->; constructor]. Qed.

(** The pages below a node of which one word was replaced. *)
Lemma holds_set n s x m :
  zlength (rn_child n) = 16 -> 0 <= s < 16 ->
  holds (Node (set_child n s x)) m <->
  oholds x m \/ exists j, 0 <= j < 16 /\ j <> s /\ oholds (child_at n j) m.
Proof.
  intros Hl Hs. rewrite holds_node_iff. split.
  - intros (j & Hj & Hm). rewrite child_at_set in Hm by lia. revert Hm. zcase; [by left|].
    intros. right. exists j. by split_and!; try lia.
  - intros [Hm | (j & Hj & Hne & Hm)].
    + exists s. split; [done|]. rewrite child_at_set by lia. by rewrite Z.eqb_refl.
    + exists j. split; [done|]. rewrite child_at_set by lia. by ztest.
Qed.

(** ** Pages of a well-formed trie *)

Lemma wf_widen lo lev lo' lev' r :
  wf lo lev r -> lev <= lev' -> lo' <= lo -> lo + 16 ^ lev <= lo' + 16 ^ lev' ->
  wf lo' lev' r.
Proof.
  intros Hwf ? ? ?. destruct Hwf as [lo lev m Hm | lo lev b n Hn Hl Hlo Hhi Hcnt Hch].
  - constructor. lia.
  - apply (wf_node _ _ b); try done; lia.
Qed.

Lemma wf_holds_range lo lev r m :
  wf lo lev r -> holds r m -> lo <= pindex m < lo + 16 ^ lev.
Proof.
  induction 1 as [lo lev m' Hm | lo lev b n Hn Hl Hlo Hhi Hcnt Hch IH]; intros Hh.
  - by inversion Hh; subst.
  - inversion Hh as [|? j c ? Hj Hc Hm]; subst. specialize (IH j c Hj Hc Hm).
    pose proof (ok_clev _ _ Hn). rewrite pow16_succ in Hhi by lia. nia.
Qed.

(** A word that is not NULL is in one of the slots. *)
Lemma live_count_pos n :
  zlength (rn_child n) = 16 -> live_count n <> 0 ->
  exists j c, 0 <= j < 16 /\ child_at n j = Some c.
Proof.
  intros Hl Hn. destruct (lsum_pos_inv live None _ Hn) as (j & Hj & Hlive).
  rewrite Hl in Hj. exists j. unfold child_at.
  destruct (aget None (rn_child n) j) as [c|]; [by exists c | done].
Qed.

Lemma wf_nonempty lo lev r : wf lo lev r -> exists m, holds r m.
Proof.
  induction 1 as [lo lev m' Hm | lo lev b n Hn Hl Hlo Hhi Hcnt Hch IH].
  - exists m'. constructor.
  - destruct (live_count_pos n) as (j & c & Hj & Hc);
      [apply Hn | rewrite <- (ok_count _ _ Hn); lia |].
    destruct (IH j c Hj Hc) as [m Hm]. exists m. by apply (holds_node n j c).
Qed.

(** The page of an index in a node's range is below the index's slot. *)
Lemma holds_slot b n m :
  node_ok b n ->
  (forall j c, 0 <= j < 16 -> child_at n j = Some c ->
     wf (b + j * 16 ^ rn_clev n) (rn_clev n) c) ->
  forall j, 0 <= j < 16 -> oholds (child_at n j) m ->
  b <= pindex m < b + 16 ^ (rn_clev n + 1) /\ vm_radix_slot (pindex m) (rn_clev n) = j.
Proof.
  intros Hn Hch j Hj Hm. destruct (child_at n j) as [c|] eqn:Hc; [|done].
  pose proof (wf_holds_range _ _ _ _ (Hch j c Hj Hc) Hm) as Hr.
  pose proof (ok_clev _ _ Hn) as Hclev. pose proof (pow16_pos (rn_clev n) ltac:(lia)).
  assert (b <= pindex m < b + 16 ^ (rn_clev n + 1)) as Hb.
  { rewrite pow16_succ by lia. nia. }
  split; [done|]. apply (slot_iff b); [lia | apply Hn | done | done | lia].
Qed.

Lemma wf_unique lo lev r m1 m2 :
  wf lo lev r -> holds r m1 -> holds r m2 -> pindex m1 = pindex m2 -> m1 = m2.
Proof.
  induction 1 as [lo lev m' Hm | lo lev b n Hn Hl Hlo Hhi Hcnt Hch IH]; intros H1 H2 He.
  - by inversion H1; inversion H2; subst.
  - apply holds_node_iff in H1 as (j1 & Hj1 & H1), H2 as (j2 & Hj2 & H2).
    pose proof (holds_slot b n m1 Hn Hch j1 Hj1 H1) as [_ S1].
    pose proof (holds_slot b n m2 Hn Hch j2 Hj2 H2) as [_ S2].
    rewrite He, S2 in S1. subst j2. destruct (child_at n j1) as [c|] eqn:Hc; [|done].
    by apply (IH j1 c).
Qed.

(** A node rebuilt around a new word for the slot [s]. *)
Lemma wf_set lo lev b n s x cnt :
  node_ok b n -> rn_clev n < lev -> lo <= b -> b + 16 ^ (rn_clev n + 1) <= lo + 16 ^ lev ->
  (forall j c, 0 <= j < 16 -> child_at n j = Some c ->
     wf (b + j * 16 ^ rn_clev n) (rn_clev n) c) ->
  0 <= s < 16 -> cnt = rn_count n - live (child_at n s) + live x -> 2 <= cnt ->
  (forall c, x = Some c -> wf (b + s * 16 ^ rn_clev n) (rn_clev n) c) ->
  wf lo lev (Node (set_rn_count (set_child n s x) cnt)).
Proof.
  intros Hn Hl Hlo Hhi Hch Hs Hcnt H2 Hx. apply (wf_node _ _ b); try done.
  - by apply node_ok_set.
  - intros j c Hj Hc. change (child_at (set_child n s x) j = Some c) in Hc.
    rewrite child_at_set in Hc by (try apply Hn; lia). revert Hc. zcase; intros Hc.
    + subst j. by apply Hx.
    + by apply Hch.
Qed.

(** ** Lookup *)

Section lookup.
Context `{ShiftOut}.

(** The word in the slot of an index, among all the pages of the node. *)
Lemma holds_at_slot b n i m :
  node_ok b n ->
  (forall j c, 0 <= j < 16 -> child_at n j = Some c ->
     wf (b + j * 16 ^ rn_clev n) (rn_clev n) c) ->
  pindex m = i ->
  holds (Node n) m <-> oholds (child_at n (vm_radix_slot i (rn_clev n))) m.
Proof.
  intros Hn Hch Hm. rewrite holds_node_iff. pose proof (ok_clev _ _ Hn). split.
  - intros (j & Hj & Hh). destruct (holds_slot b n m Hn Hch j Hj Hh) as [_ Hs].
    by rewrite <- Hm, Hs.
  - intros Hh. exists (vm_radix_slot i (rn_clev n)). split; [|done].
    apply slot_range. lia.
Qed.

Lemma wf_lev_nonneg lo lev r : wf lo lev r -> 0 <= lev.
Proof.
  destruct 1 as [lo lev m Hm | lo lev b n Hn Hl].
  - destruct (Z.lt_ge_cases lev 0); [|done]. rewrite Z.pow_neg_r in Hm by done. lia.
  - pose proof (ok_clev _ _ Hn). lia.
Qed.

Lemma lookup_loop_wf lo lev r : wf lo lev r ->
  forall fuel i, lev < Z.of_nat fuel -> is_key i ->
  exists o, lookup_loop fuel (Some r) i = Ok o /\
    forall m, o = Some m <-> holds r m /\ pindex m = i.
Proof.
  intros Hwf. pose proof (wf_lev_nonneg _ _ _ Hwf) as Hlev. revert Hlev.
  induction Hwf as [lo lev m' Hm | lo lev b n Hn Hl Hlo Hhi Hcnt Hch IH];
    intros Hlev [|fuel] i Hf Hi; try lia; cbn [lookup_loop].
  - zcase; eexists; (split; [done|]); intros m; rewrite holds_leaf_iff.
    + split; [intros [= <-]; by split | by intros [-> _]].
    + split; [done | by intros [-> ?]].
  - pose proof (ok_clev _ _ Hn) as Hclev.
    destruct (keybarr_cases b n i Hn Hi) as [[-> Hr] | (-> & _ & _ & Hr)].
    + set (s := vm_radix_slot i (rn_clev n)).
      assert (0 <= s < 16) as Hs by (apply slot_range; lia).
      destruct (child_at n s) as [c|] eqn:Hc.
      * destruct (IH s c Hs Hc ltac:(lia) fuel i ltac:(lia) Hi) as (o & Ho & Hspec).
        exists o. split; [done|]. intros m. rewrite Hspec.
        split; intros [Hh Hm]; (split; [|done]).
        -- by apply (holds_node n s c).
        -- apply (holds_at_slot b n i m Hn Hch Hm) in Hh. fold s in Hh. by rewrite Hc in Hh.
      * exists None. split; [destruct fuel; [lia | done]|]. intros m. split; [done|].
        intros [Hh Hm]. apply (holds_at_slot b n i m Hn Hch Hm) in Hh. fold s in Hh.
        by rewrite Hc in Hh.
    + exists None. split; [done|]. intros m. split; [done|]. intros [Hh Hm].
      apply holds_node_iff in Hh as (j & Hj & Hh).
      destruct (holds_slot b n m Hn Hch j Hj Hh). lia.
Qed.
End lookup.
