(* ===== verification/RadixRemove.v ===== *)
(** * Insertion in a radix trie, and removal

    The walk ends at the place of the index in its range; the new node, where
    one is needed, is at the first level where the keys differ. *)

From S2P Require Import Prelude Radix RadixInv.

(** ** Where two keys differ *)

Lemma slot_lxor i j c :
  0 <= c -> vm_radix_slot (Z.lxor i j) c = 0 <-> vm_radix_slot i c = vm_radix_slot j c.
Proof.
  intros Hc. unfold vm_radix_slot. rewrite Z.shiftr_lxor.
  set (x := Z.shiftr i _). set (y := Z.shiftr j _).
  replace (Z.land (Z.lxor x y) VM_RADIX_MASK)
    with (Z.lxor (Z.land x VM_RADIX_MASK) (Z.land y VM_RADIX_MASK)).
  - by rewrite Z.lxor_eq_0_iff.
  - apply Z.bits_inj'. intros n Hn. autorewrite with bits.
    by destruct (Z.testbit x n), (Z.testbit y n), (Z.testbit VM_RADIX_MASK n).
Qed.

Lemma div_slot i c : 0 <= c -> i / 16 ^ c = 16 * (i / 16 ^ (c + 1)) + vm_radix_slot i c.
Proof.
  intros Hc. rewrite slot_eq by done. rewrite pow16_succ by done.
  pose proof (pow16_pos c Hc). rewrite (Z.mul_comm 16 (16 ^ c)), <- Z.div_div by lia.
  apply Z.div_mod. lia.
Qed.

(** Keys equal above a level are equal above any higher one. *)
Lemma div_up i j c d : 0 <= c <= d -> i / 16 ^ c = j / 16 ^ c -> i / 16 ^ d = j / 16 ^ d.
Proof.
  intros Hc E. replace d with (c + (d - c)) by lia. rewrite Z.pow_add_r by lia.
  pose proof (pow16_pos c). pose proof (pow16_pos (d - c)).
  by rewrite <- !Z.div_div, E by lia.
Qed.

Lemma keydiff_spec i j :
  is_key i -> is_key j -> i <> j ->
  exists d, vm_radix_keydiff i j = Ok d /\ 0 <= d <= 15 /\
    i / 16 ^ (d + 1) = j / 16 ^ (d + 1) /\ vm_radix_slot i d <> vm_radix_slot j d.
Proof.
  intros Hi Hj Hne. unfold vm_radix_keydiff. ztest. cbn [require negb mbind result_bind].
  change VM_RADIX_LIMIT with 15.
  destruct (search_down_spec 16 15
    (fun clev => negb (vm_radix_slot (Z.lxor i j) clev =? 0))) as (H1 & H2 & H3).
  set (d := search_down _ _ _) in *. change (15 - Z.of_nat 16) with (-1) in *.
  assert (forall k, (k <= 15 - d)%Z -> 0 <= k -> i / 16 ^ (16 - k) = j / 16 ^ (16 - k)) as Hdiv.
  { intros k Hk H0. revert Hk. pattern k. apply natlike_ind; [| | done].
    - intros _. rewrite !Z.div_small; [done | |];
        rewrite Z.sub_0_r, pow16_16; assumption.
    - intros x Hx IH Hk. rewrite !(div_slot _ (16 - Z.succ x)) by lia.
      replace (16 - Z.succ x + 1) with (16 - x) by lia. rewrite IH by lia. f_equal.
      apply slot_lxor; [lia|]. specialize (H2 (16 - Z.succ x) ltac:(lia)).
      apply negb_false_iff, Z.eqb_eq in H2. done. }
  exists d. split; [done|].
  assert (d <> -1).
  { intros E. specialize (Hdiv 16 ltac:(lia) ltac:(lia)).
    rewrite Z.sub_diag, Z.pow_0_r, !Z.div_1_r in Hdiv. done. }
  split; [lia|]. split.
  - replace (d + 1) with (16 - (15 - d)) by lia. apply Hdiv; lia.
  - specialize (H3 ltac:(lia)). apply negb_true_iff, Z.eqb_neq in H3.
    by rewrite slot_lxor in H3 by lia.
Qed.

(** A block of keys meets an aligned one of at least its size inside it. *)
Lemma block_inside lo lev b c i :
  0 <= c <= lev -> lo mod 16 ^ lev = 0 -> b mod 16 ^ c = 0 ->
  lo <= i < lo + 16 ^ lev -> b <= i < b + 16 ^ c -> lo <= b /\ b + 16 ^ c <= lo + 16 ^ lev.
Proof.
  intros Hc Hlo Hb Hi Hi'. pose proof (pow16_pos c) as Hp. pose proof (pow16_pos (lev - c)) as Hq.
  replace lev with (c + (lev - c)) in * by lia. rewrite Z.pow_add_r in * by lia.
  set (W := 16 ^ c) in *. replace (c + (lev - c) - c) with (lev - c) in * by lia.
  set (Q := 16 ^ (lev - c)) in *.
  apply Z.mod_divide in Hlo as [q ->]; [|nia]. apply Z.mod_divide in Hb as [p ->]; [|lia].
  assert (q * Q <= p < (q + 1) * Q) by nia. nia.
Qed.

(** The block of keys that two keys share. *)
Lemma split_block `{ShiftOut} lo lev i j :
  0 <= lev <= 16 -> lo mod 16 ^ lev = 0 -> is_key i -> is_key j -> i <> j ->
  lo <= i < lo + 16 ^ lev -> lo <= j < lo + 16 ^ lev ->
  exists d b, vm_radix_keydiff i j = Ok d /\ 0 <= d <= 15 /\ d < lev /\
    0 <= b /\ b + 16 ^ (d + 1) <= 2 ^ 64 /\
    lo <= b /\ b + 16 ^ (d + 1) <= lo + 16 ^ lev /\ b mod 16 ^ (d + 1) = 0 /\
    b <= i < b + 16 ^ (d + 1) /\ b <= j < b + 16 ^ (d + 1) /\
    vm_radix_slot i d <> vm_radix_slot j d /\
    (d < 15 -> vm_radix_trimkey j (d + 1) = b).
Proof.
  intros Hlev Hlo Hi Hj Hne Hil Hjl.
  destruct (keydiff_spec i j Hi Hj Hne) as (d & Hd & Hdr & Hdiv & Hs).
  pose proof (pow16_pos (d + 1) ltac:(lia)) as HW.
  set (b := 16 ^ (d + 1) * (i / 16 ^ (d + 1))).
  assert (b mod 16 ^ (d + 1) = 0) as Hb
    by (unfold b; rewrite Z.mul_comm; apply Z.mod_mul; lia).
  assert (b <= i < b + 16 ^ (d + 1)) as Hbi by (by apply block_eq; [lia | | ]).
  assert (b <= j < b + 16 ^ (d + 1)) as Hbj
    by (apply block_eq; [lia | done | by rewrite <- Hdiv]).
  assert (d < lev) as Hdl.
  { destruct (Z.lt_ge_cases d lev) as [|Hge]; [done|]. exfalso. apply Hs.
    assert (i / 16 ^ d = j / 16 ^ d) as E.
    { apply (div_up i j lev); [lia|]. pose proof (pow16_pos lev ltac:(lia)).
      apply (block_eq lo lev) in Hil; [|lia | done]. apply (block_eq lo lev) in Hjl; [|lia | done].
      nia. }
    rewrite !slot_eq by lia. by rewrite E. }
  destruct (block_inside lo lev b (d + 1) i) as [? ?]; try done; [lia|].
  destruct (block_inside 0 16 b (d + 1) i) as [? ?]; try done; [lia|].
  change (0 + 16 ^ 16) with (2 ^ 64) in *.
  exists d, b. split_and!; try done; try lia.
  intros ?. rewrite trimkey_eq by lia. by rewrite <- Hdiv.
Qed.

(** ** A new node with two children *)

(** The tree [r'] is [r] with the page [page] and [k] more nodes. *)
Record inserted (lo lev : Z) (r r' : rptr) (page : vm_page) (k : Z) : Prop := Inserted {
  ins_wf : wf lo lev r';
  ins_holds m : holds r' m <-> m = page \/ holds r m;
  ins_nodes : nodes r' = nodes r + k;
}.

Section insert.
Context `{ShiftOut}.

Lemma child_new owner count clev j : child_at (new_node owner count clev) j = None.
Proof.
  unfold child_at, aget, new_node, rn_child. zcase; [done|].
  generalize (Z.to_nat j). intros k. do 17 (destruct k as [|k]; [done|]). done.
Qed.

(** The node for the block [b] of level [d], with [page] and the tree [r]
    that has the keys of the slot of [j]. *)
Lemma wf_pair lo lev b d owner page r j :
  0 <= d <= 15 -> d < lev -> 0 <= b -> b + 16 ^ (d + 1) <= 2 ^ 64 ->
  lo <= b -> b + 16 ^ (d + 1) <= lo + 16 ^ lev -> b mod 16 ^ (d + 1) = 0 ->
  b <= j < b + 16 ^ (d + 1) -> b <= pindex page < b + 16 ^ (d + 1) ->
  vm_radix_slot j d <> vm_radix_slot (pindex page) d -> (d < 15 -> owner = b) ->
  wf (b + vm_radix_slot j d * 16 ^ d) d r ->
  inserted lo lev r
    (Node (set_child (vm_radix_addpage (new_node owner 2 d) (pindex page) d page)
             (vm_radix_slot j d) (Some r))) page 1.
Proof.
  intros Hd Hl Hb0 Hb64 Hlo Hhi Hb Hj Hp Hne Ho Hr. unfold vm_radix_addpage.
  pose proof (slot_range j d ltac:(lia)) as Hsj.
  pose proof (slot_range (pindex page) d ltac:(lia)) as Hsp.
  set (sj := vm_radix_slot j d) in *. set (sp := vm_radix_slot (pindex page) d) in *.
  set (n0 := new_node owner 2 d). set (n1 := set_child n0 sp (Some (Leaf page))).
  assert (zlength (rn_child n0) = 16) as L0 by done.
  assert (forall k, child_at n0 k = None) as C0 by (intros k; apply child_new).
  assert (zlength (rn_child n1) = 16) as L1 by (unfold n1; simpl; by rewrite zlength_aset).
  assert (forall k, 0 <= k -> child_at n1 k = if sp =? k then Some (Leaf page) else None) as C1.
  { intros k Hk. unfold n1. rewrite child_at_set by done. by rewrite C0. }
  split.
  - apply (wf_node _ _ b); simpl; try done.
    + split; simpl; try done; [by rewrite zlength_aset|].
      change (2 = live_count (set_child n1 sj (Some r))).
      rewrite live_count_set, C1 by (done || lia). unfold n1.
      rewrite live_count_set, C0 by done. ztest. done.
    + intros k c Hk Hc. rewrite child_at_set in Hc by (done || lia). revert Hc.
      zcase; intros Hc; [subst k; by injection Hc as <-|].
      rewrite C1 in Hc by lia. revert Hc. zcase; intros Hc; [|done].
      subst k. injection Hc as <-. constructor.
      pose proof (slot_bounds b d (pindex page) ltac:(lia) Hb Hp). fold sp in H0. lia.
  - intros m. rewrite holds_set by done. simpl oholds. split.
    + intros [Hm | (k & Hk & Hkj & Hm)]; [by right|]. rewrite C1 in Hm by lia. revert Hm.
      zcase; [|done]. intros Hm. left. by apply holds_leaf_iff in Hm.
    + intros [-> | Hm]; [right | by left]. exists sp. split; [done|]. split; [done|].
      rewrite C1 by lia. rewrite Z.eqb_refl. constructor.
  - rewrite nodes_set, C1 by (done || lia). unfold n1. rewrite nodes_set, C0 by done.
    ztest. simpl. lia.
Qed.

(** A tree inserted below a slot of a node. *)
Lemma inserted_below lo lev b n s c c' page k :
  node_ok b n -> rn_clev n < lev -> lo <= b -> b + 16 ^ (rn_clev n + 1) <= lo + 16 ^ lev ->
  2 <= rn_count n ->
  (forall j c, 0 <= j < 16 -> child_at n j = Some c ->
     wf (b + j * 16 ^ rn_clev n) (rn_clev n) c) ->
  0 <= s < 16 -> child_at n s = Some c ->
  inserted (b + s * 16 ^ rn_clev n) (rn_clev n) c c' page k ->
  inserted lo lev (Node n) (Node (set_child n s (Some c'))) page k.
Proof.
  intros Hn Hl Hlo Hhi Hcnt Hch Hs Hc [Hw Hh Hk]. pose proof (ok_length _ _ Hn) as Hlen. split.
  - apply (wf_set lo lev b n s (Some c') (rn_count n)); try done.
    + rewrite Hc. unfold live. simpl. lia.
    + by intros ? [= <-].
  - intros m. rewrite holds_set, holds_node_iff by done. simpl oholds. rewrite Hh. split.
    + intros [[->|Hm] | (j & Hj & _ & Hm)]; [by left | right | right; by exists j].
      exists s. by rewrite Hc.
    + intros [->|(j & Hj & Hm)]; [by left; left|].
      destruct (decide (j = s)) as [->|Hne]; [|right; by exists j].
      left. right. by rewrite Hc in Hm.
  - rewrite nodes_set, Hc by done. simpl onodes. lia.
Qed.

(** A page stored in a free slot. *)
Lemma inserted_slot lo lev b n page :
  node_ok b n -> rn_clev n < lev -> lo <= b -> b + 16 ^ (rn_clev n + 1) <= lo + 16 ^ lev ->
  2 <= rn_count n ->
  (forall j c, 0 <= j < 16 -> child_at n j = Some c ->
     wf (b + j * 16 ^ rn_clev n) (rn_clev n) c) ->
  b <= pindex page < b + 16 ^ (rn_clev n + 1) ->
  child_at n (vm_radix_slot (pindex page) (rn_clev n)) = None ->
  inserted lo lev (Node n)
    (Node (vm_radix_addpage (set_rn_count n (rn_count n + 1)) (pindex page) (rn_clev n) page))
    page 0.
Proof.
  intros Hn Hl Hlo Hhi Hcnt Hch Hp Hc. pose proof (ok_length _ _ Hn) as Hlen.
  pose proof (ok_clev _ _ Hn) as Hclev.
  pose proof (slot_bounds b (rn_clev n) (pindex page) ltac:(lia) (ok_base _ _ Hn) Hp) as HB.
  unfold vm_radix_addpage. set (s := vm_radix_slot (pindex page) (rn_clev n)) in *.
  assert (0 <= s < 16) as Hs by (apply slot_range; lia). split.
  - apply (wf_set lo lev b n s (Some (Leaf page)) (rn_count n + 1)); try done.
    + rewrite Hc. unfold live. simpl. lia.
    + lia.
    + intros ? [= <-]. constructor. lia.
  - intros m. rewrite holds_set, holds_node_iff by done. simpl oholds.
    rewrite holds_leaf_iff. split.
    + intros [->|(j & Hj & _ & Hm)]; [by left | right; by exists j].
    + intros [->|(j & Hj & Hm)]; [by left|]. right. exists j. split_and!; try done; try lia.
      intros ->. by rewrite Hc in Hm.
  - rewrite (nodes_set (set_rn_count n (rn_count n + 1))) by done.
    change (child_at (set_rn_count n (rn_count n + 1)) s) with (child_at n s). rewrite Hc.
    simpl. lia.
Qed.

(** ** The walk *)

Definition walk_ok (lo lev : Z) (r : rptr) (page : vm_page) (w : walk_end) : Prop :=
  match w with
  | Stored r' => inserted lo lev r r' page 0
  | NeedsNode clev store =>
      0 <= clev <= 15 /\
      forall owner, (clev < 15 -> owner = vm_radix_trimkey (pindex page) (clev + 1)) ->
        inserted lo lev r (store (new_node owner 2 clev)) page 1
  end.

Lemma insert_walk_wf lo lev r : wf lo lev r ->
  forall fuel page, lev < Z.of_nat fuel -> 0 <= lev <= 16 -> lo mod 16 ^ lev = 0 ->
  is_key (pindex page) -> lo <= pindex page < lo + 16 ^ lev ->
  0 <= lo -> lo + 16 ^ lev <= 2 ^ 64 ->
  ((exists m, holds r m /\ pindex m = pindex page) /\
   insert_walk fuel r page = Panic "vm_radix_insert: key is already present") \/
  ((forall m, holds r m -> pindex m <> pindex page) /\
   exists w, insert_walk fuel r page = Ok w /\ walk_ok lo lev r page w).
Proof.
  induction 1 as [lo lev m Hm | lo lev b n Hn Hl Hlo Hhi Hcnt Hch IH];
    intros [|fuel] page Hf Hlev Hal Hkey Hp Hlo0 Hlo64; try lia; cbn [insert_walk].
  - destruct (Z.eqb_spec (pindex m) (pindex page)) as [E|Hne].
    { left. split; [|done]. exists m. split; [constructor | done]. }
    right. split; [by intros m' ->%holds_leaf_iff|].
    destruct (split_block lo lev (pindex m) (pindex page)) as
      (d & b & -> & Hd & Hdl & ? & ? & ? & ? & Hb & Hbm & Hbp & Hs & Ht); try done.
    { unfold is_key. lia. }
    rewrite bind_Ok. eexists. split; [done|]. split; [done|]. intros owner Ho.
    unfold vm_radix_addpage at 1. apply (wf_pair lo lev b d); try done.
    + intros Hd15. by rewrite Ho, Ht.
    + constructor. pose proof (slot_bounds b d (pindex m) ltac:(lia) Hb Hbm). lia.
  - pose proof (ok_clev _ _ Hn) as Hclev.
    destruct (keybarr_cases b n (pindex page) Hn Hkey) as [[-> Hr] | (-> & -> & Hc15 & Hr)].
    + pose proof (slot_bounds b (rn_clev n) (pindex page) ltac:(lia) (ok_base _ _ Hn) Hr) as HB.
      set (s := vm_radix_slot (pindex page) (rn_clev n)) in *.
      assert (0 <= s < 16) as Hs by (apply slot_range; lia).
      destruct (child_at n s) as [c|] eqn:Hc.
      * destruct (ok_range _ _ Hn) as [Hb0 Hb64].
        assert (b + (s + 1) * 16 ^ rn_clev n <= b + 16 ^ (rn_clev n + 1)).
        { rewrite pow16_succ by lia. pose proof (pow16_pos (rn_clev n)). nia. }
        assert (0 <= s * 16 ^ rn_clev n) by (pose proof (pow16_pos (rn_clev n)); nia).
        destruct (IH s c Hs Hc fuel page ltac:(lia) ltac:(lia)
          (aligned_slot b (rn_clev n) s ltac:(lia) (ok_base _ _ Hn)) Hkey
          ltac:(lia) ltac:(lia) ltac:(lia)) as [[(m & Hh & Hm) E] | (Hno & w & E & Hw)].
        -- left. rewrite E. split; [|done]. exists m. split; [|done]. by apply (holds_node n s c).
        -- right. rewrite E. split.
           ++ intros m Hm Hp'. apply (holds_at_slot b n _ m Hn Hch Hp') in Hm. fold s in Hm.
              rewrite Hc in Hm. by apply (Hno m Hm).
           ++ rewrite bind_Ok. exists (walk_below n s w). split; [done|].
              destruct w as [r'|clev store]; simpl in Hw |- *.
              ** by apply (inserted_below lo lev b n s c).
              ** destruct Hw as [Hcl Hw]. split; [done|]. intros owner Ho.
                 apply (inserted_below lo lev b n s c); try done. by apply Hw.
      * right. split.
        -- intros m Hm Hp'. apply (holds_at_slot b n _ m Hn Hch Hp') in Hm. fold s in Hm.
           by rewrite Hc in Hm.
        -- eexists. split; [done|]. by apply (inserted_slot lo lev b n).
    + right. pose proof (pow16_pos (rn_clev n + 1) ltac:(lia)).
      destruct (ok_range _ _ Hn) as [Hb0 Hb64].
      assert (forall m, holds (Node n) m -> pindex m <> pindex page) as Hno.
      { intros m Hm E. apply holds_node_iff in Hm as (j & Hj & Hm).
        destruct (holds_slot b n m Hn Hch j Hj Hm). lia. }
      split; [done|].
      destruct (split_block lo lev b (pindex page)) as
        (d & b' & -> & Hd & Hdl & ? & ? & ? & ? & Hb & Hbb & Hbp & Hs & Ht);
        try done; try (unfold is_key; lia); try lia.
      rewrite bind_Ok. eexists. split; [done|]. split; [done|]. intros owner Ho.
      assert (rn_clev n < d) as Hcd.
      { destruct (Z.lt_ge_cases (rn_clev n) d) as [|Hge]; [done|]. exfalso.
        destruct (block_inside b (rn_clev n + 1) b' (d + 1) b); try done; try lia.
        apply Hn. }
      apply (wf_pair lo lev b' d); try done; [by intros; rewrite Ho, Ht by done|].
      pose proof (slot_bounds b' d b ltac:(lia) Hb Hbb) as HB.
      destruct (block_inside (b' + vm_radix_slot b d * 16 ^ d) d b (rn_clev n + 1) b);
        try done; try lia; [by apply aligned_slot; [lia|] | apply Hn |].
      by apply (wf_node _ _ b).
Qed.
End insert.

(** * Removal, replacement and reclamation in a radix trie *)

(** ** Nodes without children *)

Lemma live_count_zero n :
  live_count n = 0 <-> forallb is_null (rn_child n) = true.
Proof.
  unfold live_count. split.
  - intros Hz. apply forallb_forall. intros c Hc. apply list_elem_of_In in Hc.
    pose proof (lsum_zero live _ (fun c => proj1 (live_nonneg c)) Hz c Hc) as E.
    by destruct c.
  - generalize (rn_child n). induction l as [|c l IH]; simpl; [done|].
    intros [Hc Hl]%andb_prop. rewrite IH by done. by destruct c.
Qed.

Lemma null_child n j : live_count n = 0 -> child_at n j = None.
Proof.
  intros Hz%live_count_zero. unfold child_at, aget. zcase; [done|].
  rewrite nth_lookup. destruct (rn_child n !! Z.to_nat j) as [c|] eqn:E; [|done].
  apply list_elem_of_lookup_2, list_elem_of_In in E.
  rewrite forallb_forall in Hz. specialize (Hz c E). by destruct c.
Qed.

Lemma nodes_null n : live_count n = 0 -> nodes (Node n) = 1.
Proof.
  intros Hz%live_count_zero. simpl. revert Hz. generalize (rn_child n).
  induction l as [|[c|] l IH]; simpl; try done.
Qed.

Lemma live_count_le n : zlength (rn_child n) = 16 -> live_count n <= 16.
Proof.
  unfold live_count. intros <-. unfold zlength. induction (rn_child n) as [|c l IH]; simpl; [lia|].
  pose proof (live_nonneg c). lia.
Qed.

Lemma live_count_ge n j :
  zlength (rn_child n) = 16 -> 0 <= j < 16 -> live (child_at n j) <= live_count n.
Proof.
  intros Hl Hj. apply lsum_ge; [apply live_nonneg | lia].
Qed.

(** [vm_radix_node_put] of an empty node. *)
Lemma node_put_ok n zone :
  rn_count n = 0 -> live_count n = 0 -> vm_radix_node_put n zone = Ok (zone - 1).
Proof.
  intros Hc Hl%live_count_zero. unfold vm_radix_node_put, vm_radix_node_zone_dtor.
  by rewrite Hc, Hl.
Qed.

(** ** Removal *)

(** The tree [r'] is [r] without the key [index] and with [k] nodes fewer. *)
Record removed (lo lev : Z) (r r' : rptr) (index k : Z) : Prop := Removed {
  rem_wf : wf lo lev r';
  rem_holds m : holds r' m <-> holds r m /\ pindex m <> index;
  rem_nodes : nodes r' = nodes r - k;
}.

(** The pages of a node other than those of index [i]: those of the other
    slots, and those of the slot of [i] other than [i]. *)
Lemma holds_other b n i m :
  node_ok b n ->
  (forall j c, 0 <= j < 16 -> child_at n j = Some c ->
     wf (b + j * 16 ^ rn_clev n) (rn_clev n) c) ->
  let s := vm_radix_slot i (rn_clev n) in
  holds (Node n) m /\ pindex m <> i <->
  (oholds (child_at n s) m /\ pindex m <> i) \/
  exists j, 0 <= j < 16 /\ j <> s /\ oholds (child_at n j) m.
Proof.
  intros Hn Hch s. pose proof (ok_clev _ _ Hn).
  assert (0 <= s < 16) as Hs by (apply slot_range; lia).
  rewrite holds_node_iff. split.
  - intros [(j & Hj & Hm) Hi]. destruct (decide (j = s)) as [->|]; [by left|].
    right. by exists j.
  - intros [[Hm Hi] | (j & Hj & Hne & Hm)]; [split; [by exists s | done]|].
    split; [by exists j|]. intros <-. by destruct (holds_slot b n m Hn Hch j Hj Hm).
Qed.

(** A node with one word left: what the loop over its slots finds, and what is
    freed. *)
Lemma last_child n1 zone :
  zlength (rn_child n1) = 16 -> rn_count n1 = 1 -> live_count n1 = 1 ->
  let i := search 16 0 (fun i => negb (is_null (child_at n1 i))) in
  exists c, 0 <= i < 16 /\ child_at n1 i = Some c /\
    vm_radix_node_put (set_child (set_rn_count n1 (rn_count n1 - 1)) i None) zone = Ok (zone - 1) /\
    nodes (Node n1) = 1 + nodes c /\
    forall j, 0 <= j < 16 -> j <> i -> child_at n1 j = None.
Proof.
  intros L1 Hcnt V1 i.
  destruct (search_spec 16 0 (fun i => negb (is_null (child_at n1 i)))) as (H1 & H2 & H3).
  fold i in H1, H2, H3. cbv beta in H2, H3. change (0 + Z.of_nat 16) with 16 in *.
  assert (i < 16) as Hi16.
  { destruct (live_count_pos n1 L1 ltac:(lia)) as (j & c & Hj & Hcj).
    destruct (Z.lt_ge_cases i 16); [done|]. specialize (H2 j ltac:(lia)). by rewrite Hcj in H2. }
  destruct (child_at n1 i) as [c|] eqn:Hci; [|by specialize (H3 Hi16)].
  set (n2 := set_child (set_rn_count n1 (rn_count n1 - 1)) i None).
  assert (live_count n2 = 0) as V2.
  { unfold n2. rewrite live_count_set by (done || lia).
    change (live_count n1 - live (child_at n1 i) + live None = 0).
    rewrite Hci, V1. unfold live. simpl. lia. }
  exists c. split; [lia|]. split; [done|]. split; [|split].
  - apply node_put_ok; [simpl; lia | done].
  - pose proof (nodes_null n2 V2) as E. unfold n2 in E. rewrite nodes_set in E by (done || lia).
    change (nodes (Node n1) - onodes (child_at n1 i) + 0 = 1) in E.
    rewrite Hci in E. unfold onodes in E. lia.
  - intros j Hj Hne. pose proof (null_child n2 j V2) as E. unfold n2 in E.
    rewrite child_at_set in E by (done || lia). revert E. by ztest.
Qed.

Section remove.
Context (lo lev b : Z) (n : rnode).
Hypotheses (Hn : node_ok b n) (Hl : rn_clev n < lev) (Hlo : lo <= b)
  (Hhi : b + 16 ^ (rn_clev n + 1) <= lo + 16 ^ lev) (Hcnt : 2 <= rn_count n)
  (Hch : forall j c, 0 <= j < 16 -> child_at n j = Some c ->
           wf (b + j * 16 ^ rn_clev n) (rn_clev n) c).

Lemma removed_leaf m zone fuel :
  child_at n (vm_radix_slot (pindex m) (rn_clev n)) = Some (Leaf m) ->
  exists r' k, remove_loop (S fuel) n (pindex m) zone = Ok (Some r', zone - k) /\
    removed lo lev (Node n) r' (pindex m) k.
Proof.
  intros Hc. cbn [remove_loop]. rewrite Hc, Z.eqb_refl. cbn [require mbind result_bind].
  pose proof (ok_clev _ _ Hn) as Hclev. pose proof (ok_length _ _ Hn) as Hlen.
  pose proof (fun x => holds_other b n (pindex m) x Hn Hch) as Hoth. cbv zeta in Hoth.
  set (s := vm_radix_slot (pindex m) (rn_clev n)) in *.
  assert (0 <= s < 16) as Hs by (apply slot_range; lia).
  set (n0 := set_child n s None). set (n1 := set_rn_count n0 (rn_count n - 1)).
  assert (zlength (rn_child n1) = 16) as L1 by (simpl; by rewrite zlength_aset).
  assert (forall j, 0 <= j -> child_at n1 j = if s =? j then None else child_at n j) as C1.
  { intros j Hj. apply (child_at_set n s None j); done || lia. }
  assert (live_count n1 = rn_count n - 1) as V1.
  { change (live_count n0 = rn_count n - 1). unfold n0. rewrite live_count_set by done.
    rewrite Hc, (ok_count _ _ Hn). unfold live. simpl. lia. }
  assert (forall x, holds (Node n) x /\ pindex x <> pindex m <->
    exists j, 0 <= j < 16 /\ oholds (child_at n1 j) x) as Hx.
  { intros x. rewrite Hoth, Hc. simpl oholds. rewrite holds_leaf_iff. split.
    - intros [[-> ?] | (j & Hj & Hne & Hm)]; [done|]. exists j. rewrite C1 by lia. by ztest.
    - intros (j & Hj & Hm). right. exists j. rewrite C1 in Hm by lia. revert Hm.
      zcase; intros Hm; [done|]. by split_and!; try lia. }
  assert (nodes (Node n1) = nodes (Node n)) as N1.
  { change (nodes (Node n0) = nodes (Node n)). unfold n0. rewrite nodes_set by done.
    rewrite Hc. simpl. lia. }
  change (rn_count n1) with (rn_count n - 1). rewrite Z.gtb_ltb.
  destruct (Z.ltb_spec 1 (rn_count n - 1)).
  { exists (Node n1), 0. rewrite Z.sub_0_r. split; [done|]. split; [| | lia].
    - apply (wf_set lo lev b n s None); try done; [|lia]. rewrite Hc. unfold live. simpl. lia.
    - intros x. by rewrite holds_node_iff, Hx. }
  destruct (last_child n1 zone L1) as (c & Hi & Hci & Hput & Hnodes & Hnull); [simpl; lia | lia |].
  change (rn_count n1) with (rn_count n - 1) in Hput.
  set (i := search 16 0 _) in *. change VM_RADIX_COUNT with 16. ztest.
  cbn [require negb mbind result_bind]. rewrite Hci, Hput, bind_Ok.
  exists c, 1. split; [done|]. rewrite C1 in Hci by lia. revert Hci. zcase; [done|]. intros Hci.
  pose proof (pow16_pos (rn_clev n)). rewrite pow16_succ in Hhi by lia. split; [| | lia].
  - apply (wf_widen (b + i * 16 ^ rn_clev n) (rn_clev n)); [by apply Hch | lia | nia | nia].
  - intros x. rewrite Hx. split.
    + intros Hxc. exists i. split; [lia|]. rewrite C1 by lia. ztest. by rewrite Hci.
    + intros (j & Hj & Hm). destruct (decide (j = i)) as [->|Hne].
      * rewrite C1 in Hm by lia. revert Hm. ztest. by rewrite Hci.
      * by rewrite Hnull in Hm.
Qed.

(** A node in which a smaller tree replaces the one that had the index. *)
Lemma removed_below s c c' i k :
  vm_radix_slot i (rn_clev n) = s -> child_at n s = Some c ->
  removed (b + s * 16 ^ rn_clev n) (rn_clev n) c c' i k ->
  removed lo lev (Node n) (Node (set_child n s (Some c'))) i k.
Proof.
  intros Hs Hc [Hw Hh Hk]. pose proof (ok_length _ _ Hn) as Hlen. pose proof (ok_clev _ _ Hn).
  assert (0 <= s < 16) as Hs' by (subst s; apply slot_range; lia). split.
  - apply (wf_set lo lev b n s (Some c') (rn_count n)); try done.
    + rewrite Hc. unfold live. simpl. lia.
    + by intros ? [= <-].
  - intros m. rewrite holds_set by done. simpl oholds. rewrite Hh, (holds_other b n) by done.
    by rewrite Hs, Hc.
  - rewrite nodes_set, Hc by done. simpl onodes. lia.
Qed.
End remove.

Lemma remove_loop_wf lo lev r : wf lo lev r ->
  forall n fuel index zone, r = Node n -> lev < Z.of_nat fuel ->
  ((exists m, holds r m /\ pindex m = index) /\
   exists r' k, remove_loop fuel n index zone = Ok (Some r', zone - k) /\
     removed lo lev r r' index k) \/
  ((forall m, holds r m -> pindex m <> index) /\
   exists msg, remove_loop fuel n index zone = Panic msg).
Proof.
  induction 1 as [lo lev m Hm | lo lev b n Hn Hl Hlo Hhi Hcnt Hch IH];
    intros n' [|fuel] index zone Hr Hf; try done; try (pose proof (ok_clev _ _ Hn); lia).
  injection Hr as <-. pose proof (ok_clev _ _ Hn) as Hclev.
  assert (0 <= vm_radix_slot index (rn_clev n) < 16) as Hs by (apply slot_range; lia).
  destruct (child_at n (vm_radix_slot index (rn_clev n))) as [[m|n']|] eqn:Hc.
  - destruct (decide (pindex m = index)) as [<-|Hne].
    + left. split.
      * exists m. split; [|done]. eapply holds_node; [done | done | constructor].
      * by apply (removed_leaf lo lev b n).
    + right. split.
      * intros m' Hm' E. apply (holds_at_slot b n index m' Hn Hch E) in Hm'.
        rewrite Hc in Hm'. apply holds_leaf_iff in Hm' as ->. done.
      * cbn [remove_loop]. rewrite Hc. ztest. by eexists.
  - destruct (IH _ (Node n') Hs Hc n' fuel index zone eq_refl ltac:(lia)) as
      [[(m & Hm & Hi) (r' & k & E & Hrem)] | [Hno [msg E]]].
    + left. split; [exists m; split; [by eapply holds_node | done]|].
      exists (Node (set_child n (vm_radix_slot index (rn_clev n)) (Some r'))), k.
      split; [cbn [remove_loop]; by rewrite Hc, E|].
      by apply (removed_below lo lev b n Hn Hl Hlo Hhi Hcnt Hch _ (Node n')).
    + right. split; [|exists msg; cbn [remove_loop]; by rewrite Hc, E].
      intros m Hm Hi. apply (holds_at_slot b n index m Hn Hch Hi) in Hm.
      rewrite Hc in Hm. by apply (Hno m).
  - right. split; [|cbn [remove_loop]; rewrite Hc; by eexists].
    intros m Hm Hi. apply (holds_at_slot b n index m Hn Hch Hi) in Hm. by rewrite Hc in Hm.
Qed.

(** ** Replacement *)

(** The tree [r'] is [r] with [page] for the page [m] of its index. *)
Record replaced (lo lev : Z) (r r' : rptr) (m page : vm_page) : Prop := Replaced {
  rep_old : holds r m /\ pindex m = pindex page;
  rep_wf : wf lo lev r';
  rep_holds x : holds r' x <-> x = page \/ (holds r x /\ pindex x <> pindex page);
  rep_nodes : nodes r' = nodes r;
}.

(** A node in which the word of the slot of the index is replaced. *)
Lemma replaced_below lo lev b n c c' m page :
  node_ok b n -> rn_clev n < lev -> lo <= b -> b + 16 ^ (rn_clev n + 1) <= lo + 16 ^ lev ->
  2 <= rn_count n ->
  (forall j c, 0 <= j < 16 -> child_at n j = Some c ->
     wf (b + j * 16 ^ rn_clev n) (rn_clev n) c) ->
  let s := vm_radix_slot (pindex page) (rn_clev n) in
  child_at n s = Some c -> replaced (b + s * 16 ^ rn_clev n) (rn_clev n) c c' m page ->
  replaced lo lev (Node n) (Node (set_child n s (Some c'))) m page.
Proof.
  intros Hn Hl Hlo Hhi Hcnt Hch s Hc [[Hm Hi] Hw Hh Hk].
  pose proof (ok_length _ _ Hn) as Hlen. pose proof (ok_clev _ _ Hn).
  assert (0 <= s < 16) as Hs by (apply slot_range; lia). split.
  - split; [by apply (holds_node n s c) | done].
  - apply (wf_set lo lev b n s (Some c') (rn_count n)); try done.
    + rewrite Hc. unfold live. simpl. lia.
    + by intros ? [= <-].
  - intros x. rewrite holds_set, (holds_other b n (pindex page) x Hn Hch) by done.
    simpl oholds. rewrite Hh. fold s. rewrite Hc. simpl oholds. tauto.
  - rewrite nodes_set, Hc by done. simpl onodes. lia.
Qed.

Section replace.
Context `{ShiftOut}.

Lemma replace_loop_wf lo lev r : wf lo lev r ->
  forall n fuel page, r = Node n -> lev < Z.of_nat fuel -> is_key (pindex page) ->
  (exists n' m, replace_loop fuel n page = Ok (n', m) /\ replaced lo lev r (Node n') m page) \/
  ((forall m, holds r m -> pindex m <> pindex page) /\
   exists msg, replace_loop fuel n page = Panic msg).
Proof.
  induction 1 as [lo lev m Hm | lo lev b n Hn Hl Hlo Hhi Hcnt Hch IH];
    intros n' [|fuel] page Hr Hf Hkey; try done; try (pose proof (ok_clev _ _ Hn); lia).
  injection Hr as <-. pose proof (ok_clev _ _ Hn) as Hclev. cbn [replace_loop].
  assert (0 <= vm_radix_slot (pindex page) (rn_clev n) < 16) as Hs by (apply slot_range; lia).
  pose proof (fun m Hi => proj1 (holds_at_slot b n (pindex page) m Hn Hch Hi)) as Hat.
  pose proof (replaced_below lo lev b n) as Hbelow.
  destruct (child_at n (vm_radix_slot (pindex page) (rn_clev n))) as [c|] eqn:Hc.
  2: { right. split; [|by eexists]. intros m Hm Hi. exact (Hat m Hi Hm). }
  pose proof (Hch _ c Hs Hc) as Hwf. destruct c as [m|n'].
  - destruct (Z.eqb_spec (pindex m) (pindex page)) as [Hi|Hi].
    + left. eexists _, m. split; [done|]. apply (Hbelow (Leaf m)); try done. split.
      * split; [constructor | done].
      * constructor. pose proof (wf_holds_range _ _ _ m Hwf ltac:(constructor)). lia.
      * intros x. rewrite !holds_leaf_iff. split; [by left|]. by intros [?|[-> ?]].
      * done.
    + right. split; [|by eexists]. intros x Hx Hxi.
      apply (Hat x Hxi) in Hx. apply holds_leaf_iff in Hx as ->. done.
  - destruct (vm_radix_keybarr n' (pindex page)) eqn:Hbar.
    + right. split; [|by eexists]. intros x Hx Hxi. apply (Hat x Hxi) in Hx.
      inversion Hwf as [|? ? b' ? Hn' ? ? ? ? Hch']; subst.
      apply holds_node_iff in Hx as (j & Hj & Hx).
      destruct (holds_slot b' n' x Hn' Hch' j Hj Hx) as [Hr _]. rewrite Hxi in Hr.
      by rewrite (keybarr_false b') in Hbar.
    + destruct (IH _ (Node n') Hs Hc n' fuel page eq_refl ltac:(lia) Hkey) as
        [(n'' & m & E & Hrep) | [Hno [msg E]]]; rewrite E.
      * left. eexists _, m. split; [done|]. by apply (Hbelow (Node n')).
      * right. split; [|by eexists]. intros m Hm Hi. by apply (Hno m (Hat m Hi Hm)).
Qed.
End replace.

(** ** Reclamation *)

Lemma reclaim_slots_spec rec todo : forall slot n zone,
  slot + Z.of_nat todo = 16 -> 0 <= slot -> zlength (rn_child n) = 16 ->
  rn_count n = live_count n -> (forall j, 0 <= j < slot -> child_at n j = None) ->
  (forall j n' z, 0 <= j < 16 -> child_at n j = Some (Node n') ->
     rec n' z = Ok (z - nodes (Node n'))) ->
  exists n', reclaim_slots rec todo slot n zone = Ok (n', zone - (nodes (Node n) - 1)) /\
    rn_count n' = 0 /\ live_count n' = 0.
Proof.
  induction todo as [|todo IH]; intros slot n zone Hslot H0 Hlen Hcnt Hlow Hrec;
    cbn [reclaim_slots]; destruct (Z.eqb_spec (rn_count n) 0) as [E|E].
  1, 3: exists n; rewrite nodes_null by lia; split_and!; [do 2 f_equal; lia | lia | lia].
  { destruct (live_count_pos n Hlen ltac:(lia)) as (j & c & Hj & Hc).
    by rewrite Hlow in Hc by lia. }
  destruct (child_at n slot) as [c|] eqn:Hc.
  - set (n1 := set_rn_count (set_child n slot None) (rn_count n - 1)).
    assert (forall j, 0 <= j -> child_at n1 j = if slot =? j then None else child_at n j) as C1.
    { intros j Hj. apply (child_at_set n slot None j); done || lia. }
    destruct (IH (slot + 1) n1 (zone - nodes c)) as (n' & En & Hn').
    + lia.
    + lia.
    + simpl. by rewrite zlength_aset.
    + change (rn_count n - 1 = live_count (set_child n slot None)).
      rewrite live_count_set, Hc by (done || lia). unfold live. simpl. lia.
    + intros j Hj. rewrite C1 by lia. zcase; [done|]. apply Hlow. lia.
    + intros j n' z Hj. rewrite C1 by lia. zcase; [done|]. by apply Hrec.
    + exists n'. split; [|done].
      assert (match c with Leaf _ => Ok zone | Node n' => rec n' zone end
              = Ok (zone - nodes c)) as ->.
      { destruct c as [m|n'']; [simpl nodes; do 2 f_equal; lia|]. apply (Hrec slot); [lia | done]. }
      rewrite bind_Ok. fold n1. rewrite En. do 2 f_equal.
      change (nodes (Node n1)) with (nodes (Node (set_child n slot None))).
      rewrite nodes_set, Hc by (done || lia). unfold onodes. lia.
  - apply IH; try done; try lia. intros j Hj.
    destruct (decide (j = slot)) as [->|]; [done|]. apply Hlow. lia.
Qed.

Lemma reclaim_int_step fuel n n' zone zone' :
  rn_count n <= 16 ->
  reclaim_slots (vm_radix_reclaim_allnodes_int fuel) 16 0 n zone = Ok (n', zone') ->
  vm_radix_reclaim_allnodes_int (S fuel) n zone = vm_radix_node_put n' zone'.
Proof.
  intros Hc E. cbn [vm_radix_reclaim_allnodes_int]. rewrite E, require_true; [done|].
  by apply Z.leb_le.
Qed.

Lemma reclaim_int_wf lo lev r : wf lo lev r ->
  forall n fuel zone, r = Node n -> lev < Z.of_nat fuel ->
  vm_radix_reclaim_allnodes_int fuel n zone = Ok (zone - nodes (Node n)).
Proof.
  induction 1 as [lo lev m Hm | lo lev b n Hn Hl Hlo Hhi Hcnt Hch IH];
    intros n' [|fuel] zone Hr Hf; try done; try (pose proof (ok_clev _ _ Hn); lia).
  injection Hr as <-.
  pose proof (ok_length _ _ Hn) as Hlen. pose proof (live_count_le n Hlen) as H16.
  rewrite <- (ok_count _ _ Hn) in H16.
  destruct (reclaim_slots_spec (vm_radix_reclaim_allnodes_int fuel) 16 0 n zone)
    as (n' & E & Hc' & Hl'); [done | lia | done | apply Hn | lia | |].
  - intros j n' z Hj Hc. by apply (IH j (Node n') Hj Hc n' fuel z eq_refl ltac:(lia)).
  - rewrite (reclaim_int_step _ _ _ _ _ H16 E), node_put_ok by done. f_equal. lia.
Qed.
