(* ===== verification/RadixNear.v ===== *)
(** * The nearest page at or above an index

    The search from a node either finds the least page of the node that is at
    or above the index, or leaves the node at the label [ascend] with an index
    that is still in the range of the node's slot in its parent. *)

From S2P Require Import Prelude Radix RadixInv.

Definition least_ge (r : rptr) (i : Z) (m : vm_page) : Prop :=
  holds r m /\ i <= pindex m /\ forall m', holds r m' -> i <= pindex m' -> pindex m <= pindex m'.

Definition none_ge (r : rptr) (i : Z) : Prop := forall m, holds r m -> pindex m < i.

(** Slots of a node in order. *)
Lemma slot_order b n j m :
  node_ok b n ->
  (forall j c, 0 <= j < 16 -> child_at n j = Some c ->
     wf (b + j * 16 ^ rn_clev n) (rn_clev n) c) ->
  0 <= j < 16 -> oholds (child_at n j) m ->
  b + j * 16 ^ rn_clev n <= pindex m < b + (j + 1) * 16 ^ rn_clev n.
Proof.
  intros Hn Hch Hj Hm. destruct (child_at n j) as [c|] eqn:Hc; [|done].
  pose proof (wf_holds_range _ _ _ _ (Hch j c Hj Hc) Hm). lia.
Qed.

Section ge.
Context `{ShiftOut}.

(** An iteration after the computation of the index. *)
Definition ge_rest (fuel : nat) (p : option cursor) : result (option vm_page) :=
  match p with
  | None => Ok None
  | Some (loops, n, stack, index) =>
      match ge_scan n index with
      | Found m => Ok (Some m)
      | Descend c index =>
          require (rn_clev n >? 0) "vm_radix_lookup_ge: pushing leaf's parent";;
          require (zlength stack <? VM_RADIX_LIMIT) "vm_radix_lookup_ge: stack overflow";;
          ge_loop fuel Head loops c (n :: stack) index
      | Exhausted index => ge_loop fuel Ascend loops n stack index
      end
  end.

Definition ge_after (fuel : nat) (loops : Z) (stack : list rnode) (index : Z)
    : result (option vm_page) :=
  p ← ge_ascend loops stack index; ge_rest fuel p.

Lemma ge_loop_step fuel e loops n stack index :
  ge_loop (S fuel) e loops n stack index =
  (p ← ge_enter e loops n stack index; ge_rest fuel p).
Proof. reflexivity. Qed.

(** ** One node *)

Section node.
Context (b : Z) (n : rnode).
Hypothesis Hn : node_ok b n.
Hypothesis Hch : forall j c, 0 <= j < 16 -> child_at n j = Some c ->
  wf (b + j * 16 ^ rn_clev n) (rn_clev n) c.

(** The first word above a slot. *)
Lemma ge_slots_spec todo : forall slot,
  0 <= slot -> slot + Z.of_nat todo = 15 ->
  match ge_slots todo n slot (b + slot * 16 ^ rn_clev n) with
  | Found m => exists j, slot < j < 16 /\ child_at n j = Some (Leaf m) /\
      forall k, slot < k < j -> child_at n k = None
  | Descend c index => exists j, slot < j < 16 /\ child_at n j = Some (Node c) /\
      index = b + j * 16 ^ rn_clev n /\ forall k, slot < k < j -> child_at n k = None
  | Exhausted index => b <= index < b + 16 ^ (rn_clev n + 1) /\
      forall k, slot < k < 16 -> child_at n k = None
  end.
Proof.
  pose proof (ok_clev _ _ Hn) as Hclev. destruct (ok_range _ _ Hn) as [Hb0 Hb64].
  pose proof (pow16_pos (rn_clev n) ltac:(lia)) as HW. rewrite pow16_succ in * by lia.
  induction todo as [|todo IH]; intros slot H0 Hs; cbn [ge_slots].
  { split; [nia|]. intros; lia. }
  rewrite unitlevel_eq by done. unfold u64. rewrite Z.mod_small by nia.
  replace (b + slot * 16 ^ rn_clev n + 16 ^ rn_clev n)
    with (b + (slot + 1) * 16 ^ rn_clev n) by lia.
  specialize (IH (slot + 1) ltac:(lia) ltac:(lia)).
  destruct (child_at n (slot + 1)) as [[m|c]|] eqn:Hc.
  - pose proof (wf_holds_range _ _ _ m (Hch (slot + 1) (Leaf m) ltac:(lia) Hc) ltac:(constructor)).
    rewrite Z.geb_leb, (proj2 (Z.leb_le _ _)) by lia.
    exists (slot + 1). split_and!; try done; lia.
  - exists (slot + 1). split_and!; try done; lia.
  - destruct (ge_slots todo n (slot + 1) _) as [m|c index|index].
    + destruct IH as (j & Hj & Hm & Hk). exists j. split; [lia|]. split; [done|].
      intros k Hk'. destruct (decide (k = slot + 1)) as [->|]; [done|]. apply Hk. lia.
    + destruct IH as (j & Hj & Hm & Hi & Hk). exists j. split; [lia|]. split; [done|].
      split; [done|].
      intros k Hk'. destruct (decide (k = slot + 1)) as [->|]; [done|]. apply Hk. lia.
    + destruct IH as [Hi Hk]. split; [done|].
      intros k Hk'. destruct (decide (k = slot + 1)) as [->|]; [done|]. apply Hk. lia.
Qed.

(** What the search of a node's words finds for an index in its range. *)
Definition ge_scanned (index : Z) (e : scan_end) : Prop :=
  match e with
  | Found m => least_ge (Node n) index m
  | Descend c index' => exists j, 0 <= j < 16 /\ child_at n j = Some (Node c) /\
      b + j * 16 ^ rn_clev n <= index' < b + (j + 1) * 16 ^ rn_clev n /\ index <= index' /\
      forall m, holds (Node n) m -> index <= pindex m -> index' <= pindex m
  | Exhausted index' => b <= index' < b + 16 ^ (rn_clev n + 1) /\ none_ge (Node n) index
  end.

(** No page of the slots up to [s] is at or above [index]: the search goes on
    in the slots above. *)
Lemma ge_upwards_spec index s :
  0 <= s < 16 -> b + s * 16 ^ rn_clev n <= index < b + (s + 1) * 16 ^ rn_clev n ->
  (forall m, oholds (child_at n s) m -> pindex m < index) ->
  ge_scanned index
    (if s <? VM_RADIX_COUNT - 1 then
       ge_slots (Z.to_nat (VM_RADIX_COUNT - 1 - s)) n s (b + s * 16 ^ rn_clev n)
     else Exhausted index).
Proof.
  intros Hs Hi Hnone. change (VM_RADIX_COUNT - 1) with 15.
  pose proof (ok_clev _ _ Hn) as Hclev. pose proof (pow16_pos (rn_clev n) ltac:(lia)) as HW.
  pose proof (slot_order b n) as Hord.
  destruct (Z.ltb_spec s 15) as [Hs15|].
  - pose proof (ge_slots_spec (Z.to_nat (15 - s)) s ltac:(lia) ltac:(lia)) as Hsc.
    assert (forall j m, s < j < 16 -> (forall k, s < k < j -> child_at n k = None) ->
      holds (Node n) m -> index <= pindex m -> exists k, j <= k < 16 /\ oholds (child_at n k) m)
      as Habove.
    { intros j m Hj Hk (k & Hk' & Hm)%holds_node_iff Hge. exists k. split; [|done].
      destruct (Z.lt_trichotomy k s) as [|[->|]]; [| by specialize (Hnone m Hm); lia |].
      - pose proof (Hord k m Hn Hch Hk' Hm). nia.
      - destruct (Z.lt_ge_cases k j); [|lia]. by rewrite Hk in Hm by lia. }
    destruct (ge_slots _ _ _ _) as [m|c index'|index']; simpl.
    + destruct Hsc as (j & Hj & Hm & Hk). split; [by apply (holds_node n j (Leaf m)); [lia | |constructor]|].
      pose proof (Hord j m Hn Hch ltac:(lia) ltac:(rewrite Hm; constructor)) as Hr.
      split; [nia|]. intros m' Hm' Hge.
      destruct (Habove j m' Hj Hk Hm' Hge) as (k & Hkj & Hmk).
      destruct (decide (k = j)) as [->|]; [rewrite Hm in Hmk; apply holds_leaf_iff in Hmk as ->; lia|].
      pose proof (Hord k m' Hn Hch ltac:(lia) Hmk). nia.
    + destruct Hsc as (j & Hj & Hm & -> & Hk). exists j.
      split; [lia|]. split; [done|]. split; [lia|]. split; [nia|]. intros m' Hm' Hge.
      destruct (Habove j m' Hj Hk Hm' Hge) as (k & Hkj & Hmk).
      pose proof (Hord k m' Hn Hch ltac:(lia) Hmk). nia.
    + destruct Hsc as [Hr Hk]. split; [done|]. intros m Hm.
      destruct (Z.lt_ge_cases (pindex m) index) as [|Hge]; [done|].
      apply holds_node_iff in Hm as (k & Hk' & Hm).
      pose proof (Hord k m Hn Hch Hk' Hm).
      destruct (Z.lt_trichotomy k s) as [|[->|]]; [nia | by specialize (Hnone m Hm) |].
      by rewrite Hk in Hm by lia.
  - assert (s = 15) as -> by lia. simpl. split.
    + rewrite pow16_succ by lia. lia.
    + intros m (k & Hk' & Hm)%holds_node_iff. pose proof (Hord k m Hn Hch Hk' Hm).
      destruct (decide (k = 15)) as [->|]; [by apply Hnone|]. nia.
Qed.

Lemma ge_scan_spec index :
  b <= index < b + 16 ^ (rn_clev n + 1) -> ge_scanned index (ge_scan n index).
Proof.
  intros Hi. pose proof (ok_clev _ _ Hn) as Hclev. pose proof (ok_base _ _ Hn) as Hb.
  pose proof (slot_bounds b (rn_clev n) index ltac:(lia) Hb Hi) as HB.
  pose proof (pow16_pos (rn_clev n) ltac:(lia)) as HW.
  unfold ge_scan. rewrite (trim_bounds b) by done.
  pose proof (slot_range index (rn_clev n) ltac:(lia)) as Hs.
  pose proof (ge_upwards_spec index _ Hs HB) as Hup.
  set (s := vm_radix_slot index (rn_clev n)) in *.
  destruct (child_at n s) as [[m|c]|] eqn:Hc; [| |by apply Hup].
  - rewrite Z.geb_leb. destruct (Z.leb_spec index (pindex m)) as [Hge|Hlt].
    + split; [by apply (holds_node n s (Leaf m)); [| |constructor]|]. split; [done|].
      intros m' (k & Hk & Hm')%holds_node_iff Hge'.
      pose proof (slot_order b n k m' Hn Hch Hk Hm').
      pose proof (slot_order b n s m Hn Hch Hs ltac:(rewrite Hc; constructor)).
      destruct (decide (k = s)) as [->|].
      * rewrite Hc in Hm'. apply holds_leaf_iff in Hm' as ->. done.
      * nia.
    + apply Hup. by intros m' ->%holds_leaf_iff.
  - exists s. split_and!; try done; lia.
Qed.

(** The least page below a word is the least of the node when the node has no
    other page between. *)
Lemma least_ge_up j c index index' m :
  0 <= j < 16 -> child_at n j = Some c -> index <= index' ->
  b + j * 16 ^ rn_clev n <= index' ->
  (forall m', holds (Node n) m' -> index <= pindex m' -> index' <= pindex m') ->
  least_ge c index' m -> least_ge (Node n) index m.
Proof.
  intros Hj Hc Hii Hlow Hbetween (Hm & Hge & Hmin).
  split; [by apply (holds_node n j c)|]. split; [lia|]. intros m' Hm' Hge'.
  pose proof (Hbetween m' Hm' Hge') as Hge''.
  apply holds_node_iff in Hm' as (k & Hk & Hm').
  pose proof (slot_order b n k m' Hn Hch Hk Hm').
  pose proof (slot_order b n j m Hn Hch Hj ltac:(by rewrite Hc)).
  pose proof (ok_clev _ _ Hn). pose proof (pow16_pos (rn_clev n) ltac:(lia)).
  destruct (decide (k = j)) as [->|]; [rewrite Hc in Hm'; by apply Hmin | nia].
Qed.
End node.

(** ** Descending: all the pages are at or above the index *)

(** Pushing a node that has a node below it. *)
Lemma ge_push fuel loops n stack index c index' :
  ge_scan n index = Descend c index' -> 0 < rn_clev n -> zlength stack < 15 ->
  ge_rest fuel (Some (loops, n, stack, index)) = ge_loop fuel Head loops c (n :: stack) index'.
Proof.
  intros E Hc Hs. unfold ge_rest. rewrite E, Z.gtb_ltb.
  change VM_RADIX_LIMIT with 15. by ztest.
Qed.

Lemma zlength_cons {A} (x : A) l : zlength (x :: l) = zlength l + 1.
Proof. unfold zlength. simpl. lia. Qed.

Definition all_ge (r : rptr) (i : Z) : Prop := forall m, holds r m -> i <= pindex m.

(** A child that is a node is on a lower level. *)
Lemma node_below lo lev c : wf lo lev (Node c) -> 0 < lev.
Proof. inversion 1 as [|? ? b ? Hn]; subst. pose proof (ok_clev _ _ Hn). lia. Qed.

Lemma ge_descend lo lev r : wf lo lev r ->
  forall n fuel loops stack index, r = Node n -> is_key index -> all_ge r index ->
  lev <= Z.of_nat fuel -> zlength stack + lev <= 16 ->
  exists m, ge_loop fuel Head loops n stack index = Ok (Some m) /\ least_ge r index m.
Proof.
  intros Hwf. pose proof (wf_nonempty _ _ _ Hwf) as Hne. revert Hne.
  induction Hwf as [lo lev m Hm | lo lev b n Hn Hl Hlo Hhi Hcnt Hch IH];
    intros [m0 Hm0] n' [|fuel] loops stack index Hr Hkey Hall Hf Hst; try done;
    try (pose proof (ok_clev _ _ Hn); lia).
  injection Hr as <-. pose proof (ok_clev _ _ Hn) as Hclev.
  pose proof (pow16_pos (rn_clev n + 1) ltac:(lia)) as HW.
  assert (forall m, holds (Node n) m -> b <= pindex m < b + 16 ^ (rn_clev n + 1)) as Hrange.
  { intros m (j & Hj & Hm)%holds_node_iff. by destruct (holds_slot b n m Hn Hch j Hj Hm). }
  assert (exists index1, ge_enter Head loops n stack index = Ok (Some (loops, n, stack, index1)) /\
    b <= index1 < b + 16 ^ (rn_clev n + 1) /\ index <= index1 /\ all_ge (Node n) index1)
    as (index1 & E & Hi1 & Hii & Hall1).
  { cbn [ge_enter]. pose proof (Hall _ Hm0). pose proof (Hrange _ Hm0).
    destruct (keybarr_cases b n index Hn Hkey) as [[-> Hr] | (-> & -> & _ & Hr)].
    - exists index. by split_and!; try lia.
    - exists b. rewrite Z.gtb_ltb. ztest. rewrite (keybarr_false b) by (done || lia).
      split_and!; try done; try lia. intros m Hm. by apply Hrange. }
  rewrite ge_loop_step, E, bind_Ok.
  pose proof (ge_scan_spec b n Hn Hch index1 Hi1) as Hsc.
  destruct (ge_scan n index1) as [m|c index2|index2] eqn:Es.
  - exists m. unfold ge_rest. rewrite Es. split; [done|].
    destruct Hsc as (Hm & Hge & Hmin). split; [done|]. split; [lia|].
    intros m' Hm' _. apply Hmin; [done | by apply Hall1].
  - destruct Hsc as (j & Hj & Hc & Hi2 & Hle & Hbetween).
    pose proof (Hch j _ Hj Hc) as Hwf.
    pose proof (node_below _ _ _ Hwf) as Hpos.
    rewrite (ge_push _ _ _ _ _ _ _ Es Hpos) by lia.
    pose proof (ok_range _ _ Hn) as [Hb0 _]. unfold is_key in Hkey.
    destruct (IH j _ Hj Hc (wf_nonempty _ _ _ Hwf) c fuel loops (n :: stack) index2 eq_refl)
      as (m & Em & Hm).
    + pose proof (pow16_pos (rn_clev n)). pose proof (ok_range _ _ Hn).
      rewrite pow16_succ in * by lia. unfold is_key. nia.
    + intros m Hm. apply Hbetween; [by eapply holds_node|]. apply Hall1. by eapply holds_node.
    + lia.
    + rewrite zlength_cons. lia.
    + exists m. split; [done|].
      apply (least_ge_up b n Hn Hch j (Node c) index index2); try done; try lia.
      intros m' Hm' _. apply Hbetween; [done | by apply Hall1].
  - destruct Hsc as [_ Hnone]. specialize (Hnone _ Hm0). specialize (Hall1 _ Hm0). lia.
Qed.

(** ** Leaving a node upwards *)

(** Popping a node whose slots above that of the index are none. *)
Lemma ge_after_last fuel loops n stack index :
  vm_radix_slot index (rn_clev n) = 15 ->
  ge_after fuel loops (n :: stack) index = ge_after fuel loops stack index.
Proof. intros E. unfold ge_after, ge_ascend. cbn [ge_pop]. by rewrite E. Qed.

(** Popping a node of which the search goes on in the next slot. *)
Lemma ge_after_next fuel loops b n stack index j :
  node_ok b n -> loops + 1 < 1000 -> 0 <= j < 15 ->
  b + j * 16 ^ rn_clev n <= index < b + (j + 1) * 16 ^ rn_clev n ->
  ge_after fuel loops (n :: stack) index =
  ge_rest fuel (Some (loops + 1, n, stack, b + (j + 1) * 16 ^ rn_clev n)).
Proof.
  intros Hn Hloops Hj Hi. pose proof (ok_clev _ _ Hn) as Hclev.
  destruct (ok_range _ _ Hn) as [Hb0 Hb64]. pose proof (ok_base _ _ Hn) as Hb.
  pose proof (pow16_pos (rn_clev n) ltac:(lia)) as HW.
  pose proof (pow16_succ (rn_clev n) ltac:(lia)) as Hsucc.
  assert (b <= index < b + 16 ^ (rn_clev n + 1)) as Hr by nia.
  assert (vm_radix_slot index (rn_clev n) = j) as Hs.
  { apply (slot_iff b); [lia | done | done | lia | done]. }
  unfold ge_after, ge_ascend. rewrite require_true by (apply Z.ltb_lt; lia).
  rewrite bind_Ok. cbn [ge_pop]. rewrite Hs. change (VM_RADIX_COUNT - 1) with 15. ztest.
  rewrite (trim_bounds b), Hs, unitlevel_eq by done.
  replace (b + j * 16 ^ rn_clev n + 16 ^ rn_clev n)
    with (b + (j + 1) * 16 ^ rn_clev n) by lia.
  unfold u64. rewrite Z.mod_small by nia.
  by rewrite (keybarr_false b) by (done || nia).
Qed.

(** How the search from a word ends. *)
Definition ge_outcome (lo lev : Z) (r : rptr) (fuel : nat) (loops : Z) (stack : list rnode)
    (index : Z) (x : result (option vm_page)) : Prop :=
  (exists m, x = Ok (Some m) /\ least_ge r index m) \/
  (none_ge r index /\ exists fuel' loops' index', x = ge_after fuel' loops' stack index' /\
     lo <= index' < lo + 16 ^ lev /\ Z.of_nat fuel <= Z.of_nat fuel' + 2 * lev /\
     loops' <= loops + lev - 1).

(** The search goes on above slot [j]: the next one is entered at its start. *)
Lemma ge_resume b n fuel loops stack j :
  node_ok b n ->
  (forall j c, 0 <= j < 16 -> child_at n j = Some c ->
     wf (b + j * 16 ^ rn_clev n) (rn_clev n) c) ->
  0 <= j < 15 -> rn_clev n < Z.of_nat fuel -> zlength stack + rn_clev n <= 15 ->
  let index := b + (j + 1) * 16 ^ rn_clev n in
  let x := ge_rest fuel (Some (loops, n, stack, index)) in
  (exists m, x = Ok (Some m) /\ least_ge (Node n) index m) \/
  (none_ge (Node n) index /\ exists index', x = ge_after (pred fuel) loops stack index' /\
     b <= index' < b + 16 ^ (rn_clev n + 1)).
Proof.
  intros Hn Hch Hj Hf Hst index x. pose proof (ok_clev _ _ Hn) as Hclev.
  destruct (ok_range _ _ Hn) as [Hb0 Hb64].
  pose proof (pow16_pos (rn_clev n) ltac:(lia)) as HW.
  pose proof (pow16_succ (rn_clev n) ltac:(lia)) as Hsucc.
  assert (b <= index < b + 16 ^ (rn_clev n + 1)) as Hi by (unfold index; nia).
  pose proof (ge_scan_spec b n Hn Hch index Hi) as Hsc. unfold x.
  destruct (ge_scan n index) as [m|c index2|index2] eqn:Es.
  - left. exists m. split; [unfold ge_rest; by rewrite Es | done].
  - left. destruct Hsc as (k & Hk & Hc & Hi2 & Hle & Hbetween).
    pose proof (Hch k _ Hk Hc) as Hwf. pose proof (node_below _ _ _ Hwf) as Hpos.
    rewrite (ge_push _ _ _ _ _ _ _ Es Hpos) by lia.
    destruct (ge_descend _ _ _ Hwf c fuel loops (n :: stack) index2 eq_refl) as (m & Em & Hm).
    + unfold is_key. nia.
    + intros m Hm. assert (holds (Node n) m) as Hm' by (by apply (holds_node n k (Node c))).
      apply Hbetween; [done|].
      pose proof (slot_order b n k m Hn Hch Hk ltac:(by rewrite Hc)).
      assert (j + 1 <= k) by (unfold index in Hle; nia). unfold index. nia.
    + lia.
    + rewrite zlength_cons. lia.
    + exists m. split; [done|]. by apply (least_ge_up b n Hn Hch k (Node c) index index2); try lia.
  - right. split; [apply Hsc|]. destruct fuel as [|fuel]; [lia|].
    exists index2. split; [|apply Hsc]. unfold ge_rest at 1. by rewrite Es.
Qed.

(** The child that the search went down to has nothing at or above the index:
    the search of the node goes on above the child. *)
Lemma ge_child_left lo lev b n fuel loops stack index j c index' fuel' loops' index2 :
  node_ok b n -> rn_clev n < lev -> lo <= b -> b + 16 ^ (rn_clev n + 1) <= lo + 16 ^ lev ->
  (forall j c, 0 <= j < 16 -> child_at n j = Some c ->
     wf (b + j * 16 ^ rn_clev n) (rn_clev n) c) ->
  0 <= j < 16 -> child_at n j = Some c -> index <= index' ->
  (forall m, holds (Node n) m -> index <= pindex m -> index' <= pindex m) ->
  b + j * 16 ^ rn_clev n <= index' < b + (j + 1) * 16 ^ rn_clev n ->
  none_ge c index' -> b + j * 16 ^ rn_clev n <= index2 < b + (j + 1) * 16 ^ rn_clev n ->
  3 * lev <= Z.of_nat fuel -> Z.of_nat fuel - 1 <= Z.of_nat fuel' + 2 * rn_clev n ->
  loops' <= loops + rn_clev n - 1 -> loops + lev < 1000 -> zlength stack + lev <= 16 ->
  ge_outcome lo lev (Node n) fuel loops stack index (ge_after fuel' loops' (n :: stack) index2).
Proof.
  intros Hn Hl Hlo Hhi Hch Hj Hc Hle Hbetween Hi' Hnone Hi2 Hf Hf' Hlo' Hloops Hst.
  pose proof (ok_clev _ _ Hn) as Hclev. pose proof (pow16_pos (rn_clev n) ltac:(lia)) as HW.
  pose proof (pow16_succ (rn_clev n) ltac:(lia)) as Hsucc.
  assert (forall m, holds (Node n) m -> index <= pindex m ->
    b + (j + 1) * 16 ^ rn_clev n <= pindex m) as Habove.
  { intros m Hm Hge. pose proof (Hbetween m Hm Hge) as Hge'.
    apply holds_node_iff in Hm as (k & Hk & Hm). pose proof (slot_order b n k m Hn Hch Hk Hm).
    destruct (decide (k = j)) as [->|]; [|nia]. rewrite Hc in Hm. specialize (Hnone m Hm). lia. }
  destruct (decide (j = 15)) as [->|].
  - right. split.
    + intros m Hm. destruct (Z.lt_ge_cases (pindex m) index) as [|Hge]; [done|].
      specialize (Habove m Hm Hge). apply holds_node_iff in Hm as (k & Hk & Hm).
      pose proof (slot_order b n k m Hn Hch Hk Hm). nia.
    + exists fuel', loops', index2. rewrite ge_after_last.
      2: { apply (slot_iff b); [lia | apply Hn | nia | lia | done]. }
      split_and!; try done; try nia; lia.
  - rewrite (ge_after_next fuel' loops' b n stack index2 j) by (done || lia).
    destruct (ge_resume b n fuel' (loops' + 1) stack j) as
      [(m & E & Hm) | (Hno & i3 & E & Hi3)]; try done; try lia; rewrite E.
    + left. exists m. split; [done|]. destruct Hm as (Hm & Hge & Hmin).
      split; [done|]. split; [lia|]. intros m' Hm' Hge'. apply Hmin; [done | by apply Habove].
    + right. split.
      * intros m Hm. destruct (Z.lt_ge_cases (pindex m) index) as [|Hge]; [done|].
        specialize (Habove m Hm Hge). specialize (Hno m Hm). lia.
      * exists (pred fuel'), (loops' + 1), i3. split_and!; try done; lia.
Qed.

Lemma ge_loop_wf lo lev r : wf lo lev r ->
  forall n fuel loops stack index, r = Node n -> is_key index ->
  lo <= index < lo + 16 ^ lev -> 3 * lev <= Z.of_nat fuel ->
  loops + lev < 1000 -> zlength stack + lev <= 16 ->
  ge_outcome lo lev r fuel loops stack index (ge_loop fuel Head loops n stack index).
Proof.
  intros Hwf. pose proof Hwf as Hwf0. revert Hwf0.
  induction Hwf as [lo lev m Hm | lo lev b n Hn Hl Hlo Hhi Hcnt Hch IH];
    intros Hwf n' [|fuel] loops stack index Hr Hkey Hi Hf Hloops Hst; try done;
    try (pose proof (ok_clev _ _ Hn); lia).
  injection Hr as <-. pose proof (ok_clev _ _ Hn) as Hclev.
  pose proof (pow16_pos (rn_clev n + 1) ltac:(lia)) as HW.
  destruct (keybarr_cases b n index Hn Hkey) as [[Hbar Hr] | (Hbar & Ho & _ & Hr)].
  - rewrite ge_loop_step. cbn [ge_enter]. rewrite Hbar, bind_Ok.
    pose proof (ge_scan_spec b n Hn Hch index Hr) as Hsc.
    destruct (ge_scan n index) as [m|c index'|index'] eqn:Es.
    + left. exists m. split; [unfold ge_rest; by rewrite Es | done].
    + destruct Hsc as (j & Hj & Hc & Hi' & Hle & Hbetween).
      pose proof (Hch j _ Hj Hc) as Hwc. pose proof (node_below _ _ _ Hwc) as Hpos.
      rewrite (ge_push _ _ _ _ _ _ _ Es Hpos) by lia.
      destruct (ok_range _ _ Hn) as [Hb0 Hb64]. unfold is_key in Hkey.
      pose proof (pow16_succ (rn_clev n) ltac:(lia)) as Hsucc.
      destruct (IH j _ Hj Hc Hwc c fuel loops (n :: stack) index' eq_refl) as
        [(m & E & Hm) | (Hno & fuel' & loops' & i2 & E & Hi2 & Hf' & Hl')].
      * unfold is_key. nia.
      * lia.
      * lia.
      * lia.
      * rewrite zlength_cons. lia.
      * left. exists m. split; [done|].
        by apply (least_ge_up b n Hn Hch j (Node c) index index'); try lia.
      * rewrite E. apply (ge_child_left lo lev b n _ _ _ _ j (Node c) index'); try done; lia.
    + right. split; [apply Hsc|]. destruct fuel as [|fuel]; [lia|].
      exists fuel, loops, index'. split; [unfold ge_rest at 1; by rewrite Es|].
      destruct Hsc as [? _]. split_and!; lia.
  - destruct Hr as [Hlt | Hge].
    + left. apply (ge_descend lo lev (Node n)); try done; [|lia].
      intros m (j & Hj & Hm)%holds_node_iff. destruct (holds_slot b n m Hn Hch j Hj Hm). lia.
    + right. split.
      * intros m (j & Hj & Hm)%holds_node_iff. destruct (holds_slot b n m Hn Hch j Hj Hm). lia.
      * exists fuel, loops, index. split; [|split_and!; lia].
        rewrite ge_loop_step. cbn [ge_enter]. rewrite Hbar, Ho, Z.gtb_ltb. by ztest.
Qed.

(** The answer of a search: the least page at or above the index, if any. *)
Definition ge_answer (r : option rptr) (i : Z) (o : option vm_page) : Prop :=
  match o with
  | Some m => exists r', r = Some r' /\ least_ge r' i m
  | None => forall m, oholds r m -> pindex m < i
  end.

Lemma lookup_ge_wf rt index :
  root_ok (rt_root rt) -> is_key index ->
  exists o, vm_radix_lookup_ge rt index = Ok o /\ ge_answer (rt_root rt) index o.
Proof.
  intros Hwf Hkey. unfold vm_radix_lookup_ge. destruct (rt_root rt) as [[m|n]|]; simpl in Hwf.
  - eexists. split; [done|]. rewrite Z.geb_leb. destruct (Z.leb_spec index (pindex m)).
    + exists (Leaf m). split; [done|]. split; [constructor|]. split; [done|].
      by intros m' ->%holds_leaf_iff.
    + by intros m' ->%holds_leaf_iff.
  - destruct (ge_loop_wf 0 16 (Node n) Hwf n search_fuel 0 [] index) as
      [(m & E & Hm) | (Hno & fuel' & loops' & i2 & E & _ & _ & Hl)];
      try done; rewrite E.
    + exists (Some m). split; [done|]. by exists (Node n).
    + exists None. split; [|done]. unfold ge_after, ge_ascend.
      rewrite require_true by (apply Z.ltb_lt; lia). done.
  - exists None. split; [done|]. by intros m [].
Qed.
End ge.

(** * The nearest page at or below an index

    The mirror image of the search above, with the code's own arithmetic: the search
    of a node's words runs down from the last key of a slot, and the last key
    of a node at the top of the key space is computed by a sum that wraps to
    0 before 1 is taken from it. *)

Definition greatest_le (r : rptr) (i : Z) (m : vm_page) : Prop :=
  holds r m /\ pindex m <= i /\ forall m', holds r m' -> pindex m' <= i -> pindex m' <= pindex m.

Definition none_le (r : rptr) (i : Z) : Prop := forall m, holds r m -> i < pindex m.

Lemma lor_ldiff a o : Z.lor a o = Z.ldiff a o + o.
Proof.
  rewrite Z.add_nocarry_lxor; apply Z.bits_inj'; intros k Hk; autorewrite with bits;
    by destruct (Z.testbit a k), (Z.testbit o k).
Qed.

(** [index |= inc - 1]: the last key of the slot of [index]. *)
Lemma lor_last b c s index :
  0 <= c <= 15 -> b mod 16 ^ (c + 1) = 0 ->
  b + s * 16 ^ c <= index < b + (s + 1) * 16 ^ c ->
  Z.lor index (u64 (VM_RADIX_UNITLEVEL c - 1)) = b + (s + 1) * 16 ^ c - 1.
Proof.
  intros Hc Hb Hi. pose proof (pow16_pos c ltac:(lia)) as HW.
  rewrite unitlevel_eq by done. unfold u64. rewrite Z.mod_small.
  2: { split; [lia|]. pose proof (pow16_mono c 16). rewrite <- pow16_16. lia. }
  rewrite <- (pow16_bits c) in * by lia. set (k := c * VM_RADIX_WIDTH) in *.
  assert (0 <= k) as Hk by (unfold k, VM_RADIX_WIDTH; lia).
  replace (2 ^ k - 1) with (Z.ones k) by (rewrite Z.ones_equiv; lia).
  rewrite lor_ldiff.
  rewrite Z.ldiff_ones_r, Z.shiftl_mul_pow2, Z.shiftr_div_pow2, Z.ones_equiv by done.
  assert (b mod 2 ^ k = 0) as Hb'.
  { unfold k. rewrite pow16_bits by lia. apply (aligned_down b c (c + 1)); [lia | done]. }
  apply Z.mod_divide in Hb' as [q ->]; [|lia].
  rewrite <- (Z.div_unique_pos index (2 ^ k) (q + s) (index - 2 ^ k * (q + s))); lia.
Qed.

Section le.
Context `{ShiftOut}.

(** An iteration after the computation of the index. *)
Definition le_rest (fuel : nat) (p : option cursor) : result (option vm_page) :=
  match p with
  | None => Ok None
  | Some (loops, n, stack, index) =>
      match le_scan n index with
      | Found m => Ok (Some m)
      | Descend c index =>
          require (rn_clev n >? 0) "vm_radix_lookup_le: pushing leaf's parent";;
          require (zlength stack <? VM_RADIX_LIMIT) "vm_radix_lookup_le: stack overflow";;
          le_loop fuel Head loops c (n :: stack) index
      | Exhausted index => le_loop fuel Ascend loops n stack index
      end
  end.

Definition le_after (fuel : nat) (loops : Z) (stack : list rnode) (index : Z)
    : result (option vm_page) :=
  p ← le_ascend loops stack index; le_rest fuel p.

Lemma le_loop_step fuel e loops n stack index :
  le_loop (S fuel) e loops n stack index =
  (p ← le_enter e loops n stack index; le_rest fuel p).
Proof. reflexivity. Qed.

(** ** One node *)

Section node.
Context (b : Z) (n : rnode).
Hypothesis Hn : node_ok b n.
Hypothesis Hch : forall j c, 0 <= j < 16 -> child_at n j = Some c ->
  wf (b + j * 16 ^ rn_clev n) (rn_clev n) c.

(** The first word below a slot. *)
Lemma le_slots_spec todo : forall slot,
  slot < 16 -> slot = Z.of_nat todo ->
  match le_slots todo n slot (b + (slot + 1) * 16 ^ rn_clev n - 1) with
  | Found m => exists j, 0 <= j < slot /\ child_at n j = Some (Leaf m) /\
      forall k, j < k < slot -> child_at n k = None
  | Descend c index => exists j, 0 <= j < slot /\ child_at n j = Some (Node c) /\
      index = b + (j + 1) * 16 ^ rn_clev n - 1 /\ forall k, j < k < slot -> child_at n k = None
  | Exhausted index => b <= index < b + 16 ^ (rn_clev n + 1) /\
      forall k, 0 <= k < slot -> child_at n k = None
  end.
Proof.
  pose proof (ok_clev _ _ Hn) as Hclev. destruct (ok_range _ _ Hn) as [Hb0 Hb64].
  pose proof (pow16_pos (rn_clev n) ltac:(lia)) as HW. rewrite pow16_succ in * by lia.
  induction todo as [|todo IH]; intros slot H0 Hs; cbn [le_slots].
  { split; [nia|]. intros; lia. }
  rewrite unitlevel_eq by done. unfold u64. rewrite Z.mod_small by nia.
  replace (b + (slot + 1) * 16 ^ rn_clev n - 1 - 16 ^ rn_clev n)
    with (b + (slot - 1 + 1) * 16 ^ rn_clev n - 1) by lia.
  specialize (IH (slot - 1) ltac:(lia) ltac:(lia)).
  destruct (child_at n (slot - 1)) as [[m|c]|] eqn:Hc.
  - pose proof (wf_holds_range _ _ _ m (Hch (slot - 1) (Leaf m) ltac:(lia) Hc)
      ltac:(constructor)).
    rewrite (proj2 (Z.leb_le _ _)) by lia.
    exists (slot - 1). split_and!; try done; lia.
  - exists (slot - 1). split_and!; try done; lia.
  - destruct (le_slots todo n (slot - 1) _) as [m|c index|index].
    + destruct IH as (j & Hj & Hm & Hk). exists j. split; [lia|]. split; [done|].
      intros k Hk'. destruct (decide (k = slot - 1)) as [->|]; [done|]. apply Hk. lia.
    + destruct IH as (j & Hj & Hm & Hi & Hk). exists j. split; [lia|]. split; [done|].
      split; [done|].
      intros k Hk'. destruct (decide (k = slot - 1)) as [->|]; [done|]. apply Hk. lia.
    + destruct IH as [Hi Hk]. split; [done|].
      intros k Hk'. destruct (decide (k = slot - 1)) as [->|]; [done|]. apply Hk. lia.
Qed.

(** What the search of a node's words finds for an index in its range. *)
Definition le_scanned (index : Z) (e : scan_end) : Prop :=
  match e with
  | Found m => greatest_le (Node n) index m
  | Descend c index' => exists j, 0 <= j < 16 /\ child_at n j = Some (Node c) /\
      b + j * 16 ^ rn_clev n <= index' < b + (j + 1) * 16 ^ rn_clev n /\ index' <= index /\
      forall m, holds (Node n) m -> pindex m <= index -> pindex m <= index'
  | Exhausted index' => b <= index' < b + 16 ^ (rn_clev n + 1) /\ none_le (Node n) index
  end.

(** No page of the slots from [s] on is at or below [index]: the search goes
    on in the slots below. *)
Lemma le_downwards_spec index s :
  0 <= s < 16 -> b + s * 16 ^ rn_clev n <= index < b + (s + 1) * 16 ^ rn_clev n ->
  (forall m, oholds (child_at n s) m -> index < pindex m) ->
  le_scanned index
    (if s >? 0 then le_slots (Z.to_nat s) n s (b + (s + 1) * 16 ^ rn_clev n - 1)
     else Exhausted index).
Proof.
  intros Hs Hi Hnone.
  pose proof (ok_clev _ _ Hn) as Hclev. pose proof (pow16_pos (rn_clev n) ltac:(lia)) as HW.
  pose proof (slot_order b n) as Hord. rewrite Z.gtb_ltb.
  destruct (Z.ltb_spec 0 s) as [Hs0|].
  - pose proof (le_slots_spec (Z.to_nat s) s ltac:(lia) ltac:(lia)) as Hsc.
    assert (forall j m, 0 <= j < s -> (forall k, j < k < s -> child_at n k = None) ->
      holds (Node n) m -> pindex m <= index -> exists k, 0 <= k <= j /\ oholds (child_at n k) m)
      as Hbelow.
    { intros j m Hj Hk (k & Hk' & Hm)%holds_node_iff Hge. exists k. split; [|done].
      destruct (Z.lt_trichotomy k s) as [|[->|]]; [| by specialize (Hnone m Hm); lia |].
      - destruct (Z.lt_ge_cases j k); [|lia]. by rewrite Hk in Hm by lia.
      - pose proof (Hord k m Hn Hch Hk' Hm). nia. }
    destruct (le_slots _ _ _ _) as [m|c index'|index']; simpl.
    + destruct Hsc as (j & Hj & Hm & Hk). split; [by apply (holds_node n j (Leaf m)); [lia | |constructor]|].
      pose proof (Hord j m Hn Hch ltac:(lia) ltac:(rewrite Hm; constructor)) as Hr.
      split; [nia|]. intros m' Hm' Hge.
      destruct (Hbelow j m' Hj Hk Hm' Hge) as (k & Hkj & Hmk).
      destruct (decide (k = j)) as [->|]; [rewrite Hm in Hmk; apply holds_leaf_iff in Hmk as ->; lia|].
      pose proof (Hord k m' Hn Hch ltac:(lia) Hmk). nia.
    + destruct Hsc as (j & Hj & Hm & -> & Hk). exists j.
      split; [lia|]. split; [done|]. split; [lia|]. split; [nia|]. intros m' Hm' Hge.
      destruct (Hbelow j m' Hj Hk Hm' Hge) as (k & Hkj & Hmk).
      pose proof (Hord k m' Hn Hch ltac:(lia) Hmk). nia.
    + destruct Hsc as [Hr Hk]. split; [done|]. intros m Hm.
      destruct (Z.lt_ge_cases index (pindex m)) as [|Hge]; [done|].
      apply holds_node_iff in Hm as (k & Hk' & Hm).
      pose proof (Hord k m Hn Hch Hk' Hm).
      destruct (Z.lt_trichotomy k s) as [|[->|]]; [| by specialize (Hnone m Hm) | nia].
      by rewrite Hk in Hm by lia.
  - assert (s = 0) as -> by lia. simpl. split.
    + rewrite pow16_succ by lia. lia.
    + intros m (k & Hk' & Hm)%holds_node_iff. pose proof (Hord k m Hn Hch Hk' Hm).
      destruct (decide (k = 0)) as [->|]; [by apply Hnone|]. nia.
Qed.

Lemma le_scan_spec index :
  b <= index < b + 16 ^ (rn_clev n + 1) -> le_scanned index (le_scan n index).
Proof.
  intros Hi. pose proof (ok_clev _ _ Hn) as Hclev. pose proof (ok_base _ _ Hn) as Hb.
  pose proof (slot_bounds b (rn_clev n) index ltac:(lia) Hb Hi) as HB.
  pose proof (pow16_pos (rn_clev n) ltac:(lia)) as HW.
  pose proof (slot_range index (rn_clev n) ltac:(lia)) as Hs.
  unfold le_scan. rewrite (lor_last b _ _ index Hclev Hb HB).
  pose proof (le_downwards_spec index _ Hs HB) as Hdown.
  set (s := vm_radix_slot index (rn_clev n)) in *.
  destruct (child_at n s) as [[m|c]|] eqn:Hc; [| |by apply Hdown].
  - destruct (Z.leb_spec (pindex m) index) as [Hge|Hlt].
    + split; [by apply (holds_node n s (Leaf m)); [| |constructor]|]. split; [done|].
      intros m' (k & Hk & Hm')%holds_node_iff Hge'.
      pose proof (slot_order b n k m' Hn Hch Hk Hm').
      pose proof (slot_order b n s m Hn Hch Hs ltac:(rewrite Hc; constructor)).
      destruct (decide (k = s)) as [->|].
      * rewrite Hc in Hm'. apply holds_leaf_iff in Hm' as ->. done.
      * nia.
    + apply Hdown. by intros m' ->%holds_leaf_iff.
  - exists s. split_and!; try done; lia.
Qed.

(** The greatest page below a word is the greatest of the node when the node
    has no other page between. *)
Lemma greatest_le_up j c index index' m :
  0 <= j < 16 -> child_at n j = Some c -> index' <= index ->
  index' < b + (j + 1) * 16 ^ rn_clev n ->
  (forall m', holds (Node n) m' -> pindex m' <= index -> pindex m' <= index') ->
  greatest_le c index' m -> greatest_le (Node n) index m.
Proof.
  intros Hj Hc Hii Hhigh Hbetween (Hm & Hge & Hmax).
  split; [by apply (holds_node n j c)|]. split; [lia|]. intros m' Hm' Hge'.
  pose proof (Hbetween m' Hm' Hge') as Hge''.
  apply holds_node_iff in Hm' as (k & Hk & Hm').
  pose proof (slot_order b n k m' Hn Hch Hk Hm').
  pose proof (slot_order b n j m Hn Hch Hj ltac:(by rewrite Hc)).
  pose proof (ok_clev _ _ Hn). pose proof (pow16_pos (rn_clev n) ltac:(lia)).
  destruct (decide (k = j)) as [->|]; [rewrite Hc in Hm'; by apply Hmax | nia].
Qed.
End node.

(** ** Descending: all the pages are at or below the index *)

(** Pushing a node that has a node below it. *)
Lemma le_push fuel loops n stack index c index' :
  le_scan n index = Descend c index' -> 0 < rn_clev n -> zlength stack < 15 ->
  le_rest fuel (Some (loops, n, stack, index)) = le_loop fuel Head loops c (n :: stack) index'.
Proof.
  intros E Hc Hs. unfold le_rest. rewrite E, Z.gtb_ltb.
  change VM_RADIX_LIMIT with 15. by ztest.
Qed.

Definition all_le (r : rptr) (i : Z) : Prop := forall m, holds r m -> pindex m <= i.

(** A node whose keys are all below the index is entered at its last key. *)
Lemma le_enter_last b n loops stack index :
  node_ok b n -> is_key index -> b + 16 ^ (rn_clev n + 1) <= index ->
  le_enter Head loops n stack index =
  Ok (Some (loops, n, stack, b + 16 ^ (rn_clev n + 1) - 1)).
Proof.
  intros Hn Hkey Hi. cbn [le_enter]. pose proof (ok_clev _ _ Hn) as Hclev.
  pose proof (pow16_pos (rn_clev n + 1) ltac:(lia)) as HW.
  destruct (ok_range _ _ Hn) as [Hb0 Hb64].
  destruct (keybarr_cases b n index Hn Hkey) as [[-> Hr] | (-> & -> & _ & Hr)]; [lia|].
  rewrite Z.gtb_ltb. ztest. rewrite unitlevel_eq by done.
  change VM_RADIX_COUNT with 16. rewrite <- pow16_succ by lia.
  replace (u64 (u64 (b + 16 ^ (rn_clev n + 1)) - 1)) with (b + 16 ^ (rn_clev n + 1) - 1).
  - by rewrite (keybarr_false b) by (done || lia).
  - unfold u64. rewrite Zminus_mod_idemp_l, Z.mod_small; lia.
Qed.

Lemma le_descend lo lev r : wf lo lev r ->
  forall n fuel loops stack index, r = Node n -> is_key index -> all_le r index ->
  lev <= Z.of_nat fuel -> zlength stack + lev <= 16 ->
  exists m, le_loop fuel Head loops n stack index = Ok (Some m) /\ greatest_le r index m.
Proof.
  intros Hwf. pose proof (wf_nonempty _ _ _ Hwf) as Hne. revert Hne.
  induction Hwf as [lo lev m Hm | lo lev b n Hn Hl Hlo Hhi Hcnt Hch IH];
    intros [m0 Hm0] n' [|fuel] loops stack index Hr Hkey Hall Hf Hst; try done;
    try (pose proof (ok_clev _ _ Hn); lia).
  injection Hr as <-. pose proof (ok_clev _ _ Hn) as Hclev.
  pose proof (pow16_pos (rn_clev n + 1) ltac:(lia)) as HW.
  assert (forall m, holds (Node n) m -> b <= pindex m < b + 16 ^ (rn_clev n + 1)) as Hrange.
  { intros m (j & Hj & Hm)%holds_node_iff. by destruct (holds_slot b n m Hn Hch j Hj Hm). }
  assert (exists index1, le_enter Head loops n stack index = Ok (Some (loops, n, stack, index1)) /\
    b <= index1 < b + 16 ^ (rn_clev n + 1) /\ index1 <= index /\ all_le (Node n) index1)
    as (index1 & E & Hi1 & Hii & Hall1).
  { pose proof (Hall _ Hm0). pose proof (Hrange _ Hm0).
    destruct (keybarr_cases b n index Hn Hkey) as [[Hbar Hr] | (Hbar & _ & _ & Hr)].
    - exists index. cbn [le_enter]. rewrite Hbar. by split_and!; try lia.
    - exists (b + 16 ^ (rn_clev n + 1) - 1). rewrite (le_enter_last b) by (done || lia).
      split_and!; try done; try lia. intros m Hm. pose proof (Hrange m Hm). lia. }
  rewrite le_loop_step, E, bind_Ok.
  pose proof (le_scan_spec b n Hn Hch index1 Hi1) as Hsc.
  destruct (le_scan n index1) as [m|c index2|index2] eqn:Es.
  - exists m. unfold le_rest. rewrite Es. split; [done|].
    destruct Hsc as (Hm & Hge & Hmax). split; [done|]. split; [lia|].
    intros m' Hm' _. apply Hmax; [done | by apply Hall1].
  - destruct Hsc as (j & Hj & Hc & Hi2 & Hle & Hbetween).
    pose proof (Hch j _ Hj Hc) as Hwf. pose proof (node_below _ _ _ Hwf) as Hpos.
    rewrite (le_push _ _ _ _ _ _ _ Es Hpos) by lia.
    destruct (ok_range _ _ Hn) as [Hb0 Hb64]. unfold is_key in Hkey.
    pose proof (pow16_pos (rn_clev n) ltac:(lia)). rewrite pow16_succ in * by lia.
    destruct (IH j _ Hj Hc (wf_nonempty _ _ _ Hwf) c fuel loops (n :: stack) index2 eq_refl)
      as (m & Em & Hm).
    + unfold is_key. nia.
    + intros m Hm. apply Hbetween; [by eapply holds_node|]. apply Hall1. by eapply holds_node.
    + lia.
    + rewrite zlength_cons. lia.
    + exists m. split; [done|].
      apply (greatest_le_up b n Hn Hch j (Node c) index index2); try done; try lia.
      intros m' Hm' _. apply Hbetween; [done | by apply Hall1].
  - destruct Hsc as [_ Hnone]. specialize (Hnone _ Hm0). specialize (Hall1 _ Hm0). lia.
Qed.

(** ** Leaving a node upwards *)

(** Popping a node whose slots below that of the index are none. *)
Lemma le_after_first fuel loops n stack index :
  vm_radix_slot index (rn_clev n) = 0 ->
  le_after fuel loops (n :: stack) index = le_after fuel loops stack index.
Proof. intros E. unfold le_after, le_ascend. cbn [le_pop]. by rewrite E. Qed.

(** Popping a node of which the search goes on in the slot before. *)
Lemma le_after_prev fuel loops b n stack index j :
  node_ok b n -> loops + 1 < 1000 -> 0 < j < 16 ->
  b + j * 16 ^ rn_clev n <= index < b + (j + 1) * 16 ^ rn_clev n ->
  le_after fuel loops (n :: stack) index =
  le_rest fuel (Some (loops + 1, n, stack, b + j * 16 ^ rn_clev n - 1)).
Proof.
  intros Hn Hloops Hj Hi. pose proof (ok_clev _ _ Hn) as Hclev.
  destruct (ok_range _ _ Hn) as [Hb0 Hb64]. pose proof (ok_base _ _ Hn) as Hb.
  pose proof (pow16_pos (rn_clev n) ltac:(lia)) as HW.
  pose proof (pow16_succ (rn_clev n) ltac:(lia)) as Hsucc.
  assert (b <= index < b + 16 ^ (rn_clev n + 1)) as Hr by nia.
  assert (vm_radix_slot index (rn_clev n) = j) as Hs.
  { apply (slot_iff b); [lia | done | done | lia | done]. }
  unfold le_after, le_ascend. rewrite require_true by (apply Z.ltb_lt; lia).
  rewrite bind_Ok. cbn [le_pop]. rewrite Hs. ztest.
  rewrite (trim_bounds b), Hs by done.
  unfold u64. rewrite Z.mod_small by nia.
  by rewrite (keybarr_false b) by (done || nia).
Qed.

(** How the search from a word ends. *)
Definition le_outcome (lo lev : Z) (r : rptr) (fuel : nat) (loops : Z) (stack : list rnode)
    (index : Z) (x : result (option vm_page)) : Prop :=
  (exists m, x = Ok (Some m) /\ greatest_le r index m) \/
  (none_le r index /\ exists fuel' loops' index', x = le_after fuel' loops' stack index' /\
     lo <= index' < lo + 16 ^ lev /\ Z.of_nat fuel <= Z.of_nat fuel' + 2 * lev /\
     loops' <= loops + lev - 1).

(** The search goes on below slot [j]: the one before is entered at its end. *)
Lemma le_resume b n fuel loops stack j :
  node_ok b n ->
  (forall j c, 0 <= j < 16 -> child_at n j = Some c ->
     wf (b + j * 16 ^ rn_clev n) (rn_clev n) c) ->
  0 < j < 16 -> rn_clev n < Z.of_nat fuel -> zlength stack + rn_clev n <= 15 ->
  let index := b + j * 16 ^ rn_clev n - 1 in
  let x := le_rest fuel (Some (loops, n, stack, index)) in
  (exists m, x = Ok (Some m) /\ greatest_le (Node n) index m) \/
  (none_le (Node n) index /\ exists index', x = le_after (pred fuel) loops stack index' /\
     b <= index' < b + 16 ^ (rn_clev n + 1)).
Proof.
  intros Hn Hch Hj Hf Hst index x. pose proof (ok_clev _ _ Hn) as Hclev.
  destruct (ok_range _ _ Hn) as [Hb0 Hb64].
  pose proof (pow16_pos (rn_clev n) ltac:(lia)) as HW.
  pose proof (pow16_succ (rn_clev n) ltac:(lia)) as Hsucc.
  assert (b <= index < b + 16 ^ (rn_clev n + 1)) as Hi by (unfold index; nia).
  pose proof (le_scan_spec b n Hn Hch index Hi) as Hsc. unfold x.
  destruct (le_scan n index) as [m|c index2|index2] eqn:Es.
  - left. exists m. split; [unfold le_rest; by rewrite Es | done].
  - left. destruct Hsc as (k & Hk & Hc & Hi2 & Hle & Hbetween).
    pose proof (Hch k _ Hk Hc) as Hwf. pose proof (node_below _ _ _ Hwf) as Hpos.
    rewrite (le_push _ _ _ _ _ _ _ Es Hpos) by lia.
    destruct (le_descend _ _ _ Hwf c fuel loops (n :: stack) index2 eq_refl) as (m & Em & Hm).
    + unfold is_key. nia.
    + intros m Hm. assert (holds (Node n) m) as Hm' by (by apply (holds_node n k (Node c))).
      apply Hbetween; [done|].
      pose proof (slot_order b n k m Hn Hch Hk ltac:(by rewrite Hc)).
      assert (k + 1 <= j) by (unfold index in Hle; nia). unfold index. nia.
    + lia.
    + rewrite zlength_cons. lia.
    + exists m. split; [done|].
      by apply (greatest_le_up b n Hn Hch k (Node c) index index2); try lia.
  - right. split; [apply Hsc|]. destruct fuel as [|fuel]; [lia|].
    exists index2. split; [|apply Hsc]. unfold le_rest at 1. by rewrite Es.
Qed.

(** The child that the search went down to has nothing at or below the index:
    the search of the node goes on below the child. *)
Lemma le_child_left lo lev b n fuel loops stack index j c index' fuel' loops' index2 :
  node_ok b n -> rn_clev n < lev -> lo <= b -> b + 16 ^ (rn_clev n + 1) <= lo + 16 ^ lev ->
  (forall j c, 0 <= j < 16 -> child_at n j = Some c ->
     wf (b + j * 16 ^ rn_clev n) (rn_clev n) c) ->
  0 <= j < 16 -> child_at n j = Some c -> index' <= index ->
  (forall m, holds (Node n) m -> pindex m <= index -> pindex m <= index') ->
  b + j * 16 ^ rn_clev n <= index' < b + (j + 1) * 16 ^ rn_clev n ->
  none_le c index' -> b + j * 16 ^ rn_clev n <= index2 < b + (j + 1) * 16 ^ rn_clev n ->
  3 * lev <= Z.of_nat fuel -> Z.of_nat fuel - 1 <= Z.of_nat fuel' + 2 * rn_clev n ->
  loops' <= loops + rn_clev n - 1 -> loops + lev < 1000 -> zlength stack + lev <= 16 ->
  le_outcome lo lev (Node n) fuel loops stack index (le_after fuel' loops' (n :: stack) index2).
Proof.
  intros Hn Hl Hlo Hhi Hch Hj Hc Hle Hbetween Hi' Hnone Hi2 Hf Hf' Hlo' Hloops Hst.
  pose proof (ok_clev _ _ Hn) as Hclev. pose proof (pow16_pos (rn_clev n) ltac:(lia)) as HW.
  pose proof (pow16_succ (rn_clev n) ltac:(lia)) as Hsucc.
  assert (forall m, holds (Node n) m -> pindex m <= index ->
    pindex m < b + j * 16 ^ rn_clev n) as Hbelow.
  { intros m Hm Hge. pose proof (Hbetween m Hm Hge) as Hge'.
    apply holds_node_iff in Hm as (k & Hk & Hm). pose proof (slot_order b n k m Hn Hch Hk Hm).
    destruct (decide (k = j)) as [->|]; [|nia]. rewrite Hc in Hm. specialize (Hnone m Hm). lia. }
  destruct (decide (j = 0)) as [->|].
  - right. split.
    + intros m Hm. destruct (Z.lt_ge_cases index (pindex m)) as [|Hge]; [done|].
      specialize (Hbelow m Hm Hge). apply holds_node_iff in Hm as (k & Hk & Hm).
      pose proof (slot_order b n k m Hn Hch Hk Hm). nia.
    + exists fuel', loops', index2. rewrite le_after_first.
      2: { apply (slot_iff b); [lia | apply Hn | nia | lia | done]. }
      split_and!; try done; try nia; lia.
  - rewrite (le_after_prev fuel' loops' b n stack index2 j) by (done || lia).
    destruct (le_resume b n fuel' (loops' + 1) stack j) as
      [(m & E & Hm) | (Hno & i3 & E & Hi3)]; try done; try lia; rewrite E.
    + left. exists m. split; [done|]. destruct Hm as (Hm & Hge & Hmax).
      split; [done|]. split; [lia|]. intros m' Hm' Hge'. apply Hmax; [done|].
      specialize (Hbelow m' Hm' Hge'). lia.
    + right. split.
      * intros m Hm. destruct (Z.lt_ge_cases index (pindex m)) as [|Hge]; [done|].
        specialize (Hbelow m Hm Hge). specialize (Hno m Hm). lia.
      * exists (pred fuel'), (loops' + 1), i3. split_and!; try done; lia.
Qed.

Lemma le_loop_wf lo lev r : wf lo lev r ->
  forall n fuel loops stack index, r = Node n -> is_key index ->
  lo <= index < lo + 16 ^ lev -> 3 * lev <= Z.of_nat fuel ->
  loops + lev < 1000 -> zlength stack + lev <= 16 ->
  le_outcome lo lev r fuel loops stack index (le_loop fuel Head loops n stack index).
Proof.
  intros Hwf. pose proof Hwf as Hwf0. revert Hwf0.
  induction Hwf as [lo lev m Hm | lo lev b n Hn Hl Hlo Hhi Hcnt Hch IH];
    intros Hwf n' [|fuel] loops stack index Hr Hkey Hi Hf Hloops Hst; try done;
    try (pose proof (ok_clev _ _ Hn); lia).
  injection Hr as <-. pose proof (ok_clev _ _ Hn) as Hclev.
  pose proof (pow16_pos (rn_clev n + 1) ltac:(lia)) as HW.
  destruct (keybarr_cases b n index Hn Hkey) as [[Hbar Hr] | (Hbar & Ho & _ & Hr)].
  - rewrite le_loop_step. cbn [le_enter]. rewrite Hbar, bind_Ok.
    pose proof (le_scan_spec b n Hn Hch index Hr) as Hsc.
    destruct (le_scan n index) as [m|c index'|index'] eqn:Es.
    + left. exists m. split; [unfold le_rest; by rewrite Es | done].
    + destruct Hsc as (j & Hj & Hc & Hi' & Hle & Hbetween).
      pose proof (Hch j _ Hj Hc) as Hwc. pose proof (node_below _ _ _ Hwc) as Hpos.
      rewrite (le_push _ _ _ _ _ _ _ Es Hpos) by lia.
      destruct (ok_range _ _ Hn) as [Hb0 Hb64]. unfold is_key in Hkey.
      pose proof (pow16_succ (rn_clev n) ltac:(lia)) as Hsucc.
      destruct (IH j _ Hj Hc Hwc c fuel loops (n :: stack) index' eq_refl) as
        [(m & E & Hm) | (Hno & fuel' & loops' & i2 & E & Hi2 & Hf' & Hl')].
      * unfold is_key. nia.
      * lia.
      * lia.
      * lia.
      * rewrite zlength_cons. lia.
      * left. exists m. split; [done|].
        by apply (greatest_le_up b n Hn Hch j (Node c) index index'); try lia.
      * rewrite E. apply (le_child_left lo lev b n _ _ _ _ j (Node c) index'); try done; lia.
    + right. split; [apply Hsc|]. destruct fuel as [|fuel]; [lia|].
      exists fuel, loops, index'. split; [unfold le_rest at 1; by rewrite Es|].
      destruct Hsc as [? _]. split_and!; lia.
  - destruct Hr as [Hlt | Hge].
    + right. split.
      * intros m (j & Hj & Hm)%holds_node_iff. destruct (holds_slot b n m Hn Hch j Hj Hm). lia.
      * exists fuel, loops, index. split; [|split_and!; lia].
        rewrite le_loop_step. cbn [le_enter]. rewrite Hbar, Ho, Z.gtb_ltb. by ztest.
    + left. apply (le_descend lo lev (Node n)); try done; [|lia].
      intros m (j & Hj & Hm)%holds_node_iff. destruct (holds_slot b n m Hn Hch j Hj Hm). lia.
Qed.

(** The answer of a search: the greatest page at or below the index, if any. *)
Definition le_answer (r : option rptr) (i : Z) (o : option vm_page) : Prop :=
  match o with
  | Some m => exists r', r = Some r' /\ greatest_le r' i m
  | None => forall m, oholds r m -> i < pindex m
  end.

Lemma lookup_le_wf rt index :
  root_ok (rt_root rt) -> is_key index ->
  exists o, vm_radix_lookup_le rt index = Ok o /\ le_answer (rt_root rt) index o.
Proof.
  intros Hwf Hkey. unfold vm_radix_lookup_le. destruct (rt_root rt) as [[m|n]|]; simpl in Hwf.
  - eexists. split; [done|]. destruct (Z.leb_spec (pindex m) index).
    + exists (Leaf m). split; [done|]. split; [constructor|]. split; [done|].
      by intros m' ->%holds_leaf_iff.
    + by intros m' ->%holds_leaf_iff.
  - destruct (le_loop_wf 0 16 (Node n) Hwf n search_fuel 0 [] index) as
      [(m & E & Hm) | (Hno & fuel' & loops' & i2 & E & _ & _ & Hl)];
      try done; rewrite E.
    + exists (Some m). split; [done|]. by exists (Node n).
    + exists None. split; [|done]. unfold le_after, le_ascend.
      rewrite require_true by (apply Z.ltb_lt; lia). done.
  - exists None. split; [done|]. by intros m [].
Qed.
End le.
