(* ===== verification/RadixMap.v ===== *)
(** * The radix trie as a finite map

    [trie_ok rt M]: the trie [rt], with no operation in progress, is well
    formed and holds exactly the pages of the finite map [M]. The abstract
    operations on [M], which may panic, and the refinement of each of them by
    the code. The number of nodes of the trie follows the zone throughout. *)

From stdpp Require Import gmap.
From S2P Require Import Prelude Radix RadixInv RadixRemove RadixNear.

Record trie_ok (rt : vm_radix) (M : gmap Z vm_page) : Prop := TrieOk {
  trie_root : root_ok (rt_root rt);
  trie_map k m : M !! k = Some m <-> oholds (rt_root rt) m /\ pindex m = k;
  trie_flags : rt_flags rt = 0;
}.

(** The nodes of a trie, and the nodes that are out for other tries. *)
Definition trie_nodes (rt : vm_radix) : Z := onodes (rt_root rt).
Definition other_nodes (rt : vm_radix) (zone : Z) : Z := zone - trie_nodes rt.

(** ** Abstract operations *)

Fixpoint delete_all (ks : list Z) (M : gmap Z vm_page) : option (gmap Z vm_page) :=
  match ks with
  | [] => Some M
  | k :: ks => match M !! k with Some _ => delete_all ks (delete k M) | None => None end
  end.

(** Insertion of a page while requests for nodes do [reqs]: the possible error
    and map, [None] for a panic. *)
Inductive insert_spec (page : vm_page) :
    list node_request -> gmap Z vm_page -> option (Z * gmap Z vm_page) -> Prop :=
  | insert_present reqs M m :
      M !! pindex page = Some m -> insert_spec page reqs M None
  | insert_done reqs M :
      M !! pindex page = None -> insert_spec page reqs M (Some (0, <[pindex page := page]> M))
  | insert_nomem req reqs M M' :
      M !! pindex page = None -> delete_all (removed_meanwhile req) M = Some M' ->
      obtained req = false -> insert_spec page (req :: reqs) M (Some (ENOMEM, M'))
  | insert_again req reqs M M' o :
      M !! pindex page = None -> delete_all (removed_meanwhile req) M = Some M' ->
      removed_meanwhile req <> [] -> obtained req = true ->
      insert_spec page reqs M' o -> insert_spec page (req :: reqs) M o
  | insert_stray req reqs M :
      M !! pindex page = None -> delete_all (removed_meanwhile req) M = None ->
      insert_spec page (req :: reqs) M None.

Section map.
Context `{ShiftOut}.

Lemma trie_key rt M k m : trie_ok rt M -> M !! k = Some m -> is_key k /\ pindex m = k.
Proof.
  intros [Hr Hm _] [Hh <-]%Hm. split; [|done]. destruct (rt_root rt) as [r|]; [|done].
  apply (wf_holds_range 0 16 r); done.
Qed.

Lemma trie_none rt M k :
  trie_ok rt M -> M !! k = None <-> forall m, oholds (rt_root rt) m -> pindex m <> k.
Proof.
  intros Ht. split.
  - intros Hn m Hh Hk. assert (M !! k = Some m) as E by (by apply (trie_map _ _ Ht)). congruence.
  - intros Hno. destruct (M !! k) as [m|] eqn:E; [|done].
    apply (trie_map _ _ Ht) in E as [Hh Hk]. by destruct (Hno m Hh).
Qed.

(** The map of a trie is its own. *)
Lemma trie_ok_intro rt M r' M' :
  trie_ok rt M -> root_ok r' ->
  (forall k m, M' !! k = Some m <-> oholds r' m /\ pindex m = k) ->
  trie_ok (vm_radix_setroot rt r') M'.
Proof. intros Ht Hr Hm. split; [done | done | apply Ht]. Qed.

(** ** Lookup *)

Lemma lookup_map rt M i :
  trie_ok rt M -> is_key i -> vm_radix_lookup rt i = Ok (M !! i).
Proof.
  intros Ht Hi. unfold vm_radix_lookup. destruct (rt_root rt) as [r|] eqn:Hr.
  - pose proof (trie_root _ _ Ht) as Hwf. rewrite Hr in Hwf.
    destruct (lookup_loop_wf 0 16 r Hwf path_fuel i) as (o & -> & Ho); [done | done |].
    f_equal. apply option_eq. intros m. rewrite Ho, (trie_map _ _ Ht). by rewrite Hr.
  - symmetry. change (Ok (M !! i) = Ok None). f_equal.
    apply (trie_none rt); [done|]. rewrite Hr. by intros m [].
Qed.

(** ** Removal *)

Lemma remove_map rt M i zone f :
  trie_ok rt M ->
  let rt0 := Radix (rt_root rt) f in
  let f' := if rt_flag_set RT_INSERT_INPROG rt0 then Z.lor f RT_TRIE_MODIFIED else f in
  match M !! i with
  | Some _ => exists r', vm_radix_remove rt0 i zone = Ok (Radix r' f', zone - trie_nodes rt + onodes r')
      /\ trie_ok (Radix r' 0) (delete i M)
  | None => exists msg, vm_radix_remove rt0 i zone = Panic msg
  end.
Proof.
  intros Ht rt0 f'. pose proof (trie_map _ _ Ht) as Hmap. pose proof (trie_none rt M i Ht) as Hnone.
  pose proof (trie_root _ _ Ht) as Hwf.
  assert ((if rt_flag_set RT_INSERT_INPROG rt0 then set_flag RT_TRIE_MODIFIED rt0 else rt0)
    = Radix (rt_root rt) f') as E by (unfold f'; by destruct (rt_flag_set _ _)).
  unfold vm_radix_remove, trie_nodes. rewrite E. cbn [rt_root].
  assert (forall r', root_ok r' ->
    (forall m, oholds r' m <-> oholds (rt_root rt) m /\ pindex m <> i) ->
    trie_ok (Radix r' 0) (delete i M)) as Hok.
  { intros r' Hr' Hh. split; [done | | done]. intros k m. simpl.
    rewrite lookup_delete_Some, Hmap, Hh.
    split; [by intros (? & ? & <-) | by intros ([? ?] & <-)]. }
  destruct (rt_root rt) as [[m|n]|] eqn:Hr.
  - simpl in Hmap, Hok. destruct (M !! i) as [m'|] eqn:Hm.
    + apply Hmap in Hm as [->%holds_leaf_iff <-]. rewrite Z.eqb_refl. exists None. split.
      * simpl. do 2 f_equal. lia.
      * apply Hok; [done|]. intros x. simpl. rewrite holds_leaf_iff.
        split; [done | by intros [-> ?]].
    + assert (pindex m <> i) by (apply Hnone; [done | constructor]). ztest. by eexists.
  - destruct (remove_loop_wf 0 16 (Node n) Hwf n path_fuel i zone eq_refl ltac:(done)) as
      [[(m & Hh & Hk) (r' & k & -> & [Hw Hh' Hn])] | [Hno [msg ->]]].
    + assert (M !! i = Some m) as -> by (by apply Hmap). exists (Some r'). split.
      * simpl onodes. rewrite Hn. simpl. do 2 f_equal. lia.
      * apply Hok; [done | apply Hh'].
    + rewrite (proj2 Hnone) by done. by eexists.
  - rewrite (proj2 Hnone) by (by intros m []). by eexists.
Qed.

(** The removals made while an insertion waits for a node. *)
Lemma remove_all_map ks : forall rt M zone f,
  trie_ok rt M -> f = 1 \/ f = 3 ->
  match delete_all ks M with
  | Some M' => exists r',
      remove_all (Radix (rt_root rt) f) ks zone =
        Ok (Radix r' (match ks with [] => f | _ => 3 end), zone - trie_nodes rt + onodes r') /\
      trie_ok (Radix r' 0) M'
  | None => exists msg, remove_all (Radix (rt_root rt) f) ks zone = Panic msg
  end.
Proof.
  induction ks as [|k ks IH]; intros rt M zone f Ht Hf; cbn [delete_all remove_all].
  - exists (rt_root rt). split; [unfold trie_nodes; do 2 f_equal; lia|].
    split; [apply Ht | apply Ht | done].
  - pose proof (remove_map rt M k zone f Ht) as Hrem. cbv zeta in Hrem.
    destruct (M !! k) as [m|].
    + destruct Hrem as (r' & -> & Ht').
      assert ((if rt_flag_set RT_INSERT_INPROG (Radix (rt_root rt) f)
               then Z.lor f RT_TRIE_MODIFIED else f) = 3) as -> by (by destruct Hf as [-> | ->]).
      specialize (IH _ _ (zone - trie_nodes rt + onodes r') 3 Ht' ltac:(by right)).
      rewrite bind_Ok. simpl rt_root in IH. destruct (delete_all ks (delete k M)) as [M'|].
      * destruct IH as (r'' & -> & Ht''). exists r''. split; [|done].
        unfold trie_nodes. simpl rt_root. destruct ks; do 2 f_equal; lia.
      * destruct IH as [msg ->]. by exists msg.
    + destruct Hrem as [msg ->]. by exists msg.
Qed.

(** ** Insertion *)

(** A tree with one page more holds the extended map. *)
Lemma inserted_map rt M r r' page k :
  trie_ok rt M -> rt_root rt = Some r -> M !! pindex page = None ->
  inserted 0 16 r r' page k -> trie_ok (vm_radix_setroot rt (Some r')) (<[pindex page := page]> M).
Proof.
  intros Ht Hr Hnone [Hw Hh _]. apply (trie_ok_intro rt M); [done | done|]. intros i m.
  rewrite lookup_insert_Some, (trie_map _ _ Ht), Hr. simpl. rewrite Hh. split.
  - intros [[<- <-] | (Hne & Hm & <-)]; split; try done; [by left | by right].
  - intros [[->|Hm] <-]; [by left|]. right. split_and!; try done.
    intros E. rewrite (trie_none rt) in Hnone by done. rewrite Hr in Hnone.
    by apply (Hnone m Hm).
Qed.

Definition insert_refines (rt : vm_radix) (zone : Z) (x : result (Z * vm_radix * Z))
    (o : option (Z * gmap Z vm_page)) : Prop :=
  match o with
  | None => exists msg, x = Panic msg
  | Some (error, M') => exists rt' zone', x = Ok (error, rt', zone') /\ trie_ok rt' M' /\
      other_nodes rt' zone' = other_nodes rt zone
  end.

Lemma insert_empty_map rt M page zone :
  trie_ok rt M -> rt_root rt = None -> is_key (pindex page) ->
  M !! pindex page = None /\
  insert_refines rt zone (Ok (0, vm_radix_setroot rt (Some (Leaf page)), zone))
    (Some (0, <[pindex page := page]> M)).
Proof.
  intros Ht Hr Hkey. assert (forall k, M !! k = None) as Hnone.
  { intros k. apply (trie_none rt); [done|]. rewrite Hr. by intros m []. }
  split; [apply Hnone|]. eexists _, _. split; [done|]. split.
  - apply (trie_ok_intro rt M); [done | |].
    + constructor. exact Hkey.
    + intros k m. rewrite lookup_insert_Some, Hnone. simpl. rewrite holds_leaf_iff.
      split; [intros [[<- <-] | [_ ?]]; done | intros [-> <-]; by left].
  - unfold other_nodes, trie_nodes. by rewrite Hr.
Qed.

Lemma insert_walk_map rt M r page :
  trie_ok rt M -> rt_root rt = Some r -> is_key (pindex page) ->
  ((exists m, M !! pindex page = Some m) /\
   insert_walk path_fuel r page = Panic "vm_radix_insert: key is already present") \/
  (M !! pindex page = None /\
   exists w, insert_walk path_fuel r page = Ok w /\ walk_ok 0 16 r page w).
Proof.
  intros Ht Hr Hkey. pose proof (trie_root _ _ Ht) as Hwf. rewrite Hr in Hwf.
  destruct (insert_walk_wf 0 16 r Hwf path_fuel page) as [[(m & Hm & Hk) E] | [Hno Hw]];
    try done.
  - left. split; [|done]. exists m. apply (trie_map _ _ Ht). by rewrite Hr.
  - right. split; [|done]. apply (trie_none rt); [done|]. by rewrite Hr.
Qed.

(** The tree that the insertion stores. *)
Lemma insert_store_map rt M r r' page zone k :
  trie_ok rt M -> rt_root rt = Some r -> M !! pindex page = None ->
  inserted 0 16 r r' page k ->
  insert_refines rt zone (Ok (0, vm_radix_setroot rt (Some r'), zone + k))
    (Some (0, <[pindex page := page]> M)).
Proof.
  intros Ht Hr Hnone Hins. eexists _, _. split; [done|]. split.
  - by apply (inserted_map rt M r r' page k).
  - unfold other_nodes, trie_nodes. rewrite Hr. simpl. rewrite (ins_nodes _ _ _ _ _ _ Hins). lia.
Qed.

(** One round of an insertion that asks for a node. *)
Lemma node_get_map req rt M zone owner clev :
  trie_ok rt M ->
  match delete_all (removed_meanwhile req) M with
  | Some M' => exists r' f,
      vm_radix_node_get req (set_flag RT_INSERT_INPROG rt) zone owner 2 clev =
        Ok (if obtained req then Some (new_node owner 2 clev) else None, Radix r' f,
            zone - trie_nodes rt + onodes r' + if obtained req then 1 else 0) /\
      trie_ok (Radix r' 0) M' /\
      (removed_meanwhile req = [] /\ f = 1 /\ r' = rt_root rt \/
       removed_meanwhile req <> [] /\ f = 3)
  | None => exists msg,
      vm_radix_node_get req (set_flag RT_INSERT_INPROG rt) zone owner 2 clev = Panic msg
  end.
Proof.
  intros Ht. unfold vm_radix_node_get, set_flag. rewrite (trie_flags _ _ Ht).
  change (Z.lor 0 RT_INSERT_INPROG) with 1.
  pose proof (remove_all_map (removed_meanwhile req) rt M zone 1 Ht ltac:(by left)) as Hrem.
  destruct (removed_meanwhile req) as [|k ks].
  - simpl. exists (rt_root rt), 1. split.
    + unfold trie_nodes. destruct (obtained req); do 2 f_equal; lia.
    + split; [split; [apply Ht | apply Ht | done] | by left].
  - destruct (delete_all (k :: ks) M) as [M'|].
    + destruct Hrem as (r' & -> & Ht'). exists r', 3. split; [|split; [done | by right]].
      rewrite bind_Ok. destruct (obtained req); do 2 f_equal; lia.
    + destruct Hrem as [msg ->]. by exists msg.
Qed.

(** An insertion that needs no node is done; one that does can make its own. *)
Lemma insert_round reqs rt M page zone :
  trie_ok rt M -> is_key (pindex page) ->
  (exists o, insert_spec page reqs M o /\
     insert_refines rt zone (vm_radix_insert reqs rt page zone) o) \/
  (exists r clev store, rt_root rt = Some r /\ M !! pindex page = None /\
     insert_walk path_fuel r page = Ok (NeedsNode clev store) /\
     inserted 0 16 r
       (store (new_node (vm_radix_trimkey (pindex page) (clev + 1)) 2 clev)) page 1).
Proof.
  intros Ht Hkey. destruct (rt_root rt) as [r|] eqn:Hr.
  - destruct (insert_walk_map rt M r page Ht Hr Hkey) as
      [[[m Hm] E] | [Hnone [[r'|clev store] [E Hw]]]].
    + left. exists None. split; [by eapply insert_present|].
      destruct reqs; cbn [vm_radix_insert]; rewrite Hr, E; by eexists.
    + left. eexists. split; [by apply insert_done|].
      replace (vm_radix_insert reqs rt page zone)
        with (Ok (0, vm_radix_setroot rt (Some r'), zone + 0) : result (Z * vm_radix * Z)).
      * by apply (insert_store_map rt M r).
      * destruct reqs; cbn [vm_radix_insert]; by rewrite Hr, E, Z.add_0_r.
    + right. exists r, clev, store. split_and!; try done. by apply Hw.
  - left. destruct (insert_empty_map rt M page zone Ht Hr Hkey) as [Hnone Href].
    eexists. split; [by apply insert_done|].
    destruct reqs; cbn [vm_radix_insert]; by rewrite Hr.
Qed.

Lemma insert_map reqs : forall rt M page zone,
  trie_ok rt M -> is_key (pindex page) ->
  exists o, insert_spec page reqs M o /\
    insert_refines rt zone (vm_radix_insert reqs rt page zone) o.
Proof.
  induction reqs as [|req reqs IH]; intros rt M page zone Ht Hkey;
    (edestruct insert_round as [Hdone | (r & clev & store & Hr & Hnone & E & Hstore)];
     [exact Ht | exact Hkey | exact Hdone |]); cbn [vm_radix_insert]; rewrite Hr, E, bind_Ok.
  { eexists. split; [by apply insert_done|]. by apply (insert_store_map rt M r). }
  set (owner := vm_radix_trimkey (pindex page) (clev + 1)) in *.
  pose proof (node_get_map req rt M zone owner clev Ht) as Hget.
  destruct (delete_all (removed_meanwhile req) M) as [M'|] eqn:Hdel.
  2: { destruct Hget as [msg ->]. exists None. split; [by apply insert_stray | by exists msg]. }
  destruct Hget as (r' & f & -> & Ht' & Hf). rewrite bind_Ok. cbv zeta.
  destruct (obtained req) eqn:Hobt.
  - destruct Hf as [(Hnil & -> & ->) | (Hnnil & ->)].
    + eexists. split; [by apply insert_done|].
      change (rt_flag_set _ _) with false. cbv iota.
      change (clear_flag RT_INSERT_INPROG _) with (Radix (rt_root rt) 0).
      assert (Radix (rt_root rt) 0 = rt) as ->
        by (rewrite <- (trie_flags _ _ Ht); by destruct rt).
      unfold trie_nodes. rewrite Z.sub_add. by apply (insert_store_map rt M r).
    + destruct (IH (Radix r' 0) M' page (zone - trie_nodes rt + onodes r') Ht' Hkey)
        as (o & Ho & Href).
      exists o. split; [by eapply insert_again|].
      change (rt_flag_set _ _) with true. cbv iota.
      rewrite node_put_ok by done. rewrite bind_Ok, Z.add_simpl_r.
      change (clear_flag RT_TRIE_MODIFIED _) with (Radix r' 0).
      destruct o as [[error M'']|]; [|done].
      destruct Href as (rt' & zone' & -> & Ht'' & Hz). exists rt', zone'.
      split; [done|]. split; [done|]. rewrite Hz. unfold other_nodes, trie_nodes. simpl. lia.
  - exists (Some (ENOMEM, M')). split; [by eapply insert_nomem|].
    exists (Radix r' 0), (zone - trie_nodes rt + onodes r' + 0). split; [|split; [done|]].
    + by destruct Hf as [(_ & -> & _) | (_ & ->)].
    + unfold other_nodes, trie_nodes. simpl. lia.
Qed.

(** ** Replacement *)

Lemma replace_map rt M page :
  trie_ok rt M -> is_key (pindex page) ->
  match M !! pindex page with
  | Some m => exists rt', vm_radix_replace rt page = Ok (rt', m) /\
      trie_ok rt' (<[pindex page := page]> M) /\ trie_nodes rt' = trie_nodes rt
  | None => exists msg, vm_radix_replace rt page = Panic msg
  end.
Proof.
  intros Ht Hkey. pose proof (trie_map _ _ Ht) as Hmap.
  pose proof (trie_none rt M (pindex page) Ht) as Hnone.
  pose proof (trie_root _ _ Ht) as Hwf. unfold vm_radix_replace, trie_nodes.
  assert (forall r', root_ok r' ->
    (forall m, oholds r' m <-> m = page \/ (oholds (rt_root rt) m /\ pindex m <> pindex page)) ->
    trie_ok (vm_radix_setroot rt r') (<[pindex page := page]> M)) as Hok.
  { intros r' Hr' Hh. apply (trie_ok_intro rt M); [done | done |]. intros k m.
    rewrite lookup_insert_Some, Hmap, Hh. split.
    - intros [[<- <-] | (? & ? & <-)]; split; try done; [by left | right; split; congruence].
    - intros [[-> | [? ?]] <-]; [by left | right; by split_and!]. }
  destruct (rt_root rt) as [[m|n]|] eqn:Hr.
  - destruct (Z.eqb_spec (pindex m) (pindex page)) as [Hk|Hk].
    + assert (M !! pindex page = Some m) as -> by (apply Hmap; by split; [constructor|]).
      eexists. split; [done|]. split; [|done].
      apply Hok; [by constructor|]. intros x. simpl. rewrite !holds_leaf_iff.
      split; [by left | intros [->|[-> ?]]; done].
    + rewrite (proj2 Hnone) by (by intros m' ->%holds_leaf_iff). by eexists.
  - destruct (replace_loop_wf 0 16 (Node n) Hwf n path_fuel page eq_refl ltac:(done) Hkey) as
      [(n' & m & -> & [[Hm Hk] Hw Hh Hn]) | [Hno [msg ->]]].
    + assert (M !! pindex page = Some m) as -> by (by apply Hmap). eexists. split; [done|].
      split; [|exact Hn]. by apply Hok.
    + rewrite (proj2 Hnone) by done. by eexists.
  - rewrite (proj2 Hnone) by (by intros m []). by eexists.
Qed.

(** ** Searches *)

(** The entry of [M] nearest to [i] from above, and from below. *)
Definition nearest_ge (M : gmap Z vm_page) (i : Z) (o : option vm_page) : Prop :=
  match o with
  | Some m => i <= pindex m /\ M !! pindex m = Some m /\
      forall k m', M !! k = Some m' -> i <= k -> pindex m <= k
  | None => forall k m', M !! k = Some m' -> k < i
  end.

Definition nearest_le (M : gmap Z vm_page) (i : Z) (o : option vm_page) : Prop :=
  match o with
  | Some m => pindex m <= i /\ M !! pindex m = Some m /\
      forall k m', M !! k = Some m' -> k <= i -> k <= pindex m
  | None => forall k m', M !! k = Some m' -> i < k
  end.

Lemma lookup_ge_map rt M i :
  trie_ok rt M -> is_key i ->
  exists o, vm_radix_lookup_ge rt i = Ok o /\ nearest_ge M i o.
Proof.
  intros Ht Hi. pose proof (trie_map _ _ Ht) as Hmap.
  destruct (lookup_ge_wf rt i (trie_root _ _ Ht) Hi) as (o & -> & Ho). exists o. split; [done|].
  destruct o as [m|]; simpl in Ho |- *.
  - destruct Ho as (r & Hr & Hm & Hge & Hmin). rewrite Hr in Hmap.
    split; [done|]. split; [by apply Hmap|]. intros k m' [Hm' <-]%Hmap Hk. by apply Hmin.
  - intros k m' [Hm' <-]%Hmap. by apply Ho.
Qed.

Lemma lookup_le_map rt M i :
  trie_ok rt M -> is_key i ->
  exists o, vm_radix_lookup_le rt i = Ok o /\ nearest_le M i o.
Proof.
  intros Ht Hi. pose proof (trie_map _ _ Ht) as Hmap.
  destruct (lookup_le_wf rt i (trie_root _ _ Ht) Hi) as (o & -> & Ho). exists o. split; [done|].
  destruct o as [m|]; simpl in Ho |- *.
  - destruct Ho as (r & Hr & Hm & Hle & Hmax). rewrite Hr in Hmap.
    split; [done|]. split; [by apply Hmap|]. intros k m' [Hm' <-]%Hmap Hk. by apply Hmax.
  - intros k m' [Hm' <-]%Hmap. by apply Ho.
Qed.

(** ** Reclamation *)

Lemma reclaim_map rt M zone :
  trie_ok rt M ->
  exists rt' zone', vm_radix_reclaim_allnodes rt zone = Ok (rt', zone') /\ trie_ok rt' ∅ /\
    zone' = zone - trie_nodes rt.
Proof.
  intros Ht. pose proof (trie_root _ _ Ht) as Hwf. unfold vm_radix_reclaim_allnodes.
  assert (rt_flag_set RT_INSERT_INPROG rt = false) as ->
    by (unfold rt_flag_set; by rewrite (trie_flags _ _ Ht)).
  cbn [require negb mbind result_bind]. unfold trie_nodes.
  assert (trie_ok (vm_radix_setroot rt None) ∅) as Hempty.
  { apply (trie_ok_intro rt M); [done | done |]. intros k m. simpl. split; [done | by intros []]. }
  destruct (rt_root rt) as [[m|n]|] eqn:Hr.
  - eexists _, _. split; [done|]. split; [done | simpl; lia].
  - rewrite (reclaim_int_wf 0 16 (Node n) Hwf n path_fuel zone eq_refl ltac:(done)).
    eexists _, _. by split.
  - eexists _, _. split; [done|]. split; [|simpl; lia].
    unfold vm_radix_setroot in Hempty. rewrite <- Hr in Hempty. by destruct rt.
Qed.

(** ** Tests *)

Lemma is_empty_map rt M :
  trie_ok rt M -> vm_radix_is_empty rt = bool_decide (M = ∅).
Proof.
  intros Ht. unfold vm_radix_is_empty. symmetry. destruct (rt_root rt) as [r|] eqn:Hr.
  - apply bool_decide_false. intros ->. pose proof (trie_root _ _ Ht) as Hwf. rewrite Hr in Hwf.
    destruct (wf_nonempty _ _ _ Hwf) as [m Hm].
    assert ((∅ : gmap Z vm_page) !! pindex m = Some m) as E; [|done].
    apply (trie_map _ _ Ht). by rewrite Hr.
  - apply bool_decide_true, map_empty. intros k. apply (trie_none rt); [done|].
    rewrite Hr. by intros m [].
Qed.

(** A node has two pages. *)
Lemma node_two_pages lo lev n :
  wf lo lev (Node n) ->
  exists m1 m2, holds (Node n) m1 /\ holds (Node n) m2 /\ pindex m1 <> pindex m2.
Proof.
  intros Hwf. inversion Hwf as [|? ? b ? Hn Hl Hlo Hhi Hcnt Hch]; subst.
  pose proof (ok_length _ _ Hn) as Hlen. pose proof (ok_count _ _ Hn) as Hc.
  destruct (live_count_pos n Hlen ltac:(lia)) as (j & c & Hj & Hcj).
  destruct (live_count_pos (set_child n j None)) as (k & c' & Hk & Hck).
  { simpl. by rewrite zlength_aset. }
  { rewrite live_count_set, Hcj by done. unfold live. simpl. lia. }
  rewrite child_at_set in Hck by (done || lia). revert Hck. zcase; [done|]. intros Hck.
  destruct (wf_nonempty _ _ _ (Hch j c Hj Hcj)) as [m1 H1].
  destruct (wf_nonempty _ _ _ (Hch k c' Hk Hck)) as [m2 H2].
  exists m1, m2. split; [by apply (holds_node n j c)|]. split; [by apply (holds_node n k c')|].
  intros E. destruct (holds_slot b n m1 Hn Hch j Hj) as [_ E1]; [by rewrite Hcj|].
  destruct (holds_slot b n m2 Hn Hch k Hk) as [_ E2]; [by rewrite Hck|]. congruence.
Qed.

Lemma is_singleton_map rt M :
  trie_ok rt M ->
  vm_radix_is_singleton rt = true <-> exists k m, M = {[k := m]}.
Proof.
  intros Ht. pose proof (trie_map _ _ Ht) as Hmap. pose proof (trie_root _ _ Ht) as Hwf.
  unfold vm_radix_is_singleton. destruct (rt_root rt) as [[m|n]|] eqn:Hr.
  - split; [|done]. intros _. exists (pindex m), m. apply map_eq. intros k. apply option_eq.
    intros x. rewrite Hmap, lookup_singleton_Some. simpl. rewrite holds_leaf_iff.
    split; [by intros [-> ?] | by intros [? ->]].
  - split; [done|]. intros (k & m & ->).
    destruct (node_two_pages 0 16 n Hwf) as (m1 & m2 & H1 & H2 & Hne).
    assert (forall x, holds (Node n) x -> pindex x = k) as Hk.
    { intros x Hx. assert ({[k := m]} !! pindex x = Some x) as E by (by apply Hmap).
      by apply lookup_singleton_Some in E as [-> _]. }
    rewrite (Hk m1 H1), (Hk m2 H2) in Hne. done.
  - split; [done|]. intros (k & m & ->).
    assert (({[k := m]} : gmap Z vm_page) !! k = Some m) as E by (apply lookup_singleton_Some; done).
    apply Hmap in E. by destruct E as [[] _].
Qed.
End map.
