(* ===== verification/RadixProps.v ===== *)
(** * Theorems on the radix trie of pages

    [radix_run]: a sequence of calls on one trie. [map_run]: what it may do on
    a finite map. *)

From stdpp Require Import gmap.
From S2P Require Import Prelude Radix RadixInv RadixRemove RadixNear RadixMap.

(** ** Sequences of calls *)

Inductive radix_op :=
  | OpInsert (page : vm_page) (reqs : list node_request)
  | OpRemove (index : Z)
  | OpReplace (newpage : vm_page)
  | OpLookup (index : Z)
  | OpLookupGe (index : Z)
  | OpLookupLe (index : Z)
  | OpReclaim
  | OpIsEmpty
  | OpIsSingleton.

Inductive radix_out :=
  | OutError (error : Z)
  | OutPage (m : option vm_page)
  | OutBool (b : bool)
  | OutUnit.

(** The indexes of a call are 64-bit keys. *)
Definition op_ok (o : radix_op) : Prop :=
  match o with
  | OpInsert page _ | OpReplace page => is_key (pindex page)
  | OpRemove i | OpLookup i | OpLookupGe i | OpLookupLe i => is_key i
  | _ => True
  end.

Definition radix_step `{ShiftOut} (o : radix_op) (rt : vm_radix) (zone : Z)
    : result (radix_out * vm_radix * Z) :=
  match o with
  | OpInsert page reqs =>
      '(error, rt, zone) ← vm_radix_insert reqs rt page zone; Ok (OutError error, rt, zone)
  | OpRemove i => '(rt, zone) ← vm_radix_remove rt i zone; Ok (OutUnit, rt, zone)
  | OpReplace page => '(rt, m) ← vm_radix_replace rt page; Ok (OutPage (Some m), rt, zone)
  | OpLookup i => m ← vm_radix_lookup rt i; Ok (OutPage m, rt, zone)
  | OpLookupGe i => m ← vm_radix_lookup_ge rt i; Ok (OutPage m, rt, zone)
  | OpLookupLe i => m ← vm_radix_lookup_le rt i; Ok (OutPage m, rt, zone)
  | OpReclaim => '(rt, zone) ← vm_radix_reclaim_allnodes rt zone; Ok (OutUnit, rt, zone)
  | OpIsEmpty => Ok (OutBool (vm_radix_is_empty rt), rt, zone)
  | OpIsSingleton => Ok (OutBool (vm_radix_is_singleton rt), rt, zone)
  end.

Fixpoint radix_run `{ShiftOut} (os : list radix_op) (rt : vm_radix) (zone : Z)
    : result (list radix_out * vm_radix * Z) :=
  match os with
  | [] => Ok ([], rt, zone)
  | o :: os =>
      '(out, rt, zone) ← radix_step o rt zone;
      '(outs, rt, zone) ← radix_run os rt zone;
      Ok (out :: outs, rt, zone)
  end.

(** The same calls on a finite map; [None] for a panic. *)
Inductive map_step (M : gmap Z vm_page) : radix_op -> option (radix_out * gmap Z vm_page) -> Prop :=
  | map_insert page reqs error M' :
      insert_spec page reqs M (Some (error, M')) ->
      map_step M (OpInsert page reqs) (Some (OutError error, M'))
  | map_insert_panic page reqs :
      insert_spec page reqs M None -> map_step M (OpInsert page reqs) None
  | map_remove i m :
      M !! i = Some m -> map_step M (OpRemove i) (Some (OutUnit, delete i M))
  | map_remove_panic i : M !! i = None -> map_step M (OpRemove i) None
  | map_replace page m :
      M !! pindex page = Some m ->
      map_step M (OpReplace page) (Some (OutPage (Some m), <[pindex page := page]> M))
  | map_replace_panic page : M !! pindex page = None -> map_step M (OpReplace page) None
  | map_lookup i : map_step M (OpLookup i) (Some (OutPage (M !! i), M))
  | map_lookup_ge i m : nearest_ge M i m -> map_step M (OpLookupGe i) (Some (OutPage m, M))
  | map_lookup_le i m : nearest_le M i m -> map_step M (OpLookupLe i) (Some (OutPage m, M))
  | map_reclaim : map_step M OpReclaim (Some (OutUnit, ∅))
  | map_is_empty : map_step M OpIsEmpty (Some (OutBool (bool_decide (M = ∅)), M))
  | map_is_singleton b :
      b = true <-> (exists k m, M = {[k := m]}) ->
      map_step M OpIsSingleton (Some (OutBool b, M)).

Inductive map_run : list radix_op -> gmap Z vm_page -> option (list radix_out * gmap Z vm_page) -> Prop :=
  | run_nil M : map_run [] M (Some ([], M))
  | run_panic o os M : map_step M o None -> map_run (o :: os) M None
  | run_cons o os M out M' outs M'' :
      map_step M o (Some (out, M')) -> map_run os M' (Some (outs, M'')) ->
      map_run (o :: os) M (Some (out :: outs, M''))
  | run_cons_panic o os M out M' :
      map_step M o (Some (out, M')) -> map_run os M' None -> map_run (o :: os) M None.

Section steps.
Context `{ShiftOut}.

Lemma radix_step_refines o rt M zone :
  trie_ok rt M -> op_ok o ->
  match radix_step o rt zone with
  | Ok (out, rt', zone') => exists M', map_step M o (Some (out, M')) /\ trie_ok rt' M' /\
      other_nodes rt' zone' = other_nodes rt zone
  | Panic _ => map_step M o None
  end.
Proof.
  intros Ht Hok. destruct o as [page reqs|i|page|i|i|i| | |]; cbn [radix_step op_ok] in *.
  - destruct (insert_map reqs rt M page zone Ht Hok) as ([[error M']|] & Hspec & Href).
    + destruct Href as (rt' & zone' & -> & Ht' & Hz). rewrite bind_Ok. exists M'.
      split; [by constructor | done].
    + destruct Href as [msg ->]. by constructor.
  - pose proof (remove_map rt M i zone 0 Ht) as Hrem. cbv zeta in Hrem.
    assert (Radix (rt_root rt) 0 = rt) as E by (rewrite <- (trie_flags _ _ Ht); by destruct rt).
    rewrite E in Hrem. destruct (M !! i) as [m|] eqn:Hm.
    + destruct Hrem as (r' & -> & Ht'). rewrite bind_Ok. exists (delete i M).
      split; [by eapply map_remove|].
      assert (rt_flag_set RT_INSERT_INPROG rt = false) as ->
        by (unfold rt_flag_set; by rewrite (trie_flags _ _ Ht)).
      split; [done|]. unfold other_nodes, trie_nodes. simpl. lia.
    + destruct Hrem as [msg ->]. by constructor.
  - pose proof (replace_map rt M page Ht Hok) as Hrep.
    destruct (M !! pindex page) as [m|] eqn:Hm.
    + destruct Hrep as (rt' & -> & Ht' & Hn). rewrite bind_Ok. eexists.
      split; [by apply map_replace|]. split; [done|]. unfold other_nodes. by rewrite Hn.
    + destruct Hrep as [msg ->]. by constructor.
  - rewrite (lookup_map rt M i Ht Hok), bind_Ok. exists M. by split; [constructor|].
  - destruct (lookup_ge_map rt M i Ht Hok) as (m & -> & Hm). rewrite bind_Ok.
    exists M. by split; [constructor|].
  - destruct (lookup_le_map rt M i Ht Hok) as (m & -> & Hm). rewrite bind_Ok.
    exists M. by split; [constructor|].
  - destruct (reclaim_map rt M zone Ht) as (rt' & zone' & -> & Ht' & ->). rewrite bind_Ok.
    exists ∅. split; [constructor|]. split; [done|]. unfold other_nodes.
    assert (trie_nodes rt' = 0) as ->; [|lia].
    pose proof (is_empty_map rt' ∅ Ht') as E. unfold vm_radix_is_empty in E. unfold trie_nodes.
    by destruct (rt_root rt').
  - exists M. rewrite (is_empty_map rt M Ht). by split; [constructor|].
  - exists M. split; [|done]. constructor. by apply is_singleton_map.
Qed.

Lemma radix_run_refines os : forall rt M zone,
  trie_ok rt M -> Forall op_ok os ->
  match radix_run os rt zone with
  | Ok (outs, rt', zone') => exists M', map_run os M (Some (outs, M')) /\ trie_ok rt' M' /\
      other_nodes rt' zone' = other_nodes rt zone
  | Panic _ => map_run os M None
  end.
Proof.
  induction os as [|o os IH]; intros rt M zone Ht Hok; cbn [radix_run].
  { exists M. by split; [constructor|]. }
  inversion Hok as [|? ? Ho Hos]; subst. pose proof (radix_step_refines o rt M zone Ht Ho) as Hs.
  destruct (radix_step o rt zone) as [[[out rt'] zone']|msg]; [|by apply run_panic].
  destruct Hs as (M' & Hs & Ht' & Hz). rewrite bind_Ok.
  specialize (IH rt' M' zone' Ht' Hos).
  destruct (radix_run os rt' zone') as [[[outs rt''] zone'']|msg];
    [|by eapply run_cons_panic].
  destruct IH as (M'' & Hr & Ht'' & Hz'). rewrite bind_Ok. exists M''.
  split; [by eapply run_cons|]. split; [done | congruence].
Qed.

Lemma trie_ok_empty : trie_ok (Radix None 0) ∅.
Proof. split; [done | | done]. intros k m. simpl. split; [done | by intros []]. Qed.
End steps.

(** ** The theorems *)

(** C9: Any sequence of calls on a trie that starts empty, whatever the
    requests for nodes do, is a run of the finite map from indexes to pages
    with the same results, and panics only where the map's calls panic (a
    present key inserted, an absent one removed or replaced); no loop runs out
    of steps. The trie then holds that map, and the nodes taken from the zone
    are those of the trie. *)
Theorem radix_refines_map `{ShiftOut} os base :
  Forall op_ok os ->
  match radix_run os (Radix None 0) base with
  | Ok (outs, rt, zone) =>
      exists M, map_run os ∅ (Some (outs, M)) /\ trie_ok rt M /\ zone = base + trie_nodes rt
  | Panic _ => map_run os ∅ None
  end.
Proof.
  intros Hok. pose proof (radix_run_refines os _ _ base trie_ok_empty Hok) as Hr.
  destruct (radix_run os (Radix None 0) base) as [[[outs rt] zone]|msg]; [|done].
  destruct Hr as (M & Hrun & Ht & Hz). exists M. split; [done|]. split; [done|].
  unfold other_nodes, trie_nodes in *. simpl in Hz. lia.
Qed.

(** The insertion of a page whose index is absent returns with the page in
    the trie and error 0, or with [ENOMEM] and the trie as the last request
    for a node left it; when requests remove pages from the trie, the walk
    starts again and the pages removed are absent at the end, the others
    kept. A present index panics. No node is lost: those that are out for
    other tries are as before. *)
Theorem radix_insert_correct `{ShiftOut} reqs rt M page zone :
  trie_ok rt M -> is_key (pindex page) ->
  (M !! pindex page <> None ->
     exists msg, vm_radix_insert reqs rt page zone = Panic msg) /\
  (M !! pindex page = None -> Forall (fun req => removed_meanwhile req = []) reqs ->
     exists error rt' zone', vm_radix_insert reqs rt page zone = Ok (error, rt', zone') /\
       (error = 0 /\ trie_ok rt' (<[pindex page := page]> M) \/
        error = ENOMEM /\ trie_ok rt' M /\ exists req, head reqs = Some req /\ obtained req = false) /\
       other_nodes rt' zone' = other_nodes rt zone) /\
  exists o, insert_spec page reqs M o /\
    insert_refines rt zone (vm_radix_insert reqs rt page zone) o.
Proof.
  intros Ht Hkey. destruct (insert_map reqs rt M page zone Ht Hkey) as (o & Hspec & Href).
  split_and!; [| | by exists o].
  - intros Hm. assert (o = None) as ->; [|done]. by inversion Hspec; subst.
  - intros Hm Hquiet.
    inversion Hspec as [? ? m Hm'|? ?|req reqs' ? M' _ Hdel Hobt|req reqs' ? M' o' _ Hdel Hne
      |req reqs' ? _ Hdel]; subst.
    + congruence.
    + destruct Href as (rt' & zone' & -> & Ht' & Hz). eexists _, _, _. split; [done|].
      split; [by left | done].
    + inversion Hquiet as [|? ? Hnil]; subst. rewrite Hnil in Hdel. injection Hdel as <-.
      destruct Href as (rt' & zone' & -> & Ht' & Hz). eexists _, _, _. split; [done|].
      split; [right; by eauto | done].
    + by inversion Hquiet.
    + inversion Hquiet as [|? ? Hnil]; subst. by rewrite Hnil in Hdel.
Qed.

(** C33: The searches return, for every 64-bit index, the entry of the trie that
    is nearest to the index from above, or from below, and nothing exactly
    when there is none: no check fails (at most 1000 rounds upwards, a stack
    of at most 15 nodes, the index in the node's range after each step), no
    index wraps except where the sum of an owner and its range is 2^64. *)
Theorem radix_nearest_correct `{ShiftOut} rt M i :
  trie_ok rt M -> is_key i ->
  (exists o, vm_radix_lookup_ge rt i = Ok o /\ nearest_ge M i o) /\
  (exists o, vm_radix_lookup_le rt i = Ok o /\ nearest_le M i o).
Proof. intros Ht Hi. split; [by apply lookup_ge_map | by apply lookup_le_map]. Qed.

(** ** Examples *)

Section example.
#[local] Instance masked_shift : ShiftOut := fun x => x.

Definition example_page (k : Z) : vm_page := Page (4096 * k) k.

Definition example_ops : list radix_op :=
  [OpInsert (example_page 5) []; OpInsert (example_page (2 ^ 64 - 1)) [];
   OpInsert (example_page 300) [Request [5] true; Request [] true];
   OpInsert (example_page 301) [Request [] false];
   OpLookup 5; OpLookupGe 301; OpLookupLe (2 ^ 64 - 2); OpReplace (Page 0 300);
   OpRemove 300; OpIsSingleton; OpReclaim; OpIsEmpty].

Definition example_outs : list radix_out :=
  [OutError 0; OutError 0; OutError 0; OutError ENOMEM; OutPage None;
   OutPage (Some (example_page (2 ^ 64 - 1))); OutPage (Some (example_page 300));
   OutPage (Some (example_page 300)); OutUnit; OutBool true; OutUnit; OutBool true].

Lemma example_ops_ok : Forall op_ok example_ops.
Proof. repeat constructor; done. Qed.

Lemma radix_refines_map_witness :
  radix_run example_ops (Radix None 0) 7 = Ok (example_outs, Radix None 0, 7) /\
  Forall op_ok example_ops /\
  match radix_run example_ops (Radix None 0) 7 with
  | Ok (outs, rt, zone) =>
      exists M, map_run example_ops ∅ (Some (outs, M)) /\ trie_ok rt M /\ zone = 7 + trie_nodes rt
  | Panic _ => map_run example_ops ∅ None
  end.
Proof.
  split; [vm_compute; reflexivity|]. split; [exact example_ops_ok|].
  exact (radix_refines_map example_ops 7 example_ops_ok).
Defined.

(** A trie of two pages, at both ends of the key space. *)
Definition example_trie : vm_radix :=
  match radix_run [OpInsert (example_page 5) []; OpInsert (example_page (2 ^ 64 - 1)) []]
    (Radix None 0) 0 with Ok (_, rt, _) => rt | Panic _ => Radix None 0 end.

Definition example_map : gmap Z vm_page :=
  <[2 ^ 64 - 1 := example_page (2 ^ 64 - 1)]> (<[5 := example_page 5]> ∅).

Lemma map_insert_quiet M page o :
  map_step M (OpInsert page []) o -> M !! pindex page = None ->
  o = Some (OutError 0, <[pindex page := page]> M).
Proof.
  inversion 1 as [? ? ? ? Hspec|? ? Hspec| | | | | | | | | |]; subst;
    inversion Hspec; subst; congruence.
Qed.

Lemma example_trie_ok : trie_ok example_trie example_map.
Proof.
  pose proof (radix_run_refines [OpInsert (example_page 5) []; OpInsert (example_page (2 ^ 64 - 1)) []]
    (Radix None 0) ∅ 0 trie_ok_empty ltac:(repeat constructor; done)) as Hr.
  unfold example_trie.
  destruct (radix_run _ (Radix None 0) 0) as [[[outs rt] zone]|msg] eqn:E; [|by vm_compute in E].
  destruct Hr as (M & Hrun & Ht & _).
  inversion Hrun as [| |? ? ? ? M1 ? ? H1 Hrun1|]; subst.
  apply map_insert_quiet in H1; [|done]. injection H1 as -> ->.
  inversion Hrun1 as [| |? ? ? ? M2 ? ? H2 Hrun2|]; subst.
  apply map_insert_quiet in H2; [|by rewrite lookup_insert_ne]. injection H2 as -> ->.
  by inversion Hrun2; subst.
Qed.

Lemma radix_insert_correct_witness :
  trie_ok example_trie example_map /\ is_key (pindex (example_page 6)) /\
  example_map !! pindex (example_page 6) = None /\
  (exists o, insert_spec (example_page 6) [] example_map o /\
    insert_refines example_trie 1 (vm_radix_insert [] example_trie (example_page 6) 1) o).
Proof.
  split; [exact example_trie_ok|]. split; [split; vm_compute; done|].
  split; [vm_compute; reflexivity|].
  exact (proj2 (proj2 (radix_insert_correct [] example_trie example_map (example_page 6) 1
    example_trie_ok ltac:(split; vm_compute; done)))).
Defined.

Lemma radix_nearest_correct_witness :
  trie_ok example_trie example_map /\ is_key 6 /\
  vm_radix_lookup_le example_trie 6 = Ok (Some (example_page 5)) /\
  (exists o, vm_radix_lookup_le example_trie 6 = Ok o /\ nearest_le example_map 6 o).
Proof.
  split; [exact example_trie_ok|]. split; [split; vm_compute; done|].
  split; [vm_compute; reflexivity|].
  exact (proj2 (radix_nearest_correct example_trie example_map 6 example_trie_ok
    ltac:(split; vm_compute; done))).
Defined.
End example.

(** The owner of a node of the top level is the result of a shift by 64 bits. *)
Theorem radix_top_owner `{ShiftOut} :
  match radix_run [OpInsert (example_page 0) []; OpInsert (example_page (2 ^ 63)) []]
    (Radix None 0) 0 with
  | Ok (_, rt, _) => exists n, rt_root rt = Some (Node n) /\ rn_clev n = VM_RADIX_LIMIT /\
      rn_owner n = shift_out (2 ^ 63)
  | Panic _ => False
  end.
Proof. eexists. split; [reflexivity|]. split; reflexivity. Qed.
