(* ===== verification/Phys.v ===== *)
(** * The physical memory allocator (src/sys/vm/vm_phys.c)

    Pages are the entries of vm_page_array, named by their page frame number
    (amd64 has VM_PHYSSEG_DENSE). Free pages are in blocks of [2 ^ order]
    frames; the first page of a block is in the queue of its memory domain,
    free list, pool and order, and has that order in its [m_order]; the other
    pages have order [VM_NFREEORDER]. Memory segments are an argument: they do
    not change after the system has started. Which domains an allocation
    tries, and in which order, is decided by the policy of vm_domain.c: the
    list of them is an argument.

    Removing a page from a queue it is not in is undefined in C; here it is a
    panic. So is a free list of negative index: [vm_freelist_to_flind] has -1
    for a list below all those that exist. *)

From S2P Require Import Prelude.

Definition PAGE_SHIFT : Z := 12.
Definition PAGE_MASK : Z := Z.shiftl 1 PAGE_SHIFT - 1.
Definition VM_NFREEORDER : Z := 13.
Definition VM_NFREEPOOL : Z := 2.
Definition VM_FREEPOOL_DEFAULT : Z := 0.
Definition VM_NFREELIST : Z := 3.
Definition VM_FREELIST_DEFAULT : Z := 0.
Definition VM_FREELIST_DMA32 : Z := 1.
Definition VM_FREELIST_ISADMA : Z := 2.
Definition VM_PHYSSEG_MAX : Z := 63.
Definition VM_DMA32_NPAGES_THRESHOLD : Z := 16777216.
Definition VM_ISADMA_BOUNDARY : Z := 16777216.
Definition VM_DMA32_BOUNDARY : Z := Z.shiftl 1 32.

Definition atop (x : Z) : Z := Z.shiftr x PAGE_SHIFT.
Definition ptoa (x : Z) : Z := Z.shiftl x PAGE_SHIFT.

(** The fields of struct vm_page that the allocator uses. *)
Record page := MkPage { m_phys_addr : Z; m_order : Z; m_pool : Z; m_segind : Z }.

(** struct vm_freelist. *)
Record vm_freelist := FreeList { pl : list Z; lcnt : Z }.

(** struct vm_phys_seg; [seg_flind] is the free list that [free_queues]
    points to, in the queues of the segment's domain. *)
Record vm_phys_seg := Seg {
  seg_start : Z;
  seg_end : Z;
  seg_first_page : Z;
  seg_domain : Z;
  seg_flind : Z;
}.

(** The queues of one pool of one free list of a domain: a pointer
    [struct vm_freelist *fl]. *)
Definition flp : Type := Z * Z * Z.

#[export] Instance flp_eq_dec : EqDecision flp := _.

(** The counts of [vm_cnt] and of the domain: there is one, as MAXMEMDOM is 1. *)
Record vm_counts := Counts {
  v_page_count : Z;
  v_free_count : Z;
  vmd_page_count : Z;
  vmd_free_count : Z;
  vmd_segs : Z;
}.

(** The pages, the queues and the counts. *)
Record phys := Phys {
  pages : Z -> page;
  queues : flp -> Z -> vm_freelist;
  counts : vm_counts;
}.

Definition set_pages (p : Z -> page) (s : phys) : phys := Phys p (queues s) (counts s).
Definition set_queues (q : flp -> Z -> vm_freelist) (s : phys) : phys :=
  Phys (pages s) q (counts s).
Definition set_counts (c : vm_counts) (s : phys) : phys := Phys (pages s) (queues s) c.

Definition set_page (m : Z) (p : page) (s : phys) : phys :=
  set_pages (fun x => if x =? m then p else pages s x) s.
Definition set_queue (fl : flp) (order : Z) (q : vm_freelist) (s : phys) : phys :=
  set_queues (fun f o => if bool_decide (f = fl) && (o =? order) then q else queues s f o) s.

Definition set_m_order (m order : Z) (s : phys) : phys :=
  let p := pages s m in set_page m (MkPage (m_phys_addr p) order (m_pool p) (m_segind p)) s.
Definition set_m_pool (m pool : Z) (s : phys) : phys :=
  let p := pages s m in set_page m (MkPage (m_phys_addr p) (m_order p) pool (m_segind p)) s.

Definition VM_PAGE_TO_PHYS (s : phys) (m : Z) : Z := m_phys_addr (pages s m).

(** The queues of a pool in the [free_queues] of a segment. *)
Definition seg_queues (seg : vm_phys_seg) (pool : Z) : flp := (seg_domain seg, seg_flind seg, pool).

(** [&seg->first_page[atop(pa - seg->start)]]. *)
Definition seg_page (seg : vm_phys_seg) (pa : Z) : Z :=
  seg_first_page seg + atop (pa - seg_start seg).

(** ** The free lists *)

Definition vm_freelist_add (fl : flp) (m order : Z) (tail : bool) (s : phys) : phys :=
  let s := set_m_order m order s in
  let q := queues s fl order in
  set_queue fl order (FreeList (if tail then pl q ++ [m] else m :: pl q) (lcnt q + 1)) s.

(** [TAILQ_REMOVE]. *)
Fixpoint remove_from (m : Z) (l : list Z) : list Z :=
  match l with
  | [] => []
  | x :: l => if x =? m then l else x :: remove_from m l
  end.

Definition vm_freelist_rem (fl : flp) (m order : Z) (s : phys) : result phys :=
  let q := queues s fl order in
  require (bool_decide (m ∈ pl q)) "TAILQ_REMOVE: the page is not in the queue";;
  let s := set_queue fl order (FreeList (remove_from m (pl q)) (lcnt q - 1)) s in
  Ok (set_m_order m VM_NFREEORDER s).

Definition vm_phys_set_pool (pool m order : Z) (s : phys) : phys :=
  foreach (Z.to_nat (Z.shiftl 1 order)) m (fun m_tmp s => set_m_pool m_tmp pool s) s.

(** The loop runs [oind - order] times. *)
Fixpoint split_loop (n : nat) (m oind : Z) (fl : flp) (s : phys) : result phys :=
  match n with
  | O => Ok s
  | S n =>
      let oind := oind - 1 in
      let m_buddy := m + Z.shiftl 1 oind in
      require (m_order (pages s m_buddy) =? VM_NFREEORDER) "vm_phys_split_pages: page has unexpected order";;
      split_loop n m oind fl (vm_freelist_add fl m_buddy oind false s)
  end.

Definition vm_phys_split_pages (m oind : Z) (fl : flp) (order : Z) (s : phys) : result phys :=
  split_loop (Z.to_nat (oind - order)) m oind fl s.

Section allocator.
Context (segs : list vm_phys_seg).

Definition no_seg : vm_phys_seg := Seg 0 0 0 0 0.
Definition page_seg (s : phys) (m : Z) : vm_phys_seg := aget no_seg segs (m_segind (pages s m)).

(** ** Freeing *)

(** The [do] loop of [vm_phys_free_pages] with [n = VM_NFREEORDER - 1 - order]
    rounds left: the head and the order of the block to add. [pa] is the
    address of [m]. *)
Fixpoint coalesce (n : nat) (seg : vm_phys_seg) (m order pa : Z) (s : phys)
    : result (Z * Z * phys) :=
  match n with
  | O => Ok (m, order, s)
  | S n =>
      let pa := Z.lxor pa (Z.shiftl 1 (PAGE_SHIFT + order)) in
      if (pa <? seg_start seg) || (seg_end seg <=? pa) then Ok (m, order, s)
      else
        let m_buddy := seg_page seg pa in
        if negb (m_order (pages s m_buddy) =? order) then Ok (m, order, s)
        else
          let fl := seg_queues seg (m_pool (pages s m_buddy)) in
          s ← vm_freelist_rem fl m_buddy order s;
          let s := if negb (m_pool (pages s m_buddy) =? m_pool (pages s m))
                   then vm_phys_set_pool (m_pool (pages s m)) m_buddy order s else s in
          let order := order + 1 in
          let pa := Z.land pa (Z.lnot (Z.shiftl 1 (PAGE_SHIFT + order) - 1)) in
          let m := seg_page seg pa in
          coalesce n seg m order pa s
  end.

Definition vm_phys_free_pages (m order : Z) (s : phys) : result phys :=
  require (m_order (pages s m) =? VM_NFREEORDER) "vm_phys_free_pages: page has unexpected order";;
  require (m_pool (pages s m) <? VM_NFREEPOOL) "vm_phys_free_pages: page has unexpected pool";;
  require (order <? VM_NFREEORDER) "vm_phys_free_pages: order is out of range";;
  let seg := page_seg s m in
  '(m, order, s) ← coalesce (Z.to_nat (VM_NFREEORDER - 1 - order)) seg m order
                     (VM_PAGE_TO_PHYS s m) s;
  Ok (vm_freelist_add (seg_queues seg (m_pool (pages s m))) m order true s).

(** [ffsl] and [flsl]: the number of the lowest and of the highest bit that is
    set, from 1; 0 for 0. *)
Definition phys_ffsl (x : Z) : Z := if x =? 0 then 0 else ctz x + 1.
Definition phys_flsl (x : Z) : Z := if x =? 0 then 0 else Z.log2 x + 1.

(** The first loop of [vm_phys_free_contig]; every round but the last frees a
    page at least. [min] is that of unsigned integers. *)
Fixpoint free_contig_head (fuel : nat) (m npages : Z) (s : phys) : result (Z * Z * phys) :=
  match fuel with
  | O => Panic "fuel"
  | S fuel =>
      let order := Z.min (u32 (phys_ffsl (Z.shiftr (VM_PAGE_TO_PHYS s m) PAGE_SHIFT) - 1))
                     (VM_NFREEORDER - 1) in
      let n := Z.shiftl 1 order in
      if npages <? n then Ok (m, npages, s)
      else
        s ← vm_phys_free_pages m order s;
        free_contig_head fuel (m + n) (npages - n) s
  end.

Fixpoint free_contig_tail (fuel : nat) (m npages : Z) (s : phys) : result phys :=
  match fuel with
  | O => if npages >? 0 then Panic "fuel" else Ok s
  | S fuel =>
      if npages >? 0 then
        let order := phys_flsl npages - 1 in
        let n := Z.shiftl 1 order in
        s ← vm_phys_free_pages m order s;
        free_contig_tail fuel (m + n) (npages - n) s
      else Ok s
  end.

Definition vm_phys_free_contig (m npages : Z) (s : phys) : result phys :=
  '(m, npages, s) ← free_contig_head (S (Z.to_nat npages)) m npages s;
  free_contig_tail (Z.to_nat npages) m npages s.

(** ** Segments and pages *)

(** The index of the first segment with the address. *)
Fixpoint find_seg (l : list vm_phys_seg) (segind pa : Z) : option Z :=
  match l with
  | [] => None
  | seg :: l =>
      if (seg_start seg <=? pa) && (pa <? seg_end seg) then Some segind
      else find_seg l (segind + 1) pa
  end.

Definition vm_phys_paddr_to_segind (pa : Z) : result Z :=
  match find_seg segs 0 pa with
  | Some segind => Ok segind
  | None => Panic "vm_phys_paddr_to_segind: paddr is not in any segment"
  end.

Definition vm_phys_paddr_to_vm_page (pa : Z) : option Z :=
  match find_seg segs 0 pa with
  | Some segind => Some (seg_page (aget no_seg segs segind) pa)
  | None => None
  end.

Definition vm_phys_freecnt_adj (adj : Z) (s : phys) : phys :=
  let c := counts s in
  set_counts (Counts (v_page_count c) (v_free_count c + adj) (vmd_page_count c)
                (vmd_free_count c + adj) (vmd_segs c)) s.

(** A page that is in no segment is NULL here: the store to it faults. The
    page's own queue index and its machine-dependent part belong to others. *)
Definition vm_phys_add_page (pa : Z) (s : phys) : result phys :=
  let c := counts s in
  match vm_phys_paddr_to_vm_page pa with
  | None => Panic "page fault"
  | Some m =>
      segind ← vm_phys_paddr_to_segind pa;
      require (m_order (pages s m) =? VM_NFREEORDER) "vm_phys_add_page: page has unexpected order";;
      let s := set_page m (MkPage pa (m_order (pages s m)) VM_FREEPOOL_DEFAULT segind) s in
      let s := set_counts (Counts (v_page_count c + 1) (v_free_count c) (vmd_page_count c + 1)
                             (vmd_free_count c) (Z.lor (vmd_segs c) (Z.shiftl 1 segind))) s in
      let s := vm_phys_freecnt_adj 1 s in
      vm_phys_free_pages m 0 s
  end.

(** ** Allocation *)

(** The first loop of [vm_phys_alloc_domain_pages], [n] orders from [oind]:
    the head of a block and its order. *)
Fixpoint first_block (n : nat) (fl : flp) (oind : Z) (s : phys) : option (Z * Z) :=
  match n with
  | O => None
  | S n =>
      match pl (queues s fl oind) with
      | m :: _ => Some (m, oind)
      | [] => first_block n fl (oind + 1) s
      end
  end.

(** The inner loop over the pools, [n] from [pind]. *)
Fixpoint pool_block (n : nat) (domain flind pind oind : Z) (s : phys) : option (flp * Z) :=
  match n with
  | O => None
  | S n =>
      let alt := (domain, flind, pind) in
      match pl (queues s alt oind) with
      | m :: _ => Some (alt, m)
      | [] => pool_block n domain flind (pind + 1) oind s
      end
  end.

(** The second loop, [n] orders down from [oind]. *)
Fixpoint largest_block (n : nat) (domain flind oind : Z) (s : phys) : option (flp * Z * Z) :=
  match n with
  | O => None
  | S n =>
      match pool_block (Z.to_nat VM_NFREEPOOL) domain flind 0 oind s with
      | Some (alt, m) => Some (alt, m, oind)
      | None => largest_block n domain flind (oind - 1) s
      end
  end.

Definition vm_phys_alloc_domain_pages (domain flind pool order : Z) (s : phys)
    : result (option Z * phys) :=
  require (0 <=? flind) "vm_phys_free_queues: index out of bounds";;
  let fl := (domain, flind, pool) in
  match first_block (Z.to_nat (VM_NFREEORDER - order)) fl order s with
  | Some (m, oind) =>
      s ← vm_freelist_rem fl m oind s;
      s ← vm_phys_split_pages m oind fl order s;
      Ok (Some m, s)
  | None =>
      match largest_block (Z.to_nat (VM_NFREEORDER - order)) domain flind (VM_NFREEORDER - 1) s with
      | Some (alt, m, oind) =>
          s ← vm_freelist_rem alt m oind s;
          let s := vm_phys_set_pool pool m oind s in
          s ← vm_phys_split_pages m oind fl order s;
          Ok (Some m, s)
      | None => Ok (None, s)
      end
  end.

(** The loop over the free lists of a domain, [n] from [flind]. *)
Fixpoint alloc_flinds (n : nat) (domain flind pool order : Z) (s : phys)
    : result (option Z * phys) :=
  match n with
  | O => Ok (None, s)
  | S n =>
      '(m, s) ← vm_phys_alloc_domain_pages domain flind pool order s;
      match m with
      | Some m => Ok (Some m, s)
      | None => alloc_flinds n domain (flind + 1) pool order s
      end
  end.

Fixpoint alloc_domains (try : Z -> phys -> result (option Z * phys)) (domains : list Z) (s : phys)
    : result (option Z * phys) :=
  match domains with
  | [] => Ok (None, s)
  | domain :: domains =>
      '(m, s) ← try domain s;
      match m with
      | Some m => Ok (Some m, s)
      | None => alloc_domains try domains s
      end
  end.

Definition vm_phys_alloc_pages (vm_nfreelists : Z) (domains : list Z) (pool order : Z) (s : phys)
    : result (option Z * phys) :=
  require (pool <? VM_NFREEPOOL) "vm_phys_alloc_pages: pool is out of range";;
  require (order <? VM_NFREEORDER) "vm_phys_alloc_pages: order is out of range";;
  alloc_domains
    (fun domain s => alloc_flinds (Z.to_nat vm_nfreelists) domain 0 pool order s) domains s.

Definition vm_phys_alloc_freelist_pages (vm_freelist_to_flind : Z -> Z) (domains : list Z)
    (freelist pool order : Z) (s : phys) : result (option Z * phys) :=
  require (freelist <? VM_NFREELIST) "vm_phys_alloc_freelist_pages: freelist is out of range";;
  require (pool <? VM_NFREEPOOL) "vm_phys_alloc_freelist_pages: pool is out of range";;
  require (order <? VM_NFREEORDER) "vm_phys_alloc_freelist_pages: order is out of range";;
  alloc_domains
    (fun domain s => vm_phys_alloc_domain_pages domain (vm_freelist_to_flind freelist) pool order s)
    domains s.

(** ** Taking a given page *)

(** The search for the block that contains [m], [n] orders left. [None]: the
    address of the block would be below the segment. *)
Fixpoint find_set (n : nat) (seg : vm_phys_seg) (m m_set order : Z) (s : phys) : option (Z * Z) :=
  match n with
  | O => Some (m_set, order)
  | S n =>
      if m_order (pages s m_set) =? VM_NFREEORDER then
        let order := order + 1 in
        let pa := Z.land (VM_PAGE_TO_PHYS s m) (u64 (Z.shiftl (2 ^ 64 - 1) (PAGE_SHIFT + order))) in
        if seg_start seg <=? pa then find_set n seg m (seg_page seg pa) order s
        else None
      else Some (m_set, order)
  end.

(** The loop that halves the block [m_set] of order [order]. *)
Fixpoint extract (n : nat) (seg : vm_phys_seg) (fl : flp) (m m_set order : Z) (s : phys) : Z * phys :=
  match n with
  | O => (m_set, s)
  | S n =>
      let order := order - 1 in
      let pa_half := Z.lxor (VM_PAGE_TO_PHYS s m_set) (Z.shiftl 1 (PAGE_SHIFT + order)) in
      if VM_PAGE_TO_PHYS s m <? pa_half then
        extract n seg fl m m_set order (vm_freelist_add fl (seg_page seg pa_half) order false s)
      else
        extract n seg fl m (seg_page seg pa_half) order (vm_freelist_add fl m_set order false s)
  end.

Definition vm_phys_unfree_page (m : Z) (s : phys) : result (bool * phys) :=
  let seg := page_seg s m in
  match find_set (Z.to_nat (VM_NFREEORDER - 1)) seg m m 0 s with
  | None => Ok (false, s)
  | Some (m_set, order) =>
      if m_order (pages s m_set) <? order then Ok (false, s)
      else if m_order (pages s m_set) =? VM_NFREEORDER then Ok (false, s)
      else
        require (m_order (pages s m_set) <? VM_NFREEORDER)
          "vm_phys_unfree_page: page has unexpected order";;
        let fl := seg_queues seg (m_pool (pages s m_set)) in
        let order := m_order (pages s m_set) in
        s ← vm_freelist_rem fl m_set order s;
        let '(m_set, s) := extract (Z.to_nat order) seg fl m m_set order s in
        require (m_set =? m) "vm_phys_unfree_page: fatal inconsistency";;
        Ok (true, s)
  end.

(** ** Allocation of a run of any size

    The size in bytes is below [2 ^ 64]: requests of [2 ^ 52] pages or more,
    whose size wraps around, are left out. *)

Definition powerof2 (x : Z) : bool := Z.land (u64 (x - 1)) x =? 0.
Definition roundup2 (x y : Z) : Z := Z.land (x + (y - 1)) (Z.lnot (y - 1)).

(** [for (order = 0; (1 << order) < npages; order++)]: for at most [2 ^ 30]
    pages, which an [int] shift can express. *)
Definition contig_order (npages : Z) : Z :=
  search 31 0 (fun order => negb (Z.shiftl 1 order <? npages)).

(** The [for] loop that counts the free blocks of the largest order after
    [m_ret]: the address where it stops. *)
Fixpoint run_end (fuel : nat) (seg : vm_phys_seg) (pa pa_end : Z) (s : phys) : result Z :=
  match fuel with
  | O => Panic "fuel"
  | S fuel =>
      let pa := pa + Z.shiftl 1 (PAGE_SHIFT + VM_NFREEORDER - 1) in
      if (pa_end <=? pa) || (pa <? seg_start seg) || (seg_end seg <=? pa) then Ok pa
      else if negb (m_order (pages s (seg_page seg pa)) =? VM_NFREEORDER - 1) then Ok pa
      else run_end fuel seg pa pa_end s
  end.

(** Whether the block of [m_ret] satisfies the request. *)
Definition contig_fits (seg : vm_phys_seg) (npages low high alignment boundary order m_ret : Z)
    (s : phys) : result bool :=
  let size := Z.shiftl npages PAGE_SHIFT in
  let pa_ret := VM_PAGE_TO_PHYS s m_ret in
  enough ← (if VM_NFREEORDER <=? order then
              pa ← run_end (S (Z.to_nat npages)) seg pa_ret (pa_ret + size) s;
              Ok (negb (pa <? pa_ret + size))
            else Ok true);
  let pa := pa_ret in
  let pa_end := pa + size in
  Ok (enough && ((low <=? pa) && (pa_end <=? high) &&
        (Z.land pa (alignment - 1) =? 0) &&
        (Z.land (Z.lxor pa (pa_end - 1)) (Z.lnot (boundary - 1)) =? 0))).

(** The first page of a queue that satisfies [fits]. *)
Fixpoint queue_search (fits : Z -> result bool) (l : list Z) : result (option Z) :=
  match l with
  | [] => Ok None
  | m :: l => b ← fits m; if b : bool then Ok (Some m) else queue_search fits l
  end.

Fixpoint pool_search (n : nat) (seg : vm_phys_seg) (fits : Z -> result bool) (oind pind : Z)
    (s : phys) : result (option Z) :=
  match n with
  | O => Ok None
  | S n =>
      r ← queue_search fits (pl (queues s (seg_queues seg pind) oind));
      match r with
      | Some m => Ok (Some m)
      | None => pool_search n seg fits oind (pind + 1) s
      end
  end.

Fixpoint order_search (n : nat) (seg : vm_phys_seg) (fits : Z -> result bool) (oind : Z)
    (s : phys) : result (option (Z * Z)) :=
  match n with
  | O => Ok None
  | S n =>
      r ← pool_search (Z.to_nat VM_NFREEPOOL) seg fits oind 0 s;
      match r with
      | Some m => Ok (Some (m, oind))
      | None => order_search n seg fits (oind + 1) s
      end
  end.

(** The loop at [done] that takes the blocks off their queues. *)
Fixpoint take_blocks (fuel : nat) (seg : vm_phys_seg) (m m_end oind : Z) (s : phys) : result phys :=
  if m <? m_end then
    match fuel with
    | O => Panic "fuel"
    | S fuel =>
        s ← vm_freelist_rem (seg_queues seg (m_pool (pages s m))) m (m_order (pages s m)) s;
        take_blocks fuel seg (m + Z.shiftl 1 oind) m_end oind s
    end
  else Ok s.

Definition vm_phys_alloc_seg_contig (seg : vm_phys_seg) (npages low high alignment boundary : Z)
    (s : phys) : result (option Z * phys) :=
  require (npages >? 0) "npages is 0";;
  require (powerof2 alignment) "alignment is not a power of 2";;
  require (powerof2 boundary) "boundary is not a power of 2";;
  let order := contig_order npages in
  let first := Z.min order (VM_NFREEORDER - 1) in
  r ← order_search (Z.to_nat (VM_NFREEORDER - first)) seg
        (fun m => contig_fits seg npages low high alignment boundary order m s) first s;
  match r with
  | None => Ok (None, s)
  | Some (m_ret, oind) =>
      s ← take_blocks (Z.to_nat npages) seg m_ret (m_ret + npages) oind s;
      let s := if negb (m_pool (pages s m_ret) =? VM_FREEPOOL_DEFAULT)
               then vm_phys_set_pool VM_FREEPOOL_DEFAULT m_ret oind s else s in
      let fl := seg_queues seg (m_pool (pages s m_ret)) in
      s ← vm_phys_split_pages m_ret oind fl order s;
      let npages_end := roundup2 npages (Z.shiftl 1 (Z.min oind order)) in
      s ← (if npages <? npages_end
           then vm_phys_free_contig (m_ret + npages) (npages_end - npages) s else Ok s);
      Ok (Some m_ret, s)
  end.

(** The loop over the segments for one domain. *)
Fixpoint contig_segs (l : list vm_phys_seg) (domain npages low high alignment boundary : Z)
    (s : phys) : result (option Z * phys) :=
  match l with
  | [] => Ok (None, s)
  | seg :: l =>
      if high <=? seg_start seg then Ok (None, s)
      else
        let pa_start := if low <=? seg_start seg then seg_start seg else low in
        let pa_end := if high <? seg_end seg then high else seg_end seg in
        if ((seg_end seg <=? low) || negb (seg_domain seg =? domain))
           || (pa_end - pa_start <? ptoa npages)
        then contig_segs l domain npages low high alignment boundary s
        else
          '(m, s) ← vm_phys_alloc_seg_contig seg npages low high alignment boundary s;
          match m with
          | Some m => Ok (Some m, s)
          | None => contig_segs l domain npages low high alignment boundary s
          end
  end.

Definition vm_phys_alloc_contig (domains : list Z) (npages low high alignment boundary : Z)
    (s : phys) : result (option Z * phys) :=
  require (npages >? 0) "npages is 0";;
  require (powerof2 alignment) "alignment is not a power of 2";;
  require (powerof2 boundary) "boundary is not a power of 2";;
  if high <=? low then Ok (None, s)
  else
    alloc_domains
      (fun domain s => contig_segs segs domain npages low high alignment boundary s) domains s.
End allocator.
