(* ===== verification/PhysInv.v ===== *)
(** * The invariant of the physical memory allocator

    [is_head s m o]: page [m] is the first of a free block of order [o].
    [is_free s j]: page [j] is in such a block. [inv]: free blocks are
    aligned, inside one segment and of one pool, the queues hold exactly the
    heads of their order, pool and free list, with their number, and no free
    block has a free buddy of its order. [busy s m o]: the pages of the block
    of order [o] from [m] are all in use.

    Addresses are multiples of the page size; the lemmas of the first part
    turn them into frame numbers. *)

From S2P Require Import Prelude Phys.

(** ** Addresses and frames *)

Lemma ptoa_eq x : ptoa x = x * 2 ^ 12.
Proof. apply Z.shiftl_mul_pow2. done. Qed.

Lemma ptoa_lt a b : ptoa a < ptoa b <-> a < b.
Proof. rewrite !ptoa_eq. lia. Qed.

Lemma ptoa_le a b : ptoa a <= ptoa b <-> a <= b.
Proof. rewrite !ptoa_eq. lia. Qed.

Lemma ptoa_inj a b : ptoa a = ptoa b -> a = b.
Proof. rewrite !ptoa_eq. lia. Qed.

Lemma pow2_pos o : 0 <= o -> 0 < 2 ^ o.
Proof. intros. by apply Z.pow_pos_nonneg. Qed.

Lemma pow2_succ o : 0 <= o -> 2 ^ (o + 1) = 2 * 2 ^ o.
Proof. intros. by rewrite Z.add_1_r, Z.pow_succ_r. Qed.

Lemma shiftl_1 o : Z.shiftl 1 o = 2 ^ o.
Proof. apply Z.shiftl_1_l. Qed.

(** The buddy of a block. *)
Definition buddy (m o : Z) : Z := Z.lxor m (2 ^ o).

Lemma buddy_addr m o :
  0 <= o -> Z.lxor (ptoa m) (Z.shiftl 1 (PAGE_SHIFT + o)) = ptoa (buddy m o).
Proof.
  intros Ho. unfold buddy, ptoa. rewrite Z.shiftl_lxor. f_equal.
  rewrite <- shiftl_1, Z.shiftl_shiftl by lia. f_equal. unfold PAGE_SHIFT. lia.
Qed.

Lemma buddy_invol m o : buddy (buddy m o) o = m.
Proof. unfold buddy. by rewrite Z.lxor_assoc, Z.lxor_nilpotent, Z.lxor_0_r. Qed.

Lemma mod_succ m o :
  0 <= o -> m mod 2 ^ o = 0 ->
  m mod 2 ^ (o + 1) = 0 \/ m mod 2 ^ (o + 1) = 2 ^ o.
Proof.
  intros Ho Hm. pose proof (pow2_pos o Ho). rewrite pow2_succ by done.
  set (P := 2 ^ o) in *. apply Z.mod_divide in Hm as [q ->]; [|lia].
  pose proof (Z.div_mod q 2 ltac:(lia)) as E. pose proof (Z.mod_pos_bound q 2 ltac:(lia)).
  assert (q * P = (q / 2) * (2 * P) + (q mod 2) * P) as -> by nia.
  rewrite Z.add_comm, Z.mod_add by lia.
  destruct (decide (q mod 2 = 0)) as [->|]; [left | right]; [by rewrite Z.mul_0_l, Z.mod_0_l by lia|].
  replace (q mod 2) with 1 by lia. rewrite Z.mul_1_l. apply Z.mod_small. lia.
Qed.

(** A bit at or above [o] of an aligned number. *)
Lemma aligned_bits m o k : 0 <= o -> m mod 2 ^ o = 0 -> 0 <= k < o -> Z.testbit m k = false.
Proof.
  intros Ho Hm Hk. rewrite <- (Z.mod_pow2_bits_low m o k) by lia. by rewrite Hm, Z.bits_0.
Qed.

(** The buddy of the first half of a larger block is the second half. *)
Lemma buddy_low m o : 0 <= o -> m mod 2 ^ (o + 1) = 0 -> buddy m o = m + 2 ^ o.
Proof.
  intros Ho Hm. unfold buddy. rewrite Z.add_nocarry_lxor; [done|].
  apply Z.bits_inj'. intros n Hn. rewrite Z.land_spec, Z.bits_0, Z.pow2_bits_eqb by done.
  zcase; [|by rewrite andb_false_r]. subst.
  by rewrite (aligned_bits m (n + 1)) by lia.
Qed.

Lemma buddy_cases m o :
  0 <= o -> m mod 2 ^ o = 0 ->
  (m mod 2 ^ (o + 1) = 0 /\ buddy m o = m + 2 ^ o) \/
  ((m - 2 ^ o) mod 2 ^ (o + 1) = 0 /\ buddy m o = m - 2 ^ o).
Proof.
  intros Ho Hm. pose proof (pow2_pos o Ho). destruct (mod_succ m o Ho Hm) as [E|E].
  - left. split; [done|]. by apply buddy_low.
  - right. assert ((m - 2 ^ o) mod 2 ^ (o + 1) = 0) as E'.
    { rewrite <- E at 1. rewrite Zminus_mod_idemp_r, Z.sub_diag. apply Z.mod_0_l.
      rewrite pow2_succ by done. lia. }
    split; [done|]. pose proof (buddy_low (m - 2 ^ o) o Ho E') as B.
    rewrite Z.sub_add in B. rewrite <- B at 1. apply buddy_invol.
Qed.

(** The head of the block of order [o] that contains a page. *)
Definition align (m o : Z) : Z := 2 ^ o * (m / 2 ^ o).

Lemma land_lnot_ones a n : 0 <= n -> Z.land a (Z.lnot (Z.shiftl 1 n - 1)) = 2 ^ n * (a / 2 ^ n).
Proof.
  intros Hn. rewrite shiftl_1. replace (2 ^ n - 1) with (Z.ones n) by (rewrite Z.ones_equiv; lia).
  rewrite <- Z.ldiff_land, Z.ldiff_ones_r, Z.shiftl_mul_pow2, Z.shiftr_div_pow2 by done. lia.
Qed.

Lemma align_addr m o :
  0 <= o ->
  Z.land (ptoa m) (Z.lnot (Z.shiftl 1 (PAGE_SHIFT + o) - 1)) = ptoa (align m o).
Proof.
  intros Ho. rewrite land_lnot_ones by (unfold PAGE_SHIFT; lia). unfold align.
  rewrite !ptoa_eq. change PAGE_SHIFT with 12. rewrite Z.pow_add_r by lia.
  rewrite (Z.mul_comm m), Z.div_mul_cancel_l by (pose proof (pow2_pos o); lia). lia.
Qed.

Lemma align_eq m o h : 0 <= o -> h mod 2 ^ o = 0 -> h <= m < h + 2 ^ o -> align m o = h.
Proof.
  intros Ho Hh Hm. pose proof (pow2_pos o Ho). unfold align.
  apply Z.mod_divide in Hh as [q ->]; [|lia].
  rewrite <- (Z.div_unique_pos m (2 ^ o) q (m - q * 2 ^ o)); lia.
Qed.

Lemma align_mod m o : 0 <= o -> align m o mod 2 ^ o = 0.
Proof.
  intros Ho. pose proof (pow2_pos o Ho). unfold align. rewrite Z.mul_comm. apply Z.mod_mul. lia.
Qed.

Lemma align_bounds m o : 0 <= o -> align m o <= m < align m o + 2 ^ o.
Proof.
  intros Ho. pose proof (pow2_pos o Ho). unfold align.
  pose proof (Z.div_mod m (2 ^ o) ltac:(lia)). pose proof (Z.mod_pos_bound m (2 ^ o) ltac:(lia)).
  lia.
Qed.

Lemma aligned_le m o1 o2 : 0 <= o1 <= o2 -> m mod 2 ^ o2 = 0 -> m mod 2 ^ o1 = 0.
Proof.
  intros Ho Hm. pose proof (pow2_pos o1). pose proof (pow2_pos o2).
  apply Z.mod_divide in Hm as [q ->]; [|lia].
  replace o2 with (o1 + (o2 - o1)) by lia. rewrite Z.pow_add_r by lia.
  rewrite Z.mul_assoc, Z.mul_shuffle0. apply Z.mod_mul. lia.
Qed.

Lemma aligned_add m o k : 0 <= o -> m mod 2 ^ o = 0 -> (m + k * 2 ^ o) mod 2 ^ o = 0.
Proof. intros Ho Hm. pose proof (pow2_pos o Ho). by rewrite Z.mod_add by lia. Qed.

(** Two aligned blocks that meet are nested. *)
Lemma blocks_nested m1 o1 m2 o2 j :
  0 <= o1 <= o2 -> m1 mod 2 ^ o1 = 0 -> m2 mod 2 ^ o2 = 0 ->
  m1 <= j < m1 + 2 ^ o1 -> m2 <= j < m2 + 2 ^ o2 ->
  m2 <= m1 /\ m1 + 2 ^ o1 <= m2 + 2 ^ o2.
Proof.
  intros Ho H1 H2 Hj1 Hj2. pose proof (pow2_pos o1 ltac:(lia)) as P1.
  pose proof (aligned_le m2 o1 o2 Ho H2) as H2'.
  pose proof (pow2_pos (o2 - o1) ltac:(lia)) as PQ.
  assert (2 ^ o2 = 2 ^ (o2 - o1) * 2 ^ o1) as E by (rewrite <- Z.pow_add_r by lia; f_equal; lia).
  rewrite E in *. set (P := 2 ^ o1) in *. set (Q := 2 ^ (o2 - o1)) in *.
  apply Z.mod_divide in H1 as [a ->]; [|lia]. apply Z.mod_divide in H2' as [b ->]; [|lia].
  assert (b <= a < b + Q) by nia. nia.
Qed.

(** ** Fields after a change *)

Abbreviation ord s m := (m_order (pages s m)).
Abbreviation pool s m := (m_pool (pages s m)).

(** A page with another order, or another pool. *)
Definition with_order (o : Z) (p : page) : page := MkPage (m_phys_addr p) o (m_pool p) (m_segind p).
Definition with_pool (o : Z) (p : page) : page := MkPage (m_phys_addr p) (m_order p) o (m_segind p).

Lemma pages_set_pool p n : forall m s x,
  pages (foreach n m (fun t s => set_m_pool t p s) s) x =
  if (m <=? x) && (x <? m + Z.of_nat n) then with_pool p (pages s x) else pages s x.
Proof.
  induction n as [|n IH]; intros m s x; cbn [foreach].
  - replace (_ && _) with false; [done|]. symmetry. apply andb_false_iff.
    rewrite Z.leb_gt, Z.ltb_ge. lia.
  - rewrite IH. unfold set_m_pool, set_page. cbn [pages set_pages].
    destruct (Z.eqb_spec x m) as [->|].
    + replace (m + 1 <=? m) with false by (symmetry; apply Z.leb_gt; lia).
      replace (m <=? m) with true by (symmetry; apply Z.leb_le; lia).
      by replace (m <? m + Z.of_nat (S n)) with true by (symmetry; apply Z.ltb_lt; lia).
    + replace (m + 1 <=? x) with (m <=? x) by (apply eq_iff_eq_true; rewrite !Z.leb_le; lia).
      by replace (m + 1 + Z.of_nat n) with (m + Z.of_nat (S n)) by lia.
Qed.

Lemma pages_vm_phys_set_pool p m o s x :
  0 <= o ->
  pages (vm_phys_set_pool p m o s) x =
  if (m <=? x) && (x <? m + 2 ^ o) then with_pool p (pages s x) else pages s x.
Proof.
  intros Ho. unfold vm_phys_set_pool. rewrite pages_set_pool, shiftl_1.
  rewrite Z2Nat.id by (pose proof (pow2_pos o); lia). done.
Qed.

Lemma queues_set_pool p n : forall m s,
  queues (foreach n m (fun t s => set_m_pool t p s) s) = queues s.
Proof. induction n as [|n IH]; intros m s; cbn [foreach]; [done|]. by rewrite IH. Qed.

Lemma counts_set_pool p n : forall m s,
  counts (foreach n m (fun t s => set_m_pool t p s) s) = counts s.
Proof. induction n as [|n IH]; intros m s; cbn [foreach]; [done|]. by rewrite IH. Qed.

Lemma queue_set_queue fl o q s fl' o' :
  queues (set_queue fl o q s) fl' o' =
  if decide (fl' = fl /\ o' = o) then q else queues s fl' o'.
Proof.
  unfold set_queue, set_queues, queues. case_bool_decide as E; cbn [andb].
  - destruct (Z.eqb_spec o' o); [by rewrite decide_True | by rewrite decide_False by (by intros [_ ?])].
  - by rewrite decide_False by (by intros [? _]).
Qed.

(** ** Queues *)

Lemma elem_of_remove_from x m l : NoDup l -> x ∈ remove_from m l <-> x ∈ l /\ x <> m.
Proof.
  induction l as [|y l IH]; intros Hnd; cbn [remove_from].
  { split; [by intros ?%elem_of_nil | by intros [?%elem_of_nil _]]. }
  apply NoDup_cons in Hnd as [Hy Hnd]. destruct (Z.eqb_spec y m) as [->|Hne].
  - rewrite elem_of_cons. split; [|by intros [[->|] ?]].
    intros Hx. split; [by right|]. by intros ->.
  - rewrite !elem_of_cons, IH by done. split.
    + intros [->|[? ?]]; [by split; [left|] | by split; [right|]].
    + intros [[->|?] ?]; [by left | by right].
Qed.

Lemma NoDup_remove_from m l : NoDup l -> NoDup (remove_from m l).
Proof.
  induction l as [|y l IH]; intros Hnd; cbn [remove_from]; [done|].
  pose proof Hnd as Hnd0. apply NoDup_cons in Hnd as [Hy Hnd]. destruct (Z.eqb_spec y m); [done|].
  apply NoDup_cons. split; [|by apply IH]. by rewrite elem_of_remove_from by done; intros [? _].
Qed.

Lemma length_remove_from m l : m ∈ l -> length l = S (length (remove_from m l)).
Proof.
  induction l as [|y l IH]; cbn [remove_from]; [by intros ?%elem_of_nil|].
  intros [->|Hm]%elem_of_cons; [by rewrite Z.eqb_refl|].
  destruct (y =? m); [done|]. simpl. by rewrite <- IH.
Qed.

(** ** Segments *)

Definition in_seg (seg : vm_phys_seg) (j : Z) : Prop := ptoa j < seg_end seg /\ seg_first_page seg <= j.

(** A segment as [vm_phys_init] leaves it. *)
Record seg_ok (seg : vm_phys_seg) : Prop := SegOk {
  so_start : seg_start seg = ptoa (seg_first_page seg);
  so_end : exists e, seg_end seg = ptoa e;
  so_first : 0 <= seg_first_page seg;
  so_last : seg_end seg <= 2 ^ 64;
}.

Lemma seg_page_addr seg j : seg_ok seg -> seg_page seg (ptoa j) = j.
Proof.
  intros [Hs _ _ _]. unfold seg_page. rewrite Hs. unfold atop, PAGE_SHIFT.
  rewrite Z.shiftr_div_pow2, !ptoa_eq by done.
  rewrite <- Z.mul_sub_distr_r, Z.div_mul by done. lia.
Qed.

(** The range check on an address. *)
Lemma seg_range_addr seg j :
  seg_ok seg ->
  (ptoa j <? seg_start seg) || (seg_end seg <=? ptoa j) = negb (bool_decide (in_seg seg j)).
Proof.
  intros [Hs _ _ _]. unfold in_seg. case_bool_decide as E.
  - destruct E as [E1 E2%ptoa_le]. rewrite <- Hs in E2. by ztest.
  - apply orb_true_iff. rewrite Z.ltb_lt, Z.leb_le, Hs, ptoa_lt. lia.
Qed.

Record segs_ok (segs : list vm_phys_seg) : Prop := SegsOk {
  ss_ok i : 0 <= i < zlength segs -> seg_ok (aget no_seg segs i);
  ss_apart i k j : 0 <= i < zlength segs -> 0 <= k < zlength segs ->
    in_seg (aget no_seg segs i) j -> in_seg (aget no_seg segs k) j -> i = k;
}.

(** ** Blocks and the invariant *)

Section inv.
Context (segs : list vm_phys_seg).

(** A page that was added: in the segment that it names, with its address. *)
Record page_ok (s : phys) (j : Z) : Prop := PageOk {
  po_segind : 0 <= m_segind (pages s j) < zlength segs;
  po_seg : in_seg (page_seg segs s j) j;
  po_addr : m_phys_addr (pages s j) = ptoa j;
  po_pool : 0 <= pool s j < 2;
}.

Definition block (m o j : Z) : Prop := m <= j < m + 2 ^ o.

Record block_ok (s : phys) (m o : Z) : Prop := BlockOk {
  bo_order : 0 <= o < 13;
  bo_align : m mod 2 ^ o = 0;
  bo_pages j : block m o j -> page_ok s j /\ pool s j = pool s m /\
    m_segind (pages s j) = m_segind (pages s m);
  bo_inner j : m < j < m + 2 ^ o -> ord s j = 13;
}.

Definition is_head (s : phys) (m o : Z) : Prop := ord s m = o /\ 0 <= o < 13.
Definition is_free (s : phys) (j : Z) : Prop := exists m o, is_head s m o /\ block m o j.

(** The queues in which a free block is. *)
Definition queue_of (s : phys) (m : Z) : flp := seg_queues (page_seg segs s m) (pool s m).

Record inv (s : phys) : Prop := Inv {
  inv_order m : 0 <= ord s m <= 13;
  inv_block m o : is_head s m o -> block_ok s m o;
  inv_queue fl o m : 0 <= o < 13 ->
    m ∈ pl (queues s fl o) <-> ord s m = o /\ fl = queue_of s m;
  inv_nodup fl o : 0 <= o < 13 -> NoDup (pl (queues s fl o));
  inv_lcnt fl o : 0 <= o < 13 -> lcnt (queues s fl o) = zlength (pl (queues s fl o));
  inv_coalesced m o : is_head s m o -> o < 12 ->
    in_seg (page_seg segs s m) (buddy m o) -> ord s (buddy m o) <> o;
}.

(** The pages of an aligned block are all in use. *)
Record busy (s : phys) (m o : Z) : Prop := Busy {
  bu_block : block_ok s m o;
  bu_order : ord s m = 13;
  bu_used j : block m o j -> ~ is_free s j;
}.

Lemma block_head m o : 0 <= o -> block m o m.
Proof. intros Ho. unfold block. pose proof (pow2_pos o Ho). lia. Qed.

Lemma head_free s m o : is_head s m o -> is_free s m.
Proof. intros Hh. exists m, o. split; [done|]. apply block_head. destruct Hh. lia. Qed.

Lemma head_unique s m o o' : is_head s m o -> is_head s m o' -> o = o'.
Proof. intros [<- _] [<- _]. done. Qed.

(** Free blocks that meet are the same. *)
Lemma heads_apart s m1 o1 m2 o2 j :
  inv s -> is_head s m1 o1 -> is_head s m2 o2 -> block m1 o1 j -> block m2 o2 j ->
  m1 = m2 /\ o1 = o2.
Proof.
  intros Hinv H1 H2 J1 J2.
  pose proof (inv_block _ Hinv _ _ H1) as B1. pose proof (inv_block _ Hinv _ _ H2) as B2.
  assert (m1 = m2) as ->.
  { destruct (Z.le_ge_cases o1 o2).
    - destruct (blocks_nested m1 o1 m2 o2 j) as [? ?];
        [split; [apply B1 | done] | apply B1 | apply B2 | done | done |].
      destruct (decide (m1 = m2)) as [|]; [done|].
      pose proof (bo_inner _ _ _ B2 m1). pose proof (pow2_pos o1 ltac:(apply B1)).
      destruct H1 as [E ?]. lia.
    - destruct (blocks_nested m2 o2 m1 o1 j) as [? ?];
        [split; [apply B2 | done] | apply B2 | apply B1 | done | done |].
      destruct (decide (m1 = m2)) as [|]; [done|].
      pose proof (bo_inner _ _ _ B1 m2). pose proof (pow2_pos o2 ltac:(apply B2)).
      destruct H2 as [E ?]. lia. }
  split; [done|]. by apply (head_unique s m2).
Qed.

Lemma busy_not_head s m o j o' : busy s m o -> block m o j -> ~ is_head s j o'.
Proof. intros Hb Hj Hh. by apply (bu_used _ _ _ Hb j Hj), (head_free s j o'). Qed.

(** A busy page has no order. *)
Lemma busy_order s m o j : busy s m o -> block m o j -> ord s j = 13.
Proof.
  intros Hb Hj. destruct (decide (j = m)) as [->|]; [apply (bu_order _ _ _ Hb)|].
  apply (bo_inner _ _ _ (bu_block _ _ _ Hb)). unfold block in Hj. lia.
Qed.

Lemma page_seg_ok s j : segs_ok segs -> page_ok s j -> seg_ok (page_seg segs s j).
Proof. intros Hsegs Hp. apply (ss_ok _ Hsegs), Hp. Qed.

(** The segment of a page is the one that it is in. *)
Lemma page_seg_eq s i j k :
  segs_ok segs -> page_ok s i -> page_ok s j -> in_seg (page_seg segs s i) k ->
  in_seg (page_seg segs s j) k -> m_segind (pages s i) = m_segind (pages s j).
Proof.
  intros Hsegs Hi Hj Hki Hkj.
  apply (ss_apart _ Hsegs _ _ k); [apply Hi | apply Hj | done | done].
Qed.
End inv.

(** * Elementary steps on the free lists

    Taking a block off its queue, adding one, changing the pool of pages in
    use, splitting and joining blocks in use. Each keeps the invariant of
    [PhysInv] and changes the set of free pages by its block. *)

(** [s'] is [s] up to the orders of the pages. *)
Definition upto_order (s s' : phys) : Prop :=
  forall x, pages s' x = with_order (ord s' x) (pages s x).

(** The pages outside [R] are as before. *)
Definition same_outside (R : Z -> Prop) (s s' : phys) : Prop :=
  forall x, ~ R x -> pages s' x = pages s x.

(** Addresses and segments of pages never change, and pools stay in range. *)
Definition same_static (s s' : phys) : Prop :=
  forall x, m_phys_addr (pages s' x) = m_phys_addr (pages s x) /\
            m_segind (pages s' x) = m_segind (pages s x) /\
            (0 <= pool s x < 2 -> 0 <= pool s' x < 2).

Lemma same_outside_trans (R1 R2 R3 : Z -> Prop) s1 s2 s3 :
  same_outside R1 s1 s2 -> same_outside R2 s2 s3 ->
  (forall x, R1 x \/ R2 x -> R3 x) -> same_outside R3 s1 s3.
Proof.
  intros H1 H2 H3 x Hx. rewrite H2, H1; [done | |]; intros ?; apply Hx, H3;
    tauto.
Qed.

Lemma same_static_trans s1 s2 s3 : same_static s1 s2 -> same_static s2 s3 -> same_static s1 s3.
Proof.
  intros H1 H2 x. destruct (H1 x) as (E1 & E2 & E3), (H2 x) as (E4 & E5 & E6).
  split; [congruence|]. split; [congruence | tauto].
Qed.

(** So pages that were added stay so. *)
Lemma page_ok_static segs s s' j : same_static s s' -> page_ok segs s j -> page_ok segs s' j.
Proof.
  intros Hst [P1 P2 P3 P4]. destruct (Hst j) as (E1 & E2 & E3). unfold page_seg in P2.
  split; unfold page_seg; rewrite ?E1, ?E2; try done. by apply E3.
Qed.

Section steps.
Context (segs : list vm_phys_seg).

Lemma upto_order_static s s' : upto_order s s' -> same_static s s'.
Proof. intros H x. by rewrite (H x). Qed.

Lemma upto_order_pool s s' x : upto_order s s' -> pool s' x = pool s x.
Proof. intros H. by rewrite (H x). Qed.

Lemma upto_order_segind s s' x : upto_order s s' -> m_segind (pages s' x) = m_segind (pages s x).
Proof. intros H. by rewrite (H x). Qed.

Lemma upto_order_page_seg s s' x : upto_order s s' -> page_seg segs s' x = page_seg segs s x.
Proof. intros H. unfold page_seg. by rewrite (H x). Qed.

Lemma upto_order_queue s s' x : upto_order s s' -> queue_of segs s' x = queue_of segs s x.
Proof.
  intros H. unfold queue_of. by rewrite (upto_order_page_seg s s'), (upto_order_pool s s').
Qed.

Lemma upto_order_page_ok s s' x : upto_order s s' -> page_ok segs s x -> page_ok segs s' x.
Proof.
  intros H [H1 H2 H3 H4]. split.
  - by rewrite (upto_order_segind s s').
  - by rewrite (upto_order_page_seg s s').
  - by rewrite (H x).
  - by rewrite (upto_order_pool s s').
Qed.

Lemma upto_order_block s s' m o :
  upto_order s s' -> block_ok segs s m o ->
  (forall j, m < j < m + 2 ^ o -> ord s' j = 13) -> block_ok segs s' m o.
Proof.
  intros H [H1 H2 H3 H4] Hin. split; [done | done | | done]. intros j Hj.
  destruct (H3 j Hj) as (Hp & E1 & E2).
  rewrite !(upto_order_pool s s'), !(upto_order_segind s s') by done.
  split; [by apply (upto_order_page_ok s) | done].
Qed.

(** ** Off the queue *)

Lemma pages_set_m_order m o s x :
  pages (set_m_order m o s) x = if x =? m then with_order o (pages s m) else pages s x.
Proof. done. Qed.

Lemma upto_order_set m o s s' :
  (forall x, pages s' x = if x =? m then with_order o (pages s m) else pages s x) ->
  upto_order s s'.
Proof.
  intros H x. rewrite H. destruct (Z.eqb_spec x m) as [->|]; [done|]. by destruct (pages s x).
Qed.

Lemma freelist_rem_ok m o s :
  inv segs s -> is_head s m o ->
  exists s', vm_freelist_rem (queue_of segs s m) m o s = Ok s' /\ inv segs s' /\
    busy segs s' m o /\ upto_order s s' /\ counts s' = counts s /\
    (forall x, x <> m -> ord s' x = ord s x) /\
    (forall j, is_free s' j <-> is_free s j /\ ~ block m o j).
Proof.
  intros Hinv Hh. pose proof (inv_block _ _ Hinv m o Hh) as Hb. destruct Hh as [Hm Ho].
  assert (is_head s m o) as Hh by done.
  unfold vm_freelist_rem. set (fl := queue_of segs s m). set (l := pl (queues s fl o)).
  assert (m ∈ l) as Hml by (by apply (inv_queue _ _ Hinv)).
  rewrite bool_decide_true by done. cbn [require mbind result_bind].
  set (s' := set_m_order _ _ _). exists s'. split; [done|].
  assert (forall x, pages s' x = if x =? m then with_order 13 (pages s m) else pages s x) as Hp
    by done.
  assert (forall fl' o', queues s' fl' o' = if decide (fl' = fl /\ o' = o)
    then FreeList (remove_from m l) (lcnt (queues s fl o) - 1) else queues s fl' o') as Hq
    by (intros; apply queue_set_queue).
  assert (counts s' = counts s) as Hcnt by done.
  clearbody s'. pose proof (upto_order_set m 13 s s' Hp) as Hup.
  assert (ord s' m = 13) as Hm' by (by rewrite Hp, Z.eqb_refl).
  assert (forall x, x <> m -> ord s' x = ord s x) as Hord by (intros; rewrite Hp; by ztest).
  assert (forall x k, is_head s' x k -> x <> m /\ is_head s x k) as Hheads.
  { intros x k [E Hk]. destruct (decide (x = m)) as [->|Hne]; [lia|].
    split; [done|]. split; [by rewrite <- Hord | done]. }
  assert (NoDup l) as Hnd by (by apply (inv_nodup _ _ Hinv)).
  assert (forall j, is_free s' j <-> is_free s j /\ ~ block m o j) as Hfree.
  { intros j. split.
    - intros (x & k & Hx & Hj). destruct (Hheads x k Hx) as [Hne Hx']. split; [by exists x, k|].
      intros Hj'. by destruct (heads_apart segs s x k m o j Hinv Hx' Hh Hj Hj').
    - intros [(x & k & Hx & Hj) Hno]. exists x, k. split; [|done].
      assert (x <> m) by (intros ->; apply Hno; by rewrite (head_unique s m o k)).
      split; [rewrite Hord by done; apply Hx | apply Hx]. }
  split; [|split; [|by split_and!]].
  - split.
    + intros x. destruct (decide (x = m)) as [->|Hne]; [lia|]. rewrite Hord by done. apply Hinv.
    + intros x k Hx. destruct (Hheads x k Hx) as [Hne Hx'].
      pose proof (inv_block _ _ Hinv x k Hx') as Hbx.
      apply (upto_order_block s); [done | done|]. intros j Hj.
      destruct (decide (j = m)) as [->|]; [done|]. rewrite Hord by done. by apply Hbx.
    + intros fl' o' x Ho'. rewrite Hq, (upto_order_queue s s') by done.
      destruct (decide _) as [[-> ->]|Hne]; cbn [pl].
      * rewrite elem_of_remove_from by done. unfold l. rewrite (inv_queue _ _ Hinv) by done.
        split; [intros [[E1 E2] Hne]; by rewrite Hord|].
        intros [E1 E2]. destruct (decide (x = m)) as [->|]; [lia|]. by rewrite <- Hord.
      * rewrite (inv_queue _ _ Hinv) by done. destruct (decide (x = m)) as [->|]; [|by rewrite Hord].
        split; [|lia]. intros [E1 E2]. exfalso. apply Hne. split; [done | lia].
    + intros fl' o' Ho'. rewrite Hq. destruct (decide _); [by apply NoDup_remove_from | by apply Hinv].
    + intros fl' o' Ho'. rewrite Hq. destruct (decide _); [|by apply Hinv]. cbn [pl lcnt].
      rewrite (inv_lcnt _ _ Hinv) by done. fold l. unfold zlength.
      rewrite (length_remove_from m l) by done. lia.
    + intros x k Hx Hk Hin. destruct (Hheads x k Hx) as [Hne Hx'].
      rewrite (upto_order_page_seg s s') in Hin by done.
      destruct (decide (buddy x k = m)) as [E|E]; [rewrite E; lia|].
      rewrite Hord by done. by apply (inv_coalesced _ _ Hinv).
  - split.
    + apply (upto_order_block s); [done | done|]. intros j Hj. rewrite Hord by lia. by apply Hb.
    + done.
    + intros j Hj [_ Hno]%Hfree. done.
Qed.

(** ** On a queue *)

Lemma freelist_add_ok m o tail s :
  segs_ok segs -> inv segs s -> busy segs s m o ->
  (o < 12 -> in_seg (page_seg segs s m) (buddy m o) -> ord s (buddy m o) <> o) ->
  let s' := vm_freelist_add (queue_of segs s m) m o tail s in
  inv segs s' /\ upto_order s s' /\ counts s' = counts s /\
  (forall x, x <> m -> ord s' x = ord s x) /\
  (forall j, is_free s' j <-> is_free s j \/ block m o j).
Proof.
  intros Hsegs Hinv Hbusy Hbud s'. destruct (bu_block _ _ _ _ Hbusy) as [Ho Hal Hpg Hin].
  set (fl := queue_of segs s m) in *. set (l := pl (queues s fl o)).
  assert (forall x, pages s' x = if x =? m then with_order o (pages s m) else pages s x) as Hp
    by done.
  set (l' := if tail then l ++ [m] else m :: l).
  assert (forall fl' o', queues s' fl' o' = if decide (fl' = fl /\ o' = o)
    then FreeList l' (lcnt (queues s fl o) + 1) else queues s fl' o') as Hq.
  { intros fl' o'. unfold s', vm_freelist_add. rewrite queue_set_queue. done. }
  assert (counts s' = counts s) as Hcnt by done.
  clearbody s'. pose proof (upto_order_set m o s s' Hp) as Hup.
  assert (ord s' m = o) as Hm' by (by rewrite Hp, Z.eqb_refl).
  assert (forall x, x <> m -> ord s' x = ord s x) as Hord by (intros; rewrite Hp; by ztest).
  assert (is_head s' m o) as Hhm by done.
  assert (forall x k, is_head s' x k -> (x = m /\ k = o) \/ (x <> m /\ is_head s x k)) as Hheads.
  { intros x k [E Hk]. destruct (decide (x = m)) as [->|Hne]; [left; split; [done | lia]|].
    right. split; [done|]. split; [by rewrite <- Hord | done]. }
  assert (forall x k, is_head s x k -> x <> m) as Hnm.
  { intros x k [E Hk] ->. rewrite (bu_order _ _ _ _ Hbusy) in E. lia. }
  assert (m ∉ l) as Hml.
  { unfold l. rewrite (inv_queue _ _ Hinv) by done. rewrite (bu_order _ _ _ _ Hbusy). lia. }
  assert (forall x, x ∈ l' <-> x = m \/ x ∈ l) as Hl'.
  { intros x. unfold l'. destruct tail;
      [rewrite elem_of_app, list_elem_of_singleton; tauto | rewrite elem_of_cons; tauto]. }
  split; [|split; [done|]; split; [done|]; split; [done|]].
  - split.
    + intros x. destruct (decide (x = m)) as [->|Hne]; [lia|]. rewrite Hord by done. apply Hinv.
    + intros x k Hx. destruct (Hheads x k Hx) as [[-> ->] | [Hne Hx']].
      * apply (upto_order_block s); [done | apply Hbusy|]. intros j Hj.
        rewrite Hord by lia. by apply Hin.
      * pose proof (inv_block _ _ Hinv x k Hx') as Hbx. apply (upto_order_block s); [done | done|].
        intros j Hj. destruct (decide (j = m)) as [->|]; [|rewrite Hord by done; by apply Hbx].
        destruct (bu_used _ _ _ _ Hbusy m (block_head m o ltac:(lia))). exists x, k.
        split; [done|]. unfold block. lia.
    + intros fl' o' x Ho'. rewrite Hq, (upto_order_queue s s') by done.
      destruct (decide _) as [[-> ->]|Hne]; cbn [pl].
      * rewrite Hl'. unfold l. rewrite (inv_queue _ _ Hinv) by done.
        destruct (decide (x = m)) as [->|]; [|rewrite Hord by done; tauto].
        split; [done | by left].
      * rewrite (inv_queue _ _ Hinv) by done. destruct (decide (x = m)) as [->|]; [|by rewrite Hord].
        rewrite Hm', (bu_order _ _ _ _ Hbusy). split; [lia|]. intros [-> ->]. by destruct Hne.
    + intros fl' o' Ho'. rewrite Hq. destruct (decide _); [|by apply Hinv]. cbn [pl].
      assert (NoDup l) as Hnd by (by apply Hinv). unfold l'. destruct tail.
      * apply NoDup_app. split; [done|]. split; [|apply NoDup_singleton].
        intros x Hx ->%list_elem_of_singleton. done.
      * by apply NoDup_cons.
    + intros fl' o' Ho'. rewrite Hq. destruct (decide _); [|by apply Hinv]. cbn [pl lcnt].
      rewrite (inv_lcnt _ _ Hinv) by done. fold l. unfold zlength, l'.
      destruct tail; rewrite ?length_app; simpl; lia.
    + intros x k Hx Hk Hseg. rewrite (upto_order_page_seg s s') in Hseg by done.
      destruct (Hheads x k Hx) as [[-> ->] | [Hne Hx']].
      * destruct (decide (buddy m o = m)) as [E|E]; [|rewrite Hord by done; by apply Hbud].
        destruct (buddy_cases m o) as [[_ ?]|[_ ?]]; [lia | done | |];
          pose proof (pow2_pos o); lia.
      * destruct (decide (buddy x k = m)) as [E|E]; [|rewrite Hord by done; by apply Hinv].
        rewrite E, Hm'. intros <-. apply Hbud; [lia | | rewrite <- E, buddy_invol; apply Hx'].
        rewrite <- E, buddy_invol.
        pose proof (bo_pages _ _ _ _ (inv_block _ _ Hinv x o Hx') x (block_head x o ltac:(lia))) as [Px _].
        destruct (Hpg m (block_head m o ltac:(lia))) as [Pm _].
        assert (m_segind (pages s m) = m_segind (pages s x)) as Es.
        { apply (page_seg_eq segs s m x m); try done; [apply Pm | by rewrite <- E]. }
        rewrite E. unfold page_seg. rewrite Es. apply Px.
  - intros j. split.
    + intros (x & k & Hx & Hj). destruct (Hheads x k Hx) as [[-> ->] | [_ Hx']]; [by right|].
      left. by exists x, k.
    + intros [(x & k & Hx & Hj) | Hj]; [|by exists m, o]. exists x, k. split; [|done].
      split; [rewrite Hord by (by eapply Hnm); apply Hx | apply Hx].
Qed.

(** Where the order is as before, so is the page. *)
Lemma upto_order_same s s' x : upto_order s s' -> ord s' x = ord s x -> pages s' x = pages s x.
Proof. intros H E. rewrite (H x), E. by destruct (pages s x). Qed.

Lemma upto_order_trans s1 s2 s3 : upto_order s1 s2 -> upto_order s2 s3 -> upto_order s1 s3.
Proof. intros H1 H2 x. rewrite (H2 x), (H1 x). done. Qed.

Lemma upto_order_refl s : upto_order s s.
Proof. intros x. by destruct (pages s x). Qed.

(** ** Blocks in use *)

(** Pages that are as before are still those of a block. *)
Lemma block_ok_same s s' m o :
  block_ok segs s m o -> (forall j, block m o j -> pages s' j = pages s j) -> block_ok segs s' m o.
Proof.
  intros [Ho Hal Hpg Hin] Hsame. split; [done | done | |].
  - intros j Hj. assert (block m o m) as Hm by (apply block_head; lia).
    destruct (Hpg j Hj) as ([P1 P2 P3 P4] & E1 & E2).
    unfold page_seg in P2. rewrite (Hsame j Hj), (Hsame m Hm). split; [|done].
    split; unfold page_seg; rewrite (Hsame j Hj); done.
  - intros j Hj. rewrite Hsame by (unfold block; lia). by apply Hin.
Qed.

Lemma busy_same s s' m o :
  busy segs s m o -> (forall j, block m o j -> pages s' j = pages s j) ->
  (forall j, block m o j -> ~ is_free s' j) -> busy segs s' m o.
Proof.
  intros [Hb Hm Hu] Hsame Hfree. split; [by apply (block_ok_same s) | | done].
  rewrite Hsame; [done|]. apply block_head. destruct Hb. lia.
Qed.

(** The halves of a block. *)
Lemma block_halves m o j :
  0 <= o -> block m (o + 1) j <-> block m o j \/ block (m + 2 ^ o) o j.
Proof. intros Ho. unfold block. rewrite pow2_succ by done. pose proof (pow2_pos o Ho). lia. Qed.

Lemma busy_split s m o :
  0 <= o -> busy segs s m (o + 1) -> busy segs s m o /\ busy segs s (m + 2 ^ o) o.
Proof.
  intros Ho Hb. pose proof Hb as [[Ho' Hal Hpg Hin] Hm Hu].
  pose proof (pow2_pos o Ho) as HP. pose proof (pow2_succ o Ho) as E2.
  pose proof (fun j => proj2 (block_halves m o j Ho)) as Hh.
  pose proof (aligned_le m o (o + 1) ltac:(lia) Hal) as Hal'.
  split; split.
  - split; [lia | done | by intros j Hj; apply Hpg, Hh; left | intros j Hj; apply Hin; lia].
  - done.
  - intros j Hj. apply Hu, Hh. by left.
  - split; [lia | | | intros j Hj; apply Hin; lia].
    + replace (m + 2 ^ o) with (m + 1 * 2 ^ o) by lia. by apply aligned_add.
    + intros j Hj. destruct (Hpg j) as (P & E3 & E4); [apply Hh; by right|].
      destruct (Hpg (m + 2 ^ o)) as (_ & E5 & E6); [apply Hh; right; by apply block_head|].
      split; [done|]. split; congruence.
  - apply (busy_order segs s m (o + 1)); [done|]. apply Hh. right. by apply block_head.
  - intros j Hj. apply Hu, Hh. by right.
Qed.

Lemma busy_join s m o :
  o + 1 < 13 -> m mod 2 ^ (o + 1) = 0 -> busy segs s m o -> busy segs s (m + 2 ^ o) o ->
  pool s (m + 2 ^ o) = pool s m -> m_segind (pages s (m + 2 ^ o)) = m_segind (pages s m) ->
  busy segs s m (o + 1).
Proof.
  intros Ho' Hal H1 H2 Ep Es. pose proof H1 as [[Ho _ P1 I1] M1 U1].
  pose proof H2 as [[_ _ P2 I2] M2 U2]. pose proof (pow2_pos o ltac:(lia)) as HP.
  pose proof (pow2_succ o ltac:(lia)) as E2.
  split; [split; [lia | done | |] | done |].
  - intros j [Hj|Hj]%block_halves; [by apply P1 | | lia].
    destruct (P2 j Hj) as (P & E3 & E4). split; [done|]. split; congruence.
  - intros j Hj. destruct (Z.lt_ge_cases j (m + 2 ^ o)); [apply I1; lia|].
    apply (busy_order segs s (m + 2 ^ o) o); [done|]. unfold block. lia.
  - intros j [Hj|Hj]%block_halves; [by apply U1 | by apply U2 | lia].
Qed.

(** ** Changes of pages in use *)

(** A change that keeps the queues, the orders and the free pages. *)
Lemma inv_frame s s' :
  inv segs s -> queues s' = queues s -> (forall x, ord s' x = ord s x) ->
  (forall x, is_free s x -> pages s' x = pages s x) ->
  inv segs s' /\ forall j, is_free s' j <-> is_free s j.
Proof.
  intros Hinv Hq Hord Hsame.
  assert (forall x k, is_head s' x k <-> is_head s x k) as Hheads.
  { intros x k. unfold is_head. by rewrite Hord. }
  assert (forall x k, is_head s x k -> pages s' x = pages s x) as Hhp.
  { intros x k Hx. by apply Hsame, (head_free s x k). }
  split; [|intros j; unfold is_free; by setoid_rewrite Hheads]. split.
  - intros x. rewrite Hord. apply Hinv.
  - intros x k Hx%Hheads. apply (block_ok_same s); [by apply Hinv|].
    intros j Hj. apply Hsame. by exists x, k.
  - intros fl k x Hk. rewrite Hq, Hord, (inv_queue _ _ Hinv) by done.
    split; intros [E ->]; split; try done; unfold queue_of, page_seg; by rewrite (Hhp x k).
  - intros fl k Hk. rewrite Hq. by apply Hinv.
  - intros fl k Hk. rewrite Hq. by apply Hinv.
  - intros x k Hx%Hheads Hk Hin'. rewrite Hord. apply (inv_coalesced _ _ Hinv); [done | done|].
    unfold page_seg in *. by rewrite <- (Hhp x k).
Qed.

Lemma set_pool_ok p m o s :
  inv segs s -> busy segs s m o -> 0 <= p < 2 ->
  let s' := vm_phys_set_pool p m o s in
  inv segs s' /\ busy segs s' m o /\ pool s' m = p /\ same_static s s' /\ counts s' = counts s /\
  same_outside (block m o) s s' /\ (forall x, ord s' x = ord s x) /\
  (forall j, is_free s' j <-> is_free s j).
Proof.
  intros Hinv Hb Hp s'. destruct (bu_block _ _ _ _ Hb) as [Ho Hal Hpg Hin].
  assert (forall x, pages s' x = if (m <=? x) && (x <? m + 2 ^ o) then with_pool p (pages s x)
    else pages s x) as Hpages by (intros; apply pages_vm_phys_set_pool; lia).
  assert (queues s' = queues s) as Hq by apply queues_set_pool.
  assert (counts s' = counts s) as Hcnt by apply counts_set_pool. clearbody s'.
  assert (same_outside (block m o) s s') as Hout.
  { intros x Hx. rewrite Hpages. unfold block in Hx.
    replace (_ && _) with false; [done|]. symmetry. apply andb_false_iff. rewrite Z.leb_gt, Z.ltb_ge. lia. }
  assert (forall x, block m o x -> pages s' x = with_pool p (pages s x)) as Hblk.
  { intros x Hx. rewrite Hpages. unfold block in Hx. by ztest. }
  assert (forall x, ord s' x = ord s x) as Hord.
  { intros x. rewrite Hpages. by destruct (_ && _). }
  assert (same_static s s') as Hst.
  { intros x. rewrite Hpages. by destruct (_ && _). }
  destruct (inv_frame s s' Hinv Hq Hord) as [Hinv' Hfree].
  { intros x Hx. apply Hout. intros Hx'. by apply (bu_used _ _ _ _ Hb x). }
  assert (block m o m) as Hmm by (apply block_head; lia).
  split; [done|]. split; [|split; [by rewrite Hblk | by split_and!]]. split.
  - split; [done | done | |].
    + intros j Hj. destruct (Hpg j Hj) as ([Q1 Q2 Q3 Q4] & E1 & E2).
      rewrite (Hblk j Hj), (Hblk m) by done. split; [|done].
      split; unfold page_seg in *; rewrite (Hblk j Hj); done.
    + intros j Hj. rewrite Hord. by apply Hin.
  - rewrite Hord. apply (bu_order _ _ _ _ Hb).
  - intros j Hj Hf%Hfree. by apply (bu_used _ _ _ _ Hb j).
Qed.

(** ** Splitting *)

Lemma split_loop_ok n : forall m oind order s,
  segs_ok segs -> oind = order + Z.of_nat n -> 0 <= order -> inv segs s -> busy segs s m oind ->
  exists s', split_loop n m oind (queue_of segs s m) s = Ok s' /\ inv segs s' /\
    busy segs s' m order /\ upto_order s s' /\ counts s' = counts s /\
    (forall x, ~ block m oind x -> ord s' x = ord s x) /\
    (forall j, is_free s' j <-> is_free s j \/ (block m oind j /\ ~ block m order j)).
Proof.
  induction n as [|n IH]; intros m oind order s Hsegs Hoind Ho Hinv Hb; cbn [split_loop].
  { replace order with oind in * by lia. exists s.
    split_and!; try done; [apply upto_order_refl | tauto]. }
  set (o := oind - 1) in *. rewrite shiftl_1. replace oind with (o + 1) in * by lia.
  clearbody o. destruct (busy_split s m o ltac:(lia) Hb) as [Hlo Hhi].
  rewrite (bu_order _ _ _ _ Hhi). cbn [require mbind result_bind].
  destruct (freelist_add_ok (m + 2 ^ o) o false s Hsegs Hinv Hhi) as (Hinv1 & Hup1 & Hc1 & Ho1 & Hf1).
  { intros _ _. rewrite <- (buddy_low m o), buddy_invol by (lia || apply Hb).
    rewrite (bu_order _ _ _ _ Hb). pose proof (bo_order _ _ _ _ (bu_block _ _ _ _ Hlo)). lia. }
  pose proof (pow2_pos o ltac:(lia)) as HP.
  assert (queue_of segs s (m + 2 ^ o) = queue_of segs s m) as Eq.
  { destruct (bo_pages _ _ _ _ (bu_block _ _ _ _ Hb) (m + 2 ^ o)) as (_ & E1 & E2).
    - apply block_halves; [lia|]. right. apply block_head. lia.
    - unfold queue_of, page_seg. by rewrite E1, E2. }
  rewrite Eq in *. set (s1 := vm_freelist_add _ _ _ _ _) in *.
  assert (busy segs s1 m o) as Hlo1.
  { apply (busy_same s); [done | |].
    - intros j Hj. apply upto_order_same; [done|]. apply Ho1. unfold block in Hj. lia.
    - intros j Hj [Hf|Hf]%Hf1; [by apply (bu_used _ _ _ _ Hlo j) | unfold block in *; lia]. }
  destruct (IH m o order s1 Hsegs ltac:(lia) Ho Hinv1 Hlo1) as
    (s' & E & Hinv' & Hb' & Hup' & Hc' & Ho' & Hf').
  rewrite (upto_order_queue s s1) in E by done. exists s'.
  split; [done|]. split; [done|]. split; [done|]. split; [by apply (upto_order_trans s s1)|].
  split; [congruence|]. split.
  - intros x Hx. rewrite block_halves in Hx by lia. rewrite Ho' by tauto. apply Ho1. intros ->.
    apply Hx. right. apply block_head. lia.
  - intros j. rewrite Hf', Hf1, block_halves by lia.
    assert (block m order j -> block m o j).
    { unfold block. pose proof (Z.pow_le_mono_r 2 order o). lia. }
    assert (block (m + 2 ^ o) o j -> ~ block m o j) by (unfold block; lia). tauto.
Qed.

Lemma split_pages_ok m oind order s :
  segs_ok segs -> 0 <= order <= oind -> inv segs s -> busy segs s m oind ->
  exists s', vm_phys_split_pages m oind (queue_of segs s m) order s = Ok s' /\ inv segs s' /\
    busy segs s' m order /\ upto_order s s' /\ counts s' = counts s /\
    (forall x, ~ block m oind x -> ord s' x = ord s x) /\
    (forall j, is_free s' j <-> is_free s j \/ (block m oind j /\ ~ block m order j)).
Proof. intros Hsegs Ho Hinv Hb. apply split_loop_ok; try done; lia. Qed.
End steps.
