(* ===== verification/PhysFree.v ===== *)
(** * Freeing pages

    A block is joined with its buddy as long as that is free; a run of any
    length is freed in the largest aligned blocks. *)

From S2P Require Import Prelude Phys PhysInv.

Section free.
Context (segs : list vm_phys_seg) (Hsegs : segs_ok segs).

(** ** One round of coalescing *)

(** The buddy is taken off its queue and given the pool of the block. *)
Definition take_buddy (seg : vm_phys_seg) (m b o : Z) (s : phys) : result phys :=
  s ← vm_freelist_rem (seg_queues seg (m_pool (pages s b))) b o s;
  Ok (if negb (m_pool (pages s b) =? m_pool (pages s m))
      then vm_phys_set_pool (m_pool (pages s m)) b o s else s).

Lemma take_buddy_ok m b o s :
  inv segs s -> busy segs s m o -> is_head s b o -> m <> b ->
  page_seg segs s b = page_seg segs s m ->
  exists s', take_buddy (page_seg segs s m) m b o s = Ok s' /\ inv segs s' /\
    busy segs s' m o /\ busy segs s' b o /\ pool s' b = pool s m /\ pool s' m = pool s m /\
    same_static s s' /\ counts s' = counts s /\ same_outside (block b o) s s' /\
    (forall j, is_free s' j <-> is_free s j /\ ~ block b o j).
Proof.
  intros Hinv Hb Hh Hne Eseg. unfold take_buddy.
  destruct (freelist_rem_ok segs b o s Hinv Hh) as
    (s1 & E & Hinv1 & Hb1 & Hup1 & Hc1 & Ho1 & Hf1).
  unfold queue_of in E. rewrite Eseg in E. rewrite E, bind_Ok.
  pose proof (bo_order _ _ _ _ (bu_block _ _ _ _ Hb)) as Ho.
  assert (forall j, block m o j -> ~ block b o j) as Hapart.
  { intros j Hj Hj'. apply (bu_used _ _ _ _ Hb j Hj). by exists b, o. }
  assert (same_outside (block b o) s s1) as Hout1.
  { intros x Hx. apply upto_order_same; [done|]. apply Ho1. intros ->. apply Hx, block_head. lia. }
  assert (busy segs s1 m o) as Hm1.
  { apply (busy_same segs s); [done | |]; intros j Hj; [by apply Hout1, Hapart|].
    intros [Hf _]%Hf1. by apply (bu_used _ _ _ _ Hb j Hj). }
  assert (pool s1 m = pool s m) as Ep by (by apply upto_order_pool).
  destruct (Z.eqb_spec (pool s1 b) (pool s1 m)) as [E2|E2]; cbn [negb].
  - exists s1. rewrite E2, Ep. split_and!; try done. by apply upto_order_static.
  - destruct (set_pool_ok segs (pool s1 m) b o s1 Hinv1 Hb1) as
      (Hinv2 & Hb2 & Hp2 & Hst2 & Hc2 & Hout2 & Ho2 & Hf2).
    { rewrite Ep.
      apply (bo_pages _ _ _ _ (bu_block _ _ _ _ Hb) m). apply block_head. lia. }
    set (s2 := vm_phys_set_pool _ _ _ _) in *. exists s2.
    assert (block m o m) as Hmm by (apply block_head; lia).
    split; [done|]. split; [done|]. split; [|split; [done|split; [congruence|]]].
    + apply (busy_same segs s1); [done | |]; intros j Hj; [by apply Hout2, Hapart|].
      rewrite Hf2. by apply (bu_used _ _ _ _ Hm1).
    + split; [rewrite (Hout2 m) by (by apply Hapart); done|].
      split; [apply (same_static_trans s s1); [by apply upto_order_static | done]|].
      split; [congruence|]. split.
      * apply (same_outside_trans (block b o) (block b o) _ s s1); [done | done | tauto].
      * intros j. by rewrite Hf2.
Qed.

(** The block joined with its buddy. *)
Lemma join_buddy m o s :
  o + 1 < 13 -> busy segs s m o -> busy segs s (buddy m o) o ->
  pool s (buddy m o) = pool s m -> m_segind (pages s (buddy m o)) = m_segind (pages s m) ->
  let m' := align (buddy m o) (o + 1) in
  busy segs s m' (o + 1) /\ pool s m' = pool s m /\
  m_segind (pages s m') = m_segind (pages s m) /\
  forall j, block m' (o + 1) j <-> block m o j \/ block (buddy m o) o j.
Proof.
  intros Ho Hm Hb Hp Hs m'. pose proof (bo_order _ _ _ _ (bu_block _ _ _ _ Hm)) as Ho'.
  pose proof (pow2_pos o ltac:(lia)) as HP. pose proof (pow2_succ o ltac:(lia)) as E2.
  destruct (buddy_cases m o ltac:(lia) (bo_align _ _ _ _ (bu_block _ _ _ _ Hm))) as
    [[Hal Eb]|[Hal Eb]]; unfold m'; rewrite Eb in *.
  - rewrite (align_eq _ (o + 1) m) by (done || lia).
    split; [by apply busy_join|]. split; [done|]. split; [done|].
    intros j. by rewrite block_halves by lia.
  - rewrite (align_eq _ (o + 1) (m - 2 ^ o)) by (done || lia).
    split; [apply busy_join; try done; rewrite Z.sub_add; done|]. split; [done|]. split; [done|].
    intros j. rewrite block_halves, Z.sub_add by lia. tauto.
Qed.

(** ** The loop *)

(** The block [m'] of order [o'] is what the block [m] of order [o] has become
    part of when nothing more can be joined to it. *)
Record coalesced (s : phys) (m o : Z) (s' : phys) (m' o' : Z) : Prop := Coalesced {
  co_inv : inv segs s';
  co_busy : busy segs s' m' o';
  co_seg : page_seg segs s' m' = page_seg segs s m;
  co_pool : pool s' m' = pool s m;
  co_stop : o' < 12 -> in_seg (page_seg segs s m) (buddy m' o') -> ord s' (buddy m' o') <> o';
  co_free j : (is_free s' j \/ block m' o' j) <-> (is_free s j \/ block m o j);
  co_static : same_static s s';
  co_counts : counts s' = counts s;
  co_outside : same_outside (fun x => is_free s x) s s';
}.

Lemma coalesced_refl s m o :
  inv segs s -> busy segs s m o ->
  (o < 12 -> in_seg (page_seg segs s m) (buddy m o) -> ord s (buddy m o) <> o) ->
  coalesced s m o s m o.
Proof. intros. by split. Qed.

Lemma coalesce_ok n : forall m o s,
  Z.of_nat n = 12 - o -> inv segs s -> busy segs s m o ->
  exists m' o' s', coalesce n (page_seg segs s m) m o (ptoa m) s = Ok (m', o', s') /\
    coalesced s m o s' m' o'.
Proof.
  induction n as [|n IH]; intros m o s Hn Hinv Hb; cbn [coalesce].
  { exists m, o, s. split; [done|]. apply coalesced_refl; try done. lia. }
  pose proof (bo_order _ _ _ _ (bu_block _ _ _ _ Hb)) as Ho.
  pose proof (block_head m o ltac:(lia)) as Hmm.
  destruct (bo_pages _ _ _ _ (bu_block _ _ _ _ Hb) m Hmm) as [Pm _].
  pose proof (page_seg_ok segs s m Hsegs Pm) as Hseg. set (seg := page_seg segs s m) in *.
  set (b := buddy m o). rewrite buddy_addr by lia. fold b.
  rewrite seg_range_addr, seg_page_addr by done.
  case_bool_decide as Hin; cbn [negb].
  2: { exists m, o, s. split; [done|]. apply coalesced_refl; try done. }
  destruct (Z.eqb_spec (ord s b) o) as [Eo|Eo]; cbn [negb].
  2: { exists m, o, s. split; [done|]. apply coalesced_refl; try done. }
  assert (is_head s b o) as Hhb by done.
  destruct (bo_pages _ _ _ _ (inv_block _ _ Hinv b o Hhb) b (block_head b o ltac:(lia))) as [Pb _].
  assert (m_segind (pages s b) = m_segind (pages s m)) as Es.
  { apply (page_seg_eq segs s b m b); try done. apply Pb. }
  assert (m <> b) as Hne.
  { intros E. rewrite <- E in Hhb. by apply (busy_not_head segs s m o m o Hb Hmm). }
  destruct (take_buddy_ok m b o s Hinv Hb Hhb Hne) as
    (s1 & E & Hinv1 & Hm1 & Hb1 & Ep1 & Ep1' & Hst1 & Hc1 & Hout1 & Hf1).
  { unfold page_seg. by rewrite Es. }
  unfold take_buddy in E. apply bind_inv in E as (s0 & E0 & E). fold seg in E0.
  injection E as E. rewrite E0, bind_Ok, E.
  rewrite align_addr, seg_page_addr by (done || lia).
  assert (m_segind (pages s1 b) = m_segind (pages s1 m)) as Es1
    by (by rewrite (proj1 (proj2 (Hst1 b))), (proj1 (proj2 (Hst1 m)))).
  destruct (join_buddy m o s1 ltac:(lia) Hm1 Hb1 (eq_trans Ep1 (eq_sym Ep1')) Es1)
    as (Hj & Ep & Esg & Hblk). fold b in Hj, Ep, Esg, Hblk.
  assert (page_seg segs s1 (align b (o + 1)) = seg) as Eseg1.
  { unfold page_seg. by rewrite Esg, (proj1 (proj2 (Hst1 m))). }
  destruct (IH (align b (o + 1)) (o + 1) s1 ltac:(lia) Hinv1 Hj) as (m' & o' & s' & E' & Hco).
  rewrite Eseg1 in E'. exists m', o', s'. split; [done|].
  destruct Hco as [C1 C2 C3 C4 C5 C6 C7 C8 C9]. rewrite Eseg1 in *. split; try done.
  - congruence.
  - intros j. rewrite C6, Hf1, Hblk.
    assert (block b o j -> is_free s j) by (intros; by exists b, o).
    assert (block b o j \/ ~ block b o j) by (unfold block; lia). tauto.
  - by apply (same_static_trans s s1).
  - congruence.
  - apply (same_outside_trans (block b o) (fun x => is_free s1 x) _ s s1); [done | done|].
    intros x [Hx | [Hx _]%Hf1]; [by exists b, o | done].
Qed.

(** ** Freeing a block *)

Record freed (s s' : phys) (R : Z -> Prop) : Prop := Freed {
  fr_inv : inv segs s';
  fr_free j : is_free s' j <-> is_free s j \/ R j;
  fr_static : same_static s s';
  fr_counts : counts s' = counts s;
  fr_outside : same_outside (fun x => is_free s x \/ R x) s s';
}.

Lemma free_pages_ok m o s :
  inv segs s -> busy segs s m o ->
  exists s', vm_phys_free_pages segs m o s = Ok s' /\ freed s s' (block m o).
Proof.
  intros Hinv Hb. pose proof (bo_order _ _ _ _ (bu_block _ _ _ _ Hb)) as Ho.
  pose proof (block_head m o ltac:(lia)) as Hmm.
  destruct (bo_pages _ _ _ _ (bu_block _ _ _ _ Hb) m Hmm) as [Pm _].
  unfold vm_phys_free_pages. rewrite (bu_order _ _ _ _ Hb).
  change VM_NFREEORDER with 13. change VM_NFREEPOOL with 2.
  rewrite !require_true by (done || (apply Z.ltb_lt; lia) || (apply Z.ltb_lt; apply Pm)).
  rewrite !bind_Ok. unfold VM_PAGE_TO_PHYS. rewrite (po_addr _ _ _ Pm).
  destruct (coalesce_ok (Z.to_nat (13 - 1 - o)) m o s ltac:(lia) Hinv Hb) as
    (m' & o' & s1 & -> & [C1 C2 C3 C4 C5 C6 C7 C8 C9]).
  rewrite bind_Ok. eexists. split; [done|].
  replace (seg_queues _ _) with (queue_of segs s1 m') by (unfold queue_of; by rewrite C3).
  destruct (freelist_add_ok segs m' o' true s1 Hsegs C1 C2) as (Hinv' & Hup & Hc & Hord & Hf).
  { by rewrite C3. }
  split; [done | | | congruence |].
  - intros j. by rewrite Hf, C6.
  - apply (same_static_trans s s1); [done | by apply upto_order_static].
  - apply (same_outside_trans (fun x => is_free s x) (block m' o') _ s s1); [done | |].
    + intros x Hx. apply upto_order_same; [done|]. apply Hord. intros ->. apply Hx, block_head.
      pose proof (bo_order _ _ _ _ (bu_block _ _ _ _ C2)). lia.
    + intros x [Hx|Hx]; [by left|]. apply C6. by right.
Qed.

(** ** Freeing a run of any length *)

(** The pages from [m] to [m + n] are in use; those of one block of the largest
    order are of one segment and one pool. *)
Record busy_run (s : phys) (m n : Z) : Prop := BusyRun {
  br_pages j : m <= j < m + n -> page_ok segs s j;
  br_same i j : m <= i < m + n -> m <= j < m + n -> i / 2 ^ 12 = j / 2 ^ 12 ->
    pool s i = pool s j /\ m_segind (pages s i) = m_segind (pages s j);
  br_order j : m <= j < m + n -> ord s j = 13;
  br_used j : m <= j < m + n -> ~ is_free s j;
}.

(** A block lies in one block of the largest order. *)
Lemma block_in_largest m o j :
  0 <= o < 13 -> m mod 2 ^ o = 0 -> block m o j -> j / 2 ^ 12 = m / 2 ^ 12.
Proof.
  intros Ho Hal Hj. pose proof (align_bounds m 12 ltac:(lia)) as Hb.
  destruct (blocks_nested m o (align m 12) 12 m) as [H1 H2]; try done; [lia | | |].
  - by apply align_mod.
  - apply block_head. lia.
  - unfold block in Hj. unfold align in *. symmetry.
    apply (Z.div_unique_pos j (2 ^ 12) (m / 2 ^ 12) (j - 2 ^ 12 * (m / 2 ^ 12))); lia.
Qed.

Lemma busy_run_block s m n o :
  busy_run s m n -> 0 <= o < 13 -> m mod 2 ^ o = 0 -> 2 ^ o <= n -> busy segs s m o.
Proof.
  intros [Hp Hs Ho Hu] Hr Hal Hn. pose proof (pow2_pos o ltac:(lia)).
  split; [split; [done | done | |] | apply Ho; lia |].
  - intros j Hj. pose proof (block_in_largest m o j Hr Hal Hj). unfold block in Hj.
    split; [apply Hp; lia|]. apply Hs; [lia | lia | done].
  - intros j Hj. apply Ho. lia.
  - intros j Hj. apply Hu. unfold block in Hj. lia.
Qed.

Lemma block_busy_run s m o : busy segs s m o -> busy_run s m (2 ^ o).
Proof.
  intros Hb. split; intros j; [intros Hj; by apply Hb | | intros Hj; by apply (busy_order segs s m o)
    | intros Hj; by apply Hb].
  intros k Hj Hk _. destruct (bo_pages _ _ _ _ (bu_block _ _ _ _ Hb) j Hj) as (_ & -> & ->).
  by destruct (bo_pages _ _ _ _ (bu_block _ _ _ _ Hb) k Hk) as (_ & -> & ->).
Qed.

(** A part of a run, as long as its pages stay. *)
Lemma busy_run_sub s s' m n a k :
  busy_run s m n -> m <= a -> a + k <= m + n ->
  (forall j, a <= j < a + k -> pages s' j = pages s j) ->
  (forall j, a <= j < a + k -> ~ is_free s' j) -> busy_run s' a k.
Proof.
  intros [Hp Hs Ho Hu] Ha Hk Hsame Hf. split.
  - intros j Hj. destruct (Hp j ltac:(lia)) as [P1 P2 P3 P4]. unfold page_seg in *.
    split; unfold page_seg; rewrite Hsame by lia; done.
  - intros i j Hi Hj. rewrite !Hsame by lia. apply Hs; lia.
  - intros j Hj. rewrite Hsame by lia. apply Ho. lia.
  - done.
Qed.

(** The rest of a run after some of its pages were freed. *)
Lemma busy_run_freed s s' m n a k (R : Z -> Prop) :
  busy_run s m n -> freed s s' R -> m <= a -> a + k <= m + n ->
  (forall j, a <= j < a + k -> ~ R j) -> busy_run s' a k.
Proof.
  intros Hr Hf Ha Hk HR. apply (busy_run_sub s s' m n); try done.
  - intros j Hj. apply (fr_outside _ _ _ Hf).
    intros [Hx|Hx]; [by apply (br_used _ _ _ Hr j); [lia|] | by apply (HR j)].
  - intros j Hj [Hx|Hx]%(fr_free _ _ _ Hf); [by apply (br_used _ _ _ Hr j); [lia|] | by apply (HR j)].
Qed.

Lemma freed_trans s s1 s2 R1 R2 R :
  freed s s1 R1 -> freed s1 s2 R2 -> (forall j, R j <-> R1 j \/ R2 j) -> freed s s2 R.
Proof.
  intros [I1 F1 S1 C1 O1] [I2 F2 S2 C2 O2] HR. split; [done | | | congruence |].
  - intros j. rewrite F2, F1, HR. tauto.
  - by apply (same_static_trans s s1).
  - apply (same_outside_trans _ _ _ s s1 s2 O1 O2). intros x. rewrite F1, HR. tauto.
Qed.

Lemma freed_refl s (R : Z -> Prop) : inv segs s -> (forall j, ~ R j) -> freed s s R.
Proof.
  intros Hinv HR. split; try done.
  intros j. split; [by left | intros [?|Hj]; [done | by destruct (HR j)]].
Qed.

Lemma free_run_block s m n o :
  inv segs s -> busy_run s m n -> 0 <= o < 13 -> m mod 2 ^ o = 0 -> 2 ^ o <= n ->
  exists s', vm_phys_free_pages segs m o s = Ok s' /\
    freed s s' (fun j => m <= j < m + 2 ^ o) /\
    (2 ^ o < n -> busy_run s' (m + 2 ^ o) (n - 2 ^ o)).
Proof.
  intros Hinv Hr Ho Hal Hn. pose proof (pow2_pos o ltac:(lia)).
  destruct (free_pages_ok m o s Hinv (busy_run_block s m n o Hr Ho Hal Hn)) as (s' & E & Hf).
  exists s'. split; [done|]. split; [exact Hf|]. intros Hlt.
  apply (busy_run_freed s s' m n _ _ _ Hr Hf); unfold block; lia.
Qed.

(** The order of the first block of a run: the largest that the alignment of
    the page allows. *)
Lemma head_order m :
  0 <= m < 2 ^ 52 ->
  let o := Z.min (u32 (phys_ffsl m - 1)) (13 - 1) in 0 <= o < 13 /\ m mod 2 ^ o = 0.
Proof.
  intros Hm o. unfold phys_ffsl in o. destruct (Z.eqb_spec m 0) as [->|Hne].
  - replace o with 12 by reflexivity. done.
  - destruct (ctz_spec m ltac:(lia)) as (H0 & Hbit & Hlow).
    assert (ctz m < 52) as Hlt.
    { destruct (Z.lt_ge_cases (ctz m) 52) as [|Hge]; [done|]. exfalso.
      pose proof (Z.log2_lt_pow2 m 52 ltac:(lia)).
      by rewrite Z.bits_above_log2 in Hbit by lia. }
    unfold o, u32. rewrite Z.add_simpl_r, Z.mod_small by lia. split; [lia|].
    apply (aligned_le m _ (ctz m)); [lia|]. apply Z.bits_inj'. intros k Hk. rewrite Z.bits_0.
    destruct (Z.lt_ge_cases k (ctz m)); [|by rewrite Z.mod_pow2_bits_high by lia].
    rewrite Z.mod_pow2_bits_low by lia. apply Hlow. lia.
Qed.

Lemma page_frame_range s j : page_ok segs s j -> 0 <= j < 2 ^ 52.
Proof.
  intros Hp. destruct (page_seg_ok segs s j Hsegs Hp) as [_ _ H0 Hl].
  destruct (po_seg _ _ _ Hp) as [H1 H2]. rewrite ptoa_eq in H1. lia.
Qed.

Lemma free_contig_head_ok fuel : forall m n s,
  n < Z.of_nat fuel -> inv segs s -> 0 <= n -> (0 < n -> busy_run s m n) ->
  exists m' n' s', free_contig_head segs fuel m n s = Ok (m', n', s') /\
    freed s s' (fun j => m <= j < m') /\ m' + n' = m + n /\ m <= m' /\ 0 <= n' /\
    (0 < n' -> busy_run s' m' n' /\ exists k, 0 <= k < 13 /\ n' < 2 ^ k /\ m' mod 2 ^ k = 0).
Proof.
  induction fuel as [|fuel IH]; intros m n s Hf Hinv Hn Hr; [lia|]. cbn [free_contig_head].
  change (VM_NFREEORDER - 1) with (13 - 1).
  set (a := Z.shiftr (VM_PAGE_TO_PHYS s m) PAGE_SHIFT).
  set (o := Z.min (u32 (phys_ffsl a - 1)) (13 - 1)).
  assert (0 <= o) as Ho0.
  { unfold o, u32. pose proof (Z.mod_pos_bound (phys_ffsl a - 1) (2 ^ 32)). lia. }
  pose proof (pow2_pos o Ho0) as HP. rewrite shiftl_1.
  assert (0 < n -> 0 <= o < 13 /\ m mod 2 ^ o = 0) as Hal.
  { intros Hpos. pose proof (br_pages _ _ _ (Hr Hpos) m ltac:(lia)) as Pm.
    assert (a = m) as Ea.
    { unfold a, VM_PAGE_TO_PHYS. rewrite (po_addr _ _ _ Pm). unfold ptoa.
      rewrite Z.shiftr_shiftl_l, Z.sub_diag by done. apply Z.shiftl_0_r. }
    unfold o. rewrite Ea. apply head_order. by apply (page_frame_range s). }
  destruct (Z.ltb_spec n (2 ^ o)) as [Hlt|Hge].
  - exists m, n, s. split; [done|]. split; [apply freed_refl; [done | lia]|].
    split_and!; try lia. intros Hpos. destruct (Hal Hpos). split; [by apply Hr|].
    by exists o.
  - destruct (Hal ltac:(lia)) as [Ho Hm].
    destruct (free_run_block s m n o Hinv (Hr ltac:(lia)) Ho Hm Hge) as (s1 & -> & Hf1 & Hr1).
    rewrite bind_Ok.
    destruct (IH (m + 2 ^ o) (n - 2 ^ o) s1) as (m' & n' & s' & -> & Hf2 & E & Hle & Hn' & Hend);
      [lia | apply Hf1 | lia | intros; apply Hr1; lia |].
    exists m', n', s'. split; [done|]. split; [|split_and!; try done; lia].
    apply (freed_trans s s1 s' _ _ _ Hf1 Hf2). lia.
Qed.

Lemma free_contig_tail_ok fuel : forall m n s k,
  n <= Z.of_nat fuel -> inv segs s -> 0 <= n -> (0 < n -> busy_run s m n) ->
  (0 < n -> 0 <= k < 13 /\ n < 2 ^ k /\ m mod 2 ^ k = 0) ->
  exists s', free_contig_tail segs fuel m n s = Ok s' /\ freed s s' (fun j => m <= j < m + n).
Proof.
  induction fuel as [|fuel IH]; intros m n s k Hf Hinv Hn Hr Hk; cbn [free_contig_tail];
    rewrite Z.gtb_ltb; (destruct (Z.ltb_spec 0 n) as [Hpos|];
      [|exists s; split; [done | apply freed_refl; [done | lia]]]).
  { lia. }
  destruct (Hk Hpos) as (Hk0 & Hnk & Hal). unfold phys_flsl. ztest. rewrite Z.add_simpl_r, shiftl_1.
  destruct (Z.log2_spec n Hpos) as [Hlo Hhi]. set (o := Z.log2 n) in *.
  pose proof (Z.log2_nonneg n). fold o in H. rewrite <- Z.add_1_r, pow2_succ in Hhi by done.
  assert (o < k) as Hok.
  { destruct (Z.lt_ge_cases o k) as [|Hge]; [done|].
    pose proof (Z.pow_le_mono_r 2 k o ltac:(lia) Hge). lia. }
  pose proof (aligned_le m o k ltac:(lia) Hal) as Halo.
  destruct (free_run_block s m n o Hinv (Hr Hpos) ltac:(lia) Halo Hlo) as (s1 & -> & Hf1 & Hr1).
  rewrite bind_Ok. pose proof (pow2_pos o ltac:(lia)) as HP.
  destruct (IH (m + 2 ^ o) (n - 2 ^ o) s1 o) as (s' & -> & Hf2);
    [lia | apply Hf1 | lia | intros; apply Hr1; lia | |].
  { intros _. split; [lia|]. split; [lia|].
    replace (m + 2 ^ o) with (m + 1 * 2 ^ o) by lia. by apply aligned_add. }
  exists s'. split; [done|]. apply (freed_trans s s1 s' _ _ _ Hf1 Hf2). lia.
Qed.

Lemma free_contig_ok m n s :
  inv segs s -> 0 <= n -> (0 < n -> busy_run s m n) ->
  exists s', vm_phys_free_contig segs m n s = Ok s' /\ freed s s' (fun j => m <= j < m + n).
Proof.
  intros Hinv Hn Hr. unfold vm_phys_free_contig.
  destruct (free_contig_head_ok (S (Z.to_nat n)) m n s) as
    (m' & n' & s1 & E & Hf1 & Em & Hle & Hn' & Hend); try done; [lia|].
  rewrite E, bind_Ok.
  assert (exists k, 0 < n' -> 0 <= k < 13 /\ n' < 2 ^ k /\ m' mod 2 ^ k = 0) as [k Hk].
  { destruct (Z.lt_ge_cases 0 n') as [Hpos|]; [|exists 0; lia].
    destruct (Hend Hpos) as (_ & k & Hk). by exists k. }
  destruct (free_contig_tail_ok (Z.to_nat n') m' n' s1 k) as (s' & E' & Hf2);
    [lia | apply Hf1 | lia | intros H1; apply (Hend H1) | exact Hk |].
  exists s'. split; [exact E'|]. apply (freed_trans s s1 s' _ _ _ Hf1 Hf2). lia.
Qed.

(** ** Adding a page *)

Lemma find_seg_in l : forall i pa seg,
  find_seg l i pa = Some seg -> i <= seg < i + zlength l /\
  (seg_start (aget no_seg l (seg - i)) <=? pa) && (pa <? seg_end (aget no_seg l (seg - i))) = true.
Proof.
  induction l as [|x l IH]; intros i pa seg; cbn [find_seg]; [done|].
  unfold zlength in *. simpl length. destruct (_ && _) eqn:E.
  - intros [= <-]. rewrite Z.sub_diag. split; [lia | done].
  - intros [Hr Hin]%IH. split; [lia|]. rewrite <- Hin. unfold aget. ztest.
    by replace (Z.to_nat (seg - i)) with (S (Z.to_nat (seg - (i + 1)))) by lia.
Qed.

Lemma find_seg_none l : forall i pa j,
  find_seg l i pa = None -> 0 <= j < zlength l ->
  (seg_start (aget no_seg l j) <=? pa) && (pa <? seg_end (aget no_seg l j)) = false.
Proof.
  induction l as [|x l IH]; intros i pa j; cbn [find_seg].
  { unfold zlength. simpl. lia. }
  unfold zlength in *. simpl length. destruct (_ && _) eqn:E; [done|]. intros Hn Hj.
  destruct (decide (j = 0)) as [->|]; [done|].
  specialize (IH (i + 1) pa (j - 1) Hn ltac:(lia)). revert IH. unfold aget. ztest.
  by replace (Z.to_nat j) with (S (Z.to_nat (j - 1))) by lia.
Qed.

Lemma seg_contains seg j :
  seg_ok seg -> (seg_start seg <=? ptoa j) && (ptoa j <? seg_end seg) = true <-> in_seg seg j.
Proof.
  intros [Hs _ _ _]. rewrite andb_true_iff, Z.leb_le, Z.ltb_lt, Hs, ptoa_le. unfold in_seg. tauto.
Qed.

(** The segment of a frame. *)
Lemma find_seg_frame i j :
  0 <= i < zlength segs -> in_seg (aget no_seg segs i) j -> find_seg segs 0 (ptoa j) = Some i.
Proof.
  intros Hi Hin. destruct (find_seg segs 0 (ptoa j)) as [k|] eqn:E.
  - apply find_seg_in in E as [Hk Hc]. rewrite Z.sub_0_r in Hc.
    apply seg_contains in Hc; [|apply (ss_ok _ Hsegs); lia].
    f_equal. by apply (ss_apart _ Hsegs _ _ j); try lia.
  - pose proof (find_seg_none _ _ _ i E Hi) as Hc.
    rewrite (proj2 (seg_contains _ _ (ss_ok _ Hsegs i Hi))) in Hc; done.
Qed.

(** The counts after a page was added. *)
Definition count_page (segind : Z) (c : vm_counts) : vm_counts :=
  Counts (v_page_count c + 1) (v_free_count c + 1) (vmd_page_count c + 1) (vmd_free_count c + 1)
    (Z.lor (vmd_segs c) (Z.shiftl 1 segind)).

Lemma add_page_ok i j s :
  inv segs s -> 0 <= i < zlength segs -> in_seg (aget no_seg segs i) j ->
  ord s j = 13 -> ~ is_free s j ->
  exists s', vm_phys_add_page segs (ptoa j) s = Ok s' /\ inv segs s' /\
    (forall x, is_free s' x <-> is_free s x \/ x = j) /\
    counts s' = count_page i (counts s) /\
    same_outside (fun x => is_free s x \/ x = j) s s' /\ page_ok segs s' j.
Proof.
  intros Hinv Hi Hin Hord Hno. unfold vm_phys_add_page, vm_phys_paddr_to_vm_page,
    vm_phys_paddr_to_segind.
  rewrite (find_seg_frame i j Hi Hin), bind_Ok.
  pose proof (ss_ok _ Hsegs i Hi) as Hseg. rewrite seg_page_addr by done.
  rewrite Hord. cbn [require mbind result_bind]. cbv zeta.
  set (s1 := vm_phys_freecnt_adj 1 _).
  assert (forall x, pages s1 x = if x =? j then MkPage (ptoa j) 13 0 i else pages s x) as Hp.
  { intros x. done. }
  assert (queues s1 = queues s) as Hq by done.
  assert (counts s1 = count_page i (counts s)) as Hcnt by done. clearbody s1.
  assert (forall x, x <> j -> pages s1 x = pages s x) as Hsame by (intros; rewrite Hp; by ztest).
  assert (pages s1 j = MkPage (ptoa j) 13 0 i) as Hj by (by rewrite Hp, Z.eqb_refl).
  destruct (inv_frame segs s s1 Hinv Hq) as [Hinv1 Hf1].
  { intros x. destruct (decide (x = j)) as [->|]; [by rewrite Hj | by rewrite Hsame]. }
  { intros x Hx. apply Hsame. by intros ->. }
  assert (page_ok segs s1 j) as Pj.
  { split; unfold page_seg; rewrite Hj; done || (simpl; lia). }
  assert (busy segs s1 j 0) as Hb.
  { apply (busy_run_block s1 j 1 0); [|done | apply Z.mod_1_r | done].
    split; intros x; [| intros y Hx Hy _; by replace y with x by lia | |]; intros Hx;
      replace x with j by lia; [done | by rewrite Hj | by rewrite Hf1]. }
  destruct (free_pages_ok j 0 s1 Hinv1 Hb) as (s' & -> & [F1 F2 F3 F4 F5]).
  assert (forall x, block j 0 x <-> x = j) as Hb0 by (unfold block; intros; simpl; lia).
  exists s'. split; [done|]. split; [done|]. split; [|split; [congruence|split]].
  - intros x. by rewrite F2, Hf1, Hb0.
  - apply (same_outside_trans (fun x => x = j) (fun x => is_free s1 x \/ block j 0 x) _ s s1);
      [done | done|]. intros x. rewrite Hf1, Hb0. tauto.
  - assert (is_free s' j) as (h & o & Hh & Hbj) by (apply F2; right; by apply Hb0).
    by apply (bo_pages _ _ _ _ (inv_block _ _ F1 h o Hh) j Hbj).
Qed.
End free.
