(* ===== verification/PhysAlloc.v ===== *)
(** * Allocation of blocks, and of a given page

    A block of the order asked for is split off a larger one; when there is
    none, no aligned run of that size is free. *)

From S2P Require Import Prelude Phys PhysInv PhysFree.

Section alloc.
Context (segs : list vm_phys_seg) (Hsegs : segs_ok segs).

(** The block of order [o] from [m] was free and is in use now. *)
Record allocated (s s' : phys) (m o : Z) : Prop := Allocated {
  al_inv : inv segs s';
  al_busy : busy segs s' m o;
  al_was j : block m o j -> is_free s j;
  al_free j : is_free s' j <-> is_free s j /\ ~ block m o j;
  al_static : same_static s s';
  al_counts : counts s' = counts s;
  al_outside : same_outside (is_free s) s s';
}.

(** The pages of a free list. *)
Definition in_list (s : phys) (domain flind m : Z) : Prop :=
  seg_domain (page_seg segs s m) = domain /\ seg_flind (page_seg segs s m) = flind.

Lemma queue_of_list s m domain flind p :
  queue_of segs s m = (domain, flind, p) <-> in_list s domain flind m /\ pool s m = p.
Proof.
  unfold queue_of, seg_queues, in_list. split; [by intros [= -> -> ->] | by intros [[-> ->] ->]].
Qed.

(** ** The search for a block *)

Lemma queue_head s fl o m l :
  inv segs s -> 0 <= o < 13 -> pl (queues s fl o) = m :: l ->
  is_head s m o /\ fl = queue_of segs s m.
Proof.
  intros Hinv Ho E. assert (m ∈ pl (queues s fl o)) as Hm by (rewrite E; by left).
  by apply (inv_queue _ _ Hinv) in Hm as [<- ->].
Qed.

Lemma first_block_spec n fl s : forall o,
  inv segs s -> 0 <= o -> o + Z.of_nat n = 13 ->
  match first_block n fl o s with
  | Some (m, k) => o <= k < 13 /\ is_head s m k /\ fl = queue_of segs s m
  | None => forall m k, is_head s m k -> fl = queue_of segs s m -> k < o
  end.
Proof.
  induction n as [|n IH]; intros o Hinv Ho Hn; cbn [first_block].
  { intros m k [_ Hk] _. lia. }
  destruct (pl (queues s fl o)) as [|m l] eqn:E.
  - specialize (IH (o + 1) Hinv ltac:(lia) ltac:(lia)).
    destruct (first_block n fl (o + 1) s) as [[m k]|].
    + destruct IH as [? ?]. by split; [lia|].
    + intros m k Hh Hfl. specialize (IH m k Hh Hfl). destruct (decide (k = o)) as [->|]; [|lia].
      assert (m ∈ pl (queues s fl o)) as Hm.
      { apply (inv_queue _ _ Hinv); [apply Hh|]. split; [apply Hh | done]. }
      rewrite E in Hm. by apply elem_of_nil in Hm.
  - split; [lia|]. by apply (queue_head s fl o m l Hinv ltac:(lia)).
Qed.

Lemma pool_block_spec n domain flind o s : forall p,
  inv segs s -> 0 <= o < 13 -> p + Z.of_nat n = 2 ->
  match pool_block n domain flind p o s with
  | Some (alt, m) => is_head s m o /\ alt = queue_of segs s m /\ in_list s domain flind m
  | None => forall m, is_head s m o -> in_list s domain flind m -> pool s m < p
  end.
Proof.
  induction n as [|n IH]; intros p Hinv Ho Hn; cbn [pool_block].
  { intros m Hh _. pose proof (bo_pages _ _ _ _ (inv_block _ _ Hinv m o Hh) m
      (block_head m o ltac:(lia))) as [P _]. pose proof (po_pool _ _ _ P). lia. }
  destruct (pl (queues s (domain, flind, p) o)) as [|m l] eqn:E.
  - specialize (IH (p + 1) Hinv Ho ltac:(lia)).
    destruct (pool_block n domain flind (p + 1) o s) as [[alt m]|]; [done|].
    intros m Hh Hl. specialize (IH m Hh Hl). destruct (decide (pool s m = p)) as [Ep|]; [|lia].
    assert (m ∈ pl (queues s (domain, flind, p) o)) as Hm.
    { apply (inv_queue _ _ Hinv); [done|]. split; [apply Hh|]. symmetry. by apply queue_of_list. }
    rewrite E in Hm. by apply elem_of_nil in Hm.
  - destruct (queue_head s _ o m l Hinv Ho E) as [Hh Hq]. split; [done|]. split; [done|].
    symmetry in Hq. by apply queue_of_list in Hq as [? _].
Qed.

Lemma largest_block_spec n domain flind s : forall o,
  inv segs s -> o < 13 -> 0 <= o - Z.of_nat n + 1 ->
  match largest_block n domain flind o s with
  | Some (alt, m, k) => o - Z.of_nat n < k <= o /\ is_head s m k /\ alt = queue_of segs s m /\
      in_list s domain flind m
  | None => forall m k, is_head s m k -> in_list s domain flind m -> k <= o -> k <= o - Z.of_nat n
  end.
Proof.
  induction n as [|n IH]; intros o Hinv Ho Hn; cbn [largest_block].
  { intros m k Hh Hl Hk. lia. }
  change (Z.to_nat VM_NFREEPOOL) with 2%nat.
  pose proof (pool_block_spec 2 domain flind o s 0 Hinv ltac:(lia) ltac:(lia)) as Hp.
  destruct (pool_block 2 domain flind 0 o s) as [[alt m]|].
  - split; [lia | done].
  - specialize (IH (o - 1) Hinv ltac:(lia)).
    destruct n as [|n].
    + cbn [largest_block]. intros m k Hh Hl Hk. destruct (decide (k = o)) as [->|]; [|lia].
      specialize (Hp m Hh Hl).
      pose proof (bo_pages _ _ _ _ (inv_block _ _ Hinv m o Hh) m
        (block_head m o ltac:(lia))) as [P _]. pose proof (po_pool _ _ _ P). lia.
    + specialize (IH ltac:(lia)). destruct (largest_block (S n) domain flind (o - 1) s) as [[[alt m] k]|].
      * destruct IH as [? ?]. split; [lia | done].
      * intros m k Hh Hl Hk. destruct (decide (k = o)) as [->|].
        -- specialize (Hp m Hh Hl).
           pose proof (bo_pages _ _ _ _ (inv_block _ _ Hinv m o Hh) m
             (block_head m o ltac:(lia))) as [P _]. pose proof (po_pool _ _ _ P). lia.
        -- specialize (IH m k Hh Hl ltac:(lia)). lia.
Qed.

(** ** Taking a block and splitting it *)

Lemma head_pool s m o : inv segs s -> is_head s m o -> 0 <= pool s m < 2.
Proof.
  intros Hinv Hh. destruct (bo_pages _ _ _ _ (inv_block _ _ Hinv m o Hh) m) as [P _].
  - apply block_head. destruct Hh. lia.
  - apply P.
Qed.

Lemma block_shrink m o o' j : 0 <= o <= o' -> block m o j -> block m o' j.
Proof. unfold block. intros Ho Hj. pose proof (Z.pow_le_mono_r 2 o o'). lia. Qed.

(** A block in use that is given the pool [p] and split. *)
Lemma split_allocated s s0 m k o :
  is_head s m k -> 0 <= o <= k -> inv segs s0 -> busy segs s0 m k ->
  (forall j, is_free s0 j <-> is_free s j /\ ~ block m k j) -> same_static s s0 ->
  counts s0 = counts s -> same_outside (block m k) s s0 ->
  exists s', vm_phys_split_pages m k (queue_of segs s0 m) o s0 = Ok s' /\ allocated s s' m o /\
    pool s' m = pool s0 m.
Proof.
  intros Hh Ho Hinv Hb Hf Hst Hc Hout.
  destruct (split_pages_ok segs m k o s0 Hsegs Ho Hinv Hb) as
    (s' & E & Hinv' & Hb' & Hup & Hc' & Hord & Hf').
  exists s'. split; [done|]. split; [|by apply upto_order_pool].
  assert (forall j, block m k j -> is_free s j) as Hblk by (intros j Hj; by exists m, k).
  pose proof (fun j => block_shrink m o k j Ho) as Hsub.
  split; [done | done | | | | congruence |].
  - intros j Hj. by apply Hblk, Hsub.
  - intros j. rewrite Hf', Hf. specialize (Hblk j). specialize (Hsub j).
    assert (block m k j \/ ~ block m k j) by (unfold block; lia). tauto.
  - apply (same_static_trans s s0); [done | by apply upto_order_static].
  - apply (same_outside_trans (block m k) (block m k) _ s s0); [done | |].
    + intros x Hx. apply upto_order_same; [done | by apply Hord].
    + intros x [Hx|Hx]; by apply Hblk.
Qed.

(** No free block of the list has the order. *)
Definition list_lacks (s : phys) (domain flind o : Z) : Prop :=
  forall m k, is_head s m k -> in_list s domain flind m -> k < o.

Lemma alloc_domain_ok domain flind p o s :
  inv segs s -> 0 <= flind -> 0 <= p < 2 -> 0 <= o < 13 ->
  exists r s', vm_phys_alloc_domain_pages domain flind p o s = Ok (r, s') /\
    match r with
    | Some m => allocated s s' m o /\ pool s' m = p /\ in_list s' domain flind m
    | None => s' = s /\ list_lacks s domain flind o
    end.
Proof.
  intros Hinv Hfl Hp Ho. unfold vm_phys_alloc_domain_pages. change VM_NFREEORDER with 13.
  rewrite require_true by (by apply Z.leb_le). rewrite bind_Ok.
  assert (forall s' m k, allocated s s' m k -> in_list s domain flind m ->
    in_list s' domain flind m) as Hkeep.
  { intros s' m k Ha Hl. unfold in_list, page_seg in *.
    by rewrite (proj1 (proj2 (al_static _ _ _ _ Ha m))). }
  pose proof (first_block_spec (Z.to_nat (13 - o)) (domain, flind, p) s o Hinv ltac:(lia) ltac:(lia)) as H1.
  destruct (first_block _ _ _ s) as [[m k]|].
  - destruct H1 as (Hk & Hh & Hq).
    destruct (freelist_rem_ok segs m k s Hinv Hh) as (s0 & E & Hinv0 & Hb0 & Hup & Hc & Hord & Hf).
    rewrite Hq, E, bind_Ok. rewrite <- (upto_order_queue segs s s0) by done.
    symmetry in Hq. apply queue_of_list in Hq as [Hl Hpm].
    destruct (split_allocated s s0 m k o Hh) as (s' & E' & Ha & Hp'); try done; try lia.
    { by apply upto_order_static. }
    { intros x Hx. apply upto_order_same; [done|]. apply Hord. intros ->.
      apply Hx, block_head. lia. }
    rewrite E', bind_Ok. exists (Some m), s'. split; [done|]. split; [done|].
    split; [by rewrite Hp', (upto_order_pool s s0) | by eapply Hkeep].
  - pose proof (largest_block_spec (Z.to_nat (13 - o)) domain flind s (13 - 1) Hinv ltac:(lia)
      ltac:(lia)) as H2.
    destruct (largest_block _ _ _ _ s) as [[[alt m] k]|].
    + destruct H2 as (Hk & Hh & -> & Hl).
      destruct (freelist_rem_ok segs m k s Hinv Hh) as
        (s0 & E & Hinv0 & Hb0 & Hup & Hc & Hord & Hf).
      rewrite E, bind_Ok.
      destruct (set_pool_ok segs p m k s0 Hinv0 Hb0 Hp) as
        (Hinv1 & Hb1 & Hp1 & Hst1 & Hc1 & Hout1 & Ho1 & Hf1).
      set (s1 := vm_phys_set_pool p m k s0) in *. cbv zeta.
      assert (same_static s s1) as Hst
        by (apply (same_static_trans s s0); [by apply upto_order_static | done]).
      assert ((domain, flind, p) = queue_of segs s1 m) as Hq.
      { symmetry. apply queue_of_list. split; [|done]. unfold in_list, page_seg in *.
        by rewrite (proj1 (proj2 (Hst m))). }
      rewrite Hq.
      destruct (split_allocated s s1 m k o Hh) as (s' & E' & Ha & Hp'); try done; try lia.
      { intros j. by rewrite Hf1, Hf. }
      { congruence. }
      { apply (same_outside_trans (block m k) (block m k) _ s s0); [| done | tauto].
        intros x Hx. apply upto_order_same; [done|]. apply Hord. intros ->.
        apply Hx, block_head. lia. }
      rewrite E', bind_Ok. exists (Some m), s'. split; [done|]. split; [done|].
      split; [congruence | by eapply Hkeep].
    + exists None, s. split; [done|]. split; [done|]. intros m k Hh Hl.
      specialize (H2 m k Hh Hl). destruct Hh. lia.
Qed.

(** ** When there is no block there is no run *)

(** An aligned run of free pages of one segment is inside a free block. *)
Lemma run_in_block n : forall a s,
  inv segs s -> Z.of_nat n < 13 -> a mod 2 ^ Z.of_nat n = 0 ->
  (forall j, block a (Z.of_nat n) j -> is_free s j /\
     m_segind (pages s j) = m_segind (pages s a)) ->
  exists m k, is_head s m k /\ Z.of_nat n <= k /\ block m k a.
Proof.
  induction n as [|n IH]; intros a s Hinv Hn Hal Hrun.
  { destruct (Hrun a) as [(m & k & Hh & Hb) _]; [by apply block_head|].
    exists m, k. split; [done|]. destruct Hh. split; [lia | done]. }
  replace (Z.of_nat (S n)) with (Z.of_nat n + 1) in * by lia. set (o := Z.of_nat n) in *.
  pose proof (pow2_pos o ltac:(lia)) as HP. pose proof (pow2_succ o ltac:(lia)) as E2.
  pose proof (aligned_le a o (o + 1) ltac:(lia) Hal) as Hal'.
  pose proof (fun j => proj2 (block_halves a o j ltac:(lia))) as Hh.
  destruct (Hrun (a + 2 ^ o)) as [_ Es]; [apply Hh; right; apply block_head; lia|].
  destruct (IH a s Hinv ltac:(lia) Hal') as (m1 & k1 & H1 & Hk1 & B1).
  { intros j Hj. apply Hrun, Hh. by left. }
  assert ((a + 2 ^ o) mod 2 ^ o = 0) as Hal2.
  { replace (a + 2 ^ o) with (a + 1 * 2 ^ o) by lia. apply aligned_add; [lia | done]. }
  destruct (IH (a + 2 ^ o) s Hinv ltac:(lia) Hal2) as (m2 & k2 & H2 & Hk2 & B2).
  { intros j Hj. destruct (Hrun j) as [? E]; [apply Hh; by right|]. split; [done | congruence]. }
  destruct (decide (k1 = o)) as [E1|]; [|exists m1, k1; split; [done|]; split; [lia | done]].
  exfalso. rewrite E1 in *. pose proof (inv_block _ _ Hinv _ _ H1) as K1.
  pose proof (inv_block _ _ Hinv _ _ H2) as K2.
  assert (m1 = a) as ->.
  { pose proof (blocks_nested m1 o a o a ltac:(lia) (bo_align _ _ _ _ K1) Hal' B1
      (block_head a o ltac:(lia))). lia. }
  destruct (decide (k2 = o)) as [E3|].
  - rewrite E3 in *. assert (m2 = a + 2 ^ o) as ->.
    { pose proof (blocks_nested m2 o (a + 2 ^ o) o (a + 2 ^ o) ltac:(lia) (bo_align _ _ _ _ K2)
        Hal2 B2 (block_head _ o ltac:(lia))). lia. }
    apply (inv_coalesced _ _ Hinv a o H1); [lia | | rewrite buddy_low by (done || lia); apply H2].
    rewrite buddy_low by (done || lia).
    destruct (bo_pages _ _ _ _ K2 (a + 2 ^ o) (block_head (a + 2 ^ o) o ltac:(lia))) as [P _].
    pose proof (po_seg _ _ _ P) as Hin. unfold page_seg in Hin |- *. by rewrite <- Es.
  - destruct (blocks_nested a (o + 1) m2 k2 (a + 2 ^ o) ltac:(lia) Hal (bo_align _ _ _ _ K2))
      as [? ?]; [apply Hh; right; apply block_head; lia | done |].
    destruct (heads_apart segs s a o m2 k2 a Hinv H1 H2) as [_ ?]; [apply block_head; lia | | lia].
      unfold block. lia.
Qed.

(** A free run that is aligned lies in one block, whichever state the block is
    taken from. *)
Lemma head_in_block s s' m o :
  inv segs s -> inv segs s' -> (forall j, is_free s j -> is_free s' j) ->
  (forall j, m_segind (pages s' j) = m_segind (pages s j)) -> is_head s m o ->
  exists m' o', is_head s' m' o' /\ o <= o' /\ block m' o' m.
Proof.
  intros Hinv Hinv' Hf Hs Hh. pose proof (inv_block _ _ Hinv _ _ Hh) as Hb.
  pose proof (bo_order _ _ _ _ Hb).
  destruct (run_in_block (Z.to_nat o) m s' Hinv') as (m' & o' & Hh' & Ho' & Hm');
    rewrite ?Z2Nat.id in * by lia; [lia | apply Hb | | by exists m', o'].
  intros j Hj. rewrite !Hs. split; [apply Hf; by exists m, o | by apply Hb].
Qed.

(** Blocks are as large as they can be: the free pages determine them. *)
Lemma heads_determined s s' m o :
  inv segs s -> inv segs s' -> (forall j, is_free s j <-> is_free s' j) ->
  (forall j, m_segind (pages s' j) = m_segind (pages s j)) -> is_head s m o -> is_head s' m o.
Proof.
  intros Hinv Hinv' Hf Hs Hh.
  destruct (head_in_block s s' m o Hinv Hinv') as (m1 & o1 & H1 & L1 & B1); [by apply Hf | done | done|].
  destruct (head_in_block s' s m1 o1 Hinv' Hinv) as (m2 & o2 & H2 & L2 & B2); [by apply Hf | done | done|].
  pose proof (inv_block _ _ Hinv' _ _ H1) as K1. pose proof (inv_block _ _ Hinv _ _ H2) as K2.
  pose proof (bo_order _ _ _ _ K1). pose proof (bo_order _ _ _ _ K2).
  destruct (blocks_nested m1 o1 m2 o2 m1) as [? ?]; [lia | apply K1 | apply K2 | apply block_head; lia | done|].
  destruct (heads_apart segs s m o m2 o2 m Hinv Hh H2) as [-> ->].
  { apply block_head. destruct Hh. lia. }
  { unfold block in *. lia. }
  assert (o1 = o2) as -> by lia. assert (m1 = m2) as <- by (unfold block in *; lia). done.
Qed.

(** So a list without a block of the order has no such run. *)
Lemma list_lacks_run s domain flind o a :
  inv segs s -> 0 <= o < 13 -> list_lacks s domain flind o -> a mod 2 ^ o = 0 ->
  in_list s domain flind a ->
  (forall j, block a o j -> m_segind (pages s j) = m_segind (pages s a)) ->
  ~ (forall j, block a o j -> is_free s j).
Proof.
  intros Hinv Ho Hlack Hal Hl Hseg Hrun.
  destruct (run_in_block (Z.to_nat o) a s Hinv) as (m & k & Hh & Hk & Hb);
    rewrite ?Z2Nat.id in * by lia; try done; try lia.
  { intros j Hj. split; [by apply Hrun | by apply Hseg]. }
  assert (k < o); [|lia]. apply (Hlack m k Hh). unfold in_list, page_seg in *.
  destruct (bo_pages _ _ _ _ (inv_block _ _ Hinv m k Hh) a Hb) as (_ & _ & <-). done.
Qed.

(** ** Allocation over lists and domains *)

Lemma alloc_flinds_ok n domain p o s : forall flind,
  inv segs s -> 0 <= flind -> 0 <= p < 2 -> 0 <= o < 13 ->
  exists r s', alloc_flinds n domain flind p o s = Ok (r, s') /\
    match r with
    | Some m => allocated s s' m o /\ pool s' m = p
    | None => s' = s /\ forall f, flind <= f < flind + Z.of_nat n -> list_lacks s domain f o
    end.
Proof.
  induction n as [|n IH]; intros flind Hinv Hfl Hp Ho; cbn [alloc_flinds].
  { exists None, s. split; [done|]. split; [done | lia]. }
  destruct (alloc_domain_ok domain flind p o s Hinv Hfl Hp Ho) as (r & s1 & -> & Hr). rewrite bind_Ok.
  destruct r as [m|].
  - exists (Some m), s1. split; [done|]. by destruct Hr as (? & ? & _).
  - destruct Hr as [-> Hlack].
    destruct (IH (flind + 1) Hinv ltac:(lia) Hp Ho) as (r & s' & -> & Hr'). exists r, s'. split; [done|].
    destruct r as [m|]; [done|]. destruct Hr' as [-> Hlack']. split; [done|]. intros f Hf.
    destruct (decide (f = flind)) as [->|]; [done|]. apply Hlack'. lia.
Qed.

(** The domains are tried in order. *)
Lemma alloc_domains_ok (try : Z -> phys -> result (option Z * phys)) (got : phys -> Z -> Prop)
    (lacks : Z -> Prop) s domains :
  (forall domain, exists r s', try domain s = Ok (r, s') /\
    match r with Some m => got s' m | None => s' = s /\ lacks domain end) ->
  exists r s', alloc_domains try domains s = Ok (r, s') /\
    match r with
    | Some m => got s' m
    | None => s' = s /\ forall domain, domain ∈ domains -> lacks domain
    end.
Proof.
  intros Htry. induction domains as [|domain domains IH]; cbn [alloc_domains].
  { exists None, s. split; [done|]. split; [done|]. by intros d ?%elem_of_nil. }
  destruct (Htry domain) as (r & s1 & -> & Hr). rewrite bind_Ok. destruct r as [m|].
  - by exists (Some m), s1.
  - destruct Hr as [-> Hl]. destruct IH as (r & s' & -> & Hr'). exists r, s'. split; [done|].
    destruct r as [m|]; [done|]. destruct Hr' as [-> Hl']. split; [done|].
    by intros d [->|Hd]%elem_of_cons; [|apply Hl'].
Qed.

Lemma alloc_pages_ok nfl domains p o s :
  inv segs s -> 0 <= p < 2 -> 0 <= o < 13 ->
  exists r s', vm_phys_alloc_pages nfl domains p o s = Ok (r, s') /\
    match r with
    | Some m => allocated s s' m o /\ pool s' m = p
    | None => s' = s /\ forall d f, d ∈ domains -> 0 <= f < nfl -> list_lacks s d f o
    end.
Proof.
  intros Hinv Hp Ho. unfold vm_phys_alloc_pages.
  change VM_NFREEPOOL with 2. change VM_NFREEORDER with 13.
  rewrite !require_true by (apply Z.ltb_lt; lia). rewrite !bind_Ok.
  destruct (alloc_domains_ok
    (fun domain s => alloc_flinds (Z.to_nat nfl) domain 0 p o s)
    (fun s' m => allocated s s' m o /\ pool s' m = p)
    (fun d => forall f, 0 <= f < nfl -> list_lacks s d f o) s domains) as (r & s' & E & Hr).
  - intros d. destruct (alloc_flinds_ok (Z.to_nat nfl) d p o s 0 Hinv ltac:(done) Hp Ho) as (r & s' & -> & Hr).
    exists r, s'. split; [done|]. destruct r as [m|]; [done|]. destruct Hr as [-> Hl].
    split; [done|]. intros f Hf. apply Hl. lia.
  - exists r, s'. split; [done|]. destruct r as [m|]; [done|]. destruct Hr as [-> Hl].
    split; [done|]. intros d f Hd. by apply Hl.
Qed.

Lemma alloc_freelist_pages_ok to_flind domains fl p o s :
  inv segs s -> fl < 3 -> 0 <= to_flind fl -> 0 <= p < 2 -> 0 <= o < 13 ->
  exists r s', vm_phys_alloc_freelist_pages to_flind domains fl p o s = Ok (r, s') /\
    match r with
    | Some m => allocated s s' m o /\ pool s' m = p /\ exists d, in_list s' d (to_flind fl) m
    | None => s' = s /\ forall d, d ∈ domains -> list_lacks s d (to_flind fl) o
    end.
Proof.
  intros Hinv Hfl Hfi Hp Ho. unfold vm_phys_alloc_freelist_pages.
  change VM_NFREEPOOL with 2. change VM_NFREEORDER with 13. change VM_NFREELIST with 3.
  rewrite !require_true by (apply Z.ltb_lt; lia). rewrite !bind_Ok.
  apply (alloc_domains_ok
    (fun domain s => vm_phys_alloc_domain_pages domain (to_flind fl) p o s)
    (fun s' m => allocated s s' m o /\ pool s' m = p /\ exists d, in_list s' d (to_flind fl) m)
    (fun d => list_lacks s d (to_flind fl) o)).
  intros d. destruct (alloc_domain_ok d (to_flind fl) p o s Hinv Hfi Hp Ho) as (r & s' & -> & Hr).
  exists r, s'. split; [done|]. destruct r as [m|]; [|done]. destruct Hr as (? & ? & ?).
  split_and!; try done. by exists d.
Qed.
End alloc.

(** * Taking a given page

    [vm_phys_unfree_page] finds the block of a free page from its address and
    gives back the halves that do not contain the page. *)

(** Clearing the low bits of a 64-bit address. *)
Lemma high_mask_addr m o :
  0 <= o -> 0 <= m < 2 ^ 52 ->
  Z.land (ptoa m) (u64 (Z.shiftl (2 ^ 64 - 1) (PAGE_SHIFT + o))) = ptoa (align m o).
Proof.
  intros Ho Hm. rewrite <- align_addr by done. set (k := PAGE_SHIFT + o).
  assert (0 <= k) as Hk by (unfold k, PAGE_SHIFT; lia).
  change (2 ^ 64 - 1) with (Z.ones 64). rewrite shiftl_1.
  replace (2 ^ k - 1) with (Z.ones k) by (rewrite Z.ones_equiv; lia).
  assert (0 <= ptoa m < 2 ^ 64) as Hp by (rewrite ptoa_eq; lia).
  apply Z.bits_inj'. intros n Hn. rewrite !Z.land_spec. unfold u64.
  destruct (Z.lt_ge_cases n 64).
  - rewrite Z.mod_pow2_bits_low by lia. rewrite Z.shiftl_spec, Z.lnot_spec by lia. f_equal.
    rewrite !Z.testbit_ones by lia. apply eq_iff_eq_true.
    rewrite andb_true_iff, negb_true_iff, andb_false_iff, !Z.leb_le, Z.leb_gt, Z.ltb_lt, Z.ltb_ge.
    lia.
  - rewrite <- (Z.mod_small (ptoa m) (2 ^ 64)) by done. by rewrite Z.mod_pow2_bits_high by lia.
Qed.

Section take.
Context (segs : list vm_phys_seg) (Hsegs : segs_ok segs).

(** ** Finding the block *)

(** The block of a free page is found by aligning the page to its order. *)
Lemma free_block s m :
  inv segs s -> is_free s m -> exists k, 0 <= k < 13 /\ is_head s (align m k) k /\ block (align m k) k m.
Proof.
  intros Hinv (h & k & Hh & Hb). pose proof (inv_block _ _ Hinv h k Hh) as Hbk.
  destruct Hbk as [Hk Hal _ _]. exists k. by rewrite (align_eq m k h) by (done || lia).
Qed.

(** Below the order of the block the aligned pages are not heads, or are the
    head of the block. *)
Lemma align_inside s m k o :
  inv segs s -> is_head s (align m k) k -> 0 <= o <= k ->
  ord s (align m o) = 13 \/ align m o = align m k.
Proof.
  intros Hinv Hh Ho. destruct Hh as [E Hk].
  pose proof (align_bounds m o ltac:(lia)) as Bo. pose proof (align_bounds m k ltac:(lia)) as Bk.
  destruct (blocks_nested (align m o) o (align m k) k m) as [H1 H2]; try done;
    [apply align_mod; lia | apply align_mod; lia |].
  destruct (decide (align m o = align m k)) as [|Hne]; [by right|]. left.
  pose proof (pow2_pos o ltac:(lia)).
  apply (bo_inner _ _ _ _ (inv_block segs s Hinv (align m k) k (conj E Hk))). lia.
Qed.

Definition looked_at (s : phys) (m o : Z) : Prop :=
  forall o', 0 <= o' < o -> ord s (align m o') = 13.

Lemma find_set_spec n : forall o s m,
  inv segs s -> page_ok segs s m -> 0 <= o -> o + Z.of_nat n = 12 -> looked_at s m o ->
  match find_set n (page_seg segs s m) m (align m o) o s with
  | None => ~ is_free s m
  | Some (h, o') => h = align m o' /\ o <= o' <= 12 /\ looked_at s m o' /\
      (ord s h = 13 -> o' = 12)
  end.
Proof.
  induction n as [|n IH]; intros o s m Hinv Hm Ho Hn Hlook; cbn [find_set].
  { split; [done|]. split; [lia|]. split; [done | lia]. }
  change VM_NFREEORDER with 13. destruct (Z.eqb_spec (ord s (align m o)) 13) as [E|E].
  2: { split; [done|]. split; [lia|]. by split. }
  pose proof (page_seg_ok segs s m Hsegs Hm) as Hseg.
  pose proof (page_frame_range segs Hsegs s m Hm) as Hr.
  unfold VM_PAGE_TO_PHYS. rewrite (po_addr _ _ _ Hm), high_mask_addr, seg_page_addr by (done || lia).
  assert (looked_at s m (o + 1)) as Hlook'.
  { intros o' Ho'. destruct (decide (o' = o)) as [->|]; [done|]. apply Hlook. lia. }
  destruct (Z.leb_spec (seg_start (page_seg segs s m)) (ptoa (align m (o + 1)))) as [Hle|Hlt].
  - specialize (IH (o + 1) s m Hinv Hm ltac:(lia) ltac:(lia) Hlook').
    destruct (find_set n _ m _ (o + 1) s) as [[h o']|]; [|done].
    destruct IH as (-> & ? & ? & ?). split; [done|]. split; [lia | done].
  - intros Hf. destruct (free_block s m Hinv Hf) as (k & Hk & Hh & Hb).
    destruct (Z.lt_ge_cases k (o + 1)) as [Hko|Hko].
    + destruct Hh as [E' _]. rewrite Hlook' in E' by lia. lia.
    + pose proof (align_bounds m (o + 1) ltac:(lia)) as Ba.
      destruct (blocks_nested (align m (o + 1)) (o + 1) (align m k) k m) as [H1 _];
        try done; try lia; [apply align_mod; lia | apply align_mod; lia |].
      destruct (bo_pages _ _ _ _ (inv_block _ _ Hinv _ _ Hh) m Hb) as (_ & _ & E1).
      destruct (bo_pages _ _ _ _ (inv_block _ _ Hinv _ _ Hh) (align m k)) as (P & _ & _);
        [apply block_head; lia|].
      destruct (po_seg _ _ _ P) as [_ Hlo]. unfold page_seg in *. rewrite <- E1 in Hlo.
      rewrite (so_start _ Hseg), ptoa_lt in Hlt. lia.
Qed.

(** ** Extracting the page *)

Lemma queue_of_block s m k j :
  block_ok segs s m k -> block m k j -> queue_of segs s j = queue_of segs s m.
Proof.
  intros Hb Hj. destruct (bo_pages _ _ _ _ Hb j Hj) as (_ & E1 & E2).
  unfold queue_of, page_seg. by rewrite E1, E2.
Qed.

(** One half of a block in use is freed, the other stays in use. *)
Lemma free_half s m o a b :
  inv segs s -> busy segs s m (o + 1) -> 0 <= o ->
  (a = m /\ b = m + 2 ^ o) \/ (a = m + 2 ^ o /\ b = m) ->
  let s' := vm_freelist_add (queue_of segs s m) b o false s in
  inv segs s' /\ busy segs s' a o /\ upto_order s s' /\ counts s' = counts s /\
  (forall x, x <> b -> ord s' x = ord s x) /\
  (forall j, is_free s' j <-> is_free s j \/ block b o j).
Proof.
  intros Hinv Hb Ho Hab s'. destruct (busy_split segs s m o Ho Hb) as [Hlo Hhi].
  pose proof (bu_block _ _ _ _ Hb) as Hbk. pose proof (pow2_pos o Ho) as HP.
  pose proof (bo_order _ _ _ _ Hbk) as Hor.
  assert (busy segs s a o /\ busy segs s b o /\ buddy b o = a /\ queue_of segs s b = queue_of segs s m)
    as (Ha & Hb' & Ebud & Eq).
  { pose proof (buddy_low m o Ho (bo_align _ _ _ _ Hbk)) as El.
    destruct Hab as [[-> ->]|[-> ->]].
    - split; [done|]. split; [done|]. split; [by rewrite <- El, buddy_invol|].
      apply (queue_of_block s m (o + 1)); [done|]. apply block_halves; [done|]. right.
      by apply block_head.
    - by split_and!. }
  unfold s'. rewrite <- Eq.
  destruct (freelist_add_ok segs b o false s Hsegs Hinv Hb') as (Hinv' & Hup & Hc & Hord & Hf).
  { intros _ _. rewrite Ebud, (bu_order _ _ _ _ Ha). lia. }
  assert (forall j, block a o j -> ~ block b o j) as Hapart.
  { intros j. destruct Hab as [[-> ->]|[-> ->]]; unfold block; lia. }
  split; [done|]. split; [|by split_and!].
  apply (busy_same segs s); [done | |].
  - intros j Hj. apply upto_order_same; [done|]. apply Hord. intros ->.
    apply (Hapart b Hj). by apply block_head.
  - intros j Hj [Hx|Hx]%Hf; [by apply (bu_used _ _ _ _ Ha j) | by apply (Hapart j)].
Qed.

Lemma extract_ok n : forall h s m,
  inv segs s -> busy segs s h (Z.of_nat n) -> block h (Z.of_nat n) m ->
  exists s', extract n (page_seg segs s h) (queue_of segs s h) m h (Z.of_nat n) s = (m, s') /\
    inv segs s' /\ busy segs s' m 0 /\ upto_order s s' /\ counts s' = counts s /\
    (forall x, ~ block h (Z.of_nat n) x -> ord s' x = ord s x) /\
    (forall j, is_free s' j <-> is_free s j \/ (block h (Z.of_nat n) j /\ j <> m)).
Proof.
  induction n as [|n IH]; intros h s m Hinv Hb Hm; cbn [extract].
  { assert (h = m) as -> by (unfold block in Hm; simpl in Hm; lia). exists s.
    split_and!; try done; [apply upto_order_refl|]. intros j. unfold block. simpl. split; [by left|].
    intros [?|?]; [done | lia]. }
  replace (Z.of_nat (S n) - 1) with (Z.of_nat n) by lia.
  replace (Z.of_nat (S n)) with (Z.of_nat n + 1) in * by lia. set (o := Z.of_nat n) in *.
  assert (0 <= o) as Ho by lia. pose proof (pow2_pos o Ho) as HP. pose proof (pow2_succ o Ho) as E2.
  pose proof (bu_block _ _ _ _ Hb) as Hbk. pose proof (block_head h (o + 1) ltac:(lia)) as Hhh.
  destruct (bo_pages _ _ _ _ Hbk m Hm) as (Pm & _ & _).
  destruct (bo_pages _ _ _ _ Hbk h Hhh) as (Ph & _ & _).
  pose proof (page_seg_ok segs s h Hsegs Ph) as Hseg.
  unfold VM_PAGE_TO_PHYS. rewrite (po_addr _ _ _ Pm), (po_addr _ _ _ Ph), buddy_addr by done.
  rewrite seg_page_addr, buddy_low by (done || apply Hbk).
  (* the half [a] that is kept and the half [b] that is freed *)
  assert (forall a b, (a = h /\ b = h + 2 ^ o) \/ (a = h + 2 ^ o /\ b = h) -> block a o m ->
    let s1 := vm_freelist_add (queue_of segs s h) b o false s in
    exists s', extract n (page_seg segs s h) (queue_of segs s h) m a o s1 = (m, s') /\
      inv segs s' /\ busy segs s' m 0 /\ upto_order s s' /\ counts s' = counts s /\
      (forall x, ~ block h (o + 1) x -> ord s' x = ord s x) /\
      (forall j, is_free s' j <-> is_free s j \/ (block h (o + 1) j /\ j <> m))) as Hstep.
  { intros a b Hab Ham s1.
    destruct (free_half s h o a b Hinv Hb Ho Hab) as (Hinv1 & Ha1 & Hup1 & Hc1 & Ho1 & Hf1).
    fold s1 in Hinv1, Ha1, Hup1, Hc1, Ho1, Hf1.
    assert (block h (o + 1) a /\ block h (o + 1) b) as [Hha Hhb].
    { rewrite !block_halves by done. pose proof (block_head h o Ho).
      pose proof (block_head (h + 2 ^ o) o Ho). destruct Hab as [[-> ->]|[-> ->]]; tauto. }
    destruct (IH a s1 m Hinv1 Ha1 Ham) as (s' & E & Hinv' & Hb' & Hup' & Hc' & Ho' & Hf').
    exists s'. split.
    { rewrite <- E. fold o. f_equal.
      - rewrite (upto_order_page_seg segs s s1) by done. unfold page_seg.
        by destruct (bo_pages _ _ _ _ Hbk a Hha) as (_ & _ & ->).
      - rewrite (upto_order_queue segs s s1) by done. symmetry. by apply (queue_of_block s h (o + 1)). }
    split; [done|]. split; [done|]. split; [by apply (upto_order_trans s s1)|].
    split; [congruence|]. fold o in Ho', Hf'.
    assert (forall j, block h (o + 1) j <-> block a o j \/ block b o j) as Hsum.
    { intros j. rewrite block_halves by done. destruct Hab as [[-> ->]|[-> ->]]; tauto. }
    split.
    - intros x Hx. rewrite Hsum in Hx. rewrite Ho' by tauto. apply Ho1. intros ->.
      apply Hx. right. by apply block_head.
    - intros j. rewrite Hf', Hf1, Hsum.
      assert (block b o j -> j <> m).
      { intros Hj ->. destruct Hab as [[-> ->]|[-> ->]]; unfold block in *; lia. }
      tauto. }
  destruct (Z.ltb_spec (ptoa m) (ptoa (h + 2 ^ o))) as [Hlt|Hge].
  - apply (Hstep h (h + 2 ^ o)); [by left|]. rewrite ptoa_lt in Hlt. unfold block in *. lia.
  - apply (Hstep (h + 2 ^ o) h); [by right|]. rewrite ptoa_le in Hge. unfold block in *. lia.
Qed.

(** ** The call *)

(** The test after the search tells whether the page is free. *)
Lemma found_free s m h o :
  inv segs s -> h = align m o -> 0 <= o <= 12 -> looked_at s m o -> (ord s h = 13 -> o = 12) ->
  (is_free s m <-> o <= ord s h /\ ord s h <> 13).
Proof.
  intros Hinv -> Ho Hlook Hstop. pose proof (inv_order _ _ Hinv (align m o)) as Hr. split.
  - intros Hf. destruct (free_block s m Hinv Hf) as (k & Hk & Hh & Hb).
    destruct (Z.lt_ge_cases k o) as [Hko|Hko].
    { destruct Hh as [E _]. rewrite Hlook in E by lia. lia. }
    destruct (align_inside s m k o Hinv Hh ltac:(lia)) as [E|E].
    + specialize (Hstop E). assert (k = o) as -> by lia. destruct Hh as [E' _]. lia.
    + rewrite E. destruct Hh as [-> _]. lia.
  - intros [Hle Hne]. exists (align m o), (ord s (align m o)). split; [split; [done | lia]|].
    apply (block_shrink (align m o) o); [|unfold block; apply align_bounds; lia].
    lia.
Qed.

Lemma unfree_page_ok m s :
  inv segs s -> page_ok segs s m ->
  exists b s', vm_phys_unfree_page segs m s = Ok (b, s') /\
    ((b = true /\ allocated segs s s' m 0) \/ (b = false /\ s' = s /\ ~ is_free s m)).
Proof.
  intros Hinv Hm. unfold vm_phys_unfree_page. change VM_NFREEORDER with 13.
  pose proof (find_set_spec (Z.to_nat (13 - 1)) 0 s m Hinv Hm ltac:(lia) ltac:(lia)) as Hfind.
  assert (align m 0 = m) as E0 by (unfold align; rewrite Z.pow_0_r, Z.div_1_r; lia).
  rewrite E0 in Hfind.
  destruct (find_set _ _ m m 0 s) as [[h o]|].
  2: { exists false, s. split; [done|]. right. split_and!; try done. apply Hfind.
       intros o' Ho'. lia. }
  destruct Hfind as (Hh & Ho & Hlook & Hstop); [intros o' Ho'; lia|].
  pose proof (found_free s m h o Hinv Hh ltac:(lia) Hlook Hstop) as Hfree.
  pose proof (inv_order _ _ Hinv h) as Hr.
  destruct (Z.ltb_spec (ord s h) o).
  { exists false, s. split; [done|]. right. split_and!; try done. rewrite Hfree. lia. }
  destruct (Z.eqb_spec (ord s h) 13) as [E|E].
  { exists false, s. split; [done|]. right. split_and!; try done. rewrite Hfree. lia. }
  rewrite require_true by (apply Z.ltb_lt; lia). rewrite bind_Ok.
  set (k := ord s h) in *. assert (is_head s h k) as Hhk by (split; [done | lia]).
  assert (block h k m) as Hb.
  { apply (block_shrink h o); [lia|]. subst h. unfold block. apply align_bounds. lia. }
  pose proof (inv_block _ _ Hinv h k Hhk) as Hbk.
  destruct (bo_pages _ _ _ _ Hbk m Hb) as (_ & E1 & E2).
  assert (page_seg segs s m = page_seg segs s h) as Es by (unfold page_seg; by rewrite E2).
  destruct (freelist_rem_ok segs h k s Hinv Hhk) as (s0 & Er & Hinv0 & Hb0 & Hup & Hc & Hord & Hf).
  rewrite Es. change (seg_queues (page_seg segs s h) (pool s h)) with (queue_of segs s h).
  rewrite Er, bind_Ok.
  destruct (extract_ok (Z.to_nat k) h s0 m) as (s' & Ex & Hinv' & Hb' & Hup' & Hc' & Hord' & Hf');
    rewrite ?Z2Nat.id in * by lia; try done.
  rewrite (upto_order_page_seg segs s s0), (upto_order_queue segs s s0) in Ex by done.
  rewrite Ex, Z.eqb_refl. exists true, s'. split; [done|]. left. split; [done|].
  assert (forall j, block m 0 j <-> j = m) as B0 by (unfold block; intros; simpl; lia).
  assert (forall j, block h k j -> is_free s j) as Hblk by (intros j Hj; by exists h, k).
  split; [done | done | | | | congruence |].
  - intros j ->%B0. by apply Hblk.
  - intros j. rewrite Hf', Hf, B0. specialize (Hblk j).
    assert (j = m -> block h k j) by (by intros ->).
    assert (block h k j \/ ~ block h k j) by (unfold block; lia).
    assert (j = m \/ j <> m) by lia. tauto.
  - apply (same_static_trans s s0); by apply upto_order_static.
  - intros x Hx. apply upto_order_same; [by apply (upto_order_trans s s0)|].
    rewrite Hord', Hord; [done | |]; intros Hx'; apply Hx; [|by apply Hblk].
    rewrite Hx'. apply Hblk, block_head. lia.
Qed.
End take.
