(* ===== verification/PhysContig.v ===== *)
(** * Allocation of a contiguous run

    The run starts at a free block; one block is split, or several blocks of
    the largest order that follow one another are taken; the pages of the last
    block that are not needed are freed. *)

From S2P Require Import Prelude Phys PhysInv PhysFree PhysAlloc.

(** ** Bits of a request *)

Lemma roundup2_eq x k : 0 <= k -> roundup2 x (2 ^ k) = 2 ^ k * ((x + (2 ^ k - 1)) / 2 ^ k).
Proof. intros Hk. unfold roundup2. rewrite <- shiftl_1 at 2. by rewrite land_lnot_ones. Qed.

Lemma aligned_land x k : 0 <= k -> Z.land x (2 ^ k - 1) = 0 <-> x mod 2 ^ k = 0.
Proof.
  intros Hk. replace (2 ^ k - 1) with (Z.ones k) by (rewrite Z.ones_equiv; lia).
  by rewrite Z.land_ones.
Qed.

Lemma same_block_land x y k :
  0 <= k -> Z.land (Z.lxor x y) (Z.lnot (2 ^ k - 1)) = 0 <-> x / 2 ^ k = y / 2 ^ k.
Proof.
  intros Hk. replace (2 ^ k - 1) with (Z.ones k) by (rewrite Z.ones_equiv; lia).
  rewrite <- Z.ldiff_land, Z.ldiff_ones_r, <- !Z.shiftr_div_pow2 by done.
  rewrite Z.shiftr_lxor. split.
  - intros E. apply Z.lxor_eq_0_iff. rewrite Z.shiftl_mul_pow2 in E by done.
    pose proof (pow2_pos k Hk). nia.
  - intros ->. by rewrite Z.lxor_nilpotent, Z.shiftl_0_l.
Qed.

Lemma powerof2_inv x : 0 < x < 2 ^ 64 -> powerof2 x = true -> exists k, 0 <= k /\ x = 2 ^ k.
Proof.
  intros Hx E. unfold powerof2, u64 in E. rewrite Z.mod_small in E by lia.
  apply Z.eqb_eq in E. pose proof (Z.log2_nonneg x) as Hl.
  exists (Z.log2 x). split; [done|]. destruct (Z.log2_spec x ltac:(lia)) as [Hlo Hhi].
  destruct (decide (x = 2 ^ Z.log2 x)) as [|Hne]; [done|]. exfalso.
  assert (Z.log2 (x - 1) = Z.log2 x) as El.
  { apply Z.log2_unique; [done|]. rewrite Z.pow_succ_r in Hhi |- * by done. lia. }
  assert (2 ^ Z.log2 x <= x - 1) by lia.
  apply (f_equal (fun z => Z.testbit z (Z.log2 x))) in E.
  rewrite Z.land_spec, Z.bits_0, Z.bit_log2 in E by lia. rewrite <- El in E at 1.
  rewrite Z.bit_log2 in E by (pose proof (pow2_pos (Z.log2 x)); lia). done.
Qed.

Lemma contig_order_spec npages :
  0 < npages ->
  0 <= contig_order npages /\ (forall j, 0 <= j < contig_order npages -> 2 ^ j < npages) /\
  (contig_order npages < 31 -> npages <= 2 ^ contig_order npages).
Proof.
  intros Hn. unfold contig_order.
  destruct (search_spec 31 0 (fun order => negb (Z.shiftl 1 order <? npages))) as (H1 & H2 & H3).
  set (r := search _ _ _) in *. cbv beta in H2, H3. split; [lia|]. split.
  - intros j Hj. specialize (H2 j Hj). apply negb_false_iff, Z.ltb_lt in H2.
    by rewrite shiftl_1 in H2.
  - intros Hr. specialize (H3 ltac:(lia)). apply negb_true_iff, Z.ltb_ge in H3.
    by rewrite shiftl_1 in H3.
Qed.

Section contig.
Context (segs : list vm_phys_seg) (Hsegs : segs_ok segs).

(** ** The blocks that follow *)

(** The blocks of the largest order after [x], below the address [pa_end]. *)
Definition follows (seg : vm_phys_seg) (s : phys) (x pa_end : Z) : Prop :=
  forall k, 1 <= k -> ptoa (x + k * 2 ^ 12) < pa_end ->
    in_seg seg (x + k * 2 ^ 12) /\ ord s (x + k * 2 ^ 12) = 12.

Lemma run_end_spec fuel seg pa_end s : forall x,
  seg_ok seg -> pa_end - ptoa x <= Z.of_nat fuel * 2 ^ 24 -> (0 < fuel)%nat ->
  exists pa, run_end fuel seg (ptoa x) pa_end s = Ok pa /\
    (pa_end <= pa -> follows seg s x pa_end).
Proof.
  induction fuel as [|fuel IH]; intros x Hseg Hf Hpos; [lia|]. cbn [run_end].
  change (Z.shiftl 1 (PAGE_SHIFT + VM_NFREEORDER - 1)) with (2 ^ 12 * 2 ^ 12).
  assert (ptoa x + 2 ^ 12 * 2 ^ 12 = ptoa (x + 1 * 2 ^ 12)) as E1 by (rewrite !ptoa_eq; lia).
  rewrite E1. set (y := x + 1 * 2 ^ 12).
  assert (pa_end <= ptoa y -> follows seg s x pa_end) as Hend.
  { intros Hle k Hk Hlt. exfalso. unfold y in Hle. rewrite ptoa_eq in *. lia. }
  rewrite <- orb_assoc. destruct (Z.leb_spec pa_end (ptoa y)); cbn [orb].
  { exists (ptoa y). by split. }
  rewrite seg_range_addr, seg_page_addr by done. case_bool_decide as Hin; cbn [negb].
  2: { exists (ptoa y). split; [done | lia]. }
  change (VM_NFREEORDER - 1) with 12. destruct (Z.eqb_spec (ord s y) 12) as [Eo|]; cbn [negb].
  2: { exists (ptoa y). split; [done | lia]. }
  destruct (IH y Hseg) as (pa & -> & Hfol).
  { unfold y. rewrite ptoa_eq in *. lia. }
  { destruct fuel; [|lia]. rewrite ptoa_eq in *. unfold y in *. lia. }
  exists pa. split; [done|]. intros Hle k Hk Hlt.
  destruct (decide (k = 1)) as [->|]; [done|].
  replace (x + k * 2 ^ 12) with (y + (k - 1) * 2 ^ 12) in * by (unfold y; lia).
  apply Hfol; [done | lia | done].
Qed.

(** ** Whether a block satisfies the request *)

Definition fits (seg : vm_phys_seg) (npages low high alignment boundary m : Z) (s : phys) : Prop :=
  low <= ptoa m /\ ptoa (m + npages) <= high /\ Z.land (ptoa m) (alignment - 1) = 0 /\
  Z.land (Z.lxor (ptoa m) (ptoa (m + npages) - 1)) (Z.lnot (boundary - 1)) = 0 /\
  (13 <= contig_order npages -> follows seg s m (ptoa (m + npages))).

Lemma contig_fits_spec seg npages low high alignment boundary m s :
  seg_ok seg -> 0 < npages -> m_phys_addr (pages s m) = ptoa m ->
  exists b, contig_fits seg npages low high alignment boundary (contig_order npages) m s = Ok b /\
    (b = true -> fits seg npages low high alignment boundary m s).
Proof.
  intros Hseg Hn Hm. unfold contig_fits, VM_PAGE_TO_PHYS. rewrite Hm.
  assert (ptoa m + Z.shiftl npages PAGE_SHIFT = ptoa (m + npages)) as ->.
  { change (Z.shiftl npages PAGE_SHIFT) with (ptoa npages). rewrite !ptoa_eq. lia. }
  set (pa_end := ptoa (m + npages)). change VM_NFREEORDER with 13.
  assert (forall enough : bool, (enough = true -> 13 <= contig_order npages -> follows seg s m pa_end) ->
    enough && ((low <=? ptoa m) && (pa_end <=? high) && (Z.land (ptoa m) (alignment - 1) =? 0) &&
      (Z.land (Z.lxor (ptoa m) (pa_end - 1)) (Z.lnot (boundary - 1)) =? 0)) = true ->
    fits seg npages low high alignment boundary m s) as Hfits.
  { intros enough Hen [He [[[H1 H2]%andb_prop H3]%andb_prop H4]%andb_prop]%andb_prop.
    bool_to_prop. split_and!; try done. by apply Hen. }
  destruct (Z.leb_spec 13 (contig_order npages)) as [Hbig|Hsmall].
  - destruct (run_end_spec (S (Z.to_nat npages)) seg pa_end s m Hseg) as (pa & -> & Hfol); [|lia|].
    { unfold pa_end. rewrite !ptoa_eq. nia. }
    rewrite !bind_Ok. eexists. split; [done|]. apply Hfits. intros Hpa _. apply Hfol.
    by apply negb_true_iff, Z.ltb_ge in Hpa.
  - rewrite bind_Ok. eexists. split; [done|]. apply Hfits. lia.
Qed.

(** ** The search *)

Lemma queue_search_spec (f : Z -> result bool) (P : Z -> Prop) l :
  (forall m, m ∈ l -> exists b, f m = Ok b /\ (b = true -> P m)) ->
  exists r, queue_search f l = Ok r /\ forall m, r = Some m -> m ∈ l /\ P m.
Proof.
  induction l as [|x l IH]; intros Hf; cbn [queue_search]; [by exists None|].
  destruct (Hf x ltac:(by left)) as (b & -> & Hb). rewrite bind_Ok. destruct b.
  - exists (Some x). split; [done|]. intros m [= <-]. split; [by left | by apply Hb].
  - destruct IH as (r & -> & Hr); [intros m Hm; apply Hf; by right|].
    exists r. split; [done|]. intros m Hm. destruct (Hr m Hm). split; [by right | done].
Qed.

Lemma order_search_spec seg npages low high alignment boundary s n : forall o,
  inv segs s -> seg_ok seg -> 0 < npages -> 0 <= o -> o + Z.of_nat n = 13 ->
  exists r, order_search n seg
      (fun m => contig_fits seg npages low high alignment boundary (contig_order npages) m s) o s = Ok r /\
    forall m k, r = Some (m, k) -> o <= k < 13 /\ is_head s m k /\
      queue_of segs s m = seg_queues seg (pool s m) /\
      fits seg npages low high alignment boundary m s.
Proof.
  set (f := fun m => contig_fits _ _ _ _ _ _ _ m s).
  induction n as [|n IH]; intros o Hinv Hseg Hn Ho Hon; cbn [order_search]; [by exists None|].
  assert (forall p, exists r, queue_search f (pl (queues s (seg_queues seg p) o)) = Ok r /\
    forall m, r = Some m -> is_head s m o /\ queue_of segs s m = seg_queues seg (pool s m) /\
      fits seg npages low high alignment boundary m s) as Hq.
  { intros p. destruct (queue_search_spec f (fun m => fits seg npages low high alignment boundary m s)
      (pl (queues s (seg_queues seg p) o))) as (r & E & Hr).
    - intros m Hm. apply (inv_queue _ _ Hinv) in Hm as [Em _]; [|lia].
      assert (is_head s m o) as Hh by (split; [done | lia]).
      destruct (bo_pages _ _ _ _ (inv_block _ _ Hinv m o Hh) m (block_head m o Ho)) as (P & _ & _).
      apply contig_fits_spec; [done | done | apply P].
    - exists r. split; [done|]. intros m Em. destruct (Hr m Em) as [Hm Hfit].
      apply (inv_queue _ _ Hinv) in Hm as [Eo Eq]; [|lia].
      split; [split; [done | lia]|]. split; [|done]. rewrite <- Eq.
      unfold seg_queues, queue_of in *. injection Eq as _ _ ->. done. }
  change (Z.to_nat VM_NFREEPOOL) with 2%nat. cbn [pool_search].
  destruct (Hq 0) as (r0 & -> & H0). rewrite bind_Ok. destruct r0 as [m0|].
  { rewrite bind_Ok. eexists. split; [done|]. intros m k [= <- <-]. split; [lia | by apply H0]. }
  destruct (Hq (0 + 1)) as (r1 & -> & H1). rewrite bind_Ok. destruct r1 as [m1|].
  { rewrite bind_Ok. eexists. split; [done|]. intros m k [= <- <-]. split; [lia | by apply H1]. }
  rewrite bind_Ok. destruct (IH (o + 1) Hinv Hseg Hn ltac:(lia) ltac:(lia)) as (r & -> & Hr).
  exists r. split; [done|]. intros m k E. destruct (Hr m k E) as [? ?]. split; [lia | done].
Qed.

(** ** Taking the blocks *)

(** [c] free blocks of order [o] follow one another from [m]. *)
Definition blocks_from (seg : vm_phys_seg) (s : phys) (m o c : Z) : Prop :=
  forall i, 0 <= i < c -> is_head s (m + i * 2 ^ o) o /\
    queue_of segs s (m + i * 2 ^ o) = seg_queues seg (pool s (m + i * 2 ^ o)).

Lemma take_blocks_ok seg o c : forall m m_end fuel s,
  inv segs s -> 0 <= o < 13 -> blocks_from seg s m o (Z.of_nat c) ->
  (Z.of_nat c - 1) * 2 ^ o < m_end - m <= Z.of_nat c * 2 ^ o -> (c <= fuel)%nat ->
  exists s', take_blocks fuel seg m m_end o s = Ok s' /\ inv segs s' /\ upto_order s s' /\
    counts s' = counts s /\
    (forall x, ~ (m <= x < m + Z.of_nat c * 2 ^ o) -> ord s' x = ord s x) /\
    (forall j, is_free s' j <-> is_free s j /\ ~ (m <= j < m + Z.of_nat c * 2 ^ o)) /\
    (forall i, 0 <= i < Z.of_nat c -> busy segs s' (m + i * 2 ^ o) o).
Proof.
  induction c as [|c IH]; intros m m_end fuel s Hinv Ho Hbl Hend Hfuel.
  { exists s. split; [destruct fuel; cbn [take_blocks]; by ztest|].
    split; [done|]. split; [apply upto_order_refl|]. split; [done|]. split; [done|].
    split; [intros j; assert (~ (m <= j < m + Z.of_nat 0 * 2 ^ o)) by lia; tauto | lia]. }
  pose proof (pow2_pos o ltac:(lia)) as HP. destruct fuel as [|fuel]; [lia|].
  cbn [take_blocks]. ztest. rewrite shiftl_1.
  destruct (Hbl 0 ltac:(lia)) as [Hh Hq]. rewrite Z.mul_0_l, Z.add_0_r in Hh, Hq.
  destruct (freelist_rem_ok segs m o s Hinv Hh) as (s1 & E & Hinv1 & Hb1 & Hup1 & Hc1 & Ho1 & Hf1).
  destruct Hh as [Eo _]. rewrite Eo, <- Hq, E, bind_Ok.
  destruct (IH (m + 2 ^ o) m_end fuel s1 Hinv1 Ho) as
    (s' & E' & Hinv' & Hup' & Hc' & Ho' & Hf' & Hb'); [|lia | lia |].
  { intros i Hi. destruct (Hbl (i + 1) ltac:(lia)) as [[Eh Hr] Eq].
    replace (m + (i + 1) * 2 ^ o) with (m + 2 ^ o + i * 2 ^ o) in * by lia.
    rewrite (upto_order_queue segs s s1), (upto_order_pool s s1) by done.
    split; [|done]. split; [rewrite Ho1; [done | nia] | done]. }
  exists s'. split; [done|]. split; [done|]. split; [by apply (upto_order_trans s s1)|].
  split; [congruence|]. split; [|split].
  - intros x Hx. rewrite Ho' by nia. apply Ho1. nia.
  - intros j. rewrite Hf', Hf1. unfold block.
    assert ((m <= j < m + 2 ^ o) \/ (m + 2 ^ o <= j < m + 2 ^ o + Z.of_nat c * 2 ^ o) <->
      m <= j < m + Z.of_nat (S c) * 2 ^ o) by nia. tauto.
  - intros i Hi. destruct (decide (i = 0)) as [->|].
    + rewrite Z.mul_0_l, Z.add_0_r. apply (busy_same segs s1); [done | |].
      * intros j Hj. apply upto_order_same; [done|]. apply Ho'. unfold block in Hj. lia.
      * intros j Hj [Hx _]%Hf'. by apply (bu_used _ _ _ _ Hb1 j).
    + replace (m + i * 2 ^ o) with (m + 2 ^ o + (i - 1) * 2 ^ o) by lia. apply Hb'. lia.
Qed.

(** ** The run *)

(** The pages from [m] to [m + n] were free and are in use now. *)
Record taken (s s' : phys) (m n : Z) : Prop := Taken {
  tk_inv : inv segs s';
  tk_run : busy_run segs s' m n;
  tk_was j : m <= j < m + n -> is_free s j;
  tk_free j : is_free s' j <-> is_free s j /\ ~ (m <= j < m + n);
  tk_static : same_static s s';
  tk_counts : counts s' = counts s;
  tk_outside : same_outside (is_free s) s s';
}.

(** Some of the pages that were taken are freed again. *)
Lemma taken_freed s s1 s2 m n n' :
  0 <= n <= n' -> taken s s1 m n' -> freed segs s1 s2 (fun j => m + n <= j < m + n') ->
  taken s s2 m n.
Proof.
  intros Hn [I1 B1 W1 F1 S1 C1 O1] Hf. pose proof Hf as [I2 F2 S2 C2 O2].
  split; [done | | | | | congruence |].
  - apply (busy_run_freed segs s1 s2 m n' _ _ _ B1 Hf); lia.
  - intros j Hj. apply W1. lia.
  - intros j. rewrite F2, F1. cbv beta. specialize (W1 j).
    assert (m + n <= j < m + n' \/ ~ (m + n <= j < m + n')) by lia.
    assert (m <= j < m + n' <-> m <= j < m + n \/ m + n <= j < m + n') by lia.
    assert (m <= j < m + n -> ~ (m + n <= j < m + n')) by lia. tauto.
  - by apply (same_static_trans s s1).
  - apply (same_outside_trans _ _ _ s s1 s2 O1 O2). intros x. rewrite F1. cbv beta.
    assert (m + n <= x < m + n' -> is_free s x) by (intros; apply W1; lia). tauto.
Qed.

(** A part of a block in use. *)
Lemma busy_run_part s m o a n :
  busy segs s m o -> m <= a -> a + n <= m + 2 ^ o -> 0 < n -> busy_run segs s a n.
Proof.
  intros Hb Ha Hn Hpos. apply (busy_run_sub segs s s m (2 ^ o)); try done.
  - by apply block_busy_run.
  - intros j Hj. apply (bu_used _ _ _ _ Hb). unfold block. lia.
Qed.

(** Blocks of the largest order in a row. *)
Lemma blocks_busy_run s m c :
  0 <= c -> m mod 2 ^ 12 = 0 -> (forall i, 0 <= i < c -> busy segs s (m + i * 2 ^ 12) 12) ->
  busy_run segs s m (c * 2 ^ 12).
Proof.
  intros Hc Hm Hb.
  assert (forall j, m <= j < m + c * 2 ^ 12 -> exists i, 0 <= i < c /\
            busy segs s (m + i * 2 ^ 12) 12 /\ block (m + i * 2 ^ 12) 12 j /\ i = j / 2 ^ 12 - m / 2 ^ 12) as H.
  { intros j Hj. exists (j / 2 ^ 12 - m / 2 ^ 12). unfold block.
    assert (0 <= j / 2 ^ 12 - m / 2 ^ 12 < c /\ m + (j / 2 ^ 12 - m / 2 ^ 12) * 2 ^ 12 <= j <
      m + (j / 2 ^ 12 - m / 2 ^ 12) * 2 ^ 12 + 2 ^ 12) as [? ?] by (clear -Hm Hj; revert Hm Hj; dlia).
    split_and!; auto; lia. }
  split.
  - intros j (i & _ & Hi & Hji & _)%H. by apply Hi.
  - intros j k (i & _ & Hi & Hji & Ei)%H (i' & _ & _ & Hki & Ei')%H E.
    replace i' with i in Hki by lia.
    destruct (bo_pages _ _ _ _ (bu_block _ _ _ _ Hi) j Hji) as (_ & -> & ->).
    by destruct (bo_pages _ _ _ _ (bu_block _ _ _ _ Hi) k Hki) as (_ & -> & ->).
  - intros j (i & _ & Hi & Hji & _)%H. by apply (busy_order segs s _ _ _ Hi).
  - intros j (i & _ & Hi & Hji & _)%H. by apply (bu_used _ _ _ _ Hi).
Qed.

(** The pages kept for a request of order [order] and [npages] pages: a block
    of that order, or whole blocks of the order [o] of the queue. *)
Lemma run_length npages o order :
  0 < npages -> 0 <= o < 13 -> order = contig_order npages -> Z.min order 12 <= o ->
  let k := Z.min o order in
  let e := roundup2 npages (Z.shiftl 1 k) in
  exists c, e = Z.of_nat c * 2 ^ k /\ (Z.of_nat c - 1) * 2 ^ k < npages <= Z.of_nat c * 2 ^ k /\
    (0 < c <= Z.to_nat npages)%nat /\ 0 <= k < 13 /\ (order <= o -> c = 1%nat) /\ (o < order -> o = 12).
Proof.
  intros Hn Ho -> Hmin k e. destruct (contig_order_spec npages Hn) as (H0 & Hlow & Hup).
  set (order := contig_order npages) in *. assert (0 <= k < 13) as Hk by (unfold k; lia).
  pose proof (pow2_pos k ltac:(lia)) as HP.
  unfold e. rewrite shiftl_1, roundup2_eq by lia. set (q := (npages + (2 ^ k - 1)) / 2 ^ k).
  assert (2 ^ k * q <= npages + (2 ^ k - 1) < 2 ^ k * q + 2 ^ k) as Hq.
  { unfold q. pose proof (Z.div_mod (npages + (2 ^ k - 1)) (2 ^ k) ltac:(lia)).
    pose proof (Z.mod_pos_bound (npages + (2 ^ k - 1)) (2 ^ k) HP). lia. }
  assert (0 < q <= npages) as Hqr by nia.
  exists (Z.to_nat q). rewrite Z2Nat.id by lia. split; [lia|]. split; [lia|]. split; [lia|].
  split; [done|]. split; [|lia]. intros Hle. assert (k = order) as Ek by (unfold k; lia).
  specialize (Hup ltac:(lia)). rewrite <- Ek in Hup. assert (q = 1) by nia. lia.
Qed.

(** The first block goes to the default pool. *)
Lemma set_default_ok m o s :
  inv segs s -> busy segs s m o ->
  let s' := if negb (pool s m =? VM_FREEPOOL_DEFAULT)
            then vm_phys_set_pool VM_FREEPOOL_DEFAULT m o s else s in
  inv segs s' /\ busy segs s' m o /\ same_static s s' /\ counts s' = counts s /\
  same_outside (block m o) s s' /\ (forall j, is_free s' j <-> is_free s j).
Proof.
  intros Hinv Hb s'. unfold s'. destruct (Z.eqb_spec (pool s m) VM_FREEPOOL_DEFAULT); cbn [negb].
  - by split_and!.
  - destruct (set_pool_ok segs VM_FREEPOOL_DEFAULT m o s Hinv Hb) as
      (H1 & H2 & _ & H3 & H4 & H5 & _ & H6); [unfold VM_FREEPOOL_DEFAULT; lia|].
    by split_and!.
Qed.

(** From the blocks that were taken to the pages that are kept: the block is
    split, or the blocks are kept whole. *)
Lemma keep_blocks seg s m o order c npages :
  inv segs s -> 0 <= o < 13 -> 0 <= order -> 0 < npages -> (0 < c)%nat -> seg_ok seg ->
  let k := Z.min o order in
  (Z.of_nat c - 1) * 2 ^ k < npages <= Z.of_nat c * 2 ^ k ->
  (order <= o -> c = 1%nat) -> (o < order -> o = 12) -> blocks_from seg s m o (Z.of_nat c) ->
  (c <= Z.to_nat npages)%nat ->
  exists s1 s3, take_blocks (Z.to_nat npages) seg m (m + npages) o s = Ok s1 /\
    (let s2 := if negb (pool s1 m =? VM_FREEPOOL_DEFAULT)
               then vm_phys_set_pool VM_FREEPOOL_DEFAULT m o s1 else s1 in
     vm_phys_split_pages m o (seg_queues seg (pool s2 m)) order s2 = Ok s3) /\
    taken s s3 m (Z.of_nat c * 2 ^ k) /\
    (npages < Z.of_nat c * 2 ^ k -> busy_run segs s3 (m + npages) (Z.of_nat c * 2 ^ k - npages)).
Proof.
  intros Hinv Ho Hord Hnp Hc Hseg k Hr Hone H12 Hbl Hfuel.
  pose proof (pow2_pos o ltac:(lia)) as HP.
  assert ((Z.of_nat c - 1) * 2 ^ o < m + npages - m <= Z.of_nat c * 2 ^ o) as Hend.
  { destruct (Z.le_gt_cases order o) as [Hle|Hgt].
    - specialize (Hone Hle). subst c. pose proof (Z.pow_le_mono_r 2 k o). unfold k in *. lia.
    - replace k with o in Hr by (unfold k; lia). lia. }
  destruct (take_blocks_ok seg o c m (m + npages) (Z.to_nat npages) s Hinv Ho Hbl Hend Hfuel) as
    (s1 & E1 & Hinv1 & Hup1 & Hc1 & Ho1 & Hf1 & Hb1).
  pose proof (Hb1 0 ltac:(lia)) as Hm1. rewrite Z.mul_0_l, Z.add_0_r in Hm1.
  destruct (set_default_ok m o s1 Hinv1 Hm1) as (Hinv2 & Hm2 & Hst2 & Hc2 & Hout2 & Hf2).
  set (s2 := if negb (pool s1 m =? VM_FREEPOOL_DEFAULT) then _ else s1) in *.
  assert (same_static s s2) as Hst by (apply (same_static_trans s s1); [by apply upto_order_static | done]).
  assert (queue_of segs s2 m = seg_queues seg (pool s2 m)) as Hq.
  { destruct (Hbl 0 ltac:(lia)) as [_ Eq]. rewrite Z.mul_0_l, Z.add_0_r in Eq.
    unfold queue_of, seg_queues, page_seg in *. rewrite (proj1 (proj2 (Hst m))).
    by injection Eq as -> ->. }
  assert (forall j, block m o j -> m <= j < m + Z.of_nat c * 2 ^ o) as Hsub by (unfold block; nia).
  assert (forall j, m <= j < m + Z.of_nat c * 2 ^ o -> is_free s j) as Hwas.
  { intros j Hj. set (i := (j - m) / 2 ^ o).
    pose proof (Z.div_mod (j - m) (2 ^ o) ltac:(lia)) as Ed. fold i in Ed.
    pose proof (Z.mod_pos_bound (j - m) (2 ^ o) HP). assert (0 <= i < Z.of_nat c) as Hi by nia.
    destruct (Hbl i Hi) as [Hh _]. exists (m + i * 2 ^ o), o. split; [done|]. unfold block. lia. }
  assert (same_outside (is_free s) s s2) as Hout.
  { apply (same_outside_trans (is_free s) (block m o) _ s s1); [|done|].
    - intros x Hx. apply upto_order_same; [done|]. apply Ho1. intros Hx'. by apply Hx, Hwas.
    - intros x [?|Hx]; [done | by apply Hwas, Hsub]. }
  destruct (Z.le_gt_cases order o) as [Hle|Hgt].
  - specialize (Hone Hle). subst c. replace k with order in * by (unfold k; lia).
    rewrite !Z.mul_1_l in *.
    destruct (split_pages_ok segs m o order s2 Hsegs ltac:(lia) Hinv2 Hm2) as
      (s3 & E3 & Hinv3 & Hb3 & Hup3 & Hc3 & Ho3 & Hf3).
    exists s1, s3. split; [done|]. split; [by rewrite Hq in E3|].
    pose proof (fun j => block_shrink m order o j ltac:(lia)) as Hsh. unfold block in Hsh.
    split; [|intros; by apply (busy_run_part s3 m order); try lia].
    split; [done | | intros j Hj; apply Hwas; auto | | | congruence |].
    + by apply block_busy_run.
    + intros j. rewrite Hf3, Hf2, Hf1. unfold block. specialize (Hwas j). specialize (Hsh j).
      assert (m <= j < m + 2 ^ o \/ ~ (m <= j < m + 2 ^ o)) by lia. tauto.
    + apply (same_static_trans s s2); [done | by apply upto_order_static].
    + apply (same_outside_trans (is_free s) (block m o) _ s s2); [done | |].
      * intros x Hx. apply upto_order_same; [done | by apply Ho3].
      * intros x [?|Hx]; [done | by apply Hwas].
  - replace k with o in * by (unfold k; lia). exists s1, s2. split; [done|]. split.
    + cbv zeta. unfold vm_phys_split_pages. by replace (Z.to_nat (o - order)) with O by lia.
    + assert (o = 12) as E12 by lia. subst o.
      assert (busy_run segs s2 m (Z.of_nat c * 2 ^ 12)) as Hrun.
      { apply (blocks_busy_run s2 m (Z.of_nat c)); [lia | apply Hm2 |]. intros i Hi.
        destruct (decide (i = 0)) as [->|]; [by rewrite Z.mul_0_l, Z.add_0_r|].
        pose proof (Hb1 i Hi) as Hbi. apply (busy_same segs s1); [done | |].
        - intros j Hj. apply Hout2. unfold block in *. lia.
        - intros j Hj. rewrite Hf2. by apply (bu_used _ _ _ _ Hbi). }
      split; [split; try done; [intros j; by rewrite Hf2, Hf1 | congruence]|]. intros Hlt.
      apply (busy_run_sub segs s2 s2 m (Z.of_nat c * 2 ^ 12)); try done; [lia | lia|].
      intros j Hj. apply (br_used _ _ _ _ Hrun). lia.
Qed.

(** ** The calls *)

(** The blocks of a run that fits are free blocks of the segment's queues. *)
Lemma fits_blocks i s npages low high alignment boundary m o c :
  inv segs s -> 0 <= i < zlength segs -> is_head s m o ->
  let seg := aget no_seg segs i in
  queue_of segs s m = seg_queues seg (pool s m) ->
  fits seg npages low high alignment boundary m s ->
  (contig_order npages <= o -> c = 1%nat) -> (o < contig_order npages -> o = 12) ->
  (Z.of_nat c - 1) * 2 ^ Z.min o (contig_order npages) < npages ->
  blocks_from seg s m o (Z.of_nat c).
Proof.
  intros Hinv Hi Hh seg Hq (_ & _ & _ & _ & Hfol) Hone Ho12 Hc j Hj.
  destruct (decide (j = 0)) as [->|Hne]; [by rewrite Z.mul_0_l, Z.add_0_r|].
  destruct (Z.le_gt_cases (contig_order npages) o) as [Hle|Hgt].
  { specialize (Hone Hle). lia. }
  specialize (Ho12 Hgt). subst o. rewrite Z.min_l in Hc by lia.
  destruct (Hfol ltac:(lia) j ltac:(lia)) as [Hin Eo].
  { rewrite ptoa_lt. pose proof (pow2_pos 12). nia. }
  assert (is_head s (m + j * 2 ^ 12) 12) as Hhj by done. split; [done|].
  destruct (bo_pages _ _ _ _ (inv_block _ _ Hinv _ _ Hhj) _ (block_head _ 12 ltac:(lia))) as (P & _ & _).
  assert (m_segind (pages s (m + j * 2 ^ 12)) = i) as Es.
  { apply (ss_apart _ Hsegs _ _ (m + j * 2 ^ 12)); [apply P | done | apply P | done]. }
  unfold queue_of, page_seg. by rewrite Es.
Qed.

Lemma alloc_seg_contig_ok i npages low high alignment boundary s :
  inv segs s -> 0 <= i < zlength segs -> 0 < npages ->
  powerof2 alignment = true -> powerof2 boundary = true ->
  exists r s', vm_phys_alloc_seg_contig segs (aget no_seg segs i) npages low high alignment boundary s
      = Ok (r, s') /\
    match r with
    | Some m => taken s s' m npages /\ fits (aget no_seg segs i) npages low high alignment boundary m s
    | None => s' = s
    end.
Proof.
  intros Hinv Hi Hn Ha Hb. set (seg := aget no_seg segs i).
  assert (seg_ok seg) as Hseg by (by apply (ss_ok _ Hsegs)).
  unfold vm_phys_alloc_seg_contig. rewrite Ha, Hb, Z.gtb_ltb.
  rewrite !require_true by (done || (apply Z.ltb_lt; lia)). rewrite !bind_Ok.
  change (VM_NFREEORDER - 1) with 12. change VM_NFREEORDER with 13.
  destruct (contig_order_spec npages Hn) as (H0 & _ & _). set (order := contig_order npages) in *.
  destruct (order_search_spec seg npages low high alignment boundary s
    (Z.to_nat (13 - Z.min order 12)) (Z.min order 12) Hinv Hseg Hn ltac:(lia) ltac:(lia)) as (r & E & Hr).
  fold order in E. rewrite E, bind_Ok.
  destruct r as [[m o]|]; [|by exists None, s].
  destruct (Hr m o eq_refl) as (Ho & Hh & Hq & Hfit).
  destruct (run_length npages o order Hn ltac:(lia) eq_refl ltac:(lia)) as
    (c & Ee & Hce & Hcn & Hk & Hone & Ho12).
  pose proof (fits_blocks i s npages low high alignment boundary m o c Hinv Hi Hh Hq Hfit Hone Ho12
    (proj1 Hce)) as Hbl.
  destruct (keep_blocks seg s m o order c npages Hinv ltac:(lia) H0 Hn ltac:(lia) Hseg Hce Hone Ho12 Hbl
    ltac:(lia)) as (s1 & s3 & E1 & E3 & Htk & Hrest).
  rewrite E1, bind_Ok. cbv zeta in E3. rewrite E3, bind_Ok, Ee.
  set (e := Z.of_nat c * 2 ^ Z.min o order) in *.
  destruct (Z.ltb_spec npages e) as [Hlt|Hge].
  - destruct (free_contig_ok segs Hsegs (m + npages) (e - npages) s3) as (s' & E4 & Hf);
      [apply Htk | lia | intros; by apply Hrest |].
    rewrite E4, bind_Ok. exists (Some m), s'. split; [done|]. split; [|done].
    apply (taken_freed s s3 s' m npages e); [lia | done|].
    by replace (m + npages + (e - npages)) with (m + e) in Hf by lia.
  - rewrite bind_Ok. exists (Some m), s3. split; [done|]. split; [|done].
    by replace npages with e by lia.
Qed.

(** What the caller asked of the run. *)
Definition run_fits (npages low high alignment boundary m : Z) : Prop :=
  low <= ptoa m /\ ptoa (m + npages) <= high /\ Z.land (ptoa m) (alignment - 1) = 0 /\
  Z.land (Z.lxor (ptoa m) (ptoa (m + npages) - 1)) (Z.lnot (boundary - 1)) = 0.

Lemma contig_segs_ok domain npages low high alignment boundary s l : forall pre,
  pre ++ l = segs -> inv segs s -> 0 < npages -> powerof2 alignment = true -> powerof2 boundary = true ->
  exists r s', contig_segs segs l domain npages low high alignment boundary s = Ok (r, s') /\
    match r with
    | Some m => taken s s' m npages /\ run_fits npages low high alignment boundary m
    | None => s' = s /\ True
    end.
Proof.
  induction l as [|seg l IH]; intros pre Hpre Hinv Hn Ha Hb; cbn [contig_segs].
  { by exists None, s. }
  destruct (high <=? seg_start seg); [by exists None, s|].
  assert (pre ++ [seg] ++ l = segs) as Hpre' by done. rewrite app_assoc in Hpre'.
  specialize (IH (pre ++ [seg]) Hpre' Hinv Hn Ha Hb).
  destruct (_ || _); [done|].
  assert (aget no_seg segs (zlength pre) = seg) as Eseg.
  { apply aget_lookup; [unfold zlength; lia|]. rewrite <- Hpre. unfold zlength. rewrite Nat2Z.id.
    by rewrite lookup_app_r, Nat.sub_diag by lia. }
  destruct (alloc_seg_contig_ok (zlength pre) npages low high alignment boundary s Hinv) as
    (r & s1 & E & Hr); try done.
  { rewrite <- Hpre. unfold zlength. rewrite length_app. simpl. lia. }
  rewrite Eseg in E. rewrite E, bind_Ok. destruct r as [m|].
  - exists (Some m), s1. split; [done|]. destruct Hr as [Ht (F1 & F2 & F3 & F4 & _)].
    split; [done|]. by split_and!.
  - by subst s1.
Qed.

Lemma alloc_contig_ok domains npages low high alignment boundary s :
  inv segs s -> 0 < npages -> powerof2 alignment = true -> powerof2 boundary = true ->
  exists r s', vm_phys_alloc_contig segs domains npages low high alignment boundary s = Ok (r, s') /\
    match r with
    | Some m => taken s s' m npages /\ run_fits npages low high alignment boundary m
    | None => s' = s
    end.
Proof.
  intros Hinv Hn Ha Hb. unfold vm_phys_alloc_contig. rewrite Ha, Hb, Z.gtb_ltb.
  rewrite !require_true by (done || (apply Z.ltb_lt; lia)). rewrite !bind_Ok.
  destruct (high <=? low); [by exists None, s|].
  destruct (alloc_domains_ok
    (fun domain s => contig_segs segs segs domain npages low high alignment boundary s)
    (fun s' m => taken s s' m npages /\ run_fits npages low high alignment boundary m)
    (fun _ => True) s domains) as (r & s' & E & Hr).
  - intros d. by apply (contig_segs_ok d npages low high alignment boundary s segs []).
  - exists r, s'. split; [done|]. destruct r as [m|]; [done | apply Hr].
Qed.
End contig.
