(* ===== verification/PhysSeg.v ===== *)
(** * Memory segments and the start of the allocator

    The parts of src/sys/vm/vm_phys.c that build [vm_phys_segs] and the map
    from the VM_FREELIST_ constants to the free lists that exist, and the part
    of [vm_page_startup] (src/sys/vm/vm_page.c) that calls them and adds the
    pages of [phys_avail].

    [mem_affinity] is [None] for NULL; its entries are those before the one
    whose [end] is 0. An array of the segments has as many elements as
    [vm_phys_nsegs] says. *)

From S2P Require Import Prelude Phys.

Definition PAGE_SIZE : Z := Z.shiftl 1 PAGE_SHIFT.

(** struct mem_affinity. *)
Record mem_affinity := Affinity { ma_start : Z; ma_end : Z; ma_domain : Z }.

(** ** Segments *)

(** The [while] loop of [_vm_phys_create_seg] with [seg] at index [n]. *)
Fixpoint make_room (n : nat) (end_ : Z) (segs : list vm_phys_seg) : Z * list vm_phys_seg :=
  match n with
  | O => (0, segs)
  | S k =>
      let prev := aget no_seg segs (Z.of_nat k) in
      if end_ <=? seg_start prev then make_room k end_ (aset segs (Z.of_nat n) prev)
      else (Z.of_nat n, segs)
  end.

Definition create_seg (vm_ndomains start end_ domain : Z) (segs : list vm_phys_seg)
    : result (list vm_phys_seg) :=
  require (zlength segs <? VM_PHYSSEG_MAX) "vm_phys_create_seg: increase VM_PHYSSEG_MAX";;
  require (domain <? vm_ndomains) "vm_phys_create_seg: invalid domain provided";;
  let '(i, segs) := make_room (length segs) end_ (segs ++ [no_seg]) in
  let old := aget no_seg segs i in
  Ok (aset segs i (Seg start end_ (seg_first_page old) domain (seg_flind old))).

(** The [for] loop of [vm_phys_create_seg]. *)
Fixpoint create_affine (vm_ndomains : Z) (l : list mem_affinity) (start end_ : Z)
    (segs : list vm_phys_seg) : result (list vm_phys_seg) :=
  match l with
  | [] => Panic "Reached end of affinity info"
  | a :: l =>
      if ma_end a <=? start then create_affine vm_ndomains l start end_ segs
      else
        require (ma_start a <=? start) "No affinity info for start";;
        if end_ <=? ma_end a then create_seg vm_ndomains start end_ (ma_domain a) segs
        else
          segs ← create_seg vm_ndomains start (ma_end a) (ma_domain a) segs;
          create_affine vm_ndomains l (ma_end a) end_ segs
  end.

Definition vm_phys_create_seg (vm_ndomains : Z) (affinity : option (list mem_affinity))
    (start end_ : Z) (segs : list vm_phys_seg) : result (list vm_phys_seg) :=
  match affinity with
  | None => create_seg vm_ndomains start end_ 0 segs
  | Some l => create_affine vm_ndomains l start end_ segs
  end.

(** One of the splits of [vm_phys_add_seg]: the address that is left to add
    from. *)
Definition split_at (vm_ndomains : Z) (affinity : option (list mem_affinity)) (boundary paddr end_ : Z)
    (segs : list vm_phys_seg) : result (Z * list vm_phys_seg) :=
  if (paddr <? boundary) && (boundary <? end_) then
    segs ← vm_phys_create_seg vm_ndomains affinity paddr boundary segs;
    Ok (boundary, segs)
  else Ok (paddr, segs).

Definition vm_phys_add_seg (vm_ndomains : Z) (affinity : option (list mem_affinity)) (start end_ : Z)
    (segs : list vm_phys_seg) : result (list vm_phys_seg) :=
  require (Z.land start PAGE_MASK =? 0) "vm_phys_define_seg: start is not page aligned";;
  require (Z.land end_ PAGE_MASK =? 0) "vm_phys_define_seg: end is not page aligned";;
  '(paddr, segs) ← split_at vm_ndomains affinity VM_ISADMA_BOUNDARY start end_ segs;
  '(paddr, segs) ← split_at vm_ndomains affinity VM_DMA32_BOUNDARY paddr end_ segs;
  vm_phys_create_seg vm_ndomains affinity paddr end_ segs.

(** [mask] has a bit for each segment; it is a [long], whose bits above 62
    no segment has. *)
Fixpoint intersects_loop (n : nat) (segs : list vm_phys_seg) (mask low high : Z) : bool :=
  match n with
  | O => false
  | S n =>
      let idx := phys_ffsl mask in
      if idx =? 0 then false
      else
        let idx := idx - 1 in
        let mask := Z.land mask (Z.lnot (Z.shiftl 1 idx)) in
        let s := aget no_seg segs idx in
        if (low <? seg_end s) && (seg_start s <? high) then true
        else intersects_loop n segs mask low high
  end.

Definition vm_phys_domain_intersects (segs : list vm_phys_seg) (mask low high : Z) : bool :=
  intersects_loop 65 segs mask low high.

(** ** The free lists *)

(** The first loop of [vm_phys_init] for one segment: [npages] and the
    entries of [vm_freelist_to_flind]. *)
Definition mark_list (seg : vm_phys_seg) (st : Z * list Z) : Z * list Z :=
  let '(npages, flind) := st in
  if seg_end seg <=? VM_ISADMA_BOUNDARY then (npages, zset flind VM_FREELIST_ISADMA 1)
  else if (VM_DMA32_NPAGES_THRESHOLD <? npages) && (seg_end seg <=? VM_DMA32_BOUNDARY) then
    (npages, zset flind VM_FREELIST_DMA32 1)
  else (npages + atop (seg_end seg - seg_start seg), zset flind VM_FREELIST_DEFAULT 1).

(** The loop goes from the last segment to the first. *)
Definition mark_lists (segs : list vm_phys_seg) : Z * list Z :=
  fold_right mark_list (0, [0; 0; 0]) segs.

(** The running totals, from entry 1. *)
Definition running_total (flind : list Z) : list Z :=
  foreach (Z.to_nat (VM_NFREELIST - 1)) 1
    (fun freelist flind => zset flind freelist (zget flind freelist + zget flind (freelist - 1))) flind.

Definition less_one (flind : list Z) : list Z :=
  foreach (Z.to_nat VM_NFREELIST) 0 (fun freelist flind => zset flind freelist (zget flind freelist - 1))
    flind.

(** The free list of a segment. *)
Definition seg_freelist (seg : vm_phys_seg) : Z :=
  if seg_end seg <=? VM_ISADMA_BOUNDARY then VM_FREELIST_ISADMA
  else if seg_end seg <=? VM_DMA32_BOUNDARY then VM_FREELIST_DMA32
  else VM_FREELIST_DEFAULT.

(** PHYS_TO_VM_PAGE for the pages that [vm_page_array] has. *)
Definition PHYS_TO_VM_PAGE (first_page vm_page_array_size pa : Z) : option Z :=
  let pi := atop pa in
  if (first_page <=? pi) && (pi - first_page <? vm_page_array_size) then Some pi else None.

Definition NULL_page : Z := -1.

(** The third loop of [vm_phys_init]. No fictitious page exists yet, so that
    an address outside [vm_page_array] has no page. *)
Definition set_seg (first_page vm_page_array_size : Z) (flinds : list Z) (seg : vm_phys_seg)
    : result vm_phys_seg :=
  let flind := zget flinds (seg_freelist seg) in
  require (0 <=? flind) "vm_phys_init: flind < 0";;
  Ok (Seg (seg_start seg) (seg_end seg)
        (default NULL_page (PHYS_TO_VM_PAGE first_page vm_page_array_size (seg_start seg)))
        (seg_domain seg) flind).

Fixpoint set_segs (first_page vm_page_array_size : Z) (flinds : list Z) (segs : list vm_phys_seg)
    : result (list vm_phys_seg) :=
  match segs with
  | [] => Ok []
  | seg :: segs =>
      seg ← set_seg first_page vm_page_array_size flinds seg;
      segs ← set_segs first_page vm_page_array_size flinds segs;
      Ok (seg :: segs)
  end.

(** What [vm_phys_init] computes: [vm_nfreelists], [vm_freelist_to_flind] and
    the segments. *)
Definition vm_phys_init (first_page vm_page_array_size : Z) (segs : list vm_phys_seg)
    : result (Z * list Z * list vm_phys_seg) :=
  let '(_, flinds) := mark_lists segs in
  let flinds := running_total flinds in
  let vm_nfreelists := zget flinds (VM_NFREELIST - 1) in
  require (0 <? vm_nfreelists) "vm_phys_init: no free lists";;
  let flinds := less_one flinds in
  segs ← set_segs first_page vm_page_array_size flinds segs;
  Ok (vm_nfreelists, flinds, segs).

(** The queues of the lists, pools and orders that exist are empty; the others
    are those of static storage, with which they agree. *)
Definition empty_queues : flp -> Z -> vm_freelist := fun _ _ => FreeList [] 0.

(** ** The start of the system *)

(** [vm_phys_add_seg] for the ranges of [phys_avail]. *)
Fixpoint add_segs (vm_ndomains : Z) (affinity : option (list mem_affinity)) (phys_avail : list (Z * Z))
    (segs : list vm_phys_seg) : result (list vm_phys_seg) :=
  match phys_avail with
  | [] => Ok segs
  | (start, end_) :: phys_avail =>
      segs ← vm_phys_add_seg vm_ndomains affinity start end_ segs;
      add_segs vm_ndomains affinity phys_avail segs
  end.

(** The [while] loop over the pages of a range. *)
Fixpoint add_range (fuel : nat) (segs : list vm_phys_seg) (pa last_pa : Z) (s : phys) : result phys :=
  if pa <? last_pa then
    match fuel with
    | O => Panic "fuel"
    | S fuel =>
        s ← vm_phys_add_page segs pa s;
        add_range fuel segs (pa + PAGE_SIZE) last_pa s
    end
  else Ok s.

Fixpoint add_pages (segs : list vm_phys_seg) (phys_avail : list (Z * Z)) (s : phys) : result phys :=
  match phys_avail with
  | [] => Ok s
  | (start, end_) :: phys_avail =>
      s ← add_range (Z.to_nat (atop (end_ - start))) segs start end_ s;
      add_pages segs phys_avail s
  end.

(** [low_water] and [high_water]. *)
Definition water (segs : list vm_phys_seg) (phys_avail : list (Z * Z)) : Z * Z :=
  let step w p := (if p.1 <? w.1 then p.1 else w.1, if w.2 <? p.2 then p.2 else w.2) in
  let w := match phys_avail with [] => (0, 0) | p :: _ => p end in
  let w := fold_left step (map (fun seg => (seg_start seg, seg_end seg)) segs) w in
  fold_left step phys_avail w.

(** [bzero] of [vm_page_array] and the loop that sets the orders. *)
Definition cleared_page : page := MkPage 0 VM_NFREEORDER 0 0.

(** The first loop of [vm_page_startup]. *)
Definition round_page (x : Z) : Z := Z.land (x + PAGE_MASK) (Z.lnot PAGE_MASK).
Definition trunc_page (x : Z) : Z := Z.land x (Z.lnot PAGE_MASK).

Definition round_ranges (phys_avail : list (Z * Z)) : list (Z * Z) :=
  map (fun p => (round_page p.1, trunc_page p.2)) phys_avail.

(** [biggestone], as the number of the range: the first of the largest size. *)
Fixpoint biggest_from (l : list (Z * Z)) (i biggestone : nat) (biggestsize : Z) : nat :=
  match l with
  | [] => biggestone
  | (start, end_) :: l =>
      let size := end_ - start in
      if biggestsize <? size then biggest_from l (S i) i size
      else biggest_from l (S i) biggestone biggestsize
  end.

Definition biggestone (phys_avail : list (Z * Z)) : nat := biggest_from phys_avail 0 0 0.

(** [phys_avail[biggestone + 1] = new_end]. *)
Definition shorten (phys_avail : list (Z * Z)) (new_end : Z) : list (Z * Z) :=
  let i := biggestone phys_avail in
  match phys_avail !! i with
  | Some (start, _) => <[i := (start, new_end)]> phys_avail
  | None => phys_avail
  end.

(** The part of [vm_page_startup] that concerns the allocator. The start-up
    code takes its own memory, the page array included, from the end of the
    largest range: [new_end] is where that range then ends. The counts of the
    domain start at 0. *)
Definition page_startup (vm_ndomains : Z) (affinity : option (list mem_affinity))
    (phys_avail : list (Z * Z)) (new_end : Z) (segs : list vm_phys_seg)
    : result (Z * list Z * list vm_phys_seg * phys) :=
  let phys_avail := round_ranges phys_avail in
  let '(low_water, high_water) := water segs phys_avail in
  let first_page := low_water / PAGE_SIZE in
  let page_range := high_water / PAGE_SIZE - first_page in
  let phys_avail := shorten phys_avail new_end in
  segs ← add_segs vm_ndomains affinity phys_avail segs;
  '(vm_nfreelists, flinds, segs) ← vm_phys_init first_page page_range segs;
  let s := Phys (fun _ => cleared_page) empty_queues (Counts 0 0 0 0 0) in
  s ← add_pages segs phys_avail s;
  Ok (vm_nfreelists, flinds, segs, s).
