(* ===== verification/PhysBoot.v ===== *)
(** * The segments are well formed and the allocator starts in its invariant

    [layout segs]: the segments are page aligned, not empty, in the order of
    their addresses and apart, and none of them lies on both sides of the
    boundary of a free list. [covered segs pa]: the address is in a
    segment. *)

From stdpp Require Import sorting.
From S2P Require Import Prelude Phys PhysInv PhysFree PhysAlloc PhysContig PhysSeg.

(** ** Creation of segments *)

Definition within (start end_ pa : Z) : Prop := start <= pa < end_.

Definition no_cross (start end_ : Z) : Prop :=
  forall b, b = VM_ISADMA_BOUNDARY \/ b = VM_DMA32_BOUNDARY -> ~ (start < b < end_).

(** A range of whole pages. *)
Record range_ok (start end_ : Z) : Prop := RangeOk {
  ra_pages : exists a b, start = ptoa a /\ end_ = ptoa b /\ 0 <= a < b;
  ra_last : end_ <= 2 ^ 64;
}.

Record seg_wf (seg : vm_phys_seg) : Prop := SegWf {
  sw_range : range_ok (seg_start seg) (seg_end seg);
  sw_cross : no_cross (seg_start seg) (seg_end seg);
}.

Definition below (a b : vm_phys_seg) : Prop := seg_end a <= seg_start b.

Record layout (segs : list vm_phys_seg) : Prop := Layout {
  la_wf : Forall seg_wf segs;
  la_sorted : StronglySorted below segs;
}.

Definition covered (segs : list vm_phys_seg) (pa : Z) : Prop :=
  Exists (fun seg => within (seg_start seg) (seg_end seg) pa) segs.

Lemma range_lt start end_ : range_ok start end_ -> start < end_.
Proof. intros [(a & b & -> & -> & ?) _]. apply ptoa_lt. lia. Qed.

Lemma make_room_spec pre : forall end_ x suf,
  exists p1 p2 x', pre = p1 ++ p2 /\
    make_room (length pre) end_ (pre ++ x :: suf) = (zlength p1, p1 ++ x' :: p2 ++ suf) /\
    Forall (fun seg => end_ <= seg_start seg) p2 /\
    (p1 = [] \/ exists p0 y, p1 = p0 ++ [y] /\ seg_start y < end_).
Proof.
  induction pre as [|y pre IH] using rev_ind; intros end_ x suf.
  { exists [], [], x. split_and!; try done. by left. }
  rewrite length_app, Nat.add_1_r. cbn [make_room].
  assert (aget no_seg ((pre ++ [y]) ++ x :: suf) (Z.of_nat (length pre)) = y) as ->.
  { apply aget_lookup; [lia|]. rewrite Nat2Z.id, <- app_assoc.
    by rewrite lookup_app_r, Nat.sub_diag by lia. }
  destruct (Z.leb_spec end_ (seg_start y)).
  - assert (aset ((pre ++ [y]) ++ x :: suf) (Z.of_nat (S (length pre))) y = pre ++ y :: y :: suf) as ->.
    { unfold aset. ztest. rewrite Nat2Z.id, insert_app_r_alt by (rewrite length_app; simpl; lia).
      rewrite length_app, Nat.add_1_r, Nat.sub_diag. by rewrite <- app_assoc. }
    destruct (IH end_ y (y :: suf)) as (p1 & p2 & x' & -> & E & Hp2 & Hp1).
    exists p1, (p2 ++ [y]), x'. rewrite E. split; [by rewrite app_assoc|].
    split; [by rewrite <- app_assoc|]. split; [|done].
    apply Forall_app. split; [done | by repeat constructor].
  - exists (pre ++ [y]), [], x. rewrite app_nil_r. split_and!; try done.
    + unfold zlength. by rewrite length_app, Nat.add_1_r.
    + right. by exists pre, y.
Qed.

Lemma create_seg_eq nd start end_ d segs segs' :
  create_seg nd start end_ d segs = Ok segs' ->
  exists p1 p2 new, segs = p1 ++ p2 /\ segs' = p1 ++ new :: p2 /\
    seg_start new = start /\ seg_end new = end_ /\ seg_domain new = d /\ d < nd /\
    Forall (fun seg => end_ <= seg_start seg) p2 /\
    (p1 = [] \/ exists p0 y, p1 = p0 ++ [y] /\ seg_start y < end_).
Proof.
  unfold create_seg. destruct (_ <? VM_PHYSSEG_MAX); [|done]. cbn [require]. rewrite bind_Ok.
  destruct (Z.ltb_spec d nd); [|done]. cbn [require]. rewrite bind_Ok.
  destruct (make_room_spec segs end_ no_seg []) as (p1 & p2 & x' & -> & E & Hp2 & Hp1).
  rewrite E. cbv zeta. intros [= <-]. exists p1, p2. eexists. split; [done|]. split.
  { unfold aset. zcase; [unfold zlength in *; lia|]. unfold zlength.
    rewrite Nat2Z.id, insert_app_r_alt by lia. rewrite Nat.sub_diag, app_nil_r. done. }
  by split_and!.
Qed.

(** [segs'] has the addresses of [segs] and those from [start] to [end_]. *)
Record grown (segs segs' : list vm_phys_seg) (start end_ : Z) : Prop := Grown {
  gr_layout : layout segs';
  gr_covered pa : covered segs' pa <-> covered segs pa \/ within start end_ pa;
}.

Lemma seg_wf_lt seg : seg_wf seg -> seg_start seg < seg_end seg.
Proof. intros [Hr _]. by apply range_lt. Qed.

Lemma apart_seg segs start end_ seg :
  start < end_ -> (forall pa, within start end_ pa -> ~ covered segs pa) -> seg ∈ segs ->
  seg_wf seg -> seg_start seg < end_ -> seg_end seg <= start.
Proof.
  intros Hlt Hap Hin Hwf%seg_wf_lt Hs.
  destruct (Z.le_gt_cases (seg_end seg) start); [done|]. exfalso.
  apply (Hap (Z.max start (seg_start seg))); [unfold within; lia|].
  apply Exists_exists. exists seg. split; [done|]. unfold within. lia.
Qed.

Lemma covered_app l1 l2 pa : covered (l1 ++ l2) pa <-> covered l1 pa \/ covered l2 pa.
Proof. apply Exists_app. Qed.

Lemma covered_cons seg l pa :
  covered (seg :: l) pa <-> within (seg_start seg) (seg_end seg) pa \/ covered l pa.
Proof. apply Exists_cons. Qed.

Lemma create_seg_grown nd start end_ d segs segs' :
  layout segs -> range_ok start end_ -> no_cross start end_ ->
  (forall pa, within start end_ pa -> ~ covered segs pa) ->
  create_seg nd start end_ d segs = Ok segs' -> grown segs segs' start end_.
Proof.
  intros [Hwf Hso] Hra Hcr Hap H. pose proof (range_lt _ _ Hra) as Hlt.
  apply create_seg_eq in H as (p1 & p2 & new & -> & -> & <- & <- & _ & _ & Hp2 & Hp1).
  apply Forall_app in Hwf as [Hw1 Hw2]. apply StronglySorted_app in Hso as (Hb & Hs1 & Hs2).
  rewrite Forall_forall in Hw1, Hw2, Hp2.
  assert (forall z, z ∈ p1 -> seg_end z <= seg_start new) as Hl.
  { intros z Hz. destruct Hp1 as [->|(p0 & y & -> & Hy)]; [by apply elem_of_nil in Hz|].
    assert (seg_end y <= seg_start new) as Hye.
    { apply (apart_seg ((p0 ++ [y]) ++ p2) _ (seg_end new) y); try done; [|apply Hw1];
        rewrite ?elem_of_app, list_elem_of_singleton; auto. }
    apply elem_of_app in Hz as [Hz| ->%list_elem_of_singleton]; [|done].
    pose proof (StronglySorted_app_1_elem_of _ _ _ z y Hs1 Hz ltac:(by apply list_elem_of_singleton)) as Hzy.
    pose proof (seg_wf_lt y ltac:(apply Hw1, elem_of_app; right; by apply list_elem_of_singleton)).
    unfold below in Hzy. lia. }
  split; [split|].
  - apply Forall_forall. intros z Hz.
    apply elem_of_app in Hz as [Hz|[->|Hz]%elem_of_cons]; [by apply Hw1 | by split | by apply Hw2].
  - apply StronglySorted_app. split_and!; [|done|].
    + intros x y Hx [->|Hy]%elem_of_cons; [by apply Hl | by apply Hb].
    + constructor; [done|]. apply Forall_forall. exact Hp2.
  - intros pa. rewrite !covered_app, covered_cons. tauto.
Qed.

Lemma grown_trans segs1 segs2 segs3 a b c :
  a <= b -> b <= c -> grown segs1 segs2 a b -> grown segs2 segs3 b c -> grown segs1 segs3 a c.
Proof.
  intros Hab Hbc [_ H1] [L H2]. split; [done|]. intros pa. rewrite H2, H1.
  unfold within. assert (a <= pa < c <-> a <= pa < b \/ b <= pa < c) by lia. tauto.
Qed.

Definition whole_pages (affinity : option (list mem_affinity)) : Prop :=
  match affinity with
  | None => True
  | Some l => Forall (fun a => exists e, ma_end a = ptoa e) l
  end.

Lemma range_split start mid end_ e :
  range_ok start end_ -> mid = ptoa e -> start < mid < end_ -> range_ok start mid /\ range_ok mid end_.
Proof.
  intros [(a & b & -> & -> & ?) Hl] -> [H1%ptoa_lt H2%ptoa_lt]. rewrite !ptoa_eq in *.
  split; split; try lia; [exists a, e | exists e, b]; rewrite !ptoa_eq; lia.
Qed.

Lemma no_cross_split start mid end_ :
  no_cross start end_ -> start < mid < end_ -> no_cross start mid /\ no_cross mid end_.
Proof. intros H ?. split; intros b Hb ?; apply (H b Hb); lia. Qed.

(** After a range has been added, what is apart from both is still apart. *)
Lemma apart_rest segs segs' start mid end_ :
  start < mid < end_ -> grown segs segs' start mid ->
  (forall pa, within start end_ pa -> ~ covered segs pa) ->
  forall pa, within mid end_ pa -> ~ covered segs' pa.
Proof.
  intros Hm [_ Hg] Hap pa Hpa. rewrite Hg. unfold within in *. intros [Hc|?]; [|lia].
  apply (Hap pa); [lia | done].
Qed.

Lemma create_affine_grown nd end_ l : forall start segs segs',
  Forall (fun a => exists e, ma_end a = ptoa e) l ->
  layout segs -> range_ok start end_ -> no_cross start end_ ->
  (forall pa, within start end_ pa -> ~ covered segs pa) ->
  create_affine nd l start end_ segs = Ok segs' -> grown segs segs' start end_.
Proof.
  induction l as [|a l IH]; intros start segs segs' Hl Hla Hra Hcr Hap; cbn [create_affine]; [done|].
  apply Forall_cons in Hl as [[e He] Hl].
  destruct (Z.leb_spec (ma_end a) start); [by apply IH|].
  destruct (ma_start a <=? start); [|done]. cbn [require]. rewrite bind_Ok.
  destruct (Z.leb_spec end_ (ma_end a)); [by apply create_seg_grown|].
  intros (segs1 & E1 & E2)%bind_inv.
  destruct (range_split start (ma_end a) end_ e) as [R1 R2]; [done | done | lia|].
  destruct (no_cross_split start (ma_end a) end_) as [C1 C2]; [done | lia|].
  assert (grown segs segs1 start (ma_end a)) as G1.
  { eapply create_seg_grown; try done. intros pa Hpa. apply Hap. unfold within in *. lia. }
  eapply grown_trans; [| |exact G1|]; [lia | lia|].
  apply IH; try done; [apply G1|].
  apply (apart_rest segs segs1 start (ma_end a) end_); [lia | done | done].
Qed.

Lemma create_grown nd affinity start end_ segs segs' :
  whole_pages affinity -> layout segs -> range_ok start end_ -> no_cross start end_ ->
  (forall pa, within start end_ pa -> ~ covered segs pa) ->
  vm_phys_create_seg nd affinity start end_ segs = Ok segs' -> grown segs segs' start end_.
Proof.
  destruct affinity as [l|]; cbn [vm_phys_create_seg]; intros Hw;
    [by apply create_affine_grown | by apply create_seg_grown].
Qed.

(** A split leaves a range that does not cross the boundary, and does not
    start below an address that the range did not start below. *)
Lemma split_at_grown nd affinity boundary e start end_ segs paddr segs' :
  boundary = ptoa e ->
  whole_pages affinity -> layout segs -> range_ok start end_ ->
  (forall b, b = VM_ISADMA_BOUNDARY \/ b = VM_DMA32_BOUNDARY -> b < boundary -> ~ (start < b < end_)) ->
  (forall pa, within start end_ pa -> ~ covered segs pa) ->
  split_at nd affinity boundary start end_ segs = Ok (paddr, segs') ->
  layout segs' /\ range_ok paddr end_ /\ ~ (paddr < boundary < end_) /\ start <= paddr /\
  (forall pa, within paddr end_ pa -> ~ covered segs' pa) /\
  (forall segs'', grown segs' segs'' paddr end_ -> grown segs segs'' start end_).
Proof.
  intros Hb Hw Hla Hra Hcr Hap. unfold split_at.
  destruct (Z.ltb_spec start boundary), (Z.ltb_spec boundary end_); cbn [andb];
    [| intros [= <- <-]; split_and!; try done; lia ..].
  intros (segs1 & E & [= <- <-])%bind_inv.
  destruct (range_split start boundary end_ e) as [R1 R2]; [done | done | lia|].
  assert (grown segs segs1 start boundary) as G.
  { eapply create_grown; try done.
    - intros b' Hb' ?. apply (Hcr b' Hb'); lia.
    - intros pa Hpa. apply Hap. unfold within in *. lia. }
  split_and!; try done; try lia; [apply G| |].
  - apply (apart_rest segs segs1 start boundary end_); [lia | done | done].
  - intros segs'' G'. eapply grown_trans; [| |exact G|exact G']; lia.
Qed.

Lemma page_mask_aligned x : Z.land x PAGE_MASK = 0 -> exists a, x = ptoa a.
Proof.
  change PAGE_MASK with (2 ^ 12 - 1). rewrite aligned_land by done. intros H.
  exists (x / 2 ^ 12). rewrite ptoa_eq. pose proof (Z.div_mod x (2 ^ 12)). lia.
Qed.

Lemma add_seg_grown nd affinity start end_ segs segs' :
  whole_pages affinity -> layout segs -> 0 <= start < end_ -> end_ <= 2 ^ 64 ->
  (forall pa, within start end_ pa -> ~ covered segs pa) ->
  vm_phys_add_seg nd affinity start end_ segs = Ok segs' -> grown segs segs' start end_.
Proof.
  intros Hw Hla Hs He Hap. unfold vm_phys_add_seg.
  destruct (Z.eqb_spec (Z.land start PAGE_MASK) 0) as [Ea|]; [|done]. cbn [require]. rewrite bind_Ok.
  destruct (Z.eqb_spec (Z.land end_ PAGE_MASK) 0) as [Eb|]; [|done]. cbn [require]. rewrite bind_Ok.
  apply page_mask_aligned in Ea as [a Ea]. apply page_mask_aligned in Eb as [b Eb].
  assert (range_ok start end_) as Hra.
  { split; [|done]. exists a, b. rewrite !ptoa_eq in *. lia. }
  intros ([p1 segs1] & E1 & ([p2 segs2] & E2 & E3)%bind_inv)%bind_inv.
  apply (split_at_grown _ _ _ (2 ^ 12)) in E1 as (L1 & R1 & N1 & S1 & A1 & G1); try done;
    [|by intros ? [->| ->]].
  apply (split_at_grown _ _ _ (2 ^ 20)) in E2 as (L2 & R2 & N2 & S2 & A2 & G2); try done.
  2: { intros ? [->| ->] ?; [done | lia]. }
  apply G1, G2. eapply create_grown; try done.
  intros ? [->| ->]; [|done]. lia.
Qed.

(** Without affinity information a segment is created while there is room. *)
Lemma create_total nd start end_ segs :
  0 < nd -> zlength segs < 63 ->
  exists segs', vm_phys_create_seg nd None start end_ segs = Ok segs' /\ zlength segs' = zlength segs + 1.
Proof.
  intros Hd Hl. cbn [vm_phys_create_seg]. destruct (create_seg nd start end_ 0 segs) as [segs'|] eqn:E.
  - exists segs'. split; [done|]. apply create_seg_eq in E as (p1 & p2 & new & -> & -> & _).
    unfold zlength. rewrite !length_app. simpl. lia.
  - exfalso. revert E. unfold create_seg. rewrite !require_true by (apply Z.ltb_lt; unfold VM_PHYSSEG_MAX; lia).
    rewrite !bind_Ok. by destruct (make_room _ _ _).
Qed.

Definition crosses (boundary start end_ : Z) : Z := indicator ((start <? boundary) && (boundary <? end_)).

Lemma split_at_total nd boundary start end_ segs :
  0 < nd -> zlength segs + crosses boundary start end_ <= 63 ->
  exists paddr segs', split_at nd None boundary start end_ segs = Ok (paddr, segs') /\
    zlength segs' = zlength segs + crosses boundary start end_ /\
    paddr = if (start <? boundary) && (boundary <? end_) then boundary else start.
Proof.
  intros Hd. unfold split_at, crosses. destruct (_ && _); cbn [indicator]; intros Hl.
  - destruct (create_total nd start boundary segs) as (segs' & E & Hn); [done | lia|].
    rewrite E, bind_Ok. by exists boundary, segs'.
  - exists start, segs. split_and!; try done. lia.
Qed.

(** The number of segments that a range becomes. *)
Definition seg_count (p : Z * Z) : Z :=
  1 + crosses VM_ISADMA_BOUNDARY p.1 p.2 + crosses VM_DMA32_BOUNDARY p.1 p.2.

Lemma crosses_nonneg b start end_ : 0 <= crosses b start end_.
Proof. unfold crosses. by destruct (_ && _). Qed.

Lemma range_aligned start end_ :
  range_ok start end_ -> Z.land start PAGE_MASK = 0 /\ Z.land end_ PAGE_MASK = 0.
Proof.
  intros [(a & b & -> & -> & _) _]. change PAGE_MASK with (2 ^ 12 - 1).
  rewrite !aligned_land, !ptoa_eq by done. by rewrite !Z.mod_mul by done.
Qed.

Lemma add_seg_total nd start end_ segs :
  0 < nd -> range_ok start end_ -> zlength segs + seg_count (start, end_) <= 63 ->
  exists segs', vm_phys_add_seg nd None start end_ segs = Ok segs' /\
    zlength segs' = zlength segs + seg_count (start, end_).
Proof.
  intros Hd Hra Hl. unfold vm_phys_add_seg. destruct (range_aligned _ _ Hra) as [-> ->].
  rewrite !require_true by done. rewrite !bind_Ok. unfold seg_count in *. cbn [fst snd] in *.
  pose proof (crosses_nonneg VM_ISADMA_BOUNDARY start end_).
  pose proof (crosses_nonneg VM_DMA32_BOUNDARY start end_).
  destruct (split_at_total nd VM_ISADMA_BOUNDARY start end_ segs) as (p1 & segs1 & E1 & N1 & Hp1);
    [done | lia|].
  assert (crosses VM_DMA32_BOUNDARY p1 end_ = crosses VM_DMA32_BOUNDARY start end_) as Ec.
  { unfold crosses. rewrite Hp1. f_equal. f_equal.
    destruct (Z.ltb_spec start VM_ISADMA_BOUNDARY), (VM_ISADMA_BOUNDARY <? end_); try done.
    cbn [andb]. symmetry. apply Z.ltb_lt. by transitivity VM_ISADMA_BOUNDARY. }
  destruct (split_at_total nd VM_DMA32_BOUNDARY p1 end_ segs1) as (p2 & segs2 & E2 & N2 & _);
    [done | lia|].
  destruct (create_total nd p2 end_ segs2) as (segs3 & E3 & N3); [done | lia|].
  rewrite E1, bind_Ok, E2, bind_Ok. exists segs3. split; [done | lia].
Qed.

(** ** The ranges of [phys_avail] *)

Definition in_ranges (l : list (Z * Z)) (pa : Z) : Prop := Exists (fun p => within p.1 p.2 pa) l.

Fixpoint ranges_disjoint (l : list (Z * Z)) : Prop :=
  match l with
  | [] => True
  | p :: l => (forall pa, within p.1 p.2 pa -> ~ in_ranges l pa) /\ ranges_disjoint l
  end.

Definition ranges_ok (l : list (Z * Z)) : Prop := Forall (fun p => range_ok p.1 p.2) l /\ ranges_disjoint l.

Fixpoint seg_counts (l : list (Z * Z)) : Z :=
  match l with [] => 0 | p :: l => seg_count p + seg_counts l end.

Lemma seg_counts_nonneg l : 0 <= seg_counts l.
Proof.
  induction l as [|p l IH]; cbn [seg_counts]; [done|]. unfold seg_count.
  pose proof (crosses_nonneg VM_ISADMA_BOUNDARY p.1 p.2).
  pose proof (crosses_nonneg VM_DMA32_BOUNDARY p.1 p.2). lia.
Qed.

Lemma add_segs_ok nd l : forall segs,
  0 < nd -> layout segs -> ranges_ok l -> (forall pa, in_ranges l pa -> ~ covered segs pa) ->
  zlength segs + seg_counts l <= 63 ->
  exists segs', add_segs nd None l segs = Ok segs' /\ layout segs' /\
    zlength segs' = zlength segs + seg_counts l /\
    forall pa, covered segs' pa <-> covered segs pa \/ in_ranges l pa.
Proof.
  induction l as [|[start end_] l IH]; intros segs Hd Hla [Hok Hap] Hc Hn; cbn [add_segs seg_counts] in *.
  { exists segs. split_and!; try done; [lia|]. intros pa. split; [by left|].
    intros [?|?%Exists_nil]; done. }
  apply Forall_cons in Hok as [Hra Hok]. destruct Hap as [Hp Hap]. cbn [fst snd] in *.
  pose proof (seg_counts_nonneg l).
  destruct (add_seg_total nd start end_ segs) as (segs1 & E1 & N1); [done | done | lia|].
  assert (grown segs segs1 start end_) as [L1 C1].
  { pose proof (range_lt _ _ Hra). destruct Hra as [(a & b & Ea & Eb & ?) Hl].
    apply (add_seg_grown nd None); try done.
    - rewrite ptoa_eq in *. lia.
    - intros pa Hpa. apply Hc. by left. }
  destruct (IH segs1) as (segs2 & E2 & L2 & N2 & C2); try done; [|lia|].
  { intros pa Hpa. rewrite C1. intros [?|Hw]; [|by apply (Hp pa)].
    apply (Hc pa); [by right | done]. }
  exists segs2. rewrite E1, bind_Ok. split_and!; try done; [lia|].
  intros pa. rewrite C2, C1. unfold in_ranges at 2. rewrite Exists_cons. cbn [fst snd].
  unfold in_ranges. tauto.
Qed.

(** ** The free lists *)

Lemma mark_lists_spec segs :
  exists n f0 f1 f2, mark_lists segs = (n, [f0; f1; f2]) /\ 0 <= f0 <= 1 /\ 0 <= f1 <= 1 /\ 0 <= f2 <= 1 /\
    Forall (fun seg => (seg_freelist seg = VM_FREELIST_ISADMA -> f2 = 1) /\
              (seg_freelist seg = VM_FREELIST_DMA32 -> f0 = 1 \/ f1 = 1) /\
              (seg_freelist seg = VM_FREELIST_DEFAULT -> f0 = 1)) segs.
Proof.
  induction segs as [|seg segs (n & f0 & f1 & f2 & E & B0 & B1 & B2 & Hs)].
  { exists 0, 0, 0, 0. by split_and!. }
  unfold mark_lists in *. cbn [fold_right]. rewrite E. unfold mark_list, seg_freelist at 1.
  rewrite Forall_forall in Hs.
  destruct (Z.leb_spec (seg_end seg) VM_ISADMA_BOUNDARY) as [H1|H1];
    [|destruct (VM_DMA32_NPAGES_THRESHOLD <? n), (Z.leb_spec (seg_end seg) VM_DMA32_BOUNDARY) as [H2|H2]];
    cbn [andb];
    [exists n, f0, f1, 1 | exists n, f0, 1, f2 | eexists _, 1, f1, f2 ..];
    (split; [reflexivity|]; split_and!; try lia; apply Forall_cons; split;
     [|apply Forall_forall; intros z Hz; specialize (Hs z Hz); tauto]);
    unfold seg_freelist; ztest; (split_and!; intros; [try done; auto..]).
Qed.

(** A segment after [vm_phys_init]. *)
Record seg_set (flinds : list Z) (seg seg' : vm_phys_seg) : Prop := SegSet {
  st_start : seg_start seg' = seg_start seg;
  st_end : seg_end seg' = seg_end seg;
  st_domain : seg_domain seg' = seg_domain seg;
  st_first : seg_first_page seg' = atop (seg_start seg);
  st_flind : seg_flind seg' = zget flinds (seg_freelist seg);
}.

Lemma set_segs_ok first_page size flinds segs :
  Forall (fun seg => 0 <= zget flinds (seg_freelist seg) /\
            first_page <= atop (seg_start seg) < first_page + size) segs ->
  exists segs', set_segs first_page size flinds segs = Ok segs' /\ Forall2 (seg_set flinds) segs segs'.
Proof.
  induction segs as [|seg segs IH]; intros H; cbn [set_segs]; [by exists []; split; [|constructor]|].
  apply Forall_cons in H as [[H1 H2] (segs' & E & Hs)%IH].
  unfold set_seg. cbv zeta. rewrite require_true by (by apply Z.leb_le). rewrite bind_Ok.
  rewrite bind_Ok, E, bind_Ok. eexists. split; [reflexivity|]. constructor; [|done].
  split; try done. cbn [seg_first_page]. unfold PHYS_TO_VM_PAGE. by ztest.
Qed.

(** The free lists that [vm_phys_init] finds. *)
Record lists_ok (segs : list vm_phys_seg) (nfl : Z) (flinds : list Z) : Prop := ListsOk {
  lo_count : 0 < nfl <= 3;
  lo_range seg : seg ∈ segs -> 0 <= zget flinds (seg_freelist seg) < nfl;
  lo_isadma seg seg' : seg ∈ segs -> seg' ∈ segs -> seg_freelist seg = VM_FREELIST_ISADMA ->
    zget flinds (seg_freelist seg') = zget flinds VM_FREELIST_ISADMA ->
    seg_freelist seg' = VM_FREELIST_ISADMA;
  lo_dma32 seg' : seg' ∈ segs -> zget flinds VM_FREELIST_DEFAULT < zget flinds VM_FREELIST_DMA32 ->
    zget flinds (seg_freelist seg') = zget flinds VM_FREELIST_DMA32 ->
    seg_freelist seg' = VM_FREELIST_DMA32;
}.

Lemma seg_freelist_cases seg :
  seg_freelist seg = VM_FREELIST_ISADMA \/ seg_freelist seg = VM_FREELIST_DMA32 \/
  seg_freelist seg = VM_FREELIST_DEFAULT.
Proof. unfold seg_freelist. destruct (_ <=? _); [auto|]. destruct (_ <=? _); auto. Qed.

Lemma vm_phys_init_ok first_page size segs :
  segs <> [] ->
  Forall (fun seg => first_page <= atop (seg_start seg) < first_page + size) segs ->
  exists nfl flinds segs', vm_phys_init first_page size segs = Ok (nfl, flinds, segs') /\
    Forall2 (seg_set flinds) segs segs' /\ lists_ok segs nfl flinds.
Proof.
  intros Hne Hin. unfold vm_phys_init.
  destruct (mark_lists_spec segs) as (n & f0 & f1 & f2 & -> & B0 & B1 & B2 & Hs).
  rewrite Forall_forall in Hs.
  assert (running_total [f0; f1; f2] = [f0; f1 + f0; f2 + (f1 + f0)]) as -> by done.
  assert (less_one [f0; f1 + f0; f2 + (f1 + f0)] = [f0 - 1; f1 + f0 - 1; f2 + (f1 + f0) - 1]) as -> by done.
  set (flinds := [f0 - 1; f1 + f0 - 1; f2 + (f1 + f0) - 1]).
  change (zget [f0; f1 + f0; f2 + (f1 + f0)] (VM_NFREELIST - 1)) with (f2 + (f1 + f0)).
  assert (zget flinds VM_FREELIST_DEFAULT = f0 - 1) as D0 by done.
  assert (zget flinds VM_FREELIST_DMA32 = f1 + f0 - 1) as D1 by done.
  assert (zget flinds VM_FREELIST_ISADMA = f2 + (f1 + f0) - 1) as D2 by done.
  assert (lists_ok segs (f2 + (f1 + f0)) flinds) as Hlo.
  { split.
    - destruct segs as [|seg segs]; [done|]. specialize (Hs seg ltac:(by left)).
      destruct (seg_freelist_cases seg) as [|[|]]; intuition lia.
    - intros seg Hseg. specialize (Hs seg Hseg).
      destruct (seg_freelist_cases seg) as [E|[E|E]]; rewrite E in *; intuition lia.
    - intros seg seg' H1 H2 E1 E2. pose proof (Hs seg H1) as (? & _). specialize (Hs seg' H2).
      destruct (seg_freelist_cases seg') as [E|[E|E]]; rewrite E in *; [done | intuition lia..].
    - intros seg H1 Hlt E2. specialize (Hs seg H1).
      destruct (seg_freelist_cases seg) as [E|[E|E]]; rewrite E in *; [intuition lia | done | intuition lia]. }
  rewrite require_true by (apply Z.ltb_lt, Hlo). rewrite bind_Ok.
  destruct (set_segs_ok first_page size flinds segs) as (segs' & E & Hset).
  { apply Forall_forall. rewrite Forall_forall in Hin. intros seg Hseg.
    split; [by apply (lo_range _ _ _ Hlo) | by apply Hin]. }
  rewrite E, bind_Ok. by exists (f2 + (f1 + f0)), flinds, segs'.
Qed.

Lemma sorted_lookup {A} (R : A -> A -> Prop) l : forall (i k : nat) x y,
  StronglySorted R l -> l !! i = Some x -> l !! k = Some y -> (i < k)%nat -> R x y.
Proof.
  induction l as [|a l IH]; intros i k x y Hs Hx Hy Hik; [done|].
  apply StronglySorted_cons in Hs as [Ha Hs]. destruct k as [|k]; [lia|].
  destruct i as [|i]; simpl in Hx, Hy.
  - injection Hx as <-. rewrite Forall_forall in Ha. apply Ha. by apply list_elem_of_lookup_2 in Hy.
  - apply (IH i k); try done. lia.
Qed.

Lemma atop_ptoa a : atop (ptoa a) = a.
Proof. unfold atop, PAGE_SHIFT. rewrite ptoa_eq, Z.shiftr_div_pow2 by done. apply Z.div_mul. done. Qed.

Lemma seg_set_ok flinds seg seg' : seg_wf seg -> seg_set flinds seg seg' -> seg_ok seg'.
Proof.
  intros [[(a & b & Ea & Eb & ?) Hl] _] [Hs He _ Hf _]. rewrite Ea, atop_ptoa in Hf.
  split; rewrite ?Hf, ?Hs, ?He; [done | by exists b | lia | done].
Qed.

Lemma seg_set_in flinds seg seg' j :
  seg_wf seg -> seg_set flinds seg seg' ->
  in_seg seg' j <-> within (seg_start seg) (seg_end seg) (ptoa j).
Proof.
  intros [[(a & b & Ea & Eb & ?) Hl] _] [_ He _ Hf _]. unfold in_seg, within.
  rewrite He, Hf, Ea, atop_ptoa. rewrite ptoa_le. lia.
Qed.

Lemma segs_set_ok flinds segs segs' : layout segs -> Forall2 (seg_set flinds) segs segs' -> segs_ok segs'.
Proof.
  intros [Hwf Hso] Hset. rewrite Forall_forall in Hwf.
  assert (forall i seg', segs' !! i = Some seg' -> exists seg, segs !! i = Some seg /\
            seg_set flinds seg seg' /\ seg_wf seg) as Hl.
  { intros i seg' (seg & E & H)%(Forall2_lookup_r _ _ _ _ _ Hset). exists seg. split_and!; try done.
    apply Hwf. by apply list_elem_of_lookup_2 in E. }
  split.
  - intros i Hi. destruct (Hl _ _ (lookup_aget no_seg segs' i Hi)) as (seg & _ & Hs & Hw).
    by apply (seg_set_ok flinds seg).
  - intros i k j Hi Hk.
    destruct (Hl _ _ (lookup_aget no_seg segs' i Hi)) as (si & Ei & Si & Wi).
    destruct (Hl _ _ (lookup_aget no_seg segs' k Hk)) as (sk & Ek & Sk & Wk).
    rewrite (seg_set_in _ _ _ j Wi Si), (seg_set_in _ _ _ j Wk Sk). unfold within. intros Hwi Hwk.
    destruct (Z.lt_trichotomy i k) as [Hlt|[?|Hlt]]; [|done|].
    + pose proof (sorted_lookup below segs (Z.to_nat i) (Z.to_nat k) si sk Hso Ei Ek ltac:(lia)) as B.
      unfold below in B. lia.
    + pose proof (sorted_lookup below segs (Z.to_nat k) (Z.to_nat i) sk si Hso Ek Ei ltac:(lia)) as B.
      unfold below in B. lia.
Qed.

(** ** The first state *)

Definition start_state : phys := Phys (fun _ => cleared_page) empty_queues (Counts 0 0 0 0 0).

Lemma start_not_free j : ~ is_free start_state j.
Proof. intros (m & o & [E ?] & _). change (13 = o) in E. lia. Qed.

Lemma start_inv segs : inv segs start_state.
Proof.
  assert (forall m o, ~ is_head start_state m o) as Hn.
  { intros m o [E ?]. change (13 = o) in E. lia. }
  split; try done; try (intros; exfalso; by eapply Hn).
  - intros fl o m Ho. change (m ∈ [] <-> 13 = o /\ fl = queue_of segs start_state m). split.
    + by intros ?%elem_of_nil.
    + intros [? _]. lia.
  - intros fl o Ho. change (NoDup (@nil Z)). constructor.
Qed.

(** The counts after [n] more pages: those of the segments apart. *)
Definition counted (n : Z) (c c' : vm_counts) : Prop :=
  v_page_count c' = v_page_count c + n /\ v_free_count c' = v_free_count c + n /\
  vmd_page_count c' = vmd_page_count c + n /\ vmd_free_count c' = vmd_free_count c + n.

Section pages.
Context (segs : list vm_phys_seg) (Hsegs : segs_ok segs).

Definition in_segs (j : Z) : Prop := exists i, 0 <= i < zlength segs /\ in_seg (aget no_seg segs i) j.

Lemma used_order s j : inv segs s -> ~ is_free s j -> ord s j = 13.
Proof.
  intros Hinv Hj. pose proof (inv_order _ _ Hinv j).
  destruct (decide (ord s j = 13)); [done|]. exfalso. apply Hj. apply (head_free s j (ord s j)).
  split; [done | lia].
Qed.

Lemma add_range_ok n : forall a s,
  inv segs s -> (forall j, a <= j < a + Z.of_nat n -> in_segs j /\ ~ is_free s j) ->
  exists s', add_range n segs (ptoa a) (ptoa (a + Z.of_nat n)) s = Ok s' /\ inv segs s' /\
    (forall j, is_free s' j <-> is_free s j \/ a <= j < a + Z.of_nat n) /\
    counted (Z.of_nat n) (counts s) (counts s').
Proof.
  induction n as [|n IH]; intros a s Hinv Hn.
  { exists s. rewrite Z.add_0_r. cbn [add_range]. rewrite Z.ltb_irrefl. split_and!; try done.
    - intros j. split; [by left|]. intros [?|?]; [done | lia].
    - unfold counted. lia. }
  cbn [add_range].
  replace (ptoa a <? ptoa (a + Z.of_nat (S n))) with true
    by (symmetry; apply Z.ltb_lt, ptoa_lt; lia).
  destruct (Hn a ltac:(lia)) as [(i & Hi & Ha) Hf].
  destruct (add_page_ok segs Hsegs i a s Hinv Hi Ha) as (s1 & E & Hinv1 & Hf1 & Hc1 & _);
    [by apply used_order | done|].
  destruct (IH (a + 1) s1 Hinv1) as (s2 & E2 & Hinv2 & Hf2 & Hc2).
  { intros j Hj. destruct (Hn j ltac:(lia)) as [? Hu]. split; [done|].
    rewrite Hf1. intros [?|?]; [done | lia]. }
  exists s2. rewrite E, bind_Ok.
  replace (ptoa a + PAGE_SIZE) with (ptoa (a + 1)) by (rewrite !ptoa_eq; change PAGE_SIZE with (2 ^ 12); lia).
  replace (a + Z.of_nat (S n)) with (a + 1 + Z.of_nat n) by lia.
  split_and!; try done.
  - intros j. rewrite Hf2, Hf1. split; [intros [[?| ->]|?] | intros [?|?]];
      [by left | right; lia | right; lia | by left; left|].
    destruct (decide (j = a)); [by left; right | right; lia].
  - rewrite Hc1 in Hc2. unfold counted, count_page in *. cbn [v_page_count v_free_count vmd_page_count vmd_free_count] in *. lia.
Qed.

Fixpoint range_pages (l : list (Z * Z)) : Z :=
  match l with [] => 0 | p :: l => atop (p.2 - p.1) + range_pages l end.

Lemma add_pages_ok l : forall s,
  inv segs s -> ranges_ok l -> (forall j, in_ranges l (ptoa j) -> in_segs j /\ ~ is_free s j) ->
  exists s', add_pages segs l s = Ok s' /\ inv segs s' /\
    (forall j, is_free s' j <-> is_free s j \/ in_ranges l (ptoa j)) /\
    counted (range_pages l) (counts s) (counts s').
Proof.
  induction l as [|[start end_] l IH]; intros s Hinv [Hok Hap] Hn; cbn [add_pages range_pages].
  { exists s. split_and!; try done; [|unfold counted; lia].
    intros j. split; [by left|]. intros [?|?%Exists_nil]; done. }
  apply Forall_cons in Hok as [[(a & b & Ea & Eb & ?) _] Hok]. destruct Hap as [Hp Hap].
  cbn [fst snd] in *. subst start end_.
  assert (ptoa b - ptoa a = ptoa (b - a)) as Es by (rewrite !ptoa_eq; lia).
  rewrite Es, atop_ptoa.
  assert (forall j, within (ptoa a) (ptoa b) (ptoa j) <-> a <= j < b) as Hw.
  { intros j. unfold within. by rewrite ptoa_le, ptoa_lt. }
  destruct (add_range_ok (Z.to_nat (b - a)) a s Hinv) as (s1 & E1 & Hinv1 & Hf1 & Hc1).
  { intros j Hj. apply Hn. left. apply Hw. lia. }
  replace (a + Z.of_nat (Z.to_nat (b - a))) with b in * by lia.
  destruct (IH s1 Hinv1) as (s2 & E2 & Hinv2 & Hf2 & Hc2); [done| |].
  { intros j Hj. destruct (Hn j ltac:(by right)) as [? Hu]. split; [done|].
    rewrite Hf1. intros [?|Hj']; [done|]. apply (Hp (ptoa j)); [by apply Hw | done]. }
  exists s2. rewrite E1, bind_Ok. split_and!; try done.
  - intros j. rewrite Hf2, Hf1. unfold in_ranges at 2. rewrite Exists_cons. cbn [fst snd].
    rewrite Hw. unfold in_ranges. tauto.
  - unfold counted in *. lia.
Qed.
End pages.

(** ** The start of the system *)

Definition wider (w : Z * Z) (p : Z * Z) : Z * Z :=
  (if p.1 <? w.1 then p.1 else w.1, if w.2 <? p.2 then p.2 else w.2).

Lemma fold_wider l : forall w,
  let r := fold_left wider l w in
  r.1 <= w.1 /\ w.2 <= r.2 /\ forall p, p ∈ l -> r.1 <= p.1 /\ p.2 <= r.2.
Proof.
  induction l as [|q l IH]; intros w r; cbn [fold_left] in r.
  { split_and!; try (subst r; lia). by intros p ?%elem_of_nil. }
  destruct (IH (wider w q)) as (H1 & H2 & H3). fold r in H1, H2, H3.
  unfold wider in H1, H2. cbn [fst snd] in H1, H2.
  destruct (Z.ltb_spec q.1 w.1), (Z.ltb_spec w.2 q.2); split_and!; try lia;
    (intros p [->|Hp]%elem_of_cons; [lia | by apply H3]).
Qed.

Lemma water_spec segs avail :
  let w := water segs avail in
  (forall p, p ∈ avail -> w.1 <= p.1 /\ p.2 <= w.2) /\
  (forall seg, seg ∈ segs -> w.1 <= seg_start seg /\ seg_end seg <= w.2).
Proof.
  unfold water. fold wider. set (w0 := match avail with [] => (0, 0) | p :: _ => p end).
  set (bounds := map _ segs). destruct (fold_wider bounds w0) as (_ & _ & Hs).
  destruct (fold_wider avail (fold_left wider bounds w0)) as (H1 & H2 & H3).
  cbv zeta in *. change (fun w p : Z * Z => (if p.1 <? w.1 then p.1 else w.1, if w.2 <? p.2 then p.2 else w.2))
    with wider. split; [exact H3|].
  intros seg Hseg. destruct (Hs (seg_start seg, seg_end seg)); [|cbn [fst snd] in *; lia].
  apply (list_elem_of_fmap_2 (fun seg => (seg_start seg, seg_end seg))); done.
Qed.

Lemma trunc_page_aligned x : exists b, trunc_page x = ptoa b.
Proof.
  apply page_mask_aligned. unfold trunc_page. rewrite <- Z.land_assoc.
  change (Z.land (Z.lnot PAGE_MASK) PAGE_MASK) with 0. apply Z.land_0_r.
Qed.

(** The start-up code took its memory from the end of the largest range. *)
Definition new_end_ok (avail : list (Z * Z)) (new_end : Z) : Prop :=
  forall p, avail !! biggestone avail = Some p -> new_end <= p.2.

Lemma shorten_within avail new_end pa :
  new_end_ok avail new_end -> in_ranges (shorten avail new_end) pa -> in_ranges avail pa.
Proof.
  unfold new_end_ok, shorten. destruct (avail !! biggestone avail) as [[start end_]|] eqn:E; [|done].
  intros Hn. specialize (Hn _ eq_refl). cbn [snd] in Hn.
  unfold in_ranges. rewrite !Exists_exists. intros (p & Hp & Hw).
  apply list_elem_of_lookup in Hp as [i Hi].
  destruct (decide (i = biggestone avail)) as [->|Hne].
  - rewrite list_lookup_insert_eq in Hi by (by apply lookup_lt_Some in E). injection Hi as <-.
    exists (start, end_). split; [by eapply list_elem_of_lookup_2|].
    unfold within in *. cbn [fst snd] in *. lia.
  - rewrite list_lookup_insert_ne in Hi by done. exists p. split; [by eapply list_elem_of_lookup_2 | done].
Qed.

(** What [vm_page_startup] leaves: the segments, with their free lists. *)
Record booted (nfl : Z) (flinds : list Z) (segs : list vm_phys_seg) : Prop := Booted {
  bt_segs : segs_ok segs;
  bt_made : exists made, layout made /\ lists_ok made nfl flinds /\ Forall2 (seg_set flinds) made segs;
}.

(** Every segment starts inside the page array. *)
Lemma starts_in_array phys_avail new_end segs0 segs :
  let w := water segs0 (round_ranges phys_avail) in
  layout segs0 -> layout segs -> new_end_ok (round_ranges phys_avail) new_end ->
  (forall pa, covered segs pa <-> covered segs0 pa \/ in_ranges (shorten (round_ranges phys_avail) new_end) pa) ->
  Forall (fun seg => w.1 / PAGE_SIZE <= atop (seg_start seg) < w.1 / PAGE_SIZE + (w.2 / PAGE_SIZE - w.1 / PAGE_SIZE)) segs.
Proof.
  intros w [Hwf0 _] [Hwf _] Hne Hc. destruct (water_spec segs0 (round_ranges phys_avail)) as [Hwa Hws].
  fold w in Hwa, Hws. rewrite Forall_forall in *. intros seg Hseg.
  pose proof (seg_wf_lt _ (Hwf seg Hseg)) as Hlt.
  assert (exists e, seg_start seg < ptoa e <= w.2 /\ w.1 <= seg_start seg) as (e & H1 & H2).
  { assert (covered segs (seg_start seg)) as Hcov.
    { apply Exists_exists. exists seg. split; [done|]. unfold within. lia. }
    apply Hc in Hcov as [Hcov|Hcov%shorten_within]; [..|done]; apply Exists_exists in Hcov as (x & Hx & Hin).
    - destruct (sw_range _ (Hwf0 x Hx)) as [(a & b & _ & E & _) _]. destruct (Hws x Hx). exists b.
      unfold within in Hin. lia.
    - destruct (Hwa x Hx). unfold round_ranges in Hx. apply list_elem_of_fmap in Hx as (y & -> & _).
      cbn [fst snd] in *. destruct (trunc_page_aligned y.2) as [b E]. exists b.
      unfold within in Hin. cbn [fst snd] in Hin. lia. }
  destruct (sw_range _ (Hwf seg Hseg)) as [(a & _ & E & _) _]. rewrite E in *. rewrite atop_ptoa.
  rewrite !ptoa_eq in *. change PAGE_SIZE with (2 ^ 12). revert H1 H2. clear. dlia.
Qed.

Lemma page_startup_ok nd phys_avail new_end segs0 :
  let avail := shorten (round_ranges phys_avail) new_end in
  0 < nd -> layout segs0 -> ranges_ok avail -> avail <> [] ->
  new_end_ok (round_ranges phys_avail) new_end ->
  (forall pa, in_ranges avail pa -> ~ covered segs0 pa) ->
  zlength segs0 + seg_counts avail <= 63 ->
  exists nfl flinds segs s, page_startup nd None phys_avail new_end segs0 = Ok (nfl, flinds, segs, s) /\
    booted nfl flinds segs /\ inv segs s /\
    (forall j, is_free s j <-> in_ranges avail (ptoa j)) /\
    counted (range_pages avail) (Counts 0 0 0 0 0) (counts s).
Proof.
  intros avail Hd Hla Hra Hne Hnew Hap Hn. unfold page_startup.
  pose proof (starts_in_array phys_avail new_end segs0) as Hst. cbv zeta in Hst.
  destruct (water segs0 (round_ranges phys_avail)) as [lo hi]. cbn [fst snd] in Hst. fold avail in Hst |- *.
  destruct (add_segs_ok nd avail segs0 Hd Hla Hra Hap Hn) as (made & E1 & Lm & Nm & Cm).
  rewrite E1, bind_Ok.
  assert (made <> []) as Hmade.
  { intros ->. destruct avail as [|p l]; [done|]. cbn [seg_counts] in Nm.
    pose proof (seg_counts_nonneg l). unfold seg_count in Nm.
    pose proof (crosses_nonneg VM_ISADMA_BOUNDARY p.1 p.2). pose proof (crosses_nonneg VM_DMA32_BOUNDARY p.1 p.2).
    unfold zlength in Nm. simpl in Nm. lia. }
  destruct (vm_phys_init_ok (lo / PAGE_SIZE) (hi / PAGE_SIZE - lo / PAGE_SIZE) made Hmade) as
    (nfl & flinds & segs & E2 & Hset & Hlo); [by apply Hst|].
  rewrite E2, bind_Ok. pose proof (segs_set_ok flinds made segs Lm Hset) as Hsegs.
  destruct (add_pages_ok segs Hsegs avail start_state (start_inv segs) Hra) as (s & E3 & Hinv & Hf & Hc).
  { intros j Hj. split; [|apply start_not_free].
    assert (covered made (ptoa j)) as Hcov by (apply Cm; by right).
    apply Exists_exists in Hcov as (seg & Hseg & Hw). apply list_elem_of_lookup in Hseg as [i Hi].
    destruct (Forall2_lookup_l _ _ _ _ _ Hset Hi) as (seg' & Hi' & Hs).
    exists (Z.of_nat i). split; [apply lookup_lt_Some in Hi'; unfold zlength; lia|].
    rewrite (aget_lookup no_seg segs (Z.of_nat i) seg') by (rewrite ?Nat2Z.id; lia || done).
    destruct Lm as [Hwf _]. rewrite Forall_forall in Hwf.
    apply (seg_set_in flinds seg); [apply Hwf; by eapply list_elem_of_lookup_2 | done | done]. }
  fold start_state. rewrite E3, bind_Ok. exists nfl, flinds, segs, s. split_and!; try done.
  - split; [done|]. by exists made.
  - intros j. rewrite Hf. split; [intros [?%start_not_free|?]; done | by right].
Qed.

(** ** The segment of an allocated block *)

Lemma la_wf_elem segs seg : layout segs -> seg ∈ segs -> seg_wf seg.
Proof. intros [Hwf _]. rewrite Forall_forall in Hwf. apply Hwf. Qed.

Lemma freelist_isadma seg : seg_freelist seg = VM_FREELIST_ISADMA <-> seg_end seg <= VM_ISADMA_BOUNDARY.
Proof.
  unfold seg_freelist. destruct (Z.leb_spec (seg_end seg) VM_ISADMA_BOUNDARY); [done|].
  destruct (_ <=? _); (split; [done | lia]).
Qed.

Lemma freelist_dma32 seg :
  seg_wf seg -> seg_freelist seg = VM_FREELIST_DMA32 ->
  VM_ISADMA_BOUNDARY <= seg_start seg /\ seg_end seg <= VM_DMA32_BOUNDARY.
Proof.
  intros [_ Hc]. unfold seg_freelist.
  destruct (Z.leb_spec (seg_end seg) VM_ISADMA_BOUNDARY); [done|].
  destruct (Z.leb_spec (seg_end seg) VM_DMA32_BOUNDARY); [|done]. intros _. split; [|done].
  specialize (Hc VM_ISADMA_BOUNDARY ltac:(by left)). lia.
Qed.

(** A block lies in a segment, and its free list is that of the segment. *)
Lemma allocated_seg nfl flinds segs s s' m o :
  booted nfl flinds segs -> 0 <= o -> allocated segs s s' m o ->
  exists made seg, layout made /\ lists_ok made nfl flinds /\ Forall2 (seg_set flinds) made segs /\
    seg ∈ made /\ seg_flind (page_seg segs s' m) = zget flinds (seg_freelist seg) /\
    seg_start seg <= ptoa m /\ ptoa (m + 2 ^ o) <= seg_end seg.
Proof.
  intros [Hsegs (made & Hl & Hlo & Hset)] Ho Ha. pose proof (pow2_pos o Ho) as HP.
  pose proof (bo_pages _ _ _ _ (bu_block _ _ _ _ (al_busy _ _ _ _ _ Ha))) as Hp.
  destruct (Hp m ltac:(by apply block_head)) as (Pm & _ & _).
  destruct (Hp (m + 2 ^ o - 1) ltac:(unfold block; lia)) as (Pe & _ & Es).
  pose proof (lookup_aget no_seg segs _ (po_segind _ _ _ Pm)) as Hi.
  destruct (Forall2_lookup_r _ _ _ _ _ Hset Hi) as (seg & Hi' & Hs).
  assert (seg ∈ made) as Hm by (by eapply list_elem_of_lookup_2).
  pose proof (la_wf_elem made seg Hl Hm) as Hwf. exists made, seg.
  assert (in_seg (page_seg segs s' m) (m + 2 ^ o - 1)) as He.
  { pose proof (po_seg _ _ _ Pe) as He. unfold page_seg in *. by rewrite Es in He. }
  apply (seg_set_in flinds seg _ _ Hwf Hs) in He.
  pose proof (proj1 (seg_set_in flinds seg _ _ Hwf Hs) (po_seg _ _ _ Pm)) as Hst.
  split_and!; try done; [apply (st_flind _ _ _ Hs) | apply Hst |].
  destruct (sw_range _ Hwf) as [(a & b & _ & E & _) _]. rewrite E in *. unfold within in He.
  rewrite ptoa_lt in He. apply ptoa_le. lia.
Qed.
