(* ===== verification/PhysHeld.v ===== *)
(** * Sequences of calls of the physical memory allocator

    [held] has the runs of pages that the callers have: those that the calls
    gave out, less what was freed of them. A caller frees a part of a run that
    it holds, as an aligned block or as a run. [partition] is the
    specification: every page is free or in one run that is held. *)

From S2P Require Import Prelude Phys PhysInv PhysFree PhysAlloc PhysContig PhysSeg PhysBoot.

Record pstate := PState { ps : phys; held : list (Z * Z) }.

Inductive pcall :=
  | PAlloc (domains : list Z) (pool order : Z)
  | PAllocFreelist (domains : list Z) (freelist pool order : Z)
  | PContig (domains : list Z) (npages low high alignment boundary : Z)
  | PUnfree (m : Z)
  | PFree (i : nat) (a order : Z)
  | PFreeContig (i : nat) (a n : Z).

(** The run given, of [n] pages. *)
Definition give (r : option Z * phys) (n : Z) (st : pstate) : pstate :=
  match r.1 with
  | Some m => PState r.2 ((m, m + n) :: held st)
  | None => PState r.2 (held st)
  end.

(** [n] pages from [a] of the run of number [i] are given back. *)
Definition give_back (i : nat) (a n : Z) (s : phys) (st : pstate) : pstate :=
  match held st !! i with
  | Some r => PState s ((a + n, r.2) :: <[i := (r.1, a)]> (held st))
  | None => PState s (held st)
  end.

Section calls.
Context (segs : list vm_phys_seg) (nfl : Z) (to_flind : Z -> Z).

Definition pexec (c : pcall) (st : pstate) : result pstate :=
  match c with
  | PAlloc domains pool order =>
      r ← vm_phys_alloc_pages nfl domains pool order (ps st); Ok (give r (2 ^ order) st)
  | PAllocFreelist domains freelist pool order =>
      r ← vm_phys_alloc_freelist_pages to_flind domains freelist pool order (ps st);
      Ok (give r (2 ^ order) st)
  | PContig domains npages low high alignment boundary =>
      r ← vm_phys_alloc_contig segs domains npages low high alignment boundary (ps st);
      Ok (give r npages st)
  | PUnfree m =>
      '(b, s) ← vm_phys_unfree_page segs m (ps st);
      Ok (give (if b : bool then Some m else None, s) 1 st)
  | PFree i a order => s ← vm_phys_free_pages segs a order (ps st); Ok (give_back i a (2 ^ order) s st)
  | PFreeContig i a n => s ← vm_phys_free_contig segs a n (ps st); Ok (give_back i a n s st)
  end.

(** The arguments that the code asserts, and that only pages held are
    freed. *)
Definition pvalid (st : pstate) (c : pcall) : Prop :=
  match c with
  | PAlloc _ pool order => 0 <= pool < VM_NFREEPOOL /\ 0 <= order < VM_NFREEORDER
  | PAllocFreelist _ freelist pool order =>
      freelist < VM_NFREELIST /\ 0 <= to_flind freelist /\ 0 <= pool < VM_NFREEPOOL /\ 0 <= order < VM_NFREEORDER
  | PContig _ npages _ _ alignment boundary =>
      0 < npages /\ powerof2 alignment = true /\ powerof2 boundary = true
  | PUnfree m => page_ok segs (ps st) m
  | PFree i a order =>
      0 <= order < VM_NFREEORDER /\ a mod 2 ^ order = 0 /\
      exists r, held st !! i = Some r /\ r.1 <= a /\ a + 2 ^ order <= r.2
  | PFreeContig i a n =>
      0 <= n /\ exists r, held st !! i = Some r /\ r.1 <= a /\ a + n <= r.2
  end.

Inductive preach (st0 : pstate) : pstate -> Prop :=
  | preach_start : preach st0 st0
  | preach_step st c st' : preach st0 st -> pvalid st c -> pexec c st = Ok st' -> preach st0 st'.

(** ** The specification *)

Definition apart (l : list (Z * Z)) : Prop :=
  forall i k ri rk j, l !! i = Some ri -> l !! k = Some rk ->
    within ri.1 ri.2 j -> within rk.1 rk.2 j -> i = k.

Record partition (F : Z -> Prop) (segind : Z -> Z) (st : pstate) : Prop := Partition {
  pt_inv : inv segs (ps st);
  pt_held : Forall (fun r => busy_run segs (ps st) r.1 (r.2 - r.1)) (held st);
  pt_apart : apart (held st);
  pt_all j : F j <-> is_free (ps st) j \/ in_ranges (held st) j;
  pt_segind j : m_segind (pages (ps st) j) = segind j;
}.

Lemma in_ranges_lookup l j : in_ranges l j <-> exists i r, l !! i = Some r /\ within r.1 r.2 j.
Proof.
  unfold in_ranges. rewrite Exists_exists. split.
  - intros (r & [i Hi]%list_elem_of_lookup & Hw). by exists i, r.
  - intros (i & r & Hi & Hw). exists r. split; [by eapply list_elem_of_lookup_2 | done].
Qed.

Lemma apart_cons r l :
  apart l -> (forall j, within r.1 r.2 j -> ~ in_ranges l j) -> apart (r :: l).
Proof.
  intros Hl Hr [|i] [|k] ri rk j Hi Hk Wi Wk; simpl in *; simplify_eq; [done | | |].
  - exfalso. apply (Hr j Wi), in_ranges_lookup. by exists k, rk.
  - exfalso. apply (Hr j Wk), in_ranges_lookup. by exists i, ri.
  - f_equal. by apply (Hl i k ri rk j).
Qed.

Lemma lookup_insert_cases {A} (l : list A) i x k y :
  <[i := x]> l !! k = Some y -> (i = k /\ y = x) \/ (i <> k /\ l !! k = Some y).
Proof.
  destruct (decide (i = k)) as [->|Hne]; [|by rewrite list_lookup_insert_ne by done; right].
  intros H. left. split; [done|]. pose proof (lookup_lt_Some _ _ _ H) as Hlt.
  rewrite length_insert in Hlt. rewrite list_lookup_insert_eq in H by done. congruence.
Qed.

(** A run cut down. *)
Lemma apart_insert l i r r' :
  apart l -> l !! i = Some r -> (forall j, within r'.1 r'.2 j -> within r.1 r.2 j) ->
  apart (<[i := r']> l).
Proof.
  intros Hl Hi Hsub i1 i2 r1 r2 j H1 H2 W1 W2.
  apply lookup_insert_cases in H1 as [[<- ->]|[_ H1]], H2 as [[<- ->]|[_ H2]]; [done | | |].
  - apply (Hl i i2 r r2 j); auto.
  - apply (Hl i1 i r1 r j); auto.
  - by apply (Hl i1 i2 r1 r2 j).
Qed.

Lemma in_ranges_insert l i r r' j :
  apart l -> l !! i = Some r -> (forall j, within r'.1 r'.2 j -> within r.1 r.2 j) ->
  in_ranges (<[i := r']> l) j <-> in_ranges l j /\ (within r.1 r.2 j -> within r'.1 r'.2 j).
Proof.
  intros Hl Hi Hsub. rewrite !in_ranges_lookup. split.
  - intros (k & rk & [[<- ->]|[Hne Hk]]%lookup_insert_cases & Wk).
    + split; [|done]. exists i, r. auto.
    + split; [by exists k, rk|]. intros W. exfalso. apply Hne. by apply (Hl i k r rk j).
  - intros ((k & rk & Hk & Wk) & Hr). destruct (decide (i = k)) as [<-|Hne].
    + exists i, r'. rewrite Hi in Hk. injection Hk as ->. split; [|auto].
      apply list_lookup_insert_eq. by apply lookup_lt_Some in Hi.
    + exists k, rk. by rewrite list_lookup_insert_ne by done.
Qed.

(** ** The steps *)

Context (Hsegs : segs_ok segs).

Lemma partition_taken F sg st s' m n :
  partition F sg st -> 0 <= n -> taken segs (ps st) s' m n -> partition F sg (PState s' ((m, m + n) :: held st)).
Proof.
  intros [Hinv Hh Ha Hall Hsg] Hn [I R W Fr S C O]. rewrite Forall_forall in Hh.
  assert (forall j, m <= j < m + n -> ~ in_ranges (held st) j) as Hnew.
  { intros j Hj Hin. apply Exists_exists in Hin as (r & Hr & Hw).
    apply (br_used _ _ _ _ (Hh r Hr) j); [unfold within in Hw; lia | by apply W]. }
  split; [done | | by apply apart_cons | |]; cbn [ps held];
    [| | by intros j; rewrite (proj1 (proj2 (S j)))].
  - constructor; [cbn [fst snd]; by replace (m + n - m) with n by lia|].
    apply Forall_forall. intros r Hr. pose proof (Hh r Hr) as Hb.
    apply (busy_run_sub segs (ps st) s' r.1 (r.2 - r.1)); try done.
    + intros j Hj. apply O. by apply (br_used _ _ _ _ Hb).
    + intros j Hj. rewrite Fr. intros [Hx _]. by apply (br_used _ _ _ _ Hb j).
  - intros j. rewrite Hall, Fr. unfold in_ranges at 2. rewrite Exists_cons. cbn [fst snd].
    fold (in_ranges (held st) j). unfold within at 1. specialize (W j).
    assert (m <= j < m + n \/ ~ (m <= j < m + n)) by lia. tauto.
Qed.

Lemma partition_freed F sg st s' i a n r :
  partition F sg st -> 0 <= n -> held st !! i = Some r -> r.1 <= a -> a + n <= r.2 ->
  freed segs (ps st) s' (fun j => a <= j < a + n) -> partition F sg (give_back i a n s' st).
Proof.
  intros [Hinv Hh Ha Hall Hsg] Hn Hi H1 H2 Hf. unfold give_back. rewrite Hi.
  assert (forall j, within r.1 a j -> within r.1 r.2 j) as Hsub by (unfold within; lia).
  pose proof (Forall_lookup_1 _ _ _ _ Hh Hi) as Hb. cbv beta in Hb.
  split; cbn [ps held]; [apply Hf | | | |].
  - constructor; [|apply Forall_lookup; intros k rk [[<- ->]|[Hne Hk]]%lookup_insert_cases].
    + cbn [fst snd]. apply (busy_run_freed segs (ps st) s' r.1 (r.2 - r.1) _ _ _ Hb Hf); lia.
    + cbn [fst snd]. apply (busy_run_freed segs (ps st) s' r.1 (r.2 - r.1) _ _ _ Hb Hf); lia.
    + pose proof (Forall_lookup_1 _ _ _ _ Hh Hk) as Hbk. cbv beta in Hbk.
      apply (busy_run_freed segs (ps st) s' rk.1 (rk.2 - rk.1) _ _ _ Hbk Hf); [lia | lia|].
      intros j Hj Hx. apply Hne. apply (Ha i k r rk j); unfold within; try done; lia.
  - apply apart_cons; [by apply (apart_insert _ _ r)|]. cbn [fst snd]. intros j Hj.
    rewrite (in_ranges_insert _ _ r) by done. cbn [fst snd]. unfold within in *.
    intros [_ Hx]. specialize (Hx ltac:(lia)). lia.
  - intros j. rewrite Hall, (fr_free _ _ _ _ Hf). unfold in_ranges at 2. rewrite Exists_cons. cbn [fst snd].
    fold (in_ranges (<[i := (r.1, a)]> (held st)) j). rewrite (in_ranges_insert _ _ r) by done. cbn [fst snd].
    assert (within r.1 r.2 j -> in_ranges (held st) j) as Hr.
    { intros Hw. apply in_ranges_lookup. by exists i, r. }
    unfold within in *.
    assert (r.1 <= j < r.2 <-> r.1 <= j < a \/ a <= j < a + n \/ a + n <= j < r.2) as E by lia.
    assert (a <= j < a + n -> ~ (r.1 <= j < a)) by lia. assert (a + n <= j < r.2 -> ~ (r.1 <= j < a)) by lia.
    assert (r.1 <= j < a \/ ~ (r.1 <= j < a)) by lia. assert (r.1 <= j < r.2 \/ ~ (r.1 <= j < r.2)) by lia.
    tauto.
  - intros j. by rewrite (proj1 (proj2 (fr_static _ _ _ _ Hf j))).
Qed.

Lemma allocated_taken s s' m o : 0 <= o -> allocated segs s s' m o -> taken segs s s' m (2 ^ o).
Proof.
  intros Ho [I B W F S C O]. split; try done. by apply block_busy_run.
Qed.

(** Every valid call returns and keeps the partition. *)
Lemma pexec_ok F sg st c :
  partition F sg st -> pvalid st c -> exists st', pexec c st = Ok st' /\ partition F sg st'.
Proof.
  intros HP. pose proof (pt_inv _ _ _ HP) as Hinv. pose proof (pow2_pos) as Hpow.
  destruct c as [ds p o|ds fl p o|ds np lo hi al bd|m|i a o|i a n]; cbn [pvalid pexec].
  - intros [Hp Ho].
    destruct (alloc_pages_ok segs Hsegs nfl ds p o (ps st) Hinv Hp Ho) as (r & s' & -> & Hr).
    rewrite bind_Ok. eexists. split; [reflexivity|]. unfold give. cbn [fst snd]. destruct r as [m|].
    + apply partition_taken; [done | pose proof (Hpow o); lia |]. apply allocated_taken; [lia | apply Hr].
    + destruct Hr as [-> _]. by destruct st.
  - intros (Hfl & Hfi & Hp & Ho).
    destruct (alloc_freelist_pages_ok segs Hsegs to_flind ds fl p o (ps st) Hinv Hfl Hfi Hp Ho) as
      (r & s' & -> & Hr).
    rewrite bind_Ok. eexists. split; [reflexivity|]. unfold give. cbn [fst snd]. destruct r as [m|].
    + apply partition_taken; [done | pose proof (Hpow o); lia |]. apply allocated_taken; [lia | apply Hr].
    + destruct Hr as [-> _]. by destruct st.
  - intros (Hn & Ha & Hb).
    destruct (alloc_contig_ok segs Hsegs ds np lo hi al bd (ps st) Hinv Hn Ha Hb) as (r & s' & -> & Hr).
    rewrite bind_Ok. eexists. split; [reflexivity|]. unfold give. cbn [fst snd]. destruct r as [m|].
    + apply partition_taken; [done | lia | apply Hr].
    + subst s'. by destruct st.
  - intros Hm. destruct (unfree_page_ok segs Hsegs m (ps st) Hinv Hm) as (b & s' & -> & Hb).
    rewrite bind_Ok. eexists. split; [reflexivity|]. unfold give. cbn [fst snd].
    destruct Hb as [[-> Hb]|(-> & -> & _)]; [|by destruct st].
    apply partition_taken; [done | lia |]. by apply (allocated_taken _ _ _ 0).
  - intros (Ho & Hal & r & Hi & H1 & H2). pose proof (pt_held _ _ _ HP) as Hh.
    pose proof (Forall_lookup_1 _ _ _ _ Hh Hi) as Hb. cbv beta in Hb. pose proof (Hpow o ltac:(lia)) as Hpo.
    assert (busy_run segs (ps st) a (2 ^ o)) as Hr.
    { apply (busy_run_sub segs (ps st) (ps st) r.1 (r.2 - r.1)); try done; [lia|].
      intros j Hj. apply (br_used _ _ _ _ Hb). lia. }
    destruct (free_pages_ok segs Hsegs a o (ps st) Hinv) as (s' & -> & Hf).
    { by apply (busy_run_block segs (ps st) a (2 ^ o)). }
    rewrite bind_Ok. eexists. split; [reflexivity|]. by apply (partition_freed F sg st s' i a (2 ^ o) r); try lia.
  - intros (Hn & r & Hi & H1 & H2). pose proof (pt_held _ _ _ HP) as Hh.
    pose proof (Forall_lookup_1 _ _ _ _ Hh Hi) as Hb. cbv beta in Hb.
    assert (busy_run segs (ps st) a n) as Hr.
    { apply (busy_run_sub segs (ps st) (ps st) r.1 (r.2 - r.1)); try done; [lia|].
      intros j Hj. apply (br_used _ _ _ _ Hb). lia. }
    destruct (free_contig_ok segs Hsegs a n (ps st) Hinv Hn) as (s' & -> & Hf); [done|].
    rewrite bind_Ok. eexists. split; [reflexivity|]. by apply (partition_freed F sg st s' i a n r).
Qed.

Lemma preach_partition F sg st0 st : partition F sg st0 -> preach st0 st -> partition F sg st.
Proof.
  intros H0 H. induction H as [|st c st' _ IH Hv E]; [done|].
  destruct (pexec_ok F sg st c IH Hv) as (st1 & E1 & H1). congruence.
Qed.
Lemma start_partition s :
  inv segs s -> partition (is_free s) (fun j => m_segind (pages s j)) (PState s []).
Proof.
  intros Hinv. split; [done | constructor | by intros i k ri rk j Hi | | done]. intros j. split; [by left|].
  intros [?|?%Exists_nil]; done.
Qed.
End calls.

(** * A small machine

    Memory has the frames 2 to 11, of which the start-up code takes 10 and 11:
    eight free pages, in blocks of two, four and two pages. *)

Definition ex_avail : list (Z * Z) := [(ptoa 2, ptoa 12)].

Definition ex : Z * list Z * list vm_phys_seg * phys :=
  match page_startup 1 None ex_avail (ptoa 10) [] with
  | Ok r => r
  | Panic _ => (0, [], [], start_state)
  end.

Definition ex_nfl : Z := ex.1.1.1.
Definition ex_flinds : list Z := ex.1.1.2.
Definition ex_segs : list vm_phys_seg := ex.1.2.
Definition ex_start : phys := ex.2.

Lemma layout_nil : layout [].
Proof. split; constructor. Qed.

Lemma ex_ranges : ranges_ok (shorten (round_ranges ex_avail) (ptoa 10)).
Proof.
  split; [|by split; [intros pa _ ?%Exists_nil|]]. repeat constructor; [|done].
  by exists 2, 10.
Qed.

Lemma ex_new_end : new_end_ok (round_ranges ex_avail) (ptoa 10).
Proof. intros p [= <-]. done. Qed.

Lemma ex_apart pa : in_ranges (shorten (round_ranges ex_avail) (ptoa 10)) pa -> ~ covered [] pa.
Proof. by intros _ ?%Exists_nil. Qed.

Lemma ex_ok :
  booted ex_nfl ex_flinds ex_segs /\ inv ex_segs ex_start /\
  forall j, is_free ex_start j <-> 2 <= j < 10.
Proof.
  destruct (page_startup_ok 1 ex_avail (ptoa 10) []) as (nfl & flinds & segs & s & E & Hb & Hi & Hf & _);
    [done | apply layout_nil | apply ex_ranges | done | apply ex_new_end | apply ex_apart | done|].
  assert (ex = (nfl, flinds, segs, s)) as Ex by (unfold ex; by rewrite E).
  unfold ex_nfl, ex_flinds, ex_segs, ex_start. rewrite Ex. cbn [fst snd].
  split; [done|]. split; [done|]. intros j. rewrite Hf.
  change (shorten (round_ranges ex_avail) (ptoa 10)) with [(ptoa 2, ptoa 10)].
  unfold in_ranges. rewrite Exists_cons, Exists_nil. cbn [fst snd].
  unfold within. rewrite ptoa_le, ptoa_lt. tauto.
Qed.

Lemma ex_segs_ok : segs_ok ex_segs.
Proof. apply (bt_segs _ _ _ (proj1 ex_ok)). Qed.

Lemma ex_inv : inv ex_segs ex_start.
Proof. apply ex_ok. Qed.

(** The heads of the blocks. *)
Example ex_queues :
  map (fun o => pl (queues ex_start (0, 0, 0) o)) [0; 1; 2; 3] = [[]; [2; 8]; [4]; []].
Proof. vm_compute. reflexivity. Qed.

(** ** A run of calls *)

Definition is_ok {A} (r : result A) : bool := match r with Ok _ => true | Panic _ => false end.
Definition get {A} (d : A) (r : result A) : A := match r with Ok a => a | Panic _ => d end.

Lemma ok_get {A} (d : A) r : is_ok r = true -> r = Ok (get d r).
Proof. by destruct r. Qed.

Abbreviation ex_reach := (preach ex_segs ex_nfl (zget ex_flinds) (PState ex_start [])).
Abbreviation ex_step c st := (get st (pexec ex_segs ex_nfl (zget ex_flinds) c st)).

Lemma ex_reach_step st c :
  ex_reach st -> pvalid ex_segs (zget ex_flinds) st c ->
  is_ok (pexec ex_segs ex_nfl (zget ex_flinds) c st) = true -> ex_reach (ex_step c st).
Proof.
  intros Hr Hv Hok. apply (preach_step _ _ _ _ st c); [done | done|]. by apply ok_get.
Qed.

(** A page of the other pool, a run of two pages, page 8, a page of the list for
    ISA DMA, and one page of the run given back. *)
Definition ex_1 : pstate := ex_step (PAlloc [0] 1 0) (PState ex_start []).
Definition ex_2 : pstate := ex_step (PContig [0] 2 0 (ptoa 10) (ptoa 2) 0) ex_1.
Definition ex_3 : pstate := ex_step (PUnfree 8) ex_2.
Definition ex_4 : pstate := ex_step (PAllocFreelist [0] VM_FREELIST_ISADMA 0 0) ex_3.
Definition ex_5 : pstate := ex_step (PFreeContig 2 2 1) ex_4.

Lemma ex_reach_5 : ex_reach ex_5.
Proof.
  apply ex_reach_step; [apply ex_reach_step; [apply ex_reach_step; [apply ex_reach_step;
    [apply ex_reach_step; [constructor | | ] | | ] | | ] | | ] | | ];
    try (vm_compute; reflexivity).
  - by split.
  - by split_and!.
  - split; by vm_compute.
  - by split_and!.
  - split; [done|]. exists (2, 4). by vm_compute.
Qed.

Lemma ex_held_5 : held ex_5 = [(3, 4); (9, 10); (8, 9); (2, 2); (4, 5)].
Proof. vm_compute. reflexivity. Qed.

(** The first page given back. *)
Definition ex_back : pstate := ex_step (PFree 0 4 0) ex_1.

Lemma ex_reach_back : ex_reach ex_back.
Proof.
  apply ex_reach_step; [apply ex_reach_step; [constructor | by split | by vm_compute] | | by vm_compute].
  split; [done|]. split; [done|]. exists (4, 5). by vm_compute.
Qed.

Lemma ex_held_back j : ~ in_ranges (held ex_back) j.
Proof.
  assert (held ex_back = [(5, 5); (4, 4)]) as -> by (vm_compute; reflexivity).
  unfold in_ranges. rewrite !Exists_cons, Exists_nil. unfold within. cbn [fst snd]. lia.
Qed.

(** ** What the code leaves open *)

(** This machine has no memory above 16 MB: the other lists have the index -1,
    and an allocation from one of them reads before [vm_phys_free_queues]. *)
Example missing_freelist :
  zget ex_flinds VM_FREELIST_DEFAULT = -1 /\
  vm_phys_alloc_freelist_pages (zget ex_flinds) [0] VM_FREELIST_DEFAULT 0 0 ex_start =
    Panic "vm_phys_free_queues: index out of bounds".
Proof. vm_compute. by split. Qed.

(** The list for 32-bit DMA is made although there are not more than 16M pages
    above 4 GB: the pages of a segment below that are counted with them. *)
Example dma32_counts_low_pages :
  let segs := [Seg VM_ISADMA_BOUNDARY (2 * VM_ISADMA_BOUNDARY) 0 0 0;
               Seg (2 ^ 30) (2 ^ 31) 0 0 0;
               Seg VM_DMA32_BOUNDARY (VM_DMA32_BOUNDARY + ptoa 16777000) 0 0 0] in
  zget (snd (mark_lists segs)) VM_FREELIST_DMA32 = 1 /\ 16777000 < VM_DMA32_NPAGES_THRESHOLD.
Proof. vm_compute. by split. Qed.
