(* ===== verification/PhysProps.v ===== *)
(** * Properties of the physical memory allocator (src/sys/vm/vm_phys.c)

    [is_free s j]: page [j] is in a block of the free lists. [inv] is the
    invariant of PhysInv.v: blocks are aligned, of one segment and one pool,
    in the right queue with its exact count, and joined with their buddies. *)

From S2P Require Import Prelude Phys PhysInv PhysFree PhysAlloc PhysContig PhysSeg PhysBoot PhysHeld.

(** ** Sequences of calls *)

(** C10: over any sequence of valid calls, of every kind of allocation and of
    frees of parts of what was given out, the pages that were free at the
    start are at any time either free or in exactly one of the runs held: no
    page is given twice and none is lost. The invariant holds, and no valid
    call panics or runs out of fuel. *)
Theorem phys_pages_exclusive segs nfl to_flind s0 st :
  segs_ok segs -> inv segs s0 -> preach segs nfl to_flind (PState s0 []) st ->
  inv segs (ps st) /\ apart (held st) /\
  (forall j, is_free s0 j <-> is_free (ps st) j \/ in_ranges (held st) j) /\
  (forall j, is_free (ps st) j -> ~ in_ranges (held st) j) /\
  (forall c, pvalid segs to_flind st c -> exists st', pexec segs nfl to_flind c st = Ok st').
Proof.
  intros Hsegs Hinv Hr.
  pose proof (preach_partition segs nfl to_flind Hsegs _ _ _ st (start_partition segs s0 Hinv) Hr) as HP.
  split_and!; try apply HP.
  - intros j Hf Hin. pose proof (pt_held _ _ _ _ HP) as Hh. rewrite Forall_forall in Hh.
    apply Exists_exists in Hin as (r & Hin & Hw).
    apply (br_used _ _ _ _ (Hh r Hin) j); [unfold within in Hw; lia | done].
  - intros c Hv. destruct (pexec_ok segs nfl to_flind Hsegs _ _ st c HP Hv) as (st' & E & _).
    by exists st'.
Qed.

Lemma phys_pages_exclusive_witness :
  inv ex_segs (ps ex_5) /\
  (is_free ex_start 3 <-> is_free (ps ex_5) 3 \/ in_ranges [(3, 4); (9, 10); (8, 9); (2, 2); (4, 5)] 3).
Proof.
  rewrite <- ex_held_5.
  destruct (phys_pages_exclusive ex_segs ex_nfl (zget ex_flinds) ex_start ex_5) as (H1 & _ & H2 & _);
    [apply ex_segs_ok | apply ex_inv | apply ex_reach_5 |].
  split; [exact H1 | apply H2].
Defined.

(** C39: whenever the callers hold nothing, after any sequence of calls, the
    free lists have the same blocks as at the start: however the blocks were
    split, and whatever pools they went through, they are joined again. *)
Theorem phys_blocks_restored segs nfl to_flind s0 st :
  segs_ok segs -> inv segs s0 -> preach segs nfl to_flind (PState s0 []) st ->
  (forall j, ~ in_ranges (held st) j) ->
  forall m o, is_head (ps st) m o <-> is_head s0 m o.
Proof.
  intros Hsegs Hinv Hr Hnone m o.
  destruct (preach_partition segs nfl to_flind Hsegs _ _ _ st (start_partition segs s0 Hinv) Hr) as
    [Hi _ _ Hall Hsg].
  assert (forall j, is_free s0 j <-> is_free (ps st) j) as Hf.
  { intros j. rewrite Hall. specialize (Hnone j). tauto. }
  split; apply (heads_determined segs); done.
Qed.

Lemma phys_blocks_restored_witness : is_head (ps ex_back) 4 2 <-> is_head ex_start 4 2.
Proof.
  apply (phys_blocks_restored ex_segs ex_nfl (zget ex_flinds) ex_start ex_back);
    [apply ex_segs_ok | apply ex_inv | apply ex_reach_back | apply ex_held_back].
Defined.

(** ** Allocation *)

(** C40: vm_phys_alloc_pages gives the head of an aligned block of the asked
    order, all of whose pages were free and which are then exactly the pages
    that are no longer so; they are of the asked pool, keep address and
    segment, and the invariant holds. It returns NULL, and changes nothing,
    only when no free list of a domain that it tried has an aligned run of so
    many free pages of one segment. *)
Theorem phys_alloc_pages_correct segs nfl domains p o s :
  segs_ok segs -> inv segs s -> 0 <= p < VM_NFREEPOOL -> 0 <= o < VM_NFREEORDER ->
  exists r s', vm_phys_alloc_pages nfl domains p o s = Ok (r, s') /\
    match r with
    | Some m =>
        inv segs s' /\ m mod 2 ^ o = 0 /\ pool s' m = p /\
        (forall j, m <= j < m + 2 ^ o -> is_free s j) /\
        (forall j, is_free s' j <-> is_free s j /\ ~ (m <= j < m + 2 ^ o)) /\
        (forall j, m_phys_addr (pages s' j) = m_phys_addr (pages s j) /\
                   m_segind (pages s' j) = m_segind (pages s j))
    | None =>
        s' = s /\ forall d f a, d ∈ domains -> 0 <= f < nfl -> a mod 2 ^ o = 0 ->
          in_list segs s d f a ->
          (forall j, a <= j < a + 2 ^ o -> m_segind (pages s j) = m_segind (pages s a)) ->
          ~ (forall j, a <= j < a + 2 ^ o -> is_free s j)
    end.
Proof.
  intros Hsegs Hinv Hp Ho.
  destruct (alloc_pages_ok segs Hsegs nfl domains p o s Hinv Hp Ho) as (r & s' & E & Hr).
  exists r, s'. split; [done|]. destruct r as [m|].
  - destruct Hr as [[I B W F S C O] Hpool]. split_and!; try done; [apply B|].
    intros j. by destruct (S j) as (? & ? & _).
  - destruct Hr as [-> Hl]. split; [done|]. intros d f a Hd Hf Ha Hin Hseg.
    apply (list_lacks_run segs s d f o a Hinv Ho); try done. by apply Hl.
Qed.

Lemma phys_alloc_pages_correct_witness :
  exists r s', vm_phys_alloc_pages ex_nfl [0] 1 1 ex_start = Ok (r, s') /\
    match r with Some m => inv ex_segs s' /\ m mod 2 ^ 1 = 0 | None => s' = ex_start end.
Proof.
  destruct (phys_alloc_pages_correct ex_segs ex_nfl [0] 1 1 ex_start ex_segs_ok ex_inv) as (r & s' & E & H);
    [by split | by split |].
  exists r, s'. split; [exact E|]. destruct r as [m|]; [|apply H]. split; apply H.
Defined.

(** C32: vm_phys_alloc_contig, when it gives a run, gives pages that were all
    free and are then exactly the pages that are no longer so; the run lies
    between [low] and [high], starts at a multiple of [alignment] and does not
    cross a multiple of [boundary], if that is not 0. When it returns NULL
    nothing has changed. It does not panic, however many blocks the run
    takes. *)
Theorem phys_alloc_contig_correct segs domains npages low high alignment boundary s :
  segs_ok segs -> inv segs s -> 0 < npages ->
  0 < alignment < 2 ^ 64 -> powerof2 alignment = true ->
  0 <= boundary < 2 ^ 64 -> powerof2 boundary = true ->
  exists r s', vm_phys_alloc_contig segs domains npages low high alignment boundary s = Ok (r, s') /\
    match r with
    | Some m =>
        inv segs s' /\
        (forall j, m <= j < m + npages -> is_free s j) /\
        (forall j, is_free s' j <-> is_free s j /\ ~ (m <= j < m + npages)) /\
        low <= ptoa m /\ ptoa (m + npages) <= high /\ ptoa m mod alignment = 0 /\
        (boundary <> 0 -> ptoa m / boundary = (ptoa (m + npages) - 1) / boundary)
    | None => s' = s
    end.
Proof.
  intros Hsegs Hinv Hn Hra Ha Hrb Hb.
  destruct (alloc_contig_ok segs Hsegs domains npages low high alignment boundary s Hinv Hn Ha Hb) as
    (r & s' & E & Hr).
  exists r, s'. split; [done|]. destruct r as [m|]; [|done].
  destruct Hr as [[I R W F S C O] (H1 & H2 & H3 & H4)]. split_and!; try done.
  - destruct (powerof2_inv alignment Hra Ha) as (k & Hk & ->). by apply aligned_land.
  - intros Hne. destruct (powerof2_inv boundary) as (k & Hk & ->); [lia | done|].
    by apply same_block_land.
Qed.

Lemma phys_alloc_contig_correct_witness :
  exists r s', vm_phys_alloc_contig ex_segs [0] 3 0 (ptoa 10) (ptoa 4) (ptoa 4) ex_start = Ok (r, s') /\
    match r with Some m => forall j, m <= j < m + 3 -> is_free ex_start j | None => s' = ex_start end.
Proof.
  destruct (phys_alloc_contig_correct ex_segs [0] 3 0 (ptoa 10) (ptoa 4) (ptoa 4) ex_start ex_segs_ok ex_inv)
    as (r & s' & E & H); [done | by split | reflexivity | by split | reflexivity |].
  exists r, s'. split; [exact E|]. destruct r as [m|]; apply H.
Defined.

(** ** Taking a page out of its block *)

(** Vm_phys_unfree_page succeeds exactly when the page is free; then it
    takes just that page from the free pages, whatever block it is in, and the
    invariant holds; otherwise it changes nothing. *)
Theorem phys_unfree_correct segs m s :
  segs_ok segs -> inv segs s -> page_ok segs s m ->
  exists b s', vm_phys_unfree_page segs m s = Ok (b, s') /\
    (b = true <-> is_free s m) /\ inv segs s' /\
    (forall j, is_free s' j <-> is_free s j /\ j <> m) /\ (b = false -> s' = s).
Proof.
  intros Hsegs Hinv Hm. destruct (unfree_page_ok segs Hsegs m s Hinv Hm) as (b & s' & E & Hb).
  exists b, s'. split; [done|]. destruct Hb as [[-> [I B W F S C O]]|(-> & -> & Hn)].
  - split_and!; try done.
    + split; [|done]. intros _. apply W. unfold block. lia.
    + intros j. rewrite F. unfold block. split; intros [? ?]; (split; [done | lia]).
  - split_and!; try done. intros j. split; [|by intros [? _]]. intros Hj. split; [done|].
    by intros ->.
Qed.

Lemma phys_unfree_correct_witness :
  exists b s', vm_phys_unfree_page ex_segs 6 ex_start = Ok (b, s') /\ (b = true <-> is_free ex_start 6).
Proof.
  destruct (phys_unfree_correct ex_segs 6 ex_start ex_segs_ok ex_inv) as (b & s' & E & H & _);
    [split; by vm_compute|].
  exists b, s'. split; [exact E | exact H].
Defined.

(** ** The start of the system *)

(** From the ranges of phys_avail, vm_page_startup makes segments that are
    apart and in order, one for each part of a range that a free list's
    boundary cuts off, and puts exactly the pages of the ranges, less what
    the start-up code took, in the free lists, in the invariant and with exact
    counts. It needs no more than the 63 segments that there is room for. *)
Theorem phys_boot_correct nd phys_avail new_end segs0 :
  let avail := shorten (round_ranges phys_avail) new_end in
  0 < nd -> layout segs0 -> ranges_ok avail -> avail <> [] ->
  new_end_ok (round_ranges phys_avail) new_end ->
  (forall pa, in_ranges avail pa -> ~ covered segs0 pa) ->
  zlength segs0 + seg_counts avail <= VM_PHYSSEG_MAX ->
  exists nfl flinds segs s, page_startup nd None phys_avail new_end segs0 = Ok (nfl, flinds, segs, s) /\
    booted nfl flinds segs /\ inv segs s /\
    (forall j, is_free s j <-> in_ranges avail (ptoa j)) /\
    v_page_count (counts s) = range_pages avail /\ v_free_count (counts s) = range_pages avail.
Proof.
  intros avail Hd Hl Hr Hne Hnew Hap Hn.
  destruct (page_startup_ok nd phys_avail new_end segs0 Hd Hl Hr Hne Hnew Hap Hn) as
    (nfl & flinds & segs & s & E & Hb & Hi & Hf & (C1 & C2 & _)).
  by exists nfl, flinds, segs, s.
Qed.

Lemma phys_boot_correct_witness :
  exists nfl flinds segs s, page_startup 1 None ex_avail (ptoa 10) [] = Ok (nfl, flinds, segs, s) /\
    v_free_count (counts s) = 8.
Proof.
  destruct (phys_boot_correct 1 ex_avail (ptoa 10) []) as (nfl & flinds & segs & s & E & _ & _ & _ & _ & H);
    [done | apply layout_nil | apply ex_ranges | done | apply ex_new_end | apply ex_apart | done|].
  exists nfl, flinds, segs, s. split; [exact E | exact H].
Defined.

(** ** The free lists *)

(** On a system that started, a block taken from the free list for ISA DMA
    is below 16 MB if there is memory there at all, and one taken from the
    list for 32-bit DMA, if that list was made, is between 16 MB and 4 GB. *)
Theorem phys_freelist_bounds nfl flinds segs domains fl p o s m s' :
  booted nfl flinds segs -> inv segs s -> fl < VM_NFREELIST -> 0 <= zget flinds fl -> 0 <= p < VM_NFREEPOOL ->
  0 <= o < VM_NFREEORDER ->
  vm_phys_alloc_freelist_pages (zget flinds) domains fl p o s = Ok (Some m, s') ->
  (fl = VM_FREELIST_ISADMA -> Exists (fun seg => seg_end seg <= VM_ISADMA_BOUNDARY) segs ->
   ptoa (m + 2 ^ o) <= VM_ISADMA_BOUNDARY) /\
  (fl = VM_FREELIST_DMA32 -> zget flinds VM_FREELIST_DEFAULT < zget flinds VM_FREELIST_DMA32 ->
   VM_ISADMA_BOUNDARY <= ptoa m /\ ptoa (m + 2 ^ o) <= VM_DMA32_BOUNDARY).
Proof.
  intros Hb Hinv Hfl Hfi Hp Ho E. pose proof (bt_segs _ _ _ Hb) as Hsegs.
  destruct (alloc_freelist_pages_ok segs Hsegs (zget flinds) domains fl p o s Hinv Hfl Hfi Hp Ho) as
    (r & s1 & E1 & Hr).
  rewrite E in E1. injection E1 as <- <-. destruct Hr as (Ha & _ & d & Hin).
  destruct (allocated_seg nfl flinds segs s s' m o Hb (proj1 Ho) Ha) as
    (made & seg & Hl & Hlo & Hset & Hm & Hf & H1 & H2).
  destruct Hin as [_ Hin]. rewrite Hf in Hin. split; intros ->.
  - intros Hex. transitivity (seg_end seg); [done|]. apply freelist_isadma.
    apply Exists_exists in Hex as (x' & [i Hx]%list_elem_of_lookup & Hxe).
    destruct (Forall2_lookup_r _ _ _ _ _ Hset Hx) as (x & Hi & Hs).
    apply (lo_isadma _ _ _ Hlo x seg); [by eapply list_elem_of_lookup_2 | done | | done].
    apply freelist_isadma. by rewrite <- (st_end _ _ _ Hs).
  - intros Hlt. pose proof (lo_dma32 _ _ _ Hlo seg Hm Hlt Hin) as Hdm.
    destruct (freelist_dma32 seg) as [H3 H4]; [by apply (la_wf_elem made) | done|]. lia.
Qed.

Lemma phys_freelist_bounds_witness :
  vm_phys_alloc_freelist_pages (zget ex_flinds) [0] VM_FREELIST_ISADMA 0 1 ex_start =
    Ok (Some 2, get ex_start (vm_freelist_rem (0, 0, 0) 2 1 ex_start)) /\
  ptoa (2 + 2 ^ 1) <= VM_ISADMA_BOUNDARY.
Proof.
  assert (vm_phys_alloc_freelist_pages (zget ex_flinds) [0] VM_FREELIST_ISADMA 0 1 ex_start =
    Ok (Some 2, get ex_start (vm_freelist_rem (0, 0, 0) 2 1 ex_start))) as E by (vm_compute; reflexivity).
  split; [exact E|].
  apply (phys_freelist_bounds ex_nfl ex_flinds ex_segs [0] VM_FREELIST_ISADMA 0 1 ex_start 2 _
    (proj1 ex_ok) ex_inv) in E; [|by vm_compute ..|by split|by split].
  apply (proj1 E); [reflexivity|]. left. by vm_compute.
Defined.
