(* ===== verification/LfGraph.v ===== *)
(** * The graph of lock owners (src/sys/kern/kern_lockf.c)

    The graph in which the advisory locks look for deadlocks: a vertex for an
    owner, an edge to an owner that it waits for. The vertices are kept in a
    topological order, [v_order], which the insertion of an edge restores by
    the algorithm of Pearce and Kelly.

    A vertex is named by its address; an edge by its two ends, of which there
    is at most one: [e_refs] is the number of times it was added, 0 where there
    is none. The two lists of edges of a vertex hold their other ends. The
    arrays [g_vertices] and [g_indexbuf] have [g_space] elements. *)

From S2P Require Import Prelude.

Definition EDEADLK : Z := 11.

Record owner_vertex := Vertex {
  v_gen : Z;
  v_order : Z;
  v_outedges : list Z;
  v_inedges : list Z;
  v_owner : Z;
}.

Record owner_graph := Graph {
  g_vertices : list Z;
  g_size : Z;
  g_space : Z;
  g_indexbuf : list Z;
  g_gen : Z;
  vertex : Z -> owner_vertex;
  e_refs : Z -> Z -> Z;
}.

Definition set_g_vertices (a : list Z) (g : owner_graph) : owner_graph :=
  Graph a (g_size g) (g_space g) (g_indexbuf g) (g_gen g) (vertex g) (e_refs g).
Definition set_g_size (n : Z) (g : owner_graph) : owner_graph :=
  Graph (g_vertices g) n (g_space g) (g_indexbuf g) (g_gen g) (vertex g) (e_refs g).
Definition set_g_indexbuf (a : list Z) (g : owner_graph) : owner_graph :=
  Graph (g_vertices g) (g_size g) (g_space g) a (g_gen g) (vertex g) (e_refs g).
Definition set_g_gen (n : Z) (g : owner_graph) : owner_graph :=
  Graph (g_vertices g) (g_size g) (g_space g) (g_indexbuf g) n (vertex g) (e_refs g).
Definition set_vertex (v : Z) (r : owner_vertex) (g : owner_graph) : owner_graph :=
  Graph (g_vertices g) (g_size g) (g_space g) (g_indexbuf g) (g_gen g)
    (fun w => if w =? v then r else vertex g w) (e_refs g).
Definition set_e_refs (x y n : Z) (g : owner_graph) : owner_graph :=
  Graph (g_vertices g) (g_size g) (g_space g) (g_indexbuf g) (g_gen g) (vertex g)
    (fun a b => if (a =? x) && (b =? y) then n else e_refs g a b).

Definition set_v_gen (v n : Z) (g : owner_graph) : owner_graph :=
  let r := vertex g v in set_vertex v (Vertex n (v_order r) (v_outedges r) (v_inedges r) (v_owner r)) g.
Definition set_v_order (v n : Z) (g : owner_graph) : owner_graph :=
  let r := vertex g v in set_vertex v (Vertex (v_gen r) n (v_outedges r) (v_inedges r) (v_owner r)) g.
Definition set_v_outedges (v : Z) (l : list Z) (g : owner_graph) : owner_graph :=
  let r := vertex g v in set_vertex v (Vertex (v_gen r) (v_order r) l (v_inedges r) (v_owner r)) g.
Definition set_v_inedges (v : Z) (l : list Z) (g : owner_graph) : owner_graph :=
  let r := vertex g v in set_vertex v (Vertex (v_gen r) (v_order r) (v_outedges r) l (v_owner r)) g.

Abbreviation order g v := (v_order (vertex g v)).
Abbreviation gen_of g v := (v_gen (vertex g v)).
Abbreviation outs g v := (v_outedges (vertex g v)).
Abbreviation ins g v := (v_inedges (vertex g v)).

(** ** Vertices *)

Definition graph_init : owner_graph :=
  Graph (replicate 10 0) 0 10 (replicate 10 0) 0 (fun _ => Vertex 0 0 [] [] 0) (fun _ _ => 0).

(** The arrays are enlarged when they are full. *)
Definition graph_grow (g : owner_graph) : owner_graph :=
  if g_size g =? g_space g then
    Graph (g_vertices g ++ replicate (Z.to_nat (g_space g)) 0) (g_size g) (2 * g_space g)
      (replicate (Z.to_nat (2 * g_space g)) 0) (g_gen g) (vertex g) (e_refs g)
  else g.

(** [v] is the address that malloc gives. *)
Definition graph_alloc_vertex (g : owner_graph) (lo v : Z) : owner_graph :=
  let g := graph_grow g in
  let g := set_vertex v (Vertex (g_gen g) (g_size g) [] [] lo) g in
  let g := set_g_vertices (zset (g_vertices g) (g_size g) v) g in
  set_g_size (g_size g + 1) g.

(** The [for] loop of [graph_free_vertex], [n] rounds from [i]. *)
Definition close_gap (n : nat) (i : Z) (g : owner_graph) : owner_graph :=
  foreach n i (fun i g =>
    let w := zget (g_vertices g) i in
    let g := set_v_order w (order g w - 1) g in
    set_g_vertices (zset (g_vertices g) (i - 1) w) g) g.

Definition is_empty (l : list Z) : bool := match l with [] => true | _ => false end.

Definition graph_free_vertex (g : owner_graph) (v : Z) : result owner_graph :=
  require (is_empty (outs g v)) "Freeing vertex with edges";;
  require (is_empty (ins g v)) "Freeing vertex with edges";;
  let i := order g v + 1 in
  let g := close_gap (Z.to_nat (g_size g - i)) i g in
  Ok (set_g_size (g_size g - 1) g).

(** ** The affected region *)

(** The edges from one vertex: whether [x] was seen, the list and its length. *)
Fixpoint forward_edges (es : list Z) (x gen : Z) (delta : list Z) (n : Z) (g : owner_graph)
    : bool * list Z * Z * owner_graph :=
  match es with
  | [] => (false, delta, n, g)
  | e_to :: es =>
      if e_to =? x then (true, delta, n, g)
      else if (order g e_to <? order g x) && negb (gen_of g e_to =? gen) then
        forward_edges es x gen (delta ++ [e_to]) (n + 1) (set_v_gen e_to gen g)
      else forward_edges es x gen delta n g
  end.

(** The [while] loop, with [v] the element [i] of the list. *)
Fixpoint forward_loop (fuel : nat) (i : nat) (x gen : Z) (delta : list Z) (n : Z) (g : owner_graph)
    : result (Z * list Z * owner_graph) :=
  match delta !! i with
  | None => Ok (n, delta, g)
  | Some v =>
      match fuel with
      | O => Panic "fuel"
      | S fuel =>
          let '(loop, delta, n, g) := forward_edges (outs g v) x gen delta n g in
          if loop then Ok (-1, delta, g) else forward_loop fuel (S i) x gen delta n g
      end
  end.

Definition graph_delta_forward (g : owner_graph) (x y : Z) : result (Z * list Z * owner_graph) :=
  forward_loop (S (Z.to_nat (g_size g))) 0 x (g_gen g) [y] 1 g.

Fixpoint backward_edges (es : list Z) (y gen : Z) (delta : list Z) (n : Z) (g : owner_graph)
    : list Z * Z * owner_graph :=
  match es with
  | [] => (delta, n, g)
  | e_from :: es =>
      if (order g y <? order g e_from) && negb (gen_of g e_from =? gen) then
        backward_edges es y gen (e_from :: delta) (n + 1) (set_v_gen e_from gen g)
      else backward_edges es y gen delta n g
  end.

(** Here [v] is the element [i] from the end of the list. *)
Fixpoint backward_loop (fuel : nat) (i : nat) (y gen : Z) (delta : list Z) (n : Z) (g : owner_graph)
    : result (Z * list Z * owner_graph) :=
  match reverse delta !! i with
  | None => Ok (n, delta, g)
  | Some v =>
      match fuel with
      | O => Panic "fuel"
      | S fuel =>
          let '(delta, n, g) := backward_edges (ins g v) y gen delta n g in
          backward_loop fuel (S i) y gen delta n g
      end
  end.

Definition graph_delta_backward (g : owner_graph) (x y : Z) : result (Z * list Z * owner_graph) :=
  backward_loop (S (Z.to_nat (g_size g))) 0 y (g_gen g) [x] 1 g.

(** ** The new order *)

(** [for (i = n; i > 0 && indices[i - 1] > v->v_order; i--)]. *)
Fixpoint index_pos (n : nat) (indices : list Z) (o : Z) : Z :=
  match n with
  | O => 0
  | S k => if o <? zget indices (Z.of_nat k) then index_pos k indices o else Z.of_nat n
  end.

(** [for (j = n - 1; j >= i; j--) indices[j + 1] = indices[j]], [cnt] rounds. *)
Fixpoint index_shift (cnt : nat) (j : Z) (indices : list Z) : list Z :=
  match cnt with
  | O => indices
  | S cnt => index_shift cnt (j - 1) (zset indices (j + 1) (zget indices j))
  end.

Fixpoint graph_add_indices (g : owner_graph) (indices : list Z) (n : Z) (set : list Z) : Z * list Z :=
  match set with
  | [] => (n, indices)
  | v :: set =>
      let i := index_pos (Z.to_nat n) indices (order g v) in
      let indices := index_shift (Z.to_nat (n - i)) (n - 1) indices in
      graph_add_indices g (zset indices i (order g v)) (n + 1) set
  end.

(** The [TAILQ_FOREACH] that finds the lowest vertex of the set. *)
Fixpoint lowest (g : owner_graph) (vlowest : Z) (set : list Z) : Z :=
  match set with
  | [] => vlowest
  | v :: set => lowest g (if order g v <? order g vlowest then v else vlowest) set
  end.

Fixpoint list_remove (v : Z) (l : list Z) : list Z :=
  match l with
  | [] => []
  | w :: l => if w =? v then l else w :: list_remove v l
  end.

(** The [while] loop takes one vertex off the set in each of its [n] rounds. *)
Fixpoint assign_loop (n : nat) (indices : list Z) (nextunused : Z) (set : list Z) (g : owner_graph)
    : Z * owner_graph :=
  match n, set with
  | S n, v :: rest =>
      let vlowest := lowest g v rest in
      let set := list_remove vlowest set in
      let g := set_v_order vlowest (zget indices nextunused) g in
      let g := set_g_vertices (zset (g_vertices g) (order g vlowest) vlowest) g in
      assign_loop n indices (nextunused + 1) set g
  | _, _ => (nextunused, g)
  end.

Definition graph_assign_indices (g : owner_graph) (indices : list Z) (nextunused : Z) (set : list Z)
    : Z * owner_graph :=
  assign_loop (length set) indices nextunused set g.

(** ** Edges *)

(** The generation number goes up; when it wraps, the marks are cleared. *)
Definition graph_next_gen (g : owner_graph) : owner_graph :=
  let g := set_g_gen (u32 (g_gen g + 1)) g in
  if g_gen g =? 0 then
    let g := foreach (Z.to_nat (g_size g)) 0 (fun vi g => set_v_gen (zget (g_vertices g) vi) 0 g) g in
    set_g_gen (u32 (g_gen g + 1)) g
  else g.

(** The re-ordering for an edge from [x] to [y]: 0 or EDEADLK. *)
Definition graph_reorder (g : owner_graph) (x y : Z) : result (Z * owner_graph) :=
  let g := graph_next_gen g in
  '(nF, deltaF, g) ← graph_delta_forward g x y;
  if nF <? 0 then Ok (EDEADLK, g)
  else
    '(nB, deltaB, g) ← graph_delta_backward g x y;
    let '(n, indices) := graph_add_indices g (g_indexbuf g) 0 deltaF in
    let '(_, indices) := graph_add_indices g indices n deltaB in
    let g := set_g_indexbuf indices g in
    let '(i, g) := graph_assign_indices g indices 0 deltaB in
    let '(_, g) := graph_assign_indices g indices i deltaF in
    Ok (0, g).

Definition graph_add_edge (g : owner_graph) (x y : Z) : result (Z * owner_graph) :=
  if bool_decide (y ∈ outs g x) then Ok (0, set_e_refs x y (e_refs g x y + 1) g)
  else
    '(error, g) ← (if order g y <? order g x then graph_reorder g x y else Ok (0, g));
    if negb (error =? 0) then Ok (error, g)
    else
      require (order g x <? order g y) "Failed to re-order graph";;
      let g := set_v_outedges x (y :: outs g x) g in
      let g := set_v_inedges y (x :: ins g y) g in
      Ok (0, set_e_refs x y 1 g).

Definition graph_remove_edge (g : owner_graph) (x y : Z) : result owner_graph :=
  require (bool_decide (y ∈ outs g x)) "Removing non-existent edge from deadlock graph";;
  let g := set_e_refs x y (e_refs g x y - 1) g in
  if e_refs g x y =? 0 then
    let g := set_v_outedges x (list_remove y (outs g x)) g in
    Ok (set_v_inedges y (list_remove x (ins g y)) g)
  else Ok g.
