(* ===== verification/LfGraphInv.v ===== *)
(** * The order of the owner graph and the search for cycles

    [graph_ok]: the vertices are numbered in the array by [v_order], the two
    ends of an edge list each other, an edge goes up in the order and has been
    added as often as it is counted. The searches of the affected region find
    a path or exactly the vertices between the two ends that follow the one
    or precede the other. *)

From stdpp Require Import relations sorting.
From S2P Require Import Prelude LfGraph.

Definition vertices (g : owner_graph) : list Z := take (Z.to_nat (g_size g)) (g_vertices g).
Definition live (g : owner_graph) (v : Z) : Prop := v ∈ vertices g.
Definition edge (g : owner_graph) (a b : Z) : Prop := b ∈ outs g a.

Record graph_ok (g : owner_graph) : Prop := GraphOk {
  go_size : 0 <= g_size g <= g_space g;
  go_space : 0 < g_space g;
  go_vertices : zlength (g_vertices g) = g_space g;
  go_indexbuf : zlength (g_indexbuf g) = g_space g;
  go_order i v : vertices g !! i = Some v -> order g v = Z.of_nat i;
  go_ends a b : b ∈ outs g a <-> a ∈ ins g b;
  go_edge a b : edge g a b -> live g a /\ live g b /\ order g a < order g b;
  go_outs a : NoDup (outs g a);
  go_ins a : NoDup (ins g a);
  go_refs a b : 0 <= e_refs g a b /\ (edge g a b <-> 0 < e_refs g a b);
  go_gen v : live g v -> 0 <= gen_of g v <= g_gen g;
  go_gen_range : 0 <= g_gen g < 2 ^ 32;
}.

Section order.
Context (g : owner_graph) (Hok : graph_ok g).

Lemma live_index v : live g v <-> exists i, vertices g !! i = Some v.
Proof. apply list_elem_of_lookup. Qed.

Lemma vertices_length : length (vertices g) = Z.to_nat (g_size g).
Proof.
  unfold vertices. rewrite length_take. pose proof (go_size _ Hok). pose proof (go_vertices _ Hok) as Hl.
  unfold zlength in Hl. lia.
Qed.

Lemma live_order v : live g v -> 0 <= order g v < g_size g.
Proof.
  intros [i Hi]%live_index. rewrite (go_order _ Hok i v Hi). apply lookup_lt_Some in Hi.
  rewrite vertices_length in Hi. lia.
Qed.

Lemma order_vertex v : live g v -> vertices g !! Z.to_nat (order g v) = Some v.
Proof. intros [i Hi]%live_index. rewrite (go_order _ Hok i v Hi), Nat2Z.id. done. Qed.

Lemma order_inj v w : live g v -> live g w -> order g v = order g w -> v = w.
Proof. intros Hv%order_vertex Hw%order_vertex E. rewrite E in Hv. congruence. Qed.

Lemma live_set_length l : NoDup l -> (forall v, v ∈ l -> live g v) -> (length l <= Z.to_nat (g_size g))%nat.
Proof.
  intros Hnd Hl. rewrite <- vertices_length. apply NoDup_incl_length; [by apply NoDup_ListNoDup|].
  intros v Hv. apply list_elem_of_In, Hl, list_elem_of_In. done.
Qed.

Lemma edge_irrefl v : ~ edge g v v.
Proof. intros H. pose proof (go_edge _ Hok v v H). lia. Qed.

(** A path goes up in the order. *)
Lemma path_order a b : rtc (edge g) a b -> a = b \/ (live g a /\ live g b /\ order g a < order g b).
Proof.
  induction 1 as [a|a b c Hab _ [->|(Hb & Hc & Hlt)]]; [by left | |]; right;
    destruct (go_edge _ Hok a _ Hab) as (? & ? & ?); split_and!; try done; lia.
Qed.

Lemma path_acyclic a b : edge g a b -> ~ rtc (edge g) b a.
Proof.
  intros Hab [->|(_ & _ & Hlt)]%path_order; [by apply (edge_irrefl a)|].
  pose proof (go_edge _ Hok a b Hab). lia.
Qed.

Lemma path_antisym a b : rtc (edge g) a b -> rtc (edge g) b a -> a = b.
Proof.
  intros [->|(_ & _ & H1)]%path_order [E|(_ & _ & H2)]%path_order; [done | done | done | lia].
Qed.
End order.

(** ** Marks *)

(** Only marks were changed. *)
Record same_but_gen (g g' : owner_graph) : Prop := SameButGen {
  sg_vertices : g_vertices g' = g_vertices g;
  sg_size : g_size g' = g_size g;
  sg_space : g_space g' = g_space g;
  sg_indexbuf : g_indexbuf g' = g_indexbuf g;
  sg_gen : g_gen g' = g_gen g;
  sg_refs : e_refs g' = e_refs g;
  sg_order v : order g' v = order g v;
  sg_outs v : outs g' v = outs g v;
  sg_ins v : ins g' v = ins g v;
  sg_owner v : v_owner (vertex g' v) = v_owner (vertex g v);
  sg_marks v : gen_of g' v = gen_of g v \/ gen_of g' v = g_gen g;
}.

Lemma same_but_gen_refl g : same_but_gen g g.
Proof. split; auto. Qed.

Lemma same_but_gen_trans g1 g2 g3 : same_but_gen g1 g2 -> same_but_gen g2 g3 -> same_but_gen g1 g3.
Proof.
  intros [] []. split; try congruence. intros v. destruct (sg_marks1 v) as [->| ->]; [auto|].
  right. congruence.
Qed.

Lemma vertex_set v r g w : vertex (set_vertex v r g) w = if w =? v then r else vertex g w.
Proof. done. Qed.

Lemma set_v_gen_same v g : same_but_gen g (set_v_gen v (g_gen g) g).
Proof.
  split; try done; intros w; unfold set_v_gen; rewrite vertex_set; destruct (Z.eqb_spec w v) as [->|]; auto.
Qed.

Lemma gen_set v n g w : gen_of (set_v_gen v n g) w = if w =? v then n else gen_of g w.
Proof. unfold set_v_gen. rewrite vertex_set. by destruct (w =? v). Qed.

Lemma same_edge g g' a b : same_but_gen g g' -> edge g' a b <-> edge g a b.
Proof. intros H. unfold edge. by rewrite (sg_outs _ _ H). Qed.

Lemma same_live g g' v : same_but_gen g g' -> live g' v <-> live g v.
Proof. intros H. unfold live, vertices. by rewrite (sg_size _ _ H), (sg_vertices _ _ H). Qed.

(** ** The search forward *)

Section search.
Context (g0 : owner_graph) (Hok : graph_ok g0) (x y : Z).
Context (Hx : live g0 x) (Hy : live g0 y) (Hxy : order g0 y < order g0 x).
Let gen : Z := g_gen g0.
Context (Hfresh : forall v, live g0 v -> gen_of g0 v <> gen).

Abbreviation path := (rtc (edge g0)).

Record fwd (delta : list Z) (n : Z) (g : owner_graph) : Prop := Fwd {
  fw_same : same_but_gen g0 g;
  fw_n : n = zlength delta;
  fw_nodup : NoDup delta;
  fw_start : y ∈ delta;
  fw_in v : v ∈ delta -> path y v /\ live g0 v /\ order g0 v < order g0 x;
  fw_mark v : live g0 v -> gen_of g v = gen <-> v ∈ delta /\ v <> y;
}.

Lemma fwd_start : fwd [y] 1 g0.
Proof.
  split; try done.
  - apply same_but_gen_refl.
  - apply NoDup_singleton.
  - by left.
  - intros v ->%list_elem_of_singleton. split; [constructor | done].
  - intros v Hv. split; [by intros ?%Hfresh|]. by intros [->%list_elem_of_singleton ?].
Qed.

Lemma forward_edges_ok v es : forall delta n g,
  fwd delta n g -> v ∈ delta -> (forall e, e ∈ es -> edge g0 v e) ->
  let '(loop, delta', n', g') := forward_edges es x gen delta n g in
  same_but_gen g0 g' /\
  if loop : bool then path y x
  else fwd delta' n' g' /\ (exists l, delta' = delta ++ l) /\
    forall e, e ∈ es -> e <> x /\ (order g0 e < order g0 x -> e ∈ delta').
Proof.
  induction es as [|e es IH]; intros delta n g Hf Hv Hes; cbn [forward_edges].
  { split; [apply Hf|]. split; [done|]. split; [by exists []; rewrite app_nil_r|].
    by intros e ?%elem_of_nil. }
  pose proof (Hes e ltac:(by left)) as He. destruct (go_edge _ Hok v e He) as (_ & Hle & Hlt).
  destruct (fw_in _ _ _ Hf v Hv) as (Hpv & _ & _).
  assert (path y e) as Hpe by (eapply rtc_r; done).
  destruct (Z.eqb_spec e x) as [->|Hne]; [by split; [apply Hf|]|].
  rewrite !(sg_order _ _ (fw_same _ _ _ Hf)).
  assert (e <> y) as Hey.
  { intros ->. by apply (path_acyclic g0 Hok v y He). }
  pose proof (fw_mark _ _ _ Hf e Hle) as Hm.
  destruct (_ && _) eqn:Eb.
  - apply andb_true_iff in Eb as [Ho%Z.ltb_lt Hg%negb_true_iff%Z.eqb_neq].
    assert (e ∉ delta) as Hnin by (intros ?; apply Hg, Hm; done).
    assert (fwd (delta ++ [e]) (n + 1) (set_v_gen e gen g)) as Hf1.
    { split.
      - eapply same_but_gen_trans; [apply Hf|]. unfold gen. rewrite <- (sg_gen _ _ (fw_same _ _ _ Hf)).
        apply set_v_gen_same.
      - rewrite (fw_n _ _ _ Hf). unfold zlength. rewrite length_app. simpl. lia.
      - apply NoDup_app. split; [apply Hf|]. split; [|apply NoDup_singleton].
        by intros w Hw ->%list_elem_of_singleton.
      - apply elem_of_app. left. apply Hf.
      - intros w [Hw| ->%list_elem_of_singleton]%elem_of_app; [by apply Hf | done].
      - intros w Hw. rewrite gen_set, elem_of_app, list_elem_of_singleton.
        destruct (Z.eqb_spec w e) as [->|]; [split; [auto | done]|].
        rewrite (fw_mark _ _ _ Hf w Hw). split; [intros []; auto | intros [[?|?] ?]; done]. }
    specialize (IH (delta ++ [e]) (n + 1) _ Hf1 ltac:(apply elem_of_app; by left)
      ltac:(intros; apply Hes; by right)).
    destruct (forward_edges es x gen _ _ _) as [[[loop delta'] n'] g'].
    destruct IH as [Hs Hr]. split; [done|]. destruct loop; [done|].
    destruct Hr as (Hf' & [l ->] & Hc). split; [done|].
    split; [exists (e :: l); by rewrite <- app_assoc|].
    intros e' [->|He']%elem_of_cons; [|by apply Hc].
    split; [done|]. intros _. rewrite !elem_of_app, list_elem_of_singleton. auto.
  - specialize (IH delta n g Hf Hv ltac:(intros; apply Hes; by right)).
    destruct (forward_edges es x gen delta n g) as [[[loop delta'] n'] g'].
    destruct IH as [Hs Hr]. split; [done|]. destruct loop; [done|].
    destruct Hr as (Hf' & [l ->] & Hc). split; [done|]. split; [by exists l|].
    intros e' [->|He']%elem_of_cons; [|by apply Hc]. split; [done|]. intros Ho.
    apply elem_of_app. left. apply Hm. apply Z.eqb_eq. apply Z.ltb_lt in Ho. rewrite Ho in Eb.
    by apply negb_false_iff.
Qed.

Lemma forward_loop_ok fuel : forall i delta n g,
  fwd delta n g -> (fuel + i)%nat = S (Z.to_nat (g_size g0)) ->
  (forall k v e, (k < i)%nat -> delta !! k = Some v -> edge g0 v e ->
     e <> x /\ (order g0 e < order g0 x -> e ∈ delta)) ->
  exists n' delta' g', forward_loop fuel i x gen delta n g = Ok (n', delta', g') /\ same_but_gen g0 g' /\
    ((n' = -1 /\ path y x) \/
     (fwd delta' n' g' /\ forall v e, v ∈ delta' -> edge g0 v e ->
        e <> x /\ (order g0 e < order g0 x -> e ∈ delta'))).
Proof.
  induction fuel as [|fuel IH]; intros i delta n g Hf Hfuel Hdone; cbn [forward_loop].
  all: destruct (delta !! i) as [v|] eqn:Ei;
    [|exists n, delta, g; split; [done|]; split; [apply Hf|]; right; split; [done|];
      intros v e [k Hk]%list_elem_of_lookup; apply (Hdone k); [|done];
      apply lookup_ge_None in Ei; apply lookup_lt_Some in Hk; lia].
  { exfalso. apply lookup_lt_Some in Ei.
    pose proof (live_set_length g0 Hok delta (fw_nodup _ _ _ Hf) (fun w Hw => proj1 (proj2 (fw_in _ _ _ Hf w Hw)))).
    lia. }
  assert (v ∈ delta) as Hv by (by eapply list_elem_of_lookup_2).
  pose proof (forward_edges_ok v (outs g v) delta n g Hf Hv) as H.
  rewrite (sg_outs _ _ (fw_same _ _ _ Hf)) in *. specialize (H (fun e He => He)).
  destruct (forward_edges (outs g0 v) x gen delta n g) as [[[loop delta'] n'] g'].
  destruct H as [Hs Hr]. destruct loop; [exists (-1), delta', g'; auto|].
  destruct Hr as (Hf' & [l ->] & Hc).
  apply IH; [done | lia|]. intros k w e Hk Hw He.
  destruct (decide (k = i)) as [->|Hne].
  - rewrite lookup_app_l in Hw by (by apply lookup_lt_Some in Ei). rewrite Ei in Hw. injection Hw as <-.
    by apply Hc.
  - rewrite lookup_app_l in Hw by (apply lookup_lt_Some in Ei; lia).
    destruct (Hdone k w e ltac:(lia) Hw He) as [? Hin]. split; [done|]. intros ?.
    apply elem_of_app. left. by apply Hin.
Qed.

(** Either there is a path from [y] to [x], or the list has the vertices that
    [y] reaches below [x]. *)
Lemma delta_forward_ok :
  exists n delta g, graph_delta_forward g0 x y = Ok (n, delta, g) /\ same_but_gen g0 g /\
    ((n = -1 /\ path y x) \/
     (fwd delta n g /\ ~ path y x /\ forall v, v ∈ delta <-> path y v /\ order g0 v < order g0 x)).
Proof.
  destruct (forward_loop_ok (S (Z.to_nat (g_size g0))) 0 [y] 1 g0 fwd_start) as
    (n & delta & g & E & Hs & Hr); [lia | intros; lia|].
  exists n, delta, g. split; [done|]. split; [done|]. destruct Hr as [Hr|[Hf Hc]]; [by left | right].
  assert (forall v, path y v -> order g0 v < order g0 x -> v ∈ delta) as Hall.
  { intros v Hp. refine (rtc_ind_r (fun v => order g0 v < order g0 x -> v ∈ delta) y _ _ v Hp).
    - intros _. apply Hf.
    - clear v Hp. intros v e Hp He IH Ho. destruct (go_edge _ Hok v e He) as (_ & _ & Hlt).
      apply (Hc v e); [apply IH; lia | done | done]. }
  split; [done|]. split.
  - intros Hp. destruct (rtc_inv_r _ _ Hp) as [Eyx|(v & Hpv & He)].
    { rewrite Eyx in Hxy. lia. }
    destruct (go_edge _ Hok v x He) as (_ & _ & Hlt).
    by destruct (Hc v x (Hall v Hpv Hlt) He).
  - intros v. split; [|intros []; auto]. intros Hv. destruct (fw_in _ _ _ Hf v Hv) as (? & _ & ?). done.
Qed.

(** ** The search backward *)

(** The vertices found forward are marked. *)
Context (F : list Z) (Hpath : ~ path y x) (HF : forall v, v ∈ F -> path y v).

Record bwd (delta : list Z) (n : Z) (g : owner_graph) : Prop := Bwd {
  bw_same : same_but_gen g0 g;
  bw_n : n = zlength delta;
  bw_nodup : NoDup delta;
  bw_start : x ∈ delta;
  bw_in v : v ∈ delta -> path v x /\ live g0 v /\ order g0 y < order g0 v;
  bw_mark v : live g0 v -> gen_of g v = gen <-> (v ∈ F /\ v <> y) \/ (v ∈ delta /\ v <> x);
}.

Lemma bwd_start n g : fwd F n g -> bwd [x] 1 g.
Proof.
  intros Hf. split; try done.
  - apply Hf.
  - apply NoDup_singleton.
  - by left.
  - intros v ->%list_elem_of_singleton. split; [constructor | done].
  - intros v Hv. rewrite (fw_mark _ _ _ Hf v Hv). split; [by left|].
    by intros [?|[->%list_elem_of_singleton ?]].
Qed.

Lemma backward_edges_ok v es : forall delta n g,
  bwd delta n g -> v ∈ delta -> (forall e, e ∈ es -> edge g0 e v) ->
  let '(delta', n', g') := backward_edges es y gen delta n g in
  bwd delta' n' g' /\ (exists l, delta' = l ++ delta) /\
  forall e, e ∈ es -> order g0 y < order g0 e -> e ∈ delta'.
Proof.
  induction es as [|e es IH]; intros delta n g Hb Hv Hes; cbn [backward_edges].
  { split; [done|]. split; [by exists []|]. by intros e ?%elem_of_nil. }
  pose proof (Hes e ltac:(by left)) as He. destruct (go_edge _ Hok e v He) as (Hle & _ & Hlt).
  destruct (bw_in _ _ _ Hb v Hv) as (Hpv & _ & _).
  assert (path e x) as Hpe by (eapply rtc_l; done).
  rewrite !(sg_order _ _ (bw_same _ _ _ Hb)).
  assert (e <> x) as Hex.
  { intros ->. by apply (path_acyclic g0 Hok x v He). }
  pose proof (bw_mark _ _ _ Hb e Hle) as Hm.
  assert (e ∉ F) as HeF by (intros HeF; apply Hpath; etransitivity; [by apply HF | done]).
  destruct (_ && _) eqn:Eb.
  - apply andb_true_iff in Eb as [Ho%Z.ltb_lt Hg%negb_true_iff%Z.eqb_neq].
    assert (e ∉ delta) as Hnin by (intros ?; apply Hg, Hm; auto).
    assert (bwd (e :: delta) (n + 1) (set_v_gen e gen g)) as Hb1.
    { split.
      - eapply same_but_gen_trans; [apply Hb|]. unfold gen. rewrite <- (sg_gen _ _ (bw_same _ _ _ Hb)).
        apply set_v_gen_same.
      - rewrite (bw_n _ _ _ Hb). unfold zlength. simpl. lia.
      - constructor; [done | apply Hb].
      - right. apply Hb.
      - intros w [->|Hw]%elem_of_cons; [done | by apply Hb].
      - intros w Hw. rewrite gen_set, elem_of_cons.
        destruct (Z.eqb_spec w e) as [->|]; [split; [auto | done]|].
        rewrite (bw_mark _ _ _ Hb w Hw). split; [intros [?|[]]; auto | intros [?|[[?|?] ?]]; auto; done]. }
    specialize (IH (e :: delta) (n + 1) _ Hb1 ltac:(by right) ltac:(intros; apply Hes; by right)).
    destruct (backward_edges es y gen _ _ _) as [[delta' n'] g'].
    destruct IH as (Hb' & [l ->] & Hc). split; [done|].
    split; [exists (l ++ [e]); by rewrite <- app_assoc|].
    intros e' [->|He']%elem_of_cons; [|by apply Hc].
    intros _. rewrite elem_of_app, elem_of_cons. auto.
  - specialize (IH delta n g Hb Hv ltac:(intros; apply Hes; by right)).
    destruct (backward_edges es y gen delta n g) as [[delta' n'] g'].
    destruct IH as (Hb' & [l ->] & Hc). split; [done|]. split; [by exists l|].
    intros e' [->|He']%elem_of_cons; [|by apply Hc]. intros Ho.
    apply elem_of_app. right. apply Z.ltb_lt in Ho. rewrite Ho in Eb.
    apply negb_false_iff, Z.eqb_eq, Hm in Eb. destruct Eb as [[? _]|[? _]]; done.
Qed.

Lemma backward_loop_ok fuel : forall i delta n g,
  bwd delta n g -> (fuel + i)%nat = S (Z.to_nat (g_size g0)) ->
  (forall k v e, (k < i)%nat -> reverse delta !! k = Some v -> edge g0 e v ->
     order g0 y < order g0 e -> e ∈ delta) ->
  exists n' delta' g', backward_loop fuel i y gen delta n g = Ok (n', delta', g') /\ bwd delta' n' g' /\
    forall v e, v ∈ delta' -> edge g0 e v -> order g0 y < order g0 e -> e ∈ delta'.
Proof.
  induction fuel as [|fuel IH]; intros i delta n g Hb Hfuel Hdone; cbn [backward_loop].
  all: destruct (reverse delta !! i) as [v|] eqn:Ei;
    [|exists n, delta, g; split; [done|]; split; [done|];
      intros v e Hv; apply elem_of_reverse in Hv; apply list_elem_of_lookup in Hv as [k Hk];
      apply (Hdone k); [|done];
      apply lookup_ge_None in Ei; apply lookup_lt_Some in Hk; lia].
  { exfalso. apply lookup_lt_Some in Ei. rewrite length_reverse in Ei.
    pose proof (live_set_length g0 Hok delta (bw_nodup _ _ _ Hb) (fun w Hw => proj1 (proj2 (bw_in _ _ _ Hb w Hw)))).
    lia. }
  assert (v ∈ delta) as Hv by (apply elem_of_reverse; by eapply list_elem_of_lookup_2).
  pose proof (backward_edges_ok v (ins g v) delta n g Hb Hv) as H.
  rewrite (sg_ins _ _ (bw_same _ _ _ Hb)) in *. specialize (H (fun e He => proj2 (go_ends _ Hok e v) He)).
  destruct (backward_edges (ins g0 v) y gen delta n g) as [[delta' n'] g'].
  destruct H as (Hb' & [l ->] & Hc).
  apply IH; [done | lia|]. rewrite reverse_app. intros k w e Hk Hw He Ho.
  destruct (decide (k = i)) as [->|Hne].
  - rewrite lookup_app_l in Hw by (by apply lookup_lt_Some in Ei). rewrite Ei in Hw. injection Hw as <-.
    apply Hc; [by apply (go_ends _ Hok) | done].
  - rewrite lookup_app_l in Hw by (apply lookup_lt_Some in Ei; lia).
    apply elem_of_app. right. apply (Hdone k w e); [lia | done | done | done].
Qed.

Lemma backward_list n g :
  fwd F n g ->
  exists n' delta g', graph_delta_backward g x y = Ok (n', delta, g') /\ bwd delta n' g' /\
    forall v, v ∈ delta <-> path v x /\ order g0 y < order g0 v.
Proof.
  intros Hf. unfold graph_delta_backward. rewrite (sg_size _ _ (fw_same _ _ _ Hf)), (sg_gen _ _ (fw_same _ _ _ Hf)).
  destruct (backward_loop_ok (S (Z.to_nat (g_size g0))) 0 [x] 1 g (bwd_start n g Hf)) as
    (n' & delta & g' & E & Hb & Hc); [lia | intros; lia|].
  exists n', delta, g'. split; [done|]. split; [done|]. intros v. split.
  - intros Hv. destruct (bw_in _ _ _ Hb v Hv) as (? & _ & ?). done.
  - intros [Hp Ho]. revert Ho. refine (rtc_ind_l (fun v => order g0 y < order g0 v -> v ∈ delta) x _ _ v Hp).
    + intros _. apply Hb.
    + clear v Hp. intros v e He Hp IH Ho. destruct (go_edge _ Hok v e He) as (_ & _ & Hlt).
      apply (Hc e v); [apply IH; lia | done | done].
Qed.
End search.

(** * The re-ordering of the owner graph

    The orders of the two lists of vertices are sorted into an array of
    indices and given out again, first to the vertices that precede the new
    edge, then to those that follow it, each in their old order. All edges,
    and the new one, then go up. *)

(** ** The indices *)

Lemma index_shift_ok B : forall A z C j,
  j = zlength A + zlength B - 1 ->
  exists b, index_shift (length B) j (A ++ B ++ z :: C) = A ++ b :: B ++ C.
Proof.
  induction B as [|b B IH] using rev_ind; intros A z C j Hj; [by exists z|].
  rewrite length_app, Nat.add_1_r. cbn [index_shift].
  assert (zlength (B ++ [b]) = zlength B + 1) as Eb by (unfold zlength; rewrite length_app; simpl; lia).
  assert (zget (A ++ (B ++ [b]) ++ z :: C) j = b) as ->.
  { apply aget_lookup; [unfold zlength in *; lia|]. rewrite <- app_assoc, !lookup_app_r by (unfold zlength in *; lia).
    unfold zlength in *. by replace (Z.to_nat j - length A - length B)%nat with O by lia. }
  assert (zset (A ++ (B ++ [b]) ++ z :: C) (j + 1) b = A ++ B ++ b :: b :: C) as ->.
  { unfold aset. zcase; [unfold zlength in *; lia|]. rewrite <- app_assoc. unfold zlength in *.
    rewrite !insert_app_r_alt by lia.
    by replace (Z.to_nat (j + 1) - length A - length B)%nat with 1%nat by lia. }
  destruct (IH A b (b :: C) (j - 1)) as [b' ->]; [lia|].
  exists b'. by rewrite <- (app_assoc B).
Qed.

Lemma index_pos_ok o rest I :
  StronglySorted Z.lt I -> o ∉ I ->
  exists A B, I = A ++ B /\ index_pos (length I) (I ++ rest) o = zlength A /\
    (forall a, a ∈ A -> a < o) /\ (forall b, b ∈ B -> o < b).
Proof.
  revert rest. induction I as [|a I IH] using rev_ind; intros rest Hs Ho.
  { exists [], []. split_and!; try done; by intros ? ?%elem_of_nil. }
  rewrite length_app, Nat.add_1_r. cbn [index_pos].
  assert (zget ((I ++ [a]) ++ rest) (Z.of_nat (length I)) = a) as ->.
  { apply aget_lookup; [lia|]. rewrite Nat2Z.id, <- app_assoc, lookup_app_r, Nat.sub_diag by lia. done. }
  apply StronglySorted_app in Hs as (Hlt & Hs & _).
  apply not_elem_of_app in Ho as [Ho Ha%not_elem_of_cons]. destruct Ha as [Ha _].
  destruct (Z.ltb_spec o a) as [Hoa|Hoa].
  - destruct (IH ([a] ++ rest) Hs Ho) as (A & B & -> & E & HA & HB). rewrite app_assoc in E. rewrite E.
    exists A, (B ++ [a]). split; [by rewrite app_assoc|]. split_and!; try done.
    intros b [?| ->%list_elem_of_singleton]%elem_of_app; auto.
  - exists (I ++ [a]), []. split; [by rewrite app_nil_r|].
    split; [unfold zlength; rewrite length_app; simpl; lia|]. split; [|by intros ? ?%elem_of_nil].
    intros b [Hb| ->%list_elem_of_singleton]%elem_of_app; [|lia].
    pose proof (Hlt b a Hb ltac:(by apply list_elem_of_singleton)). lia.
Qed.

Lemma add_indices_ok g set : forall I rest n,
  n = zlength I -> StronglySorted Z.lt I -> NoDup (map (fun v => order g v) set) ->
  (forall v, v ∈ set -> order g v ∉ I) -> (length set <= length rest)%nat ->
  exists I' rest', graph_add_indices g (I ++ rest) n set = (zlength I', I' ++ rest') /\
    (length rest = length set + length rest')%nat /\ StronglySorted Z.lt I' /\
    I' ≡ₚ map (fun v => order g v) set ++ I.
Proof.
  induction set as [|v set IH]; intros I rest n Hn Hs Hnd Hni Hlen; cbn [graph_add_indices map] in *.
  { exists I, rest. by split_and!; subst n. }
  apply NoDup_cons in Hnd as [Hv Hnd]. destruct rest as [|z rest]; [simpl in Hlen; lia|].
  set (o := order g v) in *. assert (o ∉ I) as Ho by (apply Hni; by left).
  replace (Z.to_nat n) with (length I) by (unfold zlength in Hn; lia).
  destruct (index_pos_ok o (z :: rest) I Hs Ho) as (A & B & -> & -> & HA & HB).
  assert (zlength (A ++ B) = zlength A + zlength B) as El by (unfold zlength; rewrite length_app; lia).
  replace (Z.to_nat (n - zlength A)) with (length B) by (unfold zlength in *; lia).
  rewrite <- app_assoc.
  destruct (index_shift_ok B A z rest (n - 1)) as [b ->]; [lia|].
  assert (zset (A ++ b :: B ++ rest) (zlength A) o = (A ++ o :: B) ++ rest) as ->.
  { unfold aset. zcase; [unfold zlength in *; lia|]. unfold zlength. rewrite Nat2Z.id.
    rewrite insert_app_r_alt, Nat.sub_diag by lia. by rewrite <- app_assoc. }
  apply StronglySorted_app in Hs as (Hab & HsA & HsB).
  destruct (IH (A ++ o :: B) rest (n + 1)) as (I' & rest' & E & Hl & HsI & HI).
  - unfold zlength in *. rewrite length_app in *. simpl. lia.
  - apply StronglySorted_app. split_and!; [|done|].
    + intros x w Hx [->|Hw]%elem_of_cons; [by apply HA | by apply Hab].
    + constructor; [done|]. by apply Forall_forall.
  - done.
  - intros w Hw. rewrite not_elem_of_app, not_elem_of_cons.
    assert (order g w ∉ A ++ B) as Hw' by (apply Hni; by right). apply not_elem_of_app in Hw' as [? ?].
    split_and!; try done. intros E. apply Hv. fold o. rewrite <- E.
    by apply (list_elem_of_fmap_2 (fun v => order g v)).
  - simpl in Hlen. lia.
  - exists I', rest'. split; [done|]. split; [simpl; lia|]. split; [done|].
    rewrite HI. rewrite <- Permutation_middle. simpl. by rewrite <- Permutation_middle.
Qed.

(** ** The assignment *)

Lemma lowest_ok g vs : forall v,
  lowest g v vs ∈ v :: vs /\ forall w, w ∈ v :: vs -> order g (lowest g v vs) <= order g w.
Proof.
  induction vs as [|u vs IH]; intros v; cbn [lowest].
  { split; [by left|]. by intros w ->%list_elem_of_singleton. }
  destruct (Z.ltb_spec (order g u) (order g v)) as [Hlt|Hge].
  - destruct (IH u) as [Hin Hle]. split; [by right|]. intros w [->|Hw]%elem_of_cons; [|by apply Hle].
    specialize (Hle u ltac:(by left)). lia.
  - destruct (IH v) as [Hin Hle]. split.
    + apply elem_of_cons in Hin as [->|Hin]; [by left | by right; right].
    + intros w [->|[->|Hw]%elem_of_cons]%elem_of_cons; [apply Hle; by left | | apply Hle; by right].
      specialize (Hle v ltac:(by left)). lia.
Qed.

Lemma list_remove_perm v l : v ∈ l -> l ≡ₚ v :: list_remove v l.
Proof.
  induction l as [|w l IH]; [by intros ?%elem_of_nil|]. cbn [list_remove].
  destruct (Z.eqb_spec w v) as [->|Hne]; [done|].
  intros [->|Hv]%elem_of_cons; [done|]. by rewrite (IH Hv) at 1; rewrite Permutation_swap.
Qed.

(** One vertex put at a position. *)
Definition place (v p : Z) (g : owner_graph) : owner_graph :=
  let g := set_v_order v p g in set_g_vertices (zset (g_vertices g) (order g v) v) g.

Fixpoint place_all (l : list Z) (ps : list Z) (g : owner_graph) : owner_graph :=
  match l, ps with
  | v :: l, p :: ps => place_all l ps (place v p g)
  | _, _ => g
  end.

Lemma order_set v n g w : order (set_v_order v n g) w = if w =? v then n else order g w.
Proof. unfold set_v_order. rewrite vertex_set. by destruct (w =? v). Qed.

(** Only the order changed. *)
Record same_but_order (g g' : owner_graph) : Prop := SameButOrder {
  so_size : g_size g' = g_size g;
  so_space : g_space g' = g_space g;
  so_indexbuf : g_indexbuf g' = g_indexbuf g;
  so_ggen : g_gen g' = g_gen g;
  so_refs : e_refs g' = e_refs g;
  so_length : zlength (g_vertices g') = zlength (g_vertices g);
  so_gen v : gen_of g' v = gen_of g v;
  so_outs v : outs g' v = outs g v;
  so_ins v : ins g' v = ins g v;
  so_owner v : v_owner (vertex g' v) = v_owner (vertex g v);
}.

Lemma same_but_order_trans g1 g2 g3 :
  same_but_order g1 g2 -> same_but_order g2 g3 -> same_but_order g1 g3.
Proof. intros [] []. split; congruence. Qed.

Lemma order_place v p g w : order (place v p g) w = if w =? v then p else order g w.
Proof. apply order_set. Qed.

Lemma vertices_place v p g : g_vertices (place v p g) = zset (g_vertices g) p v.
Proof. unfold place. cbn [g_vertices set_g_vertices]. by rewrite order_set, Z.eqb_refl. Qed.

Lemma place_same v p g : same_but_order g (place v p g).
Proof.
  split; try done;
    [rewrite vertices_place; apply zlength_aset | intros w; unfold place, set_v_order;
     cbn [vertex set_g_vertices]; rewrite vertex_set; by destruct (Z.eqb_spec w v) as [->|] ..].
Qed.

Lemma place_all_same l : forall ps g, same_but_order g (place_all l ps g).
Proof.
  induction l as [|v l IH]; intros [|p ps] g; cbn [place_all]; try done.
  eapply same_but_order_trans; [apply place_same | apply IH].
Qed.

Lemma place_all_other l : forall ps g w, w ∉ l -> order (place_all l ps g) w = order g w.
Proof.
  induction l as [|v l IH]; intros [|p ps] g w Hw; cbn [place_all]; try done.
  apply not_elem_of_cons in Hw as [Hne Hw]. rewrite IH, order_place by done.
  by destruct (Z.eqb_spec w v).
Qed.

Lemma place_all_order l : forall ps g j v p,
  NoDup l -> l !! j = Some v -> ps !! j = Some p -> order (place_all l ps g) v = p.
Proof.
  induction l as [|w l IH]; intros [|q ps] g j v p Hnd Hv Hp; try done. cbn [place_all].
  apply NoDup_cons in Hnd as [Hw Hnd]. destruct j as [|j]; simpl in Hv, Hp.
  - injection Hv as ->. injection Hp as ->. by rewrite place_all_other, order_place, Z.eqb_refl.
  - by apply (IH ps _ j).
Qed.

Lemma place_all_keep l : forall ps g q,
  q ∉ ps -> 0 <= q -> zget (g_vertices (place_all l ps g)) q = zget (g_vertices g) q.
Proof.
  induction l as [|v l IH]; intros [|p ps] g q Hq H0; cbn [place_all]; try done.
  apply not_elem_of_cons in Hq as [Hne Hq]. rewrite IH, vertices_place by done.
  by rewrite aget_aset_ne by auto.
Qed.

Lemma place_all_at l : forall ps g j v p,
  NoDup ps -> Forall (fun p => 0 <= p < zlength (g_vertices g)) ps ->
  l !! j = Some v -> ps !! j = Some p -> zget (g_vertices (place_all l ps g)) p = v.
Proof.
  induction l as [|w l IH]; intros [|q ps] g j v p Hnd Hr Hv Hp; try done. cbn [place_all].
  apply NoDup_cons in Hnd as [Hq Hnd]. apply Forall_cons in Hr as [Hq' Hr].
  destruct j as [|j]; simpl in Hv, Hp.
  - injection Hv as ->. injection Hp as ->. rewrite place_all_keep, vertices_place by (done || lia).
    by rewrite aget_aset_eq.
  - apply (IH ps _ j); try done. by rewrite (so_length _ _ (place_same w q g)).
Qed.

Lemma place_all_app l1 : forall ps1 l2 ps2 g,
  length l1 = length ps1 -> place_all (l1 ++ l2) (ps1 ++ ps2) g = place_all l2 ps2 (place_all l1 ps1 g).
Proof.
  induction l1 as [|v l1 IH]; intros [|p ps1] l2 ps2 g Hl; try done. cbn. apply IH. by injection Hl.
Qed.

(** The vertices of the set in the order they have. *)
Definition by_order (g : owner_graph) (v w : Z) : Prop := order g v <= order g w.

Lemma by_order_ext g g' l :
  (forall v, v ∈ l -> order g' v = order g v) -> StronglySorted (by_order g') l -> StronglySorted (by_order g) l.
Proof.
  intros He. induction 1 as [|v l Hs IH Hv]; [constructor|].
  constructor; [apply IH; intros; apply He; by right|]. rewrite Forall_forall in *. intros w Hw.
  specialize (Hv w Hw). unfold by_order in *. by rewrite <- (He v ltac:(by left)), <- (He w ltac:(by right)).
Qed.

Lemma assign_loop_ok n : forall set nextunused g indices,
  length set = n -> NoDup set -> 0 <= nextunused ->
  exists l, l ≡ₚ set /\ StronglySorted (by_order g) l /\
    assign_loop n indices nextunused set g =
      (nextunused + Z.of_nat n,
       place_all l (map (fun j => zget indices j) (seqZ nextunused (Z.of_nat n))) g).
Proof.
  induction n as [|n IH]; intros set k g indices Hlen Hnd Hk.
  { exists []. destruct set; [|done]. split_and!; [done | constructor | by rewrite Z.add_0_r]. }
  destruct set as [|v rest]; [done|]. cbn [assign_loop].
  destruct (lowest_ok g rest v) as [Hin Hle]. set (u := lowest g v rest) in *.
  pose proof (list_remove_perm u (v :: rest) Hin) as Hperm. set (set' := list_remove u (v :: rest)) in *.
  assert (length set' = n) as Hl' by (apply Permutation_length in Hperm; simpl in *; lia).
  rewrite Hperm in Hnd. apply NoDup_cons in Hnd as [Hu Hnd].
  fold (place u (zget indices k) g).
  destruct (IH set' (k + 1) (place u (zget indices k) g) indices Hl' Hnd ltac:(lia)) as (l & Hl & Hs & E).
  exists (u :: l). split; [by rewrite Hl|]. split.
  - constructor.
    { eapply by_order_ext; [|done]. intros w Hw. rewrite order_place. rewrite Hl in Hw.
      destruct (Z.eqb_spec w u) as [->|]; done. }
    apply Forall_forall. intros w Hw. apply Hle. rewrite Hperm, <- Hl. by right.
  - rewrite E. f_equal; [lia|]. by rewrite (seqZ_cons k) by lia; replace (Z.pred (Z.of_nat (S n))) with (Z.of_nat n) by lia.
Qed.

(** ** Sorted parts of a sorted list *)

Lemma sorted_strict g l :
  NoDup (map (fun v => order g v) l) -> StronglySorted (by_order g) l ->
  StronglySorted Z.lt (map (fun v => order g v) l).
Proof.
  induction 2 as [|v l Hs IH Hv]; cbn; [constructor|]. apply NoDup_cons in H as [Hn Hnd].
  constructor; [by apply IH|]. apply Forall_forall. intros o (w & -> & Hw)%list_elem_of_fmap.
  rewrite Forall_forall in Hv. specialize (Hv w Hw). unfold by_order in Hv.
  assert (order g v <> order g w) as Hne by (intros E; apply Hn; rewrite E; by apply (list_elem_of_fmap_2 (fun v => order g v))).
  lia.
Qed.

Lemma sorted_lookup_lt l : StronglySorted Z.lt l -> forall i j p q,
  (i < j)%nat -> l !! i = Some p -> l !! j = Some q -> p < q.
Proof.
  induction 1 as [|a l Hs IH Ha]; intros i j p q Hij Hi Hj; [done|].
  destruct j as [|j]; [lia|]. simpl in Hj. destruct i as [|i]; simpl in Hi.
  - injection Hi as <-. rewrite Forall_forall in Ha. apply Ha. by eapply list_elem_of_lookup_2.
  - by apply (IH i j); [lia|..].
Qed.

Lemma sorted_lower (L : list Z) : forall I, StronglySorted Z.lt L -> StronglySorted Z.lt I ->
  (forall q, q ∈ L -> q ∈ I) -> forall j p q, I !! j = Some p -> L !! j = Some q -> p <= q.
Proof.
  induction L as [|q0 L IH]; intros I HL HI Hsub j p q Hp Hq; [done|].
  apply StronglySorted_inv in HL as [HL Hq0]. rewrite Forall_forall in Hq0.
  destruct I as [|p0 I]; [done|]. apply StronglySorted_inv in HI as [HI Hp0]. rewrite Forall_forall in Hp0.
  assert (p0 <= q0) as Hle.
  { destruct (proj1 (elem_of_cons _ _ _) (Hsub q0 ltac:(by left))) as [->|Hin]; [lia|]. specialize (Hp0 _ Hin). lia. }
  destruct j as [|j]; simpl in Hp, Hq; [congruence|].
  apply (IH I HL HI) with j; [|done..]. intros r Hr.
  destruct (proj1 (elem_of_cons _ _ _) (Hsub r ltac:(by right))) as [->|]; [|done]. specialize (Hq0 _ Hr). lia.
Qed.

Lemma sorted_upper (L : list Z) : forall I, StronglySorted Z.lt L -> StronglySorted Z.lt I ->
  (forall q, q ∈ L -> q ∈ I) -> (length L <= length I)%nat ->
  forall j p q, I !! (length I - length L + j)%nat = Some p -> L !! j = Some q -> q <= p.
Proof.
  induction L as [|q0 L IH] using rev_ind; intros I HL HI Hsub Hlen j p q Hp Hq; [done|].
  apply StronglySorted_app in HL as (Hq0 & HL & _).
  destruct I as [|p0 I _] using rev_ind; [rewrite length_app in Hlen; simpl in Hlen; lia|].
  apply StronglySorted_app in HI as (Hp0 & HI & _).
  rewrite !length_app in *. simpl in *.
  assert (forall r, r ∈ I -> r < p0) as Hp1 by (intros r Hr; apply Hp0; [done | by apply list_elem_of_singleton]).
  assert (forall r, r ∈ L -> r < q0) as Hq1 by (intros r Hr; apply Hq0; [done | by apply list_elem_of_singleton]).
  assert (q0 <= p0) as Hle.
  { destruct (proj1 (elem_of_app _ _ _) (Hsub q0 ltac:(apply elem_of_app; right; by apply list_elem_of_singleton)))
      as [Hin| ->%list_elem_of_singleton]; [specialize (Hp1 _ Hin)|]; lia. }
  destruct (decide (j < length L)%nat) as [Hj|Hj].
  - rewrite lookup_app_l in Hq by done. rewrite lookup_app_l in Hp by lia.
    apply (IH I HL HI) with j; [| lia | | done].
    + intros r Hr. destruct (proj1 (elem_of_app _ _ _) (Hsub r ltac:(apply elem_of_app; by left)))
        as [| ->%list_elem_of_singleton]; [done|]. specialize (Hq1 _ Hr). lia.
    + rewrite <- Hp. f_equal. lia.
  - rewrite lookup_app_r in Hq by lia. apply list_lookup_singleton_Some in Hq as [Ej <-].
    rewrite lookup_app_r in Hp by lia. apply list_lookup_singleton_Some in Hp as [_ <-]. done.
Qed.
