(* ===== verification/LfGraphEdge.v ===== *)
(** * Edges of the owner graph

    The insertion of an edge fails exactly when there is a path back; else the
    graph has the edge, the same vertices and an order in which all edges go
    up. *)

From stdpp Require Import relations sorting.
From S2P Require Import Prelude LfGraph LfGraphInv.

(** ** The vertices and edges, whatever their order *)

Record same_edges (g g' : owner_graph) : Prop := SameEdges {
  se_live v : live g' v <-> live g v;
  se_size : g_size g' = g_size g;
  se_outs v : outs g' v = outs g v;
  se_ins v : ins g' v = ins g v;
  se_refs : e_refs g' = e_refs g;
  se_owner v : v_owner (vertex g' v) = v_owner (vertex g v);
}.

Lemma same_edges_trans g1 g2 g3 : same_edges g1 g2 -> same_edges g2 g3 -> same_edges g1 g3.
Proof.
  intros [H1] [H2]. split; try congruence. intros v. by rewrite H2, H1.
Qed.

Lemma same_edges_edge g g' a b : same_edges g g' -> edge g' a b <-> edge g a b.
Proof. intros H. unfold edge. by rewrite (se_outs _ _ H). Qed.

Lemma same_edges_path g g' a b : same_edges g g' -> rtc (edge g') a b <-> rtc (edge g) a b.
Proof.
  intros H. split; intros Hp; (eapply rtc_subrel; [|exact Hp]); intros c d; by rewrite (same_edges_edge g g' c d H).
Qed.

(** Marks and the generation number apart. *)
Record same_graph (g g' : owner_graph) : Prop := SameGraph {
  gr_vertices : g_vertices g' = g_vertices g;
  gr_size : g_size g' = g_size g;
  gr_space : g_space g' = g_space g;
  gr_indexbuf : g_indexbuf g' = g_indexbuf g;
  gr_refs : e_refs g' = e_refs g;
  gr_order v : order g' v = order g v;
  gr_outs v : outs g' v = outs g v;
  gr_ins v : ins g' v = ins g v;
  gr_owner v : v_owner (vertex g' v) = v_owner (vertex g v);
}.

Lemma same_graph_trans g1 g2 g3 : same_graph g1 g2 -> same_graph g2 g3 -> same_graph g1 g3.
Proof. intros [] []. split; congruence. Qed.

Lemma same_gen_graph g g' : same_but_gen g g' -> same_graph g g'.
Proof. by intros []. Qed.

Lemma set_v_gen_graph v n g : same_graph g (set_v_gen v n g).
Proof.
  split; try done; intros w; unfold set_v_gen; rewrite vertex_set; by destruct (Z.eqb_spec w v) as [->|].
Qed.

Lemma same_graph_edges g g' : same_graph g g' -> same_edges g g'.
Proof.
  intros []. split; try done. intros v. unfold live, vertices. by rewrite gr_size0, gr_vertices0.
Qed.

Lemma same_gen_edges g g' : same_but_gen g g' -> same_edges g g'.
Proof. intros H. by apply same_graph_edges, same_gen_graph. Qed.

Lemma regen_ok g g' :
  graph_ok g -> same_graph g g' -> (forall v, live g' v -> 0 <= gen_of g' v <= g_gen g') ->
  0 <= g_gen g' < 2 ^ 32 -> graph_ok g'.
Proof.
  intros Hok H Hm Hr. destruct (same_graph_edges g g' H) as [Hl _ _ _ _ _]. pose proof H as [Hv Hs Hp Hb He Ho Hou Hi _].
  split; rewrite ?Hs, ?Hp, ?Hv, ?Hb; try done; try apply Hok.
  - intros i v. unfold vertices. rewrite Hs, Hv, Ho. apply Hok.
  - intros a b. rewrite Hou, Hi. apply Hok.
  - intros a b. unfold edge. rewrite Hou, !Hl, !Ho. apply Hok.
  - intros a. rewrite Hou. apply Hok.
  - intros a. rewrite Hi. apply Hok.
  - intros a b. unfold edge. rewrite Hou, He. apply Hok.
Qed.

Lemma same_gen_ok g g' : graph_ok g -> same_but_gen g g' -> graph_ok g'.
Proof.
  intros Hok H. pose proof (go_gen_range _ Hok). apply (regen_ok g); [done | by apply same_gen_graph | |].
  - intros v Hv%(same_live g g' v H). rewrite (sg_gen _ _ H). pose proof (go_gen _ Hok v Hv).
    destruct (sg_marks _ _ H v) as [->| ->]; lia.
  - by rewrite (sg_gen _ _ H).
Qed.

(** ** A fresh mark *)

Lemma clear_marks g n :
  let g' := foreach n 0 (fun vi g => set_v_gen (zget (g_vertices g) vi) 0 g) g in
  same_graph g g' /\ g_gen g' = g_gen g /\
  forall i, 0 <= i < Z.of_nat n -> gen_of g' (zget (g_vertices g) i) = 0.
Proof.
  apply (foreach_ind (fun k h => same_graph g h /\ g_gen h = g_gen g /\
    forall i, 0 <= i < k -> gen_of h (zget (g_vertices g) i) = 0)).
  { split_and!; [done | done | lia]. }
  intros k h Hk (Hs & Hg & Hz). rewrite (gr_vertices _ _ Hs). split_and!; [|done|].
  - eapply same_graph_trans; [exact Hs | apply set_v_gen_graph].
  - intros i Hi. rewrite gen_set. destruct (Z.eqb_spec (zget (g_vertices g) i) (zget (g_vertices g) k)) as [E|Hne]; [done|].
    apply Hz. assert (i <> k) by (by intros ->). lia.
Qed.

(** An array position within the graph. *)
Lemma vertices_zget g i v : graph_ok g ->
  vertices g !! i = Some v <-> (Z.of_nat i < g_size g /\ zget (g_vertices g) (Z.of_nat i) = v).
Proof.
  intros Hok. pose proof (go_size _ Hok). pose proof (go_vertices _ Hok) as Hl. unfold zlength in Hl.
  unfold vertices. rewrite lookup_take_Some. split.
  - intros [Hv Hi]. split; [lia|]. apply aget_lookup; [lia|]. by rewrite Nat2Z.id.
  - intros [Hi <-]. split; [|lia]. rewrite <- (Nat2Z.id i) at 1. apply lookup_aget. unfold zlength. lia.
Qed.

Lemma graph_next_gen_ok g : graph_ok g ->
  let g' := graph_next_gen g in
  graph_ok g' /\ same_graph g g' /\ forall v, live g' v -> gen_of g' v <> g_gen g'.
Proof.
  intros Hok. unfold graph_next_gen. cbn [g_gen set_g_gen g_size]. pose proof (go_gen_range _ Hok) as Hr.
  destruct (Z.eqb_spec (u32 (g_gen g + 1)) 0) as [E|Hne].
  - rewrite E. destruct (clear_marks (set_g_gen 0 g) (Z.to_nat (g_size g))) as (Hs & Hg & Hz).
    set (h' := foreach _ _ _ _) in *. replace (u32 (g_gen h' + 1)) with 1 by (by rewrite Hg).
    assert (same_graph g (set_g_gen 1 h')) as Hs' by (destruct Hs; done).
    assert (forall v, live (set_g_gen 1 h') v -> gen_of (set_g_gen 1 h') v = 0) as H0.
    { intros v Hv%(se_live _ _ (same_graph_edges _ _ Hs')).
      apply live_index in Hv as [i [Hi <-]%vertices_zget]; [|done]. apply Hz. lia. }
    split_and!; [|done|].
    + apply (regen_ok g); [done | done | |done]. intros v Hv. rewrite (H0 v Hv). done.
    + intros v Hv. by rewrite (H0 v Hv).
  - assert (u32 (g_gen g + 1) = g_gen g + 1) as E.
    { apply Z.mod_small. destruct (decide (g_gen g + 1 = 2 ^ 32)) as [E|]; [|lia]. by rewrite E in Hne. }
    rewrite E. assert (same_graph g (set_g_gen (g_gen g + 1) g)) as Hs by done. split_and!; [|done|].
    + apply (regen_ok g); [done | done | | cbn [g_gen set_g_gen]].
      * intros v Hv. pose proof (go_gen _ Hok v Hv). cbn [g_gen set_g_gen vertex]. lia.
      * rewrite <- E. unfold u32. apply Z.mod_pos_bound. lia.
    + intros v Hv. pose proof (go_gen _ Hok v Hv). cbn [g_gen set_g_gen vertex]. lia.
Qed.

(** ** Vertices that exchange their places *)

Section place.
Context (g : owner_graph) (Hok : graph_ok g) (l I : list Z).
Context (Hlive : forall v, v ∈ l -> live g v).
Context (HI : I ≡ₚ map (fun v => order g v) l) (Hsort : StronglySorted Z.lt I).
Let g' : owner_graph := place_all l I g.

Lemma place_length : length I = length l.
Proof. apply Permutation_length in HI. by rewrite length_map in HI. Qed.

Lemma place_nodup_I : NoDup I.
Proof.
  apply NoDup_alt. intros i j p Hi Hj. destruct (lt_eq_lt_dec i j) as [[?|?]|?]; [|done|].
  - pose proof (sorted_lookup_lt I Hsort i j p p); lia || (exfalso; assert (p < p) by auto; lia).
  - exfalso. assert (p < p) by (by apply (sorted_lookup_lt I Hsort j i)). lia.
Qed.

Lemma place_nodup : NoDup l.
Proof. eapply NoDup_fmap_1. rewrite <- HI. apply place_nodup_I. Qed.

Lemma place_in_I v : live g v -> order g v ∈ I <-> v ∈ l.
Proof.
  intros Hv. rewrite HI. split; [|by apply (list_elem_of_fmap_2 (fun v => order g v))].
  intros (w & E & Hw)%list_elem_of_fmap. by rewrite (order_inj g Hok v w Hv (Hlive w Hw) E).
Qed.

Lemma place_range p : p ∈ I -> 0 <= p < g_size g.
Proof.
  rewrite HI. intros (w & -> & Hw)%list_elem_of_fmap. by apply live_order, Hlive.
Qed.

Lemma place_order_in j v p : l !! j = Some v -> I !! j = Some p -> order g' v = p.
Proof. apply place_all_order, place_nodup. Qed.

Lemma place_order_out v : v ∉ l -> order g' v = order g v.
Proof. apply place_all_other. Qed.

Lemma place_order_I v : v ∈ l -> order g' v ∈ I.
Proof.
  intros [j Hj]%list_elem_of_lookup. destruct (lookup_lt_is_Some_2 I j) as [p Hp].
  { rewrite place_length. by apply lookup_lt_Some in Hj. }
  rewrite (place_order_in j v p Hj Hp). by eapply list_elem_of_lookup_2.
Qed.

Lemma place_at j v p : l !! j = Some v -> I !! j = Some p -> zget (g_vertices g') p = v.
Proof.
  apply place_all_at; [apply place_nodup_I|]. apply Forall_forall. intros q Hq%place_range.
  rewrite (go_vertices _ Hok). pose proof (go_size _ Hok). lia.
Qed.

Lemma place_vertices i v :
  vertices g' !! i = Some v <-> (Z.of_nat i < g_size g /\ zget (g_vertices g') (Z.of_nat i) = v).
Proof.
  pose proof (place_all_same l I g) as Hs. fold g' in Hs.
  pose proof (so_length _ _ Hs) as Hl. rewrite (go_vertices _ Hok) in Hl. pose proof (go_size _ Hok).
  unfold vertices, zlength in *. rewrite (so_size _ _ Hs), lookup_take_Some. split.
  - intros [Hv Hi]. split; [lia|]. apply aget_lookup; [lia|]. by rewrite Nat2Z.id.
  - intros [Hi <-]. split; [|lia]. rewrite <- (Nat2Z.id i) at 1. apply lookup_aget. unfold zlength. lia.
Qed.

Lemma place_number i v : vertices g' !! i = Some v -> order g' v = Z.of_nat i /\ live g v.
Proof.
  intros [Hi Hv]%place_vertices. destruct (decide (Z.of_nat i ∈ I)) as [Hin|Hni].
  - apply list_elem_of_lookup in Hin as [j Hj]. destruct (lookup_lt_is_Some_2 l j) as [w Hw].
    { rewrite <- place_length. by apply lookup_lt_Some in Hj. }
    rewrite (place_at j w _ Hw Hj) in Hv. subst w. split; [by apply (place_order_in j)|].
    apply Hlive. by eapply list_elem_of_lookup_2.
  - unfold g' in Hv. rewrite place_all_keep in Hv by (done || lia).
    assert (vertices g !! i = Some v) as Hv' by (by apply vertices_zget).
    assert (live g v) as Hlv by (by eapply list_elem_of_lookup_2).
    rewrite <- (go_order _ Hok i v Hv') in *. split; [|done]. apply place_order_out.
    by rewrite <- place_in_I.
Qed.

Lemma place_live v : live g' v <-> live g v.
Proof.
  split; [by intros [i [_ Hv]%place_number]%live_index|].
  intros Hv. apply live_index. destruct (decide (v ∈ l)) as [Hin|Hni].
  - apply list_elem_of_lookup in Hin as [j Hj]. destruct (lookup_lt_is_Some_2 I j) as [p Hp].
    { rewrite place_length. by apply lookup_lt_Some in Hj. }
    pose proof (place_range p ltac:(by eapply list_elem_of_lookup_2)).
    exists (Z.to_nat p). apply place_vertices. rewrite Z2Nat.id by lia. split; [lia|]. by apply (place_at j).
  - pose proof (live_order g Hok v Hv). exists (Z.to_nat (order g v)). apply place_vertices.
    rewrite Z2Nat.id by lia. split; [lia|]. unfold g'.
    rewrite place_all_keep by (lia || by rewrite place_in_I).
    pose proof (order_vertex g Hok v Hv) as Hv'. apply vertices_zget in Hv' as [_ Hv']; [|done].
    by rewrite Z2Nat.id in Hv' by lia.
Qed.

Lemma place_edges : same_edges g g'.
Proof. destruct (place_all_same l I g). split; try done. apply place_live. Qed.

Lemma place_ok : (forall a b, edge g a b -> order g' a < order g' b) -> graph_ok g'.
Proof.
  intros Hup. pose proof place_edges as [Hl Hs Hou Hi He _].
  pose proof (place_all_same l I g) as [_ Hp Hb Hg _ Hlen Hgen _ _ _]. fold g' in Hp, Hb, Hg, Hlen, Hgen.
  split; rewrite ?Hs, ?Hp, ?Hb, ?Hg, ?Hlen; try apply Hok.
  - intros i v Hv. by apply place_number.
  - intros a b. rewrite Hou, Hi. apply Hok.
  - intros a b. unfold edge. rewrite Hou, !Hl. intros Hab.
    destruct (go_edge _ Hok a b Hab) as (? & ? & _). auto.
  - intros a. rewrite Hou. apply Hok.
  - intros a. rewrite Hi. apply Hok.
  - intros a b. unfold edge. rewrite Hou, He. apply Hok.
  - intros v. rewrite Hl, Hgen. apply Hok.
Qed.
End place.

(** ** The region between the two ends of an edge *)

Section region.
Context (g : owner_graph) (Hok : graph_ok g) (x y : Z).
Context (Hx : live g x) (Hy : live g y) (Hxy : order g y < order g x).
Context (Hpath : ~ rtc (edge g) y x) (F B lF lB I : list Z).
Context (HF : forall v, v ∈ F <-> rtc (edge g) y v /\ order g v < order g x).
Context (HB : forall v, v ∈ B <-> rtc (edge g) v x /\ order g y < order g v).
Context (HlF : lF ≡ₚ F) (HlB : lB ≡ₚ B) (HndF : NoDup F) (HndB : NoDup B).
Context (HsF : StronglySorted (by_order g) lF) (HsB : StronglySorted (by_order g) lB).
Context (HI : I ≡ₚ map (fun v => order g v) (lB ++ lF)) (HsI : StronglySorted Z.lt I).
Let g' : owner_graph := place_all (lB ++ lF) I g.

Lemma region_F v : v ∈ lF -> rtc (edge g) y v /\ live g v /\ order g y <= order g v < order g x.
Proof.
  rewrite HlF, HF. intros [Hp Hv]. destruct (path_order g Hok y v Hp) as [<-|(_ & ? & ?)]; split_and!; try done; lia.
Qed.

Lemma region_B v : v ∈ lB -> rtc (edge g) v x /\ live g v /\ order g y < order g v <= order g x.
Proof.
  rewrite HlB, HB. intros [Hp Hv]. destruct (path_order g Hok v x Hp) as [->|(? & _ & ?)]; split_and!; try done; lia.
Qed.

Lemma region_live v : v ∈ lB ++ lF -> live g v.
Proof. intros [Hv|Hv]%elem_of_app; [by apply region_B | by apply region_F]. Qed.

Lemma region_nodup : NoDup (lB ++ lF).
Proof. by eapply place_nodup. Qed.

Lemma region_bounds v : v ∈ lB ++ lF -> order g y <= order g' v <= order g x.
Proof.
  intros Hv. assert (order g' v ∈ map (fun v => order g v) (lB ++ lF)) as Ho.
  { eapply elem_of_Permutation_proper; [symmetry; exact HI|]. by apply (place_order_I g (lB ++ lF) I HI HsI). }
  apply list_elem_of_fmap in Ho as (w & Ew & [Hw|Hw]%elem_of_app); rewrite Ew.
  - apply region_B in Hw as (_ & _ & ?). lia.
  - apply region_F in Hw as (_ & _ & ?). lia.
Qed.

Lemma region_in_I v : v ∈ lB ++ lF -> order g v ∈ I.
Proof. intros Hv. rewrite HI. by apply (list_elem_of_fmap_2 (fun v => order g v)). Qed.

Lemma region_sorted l : NoDup l -> (forall v, v ∈ l -> live g v) -> StronglySorted (by_order g) l ->
  StronglySorted Z.lt (map (fun v => order g v) l).
Proof.
  intros Hnd Hl. apply sorted_strict. apply NoDup_fmap_2_strong; [|done].
  intros v w Hv Hw. by apply (order_inj g Hok); apply Hl.
Qed.

(** A vertex of the region at its place among the indices. *)
Lemma region_index j v : (lB ++ lF) !! j = Some v -> exists p, I !! j = Some p /\ order g' v = p.
Proof.
  intros Hj. destruct (lookup_lt_is_Some_2 I j) as [p Hp].
  { rewrite (place_length g (lB ++ lF) I HI). by apply lookup_lt_Some in Hj. }
  exists p. split; [done|]. by apply (place_order_in g (lB ++ lF) I HI HsI j).
Qed.

Lemma region_down v : v ∈ lB -> order g' v <= order g v.
Proof.
  intros [j Hj]%list_elem_of_lookup.
  destruct (region_index j v) as (p & Hp & ->); [by apply lookup_app_l_Some|].
  apply (sorted_lower (map (fun v => order g v) lB) I) with j; [|done| |done|].
  - apply region_sorted; [|intros w Hw; by apply region_B | done]. by rewrite HlB.
  - intros q (w & -> & Hw)%list_elem_of_fmap. apply region_in_I, elem_of_app. by left.
  - by rewrite list_lookup_fmap, Hj.
Qed.

Lemma region_up v : v ∈ lF -> order g v <= order g' v.
Proof.
  intros [j Hj]%list_elem_of_lookup.
  assert (length I = length lB + length lF)%nat as Hlen by (rewrite (place_length g (lB ++ lF) I HI), length_app; done).
  destruct (region_index (length lB + j) v) as (p & Hp & ->).
  { rewrite lookup_app_r by lia. rewrite <- Hj. f_equal. lia. }
  apply (sorted_upper (map (fun v => order g v) lF) I) with j; [|done| | | |].
  - apply region_sorted; [|intros w Hw; by apply region_F | done]. by rewrite HlF.
  - intros q (w & -> & Hw)%list_elem_of_fmap. apply region_in_I, elem_of_app. by right.
  - rewrite length_map. lia.
  - rewrite length_map, Hlen. rewrite <- Hp. f_equal. lia.
  - by rewrite list_lookup_fmap, Hj.
Qed.

Lemma region_order a b i j : (lB ++ lF) !! i = Some a -> (lB ++ lF) !! j = Some b -> (i < j)%nat ->
  order g' a < order g' b.
Proof.
  intros Ha Hb Hij. destruct (region_index i a Ha) as (p & Hp & ->). destruct (region_index j b Hb) as (q & Hq & ->).
  by apply (sorted_lookup_lt I HsI i j).
Qed.

Lemma region_before a b : a ∈ lB -> b ∈ lF -> order g' a < order g' b.
Proof.
  intros [i Hi]%list_elem_of_lookup [j Hj]%list_elem_of_lookup.
  apply (region_order a b i (length lB + j)).
  - by apply lookup_app_l_Some.
  - rewrite lookup_app_r by lia. rewrite <- Hj. f_equal. lia.
  - apply lookup_lt_Some in Hi. lia.
Qed.

Lemma sorted_index l a b : StronglySorted (by_order g) l -> a ∈ l -> b ∈ l -> order g a < order g b ->
  exists i j, l !! i = Some a /\ l !! j = Some b /\ (i < j)%nat.
Proof.
  intros Hs [i Hi]%list_elem_of_lookup [j Hj]%list_elem_of_lookup Hab. exists i, j. split_and!; try done.
  destruct (decide (i < j)%nat) as [|Hn]; [done|]. exfalso.
  destruct (decide (i = j)) as [->|Hne]; [rewrite Hi in Hj; injection Hj as ->; lia|].
  assert (by_order g b a) as Hba; [|unfold by_order in Hba; lia].
  apply (StronglySorted_app_1_elem_of (by_order g) (take (S j) l) (drop (S j) l)).
  - by rewrite take_drop.
  - eapply list_elem_of_lookup_2. rewrite lookup_take_Some. split; [exact Hj | lia].
  - eapply list_elem_of_lookup_2. rewrite lookup_drop. replace (S j + (i - S j))%nat with i by lia. done.
Qed.

Lemma region_within l l1 l2 a b :
  lB ++ lF = l1 ++ l ++ l2 -> StronglySorted (by_order g) l -> a ∈ l -> b ∈ l -> order g a < order g b ->
  order g' a < order g' b.
Proof.
  intros E Hs Ha Hb Hlt. destruct (sorted_index l a b Hs Ha Hb Hlt) as (i & j & Hi & Hj & Hij).
  apply (region_order a b (length l1 + i) (length l1 + j)); [| | lia]; rewrite E, lookup_app_r by lia;
    apply lookup_app_l_Some; rewrite <- ?Hi, <- ?Hj; f_equal; lia.
Qed.

(** Each edge goes up in the new order. *)
Lemma region_edge a b : edge g a b -> order g' a < order g' b.
Proof.
  intros Hab. destruct (go_edge _ Hok a b Hab) as (Ha & Hb & Hlt).
  assert (forall v, v ∉ lB ++ lF -> order g' v = order g v) as Hout by (intros v; apply place_order_out).
  destruct (decide (a ∈ lF)) as [HaF|HaF].
  { destruct (region_F a HaF) as (Hpa & _ & Hoa).
    assert (rtc (edge g) y b) as Hpb by (eapply rtc_r; done).
    destruct (decide (b ∈ lF)) as [HbF|HbF].
    { apply (region_within lF lB []); try done. by rewrite app_nil_r. }
    assert (b ∉ lB) as HbB.
    { intros (Hbx & _)%region_B. apply Hpath. by etransitivity. }
    assert (order g x <= order g b) as Hxb.
    { destruct (Z.le_gt_cases (order g x) (order g b)); [done|]. exfalso. apply HbF. rewrite HlF, HF. split; [done | lia]. }
    assert (order g x <> order g b) as Hne.
    { intros E. apply (order_inj g Hok) in E; [|done..]. subst b. done. }
    rewrite (Hout b) by (by rewrite not_elem_of_app).
    pose proof (region_bounds a ltac:(apply elem_of_app; by right)). lia. }
  destruct (decide (b ∈ lB)) as [HbB|HbB].
  { destruct (region_B b HbB) as (Hpb & _ & Hob).
    assert (rtc (edge g) a x) as Hpa by (eapply rtc_l; done).
    destruct (decide (a ∈ lB)) as [HaB|HaB].
    { by apply (region_within lB [] lF). }
    assert (order g a <= order g y) as Hay.
    { destruct (Z.le_gt_cases (order g a) (order g y)); [done|]. exfalso. apply HaB. rewrite HlB, HB. split; [done | lia]. }
    assert (order g a <> order g y) as Hne.
    { intros E. apply (order_inj g Hok) in E; [|done..]. subst a. done. }
    rewrite (Hout a) by (by rewrite not_elem_of_app).
    pose proof (region_bounds b ltac:(apply elem_of_app; by left)). lia. }
  destruct (decide (a ∈ lB)) as [HaB|HaB]; destruct (decide (b ∈ lF)) as [HbF|HbF].
  - by apply region_before.
  - rewrite (Hout b) by (by rewrite not_elem_of_app). pose proof (region_down a HaB). lia.
  - rewrite (Hout a) by (by rewrite not_elem_of_app). pose proof (region_up b HbF). lia.
  - rewrite !Hout by (by rewrite not_elem_of_app). done.
Qed.

Lemma region_ok : graph_ok g' /\ same_edges g g' /\ order g' x < order g' y.
Proof.
  split; [apply place_ok; [done | apply region_live | done | done | apply region_edge]|].
  split; [apply place_edges; [done | apply region_live | done | done]|].
  apply region_before; [rewrite HlB, HB | rewrite HlF, HF]; (split; [constructor | done]).
Qed.
End region.

(** ** The insertion *)

Lemma map_zget_prefix I rest : map (fun j => zget (I ++ rest) j) (seqZ 0 (zlength I)) = I.
Proof.
  apply list_eq. intros i. change (map ?f ?l) with (f <$> l). rewrite list_lookup_fmap.
  destruct (decide (i < length I)%nat) as [Hi|Hi].
  - rewrite lookup_seqZ_lt by (unfold zlength; lia). cbn.
    destruct (lookup_lt_is_Some_2 I i Hi) as [p Hp]. rewrite Hp. f_equal.
    apply aget_lookup; [lia|]. rewrite Z.add_0_l, Nat2Z.id. by apply lookup_app_l_Some.
  - rewrite lookup_seqZ_ge by (unfold zlength; lia). symmetry. apply lookup_ge_None. lia.
Qed.

Lemma two_assigns I rest A B g :
  length I = (length A + length B)%nat ->
  place_all B (map (fun j => zget (I ++ rest) j) (seqZ (zlength A) (zlength B)))
    (place_all A (map (fun j => zget (I ++ rest) j) (seqZ 0 (zlength A))) g) =
  place_all (A ++ B) I g.
Proof.
  intros Hl. rewrite <- place_all_app by (rewrite length_map, length_seqZ; unfold zlength; lia).
  rewrite <- map_app. replace (zlength A) with (0 + zlength A) at 2 by lia.
  rewrite <- seqZ_app by (unfold zlength; lia).
  replace (zlength A + zlength B) with (zlength I) by (unfold zlength; lia). by rewrite map_zget_prefix.
Qed.

Lemma set_indexbuf_ok g a : graph_ok g -> zlength a = g_space g ->
  graph_ok (set_g_indexbuf a g) /\ same_edges g (set_g_indexbuf a g).
Proof. intros [] Ha. split; split; try done. Qed.

(** The indices given out to the two lists of the region. *)
Lemma assign_region g x y F B :
  graph_ok g -> live g x -> live g y -> order g y < order g x -> ~ rtc (edge g) y x ->
  NoDup F -> NoDup B ->
  (forall v, v ∈ F <-> rtc (edge g) y v /\ order g v < order g x) ->
  (forall v, v ∈ B <-> rtc (edge g) v x /\ order g y < order g v) ->
  exists n indices indices' i k g1 g',
    graph_add_indices g (g_indexbuf g) 0 F = (n, indices) /\
    snd (graph_add_indices g indices n B) = indices' /\
    graph_assign_indices (set_g_indexbuf indices' g) indices' 0 B = (i, g1) /\
    graph_assign_indices g1 indices' i F = (k, g') /\
    graph_ok g' /\ same_edges g g' /\ order g' x < order g' y.
Proof.
  intros Hok Hx Hy Hxy Hpath HndF HndB HF HB.
  assert (forall v, v ∈ F -> live g v) as HlF.
  { intros v [Hp _]%HF. by destruct (path_order g Hok y v Hp) as [<-|(_ & ? & _)]. }
  assert (forall v, v ∈ B -> live g v) as HlB.
  { intros v [Hp _]%HB. by destruct (path_order g Hok v x Hp) as [->|(? & _)]. }
  assert (forall v, v ∈ F -> v ∉ B) as Hdis.
  { intros v [Hp _]%HF [Hq _]%HB. apply Hpath. by etransitivity. }
  assert (forall l, NoDup l -> (forall v, v ∈ l -> live g v) -> NoDup (map (fun v => order g v) l)) as Hndo.
  { intros l Hnd Hl. apply NoDup_fmap_2_strong; [|done]. intros v w Hv Hw. by apply (order_inj g Hok); apply Hl. }
  assert (length F + length B <= length (g_indexbuf g))%nat as Hlen.
  { rewrite <- length_app. pose proof (go_indexbuf _ Hok) as Hb. pose proof (go_size _ Hok). unfold zlength in Hb.
    etransitivity; [apply (live_set_length g Hok)|lia].
    - apply NoDup_app. done.
    - intros v [?|?]%elem_of_app; auto. }
  destruct (add_indices_ok g F [] (g_indexbuf g) 0) as (I1 & rest1 & E1 & Hr1 & Hs1 & HI1);
    [done | constructor | by apply Hndo | by intros ? ? ?%elem_of_nil | lia|].
  rewrite app_nil_r in HI1. cbn [app] in E1.
  destruct (add_indices_ok g B I1 rest1 (zlength I1)) as (I2 & rest2 & E2 & Hr2 & Hs2 & HI2);
    [done | done | by apply Hndo | | lia|].
  { intros v Hv. rewrite HI1. intros (w & E & Hw)%list_elem_of_fmap.
    rewrite (order_inj g Hok v w) in Hv by auto. by apply (Hdis w). }
  set (a := I2 ++ rest2) in *. set (g1 := set_g_indexbuf a g).
  assert (zlength I2 = zlength B + zlength F) as HlI.
  { apply Permutation_length in HI1, HI2. rewrite length_app, !length_map in *. unfold zlength. lia. }
  destruct (set_indexbuf_ok g a Hok) as [Hok1 Hse1].
  { rewrite <- (go_indexbuf _ Hok). unfold a, zlength in *. rewrite length_app. lia. }
  fold g1 in Hok1, Hse1.
  destruct (assign_loop_ok (length B) B 0 g1 a) as (lB & HlB' & HsB & EB); [done | done | lia|].
  set (g2 := place_all lB _ g1) in EB.
  destruct (assign_loop_ok (length F) F (0 + Z.of_nat (length B)) g2 a) as (lF & HlF' & HsF & EF); [done | done | lia|].
  set (g3 := place_all lF _ g2) in EF.
  assert (g3 = place_all (lB ++ lF) I2 g1) as E3.
  { unfold g3, g2, a. fold (zlength B) (zlength F).
    replace (zlength B) with (zlength lB) in * by (unfold zlength; by rewrite HlB').
    replace (zlength F) with (zlength lF) in * by (unfold zlength; by rewrite HlF').
    rewrite Z.add_0_l. apply two_assigns. unfold zlength in HlI. lia. }
  destruct (region_ok g1 Hok1 x y Hx Hy Hxy Hpath F B lF lB I2 HF HB) as (Hok3 & Hse3 & Ho3); try done.
  { eapply by_order_ext; [|exact HsF]. intros v Hv. apply place_all_other. rewrite HlB'. apply Hdis. by rewrite <- HlF'. }
  { rewrite map_app, HI2, HI1, HlB', HlF'. done. }
  rewrite <- E3 in *.
  exists (zlength I1), (I1 ++ rest1), a, (0 + Z.of_nat (length B)), (0 + Z.of_nat (length B) + Z.of_nat (length F)), g2, g3.
  split; [exact E1|]. split; [by rewrite E2|]. split; [exact EB|]. split; [exact EF|].
  split; [done|]. split; [|done]. by eapply same_edges_trans.
Qed.

Lemma graph_reorder_ok g x y :
  graph_ok g -> live g x -> live g y -> order g y < order g x ->
  exists err g', graph_reorder g x y = Ok (err, g') /\ graph_ok g' /\ same_edges g g' /\
    ((err = EDEADLK /\ rtc (edge g) y x) \/
     (err = 0 /\ ~ rtc (edge g) y x /\ order g' x < order g' y)).
Proof.
  intros Hok Hx Hy Hxy. unfold graph_reorder.
  destruct (graph_next_gen_ok g Hok) as (Hok1 & Hgr & Hfresh). set (g1 := graph_next_gen g) in *.
  pose proof (same_graph_edges _ _ Hgr) as Hse1.
  assert (live g1 x) as Hx1 by (by apply (se_live _ _ Hse1)).
  assert (live g1 y) as Hy1 by (by apply (se_live _ _ Hse1)).
  assert (order g1 y < order g1 x) as Hxy1 by (by rewrite !(gr_order _ _ Hgr)).
  destruct (delta_forward_ok g1 Hok1 x y Hy1 Hxy1 Hfresh) as (n & F & g2 & E2 & Hs2 & Hr).
  rewrite E2, bind_Ok. destruct Hr as [[-> Hp]|(Hf & Hp & HF)].
  { exists EDEADLK, g2. split; [done|]. split; [by apply (same_gen_ok g1)|].
    split; [eapply same_edges_trans; [done | by apply same_gen_edges]|]. left. split; [done|].
    by apply (same_edges_path g g1). }
  assert ((n <? 0) = false) as -> by (apply Z.ltb_ge; rewrite (fw_n _ _ _ _ _ _ Hf); unfold zlength; lia).
  destruct (backward_list g1 Hok1 x y Hx1 Hxy1 F Hp (fun v Hv => proj1 (proj1 (HF v) Hv)) n g2 Hf)
    as (nB & B & g3 & E3 & Hb & HB).
  rewrite E3, bind_Ok. pose proof (bw_same _ _ _ _ _ _ _ Hb) as Hs3.
  pose proof (same_gen_ok g1 g3 Hok1 Hs3) as Hok3. pose proof (same_gen_edges _ _ Hs3) as Hse3.
  destruct (assign_region g3 x y F B) as (m & idx & idx' & i & k & g4 & g' & EA1 & EA2 & EA3 & EA4 & Hok' & Hse' & Ho').
  { done. }
  { by apply (se_live _ _ Hse3). }
  { by apply (se_live _ _ Hse3). }
  { by rewrite !(sg_order _ _ Hs3). }
  { by rewrite (same_edges_path _ _ _ _ Hse3). }
  { apply (fw_nodup _ _ _ _ _ _ Hf). }
  { apply (bw_nodup _ _ _ _ _ _ _ Hb). }
  { intros v. rewrite (same_edges_path _ _ _ _ Hse3), !(sg_order _ _ Hs3). apply HF. }
  { intros v. rewrite (same_edges_path _ _ _ _ Hse3), !(sg_order _ _ Hs3). apply HB. }
  rewrite EA1. destruct (graph_add_indices g3 idx m B) as [m2 idx2]. cbn in EA2. subst idx2. rewrite EA3, EA4.
  exists 0, g'. split; [done|]. split; [done|].
  split; [eapply same_edges_trans; [done|]; by eapply same_edges_trans|]. right. split; [done|]. split; [|done].
  by rewrite <- (same_edges_path g g1).
Qed.
