(* ===== verification/LfGraphOps.v ===== *)
(** * The operations of the owner graph

    The vertices and edges after each operation: an edge counts its
    insertions, and is refused when its end reaches its start; a vertex
    without edges can be taken out. *)

From stdpp Require Import relations.
From S2P Require Import Prelude LfGraph LfGraphInv LfGraphEdge.

Definition is_edge (x y a b : Z) : Z := if (a =? x) && (b =? y) then 1 else 0.

(** The vertices are the same; their edges may not be. *)
Record same_vertices (g g' : owner_graph) : Prop := SameVertices {
  sv_live v : live g' v <-> live g v;
  sv_size : g_size g' = g_size g;
  sv_owner v : v_owner (vertex g' v) = v_owner (vertex g v);
}.

Lemma same_edges_vertices g g' : same_edges g g' -> same_vertices g g'.
Proof. by intros []. Qed.

Lemma is_edge_true x y a b : is_edge x y a b = 1 <-> a = x /\ b = y.
Proof. unfold is_edge. destruct (Z.eqb_spec a x), (Z.eqb_spec b y); cbn; split; intros; lia || intuition lia. Qed.

Lemma list_remove_elem v l w : NoDup l -> w ∈ list_remove v l <-> w ∈ l /\ w <> v.
Proof.
  induction 1 as [|u l Hu Hnd IH]; cbn [list_remove].
  { split; [by intros ?%elem_of_nil | by intros [?%elem_of_nil _]]. }
  destruct (Z.eqb_spec u v) as [->|Hne]; rewrite !elem_of_cons; [|rewrite IH];
    intuition congruence.
Qed.

Lemma list_remove_nodup v l : NoDup l -> NoDup (list_remove v l).
Proof.
  induction 1 as [|u l Hu Hnd IH]; cbn [list_remove]; [constructor|].
  destruct (u =? v); [done|]. constructor; [|done]. by rewrite list_remove_elem by done; intros [].
Qed.

(** ** Edges *)

Section edges.
Context (g : owner_graph) (Hok : graph_ok g) (x y : Z) (Hx : live g x) (Hy : live g y).

Definition link (g : owner_graph) : owner_graph :=
  let g := set_v_outedges x (y :: outs g x) g in
  let g := set_v_inedges y (x :: ins g y) g in
  set_e_refs x y 1 g.

Lemma outs_set_out v l h w : outs (set_v_outedges v l h) w = if w =? v then l else outs h w.
Proof. unfold set_v_outedges. rewrite vertex_set. by destruct (w =? v). Qed.
Lemma ins_set_out v l h w : ins (set_v_outedges v l h) w = ins h w.
Proof. unfold set_v_outedges. rewrite vertex_set. by destruct (Z.eqb_spec w v) as [->|]. Qed.
Lemma outs_set_in v l h w : outs (set_v_inedges v l h) w = outs h w.
Proof. unfold set_v_inedges. rewrite vertex_set. by destruct (Z.eqb_spec w v) as [->|]. Qed.
Lemma ins_set_in v l h w : ins (set_v_inedges v l h) w = if w =? v then l else ins h w.
Proof. unfold set_v_inedges. rewrite vertex_set. by destruct (w =? v). Qed.

(** Only the two lists of edges of a vertex differ. *)
Record same_but_lists (h h' : owner_graph) : Prop := SameButLists {
  sl_vertices : g_vertices h' = g_vertices h;
  sl_size : g_size h' = g_size h;
  sl_space : g_space h' = g_space h;
  sl_indexbuf : g_indexbuf h' = g_indexbuf h;
  sl_ggen : g_gen h' = g_gen h;
  sl_order v : order h' v = order h v;
  sl_gen v : gen_of h' v = gen_of h v;
  sl_owner v : v_owner (vertex h' v) = v_owner (vertex h v);
}.

Lemma same_but_lists_trans h1 h2 h3 : same_but_lists h1 h2 -> same_but_lists h2 h3 -> same_but_lists h1 h3.
Proof. intros [] []. split; congruence. Qed.

Lemma set_outedges_same v l h : same_but_lists h (set_v_outedges v l h).
Proof. split; try done; intros w; unfold set_v_outedges; rewrite vertex_set; by destruct (Z.eqb_spec w v) as [->|]. Qed.
Lemma set_inedges_same v l h : same_but_lists h (set_v_inedges v l h).
Proof. split; try done; intros w; unfold set_v_inedges; rewrite vertex_set; by destruct (Z.eqb_spec w v) as [->|]. Qed.

Lemma same_lists_vertices h h' : same_but_lists h h' -> same_vertices h h'.
Proof. intros []. split; try done. intros v. unfold live, vertices. by rewrite sl_size0, sl_vertices0. Qed.

(** The laws of the new lists are enough. *)
Lemma same_lists_ok h h' :
  graph_ok h -> same_but_lists h h' ->
  (forall a b, b ∈ outs h' a <-> a ∈ ins h' b) ->
  (forall a b, edge h' a b -> live h a /\ live h b /\ order h a < order h b) ->
  (forall a, NoDup (outs h' a)) -> (forall a, NoDup (ins h' a)) ->
  (forall a b, 0 <= e_refs h' a b /\ (edge h' a b <-> 0 < e_refs h' a b)) ->
  graph_ok h'.
Proof.
  intros Hh Hs He Hup Ho Hi Hr. pose proof Hs as [Hv Hz Hp Hb Hg Hor Hgen _].
  destruct (same_lists_vertices _ _ Hs) as [Hl _ _].
  split; rewrite ?Hz, ?Hp, ?Hv, ?Hb, ?Hg; try done; try apply Hh.
  - intros i v. unfold vertices. rewrite Hz, Hv, Hor. apply Hh.
  - intros a b Hab. rewrite !Hl, !Hor. by apply Hup.
  - intros v. rewrite Hl, Hgen. apply Hh.
Qed.

Lemma link_edge h a b : edge (link h) a b <-> edge h a b \/ (a = x /\ b = y).
Proof.
  unfold edge, link. cbn [vertex set_e_refs]. rewrite outs_set_in, outs_set_out.
  destruct (Z.eqb_spec a x) as [->|]; [rewrite elem_of_cons|]; intuition.
Qed.

Lemma link_ins h a b : a ∈ ins (link h) b <-> a ∈ ins h b \/ (a = x /\ b = y).
Proof.
  unfold link. cbn [vertex set_e_refs]. rewrite ins_set_in, !ins_set_out.
  destruct (Z.eqb_spec b y) as [->|]; [rewrite elem_of_cons|]; intuition.
Qed.

Lemma link_same h : same_but_lists h (link h).
Proof.
  unfold link. eapply same_but_lists_trans; [apply set_outedges_same|].
  destruct (set_inedges_same y (x :: ins (set_v_outedges x (y :: outs h x) h) y) (set_v_outedges x (y :: outs h x) h)).
  done.
Qed.

Lemma link_ok h : graph_ok h -> live h x -> live h y -> ~ edge h x y -> order h x < order h y ->
  graph_ok (link h) /\ same_vertices h (link h) /\
  forall a b, e_refs (link h) a b = e_refs h a b + is_edge x y a b.
Proof.
  intros Hh Hhx Hhy Hne Hlt.
  assert (e_refs h x y = 0) as H0.
  { destruct (go_refs _ Hh x y) as [? ?]. destruct (Z.eq_dec (e_refs h x y) 0); [done|]. exfalso. apply Hne, H0. lia. }
  assert (forall a b, e_refs (link h) a b = e_refs h a b + is_edge x y a b) as Hr.
  { intros a b. unfold link, is_edge. cbn [e_refs set_e_refs].
    destruct (Z.eqb_spec a x) as [->|], (Z.eqb_spec b y) as [->|]; cbn; try lia; by rewrite Z.add_0_r. }
  split; [|split; [by apply same_lists_vertices, link_same | done]].
  apply (same_lists_ok h); [done | apply link_same | | | | |].
  - intros a b. rewrite link_ins. pose proof (link_edge h a b) as He. unfold edge in He. rewrite He.
    by rewrite (go_ends _ Hh).
  - intros a b [Hab|[-> ->]]%link_edge; [by apply (go_edge _ Hh) | done].
  - intros a. unfold link. cbn [vertex set_e_refs]. rewrite outs_set_in, outs_set_out.
    destruct (Z.eqb_spec a x) as [->|]; [|apply Hh]. constructor; [done | apply Hh].
  - intros b. unfold link. cbn [vertex set_e_refs]. rewrite ins_set_in, !ins_set_out.
    destruct (Z.eqb_spec b y) as [->|]; [|apply Hh]. constructor; [by rewrite <- (go_ends _ Hh) | apply Hh].
  - intros a b. rewrite link_edge, Hr, <- (is_edge_true x y a b). destruct (go_refs _ Hh a b) as [Hn He]. rewrite He.
    unfold is_edge in *. destruct (_ && _); split; try lia; intuition lia.
Qed.
End edges.

Lemma add_edge_ok g x y : graph_ok g -> live g x -> live g y -> x <> y ->
  exists err g', graph_add_edge g x y = Ok (err, g') /\ graph_ok g' /\ same_vertices g g' /\
    ((err = EDEADLK /\ rtc (edge g) y x /\ same_edges g g') \/
     (err = 0 /\ ~ rtc (edge g) y x /\ forall a b, e_refs g' a b = e_refs g a b + is_edge x y a b)).
Proof.
  intros Hok Hx Hy Hne. unfold graph_add_edge. destruct (bool_decide _) eqn:Eb.
  - apply bool_decide_eq_true in Eb. destruct (go_refs _ Hok x y) as [_ Hr].
    pose proof (proj1 Hr Eb) as Hpos. eexists _, _. split; [done|].
    assert (forall a b, e_refs (set_e_refs x y (e_refs g x y + 1) g) a b = e_refs g a b + is_edge x y a b) as He.
    { intros a b. unfold is_edge. cbn [e_refs set_e_refs].
      destruct (Z.eqb_spec a x) as [->|], (Z.eqb_spec b y) as [->|]; cbn; lia. }
    split; [|split; [done|]].
    + split; try apply Hok. intros a b. rewrite He. unfold edge.
      cbn [vertex set_e_refs]. destruct (go_refs _ Hok a b) as [H0 H1]. unfold edge in H1. rewrite H1.
      unfold is_edge. destruct (Z.eqb_spec a x) as [->|], (Z.eqb_spec b y) as [->|]; cbn; split; lia.
    + right. split; [done|]. split; [by apply (path_acyclic g Hok x y)|done].
  - apply bool_decide_eq_false in Eb.
    assert (order g x <> order g y) as Ho by (intros E; by apply Hne, (order_inj g Hok)).
    assert (forall h, graph_ok h -> same_edges g h -> ~ rtc (edge g) y x -> order h x < order h y ->
      exists g', (require (order h x <? order h y) "Failed to re-order graph";; Ok (0, link x y h)) = Ok (0, g') /\
        graph_ok g' /\ same_vertices g g' /\
        ((0 = EDEADLK /\ rtc (edge g) y x /\ same_edges g g') \/
         (0 = 0 /\ ~ rtc (edge g) y x /\ forall a b, e_refs g' a b = e_refs g a b + is_edge x y a b))) as Hlink.
    { intros h Hh Hse Hp Hlt. exists (link x y h). rewrite require_true by (by apply Z.ltb_lt). split; [done|].
      destruct (link_ok x y h Hh) as (Hl & Hv & He); [by apply (se_live _ _ Hse).. | | done|].
      { by unfold edge; rewrite (se_outs _ _ Hse). }
      split; [done|]. split.
      - destruct Hse as [H1 H2 _ _ _ H3], Hv as [H4 H5 H6]. split; try congruence. intros v. by rewrite H4, H1.
      - right. split; [done|]. split; [done|]. intros a b. by rewrite He, (se_refs _ _ Hse). }
    destruct (Z.ltb_spec (order g y) (order g x)) as [Hlt|Hge].
    + destruct (graph_reorder_ok g x y Hok Hx Hy Hlt) as (err & h & E & Hh & Hse & Hr).
      rewrite E, bind_Ok. destruct Hr as [[-> Hp]|(-> & Hp & Hlt')]; cbn [negb].
      * exists EDEADLK, h. split; [done|]. split; [done|]. split; [by apply same_edges_vertices|]. left. done.
      * destruct (Hlink h Hh Hse Hp Hlt') as (g' & E' & ?). exists 0, g'. done.
    + rewrite bind_Ok. cbn [negb].
      destruct (Hlink g) as (g' & E' & ?); [done | done | | lia | by exists 0, g'].
      intros [->|(_ & _ & ?)]%(path_order g Hok); [done | lia].
Qed.

Lemma remove_edge_ok g x y : graph_ok g -> edge g x y ->
  exists g', graph_remove_edge g x y = Ok g' /\ graph_ok g' /\ same_vertices g g' /\
    forall a b, e_refs g' a b = e_refs g a b - is_edge x y a b.
Proof.
  intros Hok He. unfold graph_remove_edge. rewrite require_true by (by apply bool_decide_eq_true).
  rewrite bind_Ok. set (h := set_e_refs x y (e_refs g x y - 1) g).
  assert (forall a b, e_refs h a b = e_refs g a b - is_edge x y a b) as Hr.
  { intros a b. unfold is_edge, h. cbn [e_refs set_e_refs].
    destruct (Z.eqb_spec a x) as [->|], (Z.eqb_spec b y) as [->|]; cbn; lia. }
  destruct (go_refs _ Hok x y) as [_ Hxy]. pose proof (proj1 Hxy He) as Hpos.
  assert (e_refs h x y = e_refs g x y - 1) as E1 by (rewrite Hr, (proj2 (is_edge_true x y x y)) by done; done).
  destruct (Z.eqb_spec (e_refs h x y) 0) as [E0|Hn0].
  - eexists. split; [done|].
    change (vertex (set_v_outedges x (list_remove y (outs h x)) h)) with (vertex (set_v_outedges x (list_remove y (outs g x)) g)).
    rewrite ins_set_out. set (h1 := set_v_outedges x _ h). set (g' := set_v_inedges y _ h1).
    assert (same_but_lists h g') as Hs.
    { eapply same_but_lists_trans; [apply set_outedges_same | apply set_inedges_same]. }
    assert (forall a b, edge g' a b <-> edge g a b /\ ~ (a = x /\ b = y)) as Hed.
    { intros a b. unfold edge, g', h1. rewrite outs_set_in, outs_set_out. change (vertex h) with (vertex g).
      destruct (Z.eqb_spec a x) as [->|]; [rewrite list_remove_elem by apply Hok|]; intuition. }
    assert (forall a b, a ∈ ins g' b <-> a ∈ ins g b /\ ~ (a = x /\ b = y)) as Hin.
    { intros a b. unfold g', h1. rewrite ins_set_in, ins_set_out. change (vertex h) with (vertex g).
      destruct (Z.eqb_spec b y) as [->|]; [rewrite list_remove_elem by apply Hok|]; intuition. }
    split; [|split; [by destruct (same_lists_vertices _ _ Hs) | exact Hr]].
    assert (e_refs g' = e_refs h) as Er by done.
    assert (graph_ok (set_e_refs x y (e_refs g x y) h)) as Hok'.
    { split; try apply Hok. intros a b. unfold edge, h. cbn [e_refs set_e_refs vertex].
      destruct (go_refs _ Hok a b). destruct (Z.eqb_spec a x) as [->|], (Z.eqb_spec b y) as [->|]; done. }
    apply (same_lists_ok (set_e_refs x y (e_refs g x y) h)); [done | by destruct Hs | | | | |].
    + intros a b. rewrite Hin. change (b ∈ outs g' a) with (edge g' a b). rewrite Hed. unfold edge.
      by rewrite (go_ends _ Hok).
    + intros a b [Hab _]%Hed. by apply (go_edge _ Hok).
    + intros a. unfold g', h1. rewrite outs_set_in, outs_set_out. change (vertex h) with (vertex g).
      destruct (a =? x); [apply list_remove_nodup|]; apply Hok.
    + intros a. unfold g', h1. rewrite ins_set_in, ins_set_out. change (vertex h) with (vertex g).
      destruct (a =? y); [apply list_remove_nodup|]; apply Hok.
    + intros a b. rewrite Er, Hr, Hed, <- (is_edge_true x y a b). destruct (go_refs _ Hok a b) as [Hn Hab]. rewrite Hab.
      destruct (Z.eq_dec (is_edge x y a b) 1) as [E|E].
      * rewrite E. apply is_edge_true in E as [-> ->]. lia.
      * unfold is_edge in *. destruct (_ && _); [done|]. lia.
  - exists h. split; [done|]. split; [|done]. split; try apply Hok.
    intros a b. rewrite Hr. destruct (go_refs _ Hok a b) as [H0 H1]. unfold edge in *. change (vertex h) with (vertex g). rewrite H1.
    unfold is_edge. destruct (Z.eqb_spec a x) as [->|], (Z.eqb_spec b y) as [->|]; cbn; lia.
Qed.

(** ** Vertices *)

Lemma graph_init_ok : graph_ok graph_init.
Proof.
  split; try done.
  - intros a b. split; by intros ?%elem_of_nil.
  - by intros a b ?%elem_of_nil.
  - intros a. constructor.
  - intros a. constructor.
  - intros a b. split; [done|]. split; [by intros ?%elem_of_nil | done].
Qed.

Lemma init_live v : ~ live graph_init v.
Proof. by intros ?%elem_of_nil. Qed.

Lemma graph_grow_ok g : graph_ok g ->
  graph_ok (graph_grow g) /\ same_edges g (graph_grow g) /\ g_size (graph_grow g) < g_space (graph_grow g) /\
  (forall v, order (graph_grow g) v = order g v).
Proof.
  intros Hok. unfold graph_grow. pose proof (go_size _ Hok) as Hz. pose proof (go_space _ Hok) as Hsp.
  destruct (Z.eqb_spec (g_size g) (g_space g)) as [E|]; [|split_and!; try done; lia].
  pose proof (go_vertices _ Hok) as Hl. unfold zlength in Hl.
  set (h := Graph _ _ _ _ _ _ _).
  assert (vertices h = vertices g) as Ev.
  { unfold vertices, h. cbn [g_vertices g_size]. rewrite take_app_le by lia. done. }
  assert (forall v, live h v <-> live g v) as Hlive by (intros v; unfold live; by rewrite Ev).
  split; [|split; [by split|split; [unfold h; cbn; lia | done]]].
  split; try apply Hok; unfold h; cbn [g_size g_space g_vertices g_indexbuf].
  - lia.
  - lia.
  - unfold zlength. rewrite length_app, length_replicate. lia.
  - unfold zlength. rewrite length_replicate. lia.
  - intros i v Hi. change (vertices h !! i = Some v) in Hi. rewrite Ev in Hi. by apply (go_order _ Hok).
  - intros a b Hab. pose proof (go_edge _ Hok a b Hab) as (? & ? & ?).
    split; [by apply (proj2 (Hlive a))|]. split; [by apply (proj2 (Hlive b)) | done].
  - intros v Hv. apply (go_gen _ Hok). by apply (proj1 (Hlive v)).
Qed.

Lemma not_live_no_edge g v w : graph_ok g -> ~ live g v ->
  ~ edge g v w /\ ~ edge g w v /\ e_refs g v w = 0 /\ e_refs g w v = 0.
Proof.
  intros Hok Hv. assert (~ edge g v w) as H1 by (intros H; by apply (go_edge _ Hok) in H as (? & _)).
  assert (~ edge g w v) as H2 by (intros H; by apply (go_edge _ Hok) in H as (_ & ? & _)).
  destruct (go_refs _ Hok v w) as [? [_ ?]], (go_refs _ Hok w v) as [? [_ ?]].
  split; [done|]. split; [done|]. split.
  - destruct (Z.eq_dec (e_refs g v w) 0); [done|]. exfalso. apply H1. auto with lia.
  - destruct (Z.eq_dec (e_refs g w v) 0); [done|]. exfalso. apply H2. auto with lia.
Qed.

Lemma alloc_vertex_ok g lo v : graph_ok g -> ~ live g v ->
  let g' := graph_alloc_vertex g lo v in
  graph_ok g' /\ (forall w, live g' w <-> live g w \/ w = v) /\ e_refs g' = e_refs g /\
  (forall w, v_owner (vertex g' w) = if w =? v then lo else v_owner (vertex g w)).
Proof.
  intros Hok0 Hv0 g'. destruct (graph_grow_ok g Hok0) as (Hok & Hse & Hroom & _). unfold graph_alloc_vertex in g'.
  set (h := graph_grow g) in *. assert (~ live h v) as Hv by (by rewrite (se_live _ _ Hse)).
  pose proof (go_size _ Hok) as Hz. pose proof (go_vertices _ Hok) as Hl. unfold zlength in Hl.
  assert (vertices g' = vertices h ++ [v]) as Ev.
  { unfold vertices, g'. cbn [g_vertices g_size set_g_size set_g_vertices set_vertex].
    replace (Z.to_nat (g_size h + 1)) with (S (Z.to_nat (g_size h))) by lia.
    assert (zset (g_vertices h) (g_size h) v !! Z.to_nat (g_size h) = Some v) as Ei.
    { unfold aset. zcase; [lia|]. rewrite list_lookup_insert_eq; [done | lia]. }
    rewrite (take_S_r _ _ v Ei). f_equal. unfold aset. zcase; [lia|]. by rewrite take_insert_ge by lia. }
  assert (forall w, live g' w <-> live h w \/ w = v) as Hlive.
  { intros w. unfold live. by rewrite Ev, elem_of_app, list_elem_of_singleton. }
  assert (forall w, vertex g' w = if w =? v then Vertex (g_gen h) (g_size h) [] [] lo else vertex h w) as Hx by done.
  assert (forall w, w <> v -> vertex g' w = vertex h w) as Hx' by (intros w Hw; rewrite Hx; by destruct (Z.eqb_spec w v)).
  assert (forall a b, edge g' a b <-> edge h a b) as Hed.
  { intros a b. unfold edge. rewrite Hx. destruct (Z.eqb_spec a v) as [->|]; [|done]. cbn.
    destruct (not_live_no_edge h v b Hok Hv) as (Hn & _). unfold edge in Hn. split; [by intros ?%elem_of_nil | done]. }
  assert (forall a b, a ∈ ins g' b <-> a ∈ ins h b) as Hin.
  { intros a b. rewrite Hx. destruct (Z.eqb_spec b v) as [->|]; [|done]. cbn. rewrite <- (go_ends _ Hok).
    destruct (not_live_no_edge h v a Hok Hv) as (_ & Hn & _). split; [by intros ?%elem_of_nil | done]. }
  split_and!.
  - split; try apply Hok.
    + change (0 <= g_size h + 1 <= g_space h). lia.
    + change (zlength (zset (g_vertices h) (g_size h) v) = g_space h). rewrite zlength_aset. apply Hok.
    + intros i w. rewrite Ev. intros Hi. apply lookup_app_Some in Hi as [Hi|[Hi Hi']].
      * assert (w <> v) as Hw by (intros ->; apply Hv; by eapply list_elem_of_lookup_2).
        rewrite Hx' by done. by apply (go_order _ Hok).
      * rewrite (vertices_length h Hok) in *. apply list_lookup_singleton_Some in Hi' as [Hi' <-].
        rewrite Hx, Z.eqb_refl. cbn. lia.
    + intros a b. change (b ∈ outs g' a) with (edge g' a b). rewrite Hed, Hin. apply (go_ends _ Hok).
    + intros a b Hab%Hed. destruct (go_edge _ Hok a b Hab) as (Ha & Hb & Ho).
      rewrite !Hlive, !Hx' by (intros ->; done). auto.
    + intros a. rewrite Hx. destruct (a =? v); [constructor | apply Hok].
    + intros a. rewrite Hx. destruct (a =? v); [constructor | apply Hok].
    + intros a b. rewrite Hed. apply Hok.
    + intros w Hw%Hlive. pose proof (go_gen_range _ Hok). rewrite Hx.
      destruct (Z.eqb_spec w v) as [->|]; [cbn; lia|]. apply (go_gen _ Hok). by destruct Hw.
  - intros w. by rewrite Hlive, (se_live _ _ Hse).
  - exact (se_refs _ _ Hse).
  - intros w. rewrite Hx. destruct (w =? v); [done | apply (se_owner _ _ Hse)].
Qed.

(** The vertices after the one taken out move down by one. *)
Section free.
Context (g : owner_graph) (Hok : graph_ok g) (v : Z) (Hv : live g v).

Record closing (k : Z) (h : owner_graph) : Prop := Closing {
  cl_size : g_size h = g_size g;
  cl_space : g_space h = g_space g;
  cl_indexbuf : g_indexbuf h = g_indexbuf g;
  cl_ggen : g_gen h = g_gen g;
  cl_refs : e_refs h = e_refs g;
  cl_length : zlength (g_vertices h) = zlength (g_vertices g);
  cl_gen w : gen_of h w = gen_of g w;
  cl_outs w : outs h w = outs g w;
  cl_ins w : ins h w = ins g w;
  cl_owner w : v_owner (vertex h w) = v_owner (vertex g w);
  cl_order w : live g w ->
    order h w = if (order g v <? order g w) && (order g w <? k) then order g w - 1 else order g w;
  cl_at j : 0 <= j < g_size g ->
    zget (g_vertices h) j = zget (g_vertices g) (if (order g v <=? j) && (j <? k - 1) then j + 1 else j);
}.

Lemma at_order w : live g w -> zget (g_vertices g) (order g w) = w.
Proof.
  intros Hw. pose proof (order_vertex g Hok w Hw) as E. apply vertices_zget in E as [_ E]; [|done].
  pose proof (live_order g Hok w Hw). by rewrite Z2Nat.id in E by lia.
Qed.

Lemma at_live j : 0 <= j < g_size g -> live g (zget (g_vertices g) j) /\ order g (zget (g_vertices g) j) = j.
Proof.
  intros Hj. assert (vertices g !! Z.to_nat j = Some (zget (g_vertices g) j)) as E.
  { apply vertices_zget; [done|]. rewrite Z2Nat.id by lia. split; [lia | done]. }
  split; [by eapply list_elem_of_lookup_2|]. rewrite (go_order _ Hok _ _ E). lia.
Qed.

Lemma close_gap_ok :
  closing (g_size g) (close_gap (Z.to_nat (g_size g - (order g v + 1))) (order g v + 1) g).
Proof.
  pose proof (live_order g Hok v Hv) as Hvo.
  replace (g_size g) with (order g v + 1 + Z.of_nat (Z.to_nat (g_size g - (order g v + 1)))) at 1 by lia.
  apply (foreach_ind closing).
  { split; try done.
    - intros w Hw. destruct (Z.ltb_spec (order g v) (order g w)), (Z.ltb_spec (order g w) (order g v + 1)); cbn; lia.
    - intros j Hj. f_equal. destruct (Z.leb_spec (order g v) j), (Z.ltb_spec j (order g v + 1 - 1)); cbn; lia. }
  intros k h Hk Hc. assert (0 <= k < g_size g) as Hk' by lia.
  assert (zget (g_vertices h) k = zget (g_vertices g) k) as Ek.
  { rewrite (cl_at _ _ Hc k Hk'). f_equal. destruct (Z.leb_spec (order g v) k), (Z.ltb_spec k (k - 1)); cbn; lia. }
  cbv zeta. rewrite Ek. set (w := zget (g_vertices g) k). destruct (at_live k Hk') as [Hlw How]. fold w in Hlw, How.
  assert (order h w = k) as Eo.
  { rewrite (cl_order _ _ Hc w Hlw), How. destruct (Z.ltb_spec k k); [lia|]. by rewrite andb_false_r. }
  rewrite Eo. pose proof (go_size _ Hok) as Hz. pose proof (go_vertices _ Hok) as Hgv.
  split; try apply Hc.
  - change (zlength (zset (g_vertices h) (k - 1) w) = zlength (g_vertices g)).
    rewrite zlength_aset. apply Hc.
  - intros u. unfold set_v_order. cbn [vertex set_g_vertices]. rewrite vertex_set, <- (cl_gen _ _ Hc).
    by destruct (Z.eqb_spec u w) as [->|].
  - intros u. unfold set_v_order. cbn [vertex set_g_vertices]. rewrite vertex_set, <- (cl_outs _ _ Hc).
    by destruct (Z.eqb_spec u w) as [->|].
  - intros u. unfold set_v_order. cbn [vertex set_g_vertices]. rewrite vertex_set, <- (cl_ins _ _ Hc).
    by destruct (Z.eqb_spec u w) as [->|].
  - intros u. unfold set_v_order. cbn [vertex set_g_vertices]. rewrite vertex_set, <- (cl_owner _ _ Hc).
    by destruct (Z.eqb_spec u w) as [->|].
  - intros u Hu. cbn [vertex set_g_vertices]. rewrite order_set. destruct (Z.eqb_spec u w) as [->|Hne].
    + rewrite How. destruct (Z.ltb_spec (order g v) k), (Z.ltb_spec k (k + 1)); cbn; lia.
    + rewrite (cl_order _ _ Hc u Hu). assert (order g u <> k) by (rewrite <- How; intros E; by apply Hne, (order_inj g Hok)).
      destruct (Z.ltb_spec (order g v) (order g u)), (Z.ltb_spec (order g u) k), (Z.ltb_spec (order g u) (k + 1)); cbn; lia.
  - intros j Hj. change (zget (zset (g_vertices h) (k - 1) w) j =
      zget (g_vertices g) (if (order g v <=? j) && (j <? k + 1 - 1) then j + 1 else j)).
    destruct (Z.eq_dec j (k - 1)) as [->|Hne].
    + rewrite aget_aset_eq by (rewrite (cl_length _ _ Hc); lia).
      unfold w. f_equal. destruct (Z.leb_spec (order g v) (k - 1)), (Z.ltb_spec (k - 1) (k + 1 - 1)); cbn; lia.
    + rewrite aget_aset_ne by lia. rewrite (cl_at _ _ Hc j Hj). f_equal.
      destruct (Z.leb_spec (order g v) j), (Z.ltb_spec j (k - 1)), (Z.ltb_spec j (k + 1 - 1)); cbn; lia.
Qed.

Lemma free_vertex_ok : outs g v = [] -> ins g v = [] ->
  exists g', graph_free_vertex g v = Ok g' /\ graph_ok g' /\ (forall w, live g' w <-> live g w /\ w <> v) /\
    e_refs g' = e_refs g /\ (forall w, v_owner (vertex g' w) = v_owner (vertex g w)).
Proof.
  intros Ho Hi. unfold graph_free_vertex. rewrite Ho, Hi. cbn [is_empty]. rewrite !require_true, !bind_Ok by done.
  pose proof close_gap_ok as Hc. set (h := close_gap _ _ g) in *. eexists. split; [done|].
  set (g' := set_g_size (g_size h - 1) h). pose proof (live_order g Hok v Hv) as Hvo.
  pose proof (go_size _ Hok) as Hz. pose proof (go_vertices _ Hok) as Hgv.
  assert (g_size g' = g_size g - 1) as Es by (unfold g'; cbn; by rewrite (cl_size _ _ Hc)).
  assert (forall i w, vertices g' !! i = Some w <->
    Z.of_nat i < g_size g - 1 /\ w = zget (g_vertices g) (if order g v <=? Z.of_nat i then Z.of_nat i + 1 else Z.of_nat i)) as Hat.
  { intros i w. unfold vertices. rewrite Es, lookup_take_Some. change (g_vertices g') with (g_vertices h).
    pose proof (cl_length _ _ Hc) as Hl. unfold zlength in Hl, Hgv.
    assert (Z.of_nat i < g_size g - 1 -> g_vertices h !! i = Some (zget (g_vertices g)
      (if order g v <=? Z.of_nat i then Z.of_nat i + 1 else Z.of_nat i))) as E.
    { intros Hi'. rewrite <- (Nat2Z.id i) at 1. rewrite lookup_aget with (d := 0) by (unfold zlength; lia). f_equal.
      rewrite (cl_at _ _ Hc) by lia. f_equal.
      destruct (Z.leb_spec (order g v) (Z.of_nat i)), (Z.ltb_spec (Z.of_nat i) (g_size g - 1)); cbn; lia. }
    split.
    - intros [E' Hi']. assert (Z.of_nat i < g_size g - 1) as Hi'' by lia. rewrite (E Hi'') in E'. split; congruence.
    - intros [Hi' ->]. split; [by apply E | lia]. }
  assert (forall w, live g w -> w <> v -> vertices g' !! Z.to_nat (order h w) = Some w /\ 0 <= order h w) as Hback.
  { intros w Hw Hne. pose proof (live_order g Hok w Hw) as Hwo. rewrite (cl_order _ _ Hc w Hw).
    assert (order g w <> order g v) as Hwv by (intros E; by apply Hne, (order_inj g Hok)).
    destruct (Z.ltb_spec (order g w) (g_size g)); [|lia]. rewrite andb_true_r.
    destruct (Z.ltb_spec (order g v) (order g w)); (split; [|lia]); apply Hat;
      rewrite Z2Nat.id by lia; (split; [lia|]); rewrite <- (at_order w Hw) at 1; f_equal;
      match goal with |- context [?a <=? ?b] => destruct (Z.leb_spec a b) end; lia. }
  assert (forall i w, vertices g' !! i = Some w -> live g w /\ w <> v /\ order h w = Z.of_nat i) as Hfwd.
  { intros i w [Hi' ->]%Hat. destruct (Z.leb_spec (order g v) (Z.of_nat i)) as [Hle|Hlt].
    - destruct (at_live (Z.of_nat i + 1)) as [Hl El]; [lia|]. split; [done|].
      split; [intros E; rewrite E in El; lia|]. rewrite (cl_order _ _ Hc _ Hl), El.
      destruct (Z.ltb_spec (order g v) (Z.of_nat i + 1)), (Z.ltb_spec (Z.of_nat i + 1) (g_size g)); cbn; lia.
    - destruct (at_live (Z.of_nat i)) as [Hl El]; [lia|]. split; [done|].
      split; [intros E; rewrite E in El; lia|]. rewrite (cl_order _ _ Hc _ Hl), El.
      destruct (Z.ltb_spec (order g v) (Z.of_nat i)); cbn; lia. }
  assert (forall w, live g' w <-> live g w /\ w <> v) as Hlive.
  { intros w. split; [by intros [i (? & ? & _)%Hfwd]%live_index|].
    intros [Hw Hne]. apply live_index. eexists. by apply Hback. }
  split; [|split; [done|split; [apply Hc | apply Hc]]].
  split; rewrite ?Es; change (g_space g') with (g_space h); change (g_vertices g') with (g_vertices h);
    change (g_indexbuf g') with (g_indexbuf h); change (vertex g') with (vertex h); change (g_gen g') with (g_gen h);
    rewrite ?(cl_space _ _ Hc), ?(cl_length _ _ Hc), ?(cl_indexbuf _ _ Hc), ?(cl_ggen _ _ Hc); try apply Hok.
  - lia.
  - intros i w Hw. by apply Hfwd.
  - intros a b. rewrite (cl_outs _ _ Hc), (cl_ins _ _ Hc). apply Hok.
  - intros a b Hab. unfold edge in Hab. change (vertex g') with (vertex h) in Hab. rewrite (cl_outs _ _ Hc) in Hab.
    destruct (go_edge _ Hok a b Hab) as (Ha & Hb & Hlt).
    assert (a <> v) as Hav by (intros ->; unfold edge in Hab; rewrite Ho in Hab; by apply elem_of_nil in Hab).
    assert (b <> v) as Hbv by (intros ->; apply (go_ends _ Hok) in Hab; rewrite Hi in Hab; by apply elem_of_nil in Hab).
    split; [by apply Hlive|]. split; [by apply Hlive|].
    assert (order g a <> order g v) by (intros E; by apply Hav, (order_inj g Hok)).
    assert (order g b <> order g v) by (intros E; by apply Hbv, (order_inj g Hok)).
    pose proof (live_order g Hok a Ha). pose proof (live_order g Hok b Hb).
    rewrite (cl_order _ _ Hc a Ha), (cl_order _ _ Hc b Hb).
    destruct (Z.ltb_spec (order g v) (order g a)), (Z.ltb_spec (order g v) (order g b)),
      (Z.ltb_spec (order g a) (g_size g)), (Z.ltb_spec (order g b) (g_size g)); cbn; lia.
  - intros a. rewrite (cl_outs _ _ Hc). apply Hok.
  - intros a. rewrite (cl_ins _ _ Hc). apply Hok.
  - intros a b. unfold edge. change (e_refs g') with (e_refs h). change (vertex g') with (vertex h).
    rewrite (cl_outs _ _ Hc), (cl_refs _ _ Hc). apply Hok.
  - intros w [Hw _]%Hlive. rewrite (cl_gen _ _ Hc). by apply (go_gen _ Hok).
Qed.
End free.
