(* ===== verification/Lockf.v ===== *)
(** * Advisory record locks (src/sys/kern/kern_lockf.c)

    Locks on ranges of bytes of files, active or pending, with an edge from a
    pending lock to each lock it waits for, and the owners of the locks with
    their vertices in the graph of [LfGraph].

    Locks, owners and vertices are named by address; [next_addr] is the
    address that malloc gives next, 0 is NULL. An edge is the pair of its ends;
    the two lists of edges of a lock hold those with that end, newest first, as
    both lists are inserted into at the head. A file is named by its vnode,
    which also names its state; a vnode without an entry in [lf_states] has
    NULL in its [v_lockf]. A call that has to sleep stops at [sx_sleep]; its
    thread is then in [sleeping], with the lock it sleeps on, and goes on when
    it is woken, by a release of the lock or by a signal. The calls run one at
    a time between these points, as [ls_lock] of the file makes them. *)

From stdpp Require Import gmap.
From S2P Require Import Prelude LfGraph.

Definition F_RDLCK : Z := 1.
Definition F_UNLCK : Z := 2.
Definition F_WRLCK : Z := 3.
Definition F_UNLCKSYS : Z := 4.
Definition F_CANCEL : Z := 5.
Definition F_GETLK : Z := 11.
Definition F_SETLK : Z := 12.
Definition F_WAIT : Z := 0x010.
Definition F_FLOCK : Z := 0x020.
Definition F_REMOTE : Z := 0x080.
Definition F_INTR : Z := 0x8000.
Definition SEEK_SET : Z := 0.
Definition SEEK_CUR : Z := 1.
Definition SEEK_END : Z := 2.
Definition OFF_MAX : Z := 2 ^ 63 - 1.
Definition ENOENT : Z := 2.
Definition EINTR : Z := 4.
Definition EINVAL : Z := 22.
Definition EAGAIN : Z := 35.
Definition EINPROGRESS : Z := 36.
Definition EOVERFLOW : Z := 84.
Definition EDOOFUS : Z := 88.
Definition LOCK_OWNER_HASH_SIZE : Z := 256.
Definition SELF : Z := 1.
Definition OTHERS : Z := 2.

Record lock_owner := LockOwner {
  lo_refs : Z;
  lo_flags : Z;
  lo_id : Z;
  lo_pid : Z;
  lo_sysid : Z;
  lo_vertex : Z;
}.

Record lockf_entry := Lock {
  lf_flags : Z;
  lf_type : Z;
  lf_start : Z;
  lf_end : Z;
  lf_owner : Z;
  lf_vnode : Z;
  lf_async_task : Z;
  lf_refs : Z;
}.

Record lockf := LockState {
  ls_active : list Z;
  ls_pending : list Z;
  ls_threads : Z;
}.

Record flock := Flock {
  l_start : Z;
  l_len : Z;
  l_pid : Z;
  l_type : Z;
  l_whence : Z;
  l_sysid : Z;
}.

(** The arguments of a call; [a_pid] is the process id of the process that
    [a_id] points to, [a_cookiep] the contents of the cookie, if there is one. *)
Record lock_call := LockCall {
  a_vp : Z;
  a_id : Z;
  a_pid : Z;
  a_op : Z;
  a_fl : flock;
  a_flags : Z;
  a_task : Z;
  a_cookiep : option Z;
}.

Record lock_world := LockWorld {
  locks : gmap Z lockf_entry;
  lock_owners : gmap Z lock_owner;
  lf_lock_owners : Z -> list Z;
  edges : list (Z * Z);
  lf_states : gmap Z lockf;
  lf_lock_states : list Z;
  lf_owner_graph : owner_graph;
  next_addr : Z;
  woken : list Z;
  enqueued : list Z;
  v_refs : Z -> Z;
  doomed : Z -> bool;
}.

Definition set_locks (m : gmap Z lockf_entry) (w : lock_world) : lock_world :=
  LockWorld m (lock_owners w) (lf_lock_owners w) (edges w) (lf_states w) (lf_lock_states w) (lf_owner_graph w)
    (next_addr w) (woken w) (enqueued w) (v_refs w) (doomed w).
Definition set_owners (m : gmap Z lock_owner) (w : lock_world) : lock_world :=
  LockWorld (locks w) m (lf_lock_owners w) (edges w) (lf_states w) (lf_lock_states w) (lf_owner_graph w)
    (next_addr w) (woken w) (enqueued w) (v_refs w) (doomed w).
Definition set_chains (c : Z -> list Z) (w : lock_world) : lock_world :=
  LockWorld (locks w) (lock_owners w) c (edges w) (lf_states w) (lf_lock_states w) (lf_owner_graph w)
    (next_addr w) (woken w) (enqueued w) (v_refs w) (doomed w).
Definition set_edges (es : list (Z * Z)) (w : lock_world) : lock_world :=
  LockWorld (locks w) (lock_owners w) (lf_lock_owners w) es (lf_states w) (lf_lock_states w) (lf_owner_graph w)
    (next_addr w) (woken w) (enqueued w) (v_refs w) (doomed w).
Definition set_states (m : gmap Z lockf) (w : lock_world) : lock_world :=
  LockWorld (locks w) (lock_owners w) (lf_lock_owners w) (edges w) m (lf_lock_states w) (lf_owner_graph w)
    (next_addr w) (woken w) (enqueued w) (v_refs w) (doomed w).
Definition set_lock_states (l : list Z) (w : lock_world) : lock_world :=
  LockWorld (locks w) (lock_owners w) (lf_lock_owners w) (edges w) (lf_states w) l (lf_owner_graph w)
    (next_addr w) (woken w) (enqueued w) (v_refs w) (doomed w).
Definition set_graph (g : owner_graph) (w : lock_world) : lock_world :=
  LockWorld (locks w) (lock_owners w) (lf_lock_owners w) (edges w) (lf_states w) (lf_lock_states w) g
    (next_addr w) (woken w) (enqueued w) (v_refs w) (doomed w).
Definition set_next (n : Z) (w : lock_world) : lock_world :=
  LockWorld (locks w) (lock_owners w) (lf_lock_owners w) (edges w) (lf_states w) (lf_lock_states w) (lf_owner_graph w)
    n (woken w) (enqueued w) (v_refs w) (doomed w).
Definition set_woken (l : list Z) (w : lock_world) : lock_world :=
  LockWorld (locks w) (lock_owners w) (lf_lock_owners w) (edges w) (lf_states w) (lf_lock_states w) (lf_owner_graph w)
    (next_addr w) l (enqueued w) (v_refs w) (doomed w).
Definition set_enqueued (l : list Z) (w : lock_world) : lock_world :=
  LockWorld (locks w) (lock_owners w) (lf_lock_owners w) (edges w) (lf_states w) (lf_lock_states w) (lf_owner_graph w)
    (next_addr w) (woken w) l (v_refs w) (doomed w).
Definition add_v_refs (vp n : Z) (w : lock_world) : lock_world :=
  LockWorld (locks w) (lock_owners w) (lf_lock_owners w) (edges w) (lf_states w) (lf_lock_states w) (lf_owner_graph w)
    (next_addr w) (woken w) (enqueued w)
    (fun v => if v =? vp then v_refs w v + n else v_refs w v) (doomed w).

Definition no_lock : lockf_entry := Lock 0 0 0 0 0 0 0 0.
Definition no_owner : lock_owner := LockOwner 0 0 0 0 0 0.
Definition no_state : lockf := LockState [] [] 0.

Definition lk (w : lock_world) (l : Z) : lockf_entry := default no_lock (locks w !! l).
Definition ow (w : lock_world) (o : Z) : lock_owner := default no_owner (lock_owners w !! o).
Definition st (w : lock_world) (vp : Z) : lockf := default no_state (lf_states w !! vp).
Abbreviation active w vp := (ls_active (st w vp)).
Abbreviation pending w vp := (ls_pending (st w vp)).

Definition upd_lk (l : Z) (f : lockf_entry -> lockf_entry) (w : lock_world) : lock_world :=
  set_locks (alter f l (locks w)) w.
Definition upd_ow (o : Z) (f : lock_owner -> lock_owner) (w : lock_world) : lock_world :=
  set_owners (alter f o (lock_owners w)) w.
Definition upd_st (vp : Z) (f : lockf -> lockf) (w : lock_world) : lock_world :=
  set_states (alter f vp (lf_states w)) w.

Definition set_active (vp : Z) (l : list Z) (w : lock_world) : lock_world :=
  upd_st vp (fun s => LockState l (ls_pending s) (ls_threads s)) w.
Definition set_pending (vp : Z) (l : list Z) (w : lock_world) : lock_world :=
  upd_st vp (fun s => LockState (ls_active s) l (ls_threads s)) w.
Definition add_threads (vp n : Z) (w : lock_world) : lock_world :=
  upd_st vp (fun s => LockState (ls_active s) (ls_pending s) (ls_threads s + n)) w.

Definition set_lf_start (n : Z) (x : lockf_entry) : lockf_entry :=
  Lock (lf_flags x) (lf_type x) n (lf_end x) (lf_owner x) (lf_vnode x) (lf_async_task x) (lf_refs x).
Definition set_lf_end (n : Z) (x : lockf_entry) : lockf_entry :=
  Lock (lf_flags x) (lf_type x) (lf_start x) n (lf_owner x) (lf_vnode x) (lf_async_task x) (lf_refs x).
Definition set_lf_type (n : Z) (x : lockf_entry) : lockf_entry :=
  Lock (lf_flags x) n (lf_start x) (lf_end x) (lf_owner x) (lf_vnode x) (lf_async_task x) (lf_refs x).
Definition set_lf_flags (n : Z) (x : lockf_entry) : lockf_entry :=
  Lock n (lf_type x) (lf_start x) (lf_end x) (lf_owner x) (lf_vnode x) (lf_async_task x) (lf_refs x).
Definition set_lf_refs (n : Z) (x : lockf_entry) : lockf_entry :=
  Lock (lf_flags x) (lf_type x) (lf_start x) (lf_end x) (lf_owner x) (lf_vnode x) (lf_async_task x) n.
Definition set_lo_refs (n : Z) (x : lock_owner) : lock_owner :=
  LockOwner n (lo_flags x) (lo_id x) (lo_pid x) (lo_sysid x) (lo_vertex x).
Definition set_lo_vertex (n : Z) (x : lock_owner) : lock_owner :=
  LockOwner (lo_refs x) (lo_flags x) (lo_id x) (lo_pid x) (lo_sysid x) n.

Definition flag (flags f : Z) : bool := negb (Z.land flags f =? 0).

(** The two lists of edges of a lock. *)
Definition lf_outedges (w : lock_world) (x : Z) : list Z := map snd (List.filter (fun e => fst e =? x) (edges w)).
Definition lf_inedges (w : lock_world) (y : Z) : list Z := map fst (List.filter (fun e => snd e =? y) (edges w)).

(** ** Owners *)

Definition HASHSTEP (x c : Z) : Z := u32 (u32 (Z.shiftl x 5) + x + c).

Definition lf_hash_owner (id pid : Z) (fl : flock) (flags : Z) : Z :=
  let h :=
    if flag flags F_REMOTE then HASHSTEP (HASHSTEP 0 (l_pid fl)) (l_sysid fl)
    else if flag flags F_FLOCK then u32 (Z.shiftr id 7)
    else HASHSTEP (HASHSTEP 0 pid) 0 in
  h mod LOCK_OWNER_HASH_SIZE.

Definition lf_owner_matches (lo : lock_owner) (id : Z) (fl : flock) (flags : Z) : bool :=
  if flag flags F_REMOTE then (lo_pid lo =? l_pid fl) && (lo_sysid lo =? l_sysid fl)
  else lo_id lo =? id.

(** [lo] is 0 for a lock whose owner the caller sets. *)
Definition lf_alloc_lock (lo : Z) (w : lock_world) : Z * lock_world :=
  let l := next_addr w in
  let w := set_next (l + 1) w in
  let w := if lo =? 0 then w else upd_ow lo (fun x => set_lo_refs (lo_refs x + 1) x) w in
  (l, set_locks (<[l := Lock 0 0 0 0 lo 0 0 0]> (locks w)) w).

Definition free_owner (lo : Z) (w : lock_world) : result lock_world :=
  let v := lo_vertex (ow w lo) in
  w ← (if v =? 0 then Ok w
       else g ← graph_free_vertex (lf_owner_graph w) v; Ok (set_graph g w));
  let w := set_chains (fun h => list_remove lo (lf_lock_owners w h)) w in
  Ok (set_owners (delete lo (lock_owners w)) w).

(** Whether the lock was freed. *)
Definition lf_free_lock (lock : Z) (w : lock_world) : result (bool * lock_world) :=
  require (0 <? lf_refs (lk w lock)) "lockf_entry negative ref count";;
  let w := upd_lk lock (fun x => set_lf_refs (lf_refs x - 1) x) w in
  if 0 <? lf_refs (lk w lock) then Ok (false, w)
  else
    let lo := lf_owner (lk w lock) in
    w ← (if lo =? 0 then Ok w
         else
           require (is_empty (lf_outedges w lock)) "freeing lock with dependancies";;
           require (is_empty (lf_inedges w lock)) "freeing lock with dependants";;
           require (0 <? lo_refs (ow w lo)) "lock owner refcount";;
           let w := upd_ow lo (fun x => set_lo_refs (lo_refs x - 1) x) w in
           if lo_refs (ow w lo) =? 0 then free_owner lo w else Ok w);
    let x := lk w lock in
    let w := if flag (lf_flags x) F_REMOTE && negb (lf_vnode x =? 0) then add_v_refs (lf_vnode x) (-1) w else w in
    Ok (true, set_locks (delete lock (locks w)) w).

(** ** Overlaps and edges *)

Definition lf_overlaps (x y : lockf_entry) : bool :=
  (lf_start x <=? lf_end y) && (lf_start y <=? lf_end x).

Definition lf_blocks (x y : lockf_entry) : bool :=
  negb (lf_owner x =? lf_owner y) && ((lf_type x =? F_WRLCK) || (lf_type y =? F_WRLCK)) && lf_overlaps x y.

Abbreviation blocks w x y := (lf_blocks (lk w x) (lk w y)).
Abbreviation vertex_of w x := (lo_vertex (ow w (lf_owner (lk w x)))).

Definition lf_alloc_vertex (lock : Z) (w : lock_world) : lock_world :=
  let o := lf_owner (lk w lock) in
  if lo_vertex (ow w o) =? 0 then
    let v := next_addr w in
    let w := set_graph (graph_alloc_vertex (lf_owner_graph w) o v) (set_next (v + 1) w) in
    upd_ow o (set_lo_vertex v) w
  else w.

Definition lf_add_edge (x y : Z) (w : lock_world) : result (Z * lock_world) :=
  require (negb (bool_decide (y ∈ lf_outedges w x))) "adding lock edge twice";;
  let w := lf_alloc_vertex x w in
  let w := lf_alloc_vertex y w in
  '(error, g) ← graph_add_edge (lf_owner_graph w) (vertex_of w x) (vertex_of w y);
  let w := set_graph g w in
  if negb (error =? 0) then Ok (error, w)
  else Ok (0, set_edges ((x, y) :: edges w) w).

Fixpoint remove_pair (x y : Z) (es : list (Z * Z)) : list (Z * Z) :=
  match es with
  | [] => []
  | (a, b) :: es => if (a =? x) && (b =? y) then es else (a, b) :: remove_pair x y es
  end.

Definition lf_remove_edge (x y : Z) (w : lock_world) : result lock_world :=
  g ← graph_remove_edge (lf_owner_graph w) (vertex_of w x) (vertex_of w y);
  Ok (set_edges (remove_pair x y (edges w)) (set_graph g w)).

(** The loop takes the first edge until there is none; [es] is the list. *)
Fixpoint remove_edges_from (x : Z) (es : list Z) (w : lock_world) : result lock_world :=
  match es with
  | [] => Ok w
  | y :: es => w ← lf_remove_edge x y w; remove_edges_from x es w
  end.
Definition lf_remove_outgoing (x : Z) (w : lock_world) : result lock_world :=
  remove_edges_from x (lf_outedges w x) w.

Fixpoint remove_edges_to (y : Z) (es : list Z) (w : lock_world) : result lock_world :=
  match es with
  | [] => Ok w
  | x :: es => w ← lf_remove_edge x y w; remove_edges_to y es w
  end.
Definition lf_remove_incoming (y : Z) (w : lock_world) : result lock_world :=
  remove_edges_to y (lf_inedges w y) w.

(** The two loops of [lf_add_outgoing], over the active and the pending locks. *)
Fixpoint add_outgoing_active (overlaps : list Z) (lock : Z) (w : lock_world) : result (Z * lock_world) :=
  match overlaps with
  | [] => Ok (0, w)
  | overlap :: rest =>
      if lf_end (lk w lock) <? lf_start (lk w overlap) then Ok (0, w)
      else if negb (blocks w lock overlap) then add_outgoing_active rest lock w
      else
        '(error, w) ← lf_add_edge lock overlap w;
        if negb (error =? 0) then w ← lf_remove_outgoing lock w; Ok (error, w)
        else add_outgoing_active rest lock w
  end.

Fixpoint add_outgoing_pending (overlaps : list Z) (lock : Z) (w : lock_world) : result (Z * lock_world) :=
  match overlaps with
  | [] => Ok (0, w)
  | overlap :: rest =>
      if negb (blocks w lock overlap) then add_outgoing_pending rest lock w
      else
        '(error, w) ← lf_add_edge lock overlap w;
        if negb (error =? 0) then w ← lf_remove_outgoing lock w; Ok (error, w)
        else add_outgoing_pending rest lock w
  end.

Definition lf_add_outgoing (vp lock : Z) (w : lock_world) : result (Z * lock_world) :=
  '(error, w) ← add_outgoing_active (active w vp) lock w;
  if negb (error =? 0) then Ok (error, w) else add_outgoing_pending (pending w vp) lock w.

Fixpoint add_incoming (overlaps : list Z) (lock : Z) (w : lock_world) : result (Z * lock_world) :=
  match overlaps with
  | [] => Ok (0, w)
  | overlap :: rest =>
      if negb (blocks w lock overlap) then add_incoming rest lock w
      else
        '(error, w) ← lf_add_edge overlap lock w;
        if negb (error =? 0) then w ← lf_remove_incoming lock w; Ok (error, w)
        else add_incoming rest lock w
  end.

Definition lf_add_incoming (vp lock : Z) (w : lock_world) : result (Z * lock_world) :=
  add_incoming (pending w vp) lock w.

(** ** The list of active locks *)

Fixpoint insert_lock (w : lock_world) (lock : Z) (l : list Z) : list Z :=
  match l with
  | [] => [lock]
  | lf :: l =>
      if lf_start (lk w lock) <? lf_start (lk w lf) then lock :: lf :: l else lf :: insert_lock w lock l
  end.
Definition lf_insert_lock (vp lock : Z) (w : lock_world) : lock_world :=
  set_active vp (insert_lock w lock (active w vp)) w.

Definition remove_active (vp lock : Z) (w : lock_world) : lock_world :=
  set_active vp (list_remove lock (active w vp)) w.
Definition remove_pending (vp lock : Z) (w : lock_world) : lock_world :=
  set_pending vp (list_remove lock (pending w vp)) w.

Definition lf_wakeup_lock (vp wakelock : Z) (w : lock_world) : lock_world :=
  let w := remove_pending vp wakelock w in
  let task := lf_async_task (lk w wakelock) in
  if negb (task =? 0) then set_enqueued (enqueued w ++ [task]) w
  else set_woken (woken w ++ [wakelock]) w.

(** [es] is what is left of the in-edges of the lock. *)
Fixpoint update_edges (es : list Z) (vp lock : Z) (all : bool) (granted : list Z) (w : lock_world)
    : result (list Z * lock_world) :=
  match es with
  | [] => Ok (granted, w)
  | deplock :: es =>
      if all || negb (blocks w lock deplock) then
        w ← lf_remove_edge deplock lock w;
        if is_empty (lf_outedges w deplock) then
          update_edges es vp lock all (deplock :: granted) (lf_wakeup_lock vp deplock w)
        else update_edges es vp lock all granted w
      else update_edges es vp lock all granted w
  end.

Definition lf_update_dependancies (vp lock : Z) (all : bool) (granted : list Z) (w : lock_world)
    : result (list Z * lock_world) :=
  update_edges (lf_inedges w lock) vp lock all granted w.

Definition lf_set_start (vp lock new_start : Z) (granted : list Z) (w : lock_world)
    : result (list Z * lock_world) :=
  require (lf_start (lk w lock) <=? new_start) "can't increase lock";;
  let w := upd_lk lock (set_lf_start new_start) w in
  let w := remove_active vp lock w in
  let w := lf_insert_lock vp lock w in
  lf_update_dependancies vp lock false granted w.

Definition lf_set_end (vp lock new_end : Z) (granted : list Z) (w : lock_world)
    : result (list Z * lock_world) :=
  require (new_end <=? lf_end (lk w lock)) "can't increase lock";;
  let w := upd_lk lock (set_lf_end new_end) w in
  lf_update_dependancies vp lock false granted w.

(** The copy of [lock1] that becomes its last part. *)
Definition copy_lock (lock1 start splitlock : Z) (w : lock_world) : lock_world :=
  let x := lk w lock1 in
  let w := upd_lk splitlock (fun _ => set_lf_start start (set_lf_refs 1 x)) w in
  if flag (lf_flags x) F_REMOTE then add_v_refs (lf_vnode x) 1 w else w.

Definition lf_split (vp lock1 lock2 : Z) (granted : list Z) (w : lock_world)
    : result (list Z * lock_world) :=
  let x := lk w lock1 in let y := lk w lock2 in
  if lf_start x =? lf_start y then lf_set_start vp lock1 (lf_end y + 1) granted w
  else if lf_end x =? lf_end y then lf_set_end vp lock1 (lf_start y - 1) granted w
  else
    let '(splitlock, w) := lf_alloc_lock (lf_owner x) w in
    let w := copy_lock lock1 (lf_end y + 1) splitlock w in
    '(_, w) ← lf_add_incoming vp splitlock w;
    '(granted, w) ← lf_set_end vp lock1 (lf_start y - 1) granted w;
    Ok (granted, lf_insert_lock vp splitlock w).

(** [overlap] is the list from the place where the search starts; the result
    has it from the place where it stopped. *)
Fixpoint lf_findoverlap (w : lock_world) (overlap : list Z) (lock type : Z) : result (Z * list Z) :=
  let x := lk w lock in let start := lf_start x in let end_ := lf_end x in
  match overlap with
  | [] => Ok (0, [])
  | lf :: next =>
      let y := lk w lf in
      if end_ <? lf_start y then Ok (0, overlap)
      else if (flag type SELF && negb (lf_owner y =? lf_owner x)) ||
              (flag type OTHERS && (lf_owner y =? lf_owner x)) then lf_findoverlap w next lock type
      else if lf_end y <? start then lf_findoverlap w next lock type
      else if (lf_start y =? start) && (lf_end y =? end_) then Ok (1, overlap)
      else if (lf_start y <=? start) && (end_ <=? lf_end y) then Ok (2, overlap)
      else if (start <=? lf_start y) && (lf_end y <=? end_) then Ok (3, overlap)
      else if (lf_start y <? start) && (start <=? lf_end y) then Ok (4, overlap)
      else if (start <? lf_start y) && (end_ <? lf_end y) then Ok (5, overlap)
      else Panic "lf_findoverlap: default"
  end.

(** An active lock that is replaced. *)
Definition drop_overlap (vp overlap : Z) (granted : list Z) (w : lock_world) : result (list Z * lock_world) :=
  let w := remove_active vp overlap w in
  '(granted, w) ← lf_update_dependancies vp overlap true granted w;
  '(_, w) ← lf_free_lock overlap w;
  Ok (granted, w).

(** The [for] loop of [lf_activate_lock]. *)
Fixpoint activate_overlaps (fuel : nat) (vp lock : Z) (overlap granted : list Z) (w : lock_world)
    : result (list Z * lock_world) :=
  match fuel with
  | O => Panic "fuel"
  | S fuel =>
      '(ovcase, overlap) ← lf_findoverlap w overlap lock SELF;
      match overlap with
      | [] => Ok (granted, w)
      | ov :: next =>
          if ovcase =? 1 then drop_overlap vp ov granted w
          else if ovcase =? 2 then lf_split vp ov lock granted w
          else if ovcase =? 3 then
            '(granted, w) ← drop_overlap vp ov granted w;
            activate_overlaps fuel vp lock next granted w
          else if ovcase =? 4 then
            '(granted, w) ← lf_set_end vp ov (lf_start (lk w lock) - 1) granted w;
            activate_overlaps fuel vp lock next granted w
          else if ovcase =? 5 then lf_set_start vp ov (lf_end (lk w lock) + 1) granted w
          else Ok (granted, w)
      end
  end.

Fixpoint activate_granted (fuel : nat) (vp : Z) (granted : list Z) (w : lock_world) : result lock_world :=
  match granted with
  | [] => Ok w
  | lock :: granted =>
      match fuel with
      | O => Panic "fuel"
      | S fuel =>
          let l := active w vp in
          '(granted, w) ← activate_overlaps (S (length l)) vp lock l granted w;
          let w := if negb (lf_type (lk w lock) =? F_UNLCK) then lf_insert_lock vp lock w else w in
          activate_granted fuel vp granted w
      end
  end.

(** Each round takes a lock that was given or one that was pending. *)
Definition lf_activate_lock (vp lock : Z) (w : lock_world) : result lock_world :=
  activate_granted (S (length (pending w vp))) vp [lock] w.

Fixpoint activate_all (vp : Z) (granted : list Z) (w : lock_world) : result lock_world :=
  match granted with
  | [] => Ok w
  | lock :: granted => w ← lf_activate_lock vp lock w; activate_all vp granted w
  end.

Definition lf_cancel_lock (vp lock : Z) (w : lock_world) : result lock_world :=
  let w := remove_pending vp lock w in
  w ← lf_remove_outgoing lock w;
  '(granted, w) ← lf_update_dependancies vp lock true [] w;
  '(_, w) ← lf_free_lock lock w;
  activate_all vp granted w.

(** ** Setting, clearing and asking for a lock *)

Fixpoint getblock (w : lock_world) (overlaps : list Z) (lock : Z) : option Z :=
  match overlaps with
  | [] => None
  | overlap :: rest =>
      if lf_end (lk w lock) <? lf_start (lk w overlap) then None
      else if negb (blocks w lock overlap) then getblock w rest lock
      else Some overlap
  end.
Definition lf_getblock (vp lock : Z) (w : lock_world) : option Z := getblock w (active w vp) lock.

(** What a call does: it returns an error, and the cookie if it set one, or
    its thread sleeps on the lock. *)
Inductive outcome :=
  | Return (error : Z) (fl : flock) (cookie : option Z)
  | Sleep (lock : Z).

Inductive set_result :=
  | SetDone (error : Z)
  | SetAsync (cookie : Z)
  | SetSleep (lock : Z).

Definition lf_setlock (vp lock : Z) (w : lock_world) : result (set_result * lock_world) :=
  match lf_getblock vp lock w with
  | Some _ =>
      let x := lk w lock in
      if negb (flag (lf_flags x) F_WAIT) && (lf_async_task x =? 0) then
        '(_, w) ← lf_free_lock lock w; Ok (SetDone EAGAIN, w)
      else
        w ← (if flag (lf_flags x) F_FLOCK && (lf_type x =? F_WRLCK) then
               let w := upd_lk lock (set_lf_type F_UNLCK) w in
               w ← lf_activate_lock vp lock w;
               Ok (upd_lk lock (set_lf_type F_WRLCK) w)
             else Ok w);
        '(error, w) ← lf_add_outgoing vp lock w;
        if negb (error =? 0) then '(_, w) ← lf_free_lock lock w; Ok (SetDone error, w)
        else
          let w := set_pending vp (lock :: pending w vp) w in
          if negb (flag (lf_flags x) F_WAIT) then Ok (SetAsync lock, w)
          else Ok (SetSleep lock, upd_lk lock (fun x => set_lf_refs (lf_refs x + 1) x) w)
  | None =>
      '(error, w) ← lf_add_incoming vp lock w;
      if negb (error =? 0) then '(_, w) ← lf_free_lock lock w; Ok (SetDone error, w)
      else w ← lf_activate_lock vp lock w; Ok (SetDone 0, w)
  end.

(** [lf_setlock] from the return of [sx_sleep] with [error]. *)
Definition lf_setlock_woken (vp lock error : Z) (w : lock_world) : result (Z * lock_world) :=
  '(freed, w) ← lf_free_lock lock w;
  if freed : bool then Ok (EDOOFUS, w)
  else if flag (lf_flags (lk w lock)) F_INTR then '(_, w) ← lf_free_lock lock w; Ok (EINTR, w)
  else if is_empty (lf_outedges w lock) then Ok (0, w)
  else w ← lf_cancel_lock vp lock w; Ok (error, w).

Definition lf_clearlock (vp unlock : Z) (w : lock_world) : result (Z * lock_world) :=
  if is_empty (active w vp) then Ok (0, w)
  else w ← lf_activate_lock vp unlock w; Ok (0, w).

Definition lf_getlock (vp lock : Z) (fl : flock) (w : lock_world) : flock :=
  match lf_getblock vp lock w with
  | Some block =>
      let x := lk w block in let o := ow w (lf_owner x) in
      Flock (lf_start x) (if lf_end x =? OFF_MAX then 0 else lf_end x - lf_start x + 1)
        (lo_pid o) (lf_type x) SEEK_SET (lo_sysid o)
  | None => Flock (l_start fl) (l_len fl) (l_pid fl) F_UNLCK (l_whence fl) (l_sysid fl)
  end.

Definition lf_cancel (vp lock cookie : Z) (w : lock_world) : result (Z * lock_world) :=
  if bool_decide (cookie ∈ pending w vp) then
    let r := lk w cookie in let x := lk w lock in
    if negb ((lf_vnode r =? lf_vnode x) && (lf_start r =? lf_start x) && (lf_end r =? lf_end x)) then Ok (ENOENT, w)
    else if lf_async_task r =? 0 then Ok (ENOENT, w)
    else w ← lf_cancel_lock vp cookie w; Ok (0, w)
  else Ok (ENOENT, w).

(** ** The entry *)

(** The range of bytes that a request names, or an errno; [size] is the
    unsigned size of the file. *)
Definition lf_range (fl : flock) (size : Z) : Z + (Z * Z) :=
  match (if (l_whence fl =? SEEK_SET) || (l_whence fl =? SEEK_CUR) then inr (l_start fl)
         else if l_whence fl =? SEEK_END then
           if (OFF_MAX <? size) || ((0 <? l_start fl) && (OFF_MAX - l_start fl <? size)) then inl EOVERFLOW
           else inr (size + l_start fl)
         else inl EINVAL) : Z + Z with
  | inl error => inl error
  | inr start =>
      if start <? 0 then inl EINVAL
      else if l_len fl <? 0 then
        if start =? 0 then inl EINVAL
        else if start + l_len fl <? 0 then inl EINVAL
        else inr (start + l_len fl, start - 1)
      else if l_len fl =? 0 then inr (start, OFF_MAX)
      else if OFF_MAX - start <? l_len fl - 1 then inl EOVERFLOW
      else inr (start, start + (l_len fl - 1))
  end.

Definition set_l_type (t : Z) (fl : flock) : flock :=
  Flock (l_start fl) (l_len fl) (l_pid fl) t (l_whence fl) (l_sysid fl).

Fixpoint find_owner (w : lock_world) (chain : list Z) (id : Z) (fl : flock) (flags : Z) : option Z :=
  match chain with
  | [] => None
  | lo :: chain => if lf_owner_matches (ow w lo) id fl flags then Some lo else find_owner w chain id fl flags
  end.

(** The owner, with a reference for the lock. *)
Definition get_owner (ap : lock_call) (w : lock_world) : Z * lock_world :=
  let fl := a_fl ap in let flags := a_flags ap in
  let hash := lf_hash_owner (a_id ap) (a_pid ap) fl flags in
  match find_owner w (lf_lock_owners w hash) (a_id ap) fl flags with
  | Some lo => (lo, upd_ow lo (fun x => set_lo_refs (lo_refs x + 1) x) w)
  | None =>
      let lo := next_addr w in
      let w := set_next (lo + 1) w in
      let x :=
        if flag flags F_REMOTE then LockOwner 1 flags (a_id ap) (l_pid fl) (l_sysid fl) 0
        else if flag flags F_FLOCK then LockOwner 1 flags (a_id ap) (-1) 0 0
        else LockOwner 1 flags (a_id ap) (a_pid ap) 0 0 in
      let w := set_owners (<[lo := x]> (lock_owners w)) w in
      (lo, set_chains (fun h => if h =? hash then lo :: lf_lock_owners w h else lf_lock_owners w h) w)
  end.

(** The lock of the request. *)
Definition make_lock (ap : lock_call) (start end_ lo : Z) (w : lock_world) : Z * lock_world :=
  let '(l, w) := lf_alloc_lock 0 w in
  let w := upd_lk l (fun _ => Lock (a_flags ap) (l_type (a_fl ap)) start end_ lo (a_vp ap) (a_task ap) 1) w in
  (l, if flag (a_flags ap) F_REMOTE then add_v_refs (a_vp ap) 1 w else w).

(** The state of the file, made if there is none, with one thread more. *)
Definition get_state (vp : Z) (w : lock_world) : lock_world :=
  match lf_states w !! vp with
  | None => set_lock_states (vp :: lf_lock_states w) (set_states (<[vp := LockState [] [] 1]> (lf_states w)) w)
  | Some _ => add_threads vp 1 w
  end.

(** The checks under INVARIANTS after the operation: [seen] are the active
    locks before [l]. *)
Fixpoint check_active (w : lock_world) (seen l : list Z) : result unit :=
  match l with
  | [] => Ok tt
  | x :: l =>
      require (match l with y :: _ => lf_start (lk w x) <=? lf_start (lk w y) | [] => true end) "locks disordered";;
      require (forallb (fun y => negb (blocks w x y)) seen) "two conflicting active locks";;
      require (forallb (fun y => negb ((lf_owner (lk w x) =? lf_owner (lk w y)) && lf_overlaps (lk w x) (lk w y))) seen)
        "two overlapping locks from same owner";;
      check_active w (seen ++ [x]) l
  end.
Definition check_state (vp : Z) (w : lock_world) : result unit :=
  check_active w [] (active w vp);;
  require (forallb (fun x => negb (is_empty (lf_outedges w x))) (pending w vp)) "pending lock which should be active".

(** The thread leaves; the state goes with the last one when nothing is locked. *)
Definition leave_state (vp : Z) (w : lock_world) : result lock_world :=
  let w := add_threads vp (-1) w in
  if is_empty (active w vp) && (ls_threads (st w vp) =? 0) then
    require (is_empty (pending w vp)) "freeing state with pending locks";;
    Ok (set_lock_states (list_remove vp (lf_lock_states w)) (set_states (delete vp (lf_states w)) w))
  else Ok w.

(** From [retry_setlock] on, with the range computed. *)
Definition advlock_try (ap : lock_call) (start end_ : Z) (w : lock_world) : result (outcome * lock_world) :=
  let vp := a_vp ap in let fl := a_fl ap in
  if bool_decide (lf_states w !! vp = None) && negb (a_op ap =? F_SETLK) then
    Ok (Return 0 (set_l_type F_UNLCK fl) None, w)
  else
    let '(lo, w) := get_owner ap w in
    let '(lock, w) := make_lock ap start end_ lo w in
    if doomed w vp then '(_, w) ← lf_free_lock lock w; Ok (Return ENOENT fl None, w)
    else
      let w := get_state vp w in
      '(r, w) ← (if a_op ap =? F_SETLK then
                   '(r, w) ← lf_setlock vp lock w;
                   Ok (match r with
                       | SetDone error => Return error fl None
                       | SetAsync cookie => Return EINPROGRESS fl (Some cookie)
                       | SetSleep lock => Sleep lock
                       end, w)
                 else if a_op ap =? F_UNLCK then
                   '(error, w) ← lf_clearlock vp lock w;
                   '(_, w) ← lf_free_lock lock w; Ok (Return error fl None, w)
                 else if a_op ap =? F_GETLK then
                   let fl := lf_getlock vp lock fl w in
                   '(_, w) ← lf_free_lock lock w; Ok (Return 0 fl None, w)
                 else if a_op ap =? F_CANCEL then
                   '(error, w) ← (match a_cookiep ap with
                                  | Some cookie => lf_cancel vp lock cookie w
                                  | None => Ok (EINVAL, w)
                                  end);
                   '(_, w) ← lf_free_lock lock w; Ok (Return error fl None, w)
                 else '(_, w) ← lf_free_lock lock w; Ok (Return EINVAL fl None, w));
      match r with
      | Sleep lock => Ok (r, w)
      | Return _ _ _ => check_state vp w;; w ← leave_state vp w; Ok (r, w)
      end.

Definition lf_advlockasync (ap : lock_call) (size : Z) (w : lock_world) : result (outcome * lock_world) :=
  match lf_range (a_fl ap) size with
  | inl error => Ok (Return error (a_fl ap) None, w)
  | inr (start, end_) => advlock_try ap start end_ w
  end.

Definition lf_advlock (ap : lock_call) (size : Z) (w : lock_world) : result (outcome * lock_world) :=
  lf_advlockasync (LockCall (a_vp ap) (a_id ap) (a_pid ap) (a_op ap) (a_fl ap) (a_flags ap) 0 None) size w.

(** A thread that slept on [lock] goes on; [error] is what [sx_sleep] returned. *)
Definition advlock_woken (ap : lock_call) (start end_ lock error : Z) (w : lock_world)
    : result (outcome * lock_world) :=
  let vp := a_vp ap in
  '(error, w) ← lf_setlock_woken vp lock error w;
  check_state vp w;;
  w ← leave_state vp w;
  if error =? EDOOFUS then advlock_try ap start end_ w else Ok (Return error (a_fl ap) None, w).

(** ** The threads *)

Record sleeper := Sleeper {
  s_lock : Z;
  s_call : lock_call;
  s_start : Z;
  s_end : Z;
}.

Record kernel := Kernel {
  k_world : lock_world;
  sleeping : list sleeper;
}.

Definition lf_init : kernel :=
  Kernel (LockWorld ∅ ∅ (fun _ => []) [] ∅ [] graph_init 1 [] [] (fun _ => 0) (fun _ => false)) [].

Inductive event :=
  | EvCall (ap : lock_call) (size : Z)
  | EvWake (i : nat) (error : Z)
  | EvDoom (vp : Z).

(** The thread of the call sleeps, or has returned. *)
Definition settle (ap : lock_call) (start end_ : Z) (r : outcome) (w : lock_world) (sl : list sleeper) : kernel :=
  Kernel w (match r with Sleep l => Sleeper l ap start end_ :: sl | Return _ _ _ => sl end).

Definition k_step (e : event) (k : kernel) : result (option outcome * kernel) :=
  match e with
  | EvCall ap size =>
      '(r, w) ← lf_advlockasync ap size (k_world k);
      Ok (Some r, match lf_range (a_fl ap) size with
                  | inr (start, end_) => settle ap start end_ r w (sleeping k)
                  | inl _ => Kernel w (sleeping k)
                  end)
  | EvWake i error =>
      match sleeping k !! i with
      | None => Ok (None, k)
      | Some s =>
          '(r, w) ← advlock_woken (s_call s) (s_start s) (s_end s) (s_lock s) error (k_world k);
          Ok (Some r, settle (s_call s) (s_start s) (s_end s) r w (delete i (sleeping k)))
      end
  | EvDoom vp =>
      let w := k_world k in
      Ok (None, Kernel (LockWorld (locks w) (lock_owners w) (lf_lock_owners w) (edges w) (lf_states w) (lf_lock_states w)
        (lf_owner_graph w) (next_addr w) (woken w) (enqueued w) (v_refs w) (fun v => (v =? vp) || doomed w v)) (sleeping k))
  end.

Fixpoint k_run (es : list event) (k : kernel) : result (list outcome * kernel) :=
  match es with
  | [] => Ok ([], k)
  | e :: es =>
      '(r, k) ← k_step e k;
      '(rs, k) ← k_run es k;
      Ok (match r with Some r => r :: rs | None => rs end, k)
  end.
