(* ===== verification/LockfMem.v ===== *)
(** * The memory of the advisory locks

    [base]: every lock is counted by the lists it is on and by the thread that
    sleeps on it, every owner by its locks, an edge of the owner graph by the
    edges between locks of its ends. Each primitive operation keeps it. *)

From stdpp Require Import gmap relations.
From Stdlib Require Import Permutation.
From S2P Require Import Prelude LfGraph LfGraphInv LfGraphEdge LfGraphOps Lockf.

Definition occ (x : Z) (l : list Z) : Z := Z.of_nat (count_occ Z.eq_dec l x).

Lemma occ_nil x : occ x [] = 0.
Proof. done. Qed.
Lemma occ_cons x y l : occ x (y :: l) = (if decide (y = x) then 1 else 0) + occ x l.
Proof. unfold occ. cbn. destruct (Z.eq_dec y x), (decide (y = x)); done || lia. Qed.
Lemma occ_app x l1 l2 : occ x (l1 ++ l2) = occ x l1 + occ x l2.
Proof. unfold occ. rewrite count_occ_app. lia. Qed.
Lemma occ_perm x l1 l2 : l1 ≡ₚ l2 -> occ x l1 = occ x l2.
Proof. intros H. unfold occ. by rewrite (proj1 (Permutation_count_occ Z.eq_dec l1 l2) H x). Qed.
Lemma occ_elem x l : x ∈ l <-> 0 < occ x l.
Proof. unfold occ. rewrite list_elem_of_In, (count_occ_In Z.eq_dec). lia. Qed.
Lemma occ_nonneg x l : 0 <= occ x l.
Proof. unfold occ. lia. Qed.
Lemma occ_nodup x l : NoDup l -> occ x l = if decide (x ∈ l) then 1 else 0.
Proof.
  intros Hnd%NoDup_ListNoDup. rewrite (NoDup_count_occ Z.eq_dec) in Hnd. specialize (Hnd x).
  destruct (decide (x ∈ l)) as [H|H].
  - apply occ_elem in H. unfold occ in *. lia.
  - destruct (Z.le_gt_cases (occ x l) 0) as [|H']; [unfold occ in *; lia|]. by apply occ_elem in H'.
Qed.

(** The edges between locks whose owners have the vertices [u] and [v]. *)
Fixpoint ecount (f : Z -> Z) (u v : Z) (es : list (Z * Z)) : Z :=
  match es with
  | [] => 0
  | (p, q) :: es => is_edge u v (f p) (f q) + ecount f u v es
  end.

Lemma ecount_ext f f' u v es : (forall p q, (p, q) ∈ es -> f' p = f p /\ f' q = f q) -> ecount f' u v es = ecount f u v es.
Proof.
  induction es as [|[p q] es IH]; intros H; [done|]. cbn [ecount].
  destruct (H p q ltac:(by left)) as [-> ->]. rewrite IH; [done|]. intros; apply H; by right.
Qed.

Lemma ecount_nonneg f u v es : 0 <= ecount f u v es.
Proof. induction es as [|[p q] es IH]; cbn [ecount]; [lia|]. unfold is_edge. destruct (_ && _); lia. Qed.

Lemma ecount_pos f u v es : 0 < ecount f u v es <-> exists p q, (p, q) ∈ es /\ f p = u /\ f q = v.
Proof.
  induction es as [|[p q] es IH]; cbn [ecount].
  { split; [lia|]. by intros (p & q & ?%elem_of_nil & _). }
  pose proof (ecount_nonneg f u v es). destruct (Z.eq_dec (is_edge u v (f p) (f q)) 1) as [E|E].
  - split; [|lia]. intros _. apply is_edge_true in E as [? ?]. exists p, q. split_and!; try done. by left.
  - assert (is_edge u v (f p) (f q) = 0) as E0 by (unfold is_edge in *; by destruct (_ && _)).
    rewrite E0, Z.add_0_l, IH. split.
    + intros (a & b & ? & ?). exists a, b. split; [by right | done].
    + intros (a & b & [?|?]%elem_of_cons & Ha & Hb); [|by exists a, b].
      simplify_eq. exfalso. apply E, is_edge_true. done.
Qed.

Lemma ecount_remove f u v p q es : (p, q) ∈ es ->
  ecount f u v (remove_pair p q es) = ecount f u v es - is_edge u v (f p) (f q).
Proof.
  induction es as [|[a b] es IH]; [by intros ?%elem_of_nil|]. cbn [ecount remove_pair].
  destruct (Z.eqb_spec a p) as [->|Ha], (Z.eqb_spec b q) as [->|Hb]; cbn [andb ecount]; intros [?|Hin]%elem_of_cons;
    simplify_eq; rewrite ?IH by done; lia.
Qed.

Lemma remove_pair_elem p q es e : NoDup es -> e ∈ remove_pair p q es <-> e ∈ es /\ e <> (p, q).
Proof.
  induction 1 as [|[a b] es He Hnd IH]; cbn [remove_pair].
  { split; [by intros ?%elem_of_nil | by intros [?%elem_of_nil _]]. }
  destruct (Z.eqb_spec a p) as [->|Ha], (Z.eqb_spec b q) as [->|Hb]; cbn [andb]; rewrite ?elem_of_cons, ?IH;
    intuition congruence.
Qed.

Lemma remove_pair_nodup p q es : NoDup es -> NoDup (remove_pair p q es).
Proof.
  induction 1 as [|[a b] es He Hnd IH]; cbn [remove_pair]; [constructor|].
  destruct (_ && _); [done|]. constructor; [|done]. rewrite remove_pair_elem by done. by intros [].
Qed.

Lemma outedges_elem w x y : y ∈ lf_outedges w x <-> (x, y) ∈ edges w.
Proof.
  unfold lf_outedges. change (map snd ?l) with (snd <$> l). rewrite list_elem_of_fmap. split.
  - intros ([a b] & -> & Hin). apply list_elem_of_In, filter_In in Hin as [Hin E%Z.eqb_eq].
    cbn in *. subst. by apply list_elem_of_In in Hin.
  - intros Hin. exists (x, y). split; [done|]. apply list_elem_of_In, filter_In.
    split; [by apply list_elem_of_In | apply Z.eqb_refl].
Qed.

Lemma inedges_elem w x y : x ∈ lf_inedges w y <-> (x, y) ∈ edges w.
Proof.
  unfold lf_inedges. change (map fst ?l) with (fst <$> l). rewrite list_elem_of_fmap. split.
  - intros ([a b] & -> & Hin). apply list_elem_of_In, filter_In in Hin as [Hin E%Z.eqb_eq].
    cbn in *. subst. by apply list_elem_of_In in Hin.
  - intros Hin. exists (x, y). split; [done|]. apply list_elem_of_In, filter_In.
    split; [by apply list_elem_of_In | apply Z.eqb_refl].
Qed.

Lemma NoDup_filter_fst (es : list (Z * Z)) y : NoDup es -> NoDup (map fst (List.filter (fun e => snd e =? y) es)).
Proof.
  induction 1 as [|[a b] es He Hnd IH]; cbn; [constructor|].
  destruct (Z.eqb_spec b y) as [->|]; [|done]. cbn. constructor; [|done].
  change (map fst ?l) with (fst <$> l). rewrite list_elem_of_fmap. intros ([c d] & -> & Hin).
  apply list_elem_of_In, filter_In in Hin as [Hin E%Z.eqb_eq]. cbn in *. subst d. by apply He, list_elem_of_In.
Qed.

Lemma NoDup_filter_snd (es : list (Z * Z)) x : NoDup es -> NoDup (map snd (List.filter (fun e => fst e =? x) es)).
Proof.
  induction 1 as [|[a b] es He Hnd IH]; cbn; [constructor|].
  destruct (Z.eqb_spec a x) as [->|]; [|done]. cbn. constructor; [|done].
  change (map snd ?l) with (snd <$> l). rewrite list_elem_of_fmap. intros ([c d] & -> & Hin).
  apply list_elem_of_In, filter_In in Hin as [Hin E%Z.eqb_eq]. cbn in *. subst c. by apply He, list_elem_of_In.
Qed.

Lemma is_empty_nil l : is_empty l = true <-> l = [].
Proof. by destruct l. Qed.

Lemma outedges_empty w x : is_empty (lf_outedges w x) = true <-> forall y, (x, y) ∉ edges w.
Proof.
  rewrite is_empty_nil. split.
  - intros E y Hin%outedges_elem. rewrite E in Hin. by apply elem_of_nil in Hin.
  - intros H. destruct (lf_outedges w x) as [|y l] eqn:E; [done|]. exfalso. apply (H y), outedges_elem. rewrite E. by left.
Qed.

Lemma inedges_empty w x : is_empty (lf_inedges w x) = true <-> forall y, (y, x) ∉ edges w.
Proof.
  rewrite is_empty_nil. split.
  - intros E y Hin%inedges_elem. rewrite E in Hin. by apply elem_of_nil in Hin.
  - intros H. destruct (lf_inedges w x) as [|y l] eqn:E; [done|]. exfalso. apply (H y), inedges_elem. rewrite E. by left.
Qed.

(** ** The invariant *)

(** The number of locks of an owner. *)
Definition owned (w : lock_world) (o : Z) : Z :=
  Z.of_nat (size (filter (fun kx : Z * lockf_entry => lf_owner kx.2 = o) (locks w))).

(** The locks of a file: those in hand, if it is the file worked on, and
    those on its two lists. *)
Definition places (vp : Z) (X : list Z) (w : lock_world) (v : Z) : list Z :=
  (if v =? vp then X else []) ++ active w v ++ pending w v.

Definition in_range (x : lockf_entry) : Prop := 0 <= lf_start x <= lf_end x /\ lf_end x <= OFF_MAX.

Record base (S : list Z) (vp : Z) (X : list Z) (w : lock_world) : Prop := Base {
  b_graph : graph_ok (lf_owner_graph w);
  b_next : 0 < next_addr w;
  b_alloc l x : locks w !! l = Some x ->
    0 < l < next_addr w /\ is_Some (lock_owners w !! lf_owner x) /\ in_range x /\ 0 < lf_refs x /\
    lf_refs x = occ l (places vp X w (lf_vnode x)) + occ l S;
  b_places v l : l ∈ places vp X w v -> exists x, locks w !! l = Some x /\ lf_vnode x = v;
  b_sleepers l : l ∈ S -> is_Some (locks w !! l);
  b_nodup v : NoDup (places vp X w v);
  b_nodup_S : NoDup S;
  b_owner o lo : lock_owners w !! o = Some lo ->
    0 < o < next_addr w /\ lo_refs lo = owned w o /\ 0 < lo_refs lo /\
    (lo_vertex lo <> 0 -> live (lf_owner_graph w) (lo_vertex lo));
  b_inj o1 o2 lo1 lo2 : lock_owners w !! o1 = Some lo1 -> lock_owners w !! o2 = Some lo2 ->
    lo_vertex lo1 <> 0 -> lo_vertex lo1 = lo_vertex lo2 -> o1 = o2;
  b_live v : live (lf_owner_graph w) v ->
    0 < v < next_addr w /\ exists o lo, lock_owners w !! o = Some lo /\ lo_vertex lo = v;
  b_edges : NoDup (edges w);
  b_edge p q : (p, q) ∈ edges w ->
    is_Some (locks w !! p) /\ is_Some (locks w !! q) /\ lf_owner (lk w p) <> lf_owner (lk w q) /\
    vertex_of w p <> 0 /\ vertex_of w q <> 0;
  b_refs u v : e_refs (lf_owner_graph w) u v = ecount (fun l => vertex_of w l) u v (edges w);
  b_chain h o : o ∈ lf_lock_owners w h -> is_Some (lock_owners w !! o);
  b_chain_nodup h : NoDup (lf_lock_owners w h);
}.

Lemma lk_Some w l x : locks w !! l = Some x -> lk w l = x.
Proof. unfold lk. by intros ->. Qed.
Lemma ow_Some w o x : lock_owners w !! o = Some x -> ow w o = x.
Proof. unfold ow. by intros ->. Qed.

(** A lock and its owner. *)
Lemma base_owner S vp X w l : base S vp X w -> is_Some (locks w !! l) ->
  lock_owners w !! lf_owner (lk w l) = Some (ow w (lf_owner (lk w l))).
Proof.
  intros Hb [x Hx]. destruct (b_alloc _ _ _ _ Hb l x Hx) as (_ & [lo Ho] & _).
  rewrite (lk_Some w l x Hx). by rewrite (ow_Some w _ lo Ho).
Qed.

(** ** Operations on edges change edges, vertices and the owner graph only *)

Record edge_frame (w w' : lock_world) : Prop := EdgeFrame {
  ef_locks : locks w' = locks w;
  ef_owners o : set_lo_vertex 0 <$> lock_owners w' !! o = set_lo_vertex 0 <$> lock_owners w !! o;
  ef_chains : lf_lock_owners w' = lf_lock_owners w;
  ef_states : lf_states w' = lf_states w;
  ef_lock_states : lf_lock_states w' = lf_lock_states w;
  ef_next : next_addr w <= next_addr w';
  ef_woken : woken w' = woken w;
  ef_enqueued : enqueued w' = enqueued w;
  ef_v_refs : v_refs w' = v_refs w;
  ef_doomed : doomed w' = doomed w;
}.

Lemma edge_frame_refl w : edge_frame w w.
Proof. by split. Qed.
Lemma edge_frame_trans w1 w2 w3 : edge_frame w1 w2 -> edge_frame w2 w3 -> edge_frame w1 w3.
Proof. intros [] []. split; try congruence. by etransitivity. Qed.

Lemma ef_lk w w' l : edge_frame w w' -> lk w' l = lk w l.
Proof. intros H. unfold lk. by rewrite (ef_locks _ _ H). Qed.
Lemma ef_st w w' v : edge_frame w w' -> st w' v = st w v.
Proof. intros H. unfold st. by rewrite (ef_states _ _ H). Qed.
Lemma ef_places w w' vp X v : edge_frame w w' -> places vp X w' v = places vp X w v.
Proof. intros H. unfold places. by rewrite !(ef_st _ _ _ H). Qed.

Lemma ef_owner_Some w w' o : edge_frame w w' -> is_Some (lock_owners w' !! o) <-> is_Some (lock_owners w !! o).
Proof. intros H. pose proof (ef_owners _ _ H o) as E. by rewrite <- (fmap_is_Some (set_lo_vertex 0) (lock_owners w' !! o)), E, fmap_is_Some. Qed.

(** What [base] needs when only vertices, the graph and edges change. *)
Lemma edge_frame_base S vp X w w' :
  base S vp X w -> edge_frame w w' ->
  graph_ok (lf_owner_graph w') ->
  (forall o lo, lock_owners w' !! o = Some lo -> lo_vertex lo <> 0 -> live (lf_owner_graph w') (lo_vertex lo)) ->
  (forall o1 o2 lo1 lo2, lock_owners w' !! o1 = Some lo1 -> lock_owners w' !! o2 = Some lo2 ->
    lo_vertex lo1 <> 0 -> lo_vertex lo1 = lo_vertex lo2 -> o1 = o2) ->
  (forall v, live (lf_owner_graph w') v ->
    0 < v < next_addr w' /\ exists o lo, lock_owners w' !! o = Some lo /\ lo_vertex lo = v) ->
  NoDup (edges w') ->
  (forall p q, (p, q) ∈ edges w' ->
    is_Some (locks w' !! p) /\ is_Some (locks w' !! q) /\ lf_owner (lk w' p) <> lf_owner (lk w' q) /\
    vertex_of w' p <> 0 /\ vertex_of w' q <> 0) ->
  (forall u v, e_refs (lf_owner_graph w') u v = ecount (fun l => vertex_of w' l) u v (edges w')) ->
  base S vp X w'.
Proof.
  intros Hb Hf Hg Hv Hi Hl Hnd He Hr. pose proof (ef_next _ _ Hf) as Hn. split; try done.
  - pose proof (b_next _ _ _ _ Hb). lia.
  - intros l x. rewrite (ef_locks _ _ Hf), (ef_owner_Some _ _ _ Hf), (ef_places _ _ _ _ _ Hf).
    intros Hx. destruct (b_alloc _ _ _ _ Hb l x Hx) as (? & ? & ? & ? & ?). split_and!; try done; lia.
  - intros v l. rewrite (ef_places _ _ _ _ _ Hf), (ef_locks _ _ Hf). apply Hb.
  - intros l. rewrite (ef_locks _ _ Hf). apply Hb.
  - intros v. rewrite (ef_places _ _ _ _ _ Hf). apply Hb.
  - apply Hb.
  - intros o lo Ho. destruct (proj1 (ef_owner_Some _ _ o Hf) (mk_is_Some _ _ Ho)) as [lo0 Ho0].
    pose proof (ef_owners _ _ Hf o) as E. rewrite Ho, Ho0 in E. cbn in E.
    destruct (b_owner _ _ _ _ Hb o lo0 Ho0) as (? & ? & ? & _).
    assert (lo_refs lo = lo_refs lo0) as -> by (destruct lo, lo0; unfold set_lo_vertex in E; cbn in *; congruence).
    unfold owned. rewrite (ef_locks _ _ Hf). split_and!; try done; try lia. by apply Hv with o.
  - intros h o. rewrite (ef_chains _ _ Hf), (ef_owner_Some _ _ _ Hf). apply Hb.
  - intros h. rewrite (ef_chains _ _ Hf). apply Hb.
Qed.

Lemma ow_upd o f w k : ow (upd_ow o f w) k = if decide (k = o) then
  (match lock_owners w !! o with Some x => f x | None => no_owner end) else ow w k.
Proof.
  unfold ow, upd_ow. cbn [lock_owners set_owners]. destruct (decide (k = o)) as [->|Hne].
  - rewrite lookup_alter_eq. by destruct (lock_owners w !! o).
  - by rewrite lookup_alter_ne by done.
Qed.

Lemma alloc_vertex_base S vp X w l :
  base S vp X w -> is_Some (locks w !! l) ->
  let w' := lf_alloc_vertex l w in
  base S vp X w' /\ edge_frame w w' /\ edges w' = edges w /\ vertex_of w' l <> 0 /\
  (forall k, vertex_of w k <> 0 -> vertex_of w' k = vertex_of w k).
Proof.
  intros Hb Hl. unfold lf_alloc_vertex. set (o := lf_owner (lk w l)).
  destruct (Z.eqb_spec (lo_vertex (ow w o)) 0) as [E0|Hn0].
  2: { split; [done|]. split; [apply edge_frame_refl|]. done. }
  pose proof (base_owner _ _ _ w l Hb Hl) as Ho. fold o in Ho. set (lo := ow w o) in *.
  set (v := next_addr w). pose proof (b_next _ _ _ _ Hb) as Hnext.
  assert (~ live (lf_owner_graph w) v) as Hnl by (intros [? _]%(b_live _ _ _ _ Hb); unfold v in *; lia).
  destruct (alloc_vertex_ok (lf_owner_graph w) o v (b_graph _ _ _ _ Hb) Hnl) as (Hg & Hlive & Hr & _).
  set (g := graph_alloc_vertex (lf_owner_graph w) o v) in *.
  set (w' := upd_ow o (set_lo_vertex v) (set_graph g (set_next (v + 1) w))).
  assert (forall k, lock_owners w' !! k = if decide (k = o) then Some (set_lo_vertex v lo) else lock_owners w !! k) as Hown.
  { intros k. unfold w', upd_ow. cbn [lock_owners set_owners set_graph set_next].
    destruct (decide (k = o)) as [->|]; [by rewrite lookup_alter_eq, Ho | by rewrite lookup_alter_ne]. }
  assert (edge_frame w w') as Hf.
  { split; try done; [|unfold w'; cbn; lia]. intros k. rewrite Hown. destruct (decide (k = o)) as [->|]; [|done].
    rewrite Ho. done. }
  assert (forall k, vertex_of w' k = if decide (lf_owner (lk w k) = o) then v else vertex_of w k) as Hvx.
  { intros k. rewrite (ef_lk _ _ _ Hf). unfold ow. rewrite Hown. by destruct (decide _). }
  assert (forall k, vertex_of w k <> 0 -> vertex_of w' k = vertex_of w k) as Hkeep.
  { intros k Hk. rewrite Hvx. destruct (decide _) as [E|]; [|done]. rewrite E in Hk. done. }
  split; [|split_and!; try done].
  2: { rewrite Hvx. fold o. destruct (decide (o = o)); [unfold v; lia | done]. }
  apply (edge_frame_base S vp X w); try done.
  - intros k x. rewrite Hown. change (lf_owner_graph w') with g. rewrite Hlive. destruct (decide (k = o)).
    + intros [= <-] _. by right.
    + intros Hk Hx. left. by apply (b_owner _ _ _ _ Hb k).
  - intros k1 k2 x1 x2. rewrite !Hown. destruct (decide (k1 = o)) as [->|], (decide (k2 = o)) as [->|]; try done.
    + intros [= <-] Hk2 _ E. cbn in E. exfalso. apply Hnl. rewrite E. apply (b_owner _ _ _ _ Hb k2); [done|]. rewrite <- E. unfold v. lia.
    + intros Hk1 [= <-] Hx E. cbn in E. exfalso. apply Hnl. rewrite <- E. by apply (b_owner _ _ _ _ Hb k1).
    + apply (b_inj _ _ _ _ Hb).
  - intros u. change (lf_owner_graph w') with g. change (next_addr w') with (v + 1). rewrite Hlive. intros [Hu| ->].
    + destruct (b_live _ _ _ _ Hb u Hu) as (? & k & x & Hk & Hx). split; [unfold v; lia|].
      exists k, x. rewrite Hown. destruct (decide (k = o)) as [->|]; [|done]. simplify_eq. unfold v in Hu.
      rewrite E0 in *. lia.
    + split; [unfold v in *; lia|]. exists o, (set_lo_vertex v lo). rewrite Hown, decide_True by done. done.
  - apply Hb.
  - intros p q Hpq. destruct (b_edge _ _ _ _ Hb p q Hpq) as (? & ? & ? & Hp & Hq).
    rewrite !Hkeep by done. by rewrite !(ef_lk _ _ _ Hf), (ef_locks _ _ Hf).
  - intros a b. change (lf_owner_graph w') with g. rewrite Hr, (b_refs _ _ _ _ Hb). symmetry. apply ecount_ext.
    intros p q Hpq. destruct (b_edge _ _ _ _ Hb p q Hpq) as (_ & _ & _ & Hp & Hq). split; by apply Hkeep.
Qed.

(** ** Who waits for whom *)

Definition waits_for (w : lock_world) (a b : Z) : Prop :=
  exists p q, (p, q) ∈ edges w /\ lf_owner (lk w p) = a /\ lf_owner (lk w q) = b.

Section paths.
Context (S : list Z) (vp : Z) (X : list Z) (w : lock_world) (Hb : base S vp X w).
Let g : owner_graph := lf_owner_graph w.

Lemma graph_edge_iff u v : edge g u v <-> exists p q, (p, q) ∈ edges w /\ vertex_of w p = u /\ vertex_of w q = v.
Proof.
  unfold g. destruct (go_refs _ (b_graph _ _ _ _ Hb) u v) as [_ ->]. rewrite (b_refs _ _ _ _ Hb). apply ecount_pos.
Qed.

Lemma vertex_inj l o : is_Some (locks w !! l) -> is_Some (lock_owners w !! o) ->
  vertex_of w l <> 0 -> lo_vertex (ow w o) = vertex_of w l -> o = lf_owner (lk w l).
Proof.
  intros Hl [lo Ho] Hn E. pose proof (base_owner _ _ _ w l Hb Hl) as Hol. rewrite (ow_Some w o lo Ho) in E.
  symmetry. by apply (b_inj _ _ _ _ Hb (lf_owner (lk w l)) o (ow w (lf_owner (lk w l))) lo).
Qed.

Lemma waits_path a b : rtc (waits_for w) a b -> rtc (edge g) (lo_vertex (ow w a)) (lo_vertex (ow w b)).
Proof.
  induction 1 as [a|a m b (p & q & Hpq & <- & <-) _ IH]; [constructor|]. eapply rtc_l; [|exact IH].
  apply graph_edge_iff. by exists p, q.
Qed.

Lemma path_waits u v : rtc (edge g) u v -> forall a, is_Some (lock_owners w !! a) -> lo_vertex (ow w a) = u ->
  exists b, rtc (waits_for w) a b /\ is_Some (lock_owners w !! b) /\ lo_vertex (ow w b) = v.
Proof.
  induction 1 as [u|u m v Hum _ IH]; intros a Ha Hu; [by exists a|].
  apply graph_edge_iff in Hum as (p & q & Hpq & Hp & Hq).
  destruct (b_edge _ _ _ _ Hb p q Hpq) as (Lp & Lq & _ & Vp & Vq).
  assert (a = lf_owner (lk w p)) as -> by (apply vertex_inj; [done | done | done | congruence]).
  destruct (IH (lf_owner (lk w q))) as (b & Hr & ? & ?); [|done|].
  { by rewrite (base_owner _ _ _ w q Hb Lq). }
  exists b. split; [|done]. eapply rtc_l; [|exact Hr]. by exists p, q.
Qed.

Lemma path_iff x y : is_Some (locks w !! x) -> is_Some (locks w !! y) ->
  vertex_of w x <> 0 -> vertex_of w y <> 0 ->
  rtc (edge g) (vertex_of w y) (vertex_of w x) <-> rtc (waits_for w) (lf_owner (lk w y)) (lf_owner (lk w x)).
Proof.
  intros Hx Hy Vx Vy. split; [|apply waits_path]. intros Hp.
  destruct (path_waits _ _ Hp (lf_owner (lk w y))) as (b & Hr & Hsb & E); [|done|].
  { by rewrite (base_owner _ _ _ w y Hb Hy). }
  by rewrite (vertex_inj x b Hx Hsb Vx E) in Hr.
Qed.

(** No owner waits for itself, over any number of others. *)
Lemma waits_acyclic a b : waits_for w a b -> ~ rtc (waits_for w) b a.
Proof.
  intros (p & q & Hpq & <- & <-) Hr%waits_path. revert Hr. apply (path_acyclic g (b_graph _ _ _ _ Hb)).
  apply graph_edge_iff. by exists p, q.
Qed.
End paths.

Lemma ef_waits w w' a b : edge_frame w w' -> edges w' = edges w -> rtc (waits_for w') a b <-> rtc (waits_for w) a b.
Proof.
  intros Hf He. split; apply rtc_subrel; intros c d (p & q & Hpq & Hp & Hq); exists p, q;
    rewrite ?(ef_lk _ _ _ Hf), ?He in *; done.
Qed.

Lemma vertex_of_live S vp X w l : base S vp X w -> is_Some (locks w !! l) -> vertex_of w l <> 0 ->
  live (lf_owner_graph w) (vertex_of w l).
Proof. intros Hb Hl. eapply (b_owner _ _ _ _ Hb). by apply (base_owner _ _ _ w l Hb). Qed.

Lemma add_edge_base S vp X w x y :
  base S vp X w -> is_Some (locks w !! x) -> is_Some (locks w !! y) ->
  lf_owner (lk w x) <> lf_owner (lk w y) -> (x, y) ∉ edges w ->
  exists err w', lf_add_edge x y w = Ok (err, w') /\ base S vp X w' /\ edge_frame w w' /\
    ((err = EDEADLK /\ edges w' = edges w /\ rtc (waits_for w) (lf_owner (lk w y)) (lf_owner (lk w x))) \/
     (err = 0 /\ edges w' = (x, y) :: edges w /\ ~ rtc (waits_for w) (lf_owner (lk w y)) (lf_owner (lk w x)))).
Proof.
  intros Hb Hx Hy Hne Hnin. unfold lf_add_edge.
  rewrite require_true by (apply negb_true_iff, bool_decide_eq_false; by rewrite outedges_elem).
  rewrite bind_Ok.
  destruct (alloc_vertex_base S vp X w x Hb Hx) as (Hb1 & Hf1 & He1 & Vx1 & _).
  set (w1 := lf_alloc_vertex x w) in *.
  assert (is_Some (locks w1 !! y)) as Hy1 by (by rewrite (ef_locks _ _ Hf1)).
  destruct (alloc_vertex_base S vp X w1 y Hb1 Hy1) as (Hb2 & Hf2 & He2 & Vy2 & Hk2).
  set (w2 := lf_alloc_vertex y w1) in *.
  assert (vertex_of w2 x <> 0) as Vx2 by (by rewrite Hk2).
  pose proof (edge_frame_trans _ _ _ Hf1 Hf2) as Hf12. assert (edges w2 = edges w) as He12 by congruence.
  assert (is_Some (locks w2 !! x)) as Hx2 by (by rewrite (ef_locks _ _ Hf12)).
  assert (is_Some (locks w2 !! y)) as Hy2 by (by rewrite (ef_locks _ _ Hf12)).
  assert (lf_owner (lk w2 x) <> lf_owner (lk w2 y)) as Hne2 by (by rewrite !(ef_lk _ _ _ Hf12)).
  assert (vertex_of w2 x <> vertex_of w2 y) as Vne.
  { intros E. apply Hne2. apply (vertex_inj S vp X w2 Hb2); try done. by rewrite (base_owner _ _ _ w2 x Hb2 Hx2). }
  destruct (add_edge_ok (lf_owner_graph w2) (vertex_of w2 x) (vertex_of w2 y) (b_graph _ _ _ _ Hb2)) as
    (err & g & E & Hg & [Hlive _ _] & Hr); [by eapply vertex_of_live | by eapply vertex_of_live | done|].
  rewrite E, bind_Ok.
  assert (rtc (edge (lf_owner_graph w2)) (vertex_of w2 y) (vertex_of w2 x) <->
    rtc (waits_for w) (lf_owner (lk w y)) (lf_owner (lk w x))) as Hpath.
  { rewrite (path_iff S vp X w2 Hb2 x y), !(ef_lk _ _ _ Hf12) by done. by apply ef_waits. }
  assert (forall es, edge_frame w2 (set_edges es (set_graph g w2))) as Hf3 by (by split).
  assert (forall es, NoDup es ->
    (forall p q, (p, q) ∈ es -> (p, q) ∈ edges w2 \/ (p = x /\ q = y)) ->
    (forall u v, e_refs g u v = ecount (fun l => vertex_of w2 l) u v es) ->
    base S vp X (set_edges es (set_graph g w2))) as Hbase.
  { intros es Hnd Hes Hrefs. apply (edge_frame_base S vp X w2); try done; cbn [lf_owner_graph set_edges set_graph].
    - intros o lo Ho Hv. rewrite Hlive. by apply (b_owner _ _ _ _ Hb2 o).
    - apply (b_inj _ _ _ _ Hb2).
    - intros v. rewrite Hlive. apply (b_live _ _ _ _ Hb2).
    - intros p q [Hpq|[-> ->]]%Hes; [by apply (b_edge _ _ _ _ Hb2) | done]. }
  destruct Hr as [(-> & Hp & Hse)|(-> & Hp & Hrefs)]; cbn [negb].
  - exists EDEADLK, (set_graph g w2). split; [done|].
    split; [|split; [by eapply edge_frame_trans; [exact Hf12|]|left; by rewrite <- Hpath]].
    apply (Hbase (edges w2)); [apply Hb2 | auto|]. intros u v. rewrite (se_refs _ _ Hse). apply Hb2.
  - exists 0, (set_edges ((x, y) :: edges w2) (set_graph g w2)). split; [done|].
    split; [|split; [by eapply edge_frame_trans; [exact Hf12|]|right; rewrite <- Hpath; by rewrite <- He12]].
    apply Hbase.
    + constructor; [by rewrite He12 | apply Hb2].
    + intros p q [?|?]%elem_of_cons; [right | by left]. by simplify_eq.
    + intros u v. rewrite Hrefs, (b_refs _ _ _ _ Hb2). cbn [ecount]. rewrite Z.add_comm. f_equal.
      unfold is_edge. rewrite (Z.eqb_sym u), (Z.eqb_sym v). done.
Qed.

Lemma remove_edge_base S vp X w x y :
  base S vp X w -> (x, y) ∈ edges w ->
  exists w', lf_remove_edge x y w = Ok w' /\ base S vp X w' /\ edge_frame w w' /\
    edges w' = remove_pair x y (edges w).
Proof.
  intros Hb Hxy. unfold lf_remove_edge. destruct (b_edge _ _ _ _ Hb x y Hxy) as (Hx & Hy & _).
  destruct (remove_edge_ok (lf_owner_graph w) (vertex_of w x) (vertex_of w y) (b_graph _ _ _ _ Hb)) as
    (g & -> & Hg & [Hlive _ _] & Hr).
  { apply (graph_edge_iff S vp X w Hb). by exists x, y. }
  rewrite bind_Ok. eexists. split; [done|]. split; [|by split]. pose proof (b_edges _ _ _ _ Hb) as Hnd.
  apply (edge_frame_base S vp X w); try done; cbn [lf_owner_graph set_edges set_graph edges].
  - intros o lo Ho Hv. rewrite Hlive. by apply (b_owner _ _ _ _ Hb o).
  - apply (b_inj _ _ _ _ Hb).
  - intros v. rewrite Hlive. apply (b_live _ _ _ _ Hb).
  - by apply remove_pair_nodup.
  - intros p q [Hpq _]%remove_pair_elem; [|done]. by apply (b_edge _ _ _ _ Hb).
  - intros u v. rewrite Hr, (b_refs _ _ _ _ Hb), ecount_remove by done. f_equal.
    unfold is_edge. rewrite (Z.eqb_sym u), (Z.eqb_sym v). done.
Qed.

(** * Locks that are made, changed and freed

    The lemmas by which [base] follows the life of a lock: on which list it
    is, its fields, its references and those of its owner. *)

(** ** Lists *)

Lemma base_lists S vp vp' X X' w w' :
  base S vp X w -> locks w' = locks w -> lock_owners w' = lock_owners w ->
  lf_lock_owners w' = lf_lock_owners w -> edges w' = edges w ->
  lf_owner_graph w' = lf_owner_graph w -> next_addr w' = next_addr w ->
  (forall v, places vp' X' w' v ≡ₚ places vp X w v) -> base S vp' X' w'.
Proof.
  intros [b_graph b_next b_alloc b_places b_sleepers b_nodup b_nodup_S b_owner b_inj b_live b_edges b_edge b_refs b_chain b_chain_nodup] El Eo Ec Ee Eg En Hp.
  assert (forall l, lk w' l = lk w l) as Hlk by (intros; unfold lk; by rewrite El).
  assert (forall l, ow w' l = ow w l) as How by (intros; unfold ow; by rewrite Eo).
  split; try (intros; rewrite ?El, ?Eo, ?Ec, ?Ee, ?Eg, ?En in *; by eauto).
  - intros l x. rewrite El, Eo, En, (occ_perm _ _ _ (Hp _)). apply b_alloc.
  - intros v l. rewrite El, Hp. apply b_places.
  - intros v. rewrite Hp. apply b_nodup.
  - intros o lo. unfold owned. rewrite Eo, El, Eg, En. apply b_owner.
  - intros p q. rewrite Ee, El, !Hlk, !How. apply b_edge.
  - intros u v. rewrite Eg, Ee, b_refs. apply ecount_ext. intros p q _. by rewrite !Hlk, !How.
Qed.

Lemma st_upd vp f w v : is_Some (lf_states w !! vp) -> st (upd_st vp f w) v = if decide (v = vp) then f (st w vp) else st w v.
Proof.
  intros [s Hs]. unfold st, upd_st. cbn [lf_states set_states]. destruct (decide (v = vp)) as [->|Hne].
  - by rewrite lookup_alter_eq, Hs.
  - by rewrite lookup_alter_ne by done.
Qed.

Lemma upd_st_states vp f w v : is_Some (lf_states (upd_st vp f w) !! v) <-> is_Some (lf_states w !! v).
Proof.
  unfold upd_st. cbn [lf_states set_states]. destruct (decide (v = vp)) as [->|Hne].
  - rewrite lookup_alter_eq, fmap_is_Some. done.
  - by rewrite lookup_alter_ne by done.
Qed.

Lemma active_set vp l w v : is_Some (lf_states w !! vp) ->
  active (set_active vp l w) v = (if decide (v = vp) then l else active w v) /\
  pending (set_active vp l w) v = pending w v.
Proof. intros Hs. unfold set_active. rewrite st_upd by done. by destruct (decide (v = vp)) as [->|]. Qed.

Lemma pending_set vp l w v : is_Some (lf_states w !! vp) ->
  pending (set_pending vp l w) v = (if decide (v = vp) then l else pending w v) /\
  active (set_pending vp l w) v = active w v.
Proof. intros Hs. unfold set_pending. rewrite st_upd by done. by destruct (decide (v = vp)) as [->|]. Qed.

(** ** The locks of an owner *)

Lemma owned_ext w w' o :
  (forall k, lf_owner <$> locks w' !! k = lf_owner <$> locks w !! k) -> owned w' o = owned w o.
Proof.
  intros H. unfold owned. f_equal. rewrite <- !size_dom. f_equal. apply set_eq. intros k.
  rewrite !elem_of_dom. unfold is_Some.
  assert (forall m : gmap Z lockf_entry, (exists x, filter (fun kx : Z * lockf_entry => lf_owner kx.2 = o) m !! k = Some x) <->
    lf_owner <$> m !! k = Some o) as Hm.
  { intros m. split.
    - intros [x [Hx Ho]%map_lookup_filter_Some]. rewrite Hx. cbn in *. by rewrite Ho.
    - intros (x & Hx & ->)%fmap_Some. exists x. by apply map_lookup_filter_Some. }
  by rewrite !Hm, H.
Qed.

Lemma owned_pos w l x : locks w !! l = Some x -> 0 < owned w (lf_owner x).
Proof.
  intros Hx. unfold owned. assert (size (filter (fun kx : Z * lockf_entry => lf_owner kx.2 = lf_owner x) (locks w)) <> 0%nat); [|lia].
  apply map_size_ne_0_lookup. exists l, x. by apply map_lookup_filter_Some.
Qed.

Lemma owned_zero w o : owned w o = 0 -> forall l x, locks w !! l = Some x -> lf_owner x <> o.
Proof. intros H0 l x Hx <-. pose proof (owned_pos w l x Hx). lia. Qed.

Lemma owned_insert w l x o : locks w !! l = None ->
  owned (set_locks (<[l := x]> (locks w)) w) o = (if decide (lf_owner x = o) then 1 else 0) + owned w o.
Proof.
  intros Hn. unfold owned. cbn [locks set_locks]. destruct (decide (lf_owner x = o)) as [E|E].
  - rewrite map_filter_insert_True by done. rewrite map_size_insert_None; [lia|].
    apply map_lookup_filter_None. by left.
  - rewrite map_filter_insert_False by done. rewrite delete_id by done. lia.
Qed.

Lemma owned_delete w l x o : locks w !! l = Some x ->
  owned (set_locks (delete l (locks w)) w) o = owned w o - (if decide (lf_owner x = o) then 1 else 0).
Proof.
  intros Hx. set (w0 := set_locks (delete l (locks w)) w).
  assert (owned w o = owned (set_locks (<[l := x]> (locks w0)) w0) o) as ->.
  { unfold owned. cbn [locks set_locks w0]. by rewrite insert_delete_id. }
  rewrite owned_insert; [lia|]. apply lookup_delete_eq.
Qed.

(** ** Fields *)

Lemma lk_upd l f w k : lk (upd_lk l f w) k = if decide (k = l) then
  (match locks w !! l with Some x => f x | None => no_lock end) else lk w k.
Proof.
  unfold lk, upd_lk. cbn [locks set_locks]. destruct (decide (k = l)) as [->|Hne].
  - rewrite lookup_alter_eq. by destruct (locks w !! l).
  - by rewrite lookup_alter_ne by done.
Qed.

Lemma lk_upd_ne l f w k : k <> l -> lk (upd_lk l f w) k = lk w k.
Proof. intros Hne. rewrite lk_upd. by destruct (decide (k = l)). Qed.

Lemma lk_upd_eq l f w : is_Some (locks w !! l) -> lk (upd_lk l f w) l = f (lk w l).
Proof. intros [x Hx]. rewrite lk_upd. destruct (decide (l = l)); [|done]. by rewrite Hx, (lk_Some w l x Hx). Qed.

Lemma upd_lk_Some l f w k : is_Some (locks (upd_lk l f w) !! k) <-> is_Some (locks w !! k).
Proof.
  unfold upd_lk. cbn [locks set_locks]. destruct (decide (k = l)) as [->|Hne].
  - by rewrite lookup_alter_eq, fmap_is_Some.
  - by rewrite lookup_alter_ne by done.
Qed.

Lemma upd_lk_lookup l f w k x : locks (upd_lk l f w) !! k = Some x ->
  exists y, locks w !! k = Some y /\ x = if decide (k = l) then f y else y.
Proof.
  unfold upd_lk. cbn [locks set_locks]. destruct (decide (k = l)) as [->|Hne].
  - rewrite lookup_alter_eq. intros (y & Hy & ->)%fmap_Some. by exists y.
  - rewrite lookup_alter_ne by done. by exists x.
Qed.

(** A change of fields that no count depends on. *)
Lemma base_upd S vp X w l f :
  base S vp X w ->
  (forall x, locks w !! l = Some x -> lf_owner (f x) = lf_owner x /\ lf_vnode (f x) = lf_vnode x /\
    lf_refs (f x) = lf_refs x /\ in_range (f x)) ->
  base S vp X (upd_lk l f w).
Proof.
  intros Hb Hf.
  assert (forall k, lf_owner (lk (upd_lk l f w) k) = lf_owner (lk w k)) as Hlo.
  { intros k. rewrite lk_upd. destruct (decide (k = l)) as [->|]; [|done]. unfold lk.
    destruct (locks w !! l) eqn:E; [|done]. by apply Hf. }
  pose proof Hb as [b_graph b_next b_alloc b_places b_sleepers b_nodup b_nodup_S b_owner b_inj b_live b_edges b_edge b_refs b_chain b_chain_nodup]. split; try done.
  - intros k x (y & Hy & ->)%upd_lk_lookup. destruct (b_alloc k y Hy) as (? & ? & ? & ? & ?).
    destruct (decide (k = l)) as [->|]; [|done]. destruct (Hf y Hy) as (-> & -> & -> & ?). done.
  - intros v k Hk. destruct (b_places v k Hk) as (x & Hx & <-). destruct (decide (k = l)) as [->|Hne].
    + exists (f x). unfold upd_lk. cbn. rewrite lookup_alter_eq, Hx. split; [done|]. by apply Hf.
    + exists x. unfold upd_lk. cbn. by rewrite lookup_alter_ne.
  - intros k Hk. by apply upd_lk_Some, b_sleepers.
  - intros o lo Ho. rewrite (owned_ext w); [by apply b_owner|]. intros k.
    unfold upd_lk. cbn [locks set_locks]. destruct (decide (k = l)) as [->|Hne]; [|by rewrite lookup_alter_ne by done].
    rewrite lookup_alter_eq. destruct (locks w !! l) eqn:E; [|done]. cbn. f_equal. by apply Hf.
  - intros p q. rewrite !upd_lk_Some, !Hlo. apply b_edge.
  - intros u v. rewrite b_refs. apply ecount_ext. intros p q _. by rewrite !Hlo.
Qed.

(** ** A reference less *)

(** Frame of a release: the lock [l] itself apart, only owners change. *)
Record free_frame (l : Z) (freed : bool) (w w' : lock_world) : Prop := FreeFrame {
  ff_locks k : k <> l -> locks w' !! k = locks w !! k;
  ff_lock : locks w' !! l = if freed then None else (fun x => set_lf_refs (lf_refs x - 1) x) <$> locks w !! l;
  ff_edges : edges w' = edges w;
  ff_states : lf_states w' = lf_states w;
  ff_lock_states : lf_lock_states w' = lf_lock_states w;
  ff_next : next_addr w' = next_addr w;
  ff_woken : woken w' = woken w;
  ff_enqueued : enqueued w' = enqueued w;
  ff_doomed : doomed w' = doomed w;
}.

(** The reference dropped is that of the list in hand or that of a thread. *)
Definition drops (l : Z) (S X S' X' : list Z) : Prop := (X = l :: X' /\ S = S') \/ (X = X' /\ S = l :: S').

Section drop.
Context (S : list Z) (vp : Z) (X S' X' : list Z) (l : Z) (w : lock_world).
Context (Hb : base S vp X w) (Hd : drops l S X S' X').

Lemma drop_alloc : exists x, locks w !! l = Some x /\ (X = l :: X' -> lf_vnode x = vp).
Proof.
  destruct Hd as [[-> ->]|[-> ->]].
  - destruct (b_places _ _ _ _ Hb vp l) as (x & Hx & Hv); [|by exists x].
    unfold places. rewrite Z.eqb_refl. by left.
  - destruct (b_sleepers _ _ _ _ Hb l) as [x Hx]; [by left|]. exists x. split; [done|].
    intros E. exfalso. assert (length X' = length (l :: X')) as El by (by rewrite <- E). cbn in El. lia.
Qed.

Lemma drop_occ k x : locks w !! k = Some x ->
  occ k (places vp X' w (lf_vnode x)) + occ k S' =
  occ k (places vp X w (lf_vnode x)) + occ k S - (if decide (k = l) then 1 else 0).
Proof.
  intros Hx. destruct drop_alloc as (y & Hy & Hv). unfold places. rewrite !occ_app.
  destruct Hd as [[-> ->]|[-> ->]].
  - specialize (Hv eq_refl). destruct (Z.eqb_spec (lf_vnode x) vp) as [E|E].
    + rewrite occ_cons. destruct (decide (l = k)), (decide (k = l)); lia || congruence.
    + destruct (decide (k = l)) as [->|]; [congruence | lia].
  - rewrite (occ_cons k l S'). destruct (decide (l = k)), (decide (k = l)); lia || congruence.
Qed.

Lemma drop_sub v k : k ∈ places vp X' w v -> k ∈ places vp X w v.
Proof.
  destruct Hd as [[-> _]|[-> _]]; [|done]. unfold places. destruct (v =? vp); [|done]. by right.
Qed.

Lemma drop_sub_S k : k ∈ S' -> k ∈ S.
Proof. destruct Hd as [[_ ->]|[_ ->]]; [done|]. by right. Qed.

Lemma drop_nodup v : NoDup (places vp X' w v).
Proof.
  pose proof (b_nodup _ _ _ _ Hb v) as Hn. destruct Hd as [[-> _]|[-> _]]; [|done].
  unfold places in *. destruct (v =? vp); [|done]. cbn in Hn. by apply NoDup_cons in Hn as [_ ?].
Qed.

Lemma drop_nodup_S : NoDup S'.
Proof.
  pose proof (b_nodup_S _ _ _ _ Hb) as Hn. destruct Hd as [[_ ->]|[_ ->]]; [done|].
  by apply NoDup_cons in Hn as [_ ?].
Qed.

Lemma drop_dead x : locks w !! l = Some x -> lf_refs x = 1 -> (forall v, l ∉ places vp X' w v) /\ l ∉ S'.
Proof.
  intros Hx Hr. pose proof (drop_occ l x Hx) as E. destruct (b_alloc _ _ _ _ Hb l x Hx) as (_ & _ & _ & _ & Hr').
  destruct (decide (l = l)); [|done]. pose proof (occ_nonneg l S'). pose proof (occ_nonneg l (places vp X' w (lf_vnode x))).
  split.
  - intros v Hin. destruct (b_places _ _ _ _ Hb v l (drop_sub v l Hin)) as (y & Hy & Hv).
    assert (x = y) as <- by congruence. rewrite <- Hv in Hin. apply occ_elem in Hin. lia.
  - intros Hin. apply occ_elem in Hin. lia.
Qed.
End drop.

(** The lock stays: one reference less. *)
Lemma base_unref S vp X S' X' l w x :
  base S vp X w -> drops l S X S' X' -> locks w !! l = Some x -> 1 < lf_refs x ->
  base S' vp X' (upd_lk l (fun x => set_lf_refs (lf_refs x - 1) x) w).
Proof.
  intros Hb Hd Hx Hr. set (f := fun x => set_lf_refs (lf_refs x - 1) x).
  assert (forall k, lf_owner (lk (upd_lk l f w) k) = lf_owner (lk w k)) as Hlo.
  { intros k. rewrite lk_upd. destruct (decide (k = l)) as [->|]; [|done]. by rewrite Hx, (lk_Some w l x Hx). }
  split; try apply Hb.
  - intros k y (z & Hz & ->)%upd_lk_lookup. destruct (b_alloc _ _ _ _ Hb k z Hz) as (? & ? & ? & ? & Hocc).
    pose proof (drop_occ S vp X S' X' l w Hb Hd k z Hz) as E.
    change (places vp X' (upd_lk l f w)) with (places vp X' w). change (next_addr (upd_lk l f w)) with (next_addr w).
    revert E. destruct (decide (k = l)) as [->|]; intros E; [|split_and!; try done; lia].
    simplify_eq. unfold f. cbn. split_and!; try done; lia.
  - intros v k Hk%(drop_sub S vp X S' X' l w Hb Hd). destruct (b_places _ _ _ _ Hb v k Hk) as (y & Hy & <-).
    destruct (decide (k = l)) as [->|Hne].
    + exists (f y). unfold upd_lk. cbn. by rewrite lookup_alter_eq, Hy.
    + exists y. unfold upd_lk. cbn. by rewrite lookup_alter_ne.
  - intros k Hk%(drop_sub_S S vp X S' X' l w Hb Hd). by apply upd_lk_Some, (b_sleepers _ _ _ _ Hb).
  - by apply (drop_nodup S vp X S' X' l w Hb Hd).
  - by apply (drop_nodup_S S vp X S' X' l w Hb Hd).
  - intros o lo Ho. rewrite (owned_ext w); [by apply (b_owner _ _ _ _ Hb)|]. intros k.
    unfold upd_lk. cbn [locks set_locks]. destruct (decide (k = l)) as [->|Hne]; [|by rewrite lookup_alter_ne by done].
    rewrite lookup_alter_eq. by destruct (locks w !! l).
  - intros p q Hpq. rewrite !upd_lk_Some, !Hlo. by apply (b_edge _ _ _ _ Hb).
  - intros u v. change (lf_owner_graph (upd_lk l f w)) with (lf_owner_graph w).
    rewrite (b_refs _ _ _ _ Hb). apply ecount_ext. intros p q _. by rewrite !Hlo.
Qed.

(** The lock goes, and its owner with its last lock. *)
Section release.
Context (S : list Z) (vp : Z) (X S' X' : list Z) (l : Z) (w : lock_world) (x : lockf_entry).
Context (Hb : base S vp X w) (Hd : drops l S X S' X') (Hx : locks w !! l = Some x) (Hr : lf_refs x = 1).
Context (Hout : forall q, (l, q) ∉ edges w) (Hin : forall q, (q, l) ∉ edges w).
Let o : Z := lf_owner x.

Lemma release_owner_last : lo_refs (ow w o) = 1 ->
  forall k y, locks w !! k = Some y -> k <> l -> lf_owner y <> o.
Proof.
  intros H1 k y Hy Hne. pose proof (base_owner _ _ _ w l Hb (mk_is_Some _ _ Hx)) as Ho.
  rewrite (lk_Some w l x Hx) in Ho. destruct (b_owner _ _ _ _ Hb _ _ Ho) as (_ & E & _). fold o in E.
  pose proof (owned_delete w l x o Hx) as Ed. rewrite decide_True in Ed by done.
  apply (owned_zero (set_locks (delete l (locks w)) w) o) with k; [lia|]. cbn. by rewrite lookup_delete_ne.
Qed.

(** What remains when the owner's record and the owner graph are as they
    should be. *)
Lemma release_base w' :
  edges w' = edges w -> lf_states w' = lf_states w -> next_addr w' = next_addr w ->
  locks w' = delete l (locks w) -> graph_ok (lf_owner_graph w') ->
  e_refs (lf_owner_graph w') = e_refs (lf_owner_graph w) ->
  (forall k lo, lock_owners w' !! k = Some lo -> lo_refs lo = owned w' k /\ 0 < lo_refs lo /\
    exists lo0, lock_owners w !! k = Some lo0 /\ lo_vertex lo = lo_vertex lo0 /\
      (lo_vertex lo <> 0 -> live (lf_owner_graph w') (lo_vertex lo))) ->
  (forall k y, locks w' !! k = Some y -> exists lo, lock_owners w' !! lf_owner y = Some lo) ->
  (forall v, live (lf_owner_graph w') v -> live (lf_owner_graph w) v /\
     exists k lo, lock_owners w' !! k = Some lo /\ lo_vertex lo = v) ->
  (forall h k, k ∈ lf_lock_owners w' h -> is_Some (lock_owners w' !! k)) ->
  (forall h, NoDup (lf_lock_owners w' h)) ->
  base S' vp X' w'.
Proof.
  intros Ee Es En El Hg Hre Howner Halloc Hlive Hchain Hchain'.
  destruct (drop_dead S vp X S' X' l w Hb Hd x Hx Hr) as [Hnp HnS].
  assert (forall v, places vp X' w' v = places vp X' w v) as Hpl by (intros v; unfold places, st; by rewrite Es).
  assert (forall k y, locks w' !! k = Some y <-> k <> l /\ locks w !! k = Some y) as Hlk.
  { intros k y. rewrite El, lookup_delete_Some. intuition. }
  assert (forall k, k <> l -> lk w' k = lk w k) as Hlk'.
  { intros k Hk. unfold lk. by rewrite El, lookup_delete_ne by done. }
  assert (forall p q, (p, q) ∈ edges w -> p <> l /\ q <> l) as Hpq.
  { intros p q Hpq. split; intros ->; [by apply (Hout q) | by apply (Hin p)]. }
  assert (forall k, is_Some (locks w !! k) -> k <> l -> vertex_of w' k = vertex_of w k) as Hvx.
  { intros k [y Hy] Hne. rewrite Hlk', (lk_Some w k y Hy) by done.
    destruct (Halloc k y) as [lo Hlo]; [by apply Hlk|]. destruct (Howner _ _ Hlo) as (_ & _ & lo0 & Hlo0 & E & _).
    by rewrite (ow_Some w' _ lo Hlo), (ow_Some w _ lo0 Hlo0). }
  split; try done.
  - rewrite En. apply Hb.
  - intros k y Hy. destruct (Halloc k y Hy) as [lo Hlo]. apply Hlk in Hy as [Hne Hy].
    destruct (b_alloc _ _ _ _ Hb k y Hy) as (? & _ & ? & ? & Hocc). rewrite En. split_and!; try done; try lia.
    pose proof (drop_occ S vp X S' X' l w Hb Hd k y Hy) as E. rewrite decide_False in E by done.
    rewrite Hpl. lia.
  - intros v k. rewrite Hpl. intros Hk. destruct (b_places _ _ _ _ Hb v k) as (y & Hy & <-).
    { by apply (drop_sub S vp X S' X' l w Hb Hd). }
    exists y. split; [|done]. apply Hlk. split; [|done]. intros ->. by apply (Hnp (lf_vnode y)).
  - intros k Hk. destruct (b_sleepers _ _ _ _ Hb k) as [y Hy]; [by apply (drop_sub_S S vp X S' X' l w Hb Hd)|].
    exists y. apply Hlk. split; [|done]. by intros ->.
  - intros v. rewrite Hpl. by apply (drop_nodup S vp X S' X' l w Hb Hd).
  - by apply (drop_nodup_S S vp X S' X' l w Hb Hd).
  - intros k lo Hk. destruct (Howner k lo Hk) as (? & ? & lo0 & Hk0 & E & ?).
    destruct (b_owner _ _ _ _ Hb k lo0 Hk0) as (? & _). by rewrite En.
  - intros k1 k2 lo1 lo2 H1 H2 Hn E. destruct (Howner _ _ H1) as (_ & _ & lo1' & H1' & E1 & _).
    destruct (Howner _ _ H2) as (_ & _ & lo2' & H2' & E2 & _).
    apply (b_inj _ _ _ _ Hb k1 k2 lo1' lo2'); try done; congruence.
  - intros v Hv. destruct (Hlive v Hv) as [Hv' ?]. destruct (b_live _ _ _ _ Hb v Hv') as [? _]. by rewrite En.
  - rewrite Ee. apply Hb.
  - intros p q. rewrite Ee. intros He. destruct (Hpq p q He) as [Hp Hq].
    destruct (b_edge _ _ _ _ Hb p q He) as (Lp & Lq & ? & ? & ?). rewrite !Hvx, !Hlk', El, !lookup_delete_ne by done. done.
  - intros u v. rewrite Hre, Ee, (b_refs _ _ _ _ Hb). symmetry. apply ecount_ext. intros p q He.
    destruct (Hpq p q He) as [Hp Hq]. destruct (b_edge _ _ _ _ Hb p q He) as (Lp & Lq & _). by rewrite !Hvx.
Qed.
End release.

Lemma no_edges_at S vp X w l : base S vp X w ->
  (forall q, (l, q) ∉ edges w) -> (forall q, (q, l) ∉ edges w) ->
  (forall k y, locks w !! k = Some y -> k <> l -> lf_owner y <> lf_owner (lk w l)) ->
  let v := vertex_of w l in
  is_Some (locks w !! l) -> v <> 0 -> outs (lf_owner_graph w) v = [] /\ ins (lf_owner_graph w) v = [].
Proof.
  intros Hb Ho Hi Hlast v Hl Hv.
  assert (forall p q, (p, q) ∈ edges w -> vertex_of w p <> v /\ vertex_of w q <> v) as Hne.
  { intros p q Hpq. destruct (b_edge _ _ _ _ Hb p q Hpq) as ([y Hy] & [z Hz] & _ & Vp & Vq).
    assert (forall k y, locks w !! k = Some y -> k <> l -> vertex_of w k <> 0 -> vertex_of w k <> v) as Hk.
    { intros k y' Hy' Hkl Hvk E. apply (Hlast k y' Hy' Hkl). rewrite <- (lk_Some w k y' Hy').
      apply (vertex_inj S vp X w Hb); try done. by rewrite (base_owner _ _ _ w k Hb (mk_is_Some _ _ Hy')). }
    split; [apply (Hk p y) | apply (Hk q z)]; try done; intros ->; [by apply (Ho q) | by apply (Hi p)]. }
  split.
  - destruct (outs (lf_owner_graph w) v) as [|b bs] eqn:E; [done|]. exfalso.
    assert (edge (lf_owner_graph w) v b) as He by (unfold edge; rewrite E; by left).
    apply (graph_edge_iff S vp X w Hb) in He as (p & q & Hpq & Hp & _). by destruct (Hne p q Hpq).
  - destruct (ins (lf_owner_graph w) v) as [|b bs] eqn:E; [done|]. exfalso.
    assert (edge (lf_owner_graph w) b v) as He.
    { apply (go_ends _ (b_graph _ _ _ _ Hb)). rewrite E. by left. }
    apply (graph_edge_iff S vp X w Hb) in He as (p & q & Hpq & _ & Hq). by destruct (Hne p q Hpq).
Qed.

(** [free_owner] on the owner of the lock that goes, which had no other. *)
Lemma free_owner_ok S vp X w l : base S vp X w -> is_Some (locks w !! l) ->
  (forall q, (l, q) ∉ edges w) -> (forall q, (q, l) ∉ edges w) ->
  (forall k y, locks w !! k = Some y -> k <> l -> lf_owner y <> lf_owner (lk w l)) ->
  forall w1, lf_owner_graph w1 = lf_owner_graph w -> lo_vertex (ow w1 (lf_owner (lk w l))) = vertex_of w l ->
  exists g, free_owner (lf_owner (lk w l)) w1 =
    Ok (set_owners (delete (lf_owner (lk w l)) (lock_owners w1))
      (set_chains (fun h => list_remove (lf_owner (lk w l)) (lf_lock_owners w1 h)) (set_graph g w1))) /\
    graph_ok g /\ e_refs g = e_refs (lf_owner_graph w) /\
    forall v, live g v <-> live (lf_owner_graph w) v /\ (vertex_of w l <> 0 -> v <> vertex_of w l).
Proof.
  intros Hb Hl Ho Hi Hlast w1 Eg Ev. unfold free_owner. rewrite Ev, Eg.
  destruct (Z.eqb_spec (vertex_of w l) 0) as [E0|Hn0].
  - rewrite bind_Ok. exists (lf_owner_graph w1). split; [by destruct w1|]. rewrite Eg.
    split; [apply Hb|]. split; [done|]. intros v. intuition.
  - destruct (no_edges_at S vp X w l Hb Ho Hi Hlast Hl Hn0) as [E1 E2].
    destruct (free_vertex_ok (lf_owner_graph w) (b_graph _ _ _ _ Hb) (vertex_of w l)) as (g & -> & Hg & Hlive & Hre & _);
      [by eapply vertex_of_live | done | done|].
    rewrite !bind_Ok. exists g. split; [done|]. split; [done|]. split; [done|]. intros v. rewrite Hlive. intuition.
Qed.

Lemma free_base S vp X S' X' l w :
  base S vp X w -> drops l S X S' X' ->
  (forall x, locks w !! l = Some x -> lf_refs x = 1 -> (forall q, (l, q) ∉ edges w) /\ (forall q, (q, l) ∉ edges w)) ->
  exists freed w', lf_free_lock l w = Ok (freed, w') /\ base S' vp X' w' /\ free_frame l freed w w' /\
    (freed = true <-> lf_refs (lk w l) = 1).
Proof.
  intros Hb Hd Hne. destruct (drop_alloc S vp X S' X' l w Hb Hd) as (x & Hx & _).
  destruct (b_alloc _ _ _ _ Hb l x Hx) as (Hl & Ho & Hrg & Hpos & _). unfold lf_free_lock.
  set (f := fun x => set_lf_refs (lf_refs x - 1) x).
  rewrite (lk_Some w l x Hx), (require_true (0 <? lf_refs x)), bind_Ok by (by apply Z.ltb_lt).
  rewrite (lk_upd_eq l f w (mk_is_Some _ _ Hx)), (lk_Some w l x Hx). cbn [f lf_refs set_lf_refs lf_owner lf_flags lf_vnode].
  destruct (Z.ltb_spec 0 (lf_refs x - 1)) as [Hlt|Hge].
  { exists false, (upd_lk l f w). split; [done|]. split; [apply (base_unref S vp X S' X' l w x); done || lia|].
    split; [|split; [done | lia]]. split; try done; unfold upd_lk; cbn [locks set_locks].
    - intros k Hk. by rewrite lookup_alter_ne.
    - by rewrite lookup_alter_eq. }
  assert (lf_refs x = 1) as Hr by lia. destruct (Hne x Hx Hr) as [Hout Hin].
  assert (lf_owner x <> 0) as Hon.
  { destruct Ho as [lo Hlo]. destruct (b_owner _ _ _ _ Hb _ _ Hlo). lia. }
  rewrite (proj2 (Z.eqb_neq _ _) Hon).
  rewrite (require_true (is_empty (lf_outedges _ _))), bind_Ok by (by apply outedges_empty).
  rewrite (require_true (is_empty (lf_inedges _ _))), bind_Ok by (by apply inedges_empty).
  destruct Ho as [lo Hlo]. destruct (b_owner _ _ _ _ Hb _ _ Hlo) as (Hlo0 & Hown & Hlopos & Hlive).
  change (ow (upd_lk l f w) (lf_owner x)) with (ow w (lf_owner x)). rewrite (ow_Some w _ lo Hlo).
  rewrite require_true, bind_Ok by (by apply Z.ltb_lt).
  set (o := lf_owner x) in *. set (w1 := upd_ow o _ (upd_lk l f w)).
  assert (forall k, lock_owners w1 !! k = if decide (k = o) then Some (set_lo_refs (lo_refs lo - 1) lo) else lock_owners w !! k) as Hw1.
  { intros k. unfold w1, upd_ow. cbn [lock_owners set_owners upd_lk set_locks].
    destruct (decide (k = o)) as [->|]; [by rewrite lookup_alter_eq, Hlo | by rewrite lookup_alter_ne]. }
  assert (lock_owners w1 !! o = Some (set_lo_refs (lo_refs lo - 1) lo)) as Hw1o by (by rewrite Hw1, decide_True by done).
  rewrite (ow_Some w1 o _ Hw1o). cbn [lo_refs set_lo_refs].
  assert (forall k, owned (set_locks (delete l (locks w)) w) k = owned w k - (if decide (o = k) then 1 else 0)) as Hod.
  { intros k. by apply owned_delete. }
  assert (Hfin : forall w2, locks w2 = locks (upd_lk l f w) ->
    delete l (locks w2) = delete l (locks w)).
  { intros w2 ->. unfold upd_lk. cbn. apply map_eq. intros k. destruct (decide (k = l)) as [->|].
    - by rewrite !lookup_delete_eq.
    - by rewrite !lookup_delete_ne, lookup_alter_ne by done. }
  assert (Hdone : forall w2, locks w2 = locks (upd_lk l f w) -> edges w2 = edges w -> lf_states w2 = lf_states w ->
    lf_lock_states w2 = lf_lock_states w -> next_addr w2 = next_addr w -> woken w2 = woken w ->
    enqueued w2 = enqueued w -> doomed w2 = doomed w ->
    (forall w', lock_owners w' = lock_owners w2 -> lf_lock_owners w' = lf_lock_owners w2 ->
      lf_owner_graph w' = lf_owner_graph w2 -> edges w' = edges w -> lf_states w' = lf_states w ->
      next_addr w' = next_addr w -> locks w' = delete l (locks w) -> base S' vp X' w') ->
    exists freed w', Ok (true, set_locks (delete l (locks (if flag (lf_flags (lk w2 l)) F_REMOTE && negb (lf_vnode (lk w2 l) =? 0)
        then add_v_refs (lf_vnode (lk w2 l)) (-1) w2 else w2)))
      (if flag (lf_flags (lk w2 l)) F_REMOTE && negb (lf_vnode (lk w2 l) =? 0)
        then add_v_refs (lf_vnode (lk w2 l)) (-1) w2 else w2)) = Ok (freed, w') /\
      base S' vp X' w' /\ free_frame l freed w w' /\ (freed = true <-> lf_refs x = 1)).
  { intros w2 H1 H2 H3 H4 H5 H6 H7 H8 Hbase. eexists true, _. split; [done|].
    destruct (_ && _); (split; [|split; [split; try done; cbn [locks set_locks add_v_refs]; rewrite (Hfin w2 H1);
      [intros k Hk; by rewrite lookup_delete_ne | by rewrite lookup_delete_eq] | done]]);
      apply Hbase; try done; cbn [locks set_locks add_v_refs]; by apply Hfin. }
  assert (lk w l = x) as Elk by (by apply lk_Some).
  destruct (Z.eqb_spec (lo_refs lo - 1) 0) as [E1|E1].
  - assert (forall k y, locks w !! k = Some y -> k <> l -> lf_owner y <> o) as Hlast.
    { apply (release_owner_last S vp X l w x Hb Hx). fold o. rewrite (ow_Some w o lo Hlo). lia. }
    destruct (free_owner_ok S vp X w l Hb (mk_is_Some _ _ Hx) Hout Hin) with (w1 := w1) as (g & Eg & Hg & Hre & Hlv).
    { by rewrite Elk. }
    { done. }
    { rewrite Elk. fold o. by rewrite (ow_Some w1 o _ Hw1o), (ow_Some w o lo Hlo). }
    rewrite Elk in Eg, Hlv. fold o in Eg, Hlv. rewrite (ow_Some w o lo Hlo) in Hlv. rewrite Eg, bind_Ok.
    apply Hdone; try done. intros w' Eo Ec Egr Ee Es En El. cbn in Eo, Ec, Egr.
    assert (forall k lo', lock_owners w' !! k = Some lo' <-> k <> o /\ lock_owners w !! k = Some lo') as Hw'.
    { intros k lo'. rewrite Eo, lookup_delete_Some, Hw1. destruct (decide (k = o)) as [->|Hk]; split; intros [? ?]; try done; split; congruence. }
    apply (release_base S vp X S' X' l w x Hb Hd Hx Hr Hout Hin); try done; rewrite ?Egr; try done.
    + intros k lo' Hk. apply Hw' in Hk as [Hk Hlo']. destruct (b_owner _ _ _ _ Hb _ _ Hlo') as (? & Hown' & ? & Hlv').
      assert (owned w' k = owned w k) as ->.
      { transitivity (owned (set_locks (delete l (locks w)) w) k); [unfold owned; by rewrite El|].
        rewrite Hod, decide_False by done. lia. }
      split; [done|]. split; [done|]. exists lo'. split; [done|]. split; [done|]. intros Hn. apply Hlv.
      split; [by apply Hlv'|]. intros Hn' E. apply Hk. by apply (b_inj _ _ _ _ Hb k o lo' lo).
    + intros k y. rewrite El. intros [Hkl Hy]%lookup_delete_Some.
      destruct (b_alloc _ _ _ _ Hb k y Hy) as (_ & [lo' Hlo'] & _). exists lo'. apply Hw'. split; [|done].
      by apply (Hlast k y).
    + intros v [Hv Hvn]%Hlv. split; [done|]. destruct (b_live _ _ _ _ Hb v Hv) as (? & k & lo' & Hk & <-).
      exists k, lo'. split; [|done]. apply Hw'. split; [|done]. intros ->. simplify_eq. by apply Hvn; [lia|].
    + intros h k. rewrite Ec. intros [Hk Hko]%list_remove_elem; [|apply (b_chain_nodup _ _ _ _ Hb)].
      destruct (b_chain _ _ _ _ Hb h k Hk) as [lo' Hlo']. exists lo'. by apply Hw'.
    + intros h. rewrite Ec. apply list_remove_nodup, (b_chain_nodup _ _ _ _ Hb).
  - rewrite bind_Ok. apply Hdone; try done. intros w' Eo Ec Egr Ee Es En El.
    assert (forall k lo', lock_owners w' !! k = Some lo' -> exists lo0, lock_owners w !! k = Some lo0 /\
      lo_vertex lo' = lo_vertex lo0 /\ lo_refs lo' = lo_refs lo0 - if decide (o = k) then 1 else 0) as Hw'.
    { intros k lo'. rewrite Eo, Hw1. destruct (decide (k = o)) as [->|Hk].
      - intros [= <-]. exists lo. rewrite decide_True by done. done.
      - intros Hk'. exists lo'. rewrite decide_False by done. split_and!; try done. lia. }
    assert (forall k lo0, lock_owners w !! k = Some lo0 -> exists lo', lock_owners w' !! k = Some lo' /\ lo_vertex lo' = lo_vertex lo0) as Hw2.
    { intros k lo0 Hk. rewrite Eo, Hw1. destruct (decide (k = o)) as [->|]; [|by exists lo0].
      assert (lo0 = lo) as -> by congruence. by exists (set_lo_refs (lo_refs lo - 1) lo). }
    apply (release_base S vp X S' X' l w x Hb Hd Hx Hr Hout Hin); try done; rewrite ?Egr; try done; try exact (b_graph _ _ _ _ Hb).
    + intros k lo' Hk. destruct (Hw' k lo' Hk) as (lo0 & Hk0 & Ev & Er).
      destruct (b_owner _ _ _ _ Hb _ _ Hk0) as (? & Hown' & Hp & Hlv').
      assert (owned w' k = owned w k - if decide (o = k) then 1 else 0) as ->.
      { transitivity (owned (set_locks (delete l (locks w)) w) k); [unfold owned; by rewrite El | apply Hod]. }
      split; [rewrite Er, Hown'; done|]. split.
      * rewrite Er. destruct (decide (o = k)) as [<-|]; [simplify_eq; lia | lia].
      * exists lo0. split; [done|]. split; [done|]. rewrite Ev. apply Hlv'.
    + intros k y. rewrite El. intros [Hkl Hy]%lookup_delete_Some.
      destruct (b_alloc _ _ _ _ Hb k y Hy) as (_ & [lo' Hlo'] & _). destruct (Hw2 _ _ Hlo') as (lo2 & ? & _). by exists lo2.
    + intros v Hv. split; [done|]. destruct (b_live _ _ _ _ Hb v Hv) as (? & k & lo0 & Hk & <-).
      destruct (Hw2 _ _ Hk) as (lo2 & ? & ?). by exists k, lo2.
    + intros h k. rewrite Ec. intros Hk. destruct (b_chain _ _ _ _ Hb h k Hk) as [lo0 Hk0].
      destruct (Hw2 _ _ Hk0) as (lo2 & ? & _). by exists lo2.
    + intros h. rewrite Ec. apply Hb.
Qed.

(** * Locks that are made

    The lock of a request, with its owner, and the second part of a lock that
    is split. *)

Lemma owned_none S vp X w o : base S vp X w -> lock_owners w !! o = None -> owned w o = 0.
Proof.
  intros Hb Ho. unfold owned. destruct (decide (size (filter (fun kx : Z * lockf_entry => lf_owner kx.2 = o) (locks w)) = 0%nat)) as [->|Hn]; [done|].
  apply map_size_ne_0_lookup in Hn as [l [x [Hx E]%map_lookup_filter_Some]]. cbn in E.
  destruct (b_alloc _ _ _ _ Hb l x Hx) as (_ & [lo Hlo] & _). congruence.
Qed.

Section new.
Context (S : list Z) (vp : Z) (X : list Z) (w w' : lock_world) (l : Z) (x : lockf_entry).
Context (Hb : base S vp X w) (Hnext : next_addr w <= next_addr w') (Hl : next_addr w <= l < next_addr w').
Context (Hlocks : locks w' = <[l := x]> (locks w)) (Hv : lf_vnode x = vp) (Hr : lf_refs x = 1) (Hrg : in_range x).
Context (Hst : lf_states w' = lf_states w) (He : edges w' = edges w) (Hg : lf_owner_graph w' = lf_owner_graph w).
Context (Howner : forall k lo', lock_owners w' !! k = Some lo' -> 0 < k < next_addr w' /\
  ((exists lo, lock_owners w !! k = Some lo /\ lo_vertex lo' = lo_vertex lo /\
      lo_refs lo' = lo_refs lo + (if decide (lf_owner x = k) then 1 else 0)) \/
   (lock_owners w !! k = None /\ k = lf_owner x /\ lo_refs lo' = 1 /\ lo_vertex lo' = 0))).
Context (Hkeep : forall k lo, lock_owners w !! k = Some lo ->
  exists lo', lock_owners w' !! k = Some lo' /\ lo_vertex lo' = lo_vertex lo).
Context (Hox : is_Some (lock_owners w' !! lf_owner x)).
Context (Hchain : forall h o, o ∈ lf_lock_owners w' h -> is_Some (lock_owners w' !! o)).
Context (Hchain' : forall h, NoDup (lf_lock_owners w' h)).

Lemma new_fresh : locks w !! l = None.
Proof.
  destruct (locks w !! l) as [y|] eqn:E; [|done]. destruct (b_alloc _ _ _ _ Hb l y E) as (? & _). lia.
Qed.

Lemma new_lookup k y : locks w' !! k = Some y <-> (k = l /\ y = x) \/ (k <> l /\ locks w !! k = Some y).
Proof. rewrite Hlocks, lookup_insert_Some. intuition congruence. Qed.

Lemma new_not_placed v : l ∉ places vp X w v.
Proof. intros (y & Hy & _)%(b_places _ _ _ _ Hb). by rewrite new_fresh in Hy. Qed.

Lemma new_places v : places vp (l :: X) w' v = (if v =? vp then [l] else []) ++ places vp X w v.
Proof. unfold places, st. rewrite Hst. by destruct (v =? vp). Qed.

Lemma new_lk k : k <> l -> lk w' k = lk w k.
Proof. intros Hne. unfold lk. by rewrite Hlocks, lookup_insert_ne. Qed.

Lemma new_vertex k : is_Some (locks w !! k) -> vertex_of w' k = vertex_of w k.
Proof.
  intros Hk. assert (k <> l) as Hne by (intros ->; rewrite new_fresh in Hk; by destruct Hk).
  rewrite (new_lk k Hne). pose proof (base_owner _ _ _ w k Hb Hk) as Ho.
  destruct (Hkeep _ _ Ho) as (lo' & Hlo' & E). by rewrite (ow_Some w' _ lo' Hlo').
Qed.

Lemma new_owned k : owned w' k = (if decide (lf_owner x = k) then 1 else 0) + owned w k.
Proof.
  transitivity (owned (set_locks (<[l := x]> (locks w)) w) k); [unfold owned; by rewrite Hlocks|].
  apply owned_insert, new_fresh.
Qed.

Lemma new_occ k v : occ k (places vp (l :: X) w' v) = (if decide (k = l /\ v = vp) then 1 else 0) + occ k (places vp X w v).
Proof.
  rewrite new_places, occ_app. f_equal. destruct (Z.eqb_spec v vp) as [->|].
  - rewrite occ_cons, occ_nil. destruct (decide (l = k)), (decide (k = l /\ vp = vp)); lia || intuition congruence.
  - rewrite occ_nil. destruct (decide (k = l /\ v = vp)); [intuition | done].
Qed.

Lemma base_new : base S vp (l :: X) w'.
Proof.
  pose proof (b_next _ _ _ _ Hb) as Hn.
  split; rewrite ?He, ?Hg; try done; try exact (b_graph _ _ _ _ Hb); try exact (b_nodup_S _ _ _ _ Hb);
    try exact (b_edges _ _ _ _ Hb).
  - lia.
  - intros k y. rewrite new_occ. intros [[-> ->]|[Hne Hy]]%new_lookup.
    + rewrite Hv, decide_True by done. split; [lia|]. split; [done|]. split; [done|]. split; [lia|].
      rewrite Hr. assert (occ l (places vp X w vp) = 0) as ->.
      { rewrite (occ_nodup l _ (b_nodup _ _ _ _ Hb vp)), decide_False by apply new_not_placed. done. }
      assert (occ l S = 0) as ->; [|done].
      rewrite (occ_nodup l S (b_nodup_S _ _ _ _ Hb)), decide_False; [done|].
      intros [y Hy]%(b_sleepers _ _ _ _ Hb). by rewrite new_fresh in Hy.
    + rewrite decide_False by intuition. destruct (b_alloc _ _ _ _ Hb k y Hy) as (? & [lo Hlo] & ? & ? & ?).
      destruct (Hkeep _ _ Hlo) as (lo' & ? & _). split_and!; try done; lia.
  - intros v k. rewrite new_places. intros [Hk|Hk]%elem_of_app.
    + destruct (Z.eqb_spec v vp) as [->|]; [|by apply elem_of_nil in Hk]. apply list_elem_of_singleton in Hk as ->.
      exists x. split; [|done]. apply new_lookup. by left.
    + destruct (b_places _ _ _ _ Hb v k Hk) as (y & Hy & <-). exists y. split; [|done]. apply new_lookup. right.
      split; [|done]. intros ->. by rewrite new_fresh in Hy.
  - intros k [y Hy]%(b_sleepers _ _ _ _ Hb). exists y. apply new_lookup. right. split; [|done].
    intros ->. by rewrite new_fresh in Hy.
  - intros v. rewrite new_places. destruct (v =? vp); [|apply Hb]. cbn. constructor; [apply new_not_placed | apply Hb].
  - intros k lo' Hk. destruct (Howner k lo' Hk) as (? & [(lo & Hk0 & Ev & Er)|(Hk0 & -> & Er & Ev)]); rewrite new_owned.
    + destruct (b_owner _ _ _ _ Hb k lo Hk0) as (? & ? & ? & ?). rewrite Er, Ev. split; [done|].
      destruct (decide (lf_owner x = k)); split_and!; try done; lia.
    + rewrite (owned_none _ _ _ _ _ Hb Hk0), Er, Ev. destruct (decide (lf_owner x = lf_owner x)); [|done]. done.
  - intros k1 k2 lo1 lo2 H1 H2 Hn1 E.
    destruct (Howner k1 lo1 H1) as (_ & [(lo1' & Hk1 & Ev1 & _)|(_ & _ & _ & Ev1)]); [|congruence].
    destruct (Howner k2 lo2 H2) as (_ & [(lo2' & Hk2 & Ev2 & _)|(_ & _ & _ & Ev2)]); [|congruence].
    apply (b_inj _ _ _ _ Hb k1 k2 lo1' lo2'); try done; congruence.
  - intros v Hv'. destruct (b_live _ _ _ _ Hb v Hv') as (? & k & lo & Hk & <-). split; [lia|].
    destruct (Hkeep k lo Hk) as (lo' & ? & ?). by exists k, lo'.
  - intros p q Hpq. destruct (b_edge _ _ _ _ Hb p q Hpq) as (Hp & Hq & ? & ? & ?).
    assert (forall k, is_Some (locks w !! k) -> k <> l) as Hne by (intros k [y Hy] ->; by rewrite new_fresh in Hy).
    rewrite !new_vertex, !new_lk by auto. split; [|split; [|done]].
    + destruct Hp as [y Hy]. exists y. apply new_lookup. right. split; [by apply Hne | done].
    + destruct Hq as [y Hy]. exists y. apply new_lookup. right. split; [by apply Hne | done].
  - intros u v. rewrite (b_refs _ _ _ _ Hb). symmetry. apply ecount_ext. intros p q Hpq.
    destruct (b_edge _ _ _ _ Hb p q Hpq) as (Hp & Hq & _). by rewrite !new_vertex.
Qed.
End new.

(** ** The lock of a request *)

Record new_frame (w w' : lock_world) : Prop := NewFrame {
  nf_edges : edges w' = edges w;
  nf_states : lf_states w' = lf_states w;
  nf_lock_states : lf_lock_states w' = lf_lock_states w;
  nf_next : next_addr w <= next_addr w';
  nf_woken : woken w' = woken w;
  nf_enqueued : enqueued w' = enqueued w;
  nf_doomed : doomed w' = doomed w;
}.

Lemma new_frame_trans w1 w2 w3 : new_frame w1 w2 -> new_frame w2 w3 -> new_frame w1 w3.
Proof. intros [] []. split; try congruence. lia. Qed.

Lemma base_nil S vp vp' w : base S vp [] w -> base S vp' [] w.
Proof.
  intros Hb. apply (base_lists S vp vp' [] [] w w Hb); try done. intros v. unfold places. by destruct (v =? vp), (v =? vp').
Qed.

Lemma find_owner_elem w chain id fl flags lo : find_owner w chain id fl flags = Some lo -> lo ∈ chain.
Proof.
  induction chain as [|o chain IH]; [done|]. cbn. destruct (lf_owner_matches _ _ _ _).
  - intros [= ->]. by left.
  - intros H. right. by apply IH.
Qed.

(** The lock made for an owner that got its reference before. *)
Lemma make_lock_ok ap start end_ lo w :
  let '(l, w') := make_lock ap start end_ lo w in
  l = next_addr w /\ next_addr w' = l + 1 /\ new_frame w w' /\
  locks w' = <[l := Lock (a_flags ap) (l_type (a_fl ap)) start end_ lo (a_vp ap) (a_task ap) 1]> (locks w) /\
  lock_owners w' = lock_owners w /\ lf_lock_owners w' = lf_lock_owners w /\ lf_owner_graph w' = lf_owner_graph w.
Proof.
  unfold make_lock, lf_alloc_lock. cbn [Z.eqb]. set (x := Lock _ _ _ _ lo _ _ _).
  set (w1 := upd_lk _ _ _).
  assert (locks w1 = <[next_addr w := x]> (locks w)) as El.
  { unfold w1, upd_lk. cbn. apply map_eq. intros k. destruct (decide (k = next_addr w)) as [->|].
    - by rewrite lookup_alter_eq, !lookup_insert_eq.
    - by rewrite lookup_alter_ne, !lookup_insert_ne by done. }
  split; [done|]. split; [by destruct (flag _ _)|]. split; [destruct (flag _ _); split; try done; cbn; lia|].
  split; [by destruct (flag _ _)|]. by destruct (flag _ _).
Qed.

Lemma request_base S vp w ap start end_ :
  base S vp [] w -> 0 <= start <= end_ /\ end_ <= OFF_MAX ->
  let '(lo, w1) := get_owner ap w in
  let '(l, w2) := make_lock ap start end_ lo w1 in
  base S (a_vp ap) [l] w2 /\ new_frame w w2 /\ locks w !! l = None /\
  locks w2 = <[l := Lock (a_flags ap) (l_type (a_fl ap)) start end_ lo (a_vp ap) (a_task ap) 1]> (locks w).
Proof.
  intros Hb0 Hrg. pose proof (base_nil S vp (a_vp ap) w Hb0) as Hb. unfold get_owner.
  set (chain := lf_lock_owners w _). destruct (find_owner w chain _ _ _) as [lo|] eqn:Ef.
  - apply find_owner_elem in Ef. destruct (b_chain _ _ _ _ Hb _ _ Ef) as [x Hx].
    set (w1 := upd_ow lo _ w). pose proof (make_lock_ok ap start end_ lo w1) as Hm.
    destruct (make_lock ap start end_ lo w1) as [l w2]. destruct Hm as (-> & En & Hf & El & Eo & Ec & Eg).
    assert (lock_owners w1 = <[lo := set_lo_refs (lo_refs x + 1) x]> (lock_owners w)) as Ew1.
    { unfold w1, upd_ow. cbn. apply map_eq. intros k. destruct (decide (k = lo)) as [->|].
      - by rewrite lookup_alter_eq, lookup_insert_eq, Hx.
      - by rewrite lookup_alter_ne, lookup_insert_ne by done. }
    assert (new_frame w w2) as Hf' by (destruct Hf; split; done).
    assert (next_addr w1 = next_addr w) as En1 by done.
    split; [|split; [done|split; [|done]]].
    2: { destruct (locks w !! next_addr w1) as [y|] eqn:E; [|done]. destruct (b_alloc _ _ _ _ Hb _ _ E) as (? & _). lia. }
    eapply (base_new S (a_vp ap) [] w w2); try exact El; try done; try (apply Hf').
    + lia.
    + intros k lo'. rewrite Eo, Ew1. intros [[<- <-]|[Hne Hk]]%lookup_insert_Some.
      * destruct (b_owner _ _ _ _ Hb _ _ Hx) as (? & _). split; [lia|]. left. exists x. cbn.
        by rewrite decide_True by done.
      * destruct (b_owner _ _ _ _ Hb _ _ Hk) as (? & _). split; [lia|]. left. exists lo'. cbn.
        rewrite decide_False by done. split_and!; try done. lia.
    + intros k y Hk. rewrite Eo, Ew1. destruct (decide (k = lo)) as [->|].
      * rewrite lookup_insert_eq. simplify_eq. by eexists.
      * rewrite lookup_insert_ne by done. by exists y.
    + cbn. rewrite Eo, Ew1, lookup_insert_eq. done.
    + intros h o. rewrite Ec, Eo, Ew1. change (lf_lock_owners w1 h) with (lf_lock_owners w h). intros Ho.
      destruct (decide (o = lo)) as [->|]; [by rewrite lookup_insert_eq | rewrite lookup_insert_ne by done].
      by apply (b_chain _ _ _ _ Hb h).
    + intros h. rewrite Ec. apply (b_chain_nodup _ _ _ _ Hb).
  - set (lo := next_addr w). set (hash := lf_hash_owner _ _ _ _) in *.
    set (x := if flag (a_flags ap) F_REMOTE then _ else _).
    set (w1 := set_chains _ _). pose proof (make_lock_ok ap start end_ lo w1) as Hm.
    destruct (make_lock ap start end_ lo w1) as [l w2]. destruct Hm as (-> & En & Hf & El & Eo & Ec & Eg).
    pose proof (b_next _ _ _ _ Hb) as Hn0. assert (next_addr w1 = lo + 1) as En1 by done.
    assert (new_frame w w2) as Hf'.
    { destruct Hf; split; try done. unfold lo in *. lia. }
    assert (lock_owners w !! lo = None) as Hnone.
    { destruct (lock_owners w !! lo) as [y|] eqn:E; [|done]. destruct (b_owner _ _ _ _ Hb _ _ E) as (? & _). unfold lo in *. lia. }
    assert (lock_owners w2 = <[lo := x]> (lock_owners w)) as Ew1 by (by rewrite Eo).
    assert (lo_refs x = 1 /\ lo_vertex x = 0) as [Hx1 Hx2] by (unfold x; repeat case_match; done).
    split; [|split; [done|split; [|done]]].
    2: { destruct (locks w !! next_addr w1) as [y|] eqn:E; [|done]. destruct (b_alloc _ _ _ _ Hb _ _ E) as (? & _). unfold lo in *. lia. }
    eapply (base_new S (a_vp ap) [] w w2); try exact El; try done; try (apply Hf').
    + unfold lo in *. lia.
    + intros k lo'. rewrite Ew1. intros [[<- <-]|[Hne Hk]]%lookup_insert_Some.
      * split; [unfold lo in *; lia|]. right. done.
      * destruct (b_owner _ _ _ _ Hb _ _ Hk) as (? & _). split; [unfold lo in *; lia|]. left. exists lo'. cbn.
        rewrite decide_False by done. split_and!; try done. lia.
    + intros k y Hk. rewrite Ew1, lookup_insert_ne by congruence. by exists y.
    + cbn. rewrite Ew1, lookup_insert_eq. done.
    + intros h o. rewrite Ec, Ew1. unfold w1. cbn [lf_lock_owners set_chains].
      assert (o ∈ lf_lock_owners w h -> is_Some (<[lo:=x]> (lock_owners w) !! o)) as Hold.
      { intros Ho. destruct (b_chain _ _ _ _ Hb h o Ho) as [y Hy]. rewrite lookup_insert_ne by congruence. done. }
      destruct (h =? hash); [|done]. intros [->|Ho]%elem_of_cons; [by rewrite lookup_insert_eq | by apply Hold].
    + intros h. rewrite Ec. unfold w1. cbn [lf_lock_owners set_chains].
      destruct (h =? hash); [|apply (b_chain_nodup _ _ _ _ Hb)]. constructor; [|apply (b_chain_nodup _ _ _ _ Hb)].
      intros [y Hy]%(b_chain _ _ _ _ Hb). congruence.
Qed.

(** ** The second part of a lock *)

Lemma split_lock_base S vp X w lock1 n x :
  base S vp X w -> locks w !! lock1 = Some x -> lf_vnode x = vp -> lf_start x <= n <= lf_end x ->
  let '(s, w1) := lf_alloc_lock (lf_owner x) w in
  let w2 := copy_lock lock1 n s w1 in
  base S vp (s :: X) w2 /\ new_frame w w2 /\ locks w !! s = None /\
  locks w2 = <[s := set_lf_start n (set_lf_refs 1 x)]> (locks w).
Proof.
  intros Hb Hx Hv Hn. destruct (b_alloc _ _ _ _ Hb _ _ Hx) as (Hl & [lo Hlo] & Hrg & _).
  destruct (b_owner _ _ _ _ Hb _ _ Hlo) as (Ho & _). unfold lf_alloc_lock.
  destruct (Z.eqb_spec (lf_owner x) 0) as [|_]; [lia|]. set (s := next_addr w). set (w1 := set_locks _ _).
  pose proof (b_next _ _ _ _ Hb) as Hn0.
  assert (locks w !! s = None) as Hs.
  { destruct (locks w !! s) as [y|] eqn:E; [|done]. destruct (b_alloc _ _ _ _ Hb _ _ E) as (? & _). unfold s in *. lia. }
  assert (lk w1 lock1 = x) as Ex.
  { unfold lk, w1. cbn. rewrite lookup_insert_ne by (intros E; congruence). by rewrite Hx. }
  set (y := set_lf_start n (set_lf_refs 1 x)).
  assert (locks (upd_lk s (fun _ => y) w1) = <[s := y]> (locks w)) as El.
  { unfold upd_lk, w1. cbn. apply map_eq. intros k. destruct (decide (k = s)) as [->|].
    - by rewrite lookup_alter_eq, !lookup_insert_eq.
    - by rewrite lookup_alter_ne, !lookup_insert_ne by done. }
  assert (lock_owners w1 = <[lf_owner x := set_lo_refs (lo_refs lo + 1) lo]> (lock_owners w)) as Eo.
  { unfold w1, upd_ow. cbn. apply map_eq. intros k. destruct (decide (k = lf_owner x)) as [->|].
    - by rewrite lookup_alter_eq, lookup_insert_eq, Hlo.
    - by rewrite lookup_alter_ne, lookup_insert_ne by done. }
  unfold copy_lock. rewrite Ex. fold y. set (w2 := upd_lk s _ w1) in *.
  assert (Hw : forall w', locks w' = locks w2 -> lock_owners w' = lock_owners w2 -> lf_lock_owners w' = lf_lock_owners w2 ->
    edges w' = edges w -> lf_states w' = lf_states w -> lf_owner_graph w' = lf_owner_graph w -> next_addr w' = s + 1 ->
    base S vp (s :: X) w').
  { intros w' E1 E2 E3 E4 E5 E6 E7. rewrite El in E1. change (lock_owners w2) with (lock_owners w1) in E2.
    eapply (base_new S vp X w w' s y); try exact E1; try done.
    - unfold s in *. lia.
    - unfold s in *. lia.
    - unfold in_range, y in *. cbn. lia.
    - intros k lo'. rewrite E2, Eo. intros [[<- <-]|[Hne Hk]]%lookup_insert_Some.
      + split; [unfold s in *; lia|]. left. exists lo. cbn. by rewrite decide_True by done.
      + destruct (b_owner _ _ _ _ Hb _ _ Hk) as (? & _). split; [unfold s in *; lia|]. left. exists lo'. cbn.
        rewrite decide_False by done. split_and!; try done. lia.
    - intros k z Hk. rewrite E2, Eo. destruct (decide (k = lf_owner x)) as [->|].
      + rewrite lookup_insert_eq. simplify_eq. by eexists.
      + rewrite lookup_insert_ne by done. by exists z.
    - rewrite E2, Eo. cbn. by rewrite lookup_insert_eq.
    - intros h o. rewrite E3, E2, Eo. change (lf_lock_owners w2 h) with (lf_lock_owners w h). intros Hc.
      destruct (decide (o = lf_owner x)) as [->|]; [by rewrite lookup_insert_eq | rewrite lookup_insert_ne by done].
      by apply (b_chain _ _ _ _ Hb h).
    - intros h. rewrite E3. apply (b_chain_nodup _ _ _ _ Hb). }
  assert (next_addr w2 = s + 1) as En by done.
  destruct (flag _ _); (split; [apply Hw; done|split; [split; try done; cbn; unfold s; lia|done]]).
Qed.
