(* ===== verification/LockfWait.v ===== *)
(** * Who holds and who waits

    [waits]: locks that are held do not conflict, and a pending lock has an
    edge to each held lock and each older pending lock that blocks it, and to
    no other. When edges are removed, the locks that nothing blocks any more
    are granted. *)

From stdpp Require Import gmap relations sorting.
From S2P Require Import Prelude LfGraph LfGraphInv LfGraphEdge LfGraphOps Lockf LockfMem.

(** ** Lists *)

Lemma remove_sub v w l : w ∈ list_remove v l -> w ∈ l.
Proof.
  induction l as [|u l IH]; [done|]. cbn [list_remove]. destruct (Z.eqb_spec u v) as [->|]; [by right|].
  intros [->|H]%elem_of_cons; [by left | right; by apply IH].
Qed.

Lemma remove_sorted (R : Z -> Z -> Prop) v l : StronglySorted R l -> StronglySorted R (list_remove v l).
Proof.
  induction 1 as [|u l Hs IH Hu]; cbn [list_remove]; [constructor|]. destruct (u =? v); [done|].
  constructor; [done|]. rewrite Forall_forall in *. intros w Hw. by apply Hu, (remove_sub v).
Qed.

Lemma sorted_total (R : Z -> Z -> Prop) l x y : StronglySorted R l -> x ∈ l -> y ∈ l -> x = y \/ R x y \/ R y x.
Proof.
  induction 1 as [|u l Hs IH Hu]; [by intros ?%elem_of_nil|]. rewrite Forall_forall in Hu.
  intros [->|Hx]%elem_of_cons [->|Hy]%elem_of_cons; auto.
Qed.

Lemma sorted_mono (R R' : Z -> Z -> Prop) l :
  (forall x y, x ∈ l -> y ∈ l -> R x y -> R' x y) -> StronglySorted R l -> StronglySorted R' l.
Proof.
  intros H. induction 1 as [|u l Hs IH Hu]; [constructor|]. constructor.
  - apply IH. intros x y Hx Hy. apply H; by right.
  - rewrite Forall_forall in *. intros w Hw. apply H; [by left | by right | by apply Hu].
Qed.

Lemma remove_app_r v l1 l2 : v ∉ l1 -> list_remove v (l1 ++ v :: l2) = l1 ++ l2.
Proof.
  induction l1 as [|u l1 IH]; cbn; [by rewrite Z.eqb_refl|]. intros [Hne Hn]%not_elem_of_cons.
  destruct (Z.eqb_spec u v); [done|]. by rewrite IH.
Qed.

(** ** Blocking *)

Lemma overlaps_sym x y : lf_overlaps x y = lf_overlaps y x.
Proof. unfold lf_overlaps. apply andb_comm. Qed.

Lemma blocks_sym x y : lf_blocks x y = lf_blocks y x.
Proof. unfold lf_blocks. rewrite overlaps_sym, (Z.eqb_sym (lf_owner x)), (orb_comm (lf_type x =? _)). done. Qed.

Lemma blocks_same_owner x y : lf_owner x = lf_owner y -> lf_blocks x y = false.
Proof. intros E. unfold lf_blocks. by rewrite E, Z.eqb_refl. Qed.

Lemma blocks_owner x y : lf_blocks x y = true -> lf_owner x <> lf_owner y.
Proof. intros H E. by rewrite blocks_same_owner in H. Qed.

(** A lock that covers less. *)
Definition within (x y : lockf_entry) : Prop :=
  lf_owner x = lf_owner y /\ lf_type x = lf_type y /\ lf_start y <= lf_start x /\ lf_end x <= lf_end y.

Lemma within_refl x : within x x.
Proof. unfold within. lia. Qed.

Lemma within_overlaps x x' y y' : within x' x -> within y' y -> lf_overlaps x' y' = true -> lf_overlaps x y = true.
Proof.
  intros (_ & _ & ? & ?) (_ & _ & ? & ?). unfold lf_overlaps. rewrite !andb_true_iff, !Z.leb_le. lia.
Qed.

Lemma within_blocks x x' y y' : within x' x -> within y' y -> lf_blocks x' y' = true -> lf_blocks x y = true.
Proof.
  intros Hx Hy. unfold lf_blocks. rewrite !andb_true_iff. intros [[Ho Ht] Hov].
  pose proof (within_overlaps _ _ _ _ Hx Hy Hov). destruct Hx as (<- & <- & _), Hy as (<- & <- & _). done.
Qed.

(** ** The invariant *)

(** The locks granted for a file: [H], on their way to its list, and that list. *)
Definition held (vp : Z) (H : list Z) (w : lock_world) (v : Z) : list Z := (if v =? vp then H else []) ++ active w v.

Definition start_le (w : lock_world) (x y : Z) : Prop := lf_start (lk w x) <= lf_start (lk w y).
Definition sorted (w : lock_world) : Prop := forall v, StronglySorted (start_le w) (active w v).

Definition lock_type (x : lockf_entry) : Prop := lf_type x = F_RDLCK \/ lf_type x = F_WRLCK.

(** The edges to [ex] are those of a lock that was just reduced or removed. *)
Record waits (vp : Z) (H : list Z) (ex : Z) (w : lock_world) : Prop := Waits {
  w_type v x : x ∈ held vp H w v ++ pending w v -> lock_type (lk w x);
  w_conf v x y : x ∈ held vp H w v -> y ∈ held vp H w v -> blocks w x y = false;
  w_own v x y : x ∈ active w v -> y ∈ active w v -> x <> y -> lf_owner (lk w x) = lf_owner (lk w y) ->
    lf_overlaps (lk w x) (lk w y) = false;
  w_edge p q : (p, q) ∈ edges w -> exists v, p ∈ pending w v /\
    ((q = ex /\ v = vp) \/ (q ∈ held vp H w v ++ pending w v /\ blocks w p q = true));
  w_held v p q : p ∈ pending w v -> q ∈ held vp H w v -> blocks w p q = true -> (p, q) ∈ edges w;
  w_older v : StronglySorted (fun p q => blocks w p q = true -> (p, q) ∈ edges w) (pending w v);
}.

Definition waiting (w : lock_world) : Prop := forall v p, p ∈ pending w v -> exists q, (p, q) ∈ edges w.

Lemma held_perm vp H H' w v x : H ≡ₚ H' -> x ∈ held vp H w v <-> x ∈ held vp H' w v.
Proof. intros E. unfold held. destruct (v =? vp); [|done]. by rewrite E. Qed.

Lemma waits_perm vp H H' ex w : H ≡ₚ H' -> waits vp H ex w -> waits vp H' ex w.
Proof.
  intros E [Ht Hc Ho He Hh Hl].
  assert (forall v x, x ∈ held vp H' w v <-> x ∈ held vp H w v) as Hp by (intros; by apply held_perm).
  split; try done.
  - intros v x. rewrite elem_of_app, Hp, <- elem_of_app. apply Ht.
  - intros v x y. rewrite !Hp. apply Hc.
  - intros p q Hpq. destruct (He p q Hpq) as (v & Hv & Hq). exists v. split; [done|].
    by rewrite elem_of_app, Hp, <- elem_of_app.
  - intros v p q. rewrite Hp. apply Hh.
Qed.

(** Two pending locks that block each other: the newer has an edge to the older. *)
Lemma waits_pending vp H ex w v p q : waits vp H ex w -> p ∈ pending w v -> q ∈ pending w v ->
  blocks w p q = true -> (p, q) ∈ edges w \/ (q, p) ∈ edges w.
Proof.
  intros Hw Hp Hq Hb. destruct (sorted_total _ _ p q (w_older _ _ _ _ Hw v) Hp Hq) as [->|[?|?]].
  - by rewrite blocks_same_owner in Hb.
  - left. auto.
  - right. rewrite blocks_sym in Hb. auto.
Qed.

(** ** Edges removed, locks granted *)

Section steps.
Context (vp : Z) (H : list Z) (ex : Z) (w : lock_world) (Hw : waits vp H ex w).

(** An edge that is no longer needed. *)
Lemma waits_remove w1 d q : edge_frame w w1 -> edges w1 = remove_pair d q (edges w) -> NoDup (edges w) ->
  (forall v, q ∈ held vp H w v -> blocks w d q = false) -> (forall v, q ∉ pending w v) ->
  waits vp H ex w1.
Proof.
  intros Hf He Hnd Hq Hqp.
  assert (forall v, st w1 v = st w v) as Hst by (intros; by apply ef_st).
  assert (forall k, lk w1 k = lk w k) as Hlk by (intros; by apply ef_lk).
  assert (forall v, held vp H w1 v = held vp H w v) as Hh by (intros; unfold held; by rewrite Hst).
  assert (forall e, e ∈ edges w1 <-> e ∈ edges w /\ e <> (d, q)) as He' by (intros; rewrite He; by apply remove_pair_elem).
  split.
  - intros v x. rewrite Hh, Hst, Hlk. apply Hw.
  - intros v x y. rewrite !Hh, !Hlk. apply Hw.
  - intros v x y. rewrite !Hst, !Hlk. apply Hw.
  - intros a b [Hab _]%He'. destruct (w_edge _ _ _ _ Hw a b Hab) as (v & ?). exists v. by rewrite Hh, Hst, !Hlk.
  - intros v a b. rewrite Hh, Hst, !Hlk. intros Ha Hb Hbl. apply He'. split; [by apply (w_held _ _ _ _ Hw v)|].
    intros [= -> ->]. by rewrite (Hq v Hb) in Hbl.
  - intros v. rewrite Hst. eapply sorted_mono; [|apply (w_older _ _ _ _ Hw v)]. intros a b Ha Hb Hab.
    rewrite !Hlk. intros Hbl. apply He'. split; [by apply Hab|]. intros [= -> ->]. by apply (Hqp v).
Qed.

(** A lock without edges leaves the pending locks. *)
Lemma waits_grant w1 d :
  locks w1 = locks w -> edges w1 = edges w -> (forall v, active w1 v = active w v) ->
  (forall v, pending w1 v = if decide (v = vp) then list_remove d (pending w v) else pending w v) ->
  NoDup (pending w vp) -> d ∈ pending w vp -> (forall v, d ∈ pending w v -> v = vp) ->
  (forall q, (d, q) ∉ edges w) -> waits vp (d :: H) ex w1.
Proof.
  intros El Ee Ha Hp Hnd Hd Hun Hout.
  assert (forall k, lk w1 k = lk w k) as Hlk by (intros; unfold lk; by rewrite El).
  assert (forall v x, x ∈ pending w1 v -> x ∈ pending w v /\ x <> d) as Hsub.
  { intros v x. rewrite Hp. destruct (decide (v = vp)) as [->|Hne].
    - by rewrite list_remove_elem by done.
    - intros Hx. split; [done|]. intros ->. by apply Hne, Hun. }
  assert (forall v x, x ∈ pending w v -> x <> d -> x ∈ pending w1 v) as Hsub'.
  { intros v x Hx Hne. rewrite Hp. destruct (decide (v = vp)) as [->|]; [|done]. by rewrite list_remove_elem. }
  assert (forall v x, x ∈ held vp (d :: H) w1 v <-> x ∈ held vp H w v \/ (v = vp /\ x = d)) as Hheld.
  { intros v x. unfold held. rewrite Ha. destruct (Z.eqb_spec v vp) as [->|Hne]; rewrite ?elem_of_app, ?elem_of_cons; intuition. }
  assert (forall v x, x ∈ held vp H w v -> v = vp -> blocks w d x = false) as Hfree.
  { intros v x Hx ->. destruct (blocks w d x) eqn:E; [|done]. exfalso. apply (Hout x). by apply (w_held _ _ _ _ Hw vp). }
  split.
  - intros v x. rewrite elem_of_app, Hheld, Hlk. intros [[Hx|[-> ->]]|Hx].
    + apply (w_type _ _ _ _ Hw v). apply elem_of_app. by left.
    + apply (w_type _ _ _ _ Hw vp). apply elem_of_app. by right.
    + apply (w_type _ _ _ _ Hw v). apply elem_of_app. right. by apply Hsub.
  - intros v x y. rewrite !Hheld, !Hlk. intros [Hx|[-> ->]] [Hy|[E ->]].
    + by apply (w_conf _ _ _ _ Hw v).
    + rewrite blocks_sym. by apply (Hfree v).
    + by apply (Hfree vp).
    + by apply blocks_same_owner.
  - intros v x y. rewrite !Ha, !Hlk. apply Hw.
  - intros p q. rewrite Ee. intros Hpq. destruct (w_edge _ _ _ _ Hw p q Hpq) as (v & Hpv & Hq). exists v.
    assert (p <> d) as Hpd by (intros ->; by apply (Hout q)). split; [by apply Hsub'|].
    destruct Hq as [?|[Hq Hb]]; [by left | right]. rewrite !Hlk. split; [|done].
    apply elem_of_app in Hq as [Hq|Hq]; apply elem_of_app.
    + left. apply Hheld. by left.
    + destruct (decide (q = d)) as [->|Hne]; [left; apply Hheld; right; split; [by apply Hun | done]|].
      right. by apply Hsub'.
  - intros v p q. rewrite Hheld, Ee, !Hlk. intros [Hpv Hpd]%Hsub [Hq|[-> ->]] Hb.
    + by apply (w_held _ _ _ _ Hw v).
    + destruct (waits_pending vp H ex w vp p d Hw Hpv Hd Hb) as [?|Hdp]; [done|]. by apply Hout in Hdp.
  - intros v. apply sorted_mono with (R := fun p q => blocks w p q = true -> (p, q) ∈ edges w).
    + intros a b _ _. by rewrite !Hlk, Ee.
    + rewrite Hp. destruct (decide (v = vp)); [apply remove_sorted|]; apply Hw.
Qed.

(** The lock [ex] is settled. *)
Lemma waits_settle : (forall p, (p, ex) ∈ edges w -> exists v, p ∈ pending w v /\
    ex ∈ held vp H w v ++ pending w v /\ blocks w p ex = true) -> waits vp H 0 w.
Proof.
  intros Hex. split; try apply Hw. intros p q Hpq. destruct (decide (q = ex)) as [->|Hne].
  - destruct (Hex p Hpq) as (v & ?). exists v. intuition.
  - destruct (w_edge _ _ _ _ Hw p q Hpq) as (v & Hp & [[? _]|?]); [done|]. exists v. auto.
Qed.
End steps.

(** ** What the release of locks leaves alone *)

Record granted_frame (vp : Z) (G : list Z) (w w' : lock_world) : Prop := GrantedFrame {
  gf_other v : v <> vp -> st w' v = st w v;
  gf_pending : pending w vp ≡ₚ G ++ pending w' vp;
  gf_threads : ls_threads (st w' vp) = ls_threads (st w vp);
  gf_states v : is_Some (lf_states w' !! v) <-> is_Some (lf_states w !! v);
  gf_locks k : is_Some (locks w !! k) -> k ∉ active w vp -> locks w' !! k = locks w !! k;
  gf_active k : k ∈ active w' vp -> k ∈ active w vp \/ locks w !! k = None;
  gf_doomed : doomed w' = doomed w;
  gf_lock_states : lf_lock_states w' = lf_lock_states w;
  gf_next : next_addr w <= next_addr w';
  gf_woken x : x ∈ woken w -> x ∈ woken w';
  gf_wakes d : d ∈ G -> lf_async_task (lk w d) = 0 -> d ∈ woken w';
  gf_woke x : x ∈ woken w' -> x ∈ woken w \/ x ∈ G;
}.

Lemma gf_lk vp G w w' k : granted_frame vp G w w' -> is_Some (locks w !! k) -> k ∉ active w vp -> lk w' k = lk w k.
Proof. intros Hf Hk Hn. unfold lk. by rewrite (gf_locks _ _ _ _ Hf). Qed.

Lemma granted_frame_trans S vp X G1 G2 w1 w2 w3 : base S vp X w1 -> (forall d, d ∈ G2 -> d ∈ pending w1 vp) ->
  granted_frame vp G1 w1 w2 -> granted_frame vp G2 w2 w3 -> granted_frame vp (G2 ++ G1) w1 w3.
Proof.
  intros Hb HG H1 H2.
  assert (forall k, is_Some (locks w1 !! k) -> k ∉ active w1 vp -> k ∉ active w2 vp) as Hna.
  { intros k Hk Hn [?|E]%(gf_active _ _ _ _ H1); [done|]. rewrite E in Hk. by destruct Hk. }
  split; pose proof H1 as []; pose proof H2 as []; try congruence.
  - intros v Hv. by rewrite gf_other1, gf_other0.
  - rewrite gf_pending0, gf_pending1. rewrite (Permutation_app_comm G2 G1). by rewrite app_assoc.
  - intros v. by rewrite gf_states1, gf_states0.
  - intros k Hk Hn. rewrite gf_locks1, gf_locks0; try done; [by rewrite gf_locks0 | by apply Hna].
  - intros k [Hk|E]%gf_active1; [by apply gf_active0|]. destruct (locks w1 !! k) eqn:E1; [|by right]. left.
    destruct (decide (k ∈ active w1 vp)); [done|]. exfalso. rewrite gf_locks0 in E by done. congruence.
  - lia.
  - intros x Hx. by apply gf_woken1, gf_woken0.
  - intros d [Hd|Hd]%elem_of_app Ht; [|by apply gf_woken1, gf_wakes0]. apply gf_wakes1; [done|].
    assert (d ∈ places vp X w1 vp) as Hpl by (unfold places; rewrite !elem_of_app; auto).
    destruct (b_places _ _ _ _ Hb _ _ Hpl) as (y & Hy & _).
    rewrite (gf_lk vp G1 w1 w2 d H1); [done | done|].
    intros Hda. pose proof (b_nodup _ _ _ _ Hb vp) as Hnd. unfold places in Hnd.
    apply NoDup_app in Hnd as (_ & _ & Hnd). apply NoDup_app in Hnd as (_ & Hnd & _). apply (Hnd d Hda). auto.
  - intros x Hx. rewrite elem_of_app. destruct (gf_woke1 x Hx) as [Hx2|?]; [destruct (gf_woke0 x Hx2)|]; auto.
Qed.

(** The locks of a pending list are allocated, and only there. *)
Lemma pending_placed S vp X w v d : base S vp X w -> d ∈ pending w v ->
  exists x, locks w !! d = Some x /\ lf_vnode x = v /\ (d ∉ active w v) /\ (v = vp -> d ∉ X) /\
    (forall v', d ∈ pending w v' -> v' = v) /\ NoDup (pending w v).
Proof.
  intros Hb Hd. assert (forall v', d ∈ pending w v' -> d ∈ places vp X w v') as Hpl.
  { intros v' Hd'. unfold places. rewrite !elem_of_app. auto. }
  destruct (b_places _ _ _ _ Hb _ _ (Hpl v Hd)) as (x & Hx & Hv). exists x. split; [done|]. split; [done|].
  pose proof (b_nodup _ _ _ _ Hb v) as Hnd. unfold places in Hnd. apply NoDup_app in Hnd as (_ & H1 & Hnd).
  apply NoDup_app in Hnd as (_ & H2 & Hnd). split; [intros Ha; by apply (H2 d)|]. split.
  - intros -> HX. rewrite Z.eqb_refl in H1. apply (H1 d HX), elem_of_app. by right.
  - split; [|done]. intros v' (y & Hy & Hv')%Hpl%(b_places _ _ _ _ Hb). congruence.
Qed.

(** A lock that is granted moves from the pending locks to those in hand. *)
Lemma grant_base S vp X w d : base S vp X w -> is_Some (lf_states w !! vp) -> d ∈ pending w vp ->
  base S vp (d :: X) (lf_wakeup_lock vp d w).
Proof.
  intros Hb Hs Hd. destruct (pending_placed S vp X w vp d Hb Hd) as (x & _ & _ & _ & _ & _ & Hnd).
  set (w1 := remove_pending vp d w).
  assert (base S vp (d :: X) w1) as Hb1.
  { apply (base_lists S vp vp X (d :: X) w); try done. intros v. unfold places, w1, remove_pending.
    destruct (pending_set vp (list_remove d (pending w vp)) w v Hs) as [-> ->].
    destruct (decide (v = vp)) as [->|Hne].
    - rewrite Z.eqb_refl. rewrite (list_remove_perm d (pending w vp) Hd) at 2.
      rewrite <- !Permutation_middle. done.
    - by rewrite (proj2 (Z.eqb_neq v vp)). }
  unfold lf_wakeup_lock. fold w1. destruct (negb _); (apply (base_lists S vp vp (d :: X) (d :: X) w1); done).
Qed.

Lemma grant_frame S vp X w d : base S vp X w -> is_Some (lf_states w !! vp) -> d ∈ pending w vp ->
  granted_frame vp [d] w (lf_wakeup_lock vp d w) /\
  locks (lf_wakeup_lock vp d w) = locks w /\ edges (lf_wakeup_lock vp d w) = edges w /\
  (forall v, active (lf_wakeup_lock vp d w) v = active w v) /\
  (forall v, pending (lf_wakeup_lock vp d w) v = if decide (v = vp) then list_remove d (pending w v) else pending w v).
Proof.
  intros Hb Hs Hd. set (w' := lf_wakeup_lock vp d w).
  assert (forall v, st w' v = st (remove_pending vp d w) v) as Hst by (intros v; unfold w', lf_wakeup_lock; by destruct (negb _)).
  assert (forall v, st w' v = if decide (v = vp) then LockState (active w vp) (list_remove d (pending w vp)) (ls_threads (st w vp)) else st w v) as Hst'.
  { intros v. rewrite Hst. unfold remove_pending, set_pending. by rewrite st_upd. }
  assert (locks w' = locks w) as El by (unfold w', lf_wakeup_lock; by destruct (negb _)).
  split; [|split; [done|split; [unfold w', lf_wakeup_lock; by destruct (negb _)|]]].
  - split.
    + intros v Hv. by rewrite Hst', decide_False.
    + rewrite Hst', decide_True by done. cbn. by apply list_remove_perm.
    + by rewrite Hst', decide_True by done.
    + intros v. unfold w', lf_wakeup_lock. destruct (negb _); apply upd_st_states.
    + intros k _ _. by rewrite El.
    + intros k. rewrite Hst', decide_True by done. by left.
    + unfold w', lf_wakeup_lock; by destruct (negb _).
    + unfold w', lf_wakeup_lock; by destruct (negb _).
    + unfold w', lf_wakeup_lock; destruct (negb _); done.
    + intros x Hx. unfold w', lf_wakeup_lock. destruct (negb _); [done|]. apply elem_of_app. by left.
    + intros x ->%list_elem_of_singleton Ht. unfold w', lf_wakeup_lock.
      change (lk (remove_pending vp d w) d) with (lk w d). rewrite Ht. cbn [Z.eqb negb woken set_woken].
      apply elem_of_app. right. by apply list_elem_of_singleton.
    + intros x. unfold w', lf_wakeup_lock. destruct (negb _); [by left|]. apply elem_of_app.
  - split; intros v; rewrite Hst'; by destruct (decide (v = vp)) as [->|].
Qed.

(** ** The loop over the in-edges of a lock *)

Lemma edge_frame_granted vp w w' : edge_frame w w' -> granted_frame vp [] w w'.
Proof.
  intros Hf. assert (forall v, st w' v = st w v) as Hst by (intros; by apply ef_st).
  split.
  - intros v _. apply Hst.
  - by rewrite Hst.
  - by rewrite Hst.
  - intros v. by rewrite (ef_states _ _ Hf).
  - intros k _ _. by rewrite (ef_locks _ _ Hf).
  - intros k. rewrite Hst. by left.
  - apply Hf.
  - apply Hf.
  - apply Hf.
  - intros x. by rewrite (ef_woken _ _ Hf).
  - by intros d ?%elem_of_nil.
  - intros x. rewrite (ef_woken _ _ Hf). by left.
Qed.

Lemma st_owner_not_pending S vp X w l : base S vp X w -> l ∈ active w vp \/ l ∈ X -> forall v, l ∉ pending w v.
Proof.
  intros Hb Hl v Hp. destruct (pending_placed S vp X w v l Hb Hp) as (x & Hx & Hv & Hna & HnX & Hun & _).
  assert (v = vp) as ->; [|destruct Hl; [done | by apply HnX]].
  destruct (b_places _ _ _ _ Hb vp l) as (y & Hy & Hv'); [|congruence].
  unfold places. rewrite Z.eqb_refl, !elem_of_app. destruct Hl; auto.
Qed.

(** Edges of [lock] are dropped where it does not block any more. *)
Lemma update_edges_ok S vp R K lock all es : forall granted w,
  base S vp (granted ++ R) w -> waits vp (granted ++ K) lock w -> waiting w -> is_Some (lf_states w !! vp) ->
  NoDup es -> (forall d, d ∈ es -> (d, lock) ∈ edges w) ->
  (forall v, lock ∉ pending w v) -> (forall v, lock ∈ active w v -> v = vp) ->
  (all = true -> forall v, lock ∉ held vp (granted ++ K) w v) ->
  exists G w', update_edges es vp lock all granted w = Ok (G ++ granted, w') /\
    base S vp (G ++ granted ++ R) w' /\ waits vp (G ++ granted ++ K) lock w' /\ waiting w' /\
    granted_frame vp G w w' /\ locks w' = locks w /\ (forall v, active w' v = active w v) /\
    (forall p, (p, lock) ∈ edges w' -> (p, lock) ∈ edges w /\ (p ∈ es -> all = false /\ blocks w p lock = true)).
Proof.
  induction es as [|d es IH]; intros granted w Hb Hw Hwt Hs Hnd Hes Hlp Hlv Hall; cbn [update_edges].
  { exists [], w. split; [done|]. split; [done|]. split; [done|]. split; [done|].
    split; [by apply edge_frame_granted, edge_frame_refl|]. split; [done|]. split; [done|].
    intros p Hp. split; [done|]. by intros ?%elem_of_nil. }
  apply NoDup_cons in Hnd as [Hd Hnd]. pose proof (Hes d ltac:(by left)) as Hdl.
  assert (forall d, d ∈ es -> (d, lock) ∈ edges w) as Hes' by (intros; apply Hes; by right).
  destruct (all || negb (blocks w lock d)) eqn:Eb.
  2: { apply orb_false_iff in Eb as [-> Eb%negb_false_iff].
    destruct (IH granted w Hb Hw Hwt Hs Hnd Hes' Hlp Hlv Hall) as (G & w' & E & ? & ? & ? & ? & ? & ? & Hed).
    exists G, w'. do 7 (split; [done|]). intros p Hp. destruct (Hed p Hp) as [? Hin]. split; [done|].
    intros [->|?]%elem_of_cons; [|by apply Hin]. by rewrite blocks_sym. }
  destruct (remove_edge_base S vp (granted ++ R) w d lock Hb Hdl) as (w1 & -> & Hb1 & Hf1 & He1). rewrite bind_Ok.
  assert (forall e, e ∈ edges w1 <-> e ∈ edges w /\ e <> (d, lock)) as He1'.
  { intros e. rewrite He1. apply remove_pair_elem, Hb. }
  assert (waits vp (granted ++ K) lock w1) as Hw1.
  { apply (waits_remove vp (granted ++ K) lock w Hw w1 d lock Hf1 He1); [apply Hb | | done].
    intros v Hv. apply orb_true_iff in Eb as [->|Eb%negb_true_iff]; [by apply Hall in Hv | by rewrite blocks_sym]. }
  assert (forall v, st w1 v = st w v) as Hst by (intros; by apply ef_st).
  assert (forall k, lk w1 k = lk w k) as Hlk by (intros; by apply ef_lk).
  assert (forall v, held vp (granted ++ K) w1 v = held vp (granted ++ K) w v) as Hh by (intros; unfold held; by rewrite Hst).
  assert (forall d, d ∈ es -> (d, lock) ∈ edges w1) as Hes1.
  { intros d' Hd'. apply He1'. split; [by apply Hes'|]. intros [= ->]. done. }
  assert (is_Some (lf_states w1 !! vp)) as Hs1 by (by rewrite (ef_states _ _ Hf1)).
  assert (d ∈ pending w vp) as Hdp.
  { destruct (w_edge _ _ _ _ Hw d lock Hdl) as (v & Hv & [[_ ->]|[Hq _]]); [done|].
    apply elem_of_app in Hq as [Hq|Hq]; [|by apply Hlp in Hq]. unfold held in Hq.
    destruct (Z.eqb_spec v vp) as [->|]; [done|]. by rewrite <- (Hlv v Hq). }
  assert (forall x, x ∈ pending w1 vp <-> x ∈ pending w vp) as Hp1 by (intros; by rewrite Hst).
  destruct (is_empty (lf_outedges w1 d)) eqn:Eo.
  - pose proof (proj1 (outedges_empty w1 d) Eo) as Hout. rewrite <- Hp1 in Hdp.
    destruct (pending_placed S vp _ w1 vp d Hb1 Hdp) as (x & _ & _ & _ & _ & Hun & Hndp).
    destruct (grant_frame S vp _ w1 d Hb1 Hs1 Hdp) as (Hgf & El & Ee & Ea & Ep).
    pose proof (grant_base S vp _ w1 d Hb1 Hs1 Hdp) as Hb2. set (w2 := lf_wakeup_lock vp d w1) in *.
    assert (forall v, held vp (d :: granted ++ K) w2 v = (if v =? vp then [d] else []) ++ held vp (granted ++ K) w v) as Hh2.
    { intros v. unfold held. rewrite Ea, Hst. by destruct (v =? vp). }
    assert (waits vp (d :: granted ++ K) lock w2) as Hw2.
    { by apply (waits_grant vp (granted ++ K) lock w1 Hw1 w2 d). }
    assert (lock <> d) as Hld by (intros ->; by apply (Hlp vp), Hp1).
    destruct (IH (d :: granted) w2) as (G & w' & E & Hb' & Hw' & Hwt' & Hf' & El' & Ea' & Hed); try done.
    { intros v p. rewrite Ep, Ee. destruct (decide (v = vp)) as [->|].
      - intros [Hp Hne]%list_remove_elem; [|done]. rewrite Hp1 in Hp. destruct (Hwt vp p Hp) as [q Hq]. exists q.
        apply He1'. split; [done|]. congruence.
      - rewrite Hst. intros Hp. destruct (Hwt v p Hp) as [q Hq]. exists q. apply He1'. split; [done|]. intros [= -> ->].
        rewrite <- (Hst v) in Hp. by apply Hun in Hp. }
    { by apply (gf_states _ _ _ _ Hgf). }
    { intros p. rewrite Ee. apply Hes1. }
    { intros v. rewrite Ep, Hst. destruct (decide (v = vp)); [|apply Hlp]. intros ?%remove_sub. by apply (Hlp v). }
    { intros v. rewrite Ea, Hst. apply Hlv. }
    { intros Ht v. change ((d :: granted) ++ K) with (d :: granted ++ K). rewrite Hh2, not_elem_of_app.
      split; [|by apply Hall]. destruct (v =? vp); [by rewrite list_elem_of_singleton | by intros ?%elem_of_nil]. }
    exists (G ++ [d]), w'. rewrite <- !app_assoc. split; [done|]. split; [done|]. split; [done|]. split; [done|].
    split; [|split; [by rewrite El', El, (ef_locks _ _ Hf1)|split; [intros v; by rewrite Ea', Ea, Hst|]]].
    + eapply granted_frame_trans; [exact Hb | | | exact Hf'].
      * intros e He. rewrite <- Hp1. apply (remove_sub d). specialize (Ep vp). rewrite decide_True in Ep by done.
        rewrite <- Ep, (gf_pending _ _ _ _ Hf'). apply elem_of_app. by left.
      * rewrite <- (app_nil_r [d]). eapply granted_frame_trans; [exact Hb | | by apply edge_frame_granted | exact Hgf].
        intros e ->%list_elem_of_singleton. by apply Hp1.
    + intros p Hp. destruct (Hed p Hp) as [Hp' Hin]. rewrite Ee in Hp'. apply He1' in Hp' as [Hp' Hne]. split; [done|].
      intros [->|Hpe]%elem_of_cons; [done|]. destruct (Hin Hpe) as [? Hbl]. split; [done|].
      unfold lk in *. by rewrite El, (ef_locks _ _ Hf1) in Hbl.
  - assert (exists q, (d, q) ∈ edges w1) as [q0 Hq0].
    { destruct (lf_outedges w1 d) as [|q0 l] eqn:E0; [done|]. exists q0. apply outedges_elem. rewrite E0. by left. }
    destruct (IH granted w1) as (G & w' & E & Hb' & Hw' & Hwt' & Hf' & El' & Ea' & Hed); try done.
    { intros v p. rewrite Hst. intros Hp. destruct (decide (p = d)) as [->|Hne]; [by exists q0|].
      destruct (Hwt v p Hp) as [q Hq]. exists q. apply He1'. split; [done|]. congruence. }
    { intros v. rewrite Hst. apply Hlp. }
    { intros v. rewrite Hst. apply Hlv. }
    { intros Ht v. rewrite Hh. by apply Hall. }
    exists G, w'. split; [done|]. split; [done|]. split; [done|]. split; [done|].
    split; [|split; [by rewrite El', (ef_locks _ _ Hf1)|split; [intros v; by rewrite Ea', Hst|]]].
    + rewrite <- (app_nil_r G). eapply granted_frame_trans; [exact Hb | | by apply edge_frame_granted | exact Hf'].
      intros e He. rewrite <- Hp1, (gf_pending _ _ _ _ Hf'). apply elem_of_app. by left.
    + intros p Hp. destruct (Hed p Hp) as [[Hp' Hne]%He1' Hin]. split; [done|].
      intros [->|Hpe]%elem_of_cons; [done|]. destruct (Hin Hpe) as [? Hbl]. split; [done|].
      unfold lk in *. by rewrite (ef_locks _ _ Hf1) in Hbl.
Qed.

(** * Active locks that are reduced, removed or split

    Each such operation keeps the invariant and grants the locks that nothing
    blocks any more. *)

(** The invariant while the locks [granted] are to be activated: [R] are the
    other locks in hand, [K] those of them that are held. *)
Record good (S : list Z) (vp : Z) (R K granted : list Z) (w : lock_world) : Prop := Good {
  g_base : base S vp (granted ++ R) w;
  g_waits : waits vp (granted ++ K) 0 w;
  g_waiting : waiting w;
  g_sorted : sorted w;
  g_state : is_Some (lf_states w !! vp);
  g_sub k : k ∈ K -> k ∈ R;
}.

Lemma no_zero_edge S vp X w p : base S vp X w -> (p, 0) ∉ edges w.
Proof. intros Hb Hp. destruct (b_edge _ _ _ _ Hb p 0 Hp) as (_ & [x Hx] & _). destruct (b_alloc _ _ _ _ Hb 0 x Hx). lia. Qed.

Lemma active_placed S vp X w v l : base S vp X w -> l ∈ active w v ->
  exists x, locks w !! l = Some x /\ lf_vnode x = v /\ (forall v', l ∉ pending w v') /\ (v = vp -> l ∉ X) /\
    (forall v', l ∈ active w v' -> v' = v) /\ NoDup (active w v).
Proof.
  intros Hb Hl. assert (forall v', l ∈ active w v' -> l ∈ places vp X w v') as Hpl.
  { intros v' Hl'. unfold places. rewrite !elem_of_app. auto. }
  destruct (b_places _ _ _ _ Hb _ _ (Hpl v Hl)) as (x & Hx & Hv). exists x. split; [done|]. split; [done|].
  pose proof (b_nodup _ _ _ _ Hb v) as Hnd. unfold places in Hnd. apply NoDup_app in Hnd as (_ & H1 & Hnd).
  apply NoDup_app in Hnd as (Hnda & H2 & _). split; [|split; [|split; [|done]]].
  - intros v' Hp. destruct (pending_placed S vp X w v' l Hb Hp) as (y & Hy & Hv' & Hna & _).
    assert (v' = v) as -> by congruence. done.
  - intros -> HX. rewrite Z.eqb_refl in H1. apply (H1 l HX), elem_of_app. by left.
  - intros v' (y & Hy & Hv')%Hpl%(b_places _ _ _ _ Hb). congruence.
Qed.

(** [ov] covers less than it did, or is not active any more. *)
Lemma waits_shrink vp H w w1 ov :
  waits vp H 0 w -> (forall p, (p, 0) ∉ edges w) ->
  (forall k, within (lk w1 k) (lk w k)) -> (forall k, k <> ov -> lk w1 k = lk w k) ->
  (forall v x, x ∈ active w1 v -> x ∈ active w v) -> (forall v x, x ∈ active w v -> x <> ov -> x ∈ active w1 v) ->
  (forall v, pending w1 v = pending w v) -> edges w1 = edges w ->
  (forall v, ov ∈ active w v -> v = vp) -> (forall v, ov ∉ pending w v) ->
  waits vp H ov w1.
Proof.
  intros Hw H0 Hin Hne Ha Ha' Hp He Hov Hovp.
  assert (forall v x, x ∈ held vp H w1 v -> x ∈ held vp H w v) as Hh.
  { intros v x. unfold held. rewrite !elem_of_app. intros [?|?]; auto. }
  assert (forall v x, x ∈ held vp H w v -> x <> ov -> x ∈ held vp H w1 v) as Hh'.
  { intros v x. unfold held. rewrite !elem_of_app. intros [?|?]; auto. }
  assert (forall x y, blocks w1 x y = true -> blocks w x y = true) as Hb by (intros x y; by apply within_blocks).
  split.
  - intros v x Hx. unfold lock_type. destruct (Hin x) as (_ & -> & _). apply (w_type _ _ _ _ Hw v).
    rewrite elem_of_app, Hp in Hx. apply elem_of_app. destruct Hx; auto.
  - intros v x y Hx Hy. destruct (blocks w1 x y) eqn:E; [|done]. apply Hb in E. by rewrite (w_conf _ _ _ _ Hw v) in E; auto.
  - intros v x y Hx Hy Hxy. destruct (Hin x) as (-> & _). destruct (Hin y) as (-> & _). intros Eo.
    destruct (lf_overlaps (lk w1 x) (lk w1 y)) eqn:E; [|done]. apply (within_overlaps (lk w x) _ (lk w y)) in E; [|done|done].
    by rewrite (w_own _ _ _ _ Hw v) in E; auto.
  - intros p q. rewrite He. intros Hpq. destruct (w_edge _ _ _ _ Hw p q Hpq) as (v & Hpv & Hq). exists v. rewrite Hp.
    split; [done|]. destruct Hq as [[-> _]|[Hq Hbl]]; [by apply H0 in Hpq|].
    assert (p <> ov) as Hpo by (intros ->; by apply (Hovp v)).
    apply elem_of_app in Hq. destruct (decide (q = ov)) as [->|Hqo].
    + left. split; [done|]. destruct Hq as [Hq|Hq]; [|by apply Hovp in Hq]. unfold held in Hq.
      destruct (Z.eqb_spec v vp) as [|]; [done | by apply Hov].
    + right. rewrite !Hne by done. split; [|done]. apply elem_of_app. destruct Hq as [Hq|Hq]; [left; by apply Hh' | by right].
  - intros v p q. rewrite Hp, He. intros Hpv Hq%Hh Hbl%Hb. by apply (w_held _ _ _ _ Hw v).
  - intros v. rewrite Hp. eapply sorted_mono; [|apply (w_older _ _ _ _ Hw v)]. intros x y _ _ Hxy Hbl%Hb.
    rewrite He. by apply Hxy.
Qed.

Lemma update_deps_ok S vp R K lock all granted w :
  base S vp (granted ++ R) w -> waits vp (granted ++ K) lock w -> waiting w -> is_Some (lf_states w !! vp) ->
  (forall v, lock ∉ pending w v) -> (forall v, lock ∈ active w v -> v = vp) ->
  (if all : bool then forall v, lock ∉ held vp (granted ++ K) w v else lock ∈ active w vp) ->
  exists G w', lf_update_dependancies vp lock all granted w = Ok (G ++ granted, w') /\
    base S vp (G ++ granted ++ R) w' /\ waits vp (G ++ granted ++ K) 0 w' /\ waiting w' /\
    granted_frame vp G w w' /\ locks w' = locks w /\ (forall v, active w' v = active w v) /\
    (all = true -> forall p, (p, lock) ∉ edges w').
Proof.
  intros Hb Hw Hwt Hs Hlp Hlv Hall. unfold lf_update_dependancies.
  destruct (update_edges_ok S vp R K lock all (lf_inedges w lock) granted w) as
    (G & w' & E & Hb' & Hw' & Hwt' & Hf & El & Ea & Hed); try done.
  { apply NoDup_filter_fst, (b_edges _ _ _ _ Hb). }
  { intros d. apply inedges_elem. }
  { by intros ->. }
  exists G, w'. split; [done|]. split; [done|].
  assert (forall p, (p, lock) ∈ edges w' -> all = false /\ blocks w p lock = true) as Hleft.
  { intros p Hp. destruct (Hed p Hp) as [Hp' Hin]. by apply Hin, inedges_elem. }
  split; [|do 4 (split; [done|]); intros -> p Hp; by destruct (Hleft p Hp)].
  apply (waits_settle _ _ lock w' Hw'). intros p Hp. destruct (Hleft p Hp) as [-> Hbl].
  destruct (w_edge _ _ _ _ Hw' p lock Hp) as (v & Hv & Hq). exists v. split; [done|].
  destruct Hq as [[_ ->]|?]; [|done]. split.
  - unfold held. rewrite !elem_of_app, Ea. auto.
  - unfold lk in *. by rewrite El.
Qed.

(** ** The list of active locks *)

Lemma insert_lock_perm w lock l : insert_lock w lock l ≡ₚ lock :: l.
Proof.
  induction l as [|u l IH]; cbn; [done|]. destruct (_ <? _); [done|]. rewrite IH. apply Permutation_swap.
Qed.

Lemma insert_lock_ext w w' lock l : (forall k, lk w' k = lk w k) -> insert_lock w' lock l = insert_lock w lock l.
Proof. intros H. induction l as [|u l IH]; cbn; [done|]. by rewrite !H, IH. Qed.

Lemma insert_lock_sorted w lock l : StronglySorted (start_le w) l -> StronglySorted (start_le w) (insert_lock w lock l).
Proof.
  induction 1 as [|u l Hs IH Hu]; cbn; [repeat constructor|].
  destruct (Z.ltb_spec (lf_start (lk w lock)) (lf_start (lk w u))) as [Hlt|Hge].
  - constructor; [by constructor|]. rewrite Forall_forall in *. intros v [->|Hv]%elem_of_cons; unfold start_le in *; [lia|].
    specialize (Hu v Hv). lia.
  - constructor; [done|]. apply Forall_forall. intros v. rewrite insert_lock_perm, elem_of_cons.
    intros [->|Hv]; [done|]. rewrite Forall_forall in Hu. by apply Hu.
Qed.

Lemma start_le_ext w w' l : (forall x, x ∈ l -> lk w' x = lk w x) -> StronglySorted (start_le w) l -> StronglySorted (start_le w') l.
Proof. intros H. apply sorted_mono. intros x y Hx Hy. unfold start_le. by rewrite !H. Qed.

(** Only the field of one active lock changes. *)
Lemma upd_frame vp w l f : l ∈ active w vp -> granted_frame vp [] w (upd_lk l f w).
Proof.
  intros Hl. split; try done.
  - intros k Hk Hn. unfold upd_lk. cbn. rewrite lookup_alter_ne; [done|]. by intros ->.
  - intros k. by left.
  - by intros d ?%elem_of_nil.
  - by left.
Qed.

Lemma lk_within ov f w : (forall x, locks w !! ov = Some x -> within (f x) x) -> forall k, within (lk (upd_lk ov f w) k) (lk w k).
Proof.
  intros Hf k. rewrite lk_upd. destruct (decide (k = ov)) as [->|]; [|apply within_refl].
  unfold lk. destruct (locks w !! ov) eqn:E; [by apply Hf | apply within_refl].
Qed.

Lemma set_end_ok S vp R K ov n granted w :
  good S vp R K granted w -> ov ∈ active w vp -> lf_start (lk w ov) <= n <= lf_end (lk w ov) ->
  exists G w', lf_set_end vp ov n granted w = Ok (G ++ granted, w') /\ good S vp R K (G ++ granted) w' /\
    granted_frame vp G w w' /\ (forall v, active w' v = active w v) /\ locks w' = locks (upd_lk ov (set_lf_end n) w).
Proof.
  intros [Hb Hw Hwt Hs Hst Hsub] Hov Hn. unfold lf_set_end. rewrite require_true, bind_Ok by (apply Z.leb_le; lia).
  destruct (active_placed S vp _ w vp ov Hb Hov) as (x & Hx & _ & Hovp & HovX & Hov1 & _).
  rewrite (lk_Some w ov x Hx) in Hn. set (w1 := upd_lk ov (set_lf_end n) w).
  destruct (b_alloc _ _ _ _ Hb ov x Hx) as (_ & _ & Hrg & _).
  destruct (update_deps_ok S vp R K ov false granted w1) as (G & w' & E & Hb' & Hw' & Hwt' & Hf & El & Ea & _); try done.
  { apply base_upd; [done|]. intros y Hy. simplify_eq. cbn. unfold in_range in *. cbn. split_and!; try done; lia. }
  { apply (waits_shrink vp (granted ++ K) w w1 ov Hw); try done.
    - intros p. by eapply no_zero_edge.
    - apply lk_within. intros y Hy. simplify_eq. unfold within. cbn. lia.
    - intros k Hk. by apply lk_upd_ne. }
  exists G, w'. split; [done|]. split; [|split; [|done]].
  - split; try done; rewrite <- ?app_assoc; try done.
    + intros v. rewrite Ea. change (active w1 v) with (active w v). eapply sorted_mono; [|apply Hs].
      assert (forall k, lf_start (lk w' k) = lf_start (lk w k)) as Hst'.
      { intros k. unfold lk at 1. rewrite El. fold (lk w1 k). unfold w1. rewrite lk_upd. destruct (decide (k = ov)) as [->|]; [|done].
        by rewrite Hx, (lk_Some w ov x Hx). }
      intros a b _ _. unfold start_le. by rewrite !Hst'.
    + by apply (gf_states _ _ _ _ Hf).
  - rewrite <- (app_nil_r G). eapply granted_frame_trans; [exact Hb | | by apply upd_frame | exact Hf].
    intros d Hd. change (pending w vp) with (pending w1 vp). rewrite (gf_pending _ _ _ _ Hf). apply elem_of_app. by left.
Qed.

Lemma active_change_frame S vp X w w' l :
  base S vp X w -> is_Some (lf_states w !! vp) ->
  locks w' = locks w -> w' = set_active vp l w -> (forall k, k ∈ l -> k ∈ active w vp) ->
  granted_frame vp [] w w'.
Proof.
  intros Hb Hs El -> Hl. assert (forall v, st (set_active vp l w) v = if decide (v = vp) then LockState l (pending w vp) (ls_threads (st w vp)) else st w v) as Hst.
  { intros v. unfold set_active. by rewrite st_upd. }
  split; try done.
  - intros v Hv. by rewrite Hst, decide_False.
  - by rewrite Hst, decide_True by done.
  - by rewrite Hst, decide_True by done.
  - intros v. apply upd_st_states.
  - intros k. rewrite Hst, decide_True by done. intros Hk. left. by apply Hl.
  - by intros d ?%elem_of_nil.
  - by left.
Qed.

(** A reduced lock put back at its place. *)
Lemma reinsert_ok vp ov w : is_Some (lf_states w !! vp) -> ov ∈ active w vp ->
  let w' := lf_insert_lock vp ov (remove_active vp ov w) in
  active w' vp = insert_lock w ov (list_remove ov (active w vp)) /\ active w' vp ≡ₚ active w vp /\
  (forall v, v <> vp -> active w' v = active w v) /\ (forall v, pending w' v = pending w v) /\
  (forall v, is_Some (lf_states w' !! v) <-> is_Some (lf_states w !! v)) /\
  (forall v, v <> vp -> st w' v = st w v) /\ ls_threads (st w' vp) = ls_threads (st w vp).
Proof.
  intros Hs Hov w'. set (w1 := remove_active vp ov w) in *.
  assert (is_Some (lf_states w1 !! vp)) as Hs1 by (by apply upd_st_states).
  destruct (active_set vp (list_remove ov (active w vp)) w vp Hs) as [Ha1 Hp1]. fold w1 in Ha1, Hp1. change (set_active vp (list_remove ov (active w vp)) w) with w1 in *.
  rewrite decide_True in Ha1 by done.
  assert (active w' vp = insert_lock w ov (list_remove ov (active w vp))) as Ea.
  { unfold w', lf_insert_lock. destruct (active_set vp (insert_lock w1 ov (active w1 vp)) w1 vp Hs1) as [-> _].
    rewrite decide_True by done. rewrite Ha1. by apply insert_lock_ext. }
  assert (forall v, v <> vp -> st w' v = st w v) as Hne.
  { intros v Hv. unfold w', lf_insert_lock, set_active. rewrite st_upd, decide_False by done.
    unfold w1, remove_active, set_active. by rewrite st_upd, decide_False. }
  split; [done|]. split; [rewrite Ea, insert_lock_perm; symmetry; by apply list_remove_perm|].
  split; [intros v Hv; by rewrite Hne|]. split.
  { intros v. destruct (decide (v = vp)) as [->|Hv]; [|by rewrite Hne]. unfold w', lf_insert_lock.
    destruct (active_set vp (insert_lock w1 ov (active w1 vp)) w1 vp Hs1) as [_ ->]. done. }
  split; [|split; [done|]].
  - intros v. unfold w', lf_insert_lock, set_active. rewrite upd_st_states. apply upd_st_states.
  - unfold w', lf_insert_lock, set_active. rewrite st_upd, decide_True by done. cbn.
    unfold w1, remove_active, set_active. by rewrite st_upd, decide_True.
Qed.

Lemma set_start_ok S vp R K ov n granted w :
  good S vp R K granted w -> ov ∈ active w vp -> lf_start (lk w ov) <= n <= lf_end (lk w ov) ->
  exists G w', lf_set_start vp ov n granted w = Ok (G ++ granted, w') /\ good S vp R K (G ++ granted) w' /\
    granted_frame vp G w w' /\ active w' vp ≡ₚ active w vp /\ locks w' = locks (upd_lk ov (set_lf_start n) w).
Proof.
  intros [Hb Hw Hwt Hs Hst Hsub] Hov Hn. unfold lf_set_start. rewrite require_true, bind_Ok by (apply Z.leb_le; lia).
  destruct (active_placed S vp _ w vp ov Hb Hov) as (x & Hx & _ & Hovp & HovX & Hov1 & Hnda).
  rewrite (lk_Some w ov x Hx) in Hn. set (w1 := upd_lk ov (set_lf_start n) w).
  destruct (b_alloc _ _ _ _ Hb ov x Hx) as (_ & _ & Hrg & _).
  assert (base S vp (granted ++ R) w1) as Hb1.
  { apply base_upd; [done|]. intros y Hy. simplify_eq. cbn. unfold in_range in *. cbn. split_and!; try done; lia. }
  destruct (reinsert_ok vp ov w1 Hst Hov) as (Ea2 & Hperm & Hane & Hp2 & Hst2 & Hne2 & Hth2).
  set (w2 := lf_insert_lock vp ov (remove_active vp ov w1)) in *.
  assert (forall k, k <> ov -> lk w2 k = lk w k) as Hlk by (intros k Hk; by apply (lk_upd_ne ov (set_lf_start n) w)).
  assert (forall v x, x ∈ active w2 v <-> x ∈ active w v) as Hact.
  { intros v y. destruct (decide (v = vp)) as [->|Hv]; [by rewrite Hperm | by rewrite Hane]. }
  destruct (update_deps_ok S vp R K ov false granted w2) as (G & w' & E & Hb' & Hw' & Hwt' & Hf & El & Ea & _); try done.
  { apply (base_lists S vp vp (granted ++ R) (granted ++ R) w1); try done. intros v. unfold places. rewrite Hp2.
    destruct (decide (v = vp)) as [->|Hv]; [by rewrite Hperm | by rewrite Hane]. }
  { apply (waits_shrink vp (granted ++ K) w w2 ov Hw); try done.
    - intros p. by eapply no_zero_edge.
    - apply (lk_within ov (set_lf_start n) w). intros y Hy. simplify_eq. unfold within. cbn. lia.
    - intros v y. apply Hact.
    - intros v y Hy _. by apply Hact. }
  { intros v p. rewrite Hp2. apply Hwt. }
  { by apply Hst2. }
  { intros v. rewrite Hp2. apply Hovp. }
  { intros v. rewrite Hact. apply Hov1. }
  { by apply Hact. }
  assert (forall k, lk w' k = lk w2 k) as Hlk' by (intros k; unfold lk; by rewrite El).
  exists G, w'. split; [done|]. split; [|split; [|split; [by rewrite Ea, Hperm | done]]].
  - split; try done; rewrite <- ?app_assoc; try done.
    + intros v. rewrite Ea. destruct (decide (v = vp)) as [->|Hv].
      * apply (start_le_ext w2); [intros; apply Hlk'|]. rewrite Ea2.
        rewrite <- (insert_lock_ext w1 w2) by done. apply insert_lock_sorted. apply (start_le_ext w).
        { intros y [_ Hy]%list_remove_elem; [by apply Hlk | done]. }
        apply remove_sorted, Hs.
      * rewrite Hane by done. apply (start_le_ext w); [|apply Hs]. intros y Hy. rewrite Hlk'. apply Hlk.
        intros ->. by apply Hv, Hov1.
    + by apply (gf_states _ _ _ _ Hf), Hst2.
  - rewrite <- (app_nil_r G). eapply granted_frame_trans; [exact Hb | | | exact Hf].
    { intros d Hd. change (pending w vp) with (pending w1 vp). rewrite <- Hp2, (gf_pending _ _ _ _ Hf). apply elem_of_app. by left. }
    split; try done.
    + by rewrite Hp2.
    + intros k Hk Hkn. change (locks w2) with (locks w1). unfold w1, upd_lk. cbn. rewrite lookup_alter_ne; [done|]. by intros ->.
    + intros k. rewrite Hact. by left.
    + by intros d ?%elem_of_nil.
    + by left.
Qed.

Lemma base_perm S vp X X' w : X ≡ₚ X' -> base S vp X w -> base S vp X' w.
Proof.
  intros HX Hb. apply (base_lists S vp vp X X' w w Hb); try done. intros v. unfold places.
  destruct (v =? vp); [by rewrite HX | done].
Qed.

Lemma free_frame_lk l freed w w' k : free_frame l freed w w' -> k <> l -> lk w' k = lk w k.
Proof. intros Hf Hk. unfold lk. by rewrite (ff_locks _ _ _ _ Hf). Qed.

(** The waiting relation sees only the locks on the lists. *)
Lemma waits_ext vp H ex w w' : waits vp H 0 w ->
  (forall v, st w' v = st w v) -> edges w' = edges w ->
  (forall v x, x ∈ held vp H w v -> lk w' x = lk w x) -> (forall v x, x ∈ pending w v -> lk w' x = lk w x) ->
  (forall p, (p, 0) ∉ edges w) -> waits vp H ex w'.
Proof.
  intros Hw Hst He Hlh Hlp H0.
  assert (forall v, held vp H w' v = held vp H w v) as Hh' by (intros v; unfold held; by rewrite Hst).
  split.
  - intros v x. rewrite Hh', Hst. intros Hx. assert (lk w' x = lk w x) as ->; [|by apply (w_type _ _ _ _ Hw v)].
    apply elem_of_app in Hx as [Hx|Hx]; [by apply (Hlh v) | by apply (Hlp v)].
  - intros v x y. rewrite !Hh'. intros Hx Hy. rewrite !(Hlh v) by done. by apply (w_conf _ _ _ _ Hw v).
  - intros v x y. rewrite !Hst. intros Hx Hy. assert (forall z, z ∈ active w v -> z ∈ held vp H w v) as Ha.
    { intros z Hz. unfold held. apply elem_of_app. by right. }
    rewrite !(Hlh v) by auto. by apply (w_own _ _ _ _ Hw v).
  - intros p q. rewrite He. intros Hpq. destruct (w_edge _ _ _ _ Hw p q Hpq) as (v & Hpv & Hq).
    exists v. rewrite Hst, Hh'. split; [done|]. destruct Hq as [[-> _]|[Hq Hbl]]; [by apply H0 in Hpq|]. right.
    split; [done|]. rewrite (Hlp v p) by done. apply elem_of_app in Hq as [Hq|Hq].
    + by rewrite (Hlh v q).
    + by rewrite (Hlp v q).
  - intros v p q. rewrite Hst, Hh', He. intros Hpv Hq. rewrite (Hlp v p), (Hlh v q) by done.
    by apply (w_held _ _ _ _ Hw v).
  - intros v. rewrite Hst, He. eapply sorted_mono; [|apply (w_older _ _ _ _ Hw v)].
    intros x y Hx Hy. by rewrite !(Hlp v).
Qed.

Lemma waits_free vp H w w' l freed : waits vp H 0 w -> free_frame l freed w w' ->
  (forall v, l ∉ held vp H w v) -> (forall v, l ∉ pending w v) -> (forall p, (p, 0) ∉ edges w) -> waits vp H 0 w'.
Proof.
  intros Hw Hf Hh Hp H0. apply (waits_ext vp H 0 w); try done.
  - intros v. unfold st. by rewrite (ff_states _ _ _ _ Hf).
  - apply Hf.
  - intros v x Hx. eapply free_frame_lk; [done|]. intros ->. by apply (Hh v).
  - intros v x Hx. eapply free_frame_lk; [done|]. intros ->. by apply (Hp v).
Qed.

Lemma free_granted_frame vp w w' l freed : free_frame l freed w w' -> l ∈ active w vp -> granted_frame vp [] w w'.
Proof.
  intros Hf Hl. assert (forall v, st w' v = st w v) as Hst by (intros v; unfold st; by rewrite (ff_states _ _ _ _ Hf)).
  split.
  - intros v _. apply Hst.
  - by rewrite Hst.
  - by rewrite Hst.
  - intros v. by rewrite (ff_states _ _ _ _ Hf).
  - intros k Hk Hn. apply (ff_locks _ _ _ _ Hf). by intros ->.
  - intros k. rewrite Hst. by left.
  - apply Hf.
  - apply Hf.
  - rewrite (ff_next _ _ _ _ Hf). lia.
  - intros x. by rewrite (ff_woken _ _ _ _ Hf).
  - by intros d ?%elem_of_nil.
  - intros x. rewrite (ff_woken _ _ _ _ Hf). by left.
Qed.

Lemma drop_ok S vp R K ov granted w :
  good S vp R K granted w -> ov ∈ active w vp ->
  exists G w', drop_overlap vp ov granted w = Ok (G ++ granted, w') /\ good S vp R K (G ++ granted) w' /\
    granted_frame vp G w w' /\ active w' vp = list_remove ov (active w vp) /\
    forall k, k <> ov -> locks w' !! k = locks w !! k.
Proof.
  intros [Hb Hw Hwt Hs Hst Hsub] Hov. unfold drop_overlap. set (w1 := remove_active vp ov w).
  destruct (active_placed S vp _ w vp ov Hb Hov) as (x & Hx & _ & Hovp & HovX & Hov1 & Hnda).
  assert (forall v, active w1 v = (if decide (v = vp) then list_remove ov (active w v) else active w v) /\ pending w1 v = pending w v) as Hl1.
  { intros v. unfold w1, remove_active. destruct (active_set vp (list_remove ov (active w vp)) w v Hst) as [-> ->].
    by destruct (decide (v = vp)) as [->|]. }
  assert (base S vp (ov :: granted ++ R) w1) as Hb1.
  { apply (base_lists S vp vp (granted ++ R) _ w); try done. intros v. unfold places. destruct (Hl1 v) as [-> ->].
    destruct (decide (v = vp)) as [->|Hv]; [|by rewrite (proj2 (Z.eqb_neq v vp))].
    rewrite Z.eqb_refl. rewrite (list_remove_perm ov (active w vp) Hov) at 2. cbn. by rewrite Permutation_middle. }
  assert (forall v y, y ∈ active w1 v <-> y ∈ active w v /\ y <> ov) as Hact.
  { intros v y. destruct (Hl1 v) as [-> _]. destruct (decide (v = vp)) as [->|Hv]; [by rewrite list_remove_elem|].
    split; [|by intros []]. intros Hy. split; [done|]. intros ->. by apply Hv, Hov1. }
  destruct (update_deps_ok S vp (ov :: R) K ov true granted w1) as (G & w2 & E & Hb2 & Hw2 & Hwt2 & Hf2 & El2 & Ea2 & Hno); try done.
  { eapply base_perm; [|exact Hb1]. by rewrite Permutation_middle. }
  { apply (waits_shrink vp (granted ++ K) w w1 ov Hw); try done.
    - intros p. by eapply no_zero_edge.
    - intros v y Hy. by apply Hact.
    - intros v y Hy Hne. by apply Hact.
    - intros v. by destruct (Hl1 v). }
  { intros v p. destruct (Hl1 v) as [_ ->]. apply Hwt. }
  { by apply upd_st_states. }
  { intros v. destruct (Hl1 v) as [_ ->]. apply Hovp. }
  { intros v [Hv _]%Hact. by apply Hov1. }
  { intros v. unfold held. rewrite elem_of_app, Hact. intros [Hv|[_ ?]]; [|done]. destruct (Z.eqb_spec v vp); [|by apply elem_of_nil in Hv].
    apply (HovX eq_refl). apply elem_of_app in Hv as [Hv|Hv%Hsub]; apply elem_of_app; auto. }
  rewrite E, bind_Ok. assert (base S vp (ov :: G ++ granted ++ R) w2) as Hb2'.
  { eapply base_perm; [|exact Hb2]. rewrite !app_assoc. by rewrite Permutation_middle. }
  assert (forall q, (ov, q) ∉ edges w2) as Hno'.
  { intros q Hq. destruct (w_edge _ _ _ _ Hw2 _ _ Hq) as (v & Hv & _).
    by eapply st_owner_not_pending in Hv; [|exact Hb2'|right; left]. }
  destruct (free_base S vp _ S (G ++ granted ++ R) ov w2 Hb2') as (freed & w3 & E3 & Hb3 & Hf3 & _).
  { by left. }
  { intros y _ _. split; [done|]. by apply Hno. }
  rewrite E3, bind_Ok. exists G, w3. split; [done|].
  assert (forall v, st w3 v = st w2 v) as Hst3 by (intros v; unfold st; by rewrite (ff_states _ _ _ _ Hf3)).
  assert (forall v, ov ∉ active w2 v) as Hna by (intros v; rewrite Ea2; by intros [_ ?]%Hact).
  split; [|split; [|split]].
  - split.
    + by rewrite <- app_assoc.
    + rewrite <- app_assoc. apply (waits_free _ _ w2 w3 ov freed); try done.
      * intros v. unfold held. rewrite elem_of_app. intros [Hv|Hv]; [|by apply Hna in Hv].
        destruct (v =? vp); [|by apply elem_of_nil in Hv]. pose proof (b_nodup _ _ _ _ Hb2' vp) as Hnd.
        unfold places in Hnd. rewrite Z.eqb_refl in Hnd. apply NoDup_app in Hnd as (Hnd & _).
        apply NoDup_cons in Hnd as [Hnd _]. apply Hnd. rewrite !elem_of_app in *.
        destruct Hv as [?|[?|?%Hsub]]; auto.
      * intros v. by eapply st_owner_not_pending; [exact Hb2'|right; left].
      * intros p. by eapply no_zero_edge.
    + intros v p. rewrite Hst3, (ff_edges _ _ _ _ Hf3). apply Hwt2.
    + intros v. rewrite Hst3. apply (start_le_ext w2).
      { intros y Hy. eapply free_frame_lk; [done|]. intros ->. by apply (Hna v). }
      rewrite Ea2. apply (start_le_ext w); [intros; unfold lk; by rewrite El2|]. destruct (Hl1 v) as [-> _].
      destruct (decide _); [apply remove_sorted|]; apply Hs.
    + rewrite (ff_states _ _ _ _ Hf3). by apply (gf_states _ _ _ _ Hf2), upd_st_states.
    + done.
  - assert (granted_frame vp [] w w1) as Hf1.
    { eapply active_change_frame; try done. intros k Hk. by apply (remove_sub ov). }
    assert (forall d, d ∈ G -> d ∈ pending w vp) as HG.
    { intros d Hd. destruct (Hl1 vp) as [_ <-]. rewrite (gf_pending _ _ _ _ Hf2). apply elem_of_app. by left. }
    assert (granted_frame vp G w w2) as [H1 H2 H3 H4 H5 H6 H7 H8 H9 H10 H11 H12].
    { rewrite <- (app_nil_r G). by eapply granted_frame_trans. }
    split; rewrite ?(ff_doomed _ _ _ _ Hf3), ?(ff_lock_states _ _ _ _ Hf3), ?(ff_next _ _ _ _ Hf3); try done.
    + intros v Hv. rewrite Hst3. by apply H1.
    + by rewrite Hst3.
    + by rewrite Hst3.
    + intros v. rewrite (ff_states _ _ _ _ Hf3). apply H4.
    + intros k Hk Hn. rewrite (ff_locks _ _ _ _ Hf3); [by apply H5|]. by intros ->.
    + intros k. rewrite Hst3. apply H6.
    + intros y. rewrite (ff_woken _ _ _ _ Hf3). apply H10.
    + intros d Hd. rewrite (ff_woken _ _ _ _ Hf3). by apply H11.
    + intros y. rewrite (ff_woken _ _ _ _ Hf3). apply H12.
  - rewrite Hst3, Ea2. destruct (Hl1 vp) as [-> _]. by rewrite decide_True by done.
  - intros k Hk. rewrite (ff_locks _ _ _ _ Hf3) by done. by rewrite El2.
Qed.
