(* ===== verification/LockfSplit.v ===== *)
(** * Activating a lock

    A lock about to be held gets an edge from each pending lock that it
    blocks. The locks that its owner has on its bytes are shortened, split or
    dropped, and what that unblocks is activated in turn; [lock_at] is the map
    from owners and bytes to types that results. *)

From stdpp Require Import gmap relations sorting.
From S2P Require Import Prelude LfGraph LfGraphInv LfGraphEdge LfGraphOps Lockf LockfMem LockfWait.

Lemma waits_edge_more vp H ex w w1 p : waits vp H ex w -> edge_frame w w1 -> edges w1 = (p, ex) :: edges w ->
  p ∈ pending w vp -> waits vp H ex w1.
Proof.
  intros Hw Hf He Hp.
  assert (forall v, st w1 v = st w v) as Hst by (intros; by apply ef_st).
  assert (forall k, lk w1 k = lk w k) as Hlk by (intros; by apply ef_lk).
  assert (forall v, held vp H w1 v = held vp H w v) as Hh by (intros; unfold held; by rewrite Hst).
  assert (forall e, e ∈ edges w -> e ∈ edges w1) as Hin by (intros e ?; rewrite He; by right).
  split.
  - intros v x. rewrite Hh, Hst, Hlk. apply Hw.
  - intros v x y. rewrite !Hh, !Hlk. apply Hw.
  - intros v x y. rewrite !Hst, !Hlk. apply Hw.
  - intros a b. rewrite He. intros [?|Hab]%elem_of_cons.
    + simplify_eq. exists vp. rewrite Hst. auto.
    + destruct (w_edge _ _ _ _ Hw a b Hab) as (v & ?). exists v. by rewrite Hh, Hst, !Hlk.
  - intros v a b. rewrite Hh, Hst, !Hlk. intros Ha Hb Hbl. by apply Hin, (w_held _ _ _ _ Hw v).
  - intros v. rewrite Hst. eapply sorted_mono; [|apply (w_older _ _ _ _ Hw v)]. intros a b Ha Hb Hab.
    rewrite !Hlk. intros Hbl. by apply Hin, Hab.
Qed.

Lemma waits_edge_less vp H ex w w1 p : waits vp H ex w -> edge_frame w w1 -> edges w1 = remove_pair p ex (edges w) ->
  NoDup (edges w) -> (forall v, ex ∉ held vp H w v) -> (forall v, ex ∉ pending w v) -> waits vp H ex w1.
Proof. intros Hw Hf He Hnd Hh Hp. apply (waits_remove vp H ex w Hw w1 p ex); try done. intros v Hv. by apply Hh in Hv. Qed.

(** All edges to [lock] are taken away. *)
Lemma remove_edges_to_ok S vp X H lock es : forall w,
  base S vp X w -> waits vp H lock w -> NoDup es -> (forall p, p ∈ es <-> (p, lock) ∈ edges w) ->
  (forall v, lock ∉ held vp H w v) -> (forall v, lock ∉ pending w v) ->
  exists w', remove_edges_to lock es w = Ok w' /\ base S vp X w' /\ waits vp H lock w' /\ edge_frame w w' /\
    forall e, e ∈ edges w' <-> e ∈ edges w /\ snd e <> lock.
Proof.
  induction es as [|p es IH]; intros w Hb Hw Hnd Hes Hh Hp; cbn [remove_edges_to].
  { exists w. split; [done|]. split; [done|]. split; [done|]. split; [apply edge_frame_refl|]. intros [a b]. cbn.
    split; [|by intros []]. intros He. split; [done|]. intros ->. apply Hes in He. by apply elem_of_nil in He. }
  apply NoDup_cons in Hnd as [Hpe Hnd]. assert ((p, lock) ∈ edges w) as Hpl by (apply Hes; by left).
  destruct (remove_edge_base S vp X w p lock Hb Hpl) as (w1 & -> & Hb1 & Hf1 & He1). rewrite bind_Ok.
  assert (forall e, e ∈ edges w1 <-> e ∈ edges w /\ e <> (p, lock)) as He1' by (intros; rewrite He1; apply remove_pair_elem, Hb).
  assert (forall v, st w1 v = st w v) as Hst by (intros; by apply ef_st).
  destruct (IH w1) as (w' & E & Hb' & Hw' & Hf' & He'); try done.
  - apply (waits_edge_less vp H lock w w1 p); try done. apply Hb.
  - intros a. rewrite He1', <- Hes, elem_of_cons. split.
    + intros Ha. split; [by right|]. intros [= ->]. done.
    + intros [[->|?] Hne]; [done|done].
  - intros v. unfold held. rewrite Hst. apply Hh.
  - intros v. rewrite Hst. apply Hp.
  - exists w'. split; [done|]. split; [done|]. split; [done|]. split; [by eapply edge_frame_trans|].
    intros e. rewrite He', He1'. split; [by intros [[]]|]. intros [? Hn]. split; [|done]. split; [done|].
    intros ->. done.
Qed.

Lemma path_cut w w' o : (forall a b, waits_for w' a b -> waits_for w a b \/ a = o) ->
  forall a, rtc (waits_for w') a o -> rtc (waits_for w) a o.
Proof.
  intros H a. induction 1 as [x|x y z Hxy _ IH]; [constructor|].
  destruct (H x y Hxy) as [?| ->]; [by eapply rtc_l; [|apply IH] | constructor].
Qed.

Lemma path_cut_from w w' o : (forall a b, waits_for w' a b -> waits_for w a b \/ b = o) ->
  forall a, rtc (waits_for w') o a -> rtc (waits_for w) o a.
Proof.
  intros H. apply (rtc_ind_r (fun a => rtc (waits_for w) o a)); [constructor|]. intros x y _ Hxy IH.
  destruct (H x y Hxy) as [?| ->]; [by eapply rtc_r | constructor].
Qed.

(** The loop of [lf_add_incoming]. *)
Lemma add_incoming_ok S vp X H lock l : forall w,
  base S vp X w -> waits vp H lock w -> waiting w -> is_Some (locks w !! lock) ->
  (forall v, lock ∉ held vp H w v) -> (forall v, lock ∉ pending w v) ->
  NoDup l -> (forall p, p ∈ l -> p ∈ pending w vp /\ (p, lock) ∉ edges w) ->
  exists err w', add_incoming l lock w = Ok (err, w') /\ base S vp X w' /\ edge_frame w w' /\ waits vp H lock w' /\
    ((err = 0 /\ (forall e, e ∈ edges w' <-> e ∈ edges w \/ exists p, p ∈ l /\ e = (p, lock) /\ blocks w p lock = true) /\
      forall p, p ∈ l -> blocks w p lock = true -> ~ rtc (waits_for w) (lf_owner (lk w lock)) (lf_owner (lk w p))) \/
     (err = EDEADLK /\ (forall e, e ∈ edges w' <-> e ∈ edges w /\ snd e <> lock) /\
      exists p, p ∈ l /\ blocks w p lock = true /\ rtc (waits_for w) (lf_owner (lk w lock)) (lf_owner (lk w p)))).
Proof.
  induction l as [|p l IH]; intros w Hb Hw Hwt Hl Hh Hp Hnd Hes; cbn [add_incoming].
  { exists 0, w. split; [done|]. split; [done|]. split; [apply edge_frame_refl|]. split; [done|]. left. split; [done|].
    split; [|by intros p []%elem_of_nil]. intros e. split; [by left|]. intros [?|(p & ?%elem_of_nil & _)]; done. }
  apply NoDup_cons in Hnd as [Hpl Hnd]. destruct (Hes p ltac:(by left)) as [Hpp Hpe].
  destruct (blocks w lock p) eqn:Eb; cbn [negb]; rewrite blocks_sym in Eb.
  2: { destruct (IH w) as (err & w' & E & Hb' & Hf' & Hw' & Hr); try done.
    { intros q Hq. apply Hes. by right. }
    exists err, w'. do 4 (split; [done|]). destruct Hr as [(-> & Hr & Hno)|(-> & Hr & q & Hq & Hbl & Hn)].
    - left. split; [done|]. split; [|by intros q [->|Hq]%elem_of_cons; [congruence | by apply Hno]]. intros e. rewrite Hr. split; (intros [?|(q & Hq & -> & ?)]; [by left | right; exists q]).
      + split; [by right | done].
      + apply elem_of_cons in Hq as [->|Hq]; [congruence | done].
    - right. split; [done|]. split; [done|]. exists q. split; [by right | done]. }
  destruct (pending_placed S vp X w vp p Hb Hpp) as (x & Hx & _).
  destruct (add_edge_base S vp X w p lock Hb (mk_is_Some _ _ Hx) Hl (blocks_owner _ _ Eb) Hpe) as (err & w1 & -> & Hb1 & Hf1 & Hr1).
  rewrite bind_Ok. assert (forall v, st w1 v = st w v) as Hst by (intros; by apply ef_st).
  assert (forall k, lk w1 k = lk w k) as Hlk by (intros; by apply ef_lk).
  assert (forall v, lock ∉ held vp H w1 v) as Hh1 by (intros v; unfold held; rewrite Hst; apply Hh).
  assert (forall v, lock ∉ pending w1 v) as Hp1 by (intros v; rewrite Hst; apply Hp).
  destruct Hr1 as [(-> & He1 & Hpath)|(-> & He1 & Hpath)]; cbn [negb].
  - unfold EDEADLK at 1. cbn [Z.eqb negb].
    assert (waits vp H lock w1) as Hw1.
    { destruct Hw as [H1 H2 H3 H4 H5 H6]. split.
      - intros v y. unfold held. rewrite Hst, Hlk. apply H1.
      - intros v y z. unfold held. rewrite Hst, !Hlk. apply H2.
      - intros v y z. rewrite Hst, !Hlk. apply H3.
      - intros y z. rewrite He1. intros Hyz. destruct (H4 y z Hyz) as (v & ?). exists v. unfold held. by rewrite Hst, !Hlk.
      - intros v y z. unfold held. rewrite Hst, He1, !Hlk. apply H5.
      - intros v. rewrite Hst, He1. eapply sorted_mono; [|apply H6]. intros y z _ _. by rewrite !Hlk. }
    unfold lf_remove_incoming.
    destruct (remove_edges_to_ok S vp X H lock (lf_inedges w1 lock) w1) as (w' & E & Hb' & Hw' & Hf' & He'); try done.
    { apply NoDup_filter_fst, Hb1. }
    { intros q. apply inedges_elem. }
    rewrite E, bind_Ok. exists EDEADLK, w'. split; [done|]. split; [done|]. split; [by eapply edge_frame_trans|]. split; [done|].
    right. split; [done|]. split; [intros e; by rewrite He', He1|]. exists p. split; [by left | done].
  - assert (forall a b, waits_for w1 a b -> waits_for w a b \/ b = lf_owner (lk w lock)) as Hcut.
    { intros a b (q & r & Hqr & <- & <-). rewrite He1 in Hqr. rewrite !Hlk. apply elem_of_cons in Hqr as [[= -> ->]|Hqr]; [by right|].
      left. by exists q, r. }
    assert (forall a b, rtc (waits_for w) a b -> rtc (waits_for w1) a b) as Hmono.
    { intros a b. apply rtc_subrel. intros c d (q & r & Hqr & <- & <-). exists q, r. rewrite He1, !Hlk. split; [by right | done]. }
    destruct (IH w1) as (err & w' & E & Hb' & Hf' & Hw' & Hr); try done.
    { by apply (waits_edge_more vp H lock w w1 p). }
    { intros v q. rewrite Hst, He1. intros Hq. destruct (Hwt v q Hq) as [r ?]. exists r. by right. }
    { by rewrite (ef_locks _ _ Hf1). }
    { intros q Hq. destruct (Hes q ltac:(by right)) as [Hqp Hqe]. rewrite Hst, He1. split; [done|].
      intros [?|?]%elem_of_cons; [|done]. by simplify_eq. }
    exists err, w'. split; [done|]. split; [done|]. split; [by eapply edge_frame_trans|]. split; [done|].
    destruct Hr as [(-> & Hr & Hno)|(-> & Hr & q & Hq & Hbl & Hn)].
    + left. split; [done|]. split.
      2: { intros q [->|Hq]%elem_of_cons Hbl; [done|]. intros Hr'%Hmono. apply (Hno q Hq); rewrite !Hlk; done. }
      intros e. rewrite Hr, He1, elem_of_cons. split.
      * intros [[->|?]|(q & Hq & -> & Hbl)]; [right; exists p; split; [by left | done] | by left|].
        right. exists q. rewrite !Hlk in Hbl. split; [by right | done].
      * intros [?|(q & Hq & -> & Hbl)]; [by left; right|]. apply elem_of_cons in Hq as [->|Hq]; [by left; left|].
        right. exists q. by rewrite !Hlk.
    + right. split; [done|]. split.
      * intros e. rewrite Hr, He1, elem_of_cons. split; [intros [[->|?] ?]; done | intros []; auto].
      * exists q. rewrite !Hlk in *. split; [by right|]. split; [done|]. by apply (path_cut_from w w1).
Qed.

(** ** A lock that joins the held ones *)

(** The lock has an edge from each pending lock that it blocks. *)
Lemma waits_hold vp H l w :
  waits vp H l w -> lock_type (lk w l) ->
  (forall p, (p, l) ∈ edges w <-> p ∈ pending w vp /\ blocks w p l = true) ->
  (forall y, y ∈ held vp H w vp -> blocks w l y = false) ->
  waits vp (l :: H) 0 w.
Proof.
  intros Hw Ht He Hc.
  assert (forall v y, y ∈ held vp (l :: H) w v <-> y ∈ held vp H w v \/ (v = vp /\ y = l)) as Hh.
  { intros v y. unfold held. destruct (Z.eqb_spec v vp) as [->|]; rewrite ?elem_of_app, ?elem_of_cons; intuition. }
  split; try apply Hw.
  - intros v y. rewrite elem_of_app, Hh. intros [[?|[-> ->]]|?]; [|done|].
    + apply (w_type _ _ _ _ Hw v), elem_of_app. by left.
    + apply (w_type _ _ _ _ Hw v), elem_of_app. by right.
  - intros v x y. rewrite !Hh. intros [Hx|[-> ->]] [Hy|[E ->]].
    + by apply (w_conf _ _ _ _ Hw v).
    + subst v. rewrite blocks_sym. by apply Hc.
    + by apply Hc.
    + by apply blocks_same_owner.
  - intros p q Hpq. destruct (decide (q = l)) as [->|Hne].
    + apply He in Hpq as [Hp Hbl]. exists vp. split; [done|]. right. split; [|done]. apply elem_of_app. left. apply Hh. by right.
    + destruct (w_edge _ _ _ _ Hw p q Hpq) as (v & Hp & [[? _]|[Hq Hbl]]); [done|]. exists v. split; [done|]. right.
      split; [|done]. rewrite elem_of_app, Hh in *. intuition.
  - intros v p q. rewrite Hh. intros Hp [Hq|[-> ->]] Hbl; [by apply (w_held _ _ _ _ Hw v)|]. by apply He.
Qed.

(** What an activation leaves alone: [A] are the locks that became active. *)
Record act_frame (vp : Z) (A G : list Z) (w w' : lock_world) : Prop := ActFrame {
  af_other v : v <> vp -> st w' v = st w v;
  af_pending : pending w vp ≡ₚ G ++ pending w' vp;
  af_threads : ls_threads (st w' vp) = ls_threads (st w vp);
  af_states v : is_Some (lf_states w' !! v) <-> is_Some (lf_states w !! v);
  af_locks k : is_Some (locks w !! k) -> k ∉ active w vp -> k ∉ A -> locks w' !! k = locks w !! k;
  af_active k : k ∈ active w' vp -> k ∈ active w vp \/ k ∈ A \/ locks w !! k = None;
  af_doomed : doomed w' = doomed w;
  af_lock_states : lf_lock_states w' = lf_lock_states w;
  af_next : next_addr w <= next_addr w';
  af_woken x : x ∈ woken w -> x ∈ woken w';
  af_wakes d : d ∈ G -> lf_async_task (lk w d) = 0 -> d ∈ woken w';
  af_woke x : x ∈ woken w' -> x ∈ woken w \/ x ∈ G;
}.

Lemma granted_act_frame vp G w w' : granted_frame vp G w w' -> act_frame vp [] G w w'.
Proof. intros [H1 H2 H3 H4 H5 H6 H7 H8 H9 H10 H11 H12]. split; try done; [auto | intros k Hk; destruct (H6 k Hk); auto]. Qed.

Lemma act_frame_granted vp G w w' : act_frame vp [] G w w' -> granted_frame vp G w w'.
Proof.
  intros [H1 H2 H3 H4 H5 H6 H7 H8 H9 H10 H11 H12]. split; try done.
  - intros k ? ?. apply H5; try done. apply not_elem_of_nil.
  - intros k Hk. destruct (H6 k Hk) as [?|[[]%elem_of_nil|?]]; auto.
Qed.

Lemma act_frame_trans S vp X A1 A2 G1 G2 w1 w2 w3 : base S vp X w1 -> (forall d, d ∈ A1 -> d ∈ X) ->
  act_frame vp A1 G1 w1 w2 -> act_frame vp A2 G2 w2 w3 -> act_frame vp (A1 ++ A2) (G2 ++ G1) w1 w3.
Proof.
  intros Hb HA H1 H2. pose proof H1 as []. pose proof H2 as [].
  assert (forall k, is_Some (locks w1 !! k) -> k ∉ active w1 vp -> k ∉ A1 -> k ∉ active w2 vp) as Hna.
  { intros k Hk Hn Hn1 [?|[?|E]]%(af_active _ _ _ _ _ H1); [done|done|]. rewrite E in Hk. by destruct Hk. }
  split; try congruence; try lia.
  - intros v Hv. by rewrite af_other1, af_other0.
  - rewrite af_pending0, af_pending1, (Permutation_app_comm G2 G1). by rewrite app_assoc.
  - intros v. by rewrite af_states1, af_states0.
  - intros k Hk Hn [Hn1 Hn2]%not_elem_of_app. rewrite af_locks1, af_locks0; try done; [by rewrite af_locks0 | by apply Hna].
  - intros k Hk. rewrite elem_of_app. destruct (af_active1 k Hk) as [Hk2|[?|E]]; [destruct (af_active0 k Hk2) as [?|[?|?]]; auto | auto|].
    destruct (locks w1 !! k) eqn:E1; [|by auto].
    destruct (decide (k ∈ active w1 vp)); [by auto|]. destruct (decide (k ∈ A1)); [by auto|].
    exfalso. rewrite af_locks0 in E by done. congruence.
  - intros x Hx. by apply af_woken1, af_woken0.
  - intros d [Hd|Hd]%elem_of_app Ht; [|by apply af_woken1, af_wakes0]. apply af_wakes1; [done|].
    assert (d ∈ pending w1 vp) as Hdp.
    { rewrite af_pending0, af_pending1, !elem_of_app. auto. }
    destruct (pending_placed S vp X w1 vp d Hb Hdp) as (y & Hy & _ & Hna' & HnX & _).
    unfold lk. rewrite af_locks0; [by unfold lk in Ht|done|done|]. intros HdA. by apply (HnX eq_refl), HA.
  - intros x Hx. rewrite elem_of_app. destruct (af_woke1 x Hx) as [Hx2|?]; [destruct (af_woke0 x Hx2)|]; auto.
Qed.

Lemma af_lk vp A G w w' k : act_frame vp A G w w' -> is_Some (locks w !! k) -> k ∉ active w vp -> k ∉ A -> lk w' k = lk w k.
Proof. intros Hf ???. unfold lk. by rewrite (af_locks _ _ _ _ _ Hf). Qed.

Lemma active_insert vp l w : is_Some (lf_states w !! vp) ->
  let w' := lf_insert_lock vp l w in
  active w' vp = insert_lock w l (active w vp) /\ (forall v, v <> vp -> st w' v = st w v) /\
  (forall v, pending w' v = pending w v) /\ ls_threads (st w' vp) = ls_threads (st w vp) /\
  (forall v, is_Some (lf_states w' !! v) <-> is_Some (lf_states w !! v)).
Proof.
  intros Hs w'. destruct (active_set vp (insert_lock w l (active w vp)) w vp Hs) as [Ha _].
  split; [unfold w', lf_insert_lock; by rewrite Ha, decide_True by done|]. split; [|split; [|split]].
  - intros v Hv. unfold w', lf_insert_lock, set_active. by rewrite st_upd, decide_False.
  - intros v. apply (active_set vp (insert_lock w l (active w vp)) w v Hs).
  - unfold w', lf_insert_lock, set_active. by rewrite st_upd, decide_True.
  - intros v. apply upd_st_states.
Qed.

(** A held lock in hand goes to the active list. *)
Lemma insert_ok S vp R K l granted w :
  good S vp (l :: R) (l :: K) granted w -> (forall k, k ∈ K -> k ∈ R) ->
  (forall y, y ∈ active w vp -> lf_owner (lk w y) = lf_owner (lk w l) -> lf_overlaps (lk w l) (lk w y) = false) ->
  let w' := lf_insert_lock vp l w in
  good S vp R K granted w' /\ active w' vp ≡ₚ l :: active w vp /\ act_frame vp [l] [] w w' /\ locks w' = locks w.
Proof.
  intros [Hb Hw Hwt Hs Hst Hsub] HK Hown w'.
  destruct (active_insert vp l w Hst) as (Ea & Hne & Hp & Hth & Hss). fold w' in Ea, Hne, Hp, Hth, Hss.
  assert (active w' vp ≡ₚ l :: active w vp) as Hperm by (rewrite Ea; apply insert_lock_perm).
  assert (forall v y, y ∈ active w' v <-> y ∈ active w v \/ (v = vp /\ y = l)) as Hact.
  { intros v y. destruct (decide (v = vp)) as [->|Hv]; [rewrite Hperm, elem_of_cons; intuition | rewrite Hne by done; intuition]. }
  assert (forall v y, y ∈ held vp (granted ++ K) w' v <-> y ∈ held vp (granted ++ l :: K) w v) as Hh.
  { intros v y. unfold held. rewrite !elem_of_app, Hact. destruct (Z.eqb_spec v vp) as [->|Hv].
    - rewrite !elem_of_app, elem_of_cons. intuition.
    - intuition. }
  assert (forall k, lk w' k = lk w k) as Hlk by done. assert (edges w' = edges w) as He by done.
  split; [|split; [done|split; [|done]]].
  - split; try done.
    + apply (base_lists S vp vp (granted ++ l :: R) _ w); try done. intros v. unfold places. rewrite Hp.
      destruct (Z.eqb_spec v vp) as [->|Hv]; [|by rewrite Hne].
      rewrite Hperm, <- !app_assoc. cbn. by rewrite !Permutation_middle.
    + destruct Hw as [H1 H2 H3 H4 H5 H6]. split.
      * intros v y. rewrite elem_of_app, Hh, Hp, <- elem_of_app, Hlk. apply H1.
      * intros v y z. rewrite !Hh, !Hlk. apply H2.
      * intros v y z. rewrite !Hact, !Hlk. intros [Hy|[-> ->]] [Hz|[E ->]] Hyz Eo; subst; try done.
        -- by apply (H3 v).
        -- rewrite overlaps_sym. by apply Hown.
        -- by apply Hown.
      * intros p q Hpq. destruct (H4 p q Hpq) as (v & ?). exists v. by rewrite Hp, elem_of_app, Hh, <- elem_of_app, !Hlk.
      * intros v p q. rewrite Hp, Hh, He, !Hlk. apply H5.
      * intros v. rewrite Hp. apply H6.
    + intros v p. rewrite Hp. apply Hwt.
    + intros v. destruct (decide (v = vp)) as [->|Hv].
      * apply (start_le_ext w); [done|]. rewrite Ea. apply insert_lock_sorted, Hs.
      * apply (start_le_ext w); [done|]. rewrite Hne by done. apply Hs.
    + by apply Hss.
  - split; try done.
    + by rewrite Hp.
    + intros k. rewrite Hact, list_elem_of_singleton. intuition.
    + by intros d ?%elem_of_nil.
    + by left.
Qed.

(** * One round of an activation

    The active locks of an owner make room for a lock of the owner: what they
    cover outside it stays. *)

Definition covers (x : lockf_entry) (b : Z) : Prop := lf_start x <= b <= lf_end x.

(** [ov] lost the bytes of [y]: locks that are part of it are in its place. *)
Record cut (vp ov : Z) (y : lockf_entry) (w w' : lock_world) : Prop := Cut {
  cut_from k : k ∈ active w' vp -> (k ∈ active w vp /\ k <> ov /\ lk w' k = lk w k) \/
    (within (lk w' k) (lk w ov) /\ lf_overlaps y (lk w' k) = false);
  cut_keep k : k ∈ active w vp -> k <> ov -> k ∈ active w' vp /\ lk w' k = lk w k;
  cut_rest b : covers (lk w ov) b -> ~ covers y b ->
    exists k, k ∈ active w' vp /\ within (lk w' k) (lk w ov) /\ covers (lk w' k) b;
}.

Lemma overlaps_iff x y : lf_overlaps x y = true <-> lf_start x <= lf_end y /\ lf_start y <= lf_end x.
Proof. unfold lf_overlaps. by rewrite andb_true_iff, !Z.leb_le. Qed.

Lemma overlaps_false x y : lf_overlaps x y = false <-> lf_end y < lf_start x \/ lf_end x < lf_start y.
Proof. rewrite <- not_true_iff_false, overlaps_iff. lia. Qed.

Section cuts.
Context (S : list Z) (vp : Z) (R K : list Z) (ov : Z) (y : lockf_entry) (granted : list Z) (w : lock_world).
Context (Hg : good S vp R K granted w) (Hov : ov ∈ active w vp).

Lemma drop_cut w' : lf_start y <= lf_start (lk w ov) /\ lf_end (lk w ov) <= lf_end y ->
  active w' vp = list_remove ov (active w vp) -> (forall k, k <> ov -> locks w' !! k = locks w !! k) ->
  cut vp ov y w w'.
Proof.
  intros Hin Ea El. destruct (active_placed S vp _ w vp ov (g_base _ _ _ _ _ _ Hg) Hov) as (_ & _ & _ & _ & _ & _ & Hnd).
  assert (forall k, k <> ov -> lk w' k = lk w k) as Hlk by (intros k Hk; unfold lk; by rewrite El).
  split.
  - intros k. rewrite Ea. intros [Hk Hne]%list_remove_elem; [|done]. left. auto.
  - intros k Hk Hne. rewrite Ea. split; [by apply list_remove_elem | auto].
  - unfold covers. lia.
Qed.

Lemma part_cut f w' : (forall k, k ∈ active w' vp <-> k ∈ active w vp) -> locks w' = locks (upd_lk ov f w) ->
  within (f (lk w ov)) (lk w ov) -> lf_overlaps y (f (lk w ov)) = false ->
  (forall b, covers (lk w ov) b -> ~ covers y b -> covers (f (lk w ov)) b) -> cut vp ov y w w'.
Proof.
  intros Ha El Hin Hno Hcov. destruct (active_placed S vp _ w vp ov (g_base _ _ _ _ _ _ Hg) Hov) as (x & Hx & _).
  assert (lk w' ov = f (lk w ov)) as Eov by (unfold lk at 1; rewrite El; by apply lk_upd_eq).
  assert (forall k, k <> ov -> lk w' k = lk w k) as Hlk.
  { intros k Hk. unfold lk at 1. rewrite El. by apply lk_upd_ne. }
  split.
  - intros k Hk. destruct (decide (k = ov)) as [->|Hne]; [right; by rewrite Eov | left; by rewrite <- Ha, Hlk].
  - intros k Hk Hne. by rewrite Ha, Hlk.
  - intros b Hb Hn. exists ov. rewrite Ha, Eov. auto.
Qed.
End cuts.

Lemma within_trans x y z : within x y -> within y z -> within x z.
Proof. unfold within. intuition (congruence || lia). Qed.

Lemma within_blocks_false x x' y : within x' x -> lf_blocks x y = false -> lf_blocks x' y = false.
Proof. intros Hx H. destruct (lf_blocks x' y) eqn:E; [|done]. by rewrite (within_blocks x x' y y) in H; [|done|apply within_refl|]. Qed.

Lemma new_granted_frame vp w w' : new_frame w w' -> (forall k, is_Some (locks w !! k) -> locks w' !! k = locks w !! k) ->
  granted_frame vp [] w w'.
Proof.
  intros [H1 H2 H3 H4 H5 H6 H7] Hl. assert (forall v, st w' v = st w v) as Hst by (intros; unfold st; by rewrite H2).
  split; try done.
  - by rewrite Hst.
  - by rewrite Hst.
  - intros v. by rewrite H2.
  - intros k ? _. by apply Hl.
  - intros k. rewrite Hst. by left.
  - intros x. by rewrite H5.
  - by intros d []%elem_of_nil.
  - intros x. rewrite H5. by left.
Qed.

(** The second part of [ov] in hand: it takes the edges to the first. *)
Lemma split_part_ok S vp R K ov n granted w :
  good S vp R K granted w -> ov ∈ active w vp -> lf_start (lk w ov) <= n <= lf_end (lk w ov) ->
  let '(s, w1) := lf_alloc_lock (lf_owner (lk w ov)) w in
  exists w3, lf_add_incoming vp s (copy_lock ov n s w1) = Ok (0, w3) /\
    good S vp (s :: R) (s :: K) granted w3 /\ granted_frame vp [] w w3 /\ locks w !! s = None /\
    (forall v, st w3 v = st w v) /\ locks w3 = <[s := set_lf_start n (set_lf_refs 1 (lk w ov))]> (locks w).
Proof.
  intros [Hb Hw Hwt Hs Hst Hsub] Hov Hn.
  destruct (active_placed S vp _ w vp ov Hb Hov) as (x & Hx & Hv & _).
  pose proof (split_lock_base S vp (granted ++ R) w ov n x Hb Hx Hv) as Hsp.
  rewrite (lk_Some w ov x Hx) in *. destruct (lf_alloc_lock (lf_owner x) w) as [s w1].
  destruct (Hsp Hn) as (Hb2 & Hnf & Hfresh & El). clear Hsp. set (w2 := copy_lock ov n s w1) in *.
  set (y := set_lf_start n (set_lf_refs 1 x)) in *.
  assert (forall v, st w2 v = st w v) as Hst2 by (intros; unfold st; by rewrite (nf_states _ _ Hnf)).
  assert (forall k, is_Some (locks w !! k) -> k <> s) as Hks by (intros k [z Hz] ->; congruence).
  assert (forall k, is_Some (locks w !! k) -> lk w2 k = lk w k) as Hlk2.
  { intros k Hk. unfold lk. rewrite El, lookup_insert_ne; [done|]. intros ->. by apply (Hks k Hk). }
  assert (lk w2 s = y) as Es by (unfold lk; by rewrite El, lookup_insert_eq).
  assert (forall v k, k ∈ places vp (granted ++ R) w v -> is_Some (locks w !! k)) as Hpl.
  { intros v k Hk. destruct (b_places _ _ _ _ Hb v k Hk) as (z & Hz & _). by exists z. }
  assert (forall v k, k ∈ held vp (granted ++ K) w v -> k ∈ places vp (granted ++ R) w v) as Hheld.
  { intros v k. unfold held, places. rewrite !elem_of_app. intros [Hk|?]; [left|by auto].
    destruct (v =? vp); [|done]. rewrite elem_of_app in *. destruct Hk; auto. }
  assert (forall v k, k ∈ pending w v -> k ∈ places vp (granted ++ R) w v) as Hpend.
  { intros v k Hk. unfold places. rewrite !elem_of_app. auto. }
  assert (waits vp (granted ++ K) s w2) as Hw2.
  { apply (waits_ext vp (granted ++ K) s w w2 Hw Hst2); [apply Hnf | | |].
    - intros v k Hk. apply Hlk2. eapply Hpl, Hheld, Hk.
    - intros v k Hk. apply Hlk2. eapply Hpl, Hpend, Hk.
    - intros p. by eapply no_zero_edge. }
  assert (forall e, e ∈ edges w2 -> snd e <> s) as Hes.
  { intros [p q] Hpq. rewrite (nf_edges _ _ Hnf) in Hpq. apply Hks. by destruct (b_edge _ _ _ _ Hb p q Hpq) as (_ & ? & _). }
  assert (forall v, s ∉ held vp (granted ++ K) w2 v) as Hsh.
  { intros v Hk. unfold held in Hk. rewrite Hst2 in Hk. by apply (Hks s); [eapply Hpl, Hheld, Hk|]. }
  assert (forall v, s ∉ pending w2 v) as Hsp.
  { intros v Hk. rewrite Hst2 in Hk. by apply (Hks s); [eapply Hpl, Hpend, Hk|]. }
  assert (within y x) as Hyx by (unfold within, y; cbn; lia).
  assert (forall p, p ∈ pending w vp -> lk w2 p = lk w p) as Hlkp by (intros p Hp; eapply Hlk2, Hpl, Hpend, Hp).
  destruct (add_incoming_ok S vp (s :: granted ++ R) (granted ++ K) s (pending w2 vp) w2) as (err & w3 & E & Hb3 & Hf3 & Hw3 & Hr); try done.
  { intros v p. rewrite Hst2, (nf_edges _ _ Hnf). apply Hwt. }
  { rewrite El, lookup_insert_eq. done. }
  { rewrite Hst2. pose proof (b_nodup _ _ _ _ Hb vp) as Hnd. unfold places in Hnd.
    apply NoDup_app in Hnd as (_ & _ & Hnd). by apply NoDup_app in Hnd as (_ & _ & ?). }
  { intros p Hp. split; [done|]. intros Hin. by apply Hes in Hin. }
  assert (ov ∈ held vp (granted ++ K) w vp) as Hovh by (unfold held; apply elem_of_app; by right).
  destruct Hr as [(-> & Hr & _)|(-> & _ & p & Hp & Hbl & Hn')].
  2: { exfalso. revert Hn'. apply (waits_acyclic S vp (s :: granted ++ R) w2 Hb2). rewrite Hst2 in Hp. rewrite Es, (Hlkp p Hp) in *.
    exists p, ov. rewrite (nf_edges _ _ Hnf), (Hlkp p Hp), (Hlk2 ov), (lk_Some w ov x Hx) by (by exists x).
    split; [|done]. apply (w_held _ _ _ _ Hw vp); try done. rewrite (lk_Some w ov x Hx).
    by eapply within_blocks; [apply within_refl | exact Hyx|]. }
  assert (forall v, st w3 v = st w v) as Hst3 by (intros; by rewrite (ef_st _ _ _ Hf3)).
  assert (forall k, lk w3 k = lk w2 k) as Hlk3 by (intros; by apply ef_lk).
  exists w3. unfold lf_add_incoming. split; [done|].
  split; [|split; [|split; [done|split; [done | by rewrite (ef_locks _ _ Hf3)]]]].
  - split.
    + eapply base_perm; [|exact Hb3]. by rewrite Permutation_middle.
    + eapply waits_perm; [|apply (waits_hold vp (granted ++ K) s w3 Hw3)].
      * by rewrite Permutation_middle.
      * rewrite Hlk3, Es. assert (lock_type x) as Ht; [|done]. rewrite <- (lk_Some w ov x Hx).
        apply (w_type _ _ _ _ Hw vp), elem_of_app. by left.
      * intros p. rewrite Hr, !Hlk3, Hst3. split.
        -- intros [Hin|(q & Hq & [= ->] & Hbl)]; [by apply Hes in Hin|]. by rewrite Hst2 in Hq.
        -- intros [Hp Hbl]. right. exists p. by rewrite Hst2.
      * intros z Hz. unfold held in Hz. rewrite Hst3 in Hz. fold (held vp (granted ++ K) w vp) in Hz.
        rewrite !Hlk3, Es, Hlk2 by (eapply Hpl, Hheld, Hz). apply (within_blocks_false x); [done|].
        rewrite <- (lk_Some w ov x Hx). by apply (w_conf _ _ _ _ Hw vp).
    + intros v p. rewrite Hst3. intros Hp. destruct (Hwt v p Hp) as [q Hq]. exists q. apply Hr. left. by rewrite (nf_edges _ _ Hnf).
    + intros v. rewrite Hst3. apply (start_le_ext w); [|apply Hs]. intros k Hk. rewrite Hlk3. apply Hlk2.
      eapply Hpl. unfold places. rewrite !elem_of_app. right. by left.
    + by rewrite (ef_states _ _ Hf3), (nf_states _ _ Hnf).
    + intros k [->|Hk]%elem_of_cons; [by left | right; by apply Hsub].
  - rewrite <- (app_nil_r []). eapply granted_frame_trans; [exact Hb | by intros d []%elem_of_nil | | by apply edge_frame_granted].
    apply new_granted_frame; [done|]. intros k Hk. rewrite El, lookup_insert_ne; [done|]. intros ->. by apply (Hks k Hk).
Qed.

Lemma split_ok S vp R K ov l granted w :
  good S vp R K granted w -> ov ∈ active w vp -> let x := lk w ov in let y := lk w l in
  lf_start x <= lf_start y -> lf_start y <= lf_end y -> lf_end y <= lf_end x ->
  ~ (lf_start x = lf_start y /\ lf_end x = lf_end y) ->
  exists G w', lf_split vp ov l granted w = Ok (G ++ granted, w') /\ good S vp R K (G ++ granted) w' /\
    granted_frame vp G w w' /\ cut vp ov y w w'.
Proof.
  intros Hg Hov x y H1 H2 H3 Hne. unfold lf_split. fold x. fold y. pose proof Hg as [Hb Hw _ _ _ Hsub].
  destruct (Z.eqb_spec (lf_start x) (lf_start y)) as [Es|Es].
  { destruct (set_start_ok S vp R K ov (lf_end y + 1) granted w Hg Hov) as (G & w' & E & Hg' & Hf & Ha & El); [fold x; lia|].
    exists G, w'. do 3 (split; [done|]). eapply part_cut; [exact Hg | exact Hov | | exact El | | |].
    - intros k. by rewrite Ha.
    - unfold within. cbn. fold x. lia.
    - apply overlaps_false. cbn. fold x. lia.
    - unfold covers. cbn. fold x. lia. }
  destruct (Z.eqb_spec (lf_end x) (lf_end y)) as [Ee|Ee].
  { destruct (set_end_ok S vp R K ov (lf_start y - 1) granted w Hg Hov) as (G & w' & E & Hg' & Hf & Ha & El); [fold x; lia|].
    exists G, w'. do 3 (split; [done|]). eapply part_cut; [exact Hg | exact Hov | | exact El | | |].
    - intros k. by rewrite Ha.
    - unfold within. cbn. fold x. lia.
    - apply overlaps_false. cbn. fold x. lia.
    - unfold covers. cbn. fold x. lia. }
  pose proof (split_part_ok S vp R K ov (lf_end y + 1) granted w Hg Hov) as Hsp. fold x in Hsp.
  destruct (lf_alloc_lock (lf_owner x) w) as [s w1].
  destruct Hsp as (w3 & -> & Hg3 & Hf3 & Hfresh & Hst3 & El3); [lia|]. rewrite bind_Ok.
  set (z := set_lf_start (lf_end y + 1) (set_lf_refs 1 x)) in *.
  destruct (active_placed S vp _ w vp ov Hb Hov) as (x' & Hx' & _ & _ & _ & _ & Hnd).
  assert (forall k, is_Some (locks w !! k) -> k <> s) as Hks by (intros k [u Hu] ->; congruence).
  assert (forall k, k <> s -> lk w3 k = lk w k) as Hlk3 by (intros k Hk; unfold lk; by rewrite El3, lookup_insert_ne).
  assert (ov <> s) as Hos by (apply Hks; by exists x').
  destruct (set_end_ok S vp (s :: R) (s :: K) ov (lf_start y - 1) granted w3 Hg3) as (G & w4 & -> & Hg4 & Hf4 & Ha4 & El4).
  { by rewrite Hst3. }
  { rewrite Hlk3 by done. fold x. lia. }
  rewrite bind_Ok.
  assert (lk w4 s = z) as E4s.
  { unfold lk. rewrite El4. fold (lk (upd_lk ov (set_lf_end (lf_start y - 1)) w3) s). rewrite lk_upd_ne by done.
    unfold lk. by rewrite El3, lookup_insert_eq. }
  assert (lk w4 ov = set_lf_end (lf_start y - 1) x) as E4ov.
  { unfold lk. rewrite El4. fold (lk (upd_lk ov (set_lf_end (lf_start y - 1)) w3) ov). rewrite lk_upd_eq.
    - by rewrite Hlk3 by done.
    - rewrite El3, lookup_insert_ne by done. by exists x'. }
  assert (forall k, k <> s -> k <> ov -> lk w4 k = lk w k) as Hlk4.
  { intros k Hk1 Hk2. unfold lk at 1. rewrite El4. fold (lk (upd_lk ov (set_lf_end (lf_start y - 1)) w3) k).
    by rewrite lk_upd_ne, Hlk3. }
  assert (forall v, active w4 v = active w v) as Ha by (intros v; by rewrite Ha4, Hst3).
  assert (forall k, k ∈ active w vp -> k <> s) as Hactne.
  { intros k Hk. apply Hks. destruct (active_placed S vp _ w vp k Hb Hk) as (u & Hu & _). by exists u. }
  destruct (insert_ok S vp R K s (G ++ granted) w4 Hg4 Hsub) as (Hg5 & Hperm & Haf & El5).
  { intros k. rewrite Ha, E4s. intros Hk Ho. pose proof (Hactne k Hk) as Hk'. destruct (decide (k = ov)) as [->|Hko].
    - rewrite E4ov. apply overlaps_false. cbn. lia.
    - rewrite (Hlk4 k Hk' Hko) in *. destruct (lf_overlaps z (lk w k)) eqn:E; [|done].
      assert (lf_overlaps x (lk w k) = true) as Eo by (apply (within_overlaps x z (lk w k) (lk w k)); [unfold within; cbn; lia | apply within_refl | done]).
      unfold x in Eo. rewrite (w_own _ _ _ _ Hw vp) in Eo; done || by intros <-. }
  set (w5 := lf_insert_lock vp s w4) in *. exists G, w5. split; [done|]. split; [done|].
  assert (forall k, lk w5 k = lk w4 k) as Hlk5 by done.
  assert (forall k, k ∈ active w5 vp <-> k = s \/ k ∈ active w vp) as Ha5 by (intros k; by rewrite Hperm, elem_of_cons, Ha).
  split.
  - assert (granted_frame vp G w w4) as [F1 F2 F3 F4 F5 F6 F7 F8 F9 F10 F11 F12].
    { rewrite <- (app_nil_r G). eapply granted_frame_trans; [exact Hb | | exact Hf3 | exact Hf4].
      intros d Hd. rewrite <- Hst3, (gf_pending _ _ _ _ Hf4). apply elem_of_app. by left. }
    destruct Haf as [A1 A2 A3 A4 A5 A6 A7 A8 A9 A10 A11 A12]. split; try congruence.
    + intros v Hv. by rewrite A1, F1.
    + by rewrite F2, A2.
    + intros v. by rewrite A4, F4.
    + intros k. rewrite El5. apply F5.
    + intros k Hk. apply Ha5 in Hk as [->|Hk]; auto.
    + lia.
    + intros k Hk. by apply A10, F10.
    + intros d Hd Ht. by apply A10, F11.
    + intros k Hk. destruct (A12 k Hk) as [?|[]%elem_of_nil]. by apply F12.
  - split.
    + intros k [->|Hk]%Ha5; rewrite Hlk5; [right | ]; [|destruct (decide (k = ov)) as [->|Hko]; [right|left]].
      * rewrite E4s. fold x. split; [unfold within; cbn; lia | apply overlaps_false; cbn; lia].
      * rewrite E4ov. fold x. split; [unfold within; cbn; lia | apply overlaps_false; cbn; lia].
      * split; [done|]. split; [done|]. apply Hlk4; auto.
    + intros k Hk Hko. rewrite Ha5, Hlk5, Hlk4; auto.
    + intros b Hcb Hn. unfold covers in *. fold x in Hcb. destruct (Z.lt_ge_cases b (lf_start y)).
      * exists ov. rewrite Ha5, Hlk5, E4ov. fold x. split; [by right|]. unfold within. cbn. lia.
      * exists s. rewrite Ha5, Hlk5, E4s. fold x. split; [by left|]. unfold within. cbn. lia.
Qed.

(** ** The search *)

(** An active lock in the way of [x]. *)
Definition in_way (x y : lockf_entry) : bool := (lf_owner y =? lf_owner x) && lf_overlaps x y.

Inductive overlap_case (x y : lockf_entry) : Z -> Prop :=
  | OverlapSame : lf_start y = lf_start x -> lf_end y = lf_end x -> overlap_case x y 1
  | OverlapAround : lf_start y <= lf_start x -> lf_end x <= lf_end y -> ~ (lf_start y = lf_start x /\ lf_end y = lf_end x) ->
      overlap_case x y 2
  | OverlapInside : lf_start x <= lf_start y -> lf_end y <= lf_end x -> overlap_case x y 3
  | OverlapBefore : lf_start y < lf_start x -> lf_start x <= lf_end y -> lf_end y < lf_end x -> overlap_case x y 4
  | OverlapAfter : lf_start x < lf_start y -> lf_start y <= lf_end x -> lf_end x < lf_end y -> overlap_case x y 5.

Lemma findoverlap_ok w l : let x := lk w l in lf_start x <= lf_end x -> forall overlap,
  (forall y, y ∈ overlap -> lf_start (lk w y) <= lf_end (lk w y)) -> StronglySorted (start_le w) overlap ->
  exists c mid rest, lf_findoverlap w overlap l SELF = Ok (c, rest) /\ overlap = mid ++ rest /\
    (forall y, y ∈ mid -> in_way x (lk w y) = false) /\
    ((c = 0 /\ forall y, y ∈ rest -> in_way x (lk w y) = false) \/
     exists y next, rest = y :: next /\ in_way x (lk w y) = true /\ overlap_case x (lk w y) c).
Proof.
  intros x Hx. induction overlap as [|u overlap IH]; intros Hin Hs; cbn [lf_findoverlap].
  { exists 0, [], []. split_and!; try done; [by intros y []%elem_of_nil|]. left. split; [done|]. by intros y []%elem_of_nil. }
  fold x. set (y := lk w u). pose proof (Hin u ltac:(by left)) as Hy. fold y in Hy.
  apply StronglySorted_inv in Hs as [Hs Hu]. rewrite Forall_forall in Hu.
  destruct IH as (c & mid & rest & E & -> & Hmid & Hr); [intros; apply Hin; by right | done|].
  assert (Hskip : in_way x y = false -> exists c mid' rest', lf_findoverlap w (mid ++ rest) l SELF = Ok (c, rest') /\ u :: mid ++ rest = mid' ++ rest' /\
    (forall y, y ∈ mid' -> in_way x (lk w y) = false) /\
    ((c = 0 /\ forall y, y ∈ rest' -> in_way x (lk w y) = false) \/
     exists y next, rest' = y :: next /\ in_way x (lk w y) = true /\ overlap_case x (lk w y) c)).
  { intros Hn. exists c, (u :: mid), rest. split_and!; try done. intros z [->|Hz]%elem_of_cons; [done | by apply Hmid]. }
  change (flag SELF SELF) with true. change (flag SELF OTHERS) with false. cbn [andb orb]. rewrite orb_false_r.
  destruct (Z.ltb_spec (lf_end x) (lf_start y)) as [Hlt|Hge].
  { exists 0, [], (u :: mid ++ rest). split_and!; try done; [by intros z []%elem_of_nil|]. left. split; [done|].
    intros z Hz. unfold in_way. apply andb_false_iff. right. apply overlaps_false. right.
    apply elem_of_cons in Hz as [->|Hz]; [done|]. specialize (Hu z Hz). unfold start_le in Hu. fold y in Hu. lia. }
  destruct (Z.eqb_spec (lf_owner y) (lf_owner x)) as [Eo|Eo]; cbn [negb].
  2: { apply Hskip. unfold in_way. by rewrite (proj2 (Z.eqb_neq _ _) Eo). }
  destruct (Z.ltb_spec (lf_end y) (lf_start x)) as [Hlt|Hge'].
  { apply Hskip. unfold in_way. apply andb_false_iff. right. apply overlaps_false. by left. }
  assert (in_way x y = true) as Hway.
  { unfold in_way. apply andb_true_iff. split; [by apply Z.eqb_eq|]. apply overlaps_iff. lia. }
  assert (forall c, overlap_case x y c -> exists c' mid' rest', Ok (c, u :: mid ++ rest) = Ok (c', rest') /\ u :: mid ++ rest = mid' ++ rest' /\
    (forall y, y ∈ mid' -> in_way x (lk w y) = false) /\
    ((c' = 0 /\ forall y, y ∈ rest' -> in_way x (lk w y) = false) \/
     exists y next, rest' = y :: next /\ in_way x (lk w y) = true /\ overlap_case x (lk w y) c')) as Hstop.
  { intros c' Hc. exists c', [], (u :: mid ++ rest). split_and!; try done; [by intros z []%elem_of_nil|]. right. by exists u, (mid ++ rest). }
  destruct (Z.eqb_spec (lf_start y) (lf_start x)), (Z.eqb_spec (lf_end y) (lf_end x)); cbn [andb];
    try (apply Hstop; by constructor);
    destruct (Z.leb_spec (lf_start y) (lf_start x)), (Z.leb_spec (lf_end x) (lf_end y)); cbn [andb];
    try (apply Hstop; constructor; lia);
    destruct (Z.leb_spec (lf_start x) (lf_start y)), (Z.leb_spec (lf_end y) (lf_end x)); cbn [andb];
    try lia; try (apply Hstop; constructor; lia);
    destruct (Z.ltb_spec (lf_start y) (lf_start x)), (Z.leb_spec (lf_start x) (lf_end y)); cbn [andb];
    try lia; try (apply Hstop; constructor; lia);
    destruct (Z.ltb_spec (lf_start x) (lf_start y)), (Z.ltb_spec (lf_end x) (lf_end y)); cbn [andb];
    try lia; apply Hstop; constructor; lia.
Qed.

(** ** The loop over the overlaps *)

(** The active locks of the owner of [x] lost the bytes of [x], and no more. *)
Record trimmed (vp : Z) (x : lockf_entry) (w w' : lock_world) : Prop := Trimmed {
  tr_from k : k ∈ active w' vp -> exists k0, k0 ∈ active w vp /\ within (lk w' k) (lk w k0);
  tr_rest k0 b : k0 ∈ active w vp -> covers (lk w k0) b -> ~ (lf_owner (lk w k0) = lf_owner x /\ covers x b) ->
    exists k, k ∈ active w' vp /\ within (lk w' k) (lk w k0) /\ covers (lk w' k) b;
}.

Lemma trimmed_refl vp x w : trimmed vp x w w.
Proof. split; [intros k Hk | intros k b Hk ? _]; exists k; pose proof (within_refl (lk w k)); done. Qed.

Lemma trimmed_trans vp x w1 w2 w3 : trimmed vp x w1 w2 -> trimmed vp x w2 w3 -> trimmed vp x w1 w3.
Proof.
  intros [F1 T1] [F2 T2]. split.
  - intros k Hk. destruct (F2 k Hk) as (k1 & Hk1 & Hw1). destruct (F1 k1 Hk1) as (k0 & ? & ?).
    exists k0. split; [done|]. by eapply within_trans.
  - intros k0 b Hk0 Hc Hn. destruct (T1 k0 b Hk0 Hc Hn) as (k1 & Hk1 & Hw1 & Hc1).
    destruct (T2 k1 b Hk1 Hc1) as (k & ? & ? & ?); [by destruct Hw1 as (-> & _)|]. exists k. split; [done|]. split; [|done]. by eapply within_trans.
Qed.

Lemma cut_trimmed vp ov x w w' : cut vp ov x w w' -> ov ∈ active w vp -> lf_owner (lk w ov) = lf_owner x -> trimmed vp x w w'.
Proof.
  intros [H1 H2 H3] Hov Ho. split.
  - intros k Hk. destruct (H1 k Hk) as [(? & _ & ->)|[? _]]; [exists k | by exists ov]. split; [done | apply within_refl].
  - intros k b Hk Hc Hn. destruct (decide (k = ov)) as [->|Hne]; [apply H3; intuition|].
    destruct (H2 k Hk Hne) as [? E]. exists k. rewrite E. split; [done|]. split; [apply within_refl | done].
Qed.

Lemma in_way_iff x y : in_way x y = true <-> lf_owner y = lf_owner x /\ lf_overlaps x y = true.
Proof. unfold in_way. by rewrite andb_true_iff, Z.eqb_eq. Qed.

Lemma in_way_false x y : in_way x y = false <-> (lf_owner y = lf_owner x -> lf_overlaps x y = false).
Proof. unfold in_way. rewrite andb_false_iff, Z.eqb_neq. destruct (decide (lf_owner y = lf_owner x)); intuition. Qed.

(** After the last cut nothing is in the way, if no other lock was. *)
Lemma cut_free vp ov x w w' : cut vp ov x w w' ->
  (forall k, k ∈ active w vp -> k <> ov -> in_way x (lk w k) = false) -> forall k, k ∈ active w' vp -> in_way x (lk w' k) = false.
Proof.
  intros [H1 _ _] Hn k Hk. destruct (H1 k Hk) as [(? & ? & ->)|[_ ?]]; [by apply Hn|]. by apply in_way_false.
Qed.

Lemma activate_overlaps_ok S vp R K l fuel : forall overlap pre granted w,
  good S vp R K granted w -> l ∈ R -> active w vp = pre ++ overlap ->
  (forall k, k ∈ pre -> in_way (lk w l) (lk w k) = false) -> (length overlap < fuel)%nat ->
  exists G w', activate_overlaps fuel vp l overlap granted w = Ok (G ++ granted, w') /\ good S vp R K (G ++ granted) w' /\
    granted_frame vp G w w' /\ trimmed vp (lk w l) w w' /\ forall k, k ∈ active w' vp -> in_way (lk w l) (lk w' k) = false.
Proof.
  induction fuel as [|fuel IH]; intros overlap pre granted w Hg Hl Ha Hpre Hfuel; [lia|]. cbn [activate_overlaps].
  pose proof Hg as [Hb Hw Hwt Hs Hst Hsub]. set (x := lk w l) in *.
  assert (l ∈ places vp (granted ++ R) w vp) as Hlp by (unfold places; rewrite Z.eqb_refl, !elem_of_app; auto).
  destruct (b_places _ _ _ _ Hb vp l Hlp) as (x' & Hx' & _). pose proof (lk_Some w l x' Hx') as Ex. fold x in Ex. subst x'.
  destruct (b_alloc _ _ _ _ Hb l x Hx') as (_ & _ & [[_ Hrg] _] & _).
  assert (l ∉ active w vp) as Hlna.
  { pose proof (b_nodup _ _ _ _ Hb vp) as Hnd. unfold places in Hnd. rewrite Z.eqb_refl in Hnd.
    apply NoDup_app in Hnd as (_ & Hnd & _). intros Hla. apply (Hnd l); rewrite !elem_of_app; auto. }
  pose proof (Hs vp) as Hsv. rewrite Ha in Hsv.
  destruct (findoverlap_ok w l Hrg overlap) as (c & mid & rest & -> & -> & Hmid & Hr).
  { intros y Hy. destruct (active_placed S vp _ w vp y Hb) as (z & Hz & _); [rewrite Ha; apply elem_of_app; by right|].
    rewrite (lk_Some w y z Hz). destruct (b_alloc _ _ _ _ Hb y z Hz) as (_ & _ & [[_ ?] _] & _). done. }
  { by apply StronglySorted_app in Hsv as (_ & _ & ?). }
  rewrite bind_Ok. fold x in Hmid, Hr.
  assert (Hdone : forall k, k ∈ pre ++ mid -> in_way x (lk w k) = false).
  { intros k [?|?]%elem_of_app; auto. }
  destruct Hr as [[-> Hr]|(ov & next & -> & Hway & Hc)].
  { exists [], w. split; [by destruct rest|]. split; [done|]. split; [apply edge_frame_granted, edge_frame_refl|].
    split; [apply trimmed_refl|]. intros k. rewrite Ha, app_assoc. intros [?|?]%elem_of_app; auto. }
  assert (ov ∈ active w vp) as Hov by (rewrite Ha, !elem_of_app, elem_of_cons; auto).
  pose proof Hway as [Ho Hovl]%in_way_iff. rewrite app_assoc in Ha.
  destruct (active_placed S vp _ w vp ov Hb Hov) as (u & Hu & _ & _ & _ & _ & Hnd).
  destruct (b_alloc _ _ _ _ Hb ov u Hu) as (_ & _ & [[_ Hur] _] & _). rewrite <- (lk_Some w ov u Hu) in Hur. clear u Hu.
  rewrite Ha in Hnd. pose proof Hnd as (_ & Hnd1 & Hnd2)%NoDup_app. apply NoDup_cons in Hnd2 as [Hnd2 _].
  assert (forall k, k ∈ active w vp -> k <> ov -> k ∈ pre ++ mid \/ k ∈ next) as Hother.
  { intros k. rewrite Ha, !elem_of_app, elem_of_cons. intuition. }
  (* another lock of the owner in the way would overlap [ov] *)
  assert (forall k, k ∈ active w vp -> k <> ov -> lf_start (lk w ov) <= lf_start x -> lf_end x <= lf_end (lk w ov) -> in_way x (lk w k) = false) as Honly.
  { intros k Hk Hne Hs1 Hs2. apply in_way_false. intros Ho'. pose proof (w_own _ _ _ _ Hw vp k ov Hk Hov Hne ltac:(congruence)) as Hd.
    rewrite overlaps_false in *. lia. }
  assert (Hstop : forall G w', cut vp ov x w w' -> (forall k, k ∈ active w vp -> k <> ov -> in_way x (lk w k) = false) ->
    good S vp R K (G ++ granted) w' -> granted_frame vp G w w' -> exists G0 w0, Ok (G ++ granted, w') = Ok (G0 ++ granted, w0) /\
    good S vp R K (G0 ++ granted) w0 /\ granted_frame vp G0 w w0 /\ trimmed vp x w w0 /\ forall k, k ∈ active w0 vp -> in_way x (lk w0 k) = false).
  { intros G w' Hcut Hn Hg' Hf. exists G, w'. do 3 (split; [done|]). split; [by eapply cut_trimmed | by eapply cut_free]. }
  assert (Hgo : forall G w1 pre', good S vp R K (G ++ granted) w1 -> granted_frame vp G w w1 -> cut vp ov x w w1 ->
    active w1 vp = pre' ++ next -> (forall k, k ∈ pre' -> in_way x (lk w1 k) = false) ->
    exists G0 w0, activate_overlaps fuel vp l next (G ++ granted) w1 = Ok (G0 ++ granted, w0) /\
    good S vp R K (G0 ++ granted) w0 /\ granted_frame vp G0 w w0 /\ trimmed vp x w w0 /\ forall k, k ∈ active w0 vp -> in_way x (lk w0 k) = false).
  { intros G w1 pre' Hg1 Hf1 Hcut Ha1 Hp1. assert (lk w1 l = x) as El1 by (eapply gf_lk; [exact Hf1 | by exists x | done]).
    destruct (IH next pre' (G ++ granted) w1 Hg1 Hl Ha1) as (G2 & w2 & E & Hg2 & Hf2 & Htr & Hfree).
    { by rewrite El1. }
    { rewrite length_app in Hfuel. cbn in Hfuel. lia. }
    rewrite El1 in *. exists (G2 ++ G), w2. rewrite <- app_assoc. do 2 (split; [done|]). split.
    - eapply granted_frame_trans; [exact Hb | | exact Hf1 | exact Hf2]. intros d Hd.
      rewrite (gf_pending _ _ _ _ Hf1), (gf_pending _ _ _ _ Hf2), !elem_of_app. auto.
    - split; [|done]. eapply trimmed_trans; [|exact Htr]. by eapply cut_trimmed. }
  destruct Hc as [E1 E2|E1 E2 E3|E1 E2|E1 E2 E3|E1 E2 E3]; cbn [Z.eqb Pos.eqb].
  - destruct (drop_ok S vp R K ov granted w Hg Hov) as (G & w' & -> & Hg' & Hf & Ha' & El').
    apply Hstop; try done; [|intros; apply Honly; done || lia]. eapply drop_cut; [exact Hg | done | lia | done | done].
  - destruct (split_ok S vp R K ov l granted w Hg Hov) as (G & w' & -> & Hg' & Hf & Hcut); fold x; [lia..|].
    apply Hstop; try done. intros; apply Honly; done || lia.
  - destruct (drop_ok S vp R K ov granted w Hg Hov) as (G & w1 & -> & Hg' & Hf & Ha' & El'). rewrite bind_Ok.
    apply (Hgo G w1 (pre ++ mid)); try done.
    + eapply drop_cut; [exact Hg | done | lia | done | done].
    + rewrite Ha', Ha. apply remove_app_r. intros Hin. by apply (Hnd1 ov Hin); left.
    + intros k Hk. assert (lk w1 k = lk w k) as ->; [|auto]. unfold lk. rewrite El'; [done|]. intros ->. by apply (Hnd1 ov Hk); left.
  - destruct (set_end_ok S vp R K ov (lf_start x - 1) granted w Hg Hov) as (G & w1 & -> & Hg' & Hf & Ha' & El'); [lia|]. rewrite bind_Ok.
    assert (cut vp ov x w w1) as Hcut.
    { eapply part_cut; [exact Hg | exact Hov | intros k; by rewrite Ha' | exact El' | | |].
      - unfold within. cbn. lia.
      - apply overlaps_false. cbn. lia.
      - unfold covers. cbn. lia. }
    apply (Hgo G w1 ((pre ++ mid) ++ [ov])); try done.
    + rewrite Ha', Ha. by rewrite <- !app_assoc.
    + intros k [Hk| ->%list_elem_of_singleton]%elem_of_app.
      * destruct (cut_keep _ _ _ _ _ Hcut k) as [_ ->]; [rewrite Ha; apply elem_of_app; by left | | by apply Hdone].
        intros ->. by apply (Hnd1 ov Hk); left.
      * destruct (cut_from _ _ _ _ _ Hcut ov) as [(_ & ? & _)|[_ Hno]]; [by rewrite Ha' | done|]. by apply in_way_false.
  - destruct (set_start_ok S vp R K ov (lf_end x + 1) granted w Hg Hov) as (G & w1 & -> & Hg' & Hf & Ha' & El'); [lia|].
    apply Hstop; try done.
    + eapply part_cut; [exact Hg | exact Hov | intros k; by rewrite Ha' | exact El' | | |].
      * unfold within. cbn. lia.
      * apply overlaps_false. cbn. lia.
      * unfold covers. cbn. lia.
    + intros k Hk Hne. destruct (Hother k Hk Hne) as [?|Hkn]; [by apply Hdone|]. apply in_way_false. intros Ho'.
      pose proof (w_own _ _ _ _ Hw vp k ov Hk Hov Hne ltac:(congruence)) as Hd.
      rewrite Ha in Hk. assert (lf_start (lk w ov) <= lf_start (lk w k)) as Hle.
      { pose proof (Hs vp) as Hsv2. rewrite Ha in Hsv2. apply StronglySorted_app in Hsv2 as (_ & _ & Hsv2).
        apply StronglySorted_inv in Hsv2 as [_ Hsv2]. rewrite Forall_forall in Hsv2. by apply Hsv2. }
      assert (k ∈ active w vp) as Hka by (by rewrite Ha).
      destruct (active_placed S vp _ w vp k Hb Hka) as (z & Hz & _). destruct (b_alloc _ _ _ _ Hb k z Hz) as (_ & _ & [[_ Hkr] _] & _).
      rewrite <- (lk_Some w k z Hz) in Hkr. rewrite overlaps_false in *. lia.
Qed.

(** * Activation

    A lock is activated, then the locks that were granted on the way, until
    there is none: for the bytes of the file, each sets its range. *)

(** ** The locks by byte *)

(** The type of the active lock of the owner [o] on the byte [b]. *)
Definition lock_at (w : lock_world) (vp o b : Z) : option Z :=
  option_map (fun l => lf_type (lk w l))
    (List.find (fun l => let x := lk w l in (lf_owner x =? o) && (lf_start x <=? b) && (b <=? lf_end x)) (active w vp)).

Definition set_range (m : Z -> Z -> option Z) (x : lockf_entry) (o b : Z) : option Z :=
  if (lf_owner x =? o) && (lf_start x <=? b) && (b <=? lf_end x) then
    if lf_type x =? F_UNLCK then None else Some (lf_type x)
  else m o b.

Definition on_byte (x : lockf_entry) (o b : Z) : Prop := lf_owner x = o /\ covers x b.

Lemma on_byte_iff x o b : (lf_owner x =? o) && (lf_start x <=? b) && (b <=? lf_end x) = true <-> on_byte x o b.
Proof. unfold on_byte, covers. rewrite !andb_true_iff, Z.eqb_eq, !Z.leb_le. tauto. Qed.

Lemma set_range_in m x o b : on_byte x o b -> set_range m x o b = if lf_type x =? F_UNLCK then None else Some (lf_type x).
Proof. intros H%on_byte_iff. unfold set_range. by rewrite H. Qed.
Lemma set_range_out m x o b : ~ on_byte x o b -> set_range m x o b = m o b.
Proof. rewrite <- on_byte_iff, not_true_iff_false. unfold set_range. by intros ->. Qed.

Lemma set_ranges_ext xs : forall m m', (forall o b, m o b = m' o b) ->
  forall o b, fold_left set_range xs m o b = fold_left set_range xs m' o b.
Proof.
  induction xs as [|x xs IH]; intros m m' E o b; cbn; [done|]. apply IH. intros o' b'. unfold set_range.
  destruct (_ && _); [done | apply E].
Qed.

Lemma lock_at_iff vp H w o b t : waits vp H 0 w ->
  lock_at w vp o b = Some t <-> exists l, l ∈ active w vp /\ on_byte (lk w l) o b /\ lf_type (lk w l) = t.
Proof.
  intros Hw. unfold lock_at. set (f := fun l => let x := lk w l in _ && _). destruct (List.find f (active w vp)) as [l|] eqn:E; cbn.
  - apply find_some in E as [Hl Hf]. apply list_elem_of_In in Hl. apply on_byte_iff in Hf. split.
    + intros [= <-]. by exists l.
    + intros (k & Hk & [Ho Hc] & <-). destruct (decide (l = k)) as [->|Hne]; [done|]. exfalso. destruct Hf as [Ho' Hc'].
      pose proof (w_own _ _ _ _ Hw vp l k Hl Hk Hne ltac:(congruence)) as Hd. unfold covers in *.
      rewrite overlaps_false in Hd. lia.
  - split; [done|]. intros (k & Hk & Hb%on_byte_iff & _). apply list_elem_of_In in Hk.
    pose proof (find_none _ _ E k Hk) as Hf. unfold f in Hf. cbn zeta beta in Hf. congruence.
Qed.

Lemma lock_at_None vp H w o b : waits vp H 0 w ->
  lock_at w vp o b = None <-> forall l, l ∈ active w vp -> ~ on_byte (lk w l) o b.
Proof.
  intros Hw. split.
  - intros E l Hl Hb. assert (lock_at w vp o b = Some (lf_type (lk w l))) by (apply (lock_at_iff _ _ _ _ _ _ Hw); by exists l). congruence.
  - intros Hn. destruct (lock_at w vp o b) as [t|] eqn:E; [|done]. apply (lock_at_iff _ _ _ _ _ _ Hw) in E as (l & Hl & Hb & _). by destruct (Hn l Hl).
Qed.

Lemma option_ext {A} (x y : option A) : (forall t, x = Some t <-> y = Some t) -> x = y.
Proof. intros H. destruct x as [a|]; [symmetry; by apply H|]. destruct y as [a|]; [by apply H | done]. Qed.

(** Room for [x], by bytes. *)
Lemma trimmed_at vp H H' x w w' : waits vp H 0 w -> waits vp H' 0 w' -> trimmed vp x w w' ->
  (forall k, k ∈ active w' vp -> in_way x (lk w' k) = false) ->
  forall o b, lock_at w' vp o b = if (lf_owner x =? o) && (lf_start x <=? b) && (b <=? lf_end x) then None else lock_at w vp o b.
Proof.
  intros Hw Hw' [Hfrom Hrest] Hfree o b. destruct (_ && _) eqn:E.
  - apply on_byte_iff in E as [Ho Hc]. apply (lock_at_None _ _ _ _ _ Hw'). intros l Hl [Ho' Hc'].
    pose proof (Hfree l Hl) as Hd. rewrite in_way_false in Hd. unfold covers in *.
    specialize (Hd ltac:(congruence)). rewrite overlaps_false in Hd. lia.
  - apply not_true_iff_false in E. rewrite on_byte_iff in E. apply option_ext. intros t.
    rewrite (lock_at_iff _ _ _ _ _ _ Hw), (lock_at_iff _ _ _ _ _ _ Hw'). split.
    + intros (l & Hl & [Ho Hc] & Ht). destruct (Hfrom l Hl) as (k & Hk & Ho' & Ht' & Hr). exists k.
      unfold on_byte, covers in *. split; [done|]. rewrite <- Ho', <- Ht'. split; [|done]. split; [done | lia].
    + intros (l & Hl & [Ho Hc] & Ht). destruct (Hrest l b Hl Hc) as (k & Hk & (Ho' & Ht' & _) & Hck).
      { intros [Hox Hcx]. apply E. split; [congruence | done]. }
      exists k. split; [done|]. unfold on_byte. by rewrite Ho', Ht'.
Qed.

(** ** One lock *)

Lemma round_ok S vp R K l granted w : let u := lf_type (lk w l) =? F_UNLCK in
  good S vp (l :: R) (if u then K else l :: K) granted w -> (forall k, k ∈ K -> k ∈ R) ->
  exists G w1, activate_overlaps (1 + length (active w vp)) vp l (active w vp) granted w = Ok (G ++ granted, w1) /\
    let w2 := if negb (lf_type (lk w1 l) =? F_UNLCK) then lf_insert_lock vp l w1 else w1 in
    good S vp (if u then l :: R else R) K (G ++ granted) w2 /\ act_frame vp (if u then [] else [l]) G w w2 /\
    forall o b, lock_at w2 vp o b = set_range (lock_at w vp) (lk w l) o b.
Proof.
  intros u Hg HK. pose proof Hg as [Hb Hw _ _ _ Hsub].
  destruct (activate_overlaps_ok S vp _ _ l (1 + length (active w vp)) (active w vp) [] granted w Hg) as (G & w1 & E & Hg1 & Hf1 & Htr & Hfree).
  { by left. }
  { done. }
  { by intros k []%elem_of_nil. }
  { lia. }
  exists G, w1. split; [done|].
  assert (is_Some (locks w !! l) /\ l ∉ active w vp) as [Hl Hna].
  { assert (l ∈ granted ++ l :: R) as Hin by (rewrite elem_of_app, elem_of_cons; auto).
    destruct (b_places _ _ _ _ Hb vp l) as (z & Hz & _); [unfold places; rewrite Z.eqb_refl; apply elem_of_app; by left|].
    split; [by exists z|]. intros Ha. destruct (active_placed S vp _ w vp l Hb Ha) as (_ & _ & _ & _ & Hn & _). by apply (Hn eq_refl). }
  assert (lk w1 l = lk w l) as El by (by eapply gf_lk).
  pose proof (trimmed_at vp _ _ (lk w l) w w1 Hw (g_waits _ _ _ _ _ _ Hg1) Htr Hfree) as Hat.
  rewrite El. fold u. unfold u in *. destruct (lf_type (lk w l) =? F_UNLCK) eqn:Eu; cbn [negb].
  - split; [done|]. split; [by apply granted_act_frame|]. intros o b. rewrite Hat. unfold set_range. by rewrite Eu.
  - destruct (insert_ok S vp R K l (G ++ granted) w1 Hg1 HK) as (Hg2 & Hperm & Haf & El2).
    { intros y Hy Ho. rewrite El in *. by apply in_way_false; [apply Hfree|]. }
    set (w2 := lf_insert_lock vp l w1) in *. split; [done|]. split.
    + change [l] with ([] ++ [l]). change G with ([] ++ G). eapply act_frame_trans; [exact Hb | by intros d []%elem_of_nil | by apply granted_act_frame | done].
    + assert (forall k, lk w2 k = lk w1 k) as Hlk2 by done.
      intros o b. destruct (decide (on_byte (lk w l) o b)) as [Hon|Hoff].
      * rewrite set_range_in, Eu by done. apply (lock_at_iff _ _ _ _ _ _ (g_waits _ _ _ _ _ _ Hg2)).
        exists l. rewrite Hperm, Hlk2, El. split; [by left | done].
      * rewrite set_range_out by done. transitivity (lock_at w1 vp o b).
        2: { rewrite Hat. rewrite <- on_byte_iff, not_true_iff_false in Hoff. by rewrite Hoff. }
        apply option_ext. intros t. rewrite (lock_at_iff _ _ _ _ _ _ (g_waits _ _ _ _ _ _ Hg1)), (lock_at_iff _ _ _ _ _ _ (g_waits _ _ _ _ _ _ Hg2)).
        split; intros (k & Hk & Hkb & Ht); exists k.
        -- rewrite Hlk2 in *. rewrite Hperm in Hk. apply elem_of_cons in Hk as [->|Hk]; [|done]. exfalso. apply Hoff. by rewrite <- El.
        -- rewrite Hlk2, Hperm. split; [by right | done].
Qed.

(** ** All of them *)

Lemma af_lk_hand S vp X A G w w' k : base S vp X w -> act_frame vp A G w w' ->
  (k ∈ X \/ k ∈ pending w vp) -> k ∉ A -> lk w' k = lk w k.
Proof.
  intros Hb Hf Hk HA. assert (k ∈ places vp X w vp) as Hp.
  { unfold places. rewrite Z.eqb_refl, !elem_of_app. intuition. }
  destruct (b_places _ _ _ _ Hb vp k Hp) as (z & Hz & _). eapply af_lk; [exact Hf | by exists z | | done].
  intros Ha. destruct (active_placed S vp X w vp k Hb Ha) as (_ & _ & _ & Hnp & HnX & _).
  destruct Hk as [Hk|Hk]; [by apply HnX | by apply (Hnp vp)].
Qed.

Lemma activate_granted_ok S vp R K fuel : forall granted w,
  good S vp R K granted w -> (length granted + length (pending w vp) <= fuel)%nat ->
  exists acts G w', activate_granted fuel vp granted w = Ok w' /\ good S vp R K [] w' /\
    act_frame vp acts G w w' /\ acts ≡ₚ granted ++ G /\
    forall o b, lock_at w' vp o b = fold_left set_range (map (lk w) acts) (lock_at w vp) o b.
Proof.
  induction fuel as [|fuel IH]; intros granted w Hg Hfuel.
  { destruct granted as [|l granted]; [|cbn in Hfuel; lia]. exists [], [], w. split; [done|]. split; [done|].
    split; [apply granted_act_frame, edge_frame_granted, edge_frame_refl|]. done. }
  destruct granted as [|l granted].
  { exists [], [], w. split; [done|]. split; [done|].
    split; [apply granted_act_frame, edge_frame_granted, edge_frame_refl|]. done. }
  cbn [activate_granted]. pose proof Hg as [Hb Hw Hwt Hs Hst Hsub].
  assert ((lf_type (lk w l) =? F_UNLCK) = false) as Eu.
  { destruct (w_type _ _ _ _ Hw vp l) as [->| ->]; [|done|done]. unfold held. rewrite Z.eqb_refl, !elem_of_app. left. left. left. by left. }
  pose proof (round_ok S vp R K l granted w) as Hr. rewrite Eu in Hr.
  destruct Hr as (G & w1 & E & Hg2 & Hf2 & Hat); [|done|].
  { split; try done.
    - eapply base_perm; [|exact Hb]. cbn. by rewrite Permutation_middle.
    - eapply waits_perm; [|exact Hw]. cbn. by rewrite Permutation_middle.
    - intros k [->|Hk]%elem_of_cons; [by left | right; by apply Hsub]. }
  change (Datatypes.S (length (active w vp))) with (1 + length (active w vp))%nat.
  rewrite E, bind_Ok. set (w2 := if negb _ then _ else w1) in *.
  pose proof (Permutation_length (af_pending _ _ _ _ _ Hf2)) as Hlen. rewrite length_app in Hlen.
  destruct (IH (G ++ granted) w2 Hg2) as (acts & G2 & w' & E' & Hg' & Hf' & Hperm & Hat').
  { rewrite length_app. cbn in Hfuel. lia. }
  exists (l :: acts), (G2 ++ G), w'. split; [done|]. split; [done|].
  split; [|split].
  - change (l :: acts) with ([l] ++ acts). eapply act_frame_trans; [exact Hb | | exact Hf2 | exact Hf'].
    intros d ->%list_elem_of_singleton. by left.
  - rewrite Hperm. cbn. apply perm_skip. rewrite (Permutation_app_comm G granted), <- app_assoc. f_equiv. apply Permutation_app_comm.
  - intros o b. rewrite Hat'. cbn [map fold_left].
    assert (map (lk w2) acts = map (lk w) acts) as ->; [|by apply set_ranges_ext].
    apply map_ext_in. intros d Hd. apply list_elem_of_In in Hd. rewrite Hperm in Hd.
    assert (d ∈ l :: granted \/ d ∈ pending w vp) as Hd'.
    { rewrite !elem_of_app in Hd. rewrite (af_pending _ _ _ _ _ Hf2), (af_pending _ _ _ _ _ Hf'), elem_of_cons, !elem_of_app. tauto. }
    eapply (af_lk_hand S vp _ _ _ w w2); [exact Hb | exact Hf2 | rewrite elem_of_app; tauto |].
    intros ->%list_elem_of_singleton. pose proof (b_nodup _ _ _ _ (g_base _ _ _ _ _ _ Hg) vp) as Hnd.
    unfold places in Hnd. rewrite Z.eqb_refl in Hnd. cbn in Hnd. apply NoDup_cons in Hnd as [Hnd _]. apply Hnd.
    rewrite !elem_of_app in *. rewrite (af_pending _ _ _ _ _ Hf2), (af_pending _ _ _ _ _ Hf'), !elem_of_app. tauto.
Qed.

Lemma activate_lock_ok S vp R K l w : let u := lf_type (lk w l) =? F_UNLCK in
  good S vp (l :: R) (if u then K else l :: K) [] w -> (forall k, k ∈ K -> k ∈ R) ->
  exists acts w', lf_activate_lock vp l w = Ok w' /\ good S vp (if u then l :: R else R) K [] w' /\
    act_frame vp ((if u then [] else [l]) ++ acts) acts w w' /\
    forall o b, lock_at w' vp o b = fold_left set_range (map (lk w) (l :: acts)) (lock_at w vp) o b.
Proof.
  intros u Hg HK. pose proof Hg as [Hb _ _ _ _ _].
  destruct (round_ok S vp R K l [] w Hg HK) as (G & w1 & E & Hg2 & Hf2 & Hat).
  unfold lf_activate_lock. cbn [activate_granted].
  change (Datatypes.S (length (active w vp))) with (1 + length (active w vp))%nat. rewrite E, bind_Ok.
  set (w2 := if negb _ then _ else w1) in *. fold u in Hg2, Hf2. rewrite app_nil_r in *.
  pose proof (Permutation_length (af_pending _ _ _ _ _ Hf2)) as Hlen. rewrite length_app in Hlen.
  destruct (activate_granted_ok S vp (if u then l :: R else R) K (length (pending w vp)) G w2 Hg2) as
    (acts & G2 & w' & E' & Hg' & Hf' & Hperm & Hat').
  { lia. }
  exists acts, w'. split; [done|]. split; [done|].
  assert (l ∈ places vp ([] ++ l :: R) w vp) as Hlp by (unfold places; rewrite Z.eqb_refl; by left).
  split.
  - assert (act_frame vp ((if u then [] else [l]) ++ acts) (G2 ++ G) w w') as [A1 A2 A3 A4 A5 A6 A7 A8 A9 A10 A11 A12].
    { eapply act_frame_trans; [exact Hb | | exact Hf2 | exact Hf']. intros d. destruct u; [by intros []%elem_of_nil|].
      intros ->%list_elem_of_singleton. by left. }
    assert (acts ≡ₚ G2 ++ G) as Hp by (rewrite Hperm; apply Permutation_app_comm).
    split; try done.
    + by rewrite Hp.
    + intros d. rewrite Hp. apply A11.
    + intros d. rewrite Hp. apply A12.
  - intros o b. rewrite Hat'. cbn [map fold_left].
    assert (map (lk w2) acts = map (lk w) acts) as ->; [|by apply set_ranges_ext].
    apply map_ext_in. intros d Hd. apply list_elem_of_In in Hd. rewrite Hperm in Hd.
    assert (d ∈ pending w vp) as Hd'.
    { rewrite elem_of_app in Hd. rewrite (af_pending _ _ _ _ _ Hf2), (af_pending _ _ _ _ _ Hf'), !elem_of_app. tauto. }
    eapply (af_lk_hand S vp _ _ _ w w2); [exact Hb | exact Hf2 | by right |].
    destruct u; [by intros ?%elem_of_nil|]. intros ->%list_elem_of_singleton. pose proof (b_nodup _ _ _ _ Hb vp) as Hnd.
    unfold places in Hnd. rewrite Z.eqb_refl in Hnd. cbn in Hnd. apply NoDup_cons in Hnd as [Hnd _]. apply Hnd.
    rewrite !elem_of_app. tauto.
Qed.
