(* ===== verification/LockfSet.v ===== *)
(** * Setting a lock

    What no operation changes: a lock keeps its owner, its file, its flags and
    its task ([kept]), and a call changes the lists of its file only
    ([call_frame]). Then [lf_setlock] on every branch ([setlock_spec]). *)

From stdpp Require Import gmap relations sorting.
From S2P Require Import Prelude LfGraph Lockf LockfMem LfGraphInv LfGraphEdge LfGraphOps LockfWait LockfSplit.

Definition same_lock (x x' : lockf_entry) : Prop :=
  lf_owner x' = lf_owner x /\ lf_vnode x' = lf_vnode x /\ lf_flags x' = lf_flags x /\ lf_async_task x' = lf_async_task x.

Definition kept (w w' : lock_world) : Prop :=
  next_addr w <= next_addr w' /\
  forall k x', locks w' !! k = Some x' -> k < next_addr w -> exists x, locks w !! k = Some x /\ same_lock x x'.

Lemma same_lock_refl x : same_lock x x.
Proof. done. Qed.
Lemma kept_refl w : kept w w.
Proof. split; [done|]. intros k x Hk _. by exists x. Qed.
Lemma kept_trans w1 w2 w3 : kept w1 w2 -> kept w2 w3 -> kept w1 w3.
Proof.
  intros [N1 K1] [N2 K2]. split; [lia|]. intros k x' Hk Hlt. destruct (K2 k x' Hk) as (x & Hx & ? & ? & ? & ?); [lia|].
  destruct (K1 k x Hx Hlt) as (x0 & Hx0 & ? & ? & ? & ?). exists x0. split; [done|]. unfold same_lock. intuition congruence.
Qed.
Lemma kept_same w w' : locks w' = locks w -> next_addr w <= next_addr w' -> kept w w'.
Proof. intros El Hn. split; [done|]. rewrite El. intros k x Hk _. by exists x. Qed.
Lemma kept_upd l f w : (forall x, same_lock x (f x)) -> kept w (upd_lk l f w).
Proof.
  intros Hf. split; [done|]. intros k x' (y & Hy & ->)%upd_lk_lookup _. exists y. split; [done|].
  destruct (decide (k = l)); [apply Hf | done].
Qed.
Lemma kept_delete l w : kept w (set_locks (delete l (locks w)) w).
Proof. split; [done|]. cbn. intros k x [_ Hk]%lookup_delete_Some _. by exists x. Qed.
Lemma kept_new l f w : next_addr w <= l -> kept w (upd_lk l f w).
Proof.
  intros Hl. split; [done|]. intros k x' (y & Hy & ->)%upd_lk_lookup Hk. exists y. split; [done|].
  destruct (decide (k = l)); [lia | done].
Qed.

(** Takes the results of a computation apart. *)
Ltac runs := repeat match goal with
  | H : require ?b _ = Ok _ |- _ => clear H
  | H : (_ ≫= _) = Ok _ |- _ => apply bind_inv in H as (? & ? & ?)
  | p : (_ * _)%type |- _ => destruct p
  | H : Ok _ = Ok _ |- _ => injection H as ?; subst
  | H : Panic _ = Ok _ |- _ => discriminate H
  | H : (if ?b then _ else _) = Ok _ |- _ => destruct b
  end.

Lemma kept_free l w r w' : lf_free_lock l w = Ok (r, w') -> kept w w'.
Proof.
  unfold lf_free_lock, free_owner. intros E. apply bind_inv in E as ([] & _ & E).
  set (w1 := upd_lk l _ w) in *. assert (kept w w1) as H1 by (by apply kept_upd).
  destruct (0 <? _); [runs; done|]. apply bind_inv in E as (w2 & E2 & E).
  assert (kept w1 w2) as H2 by (runs; apply kept_same; done).
  injection E as _ <-. eapply kept_trans; [exact H1|]. eapply kept_trans; [exact H2|].
  destruct (_ && _); apply kept_delete || (eapply kept_trans; [|apply kept_delete]; by apply kept_same).
Qed.

Lemma kept_alloc_vertex l w : kept w (lf_alloc_vertex l w).
Proof. unfold lf_alloc_vertex. destruct (_ =? _); apply kept_same; try done. cbn. lia. Qed.

Lemma kept_add_edge x y w r w' : lf_add_edge x y w = Ok (r, w') -> kept w w'.
Proof.
  unfold lf_add_edge. intros E. apply bind_inv in E as ([] & _ & E). apply bind_inv in E as ([e g] & _ & E).
  eapply kept_trans; [apply (kept_alloc_vertex x)|]. eapply kept_trans; [apply (kept_alloc_vertex y)|].
  destruct (negb _); injection E as _ <-; by apply kept_same.
Qed.

Lemma kept_remove_edge x y w w' : lf_remove_edge x y w = Ok w' -> kept w w'.
Proof. unfold lf_remove_edge. intros (g & _ & [= <-])%bind_inv. by apply kept_same. Qed.

Lemma kept_remove_from x es : forall w w', remove_edges_from x es w = Ok w' -> kept w w'.
Proof.
  induction es as [|y es IH]; cbn; intros w w' E; [injection E as <-; apply kept_refl|].
  apply bind_inv in E as (w1 & E1 & E). eapply kept_trans; [by eapply kept_remove_edge | by apply IH].
Qed.

Lemma kept_remove_to x es : forall w w', remove_edges_to x es w = Ok w' -> kept w w'.
Proof.
  induction es as [|y es IH]; cbn; intros w w' E; [injection E as <-; apply kept_refl|].
  apply bind_inv in E as (w1 & E1 & E). eapply kept_trans; [by eapply kept_remove_edge | by apply IH].
Qed.

Lemma kept_add_active l : forall overlaps w r w', add_outgoing_active overlaps l w = Ok (r, w') -> kept w w'.
Proof.
  induction overlaps as [|o rest IH]; cbn; intros w r w' E; [runs; apply kept_refl|].
  destruct (_ <? _); [runs; apply kept_refl|]. destruct (negb _); [by eapply IH|].
  apply bind_inv in E as ([e w1] & E1 & E). eapply kept_trans; [by eapply kept_add_edge|].
  destruct (negb _); [|by eapply IH]. apply bind_inv in E as (w2 & E2 & [= _ <-]). by eapply kept_remove_from.
Qed.

Lemma kept_add_pending l : forall overlaps w r w', add_outgoing_pending overlaps l w = Ok (r, w') -> kept w w'.
Proof.
  induction overlaps as [|o rest IH]; cbn; intros w r w' E; [runs; apply kept_refl|].
  destruct (negb _); [by eapply IH|].
  apply bind_inv in E as ([e w1] & E1 & E). eapply kept_trans; [by eapply kept_add_edge|].
  destruct (negb _); [|by eapply IH]. apply bind_inv in E as (w2 & E2 & [= _ <-]). by eapply kept_remove_from.
Qed.

Lemma kept_add_incoming l : forall overlaps w r w', add_incoming overlaps l w = Ok (r, w') -> kept w w'.
Proof.
  induction overlaps as [|o rest IH]; cbn; intros w r w' E; [runs; apply kept_refl|].
  destruct (negb _); [by eapply IH|].
  apply bind_inv in E as ([e w1] & E1 & E). eapply kept_trans; [by eapply kept_add_edge|].
  destruct (negb _); [|by eapply IH]. apply bind_inv in E as (w2 & E2 & [= _ <-]). by eapply kept_remove_to.
Qed.

Lemma kept_wakeup vp l w : kept w (lf_wakeup_lock vp l w).
Proof. unfold lf_wakeup_lock. destruct (negb _); by apply kept_same. Qed.

Lemma kept_update_edges vp l all : forall es granted w r w', update_edges es vp l all granted w = Ok (r, w') -> kept w w'.
Proof.
  induction es as [|d es IH]; cbn; intros granted w r w' E; [runs; apply kept_refl|].
  destruct (_ || _); [|by eapply IH]. apply bind_inv in E as (w1 & E1 & E).
  eapply kept_trans; [by eapply kept_remove_edge|]. destruct (is_empty _); [|by eapply IH].
  eapply kept_trans; [apply (kept_wakeup vp d) | by eapply IH].
Qed.

Lemma kept_set_start vp l n granted w r w' : lf_set_start vp l n granted w = Ok (r, w') -> kept w w'.
Proof.
  unfold lf_set_start. intros E. apply bind_inv in E as ([] & _ & E).
  eapply kept_trans; [apply (kept_upd l (set_lf_start n) w); done|].
  eapply kept_trans; [|by eapply kept_update_edges]. by apply kept_same.
Qed.

Lemma kept_set_end vp l n granted w r w' : lf_set_end vp l n granted w = Ok (r, w') -> kept w w'.
Proof.
  unfold lf_set_end. intros E. apply bind_inv in E as ([] & _ & E).
  eapply kept_trans; [apply (kept_upd l (set_lf_end n) w); done|]. by eapply kept_update_edges.
Qed.

Lemma kept_alloc_lock lo f w : let '(l, w1) := lf_alloc_lock lo w in kept w (upd_lk l f w1).
Proof.
  unfold lf_alloc_lock. set (w1 := if lo =? 0 then _ else _).
  assert (locks w1 = locks w /\ next_addr w1 = next_addr w + 1) as [El En] by (unfold w1; by destruct (lo =? 0)).
  split; [cbn; lia|]. intros k x' (y & Hy & ->)%upd_lk_lookup Hk. cbn in Hy. rewrite El, lookup_insert_ne in Hy by lia.
  exists y. split; [done|]. destruct (decide (k = next_addr w)); [lia | done].
Qed.

Lemma kept_split vp l1 l2 granted w r w' : lf_split vp l1 l2 granted w = Ok (r, w') -> kept w w'.
Proof.
  unfold lf_split. destruct (_ =? _); [apply kept_set_start|]. destruct (_ =? _); [apply kept_set_end|].
  set (o := lf_owner _). set (n := lf_end (lk w l2) + 1). intros E. unfold copy_lock in E.
  destruct (lf_alloc_lock o w) as [s w1] eqn:Ea. set (f := fun _ : lockf_entry => _) in E.
  pose proof (kept_alloc_lock o f w) as H1. rewrite Ea in H1.
  apply bind_inv in E as ([e w2] & E2 & E). apply bind_inv in E as ([g w3] & E3 & [= _ <-]).
  eapply kept_trans; [exact H1|]. eapply kept_trans.
  2: { eapply kept_trans; [by eapply kept_add_incoming|]. eapply kept_trans; [by eapply kept_set_end|]. by apply kept_same. }
  destruct (flag _ _); [by apply kept_same | apply kept_refl].
Qed.

Lemma kept_drop vp l granted w r w' : drop_overlap vp l granted w = Ok (r, w') -> kept w w'.
Proof.
  unfold drop_overlap. intros E. apply bind_inv in E as ([g w1] & E1 & E). apply bind_inv in E as ([b w2] & E2 & [= _ <-]).
  eapply kept_trans; [|by eapply kept_free]. eapply kept_trans; [|by eapply kept_update_edges]. by apply kept_same.
Qed.

Lemma kept_overlaps vp l : forall fuel overlap granted w r w', activate_overlaps fuel vp l overlap granted w = Ok (r, w') -> kept w w'.
Proof.
  induction fuel as [|fuel IH]; cbn; intros overlap granted w r w' E; [done|].
  apply bind_inv in E as ([c rest] & _ & E). destruct rest as [|ov next]; [runs; apply kept_refl|].
  destruct (_ =? _); [by eapply kept_drop|]. destruct (_ =? _); [by eapply kept_split|].
  destruct (_ =? _). { apply bind_inv in E as ([g w1] & E1 & E). eapply kept_trans; [by eapply kept_drop | by eapply IH]. }
  destruct (_ =? _). { apply bind_inv in E as ([g w1] & E1 & E). eapply kept_trans; [by eapply kept_set_end | by eapply IH]. }
  destruct (_ =? _); [by eapply kept_set_start|]. runs. apply kept_refl.
Qed.

Lemma kept_granted vp : forall fuel granted w w', activate_granted fuel vp granted w = Ok w' -> kept w w'.
Proof.
  induction fuel as [|fuel IH]; intros [|l granted] w w' E; cbn [activate_granted] in E; try done; try (injection E as <-; apply kept_refl).
  apply bind_inv in E as ([g w1] & E1 & E). eapply kept_trans; [by eapply kept_overlaps|].
  eapply kept_trans; [|by eapply IH]. destruct (negb _); by apply kept_same.
Qed.

Lemma kept_activate vp l w w' : lf_activate_lock vp l w = Ok w' -> kept w w'.
Proof. apply kept_granted. Qed.

Lemma kept_activate_all vp : forall granted w w', activate_all vp granted w = Ok w' -> kept w w'.
Proof.
  induction granted as [|l granted IH]; cbn; intros w w' E; [injection E as <-; apply kept_refl|].
  apply bind_inv in E as (w1 & E1 & E). eapply kept_trans; [by eapply kept_activate | by apply IH].
Qed.

Lemma kept_cancel_lock vp l w w' : lf_cancel_lock vp l w = Ok w' -> kept w w'.
Proof.
  unfold lf_cancel_lock. intros E. apply bind_inv in E as (w1 & E1 & E). apply bind_inv in E as ([g w2] & E2 & E).
  apply bind_inv in E as ([b w3] & E3 & E). eapply kept_trans; [|by eapply kept_activate_all].
  eapply kept_trans; [|by eapply kept_free]. eapply kept_trans; [|by eapply kept_update_edges].
  eapply kept_trans; [|by eapply kept_remove_from]. by apply kept_same.
Qed.

(** * Edges from a new lock, and a request that is given up *)

(** Membership in lists that are put together. *)
Ltac mem := cbn [app] in *; rewrite ?elem_of_app, ?elem_of_cons, ?elem_of_app, ?elem_of_nil in *; tauto.

(** A lock that was woken is pending no more. *)
Definition woken_ok (w : lock_world) : Prop := forall x, x ∈ woken w -> x < next_addr w /\ forall v, x ∉ pending w v.

Lemma woken_same w w' : woken w' = woken w -> next_addr w <= next_addr w' -> (forall v, pending w' v = pending w v) ->
  woken_ok w -> woken_ok w'.
Proof. intros E Hn Hp H x Hx. rewrite E in Hx. destruct (H x Hx) as [? Hnp]. split; [lia|]. intros v. by rewrite Hp. Qed.

Lemma woken_grant S vp X G w w' : base S vp X w -> (forall v, v <> vp -> pending w' v = pending w v) ->
  pending w vp ≡ₚ G ++ pending w' vp -> next_addr w <= next_addr w' -> (forall x, x ∈ woken w' -> x ∈ woken w \/ x ∈ G) ->
  woken_ok w -> woken_ok w'.
Proof.
  intros Hb Hp HG Hn Hw H x Hx. destruct (Hw x Hx) as [Hxw|HxG].
  - destruct (H x Hxw) as [? Hnp]. split; [lia|]. intros v. destruct (decide (v = vp)) as [->|Hv]; [|by rewrite Hp].
    intros Hx'. apply (Hnp vp). rewrite HG. apply elem_of_app. by right.
  - assert (x ∈ pending w vp) as Hxp by (rewrite HG; apply elem_of_app; by left).
    destruct (pending_placed S vp X w vp x Hb Hxp) as (y & Hy & _ & _ & _ & Hun & Hnd).
    destruct (b_alloc _ _ _ _ Hb x y Hy) as ([_ ?] & _). split; [lia|]. intros v Hv. rewrite HG in Hnd.
    apply NoDup_app in Hnd as (_ & Hnd & _). apply (Hnd x HxG). destruct (decide (v = vp)) as [->|Hne]; [done|].
    rewrite Hp in Hv by done. by destruct Hne; apply Hun.
Qed.

(** What a call leaves alone: [C] are the requests that it cancels. *)
Record call_frame (vp : Z) (C : list Z) (w w' : lock_world) : Prop := CallFrame {
  cf_other v : v <> vp -> st w' v = st w v;
  cf_threads : ls_threads (st w' vp) = ls_threads (st w vp);
  cf_states v : is_Some (lf_states w' !! v) <-> is_Some (lf_states w !! v);
  cf_doomed : doomed w' = doomed w;
  cf_lock_states : lf_lock_states w' = lf_lock_states w;
  cf_kept : kept w w';
  cf_woken x : x ∈ woken w -> x ∈ woken w';
  cf_lost d : d ∈ pending w vp -> lf_async_task (lk w d) = 0 -> d ∈ pending w' vp \/ d ∈ C \/ d ∈ woken w';
  cf_elsewhere v k : v <> vp -> k ∈ active w v -> lk w' k = lk w k;
  cf_woke : woken_ok w -> woken_ok w';
}.

Lemma call_frame_refl vp w : call_frame vp [] w w.
Proof. split; try done; [apply kept_refl | auto]. Qed.

Lemma elsewhere S vp X w v k : base S vp X w -> v <> vp -> k ∈ active w v ->
  is_Some (locks w !! k) /\ (k ∉ active w vp) /\ (k ∉ X) /\ (k ∉ pending w vp).
Proof.
  intros Hb Hv Hk. destruct (active_placed S vp X w v k Hb Hk) as (x & Hx & Hxv & Hnp & _ & Hun & _).
  split; [by exists x|]. split; [intros Ha; by apply Hv; symmetry; apply Hun|]. split; [|apply Hnp].
  intros HX. destruct (b_places _ _ _ _ Hb vp k) as (y & Hy & Hyv); [|congruence].
  unfold places. rewrite Z.eqb_refl. apply elem_of_app. by left.
Qed.

Lemma act_call_frame S vp X A G w w' : base S vp X w -> (forall k, k ∈ A -> k ∈ X \/ k ∈ pending w vp) ->
  act_frame vp A G w w' -> kept w w' -> call_frame vp [] w w'.
Proof.
  intros Hb HA Hf Hk. pose proof Hf as [H1 H2 H3 H4 H5 H6 H7 H8 H9 H10 H11 H12]. split; try done.
  - intros d Hd Ht. rewrite H2 in Hd. apply elem_of_app in Hd as [Hd|Hd]; [right; right; by apply H11 | by left].
  - intros v k Hv Hka. destruct (elsewhere S vp X w v k Hb Hv Hka) as (? & ? & HnX & Hnp).
    eapply af_lk; [exact Hf | done | done|]. intros [?|?]%HA; [by apply HnX | by apply Hnp].
  - apply (woken_grant S vp X G); try done. intros v Hv. by rewrite H1.
Qed.

Lemma same_call_frame vp w w' : (forall v, st w' v = st w v) -> (forall v, is_Some (lf_states w' !! v) <-> is_Some (lf_states w !! v)) ->
  doomed w' = doomed w -> lf_lock_states w' = lf_lock_states w -> woken w' = woken w -> kept w w' ->
  (forall v k, v <> vp -> k ∈ active w v -> lk w' k = lk w k) -> call_frame vp [] w w'.
Proof.
  intros Hst Hs Hd Hl Hw Hk He. split; try done.
  - by rewrite Hst.
  - intros x. by rewrite Hw.
  - intros d Hdp _. left. by rewrite Hst.
  - apply woken_same; [done | apply Hk|]. intros v. by rewrite Hst.
Qed.

Lemma edge_call_frame vp w w' : edge_frame w w' -> call_frame vp [] w w'.
Proof.
  intros Hf. apply same_call_frame; try apply Hf.
  - intros v. by apply ef_st.
  - intros v. by rewrite (ef_states _ _ Hf).
  - apply kept_same; apply Hf.
  - intros v k _ _. by apply ef_lk.
Qed.

Lemma call_frame_trans S vp X C1 C2 w1 w2 w3 : base S vp X w1 -> base S vp X w2 \/ (exists S' X', base S' vp X' w2) ->
  call_frame vp C1 w1 w2 -> call_frame vp C2 w2 w3 -> call_frame vp (C1 ++ C2) w1 w3.
Proof.
  intros Hb1 Hb2 [A1 A2 A3 A4 A5 A6 A7 A8 A9 A10] [B1 B2 B3 B4 B5 B6 B7 B8 B9 B10]. split; try congruence.
  - intros v Hv. by rewrite B1, A1.
  - intros v. by rewrite B3, A3.
  - by eapply kept_trans.
  - intros x Hx. by apply B7, A7.
  - intros d Hd Ht. rewrite elem_of_app. destruct (A8 d Hd Ht) as [Hd2|[?|?]]; [|by auto|by auto].
    assert (exists S' X', base S' vp X' w2) as (S' & X' & Hb) by (destruct Hb2 as [?|?]; eauto).
    destruct (pending_placed S' vp X' w2 vp d Hb Hd2) as (x2 & Hx2 & _).
    destruct (pending_placed S vp X w1 vp d Hb1 Hd) as (x1 & Hx1 & _).
    destruct (b_alloc _ _ _ _ Hb1 d x1 Hx1) as ([_ Hlt] & _).
    destruct A6 as [_ A6]. destruct (A6 d x2 Hx2 Hlt) as (x & Hx & _ & _ & _ & E).
    destruct (B8 d Hd2) as [?|[?|?]]; auto. rewrite (lk_Some w2 d x2 Hx2), E. by rewrite <- (lk_Some w1 d x Hx).
  - intros v k Hv Hk. rewrite (B9 v); [by apply (A9 v) | done | by rewrite A1].
  - auto.
Qed.

Lemma lock_at_ext w w' vp o b : active w' vp = active w vp -> (forall k, k ∈ active w vp -> lk w' k = lk w k) ->
  lock_at w' vp o b = lock_at w vp o b.
Proof.
  intros Ea. unfold lock_at. rewrite Ea. clear Ea. induction (active w vp) as [|k l IH]; intros Hk; cbn; [done|].
  rewrite (Hk k) by (by left). destruct (_ && _); cbn; [by rewrite (Hk k) by (by left)|]. apply IH. intros; apply Hk. by right.
Qed.

(** ** A lock in hand *)

Lemma hand_placed S vp X l w : base S vp X w -> l ∈ X ->
  is_Some (locks w !! l) /\ (forall v, l ∉ active w v) /\ (forall v, l ∉ pending w v).
Proof.
  intros Hb Hl. assert (l ∈ places vp X w vp) as Hp by (unfold places; rewrite Z.eqb_refl, elem_of_app; by left).
  destruct (b_places _ _ _ _ Hb vp l Hp) as (x & Hx & Hv). split; [by exists x|]. split; [|by eapply st_owner_not_pending; [exact Hb | right]].
  intros v Ha. destruct (active_placed S vp X w v l Hb Ha) as (y & Hy & Hv' & _ & HnX & _). apply HnX; [congruence | done].
Qed.

Lemma hand_no_edges S vp R K l w : good S vp R K [] w -> l ∈ R -> l ∉ K ->
  (forall q, (l, q) ∉ edges w) /\ (forall p, (p, l) ∉ edges w).
Proof.
  intros [Hb Hw _ _ _ _] Hl HK. destruct (hand_placed S vp _ l w Hb Hl) as (_ & Ha & Hp). split.
  - intros q Hq. destruct (w_edge _ _ _ _ Hw l q Hq) as (v & Hv & _). by apply (Hp v).
  - intros p Hq. destruct (w_edge _ _ _ _ Hw p l Hq) as (v & _ & [[-> _]|[Hin _]]).
    + by eapply no_zero_edge.
    + rewrite elem_of_app in Hin. destruct Hin as [Hin|Hin]; [|by apply (Hp v)]. unfold held in Hin.
      rewrite elem_of_app in Hin. destruct Hin as [Hin|Hin]; [|by apply (Ha v)]. destruct (v =? vp); [done | by apply elem_of_nil in Hin].
Qed.

Lemma hand_free_ok S vp l R K w : good S vp (l :: R) K [] w -> l ∉ K ->
  exists freed w', lf_free_lock l w = Ok (freed, w') /\ good S vp R K [] w' /\ call_frame vp [] w w' /\
    free_frame l freed w w' /\ (freed = true <-> lf_refs (lk w l) = 1) /\ forall o b, lock_at w' vp o b = lock_at w vp o b.
Proof.
  intros Hg HlK. destruct (hand_no_edges S vp (l :: R) K l w Hg ltac:(by left) HlK) as [Hout Hin].
  pose proof Hg as [Hb Hw Hwt Hs Hst Hsub]. destruct (hand_placed S vp _ l w Hb) as (_ & Ha & Hp); [by left|].
  destruct (free_base S vp _ S R l w Hb) as (freed & w' & E & Hb' & Hf & Hfr); [by left | done |].
  exists freed, w'. split; [done|]. assert (forall v, st w' v = st w v) as Hst' by (intros v; unfold st; by rewrite (ff_states _ _ _ _ Hf)).
  assert (forall v k, k ∈ active w v -> lk w' k = lk w k) as Hlk.
  { intros v k Hk. eapply free_frame_lk; [done|]. intros ->. by apply (Ha v). }
  split; [|split; [|split; [done|split; [done|]]]].
  - split; try done.
    + apply (waits_free vp K w w' l freed); try done.
      * intros v. unfold held. rewrite elem_of_app. intros [Hk|Hk]; [|by apply (Ha v)]. destruct (v =? vp); [done | by apply elem_of_nil in Hk].
      * intros p. by eapply no_zero_edge.
    + intros v p. rewrite Hst', (ff_edges _ _ _ _ Hf). apply Hwt.
    + intros v. rewrite Hst'. apply (start_le_ext w); [by apply Hlk | apply Hs].
    + by rewrite (ff_states _ _ _ _ Hf).
    + intros k Hk. destruct (proj1 (elem_of_cons R k l) (Hsub k Hk)) as [->|?]; done.
  - apply same_call_frame; try apply Hf; try done; [intros v; by rewrite (ff_states _ _ _ _ Hf) | by eapply kept_free | intros v k _; by apply Hlk].
  - intros o b. apply lock_at_ext; [by rewrite Hst' | by apply Hlk].
Qed.

(** ** A request that is given up *)

Lemma remove_edges_from_ok S vp X x es : forall w,
  base S vp X w -> NoDup es -> (forall y, y ∈ es <-> (x, y) ∈ edges w) ->
  exists w', remove_edges_from x es w = Ok w' /\ base S vp X w' /\ edge_frame w w' /\
    forall e, e ∈ edges w' <-> e ∈ edges w /\ fst e <> x.
Proof.
  induction es as [|y es IH]; intros w Hb Hnd Hes; cbn [remove_edges_from].
  { exists w. split; [done|]. split; [done|]. split; [apply edge_frame_refl|]. intros [a b]. cbn.
    split; [|by intros []]. intros He. split; [done|]. intros ->. apply Hes in He. by apply elem_of_nil in He. }
  apply NoDup_cons in Hnd as [Hye Hnd]. assert ((x, y) ∈ edges w) as Hxy by (apply Hes; by left).
  destruct (remove_edge_base S vp X w x y Hb Hxy) as (w1 & -> & Hb1 & Hf1 & He1). rewrite bind_Ok.
  assert (forall e, e ∈ edges w1 <-> e ∈ edges w /\ e <> (x, y)) as He1' by (intros; rewrite He1; apply remove_pair_elem, Hb).
  destruct (IH w1 Hb1 Hnd) as (w' & E & Hb' & Hf' & He').
  - intros a. rewrite He1', <- Hes, elem_of_cons. split.
    + intros Ha. split; [by right|]. intros [= ->]. done.
    + intros [[->|?] Hne]; [done|done].
  - exists w'. split; [done|]. split; [done|]. split; [by eapply edge_frame_trans|].
    intros e. rewrite He', He1'. split; [by intros [[]]|]. intros [? Hn]. split; [|done]. split; [done|].
    intros ->. done.
Qed.

Lemma remove_outgoing_ok S vp X x w : base S vp X w ->
  exists w', lf_remove_outgoing x w = Ok w' /\ base S vp X w' /\ edge_frame w w' /\
    forall e, e ∈ edges w' <-> e ∈ edges w /\ fst e <> x.
Proof.
  intros Hb. apply remove_edges_from_ok; [done | apply NoDup_filter_snd, Hb | intros y; apply outedges_elem].
Qed.

Lemma activate_all_ok S vp R K : forall granted w, good S vp (granted ++ R) (granted ++ K) [] w -> (forall k, k ∈ K -> k ∈ R) ->
  exists acts G w', activate_all vp granted w = Ok w' /\ good S vp R K [] w' /\ call_frame vp [] w w' /\
    pending w vp ≡ₚ G ++ pending w' vp /\ acts ≡ₚ granted ++ G /\
    forall o b, lock_at w' vp o b = fold_left set_range (map (lk w) acts) (lock_at w vp) o b.
Proof.
  induction granted as [|l granted IH]; intros w Hg HK; cbn [activate_all].
  { exists [], [], w. split; [done|]. split; [done|]. split; [apply call_frame_refl | done]. }
  pose proof Hg as [Hb Hw _ _ _ _].
  assert ((lf_type (lk w l) =? F_UNLCK) = false) as Eu.
  { destruct (w_type _ _ _ _ Hw vp l) as [->| ->]; [|done|done]. unfold held. rewrite Z.eqb_refl. mem. }
  pose proof (activate_lock_ok S vp (granted ++ R) (granted ++ K) l w) as Ha. rewrite Eu in Ha.
  destruct Ha as (acts1 & w1 & E & Hg1 & Hf1 & Hat); [done | intros k; rewrite !elem_of_app; intros [?|?]; auto |]. rewrite E, bind_Ok.
  destruct (IH w1 Hg1 HK) as (acts & G & w' & E' & Hg' & Hf' & HG & Hacts & Hat').
  exists (l :: acts1 ++ acts), (acts1 ++ G), w'. split; [done|]. split; [done|].
  pose proof (af_pending _ _ _ _ _ Hf1) as Hp1. split; [|split; [|split]].
  - change [] with ([] ++ [] : list Z). eapply call_frame_trans; [exact Hb | right; do 2 eexists; apply Hg1 | | exact Hf'].
    eapply act_call_frame; [exact Hb | | exact Hf1 | by eapply kept_activate].
    intros k [->|Hk]%elem_of_cons; [left; by left | right; rewrite Hp1; apply elem_of_app; by left].
  - rewrite Hp1, HG. by rewrite app_assoc.
  - rewrite Hacts. cbn. apply perm_skip. rewrite !app_assoc. f_equiv. apply Permutation_app_comm.
  - intros o b. rewrite Hat'. cbn [map fold_left]. rewrite map_app, fold_left_app.
    assert (map (lk w1) acts = map (lk w) acts) as ->; [|by apply set_ranges_ext].
    apply map_ext_in. intros d Hd%list_elem_of_In. rewrite Hacts in Hd.
    pose proof (b_nodup _ _ _ _ Hb vp) as Hnd. unfold places in Hnd. rewrite Z.eqb_refl in Hnd. cbn in Hnd.
    apply NoDup_cons in Hnd as [Hnl Hnd]. rewrite Hp1, HG in Hnl, Hnd.
    assert (d <> l /\ d ∉ acts1) as [Hdl Hd1].
    { split; [intros ->; apply Hnl; mem|]. rewrite <- !app_assoc in Hnd. apply elem_of_app in Hd as [Hd|Hd].
      - apply NoDup_app in Hnd as (_ & Hnd & _). intros Hd1. apply (Hnd d Hd). mem.
      - do 3 (apply NoDup_app in Hnd as (_ & _ & Hnd)). apply NoDup_app in Hnd as (_ & Hnd & _). intros Hd1. apply (Hnd d Hd1). mem. }
    eapply (af_lk_hand S vp _ _ _ w w1); [exact Hb | exact Hf1 | | mem].
    rewrite Hp1, HG. mem.
Qed.

Lemma remove_pending_ok S vp X l w : base S vp X w -> is_Some (lf_states w !! vp) -> l ∈ pending w vp ->
  let w' := remove_pending vp l w in
  base S vp (l :: X) w' /\ (forall v, active w' v = active w v) /\
  (forall v p, p ∈ pending w' v <-> p ∈ pending w v /\ p <> l) /\
  (forall v, v <> vp -> st w' v = st w v) /\ ls_threads (st w' vp) = ls_threads (st w vp) /\
  (forall v, is_Some (lf_states w' !! v) <-> is_Some (lf_states w !! v)) /\ pending w' vp = list_remove l (pending w vp).
Proof.
  intros Hb Hs Hl w'. destruct (pending_placed S vp X w vp l Hb Hl) as (x & _ & _ & _ & _ & Hun & Hnd).
  assert (forall v, st w' v = if decide (v = vp) then LockState (active w vp) (list_remove l (pending w vp)) (ls_threads (st w vp)) else st w v) as Hst.
  { intros v. unfold w', remove_pending, set_pending. by rewrite st_upd. }
  split; [|split; [|split; [|split; [|split; [|split]]]]].
  - apply (base_lists S vp vp X (l :: X) w); try done. intros v. unfold places. rewrite Hst.
    destruct (decide (v = vp)) as [->|Hne]; [|by rewrite (proj2 (Z.eqb_neq v vp))]. cbn. rewrite Z.eqb_refl.
    rewrite (list_remove_perm l (pending w vp) Hl) at 2. cbn. by rewrite !Permutation_middle.
  - intros v. rewrite Hst. by destruct (decide (v = vp)) as [->|].
  - intros v p. rewrite Hst. destruct (decide (v = vp)) as [->|Hne]; [by apply list_remove_elem|].
    split; [|by intros []]. intros Hp. split; [done|]. intros ->. by apply Hne, Hun.
  - intros v Hv. by rewrite Hst, decide_False.
  - by rewrite Hst, decide_True by done.
  - intros v. apply upd_st_states.
  - by rewrite Hst, decide_True by done.
Qed.

Lemma cancel_lock_ok S vp R K l w : good S vp R K [] w -> l ∈ pending w vp ->
  exists G w', lf_cancel_lock vp l w = Ok w' /\ good S vp R K [] w' /\ call_frame vp [l] w w' /\
    pending w vp ≡ₚ l :: G ++ pending w' vp /\
    forall o b, lock_at w' vp o b = fold_left set_range (map (lk w) G) (lock_at w vp) o b.
Proof.
  intros Hg Hl. pose proof Hg as [Hb Hw Hwt Hs Hst Hsub]. unfold lf_cancel_lock.
  destruct (remove_pending_ok S vp _ l w Hb Hst Hl) as (Hb1 & Ha1 & Hp1 & Hne1 & Hth1 & Hss1 & Epl).
  set (w1 := remove_pending vp l w) in *.
  destruct (remove_outgoing_ok S vp _ l w1 Hb1) as (w2 & E2 & Hb2 & Hf2 & He2). rewrite E2, bind_Ok.
  assert (forall v, st w2 v = st w1 v) as Hst2 by (intros; by apply ef_st).
  assert (forall k, lk w2 k = lk w k) as Hlk by (intros; by apply (ef_lk _ _ _ Hf2)).
  assert (forall e, e ∈ edges w2 <-> e ∈ edges w /\ fst e <> l) as He by done.
  assert (forall v, active w2 v = active w v) as Ha2 by (intros v; by rewrite Hst2).
  assert (forall v p, p ∈ pending w2 v <-> p ∈ pending w v /\ p <> l) as Hp2 by (intros v p; by rewrite Hst2).
  assert (forall v, held vp K w2 v = held vp K w v) as Hh by (intros v; unfold held; by rewrite Ha2).
  destruct (pending_placed S vp _ w vp l Hb Hl) as (x & _ & _ & Hna & HnR & Hun & _). specialize (HnR eq_refl).
  destruct (update_deps_ok S vp (l :: R) K l true [] w2) as (G & w3 & E3 & Hb3 & Hw3 & Hwt3 & Hf3 & El3 & Ea3 & _); try done.
  { destruct Hw as [H1 H2 H3 H4 H5 H6]. split.
    - intros v y. rewrite Hh, elem_of_app, Hp2, Hlk. intros Hy. apply (H1 v), elem_of_app. intuition.
    - intros v y z. rewrite Hh, !Hlk. apply H2.
    - intros v y z. rewrite Ha2, !Hlk. apply H3.
    - intros p q [Hpq Hpl]%He. destruct (H4 p q Hpq) as (v & Hpv & Hq). exists v. rewrite Hp2. split; [done|].
      destruct Hq as [[-> _]|[Hq Hbl]]; [by apply no_zero_edge with (p := p) in Hb|]. rewrite Hh, !Hlk, elem_of_app, Hp2.
      rewrite elem_of_app in Hq. destruct (decide (q = l)) as [->|Hql]; [|right; intuition].
      destruct Hq as [Hq|Hq]; [right; auto|]. left. split; [done | by apply Hun].
    - intros v p q [Hp Hpl]%Hp2. rewrite Hh, !Hlk. intros Hq Hbl. apply He. split; [by apply (H5 v) | done].
    - intros v. eapply sorted_mono with (R := fun p q => blocks w p q = true -> (p, q) ∈ edges w).
      + intros p q [_ Hp]%Hp2 _ Hpq. rewrite !Hlk. intros Hbl. apply He. split; [by apply Hpq | done].
      + rewrite Hst2. destruct (decide (v = vp)) as [->|Hv]; [rewrite Epl; apply remove_sorted | rewrite Hne1 by done]; apply H6. }
  { intros v p [Hp Hpl]%Hp2. destruct (Hwt v p Hp) as [q Hq]. exists q. by apply He. }
  { rewrite (ef_states _ _ Hf2). by apply Hss1. }
  { intros v. rewrite Hp2. by intros []. }
  { intros v. rewrite Ha2. intros Hv. destruct (active_placed S vp _ w v l Hb Hv) as (_ & _ & _ & Hnp & _). by destruct (Hnp vp). }
  { intros v. rewrite Hh. unfold held. rewrite elem_of_app. intros [Hv|Hv].
    - destruct (v =? vp); [by apply HnR, Hsub | by apply elem_of_nil in Hv].
    - destruct (active_placed S vp _ w v l Hb Hv) as (_ & _ & _ & Hnp & _). by destruct (Hnp vp). }
  cbn [app] in Hw3. rewrite app_nil_r in E3. rewrite E3, bind_Ok.
  assert (forall d, d ∈ G -> d ∈ pending w vp /\ d <> l) as HG.
  { intros d Hd. apply Hp2. rewrite (gf_pending _ _ _ _ Hf3). apply elem_of_app. by left. }
  destruct (hand_free_ok S vp l (G ++ R) (G ++ K) w3) as (freed & w4 & E4 & Hg4 & Hf4 & Hff4 & _ & Hat4).
  { split; try done.
    - eapply base_perm; [|exact Hb3]. cbn. by rewrite Permutation_middle.
    - intros v. rewrite Ea3, Ha2. apply (start_le_ext w); [|apply Hs]. intros k _. unfold lk at 1. rewrite El3. apply Hlk.
    - apply (gf_states _ _ _ _ Hf3). rewrite (ef_states _ _ Hf2). by apply Hss1.
    - intros k. rewrite elem_of_cons, !elem_of_app. intros [?|?]; auto. }
  { rewrite elem_of_app. intros [[_ ?]%HG|?]; [done | by apply HnR, Hsub]. }
  rewrite E4, bind_Ok.
  destruct (activate_all_ok S vp R K G w4 Hg4 Hsub) as (acts & G' & w' & E' & Hg' & Hf' & HG' & Hacts & Hat').
  exists acts, w'. split; [done|]. split; [done|].
  assert (kept w w3) as Hk3.
  { eapply kept_trans; [|by eapply kept_update_edges]. eapply kept_trans; [|by eapply kept_remove_from]. by apply kept_same. }
  split.
  - assert (call_frame vp [l] w w3) as Hf.
    { split; try done.
      - intros v Hv. by rewrite (gf_other _ _ _ _ Hf3), Hst2, Hne1.
      - by rewrite (gf_threads _ _ _ _ Hf3), Hst2.
      - intros v. by rewrite (gf_states _ _ _ _ Hf3), (ef_states _ _ Hf2), Hss1.
      - by rewrite (gf_doomed _ _ _ _ Hf3), (ef_doomed _ _ Hf2).
      - by rewrite (gf_lock_states _ _ _ _ Hf3), (ef_lock_states _ _ Hf2).
      - intros y Hy. apply (gf_woken _ _ _ _ Hf3). by rewrite (ef_woken _ _ Hf2).
      - intros d Hd Ht. destruct (decide (d = l)) as [->|Hdl]; [right; left; by left|].
        assert (d ∈ pending w2 vp) as Hd2 by (by apply Hp2). rewrite (gf_pending _ _ _ _ Hf3) in Hd2.
        apply elem_of_app in Hd2 as [Hd2|Hd2]; [|by left]. right. right. apply (gf_wakes _ _ _ _ Hf3); [done|]. by rewrite Hlk.
      - intros v k _ _. unfold lk at 1. rewrite El3. apply Hlk.
      - apply (woken_grant S vp _ (l :: G) w w3 Hb).
        + intros v Hv. by rewrite (gf_other _ _ _ _ Hf3), Hst2, Hne1.
        + rewrite (list_remove_perm l (pending w vp) Hl), <- Epl, <- Hst2. cbn. constructor. exact (gf_pending _ _ _ _ Hf3).
        + apply Hk3.
        + intros y Hy. destruct (gf_woke _ _ _ _ Hf3 y Hy) as [Hy2|?]; [left; by rewrite (ef_woken _ _ Hf2) in Hy2 | right; by right]. }
    change [l] with ([l] ++ ([] ++ [])). eapply call_frame_trans; [exact Hb | right; do 2 eexists; exact Hb3 | exact Hf|].
    eapply call_frame_trans; [exact Hb3 | right; do 2 eexists; apply Hg4 | | exact Hf'].
    exact Hf4.
  - assert (pending w vp ≡ₚ l :: G ++ G' ++ pending w' vp) as Hperm.
    { rewrite (list_remove_perm l (pending w vp) Hl), <- Epl, <- Hst2, (gf_pending _ _ _ _ Hf3), <- HG'.
      assert (st w4 vp = st w3 vp) as -> by (unfold st; by rewrite (ff_states _ _ _ _ Hff4)). done. }
    split; [rewrite Hperm, Hacts; by rewrite app_assoc|].
    intros o b. rewrite Hat'. assert (map (lk w4) acts = map (lk w) acts) as ->.
    { apply map_ext_in. intros d Hd%list_elem_of_In. rewrite Hacts in Hd.
      rewrite (free_frame_lk _ _ _ _ _ Hff4); [unfold lk at 1; rewrite El3; apply Hlk|]. intros ->.
      pose proof (b_nodup _ _ _ _ Hb vp) as Hnd. unfold places in Hnd. rewrite !NoDup_app in Hnd. destruct Hnd as (_ & _ & _ & _ & Hnd).
      rewrite Hperm in Hnd. apply NoDup_cons in Hnd as [Hnl _]. apply Hnl. mem. }
    apply set_ranges_ext. intros o' b'. rewrite Hat4. apply lock_at_ext; [by rewrite Ea3, Ha2|].
    intros k _. unfold lk at 1. rewrite El3. apply Hlk.
Qed.

(** * Setting a lock *)

(** ** Edges from the lock *)

Lemma add_edge_locks x y w r w' : lf_add_edge x y w = Ok (r, w') -> locks w' = locks w.
Proof.
  unfold lf_add_edge. intros E. apply bind_inv in E as ([] & _ & E). apply bind_inv in E as ([e g] & _ & E).
  assert (forall l w, locks (lf_alloc_vertex l w) = locks w) as Hv.
  { intros l w0. unfold lf_alloc_vertex. cbn zeta. by destruct (vertex_of w0 l =? 0). }
  destruct (negb _); injection E as _ <-; cbn; by rewrite !Hv.
Qed.

(** The search among the active locks may stop early, since they are sorted. *)
Lemma add_active_eq l : forall overlaps w, StronglySorted (start_le w) overlaps ->
  add_outgoing_active overlaps l w = add_outgoing_pending overlaps l w.
Proof.
  assert (forall overlaps w, (forall k, k ∈ overlaps -> blocks w l k = false) -> add_outgoing_pending overlaps l w = Ok (0, w)) as Hskip.
  { induction overlaps as [|k rest IH]; intros w Hk; cbn; [done|]. rewrite (Hk k) by (by left). apply IH. intros; apply Hk. by right. }
  induction overlaps as [|k rest IH]; intros w Hs; cbn [add_outgoing_active add_outgoing_pending]; [done|].
  apply StronglySorted_inv in Hs as [Hs Hk]. rewrite Forall_forall in Hk.
  assert (Hno : lf_end (lk w l) < lf_start (lk w k) -> forall q, q = k \/ q ∈ rest -> blocks w l q = false).
  { intros Hlt q Hq. unfold lf_blocks. apply andb_false_iff. right. apply overlaps_false. right.
    destruct Hq as [->|Hq]; [done|]. specialize (Hk q Hq). unfold start_le in Hk. lia. }
  destruct (Z.ltb_spec (lf_end (lk w l)) (lf_start (lk w k))) as [Hlt|_].
  { specialize (Hno Hlt). rewrite (Hno k) by auto. cbn. symmetry. apply Hskip. auto. }
  destruct (negb _); [by apply IH|]. destruct (lf_add_edge l k w) as [[e w1]|] eqn:E; cbn; [|done].
  destruct (negb _); [done|]. apply IH. apply (start_le_ext w); [|done]. intros q _. unfold lk. by rewrite (add_edge_locks _ _ _ _ _ E).
Qed.

Lemma add_outgoing_ok S vp X l targets : forall w,
  base S vp X w -> is_Some (locks w !! l) -> (forall q, q ∈ targets -> is_Some (locks w !! q) /\ (l, q) ∉ edges w) -> NoDup targets ->
  exists err w', add_outgoing_pending targets l w = Ok (err, w') /\ base S vp X w' /\ edge_frame w w' /\
    ((err = 0 /\ (forall e, e ∈ edges w' <-> e ∈ edges w \/ exists q, q ∈ targets /\ e = (l, q) /\ blocks w l q = true) /\
      forall q, q ∈ targets -> blocks w l q = true -> ~ rtc (waits_for w) (lf_owner (lk w q)) (lf_owner (lk w l))) \/
     (err = EDEADLK /\ (forall e, e ∈ edges w' <-> e ∈ edges w /\ fst e <> l) /\
      exists q, q ∈ targets /\ blocks w l q = true /\ rtc (waits_for w) (lf_owner (lk w q)) (lf_owner (lk w l)))).
Proof.
  induction targets as [|q rest IH]; intros w Hb Hl Ht Hnd; cbn [add_outgoing_pending].
  { exists 0, w. split; [done|]. split; [done|]. split; [apply edge_frame_refl|]. left. split; [done|].
    split; [|by intros q []%elem_of_nil]. intros e. split; [by left|]. intros [?|(q & []%elem_of_nil & _)]; done. }
  apply NoDup_cons in Hnd as [Hq Hnd]. destruct (Ht q ltac:(by left)) as [Hqs Hqe].
  destruct (blocks w l q) eqn:Eb; cbn [negb].
  2: { destruct (IH w Hb Hl) as (err & w' & E & Hb' & Hf' & Hr); [intros; apply Ht; by right | done|].
    exists err, w'. do 3 (split; [done|]). destruct Hr as [(-> & Hr & Hn)|(-> & Hr & k & Hk & Hbl & Hp)].
    - left. split; [done|]. split.
      + intros e. rewrite Hr. split; (intros [?|(k & Hk & -> & ?)]; [by left | right; exists k]).
        * split; [by right | done].
        * apply elem_of_cons in Hk as [->|Hk]; [congruence | done].
      + intros k [->|Hk]%elem_of_cons; [congruence | by apply Hn].
    - right. split; [done|]. split; [done|]. exists k. split; [by right | done]. }
  destruct (add_edge_base S vp X w l q Hb Hl Hqs (blocks_owner _ _ Eb) Hqe) as (err & w1 & -> & Hb1 & Hf1 & Hr1).
  rewrite bind_Ok. assert (forall k, lk w1 k = lk w k) as Hlk by (intros; by apply ef_lk).
  destruct Hr1 as [(-> & He1 & Hpath)|(-> & He1 & Hpath)]; cbn [negb].
  - unfold EDEADLK at 1. cbn [Z.eqb negb].
    destruct (remove_outgoing_ok S vp X l w1 Hb1) as (w2 & -> & Hb2 & Hf2 & He2). rewrite bind_Ok.
    exists EDEADLK, w2. split; [done|]. split; [done|]. split; [by eapply edge_frame_trans|]. right. split; [done|].
    split; [intros e; by rewrite He2, He1|]. exists q. split; [by left | done].
  - cbn [Z.eqb negb].
    assert (forall a b, waits_for w1 a b -> waits_for w a b \/ a = lf_owner (lk w l)) as Hcut.
    { intros a b (p & r & Hpr & <- & <-). rewrite He1 in Hpr. rewrite !Hlk. apply elem_of_cons in Hpr as [[= -> ->]|Hpr]; [by right|].
      left. by exists p, r. }
    assert (forall a b, rtc (waits_for w) a b -> rtc (waits_for w1) a b) as Hmono.
    { intros a b. apply rtc_subrel. intros c d (p & r & Hpr & <- & <-). exists p, r. rewrite He1, !Hlk. split; [by right | done]. }
    destruct (IH w1 Hb1) as (err & w' & E & Hb' & Hf' & Hr); [by rewrite (ef_locks _ _ Hf1) | | done|].
    { intros k Hk. destruct (Ht k ltac:(by right)) as [? ?]. rewrite (ef_locks _ _ Hf1), He1. split; [done|].
      intros [?|?]%elem_of_cons; [|done]. by simplify_eq. }
    exists err, w'. split; [done|]. split; [done|]. split; [by eapply edge_frame_trans|].
    destruct Hr as [(-> & Hr & Hn)|(-> & Hr & k & Hk & Hbl & Hp)].
    + left. split; [done|]. split.
      * intros e. rewrite Hr, He1, elem_of_cons. split.
        -- intros [[->|?]|(k & Hk & -> & Hbl)]; [right; exists q; split; [by left | done] | by left|].
           right. exists k. rewrite !Hlk in Hbl. split; [by right | done].
        -- intros [?|(k & Hk & -> & Hbl)]; [by left; right|]. apply elem_of_cons in Hk as [->|Hk]; [by left; left|].
           right. exists k. by rewrite !Hlk.
      * intros k [->|Hk]%elem_of_cons Hbl; [done|]. intros Hr'%Hmono. apply (Hn k Hk); rewrite !Hlk; done.
    + right. split; [done|]. split.
      * intros e. rewrite Hr, He1, elem_of_cons. split; [intros [[->|?] ?]; done | intros []; auto].
      * exists k. rewrite !Hlk in *. split; [by right|]. split; [done|]. by apply (path_cut w w1).
Qed.

Lemma add_outgoing_app l b : forall a w, add_outgoing_pending (a ++ b) l w =
  ('(e, w1) ← add_outgoing_pending a l w; if negb (e =? 0) then Ok (e, w1) else add_outgoing_pending b l w1).
Proof.
  induction a as [|k a IH]; intros w; cbn; [done|]. destruct (negb _); [apply IH|].
  destruct (lf_add_edge l k w) as [[e w1]|]; cbn; [|done]. destruct (e =? 0) eqn:E; cbn; [apply IH|].
  destruct (lf_remove_outgoing l w1); cbn; [by rewrite E | done].
Qed.

Lemma add_outgoing_states l : forall targets w r w', add_outgoing_pending targets l w = Ok (r, w') -> lf_states w' = lf_states w.
Proof.
  assert (forall x y w r w', lf_add_edge x y w = Ok (r, w') -> lf_states w' = lf_states w) as Hadd.
  { intros x y w r w' E. unfold lf_add_edge in E. apply bind_inv in E as ([] & _ & E). apply bind_inv in E as ([e g] & _ & E).
    assert (forall l w, lf_states (lf_alloc_vertex l w) = lf_states w) as Hv.
    { intros l0 w0. unfold lf_alloc_vertex. cbn zeta. by destruct (vertex_of w0 l0 =? 0). }
    destruct (negb _); injection E as _ <-; cbn; by rewrite !Hv. }
  assert (forall x es w w', remove_edges_from x es w = Ok w' -> lf_states w' = lf_states w) as Hrem.
  { intros x es. induction es as [|y es IH]; cbn; intros w w' E; [by injection E as <-|].
    apply bind_inv in E as (w1 & E1 & E). unfold lf_remove_edge in E1. apply bind_inv in E1 as (g & _ & [= <-]).
    by rewrite (IH _ _ E). }
  induction targets as [|k rest IH]; cbn; intros w r w' E; [by injection E as _ <-|].
  destruct (negb _); [by eapply IH|]. apply bind_inv in E as ([e w1] & E1 & E). rewrite <- (Hadd _ _ _ _ _ E1).
  destruct (negb _); [|by eapply IH]. apply bind_inv in E as (w2 & E2 & [= _ <-]). by eapply Hrem.
Qed.

Lemma add_outgoing_eq vp l w : StronglySorted (start_le w) (active w vp) ->
  lf_add_outgoing vp l w = add_outgoing_pending (active w vp ++ pending w vp) l w.
Proof.
  intros Hs. unfold lf_add_outgoing. rewrite add_active_eq, add_outgoing_app by done.
  destruct (add_outgoing_pending (active w vp) l w) as [[e w1]|] eqn:E; cbn; [|done].
  destruct (negb _); [done|]. unfold st. by rewrite (add_outgoing_states _ _ _ _ _ E).
Qed.

(** ** The parts of [lf_setlock] *)

Definition conflict (w : lock_world) (vp l : Z) : Prop := exists k, k ∈ active w vp /\ blocks w l k = true.

Lemma getblock_ok w l : forall overlaps, StronglySorted (start_le w) overlaps ->
  match getblock w overlaps l with
  | Some k => k ∈ overlaps /\ blocks w l k = true
  | None => forall k, k ∈ overlaps -> blocks w l k = false
  end.
Proof.
  induction overlaps as [|k rest IH]; intros Hs; cbn [getblock]; [by intros k []%elem_of_nil|].
  apply StronglySorted_inv in Hs as [Hs Hk]. rewrite Forall_forall in Hk.
  destruct (Z.ltb_spec (lf_end (lk w l)) (lf_start (lk w k))) as [Hlt|_].
  { intros q Hq. unfold lf_blocks. apply andb_false_iff. right. apply overlaps_false. right.
    apply elem_of_cons in Hq as [->|Hq]; [done|]. specialize (Hk q Hq). unfold start_le in Hk. lia. }
  destruct (blocks w l k) eqn:E; cbn [negb]; [split; [by left | done]|].
  specialize (IH Hs). destruct (getblock w rest l) as [q|]; [split; [by right; apply IH | apply IH]|].
  intros q [->|Hq]%elem_of_cons; [done | by apply IH].
Qed.

Lemma lf_getblock_ok S vp R K l w : good S vp R K [] w ->
  match lf_getblock vp l w with
  | Some k => k ∈ active w vp /\ blocks w l k = true
  | None => ~ conflict w vp l
  end.
Proof.
  intros Hg. unfold lf_getblock. pose proof (getblock_ok w l (active w vp) (g_sorted _ _ _ _ _ _ Hg vp)) as H.
  destruct (getblock _ _ _); [done|]. intros (k & Hk & Hbl). by rewrite H in Hbl.
Qed.

(** The fields of a lock in hand. *)
Lemma hand_upd_ok S vp l R K f w : good S vp (l :: R) K [] w -> l ∉ K ->
  (forall x, same_lock x (f x) /\ lf_refs (f x) = lf_refs x /\ lf_start (f x) = lf_start x /\ lf_end (f x) = lf_end x) ->
  good S vp (l :: R) K [] (upd_lk l f w).
Proof.
  intros [Hb Hw Hwt Hs Hst Hsub] HlK Hf. destruct (hand_placed S vp _ l w Hb) as (_ & Ha & Hp); [by left|].
  assert (forall v k, k ∈ active w v -> lk (upd_lk l f w) k = lk w k) as Hlka.
  { intros v k Hk. apply lk_upd_ne. intros ->. by apply (Ha v). }
  split; try done.
  - apply base_upd; [done|]. intros x Hx. destruct (Hf x) as ((? & ? & _ & _) & ? & E1 & E2).
    destruct (b_alloc _ _ _ _ Hb l x Hx) as (_ & _ & Hrg & _). unfold in_range in *. rewrite E1, E2. done.
  - apply (waits_ext vp K 0 w); try done.
    + intros v k Hk. apply lk_upd_ne. intros ->. unfold held in Hk. cbn in Hk. rewrite elem_of_app in Hk.
      destruct Hk as [Hk|Hk]; [|by apply (Ha v)]. destruct (v =? vp); [done | by apply elem_of_nil in Hk].
    + intros v k Hk. apply lk_upd_ne. intros ->. by apply (Hp v).
    + intros p. by eapply no_zero_edge.
  - intros v. apply (start_le_ext w); [by apply Hlka | apply Hs].
Qed.

(** The lock, with an edge to each lock that blocks it, becomes pending. *)
Lemma pend_ok S vp l w w2 : good S vp [l] [] [] w -> lock_type (lk w l) -> conflict w vp l ->
  base S vp [l] w2 -> edge_frame w w2 ->
  (forall e, e ∈ edges w2 <-> e ∈ edges w \/ exists q, q ∈ active w vp ++ pending w vp /\ e = (l, q) /\ blocks w l q = true) ->
  good S vp [] [] [] (set_pending vp (l :: pending w2 vp) w2).
Proof.
  intros Hg Ht (k0 & Hk0 & Hbl0) Hb2 Hf He. pose proof Hg as [Hb [H1 H2 H3 H4 H5 H6] Hwt Hs Hst _]. cbn [app] in *.
  destruct (hand_placed S vp _ l w Hb) as (_ & Hna & Hnp); [by left|].
  assert (is_Some (lf_states w2 !! vp)) as Hst2 by (by rewrite (ef_states _ _ Hf)).
  set (w3 := set_pending vp (l :: pending w2 vp) w2).
  assert (forall v, st w2 v = st w v) as Hsw by (intros; by apply ef_st).
  assert (forall v, active w3 v = active w v /\ pending w3 v = if decide (v = vp) then l :: pending w v else pending w v) as Hl3.
  { intros v. unfold w3. destruct (pending_set vp (l :: pending w2 vp) w2 v Hst2) as [-> ->]. rewrite !Hsw. split; [done|].
    by destruct (decide (v = vp)) as [->|]. }
  assert (forall k, lk w3 k = lk w k) as Hlk by (intros; by apply (ef_lk _ _ _ Hf)).
  assert (forall v p, p ∈ pending w3 v <-> p ∈ pending w v \/ (v = vp /\ p = l)) as Hp3.
  { intros v p. destruct (Hl3 v) as [_ ->]. destruct (decide (v = vp)) as [->|]; [rewrite elem_of_cons|]; intuition. }
  assert (forall v, held vp [] w3 v = active w v /\ held vp [] w v = active w v) as Hh.
  { intros v. unfold held. destruct (Hl3 v) as [-> _]. by destruct (v =? vp). }
  split.
  - apply (base_lists S vp vp [l] [] w2); try done. intros v. unfold places. fold w3. destruct (Hl3 v) as [-> ->]. rewrite !Hsw.
    destruct (decide (v = vp)) as [->|Hv]; [|by rewrite (proj2 (Z.eqb_neq v vp))]. rewrite Z.eqb_refl. cbn. by rewrite Permutation_middle.
  - cbn [app]. split.
    + intros v y. fold w3. destruct (Hh v) as [-> E]. rewrite elem_of_app, Hp3, Hlk. intros [Hy|[Hy|[-> ->]]]; [| |done];
        apply (H1 v), elem_of_app; cbn; rewrite E; auto.
    + intros v y z. fold w3. destruct (Hh v) as [-> E]. rewrite !Hlk. intros Hy Hz. apply (H2 v); cbn; by rewrite E.
    + intros v y z. fold w3. destruct (Hl3 v) as [-> _]. rewrite !Hlk. apply H3.
    + intros p q. change (edges w3) with (edges w2). fold w3. rewrite He. intros [Hpq|(q' & Hq & [= -> ->] & Hbl)].
      * destruct (H4 p q Hpq) as (v & Hpv & Hq). exists v. rewrite Hp3, !Hlk. destruct (Hh v) as [-> E]. cbn in Hq. rewrite E in Hq.
        split; [by left|]. destruct Hq as [?|[Hq ?]]; [by left | right]. split; [|done]. rewrite elem_of_app, Hp3 in *. intuition.
      * exists vp. rewrite Hp3, !Hlk. destruct (Hh vp) as [-> _]. split; [by right|]. right. split; [|done].
        rewrite elem_of_app, Hp3 in *. intuition.
    + intros v p q. fold w3. rewrite Hp3, !Hlk. destruct (Hh v) as [-> E]. change (edges w3) with (edges w2). rewrite He.
      intros [Hp|[-> ->]] Hq Hbl; [left; apply (H5 v); cbn; rewrite ?E; done|]. right. exists q. rewrite elem_of_app. auto.
    + intros v. change (edges (set_pending vp (l :: pending w2 vp) w2)) with (edges w2). fold w3.
      assert (StronglySorted (fun p q => blocks w p q = true -> (p, q) ∈ edges w2) (pending w v)) as Hold.
      { eapply sorted_mono; [|apply (H6 v)]. intros p q _ _ Hpq Hbl. apply He. left. by apply Hpq. }
      apply sorted_mono with (R := fun p q => blocks w p q = true -> (p, q) ∈ edges w2); [intros p q _ _; by rewrite !Hlk|].
      destruct (Hl3 v) as [_ ->]. destruct (decide (v = vp)) as [->|]; [|done]. constructor; [done|].
      apply Forall_forall. intros q Hq Hbl. apply He. right. exists q. rewrite elem_of_app. auto.
  - intros v p. fold w3. rewrite Hp3. change (edges w3) with (edges w2). intros [Hp|[-> ->]].
    + destruct (Hwt v p Hp) as [q Hq]. exists q. apply He. by left.
    + exists k0. apply He. right. exists k0. rewrite elem_of_app. auto.
  - intros v. fold w3. destruct (Hl3 v) as [-> _]. apply (start_le_ext w); [intros; apply Hlk | apply Hs].
  - by apply upd_st_states.
  - by intros k []%elem_of_nil.
Qed.

(** A thread that sleeps on a lock has a reference to it. *)
Lemma base_ref S vp X l w x : base S vp X w -> locks w !! l = Some x -> l ∉ S ->
  base (l :: S) vp X (upd_lk l (fun x => set_lf_refs (lf_refs x + 1) x) w).
Proof.
  intros Hb Hx HlS. set (f := fun x => set_lf_refs (lf_refs x + 1) x).
  assert (forall k, lf_owner (lk (upd_lk l f w) k) = lf_owner (lk w k)) as Hlo.
  { intros k. rewrite lk_upd. destruct (decide (k = l)) as [->|]; [|done]. by rewrite Hx, (lk_Some w l x Hx). }
  split; try apply Hb.
  - intros k y (z & Hz & ->)%upd_lk_lookup. destruct (b_alloc _ _ _ _ Hb k z Hz) as (? & ? & ? & ? & Hocc).
    change (places vp X (upd_lk l f w)) with (places vp X w). change (next_addr (upd_lk l f w)) with (next_addr w).
    rewrite occ_cons. destruct (decide (k = l)) as [->|Hkl].
    + rewrite decide_True by done. unfold f. cbn. split_and!; try done; lia.
    + rewrite decide_False by done. split_and!; try done; lia.
  - intros v k Hk. destruct (b_places _ _ _ _ Hb v k Hk) as (y & Hy & <-).
    destruct (decide (k = l)) as [->|Hne].
    + exists (f y). unfold upd_lk. cbn. by rewrite lookup_alter_eq, Hy.
    + exists y. unfold upd_lk. cbn. by rewrite lookup_alter_ne.
  - intros k [->|Hk]%elem_of_cons; apply upd_lk_Some; [by exists x | by apply (b_sleepers _ _ _ _ Hb)].
  - constructor; [done | apply Hb].
  - intros o lo Ho. rewrite (owned_ext w); [by apply (b_owner _ _ _ _ Hb)|]. intros k.
    unfold upd_lk. cbn [locks set_locks]. destruct (decide (k = l)) as [->|Hne]; [|by rewrite lookup_alter_ne by done].
    rewrite lookup_alter_eq. by destruct (locks w !! l).
  - intros p q Hpq. rewrite !upd_lk_Some, !Hlo. by apply (b_edge _ _ _ _ Hb).
  - intros u v. change (lf_owner_graph (upd_lk l f w)) with (lf_owner_graph w).
    rewrite (b_refs _ _ _ _ Hb). apply ecount_ext. intros p q _. by rewrite !Hlo.
Qed.

Lemma waits_fields vp H ex w w' : waits vp H ex w ->
  (forall v, st w' v = st w v) -> edges w' = edges w ->
  (forall k, lf_owner (lk w' k) = lf_owner (lk w k) /\ lf_type (lk w' k) = lf_type (lk w k) /\
    lf_start (lk w' k) = lf_start (lk w k) /\ lf_end (lk w' k) = lf_end (lk w k)) -> waits vp H ex w'.
Proof.
  intros [H1 H2 H3 H4 H5 H6] Hst He Hk.
  assert (forall x y, lf_overlaps (lk w' x) (lk w' y) = lf_overlaps (lk w x) (lk w y)) as Ho.
  { intros x y. unfold lf_overlaps. destruct (Hk x) as (_ & _ & -> & ->). by destruct (Hk y) as (_ & _ & -> & ->). }
  assert (forall x y, blocks w' x y = blocks w x y) as Hb.
  { intros x y. unfold lf_blocks. rewrite Ho. destruct (Hk x) as (-> & -> & _). by destruct (Hk y) as (-> & -> & _). }
  assert (forall v, held vp H w' v = held vp H w v) as Hh by (intros v; unfold held; by rewrite Hst).
  split.
  - intros v x. rewrite Hh, Hst. unfold lock_type. destruct (Hk x) as (_ & -> & _). apply H1.
  - intros v x y. rewrite !Hh, Hb. apply H2.
  - intros v x y. rewrite !Hst, Ho. destruct (Hk x) as (-> & _). destruct (Hk y) as (-> & _). apply H3.
  - intros p q. rewrite He. intros Hpq. destruct (H4 p q Hpq) as (v & ?). exists v. by rewrite Hst, Hh, Hb.
  - intros v p q. rewrite Hst, Hh, Hb, He. apply H5.
  - intros v. rewrite Hst, He. eapply sorted_mono; [|apply H6]. intros x y _ _. by rewrite Hb.
Qed.

Lemma sleep_ok S vp R K l w x : good S vp R K [] w -> locks w !! l = Some x -> l ∉ S ->
  good (l :: S) vp R K [] (upd_lk l (fun x => set_lf_refs (lf_refs x + 1) x) w).
Proof.
  intros [Hb Hw Hwt Hs Hst Hsub] Hx HlS. set (f := fun x => set_lf_refs (lf_refs x + 1) x).
  assert (forall k, lf_owner (lk (upd_lk l f w) k) = lf_owner (lk w k) /\ lf_type (lk (upd_lk l f w) k) = lf_type (lk w k) /\
    lf_start (lk (upd_lk l f w) k) = lf_start (lk w k) /\ lf_end (lk (upd_lk l f w) k) = lf_end (lk w k)) as Hk.
  { intros k. rewrite lk_upd. destruct (decide (k = l)) as [->|]; [|done]. by rewrite Hx, (lk_Some w l x Hx). }
  split; try done.
  - by apply base_ref with x.
  - by apply (waits_fields vp _ 0 w).
  - intros v. eapply sorted_mono; [|apply Hs]. intros a b _ _. unfold start_le.
    destruct (Hk a) as (_ & _ & -> & _). by destruct (Hk b) as (_ & _ & -> & _).
Qed.

(** Edges added and taken away again. *)
Lemma good_edges S vp R K w w' : good S vp R K [] w -> base S vp R w' -> edge_frame w w' ->
  (forall e, e ∈ edges w' <-> e ∈ edges w) -> good S vp R K [] w'.
Proof.
  intros [_ [H1 H2 H3 H4 H5 H6] Hwt Hs Hst Hsub] Hb Hf He. assert (forall v, st w' v = st w v) as Hsw by (intros; by apply ef_st).
  assert (forall k, lk w' k = lk w k) as Hlk by (intros; by apply ef_lk).
  assert (forall v, held vp ([] ++ K) w' v = held vp ([] ++ K) w v) as Hh by (intros v; unfold held; by rewrite Hsw).
  split; try done.
  - split.
    + intros v x. rewrite Hh, Hsw, Hlk. apply H1.
    + intros v x y. rewrite Hh, !Hlk. apply H2.
    + intros v x y. rewrite Hsw, !Hlk. apply H3.
    + intros p q Hpq%He. destruct (H4 p q Hpq) as (v & ?). exists v. by rewrite Hsw, Hh, !Hlk.
    + intros v p q. rewrite Hsw, Hh, He, !Hlk. apply H5.
    + intros v. rewrite Hsw. eapply sorted_mono; [|apply H6]. intros x y _ _ Hxy. rewrite !Hlk. intros Hbl. by apply He, Hxy.
  - intros v p. rewrite Hsw. intros Hp. destruct (Hwt v p Hp) as [q Hq]. exists q. by apply He.
  - intros v. rewrite Hsw. apply (start_le_ext w); [done | apply Hs].
  - by rewrite (ef_states _ _ Hf).
Qed.

(** ** [lf_setlock] *)

(** An exclusive lock of the flock kind gives up what its owner has there. *)
Definition upgrades (x : lockf_entry) : bool := flag (lf_flags x) F_FLOCK && (lf_type x =? F_WRLCK).
Definition upgraded (vp l : Z) (w w1 : lock_world) : Prop :=
  if upgrades (lk w l) then
    exists G, pending w vp ≡ₚ G ++ pending w1 vp /\
      forall o b, lock_at w1 vp o b = fold_left set_range (set_lf_type F_UNLCK (lk w l) :: map (lk w) G) (lock_at w vp) o b
  else w1 = w.

Definition may_wait (x : lockf_entry) : bool := flag (lf_flags x) F_WAIT || negb (lf_async_task x =? 0).

Inductive setlock_spec (vp l : Z) (w : lock_world) : set_result -> lock_world -> Prop :=
  | SetGranted G w' : ~ conflict w vp l ->
      (forall p, p ∈ pending w vp -> blocks w p l = true -> ~ rtc (waits_for w) (lf_owner (lk w l)) (lf_owner (lk w p))) ->
      pending w vp ≡ₚ G ++ pending w' vp ->
      (forall o b, lock_at w' vp o b = fold_left set_range (lk w l :: map (lk w) G) (lock_at w vp) o b) ->
      setlock_spec vp l w (SetDone 0) w'
  | SetLoop p w' : ~ conflict w vp l -> p ∈ pending w vp -> blocks w p l = true ->
      rtc (waits_for w) (lf_owner (lk w l)) (lf_owner (lk w p)) ->
      pending w' vp = pending w vp -> (forall o b, lock_at w' vp o b = lock_at w vp o b) ->
      setlock_spec vp l w (SetDone EDEADLK) w'
  | SetAgain w' : conflict w vp l -> may_wait (lk w l) = false ->
      pending w' vp = pending w vp -> (forall o b, lock_at w' vp o b = lock_at w vp o b) ->
      setlock_spec vp l w (SetDone EAGAIN) w'
  | SetDeadlock w1 q w' : conflict w vp l -> may_wait (lk w l) = true -> upgraded vp l w w1 ->
      q ∈ active w1 vp ++ pending w1 vp -> blocks w1 l q = true ->
      rtc (waits_for w1) (lf_owner (lk w1 q)) (lf_owner (lk w1 l)) ->
      pending w' vp = pending w1 vp -> (forall o b, lock_at w' vp o b = lock_at w1 vp o b) -> setlock_spec vp l w (SetDone EDEADLK) w'
  | SetWaits w1 w' : conflict w vp l -> may_wait (lk w l) = true -> upgraded vp l w w1 ->
      (forall q, q ∈ active w1 vp ++ pending w1 vp -> blocks w1 l q = true ->
        ~ rtc (waits_for w1) (lf_owner (lk w1 q)) (lf_owner (lk w1 l))) ->
      pending w' vp = l :: pending w1 vp -> (forall o b, lock_at w' vp o b = lock_at w1 vp o b) ->
      setlock_spec vp l w (if flag (lf_flags (lk w l)) F_WAIT then SetSleep l else SetAsync l) w'.

Lemma set_ranges_Some xs : forall m o b, (forall x, In x xs -> lf_type x <> F_UNLCK) -> is_Some (m o b) ->
  is_Some (fold_left set_range xs m o b).
Proof.
  induction xs as [|x xs IH]; intros m o b Hx Hm; cbn; [done|]. apply IH; [intros; apply Hx; by right|].
  unfold set_range. destruct (_ && _); [|done]. destruct (Z.eqb_spec (lf_type x) F_UNLCK) as [E|]; [|by eexists].
  by destruct (Hx x ltac:(by left)).
Qed.

Lemma conflict_at S vp R K l w : good S vp R K [] w -> lf_type (lk w l) = F_WRLCK -> lf_start (lk w l) <= lf_end (lk w l) ->
  conflict w vp l <-> exists o b, o <> lf_owner (lk w l) /\ covers (lk w l) b /\ is_Some (lock_at w vp o b).
Proof.
  intros [Hb Hw _ _ _ _] Ht Hle. split.
  - intros (k & Hk & Hbl). unfold lf_blocks in Hbl. apply andb_prop in Hbl as [[Ho _]%andb_prop Hov%overlaps_iff].
    apply negb_true_iff, Z.eqb_neq in Ho. exists (lf_owner (lk w k)), (Z.max (lf_start (lk w l)) (lf_start (lk w k))).
    destruct (active_placed S vp _ w vp k Hb Hk) as (x & Hx & _). destruct (b_alloc _ _ _ _ Hb k x Hx) as (_ & _ & [[_ Hr] _] & _).
    rewrite <- (lk_Some w k x Hx) in Hr. unfold covers.
    split; [congruence|]. split; [lia|]. exists (lf_type (lk w k)). apply (lock_at_iff _ _ _ _ _ _ Hw).
    exists k. unfold on_byte, covers. split; [done|]. split; [|done]. split; [done | lia].
  - intros (o & b & Ho & Hc & t & Hat). apply (lock_at_iff _ _ _ _ _ _ Hw) in Hat as (k & Hk & [Hko Hkc] & _).
    exists k. split; [done|]. unfold lf_blocks. rewrite Ht, Hko. cbn. apply andb_true_iff. split.
    + rewrite (proj2 (Z.eqb_neq _ _)) by congruence. done.
    + apply overlaps_iff. unfold covers in *. lia.
Qed.

(** The upgrade grants other owners what was given up, so the lock stays blocked. *)
Lemma upgrade_ok S vp l w : good S vp [l] [] [] w -> conflict w vp l ->
  exists w1, (if upgrades (lk w l) then
      w1 ← lf_activate_lock vp l (upd_lk l (set_lf_type F_UNLCK) w); Ok (upd_lk l (set_lf_type F_WRLCK) w1)
    else Ok w) = Ok w1 /\
    good S vp [l] [] [] w1 /\ call_frame vp [] w w1 /\ lk w1 l = lk w l /\ conflict w1 vp l /\ upgraded vp l w w1 /\
    forall x, x ∈ woken w1 -> x ∈ woken w \/ x ∈ pending w vp.
Proof.
  intros Hg Hc. unfold upgraded. destruct (upgrades (lk w l)) eqn:Eu.
  2: { exists w. split; [done|]. split; [done|]. split; [apply call_frame_refl|]. do 3 (split; [done|]). by left. }
  unfold upgrades in Eu. apply andb_prop in Eu as [_ Et%Z.eqb_eq].
  destruct (hand_placed S vp _ l w (g_base _ _ _ _ _ _ Hg)) as ([x Hx] & Hna & Hnp); [by left|].
  pose proof (lk_Some w l x Hx) as El. set (w0 := upd_lk l (set_lf_type F_UNLCK) w).
  assert (good S vp [l] [] [] w0) as Hg0 by (apply hand_upd_ok; [done | apply not_elem_of_nil | by repeat split]).
  assert (lk w0 l = set_lf_type F_UNLCK (lk w l)) as El0 by (apply lk_upd_eq; by exists x).
  assert (forall k, k <> l -> lk w0 k = lk w k) as Hlk0 by (intros k Hk; by apply lk_upd_ne).
  pose proof (activate_lock_ok S vp [] [] l w0) as Ha. rewrite El0 in Ha. cbn [lf_type set_lf_type] in Ha.
  destruct (Ha Hg0) as (acts & w1 & E1 & Hg1 & Hf1 & Hat); [by intros k []%elem_of_nil|]. clear Ha. cbn [app] in Hf1.
  rewrite E1, bind_Ok. set (w2 := upd_lk l (set_lf_type F_WRLCK) w1). exists w2. split; [done|].
  assert (good S vp [l] [] [] w2) as Hg2 by (apply hand_upd_ok; [done | apply not_elem_of_nil | by repeat split]).
  assert (forall d, d ∈ acts -> d ∈ pending w vp) as Hacts.
  { intros d Hd. change (pending w vp) with (pending w0 vp). rewrite (af_pending _ _ _ _ _ Hf1). apply elem_of_app. by left. }
  assert (l ∉ acts) as Hla by (intros Hl%Hacts; by apply (Hnp vp)).
  assert (is_Some (locks w1 !! l) /\ lk w1 l = lk w0 l) as [Hl1 El1].
  { destruct (hand_placed S vp _ l w1 (g_base _ _ _ _ _ _ Hg1)) as (? & _); [by left|]. split; [done|].
    eapply (af_lk vp acts acts w0 w1); [done | by apply upd_lk_Some; exists x | apply Hna | done]. }
  assert (lk w2 l = lk w l) as El2.
  { unfold w2. rewrite lk_upd_eq, El1, El0 by done. rewrite El in *. destruct x. cbn in *. by rewrite Et. }
  assert (forall o b, lock_at w2 vp o b = fold_left set_range (set_lf_type F_UNLCK (lk w l) :: map (lk w) acts) (lock_at w vp) o b) as Hat2.
  { intros o b. transitivity (lock_at w1 vp o b).
    - apply lock_at_ext; [done|]. intros k Hk. apply lk_upd_ne. intros ->.
      destruct (hand_placed S vp _ l w1 (g_base _ _ _ _ _ _ Hg1)) as (_ & Hn & _); [by left|]. by apply (Hn vp).
    - rewrite Hat. cbn [map]. rewrite El0.
      assert (map (lk w0) acts = map (lk w) acts) as ->.
      { apply map_ext_in. intros d Hd%list_elem_of_In. apply Hlk0. by intros ->. }
      apply set_ranges_ext. intros o' b'. apply lock_at_ext; [done|]. intros k Hk. apply Hlk0. intros ->. by apply (Hna vp). }
  split; [done|]. split; [|split; [done|split; [|split; [exists acts; split; [exact (af_pending _ _ _ _ _ Hf1) | exact Hat2]|]]]].
  3: { intros y Hy. destruct (af_woke _ _ _ _ _ Hf1 y Hy) as [?|?%Hacts]; auto. }
  - change [] with ([] ++ ([] ++ []) : list Z).
    eapply (call_frame_trans S vp [l]); [apply Hg | left; apply Hg0 | apply same_call_frame; try done; [by apply kept_upd | intros v k _ Hk; apply Hlk0; intros ->; by apply (Hna v)]|].
    eapply (call_frame_trans S vp [l]); [apply Hg0 | left; apply Hg1 | eapply act_call_frame; [apply Hg0 | | exact Hf1 | by eapply kept_activate]|].
    { intros k Hk%Hacts. by right. }
    apply same_call_frame; try done; [by apply kept_upd|]. intros v k _ Hk. apply lk_upd_ne. intros ->.
    destruct (hand_placed S vp _ l w1 (g_base _ _ _ _ _ _ Hg1)) as (_ & Hn & _); [by left|]. by apply (Hn v).
  - destruct (b_alloc _ _ _ _ (g_base _ _ _ _ _ _ Hg) l x Hx) as (_ & _ & [[_ Hr] _] & _). rewrite <- El in Hr.
    rewrite (conflict_at S vp _ _ l w Hg Et Hr) in Hc. destruct Hc as (o & b & Ho & Hcov & Hs).
    apply (conflict_at S vp _ _ l w2 Hg2); rewrite El2; try done. exists o, b. split; [done|]. split; [done|].
    rewrite Hat2. cbn [fold_left]. apply set_ranges_Some.
    + intros y (d & <- & Hd)%in_map_iff. apply list_elem_of_In, Hacts in Hd.
      destruct (w_type _ _ _ _ (g_waits _ _ _ _ _ _ Hg) vp d) as [->| ->]; [|done|done]. apply elem_of_app. by right.
    + rewrite set_range_out; [done|]. intros [? _]. by apply Ho.
Qed.

(** A request becomes pending. *)
Lemma pend_frame vp l w : is_Some (lf_states w !! vp) -> l ∉ woken w -> call_frame vp [] w (set_pending vp (l :: pending w vp) w).
Proof.
  intros Hs Hl. assert (forall v, pending (set_pending vp (l :: pending w vp) w) v = if decide (v = vp) then l :: pending w v else pending w v) as Ep.
  { intros v. unfold set_pending. rewrite st_upd by done. by destruct (decide (v = vp)) as [->|]. }
  split; try done.
  - intros v Hv. unfold set_pending. by rewrite st_upd, decide_False.
  - unfold set_pending. by rewrite st_upd, decide_True.
  - intros v. apply upd_st_states.
  - by apply kept_same.
  - intros d Hd _. left. rewrite Ep, decide_True by done. by right.
  - intros Hw x Hx. destruct (Hw x Hx) as [? Hnp]. split; [done|]. intros v. rewrite Ep. destruct (decide (v = vp)); [|done].
    rewrite not_elem_of_cons. split; [|done]. by intros ->.
Qed.

(** What [lf_setlock] has to do for a request in hand. *)
Definition sets (S : list Z) (vp l : Z) (w : lock_world) : Prop :=
  exists r w', lf_setlock vp l w = Ok (r, w') /\ call_frame vp [] w w' /\ setlock_spec vp l w r w' /\
    match r with
    | SetDone _ => good S vp [] [] [] w'
    | SetAsync k => good S vp [] [] [] w' /\ k = l /\ l ∈ pending w' vp
    | SetSleep k => good (l :: S) vp [] [] [] w' /\ k = l /\ l ∈ pending w' vp
    end.

Lemma setlock_blocked_ok S vp l w k : good S vp [l] [] [] w -> l ∉ S -> lock_type (lk w l) -> l ∉ woken w -> lf_getblock vp l w = Some k -> conflict w vp l -> sets S vp l w.
Proof.
  intros Hg HlS Ht Hlw Ek Hc. unfold sets, lf_setlock. rewrite Ek. clear k Ek.
  pose proof Hg as [Hb Hw Hwt Hs Hst _]. destruct (hand_placed S vp _ l w Hb) as (Hl & Hna & Hnp); [by left|].
  assert (negb (flag (lf_flags (lk w l)) F_WAIT) && (lf_async_task (lk w l) =? 0) = negb (may_wait (lk w l))) as ->.
  { unfold may_wait. by destruct (flag _ _), (_ =? 0). }
  destruct (may_wait (lk w l)) eqn:Em; cbn [negb].
  2: { destruct (hand_free_ok S vp l [] [] w Hg) as (f & w' & E & Hg' & Hf' & Hff & _ & Hat'); [by apply not_elem_of_nil|].
    rewrite E, bind_Ok. exists (SetDone EAGAIN), w'. split; [done|]. split; [done|]. split; [constructor; try done | done].
    unfold st. by rewrite (ff_states _ _ _ _ Hff). }
  change (flag (lf_flags (lk w l)) F_FLOCK && (lf_type (lk w l) =? F_WRLCK)) with (upgrades (lk w l)).
  destruct (upgrade_ok S vp l w Hg Hc) as (w1 & -> & Hg1 & Hf1 & El1 & Hc1 & Hup & Hwk1). rewrite bind_Ok.
  pose proof Hg1 as [Hb1 _ _ Hs1 Hst1 _]. destruct (hand_placed S vp _ l w1 Hb1) as (Hl1 & Hna1 & Hnp1); [by left|].
  destruct (hand_no_edges S vp [l] [] l w1 Hg1) as [Hout1 Hin1]; [by left | apply not_elem_of_nil|].
  rewrite add_outgoing_eq by apply Hs1.
  destruct (add_outgoing_ok S vp [l] l (active w1 vp ++ pending w1 vp) w1 Hb1 Hl1) as (err & w2 & -> & Hb2 & Hf2 & Hr).
  { intros q Hq. split; [|apply Hout1]. destruct (b_places _ _ _ _ Hb1 vp q) as (y & Hy & _); [|by exists y].
    unfold places. apply elem_of_app. by right. }
  { pose proof (b_nodup _ _ _ _ Hb1 vp) as Hnd. unfold places in Hnd. by apply NoDup_app in Hnd as (_ & _ & ?). }
  rewrite bind_Ok. assert (forall v, st w2 v = st w1 v) as Hst2 by (intros; by apply ef_st).
  assert (forall k, lk w2 k = lk w1 k) as Hlk2 by (intros; by apply ef_lk).
  assert (call_frame vp [] w w2) as Hf12.
  { change [] with ([] ++ [] : list Z). eapply (call_frame_trans S vp [l]); [exact Hb | left; exact Hb1 | done | by apply edge_call_frame]. }
  destruct Hr as [(-> & He & Hno)|(-> & He & q & Hq & Hbl & Hp)]; cbn [negb].
  - cbn [Z.eqb negb]. pose proof (pend_ok S vp l w1 w2 Hg1 ltac:(by rewrite El1) Hc1 Hb2 Hf2 He) as Hg3.
    set (w3 := set_pending vp (l :: pending w2 vp) w2) in *.
    assert (is_Some (lf_states w2 !! vp)) as Hss2 by (by rewrite (ef_states _ _ Hf2)).
    destruct (pending_set vp (l :: pending w2 vp) w2 vp Hss2) as [Ep3 Ea3]. fold w3 in Ep3, Ea3. rewrite decide_True in Ep3 by done.
    assert (call_frame vp [] w2 w3) as Hf23.
    { apply pend_frame; [done|]. rewrite (ef_woken _ _ Hf2). by intros [?|?%Hnp]%Hwk1. }
    assert (call_frame vp [] w w3) as Hf3.
    { change [] with ([] ++ [] : list Z). eapply (call_frame_trans S vp [l]); [exact Hb | left; exact Hb2 | exact Hf12 | exact Hf23]. }
    assert (forall o b, lock_at w3 vp o b = lock_at w1 vp o b) as Hat.
    { intros o b. apply lock_at_ext; [by rewrite Ea3, Hst2|]. intros d _. apply Hlk2. }
    pose proof (SetWaits vp l w w1 w3 Hc Em Hup Hno ltac:(by rewrite Ep3, Hst2) Hat) as Hspec.
    destruct (flag (lf_flags (lk w l)) F_WAIT) eqn:Ew; cbn [negb].
    2: { exists (SetAsync l), w3. split; [done|]. split; [done|]. split; [done|]. split; [done|]. split; [done|]. rewrite Ep3. by left. }
    assert (is_Some (locks w3 !! l)) as [x3 Hx3] by (change (locks w3) with (locks w2); by rewrite (ef_locks _ _ Hf2)).
    set (w4 := upd_lk l _ w3). exists (SetSleep l), w4. split; [done|].
    assert (forall o b, lock_at w4 vp o b = lock_at w1 vp o b) as Hat4.
    { intros o b. rewrite <- Hat. apply lock_at_ext; [done|]. intros d Hd. apply lk_upd_ne. intros ->.
      rewrite Ea3, Hst2 in Hd. by apply (Hna1 vp). }
    split; [|split; [|split; [by apply sleep_ok with x3|split; [done|]]]].
    + change [] with ([] ++ [] : list Z). eapply (call_frame_trans S vp [l]); [exact Hb | right; do 2 eexists; apply Hg3 | exact Hf3|].
      apply same_call_frame; try done; [by apply kept_upd|]. intros v j Hv Hk. apply lk_upd_ne. intros ->.
      rewrite (cf_other _ _ _ _ Hf3 v Hv) in Hk. by apply (Hna v).
    + pose proof (SetWaits vp l w w1 w4 Hc Em Hup Hno ltac:(change (pending w4 vp) with (pending w3 vp); by rewrite Ep3, Hst2) Hat4) as Hspec4. by rewrite Ew in Hspec4.
    + change (pending w4 vp) with (pending w3 vp). rewrite Ep3. by left.
  - unfold EDEADLK at 1. cbn [Z.eqb negb].
    assert (forall e, e ∈ edges w2 <-> e ∈ edges w1) as He'.
    { intros [a c]. rewrite He. split; [by intros []|]. intros Hac. split; [done|]. cbn. intros ->. by apply (Hout1 c). }
    assert (good S vp [l] [] [] w2) as Hg2 by (by apply (good_edges S vp [l] [] w1)).
    destruct (hand_free_ok S vp l [] [] w2 Hg2) as (f & w' & E & Hg' & Hf' & Hff & _ & Hat'); [by apply not_elem_of_nil|].
    rewrite E, bind_Ok. exists (SetDone EDEADLK), w'. split; [done|]. split; [|split; [|done]].
    + change [] with ([] ++ [] : list Z). eapply (call_frame_trans S vp [l]); [exact Hb | left; exact Hb2 | done | done].
    + apply (SetDeadlock vp l w w1 q); try done; [by rewrite <- Hst2; unfold st; rewrite (ff_states _ _ _ _ Hff)|]. intros o b. rewrite Hat'. apply lock_at_ext; [by rewrite Hst2 | intros d _; apply Hlk2].
Qed.

Lemma setlock_free_ok S vp l w : good S vp [l] [] [] w -> l ∉ S -> lock_type (lk w l) -> lf_getblock vp l w = None -> ~ conflict w vp l -> sets S vp l w.
Proof.
  intros Hg HlS Ht Ek Hblk. unfold sets, lf_setlock. rewrite Ek. clear Ek.
  pose proof Hg as [Hb Hw Hwt Hs Hst _]. destruct (hand_placed S vp _ l w Hb) as (Hl & Hna & Hnp); [by left|].
  destruct (hand_no_edges S vp [l] [] l w Hg) as [Hout Hin]; [by left | apply not_elem_of_nil|].
  destruct (add_incoming_ok S vp [l] [] l (pending w vp) w) as (err & w1 & E1 & Hb1 & Hf1 & Hw1 & Hr); try done.
  { apply (waits_ext vp [] l w w); try done. intros p. by eapply no_zero_edge. }
  { intros v. unfold held. rewrite elem_of_app. intros [Hk|Hk]; [|by apply (Hna v)]. destruct (v =? vp); by apply elem_of_nil in Hk. }
  { pose proof (b_nodup _ _ _ _ Hb vp) as Hnd. unfold places in Hnd. apply NoDup_app in Hnd as (_ & _ & Hnd). by apply NoDup_app in Hnd as (_ & _ & ?). }
  unfold lf_add_incoming. rewrite E1, bind_Ok. assert (forall v, st w1 v = st w v) as Hst1 by (intros; by apply ef_st).
  assert (forall k, lk w1 k = lk w k) as Hlk1 by (intros; by apply ef_lk).
  destruct Hr as [(-> & He & Hno)|(-> & He & p & Hp & Hbl & Hpath)].
  - cbn [Z.eqb negb]. assert (good S vp [l] [l] [] w1) as Hg1.
    { split; try done.
      - apply (waits_hold vp [] l w1 Hw1); [by rewrite Hlk1 | |].
        + intros p. rewrite He, Hst1, !Hlk1. split; [intros [Hpl|(q & Hq & [= ->] & Hbl)]; [by apply Hin in Hpl | done]|].
          intros [Hp Hbl]. right. by exists p.
        + intros y Hy. unfold held in Hy. rewrite Z.eqb_refl, Hst1 in Hy. cbn in Hy. rewrite !Hlk1.
          destruct (blocks w l y) eqn:Eb; [|done]. destruct Hblk. by exists y.
      - intros v p. rewrite Hst1. intros Hp. destruct (Hwt v p Hp) as [q Hq]. exists q. apply He. by left.
      - intros v. rewrite Hst1. apply (start_le_ext w); [done | apply Hs].
      - by rewrite (ef_states _ _ Hf1). }
    assert ((lf_type (lk w l) =? F_UNLCK) = false) as Eu by (by destruct Ht as [-> | ->]).
    pose proof (activate_lock_ok S vp [] [] l w1) as Ha. rewrite Hlk1, Eu in Ha.
    destruct (Ha Hg1) as (acts & w' & E' & Hg' & Hf' & Hat'); [by intros k []%elem_of_nil|]. rewrite E', bind_Ok.
    exists (SetDone 0), w'. split; [done|]. split; [|split; [|done]].
    + change [] with ([] ++ [] : list Z). eapply (call_frame_trans S vp [l]); [exact Hb | left; exact Hb1 | by apply edge_call_frame|].
      eapply act_call_frame; [exact Hb1 | | exact Hf' | by eapply kept_activate].
      intros k [->|Hk]%elem_of_cons; [left; by left | right; rewrite (af_pending _ _ _ _ _ Hf'); apply elem_of_app; by left].
    + apply (SetGranted vp l w acts); [done | done | rewrite <- Hst1; exact (af_pending _ _ _ _ _ Hf')|]. intros o b. rewrite Hat'. cbn [map]. rewrite Hlk1.
      rewrite (map_ext (lk w1) (lk w) Hlk1). apply set_ranges_ext. intros o' b'. apply lock_at_ext; [by rewrite Hst1 | intros; apply Hlk1].
  - unfold EDEADLK at 1. cbn [Z.eqb negb].
    assert (forall e, e ∈ edges w1 <-> e ∈ edges w) as He'.
    { intros [a c]. rewrite He. split; [by intros []|]. intros Hac. split; [done|]. cbn. intros ->. by apply (Hin a). }
    assert (good S vp [l] [] [] w1) as Hg1 by (by apply (good_edges S vp [l] [] w)).
    destruct (hand_free_ok S vp l [] [] w1 Hg1) as (f & w' & E & Hg' & Hf' & Hff & _ & Hat'); [by apply not_elem_of_nil|].
    rewrite E, bind_Ok. exists (SetDone EDEADLK), w'. split; [done|]. split; [|split; [|done]].
    + change [] with ([] ++ [] : list Z). eapply (call_frame_trans S vp [l]); [exact Hb | left; exact Hb1 | by apply edge_call_frame | done].
    + apply (SetLoop vp l w p); try done; [by rewrite <- Hst1; unfold st; rewrite (ff_states _ _ _ _ Hff)|]. intros o b. rewrite Hat'. apply lock_at_ext; [by rewrite Hst1 | intros d _; apply Hlk1].
Qed.

Lemma setlock_ok S vp l w : good S vp [l] [] [] w -> l ∉ S -> lock_type (lk w l) -> l ∉ woken w -> sets S vp l w.
Proof.
  intros Hg HlS Ht Hlw. pose proof (lf_getblock_ok S vp _ _ l w Hg) as Hblk. destruct (lf_getblock vp l w) as [k|] eqn:Ek.
  - eapply setlock_blocked_ok; [done..|]. by exists k.
  - by apply setlock_free_ok.
Qed.
