(* ===== verification/LockfCalls.v ===== *)
(** * The calls and the threads

    Clearing, cancelling and asking, the checks after a call, the state of a
    file that comes with its first thread and goes with its last, and the
    invariant [kernel_ok] of the kernel with its sleeping threads, which every
    step keeps. [reachable]: the kernels that valid programs lead to. *)

From stdpp Require Import gmap relations sorting.
From S2P Require Import Prelude LfGraph LfGraphInv LfGraphEdge LfGraphOps Lockf LockfMem LockfWait LockfSplit LockfSet.

(** ** Clear, cancel, ask *)

Lemma clearlock_ok S vp l w : good S vp [l] [] [] w -> lf_type (lk w l) = F_UNLCK ->
  exists G w', lf_clearlock vp l w = Ok (0, w') /\ good S vp [l] [] [] w' /\ call_frame vp [] w w' /\
    pending w vp ≡ₚ G ++ pending w' vp /\
    forall o b, lock_at w' vp o b = fold_left set_range (lk w l :: map (lk w) G) (lock_at w vp) o b.
Proof.
  intros Hg Ht. unfold lf_clearlock. destruct (is_empty (active w vp)) eqn:E.
  - apply is_empty_nil in E. exists [], w. split; [done|]. split; [done|]. split; [apply call_frame_refl|].
    split; [done|]. intros o b. cbn. unfold set_range. rewrite Ht. cbn. unfold lock_at. rewrite E. cbn. by destruct (_ && _).
  - pose proof (activate_lock_ok S vp [] [] l w) as Ha. rewrite Ht, Z.eqb_refl in Ha.
    destruct (Ha Hg) as (acts & w' & E' & Hg' & Hf' & Hat'); [by intros k []%elem_of_nil|]. rewrite E', bind_Ok.
    exists acts, w'. split; [done|]. split; [done|]. split; [|split; [exact (af_pending _ _ _ _ _ Hf') | done]].
    eapply act_call_frame; [apply Hg | | exact Hf' | by eapply kept_activate].
    intros k Hk. right. rewrite (af_pending _ _ _ _ _ Hf'). apply elem_of_app. by left.
Qed.

Lemma cancel_ok S vp l cookie w : good S vp [l] [] [] w ->
  exists G e C w', lf_cancel vp l cookie w = Ok (e, w') /\ good S vp [l] [] [] w' /\ call_frame vp C w w' /\
    pending w vp ≡ₚ C ++ G ++ pending w' vp /\
    (forall o b, lock_at w' vp o b = fold_left set_range (map (lk w) G) (lock_at w vp) o b) /\
    ((e = 0 /\ C = [cookie] /\ lf_async_task (lk w cookie) <> 0 /\
      lf_start (lk w cookie) = lf_start (lk w l) /\ lf_end (lk w cookie) = lf_end (lk w l)) \/ (e = ENOENT /\ C = [] /\ G = [])).
Proof.
  intros Hg. unfold lf_cancel.
  assert (exists G e C w', Ok (ENOENT, w) = Ok (e, w') /\ good S vp [l] [] [] w' /\ call_frame vp C w w' /\
    pending w vp ≡ₚ C ++ G ++ pending w' vp /\
    (forall o b, lock_at w' vp o b = fold_left set_range (map (lk w) G) (lock_at w vp) o b) /\
    ((e = 0 /\ C = [cookie] /\ lf_async_task (lk w cookie) <> 0 /\
      lf_start (lk w cookie) = lf_start (lk w l) /\ lf_end (lk w cookie) = lf_end (lk w l)) \/ (e = ENOENT /\ C = [] /\ G = []))) as Hsame.
  { exists [], ENOENT, [], w. split; [done|]. split; [done|]. split; [apply call_frame_refl|]. split; [done|]. split; [done|]. by right. }
  case_bool_decide as Hc; [|apply Hsame]. destruct (negb _) eqn:Em; [apply Hsame|].
  apply negb_false_iff, andb_prop in Em as [[_ E1%Z.eqb_eq]%andb_prop E2%Z.eqb_eq].
  destruct (Z.eqb_spec (lf_async_task (lk w cookie)) 0) as [E|Hn]; [apply Hsame|].
  destruct (cancel_lock_ok S vp [l] [] cookie w Hg Hc) as (G & w' & E & Hg' & Hf' & HG & Hat). rewrite E, bind_Ok.
  exists G, 0, [cookie], w'. do 5 (split; [done|]). by left.
Qed.

(** ** The checks after a call *)

Lemma check_active_ok S vp R K w : good S vp R K [] w -> forall l seen, active w vp = seen ++ l -> check_active w seen l = Ok tt.
Proof.
  intros [Hb Hw Hwt Hs Hst Hsub]. induction l as [|x l IH]; intros seen Ha; cbn [check_active]; [done|].
  assert (NoDup (active w vp)) as Hnd.
  { pose proof (b_nodup _ _ _ _ Hb vp) as Hnd. unfold places in Hnd. apply NoDup_app in Hnd as (_ & _ & Hnd). by apply NoDup_app in Hnd as (? & _). }
  assert (forall y, y ∈ seen -> y ∈ active w vp /\ y <> x) as Hseen.
  { intros y Hy. rewrite Ha in *. split; [apply elem_of_app; by left|]. intros ->. apply NoDup_app in Hnd as (_ & Hnd & _).
    apply (Hnd x Hy). by left. }
  assert (x ∈ active w vp) as Hx by (rewrite Ha, elem_of_app, elem_of_cons; auto).
  assert (match l with y :: _ => lf_start (lk w x) <=? lf_start (lk w y) | [] => true end = true) as E1.
  { destruct l as [|y l]; [done|]. apply Z.leb_le. pose proof (Hs vp) as Hsv. rewrite Ha in Hsv.
    apply StronglySorted_app in Hsv as (_ & _ & Hsv). apply StronglySorted_inv in Hsv as [_ Hsv]. rewrite Forall_forall in Hsv.
    apply Hsv. by left. }
  assert (forallb (fun y => negb (blocks w x y)) seen = true) as E2.
  { apply forallb_forall. intros y Hy%list_elem_of_In. destruct (Hseen y Hy) as [Hya _]. apply negb_true_iff.
    apply (w_conf _ _ _ _ Hw vp); unfold held; apply elem_of_app; by right. }
  assert (forallb (fun y => negb ((lf_owner (lk w x) =? lf_owner (lk w y)) && lf_overlaps (lk w x) (lk w y))) seen = true) as E3.
  { apply forallb_forall. intros y Hy%list_elem_of_In. destruct (Hseen y Hy) as [Hya Hne]. apply negb_true_iff, andb_false_iff.
    destruct (Z.eqb_spec (lf_owner (lk w x)) (lf_owner (lk w y))) as [E|]; [right | by left].
    apply (w_own _ _ _ _ Hw vp); done. }
  rewrite E1, E2, E3. cbn [require]. rewrite !bind_Ok.
  apply IH. rewrite Ha. by rewrite <- app_assoc.
Qed.

Lemma check_state_ok S vp R K w : good S vp R K [] w -> check_state vp w = Ok tt.
Proof.
  intros Hg. unfold check_state. rewrite (check_active_ok S vp R K w Hg (active w vp) []), bind_Ok by done.
  apply require_true, forallb_forall. intros p Hp%list_elem_of_In. destruct (g_waiting _ _ _ _ _ _ Hg vp p Hp) as [q Hq].
  apply negb_true_iff, not_true_iff_false. intros E. by apply (proj1 (outedges_empty w p) E q).
Qed.

(** Something active blocks the pending locks, as no owner waits for itself. *)
Lemma list_max (f : Z -> Z) (l : list Z) : l <> [] -> exists m, m ∈ l /\ forall x, x ∈ l -> f x <= f m.
Proof.
  induction l as [|a l IH]; [done|]. intros _. destruct (decide (l = [])) as [->|Hne].
  - exists a. split; [by left|]. by intros x ->%list_elem_of_singleton.
  - destruct (IH Hne) as (m & Hm & Hmax). destruct (Z.le_ge_cases (f a) (f m)).
    + exists m. split; [by right|]. intros x [->|Hx]%elem_of_cons; auto.
    + exists a. split; [by left|]. intros x [->|Hx]%elem_of_cons; [done|]. specialize (Hmax x Hx). lia.
Qed.

Lemma pending_active S vp X w v : base S vp X w -> waits vp [] 0 w -> waiting w -> pending w v <> [] -> active w v <> [].
Proof.
  intros Hb Hw Hwt Hne Ha. destruct (list_max (fun p => order (lf_owner_graph w) (vertex_of w p)) (pending w v) Hne) as (m & Hm & Hmax).
  destruct (Hwt v m Hm) as [q Hq]. destruct (w_edge _ _ _ _ Hw m q Hq) as (v' & Hv' & [[-> _]|[Hin _]]); [by eapply no_zero_edge|].
  destruct (pending_placed S vp X w v m Hb Hm) as (_ & _ & _ & _ & _ & Hun & _). rewrite (Hun v' Hv') in Hin.
  unfold held in Hin. rewrite Ha in Hin. destruct (v =? vp); cbn in Hin; specialize (Hmax q Hin);
    assert (edge (lf_owner_graph w) (vertex_of w m) (vertex_of w q)) as He by (apply (graph_edge_iff S vp X w Hb); by exists m, q);
    destruct (go_edge _ (b_graph _ _ _ _ Hb) _ _ He) as (_ & _ & Hlt); lia.
Qed.

(** ** The state of a file *)

Lemma waits_nil vp vp' w : (forall p, (p, 0) ∉ edges w) -> waits vp [] 0 w -> waits vp' [] 0 w.
Proof.
  intros H0 [H1 H2 H3 H4 H5 H6]. assert (forall v, held vp' [] w v = held vp [] w v) as Hh.
  { intros v. unfold held. by destruct (v =? vp), (v =? vp'). }
  split; try done.
  - intros v x. rewrite Hh. apply H1.
  - intros v x y. rewrite Hh. apply H2.
  - intros p q Hpq. destruct (H4 p q Hpq) as (v & Hp & Hq). exists v. rewrite Hh. split; [done|].
    destruct Hq as [[-> _]|?]; [by apply H0 in Hpq | by right].
  - intros v p q. rewrite Hh. apply H5.
Qed.

(** What holds between calls, and in a call before its file has a state. *)
Record fine (S : list Z) (vp : Z) (R : list Z) (w : lock_world) : Prop := Fine {
  f_base : base S vp R w;
  f_waits : waits vp [] 0 w;
  f_waiting : waiting w;
  f_sorted : sorted w;
}.

Lemma good_fine S vp R w : good S vp R [] [] w <-> fine S vp R w /\ is_Some (lf_states w !! vp).
Proof.
  split.
  - intros []. split; [by split | done].
  - intros [[] ?]. split; try done. by intros k []%elem_of_nil.
Qed.

Lemma fine_nil S vp vp' w : fine S vp [] w -> fine S vp' [] w.
Proof.
  intros [H1 H2 H3 H4]. split; try done; [by eapply base_nil|]. eapply waits_nil; [|done]. intros p. by eapply no_zero_edge.
Qed.

(** The states of the files change, not their lists. *)
Lemma fine_states S vp R w w' : fine S vp R w -> (forall v, active w' v = active w v /\ pending w' v = pending w v) ->
  locks w' = locks w -> lock_owners w' = lock_owners w -> lf_lock_owners w' = lf_lock_owners w -> edges w' = edges w ->
  lf_owner_graph w' = lf_owner_graph w -> next_addr w' = next_addr w -> fine S vp R w'.
Proof.
  intros [Hb [H1 H2 H3 H4 H5 H6] Hwt Hs] Hl E1 E2 E3 E4 E5 E6.
  assert (forall k, lk w' k = lk w k) as Hlk by (intros; unfold lk; by rewrite E1).
  assert (forall v, held vp [] w' v = held vp [] w v) as Hh by (intros v; unfold held; by destruct (Hl v) as [-> _]).
  assert (forall v, active w' v = active w v) as Ha by (intros; apply Hl).
  assert (forall v, pending w' v = pending w v) as Hp by (intros; apply Hl). split.
  - apply (base_lists S vp vp R R w w'); try done. intros v. unfold places. by rewrite Ha, Hp.
  - split.
    + intros v x. rewrite Hh, Hp, Hlk. apply H1.
    + intros v x y. rewrite Hh, !Hlk. apply H2.
    + intros v x y. rewrite Ha, !Hlk. apply H3.
    + intros p q. rewrite E4. intros Hpq. destruct (H4 p q Hpq) as (v & ?). exists v. by rewrite Hp, Hh, !Hlk.
    + intros v p q. rewrite Hp, Hh, E4, !Hlk. apply H5.
    + intros v. rewrite Hp, E4. eapply sorted_mono; [|apply H6]. intros x y _ _. by rewrite !Hlk.
  - intros v p. rewrite Hp, E4. apply Hwt.
  - intros v. rewrite Ha. apply (start_le_ext w); [done | apply Hs].
Qed.

Definition threads (w : lock_world) (v : Z) : Z := ls_threads (st w v).

Lemma get_state_ok S vp R w : fine S vp R w ->
  let w' := get_state vp w in good S vp R [] [] w' /\ (forall v, active w' v = active w v /\ pending w' v = pending w v) /\
    (forall v, threads w' v = threads w v + if decide (v = vp) then 1 else 0) /\
    (forall v, is_Some (lf_states w' !! v) <-> is_Some (lf_states w !! v) \/ v = vp) /\
    lf_lock_states w' = (if decide (is_Some (lf_states w !! vp)) then lf_lock_states w else vp :: lf_lock_states w) /\
    locks w' = locks w /\ next_addr w' = next_addr w /\ woken w' = woken w /\ doomed w' = doomed w /\ edges w' = edges w.
Proof.
  intros Hf w'. assert ((forall v, active w' v = active w v /\ pending w' v = pending w v) /\
    (forall v, threads w' v = threads w v + if decide (v = vp) then 1 else 0) /\
    (forall v, is_Some (lf_states w' !! v) <-> is_Some (lf_states w !! v) \/ v = vp) /\
    lf_lock_states w' = (if decide (is_Some (lf_states w !! vp)) then lf_lock_states w else vp :: lf_lock_states w) /\
    locks w' = locks w /\ next_addr w' = next_addr w /\ woken w' = woken w /\ doomed w' = doomed w /\ edges w' = edges w /\
    lock_owners w' = lock_owners w /\ lf_lock_owners w' = lf_lock_owners w /\ lf_owner_graph w' = lf_owner_graph w) as
    (H1 & H2 & H3 & H4 & H5 & H6 & H7 & H8 & H9 & H10 & H11 & H12).
  { unfold w', get_state. destruct (lf_states w !! vp) as [s|] eqn:Es.
    - unfold threads, add_threads. split_and!; try done.
      + intros v. rewrite st_upd by (by exists s). by destruct (decide (v = vp)) as [->|].
      + intros v. rewrite st_upd by (by exists s). destruct (decide (v = vp)) as [->|]; cbn; lia.
      + intros v. rewrite upd_st_states. split; [by left|]. intros [?| ->]; [done | by exists s].
    - assert (forall v, lf_states (set_lock_states (vp :: lf_lock_states w) (set_states (<[vp := LockState [] [] 1]> (lf_states w)) w)) !! v =
        if decide (v = vp) then Some (LockState [] [] 1) else lf_states w !! v) as Hl.
      { intros v. cbn. destruct (decide (v = vp)) as [->|]; [by rewrite lookup_insert_eq | by rewrite lookup_insert_ne]. }
      unfold threads, st. split_and!; try done.
      + intros v. rewrite Hl. destruct (decide (v = vp)) as [->|]; [by rewrite Es | done].
      + intros v. rewrite Hl. destruct (decide (v = vp)) as [->|]; [by rewrite Es | lia].
      + intros v. rewrite Hl. destruct (decide (v = vp)) as [->|]; [split; eauto|]. split; [by left | by intros [?|?]]. }
  split; [|by split_and!]. apply good_fine. split; [|apply H3; by right]. by apply (fine_states S vp R w).
Qed.

Lemma leave_state_ok S vp w : good S vp [] [] [] w ->
  exists w', leave_state vp w = Ok w' /\ fine S vp [] w' /\ (forall v, active w' v = active w v /\ pending w' v = pending w v) /\
    (forall v, is_Some (lf_states w' !! v) <-> is_Some (lf_states w !! v) /\ (v = vp -> active w vp <> [] \/ threads w vp <> 1)) /\
    (forall v, is_Some (lf_states w' !! v) -> threads w' v = threads w v - if decide (v = vp) then 1 else 0) /\
    lf_lock_states w' = (if decide (is_Some (lf_states w' !! vp)) then lf_lock_states w else list_remove vp (lf_lock_states w)) /\
    locks w' = locks w /\ next_addr w' = next_addr w /\ woken w' = woken w /\ doomed w' = doomed w.
Proof.
  intros Hg. pose proof (proj1 (good_fine S vp [] w) Hg) as [Hf Hst]. unfold leave_state. set (w1 := add_threads vp (-1) w).
  assert (forall v, st w1 v = if decide (v = vp) then LockState (active w vp) (pending w vp) (threads w vp - 1) else st w v) as Hst1.
  { intros v. unfold w1, add_threads. by rewrite st_upd. }
  assert (forall v, active w1 v = active w v /\ pending w1 v = pending w v) as Hl1.
  { intros v. rewrite Hst1. by destruct (decide (v = vp)) as [->|]. }
  assert (active w1 vp = active w vp) as -> by apply Hl1. assert (pending w1 vp = pending w vp) as -> by apply Hl1.
  assert (ls_threads (st w1 vp) = threads w vp - 1) as -> by (by rewrite Hst1, decide_True).
  destruct (is_empty (active w vp) && (threads w vp - 1 =? 0)) eqn:E.
  - apply andb_prop in E as [Ea%is_empty_nil Et%Z.eqb_eq].
    assert (pending w vp = []) as Ep.
    { destruct (decide (pending w vp = [])) as [|Hne]; [done|]. exfalso.
      by apply (pending_active S vp [] w vp (f_base _ _ _ _ Hf) (f_waits _ _ _ _ Hf) (f_waiting _ _ _ _ Hf) Hne). }
    rewrite Ep. rewrite require_true, bind_Ok by done. eexists. split; [done|]. set (w2 := set_lock_states _ _).
    assert (forall v, lf_states w2 !! v = if decide (v = vp) then None else lf_states w !! v) as Hl.
    { intros v. unfold w2, w1, add_threads, upd_st. cbn. destruct (decide (v = vp)) as [->|]; [by rewrite lookup_delete_eq|].
      by rewrite lookup_delete_ne, lookup_alter_ne. }
    assert (forall v, active w2 v = active w v /\ pending w2 v = pending w v) as Hl2.
    { intros v. unfold st. rewrite Hl. destruct (decide (v = vp)) as [->|]; [|done]. split; symmetry; [exact Ea | exact Ep]. }
    split; [by apply (fine_states S vp [] w)|]. split; [done|]. split; [|split; [|split; [|done]]].
    + intros v. rewrite Hl. destruct (decide (v = vp)) as [->|Hv]; [|intuition]. split; [by intros [? ?]|]. intros [_ H].
      destruct (H eq_refl); [done | lia].
    + intros v. unfold threads, st. rewrite Hl. destruct (decide (v = vp)) as [->|]; [by intros [? ?] | intros _; lia].
    + rewrite decide_False; [done|]. rewrite Hl, decide_True by done. by intros [? ?].
  - exists w1. split; [done|]. assert (forall v, is_Some (lf_states w1 !! v) <-> is_Some (lf_states w !! v)) as Hs1 by (intros; apply upd_st_states).
    split; [by apply (fine_states S vp [] w)|]. split; [done|]. split; [|split; [|split; [|done]]].
    + intros v. rewrite Hs1. split; [|by intros []]. intros H. split; [done|]. intros ->. apply andb_false_iff in E as [E|E%Z.eqb_neq]; [|right; lia].
      left. intros Hn. by rewrite Hn in E.
    + intros v _. unfold threads. rewrite Hst1. destruct (decide (v = vp)) as [->|]; cbn; unfold threads; lia.
    + rewrite decide_True; [done|]. by apply Hs1.
Qed.

(** * The threads and their calls

    [kernel_ok] holds between the steps of the threads: no step fails a check,
    and each keeps it. *)

(** ** What callers do *)

Definition off_t (z : Z) : Prop := - 2 ^ 63 <= z <= OFF_MAX.

Record valid_call (ap : lock_call) : Prop := ValidCall {
  vc_op : a_op ap <> F_UNLCKSYS;
  vc_set : a_op ap = F_SETLK -> l_type (a_fl ap) = F_RDLCK \/ l_type (a_fl ap) = F_WRLCK;
  vc_unlock : a_op ap = F_UNLCK -> l_type (a_fl ap) = F_UNLCK;
  vc_wait : flag (a_flags ap) F_WAIT = true -> a_task ap = 0;
  vc_intr : flag (a_flags ap) F_INTR = false;
  vc_start : off_t (l_start (a_fl ap));
  vc_len : off_t (l_len (a_fl ap));
}.

Definition valid_event (k : kernel) (e : event) : Prop :=
  match e with
  | EvCall ap size => valid_call ap /\ 0 <= size < 2 ^ 64
  | EvWake i error => error <> EDOOFUS /\
      exists s, sleeping k !! i = Some s /\ (error = 0 -> s_lock s ∈ woken (k_world k))
  | EvDoom _ => True
  end.

Lemma lf_range_ok fl size start end_ : off_t (l_start fl) -> off_t (l_len fl) -> 0 <= size ->
  lf_range fl size = inr (start, end_) -> 0 <= start <= end_ /\ end_ <= OFF_MAX.
Proof.
  unfold off_t, lf_range. intros [Hs1 Hs2] [Hl1 Hl2] Hsz.
  assert (0 < OFF_MAX) by (unfold OFF_MAX; lia).
  destruct (if (l_whence fl =? SEEK_SET) || (l_whence fl =? SEEK_CUR) then _ else _) as [e|st0] eqn:E; [done|].
  assert (st0 <= OFF_MAX) as Hst0.
  { destruct (_ || _); [congruence|]. destruct (l_whence fl =? SEEK_END); [|done].
    destruct (Z.ltb_spec OFF_MAX size); [done|]. cbn [orb] in E.
    destruct (Z.ltb_spec 0 (l_start fl)), (Z.ltb_spec (OFF_MAX - l_start fl) size); cbn [andb] in E; try done;
      injection E as <-; lia. }
  destruct (Z.ltb_spec st0 0); [done|].
  destruct (Z.ltb_spec (l_len fl) 0).
  { destruct (Z.eqb_spec st0 0); [done|]. destruct (Z.ltb_spec (st0 + l_len fl) 0); [done|]. intros [= <- <-]. lia. }
  destruct (Z.eqb_spec (l_len fl) 0); [intros [= <- <-]; lia|].
  destruct (Z.ltb_spec (OFF_MAX - st0) (l_len fl - 1)); [done|]. intros [= <- <-]. lia.
Qed.

(** ** The invariant *)

Definition waiters (sl : list sleeper) (v : Z) : Z := Z.of_nat (length (filter (fun s => a_vp (s_call s) = v) sl)).

Definition sleeper_ok (w : lock_world) (s : sleeper) : Prop :=
  valid_call (s_call s) /\ a_op (s_call s) = F_SETLK /\ 0 <= s_start s <= s_end s /\ s_end s <= OFF_MAX /\
  (exists x, locks w !! s_lock s = Some x /\ lf_vnode x = a_vp (s_call s) /\ lf_flags x = a_flags (s_call s) /\ lf_async_task x = 0) /\
  (s_lock s ∈ pending w (a_vp (s_call s)) \/ s_lock s ∈ woken w).

Record kernel_ok (k : kernel) : Prop := KernelOk {
  ko_fine : fine (map s_lock (sleeping k)) 0 [] (k_world k);
  ko_state v : is_Some (lf_states (k_world k) !! v) <-> active (k_world k) v <> [] \/ 0 < waiters (sleeping k) v;
  ko_threads v : is_Some (lf_states (k_world k) !! v) -> threads (k_world k) v = waiters (sleeping k) v;
  ko_states_nodup : NoDup (lf_lock_states (k_world k));
  ko_states v : v ∈ lf_lock_states (k_world k) <-> is_Some (lf_states (k_world k) !! v);
  ko_sleepers s : s ∈ sleeping k -> sleeper_ok (k_world k) s;
  ko_woken : woken_ok (k_world k);
}.

(** A thread is in a call on [vp]; [R] are the locks it has in hand. *)
Record busy (sl : list sleeper) (vp : Z) (R : list Z) (w : lock_world) : Prop := Busy {
  bu_good : good (map s_lock sl) vp R [] [] w;
  bu_state v : v <> vp -> is_Some (lf_states w !! v) <-> active w v <> [] \/ 0 < waiters sl v;
  bu_threads v : is_Some (lf_states w !! v) -> threads w v = waiters sl v + if decide (v = vp) then 1 else 0;
  bu_states_nodup : NoDup (lf_lock_states w);
  bu_states v : v ∈ lf_lock_states w <-> is_Some (lf_states w !! v);
  bu_sleepers s : s ∈ sl -> sleeper_ok w s;
  bu_woken : woken_ok w;
}.

Lemma waiters_nonneg sl v : 0 <= waiters sl v.
Proof. unfold waiters. lia. Qed.
Lemma waiters_cons s sl v : waiters (s :: sl) v = (if decide (a_vp (s_call s) = v) then 1 else 0) + waiters sl v.
Proof. unfold waiters. rewrite filter_cons. destruct (decide _); cbn; lia. Qed.
Lemma waiters_perm sl sl' v : sl ≡ₚ sl' -> waiters sl v = waiters sl' v.
Proof. unfold waiters. by intros ->. Qed.

Lemma sleeper_in sl s : s ∈ sl -> s_lock s ∈ map s_lock sl.
Proof. intros Hs. change (map s_lock sl) with (s_lock <$> sl). apply list_elem_of_fmap. by exists s. Qed.

(** The fields of a lock on which a thread sleeps. *)
Lemma kept_fields S vp X S' vp' X' w w' l x : base S vp X w -> base S' vp' X' w' -> kept w w' -> l ∈ S' -> locks w !! l = Some x ->
  exists x', locks w' !! l = Some x' /\ same_lock x x'.
Proof.
  intros Hb Hb' [_ Hk] Hl Hx. destruct (b_sleepers _ _ _ _ Hb' _ Hl) as [x' Hx'].
  destruct (b_alloc _ _ _ _ Hb _ x Hx) as ([_ Hlt] & _). destruct (Hk _ x' Hx' Hlt) as (x0 & Hx0 & Hs).
  assert (x0 = x) as -> by congruence. by exists x'.
Qed.

(** The locks of sleepers are where they were. *)
Lemma sleeper_kept S vp X S' vp' X' w w' C s : base S vp X w -> base S' vp' X' w' -> call_frame vp C w w' ->
  (forall d, d ∈ C -> d ∈ S' -> lf_async_task (lk w d) <> 0) -> s_lock s ∈ S' -> sleeper_ok w s -> sleeper_ok w' s.
Proof.
  intros Hb Hb' Hf HC Hs (Hv & Hop & Hr1 & Hr2 & (x & Hx & E1 & E2 & E3) & Hp). do 4 (split; [done|]).
  destruct (kept_fields _ _ _ _ _ _ w w' _ x Hb Hb' (cf_kept _ _ _ _ Hf) Hs Hx) as (x' & Hx' & K1 & K2 & K3 & K4).
  split; [exists x'; split_and!; congruence|].
  destruct Hp as [Hp|Hw]; [|right; by apply (cf_woken _ _ _ _ Hf)].
  destruct (decide (a_vp (s_call s) = vp)) as [E|Hne].
  - rewrite E in *. destruct (cf_lost _ _ _ _ Hf _ Hp) as [?|[HdC|?]]; [by rewrite (lk_Some w _ x Hx) | by left | | by right].
    destruct (HC _ HdC Hs). by rewrite (lk_Some w _ x Hx).
  - left. by rewrite (cf_other _ _ _ _ Hf).
Qed.

Lemma busy_step sl vp R R' C w w' : busy sl vp R w -> call_frame vp C w w' -> good (map s_lock sl) vp R' [] [] w' ->
  (forall d, d ∈ C -> d ∈ map s_lock sl -> lf_async_task (lk w d) <> 0) -> busy sl vp R' w'.
Proof.
  intros [Hg Hs Ht Hn Hl Hsl Hwo] Hf Hg' HC. split; try done.
  - intros v Hv. rewrite (cf_states _ _ _ _ Hf), (cf_other _ _ _ _ Hf v Hv). by apply Hs.
  - intros v. rewrite (cf_states _ _ _ _ Hf). intros Hv. rewrite <- (Ht v Hv). unfold threads.
    destruct (decide (v = vp)) as [->|Hne]; [apply Hf | by rewrite (cf_other _ _ _ _ Hf)].
  - by rewrite (cf_lock_states _ _ _ _ Hf).
  - intros v. rewrite (cf_lock_states _ _ _ _ Hf), (cf_states _ _ _ _ Hf). apply Hl.
  - intros s Hin. eapply sleeper_kept; [apply Hg | apply Hg' | exact Hf | done | | by apply Hsl].
    by apply sleeper_in.
  - by apply (cf_woke _ _ _ _ Hf).
Qed.

(** The request of a call on [vp] is made. *)
Lemma enter_ok sl w w1 vp l : kernel_ok (Kernel w sl) -> fine (map s_lock sl) vp [l] w1 -> new_frame w w1 -> kept w w1 ->
  busy sl vp [l] (get_state vp w1).
Proof.
  intros [Hf Hs Ht Hn Hl Hsl Hwo] Hf1 Hnf Hk. cbn [k_world sleeping] in *.
  destruct (get_state_ok _ vp [l] w1 Hf1) as (Hg & Hli & Hth & Hst & Hls & El & En & Ew & Ed & Ee).
  set (w2 := get_state vp w1) in *. destruct Hnf as [N1 N2 N3 N4 N5 N6 N7].
  assert (forall v, st w1 v = st w v) as Hst1 by (intros; unfold st; by rewrite N2).
  assert (forall v, is_Some (lf_states w1 !! v) <-> is_Some (lf_states w !! v)) as Hs1 by (intros; by rewrite N2).
  split; try done.
  - intros v Hv. rewrite Hst, Hs1. destruct (Hli v) as [-> _]. rewrite Hst1, <- Hs. intuition.
  - intros v. rewrite Hst, Hs1, Hth. unfold threads at 1. rewrite Hst1. fold (threads w v). intros Hv.
    assert (threads w v = waiters sl v) as ->; [|done]. destruct (decide (is_Some (lf_states w !! v))) as [Hsv|Hnv]; [by apply Ht|].
    destruct Hv as [?| ->]; [done|]. pose proof (waiters_nonneg sl vp). rewrite Hs in Hnv.
    assert (waiters sl vp = 0) as -> by (destruct (Z.eq_dec (waiters sl vp) 0); [done | exfalso; apply Hnv; right; lia]).
    unfold threads, st. destruct (lf_states w !! vp) eqn:E; [|done]. exfalso. apply Hnv, Hs. by rewrite E.
  - rewrite Hls. destruct (decide _) as [_|Hnv]; [by rewrite N3|]. constructor; [|by rewrite N3]. by rewrite N3, Hl, <- Hs1.
  - intros v. rewrite Hst, Hs1, Hls. destruct (decide _) as [Hv|Hnv].
    + rewrite N3, Hl. split; [by left|]. intros [?| ->]; [done | by apply Hs1].
    + rewrite elem_of_cons, N3, Hl. intuition.
  - intros s Hin. destruct (Hsl s Hin) as (Hv & Hop & Hr1 & Hr2 & (x & Hx & E1 & E2 & E3) & Hp). do 4 (split; [done|]).
    destruct (kept_fields _ _ _ _ _ _ w w1 _ x (f_base _ _ _ _ Hf) (f_base _ _ _ _ Hf1) Hk (sleeper_in sl s Hin) Hx) as (x' & Hx' & K1 & K2 & K3 & K4).
    split; [rewrite El; exists x'; split_and!; congruence|]. destruct (Hli (a_vp (s_call s))) as [_ ->].
    by rewrite Hst1, Ew, N5.
  - apply (woken_same w); [by rewrite Ew | rewrite En; apply Hk | | done]. intros v. destruct (Hli v) as [_ ->]. by rewrite Hst1.
Qed.

(** The thread leaves. *)
Lemma leave_ok sl vp w : busy sl vp [] w -> exists w', leave_state vp w = Ok w' /\ kernel_ok (Kernel w' sl) /\
  (forall v, active w' v = active w v /\ pending w' v = pending w v) /\ locks w' = locks w /\ woken w' = woken w.
Proof.
  intros [Hg Hs Ht Hn Hl Hsl Hwo]. destruct (leave_state_ok _ vp w Hg) as (w' & E & Hf & Hli & Hst & Hth & Hls & El & En & Ew & Ed).
  exists w'. split; [done|]. split; [|done]. pose proof (waiters_nonneg sl vp) as Hw0.
  pose proof (g_state _ _ _ _ _ _ Hg) as Hsvp. split; cbn [k_world sleeping].
  - by eapply fine_nil.
  - intros v. rewrite Hst. destruct (Hli v) as [-> _]. destruct (decide (v = vp)) as [->|Hne].
    + pose proof (Ht vp Hsvp) as Htv. rewrite decide_True in Htv by done. split.
      * intros [_ H]. destruct (H eq_refl) as [?|?]; [by left | right; lia].
      * intros H. split; [done|]. intros _. destruct H as [?|?]; [by left | right; lia].
    + rewrite (Hs v Hne). split; [by intros []|]. intros H. split; [done|]. by intros ->.
  - intros v Hv. rewrite (Hth v Hv). apply Hst in Hv as [Hv _]. rewrite (Ht v Hv). destruct (decide _); lia.
  - rewrite Hls. destruct (decide _); [done|]. by apply list_remove_nodup.
  - intros v. rewrite Hls. destruct (decide (is_Some (lf_states w' !! vp))) as [Hv|Hnv].
    + rewrite Hl, Hst. destruct (decide (v = vp)) as [->|Hne]; [|intuition]. apply Hst in Hv as [? ?]. intuition.
    + rewrite list_remove_elem by done. rewrite Hl, Hst. destruct (decide (v = vp)) as [->|Hne]; [|intuition].
      split; [by intros []|]. intros H. by destruct Hnv; apply Hst.
  - intros s Hin. destruct (Hsl s Hin) as (Hv & Hop & Hr1 & Hr2 & Hx & Hp). destruct (Hli (a_vp (s_call s))) as [_ Ep].
    unfold sleeper_ok. by rewrite El, Ep, Ew.
  - apply (woken_same w); [done | by rewrite En | apply Hli | done].
Qed.

(** The thread sleeps. *)
Lemma sleep_kernel_ok sl vp w s : good (map s_lock (s :: sl)) vp [] [] [] w ->
  (forall v, v <> vp -> is_Some (lf_states w !! v) <-> active w v <> [] \/ 0 < waiters sl v) ->
  (forall v, is_Some (lf_states w !! v) -> threads w v = waiters sl v + if decide (v = vp) then 1 else 0) ->
  NoDup (lf_lock_states w) -> (forall v, v ∈ lf_lock_states w <-> is_Some (lf_states w !! v)) ->
  (forall t, t ∈ s :: sl -> sleeper_ok w t) -> woken_ok w -> a_vp (s_call s) = vp -> kernel_ok (Kernel w (s :: sl)).
Proof.
  intros Hg Hs Ht Hn Hl Hsl Hwo Hvp. pose proof (proj1 (good_fine _ _ _ _) Hg) as [Hf Hsvp]. split; cbn [k_world sleeping]; try done.
  - by eapply fine_nil.
  - intros v. rewrite waiters_cons. pose proof (waiters_nonneg sl v). destruct (decide (a_vp (s_call s) = v)) as [E|Hne].
    + assert (v = vp) as -> by congruence. split; [intros _; right; lia | done].
    + rewrite Z.add_0_l. apply Hs. congruence.
  - intros v Hv. rewrite (Ht v Hv), waiters_cons. destruct (decide (v = vp)), (decide (a_vp (s_call s) = v)); try lia; congruence.
Qed.

Lemma call_frame_at vp C w w' v o b : call_frame vp C w w' -> v <> vp -> lock_at w' v o b = lock_at w v o b.
Proof.
  intros Hf Hv. apply lock_at_ext; [by rewrite (cf_other _ _ _ _ Hf v Hv)|]. intros k Hk. by apply (cf_elsewhere _ _ _ _ Hf v).
Qed.

(** ** The request *)

Definition request_lock (ap : lock_call) (start end_ lo : Z) : lockf_entry :=
  Lock (a_flags ap) (l_type (a_fl ap)) start end_ lo (a_vp ap) (a_task ap) 1.

Definition request (ap : lock_call) (start end_ : Z) (w : lock_world) : Z * Z * lock_world :=
  let '(lo, w) := get_owner ap w in
  let '(l, w) := make_lock ap start end_ lo w in (lo, l, w).

Lemma get_owner_next ap w : let '(_, w1) := get_owner ap w in next_addr w <= next_addr w1.
Proof. unfold get_owner. destruct (find_owner _ _ _ _ _); cbn; lia. Qed.

Lemma new_request_ok S vp ap start end_ w : fine S vp [] w -> 0 <= start <= end_ /\ end_ <= OFF_MAX ->
  let '(lo, l, w2) := request ap start end_ w in
  fine S (a_vp ap) [l] w2 /\ new_frame w w2 /\ kept w w2 /\ next_addr w <= l /\ (l ∉ S) /\
  lk w2 l = request_lock ap start end_ lo /\ (forall k, k <> l -> lk w2 k = lk w k) /\ forall o b v, lock_at w2 v o b = lock_at w v o b.
Proof.
  intros Hf Hrg. pose proof (fine_nil S vp (a_vp ap) w Hf) as [Hb Hw Hwt Hs].
  pose proof (request_base S (a_vp ap) w ap start end_ Hb Hrg) as Hr. unfold request.
  pose proof (get_owner_next ap w) as Hn. destruct (get_owner ap w) as [lo w1]. pose proof (make_lock_ok ap start end_ lo w1) as Hm. destruct (make_lock ap start end_ lo w1) as [l w2].
  destruct Hr as (Hb2 & Hnf & Hl & El).
  assert (forall k, k <> l -> lk w2 k = lk w k) as Hlk by (intros k Hk; unfold lk; by rewrite El, lookup_insert_ne).
  assert (forall v, st w2 v = st w v) as Hst by (intros; unfold st; by rewrite (nf_states _ _ Hnf)).
  assert (forall v k, k ∈ places (a_vp ap) [] w v -> k <> l) as Hne.
  { intros v k Hk ->. destruct (b_places _ _ _ _ Hb v l Hk) as (x & Hx & _). congruence. }
  assert (forall v k, k ∈ active w v \/ k ∈ pending w v -> k <> l) as Hnl.
  { intros v k Hk. apply (Hne v). unfold places. rewrite !elem_of_app. tauto. }
  split; [|split; [done|split; [|split; [by destruct Hm as (-> & _)|split; [|split; [|split; [done|]]]]]]].
  - split; try done.
    + apply (waits_ext (a_vp ap) [] 0 w); try done.
      * apply Hnf.
      * intros v k Hk. apply Hlk, (Hnl v). left. unfold held in Hk. by destruct (v =? a_vp ap).
      * intros v k Hk. apply Hlk, (Hnl v). by right.
      * intros p. by eapply no_zero_edge.
    + intros v p. rewrite Hst, (nf_edges _ _ Hnf). apply Hwt.
    + intros v. rewrite Hst. apply (start_le_ext w); [|apply Hs]. intros k Hk. apply Hlk, (Hnl v). by left.
  - split; [apply Hnf|]. intros k x'. rewrite El. intros [[<- <-]|[Hk Hx]]%lookup_insert_Some Hlt; [|by exists x'].
    destruct Hm as (-> & _). lia.
  - intros [x Hx]%(b_sleepers _ _ _ _ Hb). congruence.
  - unfold lk. by rewrite El, lookup_insert_eq.
  - intros o b v. apply lock_at_ext; [by rewrite Hst|]. intros k Hk. apply Hlk, (Hnl v). by left.
Qed.

(** The request is given up at once, when the vnode is doomed. *)
Lemma fine_free S vp l w : fine S vp [l] w ->
  exists freed w', lf_free_lock l w = Ok (freed, w') /\ fine S vp [] w' /\ free_frame l freed w w' /\ kept w w'.
Proof.
  intros [Hb Hw Hwt Hs]. destruct (hand_placed S vp _ l w Hb) as (_ & Ha & Hp); [by left|].
  assert (forall v, l ∉ held vp [] w v) as Hh by (intros v; unfold held; destruct (v =? vp); apply Ha).
  destruct (free_base S vp _ S [] l w Hb) as (freed & w' & E & Hb' & Hf & _); [by left | |].
  { intros x _ _. split.
    - intros q Hq. destruct (w_edge _ _ _ _ Hw l q Hq) as (v & Hv & _). by apply (Hp v).
    - intros p Hq. destruct (w_edge _ _ _ _ Hw p l Hq) as (v & _ & [[-> _]|[Hin _]]); [by eapply no_zero_edge|].
      apply elem_of_app in Hin as [Hin|Hin]; [by apply (Hh v) | by apply (Hp v)]. }
  assert (forall v, st w' v = st w v) as Hst by (intros v; unfold st; by rewrite (ff_states _ _ _ _ Hf)).
  exists freed, w'. split; [done|]. split; [|split; [done | by eapply kept_free]]. split; try done.
  - apply (waits_free vp [] w w' l freed); try done. intros p. by eapply no_zero_edge.
  - intros v p. rewrite Hst, (ff_edges _ _ _ _ Hf). apply Hwt.
  - intros v. rewrite Hst. apply (start_le_ext w); [|apply Hs]. intros k Hk. eapply free_frame_lk; [done|]. intros ->. by apply (Ha v).
Qed.

Lemma kernel_ok_same sl vp w w' : kernel_ok (Kernel w sl) -> fine (map s_lock sl) vp [] w' -> lf_states w' = lf_states w ->
  lf_lock_states w' = lf_lock_states w -> woken w' = woken w -> kept w w' -> kernel_ok (Kernel w' sl).
Proof.
  intros [Hf Hs Ht Hn Hl Hsl Hwo] Hf' E1 E2 E3 Hk. cbn [k_world sleeping] in *.
  assert (forall v, st w' v = st w v) as Hst by (intros; unfold st; by rewrite E1).
  split; cbn [k_world sleeping].
  - by eapply fine_nil.
  - intros v. rewrite E1, Hst. apply Hs.
  - intros v. unfold threads. rewrite E1, Hst. apply Ht.
  - by rewrite E2.
  - intros v. rewrite E1, E2. apply Hl.
  - intros s Hin. destruct (Hsl s Hin) as (Hv & Hop & Hr1 & Hr2 & (x & Hx & X1 & X2 & X3) & Hp). do 4 (split; [done|]).
    destruct (kept_fields _ _ _ _ _ _ w w' _ x (f_base _ _ _ _ Hf) (f_base _ _ _ _ Hf') Hk (sleeper_in sl s Hin) Hx) as (x' & Hx' & K1 & K2 & K3 & K4).
    split; [exists x'; split_and!; congruence|]. by rewrite Hst, E3.
  - apply (woken_same w); [done | apply Hk | | done]. intros v. by rewrite Hst.
Qed.

Lemma setlock_sleeps vp l w r w' k : setlock_spec vp l w r w' -> r = SetSleep k -> flag (lf_flags (lk w l)) F_WAIT = true.
Proof. intros [] E; try done. by destruct (flag _ _). Qed.

(** ** The operations *)

Section call.
Context (sl : list sleeper) (ap : lock_call) (l : Z) (w : lock_world).
Context (Hbu : busy sl (a_vp ap) [l] w) (Hv : valid_call ap) (HlS : l ∉ map s_lock sl) (Hlw : l ∉ woken w).
Context (Hfl : lf_flags (lk w l) = a_flags ap) (Hty : lf_type (lk w l) = l_type (a_fl ap)) (Hta : lf_async_task (lk w l) = a_task ap).
Context (Hvn : lf_vnode (lk w l) = a_vp ap) (start end_ : Z) (Hrg : 0 <= start <= end_ /\ end_ <= OFF_MAX).

Lemma call_setlock : a_op ap = F_SETLK -> exists r w', lf_setlock (a_vp ap) l w = Ok (r, w') /\ setlock_spec (a_vp ap) l w r w' /\
  (forall v o b, v <> a_vp ap -> lock_at w' v o b = lock_at w v o b) /\
  match r with
  | SetSleep k => kernel_ok (Kernel w' (Sleeper k ap start end_ :: sl))
  | _ => busy sl (a_vp ap) [] w'
  end.
Proof.
  intros Hop. pose proof (bu_good _ _ _ _ Hbu) as Hg.
  destruct (setlock_ok (map s_lock sl) (a_vp ap) l w Hg HlS) as (r & w' & E & Hf & Hspec & Hr); [|done|].
  { unfold lock_type. rewrite Hty. by apply Hv. }
  exists r, w'. split; [done|]. split; [done|]. split; [intros v o b Hne; by eapply call_frame_at|].
  assert (forall S', good S' (a_vp ap) [] [] [] w' -> S' = map s_lock sl -> busy sl (a_vp ap) [] w') as Hbusy.
  { intros S' Hg' ->. eapply busy_step; [exact Hbu | exact Hf | done | by intros d []%elem_of_nil]. }
  destruct r as [e|k|k]; [by eapply Hbusy | destruct Hr; by eapply Hbusy|]. destruct Hr as (Hg' & -> & Hlp).
  assert (Hnew : sleeper_ok w' (Sleeper l ap start end_)).
  { pose proof (setlock_sleeps _ _ _ _ _ _ Hspec eq_refl) as Hwt. rewrite Hfl in Hwt.
    destruct (hand_placed _ _ _ l w (g_base _ _ _ _ _ _ Hg)) as ([x Hx] & _); [by left|].
    destruct (kept_fields _ _ _ (l :: map s_lock sl) _ _ w w' l x (g_base _ _ _ _ _ _ Hg) (g_base _ _ _ _ _ _ Hg') (cf_kept _ _ _ _ Hf) ltac:(by left) Hx) as (x' & Hx' & K1 & K2 & K3 & K4).
    rewrite (lk_Some w l x Hx) in *. unfold sleeper_ok. cbn [s_call s_lock s_start s_end].
    split; [done|]. split; [done|]. split; [lia|]. split; [lia|]. split; [|by left]. exists x'.
    assert (a_task ap = 0) as Ht0 by by apply Hv. split_and!; congruence. }
  destruct Hbu as [_ Hs Ht Hn Hl Hsl Hwo]. apply (sleep_kernel_ok sl (a_vp ap)); try done.
  - intros v Hne. rewrite (cf_states _ _ _ _ Hf), (cf_other _ _ _ _ Hf v Hne). by apply Hs.
  - intros v. rewrite (cf_states _ _ _ _ Hf). intros Hvs. rewrite <- (Ht v Hvs). unfold threads.
    destruct (decide (v = a_vp ap)) as [->|Hne]; [apply Hf | by rewrite (cf_other _ _ _ _ Hf)].
  - by rewrite (cf_lock_states _ _ _ _ Hf).
  - intros v. rewrite (cf_lock_states _ _ _ _ Hf), (cf_states _ _ _ _ Hf). apply Hl.
  - intros t [->|Hin]%elem_of_cons; [done|]. eapply sleeper_kept; [apply Hg | apply Hg' | exact Hf | by intros d []%elem_of_nil | | by apply Hsl].
    cbn [map]. right. by apply sleeper_in.
  - by apply (cf_woke _ _ _ _ Hf).
Qed.

Lemma call_free : exists freed w', lf_free_lock l w = Ok (freed, w') /\ busy sl (a_vp ap) [] w' /\
  (forall v, pending w' v = pending w v) /\ forall v o b, lock_at w' v o b = lock_at w v o b.
Proof.
  destruct (hand_free_ok _ _ l [] [] w (bu_good _ _ _ _ Hbu)) as (freed & w' & E & Hg' & Hf' & Hff & _); [apply not_elem_of_nil|].
  exists freed, w'. split; [done|]. split; [eapply busy_step; [exact Hbu | exact Hf' | done | by intros d []%elem_of_nil]|].
  split; [intros v; unfold st; by rewrite (ff_states _ _ _ _ Hff)|].
  intros v o b. destruct (hand_placed _ _ _ l w (g_base _ _ _ _ _ _ (bu_good _ _ _ _ Hbu))) as (_ & Ha & _); [by left|].
  apply lock_at_ext; [unfold st; by rewrite (ff_states _ _ _ _ Hff)|]. intros k Hk. eapply free_frame_lk; [done|]. intros ->. by apply (Ha v).
Qed.
End call.

(** * The steps of the threads *)

Definition set_outcome (fl : flock) (r : set_result) : outcome :=
  match r with
  | SetDone error => Return error fl None
  | SetAsync cookie => Return EINPROGRESS fl (Some cookie)
  | SetSleep lock => Sleep lock
  end.

Lemma setlock_spec_ext vp l w r w' w'' : pending w'' vp = pending w' vp ->
  (forall o b, lock_at w'' vp o b = lock_at w' vp o b) -> setlock_spec vp l w r w' -> setlock_spec vp l w r w''.
Proof.
  intros Ep E H. destruct H as [G w' H1 H2 H3 H4|p w' H1 H2 H3 H4 H5 H6|w' H1 H2 H3 H4|w1 q w' H1 H2 H3 H4 H5 H6 H7 H8|w1 w' H1 H2 H3 H4 H5 H6].
  - apply (SetGranted vp l w G); rewrite ?Ep; try done. intros o b. by rewrite E.
  - apply (SetLoop vp l w p); rewrite ?Ep; try done. intros o b. by rewrite E.
  - apply (SetAgain vp l w); rewrite ?Ep; try done. intros o b. by rewrite E.
  - apply (SetDeadlock vp l w w1 q); rewrite ?Ep; try done. intros o b. by rewrite E.
  - apply (SetWaits vp l w w1); rewrite ?Ep; try done. intros o b. by rewrite E.
Qed.

(** The checks pass and the thread leaves. *)
Lemma finish_ok {A} sl vp w (r : A) : busy sl vp [] w ->
  exists w', (check_state vp w;; w ← leave_state vp w; Ok (r, w)) = Ok (r, w') /\ kernel_ok (Kernel w' sl) /\
    (forall v, pending w' v = pending w v) /\ forall v o b, lock_at w' v o b = lock_at w v o b.
Proof.
  intros Hb. rewrite (check_state_ok _ _ _ _ _ (bu_good _ _ _ _ Hb)), bind_Ok.
  destruct (leave_ok sl vp w Hb) as (w' & -> & Hk & Hl & El & _). rewrite bind_Ok. exists w'. split; [done|]. split; [done|].
  split; [apply Hl|]. intros v o b. apply lock_at_ext; [apply Hl|]. intros k _. unfold lk. by rewrite El.
Qed.

Section try.
Context (sl : list sleeper) (ap : lock_call) (w : lock_world) (start end_ : Z).
Context (Hk : kernel_ok (Kernel w sl)) (Hv : valid_call ap) (Hrg : 0 <= start <= end_ /\ end_ <= OFF_MAX).
#[local] Abbreviation vp := (a_vp ap).

(** The lock of the request is made and the thread is in the state. *)
Lemma try_enter : let '(lo, l, w1) := request ap start end_ w in let w2 := get_state vp w1 in
  busy sl vp [l] w2 /\ ((l ∉ map s_lock sl) /\ l ∉ woken w2) /\ lk w2 l = request_lock ap start end_ lo /\
  doomed w1 = doomed w /\ (forall v o b, lock_at w2 v o b = lock_at w v o b) /\
  (forall v, active w2 v = active w v /\ pending w2 v = pending w v) /\ edges w2 = edges w /\ (forall k, k <> l -> lk w2 k = lk w k).
Proof.
  pose proof (new_request_ok _ 0 ap start end_ w (ko_fine _ Hk) Hrg) as Hr. destruct (request ap start end_ w) as [[lo l] w1].
  destruct Hr as (Hf & Hnf & Hkp & Hnew & HlS & El & Hlk & Hat).
  assert (l ∉ woken w) as Hlw by (intros Hlw; destruct (ko_woken _ Hk l Hlw) as [Hlt _]; cbn in Hlt; lia).
  pose proof (enter_ok sl w w1 vp l Hk Hf Hnf Hkp) as Hb.
  destruct (get_state_ok _ vp [l] w1 Hf) as (_ & Hli & _ & _ & _ & El2 & _ & Ew & _ & Ee). set (w2 := get_state vp w1) in *.
  assert (forall k, lk w2 k = lk w1 k) as Hlk2 by (intros; unfold lk; by rewrite El2).
  split; [done|]. split; [split; [done | by rewrite Ew, (nf_woken _ _ Hnf)]|]. split; [by rewrite Hlk2|]. split; [apply Hnf|]. split; [|split; [|split]].
  - intros v o b. rewrite <- Hat. apply lock_at_ext; [apply Hli | intros; apply Hlk2].
  - intros v. destruct (Hli v) as [-> ->]. unfold st. by rewrite (nf_states _ _ Hnf).
  - rewrite Ee. apply Hnf.
  - intros k Hne. rewrite Hlk2. by apply Hlk.
Qed.

Lemma try_set : a_op ap = F_SETLK -> doomed w vp = false ->
  let '(lo, l, w1) := request ap start end_ w in
  exists r w', advlock_try ap start end_ w = Ok (set_outcome (a_fl ap) r, w') /\
    kernel_ok (settle ap start end_ (set_outcome (a_fl ap) r) w' sl) /\ setlock_spec vp l (get_state vp w1) r w' /\
    forall v o b, v <> vp -> lock_at w' v o b = lock_at w v o b.
Proof.
  intros Hop Hd. pose proof try_enter as He. unfold advlock_try. rewrite Hop.
  cbn [Z.eqb Pos.eqb F_SETLK negb]. rewrite andb_false_r. unfold request in *.
  destruct (get_owner ap w) as [lo w0]. destruct (make_lock ap start end_ lo w0) as [l w1].
  destruct He as (Hb & [HlS Hlw] & El & Ed & Hat & _). rewrite Ed, Hd.
  destruct (call_setlock sl ap l (get_state vp w1) Hb Hv HlS Hlw) with (start := start) (end_ := end_) as (r & w' & -> & Hspec & Hels & Hr);
    rewrite ?El; try done.
  rewrite !bind_Ok. destruct r as [e|k|k].
  - destruct (finish_ok sl vp w' (Return e (a_fl ap) None) Hr) as (w'' & E & Hk' & Hp' & Hat'). exists (SetDone e), w''.
    split; [exact E|]. split; [done|]. split; [by apply (setlock_spec_ext _ _ _ _ w')|]. intros v o b Hne. by rewrite Hat', Hels, Hat.
  - destruct (finish_ok sl vp w' (Return EINPROGRESS (a_fl ap) (Some k)) Hr) as (w'' & E & Hk' & Hp' & Hat'). exists (SetAsync k), w''.
    split; [exact E|]. split; [done|]. split; [by apply (setlock_spec_ext _ _ _ _ w')|]. intros v o b Hne. by rewrite Hat', Hels, Hat.
  - exists (SetSleep k), w'. do 3 (split; [done|]). intros v o b Hne. by rewrite Hels, Hat.
Qed.

(** The other operations free the lock of the request. *)
Lemma free_finish l w0 w2 (r : outcome) : busy sl vp [l] w2 -> (forall v o b, lock_at w2 v o b = lock_at w0 v o b) ->
  exists w' w'', ('(_, w) ← lf_free_lock l w2; Ok (r, w)) = Ok (r, w') /\
    (check_state vp w';; w ← leave_state vp w'; Ok (r, w)) = Ok (r, w'') /\ kernel_ok (Kernel w'' sl) /\
    (forall v, pending w'' v = pending w2 v) /\ forall v o b, lock_at w'' v o b = lock_at w0 v o b.
Proof.
  intros Hb Hat. destruct (call_free sl ap l w2 Hb) as (f & w' & E & Hb' & Hp' & Hat'). rewrite E, bind_Ok.
  destruct (finish_ok sl vp w' r Hb') as (w'' & E'' & Hk' & Hp'' & Hat''). exists w', w''. split; [done|]. split; [done|]. split; [done|].
  split; [intros v; by rewrite Hp''|]. intros v o b. by rewrite Hat'', Hat'.
Qed.

Lemma try_unlock : a_op ap = F_UNLCK -> doomed w vp = false -> is_Some (lf_states w !! vp) ->
  let '(lo, l, w1) := request ap start end_ w in
  exists G w', advlock_try ap start end_ w = Ok (Return 0 (a_fl ap) None, w') /\ kernel_ok (Kernel w' sl) /\
    pending w vp ≡ₚ G ++ pending w' vp /\
    (forall o b, lock_at w' vp o b = fold_left set_range (request_lock ap start end_ lo :: map (lk w) G) (lock_at w vp) o b) /\
    (forall v o b, v <> vp -> lock_at w' v o b = lock_at w v o b).
Proof.
  intros Hop Hd [s Hs]. pose proof try_enter as He. unfold advlock_try. rewrite Hop, Hs.
  cbn [Z.eqb Pos.eqb F_SETLK F_UNLCK negb]. unfold request in *.
  destruct (get_owner ap w) as [lo w0]. destruct (make_lock ap start end_ lo w0) as [l w1].
  destruct He as (Hb & HlS & El & Ed & Hat & Hli & _ & Hlk). rewrite bool_decide_eq_false_2 by done. cbn [andb]. rewrite Ed, Hd.
  set (w2 := get_state vp w1) in *.
  destruct (clearlock_ok (map s_lock sl) vp l w2) as (G & w3 & E3 & Hg3 & Hf3 & HG & Hat3); [apply Hb | rewrite El; by apply Hv|].
  rewrite E3, bind_Ok.
  assert (busy sl vp [l] w3) as Hb3 by (eapply busy_step; [exact Hb | exact Hf3 | done | by intros d []%elem_of_nil]).
  destruct (free_finish l w3 w3 (Return 0 (a_fl ap) None) Hb3) as (w4 & w5 & -> & E5 & Hk5 & Hp5 & Hat5); [done|].
  rewrite bind_Ok. exists G, w5. split; [exact E5|]. split; [done|]. destruct (Hli vp) as [_ Hp2]. rewrite Hp5, <- Hp2. split; [done|].
  split; [|intros v o b Hne; by rewrite Hat5, (call_frame_at vp [] w2 w3 v o b Hf3 Hne), Hat].
  intros o b. rewrite Hat5, Hat3, El. assert (map (lk w2) G = map (lk w) G) as ->; [|by apply set_ranges_ext].
  apply map_ext_in. intros d Hd'%list_elem_of_In. apply Hlk. intros ->.
  destruct (hand_placed _ _ _ l w2 (g_base _ _ _ _ _ _ (bu_good _ _ _ _ Hb))) as (_ & _ & Hnp); [by left|].
  apply (Hnp vp). rewrite HG. apply elem_of_app. by left.
Qed.

Lemma try_getlk : a_op ap = F_GETLK -> doomed w vp = false -> is_Some (lf_states w !! vp) ->
  let '(lo, l, w1) := request ap start end_ w in
  exists w', advlock_try ap start end_ w = Ok (Return 0 (lf_getlock vp l (a_fl ap) (get_state vp w1)) None, w') /\
    kernel_ok (Kernel w' sl) /\ (forall v o b, lock_at w' v o b = lock_at w v o b).
Proof.
  intros Hop Hd [s Hs]. pose proof try_enter as He. unfold advlock_try. rewrite Hop, Hs.
  cbn [Z.eqb Pos.eqb F_SETLK F_UNLCK F_GETLK negb]. unfold request in *.
  destruct (get_owner ap w) as [lo w0]. destruct (make_lock ap start end_ lo w0) as [l w1].
  destruct He as (Hb & HlS & El & Ed & Hat & _). rewrite bool_decide_eq_false_2 by done. cbn [andb]. rewrite Ed, Hd.
  set (w2 := get_state vp w1) in *. cbn zeta.
  destruct (free_finish l w w2 (Return 0 (lf_getlock vp l (a_fl ap) w2) None) Hb Hat) as (w4 & w5 & -> & E5 & Hk5 & _ & Hat5).
  rewrite bind_Ok. by exists w5.
Qed.

Lemma try_rest : a_op ap <> F_SETLK -> a_op ap <> F_UNLCK -> a_op ap <> F_GETLK -> doomed w vp = false -> is_Some (lf_states w !! vp) ->
  exists e w', advlock_try ap start end_ w = Ok (Return e (a_fl ap) None, w') /\ kernel_ok (Kernel w' sl).
Proof.
  intros H1 H2 H3 Hd [s Hs]. pose proof try_enter as He. unfold advlock_try.
  rewrite (proj2 (Z.eqb_neq _ _) H1), (proj2 (Z.eqb_neq _ _) H2), (proj2 (Z.eqb_neq _ _) H3), Hs. unfold request in *.
  destruct (get_owner ap w) as [lo w0]. destruct (make_lock ap start end_ lo w0) as [l w1].
  destruct He as (Hb & HlS & El & Ed & Hat & _). rewrite bool_decide_eq_false_2 by done. cbn [andb]. rewrite Ed, Hd.
  set (w2 := get_state vp w1) in *. destruct (a_op ap =? F_CANCEL).
  - assert (exists e w3, (match a_cookiep ap with Some cookie => lf_cancel vp l cookie w2 | None => Ok (EINVAL, w2) end) = Ok (e, w3) /\
      busy sl vp [l] w3) as (e & w3 & -> & Hb3).
    { destruct (a_cookiep ap) as [c|]; [|by exists EINVAL, w2].
      destruct (cancel_ok (map s_lock sl) vp l c w2 (bu_good _ _ _ _ Hb)) as (G & e & C & w3 & E3 & Hg3 & Hf3 & _ & _ & HC).
      exists e, w3. split; [done|]. eapply busy_step; [exact Hb | exact Hf3 | done|]. intros d Hdc _.
      destruct HC as [(_ & -> & ? & _)|(_ & -> & _)]; [by apply list_elem_of_singleton in Hdc as -> | by apply elem_of_nil in Hdc]. }
    rewrite bind_Ok. destruct (free_finish l w3 w3 (Return e (a_fl ap) None) Hb3) as (w4 & w5 & -> & E5 & Hk5 & _ & _); [done|].
    rewrite bind_Ok. by exists e, w5.
  - destruct (free_finish l w2 w2 (Return EINVAL (a_fl ap) None) Hb) as (w4 & w5 & -> & E5 & Hk5 & _ & _); [done|].
    rewrite bind_Ok. by exists EINVAL, w5.
Qed.

Lemma try_none : a_op ap <> F_SETLK -> lf_states w !! vp = None ->
  advlock_try ap start end_ w = Ok (Return 0 (set_l_type F_UNLCK (a_fl ap)) None, w).
Proof.
  intros Hop Hs. unfold advlock_try. rewrite Hs, bool_decide_eq_true_2 by done. by rewrite (proj2 (Z.eqb_neq _ _) Hop).
Qed.

Lemma try_doomed : a_op ap = F_SETLK \/ is_Some (lf_states w !! vp) -> doomed w vp = true ->
  exists w', advlock_try ap start end_ w = Ok (Return ENOENT (a_fl ap) None, w') /\ kernel_ok (Kernel w' sl).
Proof.
  intros Hc Hd. pose proof (new_request_ok _ 0 ap start end_ w (ko_fine _ Hk) Hrg) as Hr. unfold advlock_try.
  assert ((bool_decide (lf_states w !! vp = None) && negb (a_op ap =? F_SETLK)) = false) as ->.
  { destruct Hc as [->|[s ->]]; [by rewrite andb_false_r | by rewrite bool_decide_eq_false_2]. }
  unfold request in Hr. destruct (get_owner ap w) as [lo w0]. destruct (make_lock ap start end_ lo w0) as [l w1].
  destruct Hr as (Hf & Hnf & Hkp & _). rewrite (nf_doomed _ _ Hnf), Hd.
  destruct (fine_free _ _ l w1 Hf) as (f & w' & -> & Hf' & Hff & Hkp'). rewrite bind_Ok. exists w'. split; [done|].
  eapply kernel_ok_same; [exact Hk | exact Hf' | | | | by eapply kept_trans].
  - by rewrite (ff_states _ _ _ _ Hff), (nf_states _ _ Hnf).
  - by rewrite (ff_lock_states _ _ _ _ Hff), (nf_lock_states _ _ Hnf).
  - by rewrite (ff_woken _ _ _ _ Hff), (nf_woken _ _ Hnf).
Qed.

Lemma advlock_try_ok : exists r w', advlock_try ap start end_ w = Ok (r, w') /\ kernel_ok (settle ap start end_ r w' sl).
Proof.
  destruct (decide (a_op ap <> F_SETLK /\ lf_states w !! vp = None)) as [[Hop Hs]|Hn].
  { rewrite try_none by done. by eexists _, w. }
  assert (a_op ap = F_SETLK \/ is_Some (lf_states w !! vp)) as Hc.
  { destruct (decide (a_op ap = F_SETLK)) as [|Hne]; [by left|]. right. destruct (lf_states w !! vp); [done|]. by destruct Hn. }
  destruct (doomed w vp) eqn:Hd.
  { destruct (try_doomed Hc Hd) as (w' & -> & Hk'). by eexists _, w'. }
  destruct (decide (a_op ap = F_SETLK)) as [Hop|Hop].
  { pose proof (try_set Hop Hd) as H. destruct (request ap start end_ w) as [[lo l] w1].
    destruct H as (r & w' & -> & Hk' & _). by eexists _, w'. }
  destruct Hc as [?|Hs]; [done|].
  destruct (decide (a_op ap = F_UNLCK)) as [Hu|Hu].
  { pose proof (try_unlock Hu Hd Hs) as H. destruct (request ap start end_ w) as [[lo l] w1].
    destruct H as (acts & w' & -> & Hk' & _). by eexists _, w'. }
  destruct (decide (a_op ap = F_GETLK)) as [Hge|Hge].
  { pose proof (try_getlk Hge Hd Hs) as H. destruct (request ap start end_ w) as [[lo l] w1].
    destruct H as (w' & -> & Hk' & _). by eexists _, w'. }
  destruct (try_rest Hop Hu Hge Hd Hs) as (e & w' & -> & Hk'). by eexists _, w'.
Qed.
End try.

(** ** A thread that goes on *)

Lemma fine_perm S S' vp R w : S ≡ₚ S' -> fine S vp R w -> fine S' vp R w.
Proof.
  intros HS [Hb Hw Hwt Hs]. split; try done. destruct Hb. split; try done.
  - intros l x Hx. rewrite <- (occ_perm l S S' HS). by apply b_alloc.
  - intros l. rewrite <- HS. apply b_sleepers.
  - by rewrite <- HS.
Qed.

Lemma kernel_ok_perm w sl sl' : sl ≡ₚ sl' -> kernel_ok (Kernel w sl) -> kernel_ok (Kernel w sl').
Proof.
  intros Hp [Hf Hs Ht Hn Hl Hsl]. cbn [k_world sleeping] in *. split; cbn [k_world sleeping]; try done.
  - eapply fine_perm; [|exact Hf]. by apply Permutation_map.
  - intros v. by rewrite <- (waiters_perm sl sl' v Hp).
  - intros v. rewrite <- (waiters_perm sl sl' v Hp). apply Ht.
  - intros s. rewrite <- Hp. apply Hsl.
Qed.

Section wake.
Context (sl : list sleeper) (s : sleeper) (w : lock_world) (Hk : kernel_ok (Kernel w (s :: sl))).
#[local] Abbreviation l := (s_lock s).
#[local] Abbreviation ap := (s_call s).
#[local] Abbreviation vp := (a_vp (s_call s)).

(** The thread gives its reference to the lock back. *)
Lemma wake_free : exists freed w', lf_free_lock l w = Ok (freed, w') /\ busy sl vp [] w' /\ (l ∉ map s_lock sl) /\
  (freed = false -> lf_flags (lk w' l) = a_flags ap /\ (l ∈ pending w' vp \/ l ∈ active w' vp)) /\
  (forall v, active w' v = active w v /\ pending w' v = pending w v) /\ edges w' = edges w /\
  (forall v o b, lock_at w' v o b = lock_at w v o b) /\ (freed = true -> (l ∉ active w vp) /\ (l ∉ pending w vp)) /\
  (forall k, k <> l -> lk w' k = lk w k).
Proof.
  pose proof Hk as [Hf Hs Ht Hn Hl Hsl]. cbn [k_world sleeping map] in *.
  pose proof (fine_nil _ 0 vp w Hf) as [Hb Hw Hwt Hso]. destruct (Hsl s ltac:(by left)) as (Hv & Hop & _ & _ & (x & Hx & E1 & E2 & E3) & Hp).
  assert (lf_refs x = 1 -> forall v, l ∉ places vp [] w v) as Hunplaced.
  { intros Hr v Hin. destruct (b_places _ _ _ _ Hb v l Hin) as (y & Hy & Hyv). assert (y = x) as -> by congruence.
    destruct (b_alloc _ _ _ _ Hb l x Hx) as (_ & _ & _ & _ & Hocc). rewrite Hyv in Hocc. apply occ_elem in Hin.
    rewrite occ_cons, decide_True in Hocc by done. pose proof (occ_nonneg l (map s_lock sl)). lia. }
  assert (lf_refs x = 1 -> forall v, (l ∉ active w v) /\ (l ∉ pending w v)) as Hoff.
  { intros Hr v. pose proof (Hunplaced Hr v) as H. unfold places in H. rewrite !not_elem_of_app in H. tauto. }
  destruct (free_base (l :: map s_lock sl) vp [] (map s_lock sl) [] l w Hb) as (freed & w1 & E & Hb1 & Hff & Hfr); [by right | |].
  { intros y Hy Hr. assert (y = x) as -> by congruence. split.
    - intros q Hq. destruct (w_edge _ _ _ _ Hw l q Hq) as (v & Hpv & _). by apply (Hoff Hr v).
    - intros p Hq. destruct (w_edge _ _ _ _ Hw p l Hq) as (v & _ & [[E0 _]|[Hin _]]); [rewrite E0 in Hq; by eapply no_zero_edge|].
      unfold held in Hin. rewrite !elem_of_app in Hin. destruct (Hoff Hr v) as [? ?]. destruct (v =? vp); destruct Hin as [[Hin|?]|?]; try done; by apply elem_of_nil in Hin. }
  rewrite (lk_Some w l x Hx) in Hfr.
  assert (forall v, st w1 v = st w v) as Hst by (intros v; unfold st; by rewrite (ff_states _ _ _ _ Hff)).
  assert (forall v k, k ∈ active w v \/ k ∈ pending w v -> lf_owner (lk w1 k) = lf_owner (lk w k) /\ lf_type (lk w1 k) = lf_type (lk w k) /\
    lf_start (lk w1 k) = lf_start (lk w k) /\ lf_end (lk w1 k) = lf_end (lk w k)) as Hlk.
  { intros v k Hin. destruct (decide (k = l)) as [->|Hne]; [|by rewrite (free_frame_lk _ _ _ _ _ Hff Hne)].
    destruct freed; [destruct (Hoff (proj1 Hfr eq_refl) v); tauto|]. pose proof (ff_lock _ _ _ _ Hff) as El. rewrite Hx in El. cbn in El.
    by rewrite (lk_Some w1 l _ El), (lk_Some w l x Hx). }
  assert (l ∉ map s_lock sl) as HlS by (pose proof (b_nodup_S _ _ _ _ Hb) as Hnd; by apply NoDup_cons in Hnd as [? _]).
  exists freed, w1. split; [done|]. split; [|split; [done|split; [|split; [by intros v; rewrite Hst|split; [apply Hff|split; [|split]]]]]].
  - assert (is_Some (lf_states w !! vp)) as Hsvp.
    { apply Hs. right. rewrite waiters_cons, decide_True by done. pose proof (waiters_nonneg sl vp). lia. }
    assert (waits vp [] 0 w1) as Hw1.
    { destruct freed.
      - apply (waits_free vp [] w w1 l true); try done.
        + intros v. unfold held. rewrite not_elem_of_app. destruct (Hoff (proj1 Hfr eq_refl) v). split; [|done]. destruct (v =? vp); apply not_elem_of_nil.
        + intros v. apply (Hoff (proj1 Hfr eq_refl) v).
        + intros p. by eapply no_zero_edge.
      - apply (waits_fields vp [] 0 w); try done; [apply Hff|]. intros k. destruct (decide (k = l)) as [->|Hne].
        + pose proof (ff_lock _ _ _ _ Hff) as El. rewrite Hx in El. cbn in El. by rewrite (lk_Some w1 l _ El), (lk_Some w l x Hx).
        + by rewrite (free_frame_lk _ _ _ _ _ Hff Hne). }
    split.
    + apply good_fine. split; [|by rewrite (ff_states _ _ _ _ Hff)]. split; try done.
      * intros v p. rewrite Hst, (ff_edges _ _ _ _ Hff). apply Hwt.
      * intros v. rewrite Hst. eapply sorted_mono; [|apply Hso]. intros a b Ha Hb'. unfold start_le.
        destruct (Hlk v a) as (_ & _ & -> & _); [by left|]. by destruct (Hlk v b) as (_ & _ & -> & _); [by left|].
    + intros v Hne. rewrite (ff_states _ _ _ _ Hff), Hst, Hs, waiters_cons, decide_False by congruence. by rewrite Z.add_0_l.
    + intros v. rewrite (ff_states _ _ _ _ Hff). unfold threads. rewrite Hst. intros Hvs. fold (threads w v). rewrite (Ht v Hvs), waiters_cons.
      destruct (decide (v = vp)), (decide (vp = v)); try lia; congruence.
    + by rewrite (ff_lock_states _ _ _ _ Hff).
    + intros v. rewrite (ff_lock_states _ _ _ _ Hff), (ff_states _ _ _ _ Hff). apply Hl.
    + intros t Hin. destruct (Hsl t ltac:(by right)) as (T1 & T2 & T3 & T4 & T5 & T6). unfold sleeper_ok.
      rewrite Hst, (ff_woken _ _ _ _ Hff), (ff_locks _ _ _ _ Hff); [done|]. intros El. apply HlS. rewrite <- El. by apply sleeper_in.
    + apply (woken_same w); [apply Hff | by rewrite (ff_next _ _ _ _ Hff) | intros v; by rewrite Hst | apply (ko_woken _ Hk)].
  - intros ->. pose proof (ff_lock _ _ _ _ Hff) as El. rewrite Hx in El. cbn in El. rewrite (lk_Some w1 l _ El), Hst. cbn. split; [done|].
    destruct (b_alloc _ _ _ _ Hb1 l _ El) as (_ & _ & _ & Hr & Hocc). cbn [lf_vnode lf_refs set_lf_refs] in *.
    assert (occ l (map s_lock sl) = 0) as Ho0 by (rewrite occ_nodup by apply Hb1; by rewrite decide_False).
    assert (l ∈ places vp [] w1 (lf_vnode x)) as Hin by (apply occ_elem; lia). rewrite E1 in Hin. unfold places in Hin.
    rewrite Z.eqb_refl, Hst in Hin. cbn in Hin. apply elem_of_app in Hin. tauto.
  - intros v o b. unfold lock_at. rewrite Hst. assert (forall k, k ∈ active w v -> k ∈ active w v \/ k ∈ pending w v) as Hin by auto. revert Hin.
    generalize (active w v) at 1 3 4. intros la Hin. induction la as [|k la IH]; cbn; [done|].
    destruct (Hlk v k) as (-> & E' & -> & ->); [apply Hin; by left|]. destruct (_ && _); cbn; [by rewrite E'|]. apply IH. intros; apply Hin. by right.
  - intros ->. apply Hoff. by apply Hfr.
  - intros k Hne. by eapply free_frame_lk.
Qed.

(** After the operation. *)
Lemma wake_finish e w2 : busy sl vp [] w2 -> e <> EDOOFUS ->
  exists w', ('(error, w) ← Ok (e, w2); check_state vp w;; w ← leave_state vp w;
      if error =? EDOOFUS then advlock_try ap (s_start s) (s_end s) w else Ok (Return error (a_fl ap) None, w)) =
    Ok (Return e (a_fl ap) None, w') /\ kernel_ok (Kernel w' sl) /\ (forall v, pending w' v = pending w2 v) /\
    forall v o b, lock_at w' v o b = lock_at w2 v o b.
Proof.
  intros Hb2 He. rewrite bind_Ok, (check_state_ok _ _ _ _ _ (bu_good _ _ _ _ Hb2)), bind_Ok.
  destruct (leave_ok sl vp w2 Hb2) as (w3 & -> & Hk3 & Hl3 & El3 & _). rewrite bind_Ok, (proj2 (Z.eqb_neq _ _) He).
  exists w3. split; [done|]. split; [done|]. split; [apply Hl3|].
  intros v o b. apply lock_at_ext; [apply Hl3|]. intros k _. unfold lk. by rewrite El3.
Qed.

(** The lock is there: it was granted, whatever woke the thread, or the thread
    was interrupted and the request is given up. *)
Lemma wake_stays error : error <> EDOOFUS -> (error = 0 -> l ∈ woken w) -> l ∈ active w vp \/ l ∈ pending w vp ->
  exists e G w', advlock_woken ap (s_start s) (s_end s) l error w = Ok (Return e (a_fl ap) None, w') /\ kernel_ok (Kernel w' sl) /\
    (forall o b, lock_at w' vp o b = fold_left set_range (map (lk w) G) (lock_at w vp) o b) /\
    (forall v o b, v <> vp -> lock_at w' v o b = lock_at w v o b) /\
    ((l ∈ active w vp /\ e = 0 /\ G = [] /\ pending w' vp = pending w vp) \/
     (l ∈ pending w vp /\ e = error /\ error <> 0 /\ pending w vp ≡ₚ l :: G ++ pending w' vp)).
Proof.
  intros Herr Hwk Hplaced. pose proof Hk as [_ _ _ _ _ Hsl]. cbn [k_world sleeping] in Hsl.
  destruct (Hsl s ltac:(by left)) as (Hv & _). clear Hsl.
  destruct wake_free as (freed & w1 & E1 & Hb1 & HlS & Hpl & Hli & Hed & Hat & Hfree & Hlk). unfold advlock_woken, lf_setlock_woken.
  destruct freed; [destruct (Hfree eq_refl); tauto|]. rewrite E1, !bind_Ok.
  destruct (Hpl eq_refl) as [Efl _]. rewrite Efl, (vc_intr _ Hv). destruct (Hli vp) as [Ea1 Ep1].
  pose proof (bu_good _ _ _ _ Hb1) as Hg1. destruct (is_empty (lf_outedges w1 l)) eqn:Eo.
  - destruct (wake_finish 0 w1 Hb1) as (w' & E & Hk' & Hp' & Hat'); [done|]. exists 0, [], w'. split; [exact E|]. split; [done|].
    split; [intros o b; by rewrite Hat', Hat|]. split; [intros v o b _; by rewrite Hat', Hat|]. left. split; [|by rewrite Hp'].
    destruct Hplaced as [?|Hp]; [done|]. exfalso. rewrite <- Ep1 in Hp. destruct (g_waiting _ _ _ _ _ _ Hg1 vp l Hp) as [q Hq].
    by apply (proj1 (outedges_empty w1 l) Eo q).
  - assert (l ∈ pending w1 vp) as Hlp.
    { destruct Hplaced as [Ha|?]; [|by rewrite Ep1]. exfalso. apply not_true_iff_false in Eo. apply Eo, outedges_empty. intros q Hq.
      destruct (w_edge _ _ _ _ (g_waits _ _ _ _ _ _ Hg1) l q Hq) as (v & Hpv & _). rewrite <- Ea1 in Ha.
      destruct (active_placed _ _ _ _ _ _ (g_base _ _ _ _ _ _ Hg1) Ha) as (_ & _ & _ & Hnp & _). by apply (Hnp v). }
    destruct (cancel_lock_ok _ vp [] [] l w1 Hg1 Hlp) as (G & w2 & E2 & Hg2 & Hf2 & HG & Hat2).
    rewrite E2, bind_Ok.
    assert (busy sl vp [] w2) as Hb2.
    { eapply busy_step; [exact Hb1 | exact Hf2 | done|]. intros d ->%list_elem_of_singleton Hd. done. }
    destruct (wake_finish error w2 Hb2 Herr) as (w' & E & Hk' & Hp' & Hat'). exists error, G, w'. split; [exact E|]. split; [done|].
    rewrite Hp', <- Ep1. split; [|split; [|right; split; [done|split; [done|split; [|done]]]]].
    3: { intros E0. destruct (ko_woken _ Hk l (Hwk E0)) as [_ Hn]. apply (Hn vp). cbn [k_world]. by rewrite <- Ep1. }
    2: { intros v o b Hne. by rewrite Hat', (call_frame_at vp [l] w1 w2 v o b Hf2 Hne), Hat. }
    intros o b. rewrite Hat', Hat2.
    assert (map (lk w1) G = map (lk w) G) as ->; [|by apply set_ranges_ext].
    apply map_ext_in. intros d Hd%list_elem_of_In. apply Hlk. intros ->.
    destruct (pending_placed _ _ _ _ _ _ (g_base _ _ _ _ _ _ Hg1) Hlp) as (_ & _ & _ & _ & _ & _ & Hnd). rewrite HG in Hnd.
    apply NoDup_cons in Hnd as [Hnl _]. apply Hnl, elem_of_app. by left.
Qed.

Lemma wake_ok error : error <> EDOOFUS -> (error = 0 -> l ∈ woken w) ->
  exists r w', advlock_woken ap (s_start s) (s_end s) l error w = Ok (r, w') /\ kernel_ok (settle ap (s_start s) (s_end s) r w' sl).
Proof.
  intros Herr Hwk. destruct (decide (l ∈ active w vp \/ l ∈ pending w vp)) as [Hp|Hn].
  { destruct (wake_stays error Herr Hwk Hp) as (e & G & w' & -> & Hk' & _). by eexists _, w'. }
  pose proof Hk as [_ _ _ _ _ Hsl]. cbn [k_world sleeping] in Hsl.
  destruct (Hsl s ltac:(by left)) as (Hv & Hop & Hr1 & Hr2 & _). clear Hsl.
  destruct wake_free as (freed & w1 & E1 & Hb1 & HlS & Hpl & Hli & _). unfold advlock_woken, lf_setlock_woken.
  rewrite E1, !bind_Ok. destruct freed.
  - rewrite bind_Ok. rewrite (check_state_ok _ _ _ _ _ (bu_good _ _ _ _ Hb1)), bind_Ok.
    destruct (leave_ok sl vp w1 Hb1) as (w2 & -> & Hk2 & _). rewrite bind_Ok. cbn [Z.eqb Pos.eqb EDOOFUS].
    by apply advlock_try_ok.
  - destruct (Hpl eq_refl) as [_ Hin]. destruct (Hli vp) as [Ea Ep]. rewrite Ea, Ep in Hin. tauto.
Qed.
End wake.

(** ** What follows in every state *)

Lemma ok_exclusive k v b o1 o2 : kernel_ok k -> o1 <> o2 ->
  lock_at (k_world k) v o1 b = Some F_WRLCK -> lock_at (k_world k) v o2 b = None.
Proof.
  intros Hk Hne H1. pose proof (f_waits _ _ _ _ (fine_nil _ 0 v _ (ko_fine _ Hk))) as Hw.
  apply (lock_at_None _ _ _ _ _ Hw). intros l2 Hl2 [Ho2 Hc2].
  apply (lock_at_iff _ _ _ _ _ _ Hw) in H1 as (l1 & Hl1 & [Ho1 Hc1] & Ht).
  assert (blocks (k_world k) l1 l2 = false) as Hb.
  { apply (w_conf _ _ _ _ Hw v); unfold held; apply elem_of_app; by right. }
  unfold lf_blocks in Hb. rewrite Ht, Ho1, Ho2, (proj2 (Z.eqb_neq _ _) Hne) in Hb. cbn in Hb.
  apply overlaps_false in Hb. unfold covers in *. lia.
Qed.

(** The edges from a pending lock lead to an active one. *)
Lemma pending_chain S vp w v : fine S vp [] w -> forall n p, p ∈ pending w v ->
  g_size (lf_owner_graph w) - order (lf_owner_graph w) (vertex_of w p) <= Z.of_nat n ->
  exists q, q ∈ active w v /\ tc (fun x y => (x, y) ∈ edges w) p q.
Proof.
  intros [Hb Hw Hwt _]. induction n as [|n IH]; intros p Hp Hn; destruct (Hwt v p Hp) as [q Hq];
    assert (edge (lf_owner_graph w) (vertex_of w p) (vertex_of w q)) as He by (apply (graph_edge_iff S vp [] w Hb); by exists p, q);
    destruct (go_edge _ (b_graph _ _ _ _ Hb) _ _ He) as (Lp & Lq & Hlt).
  - pose proof (live_order _ (b_graph _ _ _ _ Hb) _ Lp). lia.
  - destruct (w_edge _ _ _ _ Hw p q Hq) as (v' & Hv' & [[-> _]|[Hin _]]); [exfalso; by eapply no_zero_edge|].
    destruct (pending_placed S vp [] w v p Hb Hp) as (_ & _ & _ & _ & _ & Hun & _). rewrite (Hun v' Hv') in Hin.
    apply elem_of_app in Hin as [Hin|Hin].
    + exists q. split; [|by apply tc_once]. unfold held in Hin. by destruct (v =? vp).
    + destruct (IH q Hin) as (r & Hr & Ht); [lia|]. exists r. split; [done|]. by eapply tc_l.
Qed.

Lemma ok_waits k vp p : kernel_ok k -> p ∈ pending (k_world k) vp -> let w := k_world k in
  (exists q, (p, q) ∈ edges w /\ (q ∈ active w vp \/ q ∈ pending w vp) /\ blocks w p q = true) /\
  exists q, q ∈ active w vp /\ tc (fun x y => (x, y) ∈ edges w) p q.
Proof.
  intros Hk Hp w. pose proof (ko_fine _ Hk) as Hf. pose proof Hf as [Hb Hw Hwt _]. split.
  - destruct (Hwt vp p Hp) as [q Hq]. exists q. split; [done|].
    destruct (w_edge _ _ _ _ Hw p q Hq) as (v & Hv & [[-> _]|[Hin Hbl]]); [exfalso; by eapply no_zero_edge|].
    destruct (pending_placed _ _ _ _ _ _ Hb Hp) as (_ & _ & _ & _ & _ & Hun & _). rewrite (Hun v Hv) in Hin.
    split; [|done]. apply elem_of_app in Hin as [Hin|Hin]; [left | by right]. unfold held in Hin. by destruct (vp =? 0).
  - apply (pending_chain _ _ _ _ Hf (Z.to_nat (Z.max 0 (g_size (lf_owner_graph w) - order (lf_owner_graph w) (vertex_of w p)))) p Hp). fold w. lia.
Qed.

Lemma ok_check k v : kernel_ok k -> check_state v (k_world k) = Ok tt.
Proof.
  intros Hk. pose proof (fine_nil _ 0 v _ (ko_fine _ Hk)) as Hf.
  destruct (lf_states (k_world k) !! v) eqn:E.
  - apply (check_state_ok (map s_lock (sleeping k)) v [] []). apply good_fine. by rewrite E.
  - unfold check_state, st. by rewrite E.
Qed.

(** The process id and the system of an owner. *)
Lemma request_ow S vp ap start end_ w o : base S vp [] w -> is_Some (lock_owners w !! o) ->
  let '(_, _, w1) := request ap start end_ w in
  lo_pid (ow (get_state (a_vp ap) w1) o) = lo_pid (ow w o) /\ lo_sysid (ow (get_state (a_vp ap) w1) o) = lo_sysid (ow w o).
Proof.
  intros Hb [x Hx]. assert (o <> next_addr w) as Hne by (destruct (b_owner _ _ _ _ Hb o x Hx); lia).
  assert (let '(_, w1) := get_owner ap w in lo_pid (ow w1 o) = lo_pid (ow w o) /\ lo_sysid (ow w1 o) = lo_sysid (ow w o)) as H0.
  { unfold get_owner. destruct (find_owner _ _ _ _ _) as [lo|].
    - rewrite ow_upd. destruct (decide (o = lo)) as [->|]; [|done]. by rewrite Hx, (ow_Some w lo x Hx).
    - unfold ow. cbn. by rewrite lookup_insert_ne by congruence. }
  unfold request. destruct (get_owner ap w) as [lo w1]. pose proof (make_lock_ok ap start end_ lo w1) as Hm.
  destruct (make_lock ap start end_ lo w1) as [l w2]. destruct Hm as (_ & _ & _ & _ & Eo & _).
  assert (lock_owners (get_state (a_vp ap) w2) = lock_owners w1) as E by (rewrite <- Eo; unfold get_state; by destruct (lf_states w2 !! a_vp ap)).
  unfold ow in *. by rewrite E.
Qed.

(** ** All steps *)

Lemma lf_init_ok : kernel_ok lf_init.
Proof.
  assert (forall v, st (k_world lf_init) v = no_state) as Hst by done.
  split; cbn [k_world sleeping lf_init].
  - split.
    + split; try done.
      * apply graph_init_ok.
      * intros v l. unfold places. cbn. destruct (v =? 0); by intros ?%elem_of_nil.
      * by intros l ?%elem_of_nil.
      * intros v. unfold places. cbn. destruct (v =? 0); constructor.
      * constructor.
      * intros v []%init_live.
      * constructor.
      * by intros p q ?%elem_of_nil.
      * by intros h o ?%elem_of_nil.
      * constructor.
    + split.
      * intros v x. unfold held. cbn. destruct (v =? 0); by intros ?%elem_of_nil.
      * intros v x y. unfold held. cbn. destruct (v =? 0); by intros ?%elem_of_nil.
      * by intros v x y ?%elem_of_nil.
      * by intros p q ?%elem_of_nil.
      * by intros v p q ?%elem_of_nil.
      * intros v. constructor.
    + by intros v p ?%elem_of_nil.
    + intros v. constructor.
  - intros v. split; [by intros [? ?]|]. intros [?|?]; [done|]. unfold waiters in *. cbn in *. lia.
  - by intros v [? ?].
  - constructor.
  - intros v. split; [by intros ?%elem_of_nil | by intros [? ?]].
  - by intros s ?%elem_of_nil.
  - by intros x ?%elem_of_nil.
Qed.

Lemma k_step_ok k e : kernel_ok k -> valid_event k e -> exists r k', k_step e k = Ok (r, k') /\ kernel_ok k'.
Proof.
  intros Hk Hv. destruct k as [w sl]. destruct e as [ap size|i error|vp]; cbn [k_step k_world sleeping].
  - destruct Hv as [Hv Hsz]. unfold lf_advlockasync. destruct (lf_range (a_fl ap) size) as [error|[start end_]] eqn:Er.
    + rewrite bind_Ok. by eexists _, _.
    + destruct (advlock_try_ok sl ap w start end_ Hk Hv) as (r & w' & -> & Hk').
      { apply (lf_range_ok (a_fl ap) size); [by apply Hv | by apply Hv | lia | done]. }
      rewrite bind_Ok. by eexists _, _.
  - destruct Hv as (He & s & Hs & Hwk). cbn [sleeping k_world] in Hs, Hwk. rewrite Hs.
    assert (kernel_ok (Kernel w (s :: delete i sl))) as Hk1.
    { eapply kernel_ok_perm; [|exact Hk]. by apply delete_Permutation. }
    destruct (wake_ok (delete i sl) s w Hk1 error He Hwk) as (r & w' & -> & Hk'). rewrite bind_Ok. by eexists _, _.
  - eexists _, _. split; [done|]. eapply (kernel_ok_same sl 0); [exact Hk | | done | done | done | by apply kept_same].
    destruct Hk as [Hf _ _ _ _ _]. by apply (fine_states _ _ _ w).
Qed.

Inductive reachable : kernel -> Prop :=
  | reach_init : reachable lf_init
  | reach_step k e r k' : reachable k -> valid_event k e -> k_step e k = Ok (r, k') -> reachable k'.

Lemma reachable_kernel_ok k : reachable k -> kernel_ok k.
Proof.
  induction 1 as [|k e r k' _ IH Hv E]; [apply lf_init_ok|]. destruct (k_step_ok k e IH Hv) as (r1 & k1 & E1 & Hk1). congruence.
Qed.
