(* ===== verification/LfProps.v ===== *)
(** * Properties of the advisory record locks

    Exclusion, absence of deadlocks and of lost wakeups in every reachable
    state, and the result of each call, with a small run as the witness. *)

From stdpp Require Import gmap relations sorting.
From S2P Require Import Prelude LfGraph LfGraphInv LfGraphEdge LfGraphOps Lockf LockfMem LockfWait LockfSplit LockfSet LockfCalls.

(** ** An example

    Owner 100 writes the bytes 0 to 99 of the file 7, owner 200 waits to read
    the bytes 10 to 19 of it; owner 200 writes the file 8. *)

Definition set_call (vp id t start len flags : Z) : lock_call :=
  LockCall vp id id F_SETLK (Flock start len 0 t SEEK_SET 0) flags 0 None.
Definition unlock_call (vp id start len : Z) : lock_call :=
  LockCall vp id id F_UNLCK (Flock start len 0 F_UNLCK SEEK_SET 0) 0 0 None.
Definition ask_call (vp id t start len : Z) : lock_call :=
  LockCall vp id id F_GETLK (Flock start len 0 t SEEK_SET 0) 0 0 None.

Definition k_next (k : kernel) (e : event) : kernel := match k_step e k with Ok (_, k') => k' | Panic _ => k end.
Definition k_after (es : list event) : kernel := fold_left k_next es lf_init.

Lemma reach_next k e : reachable k -> valid_event k e -> reachable (k_next k e).
Proof.
  intros Hk Hv. destruct (k_step_ok k e (reachable_kernel_ok k Hk) Hv) as (r & k' & E & _). unfold k_next. rewrite E. by eapply reach_step.
Qed.

Definition valid_calls (es : list event) : Prop := Forall (fun e => exists ap, e = EvCall ap 0 /\ valid_call ap) es.

Lemma reach_calls es : valid_calls es -> forall k, reachable k -> reachable (fold_left k_next es k).
Proof.
  induction 1 as [|e es (ap & -> & Hv) _ IH]; intros k Hk; cbn; [done|]. apply IH, reach_next; [done|]. split; [done | lia].
Qed.

Lemma valid_set vp id t start len flags : t = F_RDLCK \/ t = F_WRLCK -> flag flags F_INTR = false ->
  off_t start -> off_t len -> valid_call (set_call vp id t start len flags).
Proof. intros Ht Hf Hs Hl. by split. Qed.
Lemma valid_unlock vp id start len : off_t start -> off_t len -> valid_call (unlock_call vp id start len).
Proof. intros Hs Hl. by split. Qed.
Lemma valid_ask vp id t start len : off_t start -> off_t len -> valid_call (ask_call vp id t start len).
Proof. intros Hs Hl. by split. Qed.

Definition lock_events : list event :=
  [EvCall (set_call 7 100 F_WRLCK 0 100 0) 0; EvCall (set_call 8 200 F_WRLCK 0 0 0) 0;
   EvCall (set_call 7 200 F_RDLCK 10 10 F_WAIT) 0].

Lemma small_off n : 0 <= n < 1000 -> off_t n.
Proof. unfold off_t, OFF_MAX. lia. Qed.

Lemma lock_example_reachable : reachable (k_after lock_events).
Proof.
  apply reach_calls; [|apply reach_init]. repeat constructor; eexists; (split; [reflexivity|]);
    apply valid_set; auto; apply small_off; lia.
Qed.

(** C36: graph_add_edge refuses an edge with EDEADLK exactly when its end
    already reaches its start; the graph then has the same edges. Otherwise it
    returns 0 and the graph has just the one edge more, or counts it once more,
    and the vertices are in an order in which every edge goes up, so that there
    is no cycle. *)
Theorem graph_add_edge_correct g x y :
  graph_ok g -> live g x -> live g y -> x <> y ->
  exists err g', graph_add_edge g x y = Ok (err, g') /\ graph_ok g' /\ same_vertices g g' /\
    (forall a b, edge g' a b -> order g' a < order g' b /\ ~ rtc (edge g') b a) /\
    ((err = EDEADLK /\ rtc (edge g) y x /\ same_edges g g') \/
     (err = 0 /\ ~ rtc (edge g) y x /\ (forall a b, e_refs g' a b = e_refs g a b + is_edge x y a b) /\
      (forall a b, edge g' a b <-> edge g a b \/ (a = x /\ b = y)))).
Proof.
  intros Hok Hx Hy Hne. destruct (add_edge_ok g x y Hok Hx Hy Hne) as (err & g' & E & Hok' & Hv & Hr).
  exists err, g'. split; [done|]. split; [done|]. split; [done|]. split.
  { intros a b Hab. split; [by apply (go_edge _ Hok')|]. by apply (path_acyclic g' Hok'). }
  destruct Hr as [Hr|(? & ? & He)]; [by left | right]. split_and!; try done.
  intros a b. rewrite <- (is_edge_true x y a b).
  destruct (go_refs _ Hok a b) as [? ->], (go_refs _ Hok' a b) as [? ->]. rewrite He.
  unfold is_edge. destruct (_ && _); lia.
Qed.

(** Three owners, the first of which waits for the second and the second for
    the third. *)
Definition graph_example : owner_graph :=
  let g := graph_alloc_vertex (graph_alloc_vertex (graph_alloc_vertex graph_init 1 11) 2 12) 3 13 in
  match graph_add_edge g 13 12 with
  | Ok (_, g) => match graph_add_edge g 12 11 with Ok (_, g) => g | Panic _ => g end
  | Panic _ => g
  end.

Lemma graph_example_ok : graph_ok graph_example /\ live graph_example 11 /\ live graph_example 13.
Proof.
  unfold graph_example. set (g := graph_alloc_vertex _ 3 13).
  assert (graph_ok g /\ live g 11 /\ live g 12 /\ live g 13) as (Hok & H11 & H12 & H13).
  { destruct (alloc_vertex_ok graph_init 1 11 graph_init_ok (init_live 11)) as (H1 & L1 & _).
    destruct (alloc_vertex_ok _ 2 12 H1) as (H2 & L2 & _).
    { rewrite L1. intros [[]%init_live|?]; lia. }
    destruct (alloc_vertex_ok _ 3 13 H2) as (H3 & L3 & _).
    { rewrite L2, L1. intros [[[]%init_live|?]|?]; lia. }
    split; [exact H3|]. unfold g. rewrite !L3, !L2, !L1. auto 6. }
  destruct (add_edge_ok g 13 12 Hok H13 H12 ltac:(lia)) as (e1 & g1 & -> & Hok1 & [Hl1 _ _] & _).
  rewrite <- Hl1 in H11, H12, H13.
  destruct (add_edge_ok g1 12 11 Hok1 H12 H11 ltac:(lia)) as (e2 & g2 & -> & Hok2 & [Hl2 _ _] & _).
  by rewrite !Hl2.
Qed.

(** The edge that would close the cycle. *)
Lemma graph_add_edge_correct_witness :
  (exists g', graph_add_edge graph_example 11 13 = Ok (EDEADLK, g')) /\
  exists err g', graph_add_edge graph_example 11 13 = Ok (err, g') /\ graph_ok g'.
Proof.
  split; [eexists; vm_compute; reflexivity|].
  destruct graph_example_ok as (Hok & H11 & H13).
  destruct (graph_add_edge_correct graph_example 11 13 Hok H11 H13 ltac:(lia)) as (err & g' & E & Hok' & _).
  exists err, g'. split; [exact E | exact Hok'].
Defined.

(** C13: No call of a valid program and no thread that goes on fails a check:
    in every reachable state every valid step ends in a new state, in which the
    active locks are sorted and apart and every pending lock has an edge. No
    assertion of kern_lockf.c fails, no loop runs out of fuel, no freed lock or
    owner is used. *)
Theorem lock_calls_return k e :
  reachable k -> valid_event k e -> exists r k', k_step e k = Ok (r, k') /\ reachable k' /\
    forall v, check_state v (k_world k') = Ok tt.
Proof.
  intros Hk Hv. destruct (k_step_ok k e (reachable_kernel_ok k Hk) Hv) as (r & k' & E & Hk').
  exists r, k'. split; [done|]. split; [by eapply reach_step|]. intros v. by apply ok_check.
Qed.

(** A reader that waits is woken when the writer unlocks. *)
Lemma lock_calls_return_witness :
  exists k', k_step (EvCall (unlock_call 7 100 10 5) 0) (k_after lock_events) =
    Ok (Some (Return 0 (a_fl (unlock_call 7 100 10 5)) None), k') /\ reachable k'.
Proof.
  destruct (lock_calls_return (k_after lock_events) (EvCall (unlock_call 7 100 10 5) 0) lock_example_reachable) as (r & k' & E & Hk' & _).
  { split; [apply valid_unlock; apply small_off; lia | lia]. }
  exists k'. split; [|exact Hk']. rewrite E. f_equal. f_equal.
  assert (option_map fst (match k_step (EvCall (unlock_call 7 100 10 5) 0) (k_after lock_events) with Ok x => Some x | Panic _ => None end) =
    Some (Some (Return 0 (a_fl (unlock_call 7 100 10 5)) None))) as H by (vm_compute; reflexivity).
  rewrite E in H. by injection H.
Defined.

(** C2: In every reachable state a byte that one owner has locked for writing is
    locked by no other owner. *)
Theorem locks_exclusive k v b o1 o2 :
  reachable k -> o1 <> o2 ->
  lock_at (k_world k) v o1 b = Some F_WRLCK -> lock_at (k_world k) v o2 b = None.
Proof. intros Hk. by apply ok_exclusive, reachable_kernel_ok. Qed.

(** The first owner has the address 1, the second 3. *)
Lemma locks_exclusive_witness :
  lock_at (k_world (k_after lock_events)) 7 1 15 = Some F_WRLCK /\ lock_at (k_world (k_after lock_events)) 7 3 15 = None.
Proof.
  assert (lock_at (k_world (k_after lock_events)) 7 1 15 = Some F_WRLCK) as H by (vm_compute; reflexivity).
  split; [exact H|]. apply (locks_exclusive (k_after lock_events) 7 15 1 3 lock_example_reachable); [lia | exact H].
Defined.

(** C6: In every reachable state no owner waits, over any number of other owners
    and over the locks of any files, for itself: the threads never deadlock. *)
Theorem lock_owners_never_deadlock k a b :
  reachable k -> waits_for (k_world k) a b -> ~ rtc (waits_for (k_world k)) b a.
Proof.
  intros Hk. pose proof (reachable_kernel_ok k Hk) as [Hf _ _ _ _ _]. exact (waits_acyclic _ _ _ _ (f_base _ _ _ _ Hf) a b).
Qed.

Lemma lock_owners_never_deadlock_witness :
  waits_for (k_world (k_after lock_events)) 3 1 /\ ~ rtc (waits_for (k_world (k_after lock_events))) 1 3.
Proof.
  assert (waits_for (k_world (k_after lock_events)) 3 1) as H.
  { exists 5, 2. split; [|split; vm_compute; reflexivity].
    assert (edges (k_world (k_after lock_events)) = [(5, 2)]) as -> by (vm_compute; reflexivity). by left. }
  split; [exact H|]. apply (lock_owners_never_deadlock (k_after lock_events) 3 1 lock_example_reachable H).
Defined.

(** C7: No wakeup is lost: in every reachable state a thread that sleeps on a
    lock was woken and the lock is pending no more, or the lock is pending,
    another lock of the file blocks it and it has an edge to that lock, and its
    edges lead, over locks that are pending, to a lock of the file that is
    active, whose release will be passed on. *)
Theorem no_lost_wakeup k s :
  reachable k -> s ∈ sleeping k -> let w := k_world k in let vp := a_vp (s_call s) in
  (s_lock s ∈ woken w /\ s_lock s ∉ pending w vp) \/
  s_lock s ∈ pending w vp /\
  (exists q, (s_lock s, q) ∈ edges w /\ (q ∈ active w vp \/ q ∈ pending w vp) /\ blocks w (s_lock s) q = true) /\
  exists q, q ∈ active w vp /\ tc (fun x y => (x, y) ∈ edges w) (s_lock s) q.
Proof.
  intros Hk Hs w vp. pose proof (reachable_kernel_ok k Hk) as Hok.
  destruct (ko_sleepers _ Hok s Hs) as (_ & _ & _ & _ & _ & [Hp|Hw]); [right | left; split; [done | by apply (ko_woken _ Hok)]].
  split; [done|].
  by apply (ok_waits k (a_vp (s_call s)) (s_lock s)).
Qed.

Definition reader : sleeper := Sleeper 5 (set_call 7 200 F_RDLCK 10 10 F_WAIT) 10 19.

Lemma no_lost_wakeup_witness :
  (5 ∉ woken (k_world (k_after lock_events))) /\
  exists q, q ∈ active (k_world (k_after lock_events)) 7 /\ tc (fun x y => (x, y) ∈ edges (k_world (k_after lock_events))) 5 q.
Proof.
  assert (sleeping (k_after lock_events) = [reader]) as Es by (vm_compute; reflexivity).
  assert (woken (k_world (k_after lock_events)) = []) as Ew by (vm_compute; reflexivity).
  split; [rewrite Ew; apply not_elem_of_nil|].
  destruct (no_lost_wakeup (k_after lock_events) reader lock_example_reachable) as [[Hw _]|(_ & _ & Hq)].
  - rewrite Es. by left.
  - rewrite Ew in Hw. destruct (not_elem_of_nil _ Hw).
  - exact Hq.
Defined.

(** C4: A request for a lock is granted exactly when no lock of another owner
    conflicts with it and no pending lock it would block belongs to an owner
    that its own waits for; then every byte has the type asked for, or that of
    a pending lock that was granted with it, for the owner, and no other byte
    changes. A request with a conflict that may not wait is refused with
    EAGAIN, one that would close a cycle of waiting owners with EDEADLK, and
    otherwise it becomes pending and its thread sleeps, or it is asynchronous.
    An exclusive lock of the flock kind that has to wait gives up first what its
    owner has there. No lock of another file changes. *)
Theorem setlk_correct k ap size start end_ :
  reachable k -> valid_call ap -> 0 <= size < 2 ^ 64 -> a_op ap = F_SETLK -> doomed (k_world k) (a_vp ap) = false ->
  lf_range (a_fl ap) size = inr (start, end_) -> let w := k_world k in let vp := a_vp ap in
  let '(lo, l, w1) := request ap start end_ w in let w2 := get_state vp w1 in
  lk w2 l = request_lock ap start end_ lo /\ (forall v, active w2 v = active w v /\ pending w2 v = pending w v) /\
  (forall v o b, lock_at w2 v o b = lock_at w v o b) /\ edges w2 = edges w /\
  exists r w', lf_advlockasync ap size w = Ok (set_outcome (a_fl ap) r, w') /\ setlock_spec vp l w2 r w' /\
    forall v o b, v <> vp -> lock_at w' v o b = lock_at w v o b.
Proof.
  intros Hk Hv Hsz Hop Hd Hr w vp. apply reachable_kernel_ok in Hk. destruct k as [wk sl]. cbn [k_world] in *. unfold w.
  assert (0 <= start <= end_ /\ end_ <= OFF_MAX) as Hrg by (apply (lf_range_ok (a_fl ap) size); try apply Hv; [lia | done]).
  pose proof (try_enter sl ap wk start end_ Hk Hrg) as He. pose proof (try_set sl ap wk start end_ Hk Hv Hrg Hop Hd) as Hs.
  destruct (request ap start end_ wk) as [[lo l] w1]. destruct He as (_ & _ & El & _ & Hat & Hli & Hed & _).
  destruct Hs as (r & w' & E & _ & Hspec & Hels). do 4 (split; [done|]). exists r, w'.
  unfold lf_advlockasync. by rewrite Hr.
Qed.

(** The writer of the file 8 wants a byte of the file 7 at once. *)
Lemma setlk_correct_witness :
  let w := k_world (k_after lock_events) in
  let '(lo, l, w1) := request (set_call 7 200 F_WRLCK 5 1 0) 5 5 w in
  exists w', setlock_spec 7 l (get_state 7 w1) (SetDone EAGAIN) w'.
Proof.
  pose proof (setlk_correct (k_after lock_events) (set_call 7 200 F_WRLCK 5 1 0) 0 5 5 lock_example_reachable
    (valid_set 7 200 F_WRLCK 5 1 0 (or_intror eq_refl) eq_refl (small_off 5 ltac:(lia)) (small_off 1 ltac:(lia)))
    ltac:(lia) eq_refl ltac:(vm_compute; reflexivity) ltac:(vm_compute; reflexivity)) as H.
  cbn zeta in H |- *. cbn [a_vp set_call] in H.
  destruct (request (set_call 7 200 F_WRLCK 5 1 0) 5 5 (k_world (k_after lock_events))) as [[lo l] w1].
  destruct H as (_ & _ & _ & _ & r & w' & E & Hs & _). exists w'.
  assert (option_map fst (match lf_advlockasync (set_call 7 200 F_WRLCK 5 1 0) 0 (k_world (k_after lock_events)) with
    Ok x => Some x | Panic _ => None end) = Some (Return EAGAIN (a_fl (set_call 7 200 F_WRLCK 5 1 0)) None)) as H by (vm_compute; reflexivity).
  rewrite E in H. destruct r as [e|c|c]; cbn in H; [|discriminate H|discriminate H].
  injection H as ->. exact Hs.
Defined.

(** C12: An unlock always succeeds: no byte of the range is locked by the owner
    any more, every other byte is locked as before but for the pending locks
    that could be granted: these leave the list of pending locks, the others
    stay. No lock of another file changes. *)
Theorem unlock_correct k ap size start end_ :
  reachable k -> valid_call ap -> 0 <= size < 2 ^ 64 -> a_op ap = F_UNLCK -> doomed (k_world k) (a_vp ap) = false ->
  lf_range (a_fl ap) size = inr (start, end_) -> let w := k_world k in let vp := a_vp ap in
  let '(lo, _, _) := request ap start end_ w in
  exists G w', lf_advlockasync ap size w = Ok (Return 0 (a_fl ap) None, w') /\ pending w vp ≡ₚ G ++ pending w' vp /\
    (forall o b, lock_at w' vp o b = fold_left set_range (request_lock ap start end_ lo :: map (lk w) G) (lock_at w vp) o b) /\
    (forall v o b, v <> vp -> lock_at w' v o b = lock_at w v o b).
Proof.
  intros Hk Hv Hsz Hop Hd Hr w vp. apply reachable_kernel_ok in Hk. destruct k as [wk sl]. cbn [k_world] in *. unfold w, vp, lf_advlockasync. rewrite Hr.
  assert (0 <= start <= end_ /\ end_ <= OFF_MAX) as Hrg by (apply (lf_range_ok (a_fl ap) size); try apply Hv; [lia | done]).
  pose proof (vc_unlock _ Hv Hop) as Ht. destruct (lf_states wk !! a_vp ap) as [s|] eqn:Es.
  - pose proof (try_unlock sl ap wk start end_ Hk Hv Hrg Hop Hd) as H. rewrite Es in H. specialize (H ltac:(by exists s)).
    destruct (request ap start end_ wk) as [[lo l] w1]. destruct H as (G & w' & E & _ & H). by exists G, w'.
  - destruct (request ap start end_ wk) as [[lo l] w1]. exists [], wk. rewrite (try_none ap wk start end_) by (rewrite ?Hop; done).
    split; [|split; [done|split; [|done]]].
    + do 3 f_equal. destruct (a_fl ap). cbn in Ht |- *. by subst.
    + intros o b. unfold lock_at, st. rewrite Es. cbn. unfold set_range, request_lock. cbn [lf_owner lf_start lf_end lf_type].
      rewrite Ht. by destruct (_ && _).
Qed.

(** The writer gives up the bytes 10 to 14 of its 100 bytes. *)
Lemma unlock_correct_witness :
  let w := k_world (k_after lock_events) in
  let '(lo, _, _) := request (unlock_call 7 100 10 5) 10 14 w in
  exists G w', lf_advlockasync (unlock_call 7 100 10 5) 0 w = Ok (Return 0 (a_fl (unlock_call 7 100 10 5)) None, w') /\
    pending w 7 ≡ₚ G ++ pending w' 7.
Proof.
  pose proof (unlock_correct (k_after lock_events) (unlock_call 7 100 10 5) 0 10 14 lock_example_reachable
    (valid_unlock 7 100 10 5 (small_off 10 ltac:(lia)) (small_off 5 ltac:(lia)))
    ltac:(lia) eq_refl ltac:(vm_compute; reflexivity) ltac:(vm_compute; reflexivity)) as H.
  cbn zeta in H |- *. cbn [a_vp unlock_call] in H.
  destruct (request (unlock_call 7 100 10 5) 10 14 (k_world (k_after lock_events))) as [[lo l] w1].
  destruct H as (G & w' & E & HG & _). exists G, w'. split; [exact E | exact HG].
Defined.

(** The range of an answer of [lf_getlock]. *)
Lemma answer_range s e pid t sysid size : 0 <= s <= e -> e <= OFF_MAX ->
  lf_range (Flock s (if e =? OFF_MAX then 0 else e - s + 1) pid t SEEK_SET sysid) size = inr (s, e).
Proof.
  intros Hs He. unfold lf_range. cbn [l_whence l_start l_len Z.eqb orb SEEK_SET].
  destruct (Z.ltb_spec s 0); [lia|]. destruct (Z.eqb_spec e OFF_MAX) as [->|Hne]; [done|].
  destruct (Z.ltb_spec (e - s + 1) 0); [lia|]. destruct (Z.eqb_spec (e - s + 1) 0); [lia|].
  destruct (Z.ltb_spec (OFF_MAX - s) (e - s + 1 - 1)); [lia|]. do 2 f_equal. lia.
Qed.

(** C31: A question for a lock changes no lock. It is answered F_UNLCK, with the
    rest of the structure as it was, exactly when no active lock of another
    owner conflicts; otherwise with the type of a lock that does and with the
    process and the system of its owner, and the range of the answer is the
    range of that lock. *)
Theorem getlk_correct k ap size start end_ :
  reachable k -> valid_call ap -> 0 <= size < 2 ^ 64 -> a_op ap = F_GETLK -> doomed (k_world k) (a_vp ap) = false ->
  lf_range (a_fl ap) size = inr (start, end_) -> let w := k_world k in let vp := a_vp ap in
  let '(lo, _, _) := request ap start end_ w in
  exists fl w', lf_advlockasync ap size w = Ok (Return 0 fl None, w') /\ (forall v o b, lock_at w' v o b = lock_at w v o b) /\
    ((fl = set_l_type F_UNLCK (a_fl ap) /\
      forall q, q ∈ active w vp -> lf_blocks (request_lock ap start end_ lo) (lk w q) = false) \/
     (exists q, q ∈ active w vp /\ lf_blocks (request_lock ap start end_ lo) (lk w q) = true /\
      l_type fl = lf_type (lk w q) /\ l_pid fl = lo_pid (ow w (lf_owner (lk w q))) /\ l_sysid fl = lo_sysid (ow w (lf_owner (lk w q))) /\
      lf_range fl size = inr (lf_start (lk w q), lf_end (lk w q)))).
Proof.
  intros Hk Hv Hsz Hop Hd Hr w vp. apply reachable_kernel_ok in Hk. destruct k as [wk sl]. cbn [k_world] in *. unfold w, vp, lf_advlockasync. rewrite Hr.
  assert (0 <= start <= end_ /\ end_ <= OFF_MAX) as Hrg by (apply (lf_range_ok (a_fl ap) size); try apply Hv; [lia | done]).
  destruct (lf_states wk !! a_vp ap) as [s|] eqn:Es.
  - pose proof (try_getlk sl ap wk start end_ Hk Hrg Hop Hd) as H. rewrite Es in H. specialize (H ltac:(by exists s)).
    pose proof (try_enter sl ap wk start end_ Hk Hrg) as He. pose proof (f_base _ _ _ _ (fine_nil _ 0 (a_vp ap) wk (ko_fine _ Hk))) as Hb.
    pose proof (fun o Ho => request_ow _ _ ap start end_ wk o Hb Ho) as Hrow. cbn [sleeping k_world] in *.
    destruct (request ap start end_ wk) as [[lo l] w1]. destruct H as (w' & E & _ & Hat). destruct He as (Hbu & _ & El & _ & _ & Hli & _ & Hlk).
    pose proof (lf_getblock_ok _ _ _ _ l _ (bu_good _ _ _ _ Hbu)) as Hg. unfold lf_getlock in E.
    assert (forall q, q ∈ active wk (a_vp ap) -> lk (get_state (a_vp ap) w1) q = lk wk q) as Hlkq.
    { intros q Hq. apply Hlk. intros ->. destruct (hand_placed _ _ _ l _ (g_base _ _ _ _ _ _ (bu_good _ _ _ _ Hbu))) as (_ & Hn & _); [by left|].
      apply (Hn (a_vp ap)). by destruct (Hli (a_vp ap)) as [-> _]. }
    destruct (lf_getblock _ _ _) as [q|].
    + destruct Hg as [Hq Hbl]. destruct (Hli (a_vp ap)) as [Ea _]. rewrite Ea in Hq. rewrite El, (Hlkq q Hq) in Hbl. rewrite (Hlkq q Hq) in E.
      destruct (active_placed _ _ _ _ _ q Hb Hq) as (x & Hx & _).
      destruct (b_alloc _ _ _ _ Hb q x Hx) as (_ & Ho & [[Hx0 Hx1] Hx2] & _). rewrite <- (lk_Some wk q x Hx) in *.
      destruct (Hrow _ Ho) as [Ep Es']. eexists _, w'. split; [exact E|]. split; [exact Hat|]. right. exists q.
      split; [done|]. split; [done|]. cbn [l_type l_pid l_sysid]. do 3 (split; [done|]).
      by apply answer_range.
    + eexists _, w'. split; [exact E|]. split; [exact Hat|]. left. split; [done|]. intros q Hq. apply not_true_iff_false. intros Hbl.
      apply Hg. exists q. destruct (Hli (a_vp ap)) as [-> _]. by rewrite El, (Hlkq q Hq).
  - destruct (request ap start end_ wk) as [[lo l] w1]. eexists _, wk. rewrite (try_none ap wk start end_) by (rewrite ?Hop; done).
    split; [done|]. split; [done|]. left. split; [done|]. unfold st. rewrite Es. by intros q []%elem_of_nil.
Qed.

(** The second owner asks for a byte that the first has locked. *)
Lemma getlk_correct_witness :
  let w := k_world (k_after lock_events) in
  let '(lo, _, _) := request (ask_call 7 200 F_RDLCK 5 1) 5 5 w in
  exists fl w' q, lf_advlockasync (ask_call 7 200 F_RDLCK 5 1) 0 w = Ok (Return 0 fl None, w') /\ q ∈ active w 7 /\
    lf_range fl 0 = inr (lf_start (lk w q), lf_end (lk w q)).
Proof.
  pose proof (getlk_correct (k_after lock_events) (ask_call 7 200 F_RDLCK 5 1) 0 5 5 lock_example_reachable
    (valid_ask 7 200 F_RDLCK 5 1 (small_off 5 ltac:(lia)) (small_off 1 ltac:(lia)))
    ltac:(lia) eq_refl ltac:(vm_compute; reflexivity) ltac:(vm_compute; reflexivity)) as H.
  cbn zeta in H |- *. cbn [a_vp ask_call] in H.
  destruct (request (ask_call 7 200 F_RDLCK 5 1) 5 5 (k_world (k_after lock_events))) as [[lo l] w1].
  destruct H as (fl & w' & E & _ & [[Efl _]|(q & Hq & _ & _ & _ & _ & Hr)]).
  - assert (option_map fst (match lf_advlockasync (ask_call 7 200 F_RDLCK 5 1) 0 (k_world (k_after lock_events)) with
      Ok x => Some x | Panic _ => None end) = Some (Return 0 (Flock 0 100 100 F_WRLCK SEEK_SET 0) None)) as H by (vm_compute; reflexivity).
    rewrite E, Efl in H. discriminate H.
  - exists fl, w', q. split; [exact E|]. split; [exact Hq | exact Hr].
Defined.

(** Where a request starts, as a number, and the bytes it names. *)
Definition range_base (fl : flock) (size : Z) : Z := if l_whence fl =? SEEK_END then size + l_start fl else l_start fl.
Definition names_byte (fl : flock) (size b : Z) : Prop :=
  let base := range_base fl size in
  if l_len fl =? 0 then base <= b <= OFF_MAX
  else if l_len fl <? 0 then base + l_len fl <= b < base else base <= b < base + l_len fl.

(** C30: A request that names a whence the kernel knows has a range of bytes:
    these are the bytes from its start, or before it when the length is
    negative, and up to the largest offset when the length is 0. It is refused
    with EOVERFLOW exactly when the size of a file that it counts from, its
    start or its last byte is beyond the largest offset, and else with EINVAL
    exactly when its start or its first byte is negative. *)
Theorem lf_range_correct fl size :
  off_t (l_start fl) -> off_t (l_len fl) -> 0 <= size < 2 ^ 64 ->
  l_whence fl = SEEK_SET \/ l_whence fl = SEEK_CUR \/ l_whence fl = SEEK_END ->
  let base := range_base fl size in
  let huge := (l_whence fl = SEEK_END /\ OFF_MAX < size) \/ OFF_MAX < base \/ (0 <= base /\ 0 < l_len fl /\ OFF_MAX < base + l_len fl - 1) in
  let negative := base < 0 \/ base + l_len fl < 0 in
  match lf_range fl size with
  | inr (s, e) => 0 <= s <= e /\ e <= OFF_MAX /\ (forall b, s <= b <= e <-> names_byte fl size b) /\ ~ huge /\ ~ negative
  | inl err => (err = EOVERFLOW /\ huge) \/ (err = EINVAL /\ ~ huge /\ negative)
  end.
Proof.
  intros Hs Hl Hz Hw base huge negative. unfold off_t, names_byte in *. fold base.
  assert (0 < OFF_MAX) as HM by done.
  assert (lf_range fl size = if ((l_whence fl =? SEEK_END) && (OFF_MAX <? size)) || (OFF_MAX <? base) then inl EOVERFLOW else
    if base <? 0 then inl EINVAL
    else if l_len fl <? 0 then
      if base =? 0 then inl EINVAL else if base + l_len fl <? 0 then inl EINVAL else inr (base + l_len fl, base - 1)
    else if l_len fl =? 0 then inr (base, OFF_MAX)
    else if OFF_MAX - base <? l_len fl - 1 then inl EOVERFLOW else inr (base, base + (l_len fl - 1))) as ->.
  { unfold lf_range. destruct Hw as [E|[E|E]]; unfold base, range_base; rewrite E; cbn [Z.eqb Pos.eqb andb orb SEEK_SET SEEK_CUR SEEK_END];
      [by rewrite (proj2 (Z.ltb_ge OFF_MAX _)) by lia .. |].
    destruct (Z.ltb_spec OFF_MAX size); cbn [orb]; [done|].
    destruct (Z.ltb_spec 0 (l_start fl)), (Z.ltb_spec (OFF_MAX - l_start fl) size), (Z.ltb_spec OFF_MAX (size + l_start fl)); cbn [andb]; done || lia. }
  subst huge negative. destruct (_ || _) eqn:Hh.
  { left. split; [done|]. rewrite orb_true_iff, andb_true_iff, Z.eqb_eq, !Z.ltb_lt in Hh. tauto. }
  rewrite orb_false_iff, andb_false_iff, Z.eqb_neq, !Z.ltb_ge in Hh.
  destruct (Z.ltb_spec base 0); [right; split; [done | lia]|].
  destruct (Z.ltb_spec (l_len fl) 0).
  - rewrite (proj2 (Z.eqb_neq (l_len fl) 0)) by lia. destruct (Z.eqb_spec base 0); [right; split; [done | lia]|].
    destruct (Z.ltb_spec (base + l_len fl) 0); [right; split; [done | lia]|].
    split; [lia|]. split; [lia|]. split; [intros b; lia | lia].
  - destruct (Z.eqb_spec (l_len fl) 0); [split; [lia|]; split; [lia|]; split; [done | lia]|].
    destruct (Z.ltb_spec (OFF_MAX - base) (l_len fl - 1)); [left; split; [done | lia]|].
    split; [lia|]. split; [lia|]. split; [intros b; lia | lia].
Qed.

(** The last ten bytes of a file of 100, and a start that 64 bits would wrap. *)
Lemma lf_range_correct_witness :
  lf_range (Flock 0 (-10) 0 F_RDLCK SEEK_END 0) 100 = inr (90, 99) /\
  (forall b, 90 <= b <= 99 <-> names_byte (Flock 0 (-10) 0 F_RDLCK SEEK_END 0) 100 b) /\
  lf_range (Flock 1 0 0 F_RDLCK SEEK_END 0) OFF_MAX = inl EOVERFLOW.
Proof.
  assert (lf_range (Flock 0 (-10) 0 F_RDLCK SEEK_END 0) 100 = inr (90, 99)) as E by reflexivity.
  split; [exact E|]. split; [|reflexivity].
  assert (off_t (-10)) as Hl by (unfold off_t, OFF_MAX; lia).
  pose proof (lf_range_correct (Flock 0 (-10) 0 F_RDLCK SEEK_END 0) 100 (small_off 0 ltac:(lia)) Hl ltac:(lia) (or_intror (or_intror eq_refl))) as H.
  cbn zeta in H. rewrite E in H. apply H.
Defined.

(** C29: A thread whose pending lock was granted returns 0, whatever it was woken
    by, and keeps the lock; one that is interrupted while its lock is pending
    returns the error of the interruption, which is not 0, and the lock is
    pending no more. The pending locks that waited for it and that nothing blocks any more are
    granted, and no other byte of any file changes. *)
Theorem wake_correct k i error s :
  reachable k -> valid_event k (EvWake i error) -> sleeping k !! i = Some s ->
  let w := k_world k in let vp := a_vp (s_call s) in s_lock s ∈ active w vp \/ s_lock s ∈ pending w vp ->
  exists e G k', k_step (EvWake i error) k = Ok (Some (Return e (a_fl (s_call s)) None), k') /\
    sleeping k' = delete i (sleeping k) /\
    (forall o b, lock_at (k_world k') vp o b = fold_left set_range (map (lk w) G) (lock_at w vp) o b) /\
    (forall v o b, v <> vp -> lock_at (k_world k') v o b = lock_at w v o b) /\
    ((s_lock s ∈ active w vp /\ e = 0 /\ G = [] /\ pending (k_world k') vp = pending w vp) \/
     (s_lock s ∈ pending w vp /\ e = error /\ error <> 0 /\ pending w vp ≡ₚ s_lock s :: G ++ pending (k_world k') vp)).
Proof.
  intros Hk Hv Hs w vp Hp. apply reachable_kernel_ok in Hk. destruct k as [wk sl]. cbn [k_world sleeping] in *. unfold w.
  assert (kernel_ok (Kernel wk (s :: delete i sl))) as Hk1 by (eapply kernel_ok_perm; [by apply delete_Permutation | exact Hk]).
  assert (error = 0 -> s_lock s ∈ woken wk) as Hwk.
  { destruct Hv as (_ & t & Ht & H). cbn [sleeping k_world] in Ht, H. by simplify_eq. }
  destruct (wake_stays (delete i sl) s wk Hk1 error (proj1 Hv) Hwk Hp) as (e & G & w' & E & _ & H). cbn [k_step k_world sleeping].
  rewrite Hs, E, bind_Ok. by eexists e, G, _.
Qed.

(** A signal wakes the reader: its request is gone. *)
Lemma wake_correct_witness :
  exists k', k_step (EvWake 0 EINTR) (k_after lock_events) = Ok (Some (Return EINTR (a_fl (s_call reader)) None), k') /\
    sleeping k' = [] /\ exists G, pending (k_world (k_after lock_events)) 7 ≡ₚ 5 :: G ++ pending (k_world k') 7.
Proof.
  assert (sleeping (k_after lock_events) = [reader]) as Es by (vm_compute; reflexivity).
  assert (pending (k_world (k_after lock_events)) 7 = [5] /\ active (k_world (k_after lock_events)) 7 = [2]) as [Ep Ea] by (vm_compute; split; reflexivity).
  destruct (wake_correct (k_after lock_events) 0 EINTR reader lock_example_reachable) as (e & G & k' & E & Hsl & _ & _ & H).
  - split; [done|]. exists reader. split; [by rewrite Es|]. done.
  - by rewrite Es.
  - right. cbn [a_vp s_call reader set_call s_lock]. rewrite Ep. by left.
  - cbn [a_vp s_call reader set_call s_lock] in H. rewrite Ep, Ea in H.
    destruct H as [(H & _)|(_ & -> & _ & HG)]; [by apply list_elem_of_singleton in H|].
    exists k'. split; [exact E|]. split; [by rewrite Hsl, Es|]. exists G. rewrite Ep. exact HG.
Defined.
